(* ===== verification/_CoqProject ===== *)
-Q . S2P
Prelude.v
Words.v
CString.v
CStdlib.v
HeapSort.v
Bitmap.v
Palloc.v
KList.v
KListSpec.v
KListSort.v
KListOps.v
Malloc.v
MallocSpec.v
MallocOps.v
MallocProps.v
Hash.v
HashSpec.v
HashOps.v
HashProps.v
Sched.v
SchedSpec.v
SchedInv.v
SchedSteps.v
SchedOps.v
SchedProps.v
Arith.v
Stdio.v
StdioSpec.v
Ustar.v
Pagedir.v
PagedirSpec.v
PagedirOps.v
PagedirProps.v
PagedirCopy.v
PagedirFork.v
PagedirDemo.v
Load.v
LoadSpec.v
LoadImage.v
LoadProps.v
UserMem.v
UserCall.v
Args.v
Ring.v
Monitor.v
RwLock.v
Synch.v
SynchSpec.v
SynchSteps.v
SynchProps.v
Process.v
ProcessSpec.v
ProcessInv.v
ProcessProps.v
Queue.v
Pipe.v
Block.v
Cache.v
CacheSpec.v
CacheClient.v
Fs.v
Inode.v
InodeTree.v
InodeLookup.v
InodeIO.v
FsInv.v
Release.v
InodeOps.v
Directory.v
DirOps.v
File.v
Filesys.v
Syscall.v
FileFrame.v
SyscallProps.v
Format.v
FsProps.v
InodeProps.v
DirProps.v
LoadFile.v
