(* ===== verification/Prelude.v ===== *)
(** * Verification of "Modeling Unix in PintOS"

    The program is a teaching kernel in C (src/src): threads with a fair
    scheduler on several CPUs, synchronization primitives, page and block
    allocators, page directories for user processes, a buffer cache, a file
    system with directories, open files and pipes, device drivers, and the C
    library they use. This library models the parts below in Rocq, one
    definition per C function or type and with the names of the source, and
    proves what they promise.

    ** How C is modelled

    Integers are [Z] with the conversions of their C types written out
    ([u8], [u32], [u64], [s32], [s64]). A routine returns [Ok], or ends in a
    failed [ASSERT] or [PANIC] ([Err Panic]), in an access outside an object
    ([Err Fault]), or in a wait that nothing can end ([Err Block]). Code that
    changes state is in the state monad [ST]; [wp] is total correctness, so
    that a specification also says that the routine returns. Loops recurse on
    a count that the code bounds, or use [loop], which gives up after 2^33
    rounds: more than a 32-bit counter or pointer can go through; the
    specifications prove that it does not give up. Memory is as the code
    needs it: bytes at addresses (Malloc, Pagedir, HeapSort), one byte string
    (CString, Stdio, Ustar), a store of list elements (KList, Sched, Hash),
    sectors of a device (Block).

    ** Library code

    - Prelude: outcomes, the monad, loops, tactics. Words: integers as bytes.
    - CString (lib/string.c), CStdlib and HeapSort (lib/stdlib.c): the C
      library; [memmove], [strtok_r], sorting, searching, [atoi].
    - Arith (lib/arithmetic.c): 64-bit division from 32-bit division.
    - Stdio, StdioSpec (lib/stdio.c): formatted output; it is
      bounded by the buffer, and [atoi] reads back what [%d] writes.
    - Ustar (lib/ustar.c): headers of tar archives; a round trip.
    - Bitmap (lib/kernel/bitmap.c): bits in 32-bit elements; refinement of
      sequences of bits, failed assertions included.
    - KList, KListSpec, KListSort, KListOps (lib/kernel/list.c):
      doubly linked lists as [prev] and [next] fields in a store, and the
      lists of Rocq that they stand for; the merge sort terminates and sorts.
    - Hash, HashSpec, HashOps, HashProps (lib/kernel/hash.c): hash tables over
      those lists and over any block allocator (a class); they refine sets.

    ** Memory

    - Palloc (threads/palloc.c, threads/vaddr.h): pools of pages over
      bitmaps, and the class that the allocators above rely on.
    - Malloc, MallocSpec, MallocOps, MallocProps (threads/malloc.c): arenas of
      equal blocks; refinement of a set of disjoint blocks with contents.
    - Pagedir, PagedirSpec, PagedirOps, PagedirProps, PagedirCopy, PagedirFork,
      PagedirDemo (userprog/pagedir.c, threads/pte.h): two-level page tables
      in memory, the TLBs of the CPUs and the flush protocol; refinement of
      maps from pages to frames with coherent TLBs, copying and destroying.

    ** Threads

    - Sched, SchedSpec, SchedInv, SchedSteps, SchedOps, SchedProps
      (threads/scheduler.c, threads/thread.c): ready queues of each CPU, the
      states of threads and context switches as a step relation; consistency
      along every sequence of events, the one event that reads outside of the
      table of weights, the choice of the next thread, and the fairness of
      time slices.
    - Monitor: monitors with condition variables as interleavings of whole
      segments of routines, and refinement between monitors.
    - Synch, SynchSpec, SynchSteps, SynchProps (threads/synch.c): semaphores,
      locks and condition variables, each access to shared data a step of its
      own; they implement Monitor for any routines, without lost wakeups.
    - RwLock (filesys/rw-lock.c), Ring, Queue (lib/kernel/queue.c), Pipe
      (filesys/pipe.c): monitors with any number of threads. The module
      SynchRw of SynchProps: the read-write lock on the primitives of Synch.
    - Process, ProcessSpec, ProcessInv, ProcessProps (userprog/process.c):
      creation, waiting and exit of processes, each access to the data that a
      parent and a child share a step of its own; no use after free but for
      two races, which lead to one wherever they happen; statuses of
      children; and progress along the relation of who waits for whom.
    - Load, LoadSpec, LoadImage, LoadProps, LoadFile (the loader of
      userprog/process.c, and vm/mem.c): programs in memory. The loader reads
      an executable through a class ([Executable]) that open files implement
      (LoadFile); the address space of the process is the image that the
      file describes ([describes], [program_image]), whatever bytes the file
      has. [mem_sbrk] adds zero pages to the image, or stops where memory or
      the room for the heap ends.
    - Args ([setup_args] of userprog/process.c): the arguments of a program
      on its stack; the program finds the words of its command line. What
      [malloc] and [calloc] give for the sizes asked for is a parameter, which
      the witnesses instantiate with the block sizes of Malloc.

    ** System calls

    - UserMem (userprog/syscall.c): the reads of the memory of the process,
      with their checks, and the request that the handler makes of them.
      UserCall (lib/user/syscall.c): what the user library pushes on the
      stack; requests arrive as they were made and are confined to the memory
      of the process.
    - Syscall, FileFrame, SyscallProps (userprog/syscall.c, and what
      process.c and thread.c do with descriptors): the calls on files on top
      of the file system below, for processes that take turns between calls;
      FileFrame says what each routine of the file system does to the
      reference counts of open files, and the counts agree with the
      descriptors and executables in every run that completes.

    ** File system

    - Block (devices/block.c): a device of sectors, and the scan of its
      partition table (devices/partition.c). Cache, CacheSpec,
      CacheClient (filesys/cache.c): the buffer cache and the class of caches
      that the file system is proved against.
    - Fs, Inode, InodeTree, InodeLookup, InodeIO, FsInv, Release, InodeOps,
      InodeProps (filesys/inode.c, filesys/free-map.c): inodes with direct,
      indirect and doubly indirect sectors; the invariant of the disk (every
      sector of a file exists, is allocated and has one owner).
    - Directory, DirOps, DirProps (filesys/directory.c): directories as maps
      from names to sectors. File (filesys/file.c): open files.
    - Filesys, Format, FsProps (filesys/filesys.c): formatting,
      mounting, unmounting, and the operations on paths.

    ** Theorems

    Refinement theorems say that sequences of operations are answered as by
    an abstract object: an array of sectors (the cache), a set of blocks
    (malloc), a set of elements (hash tables), a map (directories, page
    directories), a sequence of bits (bitmaps), a bounded list (queues,
    pipes), a monitor (the synchronization primitives). Functional theorems give the result and the
    whole effect of one operation. Invariant and safety theorems hold along
    every sequence of events. Error theorems say in which states the code does
    not do what it means to. Where a theorem leaves out states in which the
    code fails (a disk without free sectors, a race), the condition is one of
    its hypotheses, and its comment names it.

    ** Not modelled

    Drivers (IDE, USB, PCI, serial line, keyboard, screen, timers and
    interrupt controllers), interrupt handling, processor start-up and
    assembly are port input and output, privileged instructions and timing,
    of which the sources give no semantics. Spinlocks and interrupt levels
    appear as the atomicity of what they protect. [h_bytes] of Malloc holds
    the contents of blocks; headers of arenas and links of free blocks are
    fields of their own. Of page faults only the
    result of a read of user memory is modelled. The allocator of user
    programs is not modelled.
    Kernel start-up, the console and debugging output print. Of the timer
    only the clock is read. Files are used by one thread at a time; the
    interleavings of threads are modelled for the monitors, the primitives
    and the scheduler. User programs, tests and host tools are not part of
    the kernel. *)

From stdpp Require Export base list list_numbers numbers gmap.
From stdpp Require Import options.
From Stdlib Require Export ZArith Lia.

#[global] Open Scope Z_scope.

Create HintDb kernel discriminated.

(** * Machine integers

    C integers are kept as [Z] in the range of their type; every
    arithmetic operation that can leave the range is followed by the
    conversion the C type performs. *)

Definition u8 (x : Z) : Z := x mod 2 ^ 8.
Definition u32 (x : Z) : Z := x mod 2 ^ 32.
Definition u64 (x : Z) : Z := x mod 2 ^ 64.
Definition s32 (x : Z) : Z := (x + 2 ^ 31) mod 2 ^ 32 - 2 ^ 31.
Definition s64 (x : Z) : Z := (x + 2 ^ 63) mod 2 ^ 64 - 2 ^ 63.

(** [SIZE_MAX], also the value of [(uint32_t) -1]. *)
Definition SIZE_MAX : Z := 2 ^ 32 - 1.

Lemma u32_small (x : Z) : 0 <= x < 2 ^ 32 -> u32 x = x.
Proof. apply Z.mod_small. Qed.

Lemma u64_small (x : Z) : 0 <= x < 2 ^ 64 -> u64 x = x.
Proof. apply Z.mod_small. Qed.

Lemma u8_small (x : Z) : 0 <= x < 2 ^ 8 -> u8 x = x.
Proof. apply Z.mod_small. Qed.

Lemma u32_range (x : Z) : 0 <= u32 x < 2 ^ 32.
Proof. by apply Z.mod_pos_bound. Qed.

Lemma u64_range (x : Z) : 0 <= u64 x < 2 ^ 64.
Proof. by apply Z.mod_pos_bound. Qed.

Lemma u8_range (x : Z) : 0 <= u8 x < 2 ^ 8.
Proof. by apply Z.mod_pos_bound. Qed.

Lemma s32_small (x : Z) : - 2 ^ 31 <= x < 2 ^ 31 -> s32 x = x.
Proof. intros. unfold s32. rewrite Z.mod_small; lia. Qed.

Lemma s64_small (x : Z) : - 2 ^ 63 <= x < 2 ^ 63 -> s64 x = x.
Proof. intros. unfold s64. rewrite Z.mod_small; lia. Qed.

#[export] Hint Resolve u8_range u32_range u64_range : kernel.
#[export] Hint Rewrite u8_small u32_small u64_small s32_small s64_small using lia : kernel.

(** * Outcomes

    A kernel routine returns, or ends in one of three ways the source
    distinguishes: a failed [ASSERT] or a [PANIC] halts the machine
    ([Panic]); an access outside an object is undefined behaviour
    ([Fault]); a wait that nothing in the modelled run can end blocks
    the calling thread ([Block]). *)

Inductive err := Panic | Fault | Block.

#[global] Instance err_eq_dec : EqDecision err.
Proof. solve_decision. Defined.

Inductive res (A : Type) : Type :=
| Ok (a : A)
| Err (e : err).
Arguments Ok {A} _.
Arguments Err {A} _.

Definition rbind {A B : Type} (m : res A) (k : A -> res B) : res B :=
  match m with
  | Ok a => k a
  | Err e => Err e
  end.

Definition assert (b : bool) : res unit := if b then Ok tt else Err Panic.

(** An access the C program makes without a check: [None] is outside
    the object. *)
Definition access {A : Type} (o : option A) : res A :=
  match o with
  | Some a => Ok a
  | None => Err Fault
  end.

Declare Scope kernel_scope.
Delimit Scope kernel_scope with kernel.
#[global] Open Scope kernel_scope.

Notation "'let*' x := m 'in' k" := (rbind m (fun x => k))
  (at level 10, x pattern, m at level 100, k at level 200) : kernel_scope.
Notation "'check' b 'in' k" := (rbind (assert b) (fun _ => k))
  (at level 10, b at level 100, k at level 200)
  : kernel_scope.

(** [wpr m Q]: [m] returns, and its result satisfies [Q]. *)
Definition wpr {A : Type} (m : res A) (Q : A -> Prop) : Prop :=
  match m with
  | Ok a => Q a
  | Err _ => False
  end.

Lemma wpr_ok {A} (m : res A) (Q : A -> Prop) :
  wpr m Q <-> exists a, m = Ok a /\ Q a.
Proof. destruct m; simpl; naive_solver. Qed.

Lemma wpr_bind {A B} (m : res A) (k : A -> res B) (Q : B -> Prop) :
  wpr (rbind m k) Q <-> wpr m (fun a => wpr (k a) Q).
Proof. by destruct m. Qed.

Lemma wpr_mono {A} (m : res A) (P Q : A -> Prop) :
  wpr m P -> (forall a, P a -> Q a) -> wpr m Q.
Proof. destruct m; naive_solver. Qed.

(** * Stateful routines *)

Definition ST (S A : Type) : Type := S -> res (A * S).

Definition ret {S A : Type} (a : A) : ST S A := fun s => Ok (a, s).

Definition bind {S A B : Type} (m : ST S A) (k : A -> ST S B) : ST S B :=
  fun s => match m s with
           | Ok (a, s') => k a s'
           | Err e => Err e
           end.

Definition fail {S A : Type} (e : err) : ST S A := fun _ => Err e.
Definition lift {S A : Type} (m : res A) : ST S A :=
  fun s => match m with Ok a => Ok (a, s) | Err e => Err e end.
Definition gets {S A : Type} (f : S -> A) : ST S A := fun s => Ok (f s, s).
Definition modify {S : Type} (f : S -> S) : ST S unit := fun s => Ok (tt, f s).
Definition ASSERT {S : Type} (b : bool) : ST S unit := lift (assert b).

Notation "'let!' x := m 'in' k" := (bind m (fun x => k))
  (at level 10, x pattern, m at level 100, k at level 200) : kernel_scope.
Notation "m ;;; k" := (bind m (fun _ => k))
  (at level 199, right associativity) : kernel_scope.

(** Total correctness: [wp m Q s] says that [m] run from [s] returns,
    in a state and with a result that satisfy [Q]. *)
Definition wp {S A : Type} (m : ST S A) (Q : A -> S -> Prop) (s : S) : Prop :=
  match m s with
  | Ok (a, s') => Q a s'
  | Err _ => False
  end.

Section wp_rules.
Context {S A B : Type}.
Implicit Types (m : ST S A) (s : S).

Lemma wp_ok m Q s :
  wp m Q s <-> exists a s', m s = Ok (a, s') /\ Q a s'.
Proof. unfold wp. destruct (m s) as [[??]|]; naive_solver. Qed.

Lemma wp_ret (a : A) Q s : Q a s -> wp (ret a) Q s.
Proof. done. Qed.

Lemma wp_gets (f : S -> A) Q s : Q (f s) s -> wp (gets f) Q s.
Proof. done. Qed.

Lemma wp_modify (f : S -> S) Q s : Q tt (f s) -> wp (modify f) Q s.
Proof. done. Qed.

Lemma wp_ASSERT (b : bool) Q s : b = true -> Q tt s -> wp (ASSERT b) Q s.
Proof. by intros ->. Qed.

Lemma wp_lift (r : res A) Q s : wpr r (fun a => Q a s) -> wp (lift r) Q s.
Proof. by destruct r. Qed.

Lemma wp_bind m (k : A -> ST S B) Q s :
  wp m (fun a => wp (k a) Q) s -> wp (bind m k) Q s.
Proof. unfold wp, bind. by destruct (m s) as [[??]|]. Qed.

(** Code that fails, after a part that completes, or in its first part. *)
Lemma err_bind m (k : A -> ST S B) e s :
  wp m (fun a s' => k a s' = Err e) s -> bind m k s = Err e.
Proof. unfold wp, bind. by destruct (m s) as [[??]|]. Qed.

Lemma err_first m (k : A -> ST S B) e s : m s = Err e -> bind m k s = Err e.
Proof. unfold bind. by intros ->. Qed.

Lemma wp_bind_inv m (k : A -> ST S B) Q s :
  wp (bind m k) Q s -> wp m (fun a => wp (k a) Q) s.
Proof. unfold wp, bind. by destruct (m s) as [[??]|]. Qed.

Lemma wp_mono m (P Q : A -> S -> Prop) s :
  wp m P s -> (forall a s', P a s' -> Q a s') -> wp m Q s.
Proof. unfold wp. destruct (m s) as [[??]|]; naive_solver. Qed.
End wp_rules.

#[export] Hint Resolve wp_ret wp_gets wp_modify wp_ASSERT : kernel.

(** One step of symbolic execution of a routine. *)
Ltac wp_step :=
  lazymatch goal with
  | |- wp (bind _ _) _ _ => apply wp_bind
  | |- wp (ret _) _ _ => apply wp_ret
  | |- wp (gets _) _ _ => apply wp_gets; cbn beta
  | |- wp (modify _) _ _ => apply wp_modify; cbn beta
  | |- wp (ASSERT _) _ _ => apply wp_ASSERT
  end.
Ltac wp_steps := repeat wp_step.

(** Use a proved specification of the routine in head position. *)
Ltac wp_use H := eapply wp_mono; [ eapply H | ].

(** * Loops

    [run n body x] repeats [body] from the loop state [x] until it
    leaves with a result ([inr]), at most [2 ^ n] times. *)

Fixpoint run {S X A : Type} (n : nat) (body : X -> ST S (X + A)) (x : X) : ST S (X + A) :=
  match n with
  | O => body x
  | Datatypes.S n =>
      let! r := run n body x in
      match r with
      | inl x => run n body x
      | inr a => ret (inr a)
      end
  end.

(** A [for] or [while] loop; 2 ^ 33 rounds are more than any counter or
    pointer of the machine can go through. *)
Definition loop {S X A : Type} (body : X -> ST S (X + A)) (x : X) : ST S A :=
  let! r := run 33 body x in
  match r with
  | inl _ => fail Block
  | inr a => ret a
  end.

Section loops.
Context {S X A : Type} (body : X -> ST S (X + A)) (I : nat -> X -> S -> Prop)
  (Q : A -> S -> Prop).
Context (Hbody : forall k x s, I k x s ->
  wp (body x) (fun r s' => match r with
                           | inl x' => exists k', (k' < k)%nat /\ I k' x' s'
                           | inr a => Q a s'
                           end) s).

Lemma wp_run n : forall k x s, I k x s ->
  wp (run n body x) (fun r s' => match r with
                                 | inl x' => exists k', Z.of_nat k' + 2 ^ Z.of_nat n <= Z.of_nat k /\ I k' x' s'
                                 | inr a => Q a s'
                                 end) s.
Proof using Hbody.
  induction n as [|n IH]; intros k x s HI; cbn [run].
  { eapply wp_mono; [by apply (Hbody k)|]. intros [x'|a] s'; [|done].
    intros (k' & Hk & HI'). exists k'. split; [|done]. change (2 ^ Z.of_nat 0) with 1. lia. }
  apply wp_bind. eapply wp_mono; [by apply (IH k)|]. intros [x1|a] s1; [|by intros; apply wp_ret].
  intros (k1 & Hk1 & HI1). eapply wp_mono; [by apply (IH k1)|]. intros [x2|a] s2; [|done].
  intros (k2 & Hk2 & HI2). exists k2. split; [|done].
  rewrite Nat2Z.inj_succ, Z.pow_succ_r by lia. lia.
Qed.

(** A loop whose measure [k] goes down at every round. *)
Lemma wp_loop k x s : I k x s -> Z.of_nat k < 2 ^ 33 -> wp (loop body x) Q s.
Proof using Hbody.
  intros HI Hk. unfold loop. apply wp_bind. eapply wp_mono; [by apply (wp_run 33 k)|].
  intros [x'|a] s'; [|by intros; apply wp_ret]. intros (k' & Hk' & _).
  change (Z.of_nat 33) with 33 in Hk'. lia.
Qed.
End loops.

(** * Boolean tests *)

Ltac btest :=
  repeat match goal with
  | H : (_ <? _) = true |- _ => apply Z.ltb_lt in H
  | H : (_ <? _) = false |- _ => apply Z.ltb_ge in H
  | H : (_ <=? _) = true |- _ => apply Z.leb_le in H
  | H : (_ <=? _) = false |- _ => apply Z.leb_gt in H
  | H : (_ =? _) = true |- _ => apply Z.eqb_eq in H
  | H : (_ =? _) = false |- _ => apply Z.eqb_neq in H
  | H : negb _ = true |- _ => apply negb_true_iff in H
  | H : negb _ = false |- _ => apply negb_false_iff in H
  | H : andb _ _ = true |- _ => apply andb_true_iff in H as [??]
  | H : orb _ _ = false |- _ => apply orb_false_iff in H as [??]
  end.

(** Case analysis on the first integer comparison of the goal. *)
Ltac ztest :=
  match goal with
  | |- context [?x <? ?y] => destruct (Z.ltb_spec x y)
  | |- context [?x <=? ?y] => destruct (Z.leb_spec x y)
  | |- context [?x =? ?y] => destruct (Z.eqb_spec x y)
  end.

(** Reduce a comparison whose outcome [lia] knows. *)
Lemma ltb_true (x y : Z) : x < y -> (x <? y) = true.
Proof. apply Z.ltb_lt. Qed.
Lemma ltb_false (x y : Z) : y <= x -> (x <? y) = false.
Proof. apply Z.ltb_ge. Qed.
Lemma leb_true (x y : Z) : x <= y -> (x <=? y) = true.
Proof. apply Z.leb_le. Qed.
Lemma leb_false (x y : Z) : y < x -> (x <=? y) = false.
Proof. apply Z.leb_gt. Qed.
Lemma eqb_true (x y : Z) : x = y -> (x =? y) = true.
Proof. apply Z.eqb_eq. Qed.
Lemma eqb_false (x y : Z) : x <> y -> (x =? y) = false.
Proof. apply Z.eqb_neq. Qed.
