(* ===== verification/Words.v ===== *)
(** Memory as lists of bytes: the 32-bit little-endian words that the
    on-disk structures are made of (block_sector_t, off_t and int fields
    of src/src/filesys/inode.c and directory.c), and copies of ranges of
    bytes ([memcpy]). *)
From S2P Require Import Prelude.
From stdpp Require Import options.

Definition byte_at (d : list Z) (i : nat) : Z := u8 (nth i d 0).

Definition word (d : list Z) (k : nat) : Z :=
  byte_at d (4 * k) + 2 ^ 8 * byte_at d (4 * k + 1) +
  2 ^ 16 * byte_at d (4 * k + 2) + 2 ^ 24 * byte_at d (4 * k + 3).

Definition le32 (w : Z) : list Z :=
  [w mod 2 ^ 8; w / 2 ^ 8 mod 2 ^ 8; w / 2 ^ 16 mod 2 ^ 8; w / 2 ^ 24 mod 2 ^ 8].

(** Copy [l] over [d] from offset [ofs] on. *)
Definition overwrite (ofs : nat) (l d : list Z) : list Z := list_inserts ofs l d.

Definition set_word (d : list Z) (k : nat) (w : Z) : list Z := overwrite (4 * k) (le32 w) d.

(** The bytes [ofs .. ofs + n) of [d]; [None] when they are not all
    inside. *)
Definition slice (d : list Z) (ofs n : Z) : option (list Z) :=
  if (0 <=? ofs) && (0 <=? n) && (ofs + n <=? Z.of_nat (length d))
  then Some (take (Z.to_nat n) (drop (Z.to_nat ofs) d)) else None.

(** [memcpy (d + ofs, l, length l)] *)
Definition copy_in (d : list Z) (ofs : Z) (l : list Z) : option (list Z) :=
  if (0 <=? ofs) && (ofs + Z.of_nat (length l) <=? Z.of_nat (length d))
  then Some (overwrite (Z.to_nat ofs) l d) else None.

(** The loop that stores [w] in [n] words from word [i] on. *)
Fixpoint fill_words (n i : nat) (w : Z) (d : list Z) : list Z :=
  match n with
  | O => d
  | S n => fill_words n (S i) w (set_word d i w)
  end.

(** The bytes of an array of 32-bit words, and back. *)
Definition words_bytes (l : list Z) : list Z := concat (map le32 l).

Fixpoint bytes_words (n : nat) (i : nat) (d : list Z) : list Z :=
  match n with
  | O => []
  | S n => word d i :: bytes_words n (S i) d
  end.

(** * Lemmas *)

Lemma byte_at_range d i : 0 <= byte_at d i < 2 ^ 8.
Proof. apply u8_range. Qed.

Lemma byte_at_lookup d i b : d !! i = Some b -> byte_at d i = u8 b.
Proof. intros H. unfold byte_at. by rewrite (nth_lookup_Some _ _ _ _ H). Qed.

Lemma byte_at_ext d d' i : d !! i = d' !! i -> byte_at d i = byte_at d' i.
Proof. intros H. unfold byte_at. by rewrite !nth_lookup, H. Qed.

Lemma word_range d k : 0 <= word d k < 2 ^ 32.
Proof.
  unfold word. pose proof (byte_at_range d (4 * k)). pose proof (byte_at_range d (4 * k + 1)).
  pose proof (byte_at_range d (4 * k + 2)). pose proof (byte_at_range d (4 * k + 3)). lia.
Qed.

Lemma le32_combine w :
  0 <= w < 2 ^ 32 ->
  w mod 2 ^ 8 + 2 ^ 8 * (w / 2 ^ 8 mod 2 ^ 8) + 2 ^ 16 * (w / 2 ^ 16 mod 2 ^ 8) +
    2 ^ 24 * (w / 2 ^ 24 mod 2 ^ 8) = w.
Proof.
  intros Hw.
  replace (w / 2 ^ 16) with (w / 2 ^ 8 / 2 ^ 8) by (rewrite Z.div_div by lia; done).
  replace (w / 2 ^ 24) with (w / 2 ^ 8 / 2 ^ 8 / 2 ^ 8) by (rewrite !Z.div_div by lia; done).
  set (a := w / 2 ^ 8). set (b := a / 2 ^ 8). set (c := b / 2 ^ 8).
  assert (Hc : 0 <= c < 2 ^ 8).
  { unfold c, b, a. rewrite !Z.div_div by lia. split; [apply Z.div_pos; lia|].
    apply Z.div_lt_upper_bound; lia. }
  rewrite (Z.mod_small c) by done.
  pose proof (Z.div_mod w (2 ^ 8) ltac:(lia)) as H1. fold a in H1.
  pose proof (Z.div_mod a (2 ^ 8) ltac:(lia)) as H2. fold b in H2.
  pose proof (Z.div_mod b (2 ^ 8) ltac:(lia)) as H3. fold c in H3. lia.
Qed.

Lemma le32_range w : Forall (fun b => 0 <= b < 2 ^ 8) (le32 w).
Proof. repeat constructor; apply Z.mod_pos_bound; lia. Qed.

Lemma length_overwrite ofs l d : length (overwrite ofs l d) = length d.
Proof. apply length_inserts. Qed.

Lemma length_set_word d k w : length (set_word d k w) = length d.
Proof. apply length_inserts. Qed.

Lemma byte_set_word d k w j :
  (4 * k + 4 <= length d)%nat -> (j < 4)%nat ->
  byte_at (set_word d k w) (4 * k + j) = u8 (nth j (le32 w) 0).
Proof.
  intros Hd Hj. unfold byte_at, set_word, overwrite. rewrite nth_lookup.
  rewrite list_lookup_inserts by (cbn [length le32]; lia).
  replace (4 * k + j - 4 * k)%nat with j by lia. by rewrite <- nth_lookup.
Qed.

Lemma byte_set_word_ne d k w i :
  (i < 4 * k \/ 4 * k + 4 <= i)%nat -> byte_at (set_word d k w) i = byte_at d i.
Proof.
  intros Hi. apply byte_at_ext. unfold set_word, overwrite.
  destruct Hi; [apply list_lookup_inserts_lt|apply list_lookup_inserts_ge]; cbn [length le32]; lia.
Qed.

Lemma word_set_eq d k w :
  (4 * k + 4 <= length d)%nat -> 0 <= w < 2 ^ 32 -> word (set_word d k w) k = w.
Proof.
  intros Hd Hw. unfold word.
  pose proof (byte_set_word d k w 0 Hd ltac:(lia)) as H0. rewrite Nat.add_0_r in H0.
  rewrite H0, !byte_set_word by lia. cbn [nth le32]. unfold u8. rewrite !Z.mod_mod by lia.
  by apply le32_combine.
Qed.

Lemma word_set_ne d k k' w : k <> k' -> word (set_word d k w) k' = word d k'.
Proof. intros Hk. unfold word. rewrite !byte_set_word_ne by lia. done. Qed.

Lemma length_fill_words n i w d : length (fill_words n i w d) = length d.
Proof.
  revert i d. induction n as [|n IH]; intros i d; cbn [fill_words]; [done|]. by rewrite IH, length_set_word.
Qed.

Lemma word_fill_words n w : forall i d k,
  (4 * (i + n) <= length d)%nat -> 0 <= w < 2 ^ 32 ->
  word (fill_words n i w d) k =
    if decide (i <= k < i + n)%nat then w else word d k.
Proof.
  induction n as [|n IH]; intros i d k Hd Hw; cbn [fill_words].
  { rewrite decide_False by lia. done. }
  rewrite IH by (rewrite ?length_set_word; lia).
  destruct (decide (k = i)) as [->|Hne].
  - rewrite decide_False by lia. rewrite decide_True by lia. apply word_set_eq; lia.
  - rewrite word_set_ne by lia. destruct (decide (S i <= k < S i + n)%nat).
    + by rewrite decide_True by lia.
    + by rewrite decide_False by lia.
Qed.

Lemma slice_Some d ofs n :
  0 <= ofs -> 0 <= n -> ofs + n <= Z.of_nat (length d) ->
  exists l, slice d ofs n = Some l /\ Z.of_nat (length l) = n /\
    forall i, (i < Z.to_nat n)%nat -> l !! i = d !! (Z.to_nat ofs + i)%nat.
Proof.
  intros Ho Hn Hd. unfold slice. rewrite !leb_true by lia. cbn [andb].
  eexists. split; [done|]. split.
  - rewrite length_take, length_drop. lia.
  - intros i Hi. rewrite lookup_take_lt by lia. by rewrite lookup_drop.
Qed.

Lemma copy_in_Some d ofs l :
  0 <= ofs -> ofs + Z.of_nat (length l) <= Z.of_nat (length d) ->
  copy_in d ofs l = Some (overwrite (Z.to_nat ofs) l d).
Proof. intros Ho Hl. unfold copy_in. by rewrite !leb_true by lia. Qed.

Lemma lookup_overwrite ofs l d i :
  (ofs + length l <= length d)%nat ->
  overwrite ofs l d !! i =
    if decide (ofs <= i < ofs + length l)%nat then l !! (i - ofs)%nat else d !! i.
Proof.
  intros Hd. unfold overwrite. case_decide as H.
  - apply list_lookup_inserts; lia.
  - destruct (decide (i < ofs)%nat); [apply list_lookup_inserts_lt|apply list_lookup_inserts_ge]; lia.
Qed.

Lemma length_words_bytes l : length (words_bytes l) = (4 * length l)%nat.
Proof. unfold words_bytes. induction l as [|w l IH]; cbn in *; lia. Qed.

Lemma length_bytes_words n i d : length (bytes_words n i d) = n.
Proof. revert i. induction n as [|n IH]; intros i; cbn; [done|]. by rewrite IH. Qed.

Lemma lookup_bytes_words n : forall i d j,
  (j < n)%nat -> bytes_words n i d !! j = Some (word d (i + j)).
Proof.
  induction n as [|n IH]; intros i d j Hj; [lia|]. destruct j as [|j]; cbn.
  - by rewrite Nat.add_0_r.
  - rewrite IH by lia. do 2 f_equal. lia.
Qed.

Lemma lookup_words_bytes l k w j :
  l !! k = Some w -> (j < 4)%nat -> words_bytes l !! (4 * k + j)%nat = le32 w !! j.
Proof.
  revert k. unfold words_bytes. induction l as [|w' l IH]; intros k Hk Hj; [done|].
  cbn [map concat]. destruct k as [|k]; cbn in Hk.
  - simplify_eq. rewrite lookup_app_l by (cbn; lia). done.
  - rewrite lookup_app_r by (cbn; lia). cbn [length le32].
    replace (4 * S k + j - 4)%nat with (4 * k + j)%nat by lia. by apply IH.
Qed.

(** Reading back the words of an array that was stored as bytes. *)
Lemma bytes_words_bytes l :
  Forall (fun w => 0 <= w < 2 ^ 32) l -> bytes_words (length l) 0 (words_bytes l) = l.
Proof.
  intros Hl. apply list_eq_same_length with (length l); [done|by rewrite length_bytes_words|].
  intros k w w' Hk Hw Hw'. rewrite lookup_bytes_words in Hw by done. injection Hw as <-. cbn [Nat.add].
  assert (Hb : forall j, (j < 4)%nat -> byte_at (words_bytes l) (4 * k + j) = u8 (nth j (le32 w') 0)).
  { intros j Hj. unfold byte_at. rewrite nth_lookup, (lookup_words_bytes _ _ _ _ Hw' Hj).
    by rewrite <- nth_lookup. }
  unfold word. pose proof (Hb 0%nat ltac:(lia)) as H0. rewrite Nat.add_0_r in H0.
  rewrite H0, !Hb by lia. cbn [nth le32]. unfold u8. rewrite !Z.mod_mod by lia.
  apply le32_combine. by eapply Forall_lookup_1 in Hl.
Qed.

Lemma set_word_ok d k w :
  Forall (fun b => 0 <= b < 2 ^ 8) d -> Forall (fun b => 0 <= b < 2 ^ 8) (set_word d k w).
Proof. intros Hd. apply Forall_inserts; [done|apply le32_range]. Qed.

Lemma fill_words_ok n w : forall i d,
  Forall (fun b => 0 <= b < 2 ^ 8) d -> Forall (fun b => 0 <= b < 2 ^ 8) (fill_words n i w d).
Proof.
  induction n as [|n IH]; intros i d Hd; cbn [fill_words]; [done|]. by apply IH, set_word_ok.
Qed.

(** Storing the word that is already there changes nothing. *)
Lemma set_word_same d k :
  Forall (fun b => 0 <= b < 2 ^ 8) d -> (4 * k + 4 <= length d)%nat ->
  set_word d k (word d k) = d.
Proof.
  intros Hd Hk. apply list_eq. intros i. unfold set_word. rewrite lookup_overwrite by (cbn; lia).
  case_decide as Hi; [|done]. cbn [length le32] in Hi.
  assert (Hb : forall j, (j < 4)%nat -> exists b, d !! (4 * k + j)%nat = Some b /\
            byte_at d (4 * k + j) = b /\ 0 <= b < 2 ^ 8).
  { intros j Hj. destruct (lookup_lt_is_Some_2 d (4 * k + j)) as [b Hb]; [lia|].
    exists b. split; [done|]. pose proof (Forall_lookup_1 _ _ _ _ Hd Hb) as Hr.
    split; [|done]. rewrite (byte_at_lookup _ _ _ Hb). by apply u8_small. }
  destruct (Hb 0%nat) as (b0 & H0 & E0 & R0); [lia|]. rewrite Nat.add_0_r in *.
  destruct (Hb 1%nat) as (b1 & H1 & E1 & R1); [lia|].
  destruct (Hb 2%nat) as (b2 & H2 & E2 & R2); [lia|].
  destruct (Hb 3%nat) as (b3 & H3 & E3 & R3); [lia|].
  unfold word. rewrite E0, E1, E2, E3.
  assert (Hle : le32 (b0 + 2 ^ 8 * b1 + 2 ^ 16 * b2 + 2 ^ 24 * b3) = [b0; b1; b2; b3]).
  { set (w := b0 + 2 ^ 8 * b1 + 2 ^ 16 * b2 + 2 ^ 24 * b3). unfold le32.
    rewrite <- (Z.mod_unique_pos w (2 ^ 8) (b1 + 2 ^ 8 * b2 + 2 ^ 16 * b3) b0) by lia.
    rewrite <- (Z.div_unique_pos w (2 ^ 8) (b1 + 2 ^ 8 * b2 + 2 ^ 16 * b3) b0) by lia.
    rewrite <- (Z.div_unique_pos w (2 ^ 16) (b2 + 2 ^ 8 * b3) (b0 + 2 ^ 8 * b1)) by lia.
    rewrite <- (Z.div_unique_pos w (2 ^ 24) b3 (b0 + 2 ^ 8 * b1 + 2 ^ 16 * b2)) by lia.
    rewrite <- (Z.mod_unique_pos (b1 + 2 ^ 8 * b2 + 2 ^ 16 * b3) (2 ^ 8) (b2 + 2 ^ 8 * b3) b1)
      by lia.
    rewrite <- (Z.mod_unique_pos (b2 + 2 ^ 8 * b3) (2 ^ 8) b3 b2) by lia.
    by rewrite (Z.mod_small b3) by lia. }
  rewrite Hle. destruct (i - 4 * k)%nat as [|[|[|[|n]]]] eqn:Hn; [..|lia]; cbn.
  - by replace i with (4 * k)%nat by lia.
  - by replace i with (4 * k + 1)%nat by lia.
  - by replace i with (4 * k + 2)%nat by lia.
  - by replace i with (4 * k + 3)%nat by lia.
Qed.
