(* ===== verification/CString.v ===== *)
(** The string library (src/src/lib/string.c): the routines on blocks of
    memory and on null-terminated strings, run on one address space, so
    that blocks may overlap and pointers can be compared. Each is proved
    to compute what its comment says on every well-formed argument. *)
From S2P Require Import Prelude.
From stdpp Require Import options.

Module CString.

(** * Memory

    A byte for each address; address 0 is the null pointer. An access
    that leaves the memory is undefined. *)

Abbreviation memory := (list Z) (only parsing).
Definition NULL : nat := 0.

Definition load (m : memory) (p : nat) : res Z :=
  if (p =? NULL)%nat then Err Fault else access (m !! p).

Definition store (m : memory) (p : nat) (b : Z) : res memory :=
  let* _ := load m p in Ok (<[p := b]> m).

Definition nonnull (p : nat) : bool := negb (p =? NULL)%nat.

(** * Blocks *)

Fixpoint copy_up (size : nat) (m : memory) (dst src : nat) : res (memory * nat) :=
  match size with
  | O => Ok (m, dst)
  | S size =>
      let* b := load m src in
      let* m := store m dst b in
      copy_up size m (S dst) (S src)
  end.

Definition memcpy (m : memory) (dst_ src_ size : nat) : res (memory * nat) :=
  check nonnull dst_ || (size =? 0)%nat in
  check nonnull src_ || (size =? 0)%nat in
  let* (m, _) := copy_up size m dst_ src_ in
  Ok (m, dst_).

Fixpoint copy_down (size : nat) (m : memory) (dst src : nat) : res (memory * nat) :=
  match size with
  | O => Ok (m, dst)
  | S size =>
      let* b := load m (src - 1) in
      let* m := store m (dst - 1) b in
      copy_down size m (dst - 1) (src - 1)
  end.

Definition memmove (m : memory) (dst_ src_ size : nat) : res (memory * nat) :=
  check nonnull dst_ || (size =? 0)%nat in
  check nonnull src_ || (size =? 0)%nat in
  if (dst_ <? src_)%nat then copy_up size m dst_ src_
  else copy_down size m (dst_ + size) (src_ + size).

Fixpoint memcmp_loop (size : nat) (m : memory) (a b : nat) : res Z :=
  match size with
  | O => Ok 0
  | S size =>
      let* x := load m a in
      let* y := load m b in
      if negb (x =? y) then Ok (if y <? x then 1 else -1)
      else memcmp_loop size m (S a) (S b)
  end.

Definition memcmp (m : memory) (a_ b_ size : nat) : res Z :=
  check nonnull a_ || (size =? 0)%nat in
  check nonnull b_ || (size =? 0)%nat in
  memcmp_loop size m a_ b_.

Fixpoint memchr_loop (size : nat) (m : memory) (block : nat) (ch : Z) : res nat :=
  match size with
  | O => Ok NULL
  | S size =>
      let* x := load m block in
      if x =? ch then Ok block else memchr_loop size m (S block) ch
  end.

Definition memchr (m : memory) (block_ : nat) (ch_ : Z) (size : nat) : res nat :=
  check nonnull block_ || (size =? 0)%nat in
  memchr_loop size m block_ (u8 ch_).

Fixpoint memset_loop (size : nat) (m : memory) (dst : nat) (value : Z) : res memory :=
  match size with
  | O => Ok m
  | S size =>
      let* m := store m dst (u8 value) in
      memset_loop size m (S dst) value
  end.

Definition memset (m : memory) (dst_ : nat) (value : Z) (size : nat) : res (memory * nat) :=
  check nonnull dst_ || (size =? 0)%nat in
  let* m := memset_loop size m dst_ value in
  Ok (m, dst_).

(** * Strings

    A scan moves its pointer up at every step, so it ends, or leaves the
    memory, within as many steps as the memory has addresses: this is
    the [fuel] of the loops below. *)

Fixpoint strcmp_loop (fuel : nat) (m : memory) (a b : nat) : res Z :=
  match fuel with
  | O => Err Fault
  | S fuel =>
      let* x := load m a in
      let* y := load m b in
      if negb (x =? 0) && (x =? y) then strcmp_loop fuel m (S a) (S b)
      else Ok (if x <? y then -1 else if y <? x then 1 else 0)
  end.

Definition strcmp (m : memory) (a_ b_ : nat) : res Z :=
  check nonnull a_ in
  check nonnull b_ in
  strcmp_loop (length m) m a_ b_.

Fixpoint strchr_loop (fuel : nat) (m : memory) (string : nat) (c : Z) : res nat :=
  match fuel with
  | O => Err Fault
  | S fuel =>
      let* x := load m string in
      if x =? c then Ok string
      else if x =? 0 then Ok NULL
      else strchr_loop fuel m (S string) c
  end.

(** [char c = c_], with characters as bytes. *)
Definition strchr (m : memory) (string : nat) (c_ : Z) : res nat :=
  check nonnull string in
  strchr_loop (length m) m string (u8 c_).

Fixpoint strcspn_loop (fuel : nat) (m : memory) (string stop length : nat) : res nat :=
  match fuel with
  | O => Err Fault
  | S fuel =>
      let* x := load m (string + length) in
      if x =? 0 then Ok length
      else
        let* q := strchr m stop x in
        if nonnull q then Ok length else strcspn_loop fuel m string stop (S length)
  end.

Definition strcspn (m : memory) (string stop : nat) : res nat :=
  strcspn_loop (length m) m string stop 0.

Fixpoint strpbrk_loop (fuel : nat) (m : memory) (string stop : nat) : res nat :=
  match fuel with
  | O => Err Fault
  | S fuel =>
      let* x := load m string in
      if x =? 0 then Ok NULL
      else
        let* q := strchr m stop x in
        if nonnull q then Ok string else strpbrk_loop fuel m (S string) stop
  end.

Definition strpbrk (m : memory) (string stop : nat) : res nat :=
  strpbrk_loop (length m) m string stop.

Fixpoint strrchr_loop (fuel : nat) (m : memory) (string : nat) (c : Z) (p : nat) : res nat :=
  match fuel with
  | O => Err Fault
  | S fuel =>
      let* x := load m string in
      if x =? 0 then Ok p
      else strrchr_loop fuel m (S string) c (if x =? c then string else p)
  end.

Definition strrchr (m : memory) (string : nat) (c_ : Z) : res nat :=
  strrchr_loop (length m) m string (u8 c_) NULL.

Fixpoint strspn_loop (fuel : nat) (m : memory) (string skip length : nat) : res nat :=
  match fuel with
  | O => Err Fault
  | S fuel =>
      let* x := load m (string + length) in
      if x =? 0 then Ok length
      else
        let* q := strchr m skip x in
        if negb (nonnull q) then Ok length else strspn_loop fuel m string skip (S length)
  end.

Definition strspn (m : memory) (string skip : nat) : res nat :=
  strspn_loop (length m) m string skip 0.

Fixpoint strlen_loop (fuel : nat) (m : memory) (p : nat) : res nat :=
  match fuel with
  | O => Err Fault
  | S fuel =>
      let* x := load m p in
      if x =? 0 then Ok p else strlen_loop fuel m (S p)
  end.

Definition strlen (m : memory) (string : nat) : res nat :=
  check nonnull string in
  let* p := strlen_loop (length m) m string in
  Ok (p - string)%nat.

Fixpoint strnlen_loop (fuel : nat) (m : memory) (string maxlen length : nat) : res nat :=
  match fuel with
  | O => Err Fault
  | S fuel =>
      let* x := load m (string + length) in
      if negb (x =? 0) && (length <? maxlen)%nat
      then strnlen_loop fuel m string maxlen (S length) else Ok length
  end.

Definition strnlen (m : memory) (string maxlen : nat) : res nat :=
  strnlen_loop (length m) m string maxlen 0.

(** The loop of [strstr] for [cnt] more positions from [i] on. *)
Fixpoint strstr_loop (cnt : nat) (m : memory) (haystack needle needle_len i : nat) : res nat :=
  match cnt with
  | O => Ok NULL
  | S cnt =>
      let* r := memcmp m (haystack + i) needle needle_len in
      if r =? 0 then Ok (haystack + i)%nat
      else strstr_loop cnt m haystack needle needle_len (S i)
  end.

Definition strstr (m : memory) (haystack needle : nat) : res nat :=
  let* haystack_len := strlen m haystack in
  let* needle_len := strlen m needle in
  if (needle_len <=? haystack_len)%nat
  then strstr_loop (haystack_len - needle_len + 1) m haystack needle needle_len 0
  else Ok NULL.

(** The first loop of [strtok_r]: [None] when the string ends in it. *)
Fixpoint skip_delimiters (fuel : nat) (m : memory) (s delimiters : nat) : res (nat * bool) :=
  match fuel with
  | O => Err Fault
  | S fuel =>
      let* x := load m s in
      let* q := strchr m delimiters x in
      if nonnull q then
        if x =? 0 then Ok (s, false) else skip_delimiters fuel m (S s) delimiters
      else Ok (s, true)
  end.

Fixpoint skip_token (fuel : nat) (m : memory) (s delimiters : nat) : res nat :=
  match fuel with
  | O => Err Fault
  | S fuel =>
      let* x := load m s in
      let* q := strchr m delimiters x in
      if nonnull q then Ok s else skip_token fuel m (S s) delimiters
  end.

(** The token, the memory, and the new [*save_ptr]. *)
Definition strtok_r (m : memory) (s delimiters save_ptr : nat) : res (nat * memory * nat) :=
  check nonnull delimiters in
  let s := if nonnull s then s else save_ptr in
  check nonnull s in
  let* (s, more) := skip_delimiters (length m) m s delimiters in
  if negb more then Ok (NULL, m, s)
  else
    let token := s in
    let* s := skip_token (length m) m s delimiters in
    let* x := load m s in
    if negb (x =? 0) then
      let* m := store m s 0 in Ok (token, m, S s)
    else Ok (token, m, s).

Definition strlcpy (m : memory) (dst src size : nat) : res (memory * nat) :=
  check nonnull dst in
  check nonnull src in
  let* src_len := strlen m src in
  if (0 <? size)%nat then
    let dst_len := (size - 1)%nat in
    let dst_len := if (src_len <? dst_len)%nat then src_len else dst_len in
    let* (m, _) := memcpy m dst src dst_len in
    let* m := store m (dst + dst_len) 0 in
    Ok (m, src_len)
  else Ok (m, src_len).

Definition strlcat (m : memory) (dst src size : nat) : res (memory * nat) :=
  check nonnull dst in
  check nonnull src in
  let* src_len := strlen m src in
  let* dst_len := strlen m dst in
  if (0 <? size)%nat && (dst_len <? size)%nat then
    let copy_cnt := (size - dst_len - 1)%nat in
    let copy_cnt := if (src_len <? copy_cnt)%nat then src_len else copy_cnt in
    let* (m, _) := memcpy m (dst + dst_len) src copy_cnt in
    let* m := store m (dst + dst_len + copy_cnt) 0 in
    Ok (m, (src_len + dst_len)%nat)
  else Ok (m, (src_len + dst_len)%nat).

(** * Copying *)

(** [m'] is [m] with the [size] bytes at [src] also at [dst]. *)
Definition copied (m : memory) (dst src size : nat) (m' : memory) : Prop :=
  length m' = length m /\
  forall k, m' !! k = if decide (dst <= k < dst + size)%nat then m !! (src + (k - dst))%nat else m !! k.

Definition block_in (m : memory) (p size : nat) : Prop :=
  (0 < p)%nat /\ (p + size <= length m)%nat.

Lemma load_Some m p b : (0 < p)%nat -> m !! p = Some b -> load m p = Ok b.
Proof. intros Hp Hb. unfold load. destruct p; [lia|]. cbn. by rewrite Hb. Qed.

Lemma load_in m p : (0 < p < length m)%nat -> exists b, m !! p = Some b /\ load m p = Ok b.
Proof.
  intros Hp. destruct (lookup_lt_is_Some_2 m p) as [b Hb]; [lia|]. exists b.
  split; [done|]. apply load_Some; [lia|done].
Qed.

Lemma store_in m p b : (0 < p < length m)%nat -> store m p b = Ok (<[p := b]> m).
Proof. intros Hp. unfold store. destruct (load_in m p Hp) as (x & _ & ->). done. Qed.

Lemma nonnull_pos p : (0 < p)%nat -> nonnull p = true.
Proof. intros Hp. unfold nonnull. by destruct p; [lia|]. Qed.

Lemma copy_up_spec size : forall m dst src,
  (size = 0 \/ (0 < dst /\ dst + size <= length m /\ 0 < src /\ src + size <= length m))%nat ->
  (dst <= src \/ src + size <= dst)%nat ->
  exists m', copy_up size m dst src = Ok (m', (dst + size)%nat) /\ copied m dst src size m'.
Proof.
  induction size as [|size IH]; intros m dst src Hin Hov; cbn [copy_up].
  { exists m. split; [do 2 f_equal; lia|]. split; [done|]. intros k. by rewrite decide_False by lia. }
  destruct Hin as [?|(Hd & Hdl & Hs & Hsl)]; [lia|].
  destruct (load_in m src) as (b & Hb & ->); [lia|]. cbn [rbind].
  rewrite store_in by lia. cbn [rbind].
  destruct (IH (<[dst := b]> m) (S dst) (S src)) as (m' & -> & Hlen & Hm').
  { right. rewrite length_insert. lia. }
  { lia. }
  exists m'. split; [do 2 f_equal; lia|]. split; [by rewrite Hlen, length_insert|].
  intros k. rewrite Hm'. destruct (decide (k = dst)) as [->|Hne].
  - repeat case_decide; try lia. rewrite list_lookup_insert_eq by lia.
    rewrite <- Hb. f_equal. lia.
  - repeat case_decide; try lia.
    + rewrite list_lookup_insert_ne by lia. f_equal. lia.
    + by rewrite list_lookup_insert_ne by lia.
Qed.

Lemma copy_down_spec size : forall m dst src,
  (size = 0 \/ (0 < dst /\ dst + size <= length m /\ 0 < src /\ src + size <= length m))%nat ->
  (src <= dst)%nat ->
  exists m', copy_down size m (dst + size) (src + size) = Ok (m', dst) /\ copied m dst src size m'.
Proof.
  induction size as [|size IH]; intros m dst src Hin Hov; cbn [copy_down].
  { exists m. split; [do 2 f_equal; lia|]. split; [done|]. intros k. by rewrite decide_False by lia. }
  destruct Hin as [?|(Hd & Hdl & Hs & Hsl)]; [lia|].
  replace (src + S size - 1)%nat with (src + size)%nat by lia.
  replace (dst + S size - 1)%nat with (dst + size)%nat by lia.
  destruct (load_in m (src + size)) as (b & Hb & ->); [lia|]. cbn [rbind].
  rewrite store_in by lia. cbn [rbind].
  destruct (IH (<[(dst + size)%nat := b]> m) dst src) as (m' & -> & Hlen & Hm').
  { right. rewrite length_insert. lia. }
  { lia. }
  exists m'. split; [done|]. split; [by rewrite Hlen, length_insert|].
  intros k. rewrite Hm'. destruct (decide (k = dst + size)%nat) as [->|Hne].
  - repeat case_decide; try lia. rewrite list_lookup_insert_eq by lia.
    rewrite <- Hb. f_equal. lia.
  - repeat case_decide; try lia.
    + by rewrite list_lookup_insert_ne by lia.
    + by rewrite list_lookup_insert_ne by lia.
Qed.

(** Copying between blocks that do not overlap. *)
Lemma memcpy_spec m dst src size :
  block_in m dst size -> block_in m src size ->
  (dst + size <= src \/ src + size <= dst)%nat ->
  exists m', memcpy m dst src size = Ok (m', dst) /\ copied m dst src size m'.
Proof.
  intros [Hd Hdl] [Hs Hsl] Hov. unfold memcpy. rewrite !nonnull_pos by done. cbn [orb assert rbind].
  destruct (copy_up_spec size m dst src) as (m' & -> & Hc); [lia..|]. cbn [rbind]. eauto.
Qed.

(** [memmove] copies correctly however the two blocks overlap. *)
Theorem memmove_correct m dst src size :
  block_in m dst size -> block_in m src size ->
  exists m' p, memmove m dst src size = Ok (m', p) /\ copied m dst src size m'.
Proof.
  intros [Hd Hdl] [Hs Hsl]. unfold memmove. rewrite !nonnull_pos by done. cbn [orb assert rbind].
  destruct (Nat.ltb_spec dst src).
  - destruct (copy_up_spec size m dst src) as (m' & -> & Hc); [lia..|]. eauto.
  - destruct (copy_down_spec size m dst src) as (m' & -> & Hc); [lia..|]. eauto.
Qed.

Lemma memmove_correct_witness :
  exists m' p, memmove [0; 1; 2; 3; 4; 5; 6] 3 1 4 = Ok (m', p) /\
    copied [0; 1; 2; 3; 4; 5; 6] 3 1 4 m'.
Proof. apply memmove_correct; split; cbn; lia. Defined.

(** [memmove] is said to return its destination; copying downwards it
    returns the end of the block. *)
Theorem memmove_returns_end m dst src size :
  block_in m dst size -> block_in m src size -> (dst < src)%nat ->
  exists m', memmove m dst src size = Ok (m', (dst + size)%nat).
Proof.
  intros [Hd Hdl] [Hs Hsl] Hlt. unfold memmove. rewrite !nonnull_pos by done. cbn [orb assert rbind].
  rewrite (proj2 (Nat.ltb_lt _ _)) by done.
  destruct (copy_up_spec size m dst src) as (m' & -> & Hc); [lia..|]. eauto.
Qed.

Lemma memmove_returns_end_witness :
  exists m', memmove [0; 1; 2; 3; 4; 5; 6] 1 3 4 = Ok (m', 5%nat).
Proof. apply (memmove_returns_end [0; 1; 2; 3; 4; 5; 6] 1 3 4); [split; cbn; lia..|lia]. Defined.

(** * Strings in memory *)

(** The string [s] is at [p], with its terminator. *)
Record cstr (m : memory) (p : nat) (s : list Z) : Prop := {
  cs_pos : (0 < p)%nat;
  cs_char : forall i b, s !! i = Some b -> 0 < b < 2 ^ 8 /\ m !! (p + i)%nat = Some b;
  cs_end : m !! (p + length s)%nat = Some 0;
}.

Lemma cstr_nil m p : cstr m p [] -> (0 < p)%nat /\ m !! p = Some 0.
Proof. intros [Hp _ He]. cbn in He. by rewrite Nat.add_0_r in He. Qed.

Lemma cstr_cons m p b s :
  cstr m p (b :: s) <-> (0 < p)%nat /\ 0 < b < 2 ^ 8 /\ m !! p = Some b /\ cstr m (S p) s.
Proof.
  split.
  - intros [Hp Hc He]. destruct (Hc 0%nat b eq_refl) as [Hb Hm]. rewrite Nat.add_0_r in Hm.
    split; [done|]. split; [done|]. split; [done|]. split.
    + lia.
    + intros i c Hi. destruct (Hc (S i) c Hi) as [? E]. split; [done|]. rewrite <- E. f_equal. lia.
    + rewrite <- He. cbn. f_equal. lia.
  - intros (Hp & Hb & Hm & [Hp' Hc He]). split; [done| |].
    + intros [|i] c Hi; cbn in Hi.
      * injection Hi as <-. by rewrite Nat.add_0_r.
      * destruct (Hc i c Hi) as [? E]. split; [done|]. rewrite <- E. f_equal. lia.
    + rewrite <- He. cbn. f_equal. lia.
Qed.

Lemma cstr_lt m p s : cstr m p s -> (p + length s < length m)%nat.
Proof. intros [_ _ He]. by apply lookup_lt_Some in He. Qed.

Lemma cstr_fuel m p s : cstr m p s -> (length s < length m)%nat.
Proof. intros Hc%cstr_lt. lia. Qed.

Lemma cstr_unique m p s : forall s', cstr m p s -> cstr m p s' -> s = s'.
Proof.
  revert p. induction s as [|b s IH]; intros p [|b' s'] H1 H2; [done| | |].
  - apply cstr_nil in H1 as [_ E]. apply cstr_cons in H2 as (_ & ? & E' & _). rewrite E in E'.
    injection E' as <-. lia.
  - apply cstr_nil in H2 as [_ E]. apply cstr_cons in H1 as (_ & ? & E' & _). rewrite E in E'.
    injection E' as <-. lia.
  - apply cstr_cons in H1 as (_ & _ & E & H1). apply cstr_cons in H2 as (_ & _ & E' & H2).
    f_equal; [congruence|]. by eapply IH.
Qed.

Lemma cstr_load_cons m p b s : cstr m p (b :: s) -> load m p = Ok b.
Proof. intros (Hp & _ & Hb & _)%cstr_cons. by apply load_Some. Qed.

Lemma cstr_load_nil m p : cstr m p [] -> load m p = Ok 0.
Proof. intros [Hp Hb]%cstr_nil. by apply load_Some. Qed.

Lemma cstr_nonnull m p s : cstr m p s -> nonnull p = true.
Proof. intros [Hp _ _]. by apply nonnull_pos. Qed.

(** A character that is there is neither the terminator nor null. *)
Ltac char_step H :=
  let Hb := fresh "Hb" in let H' := fresh H in
  pose proof H as H'; apply cstr_cons in H as (_ & Hb & _ & H);
  first [rewrite (cstr_load_cons _ _ _ _ H') | idtac]; clear H'; cbn [rbind].

Lemma strlen_loop_spec m s : forall fuel p,
  cstr m p s -> (length s < fuel)%nat -> strlen_loop fuel m p = Ok (p + length s)%nat.
Proof.
  induction s as [|b s IH]; intros [|fuel] p Hs Hf; cbn in Hf; try lia; cbn [strlen_loop].
  - rewrite cstr_load_nil by done. cbn. f_equal. lia.
  - char_step Hs. rewrite eqb_false by lia. rewrite IH by (done || lia). cbn. f_equal. lia.
Qed.

(** The length of a string. *)
Lemma strlen_spec m p s : cstr m p s -> strlen m p = Ok (length s).
Proof.
  intros Hs. unfold strlen. rewrite (cstr_nonnull _ _ _ Hs). cbn [assert rbind].
  rewrite (strlen_loop_spec m s) by (done || by eapply cstr_fuel). cbn. f_equal. lia.
Qed.

Lemma strnlen_loop_spec m string maxlen s : forall fuel len,
  cstr m (string + len) s -> (length s < fuel)%nat -> (len <= maxlen)%nat ->
  strnlen_loop fuel m string maxlen len = Ok (Nat.min maxlen (len + length s)).
Proof.
  induction s as [|b s IH]; intros [|fuel] len Hs Hf Hl; cbn in Hf; try lia; cbn [strnlen_loop].
  - rewrite cstr_load_nil by done. cbn. f_equal. lia.
  - char_step Hs. rewrite eqb_false by lia. cbn [negb andb].
    destruct (Nat.ltb_spec len maxlen).
    + rewrite IH; [|by rewrite Nat.add_succ_r|lia|lia]. cbn. f_equal. lia.
    + cbn. f_equal. lia.
Qed.

Lemma strnlen_spec m p s maxlen : cstr m p s -> strnlen m p maxlen = Ok (Nat.min maxlen (length s)).
Proof.
  intros Hs. unfold strnlen. rewrite (strnlen_loop_spec m p maxlen s); [done| | |lia].
  - by rewrite Nat.add_0_r.
  - by eapply cstr_fuel.
Qed.

(** The address of the first [c] in the string [s] at [p]. *)
Fixpoint first_char (p : nat) (c : Z) (s : list Z) : option nat :=
  match s with
  | [] => None
  | b :: s => if b =? c then Some p else first_char (S p) c s
  end.

Lemma first_char_Some p c s q :
  first_char p c s = Some q <->
  exists i, q = (p + i)%nat /\ s !! i = Some c /\ forall j, (j < i)%nat -> s !! j <> Some c.
Proof.
  revert p. induction s as [|b s IH]; intros p; cbn.
  { split; [done|]. intros (i & _ & Hi & _). by rewrite lookup_nil in Hi. }
  destruct (Z.eqb_spec b c) as [->|Hne].
  - split.
    + intros [= <-]. exists 0%nat. split; [lia|]. split; [done|]. intros j. lia.
    + intros ([|i] & -> & Hi & Hj); [f_equal; lia|]. by destruct (Hj 0%nat); [lia|].
  - rewrite IH. split.
    + intros (i & -> & Hi & Hj). exists (S i). split; [lia|]. split; [done|].
      intros [|j] Hji; cbn; [congruence|]. apply Hj. lia.
    + intros ([|i] & -> & Hi & Hj); cbn in Hi; [congruence|]. exists i. split; [lia|].
      split; [done|]. intros j Hji. apply (Hj (S j)). lia.
Qed.

Lemma first_char_None p c s : first_char p c s = None <-> c ∉ s.
Proof.
  revert p. induction s as [|b s IH]; intros p; cbn.
  { split; [|done]. intros _. apply not_elem_of_nil. }
  rewrite not_elem_of_cons, <- (IH (S p)). destruct (Z.eqb_spec b c) as [->|Hne]; [|naive_solver].
  split; [done|]. by intros [? _].
Qed.

Lemma strchr_loop_spec m c s : forall fuel p,
  cstr m p s -> (length s < fuel)%nat ->
  strchr_loop fuel m p c =
    Ok (if c =? 0 then (p + length s)%nat else default NULL (first_char p c s)).
Proof.
  induction s as [|b s IH]; intros [|fuel] p Hs Hf; cbn in Hf; try lia; cbn [strchr_loop].
  - rewrite cstr_load_nil by done. cbn [rbind length first_char]. rewrite (Z.eqb_sym 0 c).
    destruct (c =? 0); [|done]. f_equal. lia.
  - char_step Hs. cbn [first_char]. destruct (Z.eqb_spec b c) as [->|Hne].
    + by rewrite eqb_false by lia.
    + rewrite eqb_false by lia. rewrite IH by (done || lia). f_equal. cbn.
      destruct (c =? 0); [lia|done].
Qed.

(** [strchr] finds the first occurrence, and the terminator. *)
Lemma strchr_spec m p s c :
  cstr m p s ->
  strchr m p c = Ok (if u8 c =? 0 then (p + length s)%nat
                     else default NULL (first_char p (u8 c) s)).
Proof.
  intros Hs. unfold strchr. rewrite (cstr_nonnull _ _ _ Hs). cbn [assert rbind].
  apply strchr_loop_spec; [done|by eapply cstr_fuel].
Qed.

(** Whether a byte is one of the characters of a string, as [strchr]
    tells for bytes that are not 0. *)
Lemma strchr_member m p s b :
  cstr m p s -> 0 < b < 2 ^ 8 ->
  exists q, strchr m p b = Ok q /\ nonnull q = bool_decide (b ∈ s).
Proof.
  intros Hs Hb. rewrite (strchr_spec m p s) by done. rewrite u8_small by lia.
  rewrite eqb_false by lia. eexists. split; [done|].
  destruct (first_char p b s) as [q|] eqn:E; cbn.
  - apply first_char_Some in E as (i & -> & Hi & _). pose proof (cs_pos _ _ _ Hs).
    rewrite nonnull_pos by lia. symmetry. apply bool_decide_eq_true. by eapply list_elem_of_lookup_2.
  - apply first_char_None in E. by rewrite bool_decide_eq_false_2.
Qed.

Lemma strchr_end m p s : cstr m p s -> exists q, strchr m p 0 = Ok q /\ nonnull q = true.
Proof.
  intros Hs. rewrite (strchr_spec m p s) by done. change (u8 0 =? 0) with true. cbn match.
  eexists. split; [done|]. apply nonnull_pos. pose proof (cs_pos _ _ _ Hs). lia.
Qed.

Fixpoint last_char (p : nat) (c : Z) (s : list Z) (q : nat) : nat :=
  match s with
  | [] => q
  | b :: s => last_char (S p) c s (if b =? c then p else q)
  end.

Lemma last_char_skip c s : forall p q, c ∉ s -> last_char p c s q = q.
Proof.
  induction s as [|b s IH]; intros p q Hc; cbn; [done|]. apply not_elem_of_cons in Hc as [Hne Hc].
  rewrite eqb_false by done. by apply IH.
Qed.

Lemma last_char_app c s1 s2 : forall p q,
  last_char p c (s1 ++ s2) q = last_char (p + length s1) c s2 (last_char p c s1 q).
Proof.
  induction s1 as [|b s1 IH]; intros p q; cbn; [by rewrite Nat.add_0_r|].
  rewrite IH. f_equal. lia.
Qed.

Lemma strrchr_loop_spec m c s : forall fuel p q,
  cstr m p s -> (length s < fuel)%nat -> strrchr_loop fuel m p c q = Ok (last_char p c s q).
Proof.
  induction s as [|b s IH]; intros [|fuel] p q Hs Hf; cbn in Hf; try lia; cbn [strrchr_loop].
  - by rewrite cstr_load_nil.
  - char_step Hs. rewrite eqb_false by lia. rewrite IH by (done || lia). done.
Qed.

Lemma strrchr_scan m p s c : cstr m p s -> strrchr m p c = Ok (last_char p (u8 c) s NULL).
Proof. intros Hs. apply strrchr_loop_spec; [done|by eapply cstr_fuel]. Qed.

(** [strrchr] finds the last occurrence. *)
Lemma strrchr_spec m p s c :
  cstr m p s ->
  ((u8 c ∉ s) /\ strrchr m p c = Ok NULL) \/
  (exists s1 s2, s = s1 ++ u8 c :: s2 /\ (u8 c ∉ s2) /\ strrchr m p c = Ok (p + length s1)%nat).
Proof.
  intros Hs. rewrite (strrchr_scan m p s) by done. destruct (decide (u8 c ∈ s)) as [Hin|Hout].
  - right. apply list_elem_of_split_r in Hin as (s1 & s2 & -> & Hs2). exists s1, s2.
    split; [done|]. split; [done|]. rewrite last_char_app. cbn. rewrite Z.eqb_refl.
    by rewrite last_char_skip.
  - left. split; [done|]. by rewrite last_char_skip.
Qed.

(** * Comparing *)

(** The order of strings, characters as unsigned bytes. *)
Fixpoint compare (s t : list Z) : Z :=
  match s, t with
  | [], [] => 0
  | [], _ :: _ => -1
  | _ :: _, [] => 1
  | x :: s, y :: t => if x =? y then compare s t else if x <? y then -1 else 1
  end.

Lemma compare_eq s : forall t, compare s t = 0 <-> s = t.
Proof.
  induction s as [|x s IH]; intros [|y t]; cbn; try done.
  destruct (Z.eqb_spec x y) as [->|Hne].
  - rewrite IH. split; congruence.
  - destruct (x <? y); split; congruence.
Qed.

Lemma strcmp_loop_spec m s : forall t fuel p q,
  cstr m p s -> cstr m q t -> (length s < fuel)%nat ->
  strcmp_loop fuel m p q = Ok (compare s t).
Proof.
  induction s as [|x s IH]; intros [|y t] [|fuel] p q Hs Ht Hf; cbn in Hf; try lia;
    cbn [strcmp_loop compare].
  - by rewrite !cstr_load_nil.
  - rewrite cstr_load_nil by done. cbn [rbind]. char_step Ht. cbn. by rewrite ltb_true by lia.
  - char_step Hs. rewrite cstr_load_nil by done. cbn [rbind]. rewrite eqb_false by lia. cbn.
    rewrite ltb_false, ltb_true by lia. done.
  - char_step Hs. char_step Ht. rewrite (eqb_false x 0) by lia. cbn [negb andb].
    destruct (Z.eqb_spec x y) as [->|Hne]; [apply IH; [done..|lia]|].
    repeat ztest; try done; lia.
Qed.

(** [strcmp] orders strings lexicographically. *)
Theorem strcmp_correct m p q s t : cstr m p s -> cstr m q t -> strcmp m p q = Ok (compare s t).
Proof.
  intros Hs Ht. unfold strcmp. rewrite (cstr_nonnull _ _ _ Hs), (cstr_nonnull _ _ _ Ht).
  cbn [assert rbind]. apply strcmp_loop_spec; [done..|by eapply cstr_fuel].
Qed.

(** * Searching for a substring *)

Lemma memcmp_loop_spec size : forall m a b,
  block_in m a size -> block_in m b size ->
  exists r, memcmp_loop size m a b = Ok r /\
    (r = 0 <-> forall i, (i < size)%nat -> m !! (a + i)%nat = m !! (b + i)%nat).
Proof.
  induction size as [|size IH]; intros m a b [Ha Hal] [Hb Hbl]; cbn [memcmp_loop].
  { exists 0. split; [done|]. split; [|done]. intros _ i. lia. }
  destruct (load_in m a) as (x & Hx & ->); [lia|]. destruct (load_in m b) as (y & Hy & ->); [lia|].
  cbn [rbind]. destruct (Z.eqb_spec x y) as [->|Hne]; cbn [negb].
  - destruct (IH m (S a) (S b)) as (r & -> & Hr); [split; lia..|]. exists r. split; [done|].
    rewrite Hr. split.
    + intros Hall [|i] Hi; [rewrite !Nat.add_0_r; congruence|].
      rewrite <- !Nat.add_succ_comm. apply Hall. lia.
    + intros Hall i Hi. rewrite !Nat.add_succ_comm. apply Hall. lia.
  - eexists. split; [done|]. split; [by destruct (_ <? _)|].
    intros Hall. specialize (Hall 0%nat ltac:(lia)). rewrite !Nat.add_0_r in Hall. congruence.
Qed.

Lemma memcmp_spec m a b size :
  block_in m a size -> block_in m b size ->
  exists r, memcmp m a b size = Ok r /\
    (r = 0 <-> forall i, (i < size)%nat -> m !! (a + i)%nat = m !! (b + i)%nat).
Proof.
  intros Ha Hb. unfold memcmp. destruct Ha as [Ha ?], Hb as [Hb ?].
  rewrite !nonnull_pos by done. cbn [orb assert rbind]. apply memcmp_loop_spec; by split.
Qed.

(** [t] occurs in [s] at index [i]. *)
Definition occurs (t s : list Z) (i : nat) : Prop := t `prefix_of` drop i s.

Lemma occurs_bytes m p s q t i :
  cstr m p s -> cstr m q t -> (i + length t <= length s)%nat ->
  occurs t s i <-> forall k, (k < length t)%nat -> m !! (p + i + k)%nat = m !! (q + k)%nat.
Proof.
  intros Hs Ht Hi.
  assert (Hms : forall k, (k < length s)%nat -> m !! (p + k)%nat = s !! k).
  { intros k Hk. destruct (lookup_lt_is_Some_2 s k Hk) as [b Hb]. rewrite Hb. by apply Hs. }
  assert (Hmt : forall k, (k < length t)%nat -> m !! (q + k)%nat = t !! k).
  { intros k Hk. destruct (lookup_lt_is_Some_2 t k Hk) as [b Hb]. rewrite Hb. by apply Ht. }
  split.
  - intros [u Hu] k Hk. rewrite <- Nat.add_assoc, Hms, Hmt by lia.
    rewrite <- lookup_drop, Hu. by rewrite lookup_app_l.
  - intros Hk. exists (drop (length t) (drop i s)). rewrite <- (take_drop (length t) (drop i s)) at 1.
    f_equal. apply list_eq_same_length with (length t); [done| |].
    + rewrite length_take, length_drop. lia.
    + intros k x y Hkl Hx Hy. rewrite lookup_take_lt, lookup_drop in Hx by done.
      rewrite <- Hms in Hx by lia. rewrite Nat.add_assoc, Hk, Hmt in Hx by lia. congruence.
Qed.

Lemma strstr_loop_spec m p s q t : cstr m p s -> cstr m q t -> forall cnt i,
  (i + cnt = length s - length t + 1)%nat -> (length t <= length s)%nat ->
  (strstr_loop cnt m p q (length t) i = Ok NULL /\
     forall j, (i <= j < i + cnt)%nat -> ~ occurs t s j) \/
  (exists j, (i <= j)%nat /\ strstr_loop cnt m p q (length t) i = Ok (p + j)%nat /\
     occurs t s j /\ forall j', (i <= j' < j)%nat -> ~ occurs t s j').
Proof.
  intros Hs Ht cnt. pose proof (cstr_lt _ _ _ Hs). pose proof (cstr_lt _ _ _ Ht).
  pose proof (cs_pos _ _ _ Hs). pose proof (cs_pos _ _ _ Ht).
  induction cnt as [|cnt IH]; intros i Hi Hl; cbn [strstr_loop].
  { left. split; [done|]. lia. }
  destruct (memcmp_spec m (p + i) q (length t)) as (r & -> & Hr); [split; lia..|]. cbn [rbind].
  rewrite <- (occurs_bytes m p s q t i Hs Ht) in Hr by lia.
  destruct (Z.eqb_spec r 0) as [E|E].
  - right. exists i. split; [lia|]. split; [done|]. split; [by apply Hr|]. lia.
  - destruct (IH (S i)) as [[-> Hno]|(j & Hj & -> & Hoc & Hno)]; [lia..| |].
    + left. split; [done|]. intros j Hj. destruct (decide (j = i)) as [->|]; [naive_solver|].
      apply Hno. lia.
    + right. exists j. split; [lia|]. split; [done|]. split; [done|]. intros j' Hj'.
      destruct (decide (j' = i)) as [->|]; [naive_solver|]. apply Hno. lia.
Qed.

(** [strstr] finds the first occurrence of a string in another. *)
Theorem strstr_correct m p s q t :
  cstr m p s -> cstr m q t ->
  (strstr m p q = Ok NULL /\ forall j, ~ occurs t s j) \/
  (exists j, strstr m p q = Ok (p + j)%nat /\ occurs t s j /\
     forall j', (j' < j)%nat -> ~ occurs t s j').
Proof.
  intros Hs Ht. unfold strstr. rewrite (strlen_spec _ _ _ Hs), (strlen_spec _ _ _ Ht). cbn [rbind].
  destruct (Nat.leb_spec (length t) (length s)) as [Hle|Hgt].
  - destruct (strstr_loop_spec m p s q t Hs Ht (length s - length t + 1) 0)
      as [[-> Hno]|(j & _ & -> & Hoc & Hno)]; [lia..| |].
    + left. split; [done|]. intros j [u Hu]. apply (f_equal length) in Hu as Hlen.
      rewrite length_drop, length_app in Hlen.
      destruct (decide (j <= length s - length t)%nat); [apply (Hno j); [lia|by exists u]|].
      destruct (Hno (length s - length t)%nat); [lia|].
      assert (length t = 0%nat) by lia. destruct t; [|done]. by exists (drop (length s - 0) s).
    + right. exists j. split; [done|]. split; [done|]. intros j' Hj'. apply Hno. lia.
  - left. split; [done|]. intros j [u Hu]. apply (f_equal length) in Hu.
    rewrite length_drop, length_app in Hu. lia.
Qed.

(** * Bounded copies *)

Lemma copied_cstr m dst src n m' p s :
  copied m dst src n m' -> cstr m p s ->
  (dst + n <= p \/ p + length s < dst)%nat -> cstr m' p s.
Proof.
  intros [Hl Hm'] [Hp Hc He] Hd. split; [done| |].
  - intros i b Hi. destruct (Hc i b Hi) as [? E]. split; [done|]. rewrite Hm', decide_False; [done|].
    apply lookup_lt_Some in Hi. lia.
  - rewrite Hm', decide_False; [done|]. lia.
Qed.

(** A string made of [n] characters of [s], by a copy and a terminator. *)
Lemma copied_terminated m dst src n m' s :
  cstr m src s -> (n <= length s)%nat -> (0 < dst)%nat -> (dst + n < length m)%nat ->
  copied m dst src n m' -> cstr (<[(dst + n)%nat := 0]> m') dst (take n s).
Proof.
  intros [Hp Hc He] Hn Hd Hdl [Hl Hm']. split; [done| |].
  - intros i b [Hi Hin]%lookup_take_Some. destruct (Hc i b Hi) as [? E]. split; [done|].
    rewrite list_lookup_insert_ne by lia. rewrite Hm', decide_True by lia. rewrite <- E. f_equal. lia.
  - rewrite length_take. replace (n `min` length s)%nat with n by lia.
    apply list_lookup_insert_eq. rewrite Hl. lia.
Qed.

(** [strlcpy] copies at most [size - 1] characters, always terminates
    the copy, and returns the length of the source. *)
Theorem strlcpy_correct m dst src size s :
  cstr m src s -> (0 < size)%nat -> block_in m dst size ->
  (dst + size <= src \/ src + length s < dst)%nat ->
  exists m', strlcpy m dst src size = Ok (m', length s) /\
    length m' = length m /\ cstr m' dst (take (size - 1) s) /\
    (forall k, (k < dst \/ dst + Nat.min (size - 1) (length s) < k)%nat -> m' !! k = m !! k).
Proof.
  intros Hs Hsz [Hd Hdl] Hdj. unfold strlcpy. rewrite (nonnull_pos dst), (cstr_nonnull _ _ _ Hs) by done.
  cbn [assert rbind]. rewrite (strlen_spec _ _ _ Hs). cbn [rbind].
  rewrite (proj2 (Nat.ltb_lt _ _)) by done. set (n := if (_ <? _)%nat then _ else _).
  assert (Hn : n = Nat.min (size - 1) (length s)) by (unfold n; destruct (Nat.ltb_spec (length s) (size - 1)); lia).
  pose proof (cstr_lt _ _ _ Hs). pose proof (cs_pos _ _ _ Hs).
  destruct (memcpy_spec m dst src n) as (m1 & -> & Hc); [split; lia..|lia|]. cbn [rbind].
  pose proof (proj1 Hc) as Hl1. rewrite store_in by lia. cbn [rbind]. eexists. split; [done|].
  split; [by rewrite length_insert|]. split.
  - replace (take (size - 1) s) with (take n s).
    + eapply copied_terminated; [done|lia..|done].
    + rewrite Hn. destruct (decide (size - 1 <= length s)%nat).
      * by rewrite Nat.min_l.
      * rewrite Nat.min_r by lia. by rewrite !take_ge by lia.
  - intros k Hk. rewrite list_lookup_insert_ne by lia. destruct Hc as [_ ->].
    by rewrite decide_False by lia.
Qed.

(** [strlcat] appends as much as fits in [size] bytes. *)
Theorem strlcat_correct m dst src size s d :
  cstr m src s -> cstr m dst d -> (length d < size)%nat -> block_in m dst size ->
  (dst + size <= src \/ src + length s < dst)%nat ->
  exists m', strlcat m dst src size = Ok (m', (length s + length d)%nat) /\
    cstr m' dst (take (size - 1) (d ++ s)).
Proof.
  intros Hs Hd Hsz [Hp Hdl] Hdj. unfold strlcat. rewrite (cstr_nonnull _ _ _ Hd), (cstr_nonnull _ _ _ Hs).
  cbn [assert rbind]. rewrite (strlen_spec _ _ _ Hs), (strlen_spec _ _ _ Hd). cbn [rbind].
  rewrite !(proj2 (Nat.ltb_lt _ _)) by lia. cbn [andb]. set (n := if (_ <? _)%nat then _ else _).
  assert (Hn : n = Nat.min (size - length d - 1) (length s))
    by (unfold n; destruct (Nat.ltb_spec (length s) (size - length d - 1)); lia).
  pose proof (cstr_lt _ _ _ Hs). pose proof (cs_pos _ _ _ Hs).
  destruct (memcpy_spec m (dst + length d) src n) as (m1 & -> & Hc); [split; lia..|lia|]. cbn [rbind].
  pose proof (proj1 Hc) as Hl1. rewrite store_in by lia. cbn [rbind]. eexists. split; [done|].
  assert (Ht : take (size - 1) (d ++ s) = d ++ take n s).
  { rewrite take_app, take_ge by lia. f_equal. rewrite Hn.
    destruct (decide (size - length d - 1 <= length s)%nat).
    - rewrite Nat.min_l by lia. f_equal. lia.
    - rewrite Nat.min_r by lia. by rewrite !take_ge by lia. }
  rewrite Ht.
  assert (Hend : cstr (<[(dst + length d + n)%nat := 0]> m1) (dst + length d) (take n s))
    by (eapply copied_terminated; [done|lia..|done]).
  destruct Hend as [_ Hc' He'].
  split; [done| |].
  - intros i b Hi. destruct (decide (i < length d)%nat) as [Hlt|Hge].
    + rewrite lookup_app_l in Hi by done. destruct (cs_char _ _ _ Hd i b Hi) as [? E]. split; [done|].
      rewrite list_lookup_insert_ne by lia. destruct Hc as [_ ->]. by rewrite decide_False by lia.
    + rewrite lookup_app_r in Hi by lia. destruct (Hc' _ _ Hi) as [? E]. split; [done|].
      rewrite <- E. f_equal. lia.
  - rewrite length_app, Nat.add_assoc. done.
Qed.

(** * Spans *)

(** How many characters at the start of [s] are in [ds], as [keep] says. *)
Fixpoint span_len (keep : bool) (ds s : list Z) : nat :=
  match s with
  | [] => 0
  | b :: s => if Bool.eqb (bool_decide (b ∈ ds)) keep then S (span_len keep ds s) else 0
  end.

Lemma span_len_le keep ds s : (span_len keep ds s <= length s)%nat.
Proof. induction s as [|b s IH]; cbn; [lia|]. destruct (Bool.eqb _ _); lia. Qed.

Lemma cstr_drop m p s n : cstr m p s -> (n <= length s)%nat -> cstr m (p + n) (drop n s).
Proof.
  intros [Hp Hc He] Hn. split; [lia| |].
  - intros i b Hi. rewrite lookup_drop in Hi. rewrite <- Nat.add_assoc. by apply Hc.
  - rewrite length_drop, <- He. f_equal. lia.
Qed.

Lemma strspn_loop_spec m string skip ds s : cstr m skip ds -> forall fuel len,
  cstr m (string + len) s -> (length s < fuel)%nat ->
  strspn_loop fuel m string skip len = Ok (len + span_len true ds s)%nat.
Proof.
  intros Hds. induction s as [|b s IH]; intros [|fuel] len Hs Hf; cbn in Hf; try lia;
    cbn [strspn_loop span_len].
  - rewrite cstr_load_nil by done. cbn. f_equal. lia.
  - char_step Hs. rewrite eqb_false by lia.
    destruct (strchr_member m skip ds b Hds) as (q & Eq & Hq); [done|]. rewrite Eq. cbn [rbind]. rewrite Hq.
    destruct (bool_decide (b ∈ ds)); cbn.
    + rewrite IH; [|by rewrite Nat.add_succ_r|lia]. f_equal. lia.
    + f_equal. lia.
Qed.

Lemma strcspn_loop_spec m string stop ds s : cstr m stop ds -> forall fuel len,
  cstr m (string + len) s -> (length s < fuel)%nat ->
  strcspn_loop fuel m string stop len = Ok (len + span_len false ds s)%nat.
Proof.
  intros Hds. induction s as [|b s IH]; intros [|fuel] len Hs Hf; cbn in Hf; try lia;
    cbn [strcspn_loop span_len].
  - rewrite cstr_load_nil by done. cbn. f_equal. lia.
  - char_step Hs. rewrite eqb_false by lia.
    destruct (strchr_member m stop ds b Hds) as (q & Eq & Hq); [done|]. rewrite Eq. cbn [rbind]. rewrite Hq.
    destruct (bool_decide (b ∈ ds)); cbn.
    + f_equal. lia.
    + rewrite IH; [|by rewrite Nat.add_succ_r|lia]. f_equal. lia.
Qed.

Lemma strpbrk_loop_spec m stop ds s : cstr m stop ds -> forall fuel p,
  cstr m p s -> (length s < fuel)%nat ->
  strpbrk_loop fuel m p stop =
    Ok (if decide (span_len false ds s = length s) then NULL else (p + span_len false ds s)%nat).
Proof.
  intros Hds. induction s as [|b s IH]; intros [|fuel] p Hs Hf; cbn in Hf; try lia;
    cbn [strpbrk_loop span_len].
  - by rewrite cstr_load_nil.
  - char_step Hs. rewrite eqb_false by lia.
    destruct (strchr_member m stop ds b Hds) as (q & Eq & Hq); [done|]. rewrite Eq. cbn [rbind]. rewrite Hq.
    destruct (bool_decide (b ∈ ds)); cbn.
    + by rewrite Nat.add_0_r.
    + rewrite IH by (done || lia). f_equal. repeat case_decide; lia.
Qed.

(** [strspn], [strcspn] and [strpbrk] measure the same spans. *)
Theorem spans_correct m p q s ds :
  cstr m p s -> cstr m q ds ->
  strspn m p q = Ok (span_len true ds s) /\ strcspn m p q = Ok (span_len false ds s) /\
  strpbrk m p q = Ok (if decide (span_len false ds s = length s) then NULL
                      else (p + span_len false ds s)%nat).
Proof.
  intros Hs Hds. pose proof (cstr_fuel _ _ _ Hs). unfold strspn, strcspn, strpbrk.
  assert (Hs0 : cstr m (p + 0) s) by by rewrite Nat.add_0_r.
  rewrite (strspn_loop_spec m p q ds s), (strcspn_loop_spec m p q ds s) by done.
  split; [done|]. split; [done|]. by apply strpbrk_loop_spec.
Qed.

(** * Tokens *)

Lemma skip_delimiters_spec m delims ds s : cstr m delims ds -> forall fuel p,
  cstr m p s -> (length s < fuel)%nat ->
  skip_delimiters fuel m p delims =
    Ok ((p + span_len true ds s)%nat, bool_decide (span_len true ds s <> length s)).
Proof.
  intros Hds. induction s as [|b s IH]; intros [|fuel] p Hs Hf; cbn in Hf; try lia;
    cbn [skip_delimiters span_len].
  - rewrite cstr_load_nil by done. destruct (strchr_end m delims ds Hds) as (q & E & Hq).
    cbn [rbind]. rewrite E. cbn [rbind]. rewrite Hq. cbn. do 2 f_equal. lia.
  - char_step Hs. destruct (strchr_member m delims ds b Hds) as (q & Eq & Hq); [done|]. rewrite Eq. cbn [rbind]. rewrite Hq.
    destruct (bool_decide (b ∈ ds)); cbn.
    + rewrite eqb_false by lia. rewrite IH by (done || lia). f_equal. f_equal; [lia|].
      apply bool_decide_ext. lia.
    + do 2 f_equal. lia.
Qed.

Lemma skip_token_spec m delims ds s : cstr m delims ds -> forall fuel p,
  cstr m p s -> (length s < fuel)%nat ->
  skip_token fuel m p delims = Ok (p + span_len false ds s)%nat.
Proof.
  intros Hds. induction s as [|b s IH]; intros [|fuel] p Hs Hf; cbn in Hf; try lia;
    cbn [skip_token span_len].
  - rewrite cstr_load_nil by done. destruct (strchr_end m delims ds Hds) as (q & E & Hq).
    cbn [rbind]. rewrite E. cbn [rbind]. rewrite Hq. f_equal. lia.
  - char_step Hs. destruct (strchr_member m delims ds b Hds) as (q & Eq & Hq); [done|]. rewrite Eq. cbn [rbind]. rewrite Hq.
    destruct (bool_decide (b ∈ ds)); cbn.
    + f_equal. lia.
    + rewrite IH by (done || lia). f_equal. lia.
Qed.

(** The next token of [s], and what is left after the delimiter. *)
Definition next_token (ds s : list Z) : option (list Z * list Z) :=
  let s1 := drop (span_len true ds s) s in
  match s1 with
  | [] => None
  | _ => Some (take (span_len false ds s1) s1, drop (S (span_len false ds s1)) s1)
  end.

Lemma cstr_cut m p s n :
  cstr m p s -> (n < length s)%nat ->
  cstr (<[(p + n)%nat := 0]> m) p (take n s) /\
  cstr (<[(p + n)%nat := 0]> m) (S (p + n)) (drop (S n) s).
Proof.
  intros Hs Hn. pose proof (cstr_lt _ _ _ Hs). pose proof Hs as [Hp Hc He]. split; split; try lia.
  - intros i b [Hi Hin]%lookup_take_Some. destruct (Hc i b Hi). split; [done|].
    by rewrite list_lookup_insert_ne by lia.
  - rewrite length_take. replace (n `min` length s)%nat with n by lia.
    apply list_lookup_insert_eq. lia.
  - intros i b Hi. rewrite lookup_drop in Hi. destruct (Hc _ _ Hi) as [? E]. split; [done|].
    rewrite list_lookup_insert_ne by lia. rewrite <- E. f_equal. lia.
  - rewrite length_drop, list_lookup_insert_ne by lia. rewrite <- He. f_equal. lia.
Qed.

Lemma strtok_r_spec m save s delims ds :
  cstr m save s -> cstr m delims ds ->
  (delims + length ds < save \/ save + length s < delims)%nat ->
  match next_token ds s with
  | None => exists save', strtok_r m NULL delims save = Ok (NULL, m, save') /\
              (save <= save' <= save + length s)%nat /\ cstr m save' []
  | Some (tok, rest) => exists p m' save',
      strtok_r m NULL delims save = Ok (p, m', save') /\
      (save <= p)%nat /\ (p + length tok <= save')%nat /\
      (save' + length rest <= save + length s)%nat /\
      (p + length tok < save' \/ rest = [])%nat /\
      cstr m' p tok /\ cstr m' save' rest /\ cstr m' delims ds /\ length m' = length m /\
      forall k, (k < save \/ save + length s <= k)%nat -> m' !! k = m !! k
  end.
Proof.
  intros Hs Hds Hdj. pose proof (cstr_lt _ _ _ Hs). pose proof (cs_pos _ _ _ Hs).
  pose proof (span_len_le true ds s). unfold next_token. set (n := span_len true ds s) in *.
  assert (Hs1 : cstr m (save + n) (drop n s)) by (apply cstr_drop; done).
  pose proof (length_drop s n) as Hl1. set (s1 := drop n s) in *.
  unfold strtok_r. rewrite (cstr_nonnull _ _ _ Hds). change (nonnull NULL) with false.
  cbn [assert rbind]. rewrite (cstr_nonnull _ _ _ Hs). cbn [assert rbind].
  rewrite (skip_delimiters_spec m delims ds s Hds) by (done || by eapply cstr_fuel). cbn [rbind]. fold n.
  destruct (decide (n = length s)) as [E|E].
  { rewrite bool_decide_eq_false_2 by congruence. destruct s1; [|cbn in Hl1; lia]. cbn [negb].
    eexists. split; [done|]. split; [lia|done]. }
  rewrite bool_decide_eq_true_2 by done. cbn [negb].
  pose proof (cstr_fuel _ _ _ Hs1) as Hf1.
  rewrite (skip_token_spec m delims ds s1 Hds) by done. cbn [rbind].
  pose proof (span_len_le false ds s1) as Hk. set (k := span_len false ds s1) in *.
  destruct (decide (k = length s1)) as [Ek|Ek].
  - rewrite (load_Some m _ 0); [|lia|rewrite Ek; exact (cs_end _ _ _ Hs1)]. cbn [rbind Z.eqb negb].
    destruct s1 as [|b s1'] eqn:E1; [cbn in Hl1; lia|]. rewrite <- E1 in *.
    rewrite (take_ge s1) by lia. rewrite (drop_ge s1) by lia.
    eexists _, m, _. split; [done|]. rewrite Ek. cbn [length].
    split; [lia|]. split; [lia|]. split; [lia|]. split; [by right|]. split; [done|].
    split; [|done]. replace [] with (drop (length s1) s1) by (by apply drop_ge).
    by apply cstr_drop.
  - destruct (lookup_lt_is_Some_2 s1 k) as [b Hb]; [lia|].
    destruct (cs_char _ _ _ Hs1 k b Hb) as [Hbr Hmb].
    rewrite (load_Some m _ b) by (done || lia). cbn [rbind]. rewrite eqb_false by lia. cbn [negb].
    rewrite store_in by lia. cbn [rbind].
    destruct (cstr_cut m (save + n) s1 k Hs1) as [Hc1 Hc2]; [lia|].
    destruct s1 as [|b1 s1'] eqn:E1; [cbn in Hl1; lia|]. rewrite <- E1 in *.
    eexists _, _, _. split; [done|]. rewrite length_take, length_drop.
    split; [lia|]. split; [lia|]. split; [lia|]. split; [left; lia|]. split; [done|]. split; [done|].
    split; [|split; [by rewrite length_insert|]].
    + destruct Hds as [Hdp Hdc Hde]. split; [done| |].
      * intros i c Hi. destruct (Hdc i c Hi). split; [done|]. apply lookup_lt_Some in Hi.
        by rewrite list_lookup_insert_ne by lia.
      * by rewrite list_lookup_insert_ne by lia.
    + intros j Hj. by rewrite list_lookup_insert_ne by lia.
Qed.

(** The loop around [strtok_r] that its comment gives: the tokens. *)
Fixpoint strtok_loop (fuel : nat) (m : memory) (s delimiters save_ptr : nat)
    : res (list nat * memory) :=
  match fuel with
  | O => Err Block
  | S fuel =>
      let* (token, m, save_ptr) := strtok_r m s delimiters save_ptr in
      if nonnull token then
        let* (l, m) := strtok_loop fuel m NULL delimiters save_ptr in
        Ok (token :: l, m)
      else Ok ([], m)
  end.

(** The tokens of a string: its maximal non-empty parts without
    delimiters, in order; [cur] is the token being read. *)
Fixpoint split (ds cur s : list Z) : list (list Z) :=
  match s with
  | [] => match cur with [] => [] | _ => [cur] end
  | b :: s =>
      if bool_decide (b ∈ ds) then
        match cur with [] => split ds [] s | _ => cur :: split ds [] s end
      else split ds (cur ++ [b]) s
  end.

Definition tokens (ds s : list Z) : list (list Z) := split ds [] s.

Lemma split_cur ds s : forall cur, cur <> [] ->
  split ds cur s = (cur ++ take (span_len false ds s) s) :: tokens ds (drop (S (span_len false ds s)) s).
Proof.
  induction s as [|b s IH]; intros cur Hc; cbn [split span_len].
  { destruct cur; [done|]. by rewrite take_nil, app_nil_r, drop_nil. }
  destruct (bool_decide (b ∈ ds)) eqn:E; cbn [Bool.eqb take drop].
  - destruct cur; [done|]. by rewrite app_nil_r.
  - rewrite IH by (by destruct cur). by rewrite <- app_assoc.
Qed.

Lemma tokens_next ds s :
  tokens ds s = match next_token ds s with None => [] | Some (t, r) => t :: tokens ds r end.
Proof.
  unfold tokens at 1, next_token. induction s as [|b s IH]; [done|]. cbn [split span_len].
  destruct (bool_decide (b ∈ ds)) eqn:E; cbn [Bool.eqb drop]; [done|].
  cbn [app]. rewrite split_cur by done. cbn [span_len]. rewrite E. done.
Qed.

Lemma strtok_r_first m s delims save : nonnull s = true ->
  strtok_r m s delims save = strtok_r m NULL delims s.
Proof. intros Hs. unfold strtok_r. by rewrite Hs. Qed.

Lemma cstr_same m m' p s :
  cstr m p s -> (forall k, (p <= k <= p + length s)%nat -> m' !! k = m !! k) -> cstr m' p s.
Proof.
  intros [Hp Hc He] Hk. split; [done| |].
  - intros i b Hi. destruct (Hc i b Hi). split; [done|]. apply lookup_lt_Some in Hi. by rewrite Hk by lia.
  - by rewrite Hk by lia.
Qed.

Lemma strtok_loop_spec delims ds : forall fuel m save s,
  cstr m save s -> cstr m delims ds ->
  (delims + length ds < save \/ save + length s < delims)%nat -> (length s < fuel)%nat ->
  exists ps m', strtok_loop fuel m NULL delims save = Ok (ps, m') /\
    Forall2 (cstr m') ps (tokens ds s) /\
    (forall k, (k < save \/ save + length s <= k)%nat -> m' !! k = m !! k) /\
    (s = [] -> m' = m).
Proof.
  induction fuel as [|fuel IH]; intros m save s Hs Hds Hdj Hf; [lia|]. cbn [strtok_loop].
  pose proof (strtok_r_spec m save s delims ds Hs Hds Hdj) as Htok. rewrite tokens_next.
  destruct (next_token ds s) as [[tok rest]|] eqn:En.
  - destruct Htok as (p & m1 & save1 & -> & Hp & Hsave & Hend & Hsep & Hc1 & Hc2 & Hds1 & Hl1 & Hfr).
    cbn [rbind]. rewrite (cstr_nonnull _ _ _ Hc1).
    assert (Hrest : (length rest < length s)%nat).
    { unfold next_token in En. destruct (drop (span_len true ds s) s) as [|b s1] eqn:E; [done|].
      apply (f_equal length) in E. rewrite length_drop in E. cbn in E.
      injection En as _ <-. rewrite length_drop. cbn. lia. }
    destruct (IH m1 save1 rest) as (ps & m2 & -> & Hall & Hfr2 & Hsame); [done|done|lia|lia|].
    cbn [rbind]. eexists _, m2. split; [done|]. split; [|split].
    + constructor; [|done]. destruct Hsep as [Hlt| ->].
      * eapply cstr_same; [done|]. intros k Hk. apply Hfr2. lia.
      * by rewrite Hsame.
    + intros k Hk. rewrite Hfr2 by lia. apply Hfr. lia.
    + intros ->. cbn in Hrest. lia.
  - destruct Htok as (save' & -> & _ & _). cbn [rbind]. change (nonnull NULL) with false.
    exists [], m. split; [done|]. split; [done|]. by split.
Qed.

(** [strtok_r], called as its comment says, gives the tokens of the
    string one after the other, each null-terminated, and then the null
    pointer. *)
Theorem strtok_r_tokens m p s delims ds save :
  cstr m p s -> cstr m delims ds ->
  (delims + length ds < p \/ p + length s < delims)%nat ->
  exists ps m', strtok_loop (S (length s)) m p delims save = Ok (ps, m') /\
    Forall2 (cstr m') ps (tokens ds s).
Proof.
  intros Hs Hds Hdj.
  destruct (strtok_loop_spec delims ds (S (length s)) m p s Hs Hds Hdj ltac:(lia))
    as (ps & m' & E & Hall & _). exists ps, m'. split; [|done]. rewrite <- E.
  cbn [strtok_loop]. by rewrite (strtok_r_first m p delims save) by by eapply cstr_nonnull.
Qed.

(** "  a bc" and " ", at addresses 1 and 9. *)
Definition demo_memory : memory := [0; 32; 32; 97; 32; 98; 99; 0; 0; 32; 0].

Lemma strtok_r_tokens_witness :
  exists ps m', strtok_loop 7 demo_memory 1 9 0 = Ok (ps, m') /\
    Forall2 (cstr m') ps [[97]; [98; 99]].
Proof.
  apply (strtok_r_tokens demo_memory 1 [32; 32; 97; 32; 98; 99] 9 [32] 0).
  - repeat (apply cstr_cons; split; [lia|split; [lia|split; [reflexivity|]]]).
    split; [lia| |reflexivity]. intros i b Hi. rewrite lookup_nil in Hi. discriminate Hi.
  - repeat (apply cstr_cons; split; [lia|split; [lia|split; [reflexivity|]]]).
    split; [lia| |reflexivity]. intros i b Hi. rewrite lookup_nil in Hi. discriminate Hi.
  - cbn. lia.
Defined.

End CString.
