(* ===== verification/CStdlib.v ===== *)
(** The general-purpose routines of src/src/lib/stdlib.c: [atoi], heap sort
    and binary search, on the address space of [CString]. The comparison
    function is a parameter; it gets pointers, as in the code. *)
From S2P Require Import Prelude CString.
From stdpp Require Import sorting.
From stdpp Require Import options.

#[local] Open Scope Z_scope.

Module CStdlib.
Import CString.

Abbreviation MS := (ST (list Z)).

Definition get (p : nat) : MS Z := let! m := gets id in lift (load m p).
Definition put (p : nat) (b : Z) : MS unit := let! m := gets id in let! m' := lift (store m p b) in modify (fun _ => m').

(** * atoi *)

Definition isdigit (c : Z) : bool := (48 <=? c) && (c <=? 57).
Definition isspace (c : Z) : bool :=
  (c =? 32) || (c =? 12) || (c =? 10) || (c =? 13) || (c =? 9) || (c =? 11).

Fixpoint skip_spaces (fuel : nat) (m : list Z) (s : nat) : res nat :=
  match fuel with
  | O => Err Fault
  | S fuel => let* c := load m s in if isspace c then skip_spaces fuel m (S s) else Ok s
  end.

Fixpoint digits_loop (fuel : nat) (m : list Z) (s : nat) (value : Z) : res Z :=
  match fuel with
  | O => Err Fault
  | S fuel =>
      let* c := load m s in
      if isdigit c then digits_loop fuel m (S s) (s32 (value * 10 - (c - 48))) else Ok value
  end.

Definition atoi (m : list Z) (s : nat) : res Z :=
  check nonnull s in
  let* s := skip_spaces (length m) m s in
  let* c := load m s in
  let '(s, negative) := if c =? 43 then (S s, false) else if c =? 45 then (S s, true) else (s, false) in
  let* value := digits_loop (length m) m s 0 in
  Ok (if negative : bool then value else s32 (- value)).

(** * Sorting *)

Section sort.
Context (compare : list Z -> nat -> nat -> Z).

(** The address of the element with the 1-based index [idx]. *)
Definition elem_at (array : nat) (idx size : Z) : nat := (array + Z.to_nat ((idx - 1) * size))%nat.

Fixpoint swap_bytes (n : nat) (a b : nat) : MS unit :=
  match n with
  | O => ret tt
  | S n =>
      let! t := get a in
      let! u := get b in
      put a u;;;
      put b t;;;
      swap_bytes n (S a) (S b)
  end.

Definition do_swap (array : nat) (a_idx b_idx size : Z) : MS unit :=
  swap_bytes (Z.to_nat size) (elem_at array a_idx size) (elem_at array b_idx size).

Definition do_compare (array : nat) (a_idx b_idx size : Z) : MS Z :=
  let! m := gets id in ret (compare m (elem_at array a_idx size) (elem_at array b_idx size)).

Definition larger (array : nat) (idx max cnt size : Z) : MS Z :=
  if idx <=? cnt then
    let! c := do_compare array idx max size in ret (if 0 <? c then idx else max)
  else ret max.

Definition heapify (array : nat) (i cnt size : Z) : MS unit :=
  loop (fun i =>
    let left := u32 (2 * i) in
    let right := u32 (2 * i + 1) in
    let! max := larger array left i cnt size in
    let! max := larger array right max cnt size in
    if max =? i then ret (inr tt)
    else do_swap array i max size;;; ret (inl max)) i.

Definition sort (array : nat) (cnt size : Z) : MS unit :=
  ASSERT (nonnull array || (cnt =? 0));;;
  ASSERT (0 <? size);;;
  loop (fun i =>
    if 0 <? i then heapify array i cnt size;;; ret (inl (i - 1))
    else ret (inr tt)) (cnt / 2);;;
  loop (fun i =>
    if 1 <? i then
      do_swap array 1 i size;;;
      heapify array 1 (i - 1) size;;;
      ret (inl (i - 1))
    else ret (inr tt)) cnt.

(** [qsort] passes its comparison function on through [compare_thunk]. *)
Definition qsort (array : nat) (cnt size : Z) : MS unit := sort array cnt size.

(** * Searching *)

(** [compare] gets the key and a pointer to an element. *)
Definition binary_search (key : nat) (array : nat) (cnt size : Z) : MS (option nat) :=
  loop (fun '(first, last) =>
    if (first <? last)%nat then
      let range := Z.of_nat (last - first) / size in
      let middle := (first + Z.to_nat (range / 2 * size))%nat in
      let! m := gets id in
      let cmp := compare m key middle in
      if cmp <? 0 then ret (inl (first, middle))
      else if 0 <? cmp then ret (inl ((middle + Z.to_nat size)%nat, last))
      else ret (inr (Some middle))
    else ret (inr None)) (array, (array + Z.to_nat (size * cnt))%nat).

Definition bsearch (key : nat) (array : nat) (cnt size : Z) : MS (option nat) := binary_search key array cnt size.
End sort.

(** * Arrays of elements *)

Section arrays.
Implicit Types (m : list Z) (es : list (list Z)) (array a b : nat).

(** The memory from [array] on holds the elements [es], of [n] bytes each. *)
Definition arr (array n : nat) m es : Prop :=
  (0 < array)%nat /\
  forall k e, es !! k = Some e -> length e = n /\ forall j, (j < n)%nat -> m !! (array + k * n + j)%nat = e !! j.

(** [m'] differs from [m] in [c] bytes from [array] on only. *)
Definition within (array c : nat) m m' : Prop :=
  length m' = length m /\ forall x, (x < array \/ array + c <= x)%nat -> m' !! x = m !! x.

Lemma wp_get p v (Q : Z -> list Z -> Prop) m : (0 < p)%nat -> m !! p = Some v -> Q v m -> wp (get p) Q m.
Proof.
  intros Hp Hv HQ. unfold get. wp_steps. apply wp_lift. unfold load, NULL.
  destruct (Nat.eqb_spec p 0); [lia|]. change (id m) with m. by rewrite Hv.
Qed.

Lemma wp_put p (v : Z) (Q : unit -> list Z -> Prop) m :
  (0 < p)%nat -> (p < length m)%nat -> Q tt (<[p := v]> m) -> wp (put p v) Q m.
Proof.
  intros Hp Hl HQ. unfold put. wp_steps. apply wp_lift. unfold store, load, NULL.
  destruct (Nat.eqb_spec p 0); [lia|]. change (id m) with m.
  apply lookup_lt_is_Some in Hl as [w ->]. cbn. by wp_steps.
Qed.

(** Two disjoint blocks are exchanged byte by byte. *)
Lemma swap_bytes_spec n : forall a b m (Q : unit -> list Z -> Prop),
  (0 < a)%nat -> (0 < b)%nat -> (a + n <= length m)%nat -> (b + n <= length m)%nat -> (a + n <= b \/ b + n <= a)%nat ->
  (forall m', length m' = length m ->
     (forall j, (j < n)%nat -> m' !! (a + j)%nat = m !! (b + j)%nat /\ m' !! (b + j)%nat = m !! (a + j)%nat) ->
     (forall x, (x < a \/ a + n <= x)%nat -> (x < b \/ b + n <= x)%nat -> m' !! x = m !! x) -> Q tt m') ->
  wp (swap_bytes n a b) Q m.
Proof.
  induction n as [|n IH]; intros a b m Q Ha Hb Hla Hlb Hd HQ; cbn [swap_bytes].
  { wp_steps. apply HQ; [done|lia|done]. }
  destruct (lookup_lt_is_Some_2 m a) as [va Hva]; [lia|]. destruct (lookup_lt_is_Some_2 m b) as [vb Hvb]; [lia|].
  apply wp_bind. eapply wp_get; [done..|]. apply wp_bind. eapply wp_get; [done..|]. apply wp_bind.
  apply wp_put; [done|lia|]. apply wp_bind, wp_put; [done|rewrite length_insert; lia|].
  set (m1 := <[b := va]> (<[a := vb]> m)).
  assert (Hm1 : forall x, m1 !! x = if decide (x = a) then Some vb else if decide (x = b) then Some va else m !! x).
  { intros x. subst m1. destruct (decide (x = a)) as [->|Hxa].
    - rewrite list_lookup_insert_ne by lia. apply list_lookup_insert_eq. lia.
    - destruct (decide (x = b)) as [->|Hxb].
      + apply list_lookup_insert_eq. rewrite length_insert. lia.
      + by rewrite !list_lookup_insert_ne. }
  assert (Hl1 : length m1 = length m) by (subst m1; by rewrite !length_insert).
  apply IH; [lia..|]. intros m' Hl' Hsw Hfr. apply HQ; [congruence| |].
  - intros [|j] Hj.
    + rewrite !Nat.add_0_r. rewrite !Hfr by lia. rewrite !Hm1. repeat case_decide; try lia.
      by rewrite Hva, Hvb.
    + destruct (Hsw j) as [E1 E2]; [lia|]. rewrite <- !plus_n_Sm. cbn in E1, E2. rewrite E1, E2, !Hm1.
      repeat case_decide; try lia. done.
  - intros x H1 H2. rewrite Hfr by lia. rewrite Hm1. repeat case_decide; try lia. done.
Qed.

(** The elements with the indexes [i] and [j] are exchanged. *)
Definition swap (i j : nat) es : list (list Z) :=
  match es !! i, es !! j with
  | Some x, Some y => <[j := x]> (<[i := y]> es)
  | _, _ => es
  end.

Lemma length_swap i j es : length (swap i j es) = length es.
Proof. unfold swap. repeat case_match; by rewrite ?length_insert. Qed.

Lemma swap_perm i j es : swap i j es ≡ₚ es.
Proof. unfold swap. repeat case_match; try done. by apply Permutation_insert_swap. Qed.

Lemma lookup_swap i j es k : (i < length es)%nat -> (j < length es)%nat -> i <> j ->
  swap i j es !! k = if decide (k = i) then es !! j else if decide (k = j) then es !! i else es !! k.
Proof.
  intros Hi Hj Hne. destruct (lookup_lt_is_Some_2 es i Hi) as [x Hx]. destruct (lookup_lt_is_Some_2 es j Hj) as [y Hy].
  unfold swap. rewrite Hx, Hy. repeat case_decide; subst.
  - rewrite list_lookup_insert_ne by done. by apply list_lookup_insert_eq.
  - apply list_lookup_insert_eq. by rewrite length_insert.
  - by rewrite !list_lookup_insert_ne.
Qed.

Lemma arr_bound array n m es k : arr array n m es -> (0 < n)%nat -> (k < length es)%nat ->
  (array + k * n + n <= length m)%nat.
Proof.
  intros [Ha He] Hn Hk. destruct (lookup_lt_is_Some_2 es k Hk) as [e Hek]. destruct (He k e Hek) as [Hl Hb].
  specialize (Hb (n - 1)%nat ltac:(lia)). destruct (lookup_lt_is_Some_2 e (n - 1)) as [v Hv]; [lia|].
  rewrite Hv in Hb. apply lookup_lt_Some in Hb. lia.
Qed.

Lemma do_swap_spec array n m es i j (Q : unit -> list Z -> Prop) :
  arr array n m es -> (0 < n)%nat -> 0 < i <= Z.of_nat (length es) -> 0 < j <= Z.of_nat (length es) -> i <> j ->
  (forall m', arr array n m' (swap (Z.to_nat (i - 1)) (Z.to_nat (j - 1)) es) -> within array (length es * n) m m' -> Q tt m') ->
  wp (do_swap array i j (Z.of_nat n)) Q m.
Proof.
  intros Har Hn Hi Hj Hne HQ. unfold do_swap, elem_at. rewrite Nat2Z.id.
  set (i' := Z.to_nat (i - 1)). set (j' := Z.to_nat (j - 1)).
  replace (Z.to_nat ((i - 1) * Z.of_nat n)) with (i' * n)%nat by (subst i'; rewrite Z2Nat.inj_mul, Nat2Z.id; lia).
  replace (Z.to_nat ((j - 1) * Z.of_nat n)) with (j' * n)%nat by (subst j'; rewrite Z2Nat.inj_mul, Nat2Z.id; lia).
  assert (Hi' : (i' < length es)%nat) by lia. assert (Hj' : (j' < length es)%nat) by lia.
  assert (Hne' : i' <> j') by lia.
  pose proof (arr_bound _ _ _ _ i' Har Hn Hi') as B1. pose proof (arr_bound _ _ _ _ j' Har Hn Hj') as B2.
  destruct Har as [Ha He]. apply swap_bytes_spec; [lia|lia|lia|lia| |].
  { destruct (Nat.lt_trichotomy i' j') as [|[|]]; [left|lia|right]; nia. }
  intros m' Hl Hsw Hfr. apply HQ.
  - split; [done|]. intros k e Hk. rewrite lookup_swap in Hk by done. case_decide as E1; [subst k|case_decide as E2; [subst k|]].
    + destruct (He j' e Hk) as [Hle Hb]. split; [done|]. intros x Hx. rewrite <- Hb by done. by apply Hsw.
    + destruct (He i' e Hk) as [Hle Hb]. split; [done|]. intros x Hx. rewrite <- Hb by done. by apply Hsw.
    + destruct (He k e Hk) as [Hle Hb]. split; [done|]. intros x Hx. rewrite <- Hb by done.
      apply Hfr; [destruct (Nat.lt_trichotomy k i') as [|[|]]|destruct (Nat.lt_trichotomy k j') as [|[|]]]; nia.
  - split; [done|]. intros x Hx. apply Hfr; nia.
Qed.
End arrays.

End CStdlib.

(** [atoi] of src/src/lib/stdlib.c reads decimal numbers. *)

Module Atoi.
Import CString CStdlib.

(** The number that a sequence of digits stands for. *)
Definition decimal (ds : list Z) : Z := foldl (fun v c => v * 10 + (c - 48)) 0 ds.

Lemma s32_cong (x y k : Z) : x = y + k * 2 ^ 32 -> s32 x = s32 y.
Proof. intros ->. unfold s32. replace (y + k * 2 ^ 32 + 2 ^ 31) with (y + 2 ^ 31 + k * 2 ^ 32) by lia. by rewrite Z.mod_add. Qed.

Lemma s32_rep (x : Z) : exists k, s32 x = x + k * 2 ^ 32.
Proof.
  exists (- ((x + 2 ^ 31) / 2 ^ 32)). unfold s32. pose proof (Z.div_mod (x + 2 ^ 31) (2 ^ 32) ltac:(lia)). lia.
Qed.

Lemma s32_mul_sub (x a b : Z) : s32 (s32 x * a - b) = s32 (x * a - b).
Proof. destruct (s32_rep x) as [k ->]. apply (s32_cong _ _ (k * a)). lia. Qed.

Lemma digits_cstr_app m a b : forall p, cstr m p (a ++ b) -> cstr m (p + length a) b.
Proof.
  induction a as [|c a IH]; intros p Hs; cbn [app length] in *; [by rewrite Nat.add_0_r|].
  apply cstr_cons in Hs as (_ & _ & _ & Hs). replace (p + S (length a))%nat with (S p + length a)%nat by lia. by apply IH.
Qed.

Lemma skip_spaces_spec m : forall sp p s fuel, cstr m p (sp ++ s) -> Forall (fun c => isspace c = true) sp ->
  (forall c, head s = Some c -> isspace c = false) -> (length sp < fuel)%nat ->
  skip_spaces fuel m p = Ok (p + length sp)%nat.
Proof.
  induction sp as [|c sp IH]; intros p s [|fuel] Hs Hsp Hh Hf; cbn [length] in *; try lia; cbn [skip_spaces app] in *.
  - rewrite Nat.add_0_r. destruct s as [|c s].
    + rewrite cstr_load_nil by done. cbn [rbind]. done.
    + rewrite (cstr_load_cons _ _ _ _ Hs). cbn [rbind]. by rewrite Hh.
  - rewrite (cstr_load_cons _ _ _ _ Hs). cbn [rbind]. inversion Hsp as [|? ? Hc Hsp']; subst. rewrite Hc.
    apply cstr_cons in Hs as (_ & _ & _ & Hs). rewrite (IH _ s); [f_equal; lia|done..|lia].
Qed.

Lemma digits_loop_spec m : forall ds p s fuel v, cstr m p (ds ++ s) -> Forall (fun c => isdigit c = true) ds ->
  (forall c, head s = Some c -> isdigit c = false) -> (length ds < fuel)%nat ->
  digits_loop fuel m p (s32 (- v)) = Ok (s32 (- foldl (fun v c => v * 10 + (c - 48)) v ds)).
Proof.
  induction ds as [|c ds IH]; intros p s [|fuel] v Hs Hds Hh Hf; cbn [length] in *; try lia; cbn [digits_loop app foldl] in *.
  - destruct s as [|c s].
    + rewrite cstr_load_nil by done. done.
    + rewrite (cstr_load_cons _ _ _ _ Hs). cbn [rbind]. by rewrite Hh.
  - rewrite (cstr_load_cons _ _ _ _ Hs). cbn [rbind]. inversion Hds as [|? ? Hc Hds']; subst. rewrite Hc.
    apply cstr_cons in Hs as (_ & _ & _ & Hs). rewrite s32_mul_sub.
    replace (- v * 10 - (c - 48)) with (- (v * 10 + (c - 48))) by lia. apply (IH _ s); [done..|lia].
Qed.

(** What may stand before the digits. *)
Inductive sign := NoSign | Plus | Minus.
Definition sign_chars (sg : sign) : list Z := match sg with NoSign => [] | Plus => [43] | Minus => [45] end.
Definition apply_sign (sg : sign) (v : Z) : Z := match sg with Minus => - v | _ => v end.

(** [atoi] skips white space, takes an optional sign and the digits that
    follow, and returns the number they stand for, reduced to the range of
    an int; numbers in that range come out as they are. *)
Theorem atoi_correct (m : list Z) (p : nat) (sp ds rest : list Z) (sg : sign)
  (Hs : cstr m p (sp ++ sign_chars sg ++ ds ++ rest))
  (Hsp : Forall (fun c => isspace c = true) sp) (Hds : Forall (fun c => isdigit c = true) ds)
  (Hne : ds <> []) (Hrest : forall c, head rest = Some c -> isdigit c = false) :
  let v := apply_sign sg (decimal ds) in
  atoi m p = Ok (s32 v) /\ (- 2 ^ 31 <= v < 2 ^ 31 -> atoi m p = Ok v).
Proof.
  intros v. assert (E : atoi m p = Ok (s32 v)); [|split; [done|intros Hv; by rewrite E, s32_small]].
  destruct ds as [|d ds]; [done|]. assert (Hd : isdigit d = true) by by inversion Hds.
  assert (Hd' : 48 <= d <= 57) by (unfold isdigit in Hd; lia).
  assert (Hsc : forall c, 48 <= c <= 57 \/ c = 43 \/ c = 45 -> isspace c = false) by (unfold isspace; lia).
  pose proof (cstr_fuel _ _ _ Hs) as Hf. rewrite !length_app in Hf. cbn [length] in Hf.
  unfold atoi. rewrite (cstr_nonnull _ _ _ Hs). cbn [assert rbind].
  rewrite (skip_spaces_spec m sp p _ (length m) Hs Hsp); [|destruct sg; cbn; intros c [= <-]; apply Hsc; lia|lia].
  cbn [rbind]. apply digits_cstr_app in Hs.
  assert (Hnum : forall q, cstr m q ((d :: ds) ++ rest) -> digits_loop (length m) m q 0 = Ok (s32 (- decimal (d :: ds)))).
  { intros q Hq. change 0 with (s32 (- 0)). apply (digits_loop_spec m (d :: ds) q rest); [done..|cbn; lia]. }
  destruct sg; cbn [sign_chars app] in Hs.
  - rewrite (cstr_load_cons _ _ _ _ Hs). cbn [rbind]. rewrite !eqb_false by lia. rewrite Hnum by done. cbn [rbind].
    f_equal. destruct (s32_rep (- decimal (d :: ds))) as [k ->]. apply (s32_cong _ _ (- k)). subst v. cbn [apply_sign]. lia.
  - rewrite (cstr_load_cons _ _ _ _ Hs). cbn [rbind Z.eqb Pos.eqb]. apply cstr_cons in Hs as (_ & _ & _ & Hs). rewrite Hnum by done.
    cbn [rbind]. f_equal. destruct (s32_rep (- decimal (d :: ds))) as [k ->]. apply (s32_cong _ _ (- k)). subst v. cbn [apply_sign]. lia.
  - rewrite (cstr_load_cons _ _ _ _ Hs). cbn [rbind Z.eqb Pos.eqb]. apply cstr_cons in Hs as (_ & _ & _ & Hs). by rewrite Hnum.
Qed.

Definition demo_number : list Z := [0; 32; 9; 45; 52; 50; 59; 0].

Lemma atoi_correct_witness : atoi demo_number 1 = Ok (-42).
Proof.
  apply (atoi_correct demo_number 1 [32; 9] [52; 50] [59] Minus).
  - split; [lia| |done]. intros [|[|[|[|[|[|i]]]]]] b [= <-]; (split; [lia|done]).
  - by repeat constructor.
  - by repeat constructor.
  - done.
  - by intros c [= <-].
  - cbn. lia.
Defined.

End Atoi.
