(* ===== verification/HeapSort.v ===== *)
(** The sort of src/src/lib/stdlib.c sorts, and the binary search finds: heaps
    in arrays, the float-down step, and the two loops of the sort. *)
From S2P Require Import Prelude CString CStdlib.
From stdpp Require Import sorting.
From stdpp Require Import options.

#[local] Open Scope Z_scope.

Module HeapSort.
Import CString CStdlib.

Section heap.
(** A comparison of elements by their contents, as the comment of [sort]
    asks for: a total order up to equality of keys. *)
Context (compare : list Z -> nat -> nat -> Z) (cmp : list Z -> list Z -> Z).
Hypothesis Htot : forall x y, 0 < cmp x y -> cmp y x <= 0.
Hypothesis Htrans : forall x y z, cmp x y <= 0 -> cmp y z <= 0 -> cmp x z <= 0.

Implicit Types (m : list Z) (es : list (list Z)) (i j k c p : nat).

(** Elements by their 1-based index. *)
Definition at1 es k : option (list Z) := es !! (k - 1)%nat.

(** The element [i] is not below the element [j]. *)
Definition above es i j : Prop := forall x y, at1 es i = Some x -> at1 es j = Some y -> cmp y x <= 0.

(** The elements from [k] to [cnt] are not below their children. *)
Definition heap k cnt es : Prop :=
  forall i c, (k <= i)%nat -> (c = 2 * i \/ c = 2 * i + 1)%nat -> (c <= cnt)%nat -> above es i c.

Lemma above_refl es i : above es i i.
Proof using Htot. intros x y Hx Hy. assert (y = x) as -> by congruence. destruct (Z.le_gt_cases (cmp x x) 0); [done|]. apply Htot. lia. Qed.

Lemma above_trans es i j k : is_Some (at1 es j) -> above es i j -> above es j k -> above es i k.
Proof using Htrans.
  intros [y Hy] H1 H2 x z Hx Hz. apply (Htrans z y x); [by apply H2|by apply H1].
Qed.

Lemma at1_swap es i j k : (1 <= i <= length es)%nat -> (1 <= j <= length es)%nat -> i <> j -> (1 <= k)%nat ->
  at1 (swap (i - 1) (j - 1) es) k = at1 es (if decide (k = i) then j else if decide (k = j) then i else k).
Proof.
  intros Hi Hj Hne Hk. unfold at1. rewrite lookup_swap by lia. repeat case_decide; try lia; done.
Qed.

Lemma above_swap es i j p c : (1 <= i <= length es)%nat -> (1 <= j <= length es)%nat -> i <> j ->
  (1 <= p)%nat -> (1 <= c)%nat ->
  let f k := if decide (k = i) then j else if decide (k = j) then i else k in
  above es (f p) (f c) -> above (swap (i - 1) (j - 1) es) p c.
Proof. intros Hi Hj Hne Hp Hc f H x y. rewrite !at1_swap by done. apply H. Qed.

Lemma at1_is es k : (1 <= k <= length es)%nat -> is_Some (at1 es k).
Proof. intros Hk. apply lookup_lt_is_Some. lia. Qed.

(** The first element of a heap is not below any other. *)
Lemma heap_top cnt es : heap 1 cnt es -> (cnt <= length es)%nat -> forall k, (1 <= k <= cnt)%nat -> above es 1 k.
Proof using Htot Htrans.
  intros Hh Hc k. induction k as [k IH] using (well_founded_induction lt_wf). intros Hk.
  destruct (decide (k = 1)%nat) as [->|Hne]; [apply above_refl|].
  pose proof (Nat.div_mod_eq k 2) as Ed. pose proof (Nat.mod_upper_bound k 2 ltac:(lia)).
  eapply (above_trans _ _ (k / 2)).
  - apply at1_is. lia.
  - apply IH; lia.
  - apply Hh; lia.
Qed.
Context (array n : nat) (Hn : (0 < n)%nat).

Hypothesis Hcmp : forall m es i j x y, arr array n m es -> es !! i = Some x -> es !! j = Some y ->
  compare m (array + i * n)%nat (array + j * n)%nat = cmp x y.

(** Taking the larger of two elements. *)
Lemma larger_spec m es k max cnt (Q : Z -> list Z -> Prop) :
  arr array n m es -> (1 <= k)%nat -> (1 <= max <= length es)%nat -> (cnt <= length es)%nat ->
  (forall r, r = max \/ r = k /\ (k <= cnt)%nat -> above es r max ->
     ((k <= cnt)%nat -> above es r k) -> Q (Z.of_nat r) m) ->
  wp (larger compare array (Z.of_nat k) (Z.of_nat max) (Z.of_nat cnt) (Z.of_nat n)) Q m.
Proof using Hn Hcmp Htot.
  intros Har Hk Hm Hc HQ. unfold larger. destruct (Z.leb_spec (Z.of_nat k) (Z.of_nat cnt)).
  2:{ wp_steps. apply HQ; [by left|apply above_refl|lia]. }
  unfold do_compare. wp_steps. change (id m) with m.
  destruct (at1_is es k) as [x Hx]; [lia|]. destruct (at1_is es max) as [y Hy]; [lia|].
  assert (E : compare m (elem_at array (Z.of_nat k) (Z.of_nat n)) (elem_at array (Z.of_nat max) (Z.of_nat n)) = cmp x y).
  { unfold elem_at. replace (Z.to_nat ((Z.of_nat k - 1) * Z.of_nat n)) with ((k - 1) * n)%nat by nia.
    replace (Z.to_nat ((Z.of_nat max - 1) * Z.of_nat n)) with ((max - 1) * n)%nat by nia. by apply (Hcmp m es). }
  rewrite E. destruct (Z.ltb_spec 0 (cmp x y)) as [Hlt|Hle].
  - apply HQ; [right; lia| |intros _; apply above_refl]. intros x' y' Hx' Hy'. simplify_eq. by apply Htot.
  - apply HQ; [by left|apply above_refl|]. intros _ x' y' Hx' Hy'. by simplify_eq.
Qed.

(** Floating down: the elements from [i + 1] on are a heap, and afterwards
    those from [i] on. *)
Lemma heapify_spec m es i cnt (Q : unit -> list Z -> Prop) :
  arr array n m es -> (1 <= i <= cnt)%nat -> (cnt <= length es)%nat -> Z.of_nat (length es) < 2 ^ 31 ->
  heap (S i) cnt es ->
  (forall m' es', arr array n m' es' -> es' ≡ₚ es -> heap i cnt es' ->
     (forall k, (1 <= k < i \/ cnt < k)%nat -> at1 es' k = at1 es k) -> within array (length es * n) m m' -> Q tt m') ->
  wp (heapify compare array (Z.of_nat i) (Z.of_nat cnt) (Z.of_nat n)) Q m.
Proof using Hn Hcmp Htot Htrans.
  intros Har Hi Hc Hlen Hh HQ. unfold heapify.
  eapply (wp_loop _ (fun d z m1 => exists j es1, z = Z.of_nat j /\ d = (cnt - j)%nat /\ (i <= j <= cnt)%nat /\
    arr array n m1 es1 /\ es1 ≡ₚ es /\ within array (length es * n) m m1 /\
    (forall k, (1 <= k < i \/ cnt < k)%nat -> at1 es1 k = at1 es k) /\
    (forall p c, (i <= p)%nat -> p <> j -> (c = 2 * p \/ c = 2 * p + 1)%nat -> (c <= cnt)%nat -> above es1 p c) /\
    (forall p c, (i <= p)%nat -> (j = 2 * p \/ j = 2 * p + 1)%nat -> (c = 2 * j \/ c = 2 * j + 1)%nat ->
       (c <= cnt)%nat -> above es1 p c))).
  2:{ exists i, es. split_and!; try done; try lia.
      intros p c Hp Hne Hcc Hle. apply Hh; [lia|done|done]. }
  2:{ lia. }
  intros d z m1 (j & es1 & -> & -> & Hj & Har1 & Hperm & Hw & Hsame & H1 & H2).
  assert (Hl1 : length es1 = length es) by by rewrite Hperm.
  replace (u32 (2 * Z.of_nat j)) with (Z.of_nat (2 * j)) by (rewrite u32_small; lia).
  replace (u32 (2 * Z.of_nat j + 1)) with (Z.of_nat (2 * j + 1)) by (rewrite u32_small; lia).
  apply wp_bind. eapply (larger_spec m1 es1); [done|lia|lia|lia|]. intros r1 Hr1 Ha1 Hb1.
  apply wp_bind. eapply (larger_spec m1 es1); [done|lia|lia|lia|]. intros r Hr Ha Hb.
  assert (Hrj : above es1 r j) by (eapply (above_trans _ _ r1); [apply at1_is; lia|done..]).
  assert (Hrl : (2 * j <= cnt)%nat -> above es1 r (2 * j)).
  { intros Hle. eapply (above_trans _ _ r1); [apply at1_is; lia|done|by apply Hb1]. }
  destruct (Z.eqb_spec (Z.of_nat r) (Z.of_nat j)) as [E|Hne].
  - wp_steps. apply Nat2Z.inj in E. subst r. apply (HQ m1 es1); try done.
    intros p c Hp Hcc Hle. destruct (decide (p = j)) as [->|Hpj]; [|by apply H1].
    destruct Hcc as [-> | ->]; [by apply Hrl|by apply Hb].
  - assert (Hrr : (r = 2 * j \/ r = 2 * j + 1)%nat /\ (r <= cnt)%nat) by lia. clear Hr1 Hr.
    apply wp_bind. eapply (do_swap_spec array n m1 es1); [done|done|lia|lia|lia|]. intros m2 Har2 Hw2. wp_steps.
    replace (Z.to_nat (Z.of_nat j - 1)) with (j - 1)%nat in Har2 by lia.
    replace (Z.to_nat (Z.of_nat r - 1)) with (r - 1)%nat in Har2 by lia.
    exists (cnt - r)%nat. split; [lia|]. exists r, (swap (j - 1) (r - 1) es1). split_and!; try done; try lia.
    + by rewrite swap_perm.
    + destruct Hw as [W1 W2], Hw2 as [W3 W4]. rewrite Hl1 in W4. split; [congruence|]. intros x Hx. by rewrite W4, W2.
    + intros k Hk. rewrite at1_swap by lia. rewrite <- Hsame by done. repeat case_decide; try lia; done.
    + intros p c Hp Hpr Hcc Hle. apply above_swap; [lia..|]. cbn zeta. destruct (decide (p = j)) as [->|Hpj].
      * destruct (decide (c = j)); [lia|]. destruct (decide (c = r)) as [->|Hcr]; [done|].
        destruct Hcc as [-> | ->]; [apply Hrl|apply Hb]; lia.
      * rewrite (decide_False (P := p = r)) by done. destruct (decide (c = j)) as [->|Hcj].
        -- apply (H2 p r); lia.
        -- rewrite decide_False by lia. apply H1; lia.
    + intros p c Hp Hrp Hcc Hle. assert (p = j) by lia. subst p. apply above_swap; [lia..|]. cbn zeta.
      rewrite decide_True by done. rewrite !decide_False by lia. apply (H1 r); lia.
Qed.

Lemma within_refl m c : within array c m m.
Proof using Type. done. Qed.

Lemma within_trans m1 m2 m3 c : within array c m1 m2 -> within array c m2 m3 -> within array c m1 m3.
Proof using Type. intros [E1 F1] [E2 F2]. split; [congruence|]. intros x Hx. by rewrite F2, F1. Qed.

(** A permutation that moves nothing from [k] on permutes the part before. *)
Lemma prefix_perm es es' k : es' ≡ₚ es -> (forall j, (k <= j)%nat -> es' !! j = es !! j) -> take k es' ≡ₚ take k es.
Proof using Type.
  clear Hn. intros Hp Hs. assert (Ed : drop k es' = drop k es).
  { apply list_eq. intros j. rewrite !lookup_drop. apply Hs. lia. }
  rewrite <- (take_drop k es'), <- (take_drop k es), Ed in Hp. by apply Permutation_app_inv_r in Hp.
Qed.

(** Building the heap. *)
Lemma build_spec m es (Q : unit -> list Z -> Prop) :
  arr array n m es -> Z.of_nat (length es) < 2 ^ 31 ->
  (forall m' es', arr array n m' es' -> es' ≡ₚ es -> heap 1 (length es) es' -> within array (length es * n) m m' -> Q tt m') ->
  wp (loop (fun i : Z =>
    if 0 <? i then heapify compare array i (Z.of_nat (length es)) (Z.of_nat n);;; ret (inl (i - 1))
    else ret (inr tt)) (Z.of_nat (length es) / 2)) Q m.
Proof using Hn Hcmp Htot Htrans.
  intros Har Hlen HQ. set (cnt := length es) in *.
  eapply (wp_loop _ (fun d z m1 => exists es1, z = Z.of_nat d /\ (d <= cnt)%nat /\ arr array n m1 es1 /\ es1 ≡ₚ es /\
    heap (S d) cnt es1 /\ within array (cnt * n) m m1)) with (k := Z.to_nat (Z.of_nat cnt / 2)).
  2:{ exists es. pose proof (Z.div_mod (Z.of_nat cnt) 2). pose proof (Z.mod_pos_bound (Z.of_nat cnt) 2).
      split_and!; try done; try lia. intros i c Hi Hc Hle. lia. }
  2:{ pose proof (Z.div_le_upper_bound (Z.of_nat cnt) 2 (Z.of_nat cnt)). lia. }
  intros d z m1 (es1 & -> & Hd & Har1 & Hp & Hh & Hw). assert (Hl1 : length es1 = cnt) by by rewrite Hp.
  destruct (Z.ltb_spec 0 (Z.of_nat d)).
  - apply wp_bind. eapply (heapify_spec m1 es1); [done|lia|lia|lia|done|]. intros m2 es2 Har2 Hp2 Hh2 _ Hw2. wp_steps.
    exists (d - 1)%nat. split; [lia|]. exists es2. replace (S (d - 1)) with d by lia. rewrite Hl1 in Hw2.
    split_and!; try done; [lia|lia|by rewrite Hp2|by eapply within_trans].
  - wp_steps. apply (HQ m1 es1); try done. by replace d with 0%nat in Hh by lia.
Qed.

(** Taking the elements out of the heap, the largest first. *)
Lemma drain_spec m es (Q : unit -> list Z -> Prop) :
  arr array n m es -> Z.of_nat (length es) < 2 ^ 31 -> heap 1 (length es) es ->
  (forall m' es', arr array n m' es' -> es' ≡ₚ es -> (forall a b, (1 <= a < b)%nat -> above es' b a) ->
     within array (length es * n) m m' -> Q tt m') ->
  wp (loop (fun i : Z =>
    if 1 <? i then
      do_swap array 1 i (Z.of_nat n);;;
      heapify compare array 1 (i - 1) (Z.of_nat n);;;
      ret (inl (i - 1))
    else ret (inr tt)) (Z.of_nat (length es))) Q m.
Proof using Hn Hcmp Htot Htrans.
  intros Har Hlen Hh HQ. set (cnt := length es) in *.
  eapply (wp_loop _ (fun d z m1 => exists es1, z = Z.of_nat d /\ (d <= cnt)%nat /\ arr array n m1 es1 /\ es1 ≡ₚ es /\
    heap 1 d es1 /\ (forall a b, (1 <= a < b)%nat -> (d < b)%nat -> above es1 b a) /\ within array (cnt * n) m m1)) with (k := cnt).
  2:{ exists es. split_and!; try done. intros a b Hab Hb x y Hx. unfold at1 in Hx. apply lookup_lt_Some in Hx. lia. }
  2:{ lia. }
  intros d z m1 (es1 & -> & Hd & Har1 & Hp & Hh1 & Hs & Hw). assert (Hl1 : length es1 = cnt) by by rewrite Hp.
  destruct (Z.ltb_spec 1 (Z.of_nat d)).
  2:{ wp_steps. apply (HQ m1 es1); try done. intros a b Hab. apply Hs; lia. }
  apply wp_bind. eapply (do_swap_spec array n m1 es1); [done|done|lia|lia|lia|]. intros m2 Har2 Hw2.
  change (Z.to_nat (1 - 1)) with (1 - 1)%nat in Har2.
  replace (Z.to_nat (Z.of_nat d - 1)) with (d - 1)%nat in Har2 by lia. set (es2 := swap (1 - 1) (d - 1) es1) in *.
  assert (Hl2 : length es2 = cnt) by (unfold es2; by rewrite length_swap).
  assert (Hs2 : forall a b, (1 <= a < b)%nat -> (d <= b)%nat -> above es2 b a).
  { intros a b Hab Hb. apply above_swap; [lia..|]. cbn zeta. destruct (decide (b = 1)%nat); [lia|].
    destruct (decide (b = d)) as [->|].
    - apply heap_top with d; [done..|lia|]. repeat case_decide; lia.
    - apply Hs; repeat case_decide; lia. }
  replace (Z.of_nat d - 1) with (Z.of_nat (d - 1)) by lia. change 1 with (Z.of_nat 1).
  apply wp_bind. eapply (heapify_spec m2 es2); [done|lia|lia|lia| |].
  { intros p c Hp1 Hc Hle. apply above_swap; [lia..|]. cbn zeta. rewrite !decide_False by lia. apply Hh1; lia. }
  intros m3 es3 Har3 Hp3 Hh3 Hsame Hw3. wp_steps. exists (d - 1)%nat. split; [lia|]. exists es3.
  assert (Hpre : take (d - 1) es3 ≡ₚ take (d - 1) es2).
  { apply prefix_perm; [done|]. intros j Hj. specialize (Hsame (S j) ltac:(lia)). unfold at1 in Hsame.
    by replace (S j - 1)%nat with j in Hsame by lia. }
  split_and!; try done; try lia.
  - rewrite Hp3. unfold es2. by rewrite swap_perm.
  - intros a b Hab Hb x y Hx Hy. rewrite Hsame in Hx by lia. destruct (Nat.le_gt_cases d a).
    + rewrite Hsame in Hy by lia. by apply (Hs2 a b); [lia..| |].
    + assert (Hin : y ∈ take (d - 1) es2).
      { rewrite <- Hpre. apply list_elem_of_lookup. exists (a - 1)%nat. by rewrite lookup_take_lt by lia. }
      apply list_elem_of_lookup in Hin as [k Hk]. apply lookup_take_Some in Hk as [Hk Hkd].
      apply (Hs2 (S k) b); [lia|lia|done|]. unfold at1. by replace (S k - 1)%nat with k by lia.
  - rewrite Hl1 in Hw2. rewrite Hl2 in Hw3. by do 2 (eapply within_trans; [done|]).
Qed.

End heap.

(** * Theorems *)

(** What the comment of [sort] asks of the comparison function: it compares
    what is stored in the elements, and does so like [strcmp]. *)
Record comparison (compare : list Z -> nat -> nat -> Z) (cmp : list Z -> list Z -> Z) (array n : nat) : Prop := {
  co_contents : forall m es i j x y, arr array n m es -> es !! i = Some x -> es !! j = Some y ->
    compare m (array + i * n)%nat (array + j * n)%nat = cmp x y;
  co_total : forall x y, 0 < cmp x y -> cmp y x <= 0;
  co_trans : forall x y z, cmp x y <= 0 -> cmp y z <= 0 -> cmp x z <= 0;
}.

(** [sort] terminates and leaves in the array the elements it held, each as
    often as before, in ascending order; no other byte of memory changes. *)
Theorem sort_correct (compare : list Z -> nat -> nat -> Z) (cmp : list Z -> list Z -> Z)
  (array n : nat) (m : list Z) (es : list (list Z))
  (Hn : (0 < n)%nat) (Hcmp : comparison compare cmp array n)
  (Har : arr array n m es) (Hlen : Z.of_nat (length es) < 2 ^ 31) :
  exists m' es', sort compare array (Z.of_nat (length es)) (Z.of_nat n) m = Ok (tt, m') /\
    arr array n m' es' /\ es' ≡ₚ es /\
    (forall i j x y, (i < j)%nat -> es' !! i = Some x -> es' !! j = Some y -> cmp x y <= 0) /\
    length m' = length m /\
    (forall p, (p < array \/ array + length es * n <= p)%nat -> m' !! p = m !! p).
Proof.
  destruct Hcmp as [H1 H2 H3].
  assert (H : wp (sort compare array (Z.of_nat (length es)) (Z.of_nat n)) (fun _ m' => exists es', arr array n m' es' /\
    es' ≡ₚ es /\ (forall a b, (1 <= a < b)%nat -> above cmp es' b a) /\ within array (length es * n) m m') m).
  { unfold sort. wp_steps.
    - unfold nonnull, NULL. destruct Har as [Ha _]. destruct (Nat.eqb_spec array 0); [lia|done].
    - by apply Z.ltb_lt; lia.
    - eapply (build_spec compare cmp); [done..|]. intros m1 es1 Har1 Hp1 Hh1 Hw1.
      assert (El : length es1 = length es) by by rewrite Hp1. rewrite <- El in Hh1 |- *.
      eapply (drain_spec compare cmp); [done|done|done|done|done|lia|done|]. intros m2 es2 Har2 Hp2 Hs2 Hw2. exists es2.
      split_and!; [done|by rewrite Hp2|done|]. rewrite El in *. by eapply within_trans. }
  apply wp_ok in H as ([] & m' & H & es' & Har' & Hp & Hs & Hl & Hw). exists m', es'. split_and!; try done.
  intros i j x y Hij Hx Hy. apply (Hs (S i) (S j)); [lia| |]; unfold at1; by rewrite Nat.sub_succ, Nat.sub_0_r.
Qed.

(** Comparing single bytes. *)
Definition byte_compare (m : list Z) (a b : nat) : Z := default 0 (m !! a) - default 0 (m !! b).
Definition byte_cmp (x y : list Z) : Z := default 0 (head x) - default 0 (head y).

Lemma byte_comparison array : comparison byte_compare byte_cmp array 1.
Proof.
  split; [|unfold byte_cmp; lia..]. intros m es i j x y [_ He] Hx Hy. unfold byte_compare, byte_cmp.
  destruct (He i x Hx) as [_ Ex]. destruct (He j y Hy) as [_ Ey]. specialize (Ex 0%nat ltac:(lia)). specialize (Ey 0%nat ltac:(lia)).
  rewrite Nat.add_0_r in Ex, Ey. rewrite Ex, Ey. by destruct x, y.
Qed.

Lemma sort_correct_witness : exists m' es', sort byte_compare 1 4 1 [0; 30; 10; 20; 10; 99] = Ok (tt, m') /\
  arr 1 1 m' es' /\ es' ≡ₚ [[30]; [10]; [20]; [10]].
Proof.
  destruct (sort_correct byte_compare byte_cmp 1 1 [0; 30; 10; 20; 10; 99] [[30]; [10]; [20]; [10]]) as (m' & es' & H1 & H2 & H3 & _).
  - lia.
  - apply byte_comparison.
  - split; [lia|]. intros [|[|[|[|k]]]] e [= <-]; (split; [done|]); intros [|j] Hj; (done || lia).
  - done.
  - exists m', es'. split; [exact H1|]. split; [exact H2|exact H3].
Defined.

(** [binary_search] on a sorted array terminates and returns a pointer to an
    element equal to the key, or null when there is none. *)
Theorem binary_search_correct (compare : list Z -> nat -> nat -> Z) (kcmp : list Z -> Z)
  (key array n : nat) (m : list Z) (es : list (list Z))
  (Hn : (0 < n)%nat) (Har : arr array n m es) (Hlen : Z.of_nat (length es) < 2 ^ 32)
  (Hcmp : forall i x, es !! i = Some x -> compare m key (array + i * n)%nat = kcmp x)
  (Hsort : forall i j x y, (i < j)%nat -> es !! i = Some x -> es !! j = Some y ->
     (kcmp x < 0 -> kcmp y < 0) /\ (0 < kcmp y -> 0 < kcmp x)) :
  exists r, binary_search compare key array (Z.of_nat (length es)) (Z.of_nat n) m = Ok (r, m) /\
    match r with
    | Some p => exists i x, p = (array + i * n)%nat /\ es !! i = Some x /\ kcmp x = 0
    | None => forall i x, es !! i = Some x -> kcmp x <> 0
    end.
Proof.
  assert (H : wp (binary_search compare key array (Z.of_nat (length es)) (Z.of_nat n)) (fun r m' => m' = m /\
    match r with
    | Some p => exists i x, p = (array + i * n)%nat /\ es !! i = Some x /\ kcmp x = 0
    | None => forall i x, es !! i = Some x -> kcmp x <> 0
    end) m).
  { unfold binary_search.
    apply (wp_loop _ (fun d '(first, last) m1 => m1 = m /\ exists lo hi, first = (array + lo * n)%nat /\
      last = (array + hi * n)%nat /\ d = (hi - lo)%nat /\ (lo <= hi <= length es)%nat /\
      (forall i x, (i < lo)%nat -> es !! i = Some x -> 0 < kcmp x) /\
      (forall i x, (hi <= i)%nat -> es !! i = Some x -> kcmp x < 0))) with (k := length es).
    2:{ split; [done|]. exists 0%nat, (length es). split_and!; try lia.
        intros i x Hi Hx. apply lookup_lt_Some in Hx. lia. }
    2:{ lia. }
    intros d [first last] m1 (-> & lo & hi & -> & -> & -> & Hb & Hlo & Hhi).
    destruct (Nat.ltb_spec (array + lo * n) (array + hi * n)) as [Hlt|Hge].
    2:{ wp_steps. split; [done|]. intros i x Hx. destruct (Nat.lt_ge_cases i lo).
        - specialize (Hlo i x ltac:(done) Hx). lia.
        - specialize (Hhi i x ltac:(nia) Hx). lia. }
    assert (Hlh : (lo < hi)%nat) by nia. set (mid := (lo + (hi - lo) / 2)%nat).
    pose proof (Nat.div_lt (hi - lo) 2 ltac:(lia) ltac:(lia)) as Hmid.
    assert (Em : (array + lo * n + Z.to_nat (Z.of_nat (array + hi * n - (array + lo * n)) / Z.of_nat n / 2 * Z.of_nat n) = array + mid * n)%nat).
    { replace (array + hi * n - (array + lo * n))%nat with ((hi - lo) * n)%nat by nia.
      rewrite Nat2Z.inj_mul, Z.div_mul by lia. change 2 with (Z.of_nat 2). rewrite <- Nat2Z.inj_div, <- Nat2Z.inj_mul, Nat2Z.id.
      subst mid. lia. }
    rewrite Em. wp_steps. change (id m) with m. destruct (lookup_lt_is_Some_2 es mid) as [x Hx]; [lia|].
    rewrite (Hcmp mid x Hx). destruct (Z.ltb_spec (kcmp x) 0); [|destruct (Z.ltb_spec 0 (kcmp x))].
    - wp_steps. exists (mid - lo)%nat. split; [lia|]. split; [done|]. exists lo, mid. split_and!; try done; try lia.
      intros i y Hi Hy. destruct (decide (i = mid)) as [->|]; [by simplify_eq|]. eapply (Hsort mid i); [lia|done..].
    - wp_steps. exists (hi - (S mid))%nat. split; [lia|]. split; [done|]. exists (S mid), hi.
      split_and!; try done; try lia. intros i y Hi Hy. destruct (decide (i = mid)) as [->|]; [by simplify_eq|].
      eapply (Hsort i mid); [lia|done..].
    - wp_steps. split; [done|]. exists mid, x. split_and!; try done. lia. }
  apply wp_ok in H as (r & m' & H & -> & HQ). by exists r.
Qed.

Lemma binary_search_correct_witness :
  exists r, binary_search (fun m k p => default 0 (m !! k) - default 0 (m !! p)) 1 2 3 1 [0; 20; 10; 20; 30] = Ok (r, [0; 20; 10; 20; 30]) /\
    r = Some 3%nat.
Proof.
  destruct (binary_search_correct (fun m k p => default 0 (m !! k) - default 0 (m !! p)) (fun x => 20 - default 0 (head x))
    1 2 1 [0; 20; 10; 20; 30] [[10]; [20]; [30]]) as (r & H1 & _).
  - lia.
  - split; [lia|]. intros [|[|[|k]]] e [= <-]; (split; [done|]); intros [|j] Hj; (done || lia).
  - done.
  - by intros [|[|[|i]]] x [= <-].
  - intros [|[|[|i]]] [|[|[|j]]] x y Hij [= <-] [= <-]; cbn; lia.
  - exists r. split; [exact H1|]. revert H1. vm_compute. congruence.
Defined.

End HeapSort.
