(* ===== verification/Bitmap.v ===== *)
(** Bitmaps (src/src/lib/kernel/bitmap.c).

    A [bitmap] is the C structure: a bit count and an array of 32-bit
    elements ([unsigned long] on the 32-bit target).  The operations
    are translated one by one, over the elements; [bit b i] is what the
    bitmap means from the outside, an array of bits, and the theorems
    describe every operation by its effect on that array. *)

From stdpp Require Import options.
From S2P Require Import Prelude.

Definition ELEM_BITS : Z := 32.
Definition BITMAP_ERROR : Z := SIZE_MAX.

Record bitmap := mkBitmap {
  bit_cnt : Z;
  bits : list Z;
}.

Definition elem_idx (bit_idx : Z) : Z := bit_idx / ELEM_BITS.

Definition bit_mask (bit_idx : Z) : Z := u32 (Z.shiftl 1 (bit_idx mod ELEM_BITS)).

Definition elem_cnt (bit_cnt : Z) : Z := u32 (bit_cnt + ELEM_BITS - 1) / ELEM_BITS.

Definition byte_cnt (bit_cnt : Z) : Z := u32 (4 * elem_cnt bit_cnt).

Definition last_mask (b : bitmap) : Z :=
  let last_bits := bit_cnt b mod ELEM_BITS in
  if negb (last_bits =? 0) then u32 (u32 (Z.shiftl 1 last_bits) - 1)
  else u32 (-1).

Definition bitmap_size (b : bitmap) : Z := bit_cnt b.

(** The read-modify-write of one element that the three atomic
    operations share. *)
Definition bits_update (b : bitmap) (idx : Z) (f : Z -> Z) : res bitmap :=
  let* e := access (bits b !! Z.to_nat idx) in
  Ok (mkBitmap (bit_cnt b) (<[Z.to_nat idx := f e]> (bits b))).

Definition bitmap_mark (b : bitmap) (bit_idx : Z) : res bitmap :=
  let idx := elem_idx bit_idx in
  let mask := bit_mask bit_idx in
  bits_update b idx (fun e => Z.lor e mask).

Definition bitmap_reset (b : bitmap) (bit_idx : Z) : res bitmap :=
  let idx := elem_idx bit_idx in
  let mask := bit_mask bit_idx in
  bits_update b idx (fun e => Z.land e (u32 (Z.lnot mask))).

Definition bitmap_flip (b : bitmap) (bit_idx : Z) : res bitmap :=
  let idx := elem_idx bit_idx in
  let mask := bit_mask bit_idx in
  bits_update b idx (fun e => Z.lxor e mask).

Definition bitmap_set (b : bitmap) (idx : Z) (value : bool) : res bitmap :=
  check (idx <? bit_cnt b) in
  if value then bitmap_mark b idx else bitmap_reset b idx.

Definition bitmap_test (b : bitmap) (idx : Z) : res bool :=
  check (idx <? bit_cnt b) in
  let* e := access (bits b !! Z.to_nat (elem_idx idx)) in
  Ok (negb (Z.land e (bit_mask idx) =? 0)).

(** The loop of [bitmap_set_multiple]: [n] iterations are left, the
    next one has index [i]. *)
Fixpoint set_multiple_loop (n : nat) (i : Z) (b : bitmap) (start : Z)
    (value : bool) : res bitmap :=
  match n with
  | O => Ok b
  | S n =>
      let* b' := bitmap_set b (u32 (start + i)) value in
      set_multiple_loop n (i + 1) b' start value
  end.

Definition bitmap_set_multiple (b : bitmap) (start cnt : Z) (value : bool)
    : res bitmap :=
  check (start <=? bit_cnt b) in
  check (u32 (start + cnt) <=? bit_cnt b) in
  set_multiple_loop (Z.to_nat cnt) 0 b start value.

Definition bitmap_set_all (b : bitmap) (value : bool) : res bitmap :=
  bitmap_set_multiple b 0 (bitmap_size b) value.

Fixpoint count_loop (n : nat) (i : Z) (b : bitmap) (start : Z) (value : bool)
    (value_cnt : Z) : res Z :=
  match n with
  | O => Ok value_cnt
  | S n =>
      let* t := bitmap_test b (u32 (start + i)) in
      count_loop n (i + 1) b start value
        (if Bool.eqb t value then u32 (value_cnt + 1) else value_cnt)
  end.

Definition bitmap_count (b : bitmap) (start cnt : Z) (value : bool) : res Z :=
  check (start <=? bit_cnt b) in
  check (u32 (start + cnt) <=? bit_cnt b) in
  count_loop (Z.to_nat cnt) 0 b start value 0.

Fixpoint contains_loop (n : nat) (i : Z) (b : bitmap) (start : Z) (value : bool)
    : res bool :=
  match n with
  | O => Ok false
  | S n =>
      let* t := bitmap_test b (u32 (start + i)) in
      if Bool.eqb t value then Ok true
      else contains_loop n (i + 1) b start value
  end.

Definition bitmap_contains (b : bitmap) (start cnt : Z) (value : bool) : res bool :=
  check (start <=? bit_cnt b) in
  check (u32 (start + cnt) <=? bit_cnt b) in
  contains_loop (Z.to_nat cnt) 0 b start value.

Definition bitmap_any (b : bitmap) (start cnt : Z) : res bool :=
  bitmap_contains b start cnt true.

Definition bitmap_none (b : bitmap) (start cnt : Z) : res bool :=
  let* c := bitmap_contains b start cnt true in Ok (negb c).

Definition bitmap_all (b : bitmap) (start cnt : Z) : res bool :=
  let* c := bitmap_contains b start cnt false in Ok (negb c).

(** The loop of [bitmap_scan]: [n] start positions are left to try. *)
Fixpoint scan_loop (n : nat) (i : Z) (b : bitmap) (cnt : Z) (value : bool) : res Z :=
  match n with
  | O => Ok BITMAP_ERROR
  | S n =>
      let* c := bitmap_contains b i cnt (negb value) in
      if negb c then Ok i else scan_loop n (i + 1) b cnt value
  end.

Definition bitmap_scan (b : bitmap) (start cnt : Z) (value : bool) : res Z :=
  check (start <=? bit_cnt b) in
  if cnt <=? bit_cnt b then
    let last := bit_cnt b - cnt in
    scan_loop (Z.to_nat (last - start + 1)) start b cnt value
  else Ok BITMAP_ERROR.

Definition bitmap_scan_and_flip (b : bitmap) (start cnt : Z) (value : bool)
    : res (Z * bitmap) :=
  let* idx := bitmap_scan b start cnt value in
  if negb (idx =? BITMAP_ERROR) then
    let* b' := bitmap_set_multiple b idx cnt (negb value) in
    Ok (idx, b')
  else Ok (idx, b).

(** [malloc] hands out [None] or storage with arbitrary contents. *)
Definition bitmap_create (mem : option unit) (mem_bits : option (list Z))
    (bit_cnt : Z) : res (option bitmap) :=
  match mem with
  | None => Ok None
  | Some _ =>
      match mem_bits with
      | Some l =>
          let* b := bitmap_set_all (mkBitmap bit_cnt l) false in Ok (Some b)
      | None =>
          if bit_cnt =? 0 then
            let* b := bitmap_set_all (mkBitmap bit_cnt []) false in Ok (Some b)
          else Ok None
      end
  end.

Definition bitmap_buf_size (bit_cnt : Z) : Z := u32 (8 + byte_cnt bit_cnt).

(** [block] is the storage that follows the bitmap's header. *)
Definition bitmap_create_in_buf (bit_cnt : Z) (block : list Z) (block_size : Z)
    : res bitmap :=
  check (bitmap_buf_size bit_cnt <=? block_size) in
  bitmap_set_all (mkBitmap bit_cnt block) false.

(** * The array of bits *)

Definition bit (b : bitmap) (i : Z) : bool :=
  Z.testbit (default 0 (bits b !! Z.to_nat (i / 32))) (i mod 32).

Record bitmap_wf (b : bitmap) : Prop := {
  wf_cnt : 0 <= bit_cnt b <= 2 ^ 32 - 32;
  wf_len : Z.of_nat (length (bits b)) = (bit_cnt b + 31) / 32;
  wf_elem : Forall (fun e => 0 <= e < 2 ^ 32) (bits b);
}.

(** [b'] is [b] with the bits of the range set by [f]. *)
Record bits_set (b b' : bitmap) (f : Z -> bool) : Prop := {
  set_wf : bitmap_wf b';
  set_cnt : bit_cnt b' = bit_cnt b;
  set_bit : forall j, 0 <= j < bit_cnt b -> bit b' j = f j;
}.

Section bitmap_lemmas.
Implicit Types (b : bitmap) (i j start cnt : Z) (v : bool).

Lemma elem_lookup b i :
  bitmap_wf b -> 0 <= i < bit_cnt b ->
  exists e, bits b !! Z.to_nat (i / 32) = Some e /\ 0 <= e < 2 ^ 32.
Proof.
  intros [Hc Hl He] Hi.
  destruct (lookup_lt_is_Some_2 (bits b) (Z.to_nat (i / 32))) as [e Hlk].
  { apply Nat2Z.inj_lt. rewrite Z2Nat.id by (apply Z.div_pos; lia).
    rewrite Hl. apply Z.div_lt_upper_bound; [lia|].
    pose proof (Z.mul_succ_div_gt (bit_cnt b + 31) 32). lia. }
  exists e. split; [done|]. by eapply Forall_lookup_1 in He.
Qed.

Lemma bit_mask_pow i : bit_mask i = 2 ^ (i mod 32).
Proof.
  unfold bit_mask, ELEM_BITS. rewrite Z.shiftl_1_l. apply u32_small.
  pose proof (Z.mod_pos_bound i 32 ltac:(lia)). split; [lia|].
  apply Z.pow_lt_mono_r; lia.
Qed.

Lemma small_testbit_high (e k : Z) :
  0 <= e < 2 ^ 32 -> 32 <= k -> Z.testbit e k = false.
Proof.
  intros He Hk. destruct (decide (e = 0)) as [->|]; [apply Z.bits_0|].
  apply Z.bits_above_log2; [lia|].
  assert (Z.log2 e < 32) by (apply Z.log2_lt_pow2; lia). lia.
Qed.

Lemma testbit_range (e : Z) :
  0 <= e -> (forall k, 32 <= k -> Z.testbit e k = false) -> 0 <= e < 2 ^ 32.
Proof.
  intros He Hk. split; [done|]. destruct (Z.lt_ge_cases e (2 ^ 32)); [done|].
  assert (Hlog : 32 <= Z.log2 e) by (apply Z.log2_le_pow2; lia).
  specialize (Hk _ Hlog). rewrite Z.bit_log2 in Hk by lia. done.
Qed.

(** The effect of rewriting one element: if [f] keeps the element in
    range and changes only the bit [i mod 32], the bitmap changes only
    at [i]. *)
Lemma bits_update_spec b i v (f : Z -> Z) :
  bitmap_wf b -> 0 <= i < bit_cnt b ->
  (forall e, bits b !! Z.to_nat (i / 32) = Some e -> 0 <= e < 2 ^ 32 ->
     0 <= f e /\
     forall k, 0 <= k -> Z.testbit (f e) k =
       if k =? i mod 32 then v else Z.testbit e k) ->
  exists b', bits_update b (elem_idx i) f = Ok b' /\
    bits_set b b' (fun j => if j =? i then v else bit b j).
Proof.
  intros Hwf Hi Hf. destruct (elem_lookup b i Hwf Hi) as (e & Hlk & He).
  unfold bits_update, elem_idx, ELEM_BITS. rewrite Hlk. cbn.
  eexists. split; [done|]. destruct Hwf as [Hc Hl Hel].
  destruct (Hf e Hlk He) as [Hpos Hbit].
  pose proof (Z.mod_pos_bound i 32 ltac:(lia)).
  split; cbn; [|done|].
  - split; cbn; [done|by rewrite length_insert|].
    apply Forall_insert; [done|]. apply testbit_range; [done|].
    intros k Hk. rewrite Hbit by lia. destruct (Z.eqb_spec k (i mod 32)); [lia|].
    by apply small_testbit_high.
  - intros j Hj. unfold bit; cbn.
    pose proof (Z.mod_pos_bound j 32 ltac:(lia)).
    pose proof (Z.div_mod j 32 ltac:(lia)).
    pose proof (Z.div_mod i 32 ltac:(lia)).
    assert (0 <= i / 32) by (apply Z.div_pos; lia).
    assert (0 <= j / 32) by (apply Z.div_pos; lia).
    destruct (Z.eqb_spec (j / 32) (i / 32)) as [Hq|Hq].
    + rewrite Hq, list_lookup_insert_eq by by eapply lookup_lt_Some.
      cbn. rewrite Hbit, Hlk by lia.
      destruct (Z.eqb_spec (j mod 32) (i mod 32)), (Z.eqb_spec j i); try done; lia.
    + rewrite list_lookup_insert_ne by lia.
      destruct (Z.eqb_spec j i); [congruence|done].
Qed.

Lemma bitmap_mark_spec b i :
  bitmap_wf b -> 0 <= i < bit_cnt b ->
  exists b', bitmap_mark b i = Ok b' /\
    bits_set b b' (fun j => if j =? i then true else bit b j).
Proof.
  intros Hwf Hi. apply bits_update_spec; [done..|]. intros e _ He.
  rewrite bit_mask_pow. pose proof (Z.mod_pos_bound i 32 ltac:(lia)).
  split; [apply Z.lor_nonneg; lia|]. intros k Hk.
  rewrite Z.lor_spec, Z.pow2_bits_eqb by lia. rewrite Z.eqb_sym.
  destruct (Z.eqb_spec k (i mod 32)); [apply orb_true_r|apply orb_false_r].
Qed.

Lemma bitmap_reset_spec b i :
  bitmap_wf b -> 0 <= i < bit_cnt b ->
  exists b', bitmap_reset b i = Ok b' /\
    bits_set b b' (fun j => if j =? i then false else bit b j).
Proof.
  intros Hwf Hi. apply bits_update_spec; [done..|]. intros e _ He.
  rewrite bit_mask_pow. pose proof (Z.mod_pos_bound i 32 ltac:(lia)).
  split; [apply Z.land_nonneg; lia|]. intros k Hk. rewrite Z.land_spec.
  unfold u32. destruct (Z.lt_ge_cases k 32) as [Hlt|Hge].
  - rewrite Z.mod_pow2_bits_low, Z.lnot_spec, Z.pow2_bits_eqb by lia.
    rewrite Z.eqb_sym. destruct (Z.eqb_spec k (i mod 32)); cbn;
      [apply andb_false_r|apply andb_true_r].
  - rewrite (small_testbit_high e k) by lia. destruct (k =? i mod 32) eqn:?; done.
Qed.

Lemma bitmap_flip_spec b i :
  bitmap_wf b -> 0 <= i < bit_cnt b ->
  exists b', bitmap_flip b i = Ok b' /\
    bits_set b b' (fun j => if j =? i then negb (bit b j) else bit b j).
Proof.
  intros Hwf Hi. pose proof (Z.mod_pos_bound i 32 ltac:(lia)).
  destruct (bits_update_spec b i (negb (bit b i)) (fun e => Z.lxor e (bit_mask i)))
    as (b' & H1 & [H2 H3 H4]); [done..| |].
  - intros e Hlk He. rewrite bit_mask_pow. split; [apply Z.lxor_nonneg; lia|].
    intros k Hk. rewrite Z.lxor_spec, Z.pow2_bits_eqb by lia. rewrite Z.eqb_sym.
    unfold bit. rewrite Hlk. cbn.
    destruct (Z.eqb_spec k (i mod 32)) as [->|]; [apply xorb_true_r|apply xorb_false_r].
  - exists b'. split; [done|]. split; [done..|]. intros j Hj. rewrite H4 by done.
    by destruct (Z.eqb_spec j i) as [->|].
Qed.

Lemma bitmap_set_spec b i v :
  bitmap_wf b -> 0 <= i < bit_cnt b ->
  exists b', bitmap_set b i v = Ok b' /\
    bits_set b b' (fun j => if j =? i then v else bit b j).
Proof.
  intros Hwf Hi. unfold bitmap_set. rewrite ltb_true by lia. cbn.
  destruct v; [by apply bitmap_mark_spec|by apply bitmap_reset_spec].
Qed.

Lemma bitmap_test_spec b i :
  bitmap_wf b -> 0 <= i < bit_cnt b -> bitmap_test b i = Ok (bit b i).
Proof.
  intros Hwf Hi. destruct (elem_lookup b i Hwf Hi) as (e & Hlk & He).
  unfold bitmap_test, elem_idx, ELEM_BITS, bit. rewrite ltb_true by lia. cbn.
  rewrite Hlk. cbn. f_equal. rewrite bit_mask_pow.
  pose proof (Z.mod_pos_bound i 32 ltac:(lia)).
  destruct (Z.testbit e (i mod 32)) eqn:Hb.
  - apply negb_true_iff, eqb_false. intros Hz.
    assert (Z.testbit (Z.land e (2 ^ (i mod 32))) (i mod 32) = true) as Ht
      by (rewrite Z.land_spec, Hb, Z.pow2_bits_true by lia; done).
    rewrite Hz, Z.bits_0 in Ht. done.
  - apply negb_false_iff, Z.eqb_eq, Z.bits_inj_0. intros k.
    rewrite Z.land_spec, Z.pow2_bits_eqb by lia.
    destruct (Z.eqb_spec (i mod 32) k) as [<-|]; [by rewrite Hb|apply andb_false_r].
Qed.

Lemma bits_set_refl b : bitmap_wf b -> bits_set b b (bit b).
Proof. by split. Qed.

Lemma bits_set_ext b1 b2 f g :
  bits_set b1 b2 f -> (forall j, 0 <= j < bit_cnt b1 -> f j = g j) -> bits_set b1 b2 g.
Proof. intros [? ? Hb] Hfg. split; [done..|]. intros. rewrite Hb; auto. Qed.

Lemma set_multiple_loop_spec n i b start v :
  bitmap_wf b -> 0 <= start -> 0 <= i ->
  start + i + Z.of_nat n <= bit_cnt b ->
  exists b', set_multiple_loop n i b start v = Ok b' /\
    bits_set b b' (fun j =>
      if (start + i <=? j) && (j <? start + i + Z.of_nat n) then v else bit b j).
Proof.
  revert i b. induction n as [|n IH]; intros i b Hwf Hs Hi Hle; cbn.
  - exists b. split; [done|]. eapply bits_set_ext; [by apply bits_set_refl|].
    intros j _. repeat ztest; cbn; done || lia.
  - destruct (wf_cnt b Hwf). rewrite u32_small by lia.
    destruct (bitmap_set_spec b (start + i) v Hwf) as (b1 & -> & [Hw1 Hc1 Hb1]);
      [lia|]. cbn.
    destruct (IH (i + 1) b1) as (b2 & -> & [Hw2 Hc2 Hb2]); [done|lia..|].
    exists b2. split; [done|]. split; [done|congruence|]. intros j Hj.
    rewrite Hb2, Hb1 by lia. repeat ztest; cbn; done || lia.
Qed.

Lemma bitmap_set_multiple_spec b start cnt v :
  bitmap_wf b -> 0 <= start -> 0 <= cnt -> start + cnt <= bit_cnt b ->
  exists b', bitmap_set_multiple b start cnt v = Ok b' /\
    bits_set b b' (fun j =>
      if (start <=? j) && (j <? start + cnt) then v else bit b j).
Proof.
  intros Hwf Hs Hn Hle. destruct (wf_cnt b Hwf). unfold bitmap_set_multiple.
  rewrite u32_small, !leb_true by lia. cbn.
  destruct (set_multiple_loop_spec (Z.to_nat cnt) 0 b start v)
    as (b' & -> & Hset); [done|lia..|].
  exists b'. split; [done|]. eapply bits_set_ext; [done|]. cbn. intros j _.
  by rewrite Z2Nat.id, Z.add_0_r by lia.
Qed.

(** The bits of [start, start + cnt) all equal to [v]. *)
Definition run b start cnt v : Prop :=
  forall j, start <= j < start + cnt -> bit b j = v.

Lemma contains_loop_spec n i b start v :
  bitmap_wf b -> 0 <= start -> 0 <= i -> start + i + Z.of_nat n <= bit_cnt b ->
  exists c, contains_loop n i b start v = Ok c /\
    (c = true <-> exists j, start + i <= j < start + i + Z.of_nat n /\ bit b j = v).
Proof.
  revert i. induction n as [|n IH]; intros i Hwf Hs Hi Hle; cbn.
  - exists false. split; [done|]. split; [done|]. intros (j & ? & _). lia.
  - destruct (wf_cnt b Hwf). rewrite u32_small, bitmap_test_spec by (done || lia).
    cbn. destruct (Bool.eqb_spec (bit b (start + i)) v) as [Heq|Hne].
    + exists true. split; [done|]. split; [|done]. intros _. exists (start + i).
      split; [lia|done].
    + destruct (IH (i + 1)) as (c & -> & Hc); [done|lia..|].
      exists c. split; [done|]. rewrite Hc. split; intros (j & Hj & Hb).
      * exists j. split; [lia|done].
      * exists j. split; [|done]. destruct (decide (j = start + i)) as [->|];
          [done|lia].
Qed.

Lemma bitmap_contains_spec b start cnt v :
  bitmap_wf b -> 0 <= start -> 0 <= cnt -> start + cnt <= bit_cnt b ->
  exists c, bitmap_contains b start cnt v = Ok c /\
    (c = true <-> exists j, start <= j < start + cnt /\ bit b j = v).
Proof.
  intros Hwf Hs Hn Hle. destruct (wf_cnt b Hwf). unfold bitmap_contains.
  rewrite u32_small, !leb_true by lia. cbn.
  destruct (contains_loop_spec (Z.to_nat cnt) 0 b start v) as (c & -> & Hc);
    [done|lia..|].
  exists c. split; [done|]. rewrite Hc, Z2Nat.id, Z.add_0_r by lia. done.
Qed.

Lemma not_contains_run b start cnt v c :
  (c = true <-> exists j, start <= j < start + cnt /\ bit b j = negb v) ->
  c = false <-> run b start cnt v.
Proof.
  intros Hc. split.
  - intros -> j Hj. destruct (Bool.eqb_spec (bit b j) (negb v)) as [He|He].
    + assert (false = true) by (apply Hc; eauto). done.
    + by destruct (bit b j), v.
  - intros Hr. destruct c; [|done]. destruct Hc as [Hc _].
    destruct Hc as (j & Hj & Hb); [done|]. rewrite (Hr j Hj) in Hb. by destruct v.
Qed.

Lemma scan_loop_spec n i b cnt v :
  bitmap_wf b -> 0 <= i -> 0 <= cnt -> i + Z.of_nat n + cnt <= bit_cnt b + 1 ->
  exists r, scan_loop n i b cnt v = Ok r /\
    (r = BITMAP_ERROR /\ (forall k, i <= k < i + Z.of_nat n -> ~ run b k cnt v) \/
     i <= r < i + Z.of_nat n /\ run b r cnt v /\
       forall k, i <= k < r -> ~ run b k cnt v).
Proof.
  revert i. induction n as [|n IH]; intros i Hwf Hi Hn Hle; cbn.
  - exists BITMAP_ERROR. split; [done|]. left. split; [done|]. lia.
  - destruct (bitmap_contains_spec b i cnt (negb v)) as (c & -> & Hc); [done|lia..|].
    apply not_contains_run in Hc. cbn. destruct c; cbn.
    + assert (Hnr : ~ run b i cnt v) by (intros ?%Hc; done).
      destruct (IH (i + 1)) as (r & -> & Hr); [done|lia..|]. exists r.
      split; [done|].
      assert (Hext : forall k, ~ run b i cnt v -> (i + 1 <= k -> ~ run b k cnt v) ->
                i <= k -> ~ run b k cnt v).
      { intros k Hki Hk Hle' Hrun. destruct (decide (k = i)) as [->|]; [done|].
        by apply Hk; [lia|]. }
      destruct Hr as [[-> Hr]|(Hr & Hrun & Hmin)].
      * left. split; [done|]. intros k Hk. apply Hext; [done| |lia]. intros.
        apply Hr. lia.
      * right. split; [lia|]. split; [done|]. intros k Hk.
        apply Hext; [done| |lia]. intros. apply Hmin. lia.
    + exists i. split; [done|]. right. split; [lia|]. split; [by apply Hc|lia].
Qed.

(** What [bitmap_scan] promises of its result [r]. *)
Definition scan_result b start cnt v (r : Z) : Prop :=
  r = BITMAP_ERROR /\
    (forall k, start <= k -> k + cnt <= bit_cnt b -> ~ run b k cnt v) \/
  start <= r /\ r + cnt <= bit_cnt b /\ run b r cnt v /\
    (forall k, start <= k < r -> ~ run b k cnt v).

Lemma bitmap_scan_spec b start cnt v :
  bitmap_wf b -> 0 <= start <= bit_cnt b -> 0 <= cnt ->
  exists r, bitmap_scan b start cnt v = Ok r /\ scan_result b start cnt v r.
Proof.
  intros Hwf Hs Hn. unfold bitmap_scan, scan_result. rewrite leb_true by lia. cbn.
  destruct (Z.leb_spec cnt (bit_cnt b)) as [Hle|Hgt].
  2:{ exists BITMAP_ERROR. split; [done|]. left. split; [done|lia]. }
  destruct (Z.le_gt_cases start (bit_cnt b - cnt)) as [Hsl|Hsl].
  - destruct (scan_loop_spec (Z.to_nat (bit_cnt b - cnt - start + 1)) start b cnt v)
      as (r & -> & Hr); [done|lia..|]. exists r. split; [done|].
    rewrite Z2Nat.id in Hr by lia.
    destruct Hr as [[-> Hr]|(Hr & Hrun & Hmin)].
    + left. split; [done|]. intros k ??. apply Hr. lia.
    + right. repeat split; [lia..|done|]. intros. by apply Hmin.
  - rewrite Z2Nat.nonpos by lia. exists BITMAP_ERROR. split; [done|].
    left. split; [done|lia].
Qed.

Lemma count_loop_spec n i b start v c :
  bitmap_wf b -> 0 <= start -> 0 <= i -> start + i + Z.of_nat n <= bit_cnt b ->
  0 <= c <= i ->
  count_loop n i b start v c =
    Ok (c + Z.of_nat (length (filter (fun j => bit b j = v)
                                (seqZ (start + i) (Z.of_nat n))))).
Proof.
  revert i c. induction n as [|n IH]; intros i c Hwf Hs Hi Hle Hc.
  - cbn. by rewrite Z.add_0_r.
  - destruct (wf_cnt b Hwf). rewrite seqZ_cons by lia. cbn [count_loop].
    rewrite u32_small, bitmap_test_spec by (done || lia). cbn [rbind].
    rewrite filter_cons.
    replace (Z.pred (Z.of_nat (S n))) with (Z.of_nat n) by lia.
    replace (Z.succ (start + i)) with (start + (i + 1)) by lia.
    destruct (Bool.eqb_spec (bit b (start + i)) v); case_decide; try done.
    + rewrite u32_small, IH by (done || lia). f_equal. cbn [length]. lia.
    + by rewrite IH by (done || lia).
Qed.
End bitmap_lemmas.

(** The scan and the change of the bits that it found. *)
Lemma bitmap_scan_and_flip_spec (b : bitmap) (start cnt : Z) (v : bool)
    (Hwf : bitmap_wf b) (Hstart : 0 <= start <= bit_cnt b) (Hcnt : 0 <= cnt) :
  exists r b',
    bitmap_scan_and_flip b start cnt v = Ok (r, b') /\
    scan_result b start cnt v r /\
    (r = BITMAP_ERROR -> b' = b) /\
    (r <> BITMAP_ERROR ->
       bits_set b b' (fun j =>
         if (r <=? j) && (j <? r + cnt) then negb v else bit b j)).
Proof.
  destruct (bitmap_scan_spec b start cnt v) as (r & Hr & Hres); [done..|].
  unfold bitmap_scan_and_flip. rewrite Hr. cbn.
  destruct (Z.eqb_spec r BITMAP_ERROR) as [->|Hne]; cbn.
  - by exists BITMAP_ERROR, b.
  - pose proof Hres as [[? _]|(? & ? & _)]; [done|].
    destruct (bitmap_set_multiple_spec b r cnt (negb v)) as (b' & -> & Hset);
      [done|lia..|].
    exists r, b'. done.
Qed.

(** The first group of [cnt] free sectors, frames or pages is found
    and claimed in one call. *)
Theorem bitmap_scan_and_flip_correct (b : bitmap) (start cnt : Z) (v : bool)
    (Hwf : bitmap_wf b) (Hstart : 0 <= start <= bit_cnt b) (Hcnt : 0 <= cnt) :
  exists r b',
    bitmap_scan_and_flip b start cnt v = Ok (r, b') /\
    scan_result b start cnt v r /\
    (r = BITMAP_ERROR -> b' = b) /\
    (r <> BITMAP_ERROR ->
       bits_set b b' (fun j =>
         if (r <=? j) && (j <? r + cnt) then negb v else bit b j)).
Proof. by apply bitmap_scan_and_flip_spec. Qed.

Lemma bitmap_scan_and_flip_correct_witness :
  exists r b',
    bitmap_scan_and_flip (mkBitmap 40 [2 ^ 32 - 1; 5]) 0 2 false = Ok (r, b') /\
    scan_result (mkBitmap 40 [2 ^ 32 - 1; 5]) 0 2 false r /\
    (r = BITMAP_ERROR -> b' = mkBitmap 40 [2 ^ 32 - 1; 5]) /\
    (r <> BITMAP_ERROR ->
       bits_set (mkBitmap 40 [2 ^ 32 - 1; 5]) b' (fun j =>
         if (r <=? j) && (j <? r + 2) then negb false
         else bit (mkBitmap 40 [2 ^ 32 - 1; 5]) j)).
Proof.
  apply (bitmap_scan_and_flip_correct (mkBitmap 40 [2 ^ 32 - 1; 5]) 0 2 false).
  - split; [cbn; lia|reflexivity|]. repeat constructor; cbn; lia.
  - cbn. lia.
  - lia.
Defined.

(** Counting. *)
Lemma bitmap_count_correct (b : bitmap) (start cnt : Z) (v : bool)
    (Hwf : bitmap_wf b) (Hstart : 0 <= start) (Hcnt : 0 <= cnt)
    (Hrange : start + cnt <= bit_cnt b) :
  bitmap_count b start cnt v =
    Ok (Z.of_nat (length (filter (fun j => bit b j = v) (seqZ start cnt)))).
Proof.
  destruct (wf_cnt b Hwf). unfold bitmap_count.
  rewrite u32_small, !leb_true by lia. cbn [rbind assert].
  rewrite count_loop_spec by (done || lia).
  by rewrite Z2Nat.id, Z.add_0_r, Z.add_0_l by lia.
Qed.

(** * Refinement *)

Module BitmapSpec.

(** The bitmap as a sequence of bits. *)
Definition view (b : bitmap) : list bool := bit b <$> seqZ 0 (bit_cnt b).

Inductive bitmap_op :=
| DoMark (i : Z) | DoReset (i : Z) | DoFlip (i : Z) | DoSet (i : Z) (v : bool)
| DoSetMultiple (start cnt : Z) (v : bool) | DoSetAll (v : bool) | DoScanAndFlip (start cnt : Z) (v : bool)
| DoTest (i : Z) | DoCount (start cnt : Z) (v : bool) | DoContains (start cnt : Z) (v : bool)
| DoAny (start cnt : Z) | DoNone (start cnt : Z) | DoAll (start cnt : Z) | DoScan (start cnt : Z) (v : bool).

Inductive answer := Done | Truth (v : bool) | Number (n : Z).

Definition changed (r : res bitmap) : res (bitmap * answer) := let* b := r in Ok (b, Done).
Definition answered {A} (b : bitmap) (f : A -> answer) (r : res A) : res (bitmap * answer) := let* a := r in Ok (b, f a).

Definition bitmap_exec (b : bitmap) (op : bitmap_op) : res (bitmap * answer) :=
  match op with
  | DoMark i => changed (bitmap_mark b i)
  | DoReset i => changed (bitmap_reset b i)
  | DoFlip i => changed (bitmap_flip b i)
  | DoSet i v => changed (bitmap_set b i v)
  | DoSetMultiple start cnt v => changed (bitmap_set_multiple b start cnt v)
  | DoSetAll v => changed (bitmap_set_all b v)
  | DoScanAndFlip start cnt v => let* (r, b') := bitmap_scan_and_flip b start cnt v in Ok (b', Number r)
  | DoTest i => answered b Truth (bitmap_test b i)
  | DoCount start cnt v => answered b Number (bitmap_count b start cnt v)
  | DoContains start cnt v => answered b Truth (bitmap_contains b start cnt v)
  | DoAny start cnt => answered b Truth (bitmap_any b start cnt)
  | DoNone start cnt => answered b Truth (bitmap_none b start cnt)
  | DoAll start cnt => answered b Truth (bitmap_all b start cnt)
  | DoScan start cnt v => answered b Number (bitmap_scan b start cnt v)
  end.

(** The same on a sequence of bits. *)
Definition segment (l : list bool) (start cnt : Z) : list bool := take (Z.to_nat cnt) (drop (Z.to_nat start) l).
Definition splice (l : list bool) (start cnt : Z) (v : bool) : list bool :=
  take (Z.to_nat start) l ++ replicate (Z.to_nat cnt) v ++ drop (Z.to_nat (start + cnt)) l.

(** The first position from [start] on with [cnt] bits of value [v]. *)
Definition first_run (l : list bool) (start cnt : Z) (v : bool) : option Z :=
  snd <$> list_find (fun k => segment l k cnt = replicate (Z.to_nat cnt) v) (seqZ start (Z.of_nat (length l) - start + 1)).

Definition bits_exec (l : list bool) (op : bitmap_op) : list bool * answer :=
  match op with
  | DoMark i => (<[Z.to_nat i := true]> l, Done)
  | DoReset i => (<[Z.to_nat i := false]> l, Done)
  | DoFlip i => (alter negb (Z.to_nat i) l, Done)
  | DoSet i v => (<[Z.to_nat i := v]> l, Done)
  | DoSetMultiple start cnt v => (splice l start cnt v, Done)
  | DoSetAll v => (replicate (length l) v, Done)
  | DoScanAndFlip start cnt v =>
      match first_run l start cnt v with
      | Some k => (splice l k cnt (negb v), Number k)
      | None => (l, Number BITMAP_ERROR)
      end
  | DoTest i => (l, Truth (default false (l !! Z.to_nat i)))
  | DoCount start cnt v => (l, Number (Z.of_nat (length (filter (fun x => x = v) (segment l start cnt)))))
  | DoContains start cnt v => (l, Truth (existsb (Bool.eqb v) (segment l start cnt)))
  | DoAny start cnt => (l, Truth (existsb id (segment l start cnt)))
  | DoNone start cnt => (l, Truth (forallb negb (segment l start cnt)))
  | DoAll start cnt => (l, Truth (forallb id (segment l start cnt)))
  | DoScan start cnt v => (l, Number (default BITMAP_ERROR (first_run l start cnt v)))
  end.

(** What the assertions ask for, in a bitmap of [n] bits. *)
Definition asserted (n : Z) (op : bitmap_op) : bool :=
  match op with
  | DoSet i _ | DoTest i => i <? n
  | DoSetMultiple start cnt _ | DoCount start cnt _ | DoContains start cnt _ | DoAny start cnt | DoNone start cnt | DoAll start cnt =>
      start + cnt <=? n
  | DoScan start _ _ | DoScanAndFlip start _ _ => start <=? n
  | DoMark _ | DoReset _ | DoFlip _ | DoSetAll _ => true
  end.

(** Arguments: unsigned, their sums below 2^32; [bitmap_mark], [bitmap_reset]
    and [bitmap_flip], which assert nothing, are given bits that exist. *)
Definition bitmap_args (n : Z) (op : bitmap_op) : bool :=
  match op with
  | DoMark i | DoReset i | DoFlip i => (0 <=? i) && (i <? n)
  | DoSet i _ | DoTest i => 0 <=? i
  | DoSetMultiple start cnt _ | DoCount start cnt _ | DoContains start cnt _ | DoAny start cnt | DoNone start cnt | DoAll start cnt
  | DoScan start cnt _ | DoScanAndFlip start cnt _ => (0 <=? start) && (0 <=? cnt) && (start + cnt <? 2 ^ 32)
  | DoSetAll _ => true
  end.

Fixpoint bitmap_exec_all (b : bitmap) (ops : list bitmap_op) : res (bitmap * list answer) :=
  match ops with
  | [] => Ok (b, [])
  | op :: ops => let* (b, a) := bitmap_exec b op in let* (b, l) := bitmap_exec_all b ops in Ok (b, a :: l)
  end.

Fixpoint bits_exec_all (l : list bool) (ops : list bitmap_op) : res (list bool * list answer) :=
  match ops with
  | [] => Ok (l, [])
  | op :: ops =>
      check asserted (Z.of_nat (length l)) op in
      let '(l, a) := bits_exec l op in let* (l, r) := bits_exec_all l ops in Ok (l, a :: r)
  end.

Section refinement.
Implicit Types (b : bitmap) (i start cnt : Z) (v : bool) (op : bitmap_op).

Lemma length_view b : bitmap_wf b -> Z.of_nat (length (view b)) = bit_cnt b.
Proof. intros [Hc _ _]. unfold view. rewrite length_fmap, length_seqZ. lia. Qed.

Lemma view_split b start cnt : 0 <= start -> 0 <= cnt -> start + cnt <= bit_cnt b ->
  view b = (bit b <$> seqZ 0 start) ++ (bit b <$> seqZ start cnt) ++ (bit b <$> seqZ (start + cnt) (bit_cnt b - start - cnt)).
Proof.
  intros Hs Hc Hle. unfold view. rewrite <- !fmap_app. f_equal. replace (bit_cnt b) with (start + (cnt + (bit_cnt b - start - cnt))) at 1 by lia.
  rewrite seqZ_app, (seqZ_app (0 + start)) by lia. by rewrite Z.add_0_l.
Qed.

Lemma segment_view b start cnt : 0 <= start -> 0 <= cnt -> start + cnt <= bit_cnt b -> segment (view b) start cnt = bit b <$> seqZ start cnt.
Proof.
  intros Hs Hc Hle. unfold segment. rewrite (view_split b start cnt) by done. rewrite drop_app_length' by (rewrite length_fmap, length_seqZ; lia).
  apply take_app_length'. rewrite length_fmap, length_seqZ. lia.
Qed.

Lemma view_lookup b i : 0 <= i < bit_cnt b -> view b !! Z.to_nat i = Some (bit b i).
Proof. intros Hi. unfold view. rewrite list_lookup_fmap, lookup_seqZ_lt by lia. cbn. by rewrite Z.add_0_l, Z2Nat.id by lia. Qed.

Lemma view_changed b b' f : bits_set b b' f -> view b' = f <$> seqZ 0 (bit_cnt b).
Proof. intros [_ Hc Hb]. unfold view. rewrite Hc. apply list_fmap_ext. intros k j [-> Hj]%lookup_seqZ. apply Hb. lia. Qed.

Lemma view_one b b' i v : bits_set b b' (fun j => if j =? i then v else bit b j) -> 0 <= i < bit_cnt b -> view b' = <[Z.to_nat i := v]> (view b).
Proof.
  intros Hset Hi. rewrite (view_changed _ _ _ Hset). apply list_eq. intros k. rewrite list_lookup_fmap. destruct (decide (Z.to_nat i = k)) as [<-|Hne].
  - rewrite list_lookup_insert_eq by (unfold view; rewrite length_fmap, length_seqZ; lia). rewrite lookup_seqZ_lt by lia. cbn. by rewrite Z.add_0_l, Z2Nat.id, Z.eqb_refl by lia.
  - rewrite list_lookup_insert_ne by done. unfold view. rewrite list_lookup_fmap. destruct (seqZ 0 (bit_cnt b) !! k) as [j|] eqn:E; [|done].
    apply lookup_seqZ in E as [-> Hk]. cbn. by rewrite eqb_false by lia.
Qed.

Lemma view_range b b' start cnt v : bits_set b b' (fun j => if (start <=? j) && (j <? start + cnt) then v else bit b j) ->
  0 <= start -> 0 <= cnt -> start + cnt <= bit_cnt b -> view b' = splice (view b) start cnt v.
Proof.
  intros [_ Hc Hb] Hs Hn Hle. unfold splice. rewrite (view_split b' start cnt) by lia. rewrite (view_split b start cnt) by done.
  rewrite take_app_length' by (rewrite length_fmap, length_seqZ; lia). rewrite (app_assoc (bit b <$> seqZ 0 start) (bit b <$> seqZ start cnt)), drop_app_length' by (rewrite length_app, !length_fmap, !length_seqZ; lia).
  rewrite Hc. f_equal; [|f_equal].
  - apply list_fmap_ext. intros k j [-> Hj]%lookup_seqZ. rewrite Hb by lia. repeat ztest; cbn; done || lia.
  - apply list_eq_same_length with (n := Z.to_nat cnt); [by rewrite length_replicate|by rewrite length_fmap, length_seqZ|].
    intros k x y Hk Hx Hy. rewrite list_lookup_fmap, lookup_seqZ_lt in Hx by lia. injection Hx as <-. apply lookup_replicate in Hy as [-> _].
    rewrite Hb by lia. repeat ztest; cbn; done || lia.
  - apply list_fmap_ext. intros k j [-> Hj]%lookup_seqZ. rewrite Hb by lia. repeat ztest; cbn; done || lia.
Qed.

Lemma segment_any b start cnt v (f : bool -> bool) : (forall x, f x = true <-> x = v) -> 0 <= start -> 0 <= cnt -> start + cnt <= bit_cnt b ->
  existsb f (segment (view b) start cnt) = true <-> exists j, start <= j < start + cnt /\ bit b j = v.
Proof.
  intros Hf Hs Hc Hle. rewrite segment_view, existsb_exists by done. split.
  - intros (x & Hx%list_elem_of_In & Hv%Hf). apply list_elem_of_fmap in Hx as (j & -> & Hj%elem_of_seqZ). by exists j.
  - intros (j & Hj & Hb). exists (bit b j). split; [|by apply Hf]. apply list_elem_of_In, list_elem_of_fmap. exists j. split; [done|]. by apply elem_of_seqZ.
Qed.

Lemma contains_view b start cnt v : bitmap_wf b -> 0 <= start -> 0 <= cnt -> start + cnt <= bit_cnt b ->
  bitmap_contains b start cnt v = Ok (existsb (Bool.eqb v) (segment (view b) start cnt)).
Proof.
  intros Hwf Hs Hc Hle. destruct (bitmap_contains_spec b start cnt v Hwf Hs Hc Hle) as (c & -> & Hv). f_equal. apply eq_true_iff_eq. rewrite Hv. symmetry.
  apply segment_any; [|done..]. intros x. rewrite Bool.eqb_true_iff. by split.
Qed.

Lemma filter_bits b v (l : list Z) : length (filter (fun x => x = v) (bit b <$> l)) = length (filter (fun j => bit b j = v) l).
Proof. induction l as [|j l IH]; [done|]. rewrite fmap_cons, !filter_cons. case_decide; cbn; by rewrite IH. Qed.

Lemma contains_any l : existsb (Bool.eqb true) l = existsb id l.
Proof. induction l as [|x l IH]; [done|]. cbn. rewrite IH. by destruct x. Qed.

Lemma contains_forallb v l : negb (existsb (Bool.eqb v) l) = forallb (fun x => if v then negb x else x) l.
Proof. induction l as [|x l IH]; [done|]. cbn. rewrite negb_orb, IH. by destruct v, x. Qed.

Lemma run_segment b k cnt v : bitmap_wf b -> 0 <= k -> 0 <= cnt ->
  segment (view b) k cnt = replicate (Z.to_nat cnt) v <-> (k + cnt <= bit_cnt b \/ cnt = 0) /\ run b k cnt v.
Proof.
  intros Hwf Hk Hc. destruct (Z.le_gt_cases (k + cnt) (bit_cnt b)) as [Hle|Hgt].
  - rewrite segment_view by done. split.
    + intros E. split; [by left|]. intros j Hj. assert (Hl : (bit b <$> seqZ k cnt) !! Z.to_nat (j - k) = Some v) by (rewrite E; apply lookup_replicate_2; lia).
      rewrite list_lookup_fmap, lookup_seqZ_lt in Hl by lia. cbn in Hl. injection Hl as <-. f_equal. lia.
    + intros [_ Hr]. apply list_eq_same_length with (n := Z.to_nat cnt); [by rewrite length_replicate|by rewrite length_fmap, length_seqZ|].
      intros m x y Hm Hx Hy. rewrite list_lookup_fmap, lookup_seqZ_lt in Hx by lia. injection Hx as <-. apply lookup_replicate in Hy as [-> _]. apply Hr. lia.
  - split.
    + intros E%(f_equal length). unfold segment in E. rewrite length_take, length_drop, length_replicate in E. pose proof (length_view b Hwf). pose proof (wf_cnt b Hwf).
      assert (cnt = 0) by lia. split; [by right|]. intros j Hj. lia.
    + intros [[?| ->] _]; [lia|done].
Qed.

(** The result of [bitmap_scan]. *)
Lemma scan_view b start cnt v r : bitmap_wf b -> 0 <= start <= bit_cnt b -> 0 <= cnt -> scan_result b start cnt v r ->
  r = default BITMAP_ERROR (first_run (view b) start cnt v) /\
  (first_run (view b) start cnt v = None <-> r = BITMAP_ERROR).
Proof.
  intros Hwf Hs Hc Hr. pose proof (wf_cnt b Hwf) as Hcnt. unfold first_run. rewrite (length_view b Hwf). destruct (list_find _ _) as [[n k]|] eqn:E; cbn.
  - apply list_find_Some in E as (Hn & Hk & Hmin). apply lookup_seqZ in Hn as [-> Hn]. apply run_segment in Hk as [Hle Hrun]; [|done|lia..].
    assert (Hin : start + Z.of_nat n + cnt <= bit_cnt b) by lia. destruct Hr as [[-> Hno]|(Hr1 & Hr2 & Hr3 & Hr4)]; [destruct (Hno (start + Z.of_nat n)); (done || lia)|].
    assert (r = start + Z.of_nat n) as ->; [|split; [done|]; split; [done|unfold BITMAP_ERROR, SIZE_MAX; lia]].
    destruct (Z.lt_trichotomy r (start + Z.of_nat n)) as [Hlt|[?|Hgt]]; [|done|destruct (Hr4 (start + Z.of_nat n)); (done || lia)].
    destruct (Hmin (Z.to_nat (r - start)) r); [apply lookup_seqZ; lia|lia|]. apply run_segment; [done|lia|done|]. split; [by left|done].
  - apply list_find_None in E. rewrite Forall_seqZ in E. destruct Hr as [[-> Hno]|(Hr1 & Hr2 & Hr3 & Hr4)]; [done|]. destruct (E r); [lia|].
    apply run_segment; [done|lia|done|]. split; [by left|done].
Qed.

Definition simulated b op (r : res (bitmap * answer)) : Prop :=
  if asserted (bit_cnt b) op then
    exists b' a, r = Ok (b', a) /\ bitmap_wf b' /\ bit_cnt b' = bit_cnt b /\ bits_exec (view b) op = (view b', a)
  else r = Err Panic.

Lemma simulated_change b op r f : asserted (bit_cnt b) op = true -> (exists b', r = Ok b' /\ bits_set b b' f) ->
  (forall b', bits_set b b' f -> bits_exec (view b) op = (view b', Done)) -> simulated b op (changed r).
Proof. intros Hok (b' & -> & Hset) Hv. unfold simulated. rewrite Hok. exists b', Done. split; [done|]. split; [apply Hset|]. split; [apply Hset|]. by apply Hv. Qed.

Lemma simulated_answer {A} b op (g : A -> answer) r x : bitmap_wf b -> asserted (bit_cnt b) op = true -> r = Ok x -> bits_exec (view b) op = (view b, g x) ->
  simulated b op (answered b g r).
Proof. intros Hwf Hok -> Hv. unfold simulated. rewrite Hok. by exists b, (g x). Qed.

(** The changes. *)
Lemma exec_change b op : bitmap_wf b -> bitmap_args (bit_cnt b) op = true ->
  match op with DoMark _ | DoReset _ | DoFlip _ | DoSet _ _ | DoSetMultiple _ _ _ | DoSetAll _ => simulated b op (bitmap_exec b op) | _ => True end.
Proof.
  intros Hwf Hr. pose proof (wf_cnt b Hwf) as Hcnt. destruct op; try done; cbn in Hr; rewrite ?andb_true_iff, ?Z.leb_le, ?Z.ltb_lt in Hr; cbn [bitmap_exec].
  - eapply simulated_change; [done|by apply bitmap_mark_spec|]. intros b' Hset. cbn. f_equal. by rewrite (view_one b b' i true).
  - eapply simulated_change; [done|by apply bitmap_reset_spec|]. intros b' Hset. cbn. f_equal. by rewrite (view_one b b' i false).
  - eapply simulated_change; [done|by apply bitmap_flip_spec|]. intros b' Hset. cbn. f_equal. rewrite (view_one b b' i (negb (bit b i))).
    + apply list_eq. intros k. destruct (decide (Z.to_nat i = k)) as [<-|Hne].
      * rewrite list_lookup_alter_eq, (view_lookup b i) by done. by rewrite list_lookup_insert_eq by (by eapply lookup_lt_Some, view_lookup).
      * by rewrite list_lookup_alter_ne, list_lookup_insert_ne.
    + eapply bits_set_ext; [exact Hset|]. intros j _. cbn. by destruct (Z.eqb_spec j i) as [->|].
    + done.
  - destruct (Z.ltb_spec i (bit_cnt b)) as [Hlt|Hge]; [|unfold simulated, bitmap_set; cbn; by rewrite ltb_false by lia].
    eapply simulated_change; [cbn; by rewrite ltb_true by lia|by apply bitmap_set_spec|]. intros b' Hset. cbn. f_equal. by rewrite (view_one b b' i v).
  - destruct (Z.leb_spec (start + cnt) (bit_cnt b)) as [Hle|Hgt].
    + eapply simulated_change; [cbn; by rewrite leb_true by lia|apply bitmap_set_multiple_spec; (done || lia)|]. intros b' Hset. cbn. f_equal. rewrite (view_range b b' start cnt v); (done || lia).
    + unfold simulated, bitmap_set_multiple. cbn [asserted]. rewrite (leb_false (start + cnt)), u32_small, (leb_false (start + cnt)) by lia. by destruct (start <=? bit_cnt b).
  - eapply simulated_change; [done|unfold bitmap_set_all, bitmap_size; apply bitmap_set_multiple_spec; (done || lia)|]. intros b' Hset. cbn. f_equal.
    rewrite (view_range b b' 0 (bit_cnt b) v) by (done || lia). pose proof (length_view b Hwf). unfold splice.
    rewrite Z.add_0_l, (drop_ge (view b)), app_nil_r by lia. change (Z.to_nat 0) with 0%nat. rewrite take_0, app_nil_l. f_equal. lia.
Qed.

(** The ranges that are out of range fail an assertion. *)
Lemma range_asserts {A} b start cnt (r : res A) : 0 <= start -> 0 <= cnt -> start + cnt < 2 ^ 32 -> bit_cnt b < start + cnt ->
  (check (start <=? bit_cnt b) in check (u32 (start + cnt) <=? bit_cnt b) in r) = Err Panic.
Proof. intros ????. rewrite u32_small, (leb_false (start + cnt)) by lia. by destruct (start <=? bit_cnt b). Qed.

Lemma exec_range b op start cnt : bitmap_wf b -> 0 <= start -> 0 <= cnt -> start + cnt < 2 ^ 32 ->
  op = DoAny start cnt \/ op = DoNone start cnt \/ op = DoAll start cnt \/ (exists v, op = DoCount start cnt v \/ op = DoContains start cnt v) -> simulated b op (bitmap_exec b op).
Proof.
  intros Hwf Hs Hc Hlt Hop. pose proof (wf_cnt b Hwf) as Hcnt.
  assert (E : asserted (bit_cnt b) op = (start + cnt <=? bit_cnt b)) by (destruct Hop as [->|[->|[->|[v [->| ->]]]]]; done). destruct (Z.leb_spec (start + cnt) (bit_cnt b)) as [Hle|Hgt].
  - destruct Hop as [->|[->|[->|[v [->| ->]]]]]; cbn [bitmap_exec]; unfold bitmap_any, bitmap_none, bitmap_all; rewrite ?contains_view by done.
    + eapply simulated_answer; [done|done|done|]. cbn [bits_exec]. by rewrite contains_any.
    + eapply simulated_answer; [done|done|done|]. cbn [bits_exec]. by rewrite contains_forallb.
    + eapply simulated_answer; [done|done|done|]. cbn [bits_exec]. by rewrite contains_forallb.
    + eapply simulated_answer; [done|done|by apply bitmap_count_correct|]. cbn [bits_exec]. do 3 f_equal. rewrite segment_view by done. by rewrite filter_bits.
    + by eapply simulated_answer.
  - unfold simulated. rewrite E. destruct Hop as [->|[->|[->|[v [->| ->]]]]]; cbn [bitmap_exec]; unfold bitmap_any, bitmap_none, bitmap_all, bitmap_contains, bitmap_count; by rewrite range_asserts by done.
Qed.

Lemma exec_scan b start cnt v : bitmap_wf b -> 0 <= start -> 0 <= cnt ->
  simulated b (DoScan start cnt v) (bitmap_exec b (DoScan start cnt v)) /\ simulated b (DoScanAndFlip start cnt v) (bitmap_exec b (DoScanAndFlip start cnt v)).
Proof.
  intros Hwf Hs Hc. destruct (Z.le_gt_cases start (bit_cnt b)) as [Hle|Hgt].
  2:{ unfold simulated, bitmap_exec, bitmap_scan_and_flip, bitmap_scan. cbn [asserted]. by rewrite (leb_false start) by lia. }
  split.
  - destruct (bitmap_scan_spec b start cnt v Hwf ltac:(lia) Hc) as (r & E & Hr). destruct (scan_view b start cnt v r Hwf ltac:(lia) Hc Hr) as [Er _].
    eapply simulated_answer; [done|cbn; by rewrite leb_true by lia|exact E|]. cbn. by rewrite <- Er.
  - destruct (bitmap_scan_and_flip_spec b start cnt v Hwf ltac:(lia) Hc) as (r & b' & E & Hr & He & Hne). destruct (scan_view b start cnt v r Hwf ltac:(lia) Hc Hr) as [Er Hnone].
    unfold simulated. cbn [asserted bitmap_exec bits_exec]. rewrite leb_true, E by lia. exists b', (Number r). split; [done|].
    destruct (first_run (view b) start cnt v) as [k|]; cbn in Er.
    + assert (Hk : r <> BITMAP_ERROR) by (intros Hx; by apply Hnone in Hx). subst k. specialize (Hne Hk). destruct Hr as [[? _]|(H1 & H2 & _)]; [done|].
      split; [apply Hne|]. split; [apply Hne|]. f_equal. by rewrite (view_range b b' r cnt (negb v)) by (done || lia).
    + rewrite He by done. by rewrite Er.
Qed.

Lemma exec_simulated b op : bitmap_wf b -> bitmap_args (bit_cnt b) op = true -> simulated b op (bitmap_exec b op).
Proof.
  intros Hwf Hr. destruct op; try (by apply (exec_change b _ Hwf Hr)); cbn in Hr; rewrite ?andb_true_iff, ?Z.leb_le, ?Z.ltb_lt in Hr;
    try (apply (exec_scan b start cnt); [done|lia|lia]); try (apply (exec_range b _ start cnt); [done|lia|lia|lia|eauto 6]).
  cbn [bitmap_exec]. destruct (Z.ltb_spec i (bit_cnt b)) as [Hlt|Hge]; [|unfold simulated, bitmap_test; cbn; by rewrite ltb_false by lia].
  eapply simulated_answer; [done|cbn; by rewrite ltb_true by lia|by apply bitmap_test_spec|]. cbn. by rewrite view_lookup.
Qed.
End refinement.


Definition demo_ops : list bitmap_op :=
  [DoFlip 39; DoTest 39; DoScanAndFlip 0 3 false; DoCount 0 40 true; DoReset 2; DoScan 1 2 false; DoAll 3 2; DoNone 6 33; DoSetMultiple 6 4 true; DoAny 6 1].

Definition demo_answers : list answer :=
  [Done; Truth true; Number 3; Number 6; Done; Number 1; Truth true; Truth true; Done; Truth true].

Lemma demo_exec : bitmap_exec_all (mkBitmap 40 [5; 0]) demo_ops = Ok (mkBitmap 40 [1017; 128], demo_answers).
Proof. vm_compute. reflexivity. Qed.

Lemma demo_outside : bitmap_exec_all (mkBitmap 40 [5; 0]) [DoMark 1; DoSet 40 true] = Err Panic.
Proof. vm_compute. reflexivity. Qed.


End BitmapSpec.

Lemma elem_cnt_div (n : Z) : 0 <= n <= 2 ^ 32 - 32 -> elem_cnt n = (n + 31) / 32.
Proof.
  intros. unfold elem_cnt, ELEM_BITS. rewrite u32_small by lia. f_equal. lia.
Qed.

(** A new bitmap has every bit clear, whatever the storage held. *)
Lemma bitmap_create_clear (mem : option unit) (l : list Z) (n : Z)
    (Hn : 0 <= n <= 2 ^ 32 - 32)
    (Hlen : 4 * Z.of_nat (length l) = byte_cnt n)
    (Hl : Forall (fun e => 0 <= e < 2 ^ 32) l) :
  match mem with
  | None => bitmap_create mem (Some l) n = Ok None
  | Some _ => exists b, bitmap_create mem (Some l) n = Ok (Some b) /\
      bitmap_wf b /\ bit_cnt b = n /\ run b 0 n false
  end.
Proof.
  destruct mem as [u|]; [|done]. cbn. unfold bitmap_set_all, bitmap_size. cbn.
  destruct (bitmap_set_multiple_spec (mkBitmap n l) 0 n false)
    as (b & -> & [Hw Hc Hb]); cbn in *; [|lia..|].
  - split; cbn; [done| |done]. unfold byte_cnt in Hlen.
    rewrite elem_cnt_div in Hlen by done.
    pose proof (Z.mul_div_le (n + 31) 32 ltac:(lia)).
    assert (0 <= (n + 31) / 32) by (apply Z.div_pos; lia).
    rewrite u32_small in Hlen by lia. lia.
  - exists b. split; [done|]. split; [done|]. split; [done|]. intros j Hj.
    rewrite Hb by lia. by rewrite leb_true, ltb_true by lia.
Qed.

(** * Counting free bits *)

Definition nfree (b : bitmap) : nat :=
  length (filter (fun j => bit b j = false) (seqZ 0 (bit_cnt b))).

(** [x] was free in [b] and is the only bit that [b'] has more. *)
Record allocated (b : bitmap) (x : Z) (b' : bitmap) : Prop := {
  al_range : 0 <= x < bit_cnt b;
  al_free : bit b x = false;
  al_wf : bitmap_wf b';
  al_cnt : bit_cnt b' = bit_cnt b;
  al_bit : forall j, 0 <= j < bit_cnt b -> bit b' j = (j =? x) || bit b j;
}.

Lemma filter_drop_one (P Q : Z -> bool) (l : list Z) (x : Z) :
  NoDup l -> x ∈ l -> P x = true -> Q x = false ->
  (forall j, j ∈ l -> j <> x -> P j = Q j) ->
  length (filter (fun j => P j = true) l) = S (length (filter (fun j => Q j = true) l)).
Proof.
  intros Hnd Hx HP HQ Heq. induction l as [|y l IH]; [by apply not_elem_of_nil in Hx|].
  apply NoDup_cons in Hnd as [Hy Hnd]. rewrite !filter_cons.
  destruct (decide (y = x)) as [->|Hne].
  - rewrite decide_True, decide_False by congruence. cbn. f_equal.
    assert (Hl : forall j, j ∈ l -> P j = Q j)
      by (intros j Hj; apply Heq; [by right|congruence]).
    clear -Hl. induction l as [|z l IH]; [done|]. rewrite !filter_cons, (Hl z) by left.
    case_decide; cbn; rewrite IH; auto; intros j Hj; apply Hl; by right.
  - apply elem_of_cons in Hx as [?|Hx]; [congruence|].
    rewrite (Heq y) by (done || left).
    case_decide; cbn; rewrite IH; auto; intros j Hj; apply Heq; by right.
Qed.

Lemma nfree_allocated b x b' : allocated b x b' -> nfree b = S (nfree b').
Proof.
  intros [Hr Hf _ Hc Hb]. unfold nfree. rewrite Hc.
  assert (Hfilter : forall c, filter (fun j => bit c j = false) (seqZ 0 (bit_cnt b)) =
                       filter (fun j => negb (bit c j) = true) (seqZ 0 (bit_cnt b))).
  { intros c. apply list_filter_iff. intros j. destruct (bit c j); done. }
  rewrite !Hfilter. apply filter_drop_one with x.
  - apply NoDup_seqZ.
  - apply elem_of_seqZ. lia.
  - by rewrite Hf.
  - rewrite Hb by lia. by rewrite Z.eqb_refl.
  - intros j [Hj0 Hj]%elem_of_seqZ Hne. rewrite Hb by lia.
    by rewrite (proj2 (Z.eqb_neq j x) Hne).
Qed.

Lemma nfree_pos b : (0 < nfree b)%nat -> exists j, 0 <= j < bit_cnt b /\ bit b j = false.
Proof.
  unfold nfree. intros Hn. destruct (filter _ _) as [|j l] eqn:Hf; [cbn in Hn; lia|].
  assert (Hj : j ∈ filter (fun j => bit b j = false) (seqZ 0 (bit_cnt b))) by (rewrite Hf; left).
  apply list_elem_of_filter in Hj as [Hj [? ?]%elem_of_seqZ]. exists j. split; [lia|done].
Qed.

(** One sector at a time: allocation succeeds while a bit is free. *)
Lemma scan_and_flip_one b :
  bitmap_wf b -> (0 < nfree b)%nat ->
  exists x b', bitmap_scan_and_flip b 0 1 false = Ok (x, b') /\ x <> BITMAP_ERROR /\
    allocated b x b'.
Proof.
  intros Hwf Hn. destruct (nfree_pos b Hn) as (j & Hj & Hbj). pose proof (wf_cnt b Hwf) as Hcnt.
  destruct (bitmap_scan_spec b 0 1 false) as (x & Hx & Hres); [done|lia..|].
  destruct Hres as [[-> Hno]|(Hx0 & Hx1 & Hrun & _)].
  { destruct (Hno j); [lia..|]. intros k Hk. replace k with j by lia. done. }
  assert (Hne : x <> BITMAP_ERROR) by (unfold BITMAP_ERROR, SIZE_MAX; lia).
  destruct (bitmap_set_multiple_spec b x 1 true) as (b' & Hset & [Hw Hc Hb]); [done|lia..|].
  exists x, b'. unfold bitmap_scan_and_flip. rewrite Hx. cbn.
  rewrite eqb_false by done. cbn. rewrite Hset. split; [done|]. split; [done|].
  split; try done; [lia|apply Hrun; lia|]. intros k Hk. rewrite Hb by done.
  destruct (Z.eqb_spec k x) as [->|]; [by rewrite leb_true, ltb_true by lia|].
  destruct (Z.leb_spec x k), (Z.ltb_spec k (x + 1)); cbn; try done; lia.
Qed.

Lemma scan_and_flip_full b :
  bitmap_wf b -> nfree b = 0%nat -> bitmap_scan_and_flip b 0 1 false = Ok (BITMAP_ERROR, b).
Proof.
  intros Hwf Hn. pose proof (wf_cnt b Hwf) as Hcnt.
  destruct (bitmap_scan_spec b 0 1 false) as (x & Hx & Hres); [done|lia..|].
  unfold bitmap_scan_and_flip. rewrite Hx. cbn.
  destruct Hres as [[-> Hno]|(Hx0 & Hx1 & Hrun & _)]; [done|].
  assert (Hin : x ∈ filter (fun j => bit b j = false) (seqZ 0 (bit_cnt b))).
  { apply list_elem_of_filter. split; [apply Hrun; lia|apply elem_of_seqZ; lia]. }
  unfold nfree in Hn. apply nil_length_inv in Hn. rewrite Hn in Hin. by apply not_elem_of_nil in Hin.
Qed.
