(* ===== verification/Palloc.v ===== *)
(** The page allocator (src/src/threads/palloc.c) and the addresses of pages
    (src/src/threads/vaddr.h).

    Memory is a byte for each address. A pool is a bitmap of its pages and
    the address of the first. The pool's lock is held around every change,
    so an operation is one step. *)
From S2P Require Import Prelude Bitmap.
From stdpp Require Import options.

#[local] Open Scope Z_scope.

Module Palloc.

(** * vaddr.h *)

Definition PGBITS : Z := 12.
Definition PGSIZE : Z := Z.shiftl 1 PGBITS.
Definition PGMASK : Z := Z.shiftl (Z.shiftl 1 PGBITS - 1) 0.
Definition PHYS_BASE : Z := 3221225472.

Definition pg_ofs (va : Z) : Z := Z.land va PGMASK.
Definition pg_no (va : Z) : Z := Z.shiftr va PGBITS.
Definition pg_round_up (va : Z) : Z := Z.land (u32 (va + PGSIZE - 1)) (u32 (Z.lnot PGMASK)).
Definition pg_round_down (va : Z) : Z := Z.land va (u32 (Z.lnot PGMASK)).
Definition is_user_vaddr (vaddr : Z) : bool := vaddr <? PHYS_BASE.
Definition is_kernel_vaddr (vaddr : Z) : bool := PHYS_BASE <=? vaddr.
Definition ptov (paddr : Z) : res Z := check (paddr <? PHYS_BASE) in Ok (u32 (paddr + PHYS_BASE)).
Definition vtop (vaddr : Z) : res Z := check is_kernel_vaddr vaddr in Ok (vaddr - PHYS_BASE).

(** * palloc.c *)

Definition NULL : Z := 0.

Record pool := mkPool {
  used_map : bitmap;
  base : Z;
}.

Record pages := mkPages {
  kernel_pool : pool;
  user_pool : pool;
  memory : Z -> Z;
}.

Definition PAL_ASSERT : Z := 1.
Definition PAL_ZERO : Z := 2.
Definition PAL_USER : Z := 4.

Abbreviation PS := (ST pages).

Definition set_pool (user : bool) (p : pool) (s : pages) : pages :=
  if user then mkPages (kernel_pool s) p (memory s) else mkPages p (user_pool s) (memory s).
Definition get_pool (user : bool) (s : pages) : pool := if user then user_pool s else kernel_pool s.

Definition memset (p v n : Z) : PS unit :=
  modify (fun s => mkPages (kernel_pool s) (user_pool s)
                     (fun x => if (p <=? x) && (x <? p + n) then v else memory s x)).

(** [storage]: the words at the start of the pool where its bitmap goes. *)
Definition init_pool (storage : list Z) (base page_cnt : Z) : res pool :=
  let bm_pages := (bitmap_buf_size page_cnt + PGSIZE - 1) / PGSIZE in
  check negb (page_cnt <? bm_pages) in
  let page_cnt := page_cnt - bm_pages in
  let* used_map := bitmap_create_in_buf page_cnt storage (bm_pages * PGSIZE) in
  Ok (mkPool used_map (base + bm_pages * PGSIZE)).

(** The sizes of the two pools. *)
Definition pool_sizes (init_ram_pages user_page_limit : Z) : res (Z * Z * Z) :=
  let* free_start := ptov (1024 * 1024) in
  let* free_end := ptov (u32 (init_ram_pages * PGSIZE)) in
  let free_pages := (free_end - free_start) / PGSIZE in
  let user_pages := free_pages / 2 in
  let user_pages := if user_page_limit <? user_pages then user_page_limit else user_pages in
  Ok (free_start, free_pages - user_pages, user_pages).

Definition palloc_init (kstorage ustorage : list Z) (mem : Z -> Z) (init_ram_pages user_page_limit : Z) : res pages :=
  let* (free_start, kernel_pages, user_pages) := pool_sizes init_ram_pages user_page_limit in
  let* k := init_pool kstorage free_start kernel_pages in
  let* u := init_pool ustorage (free_start + kernel_pages * PGSIZE) user_pages in
  Ok (mkPages k u mem).

Definition palloc_get_multiple (flags page_cnt : Z) : PS Z :=
  let user := negb (Z.land flags PAL_USER =? 0) in
  if page_cnt =? 0 then ret NULL
  else
    let! pool := gets (get_pool user) in
    let! (page_idx, map) := lift (bitmap_scan_and_flip (used_map pool) 0 page_cnt false) in
    modify (set_pool user (mkPool map (base pool)));;;
    let pages := if negb (page_idx =? BITMAP_ERROR) then base pool + PGSIZE * page_idx else NULL in
    (if negb (pages =? NULL) then
       if negb (Z.land flags PAL_ZERO =? 0) then memset pages 0 (PGSIZE * page_cnt) else ret tt
     else ASSERT (Z.land flags PAL_ASSERT =? 0));;;
    ret pages.

Definition palloc_get_page (flags : Z) : PS Z := palloc_get_multiple flags 1.

Definition page_from_pool (pool : pool) (page : Z) : bool :=
  let page_no := pg_no page in
  let start_page := pg_no (base pool) in
  let end_page := start_page + bitmap_size (used_map pool) in
  (start_page <=? page_no) && (page_no <? end_page).

Definition palloc_free_multiple (pages page_cnt : Z) : PS unit :=
  ASSERT (pg_ofs pages =? 0);;;
  if (pages =? NULL) || (page_cnt =? 0) then ret tt
  else
    let! k := gets kernel_pool in
    let! u := gets user_pool in
    let! user := (if page_from_pool k pages then ret false
                  else if page_from_pool u pages then ret true
                  else fail Panic) in
    let! pool := gets (get_pool user) in
    let page_idx := pg_no pages - pg_no (base pool) in
    memset pages 204 (PGSIZE * page_cnt);;;
    let! all := lift (bitmap_all (used_map pool) page_idx page_cnt) in
    ASSERT all;;;
    let! map := lift (bitmap_set_multiple (used_map pool) page_idx page_cnt false) in
    modify (set_pool user (mkPool map (base pool))).

Definition palloc_free_page (page : Z) : PS unit := palloc_free_multiple page 1.

(** * Pages *)

Lemma pg_ofs_mod (va : Z) : pg_ofs va = va mod 4096.
Proof. unfold pg_ofs. change PGMASK with (Z.ones 12). by rewrite Z.land_ones. Qed.

Lemma pg_no_div (va : Z) : pg_no va = va / 4096.
Proof. unfold pg_no, PGBITS. by rewrite Z.shiftr_div_pow2. Qed.

(** Clearing the low bits. *)
Lemma land_high (x : Z) : 0 <= x < 2 ^ 32 -> Z.land x (u32 (Z.lnot PGMASK)) = x - x mod 4096.
Proof.
  intros Hx. assert (E : Z.land x (u32 (Z.lnot PGMASK)) = Z.ldiff x (Z.ones 12)).
  { change (u32 (Z.lnot PGMASK)) with (Z.ldiff (Z.ones 32) (Z.ones 12)). apply Z.bits_inj'. intros k Hk.
    rewrite !Z.ldiff_spec, Z.land_spec, Z.ldiff_spec. destruct (Z.lt_ge_cases k 32).
    - rewrite (Z.ones_spec_low 32) by lia. done.
    - by rewrite (small_testbit_high x k). }
  rewrite E. pose proof (Z.ldiff_ones_r x 12 ltac:(lia)) as E2. rewrite E2.
  rewrite Z.shiftl_mul_pow2, Z.shiftr_div_pow2 by lia. change (2 ^ 12) with 4096. pose proof (Z.div_mod x 4096 ltac:(lia)). lia.
Qed.

Lemma pg_round_down_spec (va : Z) : 0 <= va < 2 ^ 32 -> pg_round_down va = va - va mod 4096.
Proof. apply land_high. Qed.

(** * Pools *)

Section pools.
Implicit Types (p : pool) (s : pages) (a i n : Z).

Record pool_ok p : Prop := {
  po_map : bitmap_wf (used_map p);
  po_aligned : base p mod 4096 = 0;
  po_base : 4096 <= base p;
  po_end : base p + 4096 * bit_cnt (used_map p) <= 2 ^ 32;
}.

(** The address [a] is in the pool. *)
Definition in_pool p a : Prop := base p <= a < base p + 4096 * bit_cnt (used_map p).

(** The page at [a] is in the pool and taken. *)
Definition taken p a : Prop := in_pool p a /\ bit (used_map p) ((a - base p) / 4096) = true.

Record pages_ok s : Prop := {
  pk_kernel : pool_ok (kernel_pool s);
  pk_user : pool_ok (user_pool s);
  pk_apart : base (kernel_pool s) + 4096 * bit_cnt (used_map (kernel_pool s)) <= base (user_pool s);
}.

(** The page at [a] has been handed out. *)
Definition used s a : Prop := taken (kernel_pool s) a \/ taken (user_pool s) a.

(** The [n] pages from [q] on. *)
Definition span q n a : Prop := q <= a < q + 4096 * n.

Lemma get_pool_ok user s : pages_ok s -> pool_ok (get_pool user s).
Proof. intros [H1 H2 _]. by destruct user. Qed.

Lemma set_pool_id user s : set_pool user (mkPool (used_map (get_pool user s)) (base (get_pool user s))) s = s.
Proof. destruct s as [[] [] ?]. by destruct user. Qed.

(** The bitmap of one pool changes. *)
Lemma set_pool_ok user s map : pages_ok s -> bitmap_wf map -> bit_cnt map = bit_cnt (used_map (get_pool user s)) ->
  pages_ok (set_pool user (mkPool map (base (get_pool user s))) s).
Proof.
  intros [[A1 A2 A3 A4] [B1 B2 B3 B4] C] Hwf Ec. destruct user; cbn in *; split; cbn; try done; rewrite ?Ec; try done; by split; cbn; rewrite ?Ec.
Qed.

Lemma taken_set p map q n v a : pool_ok p ->
  bits_set (used_map p) map (fun j => if (q <=? j) && (j <? q + n) then v else bit (used_map p) j) ->
  0 <= q -> q + n <= bit_cnt (used_map p) ->
  taken (mkPool map (base p)) a <-> if v then taken p a \/ span (base p + 4096 * q) n a
                                    else taken p a /\ ~ span (base p + 4096 * q) n a.
Proof.
  intros Hp [_ Ec Hb] Hq Hn. unfold taken, in_pool, span. cbn. rewrite Ec.
  destruct (decide (base p <= a < base p + 4096 * bit_cnt (used_map p))) as [Hin|Hout].
  2:{ destruct v; lia. }
  set (j := (a - base p) / 4096). assert (Hj : 0 <= j < bit_cnt (used_map p)).
  { subst j. split; [apply Z.div_pos; lia|]. apply Z.div_lt_upper_bound; lia. }
  rewrite Hb by done. assert (Hs : q <= j < q + n <-> base p + 4096 * q <= a < base p + 4096 * q + 4096 * n).
  { subst j. pose proof (Z.div_mod (a - base p) 4096 ltac:(lia)). pose proof (Z.mod_pos_bound (a - base p) 4096 ltac:(lia)). lia. }
  destruct (Z.leb_spec q j), (Z.ltb_spec j (q + n)); cbn [andb]; destruct v; intuition (try lia; try congruence).
Qed.

Lemma used_set user s map q n v a : pages_ok s ->
  bits_set (used_map (get_pool user s)) map
    (fun j => if (q <=? j) && (j <? q + n) then v else bit (used_map (get_pool user s)) j) ->
  0 <= q -> q + n <= bit_cnt (used_map (get_pool user s)) ->
  used (set_pool user (mkPool map (base (get_pool user s))) s) a <->
  if v then used s a \/ span (base (get_pool user s) + 4096 * q) n a
  else used s a /\ ~ span (base (get_pool user s) + 4096 * q) n a.
Proof.
  intros Hs Hset Hq Hn. pose proof (taken_set _ map q n v a (get_pool_ok user s Hs) Hset Hq Hn) as Ht.
  assert (Hap : forall a, in_pool (kernel_pool s) a -> in_pool (user_pool s) a -> False).
  { destruct Hs as [_ _ C]. unfold in_pool. intros b. lia. }
  assert (Hsp : span (base (get_pool user s) + 4096 * q) n a -> in_pool (get_pool user s) a) by (unfold span, in_pool; lia).
  specialize (Hap a). assert (Hk : taken (kernel_pool s) a -> in_pool (kernel_pool s) a) by (by intros []).
  assert (Hu : taken (user_pool s) a -> in_pool (user_pool s) a) by (by intros []).
  unfold used. destruct user; cbn in *; rewrite Ht; destruct v; tauto.
Qed.

(** The pools are where they were. *)
Definition same_pools s s' : Prop := forall b, base (get_pool b s') = base (get_pool b s) /\
  bit_cnt (used_map (get_pool b s')) = bit_cnt (used_map (get_pool b s)).

Lemma set_pool_same user s map mem : bit_cnt map = bit_cnt (used_map (get_pool user s)) ->
  same_pools s (let s' := set_pool user (mkPool map (base (get_pool user s))) s in
                mkPages (kernel_pool s') (user_pool s') mem).
Proof. intros E b. by destruct user, b. Qed.

(** The memory after [n] bytes from [a] on have been set to [v]. *)
Definition filled (a v n : Z) (mem : Z -> Z) (x : Z) : Z := if (a <=? x) && (x <? a + n) then v else mem x.

Lemma run_free p i n a : pool_ok p -> run (used_map p) i n false -> 0 <= i -> i + n <= bit_cnt (used_map p) ->
  span (base p + 4096 * i) n a -> in_pool p a /\ ~ taken p a.
Proof.
  intros Hp Hr Hi Hn Hs. unfold span in Hs. split; [unfold in_pool; lia|]. intros [_ Ht].
  rewrite Hr in Ht; [done|]. pose proof (Z.div_mod (a - base p) 4096 ltac:(lia)).
  pose proof (Z.mod_pos_bound (a - base p) 4096 ltac:(lia)). lia.
Qed.

Lemma palloc_get_spec s flags n (Q : Z -> pages -> Prop) :
  let user := negb (Z.land flags PAL_USER =? 0) in
  let p := get_pool user s in
  pages_ok s -> 0 < n ->
  (forall i s', let page := base p + 4096 * i in
     0 <= i -> i + n <= bit_cnt (used_map p) -> (forall k, 0 <= k < i -> ~ run (used_map p) k n false) ->
     pages_ok s' -> (forall a, used s' a <-> used s a \/ span page n a) ->
     (forall a, span page n a -> in_pool p a /\ ~ used s a) -> same_pools s s' ->
     memory s' = (if negb (Z.land flags PAL_ZERO =? 0) then filled page 0 (4096 * n) (memory s) else memory s) ->
     Q page s') ->
  ((forall i, 0 <= i -> i + n <= bit_cnt (used_map p) -> ~ run (used_map p) i n false) ->
     Z.land flags PAL_ASSERT = 0 /\ Q NULL s) ->
  wp (palloc_get_multiple flags n) Q s.
Proof.
  intros user p Hs Hn HQ HQ0. pose proof (get_pool_ok user s Hs) as Hp. fold p in Hp. destruct (wf_cnt _ (po_map _ Hp)) as [C0 C1].
  unfold palloc_get_multiple. fold user. rewrite eqb_false by lia. wp_steps. fold p. apply wp_lift.
  destruct (bitmap_scan_and_flip_spec (used_map p) 0 n false) as (r & map & -> & Hres & Herr & Hset); [apply Hp|lia|lia|].
  cbn [wpr]. wp_steps. change PGSIZE with 4096. pose proof (po_base _ Hp) as Hb.
  destruct (Z.eqb_spec r BITMAP_ERROR) as [->|Hne]; cbn [negb].
  - rewrite (Herr eq_refl). subst p. rewrite set_pool_id. destruct Hres as [[_ Hno]|(H1 & H2 & _)].
    2:{ unfold BITMAP_ERROR, SIZE_MAX in *. lia. }
    destruct HQ0 as [Hf HQ0]; [intros i Hi Hin; by apply Hno|]. change (NULL =? NULL) with true. cbn [negb]. wp_steps; [|done].
    by rewrite Hf.
  - specialize (Hset Hne). destruct Hres as [[? _]|(H1 & H2 & Hrun & Hmin)]; [done|].
    rewrite (eqb_false (base p + 4096 * r) NULL) by (unfold NULL; lia). cbn [negb].
    assert (Hok : pages_ok (set_pool user (mkPool map (base p)) s)) by (apply set_pool_ok; [done|apply Hset|apply Hset]).
    assert (Hus : forall a, used (set_pool user (mkPool map (base p)) s) a <-> used s a \/ span (base p + 4096 * r) n a).
    { intros a. apply (used_set user s map r n true a); [done|done|lia|done]. }
    assert (Hfr : forall a, span (base p + 4096 * r) n a -> in_pool p a /\ ~ used s a).
    { intros a Ha. destruct (run_free p r n a Hp Hrun H1 H2 Ha) as [Hin Hnt]. split; [done|].
      pose proof (pk_apart _ Hs). unfold used, taken, in_pool in *. subst p. destruct user; cbn in *; intuition lia. }
    specialize (HQ r). cbn zeta in HQ. destruct (negb (Z.land flags PAL_ZERO =? 0)) eqn:Ez.
    + unfold memset. wp_steps. apply HQ; [lia|done|intros k Hk; by apply Hmin| | |done| |by destruct s as [[] [] ?], user].
      * destruct Hok as [A B C]. by destruct s as [[] [] ?], user.
      * intros a. rewrite <- (Hus a). by destruct s as [[] [] ?], user.
      * apply (set_pool_same user s map). apply Hset.
    + wp_steps. apply HQ; [lia|done|intros k Hk; by apply Hmin|done|done|done| |by destruct s as [[] [] ?], user].
      intros b. destruct (set_pool_same user s map (memory s) ltac:(apply Hset) b). by destruct user, b.
Qed.

Lemma page_index p a : pool_ok p -> in_pool p a -> a mod 4096 = 0 ->
  page_from_pool p a = true /\ pg_no a - pg_no (base p) = (a - base p) / 4096 /\
  base p + 4096 * ((a - base p) / 4096) = a.
Proof.
  intros [_ Hal Hb He] Hin Ha. unfold in_pool in Hin. unfold page_from_pool, bitmap_size. rewrite !pg_no_div.
  pose proof (Z.div_mod a 4096 ltac:(lia)) as E1. pose proof (Z.div_mod (base p) 4096 ltac:(lia)) as E2.
  assert (E3 : (a - base p) / 4096 = a / 4096 - base p / 4096).
  { symmetry. apply Z.div_unique_exact; lia. }
  rewrite E3. split; [|lia]. apply andb_true_iff. rewrite Z.leb_le, Z.ltb_lt. lia.
Qed.

Lemma page_outside p a : pool_ok p -> ~ in_pool p a -> page_from_pool p a = false.
Proof.
  intros [_ Hal Hb He] Hout. unfold in_pool in Hout. unfold page_from_pool, bitmap_size. rewrite !pg_no_div.
  pose proof (Z.div_mod a 4096 ltac:(lia)) as E1. pose proof (Z.div_mod (base p) 4096 ltac:(lia)) as E2.
  pose proof (Z.mod_pos_bound a 4096 ltac:(lia)). apply andb_false_iff. rewrite Z.leb_gt, Z.ltb_ge. lia.
Qed.

Lemma palloc_free_spec user s a n (Q : unit -> pages -> Prop) :
  let p := get_pool user s in
  pages_ok s -> 0 < n -> a mod 4096 = 0 -> base p <= a -> a + 4096 * n <= base p + 4096 * bit_cnt (used_map p) ->
  (forall x, span a n x -> used s x) ->
  (forall s', pages_ok s' -> (forall x, used s' x <-> used s x /\ ~ span a n x) -> same_pools s s' ->
     memory s' = filled a 204 (4096 * n) (memory s) -> Q tt s') ->
  wp (palloc_free_multiple a n) Q s.
Proof.
  intros p Hs Hn Hal Hlo Hhi Hus HQ. pose proof (get_pool_ok user s Hs) as Hp. fold p in Hp.
  assert (Hin : in_pool p a) by (unfold in_pool; lia). destruct (page_index p a Hp Hin Hal) as (Hfrom & Eidx & Ea).
  unfold palloc_free_multiple. wp_steps; [rewrite pg_ofs_mod; by apply eqb_true|].
  pose proof (po_base _ Hp). rewrite !eqb_false by (unfold NULL; lia). cbn [orb]. wp_steps.
  apply (wp_mono _ (fun b s' => b = user /\ s' = s)).
  { destruct user; subst p; cbn in *.
    - rewrite (page_outside (kernel_pool s)), Hfrom; [by wp_steps|apply Hs|]. pose proof (pk_apart _ Hs). unfold in_pool in *. lia.
    - rewrite Hfrom. by wp_steps. }
  intros b s' [-> ->]. wp_steps. fold p. rewrite Eidx. set (i := (a - base p) / 4096) in *. unfold memset. wp_steps.
  apply wp_lift. unfold bitmap_all. assert (Hi : 0 <= i) by (subst i; apply Z.div_pos; lia).
  destruct (bitmap_contains_spec (used_map p) i n false) as (c & -> & Hc); [apply Hp|lia..|].
  assert (c = false) as ->.
  { apply not_true_iff_false. intros Hc'. apply Hc in Hc' as (j & Hj & Hbit).
    specialize (Hus (base p + 4096 * j) ltac:(unfold span; lia)).
    assert (Ht : taken p (base p + 4096 * j)).
    { pose proof (pk_apart _ Hs). unfold used, taken, in_pool in *. subst p. destruct user; cbn in *; intuition lia. }
    destruct Ht as [_ Ht]. replace ((base p + 4096 * j - base p) / 4096) with j in Ht by (apply Z.div_unique_exact; lia). congruence. }
  cbn [rbind wpr negb]. wp_steps; [done|]. apply wp_lift.
  destruct (bitmap_set_multiple_spec (used_map p) i n false) as (map & -> & Hset); [apply Hp|lia..|]. cbn [wpr]. wp_steps.
  assert (Hok : pages_ok (set_pool user (mkPool map (base p)) s)) by (apply set_pool_ok; [done|apply Hset|apply Hset]).
  apply HQ.
  - destruct Hok as [A B C]. by destruct s as [[] [] ?], user.
  - intros x. pose proof (used_set user s map i n false x Hs Hset ltac:(lia) ltac:(subst p; lia)) as Hu. fold p in Hu.
    rewrite Ea in Hu. cbn in Hu. rewrite <- Hu. by destruct s as [[] [] ?], user.
  - intros b. destruct (set_pool_same user s map (memory s) ltac:(apply Hset) b). by destruct user, b.
  - change PGSIZE with 4096. by destruct s as [[] [] ?], user.
Qed.

(** * Start *)

(** The pages that the bitmap of a pool takes. *)
Definition bm_pages (page_cnt : Z) : Z := (bitmap_buf_size page_cnt + PGSIZE - 1) / PGSIZE.

Lemma buf_size_div (c : Z) : 0 <= c <= 2 ^ 32 - 32 -> bitmap_buf_size c = 8 + 4 * ((c + 31) / 32).
Proof.
  intros Hc. unfold bitmap_buf_size, byte_cnt. rewrite elem_cnt_div by done.
  assert (0 <= (c + 31) / 32 <= 2 ^ 27).
  { split; [apply Z.div_pos; lia|]. apply Z.div_le_upper_bound; lia. }
  rewrite (u32_small (4 * _)) by lia. rewrite u32_small; lia.
Qed.

Lemma bm_pages_bound (c : Z) : 0 <= c <= 2 ^ 32 - 32 -> 1 <= bm_pages c /\ bitmap_buf_size c <= bm_pages c * 4096.
Proof.
  intros Hc. unfold bm_pages. change PGSIZE with 4096. rewrite (buf_size_div c Hc).
  assert (0 <= (c + 31) / 32) by (apply Z.div_pos; lia). set (b := 8 + 4 * ((c + 31) / 32)).
  pose proof (Z.div_mod (b + 4096 - 1) 4096 ltac:(lia)). pose proof (Z.mod_pos_bound (b + 4096 - 1) 4096 ltac:(lia)). lia.
Qed.

Lemma init_pool_spec storage b c : 0 <= c <= 2 ^ 20 -> bm_pages c <= c -> b mod 4096 = 0 -> 4096 <= b -> b + 4096 * c <= 2 ^ 32 ->
  Z.of_nat (length storage) = (c - bm_pages c + 31) / 32 -> Forall (fun e => 0 <= e < 2 ^ 32) storage ->
  exists p, init_pool storage b c = Ok p /\ pool_ok p /\ base p = b + 4096 * bm_pages c /\
    bit_cnt (used_map p) = c - bm_pages c /\ run (used_map p) 0 (c - bm_pages c) false.
Proof.
  intros Hc Hbm Hal Hb He Hlen Hst. destruct (bm_pages_bound c ltac:(lia)) as [B1 B2].
  unfold init_pool. fold (bm_pages c). rewrite ltb_false by done. cbn [negb assert rbind].
  unfold bitmap_create_in_buf. change PGSIZE with 4096.
  assert (Hle : bitmap_buf_size (c - bm_pages c) <= bitmap_buf_size c).
  { rewrite !buf_size_div by lia. assert ((c - bm_pages c + 31) / 32 <= (c + 31) / 32) by (apply Z.div_le_mono; lia). lia. }
  rewrite leb_true by lia. cbn [assert rbind]. unfold bitmap_set_all, bitmap_size. cbn [bit_cnt].
  destruct (bitmap_set_multiple_spec (mkBitmap (c - bm_pages c) storage) 0 (c - bm_pages c) false) as (map & -> & [Hwf Ec Hb']);
    cbn in *; [split; cbn; [lia|done|done]|lia..|].
  eexists. split; [done|]. cbn. rewrite Ec. split_and!; [|lia|done|].
  - split; cbn; [done| |lia|lia]. rewrite (Z.mul_comm (bm_pages c)), Z.mul_comm, Z.mod_add by lia. done.
  - intros j Hj. rewrite Hb' by lia. by rewrite leb_true, ltb_true by lia.
Qed.

Lemma clear_unused p a : run (used_map p) 0 (bit_cnt (used_map p)) false -> ~ taken p a.
Proof.
  intros Hr [Hin Ht]. unfold in_pool in Hin. rewrite Hr in Ht; [done|].
  split; [apply Z.div_pos; lia|]. apply Z.div_lt_upper_bound; lia.
Qed.
End pools.

(** At start the page allocator splits the memory above 1 MB into two
    disjoint pools that lie inside it, and no page is in use. *)
Lemma palloc_init_spec (kstorage ustorage : list Z) (mem : Z -> Z) (ram limit free_start kp up : Z)
  (Hram : 260 <= ram < 2 ^ 18) (Hlimit : 0 <= limit)
  (Hsizes : pool_sizes ram limit = Ok (free_start, kp, up))
  (Hkp : bm_pages kp <= kp) (Hup : bm_pages up <= up)
  (Hks : Z.of_nat (length kstorage) = (kp - bm_pages kp + 31) / 32)
  (Hus : Z.of_nat (length ustorage) = (up - bm_pages up + 31) / 32)
  (Hk : Forall (fun e => 0 <= e < 2 ^ 32) kstorage) (Hu : Forall (fun e => 0 <= e < 2 ^ 32) ustorage) :
  exists s, palloc_init kstorage ustorage mem ram limit = Ok s /\ pages_ok s /\
    (forall a, ~ used s a) /\ (forall a, in_pool (kernel_pool s) a \/ in_pool (user_pool s) a ->
       PHYS_BASE + 2 ^ 20 <= a < PHYS_BASE + 4096 * ram) /\
    bit_cnt (used_map (kernel_pool s)) + bit_cnt (used_map (user_pool s)) + bm_pages kp + bm_pages up = ram - 256.
Proof.
  unfold palloc_init. rewrite Hsizes. cbn [rbind]. revert Hsizes. unfold pool_sizes, ptov. change PGSIZE with 4096.
  rewrite (u32_small (ram * 4096)) by lia. rewrite !ltb_true by (unfold PHYS_BASE; lia). cbn [assert rbind].
  rewrite !u32_small by (unfold PHYS_BASE; lia).
  replace (ram * 4096 + PHYS_BASE - (1024 * 1024 + PHYS_BASE)) with ((ram - 256) * 4096) by lia. rewrite Z.div_mul by lia.
  intros [= <- <- Eu]. pose proof (Z.div_mod (ram - 256) 2 ltac:(lia)). pose proof (Z.mod_pos_bound (ram - 256) 2 ltac:(lia)).
  assert (Hup' : 0 <= up <= (ram - 256) / 2) by (destruct (Z.ltb_spec limit ((ram - 256) / 2)); lia). rewrite Eu in *. clear Eu.
  set (kp := ram - 256 - up) in *. pose proof (bm_pages_bound kp ltac:(lia)) as [B1 _]. pose proof (bm_pages_bound up ltac:(lia)) as [B2 _].
  destruct (init_pool_spec kstorage (1024 * 1024 + PHYS_BASE) kp) as (k & -> & Hkok & Ekb & Ekc & Hkr);
    [lia|done|done|unfold PHYS_BASE; lia|unfold PHYS_BASE; lia|done|done|]. cbn [rbind].
  destruct (init_pool_spec ustorage (1024 * 1024 + PHYS_BASE + kp * 4096) up) as (u & -> & Huok & Eub & Euc & Hur);
    [lia|done| |unfold PHYS_BASE; lia|unfold PHYS_BASE; lia|done|done|].
  { rewrite Z.mod_add by lia. done. }
  cbn [rbind]. eexists. split; [done|]. split_and!.
  - split; cbn; [done|done|lia].
  - intros a [Ht|Ht]; cbn in Ht; revert Ht; apply clear_unused; [by rewrite Ekc|by rewrite Euc].
  - unfold in_pool. cbn. intros a. lia.
  - cbn. lia.
Qed.

(** A machine with 300 pages. *)
Definition demo_pages : res pages := palloc_init [0] [0] (fun _ => 0) 300 100.

Lemma demo_pages_ok : exists s, demo_pages = Ok s /\ pages_ok s.
Proof.
  destruct (palloc_init_spec [0] [0] (fun _ => 0) 300 100 (PHYS_BASE + 2 ^ 20) 22 22) as (s & H1 & H2 & _);
    [lia|lia|done|done|done|done|done|by repeat constructor|by repeat constructor|].
  exists s. split; [exact H1|exact H2].
Qed.

(** C38: [palloc_get_multiple] hands out the first run of free pages of the pool
    that the flags name, and marks exactly those pages as used; they were of
    no one before, and they are cleared if PAL_ZERO asks for it. Without such
    a run it returns null and changes nothing, or panics under PAL_ASSERT. *)
Theorem palloc_get_multiple_correct (s : pages) (flags n : Z) (Hs : pages_ok s) (Hn : 0 < n) :
  let p := get_pool (negb (Z.land flags PAL_USER =? 0)) s in
  (exists i s', let page := base p + 4096 * i in
     palloc_get_multiple flags n s = Ok (page, s') /\ page mod 4096 = 0 /\
     0 <= i /\ i + n <= bit_cnt (used_map p) /\ (forall k, 0 <= k < i -> ~ run (used_map p) k n false) /\
     pages_ok s' /\ (forall a, used s' a <-> used s a \/ span page n a) /\ (forall a, span page n a -> ~ used s a) /\
     forall x, memory s' x = if negb (Z.land flags PAL_ZERO =? 0) && (page <=? x) && (x <? page + 4096 * n) then 0 else memory s x) \/
  (forall i, 0 <= i -> i + n <= bit_cnt (used_map p) -> ~ run (used_map p) i n false) /\
    palloc_get_multiple flags n s = if Z.land flags PAL_ASSERT =? 0 then Ok (NULL, s) else Err Panic.
Proof.
  intros p. pose proof (get_pool_ok (negb (Z.land flags PAL_USER =? 0)) s Hs) as Hp. fold p in Hp.
  destruct (wf_cnt _ (po_map _ Hp)) as [C0 C1].
  destruct (bitmap_scan_spec (used_map p) 0 n false) as (r & Hscan & Hres); [apply Hp|lia|lia|].
  destruct Hres as [[-> Hno]|(H1 & H2 & Hrun & Hmin)].
  - right. split; [intros i Hi Hin; by apply Hno|]. unfold palloc_get_multiple. rewrite eqb_false by lia.
    assert (E : bitmap_scan_and_flip (used_map p) 0 n false = Ok (BITMAP_ERROR, used_map p)).
    { unfold bitmap_scan_and_flip. by rewrite Hscan. }
    unfold bind, gets, lift, modify. fold p. rewrite E. subst p. rewrite set_pool_id.
    change (BITMAP_ERROR =? BITMAP_ERROR) with true. cbn [negb]. change (NULL =? NULL) with true. cbn [negb].
    unfold ASSERT, lift, assert, ret. by destruct (Z.land flags PAL_ASSERT =? 0).
  - left. assert (H : wp (palloc_get_multiple flags n) (fun page s' => exists i, page = base p + 4096 * i /\
      0 <= i /\ i + n <= bit_cnt (used_map p) /\ (forall k, 0 <= k < i -> ~ run (used_map p) k n false) /\
      pages_ok s' /\ (forall a, used s' a <-> used s a \/ span page n a) /\ (forall a, span page n a -> ~ used s a) /\
      memory s' = if negb (Z.land flags PAL_ZERO =? 0) then filled page 0 (4096 * n) (memory s) else memory s) s).
    { apply palloc_get_spec; [done|done| |].
      - intros i s' page Hi Hin Hm Hok Hus Hfr _ Hmem. exists i. split_and!; try done. intros a Ha. by apply Hfr.
      - intros Hno. by destruct (Hno r). }
    apply wp_ok in H as (page & s' & H & i & -> & Hi & Hin & Hm & Hok & Hus & Hfr & Hmem). exists i, s'. cbn zeta.
    split_and!; try done.
    + rewrite Z.mul_comm, Z.mod_add by lia. apply Hp.
    + intros x. rewrite Hmem. unfold filled. by destruct (negb (Z.land flags PAL_ZERO =? 0)).
Qed.

Lemma palloc_get_multiple_correct_witness : exists s, demo_pages = Ok s /\
  exists page s', palloc_get_multiple PAL_ZERO 3 s = Ok (page, s').
Proof.
  destruct demo_pages_ok as (s & H1 & H2).
  exists s. split; [exact H1|].
  destruct (palloc_get_multiple_correct s PAL_ZERO 3 H2 ltac:(lia)) as [(i & s' & H & _)|[_ H]].
  - eexists _, s'. exact H.
  - eexists _, _. exact H.
Defined.

End Palloc.
