(* ===== verification/KList.v ===== *)
(** Doubly linked lists (src/src/lib/kernel/list.c, list.h).

    The store maps the address of a list element to its two links; a list
    is given by the addresses of its headers. The code never has a null
    list, so the assertions on that are left out. [less] is the caller's
    comparison: it looks at the objects that the elements are in, not at
    the links. *)
From stdpp Require Export gmap.
From S2P Require Import Prelude.
From stdpp Require Import options.

Module KList.

Definition NULL : nat := 0.

Record list_elem := mkElem { e_prev : nat; e_next : nat }.

Record llist := mkList { l_head : nat; l_tail : nat }.

Abbreviation store := (gmap nat list_elem).
Abbreviation LS := (ST store).

Definition get (e : nat) : LS list_elem := let! m := gets (fun m : store => m !! e) in lift (access m).
Definition prev (e : nat) : LS nat := let! x := get e in ret (e_prev x).
Definition next (e : nat) : LS nat := let! x := get e in ret (e_next x).
Definition set_prev (e v : nat) : LS unit :=
  let! x := get e in modify (fun m : store => <[e := mkElem v (e_next x)]> m).
Definition set_next (e v : nat) : LS unit :=
  let! x := get e in modify (fun m : store => <[e := mkElem (e_prev x) v]> m).

Definition is_head (elem : nat) : LS bool :=
  if (elem =? NULL)%nat then ret false
  else let! p := prev elem in
       if negb (p =? NULL)%nat then ret false
       else let! n := next elem in ret (negb (n =? NULL)%nat).

Definition is_interior (elem : nat) : LS bool :=
  if (elem =? NULL)%nat then ret false
  else let! p := prev elem in
       if (p =? NULL)%nat then ret false
       else let! n := next elem in ret (negb (n =? NULL)%nat).

Definition is_tail (elem : nat) : LS bool :=
  if (elem =? NULL)%nat then ret false
  else let! p := prev elem in
       if (p =? NULL)%nat then ret false
       else let! n := next elem in ret (n =? NULL)%nat.

(** [a || b] of two tests *)
Definition either (a b : LS bool) : LS bool := let! x := a in if x : bool then ret true else b.

Definition list_init (list : llist) : LS unit :=
  set_prev (l_head list) NULL;;;
  set_next (l_head list) (l_tail list);;;
  set_prev (l_tail list) (l_head list);;;
  set_next (l_tail list) NULL.

Definition list_begin (list : llist) : LS nat := next (l_head list).

Definition list_next (elem : nat) : LS nat :=
  let! ok := either (is_head elem) (is_interior elem) in
  ASSERT ok;;; next elem.

Definition list_end (list : llist) : nat := l_tail list.

Definition list_rbegin (list : llist) : LS nat := prev (l_tail list).

Definition list_prev (elem : nat) : LS nat :=
  let! ok := either (is_interior elem) (is_tail elem) in
  ASSERT ok;;; prev elem.

Definition list_rend (list : llist) : nat := l_head list.
Definition list_head (list : llist) : nat := l_head list.
Definition list_tail (list : llist) : nat := l_tail list.

Definition list_insert (before elem : nat) : LS unit :=
  let! ok := either (is_interior before) (is_tail before) in
  ASSERT ok;;;
  ASSERT (negb (elem =? NULL)%nat);;;
  let! p := prev before in set_prev elem p;;;
  set_next elem before;;;
  let! p := prev before in set_next p elem;;;
  set_prev before elem.

Definition list_splice (before first last : nat) : LS unit :=
  let! ok := either (is_interior before) (is_tail before) in
  ASSERT ok;;;
  if (first =? last)%nat then ret tt
  else
    let! last := list_prev last in
    let! ok := is_interior first in
    ASSERT ok;;;
    let! ok := is_interior last in
    ASSERT ok;;;
    let! p := prev first in let! n := next last in set_next p n;;;
    let! n := next last in let! p := prev first in set_prev n p;;;
    let! p := prev before in set_prev first p;;;
    set_next last before;;;
    let! p := prev before in set_next p first;;;
    set_prev before last.

Definition list_push_front (list : llist) (elem : nat) : LS unit :=
  let! b := list_begin list in list_insert b elem.

Definition list_push_back (list : llist) (elem : nat) : LS unit :=
  list_insert (list_end list) elem.

Definition list_remove (elem : nat) : LS nat :=
  let! ok := is_interior elem in
  ASSERT ok;;;
  let! p := prev elem in let! n := next elem in set_next p n;;;
  let! n := next elem in let! p := prev elem in set_prev n p;;;
  next elem.

Definition list_empty (list : llist) : LS bool :=
  let! b := list_begin list in ret (b =? list_end list)%nat.

Definition list_front (list : llist) : LS nat :=
  let! e := list_empty list in
  ASSERT (negb e);;; next (l_head list).

Definition list_back (list : llist) : LS nat :=
  let! e := list_empty list in
  ASSERT (negb e);;; prev (l_tail list).

Definition list_pop_front (list : llist) : LS nat :=
  let! front := list_front list in
  list_remove front;;; ret front.

Definition list_pop_back (list : llist) : LS nat :=
  let! back := list_back list in
  list_remove back;;; ret back.

Definition list_size (list : llist) : LS Z :=
  let! e := list_begin list in
  loop (fun '(e, cnt) =>
    if (e =? list_end list)%nat then ret (inr cnt)
    else let! e := list_next e in ret (inl (e, u32 (cnt + 1)))) (e, 0).

(** [swap (&e->prev, &e->next)] *)
Definition swap_links (e : nat) : LS unit :=
  let! p := prev e in let! n := next e in
  set_prev e n;;; set_next e p.

Definition list_reverse (list : llist) : LS unit :=
  let! empty := list_empty list in
  if empty : bool then ret tt
  else
    let! e := list_begin list in
    loop (fun e =>
      if (e =? list_end list)%nat then ret (inr tt)
      else swap_links e;;; let! e := prev e in ret (inl e)) e;;;
    (let! n := next (l_head list) in let! p := prev (l_tail list) in
     set_next (l_head list) p;;; set_prev (l_tail list) n);;;
    (let! a := next (l_head list) in let! b := prev (l_tail list) in
     let! p := prev a in let! n := next b in
     set_prev a n;;; set_next b p).

Section ordered.
Context (less : nat -> nat -> bool).

Definition is_sorted (a b : nat) : LS bool :=
  if (a =? b)%nat then ret true
  else
    loop (fun a =>
      let! a := list_next a in
      if (a =? b)%nat then ret (inr true)
      else let! p := list_prev a in
           if less a p then ret (inr false) else ret (inl a)) a.

Definition find_end_of_run (a b : nat) : LS nat :=
  ASSERT (negb (a =? NULL)%nat);;; ASSERT (negb (b =? NULL)%nat);;; ASSERT (negb (a =? b)%nat);;;
  loop (fun a =>
    let! a := list_next a in
    if (a =? b)%nat then ret (inr a)
    else let! p := list_prev a in
         if negb (less a p) then ret (inl a) else ret (inr a)) a.

Definition inplace_merge (a0 a1b0 b1 : nat) : LS unit :=
  ASSERT (negb (a0 =? NULL)%nat);;; ASSERT (negb (a1b0 =? NULL)%nat);;; ASSERT (negb (b1 =? NULL)%nat);;;
  let! ok := is_sorted a0 a1b0 in ASSERT ok;;;
  let! ok := is_sorted a1b0 b1 in ASSERT ok;;;
  loop (fun '(a0, a1b0) =>
    if negb (a0 =? a1b0)%nat && negb (a1b0 =? b1)%nat then
      if negb (less a1b0 a0) then let! a0 := list_next a0 in ret (inl (a0, a1b0))
      else
        let! a1b0 := list_next a1b0 in
        let! p := list_prev a1b0 in
        list_splice a0 p a1b0;;;
        ret (inl (a0, a1b0))
    else ret (inr tt)) (a0, a1b0).

(** One pass: the number of runs it left. *)
Definition merge_pass (list : llist) : LS Z :=
  let! a0 := list_begin list in
  loop (fun '(a0, output_run_cnt) =>
    if (a0 =? list_end list)%nat then ret (inr output_run_cnt)
    else
      let output_run_cnt := u32 (output_run_cnt + 1) in
      let! a1b0 := find_end_of_run a0 (list_end list) in
      if (a1b0 =? list_end list)%nat then ret (inr output_run_cnt)
      else
        let! b1 := find_end_of_run a1b0 (list_end list) in
        inplace_merge a0 a1b0 b1;;;
        ret (inl (b1, output_run_cnt))) (a0, 0).

Definition list_sort (list : llist) : LS unit :=
  loop (fun _ =>
    let! output_run_cnt := merge_pass list in
    if 1 <? output_run_cnt then ret (inl tt) else ret (inr tt)) tt;;;
  let! b := list_begin list in
  let! ok := is_sorted b (list_end list) in
  ASSERT ok.

Definition list_insert_ordered (list : llist) (elem : nat) : LS unit :=
  ASSERT (negb (elem =? NULL)%nat);;;
  let! e := list_begin list in
  let! e := loop (fun e =>
    if (e =? list_end list)%nat then ret (inr e)
    else if less elem e then ret (inr e)
    else let! e := list_next e in ret (inl e)) e in
  list_insert e elem.

Definition list_unique (list : llist) (duplicates : option llist) : LS unit :=
  let! empty := list_empty list in
  if empty : bool then ret tt
  else
    let! elem := list_begin list in
    loop (fun elem =>
      let! nxt := list_next elem in
      if (nxt =? list_end list)%nat then ret (inr tt)
      else if negb (less elem nxt) && negb (less nxt elem) then
        list_remove nxt;;;
        match duplicates with
        | Some d => list_push_back d nxt
        | None => ret tt
        end;;;
        ret (inl elem)
      else ret (inl nxt)) elem.

Definition list_max (list : llist) : LS nat :=
  let! max := list_begin list in
  if negb (max =? list_end list)%nat then
    let! e := list_next max in
    loop (fun '(e, max) =>
      if (e =? list_end list)%nat then ret (inr max)
      else let max' := if less max e then e else max in
           let! e := list_next e in ret (inl (e, max'))) (e, max)
  else ret max.

Definition list_min (list : llist) : LS nat :=
  let! min := list_begin list in
  if negb (min =? list_end list)%nat then
    let! e := list_next min in
    loop (fun '(e, min) =>
      if (e =? list_end list)%nat then ret (inr min)
      else let min' := if less e min then e else min in
           let! e := list_next e in ret (inl (e, min'))) (e, min)
  else ret min.

End ordered.

End KList.
