(* ===== verification/KListSpec.v ===== *)
(** The lists of [KList] as sequences: what each operation does to the
    sequence of elements, and that it leaves the rest of the store alone. *)
From S2P Require Import Prelude KList.
From Stdlib Require Import Sorting.Sorted.
From stdpp Require Import sorting.
From stdpp Require Import options.

Module KListSpec.
Import KList.

Definition nxt (m : store) (e : nat) : option nat := e_next <$> m !! e.
Definition prv (m : store) (e : nat) : option nat := e_prev <$> m !! e.

(** Two neighbours. *)
Definition link (m : store) (a b : nat) : Prop := nxt m a = Some b /\ prv m b = Some a.

Fixpoint linked (m : store) (xs : list nat) : Prop :=
  match xs with
  | a :: (b :: _) as ys => link m a b /\ linked m ys
  | _ => True
  end.

(** A list, headers included: the elements are linked both ways, the ends
    are marked, and no element occurs twice. *)
Record chain (m : store) (xs : list nat) : Prop := {
  ch_linked : linked m xs;
  ch_head : forall a, head xs = Some a -> prv m a = Some NULL;
  ch_tail : forall a, last xs = Some a -> nxt m a = Some NULL;
  ch_nodup : NoDup xs;
  ch_null : NULL ∉ xs;
}.

Definition full (L : llist) (l : list nat) : list nat := l_head L :: l ++ [l_tail L].

(** [L] holds the elements [l]. *)
Definition rep (m : store) (L : llist) (l : list nat) : Prop := chain m (full L l).

(** * Links *)

Section links.
Implicit Types (m : store) (a b e v : nat) (xs ys : list nat).

Lemma linked_app m xs a ys : linked m (xs ++ a :: ys) <-> linked m (xs ++ [a]) /\ linked m (a :: ys).
Proof.
  induction xs as [|x xs IH]; cbn [app]; [cbn; tauto|].
  destruct xs as [|y xs]; cbn [app linked] in *; [tauto|]. rewrite IH. tauto.
Qed.

Lemma linked_mid m xs a b ys :
  linked m (xs ++ a :: b :: ys) <-> linked m (xs ++ [a]) /\ link m a b /\ linked m (b :: ys).
Proof. rewrite linked_app. cbn [linked]. tauto. Qed.

Lemma linked_append m xs ys :
  linked m (xs ++ ys) <-> linked m xs /\ linked m ys /\
    forall a b, last xs = Some a -> head ys = Some b -> link m a b.
Proof.
  destruct xs as [|a xs _] using rev_ind; [naive_solver|]. rewrite <- app_assoc.
  destruct ys as [|b ys]; cbn [app]; [naive_solver|]. rewrite linked_mid, last_snoc. cbn [head]. naive_solver.
Qed.

(** Only the inner links count. *)
Lemma linked_frame m m' xs :
  (forall a b ys zs, xs = ys ++ a :: b :: zs -> nxt m' a = nxt m a /\ prv m' b = prv m b) ->
  linked m xs -> linked m' xs.
Proof.
  induction xs as [|x [|y xs] IH]; intros Hf; cbn [linked]; [done..|]. intros [[H1 H2] Hl].
  destruct (Hf x y [] xs eq_refl) as [E1 E2]. split; [split; congruence|].
  apply IH; [|done]. intros a b ys zs E. apply (Hf a b (x :: ys) zs). by rewrite E.
Qed.

Lemma lookup_links m a b v : nxt m v = Some b -> prv m v = Some a -> m !! v = Some (mkElem a b).
Proof. unfold nxt, prv. destruct (m !! v) as [[]|]; cbn; congruence. Qed.

Lemma nxt_insert m e x a : nxt (<[e := x]> m) a = if decide (a = e) then Some (e_next x) else nxt m a.
Proof. unfold nxt. case_decide as E; [subst; by rewrite lookup_insert_eq|by rewrite lookup_insert_ne]. Qed.

Lemma prv_insert m e x a : prv (<[e := x]> m) a = if decide (a = e) then Some (e_prev x) else prv m a.
Proof. unfold prv. case_decide as E; [subst; by rewrite lookup_insert_eq|by rewrite lookup_insert_ne]. Qed.

Lemma nxt_dom m a b : nxt m a = Some b -> is_Some (m !! a).
Proof. unfold nxt. destruct (m !! a); [by eexists|done]. Qed.

Lemma prv_dom m a b : prv m a = Some b -> is_Some (m !! a).
Proof. unfold prv. destruct (m !! a); [by eexists|done]. Qed.

(** * Reading and writing links *)

Lemma wp_prev m e v (Q : nat -> store -> Prop) : prv m e = Some v -> Q v m -> wp (prev e) Q m.
Proof.
  intros Hp HQ. unfold prev, get. wp_steps. apply wp_lift. unfold prv in Hp.
  destruct (m !! e); cbn in *; simplify_eq. by wp_steps.
Qed.

Lemma wp_next m e v (Q : nat -> store -> Prop) : nxt m e = Some v -> Q v m -> wp (next e) Q m.
Proof.
  intros Hp HQ. unfold next, get. wp_steps. apply wp_lift. unfold nxt in Hp.
  destruct (m !! e); cbn in *; simplify_eq. by wp_steps.
Qed.

(** The store after a write. *)
Definition upd_prev m e v : store := alter (fun x => mkElem v (e_next x)) e m.
Definition upd_next m e v : store := alter (fun x => mkElem (e_prev x) v) e m.

Lemma insert_as_alter m e x f : m !! e = Some x -> <[e := f x]> m = alter f e m.
Proof.
  intros Hx. apply map_eq. intros a. destruct (decide (a = e)) as [->|Hne].
  - by rewrite lookup_insert_eq, lookup_alter_eq, Hx.
  - by rewrite lookup_insert_ne, lookup_alter_ne.
Qed.

Lemma wp_set_prev m e v (Q : unit -> store -> Prop) :
  is_Some (m !! e) -> Q tt (upd_prev m e v) -> wp (set_prev e v) Q m.
Proof.
  intros [x Hx] HQ. unfold set_prev, get. wp_steps. apply wp_lift. rewrite Hx. cbn. wp_steps.
  revert HQ. unfold upd_prev. by rewrite <- (insert_as_alter m e x _ Hx).
Qed.

Lemma wp_set_next m e v (Q : unit -> store -> Prop) :
  is_Some (m !! e) -> Q tt (upd_next m e v) -> wp (set_next e v) Q m.
Proof.
  intros [x Hx] HQ. unfold set_next, get. wp_steps. apply wp_lift. rewrite Hx. cbn. wp_steps.
  revert HQ. unfold upd_next. by rewrite <- (insert_as_alter m e x _ Hx).
Qed.

Lemma nxt_upd_prev m e v a : nxt (upd_prev m e v) a = nxt m a.
Proof.
  unfold nxt, upd_prev. destruct (decide (a = e)) as [->|].
  - rewrite lookup_alter_eq. by destruct (m !! e).
  - by rewrite lookup_alter_ne.
Qed.

Lemma prv_upd_next m e v a : prv (upd_next m e v) a = prv m a.
Proof.
  unfold prv, upd_next. destruct (decide (a = e)) as [->|].
  - rewrite lookup_alter_eq. by destruct (m !! e).
  - by rewrite lookup_alter_ne.
Qed.

Lemma prv_upd_eq m e v : is_Some (m !! e) -> prv (upd_prev m e v) e = Some v.
Proof. intros [x Hx]. unfold prv, upd_prev. by rewrite lookup_alter_eq, Hx. Qed.

Lemma nxt_upd_eq m e v : is_Some (m !! e) -> nxt (upd_next m e v) e = Some v.
Proof. intros [x Hx]. unfold nxt, upd_next. by rewrite lookup_alter_eq, Hx. Qed.

Lemma prv_upd_ne m e v a : a <> e -> prv (upd_prev m e v) a = prv m a.
Proof. intros Hne. unfold prv, upd_prev. by rewrite lookup_alter_ne. Qed.

Lemma nxt_upd_ne m e v a : a <> e -> nxt (upd_next m e v) a = nxt m a.
Proof. intros Hne. unfold nxt, upd_next. by rewrite lookup_alter_ne. Qed.

Lemma dom_upd_prev m e v a : is_Some (upd_prev m e v !! a) <-> is_Some (m !! a).
Proof. apply lookup_alter_is_Some. Qed.

Lemma dom_upd_next m e v a : is_Some (upd_next m e v !! a) <-> is_Some (m !! a).
Proof. apply lookup_alter_is_Some. Qed.

(** [m'] differs from [m] at the elements [ds] only. *)
Record touched (m m' : store) (ds : list nat) : Prop := {
  to_same : forall x, x ∉ ds -> m' !! x = m !! x;
  to_dom : forall x, is_Some (m' !! x) <-> is_Some (m !! x);
}.

Lemma touched_refl m ds : touched m m ds.
Proof. by split. Qed.

Lemma touched_trans m1 m2 m3 ds : touched m1 m2 ds -> touched m2 m3 ds -> touched m1 m3 ds.
Proof.
  intros [S1 D1] [S2 D2]. split.
  - intros x Hx. by rewrite S2, S1.
  - intros x. by rewrite D2, D1.
Qed.

Lemma touched_mono m m' ds ds' : touched m m' ds -> ds ⊆ ds' -> touched m m' ds'.
Proof. intros [S1 D1] Hs. split; [|done]. intros x Hx. apply S1. set_solver. Qed.

Lemma touched_prev m m' e v ds : touched m m' ds -> e ∈ ds -> touched m (upd_prev m' e v) ds.
Proof.
  intros [Hs Hd] He. split.
  - intros x Hx. rewrite <- Hs by done. apply lookup_alter_ne. set_solver.
  - intros x. by rewrite dom_upd_prev.
Qed.

Lemma touched_next m m' e v ds : touched m m' ds -> e ∈ ds -> touched m (upd_next m' e v) ds.
Proof.
  intros [Hs Hd] He. split.
  - intros x Hx. rewrite <- Hs by done. apply lookup_alter_ne. set_solver.
  - intros x. by rewrite dom_upd_next.
Qed.

(** A part of a list is not affected when only its ends are written, on
    the outside. *)
Lemma linked_keep m m' xs (N P : list nat) :
  NoDup xs -> (forall a, a ∈ N -> a ∈ xs -> last xs = Some a) ->
  (forall a, a ∈ P -> a ∈ xs -> head xs = Some a) ->
  (forall a, a ∉ N -> nxt m' a = nxt m a) -> (forall a, a ∉ P -> prv m' a = prv m a) ->
  linked m xs -> linked m' xs.
Proof.
  intros Hnd HN HP Hn Hp. apply linked_frame. intros a b ys zs ->. split.
  - apply Hn. intros Ha. specialize (HN a Ha ltac:(set_solver)).
    change (ys ++ a :: b :: zs) with (ys ++ [a] ++ (b :: zs)) in *. rewrite app_assoc, last_app_cons in HN.
    apply last_Some_elem_of in HN. rewrite app_assoc in Hnd. apply NoDup_app in Hnd as (_ & Hd & _).
    apply (Hd a); [set_solver|done].
  - apply Hp. intros Hb. specialize (HP b Hb ltac:(set_solver)).
    change (ys ++ a :: b :: zs) with (ys ++ [a] ++ (b :: zs)) in *. rewrite app_assoc in Hnd.
    apply NoDup_app in Hnd as (_ & Hd & _). apply (Hd b); [|set_solver].
    destruct ys; cbn in HP; set_solver.
Qed.
End links.

(** * Chains *)

Section chains.
Implicit Types (m : store) (a b e p : nat) (A B xs : list nat).

Lemma chain_touched m m' xs ds : chain m xs -> touched m m' ds -> (forall x, x ∈ ds -> x ∉ xs) -> chain m' xs.
Proof.
  intros [Hl Hh Ht Hnd H0] [Hs _] Hd.
  assert (Hsame : forall x, x ∈ xs -> m' !! x = m !! x) by (intros x Hx; apply Hs; intros Hx'; by apply (Hd x)).
  split; try done.
  - apply (linked_frame m); [|done]. intros a b ys zs ->. unfold nxt, prv.
    rewrite !Hsame by set_solver. done.
  - intros a Ha. unfold prv. rewrite Hsame; [by apply Hh|by apply head_Some_elem_of].
  - intros a Ha. unfold nxt. rewrite Hsame; [by apply Ht|by apply last_Some_elem_of].
Qed.

Lemma chain_link m A a b B : chain m (A ++ a :: b :: B) -> link m a b.
Proof. intros [Hl _ _ _ _]. by apply linked_mid in Hl as (_ & Hl & _). Qed.

Lemma chain_nonnull m A a B : chain m (A ++ a :: B) -> a <> NULL.
Proof. intros Hc E. apply (ch_null _ _ Hc). set_solver. Qed.

(** The successor of an element, null for the last. *)
Lemma chain_next m A a B : chain m (A ++ a :: B) -> nxt m a = Some (default NULL (head B)).
Proof.
  intros Hc. destruct B as [|b B]; [|by apply (chain_link m A a b B)].
  apply (ch_tail _ _ Hc). apply last_snoc.
Qed.

Lemma chain_prev m A a B : chain m (A ++ a :: B) -> prv m a = Some (default NULL (last A)).
Proof.
  intros Hc. destruct A as [|x A _] using rev_ind; [by apply (ch_head _ _ Hc)|].
  rewrite <- app_assoc in Hc. rewrite last_snoc. by apply (chain_link m A x a B).
Qed.

Lemma chain_dom m A a B : chain m (A ++ a :: B) -> is_Some (m !! a).
Proof. intros Hc%chain_next. by eapply nxt_dom. Qed.

(** * Tests and steps *)

Lemma wp_before m A p b B (Q : bool -> store -> Prop) :
  chain m (A ++ p :: b :: B) -> Q true m -> wp (either (is_interior b) (is_tail b)) Q m.
Proof.
  intros Hc HQ. destruct (chain_link _ _ _ _ _ Hc) as [_ Hp].
  change (A ++ p :: b :: B) with (A ++ [p] ++ b :: B) in Hc. rewrite app_assoc in Hc.
  pose proof (chain_next _ _ _ _ Hc) as Hn. pose proof (chain_nonnull _ _ _ _ Hc) as Hb.
  rewrite <- app_assoc in Hc. pose proof (chain_nonnull _ _ _ _ Hc) as Hp0.
  unfold either, is_interior, is_tail. rewrite (proj2 (Nat.eqb_neq b NULL)) by done.
  apply wp_bind, wp_bind. eapply wp_prev; [done|]. rewrite (proj2 (Nat.eqb_neq p NULL)) by done.
  apply wp_bind. eapply wp_next; [done|]. wp_steps. destruct (default NULL (head B) =? NULL)%nat eqn:E; cbn [negb].
  - apply wp_bind. eapply wp_prev; [done|]. rewrite (proj2 (Nat.eqb_neq p NULL)) by done.
    apply wp_bind. eapply wp_next; [done|]. wp_steps. by rewrite E.
  - by wp_steps.
Qed.

Lemma wp_interior_links m p b n (Q : bool -> store -> Prop) :
  prv m b = Some p -> nxt m b = Some n -> b <> NULL -> p <> NULL -> n <> NULL ->
  Q true m -> wp (is_interior b) Q m.
Proof.
  intros Hp Hn Hb0 Hp0 Hn0 HQ. unfold is_interior. rewrite (proj2 (Nat.eqb_neq b NULL)) by done.
  apply wp_bind. eapply wp_prev; [done|]. rewrite (proj2 (Nat.eqb_neq p NULL)) by done.
  apply wp_bind. eapply wp_next; [done|]. wp_steps. by rewrite (proj2 (Nat.eqb_neq n NULL)) by done.
Qed.

Lemma wp_interior m A p b n B (Q : bool -> store -> Prop) :
  chain m (A ++ p :: b :: n :: B) -> Q true m -> wp (is_interior b) Q m.
Proof.
  intros Hc HQ. destruct (chain_link _ _ _ _ _ Hc) as [_ Hp]. pose proof (chain_nonnull _ _ _ _ Hc) as Hp0.
  change (A ++ p :: b :: n :: B) with (A ++ [p] ++ b :: n :: B) in Hc. rewrite app_assoc in Hc.
  pose proof (chain_next _ _ _ _ Hc) as Hn. pose proof (chain_nonnull _ _ _ _ Hc) as Hb. cbn in Hn.
  change (b :: n :: B) with ([b] ++ n :: B) in Hc. rewrite app_assoc in Hc.
  eapply wp_interior_links; try done. by eapply chain_nonnull.
Qed.

Lemma wp_list_prev m A p b B (Q : nat -> store -> Prop) :
  chain m (A ++ p :: b :: B) -> Q p m -> wp (list_prev b) Q m.
Proof.
  intros Hc HQ. unfold list_prev. apply wp_bind. eapply wp_before; [done|]. wp_steps; [done|].
  eapply wp_prev; [|done]. by apply (chain_link _ _ _ _ _ Hc).
Qed.

Lemma wp_list_next m A a b B (Q : nat -> store -> Prop) :
  chain m (A ++ a :: b :: B) -> Q b m -> wp (list_next a) Q m.
Proof.
  intros Hc HQ. destruct (chain_link _ _ _ _ _ Hc) as [Hn _]. pose proof (chain_nonnull _ _ _ _ Hc) as Ha.
  pose proof (chain_prev _ _ _ _ Hc) as Hp.
  assert (Hb : b <> NULL).
  { change (a :: b :: B) with ([a] ++ b :: B) in Hc. rewrite app_assoc in Hc. by eapply chain_nonnull. }
  unfold list_next, either, is_head, is_interior. rewrite (proj2 (Nat.eqb_neq a NULL)) by done.
  do 3 apply wp_bind. eapply wp_prev; [done|]. destruct (default NULL (last A) =? NULL)%nat eqn:E; cbn [negb].
  - apply wp_bind. eapply wp_next; [done|]. wp_steps. rewrite (proj2 (Nat.eqb_neq b NULL)) by done. cbn [negb].
    wp_steps; [done|]. by eapply wp_next.
  - wp_steps. eapply wp_prev; [done|]. rewrite E. apply wp_bind. eapply wp_next; [done|]. wp_steps.
    + by rewrite (proj2 (Nat.eqb_neq b NULL)) by done.
    + by eapply wp_next.
Qed.

(** The ends of a list that is changed inside. *)
Lemma chain_change m m' xs ys (N P : list nat) :
  chain m xs -> linked m' ys -> NoDup ys -> NULL ∉ ys -> head ys = head xs -> last ys = last xs ->
  (forall a, a ∉ N -> nxt m' a = nxt m a) -> (forall a, a ∉ P -> prv m' a = prv m a) ->
  (forall a, last xs = Some a -> a ∉ N) -> (forall a, head xs = Some a -> a ∉ P) -> chain m' ys.
Proof.
  intros [_ Hh Ht _ _] Hl Hnd H0 Eh El Hn Hp HN HP. split; try done.
  - intros a Ha. rewrite Eh in Ha. rewrite Hp by by apply HP. by apply Hh.
  - intros a Ha. rewrite El in Ha. rewrite Hn by by apply HN. by apply Ht.
Qed.

(** * Insertion and removal *)

Lemma wp_list_insert m A p b B e (Q : unit -> store -> Prop) :
  chain m (A ++ p :: b :: B) -> e ∉ A ++ p :: b :: B -> e <> NULL -> is_Some (m !! e) ->
  (forall m', chain m' (A ++ p :: e :: b :: B) -> touched m m' [p; e; b] -> Q tt m') ->
  wp (list_insert b e) Q m.
Proof.
  intros Hc He He0 Hde HQ. pose proof (chain_link _ _ _ _ _ Hc) as [Hnp Hpb].
  pose proof (chain_dom _ _ _ _ Hc) as Hdp. pose proof (prv_dom _ _ _ Hpb) as Hdb.
  pose proof (ch_nodup _ _ Hc) as Hnd.
  assert (Hne : p <> e /\ b <> e /\ p <> b).
  { apply NoDup_app in Hnd as (_ & _ & Hnd). apply NoDup_cons in Hnd as [Hpn _]. set_solver. }
  destruct Hne as (Hpe & Hbe & Hpb').
  unfold list_insert. apply wp_bind. eapply wp_before; [done|]. wp_steps; [done|by apply negb_true_iff, Nat.eqb_neq|].
  eapply wp_prev; [done|]. apply wp_bind, wp_set_prev; [done|].
  apply wp_bind, wp_set_next; [by apply dom_upd_prev|]. apply wp_bind.
  eapply wp_prev; [rewrite prv_upd_next, prv_upd_ne by done; done|].
  apply wp_bind, wp_set_next; [by rewrite dom_upd_next, dom_upd_prev|].
  apply wp_set_prev; [by rewrite !dom_upd_next, dom_upd_prev|].
  set (m' := upd_prev _ _ _).
  assert (Hn : forall a, nxt m' a = if decide (a = p) then Some e else if decide (a = e) then Some b else nxt m a).
  { intros a. unfold m'. rewrite nxt_upd_prev. case_decide as E; [subst; apply nxt_upd_eq; by rewrite dom_upd_next, dom_upd_prev|].
    rewrite nxt_upd_ne by done. case_decide as E'; [subst; apply nxt_upd_eq; by rewrite dom_upd_prev|].
    by rewrite nxt_upd_ne, nxt_upd_prev. }
  assert (Hp : forall a, prv m' a = if decide (a = b) then Some e else if decide (a = e) then Some p else prv m a).
  { intros a. unfold m'. case_decide as E; [subst; apply prv_upd_eq; by rewrite !dom_upd_next, dom_upd_prev|].
    rewrite prv_upd_ne, !prv_upd_next by done. case_decide as E'; [subst; by apply prv_upd_eq|].
    by rewrite prv_upd_ne. }
  assert (Hnn : forall a, a ∉ [p; e] -> nxt m' a = nxt m a) by (intros a Ha; rewrite Hn, !decide_False by set_solver; done).
  assert (Hpp : forall a, a ∉ [b; e] -> prv m' a = prv m a) by (intros a Ha; rewrite Hp, !decide_False by set_solver; done).
  pose proof (ch_linked _ _ Hc) as Hl. apply linked_mid in Hl as (Hl1 & _ & Hl2).
  change (A ++ p :: b :: B) with (A ++ [p] ++ b :: B) in Hnd. rewrite app_assoc in Hnd.
  pose proof Hnd as (Hnd1 & Hndd & Hnd2)%NoDup_app.
  apply HQ.
  2:{ unfold m'. repeat first [apply touched_prev; [|set_solver]|apply touched_next; [|set_solver]].
      apply touched_refl. }
  eapply (chain_change m m' (A ++ p :: b :: B) _ [p; e] [b; e]); try done.
  - apply linked_mid. split; [|split; [|apply (linked_mid m' [] e b B); split; [done|split]]].
    + apply (linked_keep m m' _ [p; e] [b; e]); try done.
      * intros a Ha Hin. rewrite last_snoc. set_solver.
      * intros a Ha Hin. exfalso. set_solver.
    + split; [by rewrite Hn, decide_True|]. rewrite Hp, decide_False, decide_True by done. done.
    + split; [rewrite Hn, decide_False, decide_True by done; done|by rewrite Hp, decide_True].
    + apply (linked_keep m m' _ [p; e] [b; e]); try done.
      * intros a Ha Hin. exfalso. set_solver.
      * intros a Ha Hin. cbn. set_solver.
  - change (A ++ p :: e :: b :: B) with (A ++ [p] ++ e :: b :: B). rewrite app_assoc.
    apply NoDup_app. split; [done|]. split; [set_solver|]. apply NoDup_cons. split; [set_solver|done].
  - pose proof (ch_null _ _ Hc). set_solver.
  - by destruct A.
  - by rewrite !last_app_cons.
  - intros a Ha. rewrite last_app_cons, last_cons_cons in Ha. apply last_Some_elem_of in Ha. set_solver.
  - intros a Ha. destruct A; cbn in Ha; set_solver.
Qed.

Lemma wp_list_remove m A p e b B (Q : nat -> store -> Prop) :
  chain m (A ++ p :: e :: b :: B) ->
  (forall m', chain m' (A ++ p :: b :: B) -> touched m m' [p; b] -> Q b m') ->
  wp (list_remove e) Q m.
Proof.
  intros Hc HQ. pose proof (chain_link _ _ _ _ _ Hc) as [Hnp Hpe].
  pose proof (chain_dom _ _ _ _ Hc) as Hdp. pose proof (ch_nodup _ _ Hc) as Hnd.
  assert (Hl : link m e b).
  { pose proof (ch_linked _ _ Hc) as Hl. apply linked_mid in Hl as (_ & _ & Hl).
    by apply (linked_mid m [] e b B) in Hl as (_ & Hl & _). }
  destruct Hl as [Hne Hpb]. pose proof (prv_dom _ _ _ Hpb) as Hdb.
  pose proof Hnd as (Hnd1 & Hd1 & Hnd2)%NoDup_app. apply NoDup_cons in Hnd2 as [Hp1 Hnd2].
  pose proof Hnd2 as [He1 Hnd3]%NoDup_cons.
  unfold list_remove. apply wp_bind. eapply wp_interior; [done|]. wp_steps; [done|].
  eapply wp_prev; [done|]. apply wp_bind. eapply wp_next; [done|]. apply wp_bind, wp_set_next; [done|].
  apply wp_bind. eapply wp_next; [rewrite nxt_upd_ne by set_solver; done|].
  apply wp_bind. eapply wp_prev; [rewrite prv_upd_next; done|].
  apply wp_bind, wp_set_prev; [by rewrite dom_upd_next|].
  eapply wp_next; [rewrite nxt_upd_prev, nxt_upd_ne by set_solver; done|].
  set (m' := upd_prev _ _ _).
  assert (Hn : forall a, nxt m' a = if decide (a = p) then Some b else nxt m a).
  { intros a. unfold m'. rewrite nxt_upd_prev. case_decide as E; [subst; by apply nxt_upd_eq|by apply nxt_upd_ne]. }
  assert (Hp : forall a, prv m' a = if decide (a = b) then Some p else prv m a).
  { intros a. unfold m'. case_decide as E; [subst; apply prv_upd_eq; by rewrite dom_upd_next|].
    by rewrite prv_upd_ne, prv_upd_next. }
  assert (Hnn : forall a, a ∉ [p] -> nxt m' a = nxt m a) by (intros a Ha; rewrite Hn, decide_False by set_solver; done).
  assert (Hpp : forall a, a ∉ [b] -> prv m' a = prv m a) by (intros a Ha; rewrite Hp, decide_False by set_solver; done).
  pose proof (ch_linked _ _ Hc) as (Hl1 & _ & Hl2)%linked_mid.
  apply (linked_mid m [] e b B) in Hl2 as (_ & _ & Hl2).
  apply HQ; [|by unfold m'; apply touched_prev; [apply touched_next; [apply touched_refl|]|]; set_solver].
  eapply (chain_change m m' _ _ [p] [b]); try done.
  - apply linked_mid. split; [|split].
    + apply (linked_keep m m' _ [p] [b]); try done.
      * apply NoDup_app. split; [done|]. split; [set_solver|apply NoDup_singleton].
      * intros a Ha Hin. rewrite last_snoc. set_solver.
      * intros a Ha Hin. exfalso. set_solver.
    + split; [by rewrite Hn, decide_True|by rewrite Hp, decide_True].
    + apply (linked_keep m m' _ [p] [b]); try done.
      * intros a Ha Hin. exfalso. set_solver.
      * intros a Ha Hin. cbn. set_solver.
  - apply NoDup_app. split; [done|]. split; [set_solver|]. apply NoDup_cons. split; [set_solver|done].
  - pose proof (ch_null _ _ Hc). set_solver.
  - by destruct A.
  - by rewrite !last_app_cons.
  - intros a Ha. rewrite last_app_cons, !last_cons_cons in Ha. apply last_Some_elem_of in Ha. set_solver.
  - intros a Ha. destruct A; cbn in Ha; set_solver.
Qed.

(** The links that a splice of [f] .. [z] to before [b] rewrites: [p] is
    before [b], [q] before [f], and [r] after [z]. *)
Lemma wp_splice_links m p b q f z r pz nf (Q : unit -> store -> Prop) :
  (forall R, R true m -> wp (either (is_interior b) (is_tail b)) R m) ->
  (forall R, R z m -> wp (list_prev r) R m) ->
  prv m b = Some p -> nxt m p = Some b -> link m q f -> link m z r -> nxt m f = Some nf -> prv m z = Some pz ->
  NULL ∉ [q; f; z; r; nf; pz] -> NoDup [p; q; z] -> NoDup [b; f; r] ->
  (forall m', touched m m' [p; q; z; b; f; r] ->
     (forall a, nxt m' a = if decide (a = p) then Some f else if decide (a = z) then Some b
                           else if decide (a = q) then Some r else nxt m a) ->
     (forall a, prv m' a = if decide (a = b) then Some z else if decide (a = f) then Some p
                           else if decide (a = r) then Some q else prv m a) -> Q tt m') ->
  wp (list_splice b f r) Q m.
Proof.
  intros Hb Hr Hpb Hnp [Hqf Hfq] [Hzr Hrz] Hnf Hpz H0 Hd1 Hd2 HQ.
  pose proof (nxt_dom _ _ _ Hnp) as Dp. pose proof (prv_dom _ _ _ Hpb) as Db.
  pose proof (nxt_dom _ _ _ Hqf) as Dq. pose proof (prv_dom _ _ _ Hfq) as Df.
  pose proof (nxt_dom _ _ _ Hzr) as Dz. pose proof (prv_dom _ _ _ Hrz) as Dr.
  assert (Hne : (r <> f /\ b <> r /\ b <> f) /\ (q <> z /\ q <> p /\ z <> p)).
  { rewrite !NoDup_cons in Hd1, Hd2. clear - Hd1 Hd2. set_solver. }
  destruct Hne as [(Nrf & Nbr & Nbf) (Nqz & Nqp & Nzp)].
  assert (H0' : (q <> NULL /\ f <> NULL /\ z <> NULL) /\ (r <> NULL /\ nf <> NULL /\ pz <> NULL))
    by (clear - H0; set_solver).
  destruct H0' as [(Nq & Nf & Nz) (Nr & Nnf & Npz)].
  unfold list_splice. apply wp_bind, Hb. wp_steps; [done|]. rewrite (proj2 (Nat.eqb_neq f r)) by done.
  apply wp_bind, Hr. apply wp_bind. eapply wp_interior_links; [done..|]. wp_steps; [done|].
  eapply (wp_interior_links m pz z r); [done..|]. wp_steps; [done|].
  eapply wp_prev; [done|]. apply wp_bind. eapply wp_next; [done|]. apply wp_bind, wp_set_next; [done|].
  apply wp_bind. eapply wp_next; [by rewrite nxt_upd_ne|]. apply wp_bind. eapply wp_prev; [by rewrite prv_upd_next|].
  apply wp_bind, wp_set_prev; [by rewrite dom_upd_next|].
  apply wp_bind. eapply wp_prev; [by rewrite prv_upd_ne, prv_upd_next|].
  apply wp_bind, wp_set_prev; [by rewrite dom_upd_prev, dom_upd_next|].
  apply wp_bind, wp_set_next; [by rewrite !dom_upd_prev, dom_upd_next|].
  apply wp_bind. eapply wp_prev; [by rewrite prv_upd_next, !prv_upd_ne, prv_upd_next|].
  apply wp_bind, wp_set_next; [by rewrite dom_upd_next, !dom_upd_prev, dom_upd_next|].
  apply wp_set_prev; [by rewrite !dom_upd_next, !dom_upd_prev, dom_upd_next|].
  apply HQ.
  - repeat first [apply touched_prev; [|set_solver]|apply touched_next; [|set_solver]]. apply touched_refl.
  - intros a. rewrite nxt_upd_prev.
    case_decide; [subst; apply nxt_upd_eq; by rewrite dom_upd_next, !dom_upd_prev, dom_upd_next|].
    rewrite nxt_upd_ne by done. case_decide; [subst; apply nxt_upd_eq; by rewrite !dom_upd_prev, dom_upd_next|].
    rewrite nxt_upd_ne, !nxt_upd_prev by done. case_decide; [subst; by apply nxt_upd_eq|by apply nxt_upd_ne].
  - intros a. case_decide; [subst; apply prv_upd_eq; by rewrite !dom_upd_next, !dom_upd_prev, dom_upd_next|].
    rewrite prv_upd_ne, !prv_upd_next by done.
    case_decide; [subst; apply prv_upd_eq; by rewrite dom_upd_prev, dom_upd_next|].
    rewrite prv_upd_ne by done. case_decide; [subst; apply prv_upd_eq; by rewrite dom_upd_next|].
    by rewrite prv_upd_ne, prv_upd_next.
Qed.

(** An inner element has neighbours. *)
Lemma chain_after m A x B y : chain m (A ++ x :: B) -> head B = Some y -> nxt m x = Some y /\ y <> NULL.
Proof.
  intros Hc HB. destruct B; [done|]. injection HB as ->. split.
  - by apply (chain_link m A x y B).
  - intros ->. apply (ch_null _ _ Hc). set_solver.
Qed.

Lemma chain_before m A x B y : chain m (A ++ x :: B) -> last A = Some y -> prv m x = Some y /\ y <> NULL.
Proof.
  intros Hc HA. split.
  - rewrite (chain_prev _ _ _ _ Hc). by rewrite HA.
  - intros ->. apply (ch_null _ _ Hc). apply last_Some_elem_of in HA. set_solver.
Qed.

(** Case analysis on the element of a list of three, and the contradiction
    of an element in two disjoint lists. *)
Ltac three Ha := rewrite !elem_of_cons, elem_of_nil in Ha; destruct Ha as [->|[->|[->|[]]]].
Ltac apart x :=
  first [reflexivity | exfalso; match goal with
  | Hd : forall y : nat, y ∈ _ -> y ∉ _ |- _ =>
      apply (Hd x); [assumption || (rewrite !elem_of_app, ?elem_of_cons; solve [intuition]) | rewrite ?elem_of_app, ?elem_of_cons; solve [intuition]]
  end].

(** A list of four parts, the two in the middle swapped. *)
Lemma chain_swap m m' A p M S r D b q f z :
  chain m ((A ++ [p]) ++ M ++ S ++ r :: D) ->
  head M = Some b -> last M = Some q -> head S = Some f -> last S = Some z ->
  (forall a, nxt m' a = if decide (a = p) then Some f else if decide (a = z) then Some b
                        else if decide (a = q) then Some r else nxt m a) ->
  (forall a, prv m' a = if decide (a = b) then Some z else if decide (a = f) then Some p
                        else if decide (a = r) then Some q else prv m a) ->
  NoDup [p; q; z] -> NoDup [b; f; r] ->
  chain m' ((A ++ [p]) ++ S ++ M ++ r :: D).
Proof.
  intros Hc HM Eq HS Ez Hn Hp Hd Hd'.
  pose proof (ch_linked _ _ Hc) as (Hl1 & (Hl2 & (Hl3 & Hl4 & _)%linked_append & _)%linked_append & _)%linked_append.
  pose proof (ch_nodup _ _ Hc) as (Hnd1 & Hd1 & (Hnd2 & Hd2 & (Hnd3 & Hd3 & Hnd4)%NoDup_app)%NoDup_app)%NoDup_app.
  pose proof (last_Some_elem_of _ _ Eq) as Hqin. pose proof (last_Some_elem_of _ _ Ez) as Hzin.
  pose proof (head_Some_elem_of _ _ HM) as Hbin. pose proof (head_Some_elem_of _ _ HS) as Hfin.
  assert (Hnn : forall a, a ∉ [p; q; z] -> nxt m' a = nxt m a)
    by (clear - Hn; intros a Ha; rewrite Hn, !decide_False by set_solver; done).
  assert (Hpp : forall a, a ∉ [b; f; r] -> prv m' a = prv m a)
    by (clear - Hp; intros a Ha; rewrite Hp, !decide_False by set_solver; done).
  assert (Hne : (p <> q /\ p <> z /\ q <> z) /\ (b <> f /\ b <> r /\ f <> r)).
  { rewrite !NoDup_cons in Hd, Hd'. clear - Hd Hd'. set_solver. }
  destruct Hne as [(N1 & N2 & N3) (N4 & N5 & N6)].
  eapply (chain_change m m' _ _ [p; q; z] [b; f; r]); try done.
  - assert (Hkeep : forall xs, NoDup xs -> linked m xs ->
      (forall a, a ∈ [p; q; z] -> a ∈ xs -> last xs = Some a) ->
      (forall a, a ∈ [b; f; r] -> a ∈ xs -> head xs = Some a) -> linked m' xs).
    { intros xs Hx Hl HN HP. by apply (linked_keep m m' xs [p; q; z] [b; f; r]). }
    apply linked_append. split; [|split; [apply linked_append; split; [|split; [apply linked_append; split; [|split]|]]|]].
    + apply Hkeep; [done|done| |]; intros a Ha Hin; three Ha; rewrite ?last_snoc;
        (apart p || apart q || apart z || apart b || apart f || apart r).
    + apply Hkeep; [done|done| |]; intros a Ha Hin; three Ha; rewrite ?Ez, ?HS;
        (apart p || apart q || apart z || apart b || apart f || apart r).
    + apply Hkeep; [done|done| |]; intros a Ha Hin; three Ha; rewrite ?Eq, ?HM;
        (apart p || apart q || apart z || apart b || apart f || apart r).
    + apply Hkeep; [done|done| |]; intros a Ha Hin; three Ha; rewrite elem_of_cons in Hin;
        (apart p || apart q || apart z || apart b || apart f || apart r).
    + rewrite Eq. intros a c [= <-] [= <-]. split.
      * by rewrite Hn, !decide_False, decide_True by done.
      * by rewrite Hp, !decide_False, decide_True by done.
    + rewrite Ez. intros a c [= <-] Hc'. assert (c = b) as -> by (destruct M; cbn in *; congruence). split.
      * by rewrite Hn, decide_False, decide_True by done.
      * by rewrite Hp, decide_True.
    + rewrite last_snoc. intros a c [= <-] Hc'. assert (c = f) as -> by (destruct S; cbn in *; congruence). split.
      * by rewrite Hn, decide_True.
      * by rewrite Hp, decide_False, decide_True by done.
  - eapply NoDup_Permutation_proper; [|exact (ch_nodup _ _ Hc)]. solve_Permutation.
  - pose proof (ch_null _ _ Hc) as H0. clear - H0. set_solver.
  - by destruct A.
  - by rewrite !(assoc_L (++)), !last_app_cons.
  - intros a Ha. rewrite !(assoc_L (++)), last_app_cons in Ha. apply last_Some_elem_of in Ha.
    intros Hin; three Hin; rewrite elem_of_cons in Ha; (apart p || apart q || apart z).
  - intros a Ha. assert (Ha' : a ∈ A ++ [p]) by (destruct A; cbn in Ha; clear - Ha; set_solver).
    intros Hin; three Hin; (apart b || apart f || apart r).
Qed.

(** The elements [S] move before those of [M], in the same list. *)
Lemma wp_list_splice m A p M S r D b f (Q : unit -> store -> Prop) :
  chain m (A ++ p :: M ++ S ++ r :: D) -> head M = Some b -> head S = Some f ->
  (forall m', chain m' (A ++ p :: S ++ M ++ r :: D) -> touched m m' (p :: M ++ S ++ [r]) -> Q tt m') ->
  wp (list_splice b f r) Q m.
Proof.
  intros Hc HM HS HQ.
  destruct (last M) as [q|] eqn:Eq; [|apply last_None in Eq; by subst].
  destruct (last S) as [z|] eqn:Ez; [|apply last_None in Ez; by subst].
  assert (Hc1 : chain m ((A ++ [p]) ++ M ++ S ++ r :: D)) by (by rewrite <- app_assoc).
  pose proof (ch_linked _ _ Hc1) as (Hl1 & (Hl2 & (Hl3 & Hl4 & Hzr)%linked_append & Hqf)%linked_append & Hpb)%linked_append.
  destruct (Hpb p b) as [Hp1 Hp2]; [apply last_snoc|by destruct M|].
  specialize (Hqf q f Eq ltac:(by destruct S)). specialize (Hzr z r Ez eq_refl).
  pose proof (ch_nodup _ _ Hc1) as (Hnd1 & Hd1 & (Hnd2 & Hd2 & (Hnd3 & Hd3 & Hnd4)%NoDup_app)%NoDup_app)%NoDup_app.
  pose proof (last_Some_elem_of _ _ Eq) as Hqin. pose proof (last_Some_elem_of _ _ Ez) as Hzin.
  pose proof (head_Some_elem_of _ _ HM) as Hbin. pose proof (head_Some_elem_of _ _ HS) as Hfin.
  pose proof (ch_null _ _ Hc) as H0.
  apply last_Some in Ez as [S' ES]. destruct S as [|f' S1]; [done|]. injection HS as ->.
  assert (E1 : A ++ p :: M ++ (f :: S1) ++ r :: D = (A ++ p :: M) ++ f :: S1 ++ r :: D)
    by (by rewrite <- app_assoc).
  assert (E2 : A ++ p :: M ++ (f :: S1) ++ r :: D = (A ++ p :: M ++ S') ++ z :: r :: D).
  { rewrite ES, <- !app_assoc. cbn. by rewrite <- !app_assoc. }
  destruct (head (S1 ++ r :: D)) as [nf|] eqn:Enf; [|by destruct S1].
  destruct (chain_after m (A ++ p :: M) f (S1 ++ r :: D) nf) as [Hnf Nnf]; [by rewrite <- E1|done|].
  destruct (last (A ++ p :: M ++ S')) as [pz|] eqn:Epz; [|by rewrite last_app_cons, last_cons in Epz; destruct (last (M ++ S'))].
  destruct (chain_before m (A ++ p :: M ++ S') z (r :: D) pz) as [Hpz Npz]; [by rewrite <- E2|done|].
  rewrite E2 in Hc. 
  assert (HM' : exists M', M = b :: M') by (destruct M; [done|]; injection HM as ->; by eexists).
  destruct HM' as [M' EM].
  eapply (wp_splice_links m p b q f z r pz nf); try done.
  - intros R HR. eapply wp_before; [|exact HR]. rewrite <- E2, EM in Hc. exact Hc.
  - intros R HR. by eapply wp_list_prev.
  - clear - H0 Hqin Hzin Nnf Npz. set_solver.
  - clear - Hd1 Hd2 Hqin Hzin. rewrite !NoDup_cons, NoDup_nil. set_solver.
  - clear - Hd2 Hd3 Hbin Hfin. rewrite !NoDup_cons, NoDup_nil. set_solver.
  - intros m' Ht Hn Hp. apply HQ; [|eapply touched_mono; [exact Ht|clear - Hqin Hzin Hbin Hfin; set_solver]].
    assert (Hc2 : chain m' ((A ++ [p]) ++ (f :: S1) ++ M ++ r :: D)).
    { eapply (chain_swap m m' A p M (f :: S1) r D b q f z); try done.
      - rewrite ES. apply last_snoc.
      - clear - Hd1 Hd2 Hqin Hzin. rewrite !NoDup_cons, NoDup_nil. set_solver.
      - clear - Hd2 Hd3 Hbin Hfin. rewrite !NoDup_cons, NoDup_nil. set_solver. }
    by rewrite <- app_assoc in Hc2.
Qed.
End chains.
End KListSpec.
