(* ===== verification/KListSort.v ===== *)
(** Sorting of linked lists ([list_sort] in src/src/lib/kernel/list.c): the
    natural merge sort terminates and sorts. *)
From S2P Require Import Prelude KList KListSpec.
From stdpp Require Import sorting.
From stdpp Require Import options.

#[local] Open Scope Z_scope.

Module KListSort.
Import KList KListSpec.

Section cut.
Implicit Types (m : store) (A B xs : list nat) (a b : nat).

(** The element where the rest of a list starts. *)
Definition at_ (xs : list nat) : nat := default NULL (head xs).

Lemma chain_notin m A a B : chain m (A ++ a :: B) -> (a ∉ A) /\ a ∉ B.
Proof.
  intros Hc. pose proof (ch_nodup _ _ Hc) as (_ & Hd & [Hn _]%NoDup_cons)%NoDup_app.
  split; [|done]. intros Ha. apply (Hd a Ha). left.
Qed.

Lemma chain_ne m A a xs b B : chain m (A ++ a :: xs ++ b :: B) -> (a =? b)%nat = false.
Proof.
  intros Hc. apply Nat.eqb_neq. intros ->. apply chain_notin in Hc as [_ Hn]. apply Hn. set_solver.
Qed.

End cut.

Section sort.
Context (less : nat -> nat -> bool).
Implicit Types (m : store) (A B D xs ys zs : list nat) (a b p r : nat).

(** Neighbours are in order. *)
Fixpoint in_order xs : bool :=
  match xs with
  | a :: (b :: _) as ys => negb (less b a) && in_order ys
  | _ => true
  end.

(** The stable merge of two lists. *)
Fixpoint merge xs : list nat -> list nat :=
  match xs with
  | [] => fun ys => ys
  | x :: xs' =>
      fix go ys :=
        match ys with
        | [] => x :: xs'
        | y :: ys' => if less y x then y :: go ys' else x :: merge xs' (y :: ys')
        end
  end.

Lemma merge_nil_r xs : merge xs [] = xs.
Proof. by destruct xs. Qed.

Lemma merge_cons x xs y ys :
  merge (x :: xs) (y :: ys) = if less y x then y :: merge (x :: xs) ys else x :: merge xs (y :: ys).
Proof. done. Qed.

Lemma merge_perm xs : forall ys, merge xs ys ≡ₚ xs ++ ys.
Proof.
  induction xs as [|x xs IH]; intros ys; [done|]. induction ys as [|y ys IHy].
  - by rewrite merge_nil_r, app_nil_r.
  - rewrite merge_cons. destruct (less y x).
    + rewrite IHy. cbn. by rewrite <- Permutation_middle, perm_swap.
    + by rewrite IH.
Qed.

Lemma in_order_cons a xs : in_order (a :: xs) = true <->
  in_order xs = true /\ (forall b, head xs = Some b -> less b a = false).
Proof.
  destruct xs as [|b xs]; cbn [in_order head]; [naive_solver|].
  rewrite andb_true_iff, negb_true_iff. naive_solver.
Qed.

Lemma in_order_app xs ys : in_order (xs ++ ys) = true <->
  in_order xs = true /\ in_order ys = true /\
  (forall a b, last xs = Some a -> head ys = Some b -> less b a = false).
Proof.
  induction xs as [|x xs IH]; cbn [app]; [naive_solver|]. rewrite !in_order_cons, IH.
  destruct xs as [|x' xs]; cbn [app head]; [|rewrite last_cons_cons; naive_solver].
  cbn [last in_order]. naive_solver.
Qed.

Lemma merge_head xs ys b : head (merge xs ys) = Some b -> head xs = Some b \/ head ys = Some b.
Proof.
  destruct xs as [|x xs]; [by right|]. destruct ys as [|y ys]; [by left|]. rewrite merge_cons.
  destruct (less y x); cbn; [by right|by left].
Qed.

(** Only asymmetry is needed for the merge to be in order. *)
Lemma merge_in_order (Hasym : forall a b, less a b = true -> less b a = false) xs :
  forall ys, in_order xs = true -> in_order ys = true -> in_order (merge xs ys) = true.
Proof.
  induction xs as [|x xs IH]; intros ys Hx Hy; [done|]. induction ys as [|y ys IHy]; [by rewrite merge_nil_r|].
  rewrite merge_cons. apply in_order_cons in Hx as Hx'. apply in_order_cons in Hy as Hy'.
  destruct (less y x) eqn:E; apply in_order_cons.
  - split; [apply IHy, Hy'|]. intros b [Hb|Hb]%merge_head; [|by apply Hy'].
    injection Hb as <-. by apply Hasym.
  - split; [apply IH; [apply Hx'|done]|]. intros b [Hb|Hb]%merge_head; [by apply Hx'|]. by injection Hb as <-.
Qed.

(** * Runs *)

(** The number of runs that a list is made of. *)
Fixpoint runs xs : nat :=
  match xs with
  | [] => 0
  | a :: ys => match ys with
               | [] => 1
               | b :: _ => if less b a then S (runs ys) else runs ys
               end
  end.

Lemma runs_pos a xs : (0 < runs (a :: xs))%nat.
Proof.
  revert a. induction xs as [|b xs IH]; intros a; cbn [runs]; [lia|].
  specialize (IH b). cbn [runs] in IH. destruct (less b a); lia.
Qed.

Lemma runs_app xs ys : (runs (xs ++ ys) <= runs xs + runs ys)%nat.
Proof.
  induction xs as [|a xs IH]; [done|]. destruct xs as [|b xs].
  - cbn [app runs]. destruct ys as [|b ys]; [cbn; lia|]. destruct (less b a); lia.
  - cbn [app] in *. cbn [runs] in *. destruct (less b a); lia.
Qed.

Lemma runs_in_order xs : in_order xs = true -> (runs xs <= 1)%nat.
Proof.
  induction xs as [|a xs IH]; [cbn; lia|]. intros [H1 H2]%in_order_cons. destruct xs as [|b xs]; [done|].
  change (runs (a :: b :: xs)) with (if less b a then S (runs (b :: xs)) else runs (b :: xs)).
  rewrite (H2 b eq_refl). by apply IH.
Qed.

(** A run cut off where it ends. *)
Lemma runs_cut xs ys a b :
  in_order xs = true -> last xs = Some a -> head ys = Some b -> less b a = true ->
  runs (xs ++ ys) = S (runs ys).
Proof.
  induction xs as [|x xs IH]; intros Ho Hl Hh Hab; [done|]. apply in_order_cons in Ho as [Ho Hx].
  destruct xs as [|x' xs].
  - injection Hl as ->. destruct ys as [|y ys]; [done|]. injection Hh as ->. cbn [app].
    change (runs (a :: b :: ys)) with (if less b a then S (runs (b :: ys)) else runs (b :: ys)). by rewrite Hab.
  - rewrite last_cons_cons in Hl. specialize (IH Ho Hl Hh Hab). cbn [app] in *.
    change (runs (x :: x' :: xs ++ ys)) with
      (if less x' x then S (runs (x' :: xs ++ ys)) else runs (x' :: xs ++ ys)).
    by rewrite (Hx x' eq_refl).
Qed.

(** * The loops *)

Lemma is_sorted_spec m A xs b B (Q : bool -> store -> Prop) :
  chain m (A ++ xs ++ b :: B) -> Z.of_nat (length xs) < 2 ^ 32 -> Q (in_order xs) m ->
  wp (is_sorted less (at_ (xs ++ [b])) b) Q m.
Proof.
  intros Hc Hlen HQ. unfold is_sorted. destruct xs as [|a xs]; [cbn; rewrite Nat.eqb_refl; by wp_steps|].
  change (at_ ((a :: xs) ++ [b])) with a. rewrite (chain_ne m A a xs b B Hc).
  eapply (wp_loop _ (fun k a1 m1 => exists l1 l2, a :: xs = l1 ++ a1 :: l2 /\ k = length l2 /\ m1 = m /\
    in_order (l1 ++ [a1]) = true)).
  2:{ exists [], xs. by split_and!. }
  2:{ cbn in Hlen. lia. }
  intros k a1 m1 (l1 & l2 & E & -> & -> & Ho). rewrite E in Hc.
  assert (Hc1 : chain m ((A ++ l1) ++ a1 :: l2 ++ b :: B)) by (revert Hc; by rewrite <- !app_assoc).
  destruct l2 as [|a2 l2].
  - apply wp_bind. eapply (wp_list_next m (A ++ l1) a1 b B); [exact Hc1|]. rewrite Nat.eqb_refl. wp_steps.
    revert HQ. by rewrite E, Ho.
  - apply wp_bind. eapply (wp_list_next m (A ++ l1) a1 a2); [exact Hc1|].
    assert (Hc2 : chain m ((A ++ l1 ++ [a1]) ++ a2 :: l2 ++ b :: B)).
    { revert Hc1. by rewrite <- !app_assoc. }
    rewrite (chain_ne _ _ _ _ _ _ Hc2). apply wp_bind. eapply wp_list_prev; [exact Hc1|].
    destruct (less a2 a1) eqn:El; wp_steps.
    + revert HQ. rewrite E. replace (in_order (l1 ++ a1 :: a2 :: l2)) with false; [done|].
      symmetry. apply not_true_is_false. intros (_ & Ho2 & _)%in_order_app. cbn in Ho2. by rewrite El in Ho2.
    + exists (length l2). split; [cbn; lia|]. exists (l1 ++ [a1]), l2. rewrite <- app_assoc. split_and!; try done.
      apply in_order_app. split; [done|]. split; [done|]. intros x y. rewrite last_snoc. by intros [= <-] [= <-].
Qed.

Lemma find_end_spec m A a xs b B (Q : nat -> store -> Prop) :
  chain m (A ++ a :: xs ++ b :: B) -> Z.of_nat (length xs) < 2 ^ 32 ->
  (forall l1 l2, a :: xs = l1 ++ l2 -> l1 <> [] -> in_order l1 = true ->
     (forall x y, last l1 = Some x -> head l2 = Some y -> less y x = true) ->
     Q (at_ (l2 ++ [b])) m) ->
  wp (find_end_of_run less a b) Q m.
Proof.
  intros Hc Hlen HQ. unfold find_end_of_run. pose proof (chain_ne _ _ _ _ _ _ Hc) as Hab.
  assert (Ha : (a =? NULL)%nat = false) by (apply Nat.eqb_neq; by eapply chain_nonnull).
  assert (Hb : (b =? NULL)%nat = false).
  { apply Nat.eqb_neq. change (A ++ a :: xs ++ b :: B) with (A ++ (a :: xs) ++ b :: B) in Hc.
    rewrite app_assoc in Hc. by eapply chain_nonnull. }
  rewrite Ha, Hb, Hab. wp_steps; try done.
  eapply (wp_loop _ (fun k a1 m1 => exists l1 l2, a :: xs = l1 ++ a1 :: l2 /\ k = length l2 /\ m1 = m /\
    in_order (l1 ++ [a1]) = true)).
  2:{ exists [], xs. by split_and!. }
  2:{ lia. }
  intros k a1 m1 (l1 & l2 & E & -> & -> & Ho).
  assert (Hc1 : chain m ((A ++ l1) ++ a1 :: l2 ++ b :: B)).
  { change (A ++ a :: xs ++ b :: B) with (A ++ (a :: xs) ++ b :: B) in Hc. rewrite E in Hc.
    revert Hc. by rewrite <- !app_assoc. }
  destruct l2 as [|a2 l2].
  - apply wp_bind. eapply (wp_list_next m (A ++ l1) a1 b B); [exact Hc1|]. rewrite Nat.eqb_refl. wp_steps.
    apply (HQ (l1 ++ [a1]) []); [by rewrite app_nil_r|by destruct l1|done|]. by intros x y _.
  - apply wp_bind. eapply (wp_list_next m (A ++ l1) a1 a2); [exact Hc1|].
    assert (Hc2 : chain m ((A ++ l1 ++ [a1]) ++ a2 :: l2 ++ b :: B)).
    { revert Hc1. by rewrite <- !app_assoc. }
    rewrite (chain_ne _ _ _ _ _ _ Hc2). apply wp_bind. eapply wp_list_prev; [exact Hc1|].
    destruct (less a2 a1) eqn:El; cbn [negb]; wp_steps.
    + apply (HQ (l1 ++ [a1]) (a2 :: l2)); [by rewrite <- app_assoc|by destruct l1|done|].
      intros x y. rewrite last_snoc. by intros [= <-] [= <-].
    + exists (length l2). split; [cbn; lia|]. exists (l1 ++ [a1]), l2. rewrite <- app_assoc. split_and!; try done.
      apply in_order_app. split; [done|]. split; [done|]. intros x y. rewrite last_snoc. by intros [= <-] [= <-].
Qed.

(** [xs] and [ys] in the list are replaced by their merge. *)
Lemma merge_loop_spec m A p xs ys r D (Q : unit -> store -> Prop) :
  chain m (A ++ p :: xs ++ ys ++ r :: D) ->
  Z.of_nat (length xs) + Z.of_nat (length ys) < 2 ^ 32 ->
  (forall m', chain m' (A ++ p :: merge xs ys ++ r :: D) ->
     touched m m' (p :: xs ++ ys ++ [r]) -> Q tt m') ->
  wp (loop (fun '(a0, a1b0) =>
    if negb (a0 =? a1b0)%nat && negb (a1b0 =? r)%nat then
      if negb (less a1b0 a0) then let! a0 := list_next a0 in ret (inl (a0, a1b0))
      else
        let! a1b0 := list_next a1b0 in
        let! p := list_prev a1b0 in
        list_splice a0 p a1b0;;;
        ret (inl (a0, a1b0))
    else ret (inr tt)) (at_ (xs ++ ys ++ [r]), at_ (ys ++ [r]))) Q m.
Proof.
  intros Hc Hlen HQ.
  eapply (wp_loop _ (fun k '(a0, a1b0) m1 => exists dn xs1 ys1, k = (length xs1 + length ys1)%nat /\
    dn ++ merge xs1 ys1 = merge xs ys /\ dn ++ xs1 ++ ys1 ≡ₚ xs ++ ys /\
    a0 = at_ (xs1 ++ ys1 ++ [r]) /\ a1b0 = at_ (ys1 ++ [r]) /\
    chain m1 (A ++ p :: dn ++ xs1 ++ ys1 ++ r :: D) /\ touched m m1 (p :: xs ++ ys ++ [r]))).
  2:{ exists [], xs, ys. by split_and!. }
  2:{ lia. }
  intros k [a0 a1b0] m1 (dn & xs1 & ys1 & -> & Em & Ep & -> & -> & Hc1 & Ht1).
  assert (Hc2 : chain m1 ((A ++ p :: dn) ++ xs1 ++ ys1 ++ r :: D)) by (revert Hc1; by rewrite <- app_assoc).
  destruct xs1 as [|x xs1].
  { cbn [app]. rewrite Nat.eqb_refl. cbn [negb andb]. wp_steps. apply HQ; [|done].
    rewrite <- Em. revert Hc1. by rewrite <- !app_assoc. }
  destruct ys1 as [|y ys1].
  { change (at_ ([] ++ [r])) with r. rewrite Nat.eqb_refl, andb_false_r. wp_steps. apply HQ; [|done].
    rewrite <- Em, merge_nil_r. revert Hc1. by rewrite <- !app_assoc. }
  change (at_ ((x :: xs1) ++ (y :: ys1) ++ [r])) with x. change (at_ ((y :: ys1) ++ [r])) with y.
  assert (Hxy : (x =? y)%nat = false).
  { apply (chain_ne m1 (A ++ p :: dn) x xs1 y (ys1 ++ r :: D)). exact Hc2. }
  assert (Hc3 : chain m1 ((A ++ p :: dn ++ x :: xs1) ++ y :: ys1 ++ r :: D)).
  { revert Hc2. rewrite <- !app_assoc. cbn. by rewrite <- !app_assoc. }
  rewrite Hxy, (chain_ne _ _ _ _ _ _ Hc3). cbn [negb andb].
  rewrite merge_cons in Em. destruct (less y x) eqn:El; cbn [negb].
  - (* y goes before x *)
    destruct (ys1 ++ r :: D) as [|r' D'] eqn:Er; [by destruct ys1|].
    assert (Er' : at_ (ys1 ++ [r]) = r') by (destruct ys1; cbn in *; congruence).
    apply wp_bind. eapply wp_list_next; [exact Hc3|]. apply wp_bind. eapply wp_list_prev; [exact Hc3|].
    destruct (exists_last (l := p :: dn)) as (pre & p' & Epre); [done|].
    apply wp_bind. eapply (wp_list_splice m1 (A ++ pre) p' (x :: xs1) [y] r' D' x y); [|done|done|].
    { revert Hc3. change (A ++ p :: dn ++ x :: xs1) with (A ++ (p :: dn) ++ x :: xs1). rewrite Epre.
      by rewrite <- !app_assoc. }
    intros m2 Hc4 Ht2. wp_steps. exists (length (x :: xs1) + length ys1)%nat. split; [cbn; lia|].
    exists (dn ++ [y]), (x :: xs1), ys1. split_and!; try done.
    + by rewrite <- app_assoc.
    + rewrite <- Ep, <- app_assoc. apply Permutation_app_head. cbn.
      by rewrite perm_swap, Permutation_middle.
    + rewrite <- (app_assoc dn), Er. change (A ++ p :: dn ++ [y] ++ (x :: xs1) ++ r' :: D') with
        (A ++ (p :: dn) ++ [y] ++ (x :: xs1) ++ r' :: D'). rewrite Epre.
      revert Hc4. by rewrite <- !app_assoc.
    + eapply touched_trans; [exact Ht1|]. eapply touched_mono; [exact Ht2|].
      assert (Hp' : p' ∈ p :: dn) by (rewrite Epre; set_solver).
      assert (Hr' : r' ∈ ys1 ++ [r]) by (destruct ys1; cbn in *; set_solver).
      intros w Hw. rewrite elem_of_cons, !elem_of_app, list_elem_of_singleton.
      assert (Hin : w = p \/ (w ∈ dn ++ (x :: xs1) ++ y :: ys1) \/ w = r) by set_solver.
      rewrite Ep, elem_of_app in Hin. tauto.
  - (* x stays *)
    apply wp_bind. destruct (xs1 ++ y :: ys1 ++ r :: D) as [|x' D'] eqn:Ex; [by destruct xs1|].
    assert (Ex' : at_ (xs1 ++ (y :: ys1) ++ [r]) = x') by (destruct xs1; cbn in *; congruence).
    eapply (wp_list_next m1 (A ++ p :: dn) x x' D').
    { revert Hc2. cbn. by rewrite Ex. }
    wp_steps. exists (length xs1 + length (y :: ys1))%nat. split; [cbn; lia|].
    exists (dn ++ [x]), xs1, (y :: ys1). split_and!; try done.
    + by rewrite <- app_assoc.
    + by rewrite <- Ep, <- app_assoc.
    + revert Hc1. by rewrite <- (app_assoc dn).
Qed.

Lemma inplace_merge_spec m A p xs ys r D (Q : unit -> store -> Prop) :
  chain m (A ++ p :: xs ++ ys ++ r :: D) -> xs <> [] -> ys <> [] ->
  in_order xs = true -> in_order ys = true ->
  Z.of_nat (length xs) + Z.of_nat (length ys) < 2 ^ 32 ->
  (forall m', chain m' (A ++ p :: merge xs ys ++ r :: D) ->
     touched m m' (p :: xs ++ ys ++ [r]) -> Q tt m') ->
  wp (inplace_merge less (at_ xs) (at_ ys) r) Q m.
Proof.
  intros Hc Hx Hy Hox Hoy Hlen HQ. destruct xs as [|x xs]; [done|]. destruct ys as [|y ys]; [done|].
  assert (Hc2 : chain m ((A ++ [p]) ++ (x :: xs) ++ y :: ys ++ r :: D)) by (revert Hc; by rewrite <- app_assoc).
  assert (Hc3 : chain m ((A ++ p :: x :: xs) ++ (y :: ys) ++ r :: D)).
  { revert Hc. by rewrite <- app_assoc. }
  assert (Hr0 : r <> NULL).
  { rewrite app_assoc in Hc3. by eapply chain_nonnull. }
  assert (Hx0 : x <> NULL) by (eapply (chain_nonnull m (A ++ [p]) x); exact Hc2).
  assert (Hy0 : y <> NULL) by (eapply (chain_nonnull m (A ++ p :: x :: xs) y); exact Hc3).
  unfold inplace_merge. apply Nat.eqb_neq in Hr0, Hx0, Hy0.
  change (at_ (x :: xs)) with x. change (at_ (y :: ys)) with y. rewrite Hr0, Hx0, Hy0. wp_steps; try done.
  change x with (at_ ((x :: xs) ++ [y])). cbn [length] in Hlen.
  eapply is_sorted_spec; [exact Hc2|cbn [length]; lia|]. rewrite Hox. wp_steps; [done|].
  change y with (at_ ((y :: ys) ++ [r])) at 1.
  eapply is_sorted_spec; [exact Hc3|cbn [length]; lia|]. rewrite Hoy. wp_steps; [done|].
  apply (merge_loop_spec m A p (x :: xs) (y :: ys) r D Q); [done|cbn [length]; lia|done].
Qed.

Lemma runs_sorted xs : (runs xs <= 1)%nat -> in_order xs = true.
Proof.
  induction xs as [|a xs IH]; [done|]. destruct xs as [|b xs]; [done|].
  change (runs (a :: b :: xs)) with (if less b a then S (runs (b :: xs)) else runs (b :: xs)).
  pose proof (runs_pos b xs). intros Hr. apply in_order_cons. destruct (less b a) eqn:E; [lia|].
  split; [by apply IH|]. by intros c [= <-].
Qed.

(** The next two runs. *)
Lemma runs_two l1 l2 l3 l4 :
  l2 = l3 ++ l4 -> in_order l1 = true -> in_order l3 = true -> l1 <> [] -> l3 <> [] ->
  (forall x y, last l1 = Some x -> head l2 = Some y -> less y x = true) ->
  (forall x y, last l3 = Some x -> head l4 = Some y -> less y x = true) ->
  runs (l1 ++ l2) = S (S (runs l4)).
Proof.
  intros -> H1 H3 N1 N3 Hc1 Hc2.
  destruct (last l1) as [a|] eqn:Ea; [|by apply last_None in Ea]. destruct l3 as [|b l3]; [done|].
  rewrite (runs_cut l1 ((b :: l3) ++ l4) a b); [|done|done|done|by apply Hc1]. f_equal.
  destruct l4 as [|d l4].
  - rewrite app_nil_r. pose proof (runs_in_order _ H3). pose proof (runs_pos b l3). cbn [runs] in *. lia.
  - destruct (last (b :: l3)) as [c|] eqn:Ec; [|by apply last_None in Ec].
    apply (runs_cut (b :: l3) (d :: l4) c d); try done. by apply Hc2.
Qed.

Lemma wp_list_begin m L l (Q : nat -> store -> Prop) :
  rep m L l -> Q (at_ (l ++ [l_tail L])) m -> wp (list_begin L) Q m.
Proof.
  intros Hr HQ. unfold list_begin. eapply wp_next; [|exact HQ].
  rewrite (chain_next m [] (l_head L) (l ++ [l_tail L]) Hr). done.
Qed.

Context (Hasym : forall a b, less a b = true -> less b a = false).

Lemma merge_pass_spec m L l (Q : Z -> store -> Prop) :
  rep m L l -> Z.of_nat (length l) < 2 ^ 32 ->
  (forall n l' m', rep m' L l' -> l' ≡ₚ l -> touched m m' (full L l) -> (runs l' <= n)%nat ->
     (2 * n <= runs l + 1)%nat -> Z.of_nat n < 2 ^ 32 -> Q (Z.of_nat n) m') ->
  wp (merge_pass less L) Q m.
Proof using Hasym.
  intros Hr Hlen HQ. unfold merge_pass, list_end. apply wp_bind. eapply wp_list_begin; [done|].
  eapply (wp_loop _ (fun k '(a0, cnt) m1 => exists dn xs n, k = length xs /\ a0 = at_ (xs ++ [l_tail L]) /\
    cnt = Z.of_nat n /\ dn ++ xs ≡ₚ l /\ rep m1 L (dn ++ xs) /\ touched m m1 (full L l) /\
    (runs dn <= n)%nat /\ (2 * n + runs xs <= runs l)%nat /\ (n <= length dn)%nat)).
  2:{ exists [], l, 0%nat. split_and!; try done; cbn; lia. }
  2:{ lia. }
  intros k [a0 cnt] m1 (dn & xs & n & -> & -> & -> & Ep & Hr1 & Ht1 & Hrd & Hrx & Hn).
  pose proof (Permutation_length Ep) as Hl. rewrite length_app in Hl.
  destruct xs as [|x xs].
  { change (at_ ([] ++ [l_tail L])) with (l_tail L). rewrite Nat.eqb_refl. wp_steps.
    rewrite app_nil_r in *. apply (HQ n dn m1); try done; cbn in *; lia. }
  change (at_ ((x :: xs) ++ [l_tail L])) with x.
  assert (Hc : chain m1 ((l_head L :: dn) ++ x :: xs ++ [l_tail L])).
  { revert Hr1. unfold rep, full. by rewrite <- app_assoc. }
  rewrite (chain_ne _ _ _ _ _ _ Hc). cbn [length] in Hl. rewrite (u32_small (Z.of_nat n + 1)) by lia.
  apply wp_bind. eapply find_end_spec; [exact Hc|lia|]. intros l1 l2 E1 N1 O1 C1.
  assert (Hl12 : length (l1 ++ l2) = S (length xs)) by (by rewrite <- E1). rewrite length_app in Hl12.
  destruct l2 as [|y l2].
  { change (at_ ([] ++ [l_tail L])) with (l_tail L). rewrite Nat.eqb_refl. wp_steps.
    replace (Z.of_nat n + 1) with (Z.of_nat (S n)) by lia.
    pose proof (runs_in_order _ O1) as R1. rewrite app_nil_r in E1. rewrite <- E1 in R1.
    pose proof (runs_app dn (x :: xs)). pose proof (runs_pos x xs).
    apply (HQ (S n) (dn ++ x :: xs) m1); [done|done|done|lia|lia|lia]. }
  change (at_ ((y :: l2) ++ [l_tail L])) with y. rewrite E1 in Hr1.
  assert (Hc2 : chain m1 ((l_head L :: dn ++ l1) ++ y :: l2 ++ [l_tail L])).
  { revert Hr1. unfold rep, full. cbn. by rewrite <- !app_assoc. }
  rewrite (chain_ne _ _ _ _ _ _ Hc2). cbn [length] in Hl12. apply wp_bind.
  eapply find_end_spec; [exact Hc2|lia|]. intros l3 l4 E2 N3 O3 C3.
  assert (Hl34 : length (l3 ++ l4) = S (length l2)) by (by rewrite <- E2). rewrite length_app in Hl34.
  destruct (l4 ++ [l_tail L]) as [|r D] eqn:Er; [by destruct l4|].
  destruct (exists_last (l := l_head L :: dn)) as (A & p & EA); [done|].
  assert (Hx : x = at_ l1) by (destruct l1; cbn in *; congruence).
  assert (Hy : y = at_ l3) by (destruct l3; cbn in *; congruence).
  rewrite Hx, Hy. change (at_ (r :: D)) with r. apply wp_bind.
  assert (Hc3 : chain m1 (A ++ p :: l1 ++ l3 ++ r :: D)).
  { revert Hr1. unfold rep, full. rewrite E2, <- Er, !app_comm_cons, <- !app_assoc. rewrite EA. by rewrite <- !app_assoc. }
  eapply (inplace_merge_spec m1 A p l1 l3 r D); [exact Hc3|done|done|done|done|lia|].
  assert (Hl3 : length l3 <> 0%nat) by (by destruct l3).
  intros m2 Hc4 Ht2. wp_steps. exists (length l4). split; [cbn; lia|].
  exists (dn ++ merge l1 l3), l4, (S n).
  assert (Ep' : (dn ++ merge l1 l3) ++ l4 ≡ₚ l).
  { rewrite <- Ep, E1, E2, merge_perm, <- !app_assoc. done. }
  split_and!; try done.
  - by rewrite Er.
  - lia.
  - unfold rep, full. rewrite <- !app_assoc, Er, app_comm_cons, EA, <- app_assoc. exact Hc4.
  - eapply touched_trans; [exact Ht1|]. eapply touched_mono; [exact Ht2|]. intros w Hw. unfold full.
    assert (Hp : p ∈ l_head L :: dn) by (rewrite EA; set_solver).
    assert (Hrr : r ∈ l4 ++ [l_tail L]) by (rewrite Er; left).
    rewrite elem_of_cons, elem_of_app, <- Ep, E1, E2. clear - Hw Hp Hrr. set_solver.
  - pose proof (runs_app dn (merge l1 l3)). pose proof (runs_in_order _ (merge_in_order Hasym l1 l3 O1 O3)). lia.
  - pose proof (runs_two l1 (y :: l2) l3 l4 E2 O1 O3 N1 N3 C1 C3) as R. rewrite E1 in Hrx. lia.
  - rewrite length_app, (Permutation_length (merge_perm l1 l3)), length_app. destruct l1; [done|]. cbn. lia.
Qed.

Lemma rep_touched m m' L l l' : l' ≡ₚ l -> touched m m' (full L l') -> touched m m' (full L l).
Proof using Type.
  intros Ep Ht. eapply touched_mono; [exact Ht|]. intros x. unfold full. by rewrite !elem_of_cons, !elem_of_app, Ep.
Qed.

Lemma list_sort_spec m L l (Q : unit -> store -> Prop) :
  rep m L l -> Z.of_nat (length l) < 2 ^ 32 ->
  (forall m' l', rep m' L l' -> l' ≡ₚ l -> in_order l' = true -> touched m m' (full L l) -> Q tt m') ->
  wp (list_sort less L) Q m.
Proof using Hasym.
  intros Hr Hlen HQ. unfold list_sort. apply wp_bind.
  eapply (wp_loop _ (fun k _ m1 => exists l1, (runs l1 <= k)%nat /\ rep m1 L l1 /\ l1 ≡ₚ l /\
    touched m m1 (full L l))).
  2:{ exists l. by split_and!. }
  2:{ assert (Hb : (runs l <= length l)%nat); [|lia]. clear. induction l as [|a [|b l] IH]; [done..|].
      change (runs (a :: b :: l)) with (if less b a then S (runs (b :: l)) else runs (b :: l)).
      cbn [length] in *. destruct (less b a); lia. }
  intros k [] m1 (l1 & Hk & Hr1 & Ep1 & Ht1). apply wp_bind.
  eapply merge_pass_spec; [exact Hr1|by rewrite (Permutation_length Ep1)|]. intros n l2 m2 Hr2 Ep2 Ht2 Hn1 Hn2 Hn3.
  assert (Ep : l2 ≡ₚ l) by (by rewrite Ep2). assert (Ht : touched m m2 (full L l)).
  { eapply touched_trans; [exact Ht1|]. by eapply (rep_touched m1 m2 L l l1). }
  destruct (Z.ltb_spec 1 (Z.of_nat n)) as [H1|H1]; wp_steps.
  - exists n. split; [lia|]. by exists l2.
  - assert (Ho : in_order l2 = true) by (apply runs_sorted; lia).
    eapply wp_list_begin; [exact Hr2|]. wp_steps.
    unfold list_end. eapply (is_sorted_spec m2 [l_head L] l2 (l_tail L) []); [exact Hr2|by rewrite (Permutation_length Ep)|].
    rewrite Ho. wp_steps; [done|]. by apply (HQ m2 l2).
Qed.
End sort.

(** A list in order for a strict weak order is sorted. *)
Lemma in_order_sorted (less : nat -> nat -> bool)
    (Htrans : forall a b c, less b a = false -> less c b = false -> less c a = false) l :
  in_order less l = true -> StronglySorted (fun a b => less b a = false) l.
Proof.
  intros Ho. apply Sorted_StronglySorted.
  - intros a b c. apply Htrans.
  - induction l as [|a l IH]; constructor; apply in_order_cons in Ho as [Ho Hh].
    + by apply IH.
    + destruct l as [|b l]; constructor. by apply Hh.
Qed.

Lemma sorted_in_order (less : nat -> nat -> bool) l :
  Sorted (fun a b => less b a = false) l -> in_order less l = true.
Proof.
  induction 1 as [|a l _ IH Hh]; [done|]. apply in_order_cons. split; [done|].
  intros b Hb. by destruct Hh; simplify_eq/=.
Qed.

(** C13: [list_sort] terminates and sorts, whatever the list: its elements are
    a permutation of those before, in nondecreasing order, the links are
    those of a proper list again, and no other element of the store is
    touched. [less] has to be a strict weak order. *)
Theorem list_sort_correct (less : nat -> nat -> bool) (m : store) (L : llist) (l : list nat)
    (Hasym : forall a b, less a b = true -> less b a = false)
    (Htrans : forall a b c, less b a = false -> less c b = false -> less c a = false)
    (Hrep : rep m L l) (Hlen : Z.of_nat (length l) < 2 ^ 32) :
  exists m' l', list_sort less L m = Ok (tt, m') /\ rep m' L l' /\ l' ≡ₚ l /\
    StronglySorted (fun a b => less b a = false) l' /\
    forall x, x ∉ full L l -> m' !! x = m !! x.
Proof.
  assert (Hwp : wp (list_sort less L) (fun _ m' => exists l', rep m' L l' /\ l' ≡ₚ l /\
    StronglySorted (fun a b => less b a = false) l' /\ forall x, x ∉ full L l -> m' !! x = m !! x) m).
  - eapply list_sort_spec; [done..|]. intros m' l' Hr Ep Ho [Hs _]. exists l'.
    split_and!; try done. by apply in_order_sorted.
  - apply wp_ok in Hwp as ([] & m' & E & l' & Hl). by exists m', l'.
Qed.

(** A list of four elements, to be sorted by their addresses. *)
Definition demo_list : llist := mkList 1 2.
Definition demo_store : store :=
  {[ 1%nat := mkElem 0 7; 7%nat := mkElem 1 5; 5%nat := mkElem 7 8; 8%nat := mkElem 5 3;
     3%nat := mkElem 8 2; 2%nat := mkElem 3 0; 9%nat := mkElem 4 4 ]}.

Lemma demo_rep : rep demo_store demo_list [7; 5; 8; 3]%nat.
Proof.
  split.
  - repeat split.
  - by intros a [= <-].
  - by intros a [= <-].
  - by apply (bool_decide_unpack _).
  - by apply (bool_decide_unpack _).
Qed.

Lemma list_sort_correct_witness :
  exists m', list_sort Nat.ltb demo_list demo_store = Ok (tt, m') /\
    m' !! 9%nat = demo_store !! 9%nat.
Proof.
  destruct (list_sort_correct Nat.ltb demo_store demo_list [7; 5; 8; 3]%nat) as (m' & l' & E & _ & _ & _ & Hx).
  - intros a b Hab. apply Nat.ltb_lt in Hab. apply Nat.ltb_ge. lia.
  - intros a b c Hab Hbc. apply Nat.ltb_ge in Hab, Hbc. apply Nat.ltb_ge. lia.
  - exact demo_rep.
  - vm_compute. reflexivity.
  - exists m'. split; [exact E|]. apply Hx. by apply (bool_decide_unpack _).
Defined.
End KListSort.
