(* ===== verification/KListOps.v ===== *)
(** The other operations of src/src/lib/kernel/list.c as operations on the
    sequence of elements. *)
From S2P Require Import Prelude KList KListSpec KListSort.
From stdpp Require Import sorting.
From stdpp Require Import options.

#[local] Open Scope Z_scope.

Module KListOps.
Import KList KListSpec KListSort.

Section ops.
Implicit Types (m : store) (L : llist) (l : list nat) (e : nat).

Lemma rep_chain_snoc m L l : rep m L l -> exists A p, l_head L :: l = A ++ [p] /\ chain m (A ++ p :: l_tail L :: []).
Proof.
  intros Hr. destruct (exists_last (l := l_head L :: l)) as (A & p & E); [done|]. exists A, p. split; [done|].
  revert Hr. unfold rep, full. by rewrite app_comm_cons, E, <- app_assoc.
Qed.

Lemma list_init_spec m L (Q : unit -> store -> Prop) :
  is_Some (m !! l_head L) -> is_Some (m !! l_tail L) -> NoDup [l_head L; l_tail L] -> NULL ∉ [l_head L; l_tail L] ->
  (forall m', rep m' L [] -> touched m m' (full L []) -> Q tt m') -> wp (list_init L) Q m.
Proof.
  intros Hh Ht Hnd H0 HQ. assert (Hne : l_head L <> l_tail L).
  { apply NoDup_cons in Hnd as [Hn _]. set_solver. }
  unfold list_init. apply wp_bind, wp_set_prev; [done|]. apply wp_bind, wp_set_next; [by rewrite dom_upd_prev|].
  apply wp_bind, wp_set_prev; [by rewrite dom_upd_next, dom_upd_prev|].
  apply wp_set_next; [by rewrite dom_upd_prev, dom_upd_next, dom_upd_prev|]. apply HQ.
  2:{ repeat first [apply touched_prev; [|set_solver]|apply touched_next; [|set_solver]]. apply touched_refl. }
  split; [|intros a [= <-]|intros a [= <-]|done|done].
  - split; [|done]. split.
    + rewrite nxt_upd_ne, nxt_upd_prev by done. apply nxt_upd_eq. by rewrite dom_upd_prev.
    + rewrite prv_upd_next. apply prv_upd_eq. by rewrite dom_upd_next, dom_upd_prev.
  - rewrite prv_upd_next, prv_upd_ne, prv_upd_next by done. by apply prv_upd_eq.
  - apply nxt_upd_eq. by rewrite dom_upd_prev, dom_upd_next, dom_upd_prev.
Qed.

Lemma list_push_back_spec m L l e (Q : unit -> store -> Prop) :
  rep m L l -> e ∉ full L l -> e <> NULL -> is_Some (m !! e) ->
  (forall m', rep m' L (l ++ [e]) -> touched m m' (e :: full L l) -> Q tt m') ->
  wp (list_push_back L e) Q m.
Proof.
  intros Hr He He0 Hd HQ. destruct (rep_chain_snoc _ _ _ Hr) as (A & p & E & Hc).
  assert (Ef : full L l = A ++ p :: [l_tail L]) by (unfold full; by rewrite app_comm_cons, E, <- app_assoc).
  unfold list_push_back, list_end. eapply wp_list_insert; [exact Hc|by rewrite <- Ef|done|done|].
  intros m' Hc' Ht. apply HQ.
  - unfold rep, full. rewrite <- app_assoc, app_comm_cons, E, <- app_assoc. exact Hc'.
  - eapply touched_mono; [exact Ht|]. rewrite Ef. set_solver.
Qed.

Lemma list_push_front_spec m L l e (Q : unit -> store -> Prop) :
  rep m L l -> e ∉ full L l -> e <> NULL -> is_Some (m !! e) ->
  (forall m', rep m' L (e :: l) -> touched m m' (e :: full L l) -> Q tt m') ->
  wp (list_push_front L e) Q m.
Proof.
  intros Hr He He0 Hd HQ. unfold list_push_front. apply wp_bind. eapply wp_list_begin; [done|].
  destruct (l ++ [l_tail L]) as [|b B] eqn:Eb; [by destruct l|]. change (at_ (b :: B)) with b.
  assert (Hc : chain m ([] ++ l_head L :: b :: B)) by (revert Hr; unfold rep, full; by rewrite Eb).
  eapply wp_list_insert; [exact Hc|revert He; unfold full; by rewrite Eb|done|done|].
  intros m' Hc' Ht. apply HQ.
  - unfold rep, full. cbn. rewrite Eb. exact Hc'.
  - eapply touched_mono; [exact Ht|]. unfold full. rewrite Eb. set_solver.
Qed.

Lemma list_remove_spec m L l1 e l2 (Q : nat -> store -> Prop) :
  rep m L (l1 ++ e :: l2) ->
  (forall m', rep m' L (l1 ++ l2) -> touched m m' (full L (l1 ++ l2)) -> Q (at_ (l2 ++ [l_tail L])) m') ->
  wp (list_remove e) Q m.
Proof.
  intros Hr HQ. destruct (l2 ++ [l_tail L]) as [|b B] eqn:Eb; [by destruct l2|].
  destruct (exists_last (l := l_head L :: l1)) as (A & p & E); [done|].
  assert (Ef : full L (l1 ++ l2) = A ++ p :: b :: B).
  { unfold full. by rewrite <- app_assoc, Eb, app_comm_cons, E, <- app_assoc. }
  eapply (wp_list_remove m A p e b B).
  - revert Hr. unfold rep, full. rewrite <- app_assoc. cbn. rewrite Eb, app_comm_cons, E, <- app_assoc. done.
  - intros m' Hc Ht. apply HQ; [unfold rep; by rewrite Ef|]. eapply touched_mono; [exact Ht|].
    rewrite Ef. set_solver.
Qed.

Lemma wp_list_empty m L l (Q : bool -> store -> Prop) :
  rep m L l -> Q (bool_decide (l = [])) m -> wp (list_empty L) Q m.
Proof.
  intros Hr HQ. unfold list_empty, list_end. apply wp_bind. eapply wp_list_begin; [done|]. wp_steps.
  destruct l as [|a l].
  - change (at_ ([] ++ [l_tail L])) with (l_tail L). by rewrite Nat.eqb_refl.
  - change (at_ ((a :: l) ++ [l_tail L])) with a. by rewrite (chain_ne m [l_head L] a l (l_tail L) []).
Qed.

Lemma list_pop_front_spec m L e l (Q : nat -> store -> Prop) :
  rep m L (e :: l) -> (forall m', rep m' L l -> touched m m' (full L l) -> Q e m') -> wp (list_pop_front L) Q m.
Proof.
  intros Hr HQ. unfold list_pop_front, list_front. apply wp_bind, wp_bind. eapply wp_list_empty; [done|].
  wp_steps; [done|]. eapply wp_next; [by rewrite (chain_next m [] (l_head L) _ Hr)|]. cbn.
  apply wp_bind. eapply (list_remove_spec m L [] e l); [done|]. intros m' Hr' Ht. wp_steps. by apply HQ.
Qed.

Lemma list_pop_back_spec m L l e (Q : nat -> store -> Prop) :
  rep m L (l ++ [e]) -> (forall m', rep m' L l -> touched m m' (full L l) -> Q e m') -> wp (list_pop_back L) Q m.
Proof.
  intros Hr HQ. unfold list_pop_back, list_back. apply wp_bind, wp_bind. eapply wp_list_empty; [done|].
  wp_steps; [by destruct l|].
  assert (Hc : chain m ((l_head L :: l) ++ e :: l_tail L :: [])) by (revert Hr; unfold rep, full; by rewrite <- app_assoc).
  eapply wp_prev; [by apply (chain_link _ _ _ _ _ Hc)|]. apply wp_bind.
  eapply (list_remove_spec m L l e []); [done|]. rewrite app_nil_r. intros m' Hr' Ht. wp_steps. by apply HQ.
Qed.

Lemma list_size_spec m L l (Q : Z -> store -> Prop) :
  rep m L l -> Z.of_nat (length l) < 2 ^ 32 -> Q (Z.of_nat (length l)) m -> wp (list_size L) Q m.
Proof.
  intros Hr Hlen HQ. unfold list_size, list_end. apply wp_bind. eapply wp_list_begin; [done|].
  eapply (wp_loop _ (fun k '(e, cnt) m1 => exists l1 l2, l = l1 ++ l2 /\ k = length l2 /\
    e = at_ (l2 ++ [l_tail L]) /\ cnt = Z.of_nat (length l1) /\ m1 = m)).
  2:{ by exists [], l. }
  2:{ lia. }
  intros k [e cnt] m1 (l1 & l2 & -> & -> & -> & -> & ->). destruct l2 as [|x l2].
  - change (at_ ([] ++ [l_tail L])) with (l_tail L). rewrite Nat.eqb_refl. wp_steps. by rewrite app_nil_r in HQ.
  - change (at_ ((x :: l2) ++ [l_tail L])) with x.
    assert (Hc : chain m ((l_head L :: l1) ++ x :: l2 ++ [l_tail L])).
    { revert Hr. unfold rep, full. by rewrite <- app_assoc. }
    rewrite (chain_ne _ _ _ _ _ _ Hc). destruct (l2 ++ [l_tail L]) as [|y D] eqn:Ey; [by destruct l2|].
    apply wp_bind. eapply wp_list_next; [exact Hc|]. wp_steps. rewrite length_app in Hlen. cbn [length] in Hlen.
    exists (length l2). split; [cbn; lia|]. exists (l1 ++ [x]), l2. rewrite Ey, <- app_assoc, length_app.
    split_and!; try done. rewrite u32_small by lia. cbn. lia.
Qed.
End ops.

(** * Inserting in order *)

Lemma list_insert_ordered_spec (less : nat -> nat -> bool) m L l e (Q : unit -> store -> Prop) :
  rep m L l -> e ∉ full L l -> e <> NULL -> is_Some (m !! e) -> Z.of_nat (length l) < 2 ^ 32 ->
  (forall m' l1 l2, l = l1 ++ l2 -> Forall (fun x => less e x = false) l1 ->
     (forall y, head l2 = Some y -> less e y = true) ->
     rep m' L (l1 ++ e :: l2) -> touched m m' (e :: full L l) -> Q tt m') ->
  wp (list_insert_ordered less L e) Q m.
Proof.
  intros Hr He He0 Hd Hlen HQ. unfold list_insert_ordered, list_end.
  wp_steps; [by apply negb_true_iff, Nat.eqb_neq|]. eapply wp_list_begin; [done|]. apply wp_bind.
  apply (wp_mono _ (fun e1 m1 => m1 = m /\ exists l1 l2, l = l1 ++ l2 /\ e1 = at_ (l2 ++ [l_tail L]) /\
    Forall (fun x => less e x = false) l1 /\ (forall y, head l2 = Some y -> less e y = true))).
  - eapply (wp_loop _ (fun k e1 m1 => exists l1 l2, l = l1 ++ l2 /\ k = length l2 /\
      e1 = at_ (l2 ++ [l_tail L]) /\ m1 = m /\ Forall (fun x => less e x = false) l1)).
    2:{ by exists [], l. }
    2:{ lia. }
    intros k e1 m1 (l1 & l2 & -> & -> & -> & -> & Hl1). destruct l2 as [|x l2].
    + change (at_ ([] ++ [l_tail L])) with (l_tail L). rewrite Nat.eqb_refl. wp_steps. split; [done|].
      by exists l1, [].
    + change (at_ ((x :: l2) ++ [l_tail L])) with x.
      assert (Hc : chain m ((l_head L :: l1) ++ x :: l2 ++ [l_tail L])).
      { revert Hr. unfold rep, full. by rewrite <- app_assoc. }
      rewrite (chain_ne _ _ _ _ _ _ Hc). destruct (less e x) eqn:Ex.
      * wp_steps. split; [done|]. exists l1, (x :: l2). split_and!; try done. by intros y [= <-].
      * destruct (l2 ++ [l_tail L]) as [|y D] eqn:Ey; [by destruct l2|].
        apply wp_bind. eapply wp_list_next; [exact Hc|]. wp_steps. exists (length l2). split; [cbn; lia|].
        exists (l1 ++ [x]), l2. rewrite Ey, <- app_assoc. split_and!; try done.
        apply Forall_app. split; [done|]. by constructor.
  - intros e1 m1 (-> & l1 & l2 & -> & -> & Hl1 & Hl2).
    destruct (l2 ++ [l_tail L]) as [|b B] eqn:Eb; [by destruct l2|]. change (at_ (b :: B)) with b.
    destruct (exists_last (l := l_head L :: l1)) as (A & p & E); [done|].
    assert (Ef : full L (l1 ++ l2) = A ++ p :: b :: B).
    { unfold full. by rewrite <- app_assoc, Eb, app_comm_cons, E, <- app_assoc. }
    eapply (wp_list_insert m A p b B e); [unfold rep in Hr; by rewrite Ef in Hr|by rewrite <- Ef|done|done|].
    intros m' Hc Ht. apply (HQ m' l1 l2); try done.
    + unfold rep, full. rewrite <- app_assoc. cbn. rewrite Eb, app_comm_cons, E, <- app_assoc. exact Hc.
    + eapply touched_mono; [exact Ht|]. rewrite Ef. set_solver.
Qed.

(** * Reversal *)

Definition flip (x : list_elem) : list_elem := mkElem (e_next x) (e_prev x).

Lemma linked_rev (m : store) (l : list nat) :
  (forall a b ys zs, l = ys ++ a :: b :: zs -> link m b a) -> linked m (rev l).
Proof.
  induction l as [|x l IH]; intros Hl; [done|]. cbn. apply linked_append. split; [|split; [done|]].
  - apply IH. intros a b ys zs ->. by apply (Hl a b (x :: ys) zs).
  - intros a b Ha [= <-]. destruct l as [|y l]; [done|]. cbn in Ha. rewrite last_snoc in Ha.
    injection Ha as <-. by apply (Hl x y [] l).
Qed.

(** The loop flips the links of every element. *)
Lemma reverse_loop_spec m L l (Q : unit -> store -> Prop) :
  rep m L l -> Z.of_nat (length l) < 2 ^ 32 ->
  (forall m', (forall x, m' !! x = if bool_decide (x ∈ l) then flip <$> m !! x else m !! x) -> Q tt m') ->
  wp (loop (fun e => if (e =? list_end L)%nat then ret (inr tt)
                     else swap_links e;;; let! e := prev e in ret (inl e)) (at_ (l ++ [l_tail L]))) Q m.
Proof.
  intros Hr Hlen HQ. unfold list_end.
  eapply (wp_loop _ (fun k e m1 => exists l1 l2, l = l1 ++ l2 /\ k = length l2 /\ e = at_ (l2 ++ [l_tail L]) /\
    forall x, m1 !! x = if bool_decide (x ∈ l1) then flip <$> m !! x else m !! x)).
  2:{ by exists [], l. }
  2:{ lia. }
  intros k e m1 (l1 & l2 & -> & -> & -> & Hm). destruct l2 as [|x l2].
  { change (at_ ([] ++ [l_tail L])) with (l_tail L). rewrite Nat.eqb_refl. wp_steps. apply HQ.
    by rewrite app_nil_r. }
  change (at_ ((x :: l2) ++ [l_tail L])) with x.
  assert (Hc : chain m ((l_head L :: l1) ++ x :: l2 ++ [l_tail L])).
  { revert Hr. unfold rep, full. by rewrite <- app_assoc. }
  rewrite (chain_ne _ _ _ _ _ _ Hc). pose proof (chain_next _ _ _ _ Hc) as Hn. fold (at_ (l2 ++ [l_tail L])) in Hn.
  pose proof (chain_prev _ _ _ _ Hc) as Hp. set (px := default NULL (last (l_head L :: l1))) in *.
  pose proof (lookup_links _ _ _ _ Hn Hp) as Hx.
  assert (Hnx : x ∉ l1) by (apply chain_notin in Hc as [H1 _]; set_solver).
  assert (Hm1 : m1 !! x = Some (mkElem px (at_ (l2 ++ [l_tail L])))) by (rewrite Hm, bool_decide_eq_false_2 by done; done).
  unfold swap_links. apply wp_bind, wp_bind. eapply wp_prev; [by unfold prv; rewrite Hm1|].
  apply wp_bind. eapply wp_next; [by unfold nxt; rewrite Hm1|].
  apply wp_bind, wp_set_prev; [by eexists|]. apply wp_set_next; [by rewrite dom_upd_prev; eexists|].
  apply wp_bind. eapply wp_prev; [rewrite prv_upd_next; apply prv_upd_eq; by eexists|]. wp_steps.
  exists (length l2). split; [cbn; lia|]. exists (l1 ++ [x]), l2. rewrite <- app_assoc. split_and!; try done.
  intros y. unfold upd_next, upd_prev. destruct (decide (y = x)) as [->|Hne].
  - rewrite !lookup_alter_eq, Hm1. rewrite bool_decide_eq_true_2 by set_solver. by rewrite Hx.
  - rewrite !lookup_alter_ne, Hm by done. by rewrite (bool_decide_ext (y ∈ l1) (y ∈ l1 ++ [x])) by set_solver.
Qed.

(** With every element flipped, the two ends are rejoined. *)
Lemma reverse_chain m m2 L l f z :
  rep m L l -> head l = Some f -> last l = Some z ->
  (forall x, x ∈ l -> x <> f -> nxt m2 x = prv m x) -> (forall x, x ∈ l -> x <> z -> prv m2 x = nxt m x) ->
  nxt m2 (l_head L) = Some z -> prv m2 z = Some (l_head L) ->
  prv m2 (l_tail L) = Some f -> nxt m2 f = Some (l_tail L) ->
  prv m2 (l_head L) = prv m (l_head L) -> nxt m2 (l_tail L) = nxt m (l_tail L) ->
  rep m2 L (rev l).
Proof.
  intros Hr Hf Hz Hn Hp H1 H2 H3 H4 H5 H6. pose proof (ch_nodup _ _ Hr) as Hnd.
  assert (Hnl : NoDup l) by (unfold full in Hnd; by apply NoDup_cons in Hnd as [_ [Hnd _]%NoDup_app]).
  assert (Erev : head (rev l) = Some z /\ last (rev l) = Some f).
  { apply last_Some in Hz as [l' El]. rewrite El at 1. rewrite rev_app_distr. split; [done|].
    destruct l as [|a l]; [done|]. injection Hf as ->. cbn. apply last_snoc. }
  destruct Erev as [Eh El]. split.
  - unfold full. rewrite app_comm_cons. apply linked_append. split; [|split; [done|]].
    + change (l_head L :: rev l) with ([l_head L] ++ rev l). apply linked_append. split; [done|]. split.
      * apply linked_rev. intros a b ys zs E. pose proof (ch_linked _ _ Hr) as Hl. unfold full in Hl.
        rewrite E, <- app_assoc in Hl.
        apply (linked_mid m (l_head L :: ys) a b) in Hl as (_ & [L1 L2] & _). rewrite E in Hnl.
        apply NoDup_app in Hnl as (_ & Hd & [Ha _]%NoDup_cons). split.
        -- rewrite Hn; [done|rewrite E; set_solver|]. intros ->. rewrite E in Hf. destruct ys; cbn in Hf; [set_solver|].
           injection Hf as ->. apply (Hd f); set_solver.
        -- rewrite Hp; [done|rewrite E; set_solver|]. intros ->. rewrite E, last_app_cons, last_cons_cons in Hz.
           apply last_Some_elem_of in Hz. done.
      * intros a b [= <-] Hb. assert (b = z) as -> by congruence. done.
    + intros a b Ha [= <-]. rewrite last_cons, El in Ha. injection Ha as <-. done.
  - intros a [= <-]. rewrite H5. by apply (ch_head _ _ Hr).
  - intros a. unfold full. rewrite app_comm_cons, last_snoc. intros [= <-]. rewrite H6.
    apply (ch_tail _ _ Hr). unfold full. by rewrite app_comm_cons, last_snoc.
  - unfold full in *. eapply NoDup_Permutation_proper; [|exact Hnd]. by rewrite <- Permutation_rev.
  - pose proof (ch_null _ _ Hr) as H0. unfold full in *. rewrite elem_of_cons, elem_of_app, <- Permutation_rev.
    rewrite elem_of_cons, elem_of_app in H0. done.
Qed.

(** The two swaps after the loop. *)
Lemma reverse_ends_spec m m1 L l f z (Q : unit -> store -> Prop) :
  rep m L l -> head l = Some f -> last l = Some z ->
  (forall x, m1 !! x = if bool_decide (x ∈ l) then flip <$> m !! x else m !! x) ->
  (forall m', rep m' L (rev l) -> touched m1 m' (full L l) -> Q tt m') ->
  wp ((let! n := next (l_head L) in let! p := prev (l_tail L) in
       set_next (l_head L) p;;; set_prev (l_tail L) n);;;
      (let! a := next (l_head L) in let! b := prev (l_tail L) in
       let! p := prev a in let! n := next b in
       set_prev a n;;; set_next b p)) Q m1.
Proof.
  intros Hr Hf Hz Hm1 HQ.
  pose proof (head_Some_elem_of _ _ Hf) as Hfin. pose proof (last_Some_elem_of _ _ Hz) as Hzin.
  pose proof (ch_nodup _ _ Hr) as Hnd. unfold full in Hnd. apply NoDup_cons in Hnd as [Hh (Hnl & Hdt & _)%NoDup_app].
  assert (Hhl : l_head L ∉ l) by set_solver. assert (Htl : l_tail L ∉ l) by (intros Ht; apply (Hdt _ Ht); set_solver).
  assert (Hht : l_head L <> l_tail L) by set_solver.
  assert (Hnh : nxt m (l_head L) = Some f).
  { destruct l as [|x l1]; [done|]. injection Hf as ->. apply (chain_link m [] (l_head L) f (l1 ++ [l_tail L]) Hr). }
  assert (Hpt : prv m (l_tail L) = Some z).
  { change (chain m ((l_head L :: l) ++ [l_tail L])) in Hr. rewrite (chain_prev _ _ _ _ Hr), last_cons, Hz. done. }
  assert (Hpf : prv m f = Some (l_head L)).
  { destruct l as [|x l1]; [done|]. injection Hf as ->. apply (chain_link m [] (l_head L) f (l1 ++ [l_tail L]) Hr). }
  assert (Hnz : nxt m z = Some (l_tail L)).
  { apply last_Some in Hz as [l' E']. rewrite E' in Hr. unfold rep, full in Hr. rewrite <- app_assoc in Hr.
    apply (chain_link m (l_head L :: l') z (l_tail L) [] Hr). }
  assert (N1 : forall x, x ∈ l -> nxt m1 x = prv m x)
    by (intros x Hx; unfold nxt, prv; rewrite Hm1, bool_decide_eq_true_2 by done; by destruct (m !! x)).
  assert (P1 : forall x, x ∈ l -> prv m1 x = nxt m x)
    by (intros x Hx; unfold nxt, prv; rewrite Hm1, bool_decide_eq_true_2 by done; by destruct (m !! x)).
  assert (N2 : forall x, x ∉ l -> nxt m1 x = nxt m x)
    by (intros x Hx; unfold nxt; by rewrite Hm1, bool_decide_eq_false_2).
  assert (P2 : forall x, x ∉ l -> prv m1 x = prv m x)
    by (intros x Hx; unfold prv; by rewrite Hm1, bool_decide_eq_false_2).
  assert (Nzt : z <> l_tail L) by (intros ->; done). assert (Nfh : f <> l_head L) by (intros ->; done).
  assert (Nzh : z <> l_head L) by (intros ->; done). assert (Nft : f <> l_tail L) by (intros ->; done).
  assert (Dh : is_Some (m1 !! l_head L)) by (eapply nxt_dom; by rewrite N2).
  assert (Dt : is_Some (m1 !! l_tail L)) by (eapply prv_dom; by rewrite P2).
  assert (Dz : is_Some (m1 !! z)) by (eapply prv_dom; by rewrite P1).
  assert (Df : is_Some (m1 !! f)) by (eapply nxt_dom; by rewrite N1).
  apply wp_bind, wp_bind. eapply wp_next; [by rewrite N2|]. apply wp_bind. eapply wp_prev; [by rewrite P2|].
  apply wp_bind, wp_set_next; [done|]. apply wp_set_prev; [by rewrite dom_upd_next|].
  apply wp_bind. eapply wp_next; [rewrite nxt_upd_prev; by apply nxt_upd_eq|].
  apply wp_bind. eapply wp_prev; [apply prv_upd_eq; by rewrite dom_upd_next|].
  apply wp_bind. eapply wp_prev; [by rewrite prv_upd_ne, prv_upd_next, P1|].
  apply wp_bind. eapply wp_next; [by rewrite nxt_upd_prev, nxt_upd_ne, N1|].
  apply wp_bind, wp_set_prev; [by rewrite dom_upd_prev, dom_upd_next|].
  apply wp_set_next; [by rewrite !dom_upd_prev, dom_upd_next|]. apply HQ.
  2:{ unfold full. repeat first [apply touched_prev; [|set_solver]|apply touched_next; [|set_solver]]. apply touched_refl. }
  apply (reverse_chain m _ L l f z); try done.
  - intros x Hx Hne. rewrite nxt_upd_ne, !nxt_upd_prev, nxt_upd_ne by (done || by intros ->). by apply N1.
  - intros x Hx Hne. rewrite prv_upd_next, prv_upd_ne, prv_upd_ne, prv_upd_next by (done || by intros ->). by apply P1.
  - rewrite nxt_upd_ne, !nxt_upd_prev by done. by apply nxt_upd_eq.
  - rewrite prv_upd_next. apply prv_upd_eq. by rewrite dom_upd_prev, dom_upd_next.
  - rewrite prv_upd_next, prv_upd_ne by done. apply prv_upd_eq. by rewrite dom_upd_next.
  - apply nxt_upd_eq. by rewrite !dom_upd_prev, dom_upd_next.
  - rewrite prv_upd_next, !prv_upd_ne, prv_upd_next by done. by apply P2.
  - rewrite nxt_upd_ne, !nxt_upd_prev, nxt_upd_ne by done. by apply N2.
Qed.

(** [list_reverse] reverses the list in place and touches no other
    element. *)
Theorem list_reverse_correct (m : store) (L : llist) (l : list nat)
    (Hrep : rep m L l) (Hlen : Z.of_nat (length l) < 2 ^ 32) :
  exists m', list_reverse L m = Ok (tt, m') /\ rep m' L (rev l) /\
    forall x, x ∉ full L l -> m' !! x = m !! x.
Proof.
  cut (wp (list_reverse L) (fun _ m' => rep m' L (rev l) /\ forall x, x ∉ full L l -> m' !! x = m !! x) m).
  { intros Hwp. apply wp_ok in Hwp as ([] & m' & E & Hm). by exists m'. }
  unfold list_reverse. apply wp_bind. eapply wp_list_empty; [done|]. destruct (head l) as [f|] eqn:Hf.
  2:{ destruct l; [|done]. by wp_steps. }
  destruct (last l) as [z|] eqn:Hz; [|apply last_None in Hz; by subst].
  rewrite bool_decide_eq_false_2 by (by intros ->). apply wp_bind. eapply wp_list_begin; [done|].
  apply wp_bind. apply reverse_loop_spec; [done..|]. intros m1 Hm1.
  eapply reverse_ends_spec; [done..|]. intros m2 Hr2 [Hs _]. split; [done|]. intros x Hx.
  rewrite Hs, Hm1, bool_decide_eq_false_2; [done| |done]. unfold full in Hx. set_solver.
Qed.

Lemma list_reverse_correct_witness :
  exists m', list_reverse demo_list demo_store = Ok (tt, m') /\ rep m' demo_list [3; 8; 5; 7]%nat.
Proof.
  destruct (list_reverse_correct demo_store demo_list [7; 5; 8; 3]%nat) as (m' & E & Hr & _).
  - exact demo_rep.
  - vm_compute. reflexivity.
  - exists m'. split; [exact E|exact Hr].
Defined.

(** Inserting in order into a sorted list gives a sorted list with the
    element added, after the elements that are not greater. *)
Theorem list_insert_ordered_correct (less : nat -> nat -> bool) (m : store) (L : llist) (l : list nat) (e : nat)
    (Hasym : forall a b, less a b = true -> less b a = false)
    (Htrans : forall a b c, less b a = false -> less c b = false -> less c a = false)
    (Hrep : rep m L l) (Hsorted : StronglySorted (fun a b => less b a = false) l)
    (He : e ∉ full L l) (He0 : e <> NULL) (Hd : is_Some (m !! e)) (Hlen : Z.of_nat (length l) < 2 ^ 32) :
  exists m' l1 l2, list_insert_ordered less L e m = Ok (tt, m') /\ l = l1 ++ l2 /\ rep m' L (l1 ++ e :: l2) /\
    StronglySorted (fun a b => less b a = false) (l1 ++ e :: l2) /\ Forall (fun x => less e x = false) l1.
Proof.
  cut (wp (list_insert_ordered less L e) (fun _ m' => exists l1 l2, l = l1 ++ l2 /\ rep m' L (l1 ++ e :: l2) /\
    StronglySorted (fun a b => less b a = false) (l1 ++ e :: l2) /\ Forall (fun x => less e x = false) l1) m).
  { intros Hwp. apply wp_ok in Hwp as ([] & m' & E & l1 & l2 & Hm). by exists m', l1, l2. }
  eapply list_insert_ordered_spec; [done..|]. intros m' l1 l2 -> H1 H2 Hr _. exists l1, l2. split_and!; try done.
  apply in_order_sorted; [done|]. apply StronglySorted_Sorted, sorted_in_order in Hsorted.
  apply in_order_app in Hsorted as (O1 & O2 & _). apply in_order_app. split; [done|]. split.
  - apply in_order_cons. split; [done|]. intros y Hy. by apply Hasym, H2.
  - intros a b Ha [= <-]. rewrite Forall_forall in H1. apply H1. by apply last_Some_elem_of.
Qed.

Lemma list_insert_ordered_correct_witness :
  exists m' l1 l2, list_insert_ordered (fun a b => false) demo_list 9 demo_store = Ok (tt, m') /\
    [7; 5; 8; 3]%nat = l1 ++ l2 /\ rep m' demo_list (l1 ++ 9%nat :: l2).
Proof.
  destruct (list_insert_ordered_correct (fun a b => false) demo_store demo_list [7; 5; 8; 3]%nat 9%nat)
    as (m' & l1 & l2 & E & El & Hr & _).
  - intros a b Hab. discriminate.
  - reflexivity.
  - exact demo_rep.
  - repeat constructor.
  - by apply (bool_decide_unpack _).
  - discriminate.
  - vm_compute. by eexists.
  - vm_compute. reflexivity.
  - exists m', l1, l2. split; [exact E|]. split; [exact El|exact Hr].
Defined.

(** * Maximum and minimum *)

Section extremum.
Context (better : nat -> nat -> bool).

Definition extremum (x : nat) (l : list nat) : nat :=
  fold_left (fun best e => if better best e then e else best) l x.

(** The loop that [list_max] and [list_min] share. *)
Lemma extremum_loop_spec m L l1 x l2 best (Q : nat -> store -> Prop) :
  rep m L (l1 ++ x :: l2) -> Z.of_nat (length l2) < 2 ^ 32 -> Q (extremum best l2) m ->
  wp (let! e := list_next x in
      loop (fun '(e, best) =>
        if (e =? list_end L)%nat then ret (inr best)
        else let best' := if better best e then e else best in
             let! e := list_next e in ret (inl (e, best'))) (e, best)) Q m.
Proof using Type.
  intros Hr Hlen HQ. unfold list_end.
  assert (Hc : forall l1 x l2, rep m L (l1 ++ x :: l2) -> chain m ((l_head L :: l1) ++ x :: l2 ++ [l_tail L])).
  { intros k1 y k2 Hk. revert Hk. unfold rep, full. by rewrite <- app_assoc. }
  assert (Hnext : forall l1 x l2 (R : nat -> store -> Prop), rep m L (l1 ++ x :: l2) ->
    R (at_ (l2 ++ [l_tail L])) m -> wp (list_next x) R m).
  { intros k1 y k2 R Hk HR. pose proof (Hc _ _ _ Hk) as Hck.
    destruct (k2 ++ [l_tail L]) as [|z D] eqn:Ez; [by destruct k2|]. by eapply wp_list_next. }
  apply wp_bind. eapply Hnext; [done|].
  eapply (wp_loop _ (fun k '(e, b) m1 => exists k1 k2, l1 ++ x :: l2 = k1 ++ k2 /\ k = length k2 /\
    e = at_ (k2 ++ [l_tail L]) /\ m1 = m /\ extremum b k2 = extremum best l2)).
  2:{ exists (l1 ++ [x]), l2. by rewrite <- app_assoc. }
  2:{ lia. }
  intros k [e b] m1 (k1 & k2 & E & -> & -> & -> & Eb). destruct k2 as [|y k2].
  - change (at_ ([] ++ [l_tail L])) with (l_tail L). rewrite Nat.eqb_refl. wp_steps. by rewrite <- Eb in HQ.
  - change (at_ ((y :: k2) ++ [l_tail L])) with y. rewrite E in Hr. rewrite (chain_ne _ _ _ _ _ _ (Hc _ _ _ Hr)).
    apply wp_bind. eapply Hnext; [done|]. wp_steps. exists (length k2). split; [cbn; lia|].
    exists (k1 ++ [y]), k2. rewrite <- app_assoc. by split_and!.
Qed.

Lemma extremum_best (Htrans : forall a b c, better a b = false -> better b c = false -> better a c = false)
    (Hasym : forall a b, better a b = true -> better b a = false) l : forall x,
  (extremum x l ∈ x :: l) /\ Forall (fun y => better (extremum x l) y = false) (x :: l).
Proof using Type.
  induction l as [|y l IH]; intros x.
  - split; [left|]. constructor; [|done]. cbn. destruct (better x x) eqn:E; [|done]. by rewrite Hasym in E.
  - change (extremum x (y :: l)) with (extremum (if better x y then y else x) l).
    destruct (IH (if better x y then y else x)) as [H1 H2]. apply Forall_cons in H2 as [H2 H3].
    destruct (better x y) eqn:E.
    + split; [by right|]. constructor; [eapply Htrans; [exact H2|]; by apply Hasym|by constructor].
    + split; [set_solver|]. constructor; [done|]. constructor; [by eapply Htrans|done].
Qed.
End extremum.

(** [list_max] returns an element that no other exceeds, and [list_min]
    one that no other is below; of an empty list both return the tail. *)
Theorem list_max_min_correct (less : nat -> nat -> bool) (m : store) (L : llist) (l : list nat)
    (Hasym : forall a b, less a b = true -> less b a = false)
    (Htrans : forall a b c, less b a = false -> less c b = false -> less c a = false)
    (Hrep : rep m L l) (Hlen : Z.of_nat (length l) < 2 ^ 32) :
  exists mx mn, list_max less L m = Ok (mx, m) /\ list_min less L m = Ok (mn, m) /\
    match l with
    | [] => mx = l_tail L /\ mn = l_tail L
    | _ => (mx ∈ l) /\ (mn ∈ l) /\ Forall (fun x => less mx x = false) l /\ Forall (fun x => less x mn = false) l
    end.
Proof.
  destruct l as [|x l].
  { exists (l_tail L), (l_tail L). split_and!; try done.
    - cut (wp (list_max less L) (fun r m' => r = l_tail L /\ m' = m) m).
      + intros Hwp. by apply wp_ok in Hwp as (r & m' & E & -> & ->).
      + unfold list_max, list_end. apply wp_bind. eapply wp_list_begin; [done|].
        change (at_ ([] ++ [l_tail L])) with (l_tail L). rewrite Nat.eqb_refl. by wp_steps.
    - cut (wp (list_min less L) (fun r m' => r = l_tail L /\ m' = m) m).
      + intros Hwp. by apply wp_ok in Hwp as (r & m' & E & -> & ->).
      + unfold list_min, list_end. apply wp_bind. eapply wp_list_begin; [done|].
        change (at_ ([] ++ [l_tail L])) with (l_tail L). rewrite Nat.eqb_refl. by wp_steps. }
  pose proof (chain_ne m [l_head L] x l (l_tail L) [] Hrep) as Hne. cbn [length] in Hlen.
  exists (extremum less x l), (extremum (fun a b => less b a) x l). split_and!.
  - cut (wp (list_max less L) (fun r m' => r = extremum less x l /\ m' = m) m).
    + intros Hwp. by apply wp_ok in Hwp as (r & m' & E & -> & ->).
    + unfold list_max. apply wp_bind. eapply wp_list_begin; [done|].
      change (at_ ((x :: l) ++ [l_tail L])) with x. unfold list_end at 1. rewrite Hne. cbn [negb].
      apply (extremum_loop_spec less m L [] x l); [done|lia|done].
  - cut (wp (list_min less L) (fun r m' => r = extremum (fun a b => less b a) x l /\ m' = m) m).
    + intros Hwp. by apply wp_ok in Hwp as (r & m' & E & -> & ->).
    + unfold list_min. apply wp_bind. eapply wp_list_begin; [done|].
      change (at_ ((x :: l) ++ [l_tail L])) with x. unfold list_end at 1. rewrite Hne. cbn [negb].
      apply (extremum_loop_spec (fun a b => less b a) m L [] x l); [done|lia|done].
  - apply extremum_best; [|done]. intros a b c H1 H2. by eapply Htrans.
  - apply extremum_best; [|]; [intros a b c H1 H2; by eapply Htrans|]. intros a b. apply Hasym.
  - apply extremum_best; [|done]. intros a b c H1 H2. by eapply Htrans.
  - apply (extremum_best (fun a b => less b a)); [intros a b c H1 H2; by eapply Htrans|]. intros a b. apply Hasym.
Qed.
End KListOps.

(** Families of lists in one store: what an operation on one list leaves of
    the others. *)

Module KListFam.
Import KList KListSpec KListSort.

Abbreviation family := (list (llist * list nat)).
Implicit Types (m : store) (F : family) (L : llist) (l : list nat) (e i : nat).

(** All elements, headers too. *)
Definition chains F : list nat := F ≫= (fun x => full x.1 x.2).

Definition fam m F : Prop := NoDup (chains F) /\ forall i L l, F !! i = Some (L, l) -> rep m L l.

(** Walking over a list. *)
Lemma rep_ne m L l1 x l2 : rep m L (l1 ++ x :: l2) -> (x =? l_tail L)%nat = false.
Proof. intros Hr. eapply (chain_ne m (l_head L :: l1) x l2 (l_tail L) []). revert Hr. unfold rep, full. by rewrite <- app_assoc. Qed.

Lemma rep_next m L l1 x l2 (Q : nat -> store -> Prop) : rep m L (l1 ++ x :: l2) -> Q (at_ (l2 ++ [l_tail L])) m ->
  wp (list_next x) Q m.
Proof.
  intros Hr HQ. destruct (l2 ++ [l_tail L]) as [|y D] eqn:Ey; [by destruct l2|].
  eapply (wp_list_next m (l_head L :: l1) x y D); [|done]. revert Hr. unfold rep, full. rewrite <- app_assoc. cbn. by rewrite Ey.
Qed.

Lemma rep_full m L l x : rep m L l -> x ∈ full L l -> x <> NULL /\ is_Some (m !! x).
Proof.
  unfold rep. intros Hr (l1 & l2 & E)%list_elem_of_split. rewrite E in Hr.
  split; [by eapply chain_nonnull|]. pose proof (chain_next _ _ _ _ Hr) as Hn. unfold nxt in Hn. by destruct (m !! x).
Qed.

Lemma rep_frame m m' L l : rep m L l ->
  (forall e, e ∈ full L l -> m' !! e = m !! e) -> rep m' L l.
Proof.
  intros [K1 K2 K3 K4 K5] Hm. split; try done.
  - eapply linked_frame; [|exact K1]. intros u v ys zs E. unfold nxt, prv.
    rewrite !Hm by (rewrite E; set_solver). done.
  - intros u Hu. unfold prv. rewrite Hm by by apply head_Some_elem_of. by apply K2.
  - intros u Hu. unfold nxt. rewrite Hm by by apply last_Some_elem_of. by apply K3.
Qed.

Lemma full_perm L l : full L l ≡ₚ l_head L :: l_tail L :: l.
Proof. unfold full. rewrite Permutation_app_comm. cbn. apply perm_swap || done. Qed.

Lemma elem_of_full L l e : e ∈ full L l <-> e = l_head L \/ e = l_tail L \/ e ∈ l.
Proof. unfold full. set_solver. Qed.

Lemma elem_of_chains F e : e ∈ chains F <-> exists i L l, F !! i = Some (L, l) /\ e ∈ full L l.
Proof.
  unfold chains. rewrite list_elem_of_bind. split.
  - intros ([L l] & He & Hx). apply list_elem_of_lookup in Hx as [i Hi]. by exists i, L, l.
  - intros (i & L & l & Hi & He). exists (L, l). split; [done|]. by eapply list_elem_of_lookup_2.
Qed.

Lemma chains_app F F' : chains (F ++ F') = chains F ++ chains F'.
Proof. apply bind_app. Qed.

Lemma chains_insert F i L l l' : F !! i = Some (L, l) -> chains (<[i := (L, l')]> F) ++ l ≡ₚ chains F ++ l'.
Proof.
  intros Hi. destruct (list_elem_of_split_length F i (L, l) Hi) as (F1 & F2 & -> & Hn).
  rewrite insert_app_r_alt by lia. rewrite Hn, Nat.sub_diag. cbn. rewrite !chains_app.
  change (chains ((L, l') :: F2)) with (full L l' ++ chains F2). change (chains ((L, l) :: F2)) with (full L l ++ chains F2).
  rewrite !full_perm. solve_Permutation.
Qed.

(** No element is in two lists, or twice in one. *)
Lemma chains_elems_nodup F : NoDup (chains F) -> NoDup (concat F.*2).
Proof.
  induction F as [|[L l] F IH]; [done|]. change (chains ((L, l) :: F)) with (full L l ++ chains F). rewrite NoDup_app.
  intros (H1 & H2 & H3). cbn. apply NoDup_app. split_and!; [|intros e He He'; apply (H2 e); [apply elem_of_full; tauto|]|by apply IH].
  - rewrite full_perm in H1. by apply NoDup_cons in H1 as [_ [_ H1]%NoDup_cons].
  - clear -He'. induction F as [|[K k] F IH]; [done|]. change (chains ((K, k) :: F)) with (full K k ++ chains F). cbn in He'.
    apply elem_of_app in He' as [He'|He']; apply elem_of_app; [left; apply elem_of_full; tauto|right; by apply IH].
Qed.

Lemma fam_apart m F i j L l L' l' e : fam m F -> F !! i = Some (L, l) -> F !! j = Some (L', l') -> i <> j ->
  e ∈ full L l -> e ∉ full L' l'.
Proof.
  intros [Hnd _]. revert i j. induction F as [|[K k] F IH]; intros i j Hi Hj Hne He He'; [done|].
  change (chains ((K, k) :: F)) with (full K k ++ chains F) in Hnd. apply NoDup_app in Hnd as (_ & Hx & Hnd).
  destruct i as [|i], j as [|j]; cbn in Hi, Hj; simplify_eq.
  - apply (Hx e); [done|]. apply elem_of_chains. by exists j, L', l'.
  - apply (Hx e); [done|]. apply elem_of_chains. by exists i, L, l.
  - apply (IH Hnd i j); (done || congruence).
Qed.

(** One list of the family changes. *)
Lemma fam_update m m' F i L l l' X : fam m F -> F !! i = Some (L, l) -> rep m' L l' -> touched m m' X ->
  (forall e, e ∈ X -> (e ∈ full L l) \/ (e ∉ chains F)) -> NoDup (chains (<[i := (L, l')]> F)) ->
  fam m' (<[i := (L, l')]> F).
Proof.
  intros Hf Hi Hr Hto HX Hnd. split; [done|]. intros j L1 l1 Hj. destruct (decide (j = i)) as [->|Hne].
  - rewrite list_lookup_insert_eq in Hj by (by eapply lookup_lt_Some). by simplify_eq.
  - rewrite list_lookup_insert_ne in Hj by done. pose proof Hf as [_ Hrep]. eapply chain_touched; [by eapply Hrep|exact Hto|].
    intros e He He1. destruct (HX e He) as [He2|He2]; [by eapply (fam_apart m F j i)|].
    apply He2, elem_of_chains. by exists j, L1, l1.
Qed.

(** [F'] has other elements than [F] only in the list [i]. *)
Lemma fam_push_front m F i L l e (Q : unit -> store -> Prop) : fam m F -> F !! i = Some (L, l) ->
  e ∉ chains F -> e <> NULL -> is_Some (m !! e) ->
  (forall m', fam m' (<[i := (L, e :: l)]> F) -> touched m m' (e :: full L l) -> Q tt m') ->
  wp (list_push_front L e) Q m.
Proof.
  intros Hf Hi He H0 Hd HQ. pose proof Hf as [Hnd Hrep]. eapply KListOps.list_push_front_spec; [by eapply Hrep| |done|done|].
  { intros He'. apply He, elem_of_chains. by exists i, L, l. }
  intros m' Hr Ht. apply HQ; [|done]. eapply fam_update; [done|done|done|done| |].
  - intros x [->|Hx]%elem_of_cons; [by right|by left].
  - pose proof (chains_insert F i L l (e :: l) Hi) as Hp. rewrite <- Permutation_middle, app_comm_cons in Hp.
    apply Permutation_app_inv_r in Hp. rewrite Hp. by constructor.
Qed.

Lemma fam_remove m F i L l1 e l2 (Q : nat -> store -> Prop) : fam m F -> F !! i = Some (L, l1 ++ e :: l2) ->
  (forall m', fam m' (<[i := (L, l1 ++ l2)]> F) -> touched m m' (full L (l1 ++ l2)) ->
     (e ∉ chains (<[i := (L, l1 ++ l2)]> F)) -> Q (at_ (l2 ++ [l_tail L])) m') ->
  wp (list_remove e) Q m.
Proof.
  intros Hf Hi HQ. pose proof Hf as [Hnd Hrep]. eapply KListOps.list_remove_spec; [by eapply Hrep|].
  intros m' Hr Ht. pose proof (chains_insert F i L _ (l1 ++ l2) Hi) as Hp.
  assert (Hp2 : chains F ≡ₚ e :: chains (<[i := (L, l1 ++ l2)]> F)).
  { rewrite <- Permutation_middle in Hp. rewrite <- Permutation_middle, app_comm_cons in Hp. by apply Permutation_app_inv_r in Hp. }
  rewrite Hp2 in Hnd. apply NoDup_cons in Hnd as [He Hnd]. apply HQ; [|done|done].
  eapply fam_update; [done|done|done|done| |done]. intros x Hx. left. unfold full in *. set_solver.
Qed.

(** A part of a family. *)
Lemma fam_app m F F' : fam m (F ++ F') <-> fam m F /\ fam m F' /\ forall e, e ∈ chains F -> e ∉ chains F'.
Proof.
  unfold fam. rewrite chains_app, NoDup_app. split.
  - intros [(H1 & H2 & H3) Hr]. split_and!; try done.
    + intros i L l Hi. apply (Hr i). by apply lookup_app_l_Some.
    + intros i L l Hi. apply (Hr (length F + i)%nat). rewrite lookup_app_r by lia. by rewrite Nat.add_sub_swap, Nat.sub_diag by lia.
  - intros ([H1 Hr1] & [H3 Hr3] & H2). split; [done|]. intros i L l [Hi|[_ Hi]]%lookup_app_Some; eauto.
Qed.

Lemma fam_touched m m' F X : fam m F -> touched m m' X -> (forall e, e ∈ X -> e ∉ chains F) -> fam m' F.
Proof.
  intros [Hnd Hr] Ht HX. split; [done|]. intros i L l Hi. eapply chain_touched; [by eapply Hr|done|].
  intros x Hx Hx'. apply (HX x Hx), elem_of_chains. by exists i, L, l.
Qed.

Lemma fam_frame m m' F : fam m F -> (forall e, e ∈ chains F -> m' !! e = m !! e) -> fam m' F.
Proof.
  intros [Hnd Hr] Hs. split; [done|]. intros i L l Hi. eapply rep_frame; [by eapply Hr|].
  intros e He. apply Hs, elem_of_chains. by exists i, L, l.
Qed.

(** A new empty list. *)
Lemma fam_init m F L (Q : unit -> store -> Prop) : fam m F ->
  is_Some (m !! l_head L) -> is_Some (m !! l_tail L) -> NoDup [l_head L; l_tail L] -> NULL ∉ [l_head L; l_tail L] ->
  (forall e, e ∈ [l_head L; l_tail L] -> e ∉ chains F) ->
  (forall m', fam m' (F ++ [(L, [])]) -> touched m m' [l_head L; l_tail L] -> Q tt m') -> wp (list_init L) Q m.
Proof.
  intros Hf Hh Ht Hnd H0 Hout HQ. apply KListOps.list_init_spec; [done..|]. intros m' Hr Hto. apply HQ; [|done].
  apply fam_app. split_and!.
  - eapply fam_touched; [done|done|]. intros e He. apply Hout, He.
  - split; [done|]. intros [|i] L1 l1 Hi; [|done]. cbn in Hi. by simplify_eq.
  - intros e He He'. by apply (Hout e).
Qed.

End KListFam.
