(* ===== verification/Malloc.v ===== *)
(** The kernel's memory allocator (src/src/threads/malloc.c), over any page
    allocator that keeps the promises of [PageAllocator].

    The header of an arena is an entry of [h_arenas]; an address without an
    entry does not carry the magic number. The blocks of an arena are list
    elements in the store of [KList], there from the moment the page is
    made an arena until it is given back. The locks of the descriptors are
    held around every change, so an operation is one step. *)
From stdpp Require Export gmap.
From S2P Require Import Prelude KList Bitmap Palloc.
From stdpp Require Import options.

#[local] Open Scope Z_scope.

Module Malloc.
Import Palloc.

(** * Pages

    [pa_managed] are the addresses that the allocator may hand out,
    [pa_used] those it has handed out. *)
Class PageAllocator (P : Type) := {
  pa_get : Z -> ST P Z;
  pa_free : Z -> Z -> ST P unit;
  pa_ok : P -> Prop;
  pa_managed : P -> Z -> Prop;
  pa_used : P -> Z -> Prop;
  pa_inside : forall s a, pa_ok s -> pa_used s a -> pa_managed s a;
  pa_get_ok : forall s n (Q : Z -> P -> Prop), pa_ok s -> 0 < n -> Q NULL s ->
    (forall a s', pa_ok s' -> a mod 4096 = 0 -> 4096 <= a -> a + 4096 * n <= 2 ^ 32 ->
       (forall x, pa_managed s' x <-> pa_managed s x) ->
       (forall x, pa_used s' x <-> pa_used s x \/ span a n x) ->
       (forall x, span a n x -> pa_managed s x /\ ~ pa_used s x) -> Q a s') ->
    wp (pa_get n) Q s;
  pa_get_none : forall s (Q : Z -> P -> Prop), Q NULL s -> wp (pa_get 0) Q s;
  pa_free_ok : forall s a n (Q : unit -> P -> Prop), pa_ok s -> 0 < n -> a mod 4096 = 0 -> 4096 <= a ->
    (forall x, span a n x -> pa_used s x) ->
    (forall s', pa_ok s' -> (forall x, pa_managed s' x <-> pa_managed s x) ->
       (forall x, pa_used s' x <-> pa_used s x /\ ~ span a n x) -> Q tt s') ->
    wp (pa_free a n) Q s;
}.

(** The kernel's pool keeps them. *)
#[export, refine] Instance kernel_pages : PageAllocator pages := {|
  pa_get n := palloc_get_multiple 0 n;
  pa_free a n := palloc_free_multiple a n;
  pa_ok s := pages_ok s;
  pa_managed s a := in_pool (kernel_pool s) a;
  pa_used s a := taken (kernel_pool s) a;
|}.
Proof.
  - by intros s a _ [].
  - intros s n Q Hs Hn Q0 HQ. apply palloc_get_spec; [done|done| |done].
    intros i s' page Hi Hin _ Hok Hus Hfr Hsame _. pose proof (pk_kernel _ Hs) as Hk.
    assert (Ep : page = base (kernel_pool s) + 4096 * i) by reflexivity. clearbody page.
    change (get_pool (negb (Z.land 0 PAL_USER =? 0)) s) with (kernel_pool s) in *.
    pose proof (Hsame false) as [Eb Ec]. cbn in Eb, Ec. pose proof (pk_apart _ Hs).
    assert (Hman : forall x, in_pool (kernel_pool s') x <-> in_pool (kernel_pool s) x) by (intros x; unfold in_pool; by rewrite Eb, Ec).
    assert (Hal : page mod 4096 = 0).
    { rewrite Ep, Z.mul_comm, Z.mod_add by lia. apply Hk. }
    apply HQ; [done|done|pose proof (po_base _ Hk); lia|pose proof (po_end _ Hk); lia|done| |].
    + intros x. specialize (Hus x). specialize (Hman x). specialize (Hfr x). pose proof (pk_apart _ Hok).
      unfold used, taken in *. unfold in_pool in *. pose proof (Hsame true) as [Eb' Ec']. cbn in Eb', Ec'.
      rewrite Eb, Ec, Eb' in *. intuition lia.
    + intros x Hx. destruct (Hfr x Hx) as [H1 H2]. split; [done|]. intros Ht. apply H2. by left.
  - intros s Q HQ. unfold palloc_get_multiple. cbn. by wp_steps.
  - intros s a n Q Hs Hn Hal Ha Hus HQ. pose proof (pk_kernel _ Hs) as Hk.
    assert (Hlo : base (kernel_pool s) <= a) by (destruct (Hus a) as [[? _] _]; [unfold span; lia|done]).
    assert (Hhi : a + 4096 * n <= base (kernel_pool s) + 4096 * bit_cnt (used_map (kernel_pool s))).
    { destruct (Hus (a + 4096 * n - 1)) as [[_ ?] _]; [unfold span; lia|].
      pose proof (Z.div_mod a 4096 ltac:(lia)). pose proof (Z.div_mod (base (kernel_pool s)) 4096 ltac:(lia)).
      pose proof (po_aligned _ Hk). lia. }
    apply (palloc_free_spec false); [done|done|done|done|done|intros x Hx; left; by apply Hus|].
    intros s' Hok Hus' Hsame _. pose proof (Hsame false) as [Eb Ec]. cbn in Eb, Ec. pose proof (pk_apart _ Hs).
    assert (Hman : forall x, in_pool (kernel_pool s') x <-> in_pool (kernel_pool s) x) by (intros x; unfold in_pool; by rewrite Eb, Ec).
    apply HQ; [done|done|]. intros x. specialize (Hus' x). specialize (Hman x). pose proof (pk_apart _ Hok).
    unfold used, taken in *. unfold in_pool in *. pose proof (Hsame true) as [Eb' Ec']. cbn in Eb', Ec'.
    rewrite Eb, Ec, Eb' in *. intuition lia.
Defined.

(** * The allocator *)

Record desc := mkDesc {
  block_size : Z;
  blocks_per_arena : Z;
  free_list : KList.llist;
}.

Record arena := mkArena {
  a_desc : option nat;
  free_cnt : Z;
}.

Definition sizeof_arena : Z := 12.

(** The headers of arenas and the links of free blocks are kept apart from
    [h_bytes], which stands for the contents of the blocks in use. *)
Record heap (P : Type) := mkHeap {
  h_pages : P;
  h_arenas : gmap Z arena;
  h_links : gmap nat KList.list_elem;
  h_descs : list desc;
  h_bytes : Z -> Z;
}.
Arguments mkHeap {P}.
Arguments h_pages {P}.
Arguments h_arenas {P}.
Arguments h_links {P}.
Arguments h_descs {P}.
Arguments h_bytes {P}.

Section malloc.
Context {P : Type} {PA : PageAllocator P}.

Abbreviation HS := (ST (heap P)).

Definition set_pages (x : P) (h : heap P) := mkHeap x (h_arenas h) (h_links h) (h_descs h) (h_bytes h).
Definition set_arenas x (h : heap P) := mkHeap (h_pages h) x (h_links h) (h_descs h) (h_bytes h).
Definition set_links x (h : heap P) := mkHeap (h_pages h) (h_arenas h) x (h_descs h) (h_bytes h).
Definition set_descs x (h : heap P) := mkHeap (h_pages h) (h_arenas h) (h_links h) x (h_bytes h).
Definition set_bytes x (h : heap P) := mkHeap (h_pages h) (h_arenas h) (h_links h) (h_descs h) x.

Definition paged {A} (m : ST P A) : HS A :=
  fun h => match m (h_pages h) with Ok (a, p) => Ok (a, set_pages p h) | Err e => Err e end.
Definition linked {A} (m : ST (gmap nat KList.list_elem) A) : HS A :=
  fun h => match m (h_links h) with Ok (a, l) => Ok (a, set_links l h) | Err e => Err e end.

Definition get_desc (d : nat) : HS desc := let! x := gets (fun h => h_descs h !! d) in lift (access x).
Definition get_arena (a : Z) : HS arena := let! x := gets (fun h => h_arenas h !! a) in lift (access x).
Definition put_arena (a : Z) (x : arena) : HS unit := modify (fun h => set_arenas (<[a := x]> (h_arenas h)) h).
Definition memset_bytes (p v n : Z) : HS unit :=
  modify (fun h => set_bytes (fun x => if (p <=? x) && (x <? p + n) then v else h_bytes h x) h).
Definition memcpy_bytes (dst src n : Z) : HS unit :=
  modify (fun h => set_bytes (fun x => if (dst <=? x) && (x <? dst + n) then h_bytes h (x - dst + src) else h_bytes h x) h).

(** [heads] are the list headers inside [descs], in order. *)
Definition malloc_init (heads : list KList.llist) : HS unit :=
  loop (fun '(size, heads) =>
    if size <? PGSIZE / 2 then
      match heads with
      | [] => fail Panic
      | L :: heads =>
          modify (fun h => set_descs (h_descs h ++ [mkDesc size ((PGSIZE - sizeof_arena) / size) L]) h);;;
          linked (KList.list_init L);;;
          ret (inl (size * 2, heads))
      end
    else ret (inr tt)) (16, heads).

Definition block_to_arena (b : Z) : HS Z :=
  let a := pg_round_down b in
  ASSERT (negb (a =? NULL));;;
  let! x := get_arena a in
  match a_desc x with
  | Some d =>
      let! D := get_desc d in
      ASSERT ((pg_ofs b - sizeof_arena) mod block_size D =? 0);;;
      ret a
  | None =>
      ASSERT (pg_ofs b =? sizeof_arena);;;
      ret a
  end.

Definition arena_to_block (a idx : Z) : HS Z :=
  ASSERT (negb (a =? NULL));;;
  let! x := get_arena a in
  let! d := lift (access (a_desc x)) in
  let! D := get_desc d in
  ASSERT (idx <? blocks_per_arena D);;;
  ret (a + sizeof_arena + idx * block_size D).

(** The first descriptor for blocks of at least [size] bytes. *)
Fixpoint find_desc (ds : list desc) (d : nat) (size : Z) : option nat :=
  match ds with
  | [] => None
  | D :: ds => if size <=? block_size D then Some d else find_desc ds (S d) size
  end.

(** The words of the blocks of a new arena, and of one that goes. *)
Definition addr (b : Z) : nat := Z.to_nat b.
Fixpoint raw_blocks (n : nat) (b bs : Z) (m : gmap nat KList.list_elem) : gmap nat KList.list_elem :=
  match n with
  | O => m
  | S n => raw_blocks n (b + bs) bs (<[addr b := KList.mkElem 0 0]> m)
  end.
Fixpoint drop_blocks (n : nat) (b bs : Z) (m : gmap nat KList.list_elem) : gmap nat KList.list_elem :=
  match n with
  | O => m
  | S n => drop_blocks n (b + bs) bs (delete (addr b) m)
  end.

(** The loops over the blocks of an arena. *)
Fixpoint push_blocks (n : nat) (a i : Z) (L : KList.llist) : HS unit :=
  match n with
  | O => ret tt
  | S n =>
      let! b := arena_to_block a i in
      linked (KList.list_push_back L (addr b));;;
      push_blocks n a (i + 1) L
  end.

Fixpoint remove_blocks (n : nat) (a i : Z) : HS unit :=
  match n with
  | O => ret tt
  | S n =>
      let! b := arena_to_block a i in
      linked (KList.list_remove (addr b));;;
      remove_blocks n a (i + 1)
  end.

(** [malloc] of more than the largest block. *)
Definition malloc_big (size : Z) : HS Z :=
  let page_cnt := u32 (u32 (size + sizeof_arena) + PGSIZE - 1) / PGSIZE in
  let! a := paged (pa_get page_cnt) in
  if a =? NULL then ret NULL
  else
    put_arena a (mkArena None page_cnt);;;
    ret (a + sizeof_arena).

(** A new arena for the descriptor [d]: whether there was a page for it. *)
Definition new_arena (d : nat) (D : desc) : HS bool :=
  let! a := paged (pa_get 1) in
  if a =? NULL then ret false
  else
    modify (fun h => set_links (raw_blocks (Z.to_nat (blocks_per_arena D)) (a + sizeof_arena) (block_size D) (h_links h)) h);;;
    put_arena a (mkArena (Some d) (blocks_per_arena D));;;
    push_blocks (Z.to_nat (blocks_per_arena D)) a 0 (free_list D);;;
    ret true.

(** A block from the free list of [D]. *)
Definition take_block (D : desc) : HS Z :=
  let! e := linked (KList.list_pop_front (free_list D)) in
  let b := Z.of_nat e in
  let! a := block_to_arena b in
  let! x := get_arena a in
  put_arena a (mkArena (a_desc x) (u32 (free_cnt x - 1)));;;
  ret b.

Definition malloc (size : Z) : HS Z :=
  if size =? 0 then ret NULL
  else
    let! ds := gets h_descs in
    match find_desc ds 0 size with
    | None => malloc_big size
    | Some d =>
        let! D := get_desc d in
        let! empty := linked (KList.list_empty (free_list D)) in
        let! ok := (if empty : bool then new_arena d D else ret true) in
        if ok : bool then take_block D else ret NULL
    end.

Definition calloc (a b : Z) : HS Z :=
  let size := u32 (a * b) in
  if (size <? a) || (size <? b) then ret NULL
  else
    let! p := malloc size in
    (if negb (p =? NULL) then memset_bytes p 0 size else ret tt);;;
    ret p.

(** [block_size] in the source. *)
Definition block_bytes (block : Z) : HS Z :=
  let! a := block_to_arena block in
  let! x := get_arena a in
  match a_desc x with
  | Some d => let! D := get_desc d in ret (block_size D)
  | None => ret (u32 (PGSIZE * free_cnt x - pg_ofs block))
  end.

Definition free (p : Z) : HS unit :=
  if p =? NULL then ret tt
  else
    let! a := block_to_arena p in
    let! x := get_arena a in
    match a_desc x with
    | Some d =>
        let! D := get_desc d in
        memset_bytes p 204 (block_size D);;;
        linked (KList.list_push_front (free_list D) (addr p));;;
        put_arena a (mkArena (Some d) (u32 (free_cnt x + 1)));;;
        if blocks_per_arena D <=? u32 (free_cnt x + 1) then
          ASSERT (u32 (free_cnt x + 1) =? blocks_per_arena D);;;
          remove_blocks (Z.to_nat (blocks_per_arena D)) a 0;;;
          modify (fun h => set_links (drop_blocks (Z.to_nat (blocks_per_arena D)) (a + sizeof_arena) (block_size D) (h_links h)) h);;;
          modify (fun h => set_arenas (delete a (h_arenas h)) h);;;
          paged (pa_free a 1)
        else ret tt
    | None =>
        modify (fun h => set_arenas (delete a (h_arenas h)) h);;;
        paged (pa_free a (free_cnt x))
    end.

Definition realloc (old_block new_size : Z) : HS Z :=
  if new_size =? 0 then free old_block;;; ret NULL
  else
    let! new_block := malloc new_size in
    (if negb (old_block =? NULL) && negb (new_block =? NULL) then
       let! old_size := block_bytes old_block in
       let min_size := if new_size <? old_size then new_size else old_size in
       memcpy_bytes new_block old_block min_size;;;
       free old_block
     else ret tt);;;
    ret new_block.

End malloc.

End Malloc.
