(* ===== verification/MallocSpec.v ===== *)
(** The invariant of the kernel's memory allocator: which blocks are handed
    out, which are free, and where they lie. *)
From S2P Require Import Prelude KList KListSpec KListSort KListOps Bitmap Palloc Malloc.
From stdpp Require Import options.

#[local] Open Scope Z_scope.

Module MallocSpec.
Import Palloc Malloc.

(** Block [i] of the arena [a] for the descriptor [D]. *)
Definition blk (a : Z) (D : desc) (i : Z) : Z := a + 12 + i * block_size D.

Record desc_ok (D : desc) : Prop := {
  dk_size : 16 <= block_size D;
  dk_cnt : 0 < blocks_per_arena D;
  dk_fit : 12 + blocks_per_arena D * block_size D <= 4096;
  dk_align : block_size D mod 4 = 0;
}.

Definition headers (D : desc) : list nat := [KList.l_head (free_list D); KList.l_tail (free_list D)].

Definition npages (x : arena) : Z := match a_desc x with Some _ => 1 | None => free_cnt x end.

(** How many blocks of an arena are not handed out. *)
Definition nfree (live : gmap Z Z) (a : Z) (D : desc) : Z :=
  Z.of_nat (length (filter (fun i => live !! blk a D i = None) (seqZ 0 (blocks_per_arena D)))).

Lemma filter_every {A} (R : A -> Prop) `{!forall y, Decision (R y)} (l : list A) : Forall R l -> filter R l = l.
Proof. induction 1; [done|]. rewrite filter_cons_True by done. by f_equal. Qed.

Section count.
Context {A : Type} (R R' : A -> Prop) `{!forall y, Decision (R y)} `{!forall y, Decision (R' y)}.

Lemma filter_count_same (l : list A) : (forall j, j ∈ l -> R j <-> R' j) -> length (filter R l) = length (filter R' l).
Proof using Type.
  induction l as [|j l IH]; intros Hs; [done|]. rewrite !filter_cons. pose proof (Hs j ltac:(set_solver)).
  pose proof (IH ltac:(set_solver)). repeat case_decide; cbn; tauto || lia.
Qed.
End count.

(** One element changes. *)
Lemma count_change {A} (R R' : A -> Prop) `{!forall y, Decision (R y)} `{!forall y, Decision (R' y)} (l : list A) (i : A) :
  NoDup l -> i ∈ l -> (forall j, j ∈ l -> j <> i -> R j <-> R' j) -> R i -> ~ R' i ->
  length (filter R l) = S (length (filter R' l)).
Proof.
  induction l as [|j l IH]; intros Hnd Hi Hs HR HR'; [set_solver|]. apply NoDup_cons in Hnd as [Hj Hnd].
  apply elem_of_cons in Hi as [<-|Hi].
  - rewrite filter_cons_True, filter_cons_False by done. cbn. f_equal. apply filter_count_same. intros k Hk. apply Hs; set_solver.
  - assert (j <> i) by set_solver. pose proof (Hs j ltac:(set_solver) ltac:(done)). rewrite !filter_cons.
    pose proof (IH Hnd Hi ltac:(set_solver) HR HR'). repeat case_decide; cbn; tauto || lia.
Qed.

Lemma blk_page a D i : desc_ok D -> a mod 4096 = 0 -> 4096 <= a -> a + 4096 <= 2 ^ 32 -> 0 <= i < blocks_per_arena D ->
  a + 12 <= blk a D i /\ blk a D i + block_size D <= a + 4096 /\ pg_round_down (blk a D i) = a /\
  pg_ofs (blk a D i) = 12 + i * block_size D.
Proof.
  intros [H1 H2 H3 _] Hal Ha Hm Hi. unfold blk.
  assert (Hb : 0 <= i * block_size D /\ i * block_size D + block_size D <= 4084) by nia.
  assert (Em : (a + 12 + i * block_size D) mod 4096 = 12 + i * block_size D).
  { rewrite <- Z.add_assoc, Z.add_mod, Hal, Z.add_0_l, Z.mod_mod by lia. rewrite Z.mod_small; lia. }
  rewrite pg_round_down_spec, pg_ofs_mod, Em by lia. lia.
Qed.

Lemma blk_inj a D i j : desc_ok D -> blk a D i = blk a D j -> i = j.
Proof. intros [H1 _ _ _]. unfold blk. nia. Qed.

Section nfree.
Context (a : Z) (D : desc) (HD : desc_ok D).
Implicit Types (live : gmap Z Z).

Lemma nfree_same live live' :
  (forall i, 0 <= i < blocks_per_arena D -> live !! blk a D i = None <-> live' !! blk a D i = None) ->
  nfree live a D = nfree live' a D.
Proof using Type. intros H. unfold nfree. f_equal. apply filter_count_same. intros j Hj%elem_of_seqZ. apply H. lia. Qed.

Lemma nfree_insert live i v : 0 <= i < blocks_per_arena D -> live !! blk a D i = None ->
  nfree live a D = nfree (<[blk a D i := v]> live) a D + 1.
Proof using HD.
  intros Hi Hl. unfold nfree. erewrite (count_change (fun j => live !! blk a D j = None)
    (fun j => <[blk a D i := v]> live !! blk a D j = None) _ i); [lia|apply NoDup_seqZ|apply elem_of_seqZ; lia| |done|].
  - intros j _ Hne. rewrite lookup_insert_ne; [done|]. intros E. apply Hne. symmetry. by apply (blk_inj a D).
  - by rewrite lookup_insert_eq.
Qed.

Lemma nfree_delete live i v : 0 <= i < blocks_per_arena D -> live !! blk a D i = Some v ->
  nfree (delete (blk a D i) live) a D = nfree live a D + 1.
Proof using HD.
  intros Hi Hl. rewrite (nfree_insert (delete (blk a D i) live) i v) by (done || by rewrite lookup_delete_eq).
  by rewrite insert_delete_eq, insert_id by done.
Qed.

Lemma nfree_bounds live : 0 <= nfree live a D <= blocks_per_arena D.
Proof using HD.
  unfold nfree. split; [lia|]. pose proof (length_filter (fun i => live !! blk a D i = None) (seqZ 0 (blocks_per_arena D))) as H.
  rewrite length_seqZ in H. destruct HD. lia.
Qed.

(** All blocks are free. *)
Lemma nfree_all live i : nfree live a D = blocks_per_arena D -> 0 <= i < blocks_per_arena D -> live !! blk a D i = None.
Proof using HD.
  intros Hn Hi. destruct (live !! blk a D i) as [v|] eqn:E; [|done]. pose proof (nfree_delete live i v Hi E).
  pose proof (nfree_bounds (delete (blk a D i) live)). lia.
Qed.

Lemma nfree_none_live live : (forall i, 0 <= i < blocks_per_arena D -> live !! blk a D i = None) ->
  nfree live a D = blocks_per_arena D.
Proof using HD.
  intros H. unfold nfree. rewrite filter_every; [rewrite length_seqZ; destruct HD; lia|].
  apply Forall_forall. intros j Hj%elem_of_seqZ. apply H. lia.
Qed.
End nfree.

Lemma full_heads D l e : e ∈ KListSpec.full (free_list D) l <-> e ∈ headers D \/ e ∈ l.
Proof. unfold KListSpec.full, headers. set_solver. Qed.

Section invariant.
Context {P : Type} {PA : PageAllocator P}.
Implicit Types (h : heap P) (live : gmap Z Z) (ls : list (list nat)) (a b : Z) (d : nat).

(** What an arena is. The arena [ex], if any, may be all free. *)
Definition arena_ok (ex : option Z) h live a (x : arena) : Prop :=
  a mod 4096 = 0 /\ 4096 <= a /\ 0 < npages x /\ a + 4096 * npages x <= 2 ^ 32 /\
  (forall y, span a (npages x) y -> pa_used (h_pages h) y) /\
  match a_desc x with
  | Some d => exists D, h_descs h !! d = Some D /\ free_cnt x = nfree live a D /\
      (free_cnt x < blocks_per_arena D \/ ex = Some a) /\
      forall i, 0 <= i < blocks_per_arena D -> is_Some (h_links h !! addr (blk a D i))
  | None => live !! (a + 12) = Some (4096 * free_cnt x - 12)
  end.

(** The blocks [live] are handed out, with their sizes; the free lists are [ls]. *)
Record heap_ok (ex : option Z) h live ls : Prop := {
  hk_pages : pa_ok (h_pages h);
  hk_descs : forall d D, h_descs h !! d = Some D -> desc_ok D;
  hk_lists : length ls = length (h_descs h);
  hk_rep : forall d D l, h_descs h !! d = Some D -> ls !! d = Some l -> KListSpec.rep (h_links h) (free_list D) l;
  hk_headers : forall d D e, h_descs h !! d = Some D -> e ∈ headers D -> ~ pa_managed (h_pages h) (Z.of_nat e);
  hk_apart : forall d d' D D' e, d <> d' -> h_descs h !! d = Some D -> h_descs h !! d' = Some D' ->
    e ∈ headers D -> e ∉ headers D';
  hk_arena : forall a x, h_arenas h !! a = Some x -> arena_ok ex h live a x;
  hk_disjoint : forall a a' x x' y, a <> a' -> h_arenas h !! a = Some x -> h_arenas h !! a' = Some x' ->
    span a (npages x) y -> ~ span a' (npages x') y;
  hk_free : forall d D l e, h_descs h !! d = Some D -> ls !! d = Some l ->
    e ∈ l <-> exists a x i, h_arenas h !! a = Some x /\ a_desc x = Some d /\ 0 <= i < blocks_per_arena D /\
      e = addr (blk a D i) /\ live !! blk a D i = None;
  hk_live : forall b sz, live !! b = Some sz -> exists a x, h_arenas h !! a = Some x /\
    match a_desc x with
    | Some d => exists D i, h_descs h !! d = Some D /\ 0 <= i < blocks_per_arena D /\ b = blk a D i /\ sz = block_size D
    | None => b = a + 12 /\ sz = 4096 * free_cnt x - 12
    end;
}.

Section facts.
Context (ex : option Z) (h : heap P) (live : gmap Z Z) (ls : list (list nat)) (Hh : heap_ok ex h live ls).

(** A small arena is one page. *)
Lemma small_arena a x d : h_arenas h !! a = Some x -> a_desc x = Some d ->
  a mod 4096 = 0 /\ 4096 <= a /\ a + 4096 <= 2 ^ 32 /\ exists D, h_descs h !! d = Some D /\ desc_ok D /\
    free_cnt x = nfree live a D /\ (free_cnt x < blocks_per_arena D \/ ex = Some a).
Proof using Hh.
  intros Hx Hd. destruct (hk_arena _ _ _ _ Hh a x Hx) as (H1 & H2 & _ & H3 & _ & H4). unfold npages in H3.
  rewrite Hd in *. destruct H4 as (D & HD & Hf & Hlt & _). split_and!; [done|done|lia|]. exists D.
  split_and!; try done. by apply (hk_descs _ _ _ _ Hh d).
Qed.

(** Where a block is. *)
Lemma block_spot a x d D i : h_arenas h !! a = Some x -> a_desc x = Some d -> h_descs h !! d = Some D ->
  0 <= i < blocks_per_arena D ->
  a + 12 <= blk a D i /\ blk a D i + block_size D <= a + 4096 /\ pg_round_down (blk a D i) = a /\
  pg_ofs (blk a D i) = 12 + i * block_size D /\ 0 < blk a D i < 2 ^ 32.
Proof using Hh.
  intros Hx Hd HD Hi. destruct (small_arena a x d Hx Hd) as (H1 & H2 & H3 & D' & HD' & Hok & _). simplify_eq.
  pose proof (blk_page a D i Hok H1 H2 H3 Hi). destruct Hok. lia.
Qed.

Lemma block_managed a x d D i : h_arenas h !! a = Some x -> a_desc x = Some d -> h_descs h !! d = Some D ->
  0 <= i < blocks_per_arena D -> pa_managed (h_pages h) (blk a D i).
Proof using Hh.
  intros Hx Hd HD Hi. destruct (block_spot a x d D i Hx Hd HD Hi) as (B1 & B2 & _).
  destruct (hk_arena _ _ _ _ Hh a x Hx) as (_ & _ & _ & _ & Hu & _). apply pa_inside; [apply Hh|]. apply Hu.
  unfold npages, span. rewrite Hd. pose proof (hk_descs _ _ _ _ Hh d D HD) as [? _ _ _]. lia.
Qed.

(** A block determines its arena and its index. *)
Lemma block_unique a x d D i a' x' d' D' i' :
  h_arenas h !! a = Some x -> a_desc x = Some d -> h_descs h !! d = Some D -> 0 <= i < blocks_per_arena D ->
  h_arenas h !! a' = Some x' -> a_desc x' = Some d' -> h_descs h !! d' = Some D' -> 0 <= i' < blocks_per_arena D' ->
  addr (blk a D i) = addr (blk a' D' i') -> a = a' /\ d = d' /\ i = i'.
Proof using Hh.
  intros Hx Hd HD Hi Hx' Hd' HD' Hi' E. destruct (block_spot a x d D i) as (_ & _ & R & _ & B); [done..|].
  destruct (block_spot a' x' d' D' i') as (_ & _ & R' & _ & B'); [done..|].
  assert (E2 : blk a D i = blk a' D' i') by (unfold addr in E; lia). rewrite E2 in R. assert (a = a') by congruence. subst a'.
  simplify_eq. split_and!; try done. eapply blk_inj; [by eapply (hk_descs _ _ _ _ Hh)|done].
Qed.

(** A header is no block. *)
Lemma header_not_block d D a x d' D' i : h_descs h !! d = Some D -> h_arenas h !! a = Some x -> a_desc x = Some d' ->
  h_descs h !! d' = Some D' -> 0 <= i < blocks_per_arena D' -> addr (blk a D' i) ∉ headers D.
Proof using Hh.
  intros HD Hx Hd' HD' Hi He. pose proof (block_managed a x d' D' i Hx Hd' HD' Hi) as Hm.
  destruct (block_spot a x d' D' i) as (_ & _ & _ & _ & B); [done..|].
  apply (hk_headers _ _ _ _ Hh d D _ HD He). unfold addr. by rewrite Z2Nat.id by lia.
Qed.

(** Different free lists share nothing. *)
Lemma lists_disjoint d d' D D' l l' e : d <> d' -> h_descs h !! d = Some D -> h_descs h !! d' = Some D' ->
  ls !! d = Some l -> ls !! d' = Some l' -> e ∈ KListSpec.full (free_list D) l -> e ∉ KListSpec.full (free_list D') l'.
Proof using Hh.
  intros Hne HD HD' Hl Hl' [He|He]%full_heads [He'|He']%full_heads.
  - by apply (hk_apart _ _ _ _ Hh d d' D D' e).
  - apply (hk_free _ _ _ _ Hh d' D' l') in He' as (a & x & i & Hx & Hd & Hi & -> & _); [|done..].
    by apply (header_not_block d D a x d' D' i).
  - apply (hk_free _ _ _ _ Hh d D l) in He as (a & x & i & Hx & Hd & Hi & -> & _); [|done..].
    by apply (header_not_block d' D' a x d D i).
  - apply (hk_free _ _ _ _ Hh d' D' l') in He' as (a' & x' & i' & Hx' & Hd' & Hi' & -> & _); [|done..].
    apply (hk_free _ _ _ _ Hh d D l) in He as (a & x & i & Hx & Hd & Hi & E & _); [|done..].
    destruct (block_unique a' x' d' D' i' a x d D i) as (_ & ? & _); [done..|]. congruence.
Qed.

(** The size and place of a block that is handed out. *)
Lemma live_spot a x b sz : h_arenas h !! a = Some x ->
  match a_desc x with
  | Some d => exists D i, h_descs h !! d = Some D /\ 0 <= i < blocks_per_arena D /\ b = blk a D i /\ sz = block_size D
  | None => b = a + 12 /\ sz = 4096 * free_cnt x - 12
  end -> a + 12 <= b /\ 0 < sz /\ b + sz <= a + 4096 * npages x.
Proof using Hh.
  intros Hx Hcase. destruct (hk_arena _ _ _ _ Hh a x Hx) as (_ & _ & Hn & _ & _ & _). unfold npages in *.
  destruct (a_desc x) as [d|] eqn:Hd.
  - destruct Hcase as (D & i & HD & Hi & -> & ->). destruct (block_spot a x d D i) as (B1 & B2 & _); [done..|].
    pose proof (hk_descs _ _ _ _ Hh d D HD) as [? _ _ _]. lia.
  - destruct Hcase as [-> ->]. lia.
Qed.

(** Blocks that are handed out do not overlap. *)
Lemma live_disjoint b sz b' sz' : live !! b = Some sz -> live !! b' = Some sz' -> b <> b' ->
  b + sz <= b' \/ b' + sz' <= b.
Proof using Hh.
  intros Hb Hb' Hne. destruct (hk_live _ _ _ _ Hh b sz Hb) as (a & x & Hx & Hc).
  destruct (hk_live _ _ _ _ Hh b' sz' Hb') as (a' & x' & Hx' & Hc'). destruct (decide (a = a')) as [<-|Hna].
  - simplify_eq. destruct (a_desc x) as [d|] eqn:Hd; [|lia].
    destruct Hc as (D & i & HD & Hi & -> & ->), Hc' as (D' & i' & HD' & Hi' & -> & ->). simplify_eq.
    unfold blk in *. pose proof (hk_descs _ _ _ _ Hh d D HD) as [? _ _ _]. assert (i <> i') by congruence. nia.
  - pose proof (live_spot a x b sz Hx Hc). pose proof (live_spot a' x' b' sz' Hx' Hc').
    destruct (Z.le_gt_cases (b + sz) b') as [|Hlt]; [by left|]. destruct (Z.le_gt_cases (b' + sz') b) as [|Hlt']; [by right|].
    exfalso. apply (hk_disjoint _ _ _ _ Hh a a' x x' (Z.max b b') Hna Hx Hx'); unfold span; lia.
Qed.
End facts.
End invariant.

End MallocSpec.
