(* ===== verification/MallocOps.v ===== *)
(** The operations of the kernel's memory allocator keep its invariant. *)
From S2P Require Import Prelude KList KListSpec KListSort KListOps Bitmap Palloc Malloc MallocSpec.
From stdpp Require Import options.

#[local] Open Scope Z_scope.

Module MallocOps.
Import Palloc Malloc MallocSpec.

Section ops.
Context {P : Type} {PA : PageAllocator P}.
Implicit Types (h : heap P) (live : gmap Z Z) (ls : list (list nat)) (a b : Z) (d : nat) (D : desc) (x : arena).

Lemma wp_paged {A} (m : ST P A) (Q : A -> heap P -> Prop) h :
  wp m (fun r p => Q r (set_pages p h)) (h_pages h) -> wp (paged m) Q h.
Proof using Type. unfold wp, paged. by destruct (m (h_pages h)) as [[]|]. Qed.

(** The run itself is known when its result is used. *)
Lemma wp_recall {S A} (m : ST S A) (Q : A -> S -> Prop) (s : S) :
  wp m (fun r s' => m s = Ok (r, s') -> Q r s') s -> wp m Q s.
Proof using Type. unfold wp. destruct (m s) as [[]|]; auto. Qed.

Lemma wp_hlinked {A} (m : ST (gmap nat KList.list_elem) A) (Q : A -> heap P -> Prop) h :
  wp m (fun r l => Q r (set_links l h)) (h_links h) -> wp (Malloc.linked m) Q h.
Proof using Type. unfold wp, Malloc.linked. by destruct (m (h_links h)) as [[]|]. Qed.

Lemma wp_get_desc d D (Q : desc -> heap P -> Prop) h : h_descs h !! d = Some D -> Q D h -> wp (get_desc d) Q h.
Proof using Type. intros HD HQ. unfold get_desc. wp_steps. apply wp_lift. by rewrite HD. Qed.

Lemma wp_get_arena a x (Q : arena -> heap P -> Prop) h : h_arenas h !! a = Some x -> Q x h -> wp (get_arena a) Q h.
Proof using Type. intros Hx HQ. unfold get_arena. wp_steps. apply wp_lift. by rewrite Hx. Qed.

Lemma hlinks_id h : set_links (h_links h) h = h.
Proof using Type. by destruct h. Qed.

(** * Blocks and arenas *)

Lemma block_to_arena_small h a x d D i (Q : Z -> heap P -> Prop) : desc_ok D -> 4096 <= a ->
  pg_round_down (blk a D i) = a -> pg_ofs (blk a D i) = 12 + i * block_size D ->
  h_arenas h !! a = Some x -> a_desc x = Some d -> h_descs h !! d = Some D ->
  Q a h -> wp (block_to_arena (blk a D i)) Q h.
Proof using Type.
  intros [? _ _ _] Ha B3 B4 Hx Hd HD HQ. unfold block_to_arena. rewrite B3.
  apply wp_bind, wp_ASSERT; [rewrite eqb_false; [done|unfold NULL; lia]|].
  apply wp_bind. eapply wp_get_arena; [done|]. rewrite Hd. apply wp_bind. eapply wp_get_desc; [done|].
  apply wp_bind, wp_ASSERT; [|by wp_steps]. rewrite B4. apply Z.eqb_eq. unfold sizeof_arena.
  replace (12 + i * block_size D - 12) with (i * block_size D) by lia. apply Z.mod_mul. lia.
Qed.

Lemma block_to_arena_big ex h live ls a x (Q : Z -> heap P -> Prop) : heap_ok ex h live ls ->
  h_arenas h !! a = Some x -> a_desc x = None -> Q a h -> wp (block_to_arena (a + 12)) Q h.
Proof using Type.
  intros Hh Hx Hd HQ. destruct (hk_arena _ _ _ _ Hh a x Hx) as (H1 & H2 & H3 & H4 & _). unfold npages in *. rewrite Hd in *.
  assert (Em : (a + 12) mod 4096 = 12) by (rewrite Z.add_mod, H1 by lia; done).
  unfold block_to_arena. rewrite pg_round_down_spec, pg_ofs_mod, Em by lia. replace (a + 12 - 12) with a by lia.
  apply wp_bind, wp_ASSERT; [rewrite eqb_false; [done|unfold NULL; lia]|].
  apply wp_bind. eapply wp_get_arena; [done|]. rewrite Hd. by wp_steps.
Qed.

Lemma arena_to_block_spec h a x d D i (Q : Z -> heap P -> Prop) : h_arenas h !! a = Some x -> a_desc x = Some d ->
  h_descs h !! d = Some D -> i < blocks_per_arena D -> a <> 0 -> Q (blk a D i) h -> wp (arena_to_block a i) Q h.
Proof using Type.
  intros Hx Hd HD Hi Ha HQ. unfold arena_to_block. apply wp_bind, wp_ASSERT; [by rewrite eqb_false|]. apply wp_bind.
  eapply wp_get_arena; [done|]. apply wp_bind, wp_lift. rewrite Hd. cbn [access wpr]. apply wp_bind.
  eapply wp_get_desc; [done|]. wp_steps; [by apply Z.ltb_lt|done].
Qed.

(** The blocks [i .. i + n) of an arena. *)
Definition blks a D (i : Z) (n : nat) : list nat := (fun k => addr (blk a D k)) <$> seqZ i (Z.of_nat n).

Lemma blks_S a D i n : blks a D i (S n) = addr (blk a D i) :: blks a D (i + 1) n.
Proof using Type. unfold blks. rewrite seqZ_cons by lia. cbn. f_equal. f_equal. f_equal; lia. Qed.

Lemma elem_of_blks a D i n e : (e ∈ blks a D i n) <-> exists k, i <= k < i + Z.of_nat n /\ e = addr (blk a D k).
Proof using Type. unfold blks. rewrite list_elem_of_fmap. setoid_rewrite elem_of_seqZ. naive_solver. Qed.

Lemma push_blocks_spec a x d D n : forall i l h (Q : unit -> heap P -> Prop),
  h_arenas h !! a = Some x -> a_desc x = Some d -> h_descs h !! d = Some D -> a <> 0 -> i + Z.of_nat n <= blocks_per_arena D ->
  KListSpec.rep (h_links h) (free_list D) l -> NoDup (blks a D i n) ->
  (forall e, e ∈ blks a D i n -> e ∉ KListSpec.full (free_list D) l /\ e <> KList.NULL /\ is_Some (h_links h !! e)) ->
  (forall m, KListSpec.rep m (free_list D) (l ++ blks a D i n) ->
     KListSpec.touched (h_links h) m (KListSpec.full (free_list D) l ++ blks a D i n) -> Q tt (set_links m h)) ->
  wp (push_blocks n a i (free_list D)) Q h.
Proof using Type.
  induction n as [|n IH]; intros i l h Q Hx Hd HD Ha Hi Hrep Hnd Hb HQ; cbn [push_blocks].
  { wp_steps. rewrite <- (hlinks_id h). apply HQ; [by rewrite app_nil_r|apply KListSpec.touched_refl]. }
  rewrite blks_S in *. apply NoDup_cons in Hnd as [Hni Hnd]. apply wp_bind. eapply arena_to_block_spec; [done..|lia|done|].
  destruct (Hb (addr (blk a D i)) ltac:(set_solver)) as (B1 & B2 & B3). apply wp_bind, wp_hlinked.
  eapply KListOps.list_push_back_spec; [done..|]. intros m Hrep' Hto.
  apply (IH (i + 1) (l ++ [addr (blk a D i)])); [done..|lia|done|done| |].
  - intros e He. destruct (Hb e ltac:(set_solver)) as (C1 & C2 & C3). split_and!; [|done|by apply (KListSpec.to_dom _ _ _ Hto)].
    unfold KListSpec.full in *. set_solver.
  - intros m' Hrep2 Hto2. apply HQ; [by rewrite <- app_assoc in Hrep2|].
    eapply KListSpec.touched_trans; (eapply KListSpec.touched_mono; [eassumption|]); unfold KListSpec.full; set_solver.
Qed.

Lemma filter_one (e : nat) (l1 l2 : list nat) : NoDup (l1 ++ e :: l2) -> filter (fun y => y ∉ [e]) (l1 ++ e :: l2) = l1 ++ l2.
Proof using Type.
  intros Hnd. apply NoDup_app in Hnd as (_ & H1 & H2). apply NoDup_cons in H2 as [H2 _]. rewrite filter_app, filter_cons_False by set_solver.
  f_equal; apply filter_every; apply Forall_forall; set_solver.
Qed.

Lemma remove_blocks_spec a x d D n : forall i l h (Q : unit -> heap P -> Prop),
  h_arenas h !! a = Some x -> a_desc x = Some d -> h_descs h !! d = Some D -> a <> 0 -> i + Z.of_nat n <= blocks_per_arena D ->
  KListSpec.rep (h_links h) (free_list D) l -> NoDup (blks a D i n) -> (forall e, e ∈ blks a D i n -> e ∈ l) ->
  (forall m, KListSpec.rep m (free_list D) (filter (fun e => e ∉ blks a D i n) l) ->
     KListSpec.touched (h_links h) m (KListSpec.full (free_list D) l) -> Q tt (set_links m h)) ->
  wp (remove_blocks n a i) Q h.
Proof using Type.
  induction n as [|n IH]; intros i l h Q Hx Hd HD Ha Hi Hrep Hnd Hb HQ; cbn [remove_blocks].
  { wp_steps. rewrite <- (hlinks_id h). apply HQ; [|apply KListSpec.touched_refl].
    rewrite filter_every; [done|]. apply Forall_forall. intros e _ He. by apply not_elem_of_nil in He. }
  rewrite blks_S in *. apply NoDup_cons in Hnd as [Hni Hnd]. apply wp_bind. eapply arena_to_block_spec; [done..|lia|done|].
  pose proof (Hb (addr (blk a D i)) ltac:(set_solver)) as (l1 & l2 & ->)%list_elem_of_split. apply wp_bind, wp_hlinked.
  assert (Hndl : NoDup (l1 ++ addr (blk a D i) :: l2)).
  { pose proof (KListSpec.ch_nodup _ _ Hrep) as H. unfold KListSpec.full in H. apply NoDup_cons in H as [_ H]. by apply NoDup_app in H as [H _]. }
  eapply KListOps.list_remove_spec; [done|]. intros m Hrep' Hto.
  apply (IH (i + 1) (l1 ++ l2)); [done..|lia|done|done|set_solver|].
  intros m' Hrep2 Hto2. apply HQ.
  - replace (filter (fun e => e ∉ addr (blk a D i) :: blks a D (i + 1) n) (l1 ++ addr (blk a D i) :: l2))
      with (filter (fun e => e ∉ blks a D (i + 1) n) (l1 ++ l2)); [done|].
    rewrite <- (filter_one _ _ _ Hndl), list_filter_filter. apply list_filter_iff. set_solver.
  - eapply KListSpec.touched_trans; (eapply KListSpec.touched_mono; [eassumption|]); unfold KListSpec.full; set_solver.
Qed.

(** * Moving a block *)

(** An address of another arena. *)
Lemma span_ne ex h live ls a a' x x' y y' : heap_ok ex h live ls -> h_arenas h !! a = Some x -> h_arenas h !! a' = Some x' ->
  a <> a' -> span a (npages x) y -> span a' (npages x') y' -> y <> y'.
Proof using Type. intros Hh Hx Hx' Hne H1 H2 ->. by apply (hk_disjoint _ _ _ _ Hh a a' x x' y'). Qed.

Lemma block_span ex h live ls a x d D i : heap_ok ex h live ls -> h_arenas h !! a = Some x -> a_desc x = Some d ->
  h_descs h !! d = Some D -> 0 <= i < blocks_per_arena D -> span a (npages x) (blk a D i).
Proof using Type.
  intros Hh Hx Hd HD Hi. destruct (block_spot ex h live ls Hh a x d D i) as (B1 & B2 & _); [done..|].
  pose proof (hk_descs _ _ _ _ Hh d D HD) as [? _ _ _]. unfold span, npages. rewrite Hd. lia.
Qed.

(** One block of the arena [a] goes from the free list [l] to the blocks
    handed out, or back. *)
Lemma heap_move ex ex' h live live' ls a x x' d D i l l' m bytes :
  heap_ok ex h live ls -> h_arenas h !! a = Some x -> a_desc x = Some d -> h_descs h !! d = Some D ->
  ls !! d = Some l -> 0 <= i < blocks_per_arena D -> ex = None \/ ex = Some a ->
  KListSpec.rep m (free_list D) l' ->
  (forall e, e ∉ KListSpec.full (free_list D) l -> e <> addr (blk a D i) -> m !! e = h_links h !! e) ->
  (forall e, is_Some (m !! e) <-> is_Some (h_links h !! e)) ->
  a_desc x' = Some d -> free_cnt x' = nfree live' a D -> free_cnt x' < blocks_per_arena D \/ ex' = Some a ->
  (forall b, b <> blk a D i -> live' !! b = live !! b) ->
  live' !! blk a D i = None \/ live' !! blk a D i = Some (block_size D) ->
  (forall e, e ∈ l' <-> (e ∈ l /\ e <> addr (blk a D i)) \/ (e = addr (blk a D i) /\ live' !! blk a D i = None)) ->
  heap_ok ex' (mkHeap (h_pages h) (<[a := x']> (h_arenas h)) m (h_descs h) bytes) live' (<[d := l']> ls).
Proof using Type.
  intros Hh Hx Hd HD Hl Hi Hex Hrep Hsame Hdom Hd' Hf' Hlt Hlive Hb Hl'.
  pose proof Hh as [K1 K2 K3 K4 K5 K6 K7 K8 K9 K10].
  assert (Hnp : forall a1 x1, <[a := x']> (h_arenas h) !! a1 = Some x1 -> exists x0, h_arenas h !! a1 = Some x0 /\
    npages x1 = npages x0 /\ a_desc x1 = a_desc x0 /\ (a1 <> a -> x1 = x0)).
  { intros a1 x1 [[<- <-]|[Hne H1]]%lookup_insert_Some; [|by exists x1]. exists x. unfold npages. by rewrite Hd, Hd'. }
  pose proof (block_span _ _ _ _ a x d D i Hh Hx Hd HD Hi) as Hsp.
  assert (Hother : forall a1 x1 d1 D1 j, h_arenas h !! a1 = Some x1 -> a_desc x1 = Some d1 -> h_descs h !! d1 = Some D1 ->
    0 <= j < blocks_per_arena D1 -> (a1, j) <> (a, i) -> blk a1 D1 j <> blk a D i).
  { intros a1 x1 d1 D1 j H1 H2 H3 Hj Hne E. apply Hne. f_equal; eapply (block_unique ex h live ls Hh a1 x1 d1 D1 j a x d D i); try done; by rewrite E. }
  split; cbn [h_pages h_arenas h_links h_descs]; [done|done|by rewrite length_insert| |done|done| | | |].
  - intros d1 D1 l1 HD1 Hl1. destruct (decide (d1 = d)) as [->|Hne].
    { rewrite list_lookup_insert_eq in Hl1 by by eapply lookup_lt_Some. by simplify_eq. }
    rewrite list_lookup_insert_ne in Hl1 by done. eapply KListFam.rep_frame; [by eapply K4|]. intros e He. apply Hsame.
    + intros He'. by apply (lists_disjoint ex h live ls Hh d d1 D D1 l l1 e).
    + intros ->. apply full_heads in He as [He|He].
      * by apply (header_not_block ex h live ls Hh d1 D1 a x d D i).
      * apply (K9 d1 D1 l1) in He as (a1 & x1 & j & H1 & H2 & H3 & E & _); [|done..].
        destruct (block_unique ex h live ls Hh a x d D i a1 x1 d1 D1 j) as (_ & ? & _); [done..|]. congruence.
  - intros a1 x1 H1. destruct (decide (a1 = a)) as [->|Hne].
    + rewrite lookup_insert_eq in H1. simplify_eq. destruct (K7 a x Hx) as (A1 & A2 & A3 & A4 & A5 & A6).
      unfold arena_ok, npages in *. rewrite Hd, Hd' in *. destruct A6 as (D0 & HD0 & _ & _ & Hlk). simplify_eq.
      split_and!; try done. exists D. split_and!; try done. intros j Hj. apply Hdom. by apply Hlk.
    + rewrite lookup_insert_ne in H1 by done. destruct (K7 a1 x1 H1) as (A1 & A2 & A3 & A4 & A5 & A6).
      unfold arena_ok. cbn [h_pages h_descs h_links]. split_and!; try done. destruct (a_desc x1) as [d1|] eqn:Hd1.
      * destruct A6 as (D1 & HD1 & Hf & Hlt1 & Hlk). exists D1. split_and!; [done| | |].
        -- rewrite Hf. apply nfree_same. intros j Hj. rewrite Hlive; [done|]. eapply Hother; [done..|]. congruence.
        -- destruct Hlt1 as [|He]; [by left|]. destruct Hex; congruence.
        -- intros j Hj. apply Hdom. by apply Hlk.
      * rewrite Hlive; [done|]. eapply (span_ne ex h live ls a1 a x1 x); try done. unfold span. lia.
  - intros a1 a2 x1 x2 y Hne H1 H2. destruct (Hnp a1 x1 H1) as (y1 & Hy1 & -> & _). destruct (Hnp a2 x2 H2) as (y2 & Hy2 & -> & _).
    by apply (K8 a1 a2).
  - intros d1 D1 l1 e HD1 Hl1.
    assert (Hiff : forall l0, ls !! d1 = Some l0 -> (exists a0 x0 j, <[a:=x']> (h_arenas h) !! a0 = Some x0 /\ a_desc x0 = Some d1 /\
      0 <= j < blocks_per_arena D1 /\ e = addr (blk a0 D1 j) /\ live' !! blk a0 D1 j = None) <->
      (e ∈ l0 /\ e <> addr (blk a D i)) \/ (d1 = d /\ e = addr (blk a D i) /\ live' !! blk a D i = None)).
    { intros l0 Hl0. rewrite (K9 d1 D1 l0 e HD1 Hl0). split.
      - intros (a0 & x0 & j & H0 & Hd0 & Hj & -> & Hn). destruct (Hnp a0 x0 H0) as (x00 & H00 & _ & Ed & _). rewrite Ed in Hd0.
        destruct (decide ((a0, j) = (a, i))) as [[= -> ->]|Hne].
        + right. simplify_eq. done.
        + left. pose proof (Hother a0 x00 d1 D1 j H00 Hd0 HD1 Hj Hne) as Hbne. rewrite Hlive in Hn by done. split; [by exists a0, x00, j|].
          intros E. destruct (block_unique ex h live ls Hh a0 x00 d1 D1 j a x d D i) as (? & _ & ?); [done..|]. congruence.
      - intros [[(a0 & x0 & j & H0 & Hd0 & Hj & -> & Hn) Hne]|(-> & -> & Hn)].
        + assert (Hbne : blk a0 D1 j <> blk a D i) by congruence. destruct (decide (a0 = a)) as [->|Hna].
          * exists a, x', j. rewrite lookup_insert_eq. simplify_eq. split_and!; try done; try lia. by rewrite Hlive.
          * exists a0, x0, j. rewrite lookup_insert_ne by done. split_and!; try done; try lia. by rewrite Hlive.
        + simplify_eq. exists a, x', i. rewrite lookup_insert_eq. split_and!; try done; lia. }
    destruct (decide (d1 = d)) as [->|Hne].
    + rewrite list_lookup_insert_eq in Hl1 by by eapply lookup_lt_Some. simplify_eq. rewrite (Hiff l Hl), Hl'. tauto.
    + rewrite list_lookup_insert_ne in Hl1 by done. rewrite (Hiff l1 Hl1). split; [|intros [[]|[]]; congruence].
      intros He. left. split; [done|]. intros ->. apply (K9 d1 D1 l1) in He as (a1 & x1 & j & H1 & H2 & H3 & E & _); [|done..].
      destruct (block_unique ex h live ls Hh a x d D i a1 x1 d1 D1 j) as (_ & ? & _); [done..|]. congruence.
  - intros b sz Hbs. destruct (decide (b = blk a D i)) as [->|Hne].
    + exists a, x'. rewrite lookup_insert_eq, Hd'. split; [done|]. exists D, i. split_and!; try done; try lia. destruct Hb; congruence.
    + rewrite Hlive in Hbs by done. destruct (K10 b sz Hbs) as (a0 & x0 & H0 & Hc). destruct (decide (a0 = a)) as [->|Hna].
      * exists a, x'. rewrite lookup_insert_eq. split; [done|]. simplify_eq. by rewrite Hd in Hc; rewrite Hd'.
      * exists a0, x0. by rewrite lookup_insert_ne.
Qed.

Lemma take_block_spec ex h live ls d D l (Q : Z -> heap P -> Prop) :
  heap_ok ex h live ls -> h_descs h !! d = Some D -> ls !! d = Some l -> l <> [] ->
  (forall a, ex = Some a -> exists i, 0 <= i < blocks_per_arena D /\ head l = Some (addr (blk a D i)) /\
     exists x, h_arenas h !! a = Some x /\ a_desc x = Some d) ->
  (forall b h' l', live !! b = None -> 0 < b -> b mod 4 = 0 ->
     heap_ok None h' (<[b := block_size D]> live) (<[d := l']> ls) -> h_bytes h' = h_bytes h -> Q b h') ->
  wp (take_block D) Q h.
Proof using Type.
  intros Hh HD Hl Hne Hex HQ. destruct l as [|e l]; [done|]. pose proof (hk_rep _ _ _ _ Hh d D _ HD Hl) as Hrep.
  destruct (proj1 (hk_free _ _ _ _ Hh d D _ e HD Hl)) as (a & x & i & Hx & Hd & Hi & -> & Hn); [set_solver|].
  unfold take_block. apply wp_bind, wp_hlinked. eapply KListOps.list_pop_front_spec; [exact Hrep|]. intros m Hrep' [Hto Hdom].
  destruct (block_spot ex h live ls Hh a x d D i) as (B1 & B2 & B3 & B4 & B5); [done..|].
  assert (Ea : Z.of_nat (addr (blk a D i)) = blk a D i) by (unfold addr; lia). rewrite Ea. apply wp_bind.
  assert (Hexa : ex = None \/ ex = Some a).
  { destruct ex as [a'|]; [right|by left]. destruct (Hex a' eq_refl) as (i' & Hi' & [= E] & x' & Hx' & Hd').
    destruct (block_unique _ h live ls Hh a x d D i a' x' d D i') as (-> & _); done. }
  destruct (small_arena ex h live ls Hh a x d Hx Hd) as (Hal & Ha & Hm & D' & HD' & Hok & Hf & _). simplify_eq.
  eapply (block_to_arena_small _ a x d D i); [done|done|done|done|exact Hx|done|done|]. apply wp_bind.
  eapply wp_get_arena; [exact Hx|]. unfold put_arena. wp_steps. rewrite Hd.
  pose proof (nfree_insert a D Hok live i (block_size D) Hi Hn) as Hnf. pose proof (nfree_bounds a D Hok live).
  pose proof (nfree_bounds a D Hok (<[blk a D i := block_size D]> live)).
  apply (HQ _ _ l); [done|lia| | |done].
  - unfold blk. destruct Hok as [_ _ _ Hal4]. rewrite Z.add_mod, (Z.mul_mod i), Hal4, Z.mul_0_r by lia.
    replace (a + 12) with (12 + a / 4096 * 1024 * 4) by (pose proof (Z.div_mod a 4096 ltac:(lia)); lia). by rewrite Z.mod_add.
  - pose proof (KListSpec.ch_nodup _ _ Hrep) as Hnd. unfold KListSpec.full in Hnd. apply NoDup_cons in Hnd as [_ Hnd].
    apply NoDup_app in Hnd as [Hnd _]. apply NoDup_cons in Hnd as [Hnd _].
    eapply (heap_move ex None h live _ ls a x _ d D i _ l m); try done.
    + intros e He _. apply Hto. unfold KListSpec.full in *. set_solver.
    + cbn. rewrite u32_small; [lia|]. destruct Hok. nia.
    + left. cbn. rewrite u32_small; [lia|]. destruct Hok. nia.
    + intros b Hb. by rewrite lookup_insert_ne.
    + right. by rewrite lookup_insert_eq.
    + intros e. rewrite lookup_insert_eq. set_solver.
Qed.

(** * New arenas *)

(** Pages that no one has. *)
Record fresh_pages h a (n : Z) : Prop := {
  fp_aligned : a mod 4096 = 0;
  fp_low : 4096 <= a;
  fp_high : a + 4096 * n <= 2 ^ 32;
  fp_some : 0 < n;
  fp_free : forall y, span a n y -> pa_managed (h_pages h) y /\ ~ pa_used (h_pages h) y;
}.

Section fresh.
Context (h : heap P) (live : gmap Z Z) (ls : list (list nat)) (a n : Z).
Context (Hh : heap_ok None h live ls) (Hf : fresh_pages h a n).

Lemma fresh_span a1 x1 y : h_arenas h !! a1 = Some x1 -> span a1 (npages x1) y -> ~ span a n y.
Proof using Hh Hf.
  intros H1 Hy Hy'. destruct (fp_free _ _ _ Hf y Hy') as [_ Hu]. apply Hu.
  by apply (hk_arena _ _ _ _ Hh a1 x1 H1).
Qed.

Lemma fresh_arena : h_arenas h !! a = None.
Proof using Hh Hf.
  destruct (h_arenas h !! a) as [x|] eqn:E; [|done]. exfalso. destruct (hk_arena _ _ _ _ Hh a x E) as (_ & _ & Hn & _).
  apply (fresh_span a x a E); [unfold span; lia|]. pose proof (fp_some _ _ _ Hf). unfold span. lia.
Qed.

Lemma fresh_live b : span a n b -> live !! b = None.
Proof using Hh Hf.
  intros Hb. destruct (live !! b) as [sz|] eqn:E; [|done]. exfalso.
  destruct (hk_live _ _ _ _ Hh b sz E) as (a1 & x1 & H1 & Hc). pose proof (live_spot None h live ls Hh a1 x1 b sz H1 Hc).
  apply (fresh_span a1 x1 b H1); [unfold span; lia|done].
Qed.

Lemma fresh_linked d D l e : h_descs h !! d = Some D -> ls !! d = Some l -> span a n (Z.of_nat e) ->
  e ∉ KListSpec.full (free_list D) l.
Proof using Hh Hf.
  intros HD Hl He [Hin|Hin]%full_heads.
  - apply (hk_headers _ _ _ _ Hh d D e HD Hin). by apply (fp_free _ _ _ Hf).
  - apply (hk_free _ _ _ _ Hh d D l) in Hin as (a1 & x1 & i & H1 & H2 & H3 & -> & _); [|done..].
    pose proof (block_span _ _ _ _ a1 x1 d D i Hh H1 H2 HD H3) as Hs.
    destruct (block_spot None h live ls Hh a1 x1 d D i) as (_ & _ & _ & _ & B); [done..|].
    unfold addr in He. rewrite Z2Nat.id in He by lia. by apply (fresh_span a1 x1 (blk a1 D i)).
Qed.
End fresh.

(** Taking a whole run of pages for one block. *)
Lemma heap_add_big h live ls a n p :
  heap_ok None h live ls -> fresh_pages h a n -> pa_ok p -> (forall y, pa_managed p y <-> pa_managed (h_pages h) y) ->
  (forall y, pa_used p y <-> pa_used (h_pages h) y \/ span a n y) ->
  heap_ok None (mkHeap p (<[a := mkArena None n]> (h_arenas h)) (h_links h) (h_descs h) (h_bytes h))
    (<[a + 12 := 4096 * n - 12]> live) ls.
Proof using Type.
  intros Hh Hf Hp Hman Hus. pose proof Hf as [F1 F2 F3 F4 _]. pose proof Hh as [K1 K2 K3 K4 K5 K6 K7 K8 K9 K10].
  assert (Hspan : forall b a1 x1, h_arenas h !! a1 = Some x1 -> span a1 (npages x1) b -> b <> a + 12).
  { intros b a1 x1 H1 Hb ->. apply (fresh_span h live ls a n Hh Hf a1 x1 (a + 12) H1 Hb). unfold span. lia. }
  assert (Hblk : forall a1 x1 d D j, h_arenas h !! a1 = Some x1 -> a_desc x1 = Some d -> h_descs h !! d = Some D ->
    0 <= j < blocks_per_arena D -> <[a + 12 := 4096 * n - 12]> live !! blk a1 D j = live !! blk a1 D j).
  { intros a1 x1 d D j H1 H2 H3 Hj. rewrite lookup_insert_ne; [done|]. intros E.
    apply (Hspan (blk a1 D j) a1 x1 H1); [|done]. by eapply block_span. }
  assert (Hold : forall a1 x1, h_arenas h !! a1 = Some x1 -> a1 <> a) by (intros a1 x1 H1 ->; by rewrite (fresh_arena h live ls a n Hh Hf) in H1).
  split; cbn [h_pages h_arenas h_links h_descs]; try done.
  - intros d D e HD He. rewrite Hman. by apply (K5 d D).
  - intros a1 x1 [[<- <-]|[_ H1]]%lookup_insert_Some.
    + unfold arena_ok, npages. cbn. split_and!; try done; try lia; [intros y Hy; rewrite Hus; by right|]. by rewrite lookup_insert_eq.
    + destruct (K7 a1 x1 H1) as (A1 & A2 & A3 & A4 & A5 & A6). unfold arena_ok. cbn [h_pages h_descs h_links].
      split_and!; try done; [intros y Hy; rewrite Hus; left; by apply A5|]. destruct (a_desc x1) as [d|] eqn:Hd.
      * destruct A6 as (D & HD & Hfc & Hlt & Hlk). exists D. split_and!; try done. rewrite Hfc. apply nfree_same.
        intros i Hi. by rewrite (Hblk a1 x1 d).
      * rewrite lookup_insert_ne; [done|]. pose proof (Hold a1 x1 H1). lia.
  - intros a1 a2 x1 x2 y Hne [[<- <-]|[_ H1]]%lookup_insert_Some [[<- <-]|[_ H2]]%lookup_insert_Some Hy; [done| | |by apply (K8 a1 a2 x1 x2)].
    + intros Hy2. by apply (fresh_span h live ls a n Hh Hf a2 x2 y).
    + by apply (fresh_span h live ls a n Hh Hf a1 x1 y).
  - intros d D l e HD Hl. rewrite (K9 d D l e HD Hl). split; intros (a1 & x1 & i & H1 & H2 & H3 & E & Hn).
    + exists a1, x1, i. rewrite (Hblk a1 x1 d D i), lookup_insert_ne by (done || by apply not_eq_sym, (Hold a1 x1)). done.
    + apply lookup_insert_Some in H1 as [[<- <-]|[_ H1]]; [done|]. exists a1, x1, i. rewrite (Hblk a1 x1 d D i) in Hn by done. done.
  - intros b sz [[<- <-]|[_ Hb]]%lookup_insert_Some.
    + exists a, (mkArena None n). by rewrite lookup_insert_eq.
    + destruct (K10 b sz Hb) as (a1 & x1 & H1 & Hc). exists a1, x1. rewrite lookup_insert_ne by by apply not_eq_sym, (Hold a1 x1). done.
Qed.

(** The words of the blocks. *)
Lemma raw_blocks_lookup a D n : forall i m e,
  raw_blocks n (blk a D i) (block_size D) m !! e =
  if decide (e ∈ blks a D i n) then Some (KList.mkElem 0 0) else m !! e.
Proof using Type.
  induction n as [|n IH]; intros i m e; cbn [raw_blocks].
  { rewrite decide_False; [done|]. apply not_elem_of_nil. }
  replace (blk a D i + block_size D) with (blk a D (i + 1)) by (unfold blk; lia). rewrite IH, blks_S.
  destruct (decide (e ∈ blks a D (i + 1) n)) as [Hin|Hni]; [by rewrite decide_True by set_solver|].
  destruct (decide (e = addr (blk a D i))) as [->|Hne].
  - rewrite decide_True by set_solver. apply lookup_insert_eq.
  - rewrite decide_False by set_solver. by apply lookup_insert_ne.
Qed.

Lemma drop_blocks_lookup a D n : forall i m e,
  drop_blocks n (blk a D i) (block_size D) m !! e = if decide (e ∈ blks a D i n) then None else m !! e.
Proof using Type.
  induction n as [|n IH]; intros i m e; cbn [drop_blocks].
  { rewrite decide_False; [done|]. apply not_elem_of_nil. }
  replace (blk a D i + block_size D) with (blk a D (i + 1)) by (unfold blk; lia). rewrite IH, blks_S.
  destruct (decide (e ∈ blks a D (i + 1) n)) as [Hin|Hni]; [by rewrite decide_True by set_solver|].
  destruct (decide (e = addr (blk a D i))) as [->|Hne].
  - rewrite decide_True by set_solver. apply lookup_delete_eq.
  - rewrite decide_False by set_solver. by apply lookup_delete_ne.
Qed.

Lemma blks_all a D : desc_ok D -> forall e, (e ∈ blks a D 0 (Z.to_nat (blocks_per_arena D))) <->
  exists k, 0 <= k < blocks_per_arena D /\ e = addr (blk a D k).
Proof using Type. intros [_ ? _ _] e. rewrite elem_of_blks, Z2Nat.id by lia. done. Qed.

Lemma blks_nodup a D i n : desc_ok D -> 0 <= a -> 0 <= i -> NoDup (blks a D i n).
Proof using Type.
  intros HD Ha Hi. unfold blks. apply NoDup_fmap_2_strong; [|apply NoDup_seqZ]. intros j k Hj%elem_of_seqZ Hk%elem_of_seqZ E.
  apply (blk_inj a D); [done|]. destruct HD. unfold addr, blk in *. nia.
Qed.

(** A page becomes an arena, with all its blocks in an empty free list. *)
Lemma heap_add_small h live ls a d D p m :
  heap_ok None h live ls -> fresh_pages h a 1 -> pa_ok p -> (forall y, pa_managed p y <-> pa_managed (h_pages h) y) ->
  (forall y, pa_used p y <-> pa_used (h_pages h) y \/ span a 1 y) ->
  h_descs h !! d = Some D -> ls !! d = Some [] ->
  let bs := blks a D 0 (Z.to_nat (blocks_per_arena D)) in
  KListSpec.rep m (free_list D) bs -> (forall e, e ∈ bs -> is_Some (m !! e)) ->
  (forall e, e ∉ headers D -> e ∉ bs -> m !! e = h_links h !! e) ->
  heap_ok (Some a) (mkHeap p (<[a := mkArena (Some d) (blocks_per_arena D)]> (h_arenas h)) m (h_descs h) (h_bytes h))
    live (<[d := bs]> ls).
Proof using Type.
  intros Hh Hf Hp Hman Hus HD Hl bs Hrep Hbs Hsame. pose proof Hf as [F1 F2 F3 F4 _]. pose proof Hh as [K1 K2 K3 K4 K5 K6 K7 K8 K9 K10].
  pose proof (K2 d D HD) as Hok.
  assert (Hspan : forall k, 0 <= k < blocks_per_arena D -> span a 1 (blk a D k)).
  { intros k Hk. destruct (blk_page a D k Hok F1 F2 ltac:(lia) Hk) as (B1 & B2 & _). destruct Hok. unfold span. lia. }
  assert (Hbsp : forall e, e ∈ bs -> span a 1 (Z.of_nat e)).
  { intros e (k & Hk & ->)%(blks_all a D Hok). specialize (Hspan k Hk). unfold addr. rewrite Z2Nat.id; [done|]. unfold span in Hspan. lia. }
  assert (Hold : forall a1 x1, h_arenas h !! a1 = Some x1 -> a1 <> a) by (intros a1 x1 H1 ->; by rewrite (fresh_arena h live ls a 1 Hh Hf) in H1).
  assert (Hlive : forall k, 0 <= k < blocks_per_arena D -> live !! blk a D k = None).
  { intros k Hk. apply (fresh_live h live ls a 1 Hh Hf). by apply Hspan. }
  split; cbn [h_pages h_arenas h_links h_descs]; [done|done|by rewrite length_insert| | |done| | | |].
  - intros d1 D1 l1 HD1 Hl1. destruct (decide (d1 = d)) as [->|Hne].
    { rewrite list_lookup_insert_eq in Hl1 by by eapply lookup_lt_Some. by simplify_eq. }
    rewrite list_lookup_insert_ne in Hl1 by done. eapply KListFam.rep_frame; [by eapply K4|]. intros e He. apply Hsame.
    + intros He'. apply (lists_disjoint None h live ls Hh d d1 D D1 [] l1 e); done.
    + intros He'. by apply (fresh_linked h live ls a 1 Hh Hf d1 D1 l1 e HD1 Hl1 (Hbsp e He')).
  - intros d1 D1 e HD1 He. rewrite Hman. by apply (K5 d1 D1).
  - intros a1 x1 [[<- <-]|[Hne H1]]%lookup_insert_Some.
    + unfold arena_ok, npages. cbn. split_and!; try done; try lia; [intros y Hy; rewrite Hus; by right|]. exists D.
      split_and!; [done|by rewrite (nfree_none_live a D Hok)|by right|]. intros i Hi. apply Hbs. apply (blks_all a D Hok). by exists i.
    + destruct (K7 a1 x1 H1) as (A1 & A2 & A3 & A4 & A5 & A6). unfold arena_ok. cbn [h_pages h_descs h_links].
      split_and!; try done; [intros y Hy; rewrite Hus; left; by apply A5|]. destruct (a_desc x1) as [d1|] eqn:Hd1; [|done].
      destruct A6 as (D1 & HD1 & Hfc & Hlt & Hlk). exists D1. split_and!; try done; [left; by destruct Hlt|].
      intros i Hi. destruct (Hlk i Hi) as [v Hv]. destruct (decide (addr (blk a1 D1 i) ∈ bs)) as [Hb|Hb]; [by apply Hbs|].
      rewrite Hsame; [by exists v| |done]. by apply (header_not_block None h live ls Hh d D a1 x1 d1 D1 i).
  - intros a1 a2 x1 x2 y Hne [[<- <-]|[_ H1]]%lookup_insert_Some [[<- <-]|[_ H2]]%lookup_insert_Some Hy; [done| | |by apply (K8 a1 a2 x1 x2)].
    + intros Hy2. by apply (fresh_span h live ls a 1 Hh Hf a2 x2 y).
    + by apply (fresh_span h live ls a 1 Hh Hf a1 x1 y).
  - intros d1 D1 l1 e HD1 Hl1. destruct (decide (d1 = d)) as [->|Hne].
    + rewrite list_lookup_insert_eq in Hl1 by by eapply lookup_lt_Some. simplify_eq. rewrite (blks_all a D Hok). split.
      * intros (k & Hk & ->). exists a, (mkArena (Some d) (blocks_per_arena D)), k. rewrite lookup_insert_eq. split_and!; try done; try lia. by apply Hlive.
      * intros (a1 & x1 & i & [[<- <-]|[_ H1]]%lookup_insert_Some & H2 & H3 & -> & Hn); [by exists i|].
        exfalso. apply (not_elem_of_nil (addr (blk a1 D i))). apply (K9 d D [] _ HD Hl). by exists a1, x1, i.
    + rewrite list_lookup_insert_ne in Hl1 by done. rewrite (K9 d1 D1 l1 e HD1 Hl1). split; intros (a1 & x1 & i & H1 & H2 & H3 & E & Hn).
      * exists a1, x1, i. rewrite lookup_insert_ne by by apply not_eq_sym, (Hold a1 x1). done.
      * apply lookup_insert_Some in H1 as [[<- <-]|[_ H1]]; [cbn in H2; congruence|]. by exists a1, x1, i.
  - intros b sz Hb. destruct (K10 b sz Hb) as (a1 & x1 & H1 & Hc). exists a1, x1. rewrite lookup_insert_ne by by apply not_eq_sym, (Hold a1 x1). done.
Qed.

(** * Giving pages back *)

Lemma heap_drop_small h live ls a x d D l p m bytes :
  heap_ok (Some a) h live ls -> h_arenas h !! a = Some x -> a_desc x = Some d -> h_descs h !! d = Some D ->
  ls !! d = Some l -> free_cnt x = blocks_per_arena D ->
  pa_ok p -> (forall y, pa_managed p y <-> pa_managed (h_pages h) y) ->
  (forall y, pa_used p y <-> pa_used (h_pages h) y /\ ~ span a 1 y) ->
  let bs := blks a D 0 (Z.to_nat (blocks_per_arena D)) in
  KListSpec.rep m (free_list D) (filter (fun e => e ∉ bs) l) ->
  (forall e, e ∉ KListSpec.full (free_list D) l -> e ∉ bs -> m !! e = h_links h !! e) ->
  (forall e, e ∉ bs -> is_Some (m !! e) <-> is_Some (h_links h !! e)) ->
  heap_ok None (mkHeap p (delete a (h_arenas h)) m (h_descs h) bytes) live (<[d := filter (fun e => e ∉ bs) l]> ls).
Proof using Type.
  intros Hh Hx Hd HD Hl Hfc Hp Hman Hus bs Hrep Hsame Hdom. pose proof Hh as [K1 K2 K3 K4 K5 K6 K7 K8 K9 K10].
  destruct (small_arena _ h live ls Hh a x d Hx Hd) as (H1 & H2 & H3 & D' & HD' & Hok & Hnf & _). simplify_eq.
  assert (Hnp : npages x = 1) by (unfold npages; by rewrite Hd).
  assert (Hnone : forall k, 0 <= k < blocks_per_arena D -> live !! blk a D k = None) by (intros k Hk; apply (nfree_all a D Hok); [congruence|done]).
  assert (Hbs : forall a1 x1 d1 D1 i, h_arenas h !! a1 = Some x1 -> a_desc x1 = Some d1 -> h_descs h !! d1 = Some D1 ->
    0 <= i < blocks_per_arena D1 -> a1 <> a -> addr (blk a1 D1 i) ∉ bs).
  { intros a1 x1 d1 D1 i G1 G2 G3 G4 Hne (k & Hk & E)%(blks_all a D Hok). apply Hne.
    by destruct (block_unique _ h live ls Hh a1 x1 d1 D1 i a x d D k) as (? & _). }
  split; cbn [h_pages h_arenas h_links h_descs]; [done|done|by rewrite length_insert| | |done| | | |].
  - intros d1 D1 l1 HD1 Hl1. destruct (decide (d1 = d)) as [->|Hne].
    { rewrite list_lookup_insert_eq in Hl1 by by eapply lookup_lt_Some. by simplify_eq. }
    rewrite list_lookup_insert_ne in Hl1 by done. eapply KListFam.rep_frame; [by eapply K4|]. intros e He. apply Hsame.
    + intros He'. by apply (lists_disjoint _ h live ls Hh d d1 D D1 l l1 e).
    + intros (k & Hk & ->)%(blks_all a D Hok). apply full_heads in He as [He|He].
      * by apply (header_not_block _ h live ls Hh d1 D1 a x d D k).
      * apply (K9 d1 D1 l1) in He as (a1 & x1 & j & G1 & G2 & G3 & E & _); [|done..].
        destruct (block_unique _ h live ls Hh a x d D k a1 x1 d1 D1 j) as (_ & ? & _); [done..|]. congruence.
  - intros d1 D1 e HD1 He. rewrite Hman. by apply (K5 d1 D1).
  - intros a1 x1 [Hne G1]%lookup_delete_Some. destruct (K7 a1 x1 G1) as (A1 & A2 & A3 & A4 & A5 & A6). unfold arena_ok.
    cbn [h_pages h_descs h_links]. split_and!; try done.
    + intros y Hy. rewrite Hus. split; [by apply A5|]. rewrite <- Hnp. by apply (K8 a1 a x1 x).
    + destruct (a_desc x1) as [d1|] eqn:Hd1; [|done]. destruct A6 as (D1 & HD1 & Hf1 & Hlt & Hlk). exists D1.
      split_and!; try done; [left; destruct Hlt; congruence|]. intros i Hi. apply Hdom; [|by apply Hlk].
      by apply (Hbs a1 x1 d1 D1 i).
  - intros a1 a2 x1 x2 y Hne [_ G1]%lookup_delete_Some [_ G2]%lookup_delete_Some. by apply (K8 a1 a2).
  - intros d1 D1 l1 e HD1 Hl1. destruct (decide (d1 = d)) as [->|Hne].
    + rewrite list_lookup_insert_eq in Hl1 by by eapply lookup_lt_Some. simplify_eq. rewrite list_elem_of_filter, (K9 d D l e HD Hl). split.
      * intros [He (a1 & x1 & i & G1 & G2 & G3 & -> & Hn)]. exists a1, x1, i. rewrite lookup_delete_ne; [done|].
        intros <-. apply He, (blks_all a D Hok). by exists i.
      * intros (a1 & x1 & i & [Hne G1]%lookup_delete_Some & G2 & G3 & -> & Hn). split; [by apply (Hbs a1 x1 d D i)|by exists a1, x1, i].
    + rewrite list_lookup_insert_ne in Hl1 by done. rewrite (K9 d1 D1 l1 e HD1 Hl1). split; intros (a1 & x1 & i & G1 & G2 & G3 & E & Hn).
      * exists a1, x1, i. rewrite lookup_delete_ne; [done|]. intros <-. congruence.
      * apply lookup_delete_Some in G1 as [_ G1]. by exists a1, x1, i.
  - intros b sz Hb. destruct (K10 b sz Hb) as (a1 & x1 & G1 & Hc). exists a1, x1. rewrite lookup_delete_ne; [done|].
    intros <-. simplify_eq. rewrite Hd in Hc. destruct Hc as (D1 & i & HD1 & Hi & -> & _). simplify_eq. by rewrite Hnone in Hb.
Qed.

Lemma heap_drop_big h live ls a x p bytes :
  heap_ok None h live ls -> h_arenas h !! a = Some x -> a_desc x = None ->
  pa_ok p -> (forall y, pa_managed p y <-> pa_managed (h_pages h) y) ->
  (forall y, pa_used p y <-> pa_used (h_pages h) y /\ ~ span a (free_cnt x) y) ->
  heap_ok None (mkHeap p (delete a (h_arenas h)) (h_links h) (h_descs h) bytes) (delete (a + 12) live) ls.
Proof using Type.
  intros Hh Hx Hd Hp Hman Hus. pose proof Hh as [K1 K2 K3 K4 K5 K6 K7 K8 K9 K10].
  assert (Hnp : npages x = free_cnt x) by (unfold npages; by rewrite Hd).
  destruct (K7 a x Hx) as (_ & _ & Hpos & _).
  assert (Hblk : forall a1 x1 d D j, h_arenas h !! a1 = Some x1 -> a_desc x1 = Some d -> h_descs h !! d = Some D ->
    0 <= j < blocks_per_arena D -> delete (a + 12) live !! blk a1 D j = live !! blk a1 D j).
  { intros a1 x1 d D j G1 G2 G3 Hj. apply lookup_delete_ne. intros E. assert (a1 <> a) by (intros ->; congruence).
    apply (span_ne None h live ls a1 a x1 x (blk a1 D j) (a + 12)); try done; [by eapply block_span|unfold span; lia]. }
  split; cbn [h_pages h_arenas h_links h_descs]; try done.
  - intros d1 D1 e HD1 He. rewrite Hman. by apply (K5 d1 D1).
  - intros a1 x1 [Hne G1]%lookup_delete_Some. destruct (K7 a1 x1 G1) as (A1 & A2 & A3 & A4 & A5 & A6). unfold arena_ok.
    cbn [h_pages h_descs h_links]. split_and!; try done.
    + intros y Hy. rewrite Hus. split; [by apply A5|]. rewrite <- Hnp. by apply (K8 a1 a x1 x).
    + destruct (a_desc x1) as [d1|] eqn:Hd1.
      * destruct A6 as (D1 & HD1 & Hf1 & Hlt & Hlk). exists D1. split_and!; try done. rewrite Hf1. apply nfree_same.
        intros i Hi. by rewrite (Hblk a1 x1 d1).
      * rewrite lookup_delete_ne by lia. done.
  - intros a1 a2 x1 x2 y Hne [_ G1]%lookup_delete_Some [_ G2]%lookup_delete_Some. by apply (K8 a1 a2).
  - intros d1 D1 l1 e HD1 Hl1. rewrite (K9 d1 D1 l1 e HD1 Hl1). split; intros (a1 & x1 & i & G1 & G2 & G3 & E & Hn).
    + exists a1, x1, i. rewrite (Hblk a1 x1 d1 D1 i) by done. rewrite lookup_delete_ne; [done|]. intros <-. congruence.
    + apply lookup_delete_Some in G1 as [_ G1]. rewrite (Hblk a1 x1 d1 D1 i) in Hn by done. by exists a1, x1, i.
  - intros b sz [Hne Hb]%lookup_delete_Some. destruct (K10 b sz Hb) as (a1 & x1 & G1 & Hc). exists a1, x1.
    rewrite lookup_delete_ne; [done|]. intros <-. simplify_eq. rewrite Hd in Hc. lia.
Qed.

(** * malloc and free *)

Lemma new_arena_spec h live ls d D (Q : bool -> heap P -> Prop) :
  heap_ok None h live ls -> h_descs h !! d = Some D -> ls !! d = Some [] ->
  (pa_get 1 (h_pages h) = Ok (NULL, h_pages h) -> Q false h) ->
  (forall a h', let bs := blks a D 0 (Z.to_nat (blocks_per_arena D)) in
     heap_ok (Some a) h' live (<[d := bs]> ls) -> h_descs h' = h_descs h -> h_bytes h' = h_bytes h ->
     h_arenas h' !! a = Some (mkArena (Some d) (blocks_per_arena D)) -> Q true h') ->
  wp (new_arena d D) Q h.
Proof using Type.
  intros Hh HD Hl Q0 HQ. pose proof (hk_descs _ _ _ _ Hh d D HD) as Hok. unfold new_arena. apply wp_bind, wp_paged.
  apply wp_recall, pa_get_ok; [apply Hh|lia| |].
  { intros E. cbn. wp_steps. destruct h. by apply Q0. }
  intros a p Hp F1 F2 F3 Hman Hus Hfr _. assert (Hf : fresh_pages h a 1) by by split.
  rewrite eqb_false by (unfold NULL; lia). unfold put_arena. wp_steps. set (bs := blks a D 0 (Z.to_nat (blocks_per_arena D))).
  set (m0 := raw_blocks _ _ _ _).
  assert (Hm0 : forall e, m0 !! e = if decide (e ∈ bs) then Some (KList.mkElem 0 0) else h_links h !! e).
  { intros e. subst m0. cbn. replace (a + sizeof_arena) with (blk a D 0) by (unfold blk, sizeof_arena; lia). apply raw_blocks_lookup. }
  assert (Hbs : forall e, e ∈ bs -> span a 1 (Z.of_nat e)).
  { intros e (k & Hk & ->)%(blks_all a D Hok). destruct (blk_page a D k Hok F1 F2 ltac:(lia) Hk) as (B1 & B2 & _). destruct Hok.
    unfold span, addr. lia. }
  assert (Hout : forall e, e ∈ bs -> e ∉ KListSpec.full (free_list D) []).
  { intros e He. apply (fresh_linked h live ls a 1 Hh Hf d D []); [done|done|by apply Hbs]. }
  eapply (push_blocks_spec a _ d D _ 0 []); cbn [h_arenas h_descs h_links set_arenas set_links set_pages];
    [by rewrite lookup_insert_eq|done|done|lia|destruct Hok; lia| |apply blks_nodup; [done|lia|lia]| |].
  - eapply KListFam.rep_frame; [by eapply (hk_rep _ _ _ _ Hh)|]. intros e He. rewrite Hm0, decide_False; [done|]. intros He'. by apply (Hout e).
  - intros e He. split_and!; [by apply Hout|pose proof (Hbs e He); unfold span, KList.NULL in *; lia|].
    change (is_Some (m0 !! e)). rewrite Hm0, decide_True by done. by eexists.
  - intros m Hrep [Hto Hdom]. wp_steps. apply (HQ a); [|done|done|cbn; by rewrite lookup_insert_eq].
    apply (heap_add_small h live ls a d D p m); try done.
    + intros e He. apply Hdom. change (is_Some (m0 !! e)). rewrite Hm0, decide_True by done. by eexists.
    + intros e He1 He2. rewrite Hto; [change (m0 !! e = h_links h !! e); by rewrite Hm0, decide_False|].
      intros [He|He]%elem_of_app; [|done]. by apply He1.
Qed.

End ops.
End MallocOps.
