(* ===== verification/MallocProps.v ===== *)
(** The theorems about the kernel's memory allocator: it refines a set of
    disjoint blocks; and two requests whose size wraps around. *)
From S2P Require Import Prelude KList KListSpec KListSort KListOps Bitmap Palloc Malloc MallocSpec MallocOps.
From stdpp Require Import options.

#[local] Open Scope Z_scope.

Module MallocProps.
Import Palloc Malloc MallocSpec MallocOps.

Lemma find_desc_spec (ds : list desc) (size : Z) : forall d0,
  match find_desc ds d0 size with
  | Some d => exists D, (d0 <= d)%nat /\ ds !! (d - d0)%nat = Some D /\ size <= block_size D
  | None => True
  end.
Proof.
  induction ds as [|D ds IH]; intros d0; cbn [find_desc]; [done|]. destruct (Z.leb_spec size (block_size D)).
  - exists D. split; [lia|]. rewrite Nat.sub_diag. done.
  - specialize (IH (S d0)). destruct (find_desc ds (S d0) size) as [d|]; [|done]. destruct IH as (D' & Hle & HD & Hs).
    exists D'. split; [lia|]. replace (d - d0)%nat with (S (d - S d0)) by lia. done.
Qed.

(** The number of pages for a big block. *)
Definition big_pages (size : Z) : Z := u32 (u32 (size + sizeof_arena) + PGSIZE - 1) / PGSIZE.

Lemma big_pages_enough (size : Z) : 0 < size <= 2 ^ 32 - 4108 ->
  0 < big_pages size /\ size <= 4096 * big_pages size - 12 /\ 4096 * (big_pages size - 1) < size + 12.
Proof.
  intros Hs. unfold big_pages, sizeof_arena. change PGSIZE with 4096. rewrite (u32_small (size + 12)) by lia. rewrite u32_small by lia.
  pose proof (Z.div_mod (size + 12 + 4096 - 1) 4096 ltac:(lia)). pose proof (Z.mod_pos_bound (size + 12 + 4096 - 1) 4096 ltac:(lia)). lia.
Qed.

Section specs.
Context {P : Type} {PA : PageAllocator P}.
Implicit Types (h : heap P) (live : gmap Z Z) (ls : list (list nat)) (d : nat).

(** [n] pages cannot be had. *)
Definition no_pages h (n : Z) : Prop := pa_get n (h_pages h) = Ok (NULL, h_pages h).

(** A request for [size] bytes needs more pages than can be had. *)
Definition out_of_pages h (size : Z) : Prop := exists n, 0 < n /\ 4096 * (n - 1) < size + 12 /\ no_pages h n.

Lemma malloc_big_spec h live ls size n (Q : Z -> heap P -> Prop) :
  big_pages size = n -> heap_ok None h live ls -> 0 < n -> (no_pages h n -> Q NULL h) ->
  (forall b h', live !! b = None -> 0 < b -> b mod 4 = 0 -> heap_ok None h' (<[b := 4096 * n - 12]> live) ls ->
     h_bytes h' = h_bytes h -> Q b h') ->
  wp (malloc_big size) Q h.
Proof using Type.
  intros En Hh Hn Q0 HQ. unfold malloc_big. fold (big_pages size). rewrite En. clear En.
  apply wp_bind, wp_paged, wp_recall, pa_get_ok; [apply Hh|done|intros E; cbn; wp_steps; destruct h; by apply Q0|].
  intros a p Hp F1 F2 F3 Hman Hus Hfr _. rewrite eqb_false by (unfold NULL; lia). unfold put_arena. wp_steps.
  assert (Hf : fresh_pages h a n) by by split. apply HQ.
  - apply (fresh_live h live ls a n Hh Hf). unfold span, sizeof_arena. lia.
  - unfold sizeof_arena. lia.
  - unfold sizeof_arena. replace (a + 12) with (0 + (a / 4096 * 1024 + 3) * 4) by (pose proof (Z.div_mod a 4096 ltac:(lia)); lia).
    by rewrite Z.mod_add by lia.
  - by apply (heap_add_big h live ls a n p).
  - done.
Qed.

(** Requests above the size of a page are for big blocks. *)
Lemma find_desc_big h live ls size : heap_ok None h live ls -> 4096 <= size -> find_desc (h_descs h) 0 size = None.
Proof using Type.
  intros Hh Hs. pose proof (find_desc_spec (h_descs h) size 0) as Hfd. destruct (find_desc (h_descs h) 0 size) as [d|]; [|done].
  destruct Hfd as (D & _ & HD & Hle). apply (hk_descs _ _ _ _ Hh) in HD as [? ? ? _]. nia.
Qed.

Lemma malloc_spec h live ls size (Q : Z -> heap P -> Prop) :
  heap_ok None h live ls -> 0 <= size <= 2 ^ 32 - 4108 -> (size = 0 \/ out_of_pages h size -> Q NULL h) ->
  (forall b sz h' ls', live !! b = None -> 0 < b -> b mod 4 = 0 -> size <= sz -> heap_ok None h' (<[b := sz]> live) ls' ->
     h_bytes h' = h_bytes h -> Q b h') ->
  wp (malloc size) Q h.
Proof using Type.
  intros Hh Hs Q0 HQ. unfold malloc. destruct (Z.eqb_spec size 0); [wp_steps; auto|]. wp_steps.
  pose proof (find_desc_spec (h_descs h) size 0) as Hfd. destruct (find_desc (h_descs h) 0 size) as [d|].
  2:{ destruct (big_pages_enough size ltac:(lia)) as (Hn & Hle & Hlt). eapply malloc_big_spec; [done..| |].
      - intros E. apply Q0. right. by exists (big_pages size).
      - intros b h'. intros. by eapply HQ. }
  destruct Hfd as (D & _ & HD & Hle). rewrite Nat.sub_0_r in HD. apply wp_bind. eapply wp_get_desc; [done|].
  destruct (lookup_lt_is_Some_2 ls d) as [l Hl]; [rewrite (hk_lists _ _ _ _ Hh); by eapply lookup_lt_Some|].
  apply wp_bind, wp_hlinked. eapply KListOps.wp_list_empty; [by eapply (hk_rep _ _ _ _ Hh)|]. rewrite hlinks_id. apply wp_bind.
  case_bool_decide as El.
  - subst l. eapply new_arena_spec; [done|done|done|intros E; wp_steps; apply Q0; right; exists 1; split_and!; [lia..|done]|].
    intros a h' bs Hh' Ed Eb Hx.
    destruct (hk_descs _ _ _ _ Hh d D HD) as [? Hc ? ?].
    assert (Hhd : bs = addr (blk a D 0) :: blks a D (0 + 1) (pred (Z.to_nat (blocks_per_arena D)))).
    { subst bs. rewrite <- blks_S. f_equal. lia. }
    assert (Hlt : (d < length ls)%nat) by by eapply lookup_lt_Some.
    eapply (take_block_spec (Some a) h' live (<[d := bs]> ls) d D bs); [done|by rewrite Ed|by apply list_lookup_insert_eq|by rewrite Hhd| |].
    + intros a' [= <-]. exists 0. rewrite Hhd. split; [lia|]. split; [done|]. by eexists.
    + intros b h2 l' Hb Hb0 Hb4 Hh2 Eb2. apply (HQ b (block_size D) h2 (<[d := l']> (<[d := bs]> ls))); try done. congruence.
  - wp_steps. eapply (take_block_spec None h live ls d D l); [done..|].
    intros b h2 l' Hb Hb0 Hb4 Hh2 Eb2. by apply (HQ b (block_size D) h2 (<[d := l']> ls)).
Qed.

(** An arena with a block handed out is no exception. *)
Lemma heap_settle h live ls a x d D : heap_ok (Some a) h live ls -> h_arenas h !! a = Some x -> a_desc x = Some d ->
  h_descs h !! d = Some D -> free_cnt x < blocks_per_arena D -> heap_ok None h live ls.
Proof using Type.
  intros [K1 K2 K3 K4 K5 K6 K7 K8 K9 K10] Hx Hd HD Hlt. split; try done. intros a1 x1 G1.
  destruct (K7 a1 x1 G1) as (A1 & A2 & A3 & A4 & A5 & A6). split_and!; try done.
  destruct (a_desc x1) as [d1|] eqn:Hd1; [|done]. destruct A6 as (D1 & HD1 & Hf1 & Hlt1 & Hlk). exists D1. split_and!; try done.
  left. destruct Hlt1 as [|[= <-]]; [done|]. by simplify_eq.
Qed.

(** [free]'s last part: an arena that is all free goes back. *)
Lemma give_back_spec h live ls a x d D (Q : unit -> heap P -> Prop) :
  heap_ok (Some a) h live ls -> h_arenas h !! a = Some x -> a_desc x = Some d -> h_descs h !! d = Some D ->
  free_cnt x = blocks_per_arena D ->
  (forall h' ls', heap_ok None h' live ls' -> h_bytes h' = h_bytes h -> Q tt h') ->
  wp (remove_blocks (Z.to_nat (blocks_per_arena D)) a 0;;;
      modify (fun h => set_links (drop_blocks (Z.to_nat (blocks_per_arena D)) (a + sizeof_arena) (block_size D) (h_links h)) h);;;
      modify (fun h => set_arenas (delete a (h_arenas h)) h);;;
      paged (pa_free a 1)) Q h.
Proof using Type.
  intros Hh Hx Hd HD Hall HQ. destruct (small_arena _ h live ls Hh a x d Hx Hd) as (Hal & Ha & Hm & D' & HD' & Hok & Hf & _). simplify_eq.
  destruct (lookup_lt_is_Some_2 ls d) as [l Hl]; [rewrite (hk_lists _ _ _ _ Hh); by eapply lookup_lt_Some|].
  pose proof (hk_rep _ _ _ _ Hh d D l HD Hl) as Hrep. set (bs := blks a D 0 (Z.to_nat (blocks_per_arena D))).
  apply wp_bind. eapply (remove_blocks_spec a x d D _ 0 l h); try done; try (destruct Hok; lia); [by apply blks_nodup; [done|lia|lia]| |].
  { intros e (k & Hk & ->)%(blks_all a D Hok). apply (hk_free _ _ _ _ Hh d D _ _ HD Hl). exists a, x, k.
    split_and!; try done; try lia. apply (nfree_all a D Hok); [lia|done]. }
  intros m Hrep2 [Hto Hdom]. wp_steps. apply wp_paged. cbn [h_links set_links set_arenas h_pages].
  replace (a + sizeof_arena) with (blk a D 0) by (unfold blk, sizeof_arena; lia).
  pose proof (drop_blocks_lookup a D (Z.to_nat (blocks_per_arena D)) 0 m) as Hm3. fold bs in Hm3.
  set (m3 := drop_blocks _ _ _ _) in *.
  apply pa_free_ok; [apply Hh|lia|done|done| |].
  { intros y Hy. destruct (hk_arena _ _ _ _ Hh a _ Hx) as (_ & _ & _ & _ & Hu & _). apply Hu. unfold npages. by rewrite Hd. }
  intros p Hp Hman Hus. eapply HQ; [|done].
  apply (heap_drop_small h live ls a x d D l p m3 (h_bytes h)); try done.
  - eapply KListFam.rep_frame; [exact Hrep2|]. intros e He. rewrite Hm3, decide_False; [done|]. intros He'.
    apply full_heads in He as [He|He].
    + apply (blks_all a D Hok) in He' as (k & Hk & ->). by apply (header_not_block _ h live ls Hh d D a x d D k).
    + by apply list_elem_of_filter in He as [? _].
  - intros e He1 He2. rewrite Hm3, decide_False by done. by apply Hto.
  - intros e He. rewrite Hm3, decide_False by done. apply Hdom.
Qed.

Lemma free_small_spec h live ls a x d D i (Q : unit -> heap P -> Prop) :
  heap_ok None h live ls -> h_arenas h !! a = Some x -> a_desc x = Some d -> h_descs h !! d = Some D ->
  0 <= i < blocks_per_arena D -> live !! blk a D i = Some (block_size D) ->
  (forall h' ls', heap_ok None h' (delete (blk a D i) live) ls' ->
     (forall y, y < blk a D i \/ blk a D i + block_size D <= y -> h_bytes h' y = h_bytes h y) -> Q tt h') ->
  wp (free (blk a D i)) Q h.
Proof using Type.
  intros Hh Hx Hd HD Hi Hlive HQ. destruct (block_spot None h live ls Hh a x d D i) as (B1 & B2 & B3 & B4 & B5); [done..|].
  destruct (small_arena None h live ls Hh a x d Hx Hd) as (Hal & Ha & Hm & D' & HD' & Hok & Hf & Hlt). simplify_eq.
  destruct (lookup_lt_is_Some_2 ls d) as [l Hl]; [rewrite (hk_lists _ _ _ _ Hh); by eapply lookup_lt_Some|].
  pose proof (hk_rep _ _ _ _ Hh d D l HD Hl) as Hrep.
  assert (Hbl : addr (blk a D i) ∉ l).
  { intros Hin. apply (hk_free _ _ _ _ Hh d D l) in Hin as (a1 & x1 & j & G1 & G2 & G3 & E & Hn); [|done..].
    destruct (block_unique None h live ls Hh a x d D i a1 x1 d D j) as (<- & _ & <-); [done..|]. congruence. }
  pose proof (nfree_delete a D Hok live i _ Hi Hlive) as Hnf. pose proof (nfree_bounds a D Hok live).
  destruct Hlt as [Hlt|]; [|done]. assert (Eu : u32 (free_cnt x + 1) = free_cnt x + 1) by (apply u32_small; destruct Hok; nia).
  unfold free. rewrite eqb_false by (unfold NULL; lia). apply wp_bind.
  eapply (block_to_arena_small _ a x d D i); [done..|]. apply wp_bind. eapply wp_get_arena; [done|]. rewrite Hd.
  apply wp_bind. eapply wp_get_desc; [done|]. unfold memset_bytes. wp_steps. apply wp_hlinked.
  eapply KListOps.list_push_front_spec; [exact Hrep| |unfold KList.NULL, addr; lia| |].
  { intros [He|He]%full_heads; [|done]. by apply (header_not_block None h live ls Hh d D a x d D i). }
  { destruct (hk_arena _ _ _ _ Hh a x Hx) as (_ & _ & _ & _ & _ & Hc). rewrite Hd in Hc. destruct Hc as (D' & HD' & _ & _ & Hlk).
    simplify_eq. by apply Hlk. }
  intros m Hrep' [Hto Hdom]. unfold put_arena. wp_steps. rewrite Eu.
  set (live1 := delete (blk a D i) live). set (x1 := mkArena (Some d) (free_cnt x + 1)).
  match goal with |- wp _ _ ?h0 => set (h1 := h0) end.
  assert (Hh1 : heap_ok (Some a) h1 live1 (<[d := addr (blk a D i) :: l]> ls)).
  { apply (heap_move None (Some a) h live live1 ls a x x1 d D i l (addr (blk a D i) :: l) m (h_bytes h1) Hh Hx Hd HD Hl Hi);
      subst live1 x1; [by left|done| |done|done|cbn; lia|by right| |left; by rewrite lookup_delete_eq|].
    - intros e He1 He2. apply Hto. set_solver.
    - intros b Hb. by rewrite lookup_delete_ne.
    - intros e. rewrite lookup_delete_eq, elem_of_cons. split; [|tauto].
      intros [->|He]; [tauto|]. left. split; [done|]. by intros ->. }
  assert (Hx1 : h_arenas h1 !! a = Some x1) by (cbn; by rewrite lookup_insert_eq).
  assert (Hbytes : forall y, y < blk a D i \/ blk a D i + block_size D <= y -> h_bytes h1 y = h_bytes h y).
  { intros y Hy. cbn. destruct (Z.leb_spec (blk a D i) y), (Z.ltb_spec y (blk a D i + block_size D)); cbn; (done || lia). }
  assert (HD1 : h_descs h1 !! d = Some D) by done. clearbody h1. destruct (Z.leb_spec (blocks_per_arena D) (free_cnt x + 1)) as [Hall|Hsome].
  2:{ wp_steps. eapply HQ; [|done]. eapply (heap_settle h1 live1 _ a x1 d D); [done..|subst x1; cbn; lia]. }
  apply wp_bind, wp_ASSERT; [apply Z.eqb_eq; cbn; lia|]. eapply (give_back_spec h1 live1 _ a x1 d D); [done..|subst x1; cbn; lia|].
  intros h2 ls2 Hh2 Eb. eapply HQ; [done|]. intros y Hy. rewrite Eb. by apply Hbytes.
Qed.

Lemma free_spec h live ls p sz (Q : unit -> heap P -> Prop) :
  heap_ok None h live ls -> live !! p = Some sz ->
  (forall h' ls', heap_ok None h' (delete p live) ls' ->
     (forall y, y < p \/ p + sz <= y -> h_bytes h' y = h_bytes h y) -> Q tt h') ->
  wp (free p) Q h.
Proof using Type.
  intros Hh Hp HQ. destruct (hk_live _ _ _ _ Hh p sz Hp) as (a & x & Hx & Hc). destruct (a_desc x) as [d|] eqn:Hd.
  { destruct Hc as (D & i & HD & Hi & -> & ->). by eapply free_small_spec. }
  destruct Hc as [-> ->]. destruct (hk_arena _ _ _ _ Hh a x Hx) as (A1 & A2 & A3 & A4 & A5 & _). unfold npages in *. rewrite Hd in *.
  unfold free. rewrite eqb_false by (unfold NULL; lia). apply wp_bind. eapply block_to_arena_big; [done..|].
  apply wp_bind. eapply wp_get_arena; [done|]. rewrite Hd. wp_steps. apply wp_paged.
  apply pa_free_ok; [apply Hh|done..|]. intros p Hpk Hman Hus. apply (HQ _ ls); [|done].
  by apply (heap_drop_big h live ls a x p (h_bytes h)).
Qed.

Lemma block_bytes_spec h live ls p sz (Q : Z -> heap P -> Prop) :
  heap_ok None h live ls -> live !! p = Some sz -> Q sz h -> wp (block_bytes p) Q h.
Proof using Type.
  intros Hh Hp HQ. destruct (hk_live _ _ _ _ Hh p sz Hp) as (a & x & Hx & Hc). unfold block_bytes. destruct (a_desc x) as [d|] eqn:Hd.
  - destruct Hc as (D & i & HD & Hi & -> & ->). destruct (block_spot None h live ls Hh a x d D i) as (B1 & B2 & B3 & B4 & B5); [done..|].
    destruct (small_arena None h live ls Hh a x d Hx Hd) as (_ & Ha & _ & D' & HD' & Hok & _). simplify_eq.
    apply wp_bind. eapply block_to_arena_small; [done..|]. apply wp_bind. eapply wp_get_arena; [done|]. rewrite Hd.
    apply wp_bind. eapply wp_get_desc; [done|]. by wp_steps.
  - destruct Hc as [-> ->]. destruct (hk_arena _ _ _ _ Hh a x Hx) as (A1 & A2 & A3 & A4 & A5 & _). unfold npages in *. rewrite Hd in *.
    apply wp_bind. eapply block_to_arena_big; [done..|]. apply wp_bind. eapply wp_get_arena; [done|]. rewrite Hd. wp_steps.
    rewrite pg_ofs_mod by lia. rewrite Z.add_mod, A1 by lia. change ((0 + 12 mod 4096) mod 4096) with 12.
    rewrite u32_small; [done|]. change PGSIZE with 4096. lia.
Qed.

Lemma heap_set_bytes ex h live ls f : heap_ok ex h live ls -> heap_ok ex (set_bytes f h) live ls.
Proof using Type. intros [K1 K2 K3 K4 K5 K6 K7 K8 K9 K10]. by split. Qed.

(** * What the allocator promises

    The abstract state is the blocks handed out, with their sizes, and the
    bytes of memory. *)

Inductive request := Malloc (size : Z) | Calloc (a b : Z) | Realloc (old size : Z) | Free (p : Z).

Definition handle (r : request) : ST (heap P) Z :=
  match r with
  | Malloc n => malloc n
  | Calloc a b => calloc a b
  | Realloc p n => realloc p n
  | Free p => free p;;; ret NULL
  end.

(** A place for a new block of [sz] bytes. *)
Record place live (n b sz : Z) : Prop := {
  pl_new : live !! b = None;
  pl_pos : 0 < b;
  pl_aligned : b mod 4 = 0;
  pl_size : n <= sz;
  pl_disjoint : forall b' sz', live !! b' = Some sz' -> b + sz <= b' \/ b' + sz' <= b;
}.

(** Two memories agree except for [n] bytes at [p]. *)
Definition agree_but (f g : Z -> Z) (p n : Z) : Prop := forall y, y < p \/ p + n <= y -> g y = f y.

Inductive grants (oom : Z -> Prop) live (f : Z -> Z) : request -> Z -> gmap Z Z -> (Z -> Z) -> Prop :=
| grant_malloc n b sz : place live n b sz -> grants oom live f (Malloc n) b (<[b := sz]> live) f
| refuse_malloc n : n = 0 \/ oom n -> grants oom live f (Malloc n) NULL live f
| grant_calloc a b p sz g : place live (a * b) p sz -> agree_but f g p (a * b) ->
    (forall k, 0 <= k < a * b -> g (p + k) = 0) -> grants oom live f (Calloc a b) p (<[p := sz]> live) g
| refuse_calloc a b : a = 0 \/ b = 0 \/ oom (a * b) -> grants oom live f (Calloc a b) NULL live f
| grant_free p sz g : live !! p = Some sz -> agree_but f g p sz -> grants oom live f (Free p) NULL (delete p live) g
| free_null : grants oom live f (Free NULL) NULL live f
| grant_realloc p sz n b sz' g : n <> 0 -> live !! p = Some sz -> place live n b sz' ->
    (forall k, 0 <= k < n -> k < sz -> g (b + k) = f (p + k)) ->
    (forall y, y < p \/ p + sz <= y -> y < b \/ b + n <= y -> g y = f y) ->
    grants oom live f (Realloc p n) b (delete p (<[b := sz']> live)) g
| refuse_realloc p n : n <> 0 -> oom n -> grants oom live f (Realloc p n) NULL live f
| realloc_null n b live' g : grants oom live f (Malloc n) b live' g -> grants oom live f (Realloc NULL n) b live' g
| realloc_zero p live' g : grants oom live f (Free p) NULL live' g -> grants oom live f (Realloc p 0) NULL live' g.

(** Requests a client may make: no size near 2^32, and only blocks it has. *)
Definition valid live (r : request) : Prop :=
  match r with
  | Malloc n => 0 <= n <= 2 ^ 32 - 4108
  | Calloc a b => 0 <= a /\ 0 <= b /\ a * b <= 2 ^ 32 - 4108
  | Realloc p n => (p = NULL \/ is_Some (live !! p)) /\ 0 <= n <= 2 ^ 32 - 4108
  | Free p => p = NULL \/ is_Some (live !! p)
  end.

Definition served h live r : Z -> heap P -> Prop := fun b h' =>
  exists live' ls', grants (out_of_pages h) live (h_bytes h) r b live' (h_bytes h') /\ heap_ok None h' live' ls'.

Lemma place_new h live ls n b sz : live !! b = None -> 0 < b -> b mod 4 = 0 -> n <= sz ->
  heap_ok None h (<[b := sz]> live) ls -> place live n b sz.
Proof using Type.
  intros Hb H0 H4 Hn Hh. split; try done. intros b' sz' Hb'. assert (b <> b') by congruence.
  apply (live_disjoint None h _ ls Hh); [by rewrite lookup_insert_eq|by rewrite lookup_insert_ne|done].
Qed.

Lemma serve_malloc h live ls n : heap_ok None h live ls -> 0 <= n <= 2 ^ 32 - 4108 -> wp (malloc n) (served h live (Malloc n)) h.
Proof using Type.
  intros Hh Hn. apply (malloc_spec h live ls n); [done|done| |].
  - intros Ho. exists live, ls. split; [by apply refuse_malloc|done].
  - intros b sz h' ls' Hb H0 H4 Hs Hh' Eb. eexists _, ls'. split; [|exact Hh']. rewrite Eb. apply grant_malloc. by eapply place_new.
Qed.

Lemma serve_calloc h live ls a b : heap_ok None h live ls -> valid live (Calloc a b) -> wp (calloc a b) (served h live (Calloc a b)) h.
Proof using Type.
  intros Hh (Ha & Hb & Hs). unfold calloc. rewrite u32_small by nia. cbn zeta.
  destruct ((a * b <? a) || (a * b <? b)) eqn:Et.
  - wp_steps. exists live, ls. split; [apply refuse_calloc|done]. apply orb_prop in Et as [Et%Z.ltb_lt|Et%Z.ltb_lt]; nia.
  - clear Et. apply wp_bind, (malloc_spec h live ls (a * b)); [done|nia| |].
    + intros Ho. change (NULL =? NULL) with true. cbn [negb]. wp_steps. exists live, ls. split; [|done]. apply refuse_calloc.
      destruct Ho as [E|]; [|tauto]. apply Z.mul_eq_0 in E. tauto.
    + intros p sz h' ls' Hp P0 P4 Hs' Hh' Eb. rewrite eqb_false by (unfold NULL; lia). cbn [negb]. unfold memset_bytes. wp_steps.
      eexists _, ls'. split; [|by apply heap_set_bytes]. apply grant_calloc; [by eapply place_new| |].
      * intros y Hy. cbn. rewrite Eb. destruct (Z.leb_spec p y), (Z.ltb_spec y (p + a * b)); cbn; (done || lia).
      * intros k Hk. cbn. destruct (Z.leb_spec p (p + k)), (Z.ltb_spec (p + k) (p + a * b)); cbn; (done || lia).
Qed.

Lemma serve_free h live ls p : heap_ok None h live ls -> valid live (Free p) -> wp (free p) (fun _ => served h live (Free p) NULL) h.
Proof using Type.
  intros Hh [->|[sz Hp]].
  - unfold free. change (NULL =? NULL) with true. wp_steps. exists live, ls. split; [apply free_null|done].
  - eapply free_spec; [done..|]. intros h' ls' Hh' Hb. eexists _, ls'. split; [by eapply grant_free|done].
Qed.

(** [realloc] of a block, to another size. *)
Lemma serve_move h live ls p sz n : heap_ok None h live ls -> live !! p = Some sz -> 0 < n <= 2 ^ 32 - 4108 ->
  wp (realloc p n) (served h live (Realloc p n)) h.
Proof using Type.
  intros Hh Hp Hn. destruct (hk_live _ _ _ _ Hh p sz Hp) as (a & x & Hx & Hc).
  pose proof (live_spot None h live ls Hh a x p sz Hx Hc) as (Hap & Hsz & _). destruct (hk_arena _ _ _ _ Hh a x Hx) as (_ & Ha & _).
  unfold realloc. rewrite eqb_false by lia. apply wp_bind, (malloc_spec h live ls n); [done|lia| |].
  { intros [?|Ho]; [lia|]. rewrite andb_false_r. wp_steps. exists live, ls. split; [apply refuse_realloc; [lia|done]|done]. }
  intros b sz' h' ls' Hb P0 P4 Hs Hh' Eb. assert (Hne : b <> p) by congruence.
  pose proof (place_new h' live ls' n b sz' Hb P0 P4 Hs Hh') as Hpl. pose proof (pl_disjoint _ _ _ _ Hpl p sz Hp) as Hdis.
  assert (Hp' : <[b := sz']> live !! p = Some sz) by by rewrite lookup_insert_ne.
  rewrite !eqb_false by (unfold NULL; lia). cbn [negb andb]. apply wp_bind, wp_bind.
  eapply block_bytes_spec; [exact Hh'|exact Hp'|]. unfold memcpy_bytes. wp_steps. set (k0 := if n <? sz then n else sz).
  assert (Hk0 : k0 <= n /\ k0 <= sz /\ (n <= k0 \/ sz <= k0)) by (subst k0; destruct (Z.ltb_spec n sz); lia).
  eapply free_spec; [by apply heap_set_bytes|exact Hp'|]. intros h2 ls2 Hh2 Hag. wp_steps. eexists _, ls2. split; [|exact Hh2].
  apply (grant_realloc _ _ _ p sz n b sz'); [lia|done|done| |].
  - intros k Hk Hks. rewrite Hag by lia. cbn. rewrite Eb. destruct (Z.leb_spec b (b + k)); [|lia].
    destruct (Z.ltb_spec (b + k) (b + k0)); [|lia]. cbn. f_equal. lia.
  - intros y Hy1 Hy2. rewrite Hag by done. cbn. rewrite Eb. destruct (Z.leb_spec b y), (Z.ltb_spec y (b + k0)); cbn; (done || lia).
Qed.

Lemma serve_realloc h live ls p n : heap_ok None h live ls -> valid live (Realloc p n) ->
  wp (realloc p n) (served h live (Realloc p n)) h.
Proof using Type.
  intros Hh [Hp Hn]. destruct (decide (n = 0)) as [->|Hn0].
  { unfold realloc. change (0 =? 0) with true. cbv iota. apply wp_bind. eapply wp_mono; [by eapply serve_free|].
    intros _ h' (live' & ls' & Hg & Hh'). wp_steps. exists live', ls'. split; [by apply realloc_zero|done]. }
  destruct Hp as [->|[sz Hp]]; [|eapply serve_move; [done..|lia]].
  unfold realloc. rewrite eqb_false by done. apply wp_bind. eapply wp_mono; [by eapply serve_malloc|].
  intros b h' (live' & ls' & Hg & Hh'). wp_steps. exists live', ls'. split; [by apply realloc_null|done].
Qed.

(** * malloc_init *)

Definition init_descs (heads : list KList.llist) : list desc :=
  imap (fun i L => let size := 16 * 2 ^ Z.of_nat i in mkDesc size ((PGSIZE - sizeof_arena) / size) L) heads.

Definition head_elems (heads : list KList.llist) : list nat := heads ≫= (fun L => [KList.l_head L; KList.l_tail L]).

(** A heap before [malloc_init], with room for the list headers. *)
Record blank h (heads : list KList.llist) : Prop := {
  bl_pages : pa_ok (h_pages h);
  bl_arenas : h_arenas h = ∅;
  bl_descs : h_descs h = [];
  bl_heads : (7 <= length heads)%nat;
  bl_nodup : NoDup (head_elems heads);
  bl_null : KList.NULL ∉ head_elems heads;
  bl_links : forall e, e ∈ head_elems heads -> is_Some (h_links h !! e);
  bl_outside : forall e, e ∈ head_elems heads -> ~ pa_managed (h_pages h) (Z.of_nat e);
}.

Lemma init_descs_lookup heads i D : init_descs heads !! i = Some D -> exists L, heads !! i = Some L /\
  D = mkDesc (16 * 2 ^ Z.of_nat i) ((PGSIZE - sizeof_arena) / (16 * 2 ^ Z.of_nat i)) L.
Proof using Type. unfold init_descs. rewrite list_lookup_imap_Some. intros (L & HL & ->). by exists L. Qed.

Lemma elem_of_head_elems heads e : e ∈ head_elems heads <-> exists L, L ∈ heads /\ (e = KList.l_head L \/ e = KList.l_tail L).
Proof using Type. unfold head_elems. rewrite list_elem_of_bind. set_solver. Qed.

Lemma head_elems_apart heads i j L L' e : NoDup (head_elems heads) -> heads !! i = Some L -> heads !! j = Some L' ->
  e ∈ [KList.l_head L; KList.l_tail L] -> e ∈ [KList.l_head L'; KList.l_tail L'] -> i = j.
Proof using Type.
  revert i j. induction heads as [|K heads IH]; intros i j Hnd Hi Hj He He'; [done|].
  change (head_elems (K :: heads)) with ([KList.l_head K; KList.l_tail K] ++ head_elems heads) in Hnd. apply NoDup_app in Hnd as (_ & Hx & Hnd).
  assert (Hin : forall n M, heads !! n = Some M -> e ∈ [KList.l_head M; KList.l_tail M] -> e ∈ head_elems heads).
  { intros n M HM HeM. apply elem_of_head_elems. exists M. split; [by eapply list_elem_of_lookup_2|set_solver]. }
  destruct i as [|i], j as [|j]; cbn in Hi, Hj; simplify_eq; [done| | |f_equal; by apply (IH i j)].
  - exfalso. apply (Hx e He). by apply (Hin j L').
  - exfalso. apply (Hx e He'). by apply (Hin i L).
Qed.

(** After the loop. *)
Lemma blank_heap_ok h heads m dn rest : blank h heads -> heads = dn ++ rest -> length dn = 7%nat ->
  (forall L, L ∈ dn -> KListSpec.rep m L []) ->
  heap_ok None (mkHeap (h_pages h) (h_arenas h) m (init_descs dn) (h_bytes h)) ∅ (replicate 7 []).
Proof using Type.
  intros [B1 B2 B3 B4 B5 B6 B7 B8] -> Hlen Hrep.
  assert (Hsub : forall L e, L ∈ dn -> e ∈ [KList.l_head L; KList.l_tail L] -> e ∈ head_elems (dn ++ rest)).
  { intros L e HL He. apply elem_of_head_elems. exists L. set_solver. }
  split; cbn [h_pages h_descs h_arenas h_links]; try done.
  - intros d D HD. pose proof (lookup_lt_Some _ _ _ HD) as Hlt. apply init_descs_lookup in HD as (L & HL & ->).
    apply lookup_lt_Some in HL. rewrite Hlen in HL. clear -HL.
    do 7 (destruct d as [|d]; [by split; vm_compute|]). lia.
  - unfold init_descs. rewrite length_imap. by rewrite Hlen.
  - intros d D l HD Hl. apply init_descs_lookup in HD as (L & HL & ->). apply lookup_replicate in Hl as [-> _]. cbn.
    apply Hrep. by eapply list_elem_of_lookup_2.
  - intros d D e HD He. apply init_descs_lookup in HD as (L & HL & ->). apply B8. eapply Hsub; [by eapply list_elem_of_lookup_2|done].
  - intros d d' D D' e Hne HD HD' He He'. apply init_descs_lookup in HD as (L & HL & ->). apply init_descs_lookup in HD' as (L' & HL' & ->).
    apply Hne. eapply (head_elems_apart (dn ++ rest)); [done|by apply lookup_app_l_Some|by apply lookup_app_l_Some|done|done].
  - intros a x. by rewrite B2, lookup_empty.
  - intros a a' x x' y. by rewrite B2, lookup_empty.
  - intros d D l e HD Hl. apply lookup_replicate in Hl as [-> _]. split; [set_solver|]. rewrite B2. by intros (a & x & i & Hx & _).
Qed.

Lemma malloc_init_spec h heads (Q : unit -> heap P -> Prop) : blank h heads ->
  (forall h', heap_ok None h' ∅ (replicate 7 []) -> h_pages h' = h_pages h -> Q tt h') -> wp (malloc_init heads) Q h.
Proof using Type.
  intros Hb HQ. unfold malloc_init.
  apply (wp_loop _ (fun k '(size, rest) h' => exists dn m, heads = dn ++ rest /\ length dn = (7 - k)%nat /\ (k <= 7)%nat /\
    size = 16 * 2 ^ Z.of_nat (length dn) /\ h' = mkHeap (h_pages h) (h_arenas h) m (init_descs dn) (h_bytes h) /\
    (forall e, is_Some (m !! e) <-> is_Some (h_links h !! e)) /\ forall L, L ∈ dn -> KListSpec.rep m L [])) with (k := 7%nat); [| |lia].
  2:{ exists [], (h_links h). split_and!; try done; [|set_solver]. destruct h. cbn. pose proof (bl_descs _ _ Hb) as E. cbn in E. by rewrite E. }
  intros k [size rest] h' (dn & m & Eh & Hlen & Hk & -> & -> & Hdom & Hrep). destruct k as [|k].
  { rewrite Hlen. cbn. wp_steps. apply HQ; [|done]. by eapply blank_heap_ok. }
  rewrite (proj2 (Z.ltb_lt _ _)); cycle 1.
  { rewrite Hlen. do 7 (destruct k as [|k]; [done|]). lia. }
  destruct rest as [|L rest].
  { exfalso. pose proof (bl_heads _ _ Hb) as H7. rewrite Eh, app_nil_r in H7. lia. }
  pose proof Hb as [_ _ _ _ B5 B6 B7 _]. rewrite Eh in B5, B6, B7.
  assert (HL : forall e, e ∈ KListSpec.full L [] -> e ∈ head_elems (dn ++ L :: rest)).
  { intros e He. apply elem_of_head_elems. exists L. unfold KListSpec.full in He. set_solver. }
  assert (Ha : head_elems (dn ++ L :: rest) = head_elems dn ++ [KList.l_head L; KList.l_tail L] ++ head_elems rest) by exact (bind_app _ dn (L :: rest)).
  rewrite Ha in B5. apply NoDup_app in B5 as (_ & Bx & B5). apply NoDup_app in B5 as (B5 & _).
  wp_steps. apply wp_hlinked. cbn [h_links set_descs]. apply KListOps.list_init_spec.
  - apply Hdom, B7, HL. by left.
  - apply Hdom, B7, HL. by right; left.
  - done.
  - intros He. apply B6, HL, He.
  - intros m' Hm' [Hto Hdm]. wp_steps. exists k. split; [lia|]. exists (dn ++ [L]), m'. rewrite length_app. cbn [length].
    assert (E2 : 16 * 2 ^ Z.of_nat (length dn) * 2 = 16 * 2 ^ Z.of_nat (length dn + 1)).
    { rewrite Nat2Z.inj_add, Z.pow_add_r by lia. change (2 ^ Z.of_nat 1) with 2. lia. }
    split_and!; try done; try lia.
    + by rewrite <- app_assoc.
    + unfold set_links, set_descs. cbn. f_equal. unfold init_descs. rewrite imap_app. cbn. by rewrite Nat.add_0_r.
    + intros e. rewrite Hdm. apply Hdom.
    + intros L' [HL'|HL'%list_elem_of_singleton]%elem_of_app; [|by subst L']. eapply KListFam.rep_frame; [by apply Hrep|].
      intros e He. apply Hto. intros He'. apply (Bx e); [apply elem_of_head_elems; exists L'; unfold KListSpec.full in He; set_solver|].
      apply elem_of_app. left. exact He'.
Qed.

(** C4: The allocator refines a set of disjoint blocks. In a heap whose blocks
    are [live], every valid [malloc], [calloc], [realloc] or [free] runs to
    its end without a failed assertion, and what it does is what the
    specification [grants]: a new block is aligned, large enough and
    disjoint from every block handed out, [calloc]'s is zero, [realloc]'s
    has the old contents, no byte of another block changes, and a request
    is refused only if it is for no bytes or there are no pages. The
    invariant holds afterwards, for the new set of blocks. *)
Theorem allocator_refines h live ls r : heap_ok None h live ls -> valid live r ->
  exists b h' live' ls', handle r h = Ok (b, h') /\
    grants (out_of_pages h) live (h_bytes h) r b live' (h_bytes h') /\ heap_ok None h' live' ls'.
Proof using Type.
  intros Hh Hv. assert (Hw : wp (handle r) (served h live r) h).
  { destruct r; cbn [handle]; [by eapply serve_malloc|by eapply serve_calloc|by eapply serve_realloc|].
    apply wp_bind. eapply wp_mono; [by eapply serve_free|]. intros [] h' Hs. by wp_steps. }
  apply wp_ok in Hw as (b & h' & E & live' & ls' & Hg & Hh'). by exists b, h', live', ls'.
Qed.

(** Two sizes that wrap around. [malloc] of a size within twelve bytes of
    2^32 adds the arena's header and wraps: the block has 4084 bytes.
    [calloc]'s test for overflow lets 65537 times 65537 pass, and the block
    has 135156 bytes, not 2^32 and more. A null pointer is returned only
    if there is no page. *)
Theorem allocation_sizes_wrap h live ls size : heap_ok None h live ls -> 2 ^ 32 - 12 < size < 2 ^ 32 ->
  (exists b h', malloc size h = Ok (b, h') /\
     (b = NULL /\ no_pages h 1 \/ heap_ok None h' (<[b := 4084]> live) ls /\ live !! b = None)) /\
  (exists b h', calloc 65537 65537 h = Ok (b, h') /\
     (b = NULL /\ no_pages h 33 \/ heap_ok None h' (<[b := 135156]> live) ls /\ live !! b = None)).
Proof using Type.
  intros Hh Hs. split; apply wp_ok.
  - unfold malloc. rewrite eqb_false by lia. wp_steps. rewrite (find_desc_big h live ls) by (done || lia).
    assert (En : big_pages size = 1).
    { unfold big_pages, sizeof_arena. change PGSIZE with 4096. unfold u32. replace (size + 12) with (size + 12 - 2 ^ 32 + 1 * 2 ^ 32) by lia.
      rewrite Z.mod_add by lia. rewrite (Z.mod_small (size + 12 - 2 ^ 32)) by lia. rewrite Z.mod_small by lia.
      symmetry. apply (Z.div_unique _ _ _ (size + 12 - 2 ^ 32 - 1)); lia. }
    apply (malloc_big_spec h live ls size 1); [done|done|lia|by left|]. intros b h' Hb _ _ Hh' _. by right.
  - unfold calloc. change (u32 (65537 * 65537)) with 131073. cbn. wp_steps. unfold malloc.
    change (131073 =? 0) with false. wp_steps. rewrite (find_desc_big h live ls) by (done || lia).
    apply (malloc_big_spec h live ls 131073 33); [done|done|lia| |].
    + intros Hn. change (NULL =? NULL) with true. cbn [negb]. wp_steps. by left.
    + intros b h' Hb Hb0 _ Hh' _. rewrite eqb_false by (unfold NULL; lia). cbn [negb]. unfold memset_bytes. wp_steps. right.
      split; [by apply heap_set_bytes|done].
Qed.

End specs.

(** * The kernel's heap *)

(** The headers of the free lists lie in the kernel's data, below the pool. *)
Definition demo_heads : list KList.llist := (fun i => KList.mkList (100 + 40 * i) (108 + 40 * i)) <$> seq 0 10.

Definition demo_links : gmap nat KList.list_elem := list_to_map ((fun e => (e, KList.mkElem 0 0)) <$> head_elems demo_heads).

Lemma demo_elems : Forall (fun e => (e < 1000)%nat /\ is_Some (demo_links !! e)) (head_elems demo_heads).
Proof. apply (bool_decide_unpack _). by vm_compute. Qed.

Lemma demo_blank s : demo_pages = Ok s -> pages_ok s -> blank (mkHeap s ∅ demo_links [] (fun _ => 0)) demo_heads.
Proof.
  intros E Hs. pose proof (po_base _ (pk_kernel _ Hs)) as Hb. split; cbn [h_pages h_arenas h_descs h_links].
  - exact Hs.
  - reflexivity.
  - reflexivity.
  - by vm_compute; lia.
  - apply (bool_decide_unpack _). by vm_compute.
  - apply (bool_decide_unpack _). by vm_compute.
  - intros e He. pose proof (proj1 (Forall_forall _ _) demo_elems e He) as [_ H]. exact H.
  - intros e He [Hlo _]. pose proof (proj1 (Forall_forall _ _) demo_elems e He) as [H _]. cbn in Hlo. lia.
Qed.

(** A heap of the kernel after [palloc_init] and [malloc_init]. *)
Lemma demo_heap : exists s h, demo_pages = Ok s /\ malloc_init demo_heads (mkHeap s ∅ demo_links [] (fun _ => 0)) = Ok (tt, h) /\
  heap_ok None h ∅ (replicate 7 []).
Proof.
  destruct demo_pages_ok as (s & E & Hs). exists s.
  assert (Hw : wp (malloc_init demo_heads) (fun _ h => heap_ok None h ∅ (replicate 7 [])) (mkHeap s ∅ demo_links [] (fun _ => 0))).
  { eapply malloc_init_spec; [by apply demo_blank|]. done. }
  apply wp_ok in Hw as ([] & h & Eh & Hh). exists h. split; [exact E|]. split; [exact Eh|exact Hh].
Qed.

Lemma allocator_refines_witness : exists s h, demo_pages = Ok s /\
  malloc_init demo_heads (mkHeap s ∅ demo_links [] (fun _ => 0)) = Ok (tt, h) /\ exists b h', handle (Malloc 100) h = Ok (b, h').
Proof.
  destruct demo_heap as (s & h & E1 & E2 & Hh). exists s, h. split; [exact E1|]. split; [exact E2|].
  destruct (allocator_refines h ∅ (replicate 7 []) (Malloc 100) Hh ltac:(cbn; lia)) as (b & h' & _ & _ & H & _). exists b, h'. exact H.
Defined.

Lemma allocation_sizes_wrap_witness : exists s h, demo_pages = Ok s /\
  malloc_init demo_heads (mkHeap s ∅ demo_links [] (fun _ => 0)) = Ok (tt, h) /\ exists b h', malloc 4294967292 h = Ok (b, h').
Proof.
  destruct demo_heap as (s & h & E1 & E2 & Hh). exists s, h. split; [exact E1|]. split; [exact E2|].
  destruct (allocation_sizes_wrap h ∅ (replicate 7 []) 4294967292 Hh ltac:(lia)) as [(b & h' & H & _) _]. exists b, h'. exact H.
Defined.

End MallocProps.
