(* ===== verification/Hash.v ===== *)
(** Hash tables (src/src/lib/kernel/hash.c, hash.h), over any allocator of
    blocks that keeps the promises of [BlockAllocator].

    A hash element is its list element, in the store of [KList]. An array of
    buckets is a block of the allocator; its list headers are in the store
    while the block is allocated. The caller's [hash] and [less] functions
    and the actions get their auxiliary data by closure. *)
From stdpp Require Export gmap.
From S2P Require Import Prelude CString KList KListSpec KListSort KListOps Palloc Malloc MallocSpec MallocOps MallocProps.
From stdpp Require Import options.

#[local] Open Scope Z_scope.

Module Hash.

(** * Blocks

    [al_ok s live]: the blocks handed out are [live], with their sizes. *)
Class BlockAllocator (A : Type) := {
  al_malloc : Z -> ST A Z;
  al_free : Z -> ST A unit;
  al_ok : A -> gmap Z Z -> Prop;
  al_pos : forall s live b sz, al_ok s live -> live !! b = Some sz -> 0 < b;
  al_malloc_ok : forall s live n (Q : Z -> A -> Prop), al_ok s live -> 0 < n <= 2 ^ 32 - 4108 -> Q 0 s ->
    (forall b sz s', al_ok s' (<[b := sz]> live) -> live !! b = None -> 0 < b -> n <= sz ->
       (forall b' sz', live !! b' = Some sz' -> b + sz <= b' \/ b' + sz' <= b) -> Q b s') ->
    wp (al_malloc n) Q s;
  al_free_ok : forall s live p sz (Q : unit -> A -> Prop), al_ok s live -> live !! p = Some sz ->
    (forall s', al_ok s' (delete p live) -> Q tt s') -> wp (al_free p) Q s;
}.

(** The kernel's allocator keeps them. *)
#[export, refine] Instance kernel_heap {P} `{Malloc.PageAllocator P} : BlockAllocator (Malloc.heap P) := {|
  al_malloc := Malloc.malloc;
  al_free := Malloc.free;
  al_ok h live := exists ls, MallocSpec.heap_ok None h live ls;
|}.
Proof.
  - intros h live b sz [ls Hh] Hb. destruct (MallocSpec.hk_live _ _ _ _ Hh b sz Hb) as (a & x & Hx & Hc).
    pose proof (MallocSpec.live_spot None h live ls Hh a x b sz Hx Hc). destruct (MallocSpec.hk_arena _ _ _ _ Hh a x Hx) as (_ & Ha & _). lia.
  - intros h live n Q [ls Hh] Hn Q0 HQ. apply (MallocProps.malloc_spec h live ls n); [done|lia|done|].
    intros b sz h' ls' Hb H0 H4 Hs Hh' _. apply (HQ b sz); try done; [by exists ls'|].
    apply (MallocProps.place_new h' live ls' n b sz); done.
  - intros h live p sz Q [ls Hh] Hp HQ. eapply MallocProps.free_spec; [done..|]. intros h' ls' Hh' _. apply HQ. by exists ls'.
Defined.

(** * The table *)

Record hash := mkHash {
  elem_cnt : Z;
  bucket_cnt : Z;
  buckets : nat;
}.

Record hs (A : Type) := mkHS {
  hs_mem : A;
  hs_links : gmap nat KList.list_elem;
  hs_tab : hash;
}.
Arguments mkHS {A}.
Arguments hs_mem {A}.
Arguments hs_links {A}.
Arguments hs_tab {A}.

Record hash_iterator := mkIter { it_bucket : nat; it_elem : nat }.

Definition FNV_32_PRIME : Z := 16777619.
Definition FNV_32_BASIS : Z := 2166136261.

Fixpoint hash_bytes_loop (m : list Z) (buf size : nat) (hash : Z) : res Z :=
  match size with
  | O => Ok hash
  | S size =>
      let* c := CString.load m buf in
      hash_bytes_loop m (S buf) size (Z.lxor (u32 (hash * FNV_32_PRIME)) c)
  end.
Definition hash_bytes (m : list Z) (buf size : nat) : res Z :=
  check CString.nonnull buf in hash_bytes_loop m buf size FNV_32_BASIS.

Fixpoint hash_string_loop (fuel : nat) (m : list Z) (s : nat) (hash : Z) : res Z :=
  match fuel with
  | O => Err Fault
  | S fuel =>
      let* c := CString.load m s in
      if c =? 0 then Ok hash
      else hash_string_loop fuel m (S s) (Z.lxor (u32 (hash * FNV_32_PRIME)) c)
  end.
Definition hash_string (m : list Z) (s : nat) : res Z :=
  check CString.nonnull s in hash_string_loop (length m) m s FNV_32_BASIS.

(** The bytes of an [int], lowest first; [i] itself is at address 1. *)
Definition int_bytes (i : Z) : list Z := [u32 i mod 256; u32 i / 256 mod 256; u32 i / 65536 mod 256; u32 i / 16777216].
Definition hash_int (i : Z) : res Z := hash_bytes (0 :: int_bytes i) 1 4.

Definition turn_off_least_1bit (x : Z) : Z := Z.land x (u32 (x - 1)).
Definition is_power_of_2 (x : Z) : bool := negb (x =? 0) && (turn_off_least_1bit x =? 0).

Definition BEST_ELEMS_PER_BUCKET : Z := 2.

(** [struct list]: the headers, eight bytes each. *)
Definition sizeof_list : Z := 16.
Definition list_at (p : nat) : KList.llist := KList.mkList p (p + 8).
Definition bucket_at (p : nat) (i : Z) : nat := (p + Z.to_nat (i * sizeof_list))%nat.

(** The headers of a new array of lists, and of one that goes. *)
Fixpoint raw_lists (n : nat) (p : nat) (m : gmap nat KList.list_elem) : gmap nat KList.list_elem :=
  match n with
  | O => m
  | S n => raw_lists n (p + 16) (<[p := KList.mkElem 0 0]> (<[(p + 8)%nat := KList.mkElem 0 0]> m))
  end.
Fixpoint drop_lists (n : nat) (p : nat) (m : gmap nat KList.list_elem) : gmap nat KList.list_elem :=
  match n with
  | O => m
  | S n => drop_lists n (p + 16) (delete p (delete (p + 8)%nat m))
  end.

Section hash.
Context {A : Type} {BA : BlockAllocator A}.
Context (hash_of : nat -> Z) (less : nat -> nat -> bool).

Abbreviation HS := (ST (hs A)).

Definition set_mem (x : A) (s : hs A) : hs A := mkHS x (hs_links s) (hs_tab s).
Definition set_links x (s : hs A) : hs A := mkHS (hs_mem s) x (hs_tab s).
Definition set_tab x (s : hs A) : hs A := mkHS (hs_mem s) (hs_links s) x.

Definition alloc {B} (m : ST A B) : HS B :=
  fun s => match m (hs_mem s) with Ok (b, x) => Ok (b, set_mem x s) | Err e => Err e end.
Definition links {B} (m : ST (gmap nat KList.list_elem) B) : HS B :=
  fun s => match m (hs_links s) with Ok (b, x) => Ok (b, set_links x s) | Err e => Err e end.

Definition set_elem_cnt (n : Z) : HS unit := modify (fun s => set_tab (mkHash n (bucket_cnt (hs_tab s)) (buckets (hs_tab s))) s).
Definition set_buckets (n : Z) (p : nat) : HS unit := modify (fun s => set_tab (mkHash (elem_cnt (hs_tab s)) n p) s).

(** [malloc] and [free] of an array of [n] lists. *)
Definition malloc_lists (n : Z) : HS nat :=
  let! p := alloc (al_malloc (u32 (sizeof_list * n))) in
  modify (fun s => set_links (if p =? 0 then hs_links s else raw_lists (Z.to_nat n) (Z.to_nat p) (hs_links s)) s);;;
  ret (Z.to_nat p).
Definition free_lists (n : Z) (p : nat) : HS unit :=
  modify (fun s => set_links (drop_lists (Z.to_nat n) p (hs_links s)) s);;;
  alloc (al_free (Z.of_nat p)).

Definition hash_clear (destructor : option (nat -> HS unit)) : HS unit :=
  loop (fun i =>
    let! h := gets hs_tab in
    if i <? bucket_cnt h then
      let bucket := list_at (bucket_at (buckets h) i) in
      (match destructor with
       | Some destructor =>
           loop (fun _ : unit =>
             let! empty := links (KList.list_empty bucket) in
             if empty : bool then ret (inr tt)
             else
               let! list_elem := links (KList.list_pop_front bucket) in
               destructor list_elem;;;
               ret (inl tt)) tt
       | None => ret tt
       end);;;
      links (KList.list_init bucket);;;
      ret (inl (i + 1))
    else ret (inr tt)) 0;;;
  set_elem_cnt 0.

Definition hash_init : HS bool :=
  set_elem_cnt 0;;;
  let! p := malloc_lists 4 in
  set_buckets 4 p;;;
  if negb (p =? KList.NULL)%nat then
    hash_clear None;;;
    ret true
  else ret false.

Definition hash_destroy (destructor : option (nat -> HS unit)) : HS unit :=
  (match destructor with Some _ => hash_clear destructor | None => ret tt end);;;
  let! h := gets hs_tab in
  free_lists (bucket_cnt h) (buckets h).

Definition find_bucket (e : nat) : HS KList.llist :=
  let! h := gets hs_tab in
  ret (list_at (bucket_at (buckets h) (Z.land (hash_of e) (u32 (bucket_cnt h - 1))))).

Definition find_elem (bucket : KList.llist) (e : nat) : HS nat :=
  let! i := links (KList.list_begin bucket) in
  loop (fun i =>
    if (i =? KList.list_end bucket)%nat then ret (inr KList.NULL)
    else if negb (less i e) && negb (less e i) then ret (inr i)
    else let! i := links (KList.list_next i) in ret (inl i)) i.

Definition insert_elem (bucket : KList.llist) (e : nat) : HS unit :=
  let! h := gets hs_tab in
  set_elem_cnt (u32 (elem_cnt h + 1));;;
  links (KList.list_push_front bucket e).

Definition remove_elem (e : nat) : HS unit :=
  let! h := gets hs_tab in
  set_elem_cnt (u32 (elem_cnt h - 1));;;
  links (KList.list_remove e);;;
  ret tt.

(** The number of buckets for a number of elements. *)
Definition ideal_bucket_cnt (elem_cnt : Z) : HS Z :=
  let n := elem_cnt / BEST_ELEMS_PER_BUCKET in
  let n := if n <? 4 then 4 else n in
  loop (fun n => if negb (is_power_of_2 n) then ret (inl (turn_off_least_1bit n)) else ret (inr n)) n.

(** The elements of the old bucket from [elem] on go to their new buckets. *)
Definition move_bucket (old_bucket : KList.llist) : HS unit :=
  let! elem := links (KList.list_begin old_bucket) in
  loop (fun elem =>
    if (elem =? KList.list_end old_bucket)%nat then ret (inr tt)
    else
      let! new_bucket := find_bucket elem in
      let! next := links (KList.list_next elem) in
      links (KList.list_remove elem);;;
      links (KList.list_push_front new_bucket elem);;;
      ret (inl next)) elem.

Definition init_lists (n : Z) (p : nat) : HS unit :=
  loop (fun i =>
    if i <? n then links (KList.list_init (list_at (bucket_at p i)));;; ret (inl (i + 1))
    else ret (inr tt)) 0.

Definition rehash : HS unit :=
  let! h := gets hs_tab in
  let old_buckets := buckets h in
  let old_bucket_cnt := bucket_cnt h in
  let! new_bucket_cnt := ideal_bucket_cnt (elem_cnt h) in
  if new_bucket_cnt =? old_bucket_cnt then ret tt
  else
    let! new_buckets := malloc_lists new_bucket_cnt in
    if (new_buckets =? KList.NULL)%nat then ret tt
    else
      init_lists new_bucket_cnt new_buckets;;;
      set_buckets new_bucket_cnt new_buckets;;;
      loop (fun i =>
        if i <? old_bucket_cnt then
          move_bucket (list_at (bucket_at old_buckets i));;;
          ret (inl (i + 1))
        else ret (inr tt)) 0;;;
      free_lists old_bucket_cnt old_buckets.

Definition hash_insert (new : nat) : HS nat :=
  let! bucket := find_bucket new in
  let! old := find_elem bucket new in
  (if (old =? KList.NULL)%nat then insert_elem bucket new else ret tt);;;
  rehash;;;
  ret old.

Definition hash_replace (new : nat) : HS nat :=
  let! bucket := find_bucket new in
  let! old := find_elem bucket new in
  (if negb (old =? KList.NULL)%nat then remove_elem old else ret tt);;;
  insert_elem bucket new;;;
  rehash;;;
  ret old.

Definition hash_find (e : nat) : HS nat :=
  let! bucket := find_bucket e in
  find_elem bucket e.

Definition hash_delete (e : nat) : HS nat :=
  let! bucket := find_bucket e in
  let! found := find_elem bucket e in
  (if negb (found =? KList.NULL)%nat then remove_elem found;;; rehash else ret tt);;;
  ret found.

Definition hash_apply (action : nat -> HS unit) : HS unit :=
  loop (fun i =>
    let! h := gets hs_tab in
    if i <? bucket_cnt h then
      let bucket := list_at (bucket_at (buckets h) i) in
      let! elem := links (KList.list_begin bucket) in
      loop (fun elem =>
        if (elem =? KList.list_end bucket)%nat then ret (inr tt)
        else
          let! next := links (KList.list_next elem) in
          action elem;;;
          ret (inl next)) elem;;;
      ret (inl (i + 1))
    else ret (inr tt)) 0.

Definition hash_first : HS hash_iterator :=
  let! h := gets hs_tab in
  ret (mkIter (buckets h) (KList.list_head (list_at (buckets h)))).

Definition hash_next (i : hash_iterator) : HS (nat * hash_iterator) :=
  let! e := links (KList.list_next (it_elem i)) in
  loop (fun '(bucket, elem) =>
    if (elem =? KList.list_end (list_at bucket))%nat then
      let bucket := (bucket + 16)%nat in
      let! h := gets hs_tab in
      if (bucket_at (buckets h) (bucket_cnt h) <=? bucket)%nat then ret (inr (KList.NULL, mkIter bucket KList.NULL))
      else let! e := links (KList.list_begin (list_at bucket)) in ret (inl (bucket, e))
    else ret (inr (elem, mkIter bucket elem))) (it_bucket i, e).

Definition hash_cur (i : hash_iterator) : nat := it_elem i.

Definition hash_size : HS Z := let! h := gets hs_tab in ret (elem_cnt h).
Definition hash_empty : HS bool := let! h := gets hs_tab in ret (elem_cnt h =? 0).

End hash.
End Hash.
