(* ===== verification/HashSpec.v ===== *)
(** The invariant of hash tables, and the operations on one table. *)
From S2P Require Import Prelude KList KListSpec KListSort KListOps Hash.
From stdpp Require Import options.

#[local] Open Scope Z_scope.

Module HashSpec.
Import KList KListSpec KListSort KListFam Hash.

(** * Powers of two *)

Lemma land_le_right a b : 0 <= a -> 0 <= b -> Z.land a b <= b.
Proof.
  intros Ha Hb. rewrite <- (Z2N.id a), <- (Z2N.id b) by done. rewrite <- N2Z.inj_land. apply N2Z.inj_le, N.land_le_r.
Qed.

Lemma land_top x : 0 < x -> x <> 2 ^ Z.log2 x -> Z.testbit (Z.land x (x - 1)) (Z.log2 x) = true.
Proof.
  intros Hx Hne. pose proof (Z.log2_spec x Hx). pose proof (Z.pow_pos_nonneg 2 (Z.log2 x) ltac:(lia) (Z.log2_nonneg x)). rewrite Z.land_spec, Z.bit_log2 by done. cbn.
  rewrite <- (Z.log2_unique (x - 1) (Z.log2 x)); [apply Z.bit_log2; lia|apply Z.log2_nonneg|lia].
Qed.

Lemma turn_off_spec x : 0 < x < 2 ^ 32 ->
  (x = 2 ^ Z.log2 x /\ is_power_of_2 x = true) \/
  (is_power_of_2 x = false /\ 0 < turn_off_least_1bit x < x /\ Z.log2 (turn_off_least_1bit x) = Z.log2 x).
Proof.
  intros Hx. unfold is_power_of_2, turn_off_least_1bit. rewrite u32_small by lia.
  pose proof (Z.log2_spec x ltac:(lia)) as Hl. pose proof (Z.log2_nonneg x).
  destruct (decide (x = 2 ^ Z.log2 x)) as [E|Hne].
  - left. split; [done|]. apply andb_true_intro. split; [apply negb_true_iff, Z.eqb_neq; lia|]. apply Z.eqb_eq.
    rewrite Z.land_comm. replace (x - 1) with (Z.ones (Z.log2 x)) by (rewrite Z.ones_equiv; lia).
    rewrite Z.land_comm, Z.land_ones by lia. rewrite E at 1. apply Z.mod_same. lia.
  - right. pose proof (land_top x ltac:(lia) Hne) as Ht.
    assert (Hnn : 0 <= Z.land x (x - 1)) by (apply Z.land_nonneg; lia).
    assert (Hle : Z.land x (x - 1) <= x - 1) by (apply land_le_right; lia).
    assert (H0 : Z.land x (x - 1) <> 0) by (intros E; rewrite E, Z.bits_0 in Ht; done).
    split_and!; try lia.
    apply Z.le_antisymm; [apply Z.log2_le_mono; lia|]. destruct (Z.le_gt_cases (Z.log2 x) (Z.log2 (Z.land x (x - 1)))); [done|].
    rewrite Z.bits_above_log2 in Ht by lia. done.
Qed.

(** * Arrays of lists *)

Section arrays.
Implicit Types (bls : list (list nat)) (p e i : nat).

(** The lists of an array of buckets at [p], with their elements. *)
Definition bucket_fam p bls : list (llist * list nat) := imap (fun i l => (list_at (p + 16 * i), l)) bls.

Definition headers_at p (n : nat) : list nat := chains (bucket_fam p (replicate n [])).

Lemma bucket_fam_lookup p bls i : bucket_fam p bls !! i = (fun l => (list_at (p + 16 * i), l)) <$> bls !! i.
Proof. unfold bucket_fam. by rewrite list_lookup_imap. Qed.

Lemma bucket_fam_elems p bls : (bucket_fam p bls).*2 = bls.
Proof. apply list_eq. intros i. rewrite list_lookup_fmap, bucket_fam_lookup. by destruct (bls !! i). Qed.

Lemma bucket_fam_insert p bls i l : (i < length bls)%nat ->
  <[i := (list_at (p + 16 * i), l)]> (bucket_fam p bls) = bucket_fam p (<[i := l]> bls).
Proof.
  intros Hi. apply list_eq. intros j. rewrite bucket_fam_lookup. destruct (decide (i = j)) as [<-|Hne].
  - rewrite !list_lookup_insert_eq by (unfold bucket_fam; rewrite ?length_imap; done). done.
  - by rewrite !list_lookup_insert_ne, bucket_fam_lookup by done.
Qed.

Lemma bucket_at_nat p i : bucket_at p (Z.of_nat i) = (p + 16 * i)%nat.
Proof. unfold bucket_at, sizeof_list. lia. Qed.

Lemma elem_of_headers p n e : e ∈ headers_at p n <-> exists i, (i < n)%nat /\ (e = p + 16 * i \/ e = p + 16 * i + 8)%nat.
Proof.
  unfold headers_at. rewrite elem_of_chains. split.
  - intros (i & L & l & Hi & He). rewrite bucket_fam_lookup in Hi. apply fmap_Some in Hi as (l' & Hl & [= -> ->]).
    apply lookup_replicate in Hl as [-> Hi]. exists i. split; [done|]. rewrite elem_of_full in He.
    destruct He as [->|[->|He%not_elem_of_nil]]; [by left|by right|done].
  - intros (i & Hi & He). exists i, (list_at (p + 16 * i)), []. rewrite bucket_fam_lookup, lookup_replicate_2 by done.
    split; [done|]. rewrite elem_of_full. cbn. tauto.
Qed.

Lemma elem_of_concat bls e : e ∈ concat bls <-> exists l, e ∈ l /\ l ∈ bls.
Proof. induction bls as [|l bls IH]; cbn; [set_solver|]. rewrite elem_of_app, IH. set_solver. Qed.

Lemma elem_of_buckets p bls e : e ∈ chains (bucket_fam p bls) <-> (e ∈ headers_at p (length bls)) \/ e ∈ concat bls.
Proof.
  rewrite elem_of_headers, elem_of_chains, elem_of_concat. split.
  - intros (i & L & l & Hi & He). rewrite bucket_fam_lookup in Hi. apply fmap_Some in Hi as (l' & Hl & [= -> ->]).
    rewrite elem_of_full in He. cbn in He. destruct He as [He|[He|He]]; [left|left|right].
    + exists i. split; [by eapply lookup_lt_Some|tauto].
    + exists i. split; [by eapply lookup_lt_Some|tauto].
    + exists l'. split; [done|]. by eapply list_elem_of_lookup_2.
  - intros [(i & Hi & He)|(l & Hel & Hl)].
    + destruct (lookup_lt_is_Some_2 _ _ Hi) as [l Hl]. exists i, (list_at (p + 16 * i)), l.
      rewrite bucket_fam_lookup, Hl, elem_of_full. cbn. tauto.
    + apply list_elem_of_lookup in Hl as [i Hi]. exists i, (list_at (p + 16 * i)), l.
      rewrite bucket_fam_lookup, Hi, elem_of_full. tauto.
Qed.

Lemma concat_insert bls i l l' : bls !! i = Some l -> concat (<[i := l']> bls) ++ l ≡ₚ concat bls ++ l'.
Proof.
  intros Hi. destruct (list_elem_of_split_length bls i l Hi) as (b1 & b2 & -> & Hn).
  rewrite insert_app_r_alt by lia. rewrite Hn, Nat.sub_diag. cbn. rewrite !concat_app. cbn. solve_Permutation.
Qed.

End arrays.

Section spec.
Context {A : Type} {BA : BlockAllocator A}.
Implicit Types (s : hs A) (live : gmap Z Z) (bls : list (list nat)) (p e i : nat).

Lemma wp_alloc {B} (m : ST A B) (Q : B -> hs A -> Prop) s :
  wp m (fun r x => Q r (set_mem x s)) (hs_mem s) -> wp (alloc m) Q s.
Proof using Type. unfold wp, alloc. by destruct (m (hs_mem s)) as [[]|]. Qed.

Lemma wp_links {B} (m : ST (gmap nat list_elem) B) (Q : B -> hs A -> Prop) s :
  wp m (fun r x => Q r (set_links x s)) (hs_links s) -> wp (links m) Q s.
Proof using Type. unfold wp, links. by destruct (m (hs_links s)) as [[]|]. Qed.

Lemma links_id s : set_links (hs_links s) s = s.
Proof using Type. by destruct s. Qed.

Lemma ideal_bucket_cnt_spec c s (Q : Z -> hs A -> Prop) : 0 <= c < 2 ^ 32 ->
  (forall k, 2 <= k -> 2 ^ k <= Z.max 4 (c / 2) -> Q (2 ^ k) s) -> wp (ideal_bucket_cnt c) Q s.
Proof using Type.
  intros Hc HQ. unfold ideal_bucket_cnt, BEST_ELEMS_PER_BUCKET. set (n := if c / 2 <? 4 then 4 else c / 2).
  assert (Hn : 4 <= n <= Z.max 4 (c / 2) /\ n < 2 ^ 31).
  { pose proof (Z.div_lt_upper_bound c 2 (2 ^ 31) ltac:(lia) ltac:(lia)). subst n. destruct (Z.ltb_spec (c / 2) 4); lia. }
  clearbody n. apply (wp_loop _ (fun k x s' => s' = s /\ k = Z.to_nat x /\ 4 <= x <= n /\ Z.log2 x = Z.log2 n)) with (k := Z.to_nat n);
    [|split_and!; (done || lia)|lia].
  intros k x s' (-> & -> & Hx & Hlog). destruct (turn_off_spec x ltac:(lia)) as [[E Ep]|(Ep & Hlt & El)]; rewrite Ep; cbn [negb]; wp_steps.
  - rewrite E. apply HQ; [|lia]. apply Z.log2_le_pow2; lia.
  - exists (Z.to_nat (turn_off_least_1bit x)). split; [lia|]. split_and!; try done; try lia.
    pose proof (Z.log2_spec (turn_off_least_1bit x) ltac:(lia)) as [Hlo _]. rewrite El in Hlo.
    pose proof (Z.pow_le_mono_r 2 2 (Z.log2 x) ltac:(lia)) as Hp. change (2 ^ 2) with 4 in Hp.
    apply Z.le_trans with (2 ^ Z.log2 x); [apply Hp; apply Z.log2_le_pow2; lia|done].
Qed.

(** * Searching *)

Section search.
Context (less : nat -> nat -> bool).

Definition same a b : bool := negb (less a b) && negb (less b a).

Lemma find_elem_spec s L l e (Q : nat -> hs A -> Prop) : rep (hs_links s) L l -> Z.of_nat (length l) < 2 ^ 32 ->
  ((forall x, x ∈ l -> same x e = false) -> Q NULL s) ->
  (forall l1 x l2, l = l1 ++ x :: l2 -> same x e = true -> Q x s) -> wp (find_elem less L e) Q s.
Proof using Type.
  intros Hr Hlen Q0 HQ. unfold find_elem, list_end. apply wp_bind, wp_links. eapply wp_list_begin; [done|]. rewrite links_id.
  apply (wp_loop _ (fun k y s' => s' = s /\ exists l1 l2, l = l1 ++ l2 /\ k = length l2 /\ y = at_ (l2 ++ [l_tail L]) /\
    forall x, x ∈ l1 -> same x e = false)) with (k := length l); [|split; [done|]; exists [], l; by split_and!; (done || set_solver)|lia].
  intros k y s' (-> & l1 & l2 & -> & -> & -> & Hno). destruct l2 as [|x l2].
  - change (at_ ([] ++ [l_tail L])) with (l_tail L). rewrite Nat.eqb_refl. wp_steps. apply Q0. by rewrite app_nil_r.
  - change (at_ ((x :: l2) ++ [l_tail L])) with x. rewrite (rep_ne _ _ _ _ _ Hr).
    change (negb (less x e) && negb (less e x)) with (same x e). destruct (same x e) eqn:Es; [wp_steps; by eapply HQ|].
    apply wp_bind, wp_links. eapply rep_next; [done|]. rewrite links_id. wp_steps. exists (length l2). split; [cbn; lia|].
    split; [done|]. exists (l1 ++ [x]), l2. rewrite <- app_assoc. split_and!; try done. intros z. set_solver.
Qed.

End search.

Context (hash_of : nat -> Z).

(** * The invariant *)

(** Where an element belongs. *)
Definition index (n : Z) e : nat := Z.to_nat (hash_of e mod n).

(** The address [y] is in a block other than [p]. *)
Definition owned live p (y : nat) : Prop :=
  exists b sz, live !! b = Some sz /\ b <> Z.of_nat p /\ b <= Z.of_nat y < b + sz.

Record table_ok s live bls : Prop := {
  tk_mem : al_ok (hs_mem s) live;
  tk_block : exists sz, live !! Z.of_nat (buckets (hs_tab s)) = Some sz /\ 16 * bucket_cnt (hs_tab s) <= sz;
  tk_pos : (0 < buckets (hs_tab s))%nat;
  tk_pow : exists k, 2 <= k <= 27 /\ bucket_cnt (hs_tab s) = 2 ^ k;
  tk_len : Z.of_nat (length bls) = bucket_cnt (hs_tab s);
  tk_fam : fam (hs_links s) (bucket_fam (buckets (hs_tab s)) bls);
  tk_index : forall i l e, bls !! i = Some l -> e ∈ l -> i = index (bucket_cnt (hs_tab s)) e;
  tk_cnt : elem_cnt (hs_tab s) = Z.of_nat (length (concat bls));
  tk_max : elem_cnt (hs_tab s) < 2 ^ 28;
  tk_owned : forall e, is_Some (hs_links s !! e) ->
    (e ∈ headers_at (buckets (hs_tab s)) (length bls)) \/ owned live (buckets (hs_tab s)) e;
}.

(** Which bucket [find_bucket] finds. *)
Lemma find_bucket_spec s k e (Q : llist -> hs A -> Prop) : bucket_cnt (hs_tab s) = 2 ^ k -> 0 <= k <= 27 ->
  ((index (2 ^ k) e < Z.to_nat (2 ^ k))%nat -> Q (list_at (buckets (hs_tab s) + 16 * index (2 ^ k) e)) s) ->
  wp (find_bucket hash_of e) Q s.
Proof using Type.
  intros Ec Hk HQ. pose proof (Z.pow_le_mono_r 2 k 27 ltac:(lia) ltac:(lia)).
  pose proof (Z.pow_pos_nonneg 2 k ltac:(lia) ltac:(lia)).
  unfold find_bucket. wp_steps. rewrite u32_small by lia. rewrite Ec. replace (2 ^ k - 1) with (Z.ones k) by (rewrite Z.ones_equiv; lia).
  rewrite Z.land_ones by lia. pose proof (Z.mod_pos_bound (hash_of e) (2 ^ k) ltac:(lia)).
  replace (hash_of e mod 2 ^ k) with (Z.of_nat (index (2 ^ k) e)) by (unfold index; lia). rewrite bucket_at_nat.
  apply HQ. unfold index. lia.
Qed.

(** * Adding and removing an element *)

(** The elements that are not list headers. *)
Definition client s e : Prop :=
  is_Some (hs_links s !! e) /\ e ∉ headers_at (buckets (hs_tab s)) (Z.to_nat (bucket_cnt (hs_tab s))).

(** The table has changed, and nothing else that clients see. *)
Definition keeps s s' live live' : Prop :=
  (forall e, client s' e <-> client s e) /\
  forall b, b <> Z.of_nat (buckets (hs_tab s)) -> b <> Z.of_nat (buckets (hs_tab s')) -> live' !! b = live !! b.

(** Only elements of the table have changed. *)
Definition touches s s' : Prop :=
  buckets (hs_tab s') = buckets (hs_tab s) /\ bucket_cnt (hs_tab s') = bucket_cnt (hs_tab s) /\ forall e, client s' e <-> client s e.

Lemma keeps_touches s s1 s2 live live' : touches s s1 -> keeps s1 s2 live live' -> keeps s s2 live live'.
Proof using Type.
  intros (Eb & _ & Hc) [Hc' Hl]. split; [intros e; by rewrite Hc'|]. intros b. rewrite <- Eb. apply Hl.
Qed.

Lemma table_len s live bls : table_ok s live bls -> length bls = Z.to_nat (bucket_cnt (hs_tab s)).
Proof using Type. intros Ht. pose proof (tk_len _ _ _ Ht). lia. Qed.

Lemma client_owned s live bls e : table_ok s live bls -> client s e -> owned live (buckets (hs_tab s)) e.
Proof using Type.
  intros Ht [Hd Hh]. destruct (tk_owned _ _ _ Ht e Hd) as [He|He]; [|done]. by rewrite (table_len _ _ _ Ht) in He.
Qed.

Lemma client_nonnull s live bls e : table_ok s live bls -> client s e -> e <> NULL.
Proof using Type.
  intros Ht Hc. destruct (client_owned _ _ _ _ Ht Hc) as (b & sz & Hb & _ & Hr). pose proof (al_pos _ _ _ _ (tk_mem _ _ _ Ht) Hb).
  unfold NULL. lia.
Qed.

(** A client's element that is not in the table is in no list of it. *)
Lemma client_outside s live bls e : table_ok s live bls -> client s e -> e ∉ concat bls ->
  e ∉ chains (bucket_fam (buckets (hs_tab s)) bls).
Proof using Type.
  intros Ht [Hd Hh] He. rewrite elem_of_buckets, (table_len _ _ _ Ht). tauto.
Qed.

Lemma table_bucket s live bls i : table_ok s live bls -> (i < Z.to_nat (bucket_cnt (hs_tab s)))%nat ->
  exists l, bls !! i = Some l /\ bucket_fam (buckets (hs_tab s)) bls !! i = Some (list_at (buckets (hs_tab s) + 16 * i), l).
Proof using Type.
  intros Ht Hi. destruct (lookup_lt_is_Some_2 bls i) as [l Hl]; [by rewrite (table_len _ _ _ Ht)|].
  exists l. split; [done|]. by rewrite bucket_fam_lookup, Hl.
Qed.

(** Another content for one bucket. *)
Lemma table_set_bucket s live bls i l l' m n : table_ok s live bls -> bls !! i = Some l ->
  fam m (bucket_fam (buckets (hs_tab s)) (<[i := l']> bls)) -> (forall e, is_Some (m !! e) <-> is_Some (hs_links s !! e)) ->
  (forall e, e ∈ l' -> e ∉ l -> i = index (bucket_cnt (hs_tab s)) e) ->
  n = Z.of_nat (length (concat (<[i := l']> bls))) -> n < 2 ^ 28 ->
  let s' := mkHS (hs_mem s) m (mkHash n (bucket_cnt (hs_tab s)) (buckets (hs_tab s))) in
  table_ok s' live (<[i := l']> bls) /\ touches s s'.
Proof using Type.
  intros Ht Hi Hf Hd Hix Hn Hmax s'. pose proof Ht as [T1 T2 T3 T4 T5 T6 T7 T8 T9 T10]. split.
  - split; cbn; try done.
    + by rewrite length_insert.
    + intros j l1 e Hj He. destruct (decide (j = i)) as [->|Hne]; [|rewrite list_lookup_insert_ne in Hj by done; by eapply T7].
      rewrite list_lookup_insert_eq in Hj by (by eapply lookup_lt_Some). simplify_eq.
      destruct (decide (e ∈ l)); [by eapply T7|by apply Hix].
    + intros e He. rewrite length_insert. by apply T10, Hd.
  - split_and!; [done..|]. intros e. unfold client. cbn. by rewrite Hd.
Qed.

Lemma insert_elem_spec s live bls e (Q : unit -> hs A -> Prop) : table_ok s live bls -> client s e -> e ∉ concat bls ->
  elem_cnt (hs_tab s) + 1 < 2 ^ 28 -> e <> NULL ->
  let i := index (bucket_cnt (hs_tab s)) e in (i < Z.to_nat (bucket_cnt (hs_tab s)))%nat ->
  (forall s' bls', table_ok s' live bls' -> touches s s' -> concat bls' ≡ₚ e :: concat bls -> Q tt s') ->
  wp (insert_elem (list_at (buckets (hs_tab s) + 16 * i)) e) Q s.
Proof using Type.
  intros Ht Hc He Hmax H0 i Hi HQ. destruct (table_bucket s live bls i Ht Hi) as (l & Hl & Hfl).
  pose proof (tk_cnt _ _ _ Ht) as Hcnt. pose proof (concat_insert bls i l (e :: l) Hl) as Hp.
  rewrite <- Permutation_middle, app_comm_cons in Hp. apply Permutation_app_inv_r in Hp.
  unfold insert_elem, set_elem_cnt. wp_steps. rewrite u32_small by lia. apply wp_links. cbn [hs_links set_tab].
  eapply fam_push_front; [apply Ht|done|by eapply client_outside|done|apply Hc|]. intros m Hf Hto.
  rewrite bucket_fam_insert in Hf by (by eapply lookup_lt_Some).
  destruct (table_set_bucket s live bls i l (e :: l) m (elem_cnt (hs_tab s) + 1) Ht Hl Hf) as [Ht' Hk]; [apply Hto| | |done|by eapply HQ].
  - intros x [->|Hx]%elem_of_cons Hn; done.
  - rewrite Hp, Hcnt. cbn. lia.
Qed.

Lemma remove_elem_spec s live bls e (Q : unit -> hs A -> Prop) : table_ok s live bls -> e ∈ concat bls ->
  (forall s' bls', table_ok s' live bls' -> touches s s' -> concat bls ≡ₚ e :: concat bls' -> Q tt s') ->
  wp (remove_elem e) Q s.
Proof using Type.
  intros Ht He HQ. apply elem_of_concat in He as (l & He & [i Hl]%list_elem_of_lookup).
  apply list_elem_of_split in He as (l1 & l2 & ->).
  assert (Hfl : bucket_fam (buckets (hs_tab s)) bls !! i = Some (list_at (buckets (hs_tab s) + 16 * i), l1 ++ e :: l2)).
  { by rewrite bucket_fam_lookup, Hl. }
  pose proof (tk_cnt _ _ _ Ht) as Hcnt. pose proof (tk_max _ _ _ Ht) as Hmax. pose proof (concat_insert bls i _ (l1 ++ l2) Hl) as Hp.
  assert (Hp2 : concat bls ≡ₚ e :: concat (<[i := l1 ++ l2]> bls)).
  { rewrite <- Permutation_middle in Hp. rewrite <- Permutation_middle, app_comm_cons in Hp. by apply Permutation_app_inv_r in Hp. }
  pose proof (Permutation_length Hp2) as Hlen. cbn in Hlen.
  unfold remove_elem, set_elem_cnt. wp_steps. rewrite u32_small by lia. apply wp_links. cbn [hs_links set_tab].
  eapply fam_remove; [apply Ht|done|]. intros m Hf Hto _. wp_steps.
  rewrite bucket_fam_insert in Hf by (by eapply lookup_lt_Some).
  destruct (table_set_bucket s live bls i _ (l1 ++ l2) m (elem_cnt (hs_tab s) - 1) Ht Hl Hf) as [Ht' Hk];
    [apply Hto| |lia|lia|by eapply HQ].
  intros x Hx Hn. exfalso. apply Hn. set_solver.
Qed.

End spec.
End HashSpec.
