(* ===== verification/HashOps.v ===== *)
(** Changing the number of buckets of a hash table. *)
From S2P Require Import Prelude KList KListSpec KListSort KListOps Hash HashSpec.
From stdpp Require Import options.

#[local] Open Scope Z_scope.

Module HashOps.
Import KList KListSpec KListSort KListFam Hash HashSpec.

Lemma headers_S p n e : e ∈ headers_at p (S n) <-> e = p \/ e = (p + 8)%nat \/ e ∈ headers_at (p + 16) n.
Proof.
  rewrite !elem_of_headers. split.
  - intros ([|i] & Hi & He); [destruct He as [-> | ->]; lia|]. right; right. exists i. lia.
  - intros [->|[->|(i & Hi & He)]]; [exists 0%nat; lia..|]. exists (S i). lia.
Qed.

Lemma headers_snoc p n e : e ∈ headers_at p (S n) <-> (e ∈ headers_at p n) \/ e = (p + 16 * n)%nat \/ e = (p + 16 * n + 8)%nat.
Proof.
  rewrite !elem_of_headers. split.
  - intros (i & Hi & He). destruct (decide (i = n)) as [->|]; [tauto|]. left. exists i. lia.
  - intros [(i & Hi & He)|He]; [exists i; lia|exists n; lia].
Qed.

Lemma headers_range p n e : e ∈ headers_at p n -> (p <= e < p + 16 * n)%nat.
Proof. rewrite elem_of_headers. intros (i & Hi & He). lia. Qed.

Lemma raw_lists_lookup n : forall p m e,
  raw_lists n p m !! e = if decide (e ∈ headers_at p n) then Some (mkElem 0 0) else m !! e.
Proof.
  induction n as [|n IH]; intros p m e; [by rewrite decide_False by apply not_elem_of_nil|]. cbn [raw_lists]. rewrite IH.
  destruct (decide (e ∈ headers_at (p + 16) n)) as [He|He].
  - rewrite decide_True; [done|]. apply headers_S. tauto.
  - destruct (decide (e = p)) as [->|Hp]; [|destruct (decide (e = (p + 8)%nat)) as [->|Hp8]].
    + rewrite lookup_insert_eq, decide_True; [done|]. apply headers_S. tauto.
    + rewrite lookup_insert_ne, lookup_insert_eq, decide_True by (apply headers_S; tauto) || lia. done.
    + rewrite !lookup_insert_ne, decide_False by (rewrite ?headers_S; tauto) || lia. done.
Qed.

Lemma drop_lists_lookup n : forall p m e,
  drop_lists n p m !! e = if decide (e ∈ headers_at p n) then None else m !! e.
Proof.
  induction n as [|n IH]; intros p m e; [by rewrite decide_False by apply not_elem_of_nil|]. cbn [drop_lists]. rewrite IH.
  destruct (decide (e ∈ headers_at (p + 16) n)) as [He|He].
  - rewrite decide_True; [done|]. apply headers_S. tauto.
  - destruct (decide (e = p)) as [->|Hp]; [|destruct (decide (e = (p + 8)%nat)) as [->|Hp8]].
    + rewrite lookup_delete_eq, decide_True; [done|]. apply headers_S. tauto.
    + rewrite lookup_delete_ne, lookup_delete_eq, decide_True by (apply headers_S; tauto) || lia. done.
    + rewrite !lookup_delete_ne, decide_False by (rewrite ?headers_S; tauto) || lia. done.
Qed.

Lemma bucket_fam_snoc p n : bucket_fam p (replicate (S n) []) = bucket_fam p (replicate n []) ++ [(list_at (p + 16 * n), [])].
Proof. rewrite replicate_S_end. unfold bucket_fam. rewrite imap_app, length_replicate. unfold imap at 2. do 4 f_equal. unfold compose. lia. Qed.

(** One more empty list of an array. *)
Lemma init_list_spec (m0 m : store) F p n N (Q : unit -> store -> Prop) :
  fam m (F ++ bucket_fam p (replicate n [])) -> touched m0 m (headers_at p n) -> (n < N)%nat -> (0 < p)%nat ->
  (forall e, e ∈ headers_at p N -> is_Some (m0 !! e)) -> (forall e, e ∈ headers_at p N -> e ∉ chains F) ->
  (forall m', fam m' (F ++ bucket_fam p (replicate (S n) [])) -> touched m0 m' (headers_at p (S n)) -> Q tt m') ->
  wp (list_init (list_at (p + 16 * n))) Q m.
Proof.
  intros Hf Hto Hn Hp Hd Hout HQ.
  assert (Hin : forall e, e ∈ [(p + 16 * n)%nat; (p + 16 * n + 8)%nat] -> e ∈ headers_at p N).
  { intros e He. apply elem_of_headers. exists n. split; [done|]. set_solver. }
  eapply fam_init; [exact Hf| | | | | |].
  - apply (to_dom _ _ _ Hto), Hd, Hin. by left.
  - apply (to_dom _ _ _ Hto), Hd, Hin. by right; left.
  - cbn. apply NoDup_cons. split; [|apply NoDup_singleton]. rewrite list_elem_of_singleton. lia.
  - cbn. rewrite !not_elem_of_cons. unfold NULL. split_and!; [lia..|apply not_elem_of_nil].
  - intros e He. rewrite chains_app, elem_of_app. intros [He'|He']; [by apply (Hout e (Hin e He))|].
    apply headers_range in He'. cbn in He. set_solver by lia.
  - intros m' Hf' Hto'. apply HQ.
    + by rewrite bucket_fam_snoc, app_assoc.
    + eapply touched_trans; eapply touched_mono; try done; intros e He; apply headers_snoc; [tauto|]. cbn in He. set_solver.
Qed.

Lemma list_insert_replicate_drop (bls : list (list nat)) j l : bls !! j = Some l ->
  <[j := []]> (replicate j [] ++ drop j bls) = replicate j [] ++ [] :: drop (S j) bls.
Proof.
  intros Hl. rewrite insert_app_r_alt by (rewrite length_replicate; lia). rewrite length_replicate, Nat.sub_diag.
  by rewrite (drop_S bls l j Hl).
Qed.

Lemma concat_nils n : concat (replicate n ([] : list nat)) = [].
Proof. by induction n. Qed.

Section rehash.
Context {A : Type} {BA : BlockAllocator A}.
Context (hash_of : nat -> Z).
Implicit Types (s : hs A) (live : gmap Z Z) (bls olds news : list (list nat)) (p e i : nat) (m : store).

Lemma init_lists_spec s F p (n : Z) (Q : unit -> hs A -> Prop) :
  let N := Z.to_nat n in
  fam (hs_links s) F -> 0 <= n < 2 ^ 32 -> (0 < p)%nat ->
  (forall e, e ∈ headers_at p N -> is_Some (hs_links s !! e)) -> (forall e, e ∈ headers_at p N -> e ∉ chains F) ->
  (forall m, fam m (F ++ bucket_fam p (replicate N [])) -> touched (hs_links s) m (headers_at p N) -> Q tt (set_links m s)) ->
  wp (init_lists n p) Q s.
Proof using Type.
  intros N Hf Hn Hp Hd Hout HQ. unfold init_lists.
  apply (wp_loop _ (fun k (i : Z) s' => exists j m, i = Z.of_nat j /\ (j + k)%nat = N /\ s' = set_links m s /\
    fam m (F ++ bucket_fam p (replicate j [])) /\ touched (hs_links s) m (headers_at p j))) with (k := N);
    [|exists 0%nat, (hs_links s); rewrite links_id, app_nil_r; split_and!; try done; apply touched_refl|lia].
  intros k i s' (j & m & -> & Hjk & -> & Hfj & Hto). destruct (Z.ltb_spec (Z.of_nat j) n) as [Hlt|Hge].
  - apply wp_bind, wp_links. rewrite bucket_at_nat. cbn [hs_links set_links].
    apply (init_list_spec (hs_links s) m F p j N); try done; [lia|]. intros m' Hf' Hto'. wp_steps.
    exists (pred k). split; [lia|]. exists (S j), m'. split_and!; try done; lia.
  - wp_steps. assert (j = N) as -> by lia. by apply HQ.
Qed.

(** * Moving the elements *)

Definition placed (n : Z) bls : Prop := forall i l e, bls !! i = Some l -> e ∈ l -> i = index hash_of n e.

Lemma placed_insert n bls x l : placed n bls -> bls !! index hash_of n x = Some l ->
  placed n (<[index hash_of n x := x :: l]> bls).
Proof using Type.
  intros Hp Hl i l' e Hi He. destruct (decide (i = index hash_of n x)) as [->|Hne].
  - rewrite list_lookup_insert_eq in Hi by (by eapply lookup_lt_Some). simplify_eq.
    apply elem_of_cons in He as [->|He]; [done|by eapply Hp].
  - rewrite list_lookup_insert_ne in Hi by done. by eapply Hp.
Qed.

Lemma placed_nil n N : placed n (replicate N []).
Proof using Type. intros i l e Hi He. apply lookup_replicate in Hi as [-> _]. by apply not_elem_of_nil in He. Qed.

Definition moving m p p' olds news : Prop := fam m (bucket_fam p olds ++ bucket_fam p' news).

Lemma moving_old m p p' olds news i l : moving m p p' olds news -> olds !! i = Some l ->
  (bucket_fam p olds ++ bucket_fam p' news) !! i = Some (list_at (p + 16 * i), l).
Proof using Type.
  intros _ Hi. apply lookup_app_l_Some. by rewrite bucket_fam_lookup, Hi.
Qed.

Lemma moving_new p p' olds news j l : news !! j = Some l ->
  (bucket_fam p olds ++ bucket_fam p' news) !! (length olds + j)%nat = Some (list_at (p' + 16 * j), l).
Proof using Type.
  intros Hj. rewrite lookup_app_r by (unfold bucket_fam; rewrite length_imap; lia). unfold bucket_fam at 1. rewrite length_imap.
  replace (length olds + j - length olds)%nat with j by lia. by rewrite bucket_fam_lookup, Hj.
Qed.

Lemma moving_set_old p p' olds news i l : (i < length olds)%nat ->
  <[i := (list_at (p + 16 * i), l)]> (bucket_fam p olds ++ bucket_fam p' news) =
  bucket_fam p (<[i := l]> olds) ++ bucket_fam p' news.
Proof using Type.
  intros Hi. rewrite insert_app_l by (unfold bucket_fam; by rewrite length_imap). by rewrite bucket_fam_insert.
Qed.

Lemma moving_set_new p p' olds news j l : (j < length news)%nat ->
  <[(length olds + j)%nat := (list_at (p' + 16 * j), l)]> (bucket_fam p olds ++ bucket_fam p' news) =
  bucket_fam p olds ++ bucket_fam p' (<[j := l]> news).
Proof using Type.
  intros Hj. rewrite insert_app_r_alt by (unfold bucket_fam; rewrite length_imap; lia). unfold bucket_fam at 2. rewrite length_imap.
  replace (length olds + j - length olds)%nat with j by lia. by rewrite bucket_fam_insert.
Qed.

(** One element. *)
Lemma move_one {B} (r : B) s p p' olds news i x l j k (Q : B -> hs A -> Prop) : let m := hs_links s in
  moving m p p' olds news -> olds !! i = Some (x :: l) -> news !! j = Some k ->
  (forall m', moving m' p p' (<[i := l]> olds) (<[j := x :: k]> news) -> (forall e, is_Some (m' !! e) <-> is_Some (m !! e)) ->
     Q r (set_links m' s)) ->
  wp (links (list_remove x);;; links (list_push_front (list_at (p' + 16 * j)) x);;; ret r) Q s.
Proof using Type.
  intros m Hm Hi Hj HQ. pose proof (moving_old _ _ _ _ _ _ _ Hm Hi) as Hi'. pose proof (lookup_lt_Some _ _ _ Hi) as Hlt.
  pose proof (lookup_lt_Some _ _ _ Hj) as Hltj. pose proof Hm as [_ Hrep]. specialize (Hrep _ _ _ Hi').
  assert (Hx : x <> NULL /\ is_Some (m !! x)).
  { eapply rep_full; [exact Hrep|]. right. left. }
  apply wp_bind, wp_links. eapply (fam_remove _ _ i _ [] x l); [exact Hm|exact Hi'|]. intros m1 Hf1 Hto1 Hx1.
  rewrite moving_set_old in Hf1, Hx1 by done.
  apply wp_bind, wp_links. eapply (fam_push_front _ _ (length (<[i := l]> olds) + j)); [exact Hf1|by apply moving_new|exact Hx1|apply Hx|
    apply (to_dom _ _ _ Hto1), Hx|].
  intros m2 Hf2 Hto2. wp_steps. apply HQ.
  - unfold moving. rewrite <- (moving_set_new p p' (<[i := l]> olds)) by done. exact Hf2.
  - intros e. by rewrite (to_dom _ _ _ Hto2), (to_dom _ _ _ Hto1).
Qed.

(** A whole bucket. *)
Lemma move_bucket_spec s p p' k olds news i l (Q : unit -> hs A -> Prop) :
  bucket_cnt (hs_tab s) = 2 ^ k -> 0 <= k <= 27 -> buckets (hs_tab s) = p' ->
  moving (hs_links s) p p' olds news -> length news = Z.to_nat (2 ^ k) -> placed (2 ^ k) news ->
  olds !! i = Some l -> Z.of_nat (length l) < 2 ^ 32 ->
  (forall m news', moving m p p' (<[i := []]> olds) news' -> length news' = Z.to_nat (2 ^ k) -> placed (2 ^ k) news' ->
     concat news' ≡ₚ l ++ concat news -> (forall e, is_Some (m !! e) <-> is_Some (hs_links s !! e)) -> Q tt (set_links m s)) ->
  wp (move_bucket hash_of (list_at (p + 16 * i))) Q s.
Proof using Type.
  intros Ec Hk Ep Hm Hlen Hpl Hi Hl HQ. set (L := list_at (p + 16 * i)). unfold move_bucket, list_end.
  assert (Hrep : forall m o n l', moving m p p' o n -> o !! i = Some l' -> rep m L l').
  { intros m o n l' Hmo Ho. apply (proj2 Hmo i). by eapply moving_old. }
  apply wp_bind, wp_links. eapply wp_list_begin; [by eapply Hrep|]. rewrite links_id.
  apply (wp_loop _ (fun n (x : nat) s' => exists m l' o news', s' = set_links m s /\ n = length l' /\ x = at_ (l' ++ [l_tail L]) /\
    o !! i = Some l' /\ <[i := []]> o = <[i := []]> olds /\ moving m p p' o news' /\ length news' = Z.to_nat (2 ^ k) /\ placed (2 ^ k) news' /\
    l' ++ concat news' ≡ₚ l ++ concat news /\ forall e, is_Some (m !! e) <-> is_Some (hs_links s !! e))) with (k := length l);
    [|by exists (hs_links s), l, olds, news; rewrite links_id; split_and!|lia].
  intros n x s' (m & l' & o & news' & -> & -> & -> & Ho & Eo & Hmo & Hlen' & Hpl' & Hp & Hd). destruct l' as [|x l'].
  - change (at_ ([] ++ [l_tail L])) with (l_tail L). rewrite Nat.eqb_refl. wp_steps. apply (HQ m news'); try done.
    rewrite <- Eo. by rewrite (list_insert_id o i []) by done.
  - change (at_ ((x :: l') ++ [l_tail L])) with x. pose proof (Hrep _ _ _ _ Hmo Ho) as Hr. change (x :: l') with ([] ++ x :: l') in Hr.
    rewrite (rep_ne _ _ _ _ _ Hr). apply wp_bind. eapply (find_bucket_spec hash_of _ k); [exact Ec|done|]. intros Hix.
    cbn [hs_tab set_links]. rewrite Ep. apply wp_bind, wp_links. eapply rep_next; [exact Hr|]. rewrite links_id.
    destruct (lookup_lt_is_Some_2 news' (index hash_of (2 ^ k) x)) as [b Hb]; [by rewrite Hlen'|].
    eapply move_one; [exact Hmo|done|exact Hb|]. intros m' Hmo' Hd'. exists (length l'). split; [cbn; lia|].
    exists m', l', (<[i := l']> o), (<[index hash_of (2 ^ k) x := x :: b]> news'). pose proof (lookup_lt_Some _ _ _ Ho) as Hlt.
    split_and!; try done.
    + by apply list_lookup_insert_eq.
    + by rewrite list_insert_insert_eq.
    + by rewrite length_insert.
    + by apply placed_insert.
    + rewrite <- Hp. pose proof (concat_insert _ _ _ (x :: b) Hb) as Hc. rewrite <- Permutation_middle, app_comm_cons in Hc.
      apply Permutation_app_inv_r in Hc. rewrite Hc. cbn. by rewrite Permutation_middle.
    + intros e. by rewrite Hd'.
Qed.

(** All buckets. *)
Lemma move_all_spec s p p' k bls news (Q : unit -> hs A -> Prop) :
  bucket_cnt (hs_tab s) = 2 ^ k -> 0 <= k <= 27 -> buckets (hs_tab s) = p' ->
  moving (hs_links s) p p' bls news -> length news = Z.to_nat (2 ^ k) -> placed (2 ^ k) news ->
  Z.of_nat (length (concat bls)) < 2 ^ 32 -> Z.of_nat (length bls) < 2 ^ 32 ->
  (forall m news', moving m p p' (replicate (length bls) []) news' -> length news' = Z.to_nat (2 ^ k) -> placed (2 ^ k) news' ->
     concat news' ≡ₚ concat bls ++ concat news -> (forall e, is_Some (m !! e) <-> is_Some (hs_links s !! e)) ->
     Q tt (set_links m s)) ->
  wp (loop (fun i : Z => if i <? Z.of_nat (length bls) then move_bucket hash_of (list_at (bucket_at p i));;; ret (inl (i + 1))
                     else ret (inr tt)) 0) Q s.
Proof using Type.
  intros Ec Hk Ep Hm Hlen Hpl Hcl Hbl HQ.
  apply (wp_loop _ (fun n (i : Z) s' => exists j m news', i = Z.of_nat j /\ (j + n)%nat = length bls /\ s' = set_links m s /\
    moving m p p' (replicate j [] ++ drop j bls) news' /\ length news' = Z.to_nat (2 ^ k) /\ placed (2 ^ k) news' /\
    concat (drop j bls) ++ concat news' ≡ₚ concat bls ++ concat news /\
    forall e, is_Some (m !! e) <-> is_Some (hs_links s !! e))) with (k := length bls);
    [|by exists 0%nat, (hs_links s), news; rewrite links_id, drop_0; split_and!|lia].
  intros n i s' (j & m & news' & -> & Hjn & -> & Hmo & Hlen' & Hpl' & Hp & Hd).
  destruct (Z.ltb_spec (Z.of_nat j) (Z.of_nat (length bls))) as [Hlt|Hge].
  - destruct (lookup_lt_is_Some_2 bls j) as [l Hl]; [lia|].
    assert (Hj : (replicate j [] ++ drop j bls) !! j = Some l).
    { rewrite lookup_app_r, length_replicate, Nat.sub_diag by (rewrite length_replicate; lia). by rewrite lookup_drop, Nat.add_0_r. }
    assert (Hll : (length l <= length (concat bls))%nat).
    { apply take_drop_middle in Hl. rewrite <- Hl, concat_app. cbn. rewrite !length_app. lia. }
    rewrite bucket_at_nat. apply wp_bind. eapply (move_bucket_spec _ p p' k); try done; [lia|].
    intros m' news2 Hmo2 Hlen2 Hpl2 Hp2 Hd2. wp_steps. exists (pred n). split; [lia|]. exists (S j), m', news2.
    split_and!; try done; try lia.
    + rewrite replicate_S_end, <- app_assoc. cbn. by rewrite <- (list_insert_replicate_drop bls j l).
    + rewrite <- Hp, Hp2, (drop_S bls l j Hl). cbn. rewrite !app_assoc. f_equiv. apply Permutation_app_comm.
    + intros e. rewrite Hd2. apply Hd.
  - wp_steps. assert (j = length bls) as -> by lia. apply (HQ m news'); try done.
    + by rewrite drop_all, app_nil_r in Hmo.
    + by rewrite drop_all in Hp.
Qed.

(** * Blocks *)

(** A new block [p'] is away from everything in the store. *)
Lemma fresh_headers s live bls p' n b sz e : table_ok hash_of s live bls -> b = Z.of_nat p' -> Z.of_nat (16 * n) <= sz ->
  (forall b' sz', live !! b' = Some sz' -> b + sz <= b' \/ b' + sz' <= b) ->
  is_Some (hs_links s !! e) -> e ∉ headers_at p' n.
Proof using Type.
  intros Ht -> Hsz Hdis He Hin. apply headers_range in Hin. destruct (tk_owned _ _ _ _ Ht e He) as [Hh|(b & z & Hb & _ & Hr)].
  - apply headers_range in Hh. destruct (tk_block _ _ _ _ Ht) as (z & Hb & Hz). pose proof (tk_len _ _ _ _ Ht).
    destruct (Hdis _ _ Hb); lia.
  - destruct (Hdis _ _ Hb); lia.
Qed.

Lemma malloc_lists_spec s live n (Q : nat -> hs A -> Prop) : al_ok (hs_mem s) live -> 0 < n <= 2 ^ 27 -> Q NULL s ->
  (forall p sz mem, (0 < p)%nat -> al_ok mem (<[Z.of_nat p := sz]> live) -> live !! Z.of_nat p = None -> 16 * n <= sz ->
     (forall b' sz', live !! b' = Some sz' -> Z.of_nat p + sz <= b' \/ b' + sz' <= Z.of_nat p) ->
     Q p (mkHS mem (raw_lists (Z.to_nat n) p (hs_links s)) (hs_tab s))) ->
  wp (malloc_lists n) Q s.
Proof using Type.
  intros Hok Hn Q0 HQ. unfold malloc_lists, sizeof_list. rewrite u32_small by lia. apply wp_bind, wp_alloc.
  eapply al_malloc_ok; [exact Hok|lia| |].
  - wp_steps. cbn. by destruct s.
  - intros b sz mem Hmem Hb Hb0 Hsz Hdis. wp_steps. rewrite eqb_false by lia. cbn.
    rewrite <- (Z2Nat.id b) in Hmem, Hb, Hdis by lia. apply (HQ _ sz); try done. lia.
Qed.

(** The table with its new buckets, the old ones gone. *)
Lemma table_moved s live bls p' k sz mem m news n : let p := buckets (hs_tab s) in
  table_ok hash_of s live bls -> al_ok mem (delete (Z.of_nat p) (<[Z.of_nat p' := sz]> live)) ->
  live !! Z.of_nat p' = None -> (0 < p')%nat -> n = 2 ^ k -> 2 <= k <= 27 -> 16 * n <= sz ->
  (forall b' sz', live !! b' = Some sz' -> Z.of_nat p' + sz <= b' \/ b' + sz' <= Z.of_nat p') ->
  moving m p p' (replicate (length bls) []) news -> length news = Z.to_nat n -> placed n news -> concat news ≡ₚ concat bls ->
  (forall e, is_Some (m !! e) <-> (e ∈ headers_at p' (Z.to_nat n)) \/ is_Some (hs_links s !! e)) ->
  let s' := mkHS mem (drop_lists (length bls) p m) (mkHash (elem_cnt (hs_tab s)) n p') in
  let live' := delete (Z.of_nat p) (<[Z.of_nat p' := sz]> live) in
  table_ok hash_of s' live' news /\ keeps s s' live live'.
Proof using Type.
  intros p Ht Hmem Hp' H0 Hn Hk Hsz Hdis Hmo Hlen Hpl Hp Hd s' live'.
  destruct (tk_block _ _ _ _ Ht) as (z & Hz & _). fold p in Hz. assert (Hne : Z.of_nat p <> Z.of_nat p') by congruence.
  assert (H0n : 0 < n) by (rewrite Hn; apply Z.pow_pos_nonneg; lia).
  pose proof (fun e => fresh_headers s live bls p' (Z.to_nat n) _ sz e Ht eq_refl ltac:(lia) Hdis) as Hfresh.
  pose proof Hmo as (_ & Hfn & Hout)%fam_app. fold (headers_at p (length bls)) in Hout. split.
  - split; cbn [hs_mem hs_tab hs_links s' buckets bucket_cnt elem_cnt]; try done; subst live'.
    + exists sz. split; [|done]. by rewrite lookup_delete_ne, lookup_insert_eq.
    + exists k. split; [lia|done].
    + lia.
    + eapply fam_frame; [exact Hfn|]. intros e He. rewrite drop_lists_lookup, decide_False; [done|]. intros He'. by apply (Hout e).
    + rewrite Hp. apply Ht.
    + apply Ht.
    + intros e. rewrite drop_lists_lookup, Hlen. destruct (decide _) as [|He]; [by intros []|]. intros [He'|He']%Hd; [by left|right].
      destruct (tk_owned _ _ _ _ Ht e He') as [?|(b & z' & Hb & Hbp & Hr)]; [done|]. exists b, z'.
      assert (b <> Z.of_nat p') by congruence. by rewrite lookup_delete_ne, lookup_insert_ne.
  - split.
    + intros e. unfold client. cbn [hs_tab hs_links s' buckets bucket_cnt]. rewrite drop_lists_lookup, <- (table_len _ _ _ _ Ht).
      fold p. specialize (Hd e). specialize (Hfresh e). destruct (decide _) as [He|He]; [split; [intros [[] _]; done|tauto]|tauto].
    + intros b Hb1 Hb2. subst live'. cbn in Hb2. by rewrite lookup_delete_ne, lookup_insert_ne.
Qed.

Lemma keeps_refl s live : keeps s s live live.
Proof using Type. by split. Qed.

Lemma rehash_spec s live bls (Q : unit -> hs A -> Prop) : table_ok hash_of s live bls ->
  (forall s' live' bls', table_ok hash_of s' live' bls' -> keeps s s' live live' -> concat bls' ≡ₚ concat bls -> Q tt s') ->
  wp (rehash hash_of) Q s.
Proof using Type.
  intros Ht HQ. unfold rehash. wp_steps. pose proof (tk_cnt _ _ _ _ Ht) as Hc. pose proof (tk_max _ _ _ _ Ht) as Hmax.
  pose proof (tk_len _ _ _ _ Ht) as Hlb. pose proof (table_len _ _ _ _ Ht) as Hlb'. destruct (tk_pow _ _ _ _ Ht) as (k0 & Hk0 & Ek0).
  pose proof (Z.pow_le_mono_r 2 k0 27 ltac:(lia) ltac:(lia)) as Hle0.
  assert (Hcb : 0 <= elem_cnt (hs_tab s) < 2 ^ 32) by lia. apply (ideal_bucket_cnt_spec _ _ _ Hcb). intros k Hk2 Hkn. set (n := 2 ^ k).
  assert (Hn : 0 < n <= 2 ^ 27 /\ k <= 27).
  { pose proof (Z.pow_pos_nonneg 2 k ltac:(lia) ltac:(lia)). pose proof (Z.div_lt_upper_bound (elem_cnt (hs_tab s)) 2 (2 ^ 27) ltac:(lia) ltac:(lia)).
    split; [subst n; lia|]. apply (Z.pow_le_mono_r_iff 2); lia. }
  destruct (Z.eqb_spec n (bucket_cnt (hs_tab s))); [wp_steps; eapply HQ; [done|apply keeps_refl|done]|].
  apply wp_bind. eapply malloc_lists_spec; [apply Ht|lia| |].
  { change (NULL =? NULL)%nat with true. cbv iota. wp_steps. eapply HQ; [done|apply keeps_refl|done]. }
  intros p' sz mem Hp' Hmem Hnew Hsz Hdis. replace (p' =? NULL)%nat with false by (symmetry; apply Nat.eqb_neq; unfold NULL; lia).
  pose proof (fun e => fresh_headers s live bls p' (Z.to_nat n) _ sz e Ht eq_refl ltac:(lia) Hdis) as Hfresh.
  pose proof (raw_lists_lookup (Z.to_nat n) p' (hs_links s)) as Hraw. set (m0 := raw_lists _ _ _) in *.
  pose proof (tk_fam _ _ _ _ Ht) as Hfam.
  assert (Hin : forall e, e ∈ chains (bucket_fam (buckets (hs_tab s)) bls) -> is_Some (hs_links s !! e)).
  { intros e (i & L & l & Hi & He)%elem_of_chains. eapply rep_full; [by eapply Hfam|exact He]. }
  apply wp_bind. eapply (init_lists_spec _ (bucket_fam (buckets (hs_tab s)) bls)); cbn [hs_links]; [|lia|done| | |].
  { eapply fam_frame; [exact Hfam|]. intros e He. rewrite Hraw, decide_False; [done|]. by apply Hfresh, Hin. }
  { intros e He. rewrite Hraw, decide_True by done. by eexists. }
  { intros e He He'. by apply (Hfresh e (Hin e He')). }
  intros m1 Hm1 Hto1. unfold set_buckets. wp_steps. rewrite <- Hlb. cbn [hs_tab hs_links set_tab set_links].
  eapply (move_all_spec _ _ p' k bls (replicate (Z.to_nat n) [])); cbn [hs_tab hs_links set_tab set_links bucket_cnt buckets];
    try done; try lia; [by rewrite length_replicate|apply placed_nil|].
  intros m2 news Hmo Hlen Hpl Hp Hd. unfold free_lists. wp_steps. apply wp_alloc. cbn [hs_mem hs_links hs_tab set_tab set_links].
  rewrite concat_nils, app_nil_r in Hp. rewrite Nat2Z.id.
  destruct (tk_block _ _ _ _ Ht) as (z & Hz & _). eapply al_free_ok; [exact Hmem|rewrite lookup_insert_ne; [exact Hz|congruence]|].
  intros mem' Hmem'. destruct (table_moved s live bls p' k sz mem' m2 news n) as [Ht' Hk']; try done; try lia; [|by eapply HQ].
  intros e. rewrite Hd. cbn [hs_links set_tab set_links]. rewrite (to_dom _ _ _ Hto1), Hraw. specialize (Hfresh e).
  destruct (decide _); [|tauto]. split; [tauto|by eexists].
Qed.

End rehash.
End HashOps.
