(* ===== verification/HashProps.v ===== *)
(** The hash table refines a set of elements that are pairwise different. *)
From S2P Require Import Prelude KList KListSpec KListSort KListOps Hash HashSpec HashOps Palloc Malloc MallocSpec MallocOps MallocProps.
From stdpp Require Import options.

#[local] Open Scope Z_scope.

Module HashProps.
Import KList KListSpec KListSort KListFam Hash HashSpec HashOps.

Lemma neqb_false x y : x <> y -> (x =? y)%nat = false.
Proof. apply Nat.eqb_neq. Qed.

Section props.
Context {A : Type} {BA : BlockAllocator A}.
Context (hash_of : nat -> Z) (less : nat -> nat -> bool).
Implicit Types (s : hs A) (live : gmap Z Z) (bls : list (list nat)) (X : gset nat) (p e i : nat).

(** What the caller's functions must be: equal elements are equivalent and
    have the same hash value. *)
Record keyed : Prop := {
  ky_refl : forall a, same less a a = true;
  ky_trans : forall a b c, same less a b = true -> same less b c = true -> same less a c = true;
  ky_hash : forall a b, same less a b = true -> hash_of a = hash_of b;
}.

Lemma same_sym a b : same less a b = same less b a.
Proof using Type. unfold same. apply andb_comm. Qed.

Definition distinct X : Prop := forall a b, a ∈ X -> b ∈ X -> same less a b = true -> a = b.

Lemma distinct_add X e : distinct X -> (forall x, x ∈ X -> same less x e = false) -> distinct ({[e]} ∪ X).
Proof using Type.
  intros Hd Hno a b. rewrite !elem_of_union, !elem_of_singleton. intros [->|Ha] [->|Hb] Es; [done| | |by apply Hd].
  - rewrite same_sym in Es. by rewrite Hno in Es.
  - by rewrite Hno in Es.
Qed.

Lemma distinct_rest X e x y : keyed -> distinct X -> x ∈ X -> same less x e = true -> y ∈ X ∖ {[x]} -> same less y e = false.
Proof using Type.
  intros Hky Hd Hx Es Hy. destruct (same less y e) eqn:E; [|done]. rewrite same_sym in Es.
  assert (y = x) by (apply Hd; [set_solver|done|by eapply ky_trans]). set_solver.
Qed.

Lemma distinct_remove X x : distinct X -> distinct (X ∖ {[x]}).
Proof using Type. intros Hd a b Ha Hb. apply Hd; set_solver. Qed.

(** The table holds the elements [X], no two of them equal. *)
Definition table s live X : Prop :=
  exists bls, table_ok hash_of s live bls /\ (forall e, e ∈ X <-> e ∈ concat bls) /\ distinct X.

Inductive request := Find (e : nat) | Insert (e : nat) | Replace (e : nat) | Delete (e : nat).

Definition handle (r : request) : ST (hs A) nat :=
  match r with
  | Find e => hash_find hash_of less e
  | Insert e => hash_insert hash_of less e
  | Replace e => hash_replace hash_of less e
  | Delete e => hash_delete hash_of less e
  end.

Inductive answers X : request -> nat -> gset nat -> Prop :=
| find_some e x : x ∈ X -> same less x e = true -> answers X (Find e) x X
| find_none e : (forall x, x ∈ X -> same less x e = false) -> answers X (Find e) NULL X
| insert_some e x : x ∈ X -> same less x e = true -> answers X (Insert e) x X
| insert_none e : (forall x, x ∈ X -> same less x e = false) -> answers X (Insert e) NULL ({[e]} ∪ X)
| replace_some e x : x ∈ X -> same less x e = true -> answers X (Replace e) x ({[e]} ∪ X ∖ {[x]})
| replace_none e : (forall x, x ∈ X -> same less x e = false) -> answers X (Replace e) NULL ({[e]} ∪ X)
| delete_some e x : x ∈ X -> same less x e = true -> answers X (Delete e) x (X ∖ {[x]})
| delete_none e : (forall x, x ∈ X -> same less x e = false) -> answers X (Delete e) NULL X.

(** A new element is the client's, not in the table, and the table is not full. *)
Definition valid s X (r : request) : Prop :=
  match r with
  | Insert e | Replace e => client s e /\ e ∉ X /\ Z.of_nat (size X) + 1 < 2 ^ 28
  | Find _ | Delete _ => True
  end.

(** Looking up the bucket, then the element. *)
Lemma hash_lookup_spec s live X bls e (Q : nat -> hs A -> Prop) (f : llist -> nat -> ST (hs A) nat) : keyed ->
  table_ok hash_of s live bls -> (forall x, x ∈ X <-> x ∈ concat bls) ->
  let i := index hash_of (bucket_cnt (hs_tab s)) e in let L := list_at (buckets (hs_tab s) + 16 * i) in
  ((i < Z.to_nat (bucket_cnt (hs_tab s)))%nat -> (forall x, x ∈ X -> same less x e = false) -> wp (f L NULL) Q s) ->
  (forall x, (i < Z.to_nat (bucket_cnt (hs_tab s)))%nat -> x ∈ X -> same less x e = true -> x <> NULL -> wp (f L x) Q s) ->
  wp (let! bucket := find_bucket hash_of e in let! old := find_elem less bucket e in f bucket old) Q s.
Proof using Type.
  intros Hky Ht HX i L H0 H1. destruct (tk_pow _ _ _ _ Ht) as (k & Hk & Ek). apply wp_bind.
  apply (find_bucket_spec hash_of s k); [done|lia|]. intros Hi. rewrite <- Ek in *. apply wp_bind.
  destruct (table_bucket hash_of s live bls i Ht Hi) as (l & Hl & Hfl).
  pose proof (tk_fam _ _ _ _ Ht) as [_ Hrep]. specialize (Hrep _ _ _ Hfl).
  assert (Hin : forall x, x ∈ l -> x ∈ concat bls).
  { intros x Hx. apply elem_of_concat. exists l. split; [done|]. by eapply list_elem_of_lookup_2. }
  eapply find_elem_spec; [exact Hrep| | |].
  - pose proof (tk_max _ _ _ _ Ht). pose proof (tk_cnt _ _ _ _ Ht).
    assert (length l <= length (concat bls))%nat; [|lia].
    apply take_drop_middle in Hl. rewrite <- Hl, concat_app. cbn. rewrite !length_app. lia.
  - intros Hno. apply H0; [done|]. intros x Hx%HX. destruct (same less x e) eqn:E; [|done].
    pose proof Hx as (l' & Hx' & [j Hj]%list_elem_of_lookup)%elem_of_concat. pose proof (tk_index _ _ _ _ Ht j l' x Hj Hx') as Ej.
    unfold index in Ej. rewrite (ky_hash Hky x e E) in Ej. fold (index hash_of (bucket_cnt (hs_tab s)) e) in Ej. fold i in Ej.
    subst j. simplify_eq. by rewrite Hno in E.
  - intros l1 x l2 -> Es. apply H1; [done|apply HX, Hin; set_solver|done|]. eapply rep_full; [exact Hrep|]. apply elem_of_full. set_solver.
Qed.

Lemma table_nodup s live bls : table_ok hash_of s live bls -> NoDup (concat bls).
Proof using Type.
  intros Ht. pose proof (tk_fam _ _ _ _ Ht) as [Hnd _]. apply chains_elems_nodup in Hnd. by rewrite bucket_fam_elems in Hnd.
Qed.

Lemma table_size s live X : table s live X -> elem_cnt (hs_tab s) = Z.of_nat (size X).
Proof using Type.
  intros (bls & Ht & HX & _). pose proof (table_nodup _ _ _ Ht) as Hnd. rewrite (tk_cnt _ _ _ _ Ht). f_equal.
  replace X with (list_to_set (concat bls) : gset nat) by set_solver. by rewrite size_list_to_set.
Qed.

(** An element less. *)
Lemma removed_elems s live bls bls' X x : table_ok hash_of s live bls -> (forall e, e ∈ X <-> e ∈ concat bls) ->
  concat bls ≡ₚ x :: concat bls' -> forall e, e ∈ X ∖ {[x]} <-> e ∈ concat bls'.
Proof using Type.
  intros Ht HX Hp e. pose proof (table_nodup _ _ _ Ht) as Hnd. rewrite Hp in Hnd. apply NoDup_cons in Hnd as [Hx _].
  rewrite elem_of_difference, elem_of_singleton, HX, Hp, elem_of_cons. split; [by intros [[]]|]. intros He. split; [by right|]. by intros ->.
Qed.

Lemma rehash_table s s1 live bls X r v : touches s s1 -> table_ok hash_of s1 live bls ->
  (forall e, e ∈ X <-> e ∈ concat bls) -> distinct X ->
  forall Y, answers Y r v X ->
  wp (rehash hash_of;;; ret v) (fun v s' => exists live' X', answers Y r v X' /\ table s' live' X' /\ keeps s s' live live') s1.
Proof using Type.
  intros Hto Ht HX Hd Y Ha. apply wp_bind. eapply rehash_spec; [exact Ht|]. intros s' live' bls' Ht' Hk Hp. wp_steps.
  exists live', X. split_and!; [done| |by eapply keeps_touches]. exists bls'. split_and!; try done. intros e. rewrite HX. by rewrite Hp.
Qed.

Lemma touches_refl s : touches s s.
Proof using Type. by split_and!. Qed.

Lemma touches_trans s s1 s2 : touches s s1 -> touches s1 s2 -> touches s s2.
Proof using Type. intros (E1 & E2 & H1) (E3 & E4 & H2). split_and!; [congruence..|]. intros e. by rewrite H2. Qed.

Definition outcome s live X r : nat -> hs A -> Prop := fun v s' =>
  exists live' X', answers X r v X' /\ table s' live' X' /\ keeps s s' live live'.

Lemma serve_find s live X e : keyed -> table s live X -> wp (hash_find hash_of less e) (outcome s live X (Find e)) s.
Proof using Type.
  intros Hky Ht. pose proof Ht as (bls & Hok & HX & Hd).
  assert (Hw : wp (let! bucket := find_bucket hash_of e in let! old := find_elem less bucket e in ret old : ST (hs A) nat) (outcome s live X (Find e)) s).
  { eapply (hash_lookup_spec s live X bls e _ (fun _ v => ret v)); [done..| |].
    - intros _ Hno. wp_steps. exists live, X. split_and!; [by apply find_none|done|apply keeps_refl].
    - intros x _ Hx Es _. wp_steps. exists live, X. split_and!; [by apply find_some|done|apply keeps_refl]. }
  revert Hw. unfold hash_find, wp, bind, ret. by destruct (find_bucket hash_of e s) as [[b s1]|]; [destruct (find_elem less b e s1) as [[]|]|].
Qed.

Lemma serve_insert s live X e : keyed -> table s live X -> valid s X (Insert e) ->
  wp (hash_insert hash_of less e) (outcome s live X (Insert e)) s.
Proof using Type.
  intros Hky Ht (Hc & He & Hsz). pose proof (table_size _ _ _ Ht) as Hcnt. pose proof Ht as (bls & Hok & HX & Hd).
  unfold hash_insert. eapply hash_lookup_spec; [done..| |].
  - intros Hi Hno. change (NULL =? NULL)%nat with true. cbv iota. apply wp_bind. eapply insert_elem_spec; [done|done|by rewrite <- HX|lia| |done|].
    { by eapply client_nonnull. }
    intros s1 bls1 Ht1 Hto Hp. eapply (rehash_table s s1 live bls1 ({[e]} ∪ X)); [done|done| | |by apply insert_none].
    + intros x. rewrite Hp, elem_of_cons, elem_of_union, elem_of_singleton, HX. done.
    + by apply distinct_add.
  - intros x Hi Hx Es H0. rewrite neqb_false by done. wp_steps. apply wp_bind_inv.
    eapply (rehash_table s s live bls X); [apply touches_refl|done|done|done|by apply insert_some].
Qed.

Lemma serve_replace s live X e : keyed -> table s live X -> valid s X (Replace e) ->
  wp (hash_replace hash_of less e) (outcome s live X (Replace e)) s.
Proof using Type.
  intros Hky Ht (Hc & He & Hsz). pose proof (table_size _ _ _ Ht) as Hcnt. pose proof Ht as (bls & Hok & HX & Hd).
  unfold hash_replace. eapply hash_lookup_spec; [done..| |].
  - intros Hi Hno. change (NULL =? NULL)%nat with true. cbn [negb]. wp_steps. apply wp_bind_inv, wp_bind.
    eapply insert_elem_spec; [done|done|by rewrite <- HX|lia|by eapply client_nonnull|done|].
    intros s1 bls1 Ht1 Hto Hp. eapply (rehash_table s s1 live bls1 ({[e]} ∪ X)); [done|done| | |by apply replace_none].
    + intros x. rewrite Hp, elem_of_cons, elem_of_union, elem_of_singleton, HX. done.
    + by apply distinct_add.
  - intros x Hi Hx Es H0. rewrite neqb_false by done. cbn [negb]. apply wp_bind. eapply remove_elem_spec; [done|by apply HX|].
    intros s1 bls1 Ht1 Hto Hp. pose proof Hto as (Eb & Ec & Hcl). apply wp_bind. rewrite <- Eb, <- Ec.
    pose proof (removed_elems _ _ _ _ _ _ Hok HX Hp) as HX1. pose proof (Permutation_length Hp) as Hlen. cbn in Hlen.
    pose proof (tk_cnt _ _ _ _ Ht1). pose proof (tk_cnt _ _ _ _ Hok).
    eapply insert_elem_spec; [done|by apply Hcl|rewrite <- HX1; set_solver|lia|exact (client_nonnull _ _ _ _ _ Hok Hc)|by rewrite Ec|].
    intros s2 bls2 Ht2 Hto2 Hp2.
    eapply (rehash_table s s2 live bls2 ({[e]} ∪ X ∖ {[x]})); [by eapply touches_trans|done| | |by apply replace_some].
    + intros y. rewrite Hp2, elem_of_cons, elem_of_union, elem_of_singleton, HX1. done.
    + apply distinct_add; [by apply distinct_remove|]. intros y. by eapply distinct_rest.
Qed.

Lemma serve_delete s live X e : keyed -> table s live X -> wp (hash_delete hash_of less e) (outcome s live X (Delete e)) s.
Proof using Type.
  intros Hky Ht. pose proof Ht as (bls & Hok & HX & Hd). unfold hash_delete. eapply hash_lookup_spec; [done..| |].
  - intros Hi Hno. change (NULL =? NULL)%nat with true. cbn [negb]. wp_steps. exists live, X.
    split_and!; [by apply delete_none|done|apply keeps_refl].
  - intros x Hi Hx Es H0. rewrite neqb_false by done. cbn [negb]. apply wp_bind, wp_bind.
    eapply remove_elem_spec; [done|by apply HX|]. intros s1 bls1 Ht1 Hto Hp. apply wp_bind_inv.
    eapply (rehash_table s s1 live bls1 (X ∖ {[x]})); [done|done|eapply removed_elems; [exact Hok|done|done]|by apply distinct_remove|by apply delete_some].
Qed.

(** C32: The hash table refines a set of elements. With a hash function that
    gives equal elements equal values, a find, insert, replace or delete
    answers as on a set whose elements are pairwise different, however the
    elements are spread over buckets and whether or not the table changes
    its number of buckets or an allocation for that fails; it runs to its
    end, keeps the invariant, and changes no element and no block of others. *)
Theorem hash_refines s live X r : keyed -> table s live X -> valid s X r ->
  exists v s' live' X', handle r s = Ok (v, s') /\ answers X r v X' /\ table s' live' X' /\ keeps s s' live live'.
Proof using Type.
  intros Hky Ht Hv. assert (Hw : wp (handle r) (outcome s live X r) s).
  { destruct r; cbn [handle]; [by apply serve_find|by apply serve_insert|by apply serve_replace|by apply serve_delete]. }
  apply wp_ok in Hw as (v & s' & E & live' & X' & H). by exists v, s', live', X'.
Qed.

(** * A new table *)

Lemma hash_clear_none_spec s p n (Q : unit -> hs A -> Prop) : hs_tab s = mkHash 0 (Z.of_nat n) p -> Z.of_nat n < 2 ^ 32 -> (0 < p)%nat ->
  (forall e, e ∈ headers_at p n -> is_Some (hs_links s !! e)) ->
  (forall m, fam m (bucket_fam p (replicate n [])) -> touched (hs_links s) m (headers_at p n) -> Q tt (set_links m s)) ->
  wp (hash_clear None) Q s.
Proof using Type.
  intros Et Hn Hp Hd HQ. unfold hash_clear. apply wp_bind.
  apply (wp_loop _ (fun k (i : Z) s' => exists j m, i = Z.of_nat j /\ (j + k)%nat = n /\ s' = set_links m s /\
    fam m (bucket_fam p (replicate j [])) /\ touched (hs_links s) m (headers_at p j))) with (k := n).
  - intros k i s' (j & m & -> & Hjk & -> & Hf & Hto). wp_steps. cbn [hs_tab set_links]. rewrite Et. cbn [bucket_cnt buckets].
    destruct (Z.ltb_spec (Z.of_nat j) (Z.of_nat n)) as [Hlt|Hge].
    + wp_steps. apply wp_links. rewrite bucket_at_nat.
      apply (init_list_spec (hs_links s) m [] p j n); [done|done|lia|done|done|intros e _; apply not_elem_of_nil|].
      intros m' Hf' Hto'. wp_steps. exists (pred k). split; [lia|]. exists (S j), m'. split_and!; try done; lia.
    + unfold set_elem_cnt. wp_steps. assert (j = n) as -> by lia. cbn [hs_tab set_links]. rewrite Et. cbn [bucket_cnt buckets].
      replace (set_tab _ _) with (set_links m s); [by apply HQ|]. unfold set_links, set_tab. cbn. by rewrite Et.
  - exists 0%nat, (hs_links s). rewrite links_id. split; [done|]. split; [done|]. split; [done|]. split; [split; [apply NoDup_nil_2|done]|apply touched_refl].
  - lia.
Qed.

Lemma hash_init_spec s live (Q : bool -> hs A -> Prop) : al_ok (hs_mem s) live ->
  (forall e, is_Some (hs_links s !! e) -> exists b sz, live !! b = Some sz /\ b <= Z.of_nat e < b + sz) ->
  (al_malloc 64 (hs_mem s) = Ok (0, hs_mem s) -> forall s', Q false s') ->
  (forall s' live', table s' live' ∅ -> (forall e, is_Some (hs_links s !! e) -> client s' e) -> Q true s') ->
  wp hash_init Q s.
Proof using Type.
  intros Hok Hown Q0 HQ. unfold hash_init, set_elem_cnt, malloc_lists. wp_steps. apply wp_alloc. cbn [hs_mem set_tab].
  apply MallocOps.wp_recall. change (u32 (sizeof_list * 4)) with 64. eapply al_malloc_ok; [exact Hok|lia| |].
  { intros E. unfold set_buckets. wp_steps. by apply Q0. }
  intros b sz mem Hmem Hb Hb0 Hsz Hdis _. unfold set_buckets. wp_steps. rewrite eqb_false by lia. set (p := Z.to_nat b).
  rewrite neqb_false by (unfold NULL; lia). cbn [negb]. assert (Ep : Z.of_nat p = b) by lia. apply wp_bind.
  pose proof (raw_lists_lookup 4 p (hs_links s)) as Hraw. change (Z.to_nat 4) with 4%nat. cbn [hs_links set_mem set_tab] in *.
  assert (Hfresh : forall e, is_Some (hs_links s !! e) -> e ∉ headers_at p 4).
  { intros e (b' & sz' & Hb' & Hr)%Hown Hh%headers_range. destruct (Hdis _ _ Hb'); lia. }
  eapply (hash_clear_none_spec _ p 4); [done|lia|lia|intros e He; cbn; rewrite Hraw, decide_True by done; by eexists|].
  intros m Hf Hto. cbn [hs_links set_mem set_tab set_links] in Hto. wp_steps. apply (HQ _ (<[b := sz]> live)).
  - exists (replicate 4 []). split; [|split; [intros e; cbn; set_solver|intros x y; set_solver]].
    split; cbn [hs_mem hs_tab hs_links set_links set_mem set_tab buckets bucket_cnt elem_cnt]; try done.
    + exists sz. rewrite Ep, lookup_insert_eq. split; [done|lia].
    + lia.
    + exists 2. lia.
    + apply placed_nil.
    + intros e He. rewrite (to_dom _ _ _ Hto), Hraw in He. destruct (decide _) as [Hh|Hh]; [by left|right].
      destruct (Hown e He) as (b' & sz' & Hb' & Hr). exists b', sz'. assert (b' <> b) by congruence. rewrite Ep.
      by rewrite lookup_insert_ne.
  - intros e He. split; [|by apply Hfresh]. cbn. rewrite (to_dom _ _ _ Hto), Hraw, decide_False by by apply Hfresh. done.
Qed.

(** * Iteration *)

(** The iterator is in bucket [i], before the elements [l2] of it. *)
Definition position s bls (it : hash_iterator) i (l2 : list nat) : Prop :=
  it_bucket it = (buckets (hs_tab s) + 16 * i)%nat /\
  exists l1 B, bls !! i = Some (l1 ++ l2) /\ l_head (list_at (buckets (hs_tab s) + 16 * i)) :: l1 = B ++ [it_elem it].

Definition remaining bls i (l2 : list nat) : list nat := l2 ++ concat (drop (S i) bls).

Lemma hash_next_spec s live bls it i l2 (Q : nat * hash_iterator -> hs A -> Prop) : table_ok hash_of s live bls ->
  position s bls it i l2 -> (remaining bls i l2 = [] -> forall it', Q (NULL, it') s) ->
  (forall x it' i' l2', remaining bls i l2 = x :: remaining bls i' l2' -> position s bls it' i' l2' -> Q (x, it') s) ->
  wp (hash_next it) Q s.
Proof using Type.
  intros Ht (Eb & l1 & B & Hi & EB) Q0 HQ. set (p := buckets (hs_tab s)) in *. pose proof (tk_fam _ _ _ _ Ht) as [_ Hrep]. fold p in Hrep.
  assert (Hr : forall j l, bls !! j = Some l -> rep (hs_links s) (list_at (p + 16 * j)) l).
  { intros j l Hj. apply (Hrep j). by rewrite bucket_fam_lookup, Hj. }
  pose proof (tk_len _ _ _ _ Ht) as Hlen. unfold hash_next, list_end. apply wp_bind, wp_links.
  destruct (l2 ++ [l_tail (list_at (p + 16 * i))]) as [|y D] eqn:Ey; [by destruct l2|].
  apply (wp_list_next (hs_links s) B (it_elem it) y D).
  { pose proof (Hr i _ Hi) as Hc. unfold rep, full in Hc. rewrite <- app_assoc, app_comm_cons, EB, Ey, <- app_assoc in Hc. exact Hc. }
  rewrite links_id, Eb. replace y with (at_ (l2 ++ [l_tail (list_at (p + 16 * i))])) by by rewrite Ey. clear Ey D y EB B.
  apply (wp_loop _ (fun k '(b, y) s' => s' = s /\ exists j a l, (j + k)%nat = length bls /\ b = (p + 16 * j)%nat /\ bls !! j = Some (a ++ l) /\
    y = at_ (l ++ [l_tail (list_at (p + 16 * j))]) /\ remaining bls i l2 = remaining bls j l)) with (k := (length bls - i)%nat).
  2:{ split; [done|]. exists i, l1, l2. pose proof (lookup_lt_Some _ _ _ Hi). split_and!; (done || lia). }
  2:{ pose proof (tk_pow _ _ _ _ Ht) as (k & Hk & Ek). pose proof (Z.pow_le_mono_r 2 k 27 ltac:(lia) ltac:(lia)). lia. }
  intros k [b y] s' (-> & j & a & l & Hjk & -> & Hj & -> & Erem). pose proof (Hr j _ Hj) as Hc. destruct l as [|x l].
  - change (at_ ([] ++ [?z])) with z. cbn [app at_ head default]. rewrite Nat.eqb_refl. wp_steps. fold p.
    rewrite <- Hlen, bucket_at_nat. destruct (Nat.leb_spec (p + 16 * length bls) (p + 16 * j + 16)) as [Hle|Hgt].
    + wp_steps. apply Q0. rewrite Erem. unfold remaining. rewrite drop_ge; [done|lia].
    + destruct (lookup_lt_is_Some_2 bls (S j)) as [l' Hl']; [lia|]. replace (p + 16 * j + 16)%nat with (p + 16 * S j)%nat by lia.
      apply wp_bind, wp_links. eapply wp_list_begin; [by apply Hr|]. rewrite links_id. wp_steps. exists (pred k).
      apply lookup_lt_Some in Hj. split; [lia|]. split; [done|]. exists (S j), [], l'. split_and!; try done; [lia|].
      rewrite Erem. unfold remaining. by rewrite (drop_S bls l' (S j) Hl').
  - change (at_ ((x :: l) ++ _)) with x. rewrite (rep_ne _ _ _ _ _ Hc). wp_steps. apply (HQ x _ j l).
    + rewrite Erem. done.
    + split; [done|]. exists (a ++ [x]), (l_head (list_at (p + 16 * j)) :: a). rewrite <- app_assoc. done.
Qed.

(** The elements that an iteration visits. *)
Fixpoint collect (n : nat) (it : hash_iterator) : ST (hs A) (list nat) :=
  match n with
  | O => ret []
  | S n =>
      let! r := hash_next it in
      if (r.1 =? NULL)%nat then ret [] else let! l := collect n r.2 in ret (r.1 :: l)
  end.

Lemma collect_spec s live bls : table_ok hash_of s live bls -> forall n it i l2 (Q : list nat -> hs A -> Prop),
  position s bls it i l2 -> (length (remaining bls i l2) < n)%nat -> Q (remaining bls i l2) s -> wp (collect n it) Q s.
Proof using less.
  intros Ht. induction n as [|n IH]; intros it i l2 Q Hpos Hn HQ; [lia|]. cbn [collect]. apply wp_bind.
  eapply hash_next_spec; [done|done| |].
  - intros E it'. cbn. wp_steps. by rewrite <- E.
  - intros x it' i' l2' E Hpos'. cbn [fst snd]. assert (Hx : x ∈ concat bls).
    { destruct Hpos as (_ & l1 & B & Hi & _). apply take_drop_middle in Hi. rewrite <- Hi, concat_app. cbn [concat].
      assert (x ∈ remaining bls i l2) by (rewrite E; left). unfold remaining in *. set_solver. }
    rewrite neqb_false; cycle 1.
    { apply elem_of_concat in Hx as (l & Hxl & [j Hj]%list_elem_of_lookup). pose proof (tk_fam _ _ _ _ Ht) as [_ Hrep].
      eapply rep_full; [apply (Hrep j); by rewrite bucket_fam_lookup, Hj|]. apply elem_of_full. by right; right. }
    apply wp_bind. rewrite E in Hn. cbn in Hn. eapply IH; [done|lia|]. wp_steps. by rewrite <- E.
Qed.

(** Iteration with [hash_first] and [hash_next] visits every element of the
    table exactly once, then stops. *)
Theorem hash_iterates s live X : table s live X ->
  exists l, (let! it := hash_first in collect (S (size X)) it) s = Ok (l, s) /\ NoDup l /\ forall e, e ∈ l <-> e ∈ X.
Proof using Type.
  intros Ht. pose proof (table_size _ _ _ Ht) as Hsz. pose proof Ht as (bls & Hok & HX & _). pose proof (table_nodup _ _ _ Hok) as Hnd.
  pose proof (tk_cnt _ _ _ _ Hok) as Hcnt. destruct (tk_pow _ _ _ _ Hok) as (k & Hk & Ek). pose proof (tk_len _ _ _ _ Hok) as Hlen.
  pose proof (Z.pow_pos_nonneg 2 k ltac:(lia) ltac:(lia)). destruct bls as [|l0 bls]; [cbn in *; lia|].
  assert (Hw : wp (let! it := hash_first in collect (S (size X)) it) (fun l s' => s' = s /\ l = concat (l0 :: bls)) s).
  { unfold hash_first. wp_steps. eapply (collect_spec s live (l0 :: bls) Hok _ _ 0 l0).
    - split; [cbn; lia|]. exists [], []. split; [done|]. cbn. do 2 f_equal. lia.
    - change (remaining (l0 :: bls) 0 l0) with (concat (l0 :: bls)). lia.
    - done. }
  apply wp_ok in Hw as (l & s' & E & -> & ->). exists (concat (l0 :: bls)). by split_and!.
Qed.

End props.
(** * An allocator that never reuses memory *)

#[local, refine] Instance region : BlockAllocator Z := {|
  al_malloc n := fun next => Ok (next, next + n);
  al_free _ := ret tt;
  al_ok next live := 0 < next /\ forall b sz, live !! b = Some sz -> 0 < b /\ 0 < sz /\ b + sz <= next;
|}.
Proof.
  - intros next live b sz [_ H] Hb. apply H in Hb. lia.
  - intros next live n Q [H0 H] Hn _ HQ. unfold wp. apply (HQ next n); [split; [lia|]|destruct (live !! next) eqn:E; [|done]; apply H in E; lia|done|done|].
    + intros b sz [[<- <-]|[_ Hb]]%lookup_insert_Some; [lia|]. apply H in Hb. lia.
    + intros b' sz' Hb. apply H in Hb. lia.
  - intros next live p sz Q [H0 H] Hp HQ. unfold wp. cbn. apply HQ. split; [done|]. intros b z [_ Hb]%lookup_delete_Some. by apply H.
Defined.

(** Two elements of a client, in a block of 100 bytes. *)
Definition demo_hash_state : hs Z :=
  mkHS 200 (<[16%nat := mkElem 0 0]> (<[32%nat := mkElem 0 0]> ∅)) (mkHash 0 0 0).

Definition demo_hash (e : nat) : Z := 7.

Lemma demo_keyed : keyed demo_hash Nat.ltb.
Proof.
  assert (Hs : forall a b, same Nat.ltb a b = true <-> a = b).
  { intros a b. unfold same. rewrite andb_true_iff, !negb_true_iff, !Nat.ltb_ge. lia. }
  split.
  - intros a. by apply Hs.
  - intros a b c ->%Hs ->%Hs. by apply Hs.
  - done.
Qed.

(** A new table, and an element for it. *)
Lemma demo_table : exists s live, hash_init demo_hash_state = Ok (true, s) /\ table demo_hash Nat.ltb s live ∅ /\ client s 16.
Proof.
  assert (Hw : wp hash_init (fun b s => b = true /\ exists live, table demo_hash Nat.ltb s live ∅ /\ client s 16) demo_hash_state).
  { apply (hash_init_spec demo_hash Nat.ltb _ {[16 := 100]}).
    - split; [done|]. intros b sz [<- <-]%lookup_singleton_Some. done.
    - intros e He. exists 16, 100. split; [done|]. cbn in He.
      rewrite !lookup_insert_is_Some in He. destruct He as [<-|[_ [<-|[_ []%lookup_empty_is_Some]]]]; lia.
    - discriminate.
    - intros s' live' Ht Hc. split; [done|]. exists live'. split; [done|]. by apply Hc. }
  destruct (proj1 (wp_ok _ _ _) Hw) as (b & s & E & Eb & live & H). clear Hw. subst b. exists s, live. split; [exact E|exact H].
Qed.

Lemma hash_refines_witness : exists s v s', hash_init demo_hash_state = Ok (true, s) /\
  handle demo_hash Nat.ltb (Insert 16) s = Ok (v, s').
Proof.
  destruct demo_table as (s & live & E & Ht & Hc). exists s.
  destruct (hash_refines demo_hash Nat.ltb s live ∅ (Insert 16) demo_keyed Ht) as (v & s' & _ & _ & H & _).
  - split; [exact Hc|]. split; [apply not_elem_of_empty|]. rewrite size_empty. lia.
  - exists v, s'. split; [exact E|exact H].
Defined.

Lemma hash_iterates_witness : exists s l, hash_init demo_hash_state = Ok (true, s) /\
  (let! it := hash_first in collect (S (size (∅ : gset nat))) it) s = Ok (l, s).
Proof.
  destruct demo_table as (s & live & E & Ht & _). exists s.
  destruct (hash_iterates demo_hash Nat.ltb s live ∅ Ht) as (l & H & _). exists l. split; [exact E|exact H].
Defined.

End HashProps.
