(* ===== verification/Sched.v ===== *)
(** The scheduler (src/src/threads/scheduler.c, scheduler.h) and the part of
    src/src/threads/thread.c that drives it.

    The state holds the threads, the links of the ready lists (in the store
    of [KList]; the address of a thread is also that of its [elem]), one
    ready queue per CPU and the time. Every routine runs with the lock of
    the ready queue that it works on, so it is one step; the locks
    themselves, interrupt levels, statistics and the process fields of a
    thread are not here. The list of all threads is a plain list. *)
From stdpp Require Export gmap.
From S2P Require Import Prelude KList.
From stdpp Require Import options.
#[local] Open Scope Z_scope.

Module Sched.

Inductive thread_status := THREAD_RUNNING | THREAD_READY | THREAD_BLOCKED | THREAD_DYING.

#[global] Instance thread_status_eq_dec : EqDecision thread_status.
Proof. solve_decision. Defined.

Definition NICE_MIN : Z := -20.
Definition NICE_DEFAULT : Z := 0.
Definition NICE_MAX : Z := 19.

Record thread := mkThread {
  t_tid : Z;
  t_status : thread_status;
  t_nice : Z;
  t_cpu : option nat;
  t_vruntime : Z;
  t_timer_start : Z;
  t_timer_stop : Z;
}.

Inductive sched_return_action := RETURN_NONE | RETURN_YIELD.

Record ready_queue := mkRq {
  rq_curr : option nat;
  rq_idle_thread : option nat;
  rq_thread_ticks : Z;
  rq_ready_list : KList.llist;
  rq_nr_ready : Z;
  rq_min_vruntime : Z;
  rq_last_time : Z;
  rq_active : bool;
}.

Record ks := mkKs {
  ks_threads : gmap nat thread;
  ks_links : gmap nat KList.list_elem;
  ks_rqs : list ready_queue;      (** [cpus[i].rq] *)
  ks_running : list nat;          (** the thread on each CPU *)
  ks_yield : list bool;           (** [yield_on_return] of each CPU *)
  ks_ipis : list nat;             (** CPUs told to reschedule *)
  ks_all : list nat;              (** [all_list] *)
  ks_time : Z;                    (** [cur_time] of the timer *)
  ks_next_tid : Z;
  ks_initial : nat;               (** [initial_thread] *)
}.

Abbreviation SK := (ST ks).

Definition set_threads x s := mkKs x (ks_links s) (ks_rqs s) (ks_running s) (ks_yield s) (ks_ipis s) (ks_all s) (ks_time s) (ks_next_tid s) (ks_initial s).
Definition set_links x s := mkKs (ks_threads s) x (ks_rqs s) (ks_running s) (ks_yield s) (ks_ipis s) (ks_all s) (ks_time s) (ks_next_tid s) (ks_initial s).
Definition set_rqs x s := mkKs (ks_threads s) (ks_links s) x (ks_running s) (ks_yield s) (ks_ipis s) (ks_all s) (ks_time s) (ks_next_tid s) (ks_initial s).
Definition set_running x s := mkKs (ks_threads s) (ks_links s) (ks_rqs s) x (ks_yield s) (ks_ipis s) (ks_all s) (ks_time s) (ks_next_tid s) (ks_initial s).
Definition set_yield x s := mkKs (ks_threads s) (ks_links s) (ks_rqs s) (ks_running s) x (ks_ipis s) (ks_all s) (ks_time s) (ks_next_tid s) (ks_initial s).
Definition set_ipis x s := mkKs (ks_threads s) (ks_links s) (ks_rqs s) (ks_running s) (ks_yield s) x (ks_all s) (ks_time s) (ks_next_tid s) (ks_initial s).
Definition set_all x s := mkKs (ks_threads s) (ks_links s) (ks_rqs s) (ks_running s) (ks_yield s) (ks_ipis s) x (ks_time s) (ks_next_tid s) (ks_initial s).
Definition set_tid x s := mkKs (ks_threads s) (ks_links s) (ks_rqs s) (ks_running s) (ks_yield s) (ks_ipis s) (ks_all s) (ks_time s) x (ks_initial s).
Definition set_initial x s := mkKs (ks_threads s) (ks_links s) (ks_rqs s) (ks_running s) (ks_yield s) (ks_ipis s) (ks_all s) (ks_time s) (ks_next_tid s) x.
Definition set_time x s := mkKs (ks_threads s) (ks_links s) (ks_rqs s) (ks_running s) (ks_yield s) (ks_ipis s) (ks_all s) x (ks_next_tid s) (ks_initial s).

Definition t_set_status x t := mkThread (t_tid t) x (t_nice t) (t_cpu t) (t_vruntime t) (t_timer_start t) (t_timer_stop t).
Definition t_set_nice x t := mkThread (t_tid t) (t_status t) x (t_cpu t) (t_vruntime t) (t_timer_start t) (t_timer_stop t).
Definition t_set_cpu x t := mkThread (t_tid t) (t_status t) (t_nice t) x (t_vruntime t) (t_timer_start t) (t_timer_stop t).
Definition t_set_vruntime x t := mkThread (t_tid t) (t_status t) (t_nice t) (t_cpu t) x (t_timer_start t) (t_timer_stop t).
Definition t_set_start x t := mkThread (t_tid t) (t_status t) (t_nice t) (t_cpu t) (t_vruntime t) x (t_timer_stop t).
Definition t_set_stop x t := mkThread (t_tid t) (t_status t) (t_nice t) (t_cpu t) (t_vruntime t) (t_timer_start t) x.
Definition t_set_tid x t := mkThread x (t_status t) (t_nice t) (t_cpu t) (t_vruntime t) (t_timer_start t) (t_timer_stop t).

Definition rq_set_curr x r := mkRq x (rq_idle_thread r) (rq_thread_ticks r) (rq_ready_list r) (rq_nr_ready r) (rq_min_vruntime r) (rq_last_time r) (rq_active r).
Definition rq_set_idle x r := mkRq (rq_curr r) x (rq_thread_ticks r) (rq_ready_list r) (rq_nr_ready r) (rq_min_vruntime r) (rq_last_time r) (rq_active r).
Definition rq_set_ticks x r := mkRq (rq_curr r) (rq_idle_thread r) x (rq_ready_list r) (rq_nr_ready r) (rq_min_vruntime r) (rq_last_time r) (rq_active r).
Definition rq_set_nr x r := mkRq (rq_curr r) (rq_idle_thread r) (rq_thread_ticks r) (rq_ready_list r) x (rq_min_vruntime r) (rq_last_time r) (rq_active r).
Definition rq_set_min x r := mkRq (rq_curr r) (rq_idle_thread r) (rq_thread_ticks r) (rq_ready_list r) (rq_nr_ready r) x (rq_last_time r) (rq_active r).
Definition rq_set_last x r := mkRq (rq_curr r) (rq_idle_thread r) (rq_thread_ticks r) (rq_ready_list r) (rq_nr_ready r) (rq_min_vruntime r) x (rq_active r).
Definition rq_set_active x r := mkRq (rq_curr r) (rq_idle_thread r) (rq_thread_ticks r) (rq_ready_list r) (rq_nr_ready r) (rq_min_vruntime r) (rq_last_time r) x.

Definition get_thread (t : nat) : SK thread := let! m := gets (fun s => ks_threads s !! t) in lift (access m).
Definition upd_thread (t : nat) (f : thread -> thread) : SK unit :=
  let! x := get_thread t in modify (fun s => set_threads (<[t := f x]> (ks_threads s)) s).
Definition get_rq (c : nat) : SK ready_queue := let! r := gets (fun s => ks_rqs s !! c) in lift (access r).
Definition upd_rq (c : nat) (f : ready_queue -> ready_queue) : SK unit :=
  let! r := get_rq c in modify (fun s => set_rqs (<[c := f r]> (ks_rqs s)) s).
Definition deref (p : option nat) : SK nat := lift (access p).

(** A list operation. *)
Definition linked {A} (m : ST (gmap nat KList.list_elem) A) : SK A :=
  fun s => match m (ks_links s) with
           | Ok (a, l) => Ok (a, set_links l s)
           | Err e => Err e
           end.

(** [list_for_each_entry (t, &list.head, elem)]: [f] is the body, with an
    accumulator. *)
Definition for_each {X} (list : KList.llist) (f : nat -> X -> SK X) (x : X) : SK X :=
  let! pos := linked (KList.next (KList.l_head list)) in
  loop (fun '(pos, x) =>
    let! n := linked (KList.next pos) in
    if (n =? KList.NULL)%nat then ret (inr x)
    else
      let! x := f pos x in
      let! pos := linked (KList.next pos) in
      ret (inl (pos, x))) (pos, x).

(** [timer_gettime ()], assigned to an [int64_t] *)
Definition timer_gettime : SK Z := gets (fun s => s64 (ks_time s)).

(** * scheduler.c *)

Definition max (x y : Z) : Z := if y <? x then x else y.
Definition min (x y : Z) : Z := if (x <? y) && negb (x =? 0) then x else y.

Definition prio_to_weight : list Z :=
  [88761; 71755; 56483; 46273; 36291; 29154; 23254; 18705; 14949; 11916;
   9548; 7620; 6100; 4904; 3906; 3121; 2501; 1991; 1586; 1277;
   1024; 820; 655; 526; 423; 335; 272; 215; 172; 137;
   110; 87; 70; 56; 45; 36; 29; 23; 18; 15].

(** [prio_to_weight[i]]; outside the table it is undefined. *)
Definition weight (i : Z) : res Z := access (if 0 <=? i then prio_to_weight !! Z.to_nat i else None).

Definition INT64_MAX : Z := 2 ^ 63 - 1.

Definition sched_init (c : nat) : SK unit :=
  let! r := get_rq c in
  linked (KList.list_init (rq_ready_list r));;;
  upd_rq c (rq_set_min 0);;;
  upd_rq c (rq_set_last 0);;;
  upd_rq c (rq_set_active true).

Definition calc_vruntime (t : nat) (bonus : Z) : SK Z :=
  let! x := get_thread t in
  let d := s64 (t_timer_stop x - t_timer_start x) in
  let! w0 := lift (weight (NICE_DEFAULT + bonus)) in
  let! w := lift (weight (t_nice x + bonus)) in
  ret (s64 (t_vruntime x + Z.quot (s64 (d * w0)) w)).

(** [t->vruntime = calc_vruntime (t, bonus)] *)
Definition update_vruntime (t : nat) (bonus : Z) : SK unit :=
  let! v := calc_vruntime t bonus in upd_thread t (t_set_vruntime v).

Definition set_min_vruntime (c : nat) : SK unit :=
  let! r := get_rq c in
  let! m := match rq_curr r with
            | Some t => let! x := get_thread t in ret (min (t_vruntime x) INT64_MAX)
            | None => ret INT64_MAX
            end in
  let! m := for_each (rq_ready_list r) (fun t m => let! x := get_thread t in ret (min (t_vruntime x) m)) m in
  upd_rq c (rq_set_min (if m =? INT64_MAX then 0 else m)).

Definition sched_unblock (c : nat) (t : nat) (initial : bool) : SK sched_return_action :=
  let! r := get_rq c in
  match rq_curr r with
  | Some curr =>
      if negb initial then
        let! now := timer_gettime in upd_thread curr (t_set_stop now);;;
        update_vruntime curr 20;;;
        let! now := timer_gettime in upd_thread curr (t_set_start now);;;
        set_min_vruntime c;;;
        update_vruntime t 0;;;
        let! x := get_thread t in
        let! r := get_rq c in
        upd_thread t (t_set_vruntime (max (t_vruntime x) (s64 (rq_min_vruntime r - 20000000))))
      else
        let! now := timer_gettime in upd_thread curr (t_set_stop now);;;
        update_vruntime curr 20;;;
        let! x := get_thread curr in
        (if negb (s64 (t_timer_stop x - t_timer_start x) =? 0) then set_min_vruntime c else ret tt);;;
        let! now := timer_gettime in upd_thread curr (t_set_start now);;;
        let! r := get_rq c in
        let! x := get_thread curr in
        upd_thread t (t_set_vruntime (if negb (rq_min_vruntime r =? 0) then rq_min_vruntime r else t_vruntime x))
  | None => ret tt
  end;;;
  let! r := get_rq c in
  linked (KList.list_push_back (rq_ready_list r) t);;;
  upd_rq c (rq_set_nr (u32 (rq_nr_ready r + 1)));;;
  ret (if bool_decide (rq_curr r = None) || negb initial then RETURN_YIELD else RETURN_NONE).

Definition sched_yield (c : nat) (current : nat) : SK unit :=
  let! r := get_rq c in
  linked (KList.list_push_back (rq_ready_list r) current);;;
  upd_rq c (rq_set_nr (u32 (rq_nr_ready r + 1)));;;
  let! now := timer_gettime in upd_thread current (t_set_stop now);;;
  update_vruntime current 20.

(** The test of the loop in [find_thread]. *)
Definition before (a b : thread) : bool :=
  (t_vruntime a <? t_vruntime b) || (t_vruntime a =? t_vruntime b) && (t_tid a <? t_tid b).

Definition find_thread (c : nat) : SK nat :=
  let! r := get_rq c in
  let! t_front := linked (KList.list_front (rq_ready_list r)) in
  for_each (rq_ready_list r) (fun t t_front =>
    let! x := get_thread t in
    let! f := get_thread t_front in
    ret (if before x f then t else t_front)) t_front.

Definition sched_pick_next (c : nat) : SK (option nat) :=
  let! r := get_rq c in
  let! empty := linked (KList.list_empty (rq_ready_list r)) in
  if empty : bool then ret None
  else
    let! t := find_thread c in
    linked (KList.list_remove t);;;
    let! now := timer_gettime in upd_thread t (t_set_start now);;;
    upd_rq c (rq_set_nr (u32 (rq_nr_ready r - 1)));;;
    ret (Some t).

(** The weights of the threads in the list, added to [total]. *)
Definition add_weights (list : KList.llist) (total : Z) : SK Z :=
  for_each list (fun t total =>
    let! x := get_thread t in
    let! w := lift (weight (t_nice x + 20)) in
    ret (s64 (total + w))) total.

Definition queue_weight (c : nat) : SK Z :=
  let! r := get_rq c in add_weights (rq_ready_list r) 0.

Definition queue_total_weight (c : nat) : SK Z :=
  let! r := get_rq c in
  let! total := match rq_curr r with
                | Some t => let! x := get_thread t in let! w := lift (weight (t_nice x + 20)) in ret (s64 (0 + w))
                | None => ret 0
                end in
  let! total := add_weights (rq_ready_list r) total in
  ret (if total =? 0 then 1 else total).

Definition calc_ideal_runtime (c : nat) (curr : nat) : SK Z :=
  let nanos := 4000000 in
  let! r := get_rq c in
  let n := match rq_curr r with Some _ => u32 (rq_nr_ready r + 1) | None => rq_nr_ready r end in
  let! x := get_thread curr in
  let! w := lift (weight (t_nice x + 20)) in
  let! s := queue_total_weight c in
  ret (Z.quot (s64 (s64 (nanos * n) * w)) s).

Definition sched_tick (c : nat) (current : nat) : SK sched_return_action :=
  let! ideal_runtime := calc_ideal_runtime c current in
  let! current_time := timer_gettime in
  let! r := get_rq c in
  upd_rq c (rq_set_ticks (u32 (rq_thread_ticks r + s64 (current_time - rq_last_time r))));;;
  upd_rq c (rq_set_last current_time);;;
  let! r := get_rq c in
  if ideal_runtime <=? rq_thread_ticks r then
    upd_rq c (rq_set_ticks 0);;; ret RETURN_YIELD
  else ret RETURN_NONE.

Definition sched_block (c : nat) (current : nat) : SK unit :=
  let! now := timer_gettime in upd_thread current (t_set_stop now).

Definition get_thread_weight (t : nat) : SK Z :=
  let! x := get_thread t in lift (weight (t_nice x + 20)).

(** * thread.c *)

Definition running_thread (c : nat) : SK nat := let! r := gets (fun s => ks_running s !! c) in lift (access r).

Definition thread_current (c : nat) : SK nat :=
  let! t := running_thread c in
  let! x := get_thread t in
  ASSERT (bool_decide (t_status x = THREAD_RUNNING));;;
  ret t.

Definition intr_yield_on_return (c : nat) : SK unit :=
  modify (fun s => set_yield (<[c := true]> (ks_yield s)) s).

Definition thread_tick (c : nat) : SK unit :=
  let! t := thread_current c in
  let! action := sched_tick c t in
  match action with
  | RETURN_YIELD => intr_yield_on_return c
  | RETURN_NONE => ret tt
  end.

(** [started]: whether the other CPUs run. *)
Definition choose_cpu_for_new_thread (started : bool) (t : nat) : SK nat :=
  let! x := get_thread t in
  let! ncpu := gets (fun s => Z.of_nat (length (ks_rqs s))) in
  ret (if started then Z.to_nat (u32 (t_tid x) mod ncpu) else 0%nat).

Definition wake_up_new_thread (started : bool) (t : nat) : SK unit :=
  upd_thread t (t_set_status THREAD_READY);;;
  let! c := choose_cpu_for_new_thread started t in
  upd_thread t (t_set_cpu (Some c));;;
  sched_unblock c t true;;;
  ret tt.

Definition allocate_tid : SK Z :=
  let! n := gets ks_next_tid in
  modify (set_tid (s32 (n + 1)));;; ret (s32 (n + 1)).

(** The page [t] becomes a thread. *)
Definition init_thread (t : nat) (nice : Z) : SK unit :=
  ASSERT ((NICE_MIN <=? nice) && (nice <=? NICE_MAX));;;
  modify (fun s => set_threads (<[t := mkThread 0 THREAD_BLOCKED nice None 0 0 0]> (ks_threads s)) s);;;
  modify (fun s => set_links (<[t := KList.mkElem KList.NULL KList.NULL]> (ks_links s)) s);;;
  modify (fun s => set_all (ks_all s ++ [t]) s).

(** [boot_thread] is what [running_thread] returns on the CPU [c]. *)
Definition init_boot_thread (boot_thread : nat) (c : nat) : SK unit :=
  init_thread boot_thread NICE_DEFAULT;;;
  upd_thread boot_thread (t_set_status THREAD_RUNNING);;;
  let! tid := allocate_tid in
  upd_thread boot_thread (t_set_tid tid);;;
  upd_thread boot_thread (t_set_cpu (Some c));;;
  upd_rq c (rq_set_curr (Some boot_thread)).

(** On the boot processor, CPU 0. *)
Definition thread_init : SK unit :=
  modify (set_all []);;;
  sched_init 0;;;
  let! t := running_thread 0 in
  modify (set_initial t);;;
  init_boot_thread t 0.

Definition thread_init_on_ap (c : nat) : SK unit :=
  sched_init c;;;
  let! t := running_thread c in
  init_boot_thread t c.

(** [page] is what [palloc_get_page] returns. *)
Definition do_thread_create (page : option nat) (nice : Z) : SK (option nat) :=
  match page with
  | None => ret None
  | Some t =>
      init_thread t nice;;;
      let! tid := allocate_tid in
      upd_thread t (t_set_tid tid);;;
      ret (Some t)
  end.

Definition thread_start_idle_thread (page : option nat) (c : nat) : SK unit :=
  let! idle_thread := do_thread_create page NICE_MAX in
  ASSERT (bool_decide (idle_thread <> None));;;
  let! t := deref idle_thread in
  upd_thread t (t_set_cpu (Some c));;;
  upd_rq c (rq_set_idle (Some t)).

Definition next_thread_to_run (c : nat) : SK (option nat) :=
  let! t := sched_pick_next c in
  match t with
  | Some t => ret (Some t)
  | None => let! r := get_rq c in ret (rq_idle_thread r)
  end.

Definition thread_schedule_tail (c : nat) (prev : option nat) : SK unit :=
  let! cur := running_thread c in
  upd_thread cur (t_set_status THREAD_RUNNING);;;
  match prev with
  | Some p =>
      let! x := get_thread p in
      let! initial := gets ks_initial in
      if bool_decide (t_status x = THREAD_DYING) && negb (p =? initial)%nat then
        ASSERT (negb (p =? cur)%nat);;;
        modify (fun s => set_links (delete p (ks_links s)) (set_threads (delete p (ks_threads s)) s))
      else ret tt
  | None => ret tt
  end.

(** The part of [schedule] after the choice of [next]. *)
Definition switch_to (c cur : nat) (next : option nat) : SK unit :=
  let! x := get_thread cur in
  ASSERT (bool_decide (t_status x <> THREAD_RUNNING));;;
  ASSERT (bool_decide (next <> None));;;
  let! next := deref next in
  let! prev :=
    (if negb (cur =? next)%nat then
       let! r := get_rq c in
       upd_rq c (rq_set_curr (if bool_decide (Some next = rq_idle_thread r) then None else Some next));;;
       modify (fun s => set_running (<[c := next]> (ks_running s)) s);;;
       ret (Some cur)
     else ret None) in
  thread_schedule_tail c prev.

Definition schedule (c : nat) : SK unit :=
  let! cur := running_thread c in
  let! next := next_thread_to_run c in
  switch_to c cur next.

Definition thread_block (c : nat) : SK unit :=
  let! curr := thread_current c in
  upd_thread curr (t_set_status THREAD_BLOCKED);;;
  sched_block c curr;;;
  schedule c.

(** Called on CPU [self]. *)
Definition thread_unblock (self : nat) (t : nat) : SK unit :=
  let! x := get_thread t in
  ASSERT (bool_decide (t_cpu x <> None));;;
  let! c := deref (t_cpu x) in
  ASSERT (bool_decide (t_status x = THREAD_BLOCKED));;;
  upd_thread t (t_set_status THREAD_READY);;;
  let! action := sched_unblock c t false in
  match action with
  | RETURN_YIELD =>
      if (c =? self)%nat then intr_yield_on_return c
      else modify (fun s => set_ipis (c :: ks_ipis s) s)
  | RETURN_NONE => ret tt
  end.

Definition thread_yield (c : nat) : SK unit :=
  let! cur := thread_current c in
  upd_thread cur (t_set_status THREAD_READY);;;
  let! r := get_rq c in
  (if bool_decide (Some cur <> rq_idle_thread r) then sched_yield c cur else ret tt);;;
  schedule c.

Definition do_thread_exit (c : nat) : SK unit :=
  let! cur := thread_current c in
  modify (fun s => set_all (filter (fun x => x <> cur) (ks_all s)) s);;;
  upd_thread cur (t_set_status THREAD_DYING);;;
  schedule c.

Definition thread_set_nice (c : nat) (nice : Z) : SK unit :=
  let! t := thread_current c in upd_thread t (t_set_nice nice).

Definition thread_get_nice (c : nat) : SK Z :=
  let! t := thread_current c in let! x := get_thread t in ret (t_nice x).

(** [balance_load]: the search for the busiest other CPU, then the theft. *)
Fixpoint find_busiest (n : nat) (i self : nat) (best : option nat) (maxLoad : Z) : SK (option nat * Z) :=
  match n with
  | O => ret (best, maxLoad)
  | S n =>
      let! r := get_rq i in
      if negb (rq_active r) || (i =? self)%nat then find_busiest n (S i) self best maxLoad
      else
        let! currLoad := queue_weight i in
        if maxLoad <? currLoad then find_busiest n (S i) self (Some i) currLoad
        else find_busiest n (S i) self best maxLoad
  end.

Definition steal_round (self victim : nat) (imbalance diff : Z) (st : Z * bool) : SK ((Z * bool) + unit) :=
  let '(stolenWeight, front) := st in
  if negb (stolenWeight <? imbalance) then ret (inr tt)
  else
    let! v := get_rq victim in
    let! stolen := linked (if front : bool then KList.list_pop_front (rq_ready_list v)
                           else KList.list_pop_back (rq_ready_list v)) in
    let! w := get_thread_weight stolen in
    let! x := get_thread stolen in
    let vr := s64 (t_vruntime x - diff) in
    upd_thread stolen (t_set_vruntime (if vr <? 0 then 0 else vr));;;
    let! r := get_rq self in
    linked (KList.list_push_front (rq_ready_list r) stolen);;;
    ret (inl (s64 (stolenWeight + w), negb front)).

Definition balance_load (self : nat) : SK unit :=
  let! r := get_rq self in
  if negb (rq_active r) then ret tt
  else
    let! ncpu := gets (fun s => length (ks_rqs s)) in
    let! (best, maxLoad) := find_busiest ncpu 0 self None 0 in
    match best with
    | None => ret tt
    | Some victim =>
        let! myLoad := queue_weight self in
        if s64 (2 * myLoad) <=? maxLoad then
          let imbalance := Z.quot (s64 (maxLoad - myLoad)) 2 in
          let! r := get_rq self in
          let! v := get_rq victim in
          let diff := s64 (rq_min_vruntime r - rq_min_vruntime v) in
          loop (steal_round self victim imbalance diff) (0, true);;;
          set_min_vruntime victim
        else ret tt
    end.

End Sched.
