(* ===== verification/SchedSpec.v ===== *)
(** What the routines of [Sched] do to the state, one specification each:
    the loops over a ready list, the arithmetic of virtual run times, and
    the choice of the next thread. *)
From S2P Require Import Prelude KList KListSpec KListSort KListOps Sched.
From stdpp Require Import options.

#[local] Open Scope Z_scope.

Module SchedSpec.
Import Sched.

(** * Reading and writing the state *)

Section access.
Implicit Types (s : ks) (t c : nat).

Lemma wp_get_thread t x (Q : thread -> ks -> Prop) s :
  ks_threads s !! t = Some x -> Q x s -> wp (get_thread t) Q s.
Proof. intros Hx HQ. unfold get_thread. wp_steps. apply wp_lift. by rewrite Hx. Qed.

Lemma wp_get_rq c r (Q : ready_queue -> ks -> Prop) s :
  ks_rqs s !! c = Some r -> Q r s -> wp (get_rq c) Q s.
Proof. intros Hx HQ. unfold get_rq. wp_steps. apply wp_lift. by rewrite Hx. Qed.

Lemma wp_upd_thread t x f (Q : unit -> ks -> Prop) s :
  ks_threads s !! t = Some x -> Q tt (set_threads (<[t := f x]> (ks_threads s)) s) -> wp (upd_thread t f) Q s.
Proof. intros Hx HQ. unfold upd_thread. apply wp_bind. eapply wp_get_thread; [done|]. by wp_steps. Qed.

Lemma wp_upd_rq c r f (Q : unit -> ks -> Prop) s :
  ks_rqs s !! c = Some r -> Q tt (set_rqs (<[c := f r]> (ks_rqs s)) s) -> wp (upd_rq c f) Q s.
Proof. intros Hx HQ. unfold upd_rq. apply wp_bind. eapply wp_get_rq; [done|]. by wp_steps. Qed.

Lemma wp_running c t (Q : nat -> ks -> Prop) s :
  ks_running s !! c = Some t -> Q t s -> wp (running_thread c) Q s.
Proof. intros Hx HQ. unfold running_thread. wp_steps. apply wp_lift. by rewrite Hx. Qed.

Lemma wp_linked {A} (m : ST (gmap nat KList.list_elem) A) (Q : A -> ks -> Prop) s :
  wp m (fun a l => Q a (set_links l s)) (ks_links s) -> wp (linked m) Q s.
Proof. unfold wp, linked. by destruct (m (ks_links s)) as [[]|]. Qed.

Lemma set_links_id s : set_links (ks_links s) s = s.
Proof. by destruct s. Qed.
End access.

(** * Loops over a ready list *)

(** A loop that only reads: its result is a fold over the elements. *)
Lemma for_each_spec {X} (I : X -> Prop) L l (f : nat -> X -> SK X) (g : nat -> X -> X) x s (Q : X -> ks -> Prop) :
  KListSpec.rep (ks_links s) L l -> Z.of_nat (length l) < 2 ^ 32 -> I x ->
  (forall t y, t ∈ l -> I y -> I (g t y) /\ forall (P : X -> ks -> Prop), P (g t y) s -> wp (f t y) P s) ->
  Q (foldl (fun y t => g t y) x l) s -> wp (for_each L f x) Q s.
Proof.
  intros Hr Hlen Hx Hf HQ. unfold for_each. apply wp_bind, wp_linked.
  eapply KListSpec.wp_next; [apply (KListSpec.chain_next _ [] _ _ Hr)|]. rewrite set_links_id.
  eapply (wp_loop _ (fun k '(pos, y) s1 => exists l1 l2, l = l1 ++ l2 /\ k = length l2 /\
    pos = KListSort.at_ (l2 ++ [KList.l_tail L]) /\ y = foldl (fun y t => g t y) x l1 /\ I y /\ s1 = s)).
  2:{ by exists [], l. }
  2:{ lia. }
  intros k [pos y] s1 (l1 & l2 & -> & -> & -> & -> & Hy & ->). apply wp_bind, wp_linked.
  pose proof (Hc := Hr). unfold KListSpec.rep, KListSpec.full in Hc. rewrite <- app_assoc in Hc.
  change (KListSpec.chain (ks_links s) ((KList.l_head L :: l1) ++ l2 ++ [KList.l_tail L])) in Hc.
  destruct l2 as [|t l2].
  - change (KListSort.at_ ([] ++ [KList.l_tail L])) with (KList.l_tail L).
    eapply KListSpec.wp_next; [apply (KListSpec.chain_next _ _ _ _ Hc)|]. cbn [head default Nat.eqb KList.NULL].
    rewrite set_links_id. wp_steps. by rewrite app_nil_r in HQ.
  - change (KListSort.at_ ((t :: l2) ++ [KList.l_tail L])) with t.
    change ((t :: l2) ++ [KList.l_tail L]) with (t :: (l2 ++ [KList.l_tail L])) in Hc.
    pose proof (KListSpec.chain_next _ _ _ _ Hc) as Hn. destruct (l2 ++ [KList.l_tail L]) as [|b B] eqn:Eb; [by destruct l2|].
    assert (Hb : b <> KList.NULL).
    { change (t :: b :: B) with ([t] ++ b :: B) in Hc. rewrite app_assoc in Hc. by eapply KListSpec.chain_nonnull. }
    eapply KListSpec.wp_next; [exact Hn|]. rewrite set_links_id.
    change (default KList.NULL (head (b :: B))) with b.
    rewrite (proj2 (Nat.eqb_neq b KList.NULL)) by done.
    destruct (Hf t (foldl (fun y t => g t y) x l1)) as [Hy' Hft]; [set_solver|done|].
    apply wp_bind, Hft, wp_bind, wp_linked. eapply KListSpec.wp_next; [exact Hn|].
    rewrite set_links_id. wp_steps. exists (length l2). split; [cbn; lia|]. exists (l1 ++ [t]), l2.
    rewrite <- app_assoc, foldl_app, Eb. done.
Qed.

(** * Weights *)

Definition weight_of (nice : Z) : Z := default 0 (prio_to_weight !! Z.to_nat (nice + 20)).
Definition nice_ok (nice : Z) : Prop := NICE_MIN <= nice <= NICE_MAX.

Lemma weight_range nice : nice_ok nice ->
  weight (nice + 20) = Ok (weight_of nice) /\ 15 <= weight_of nice <= 88761.
Proof.
  unfold nice_ok, NICE_MIN, NICE_MAX. intros H. unfold weight, weight_of. rewrite leb_true by lia.
  assert (Hi : (Z.to_nat (nice + 20) < 40)%nat) by lia. remember (Z.to_nat (nice + 20)) as i eqn:Ei. clear Ei H nice.
  do 40 (destruct i as [|i]; [cbn; split; [done|lia]|]). lia.
Qed.

(** A nice value below zero indexes the table from before its start when
    the bonus is missing. *)
Lemma weight_low i : i < 0 -> weight i = Err Fault.
Proof. intros H. unfold weight. by rewrite leb_false. Qed.

Definition thread_weight s t : Z := default 0 ((fun x => weight_of (t_nice x)) <$> ks_threads s !! t).
Definition sum_weights s (l : list nat) : Z := foldr (fun t a => thread_weight s t + a) 0 l.

Lemma sum_weights_app s l1 l2 : sum_weights s (l1 ++ l2) = sum_weights s l1 + sum_weights s l2.
Proof. induction l1 as [|t l1 IH]; [done|]. cbn [app sum_weights foldr]. unfold sum_weights in *. lia. Qed.

(** The threads of a list exist and have nice values in range. *)
Definition known s (l : list nat) : Prop :=
  forall t, t ∈ l -> exists x, ks_threads s !! t = Some x /\ nice_ok (t_nice x).

Lemma known_weight s l t : known s l -> t ∈ l -> 15 <= thread_weight s t <= 88761.
Proof.
  intros Hk Ht. destruct (Hk t Ht) as (x & Hx & Hn). unfold thread_weight. rewrite Hx. cbn.
  by apply weight_range.
Qed.

Lemma sum_weights_bounds s l : known s l ->
  15 * Z.of_nat (length l) <= sum_weights s l <= 88761 * Z.of_nat (length l).
Proof.
  induction l as [|t l IH]; intros Hk; cbn [sum_weights foldr length]; [lia|].
  pose proof (known_weight s _ t Hk ltac:(set_solver)). specialize (IH ltac:(intros u Hu; apply Hk; set_solver)).
  unfold sum_weights in IH. lia.
Qed.

Lemma add_weights_spec L l s total (Q : Z -> ks -> Prop) :
  KListSpec.rep (ks_links s) L l -> known s l -> Z.of_nat (length l) < 2 ^ 32 -> 0 <= total <= 2 ^ 32 ->
  Q (total + sum_weights s l) s -> wp (add_weights L total) Q s.
Proof.
  intros Hr Hk Hlen Htot HQ. unfold add_weights.
  eapply (for_each_spec (fun _ => True) L l _ (fun t y => s64 (y + thread_weight s t))); [done..| |].
  - intros t y Ht _. split; [done|]. intros P HP. destruct (Hk t Ht) as (x & Hx & Hn). apply wp_bind. eapply wp_get_thread; [done|].
    apply wp_bind, wp_lift. destruct (weight_range _ Hn) as [-> _]. cbn. wp_steps. revert HP.
    unfold thread_weight. by rewrite Hx.
  - assert (E : forall l2 tot, known s l2 -> 0 <= tot -> tot + 88761 * Z.of_nat (length l2) < 2 ^ 63 ->
      foldl (fun y t => s64 (y + thread_weight s t)) tot l2 = tot + sum_weights s l2).
    { clear. induction l2 as [|t l2 IH]; intros tot Hk H0 H1; cbn [foldl sum_weights foldr]; [lia|].
      pose proof (known_weight s _ t Hk ltac:(set_solver)). cbn [length] in H1. rewrite s64_small by lia.
      rewrite IH; [unfold sum_weights; lia|intros u Hu; apply Hk; set_solver|lia..]. }
    rewrite E; [done|done|lia|lia].
Qed.

(** * Choosing the next thread *)

(** The order in which threads are picked: virtual run time, then thread
    identifier. *)
Definition le_thread (a b : thread) : Prop :=
  t_vruntime a < t_vruntime b \/ t_vruntime a = t_vruntime b /\ t_tid a <= t_tid b.

Lemma before_le a b : before a b = false <-> le_thread b a.
Proof.
  unfold before, le_thread. rewrite orb_false_iff, andb_false_iff, Z.ltb_ge, Z.eqb_neq, Z.ltb_ge. lia.
Qed.

Lemma before_true a b : before a b = true -> le_thread a b.
Proof.
  unfold before, le_thread. rewrite orb_true_iff, andb_true_iff, Z.ltb_lt, Z.eqb_eq, Z.ltb_lt. lia.
Qed.

#[global] Instance le_thread_preorder : PreOrder le_thread.
Proof. split; [intros a; unfold le_thread; lia|intros a b c; unfold le_thread; lia]. Qed.

(** [t] is a first thread of the list [l]. *)
Definition least s (l : list nat) (t : nat) : Prop :=
  t ∈ l /\ forall u x y, u ∈ l -> ks_threads s !! t = Some x -> ks_threads s !! u = Some y -> le_thread x y.

Lemma find_thread_spec c r l s (Q : nat -> ks -> Prop) :
  ks_rqs s !! c = Some r -> KListSpec.rep (ks_links s) (rq_ready_list r) l -> known s l ->
  Z.of_nat (length l) < 2 ^ 32 -> l <> [] -> (forall t, least s l t -> Q t s) -> wp (find_thread c) Q s.
Proof.
  intros Hc Hr Hk Hlen Hne HQ. destruct l as [|a l]; [done|]. unfold find_thread. apply wp_bind.
  eapply wp_get_rq; [done|]. apply wp_bind, wp_linked. unfold KList.list_front. apply wp_bind.
  eapply KListOps.wp_list_empty; [done|]. wp_steps; [done|].
  eapply KListSpec.wp_next; [apply (KListSpec.chain_next _ [] _ _ Hr)|]. rewrite set_links_id. cbn [app head default id].
  pose (g := fun t y => match ks_threads s !! t, ks_threads s !! y with
                        | Some x, Some f => if before x f then t else y
                        | _, _ => y
                        end).
  assert (Hfold : forall l2 b, known s (b :: l2) -> least s (b :: l2) (foldl (fun y t => g t y) b l2)).
  { clear. induction l2 as [|t l2 IH]; intros b Hk.
    - cbn. split; [set_solver|]. intros u x y Hu Hx Hy. assert (u = b) as -> by set_solver. simplify_eq. done.
    - destruct (Hk t ltac:(set_solver)) as (xt & Hxt & Hnt). destruct (Hk b ltac:(set_solver)) as (xb & Hxb & Hnb).
      cbn [foldl]. assert (Hg : g t b = if before xt xb then t else b) by (unfold g; by rewrite Hxt, Hxb).
      assert (Hk2 : known s (g t b :: l2)).
      { intros u Hu. rewrite Hg in Hu. apply Hk. destruct (before xt xb); set_solver. }
      destruct (IH _ Hk2) as [Hin Hle]. split.
      { rewrite Hg in *. clear - Hin. destruct (before xt xb); set_solver. }
      intros u x y Hu Hx Hy.
      assert (Hgb : exists z, ks_threads s !! g t b = Some z /\ le_thread z xt /\ le_thread z xb).
      { rewrite Hg. destruct (before xt xb) eqn:E.
        - exists xt. split_and!; [done|done|by apply before_true].
        - exists xb. split_and!; [done|by apply before_le|done]. }
      destruct Hgb as (z & Hz & Hzt & Hzb). pose proof (Hle (g t b) x z ltac:(set_solver) Hx Hz) as Hxz.
      apply elem_of_cons in Hu as [->|Hu]; [simplify_eq; by transitivity z|].
      apply elem_of_cons in Hu as [->|Hu]; [simplify_eq; by transitivity z|].
      apply (Hle u); [set_solver|done..]. }
  destruct (Hfold l a Hk) as [Hin Hle].
  eapply (for_each_spec (fun y => y ∈ a :: l) _ (a :: l) _ g); [done|done|set_solver| |].
  - intros t y Ht Hy. destruct (Hk t Ht) as (xt & Hxt & _). destruct (Hk y Hy) as (xy & Hxy & _).
    unfold g. rewrite Hxt, Hxy. split; [by destruct (before xt xy)|]. intros P HP.
    apply wp_bind. eapply wp_get_thread; [done|]. apply wp_bind. eapply wp_get_thread; [done|]. by wp_steps.
  - apply HQ. cbn [foldl]. replace (g a a) with a; [exact (conj Hin Hle)|]. unfold g. destruct (ks_threads s !! a) as [x|]; [|done].
    by destruct (before x x).
Qed.

(** The state after a thread has been picked: it is off the list, its clock
    runs from now. *)
Definition picked c r t s m : ks :=
  let x := default (mkThread 0 THREAD_DYING 0 None 0 0 0) (ks_threads s !! t) in
  set_rqs (<[c := rq_set_nr (u32 (rq_nr_ready r - 1)) r]> (ks_rqs s))
    (set_threads (<[t := t_set_start (s64 (ks_time s)) x]> (ks_threads s)) (set_links m s)).

Lemma sched_pick_next_spec c r l s (Q : option nat -> ks -> Prop) :
  ks_rqs s !! c = Some r -> KListSpec.rep (ks_links s) (rq_ready_list r) l -> known s l ->
  Z.of_nat (length l) < 2 ^ 32 ->
  (l = [] -> Q None s) ->
  (forall t l1 l2 m, l = l1 ++ t :: l2 -> least s l t ->
     KListSpec.rep m (rq_ready_list r) (l1 ++ l2) ->
     KListSpec.touched (ks_links s) m (KListSpec.full (rq_ready_list r) (l1 ++ l2)) ->
     Q (Some t) (picked c r t s m)) ->
  wp (sched_pick_next c) Q s.
Proof.
  intros Hc Hr Hk Hlen HQ0 HQ. unfold sched_pick_next. apply wp_bind. eapply wp_get_rq; [done|].
  apply wp_bind, wp_linked. eapply KListOps.wp_list_empty; [done|]. rewrite set_links_id.
  case_bool_decide as El; [wp_steps; auto|]. apply wp_bind. eapply find_thread_spec; [done..|].
  intros t Hl. destruct Hl as [Hin Hle]. pose proof Hin as (l1 & l2 & ->)%list_elem_of_split.
  destruct (Hk t Hin) as (x & Hx & _). apply wp_bind, wp_linked.
  eapply KListOps.list_remove_spec; [done|]. intros m Hr' Ht. unfold timer_gettime. wp_steps.
  eapply wp_upd_thread; [exact Hx|]. apply wp_bind. eapply wp_upd_rq; [exact Hc|]. wp_steps.
  specialize (HQ t l1 l2 m eq_refl (conj Hin Hle) Hr' Ht). revert HQ. unfold picked. by rewrite Hx.
Qed.

End SchedSpec.
