(* ===== verification/SchedInv.v ===== *)
(** The invariant of the scheduler: which threads are on which ready list
    and which CPU runs what, and that every operation keeps it. *)
From S2P Require Import Prelude KList KListSpec KListSort KListOps Sched SchedSpec.
From stdpp Require Import options.

#[local] Open Scope Z_scope.

Module SchedInv.
Import Sched SchedSpec.

(** * Changes of times only *)

(** What the invariant sees of a thread and of a ready queue. *)
Definition core (x : thread) : thread_status * Z * option nat := (t_status x, t_nice x, t_cpu x).
Definition rcore (r : ready_queue) : option nat * option nat * KList.llist * Z :=
  (rq_curr r, rq_idle_thread r, rq_ready_list r, rq_nr_ready r).

(** Two states that differ in clocks, virtual run times and requests to
    yield only. *)
Record same_core (s s' : ks) : Prop := {
  sc_threads : forall t, core <$> ks_threads s' !! t = core <$> ks_threads s !! t;
  sc_rqs : forall c, rcore <$> ks_rqs s' !! c = rcore <$> ks_rqs s !! c;
  sc_links : ks_links s' = ks_links s;
  sc_running : ks_running s' = ks_running s;
}.

#[global] Instance same_core_equiv : Equivalence same_core.
Proof.
  split.
  - by split.
  - intros s s' [H1 H2 H3 H4]. split; auto.
  - intros s1 s2 s3 [H1 H2 H3 H4] [K1 K2 K3 K4]. split; intros; congruence.
Qed.

Lemma core_thread s s' t x : same_core s s' -> ks_threads s !! t = Some x ->
  exists x', ks_threads s' !! t = Some x' /\ core x' = core x.
Proof.
  intros Hs Hx. pose proof (sc_threads _ _ Hs t) as H. rewrite Hx in H. cbn in H.
  destruct (ks_threads s' !! t) as [x'|]; [|done]. exists x'. split; [done|]. cbn in H. congruence.
Qed.

Lemma core_rq s s' c r : same_core s s' -> ks_rqs s !! c = Some r ->
  exists r', ks_rqs s' !! c = Some r' /\ rcore r' = rcore r.
Proof.
  intros Hs Hx. pose proof (sc_rqs _ _ Hs c) as H. rewrite Hx in H. cbn in H.
  destruct (ks_rqs s' !! c) as [x'|]; [|done]. exists x'. split; [done|]. cbn in H. congruence.
Qed.

Lemma same_core_thread s t x f : ks_threads s !! t = Some x -> core (f x) = core x ->
  same_core s (set_threads (<[t := f x]> (ks_threads s)) s).
Proof.
  intros Hx Hf. split; [|done..]. intros u. cbn. destruct (decide (u = t)) as [->|].
  - rewrite lookup_insert_eq, Hx. cbn. by rewrite Hf.
  - by rewrite lookup_insert_ne.
Qed.

Lemma same_core_rq s c r f : ks_rqs s !! c = Some r -> rcore (f r) = rcore r ->
  same_core s (set_rqs (<[c := f r]> (ks_rqs s)) s).
Proof.
  intros Hr Hf. split; [done| |done..]. intros d. cbn. destruct (decide (d = c)) as [->|].
  - rewrite list_lookup_insert_eq by by eapply lookup_lt_Some. rewrite Hr. cbn. by rewrite Hf.
  - by rewrite list_lookup_insert_ne.
Qed.

(** A thread that [same_core] keeps. *)
Lemma known_core s s' l : same_core s s' -> known s l -> known s' l.
Proof.
  intros Hs Hk t Ht. destruct (Hk t Ht) as (x & Hx & Hn). destruct (core_thread _ _ _ _ Hs Hx) as (x' & Hx' & E).
  exists x'. split; [done|]. injection E as _ -> _. done.
Qed.

(** A routine that changes times only. *)
Definition timely {A} (m : SK A) (s : ks) : Prop := wp m (fun _ s' => same_core s s') s.

Lemma timely_bind {A B} (m : SK A) (k : A -> SK B) s :
  timely m s -> (forall a s', same_core s s' -> timely (k a) s') -> timely (bind m k) s.
Proof.
  intros Hm Hk. unfold timely. apply wp_bind. eapply wp_mono; [exact Hm|]. intros a s' Hs.
  eapply wp_mono; [by apply Hk|]. intros b s'' Hs'. etransitivity; [exact Hs|exact Hs'].
Qed.

Lemma timely_gets {A} (f : ks -> A) s : timely (gets f) s.
Proof. by apply wp_gets. Qed.

Lemma timely_ret {A} (a : A) s : timely (ret a) s.
Proof. by apply wp_ret. Qed.

Lemma timely_thread t s : is_Some (ks_threads s !! t) -> timely (get_thread t) s.
Proof. intros [x Hx]. by eapply wp_get_thread. Qed.

Lemma timely_rq c s : is_Some (ks_rqs s !! c) -> timely (get_rq c) s.
Proof. intros [r Hr]. by eapply wp_get_rq. Qed.

Lemma timely_upd_thread t f s : is_Some (ks_threads s !! t) -> (forall x, core (f x) = core x) ->
  timely (upd_thread t f) s.
Proof. intros [x Hx] Hf. eapply wp_upd_thread; [done|]. by apply same_core_thread. Qed.

Lemma timely_upd_rq c f s : is_Some (ks_rqs s !! c) -> (forall r, rcore (f r) = rcore r) -> timely (upd_rq c f) s.
Proof. intros [r Hr] Hf. eapply wp_upd_rq; [done|]. by apply same_core_rq. Qed.

Lemma core_is_thread s s' t : same_core s s' -> is_Some (ks_threads s !! t) -> is_Some (ks_threads s' !! t).
Proof. intros Hs [x Hx]. destruct (core_thread _ _ _ _ Hs Hx) as (x' & Hx' & _). by exists x'. Qed.

Lemma core_is_rq s s' c : same_core s s' -> is_Some (ks_rqs s !! c) -> is_Some (ks_rqs s' !! c).
Proof. intros Hs [x Hx]. destruct (core_rq _ _ _ _ Hs Hx) as (x' & Hx' & _). by exists x'. Qed.

Lemma timely_update_vruntime t x s : ks_threads s !! t = Some x -> nice_ok (t_nice x) ->
  timely (update_vruntime t 20) s.
Proof.
  intros Hx Hn. unfold timely, update_vruntime, calc_vruntime. do 2 apply wp_bind. eapply wp_get_thread; [done|].
  apply wp_bind, wp_lift. cbn. apply wp_bind, wp_lift. destruct (weight_range _ Hn) as [-> _]. cbn. wp_steps.
  eapply wp_upd_thread; [done|]. by apply same_core_thread.
Qed.

(** Without the bonus the table is indexed by the nice value itself. *)
Lemma timely_update_low t x s : ks_threads s !! t = Some x -> 0 <= t_nice x <= NICE_MAX ->
  timely (update_vruntime t 0) s.
Proof.
  unfold NICE_MAX. intros Hx Hn. unfold timely, update_vruntime, calc_vruntime. do 2 apply wp_bind.
  eapply wp_get_thread; [done|]. apply wp_bind, wp_lift. cbn [weight access wpr]. apply wp_bind, wp_lift.
  assert (exists w, weight (t_nice x + 0) = Ok w) as [w ->].
  { unfold weight. rewrite leb_true by lia. destruct (lookup_lt_is_Some_2 prio_to_weight (Z.to_nat (t_nice x + 0))) as [w ->].
    - cbn. lia.
    - by exists w. }
  cbn. wp_steps. eapply wp_upd_thread; [done|]. by apply same_core_thread.
Qed.

Lemma timely_set_min c r l s : ks_rqs s !! c = Some r ->
  KListSpec.rep (ks_links s) (rq_ready_list r) l -> known s l -> Z.of_nat (length l) < 2 ^ 32 ->
  (forall t, rq_curr r = Some t -> is_Some (ks_threads s !! t)) -> timely (set_min_vruntime c) s.
Proof.
  intros Hr Hrep Hk Hlen Hcur. unfold timely, set_min_vruntime. apply wp_bind. eapply wp_get_rq; [done|].
  apply wp_bind. apply (wp_mono _ (fun _ s' => s' = s)).
  { destruct (rq_curr r) as [t|]; [|by wp_steps]. destruct (Hcur t eq_refl) as [x Hx]. apply wp_bind.
    eapply wp_get_thread; [done|]. by wp_steps. }
  intros v s' ->. apply wp_bind.
  eapply (for_each_spec (fun _ => True) _ l _
    (fun t m => min (default 0 (t_vruntime <$> ks_threads s !! t)) m)); [done..| |].
  - intros t y Ht _. split; [done|]. intros P HP. destruct (Hk t Ht) as (x & Hx & _). apply wp_bind.
    eapply wp_get_thread; [done|]. wp_steps. by rewrite Hx in HP.
  - eapply wp_upd_rq; [done|]. by apply same_core_rq.
Qed.

(** * The invariant *)

Definition is_idle (s : ks) (t : nat) : Prop := exists c r, ks_rqs s !! c = Some r /\ rq_idle_thread r = Some t.

Definition headers (r : ready_queue) : list nat := [KList.l_head (rq_ready_list r); KList.l_tail (rq_ready_list r)].

(** The ready lists are [ls]. The CPU [off], if any, is between two threads;
    the thread [lost], if any, is marked as ready but in no list. *)
Record inv (off lost : option nat) (s : ks) (ls : list (list nat)) : Prop := {
  iv_len : length (ks_running s) = length (ks_rqs s);
  iv_lists : length ls = length (ks_rqs s);
  iv_rq : forall c r l, ks_rqs s !! c = Some r -> ls !! c = Some l ->
    KListSpec.rep (ks_links s) (rq_ready_list r) l /\ rq_nr_ready r = Z.of_nat (length l);
  iv_apart : forall c d r r' e, c <> d -> ks_rqs s !! c = Some r -> ks_rqs s !! d = Some r' ->
    e ∈ headers r -> e ∉ headers r';
  iv_header : forall c r e, ks_rqs s !! c = Some r -> e ∈ headers r -> ks_threads s !! e = None;
  iv_queued : forall c l t, ls !! c = Some l -> t ∈ l -> exists x, ks_threads s !! t = Some x /\
    t_status x = THREAD_READY /\ t_cpu x = Some c /\ ~ is_idle s t /\ lost <> Some t;
  iv_ready : forall t x, ks_threads s !! t = Some x -> t_status x = THREAD_READY -> ~ is_idle s t ->
    lost <> Some t -> exists c l, t_cpu x = Some c /\ ls !! c = Some l /\ t ∈ l;
  iv_runs : forall c t, ks_running s !! c = Some t -> exists x, ks_threads s !! t = Some x /\
    t_cpu x = Some c /\ (t_status x = THREAD_RUNNING <-> off <> Some c);
  iv_only : forall t x, ks_threads s !! t = Some x -> t_status x = THREAD_RUNNING ->
    exists c, ks_running s !! c = Some t;
  iv_curr : forall c r t, ks_rqs s !! c = Some r -> ks_running s !! c = Some t ->
    rq_curr r = if decide (rq_idle_thread r = Some t) then None else Some t;
  iv_idle : forall c r, ks_rqs s !! c = Some r -> exists i x, rq_idle_thread r = Some i /\
    ks_threads s !! i = Some x /\ t_cpu x = Some c;
  iv_thread : forall t x, ks_threads s !! t = Some x -> 0 < Z.of_nat t < 2 ^ 32 /\ nice_ok (t_nice x) /\
    is_Some (ks_links s !! t) /\ forall c, t_cpu x = Some c -> (c < length (ks_rqs s))%nat;
}.

Section invariant.
Implicit Types (s : ks) (ls : list (list nat)) (off lost : option nat) (c t : nat).

Lemma core_thread_back s s' t x : same_core s s' -> ks_threads s' !! t = Some x ->
  exists y, ks_threads s !! t = Some y /\ t_status x = t_status y /\ t_nice x = t_nice y /\ t_cpu x = t_cpu y.
Proof.
  intros Hs Hx. destruct (core_thread _ _ t x (symmetry Hs) Hx) as (y & Hy & E). injection E as E1 E2 E3.
  by exists y.
Qed.

Lemma core_rq_back s s' c r : same_core s s' -> ks_rqs s' !! c = Some r ->
  exists q, ks_rqs s !! c = Some q /\ rq_curr r = rq_curr q /\ rq_idle_thread r = rq_idle_thread q /\
    rq_ready_list r = rq_ready_list q /\ rq_nr_ready r = rq_nr_ready q.
Proof.
  intros Hs Hx. destruct (core_rq _ _ c r (symmetry Hs) Hx) as (y & Hy & E). injection E as E1 E2 E3 E4.
  by exists y.
Qed.

Lemma core_idle s s' t : same_core s s' -> is_idle s' t -> is_idle s t.
Proof.
  intros Hs (c & r & Hr & Hi). destruct (core_rq_back _ _ _ _ Hs Hr) as (q & Hq & _ & E & _).
  exists c, q. split; [done|congruence].
Qed.

Lemma core_length s s' : same_core s s' -> length (ks_rqs s') = length (ks_rqs s).
Proof.
  intros Hs. assert (E : rcore <$> ks_rqs s' = rcore <$> ks_rqs s).
  { apply list_eq. intros i. rewrite !list_lookup_fmap. apply (sc_rqs _ _ Hs). }
  apply (f_equal length) in E. by rewrite !length_fmap in E.
Qed.

(** The invariant does not look at times. *)
Lemma inv_core off lost s s' ls : same_core s s' -> inv off lost s ls -> inv off lost s' ls.
Proof.
  intros Hs [H1 H2 H3 H4 H5 H6 H7 H8 H9 H10 H11 H12]. pose proof (core_length _ _ Hs) as El.
  pose proof (sc_links _ _ Hs) as Ek. pose proof (sc_running _ _ Hs) as Er.
  split; rewrite ?El, ?Ek, ?Er; [done|done|..].
  - intros c r l Hr Hl. destruct (core_rq_back _ _ _ _ Hs Hr) as (q & Hq & _ & _ & -> & ->). by apply (H3 c).
  - intros c d r r' e Hne Hr Hr'. destruct (core_rq_back _ _ _ _ Hs Hr) as (q & Hq & _ & _ & E & _).
    destruct (core_rq_back _ _ _ _ Hs Hr') as (q' & Hq' & _ & _ & E' & _). unfold headers. rewrite E, E'.
    by apply (H4 c d).
  - intros c r e Hr. destruct (core_rq_back _ _ _ _ Hs Hr) as (q & Hq & _ & _ & E & _). unfold headers.
    rewrite E. intros He. pose proof (H5 c q e Hq He) as Hn. pose proof (sc_threads _ _ Hs e) as Ht.
    rewrite Hn in Ht. by destruct (ks_threads s' !! e).
  - intros c l t Hl Ht. destruct (H6 c l t Hl Ht) as (x & Hx & Hst & Hc & Hi & Hlo).
    destruct (core_thread _ _ _ _ Hs Hx) as (x' & Hx' & E). injection E as E1 E2 E3. exists x'.
    split_and!; [done|congruence|congruence| |done]. intros Hi'. by apply Hi, (core_idle s s').
  - intros t x Hx Hst Hi Hlo. destruct (core_thread_back _ _ _ _ Hs Hx) as (y & Hy & E1 & E2 & E3).
    rewrite E3. apply (H7 t y Hy); [congruence| |done]. intros Hi'. apply Hi. by apply (core_idle s' s).
  - intros c t Ht. destruct (H8 c t Ht) as (x & Hx & Hc & Hst).
    destruct (core_thread _ _ _ _ Hs Hx) as (x' & Hx' & E). injection E as E1 E2 E3. exists x'.
    by rewrite E1, E3.
  - intros t x Hx Hst. destruct (core_thread_back _ _ _ _ Hs Hx) as (y & Hy & E1 & E2 & E3).
    apply (H9 t y Hy). congruence.
  - intros c r t Hr Ht. destruct (core_rq_back _ _ _ _ Hs Hr) as (q & Hq & -> & -> & _). by apply (H10 c).
  - intros c r Hr. destruct (core_rq_back _ _ _ _ Hs Hr) as (q & Hq & _ & -> & _).
    destruct (H11 c q Hq) as (i & x & Hi & Hx & Hc). destruct (core_thread _ _ _ _ Hs Hx) as (x' & Hx' & E).
    injection E as E1 E2 E3. exists i, x'. split_and!; [done|done|congruence].
  - intros t x Hx. destruct (core_thread_back _ _ _ _ Hs Hx) as (y & Hy & E1 & E2 & E3). rewrite E2, E3.
    by apply H12.
Qed.

#[global] Instance inv_proper off lost : Proper (same_core ==> eq ==> iff) (inv off lost).
Proof. intros s s' Hs ls _ <-. split; apply inv_core; [done|by symmetry]. Qed.

Lemma inv_known off lost s ls c l : inv off lost s ls -> ls !! c = Some l -> known s l.
Proof.
  intros Hi Hl t Ht. destruct (iv_queued _ _ _ _ Hi c l t Hl Ht) as (x & Hx & _). exists x.
  split; [done|]. by apply (iv_thread _ _ _ _ Hi t x).
Qed.

Lemma length_pointers (l : list nat) : NoDup l -> (forall t, t ∈ l -> 0 < Z.of_nat t < 2 ^ 32) ->
  Z.of_nat (length l) < 2 ^ 32.
Proof.
  intros Hnd Hr. remember (Z.to_nat (2 ^ 32 - 1)) as n eqn:En.
  assert (Hle : (length l <= length (seq 1 n))%nat).
  { apply submseteq_length, NoDup_submseteq; [done|]. intros t Ht. apply elem_of_seq. specialize (Hr t Ht). lia. }
  rewrite length_seq in Hle. lia.
Qed.

Lemma inv_short off lost s ls c l : inv off lost s ls -> ls !! c = Some l -> Z.of_nat (length l) < 2 ^ 32.
Proof.
  intros Hi Hl. apply length_pointers.
  - pose proof (lookup_lt_Some _ _ _ Hl) as Hc. rewrite (iv_lists _ _ _ _ Hi) in Hc.
    apply lookup_lt_is_Some in Hc as [r Hr]. destruct (iv_rq _ _ _ _ Hi c r l Hr Hl) as [Hrep _].
    pose proof (KListSpec.ch_nodup _ _ Hrep) as Hnd. unfold KListSpec.full in Hnd.
    apply NoDup_cons in Hnd as [_ Hnd]. by apply NoDup_app in Hnd as [Hnd _].
  - intros t Ht. destruct (iv_queued _ _ _ _ Hi c l t Hl Ht) as (x & Hx & _). by apply (iv_thread _ _ _ _ Hi t x).
Qed.

Lemma inv_list off lost s ls c r : inv off lost s ls -> ks_rqs s !! c = Some r -> exists l, ls !! c = Some l.
Proof.
  intros Hi Hr. apply lookup_lt_is_Some. rewrite (iv_lists _ _ _ _ Hi). by eapply lookup_lt_Some.
Qed.
End invariant.

End SchedInv.
