(* ===== verification/SchedSteps.v ===== *)
(** The moves of a thread - between states, onto and off a ready list, onto
    and off a CPU - and that each keeps the invariant of the scheduler. *)
From S2P Require Import Prelude KList KListSpec KListSort KListOps Sched SchedSpec SchedInv.
From stdpp Require Import options.

#[local] Open Scope Z_scope.

Module SchedSteps.
Import Sched SchedSpec SchedInv.

Section steps.
Implicit Types (s : ks) (ls : list (list nat)) (off lost : option nat) (c t : nat).

Lemma full_headers r l e : e ∈ KListSpec.full (rq_ready_list r) l <-> e ∈ headers r \/ e ∈ l.
Proof. unfold KListSpec.full, headers. set_solver. Qed.

(** Elements of different ready lists are different. *)
Lemma inv_disjoint off lost s ls c d r r' l l' e : inv off lost s ls -> c <> d ->
  ks_rqs s !! c = Some r -> ks_rqs s !! d = Some r' -> ls !! c = Some l -> ls !! d = Some l' ->
  e ∈ KListSpec.full (rq_ready_list r) l -> e ∉ KListSpec.full (rq_ready_list r') l'.
Proof.
  intros Hi Hne Hr Hr' Hl Hl' [He|He]%full_headers [He'|He']%full_headers.
  - by apply (iv_apart _ _ _ _ Hi c d r r' e).
  - destruct (iv_queued _ _ _ _ Hi d l' e Hl' He') as (x & Hx & _).
    by rewrite (iv_header _ _ _ _ Hi c r e) in Hx.
  - destruct (iv_queued _ _ _ _ Hi c l e Hl He) as (x & Hx & _).
    by rewrite (iv_header _ _ _ _ Hi d r' e) in Hx.
  - destruct (iv_queued _ _ _ _ Hi c l e Hl He) as (x & Hx & _ & Hc & _).
    destruct (iv_queued _ _ _ _ Hi d l' e Hl' He') as (x' & Hx' & _ & Hd & _). congruence.
Qed.

(** A thread that is in no ready list is not linked at all. *)
Lemma inv_unlinked off lost s ls c r l t x : inv off lost s ls -> ks_rqs s !! c = Some r -> ls !! c = Some l ->
  ks_threads s !! t = Some x -> t ∉ l -> t ∉ KListSpec.full (rq_ready_list r) l.
Proof.
  intros Hi Hr Hl Hx Ht [He|He]%full_headers; [|done]. by rewrite (iv_header _ _ _ _ Hi c r t) in Hx.
Qed.

Lemma inv_not_queued off lost s ls t x : inv off lost s ls -> ks_threads s !! t = Some x ->
  t_status x <> THREAD_READY \/ is_idle s t \/ lost = Some t -> forall c l, ls !! c = Some l -> t ∉ l.
Proof.
  intros Hi Hx Hor c l Hl Ht. destruct (iv_queued _ _ _ _ Hi c l t Hl Ht) as (x' & Hx' & Hst & _ & Hid & Hlo).
  simplify_eq. tauto.
Qed.

(** A thread outside the lists changes state. *)
Lemma inv_status off lost off' lost' s ls t x v :
  inv off lost s ls -> ks_threads s !! t = Some x -> (forall c l, ls !! c = Some l -> t ∉ l) ->
  (forall c, ks_running s !! c = Some t -> v = THREAD_RUNNING <-> off' <> Some c) ->
  (forall c u, u <> t -> ks_running s !! c = Some u -> off' = Some c <-> off = Some c) ->
  (v = THREAD_RUNNING -> exists c, ks_running s !! c = Some t) ->
  (v = THREAD_READY -> is_idle s t \/ lost' = Some t) ->
  (forall u, u <> t -> lost' = Some u <-> lost = Some u) ->
  inv off' lost' (set_threads (<[t := t_set_status v x]> (ks_threads s)) s) ls.
Proof.
  intros Hi Hx Hq Hr1 Hr2 Hv Hrd Hlo. pose proof Hi as [H1 H2 H3 H4 H5 H6 H7 H8 H9 H10 H11 H12].
  split; cbn [set_threads ks_running ks_rqs ks_threads ks_links]; [done..| | | | | |done| |].
  - intros c r e Hr He. pose proof (H5 c r e Hr He) as Hn. rewrite lookup_insert_ne; [done|congruence].
  - intros c l u Hl Hu. assert (Hne : u <> t) by (intros ->; by apply (Hq c l)).
    rewrite lookup_insert_ne by done. destruct (H6 c l u Hl Hu) as (y & Hy & Hs & Hc & Hid & Hl').
    exists y. split_and!; try done. by rewrite Hlo.
  - intros u y Hy Hst Hid Hl'. destruct (decide (u = t)) as [->|Hne].
    + rewrite lookup_insert_eq in Hy. simplify_eq. cbn in Hst. destruct (Hrd Hst); by exfalso; auto.
    + rewrite lookup_insert_ne in Hy by done. apply (H7 u y Hy Hst Hid). by rewrite <- Hlo.
  - intros c u Hu. destruct (H8 c u Hu) as (y & Hy & Hc & Hst). destruct (decide (u = t)) as [->|Hne].
    + exists (t_set_status v x). rewrite lookup_insert_eq. simplify_eq. split_and!; [done|done|by apply Hr1].
    + exists y. rewrite lookup_insert_ne by done. split_and!; [done|done|]. by rewrite (Hr2 c u).
  - intros u y Hy Hst. destruct (decide (u = t)) as [->|Hne].
    + rewrite lookup_insert_eq in Hy. simplify_eq. by apply Hv.
    + rewrite lookup_insert_ne in Hy by done. by apply (H9 u y).
  - intros c r Hr. destruct (H11 c r Hr) as (i & y & Hid & Hy & Hc). destruct (decide (i = t)) as [->|Hne].
    + exists t, (t_set_status v x). rewrite lookup_insert_eq. simplify_eq. done.
    + exists i, y. by rewrite lookup_insert_ne.
  - intros u y Hy. destruct (decide (u = t)) as [->|Hne].
    + rewrite lookup_insert_eq in Hy. simplify_eq. by apply (H12 t x).
    + rewrite lookup_insert_ne in Hy by done. by apply H12.
Qed.

(** The links and the length of one queue change. *)
Definition relinked c r n m s : ks := set_rqs (<[c := rq_set_nr n r]> (ks_rqs s)) (set_links m s).

Lemma relinked_rq s c r n m d r' : ks_rqs s !! c = Some r -> ks_rqs (relinked c r n m s) !! d = Some r' ->
  exists q, ks_rqs s !! d = Some q /\ rq_curr r' = rq_curr q /\ rq_idle_thread r' = rq_idle_thread q /\
    rq_ready_list r' = rq_ready_list q /\ rq_nr_ready r' = if decide (d = c) then n else rq_nr_ready q.
Proof.
  intros Hr. cbn. case_decide as E.
  - subst d. rewrite list_lookup_insert_eq by by eapply lookup_lt_Some. intros [= <-]. by exists r.
  - rewrite list_lookup_insert_ne by done. intros Hq. by exists r'.
Qed.

Lemma relinked_idle s c r n m t : ks_rqs s !! c = Some r -> is_idle (relinked c r n m s) t <-> is_idle s t.
Proof.
  intros Hr. split.
  - intros (d & q & Hq & Hid). destruct (relinked_rq _ _ _ _ _ _ _ Hr Hq) as (q' & Hq' & _ & E & _).
    exists d, q'. split; [done|congruence].
  - intros (d & q & Hq & Hid). destruct (decide (d = c)) as [->|Hne].
    + exists c, (rq_set_nr n r). cbn. rewrite list_lookup_insert_eq by by eapply lookup_lt_Some.
      split; [done|]. cbn. congruence.
    + exists d, q. cbn. by rewrite list_lookup_insert_ne.
Qed.

(** A ready list is replaced; the other lists and all threads stay. *)
Lemma inv_relink off lost lost' s ls c r l l' n m :
  inv off lost s ls -> ks_rqs s !! c = Some r -> ls !! c = Some l ->
  KListSpec.rep m (rq_ready_list r) l' -> n = Z.of_nat (length l') ->
  (forall e, e ∉ headers r -> (e ∈ l -> False) -> (e ∈ l' -> False) -> m !! e = ks_links s !! e) ->
  (forall e, is_Some (m !! e) <-> is_Some (ks_links s !! e)) ->
  (forall t, t ∈ l' -> exists x, ks_threads s !! t = Some x /\ t_status x = THREAD_READY /\
    t_cpu x = Some c /\ ~ is_idle s t /\ lost' <> Some t) ->
  (forall t x, ks_threads s !! t = Some x -> t_status x = THREAD_READY -> t_cpu x = Some c ->
     ~ is_idle s t -> lost' <> Some t -> t ∈ l') ->
  (forall t x, ks_threads s !! t = Some x -> t_status x = THREAD_READY -> t_cpu x <> Some c ->
     lost = Some t <-> lost' = Some t) ->
  inv off lost' (relinked c r n m s) (<[c := l']> ls).
Proof.
  intros Hi Hr Hl Hrep Hn Hm Hdom Hin Hrd Hlo. pose proof Hi as [H1 H2 H3 H4 H5 H6 H7 H8 H9 H10 H11 H12].
  assert (Hlc : (c < length ls)%nat) by by eapply lookup_lt_Some.
  split.
  - cbn. by rewrite length_insert.
  - cbn. by rewrite !length_insert.
  - intros d q l0 Hq Hl0. destruct (relinked_rq _ _ _ _ _ _ _ Hr Hq) as (q' & Hq' & _ & _ & -> & ->).
    destruct (decide (d = c)) as [->|Hne].
    + rewrite list_lookup_insert_eq in Hl0 by done. simplify_eq. done.
    + rewrite list_lookup_insert_ne in Hl0 by done. destruct (H3 d q' l0 Hq' Hl0) as [Hrep0 En].
      split; [|done]. cbn. unfold KListSpec.rep.
      eapply (KListSpec.chain_touched _ _ _ (headers r ++ l ++ l')); [exact Hrep0|split|].
      * intros e He. apply Hm; set_solver.
      * done.
      * intros e He Hf. apply elem_of_app in He as [He|He]; [|apply elem_of_app in He as [He|He]].
        -- apply (inv_disjoint off lost s ls c d r q' l l0 e); try done. apply full_headers. by left.
        -- apply (inv_disjoint off lost s ls c d r q' l l0 e); try done. apply full_headers. by right.
        -- destruct (Hin e He) as (x & Hx & _ & Hc & _). apply full_headers in Hf as [Hf|Hf].
           ++ by rewrite (H5 d q' e) in Hx.
           ++ destruct (H6 d l0 e Hl0 Hf) as (y & Hy & _ & Hd & _). congruence.
  - intros d d' q q' e Hne Hq Hq'. destruct (relinked_rq _ _ _ _ _ _ _ Hr Hq) as (q1 & Hq1 & _ & _ & E1 & _).
    destruct (relinked_rq _ _ _ _ _ _ _ Hr Hq') as (q2 & Hq2 & _ & _ & E2 & _). unfold headers.
    rewrite E1, E2. by apply (H4 d d').
  - intros d q e Hq. destruct (relinked_rq _ _ _ _ _ _ _ Hr Hq) as (q1 & Hq1 & _ & _ & E1 & _). unfold headers.
    rewrite E1. by apply (H5 d).
  - intros d l0 t Hl0 Ht. destruct (decide (d = c)) as [->|Hne].
    + rewrite list_lookup_insert_eq in Hl0 by done. simplify_eq. destruct (Hin t Ht) as (x & Hx & Hs & Hc & Hid & Hlt).
      exists x. split_and!; try done. by rewrite relinked_idle.
    + rewrite list_lookup_insert_ne in Hl0 by done. destruct (H6 d l0 t Hl0 Ht) as (x & Hx & Hs & Hc & Hid & Hlt).
      exists x. split_and!; try done; [by rewrite relinked_idle|]. rewrite <- (Hlo t x Hx Hs); [done|congruence].
  - intros t x Hx Hs. rewrite relinked_idle by done. intros Hid Hlt. destruct (decide (t_cpu x = Some c)) as [Ec|Hne].
    + exists c, l'. split_and!; [done|by rewrite list_lookup_insert_eq|by eapply Hrd].
    + destruct (H7 t x Hx Hs Hid) as (d & l0 & Hd & Hl0 & Ht0); [by rewrite (Hlo t x)|].
      exists d, l0. split_and!; try done. rewrite list_lookup_insert_ne; [done|congruence].
  - done.
  - done.
  - intros d q t Hq Ht. destruct (relinked_rq _ _ _ _ _ _ _ Hr Hq) as (q1 & Hq1 & -> & -> & _). by apply (H10 d).
  - intros d q Hq. destruct (relinked_rq _ _ _ _ _ _ _ Hr Hq) as (q1 & Hq1 & _ & -> & _). by apply (H11 d).
  - intros t x Hx. destruct (H12 t x Hx) as (Ht & Hn' & Hk & Hc). cbn. rewrite length_insert.
    split; [done|]. split; [done|]. split; [by apply Hdom|done].
Qed.

(** A thread joins its ready list. *)
Lemma inv_push off s ls c r l t x m :
  inv off (Some t) s ls -> ks_rqs s !! c = Some r -> ls !! c = Some l -> ks_threads s !! t = Some x ->
  t_status x = THREAD_READY -> t_cpu x = Some c -> ~ is_idle s t ->
  KListSpec.rep m (rq_ready_list r) (l ++ [t]) ->
  KListSpec.touched (ks_links s) m (t :: KListSpec.full (rq_ready_list r) l) ->
  inv off None (relinked c r (u32 (rq_nr_ready r + 1)) m s) (<[c := l ++ [t]]> ls).
Proof.
  intros Hi Hr Hl Hx Hst Hc Hid Hrep [Hto Hdom]. destruct (iv_rq _ _ _ _ Hi c r l Hr Hl) as [_ En].
  assert (Hin : forall u, u ∈ l ++ [t] -> exists y, ks_threads s !! u = Some y /\ t_status y = THREAD_READY /\
    t_cpu y = Some c /\ ~ is_idle s u).
  { intros u [Hu|Hu]%elem_of_app.
    - destruct (iv_queued _ _ _ _ Hi c l u Hl Hu) as (y & H). exists y. tauto.
    - apply list_elem_of_singleton in Hu as ->. by exists x. }
  assert (Hlen : Z.of_nat (length (l ++ [t])) < 2 ^ 32).
  { apply length_pointers.
    - pose proof (KListSpec.ch_nodup _ _ Hrep) as Hnd. unfold KListSpec.full in Hnd.
      apply NoDup_cons in Hnd as [_ Hnd]. by apply NoDup_app in Hnd as [Hnd _].
    - intros u Hu. destruct (Hin u Hu) as (y & Hy & _). by apply (iv_thread _ _ _ _ Hi u y). }
  eapply (inv_relink off (Some t) None s ls c r l (l ++ [t])); try done.
  - rewrite length_app in *. cbn in *. rewrite u32_small; lia.
  - intros e He Hel Hel'. apply Hto. intros [->|He']%elem_of_cons; [apply Hel'; set_solver|].
    apply full_headers in He' as [?|?]; auto.
  - intros u Hu. destruct (Hin u Hu) as (y & H). exists y. naive_solver.
  - intros u y Hy Hsy Hcy Hiy _. destruct (decide (u = t)) as [->|Hne]; [set_solver|].
    destruct (iv_ready _ _ _ _ Hi u y Hy Hsy Hiy) as (d & l0 & Hd & Hl0 & Hu0); [congruence|].
    assert (d = c) as -> by congruence. simplify_eq. set_solver.
  - intros u y Hy Hsy Hcy. split; [|done]. intros [= ->]. congruence.
Qed.

(** A thread leaves its ready list to run. *)
Lemma inv_pick off s ls c r l1 t l2 m :
  inv off None s ls -> ks_rqs s !! c = Some r -> ls !! c = Some (l1 ++ t :: l2) ->
  KListSpec.rep m (rq_ready_list r) (l1 ++ l2) ->
  KListSpec.touched (ks_links s) m (KListSpec.full (rq_ready_list r) (l1 ++ l2)) ->
  inv off (Some t) (picked c r t s m) (<[c := l1 ++ l2]> ls) /\
  exists x, ks_threads (picked c r t s m) !! t = Some x /\ t_status x = THREAD_READY /\ t_cpu x = Some c /\
    ~ is_idle s t.
Proof.
  intros Hi Hr Hl Hrep [Hto Hdom]. destruct (iv_rq _ _ _ _ Hi c r _ Hr Hl) as [Hrep0 En].
  pose proof (inv_short _ _ _ _ _ _ Hi Hl) as Hlen. rewrite length_app in Hlen, En. cbn [length] in Hlen, En.
  destruct (iv_queued _ _ _ _ Hi c _ t Hl ltac:(set_solver)) as (x & Hx & Hst & Hc & Hid & _).
  assert (Ht : t ∉ l1 ++ l2).
  { pose proof (KListSpec.ch_nodup _ _ Hrep0) as Hnd. unfold KListSpec.full in Hnd.
    apply NoDup_cons in Hnd as [_ Hnd]. apply NoDup_app in Hnd as [Hnd _].
    rewrite <- Permutation_middle in Hnd. by apply NoDup_cons in Hnd as [Ht _]. }
  set (s1 := relinked c r (u32 (rq_nr_ready r - 1)) m s).
  assert (Hi1 : inv off (Some t) s1 (<[c := l1 ++ l2]> ls)).
  { eapply (inv_relink off None (Some t) s ls c r (l1 ++ t :: l2) (l1 ++ l2)); try done.
    - rewrite length_app. rewrite u32_small; lia.
    - intros e He Hel Hel'. apply Hto. intros [?|?]%full_headers; auto.
    - intros u Hu. destruct (iv_queued _ _ _ _ Hi c _ u Hl) as (y & Hy & Hsy & Hcy & Hiy & _); [set_solver|].
      exists y. split_and!; try done. congruence.
    - intros u y Hy Hsy Hcy Hiy Hne. destruct (iv_ready _ _ _ _ Hi u y Hy Hsy Hiy) as (d & l0 & Hd & Hl0 & Hu0); [done|].
      assert (d = c) as -> by congruence. simplify_eq. set_solver.
    - intros u y Hy Hsy Hcy. split; [done|]. intros [= ->]. congruence. }
  assert (E : picked c r t s m = set_threads (<[t := t_set_start (s64 (ks_time s)) x]> (ks_threads s1)) s1).
  { unfold picked. by rewrite Hx. }
  split.
  - rewrite E. eapply inv_core; [|exact Hi1]. by apply (same_core_thread s1 t x (t_set_start (s64 (ks_time s)))).
  - exists (t_set_start (s64 (ks_time s)) x). rewrite E. cbn. by rewrite lookup_insert_eq.
Qed.

(** Another thread takes over the CPU [c] that has just given up its own. *)
Definition switched c r t s : ks :=
  set_running (<[c := t]> (ks_running s))
    (set_rqs (<[c := rq_set_curr (if bool_decide (Some t = rq_idle_thread r) then None else Some t) r]> (ks_rqs s)) s).

Lemma switched_rq s c r t d r' : ks_rqs s !! c = Some r -> ks_rqs (switched c r t s) !! d = Some r' ->
  exists q, ks_rqs s !! d = Some q /\ rq_idle_thread r' = rq_idle_thread q /\
    rq_ready_list r' = rq_ready_list q /\ rq_nr_ready r' = rq_nr_ready q /\
    rq_curr r' = if decide (d = c) then if decide (rq_idle_thread q = Some t) then None else Some t else rq_curr q.
Proof.
  intros Hr. cbn. case_decide as E.
  - subst d. rewrite list_lookup_insert_eq by by eapply lookup_lt_Some. intros [= <-]. exists r.
    split_and!; try done. cbn. case_bool_decide; case_decide; congruence.
  - rewrite list_lookup_insert_ne by done. intros Hq. by exists r'.
Qed.

Lemma switched_idle s c r t u : ks_rqs s !! c = Some r -> is_idle (switched c r t s) u <-> is_idle s u.
Proof.
  intros Hr. split.
  - intros (d & q & Hq & Hid). destruct (switched_rq _ _ _ _ _ _ Hr Hq) as (q' & Hq' & E & _).
    exists d, q'. split; [done|congruence].
  - intros (d & q & Hq & Hid). unfold is_idle. cbn. destruct (decide (d = c)) as [->|Hne].
    + eexists c, _. rewrite list_lookup_insert_eq by by eapply lookup_lt_Some. split; [done|]. cbn. congruence.
    + exists d, q. by rewrite list_lookup_insert_ne.
Qed.

Lemma inv_switch lost s ls c r t x :
  inv (Some c) lost s ls -> ks_rqs s !! c = Some r -> ks_threads s !! t = Some x ->
  t_status x <> THREAD_RUNNING -> t_cpu x = Some c -> inv (Some c) lost (switched c r t s) ls.
Proof.
  intros Hi Hr Hx Hst Hc. pose proof Hi as [H1 H2 H3 H4 H5 H6 H7 H8 H9 H10 H11 H12].
  assert (Hlt : (c < length (ks_running s))%nat) by (rewrite H1; by eapply lookup_lt_Some).
  split.
  - cbn. by rewrite !length_insert.
  - cbn. by rewrite !length_insert.
  - intros d q l Hq Hl. destruct (switched_rq _ _ _ _ _ _ Hr Hq) as (q' & Hq' & _ & -> & -> & _). by apply (H3 d).
  - intros d d' q q' e Hne Hq Hq'. destruct (switched_rq _ _ _ _ _ _ Hr Hq) as (q1 & Hq1 & _ & E1 & _).
    destruct (switched_rq _ _ _ _ _ _ Hr Hq') as (q2 & Hq2 & _ & E2 & _). unfold headers.
    rewrite E1, E2. by apply (H4 d d').
  - intros d q e Hq. destruct (switched_rq _ _ _ _ _ _ Hr Hq) as (q1 & Hq1 & _ & E1 & _). unfold headers.
    rewrite E1. by apply (H5 d).
  - intros d l u Hl Hu. destruct (H6 d l u Hl Hu) as (y & Hy). exists y. by rewrite switched_idle.
  - intros u y Hy Hs. rewrite switched_idle by done. by apply H7.
  - intros d u. cbn. destruct (decide (d = c)) as [->|Hne].
    + rewrite list_lookup_insert_eq by done. intros [= <-]. exists x. split_and!; [done..|]. naive_solver.
    + rewrite list_lookup_insert_ne by done. apply H8.
  - intros u y Hy Hs. destruct (H9 u y Hy Hs) as [d Hd]. exists d. cbn. rewrite list_lookup_insert_ne; [done|].
    intros <-. destruct (H8 c u Hd) as (y' & Hy' & _ & Hs'). naive_solver.
  - intros d q u Hq Hu. destruct (switched_rq _ _ _ _ _ _ Hr Hq) as (q1 & Hq1 & -> & _ & _ & ->). cbn in Hu.
    case_decide as E.
    + subst d. rewrite list_lookup_insert_eq in Hu by done. by simplify_eq.
    + rewrite list_lookup_insert_ne in Hu by done. by apply (H10 d).
  - intros d q Hq. destruct (switched_rq _ _ _ _ _ _ Hr Hq) as (q1 & Hq1 & -> & _). by apply (H11 d).
  - cbn. rewrite length_insert. done.
Qed.

Lemma rep_same m m' L l : KListSpec.rep m L l ->
  (forall e, e ∈ KListSpec.full L l -> m' !! e = m !! e) -> KListSpec.rep m' L l.
Proof.
  intros [K1 K2 K3 K4 K5] Hm. split; try done.
  - eapply KListSpec.linked_frame; [|exact K1]. intros a b ys zs E. unfold KListSpec.nxt, KListSpec.prv.
    rewrite !Hm by (rewrite E; set_solver). done.
  - intros a Ha. unfold KListSpec.prv. rewrite Hm by by apply head_Some_elem_of. by apply K2.
  - intros a Ha. unfold KListSpec.nxt. rewrite Hm by by apply last_Some_elem_of. by apply K3.
Qed.

(** The page of a dead thread is freed. *)
Definition freed t s : ks := set_links (delete t (ks_links s)) (set_threads (delete t (ks_threads s)) s).

Lemma inv_free s ls t x :
  inv None None s ls -> ks_threads s !! t = Some x -> t_status x = THREAD_DYING -> ~ is_idle s t ->
  inv None None (freed t s) ls.
Proof.
  intros Hi Hx Hst Hid. pose proof Hi as [H1 H2 H3 H4 H5 H6 H7 H8 H9 H10 H11 H12].
  assert (Hq : forall c l, ls !! c = Some l -> t ∉ l).
  { apply (inv_not_queued None None s ls t x); [done..|left; congruence]. }
  split; try done.
  - intros c r l Hr Hl. destruct (H3 c r l Hr Hl) as [Hrep En]. split; [|done].
    assert (Ht : t ∉ KListSpec.full (rq_ready_list r) l) by (eapply (inv_unlinked None None s ls c); eauto).
    eapply rep_same; [exact Hrep|]. intros e He. apply lookup_delete_ne. by intros ->.
  - intros c r e Hr He. cbn. rewrite lookup_delete_None. right. by apply (H5 c r).
  - intros c l u Hl Hu. destruct (H6 c l u Hl Hu) as (y & Hy & Hrest). exists y. split; [|done]. cbn.
    rewrite lookup_delete_ne; [done|]. intros <-. by apply (Hq c l).
  - intros u y. cbn. intros [_ Hy]%lookup_delete_Some. by apply H7.
  - intros c u Hu. destruct (H8 c u Hu) as (y & Hy & Hc & Hs). exists y. cbn.
    rewrite lookup_delete_ne; [done|]. intros <-. simplify_eq. destruct Hs as [_ Hs]. specialize (Hs ltac:(done)). congruence.
  - intros u y. cbn. intros [_ Hy]%lookup_delete_Some. by apply H9.
  - intros c r Hr. destruct (H11 c r Hr) as (i & y & Hidl & Hy & Hc). exists i, y. cbn.
    rewrite lookup_delete_ne; [done|]. intros ->. apply Hid. by exists c, r.
  - intros u y. cbn. intros [Hne Hy]%lookup_delete_Some. destruct (H12 u y Hy) as (A & B & C & D). split; [done|]. split; [done|].
    split; [|done]. cbn. by rewrite lookup_delete_ne.
Qed.

(** A fresh page becomes a blocked thread that belongs to no CPU. *)
Definition born t nice s : ks :=
  set_links (<[t := KList.mkElem KList.NULL KList.NULL]> (ks_links s))
    (set_threads (<[t := mkThread 0 THREAD_BLOCKED nice None 0 0 0]> (ks_threads s)) s).

(** A page that the scheduler does not use yet. *)
Definition fresh t s : Prop := ks_threads s !! t = None /\ 0 < Z.of_nat t < 2 ^ 32 /\
  forall c r, ks_rqs s !! c = Some r -> t ∉ headers r.

Lemma inv_born s ls t nice : inv None None s ls -> fresh t s -> nice_ok nice -> inv None None (born t nice s) ls.
Proof.
  intros Hi (Hx & Ht & Hh) Hn. pose proof Hi as [H1 H2 H3 H4 H5 H6 H7 H8 H9 H10 H11 H12].
  assert (Hne : forall u y, ks_threads s !! u = Some y -> t <> u) by congruence.
  assert (Hq : forall c r l, ks_rqs s !! c = Some r -> ls !! c = Some l -> t ∉ KListSpec.full (rq_ready_list r) l).
  { intros c r l Hr Hl [He|He]%full_headers; [by apply (Hh c r)|].
    destruct (H6 c l t Hl He) as (y & Hy & _). congruence. }
  split; try done.
  - intros c r l Hr Hl. destruct (H3 c r l Hr Hl) as [Hrep En]. split; [|done]. specialize (Hq c r l Hr Hl).
    eapply rep_same; [exact Hrep|]. intros e He. apply lookup_insert_ne. by intros ->.
  - intros c r e Hr He. cbn. rewrite lookup_insert_ne; [by apply (H5 c r)|]. intros ->. by apply (Hh c r).
  - intros c l u Hl Hu. destruct (H6 c l u Hl Hu) as (y & Hy & Hrest). exists y. split; [|done]. cbn.
    rewrite lookup_insert_ne; [done|by eapply Hne].
  - intros u y. cbn. intros [[<- <-]|[_ Hy]]%lookup_insert_Some; [done|by apply H7].
  - intros c u Hu. destruct (H8 c u Hu) as (y & Hy & Hrest). exists y. cbn.
    rewrite lookup_insert_ne; [done|by eapply Hne].
  - intros u y. cbn. intros [[<- <-]|[_ Hy]]%lookup_insert_Some; [done|by apply H9].
  - intros c r Hr. destruct (H11 c r Hr) as (i & y & Hidl & Hy & Hc). exists i, y. cbn.
    rewrite lookup_insert_ne; [done|by eapply Hne].
  - intros u y. cbn. intros [[<- <-]|[Hu Hy]]%lookup_insert_Some.
    + split; [done|]. split; [done|]. cbn. rewrite lookup_insert_eq. split; [by eexists|done].
    + destruct (H12 u y Hy) as (A & B & C & D). split; [done|]. split; [done|]. split; [|done]. cbn.
      by rewrite lookup_insert_ne.
Qed.

(** A thread that no CPU and no list holds is assigned to a CPU; a running
    thread changes its nice value. *)
Lemma inv_rehome off lost s ls t x y :
  inv off lost s ls -> ks_threads s !! t = Some x -> t_status y = t_status x -> nice_ok (t_nice y) ->
  (forall c, t_cpu y = Some c -> (c < length (ks_rqs s))%nat) ->
  (t_cpu y = t_cpu x \/ ~ is_idle s t /\ lost = Some t /\ forall c, ks_running s !! c <> Some t) ->
  inv off lost (set_threads (<[t := y]> (ks_threads s)) s) ls.
Proof.
  intros Hi Hx Hs Hn Hlt Hc. pose proof Hi as [H1 H2 H3 H4 H5 H6 H7 H8 H9 H10 H11 H12].
  split; try done.
  - intros c r e Hr He. cbn. rewrite lookup_insert_ne; [by apply (H5 c r)|]. intros ->.
    by rewrite (H5 c r e) in Hx.
  - intros c l u Hl Hu. destruct (H6 c l u Hl Hu) as (z & Hz & Hsz & Hcz & Hiz & Hlz). cbn.
    destruct (decide (u = t)) as [->|Hne]; [|exists z; by rewrite lookup_insert_ne].
    exists y. rewrite lookup_insert_eq. simplify_eq. split_and!; try done; [congruence|].
    destruct Hc as [->|(_ & ? & _)]; congruence.
  - intros u z. cbn. intros [[<- <-]|[Hne Hz]]%lookup_insert_Some; [|by apply H7]. intros Hsy Hiu Hlu.
    destruct Hc as [->|(_ & ? & _)]; [|congruence]. apply (H7 t x); [done|congruence|done..].
  - intros c u Hu. destruct (H8 c u Hu) as (z & Hz & Hcz & Hsz). cbn.
    destruct (decide (u = t)) as [->|Hne]; [|exists z; by rewrite lookup_insert_ne].
    exists y. rewrite lookup_insert_eq. simplify_eq. split_and!; try done; [|by rewrite Hs].
    destruct Hc as [->|(_ & _ & Hnr)]; [done|]. by destruct (Hnr c).
  - intros u z. cbn. intros [[<- <-]|[Hne Hz]]%lookup_insert_Some; [|by apply H9]. intros Hsy. apply (H9 t x); [done|congruence].
  - intros c r Hr. destruct (H11 c r Hr) as (i & z & Hidl & Hz & Hcz). cbn. destruct (decide (i = t)) as [->|Hne].
    + exists t, y. rewrite lookup_insert_eq. simplify_eq. split_and!; try done.
      destruct Hc as [->|(Hnid & _)]; [done|]. destruct Hnid. by exists c, r.
    + exists i, z. by rewrite lookup_insert_ne.
  - intros u z. cbn. intros [[<- <-]|[Hne Hz]]%lookup_insert_Some; [|by apply (H12 u z)].
    destruct (H12 t x Hx) as (A & B & C & D). split; [done|]. split; [done|]. split; [done|]. exact Hlt.
Qed.

End steps.
End SchedSteps.
