(* ===== verification/SchedOps.v ===== *)
(** Every operation of the threads keeps the invariant of the scheduler and
    returns: no assertion fails and no link is followed that is not there. *)
From S2P Require Import Prelude KList KListSpec KListSort KListOps Sched SchedSpec SchedInv SchedSteps.
From stdpp Require Import options.

#[local] Open Scope Z_scope.

Module SchedOps.
Import Sched SchedSpec SchedInv SchedSteps.

Definition keeps (s : ks) : Prop := exists ls, inv None None s ls.

Section ops.
Implicit Types (s : ks) (ls : list (list nat)) (off lost : option nat) (c t : nat).

Lemma wp_timely {A} (m : SK A) (Q : A -> ks -> Prop) s :
  timely m s -> (forall a s', same_core s s' -> Q a s') -> wp m Q s.
Proof. intros Hm HQ. eapply wp_mono; [exact Hm|]. intros a s' H. by apply HQ. Qed.

(** A thread is put at the end of its ready list. *)
Lemma wp_enqueue {A} off s ls c r t x (k : SK A) (Q : A -> ks -> Prop) :
  inv off (Some t) s ls -> ks_rqs s !! c = Some r -> ks_threads s !! t = Some x ->
  t_status x = THREAD_READY -> t_cpu x = Some c -> ~ is_idle s t ->
  (forall s' ls', inv off None s' ls' -> ks_threads s' = ks_threads s -> ks_running s' = ks_running s ->
     (forall u, is_idle s' u <-> is_idle s u) -> wp k Q s') ->
  wp (linked (KList.list_push_back (rq_ready_list r) t);;; upd_rq c (rq_set_nr (u32 (rq_nr_ready r + 1)));;; k) Q s.
Proof.
  intros Hi Hr Hx Hst Hc Hid HQ. destruct (inv_list _ _ _ _ _ _ Hi Hr) as [l Hl].
  destruct (iv_rq _ _ _ _ Hi c r l Hr Hl) as [Hrep En]. destruct (iv_thread _ _ _ _ Hi t x Hx) as (Ht & _ & Hk & _).
  assert (Htl : t ∉ l) by (eapply (inv_not_queued off (Some t) s ls t x); eauto).
  apply wp_bind, wp_linked. eapply KListOps.list_push_back_spec; [exact Hrep| | |done|].
  - by eapply (inv_unlinked off (Some t) s ls c r l t x).
  - unfold KList.NULL. lia.
  - intros m Hrep' Hto. apply wp_bind. eapply wp_upd_rq; [exact Hr|].
    apply (HQ (relinked c r (u32 (rq_nr_ready r + 1)) m s) (<[c := l ++ [t]]> ls)); [|done..|].
    + by eapply inv_push.
    + intros u. by apply relinked_idle.
Qed.

(** The thread that a CPU is charged for. *)
Lemma inv_curr_thread off lost s ls c r u : inv off lost s ls -> ks_rqs s !! c = Some r -> rq_curr r = Some u ->
  exists y, ks_threads s !! u = Some y /\ nice_ok (t_nice y).
Proof.
  intros Hi Hr Hu. assert (Hlt : (c < length (ks_running s))%nat).
  { rewrite (iv_len _ _ _ _ Hi). by eapply lookup_lt_Some. }
  apply lookup_lt_is_Some in Hlt as [v Hv]. rewrite (iv_curr _ _ _ _ Hi c r v Hr Hv) in Hu.
  case_decide; [done|]. simplify_eq. destruct (iv_runs _ _ _ _ Hi c u Hv) as (y & Hy & _). exists y.
  split; [done|]. by apply (iv_thread _ _ _ _ Hi u y).
Qed.

Lemma timely_min off lost s ls c r : inv off lost s ls -> ks_rqs s !! c = Some r -> timely (set_min_vruntime c) s.
Proof.
  intros Hi Hr. destruct (inv_list _ _ _ _ _ _ Hi Hr) as [l Hl]. destruct (iv_rq _ _ _ _ Hi c r l Hr Hl) as [Hrep En].
  eapply timely_set_min; [done|exact Hrep|by eapply inv_known|by eapply inv_short|].
  intros u Hu. destruct (inv_curr_thread _ _ _ _ _ _ _ Hi Hr Hu) as (y & Hy & _). by exists y.
Qed.

(** A thread is charged for the time since it was picked. *)
Lemma timely_charge t s : known s [t] -> timely (update_vruntime t 20) s.
Proof. intros Hk. destruct (Hk t ltac:(set_solver)) as (x & Hx & Hn). by eapply timely_update_vruntime. Qed.

Lemma known_one s t x : ks_threads s !! t = Some x -> nice_ok (t_nice x) -> known s [t].
Proof. intros Hx Hn u Hu. apply list_elem_of_singleton in Hu as ->. by exists x. Qed.

Lemma known_is s t : known s [t] -> is_Some (ks_threads s !! t).
Proof. intros Hk. destruct (Hk t ltac:(set_solver)) as (x & Hx & _). by exists x. Qed.

(** A thread whose nice value is not negative. *)
Definition mild s t : Prop := exists x, ks_threads s !! t = Some x /\ 0 <= t_nice x <= NICE_MAX.

Lemma mild_core s s' t : same_core s s' -> mild s t -> mild s' t.
Proof.
  intros Hs (x & Hx & Hn). destruct (core_thread _ _ _ _ Hs Hx) as (x' & Hx' & E). injection E as _ E _.
  exists x'. by rewrite E.
Qed.

Lemma timely_low t s : mild s t -> timely (update_vruntime t 0) s.
Proof. intros (x & Hx & Hn). by eapply timely_update_low. Qed.

Lemma timely_min_is off lost s ls c : inv off lost s ls -> is_Some (ks_rqs s !! c) -> timely (set_min_vruntime c) s.
Proof. intros Hi [r Hr]. by eapply timely_min. Qed.

End ops.

(** Carry facts over a change of times. *)
Ltac advance :=
  match goal with
  | Hs : same_core ?s ?s' |- timely _ ?s' =>
      repeat match goal with
      | H : inv _ _ s _ |- _ => apply (inv_core _ _ _ _ _ Hs) in H
      | H : known s _ |- _ => apply (known_core _ _ _ Hs) in H
      | H : mild s _ |- _ => apply (mild_core _ _ _ Hs) in H
      | H : is_Some (ks_rqs s !! _) |- _ => apply (core_is_rq _ _ _ Hs) in H
      end; clear Hs; try clear s
  end.

Create HintDb timely discriminated.
#[export] Hint Resolve timely_gets timely_ret timely_thread timely_rq timely_upd_thread timely_upd_rq
  timely_charge timely_low timely_min_is known_is : timely.

(** Step through code that changes times only. *)
Ltac timely_go :=
  repeat match goal with
  | |- timely (bind _ _) _ => apply timely_bind; [|intros ???; advance]
  | |- timely (if _ then _ else _) _ => case_match
  end; eauto with timely.

Section ops.
Implicit Types (s : ks) (ls : list (list nat)) (off lost : option nat) (c t : nat).

(** What [sched_unblock] does before it queues the thread. *)
Lemma sched_unblock_spec off s ls c r t x (initial : bool) (Q : sched_return_action -> ks -> Prop) :
  inv off (Some t) s ls -> ks_rqs s !! c = Some r -> ks_threads s !! t = Some x ->
  t_status x = THREAD_READY -> t_cpu x = Some c -> ~ is_idle s t ->
  (initial = true \/ 0 <= t_nice x \/ rq_curr r = None) ->
  (forall a s' ls', inv off None s' ls' -> ks_running s' = ks_running s -> Q a s') ->
  wp (sched_unblock c t initial) Q s.
Proof.
  intros Hi Hr Hx Hst Hc Hid Hor HQ. unfold sched_unblock. apply wp_bind. eapply wp_get_rq; [done|].
  apply wp_bind. eapply wp_timely.
  - destruct (rq_curr r) as [curr|] eqn:Ec; [|apply timely_ret].
    destruct (inv_curr_thread _ _ _ _ _ _ _ Hi Hr Ec) as (y & Hy & Hn).
    assert (Hk : known s [curr]) by by eapply known_one.
    assert (Hkt : known s [t]) by (eapply known_one; [done|]; by apply (iv_thread _ _ _ _ Hi t x)).
    assert (Hrq : is_Some (ks_rqs s !! c)) by by exists r.
    destruct initial; cbn [negb].
    + clear Hor HQ Hx Hy Hr Hid. unfold timer_gettime. timely_go.
    + assert (Hm : mild s t).
      { exists x. split; [done|]. destruct (iv_thread _ _ _ _ Hi t x Hx) as (_ & Hn' & _). unfold nice_ok in Hn'.
        destruct Hor as [|[|]]; [done|lia|done]. }
      clear Hor HQ Hx Hy Hr Hid. unfold timer_gettime. timely_go.
  - intros _ s' Hs. destruct (core_rq _ _ _ _ Hs Hr) as (r' & Hr' & Er). destruct (core_thread _ _ _ _ Hs Hx) as (x' & Hx' & Ex).
    injection Ex as E1 E2 E3. apply wp_bind. eapply wp_get_rq; [done|].
    eapply (wp_enqueue off s' ls); [by eapply inv_core|done|done|congruence|congruence| |].
    + intros Hi'. by apply Hid, (core_idle s s').
    + intros s2 ls2 Hi2 _ Hrun _. wp_steps. eapply HQ; [done|]. rewrite Hrun. apply (sc_running _ _ Hs).
Qed.

(** While a CPU is between two threads, none of its threads runs. *)
Lemma inv_off_idle lost s ls c t x : inv (Some c) lost s ls -> ks_threads s !! t = Some x -> t_cpu x = Some c ->
  t_status x <> THREAD_RUNNING.
Proof.
  intros Hi Hx Hc Hst. destruct (iv_only _ _ _ _ Hi t x Hx Hst) as [d Hd].
  destruct (iv_runs _ _ _ _ Hi d t Hd) as (y & Hy & Hcy & Hsy). assert (d = c) by congruence. subst d.
  simplify_eq. tauto.
Qed.

(** A thread starts on the CPU that was between two threads. *)
Lemma inv_start lost s ls c t x : inv (Some c) lost s ls -> ks_threads s !! t = Some x ->
  ks_running s !! c = Some t -> is_idle s t /\ lost = None \/ lost = Some t ->
  inv None None (set_threads (<[t := t_set_status THREAD_RUNNING x]> (ks_threads s)) s) ls.
Proof.
  intros Hi Hx Hrun Hor. eapply (inv_status (Some c) lost); [done|done|..].
  - eapply inv_not_queued; [done..|]. tauto.
  - done.
  - intros d u Hne Hu. split; [done|]. intros [= <-]. congruence.
  - by exists c.
  - done.
  - intros u Hne. destruct Hor as [[_ ->]| ->]; [done|]. split; [done|]. congruence.
Qed.

Lemma wp_pointer t (Q : nat -> ks -> Prop) s : Q t s -> wp (deref (Some t)) Q s.
Proof. intros HQ. by apply wp_lift. Qed.

Lemma switch_to_spec lost s ls c cur nx xn :
  inv (Some c) lost s ls -> ks_running s !! c = Some cur -> ks_threads s !! nx = Some xn -> t_cpu xn = Some c ->
  is_idle s nx /\ lost = None \/ lost = Some nx ->
  (forall x, ks_threads s !! cur = Some x -> t_status x = THREAD_DYING -> ~ is_idle s cur /\ cur <> nx) ->
  wp (switch_to c cur (Some nx)) (fun _ => keeps) s.
Proof.
  intros Hi Hrun Hxn Hcn Hor Hdy. destruct (iv_runs _ _ _ _ Hi c cur Hrun) as (x & Hx & Hcx & _).
  pose proof (inv_off_idle _ _ _ _ _ _ Hi Hx Hcx) as Hst. pose proof (inv_off_idle _ _ _ _ _ _ Hi Hxn Hcn) as Hstn.
  assert (exists r, ks_rqs s !! c = Some r) as [r Hr].
  { apply lookup_lt_is_Some. rewrite <- (iv_len _ _ _ _ Hi). by eapply lookup_lt_Some. }
  unfold switch_to. apply wp_bind. eapply wp_get_thread; [done|]. wp_steps; [by apply bool_decide_eq_true|done|].
  apply wp_pointer, wp_bind. unfold thread_schedule_tail. destruct (cur =? nx)%nat eqn:E; cbn [negb].
  - apply Nat.eqb_eq in E. subst nx. wp_steps. eapply wp_running; [done|]. apply wp_bind.
    eapply wp_upd_thread; [done|]. wp_steps. exists ls. by eapply inv_start.
  - apply Nat.eqb_neq in E. apply wp_bind. eapply wp_get_rq; [done|]. apply wp_bind. eapply wp_upd_rq; [done|].
    wp_steps. change (set_running _ _) with (switched c r nx s).
    assert (Hrun' : ks_running (switched c r nx s) !! c = Some nx).
    { cbn. apply list_lookup_insert_eq. by eapply lookup_lt_Some. }
    assert (Hi1 : inv (Some c) lost (switched c r nx s) ls) by by eapply inv_switch.
    eapply wp_running; [exact Hrun'|]. apply wp_bind. eapply wp_upd_thread; [exact Hxn|].
    apply (inv_start _ _ _ _ nx xn) in Hi1; [|done|done|by rewrite switched_idle].
    apply wp_bind. eapply wp_get_thread; [cbn; by rewrite lookup_insert_ne|]. wp_steps.
    case_bool_decide as Ed; cbn [andb]; [|wp_steps; by exists ls].
    case_match; [|wp_steps; by exists ls]. wp_steps; [by apply negb_true_iff, Nat.eqb_neq|].
    exists ls. eapply (inv_free _ _ cur x); [exact Hi1|cbn; by rewrite lookup_insert_ne|done|].
    destruct (Hdy x Hx Ed) as [Hid _]. intros Hid'. apply Hid. by apply (switched_idle s c r nx cur Hr).
Qed.

Lemma schedule_spec s ls c cur :
  inv (Some c) None s ls -> ks_running s !! c = Some cur ->
  (forall x, ks_threads s !! cur = Some x -> t_status x = THREAD_DYING -> ~ is_idle s cur) ->
  wp (schedule c) (fun _ => keeps) s.
Proof.
  intros Hi Hrun Hdy. assert (exists r, ks_rqs s !! c = Some r) as [r Hr].
  { apply lookup_lt_is_Some. rewrite <- (iv_len _ _ _ _ Hi). by eapply lookup_lt_Some. }
  destruct (inv_list _ _ _ _ _ _ Hi Hr) as [l Hl]. destruct (iv_rq _ _ _ _ Hi c r l Hr Hl) as [Hrep _].
  unfold schedule. apply wp_bind. eapply wp_running; [done|]. apply wp_bind. unfold next_thread_to_run.
  apply wp_bind. eapply sched_pick_next_spec; [done|done|by eapply inv_known|by eapply inv_short| |].
  - intros ->. destruct (iv_idle _ _ _ _ Hi c r Hr) as (i & xi & Hidl & Hxi & Hci). apply wp_bind.
    eapply wp_get_rq; [done|]. rewrite Hidl. wp_steps. assert (Hid : is_idle s i) by by exists c, r.
    eapply switch_to_spec; [exact Hi|done|done|done|by left|]. intros x Hx Hst. split; [by eapply Hdy|].
    intros ->. by apply (Hdy x).
  - intros t l1 l2 m -> _ Hrep' Hto. destruct (inv_pick _ _ _ _ _ _ _ _ _ Hi Hr Hl Hrep' Hto) as [Hi' (x & Hx & Hst & Hc & Hid)].
    wp_steps. eapply switch_to_spec; [exact Hi'|done|done|done|by right|]. intros y Hy Hsy.
    assert (Hne : cur <> t) by (intros ->; congruence). split; [|done].
    destruct (iv_queued _ _ _ _ Hi c _ t Hl ltac:(set_solver)) as (z & Hz & _).
    assert (E : ks_threads (picked c r t s m) !! cur = ks_threads s !! cur) by (cbn; by rewrite lookup_insert_ne).
    rewrite E in Hy. intros Hid'. apply (Hdy y Hy Hsy). by apply (relinked_idle s c r (u32 (rq_nr_ready r - 1)) m).
Qed.

(** * The operations *)

(** What runs on a CPU. *)
Lemma inv_running s ls c : inv None None s ls -> (c < length (ks_rqs s))%nat ->
  exists t x, ks_running s !! c = Some t /\ ks_threads s !! t = Some x /\ t_cpu x = Some c /\ t_status x = THREAD_RUNNING.
Proof.
  intros Hi Hc. rewrite <- (iv_len _ _ _ _ Hi) in Hc. apply lookup_lt_is_Some in Hc as [t Ht].
  destruct (iv_runs _ _ _ _ Hi c t Ht) as (x & Hx & Hcx & Hst). exists t, x. naive_solver.
Qed.

Lemma wp_thread_current c t x (Q : nat -> ks -> Prop) s :
  ks_running s !! c = Some t -> ks_threads s !! t = Some x -> t_status x = THREAD_RUNNING -> Q t s ->
  wp (thread_current c) Q s.
Proof.
  intros Ht Hx Hst HQ. unfold thread_current. apply wp_bind. eapply wp_running; [done|]. apply wp_bind.
  eapply wp_get_thread; [done|]. wp_steps; [by apply bool_decide_eq_true|done].
Qed.

(** The running thread stops running. *)
Lemma inv_stop s ls c t x v lost : inv None None s ls -> ks_running s !! c = Some t -> ks_threads s !! t = Some x ->
  v <> THREAD_RUNNING -> lost = None \/ lost = Some t -> (v = THREAD_READY -> is_idle s t \/ lost = Some t) ->
  inv (Some c) lost (set_threads (<[t := t_set_status v x]> (ks_threads s)) s) ls.
Proof.
  intros Hi Hrun Hx Hv Hlo Hrd. destruct (iv_runs _ _ _ _ Hi c t Hrun) as (y & Hy & Hc & Hst). simplify_eq.
  eapply (inv_status None None); [done|done|..].
  - eapply inv_not_queued; [done..|]. left. destruct Hst as [_ Hst]. rewrite Hst; done.
  - intros d Hd. destruct (iv_runs _ _ _ _ Hi d t Hd) as (z & Hz & Hcz & _). assert (d = c) as -> by congruence. tauto.
  - intros d u Hne Hu. split; [|done]. intros [= <-]. congruence.
  - done.
  - done.
  - intros u Hne. destruct Hlo as [-> | ->]; [done|]. split; [|done]. congruence.
Qed.

Lemma thread_block_spec s ls c : inv None None s ls -> (c < length (ks_rqs s))%nat ->
  wp (thread_block c) (fun _ => keeps) s.
Proof.
  intros Hi Hc. destruct (inv_running _ _ _ Hi Hc) as (t & x & Hrun & Hx & Hcx & Hst). unfold thread_block.
  apply wp_bind. eapply wp_thread_current; [done..|]. apply wp_bind. eapply wp_upd_thread; [done|].
  pose proof (inv_stop _ _ _ _ _ THREAD_BLOCKED None Hi Hrun Hx ltac:(done) ltac:(by left) ltac:(done)) as Hi1.
  set (s1 := set_threads _ s) in *.
  assert (Hx1 : ks_threads s1 !! t = Some (t_set_status THREAD_BLOCKED x)) by (cbn; by rewrite lookup_insert_eq).
  apply wp_bind. unfold sched_block, timer_gettime. wp_steps. eapply wp_upd_thread; [exact Hx1|].
  eapply schedule_spec; [|exact Hrun|].
  - eapply inv_core; [|exact Hi1].
    by apply (same_core_thread s1 t (t_set_status THREAD_BLOCKED x) (t_set_stop (s64 (ks_time s1)))).
  - intros y Hy Hsy. cbn in Hy. rewrite lookup_insert_eq in Hy. by simplify_eq.
Qed.

Lemma thread_yield_spec s ls c : inv None None s ls -> (c < length (ks_rqs s))%nat ->
  wp (thread_yield c) (fun _ => keeps) s.
Proof.
  intros Hi Hc. destruct (inv_running _ _ _ Hi Hc) as (t & x & Hrun & Hx & Hcx & Hst). unfold thread_yield.
  apply wp_bind. eapply wp_thread_current; [done..|]. apply wp_bind. eapply wp_upd_thread; [done|].
  apply lookup_lt_is_Some in Hc as [r Hr]. apply wp_bind. eapply wp_get_rq; [exact Hr|]. apply wp_bind.
  case_bool_decide as Eid.
  - pose proof (inv_stop _ _ _ _ _ THREAD_READY (Some t) Hi Hrun Hx ltac:(done) ltac:(by right) ltac:(by right)) as Hi1.
    set (s1 := set_threads _ s) in *.
    assert (Hx1 : ks_threads s1 !! t = Some (t_set_status THREAD_READY x)) by (cbn; by rewrite lookup_insert_eq).
    assert (Hnid : ~ is_idle s t).
    { intros (d & q & Hq & Hid). destruct (iv_idle _ _ _ _ Hi d q Hq) as (i & xi & Hi' & Hxi & Hci).
      assert (i = t) by congruence. assert (d = c) by congruence. subst. congruence. }
    unfold sched_yield. apply wp_bind. eapply wp_get_rq; [exact Hr|].
    eapply (wp_enqueue (Some c) s1 ls); [exact Hi1|exact Hr|exact Hx1|done|done|done|].
    intros s2 ls2 Hi2 Ht2 Hrun2 Hid2. assert (Hx2 : ks_threads s2 !! t = Some (t_set_status THREAD_READY x)) by by rewrite Ht2.
    eapply wp_timely.
    + assert (Hk : known s2 [t]) by (eapply known_one; [done|]; by apply (iv_thread _ _ _ _ Hi2 t _ Hx2)).
      clear - Hk. unfold timer_gettime. timely_go.
    + intros _ s3 Hs. eapply schedule_spec; [by eapply inv_core|rewrite (sc_running _ _ Hs), Hrun2; exact Hrun|].
      intros y Hy Hsy. destruct (core_thread_back _ _ _ _ Hs Hy) as (z & Hz & E & _). simplify_eq. cbn in E. congruence.
  - wp_steps. assert (Hid : is_idle s t) by by exists c, r.
    eapply schedule_spec; [|exact Hrun|].
    + eapply inv_stop; [done..|by left|by left].
    + intros y Hy Hsy. cbn in Hy. rewrite lookup_insert_eq in Hy. by simplify_eq.
Qed.

Lemma do_thread_exit_spec s ls c t : inv None None s ls -> ks_running s !! c = Some t -> ~ is_idle s t ->
  wp (do_thread_exit c) (fun _ => keeps) s.
Proof.
  intros Hi Hrun Hid. destruct (iv_runs _ _ _ _ Hi c t Hrun) as (x & Hx & Hcx & Hst). unfold do_thread_exit.
  apply wp_bind. eapply wp_thread_current; [done..|by apply Hst|]. wp_steps. eapply wp_upd_thread; [exact Hx|].
  eapply schedule_spec; [|exact Hrun|done].
  apply (inv_core (Some c) None (set_threads (<[t := t_set_status THREAD_DYING x]> (ks_threads s)) s)); [by split|].
  eapply inv_stop; [done..|by left|done].
Qed.

(** * Reading before the table of weights *)

Lemma fault_later {A B} (m : SK A) (k : A -> SK B) s : timely m s -> (forall a s', same_core s s' -> k a s' = Err Fault) -> bind m k s = Err Fault.
Proof. intros Hm Hk. apply err_bind. eapply wp_mono; [exact Hm|exact Hk]. Qed.

(** A thread whose nice value is negative. *)
Definition eager s t : Prop := exists x, ks_threads s !! t = Some x /\ t_nice x < 0.

Lemma eager_core s s' t : same_core s s' -> eager s t -> eager s' t.
Proof.
  intros Hs (x & Hx & Hn). destruct (core_thread _ _ _ _ Hs Hx) as (x' & Hx' & E). injection E as _ E _.
  exists x'. by rewrite E.
Qed.

Lemma update_low_faults t s : eager s t -> update_vruntime t 0 s = Err Fault.
Proof.
  intros (x & Hx & Hn). unfold update_vruntime, calc_vruntime. apply err_first. unfold bind at 1. unfold get_thread, bind, gets, lift. rewrite Hx. cbn [access].
  unfold weight at 2. rewrite (leb_false 0) by lia. done.
Qed.

(** A thread of negative nice value that is woken up while its CPU is busy:
    the index into [prio_to_weight] is negative. *)
Lemma sched_unblock_faults off s ls c r t curr : inv off (Some t) s ls -> ks_rqs s !! c = Some r -> rq_curr r = Some curr ->
  eager s t -> sched_unblock c t false s = Err Fault.
Proof.
  intros Hi Hr Ec He. destruct (inv_curr_thread _ _ _ _ _ _ _ Hi Hr Ec) as (y & Hy & Hn). assert (Hk : known s [curr]) by by eapply known_one.
  assert (Hrq : is_Some (ks_rqs s !! c)) by by exists r. unfold sched_unblock. apply err_bind. eapply wp_get_rq; [exact Hr|].
  rewrite Ec. cbn [negb]. apply err_first. clear Hr Ec Hy Hn. unfold timer_gettime.
  repeat match goal with
  | |- bind (update_vruntime t 0) _ _ = _ => by apply err_first, update_low_faults
  | |- bind _ _ s = _ =>
      apply fault_later; [eauto with timely|]; let a := fresh "a" in let s' := fresh "s'" in let Hs := fresh "Hs" in intros a s' Hs;
      apply (inv_core _ _ _ _ _ Hs) in Hi; apply (known_core _ _ _ Hs) in Hk; apply (core_is_rq _ _ _ Hs) in Hrq; apply (eager_core _ _ _ Hs) in He; clear Hs; try clear s; rename s' into s
  end.
Qed.

Lemma unblock_ready s ls t x : inv None None s ls -> ks_threads s !! t = Some x -> t_status x = THREAD_BLOCKED ->
  inv None (Some t) (set_threads (<[t := t_set_status THREAD_READY x]> (ks_threads s)) s) ls.
Proof.
  intros Hi Hx Hst. eapply (inv_status None None); [done|done|..].
  - eapply inv_not_queued; [done..|]. left. congruence.
  - intros d Hd. destruct (iv_runs _ _ _ _ Hi d t Hd) as (z & Hz & _ & Hsz). simplify_eq.
    destruct Hsz as [_ Hsz]. rewrite Hsz in Hst; done.
  - done.
  - done.
  - by right.
  - intros u Hne. split; [congruence|done].
Qed.

Lemma thread_unblock_spec s ls self t x c r : inv None None s ls -> ks_threads s !! t = Some x ->
  t_status x = THREAD_BLOCKED -> t_cpu x = Some c -> ks_rqs s !! c = Some r -> ~ is_idle s t ->
  0 <= t_nice x \/ rq_curr r = None -> wp (thread_unblock self t) (fun _ => keeps) s.
Proof.
  intros Hi Hx Hst Hc Hr Hid Hor. unfold thread_unblock. apply wp_bind. eapply wp_get_thread; [done|].
  rewrite Hc. wp_steps; [done|]. apply wp_pointer. wp_steps; [by apply bool_decide_eq_true|].
  eapply wp_upd_thread; [done|]. apply wp_bind. pose proof (unblock_ready s ls t x Hi Hx Hst) as Hi1.
  eapply sched_unblock_spec; [exact Hi1|exact Hr|cbn; by rewrite lookup_insert_eq|done|done|exact Hid|by right|].
  intros a s' ls' Hi' _. destruct a; wp_steps; [by exists ls'|].
  case_match; wp_steps; exists ls'; (eapply inv_core; [|exact Hi']); by split.
Qed.

Lemma thread_unblock_faults s ls self t x c r : inv None None s ls -> ks_threads s !! t = Some x ->
  t_status x = THREAD_BLOCKED -> t_cpu x = Some c -> ks_rqs s !! c = Some r -> t_nice x < 0 -> rq_curr r <> None ->
  thread_unblock self t s = Err Fault.
Proof.
  intros Hi Hx Hst Hc Hr Hn Hb. destruct (rq_curr r) as [curr|] eqn:Ec; [|done]. pose proof (unblock_ready s ls t x Hi Hx Hst) as Hi1.
  pose proof (sched_unblock_faults None _ ls c r t curr Hi1 Hr Ec) as Hf. unfold thread_unblock.
  apply err_bind. eapply wp_get_thread; [exact Hx|]. rewrite Hc. apply err_bind, wp_ASSERT; [by apply bool_decide_eq_true|].
  apply err_bind, wp_pointer. apply err_bind, wp_ASSERT; [by apply bool_decide_eq_true|]. apply err_bind. eapply wp_upd_thread; [exact Hx|].
  apply err_first, Hf. exists (t_set_status THREAD_READY x). cbn. by rewrite lookup_insert_eq.
Qed.

(** Creating a thread, from its page to its place in a ready list. *)
Definition create_thread (started : bool) (page : nat) (nice : Z) : SK unit :=
  let! new := do_thread_create (Some page) nice in
  let! t := deref new in
  wake_up_new_thread started t.

Lemma create_thread_spec s ls started t nice : inv None None s ls -> fresh t s -> nice_ok nice ->
  (0 < length (ks_rqs s))%nat -> wp (create_thread started t nice) (fun _ => keeps) s.
Proof.
  intros Hi Hf Hn Hcpu. unfold create_thread, do_thread_create, init_thread, allocate_tid. wp_steps.
  { unfold nice_ok in Hn. apply andb_true_iff. rewrite !Z.leb_le. lia. }
  pose proof (inv_born _ _ _ _ Hi Hf Hn) as Hi1. destruct Hf as (Hnew & _).
  eapply wp_upd_thread; [cbn; by rewrite lookup_insert_eq|]. wp_steps. apply wp_pointer.
  set (s1 := set_threads _ _). set (tid := s32 (ks_next_tid s + 1)) in s1.
  set (x := mkThread tid THREAD_BLOCKED nice None 0 0 0).
  assert (Hx : ks_threads s1 !! t = Some x) by (cbn; by rewrite lookup_insert_eq).
  assert (Hs : same_core (born t nice s) s1).
  { split; [|done..]. intros u. cbn. destruct (decide (u = t)) as [->|]; [by rewrite !lookup_insert_eq|].
    by rewrite !lookup_insert_ne. }
  apply (inv_core _ _ _ _ _ Hs) in Hi1.
  assert (Hnid : ~ is_idle s1 t).
  { intros (d & q & Hq & Hid). destruct (iv_idle _ _ _ _ Hi d q Hq) as (i & xi & Hi' & Hxi & _). congruence. }
  assert (Hnr : forall d, ks_running s1 !! d <> Some t).
  { intros d Hd. destruct (iv_runs _ _ _ _ Hi d t Hd) as (y & Hy & _). congruence. }
  unfold wake_up_new_thread. apply wp_bind. eapply wp_upd_thread; [exact Hx|].
  assert (Hi2 : inv None (Some t) (set_threads (<[t := t_set_status THREAD_READY x]> (ks_threads s1)) s1) ls).
  { eapply (inv_status None None); [exact Hi1|done|..]; [|by intros d Hd; destruct (Hnr d)|done|done|by right|].
    - eapply inv_not_queued; [done..|]. by left.
    - intros u Hne. split; [congruence|done]. }
  set (s2 := set_threads _ s1) in *. assert (Hx2 : ks_threads s2 !! t = Some (t_set_status THREAD_READY x)).
  { cbn. by rewrite lookup_insert_eq. }
  unfold choose_cpu_for_new_thread. apply wp_bind, wp_bind. eapply wp_get_thread; [exact Hx2|]. wp_steps.
  set (c := if started then _ else _). assert (Hc : (c < length (ks_rqs s2))%nat).
  { change (ks_rqs s2) with (ks_rqs s) in *. subst c. destruct started; [|done].
    pose proof (Z.mod_pos_bound (u32 (t_tid (t_set_status THREAD_READY x))) (Z.of_nat (length (ks_rqs s)))). lia. }
  eapply wp_upd_thread; [exact Hx2|].
  set (s3 := set_threads _ s2).
  assert (Hi3 : inv None (Some t) s3 ls).
  { eapply inv_rehome; [exact Hi2|exact Hx2|done|done|cbn; by intros d [= <-]|right; by split_and!]. }
  apply lookup_lt_is_Some in Hc as [r Hr]. apply wp_bind.
  eapply sched_unblock_spec; [exact Hi3|exact Hr|cbn; by rewrite lookup_insert_eq|done|done|exact Hnid|by left|].
  intros _ s' ls' Hi' _. wp_steps. by exists ls'.
Qed.

Lemma thread_set_nice_spec s ls c nice : inv None None s ls -> (c < length (ks_rqs s))%nat -> nice_ok nice ->
  wp (thread_set_nice c nice) (fun _ => keeps) s.
Proof.
  intros Hi Hc Hn. destruct (inv_running _ _ _ Hi Hc) as (t & x & Hrun & Hx & Hcx & Hst). unfold thread_set_nice.
  apply wp_bind. eapply wp_thread_current; [done..|]. eapply wp_upd_thread; [done|]. exists ls.
  eapply inv_rehome; [done|done|done|done| |by left]. by apply (iv_thread _ _ _ _ Hi t x).
Qed.

(** * The length of a time slice *)

(** The weight of all that a CPU has to run. *)
Definition total_weight s (curr : option nat) (l : list nat) : Z :=
  let w := default 0 (thread_weight s <$> curr) + sum_weights s l in if w =? 0 then 1 else w.

Lemma queue_total_weight_spec s c r l (Q : Z -> ks -> Prop) :
  ks_rqs s !! c = Some r -> KListSpec.rep (ks_links s) (rq_ready_list r) l -> known s l ->
  (forall t, rq_curr r = Some t -> known s [t]) -> Z.of_nat (length l) < 2 ^ 32 ->
  Q (total_weight s (rq_curr r) l) s -> wp (queue_total_weight c) Q s.
Proof.
  intros Hr Hrep Hk Hcur Hlen HQ. unfold queue_total_weight. apply wp_bind. eapply wp_get_rq; [done|]. apply wp_bind.
  apply (wp_mono _ (fun w s' => s' = s /\ w = default 0 (thread_weight s <$> rq_curr r) /\ 0 <= w <= 88761)).
  { destruct (rq_curr r) as [t|]; [|by wp_steps]. pose proof (Hcur t eq_refl) as Hkt.
    destruct (Hkt t ltac:(set_solver)) as (x & Hx & Hn). apply wp_bind. eapply wp_get_thread; [done|].
    apply wp_bind, wp_lift. destruct (weight_range _ Hn) as [-> Hw]. cbn. wp_steps. unfold thread_weight.
    rewrite Hx. cbn. split; [done|]. rewrite s64_small by lia. split; lia. }
  intros w s' (-> & -> & Hw). apply wp_bind. eapply add_weights_spec; [done|done|done|lia|]. by wp_steps.
Qed.

(** Four milliseconds for each thread that wants to run. *)
Definition runnable (r : ready_queue) : Z := match rq_curr r with Some _ => u32 (rq_nr_ready r + 1) | None => rq_nr_ready r end.

Lemma calc_ideal_runtime_spec s c r l t (Q : Z -> ks -> Prop) :
  ks_rqs s !! c = Some r -> KListSpec.rep (ks_links s) (rq_ready_list r) l -> known s l ->
  (forall u, rq_curr r = Some u -> known s [u]) -> Z.of_nat (length l) < 2 ^ 32 -> known s [t] ->
  Q (Z.quot (s64 (s64 (4000000 * runnable r) * thread_weight s t)) (total_weight s (rq_curr r) l)) s ->
  wp (calc_ideal_runtime c t) Q s.
Proof.
  intros Hr Hrep Hk Hcur Hlen Hkt HQ. unfold calc_ideal_runtime. apply wp_bind. eapply wp_get_rq; [done|].
  destruct (Hkt t ltac:(set_solver)) as (x & Hx & Hn). apply wp_bind. eapply wp_get_thread; [done|].
  apply wp_bind, wp_lift. destruct (weight_range _ Hn) as [-> _]. cbn. apply wp_bind.
  eapply queue_total_weight_spec; [done..|]. wp_steps. revert HQ. unfold thread_weight. rewrite Hx. done.
Qed.

Lemma thread_tick_spec s ls c : inv None None s ls -> (c < length (ks_rqs s))%nat ->
  wp (thread_tick c) (fun _ => keeps) s.
Proof.
  intros Hi Hc. destruct (inv_running _ _ _ Hi Hc) as (t & x & Hrun & Hx & Hcx & Hst).
  apply lookup_lt_is_Some in Hc as [r Hr]. destruct (inv_list _ _ _ _ _ _ Hi Hr) as [l Hl].
  destruct (iv_rq _ _ _ _ Hi c r l Hr Hl) as [Hrep _]. unfold thread_tick.
  apply wp_bind. eapply wp_thread_current; [done..|]. apply wp_bind. unfold sched_tick. apply wp_bind.
  eapply calc_ideal_runtime_spec; [done|done|by eapply inv_known| |by eapply inv_short| |].
  - intros u Hu. destruct (inv_curr_thread _ _ _ _ _ _ _ Hi Hr Hu) as (y & Hy & Hn). by eapply known_one.
  - eapply known_one; [done|]. by apply (iv_thread _ _ _ _ Hi t x).
  - generalize (Z.quot (s64 (s64 (4000000 * runnable r) * thread_weight s t)) (total_weight s (rq_curr r) l)).
    intros ideal. eapply wp_timely.
    + assert (Hrq : is_Some (ks_rqs s !! c)) by by exists r. clear - Hrq. unfold timer_gettime. timely_go.
    + intros a s' Hs. apply (inv_core _ _ _ _ _ Hs) in Hi. destruct a; unfold intr_yield_on_return; wp_steps; exists ls; [done|].
      eapply inv_core; [|exact Hi]. by split.
Qed.

End ops.
End SchedOps.
