(* ===== verification/SchedProps.v ===== *)
(** The theorems about the scheduler: the invariant along every sequence of
    events, the event that goes wrong with negative nice values, the choice of
    the next thread, and the division of time. *)
From S2P Require Import Prelude KList KListSpec KListSort KListOps Sched SchedSpec SchedInv SchedSteps SchedOps.
From stdpp Require Import options.

#[local] Open Scope Z_scope.

Module SchedProps.
Import Sched SchedSpec SchedInv SchedSteps SchedOps.

(** * Events *)

(** What happens to the threads: the clock advances, a CPU's timer ticks,
    the thread on a CPU blocks, yields, exits or changes its nice value, or
    a thread is created or woken up by the CPU [self]. *)
Inductive event :=
| Clock (now : Z)
| Tick (c : nat)
| Block (c : nat)
| Yield (c : nat)
| Exit (c : nat)
| SetNice (c : nat) (nice : Z)
| Create (started : bool) (page : nat) (nice : Z)
| Unblock (self t : nat).

Definition run_event (e : event) : SK unit :=
  match e with
  | Clock now => modify (set_time now)
  | Tick c => thread_tick c
  | Block c => thread_block c
  | Yield c => thread_yield c
  | Exit c => do_thread_exit c
  | SetNice c nice => thread_set_nice c nice
  | Create started page nice => create_thread started page nice
  | Unblock self t => thread_unblock self t
  end.

(** When an event can happen. Idle threads neither exit nor are they woken
    up; a new thread gets a fresh page; a thread that is woken up is
    blocked. *)
Definition enabled (e : event) (s : ks) : Prop :=
  match e with
  | Clock now => True
  | Tick c | Block c | Yield c => (c < length (ks_rqs s))%nat
  | Exit c => exists t, ks_running s !! c = Some t /\ ~ is_idle s t
  | SetNice c nice => (c < length (ks_rqs s))%nat /\ nice_ok nice
  | Create started page nice => fresh page s /\ nice_ok nice /\ (0 < length (ks_rqs s))%nat
  | Unblock self t => exists x c r, ks_threads s !! t = Some x /\ t_status x = THREAD_BLOCKED /\
      t_cpu x = Some c /\ ks_rqs s !! c = Some r /\ ~ is_idle s t
  end.

(** A thread of negative nice value is woken up while its CPU is busy. *)
Definition overreads (e : event) (s : ks) : Prop :=
  match e with
  | Unblock _ t => exists x c r, ks_threads s !! t = Some x /\ t_nice x < 0 /\ t_cpu x = Some c /\ ks_rqs s !! c = Some r /\ rq_curr r <> None
  | _ => False
  end.

(** The states that events lead to. *)
Inductive reachable (s0 : ks) : ks -> Prop :=
| reach_start : reachable s0 s0
| reach_event s e s' : reachable s0 s -> enabled e s -> run_event e s = Ok (tt, s') -> reachable s0 s'.

Lemma event_spec e s : keeps s -> enabled e s -> ~ overreads e s -> wp (run_event e) (fun _ => keeps) s.
Proof.
  intros [ls Hi] He Ho. revert He. destruct e; cbn [enabled run_event].
  - intros _. wp_steps. exists ls. eapply inv_core; [|exact Hi]. by split.
  - by apply thread_tick_spec with ls.
  - by apply thread_block_spec with ls.
  - by apply thread_yield_spec with ls.
  - intros (t & Ht & Hid). by eapply do_thread_exit_spec.
  - intros []. by apply thread_set_nice_spec with ls.
  - intros (? & ? & ?). by apply create_thread_spec with ls.
  - intros (x & c & r & Hx & Hst & Hc & Hr & Hid). eapply thread_unblock_spec; try done. destruct (Z.le_gt_cases 0 (t_nice x)) as [|Hn]; [by left|right].
    destruct (rq_curr r) eqn:E; [|done]. destruct Ho. exists x, c, r. by rewrite E.
Qed.

Lemma event_faults e s : keeps s -> enabled e s -> overreads e s -> run_event e s = Err Fault.
Proof.
  intros [ls Hi] He Ho. destruct e; try done. destruct He as (x & c & r & Hx & Hst & Hc & Hr & _). destruct Ho as (x' & c' & r' & Hx' & Hn & Hc' & Hr' & Hb).
  simplify_eq. by eapply thread_unblock_faults.
Qed.

Lemma reachable_keeps s0 s : keeps s0 -> reachable s0 s -> keeps s.
Proof.
  intros H0. induction 1 as [|s e s' _ IH He Hrun]; [done|].
  assert (Ho : ~ overreads e s) by (intros Ho; by rewrite (event_faults e s IH He Ho) in Hrun). pose proof (event_spec e s IH He Ho) as Hw.
  unfold wp in Hw. by rewrite Hrun in Hw.
Qed.

(** * A machine with two CPUs *)

Definition blank_rq (h t : nat) : ready_queue := mkRq None None 0 (KList.mkList h t) 0 0 0 false.

Definition blank : ks :=
  mkKs ∅ (list_to_map ((fun a => (a, KList.mkElem 0 0)) <$> [1; 2; 3; 4]%nat)) [blank_rq 1 2; blank_rq 3 4]
    [10; 11]%nat [false; false] [] [] 0 0 0.

Definition boot : SK unit :=
  thread_init;;; thread_start_idle_thread (Some 12%nat) 0;;;
  thread_init_on_ap 1;;; thread_start_idle_thread (Some 13%nat) 1.

Definition after {A} (m : SK A) (s : ks) : ks := match m s with Ok (_, s') => s' | Err _ => s end.

Definition booted : ks := Eval vm_compute in after boot blank.

Lemma booted_threads t x : ks_threads booted !! t = Some x ->
  (t, x) ∈ [(10%nat, mkThread 1 THREAD_RUNNING 0 (Some 0%nat) 0 0 0); (12%nat, mkThread 2 THREAD_BLOCKED 19 (Some 0%nat) 0 0 0);
            (11%nat, mkThread 3 THREAD_RUNNING 0 (Some 1%nat) 0 0 0); (13%nat, mkThread 4 THREAD_BLOCKED 19 (Some 1%nat) 0 0 0)].
Proof.
  intros H. apply (elem_of_list_to_map_2 (M := gmap nat)). rewrite <- H. by vm_compute.
Qed.

Lemma booted_inv : inv None None booted [[]; []].
Proof.
  split; [done|done|..].
  - intros [|[|c]] r l [= <-] [= <-]; (split; [|done]).
    + split; [done|by intros a [= <-]|by intros a [= <-]| |]; apply (bool_decide_unpack _); by vm_compute.
    + split; [done|by intros a [= <-]|by intros a [= <-]| |]; apply (bool_decide_unpack _); by vm_compute.
  - intros [|[|c]] [|[|d]] r r' e Hne [= <-] [= <-]; try done; set_solver.
  - intros [|[|c]] r e [= <-] He; unfold headers in He; cbn in He; repeat (apply elem_of_cons in He as [->|He]; [by vm_compute|]); set_solver.
  - intros [|[|c]] l t [= <-] Ht; set_solver.
  - intros t x Hx Hst Hid _. apply booted_threads in Hx. repeat (apply elem_of_cons in Hx as [[= -> ->]|Hx]; [done|]). set_solver.
  - intros [|[|c]] t [= <-]; by eexists.
  - intros t x Hx. apply booted_threads in Hx.
    repeat (apply elem_of_cons in Hx as [[= -> ->]|Hx]; [first [done|intros _; by exists 0%nat|intros _; by exists 1%nat]|]). set_solver.
  - intros [|[|c]] r t [= <-] [= <-]; done.
  - intros [|[|c]] r [= <-]; by eexists _, _.
  - intros t x Hx. apply booted_threads in Hx.
    repeat (apply elem_of_cons in Hx as [[= -> ->]|Hx];
      [split; [lia|]; split; [done|]; split; [by eexists|]; cbn; intros c [= <-]; lia|]). set_solver.
Qed.

(** * Theorems *)

(** C11: from a state in which the scheduler is consistent, whatever sequence of
    clock ticks, thread creations, wake-ups, blockings, yields, exits and
    changes of nice values follows, (1) every event that can happen next
    completes, with no failed assertion and no invalid pointer followed, but
    for one: waking up a thread of negative nice value while its CPU is busy
    reads before the start of the table of weights; (2) every CPU runs
    exactly one thread, which is marked as running and belongs to it; (3) the
    ready lists are well formed, their counts are right, and a thread that is
    not an idle thread is ready if and only if it is in the ready list of its
    CPU, in no other, and once. *)
Theorem scheduler_safe (s0 s : ks) (H0 : exists ls, inv None None s0 ls) (Hs : reachable s0 s) :
  (forall e, enabled e s ->
     (overreads e s -> run_event e s = Err Fault) /\ (~ overreads e s -> exists s', run_event e s = Ok (tt, s'))) /\
  (forall c, (c < length (ks_rqs s))%nat -> exists t x, ks_running s !! c = Some t /\
     ks_threads s !! t = Some x /\ t_status x = THREAD_RUNNING /\ t_cpu x = Some c) /\
  (forall t x, ks_threads s !! t = Some x -> t_status x = THREAD_RUNNING -> exists c, ks_running s !! c = Some t) /\
  exists ls : list (list nat), length ls = length (ks_rqs s) /\
    (forall c r l, ks_rqs s !! c = Some r -> ls !! c = Some l ->
       KListSpec.rep (ks_links s) (rq_ready_list r) l /\ NoDup l /\ rq_nr_ready r = Z.of_nat (length l)) /\
    (forall t x, ks_threads s !! t = Some x -> ~ is_idle s t ->
       t_status x = THREAD_READY <-> exists c l, t_cpu x = Some c /\ ls !! c = Some l /\ t ∈ l) /\
    (forall c d l l' t, ls !! c = Some l -> ls !! d = Some l' -> t ∈ l -> t ∈ l' -> c = d).
Proof.
  pose proof (reachable_keeps s0 s H0 Hs) as Hk. split; [|destruct Hk as [ls Hi]; split; [|split]].
  - intros e He. split; [by apply event_faults|]. intros Ho. pose proof (event_spec e s Hk He Ho) as Hw. apply wp_ok in Hw as ([] & s' & Hrun & _). by exists s'.
  - intros c Hc. destruct (inv_running _ _ _ Hi Hc) as (t & x & ? & ? & ? & ?). by exists t, x.
  - apply Hi.
  - exists ls. split_and!; [apply Hi|..].
    + intros c r l Hr Hl. destruct (iv_rq _ _ _ _ Hi c r l Hr Hl) as [Hrep En]. split_and!; [done| |done].
      pose proof (KListSpec.ch_nodup _ _ Hrep) as Hnd. unfold KListSpec.full in Hnd.
      apply NoDup_cons in Hnd as [_ Hnd]. by apply NoDup_app in Hnd as [Hnd _].
    + intros t x Hx Hid. split; [intros Hst; by apply (iv_ready _ _ _ _ Hi)|]. intros (c & l & _ & Hl & Ht).
      destruct (iv_queued _ _ _ _ Hi c l t Hl Ht) as (y & Hy & Hst & _). congruence.
    + intros c d l l' t Hl Hl' Ht Ht'. destruct (iv_queued _ _ _ _ Hi c l t Hl Ht) as (x & Hx & _ & Hc & _).
      destruct (iv_queued _ _ _ _ Hi d l' t Hl' Ht') as (y & Hy & _ & Hd & _). congruence.
Qed.

Lemma fresh_page : fresh 20 booted.
Proof. split; [done|]. split; [lia|]. intros [|[|c]] r [= <-]; set_solver. Qed.

Lemma create_reachable nice : nice_ok nice -> reachable booted (after (run_event (Create false 20 nice)) booted).
Proof.
  intros Hn. assert (He : enabled (Create false 20 nice) booted) by (split; [exact fresh_page|]; split; [done|cbn; lia]).
  assert (Hk : keeps booted) by (exists [[]; []]; exact booted_inv). pose proof (event_spec _ _ Hk He ltac:(by intros [])) as Hw.
  apply wp_ok in Hw as ([] & s' & E & _). unfold after. rewrite E. by apply (reach_event _ booted (Create false 20 nice)); [apply reach_start| |].
Qed.

(** Thread 20, of nice value -5, ran and has blocked. *)
Definition eager_blocked : ks :=
  after (run_event (Block 0)) (after (run_event (Yield 0)) (after (run_event (Clock 1000000)) (after (run_event (Create false 20 (-5))) booted))).

Lemma eager_reachable : reachable booted eager_blocked.
Proof.
  unfold eager_blocked. apply (reach_event _ (after (run_event (Yield 0)) (after (run_event (Clock 1000000)) (after (run_event (Create false 20 (-5))) booted))) (Block 0)).
  - apply (reach_event _ (after (run_event (Clock 1000000)) (after (run_event (Create false 20 (-5))) booted)) (Yield 0)).
    + apply (reach_event _ (after (run_event (Create false 20 (-5))) booted) (Clock 1000000)); [by apply create_reachable|done|by vm_compute].
    + apply Nat.ltb_lt. by vm_compute.
    + by vm_compute.
  - apply Nat.ltb_lt. by vm_compute.
  - by vm_compute.
Qed.

Lemma scheduler_safe_witness :
  (exists s', run_event (Yield 0) (after (run_event (Create false 20 5)) booted) = Ok (tt, s')) /\
  run_event (Unblock 0 20) eager_blocked = Err Fault.
Proof.
  split.
  - apply (scheduler_safe booted (after (run_event (Create false 20 5)) booted)).
    + exists [[]; []]. exact booted_inv.
    + by apply create_reachable.
    + apply Nat.ltb_lt. by vm_compute.
    + by intros [].
  - apply (scheduler_safe booted eager_blocked).
    + exists [[]; []]. exact booted_inv.
    + exact eager_reachable.
    + eexists _, 0%nat, _. split; [by vm_compute|]. split; [done|]. split; [done|]. split; [by vm_compute|]. intros ([|[|c]] & r & Hr & Hid); vm_compute in Hr; [injection Hr as <-|injection Hr as <-|]; done.
    + eexists _, 0%nat, _. split; [by vm_compute|]. split; [done|]. split; [done|]. split; [by vm_compute|done].
Defined.

(** C12: the scheduler picks a thread of the ready list with the least virtual
    run time and, among those, the least identifier; it takes that thread,
    and only that thread, off the list, and an empty list gives none. *)
Theorem sched_pick_next_least (s : ks) c r l
  (Hr : ks_rqs s !! c = Some r) (Hl : KListSpec.rep (ks_links s) (rq_ready_list r) l)
  (Hk : known s l) (Hlen : rq_nr_ready r = Z.of_nat (length l)) (Hmax : Z.of_nat (length l) < 2 ^ 32) :
  exists p s', sched_pick_next c s = Ok (p, s') /\
    match p with
    | None => l = [] /\ s' = s
    | Some t => exists l1 l2 r', l = l1 ++ t :: l2 /\
        (forall u x y, u ∈ l -> ks_threads s !! t = Some x -> ks_threads s !! u = Some y ->
           t_vruntime x < t_vruntime y \/ t_vruntime x = t_vruntime y /\ t_tid x <= t_tid y) /\
        ks_rqs s' !! c = Some r' /\ rq_ready_list r' = rq_ready_list r /\
        KListSpec.rep (ks_links s') (rq_ready_list r) (l1 ++ l2) /\
        rq_nr_ready r' = Z.of_nat (length (l1 ++ l2))
    end.
Proof.
  apply (wp_ok (sched_pick_next c) (fun p s' => match p with None => l = [] /\ s' = s | Some t => _ end)).
  eapply sched_pick_next_spec; [done..| |].
  - done.
  - intros t l1 l2 m -> [_ Hle] Hrep _. exists l1, l2, (rq_set_nr (u32 (rq_nr_ready r - 1)) r).
    split_and!; [done|exact Hle| |done|done|].
    + cbn. apply list_lookup_insert_eq. by eapply lookup_lt_Some.
    + cbn. rewrite Hlen. rewrite !length_app in *. cbn in *. rewrite u32_small; lia.
Qed.

Lemma sched_pick_next_least_witness :
  exists p s', sched_pick_next 0 (after (run_event (Create false 20 5)) booted) = Ok (p, s').
Proof.
  assert (Hk : keeps (after (run_event (Create false 20 5)) booted)).
  { apply (reachable_keeps booted); [exists [[]; []]; exact booted_inv|]. by apply create_reachable. }
  destruct Hk as [ls Hi].
  destruct (lookup_lt_is_Some_2 (ks_rqs (after (run_event (Create false 20 5)) booted)) 0) as [r Hr].
  { apply Nat.ltb_lt. by vm_compute. }
  destruct (inv_list _ _ _ _ _ _ Hi Hr) as [l Hl]. destruct (iv_rq _ _ _ _ Hi 0%nat r l Hr Hl) as [Hrep En].
  destruct (sched_pick_next_least _ 0 r l Hr Hrep (inv_known _ _ _ _ _ _ Hi Hl) En (inv_short _ _ _ _ _ _ Hi Hl))
    as (p & s' & H & _).
  exists p, s'. exact H.
Defined.

(** Rounded shares of a whole. *)
Lemma sum_shares s P W l : 0 < W ->
  let shares := foldr (fun u a => P * thread_weight s u / W + a) 0 l in
  W * shares <= P * sum_weights s l /\ P * sum_weights s l + Z.of_nat (length l) <= W * (shares + Z.of_nat (length l)).
Proof.
  intros HW shares. subst shares. induction l as [|u l [IH1 IH2]]; [cbn [foldr sum_weights length]; lia|].
  cbn [foldr sum_weights length]. fold (sum_weights s l).
  pose proof (Z.mul_div_le (P * thread_weight s u) W HW). pose proof (Z.mul_succ_div_gt (P * thread_weight s u) W HW).
  split; lia.
Qed.

(** C33: the time slices of a busy CPU are fair. With [n] threads to run (the
    running one and those in the ready list), thread [u] gets the share of
    [4 * n] milliseconds that its weight has in the sum of all weights,
    rounded down; a slice is never empty; and the slices together fill the
    period up to less than one nanosecond for each thread. *)
Theorem calc_ideal_runtime_fair (s : ks) c r l t
  (Hr : ks_rqs s !! c = Some r) (Hl : KListSpec.rep (ks_links s) (rq_ready_list r) l)
  (Hcurr : rq_curr r = Some t) (Hk : known s (t :: l))
  (Hlen : rq_nr_ready r = Z.of_nat (length l)) (Hmax : Z.of_nat (length l) < 2 ^ 24) :
  let n := Z.of_nat (length (t :: l)) in
  let period := 4000000 * n in
  exists slice : nat -> Z,
    (forall u, u ∈ t :: l -> calc_ideal_runtime c u s = Ok (slice u, s) /\ 0 < slice u /\
       slice u = period * thread_weight s u / sum_weights s (t :: l)) /\
    period - n < foldr (fun u a => slice u + a) 0 (t :: l) <= period.
Proof.
  intros n period. exists (fun u => period * thread_weight s u / sum_weights s (t :: l)).
  pose proof (sum_weights_bounds s _ Hk) as HW. assert (En : n = Z.of_nat (length l) + 1) by (subst n; cbn; lia).
  change (Z.of_nat (length (t :: l))) with n in HW. assert (Hrun : runnable r = n).
  { unfold runnable. rewrite Hcurr, Hlen, u32_small; lia. }
  assert (Htot : total_weight s (rq_curr r) l = sum_weights s (t :: l)).
  { unfold total_weight. rewrite Hcurr. cbn [fmap option_fmap option_map default].
    change (id (thread_weight s t) + sum_weights s l) with (sum_weights s (t :: l)). rewrite eqb_false by lia. done. }
  split.
  - intros u Hu. pose proof (known_weight s _ u Hk Hu) as Hw. split_and!; [| |done].
    + assert (H : wp (calc_ideal_runtime c u) (fun v s' => v = period * thread_weight s u / sum_weights s (t :: l) /\ s' = s) s).
      { eapply calc_ideal_runtime_spec; [done|done| | |lia| |].
        - intros v Hv. apply Hk. set_solver.
        - intros v Hv x Hx. rewrite Hcurr in Hv. simplify_eq. apply Hk. set_solver.
        - intros v Hv. apply list_elem_of_singleton in Hv as ->. by apply Hk.
        - rewrite Hrun, Htot. split; [|done]. rewrite (s64_small (4000000 * n)) by lia.
          rewrite s64_small by nia. apply Z.quot_div_nonneg; [subst period; nia|lia]. }
      apply wp_ok in H as (v & s' & H & -> & ->). done.
    + apply Z.div_str_pos. subst period. nia.
  - destruct (sum_shares s period (sum_weights s (t :: l)) (t :: l)) as [H1 H2]; [lia|].
    change (Z.of_nat (length (t :: l))) with n in H2. nia.
Qed.

Lemma calc_ideal_runtime_fair_witness :
  exists slice : nat -> Z, calc_ideal_runtime 0 10 booted = Ok (slice 10%nat, booted) /\ slice 10%nat = 4000000.
Proof.
  destruct (iv_rq _ _ _ _ booted_inv 0%nat _ [] eq_refl eq_refl) as [Hrep En].
  destruct (calc_ideal_runtime_fair booted 0 _ [] 10 eq_refl Hrep eq_refl) as (slice & Hs & _).
  - intros u Hu. apply list_elem_of_singleton in Hu as ->. by eexists.
  - exact En.
  - done.
  - exists slice. destruct (Hs 10%nat) as (H1 & _ & H2); [set_solver|]. split; [exact H1|]. rewrite H2. by vm_compute.
Defined.

(** A thread is charged for the time it ran in inverse proportion to its
    weight: at nice 0 the elapsed nanoseconds, at a nice value below that at
    most as much, above it at least as much. The virtual run time never goes
    down, and nothing overflows while a stretch is below 2^52 nanoseconds. *)
Theorem sched_yield_charges (s : ks) c r l t x
  (Hr : ks_rqs s !! c = Some r) (Hl : KListSpec.rep (ks_links s) (rq_ready_list r) l)
  (Ht : t ∉ KListSpec.full (rq_ready_list r) l) (Hlink : is_Some (ks_links s !! t)) (Hnull : t <> KList.NULL)
  (Hx : ks_threads s !! t = Some x) (Hn : nice_ok (t_nice x)) (Hv : 0 <= t_vruntime x < 2 ^ 62)
  (Htime : 0 <= t_timer_start x <= ks_time s) (Hlong : ks_time s - t_timer_start x < 2 ^ 52) (Hnow : ks_time s < 2 ^ 63) :
  let d := ks_time s - t_timer_start x in
  exists s' x', sched_yield c t s = Ok (tt, s') /\ ks_threads s' !! t = Some x' /\
    KListSpec.rep (ks_links s') (rq_ready_list r) (l ++ [t]) /\ t_timer_stop x' = ks_time s /\
    t_vruntime x' = t_vruntime x + d * 1024 / weight_of (t_nice x) /\ t_vruntime x <= t_vruntime x' /\
    (t_nice x = 0 -> t_vruntime x' = t_vruntime x + d) /\
    (1024 <= weight_of (t_nice x) -> t_vruntime x' <= t_vruntime x + d) /\
    (weight_of (t_nice x) <= 1024 -> t_vruntime x + d <= t_vruntime x').
Proof.
  intros d. set (v := t_vruntime x + d * 1024 / weight_of (t_nice x)). destruct (weight_range _ Hn) as [Hw Hwr].
  assert (H : wp (sched_yield c t) (fun _ s' => KListSpec.rep (ks_links s') (rq_ready_list r) (l ++ [t]) /\
    ks_threads s' !! t = Some (t_set_vruntime v (t_set_stop (ks_time s) x))) s).
  { unfold sched_yield. apply wp_bind. eapply wp_get_rq; [done|]. apply wp_bind, wp_linked.
    eapply KListOps.list_push_back_spec; [done..|]. intros m Hrep _. apply wp_bind. eapply wp_upd_rq; [exact Hr|].
    unfold timer_gettime. wp_steps. eapply wp_upd_thread; [exact Hx|]. unfold update_vruntime, calc_vruntime.
    do 2 apply wp_bind. eapply wp_get_thread; [cbn; by rewrite lookup_insert_eq|]. apply wp_bind, wp_lift.
    change (weight (NICE_DEFAULT + 20)) with (@Ok Z 1024). cbn [wpr]. apply wp_bind, wp_lift.
    change (t_nice (t_set_stop (s64 (ks_time s)) x)) with (t_nice x).
    cbn [t_nice t_set_stop ks_time set_threads set_rqs set_links t_vruntime t_timer_stop t_timer_start].
    rewrite Hw. cbn [wpr]. wp_steps. eapply wp_upd_thread; [cbn; by rewrite lookup_insert_eq|]. split; [done|].
    cbn. rewrite lookup_insert_eq. rewrite (s64_small (ks_time s)) by lia. fold d. rewrite (s64_small d) by lia.
    rewrite (s64_small (d * 1024)) by lia. rewrite Z.quot_div_nonneg by lia.
    assert (0 <= d * 1024 / weight_of (t_nice x) <= d * 1024).
    { split; [apply Z.div_pos; lia|]. apply Z.div_le_upper_bound; nia. }
    rewrite s64_small by lia. done. }
  apply wp_ok in H as ([] & s' & H & Hrep & Hx'). exists s', (t_set_vruntime v (t_set_stop (ks_time s) x)).
  pose proof (Z.div_pos (d * 1024) (weight_of (t_nice x))).
  split_and!; [done|done|done|done|done|cbn; lia|..]; cbn [t_vruntime t_set_vruntime]; intros Hcase.
  - subst v. rewrite Hcase. change (weight_of 0) with 1024. by rewrite Z.div_mul.
  - assert (d * 1024 / weight_of (t_nice x) <= d) by (apply Z.div_le_upper_bound; nia). lia.
  - assert (d <= d * 1024 / weight_of (t_nice x)) by (apply Z.div_le_lower_bound; nia). lia.
Qed.

Definition demo_ready : ks := set_time 5000 (set_threads {[20%nat := mkThread 9 THREAD_READY 5 (Some 0%nat) 100 1000 0]}
  (set_links (<[20%nat := KList.mkElem 0 0]> (ks_links booted)) booted)).

Lemma sched_yield_charges_witness : exists s' x', sched_yield 0 20 demo_ready = Ok (tt, s') /\
  ks_threads s' !! 20%nat = Some x' /\ t_vruntime x' = 100 + 4000 * 1024 / 335.
Proof.
  destruct (iv_rq _ _ _ _ booted_inv 0%nat _ [] eq_refl eq_refl) as [Hrep _].
  assert (Hrep' : KListSpec.rep (ks_links demo_ready) (KList.mkList 1 2) []).
  { eapply rep_same; [exact Hrep|]. intros e He. apply lookup_insert_ne. intros <-. set_solver. }
  destruct (sched_yield_charges demo_ready 0 _ [] 20 _ eq_refl Hrep' ltac:(set_solver) ltac:(by eexists) ltac:(done) eq_refl)
    as (s' & x' & H1 & H2 & _ & _ & H3 & _).
  - done.
  - cbn. lia.
  - cbn. lia.
  - cbn. lia.
  - cbn. lia.
  - exists s', x'. split; [exact H1|]. split; [exact H2|]. rewrite H3. by vm_compute.
Defined.

End SchedProps.
