(* ===== verification/Arith.v ===== *)
(** 64-bit division (src/src/lib/arithmetic.c) and the rounding macros
    (src/src/lib/round.h).

    On the 32-bit target GCC calls these routines for every 64-bit
    division and remainder.  They are built on the DIVL instruction,
    which traps when the quotient does not fit 32 bits; a trap in the
    kernel is a [Panic]. *)

From stdpp Require Import options.
From S2P Require Import Prelude.

Definition ROUND_UP (x step : Z) : Z := (x + step - 1) / step * step.
Definition DIV_ROUND_UP (x step : Z) : Z := (x + step - 1) / step.
Definition ROUND_DOWN (x step : Z) : Z := x / step * step.

Definition divl (n d : Z) : res Z :=
  let n1 := u32 (Z.shiftr n 32) in
  let n0 := u32 n in
  let dividend := Z.lor (Z.shiftl n1 32) n0 in
  if d =? 0 then Err Panic
  else if dividend / d <? 2 ^ 32 then Ok (dividend / d)
  else Err Panic.

Definition nlz (x : Z) : Z :=
  let n := 0 in
  let '(n, x) := if x <=? 0x0000FFFF then (n + 16, u32 (Z.shiftl x 16)) else (n, x) in
  let '(n, x) := if x <=? 0x00FFFFFF then (n + 8, u32 (Z.shiftl x 8)) else (n, x) in
  let '(n, x) := if x <=? 0x0FFFFFFF then (n + 4, u32 (Z.shiftl x 4)) else (n, x) in
  let '(n, x) := if x <=? 0x3FFFFFFF then (n + 2, u32 (Z.shiftl x 2)) else (n, x) in
  if x <=? 0x7FFFFFFF then n + 1 else n.

Definition udiv64 (n d : Z) : res Z :=
  if Z.shiftr d 32 =? 0 then
    let b := u64 (Z.shiftl 1 32) in
    let n1 := u32 (Z.shiftr n 32) in
    let n0 := u32 n in
    let d0 := u32 d in
    if d0 =? 0 then Err Panic
    else
      let* q := divl (u64 (u64 (b * (n1 mod d0)) + n0)) d0 in
      Ok (u64 (q + u64 (b * (n1 / d0))))
  else if n <? d then Ok 0
  else
    let d1 := u32 (Z.shiftr d 32) in
    let s := nlz d1 in
    let* q0 := divl (Z.shiftr n 1) (u32 (Z.shiftr (u64 (Z.shiftl d s)) 32)) in
    let q := Z.shiftr q0 (31 - s) in
    Ok (if u64 (n - u64 (u64 (q - 1) * d)) <? d then u64 (q - 1) else q).

Definition umod64 (n d : Z) : res Z :=
  let* q := udiv64 n d in
  Ok (u32 (u64 (n - u64 (d * q)))).

Definition sdiv64 (n d : Z) : res Z :=
  let n_abs := if 0 <=? n then u64 n else u64 (- u64 n) in
  let d_abs := if 0 <=? d then u64 d else u64 (- u64 d) in
  let* q_abs := udiv64 n_abs d_abs in
  Ok (if Bool.eqb (n <? 0) (d <? 0) then s64 q_abs else s64 (- s64 q_abs)).

Definition smod64 (n d : Z) : res Z :=
  let* q := sdiv64 n d in
  Ok (s32 (s64 (n - s64 (d * q)))).

Definition __divdi3 (n d : Z) : res Z := sdiv64 n d.
Definition __moddi3 (n d : Z) : res Z := smod64 n d.
Definition __udivdi3 (n d : Z) : res Z := udiv64 n d.
Definition __umoddi3 (n d : Z) : res Z := umod64 n d.

(** * The building blocks *)

Lemma divl_spec (n d : Z) :
  0 <= n < 2 ^ 64 -> 0 < d -> n < d * 2 ^ 32 -> divl n d = Ok (n / d).
Proof.
  intros Hn Hd Hq. unfold divl.
  assert (Hdiv : Z.lor (Z.shiftl (u32 (Z.shiftr n 32)) 32) (u32 n) = n).
  { unfold u32. rewrite Z.shiftr_div_pow2, Z.shiftl_mul_pow2 by lia.
    rewrite (Z.mod_small (n / 2 ^ 32)).
    2:{ split; [apply Z.div_pos; lia|apply Z.div_lt_upper_bound; lia]. }
    rewrite <- Z.land_ones, <- Z.shiftr_div_pow2, <- Z.shiftl_mul_pow2 by lia.
    apply Z.bits_inj'. intros k Hk. rewrite Z.lor_spec, Z.land_spec.
    destruct (Z.lt_ge_cases k 32).
    - rewrite Z.shiftl_spec_low, Z.ones_spec_low by lia. apply andb_true_r.
    - rewrite Z.shiftl_spec, Z.shiftr_spec, Z.ones_spec_high by lia.
      rewrite andb_false_r, orb_false_r. f_equal. lia. }
  rewrite Hdiv, eqb_false, ltb_true; [done| |lia].
  apply Z.div_lt_upper_bound; lia.
Qed.

Lemma nlz_spec (x : Z) :
  0 < x < 2 ^ 32 -> 0 <= nlz x <= 31 /\ 2 ^ 31 <= x * 2 ^ nlz x < 2 ^ 32.
Proof.
  intros Hx. unfold nlz. rewrite !Z.shiftl_mul_pow2 by lia.
  repeat (ztest; [rewrite ?Z.shiftl_mul_pow2, ?u32_small in * by lia|]);
  try (split; [lia|]; cbn; lia).
Qed.

(** The case of a divisor that fits 32 bits: schoolbook division with
    two digits. *)
Lemma udiv64_short (n d : Z) :
  0 <= n < 2 ^ 64 -> 0 < d < 2 ^ 32 -> udiv64 n d = Ok (n / d).
Proof.
  intros Hn Hd. unfold udiv64.
  rewrite !Z.shiftr_div_pow2, Z.shiftl_mul_pow2, (Z.div_small d) by lia.
  cbn [Z.eqb]. rewrite (u32_small d), eqb_false by lia.
  set (n1 := n / 2 ^ 32). set (n0 := n mod 2 ^ 32).
  assert (Hn1 : 0 <= n1 < 2 ^ 32).
  { split; [apply Z.div_pos; lia|apply Z.div_lt_upper_bound; lia]. }
  assert (Hn0 : 0 <= n0 < 2 ^ 32) by (apply Z.mod_pos_bound; lia).
  assert (Hsplit : n = 2 ^ 32 * n1 + n0) by (apply Z.div_mod; lia).
  pose proof (Z.mod_pos_bound n1 d ltac:(lia)) as Hm.
  pose proof (Z.div_mod n1 d ltac:(lia)) as Hdm.
  assert (0 <= n1 / d) by (apply Z.div_pos; lia).
  change (u32 n) with n0. rewrite (u32_small n1) by done.
  change (u64 (1 * 2 ^ 32)) with (2 ^ 32).
  rewrite (u64_small (2 ^ 32 * (n1 mod d))), (u64_small (_ + n0)) by lia.
  rewrite divl_spec by lia. cbn [rbind]. f_equal.
  assert (Hq : n / d = (2 ^ 32 * (n1 mod d) + n0) / d + 2 ^ 32 * (n1 / d)).
  { rewrite Hsplit, Hdm at 1.
    replace (2 ^ 32 * (d * (n1 / d) + n1 mod d) + n0)
      with (2 ^ 32 * (n1 mod d) + n0 + 2 ^ 32 * (n1 / d) * d) by lia.
    by rewrite Z.div_add by lia. }
  assert (n / d < 2 ^ 64) by (apply Z.div_lt_upper_bound; nia).
  assert (0 <= (2 ^ 32 * (n1 mod d) + n0) / d) by (apply Z.div_pos; lia).
  rewrite (u64_small (2 ^ 32 * (n1 / d))), u64_small by lia. by rewrite Hq.
Qed.

(** The estimate at the heart of the long case: dropping the low
    [32 - s] bits of the divisor overshoots the quotient by at most
    one. *)
Lemma quotient_estimate (n d s v : Z) :
  0 <= n < 2 ^ 64 -> 0 <= s <= 31 ->
  v = d / 2 ^ (32 - s) -> 2 ^ 31 <= v -> d <= n ->
  let q := n / (v * 2 ^ (32 - s)) in
  n / d <= q <= n / d + 1.
Proof.
  intros Hn Hs Hv Hv31 Hdn q. set (a := 32 - s) in *.
  assert (Ha : 1 <= a <= 32) by lia.
  assert (Hp : 0 < 2 ^ a) by (apply Z.pow_pos_nonneg; lia).
  pose proof (Z.div_mod d (2 ^ a) ltac:(lia)) as Hd.
  pose proof (Z.mod_pos_bound d (2 ^ a) Hp) as Hr. rewrite <- Hv in Hd.
  assert (Hd' : v * 2 ^ a <= d < v * 2 ^ a + 2 ^ a) by lia.
  assert (Hpow : 2 ^ 31 * 2 ^ a <= v * 2 ^ a) by nia.
  assert (Hdpos : 0 < d) by nia.
  split; [apply Z.div_le_compat_l; nia|].
  apply Z.lt_succ_r, Z.div_lt_upper_bound; [nia|].
  pose proof (Z.div_mod n d ltac:(lia)) as Hq.
  pose proof (Z.mod_pos_bound n d Hdpos).
  set (Q := n / d) in *. assert (0 <= Q) by (apply Z.div_pos; lia).
  assert (HQ : Q * 2 ^ a < 2 ^ 33) by nia.
  assert (Hgap : (Q + 1) * (2 ^ a - 1) <= 2 ^ 31 * 2 ^ a).
  { assert (Hsplit : 2 ^ 33 = 2 ^ (33 - a) * 2 ^ a)
      by (rewrite <- Z.pow_add_r by lia; f_equal; lia).
    assert (Q + 1 <= 2 ^ (33 - a)) by nia.
    destruct (decide (a = 1)) as [->|].
    - change (2 ^ (33 - 1)) with (2 ^ 32) in *. lia.
    - assert (2 ^ 2 <= 2 ^ a) by (apply Z.pow_le_mono_r; lia).
      assert (0 < 2 ^ (33 - a)) by (apply Z.pow_pos_nonneg; lia). nia. }
  assert (n < (Q + 1) * d) by lia.
  assert ((Q + 1) * d <= (Q + 1) * (v * 2 ^ a) + (Q + 1) * (2 ^ a - 1)) by nia.
  lia.
Qed.

Lemma udiv64_long (n d : Z) :
  0 <= n < 2 ^ 64 -> 2 ^ 32 <= d < 2 ^ 64 -> udiv64 n d = Ok (n / d).
Proof.
  intros Hn Hd. unfold udiv64. rewrite !Z.shiftr_div_pow2 by lia.
  assert (Hd1 : 0 < d / 2 ^ 32 < 2 ^ 32).
  { split; [apply Z.div_str_pos; lia|apply Z.div_lt_upper_bound; lia]. }
  rewrite eqb_false by lia.
  destruct (Z.ltb_spec n d) as [Hlt|Hge]; [by rewrite Z.div_small by lia|].
  rewrite (u32_small (d / 2 ^ 32)) by lia.
  destruct (nlz_spec (d / 2 ^ 32)) as [Hs Hnorm]; [done|].
  set (s := nlz (d / 2 ^ 32)) in *.
  assert (Hps : 0 < 2 ^ s) by (apply Z.pow_pos_nonneg; lia).
  pose proof (Z.div_mod d (2 ^ 32) ltac:(lia)) as Hdm.
  pose proof (Z.mod_pos_bound d (2 ^ 32) ltac:(lia)).
  assert (Hsp : 2 ^ 32 = 2 ^ (32 - s) * 2 ^ s)
    by (rewrite <- Z.pow_add_r by lia; f_equal; lia).
  assert (Hds : 2 ^ 63 <= d * 2 ^ s < 2 ^ 64).
  { assert (d / 2 ^ 32 + 1 <= 2 ^ (32 - s)) by nia.
    assert ((d / 2 ^ 32 + 1) * 2 ^ s <= 2 ^ 32) by nia. nia. }
  rewrite Z.shiftl_mul_pow2, u64_small by lia.
  set (v := d * 2 ^ s / 2 ^ 32).
  assert (Hv : v = d / 2 ^ (32 - s)).
  { unfold v. rewrite Hsp. apply Z.div_mul_cancel_r; [|lia].
    apply Z.pow_nonzero; lia. }
  assert (Hv31 : 2 ^ 31 <= v < 2 ^ 32).
  { unfold v. split; [apply Z.div_le_lower_bound; lia|].
    apply Z.div_lt_upper_bound; lia. }
  assert (Hh : 0 <= n / 2 < 2 ^ 63)
    by (split; [apply Z.div_pos; lia|apply Z.div_lt_upper_bound; lia]).
  change (2 ^ 1) with 2. rewrite u32_small, divl_spec by lia. cbn [rbind].
  rewrite Z.shiftr_div_pow2 by lia.
  assert (Hpt : 0 < 2 ^ (31 - s)) by (apply Z.pow_pos_nonneg; lia).
  rewrite !Z.div_div by lia.
  replace (2 * (v * 2 ^ (31 - s))) with (v * 2 ^ (32 - s)).
  2:{ replace (32 - s) with (Z.succ (31 - s)) by lia. rewrite Z.pow_succ_r by lia. lia. }
  destruct (quotient_estimate n d s v) as [Hlo Hhi]; [lia..|].
  set (q := n / (v * 2 ^ (32 - s))) in *.
  pose proof (Z.div_mod n d ltac:(lia)) as Hq.
  pose proof (Z.mod_pos_bound n d ltac:(lia)).
  assert (1 <= n / d) by (apply Z.div_le_lower_bound; lia).
  assert (Hqr : n / d < 2 ^ 32) by (apply Z.div_lt_upper_bound; nia).
  assert (0 <= (q - 1) * d <= n) by nia.
  rewrite (u64_small (q - 1)), (u64_small ((q - 1) * d)), u64_small by nia.
  f_equal. ztest; nia.
Qed.

(** * Results *)

Lemma udiv64_total (n d : Z) :
  0 <= n < 2 ^ 64 -> 0 < d < 2 ^ 64 -> udiv64 n d = Ok (n / d).
Proof.
  intros. destruct (Z.lt_ge_cases d (2 ^ 32)); [apply udiv64_short|apply udiv64_long]; lia.
Qed.

(** Unsigned 64-bit division never traps on a nonzero divisor and
    returns the quotient. *)
Theorem udiv64_correct (n d : Z)
    (Hn : 0 <= n < 2 ^ 64) (Hd : 0 < d < 2 ^ 64) :
  __udivdi3 n d = Ok (n / d).
Proof. by apply udiv64_total. Qed.

Lemma udiv64_correct_witness :
  __udivdi3 (2 ^ 64 - 1) (2 ^ 33 - 1) = Ok ((2 ^ 64 - 1) / (2 ^ 33 - 1)).
Proof. apply (udiv64_correct (2 ^ 64 - 1) (2 ^ 33 - 1)); lia. Defined.

(** [umod64] is declared to return [uint32_t]: its result is the
    remainder cut to 32 bits. *)
Theorem umod64_result (n d : Z)
    (Hn : 0 <= n < 2 ^ 64) (Hd : 0 < d < 2 ^ 64) :
  __umoddi3 n d = Ok ((n mod d) mod 2 ^ 32).
Proof.
  unfold __umoddi3, umod64. rewrite udiv64_total by done. cbn [rbind].
  pose proof (Z.div_mod n d ltac:(lia)). pose proof (Z.mod_pos_bound n d ltac:(lia)).
  assert (0 <= d * (n / d) <= n).
  { split; [apply Z.mul_nonneg_nonneg; [lia|apply Z.div_pos; lia]|lia]. }
  rewrite (u64_small (d * _)), u64_small by lia. unfold u32. do 2 f_equal. lia.
Qed.

Lemma umod64_result_witness : __umoddi3 (2 ^ 40 + 7) (2 ^ 33) = Ok 7.
Proof. apply (umod64_result (2 ^ 40 + 7) (2 ^ 33)); lia. Defined.

(** So the remainder GCC obtains is wrong for some divisors above
    [2 ^ 32]. *)
Theorem umoddi3_wrong_remainder :
  __umoddi3 (2 ^ 40) (2 ^ 41) = Ok 0 /\ 2 ^ 40 mod 2 ^ 41 = 2 ^ 40.
Proof. split; vm_compute; reflexivity. Qed.

Lemma s64_congr (x y k : Z) : x = y + k * 2 ^ 64 -> s64 x = s64 y.
Proof.
  intros ->. unfold s64. replace (y + k * 2 ^ 64 + 2 ^ 63) with (y + 2 ^ 63 + k * 2 ^ 64) by lia.
  by rewrite Z.mod_add by lia.
Qed.

Lemma s64_shift (x : Z) : exists k, s64 x = x + k * 2 ^ 64.
Proof.
  exists (- ((x + 2 ^ 63) / 2 ^ 64)). unfold s64.
  pose proof (Z.div_mod (x + 2 ^ 63) (2 ^ 64) ltac:(lia)). lia.
Qed.

Lemma abs_conversion (n : Z) :
  - 2 ^ 63 <= n < 2 ^ 63 ->
  (if 0 <=? n then u64 n else u64 (- u64 n)) = Z.abs n.
Proof.
  intros Hn. ztest; [rewrite u64_small; lia|]. unfold u64.
  replace (n mod 2 ^ 64) with (n + 2 ^ 64).
  2:{ rewrite <- (Z.mod_small (n + 2 ^ 64) (2 ^ 64)) by lia.
      replace (n + 2 ^ 64) with (n + 1 * 2 ^ 64) by lia. by rewrite Z.mod_add by lia. }
  replace (- (n + 2 ^ 64)) with (- n + (-1) * 2 ^ 64) by lia.
  rewrite Z.mod_add by lia. rewrite Z.mod_small; lia.
Qed.

Lemma sdiv64_quot (n d : Z) :
  - 2 ^ 63 <= n < 2 ^ 63 -> - 2 ^ 63 <= d < 2 ^ 63 -> d <> 0 ->
  sdiv64 n d = Ok (s64 (Z.quot n d)).
Proof.
  intros Hn Hd Hd0. unfold sdiv64. rewrite !abs_conversion, udiv64_total by lia.
  cbn [rbind]. f_equal. rewrite Z.quot_div by done.
  set (q := Z.abs n / Z.abs d).
  destruct (s64_shift q) as [k Hk].
  assert (Hneg : s64 (- s64 q) = s64 (- q)) by (apply (s64_congr _ _ (- k)); lia).
  destruct (decide (n = 0)) as [->|Hn0].
  { unfold q. cbn [Z.abs Z.sgn]. rewrite Z.div_0_l by lia.
    by destruct (Bool.eqb _ _). }
  destruct (Z.ltb_spec n 0), (Z.ltb_spec d 0); cbn [Bool.eqb];
    rewrite ?Hneg; f_equal; nia.
Qed.

(** Signed division truncates toward zero; the one overflow,
    [INT64_MIN / -1], wraps. *)
Theorem sdiv64_correct (n d : Z)
    (Hn : - 2 ^ 63 <= n < 2 ^ 63) (Hd : - 2 ^ 63 <= d < 2 ^ 63) (Hd0 : d <> 0) :
  __divdi3 n d = Ok (s64 (Z.quot n d)).
Proof. by apply sdiv64_quot. Qed.

Lemma sdiv64_correct_witness : __divdi3 (-7) 2 = Ok (-3).
Proof. apply (sdiv64_correct (-7) 2); lia. Defined.

(** The signed remainder, converted to [int]. *)
Theorem smod64_result (n d : Z)
    (Hn : - 2 ^ 63 <= n < 2 ^ 63) (Hd : - 2 ^ 63 <= d < 2 ^ 63) (Hd0 : d <> 0) :
  __moddi3 n d = Ok (s32 (Z.rem n d)).
Proof.
  unfold __moddi3, smod64. rewrite sdiv64_quot by done. cbn [rbind]. do 2 f_equal.
  destruct (s64_shift (Z.quot n d)) as [k Hk].
  destruct (s64_shift (d * s64 (Z.quot n d))) as [k' Hk'].
  pose proof (Z.quot_rem n d Hd0). pose proof (Z.rem_bound_abs n d Hd0).
  transitivity (s64 (Z.rem n d)); [|apply s64_small; lia].
  apply (s64_congr _ _ (- k' - d * k)). rewrite Hk', Hk. lia.
Qed.

Lemma smod64_result_witness : __moddi3 (-7) 2 = Ok (-1).
Proof. apply (smod64_result (-7) 2); lia. Defined.
