(* ===== verification/Stdio.v ===== *)
(** Formatted output (src/src/lib/stdio.c).

    The characters that [__vprintf] passes to its output function, in order,
    are [pf_out]; the output functions do not influence what is printed, so
    [vsnprintf] runs its own on that sequence. The variable arguments are
    the 32-bit words on the stack, [pf_args]; taking one more than there
    are is undefined. A format string is its characters without the null
    character; [memory] holds the strings for %s. *)
From Stdlib Require Import String Ascii.
From S2P Require Import Prelude Words CString CStdlib Arith.
From stdpp Require Import options.

#[local] Open Scope Z_scope.

Module Stdio.

(** Casts to [signed char], [short] and [unsigned short]. *)
Definition s8 (x : Z) : Z := (x + 2 ^ 7) mod 2 ^ 8 - 2 ^ 7.
Definition s16 (x : Z) : Z := (x + 2 ^ 15) mod 2 ^ 16 - 2 ^ 15.
Definition u16 (x : Z) : Z := x mod 2 ^ 16.

Definition chr (c : ascii) : Z := Z.of_nat (nat_of_ascii c).
Definition str (s : string) : list Z := chr <$> list_ascii_of_string s.

(** * Conversions *)

Definition MINUS : Z := Z.shiftl 1 0.
Definition PLUS : Z := Z.shiftl 1 1.
Definition SPACE : Z := Z.shiftl 1 2.
Definition POUND : Z := Z.shiftl 1 3.
Definition ZERO : Z := Z.shiftl 1 4.
Definition GROUP : Z := Z.shiftl 1 5.

Inductive arg_type := CHAR | SHORT | INT | INTMAX | LONG | LONGLONG | PTRDIFFT | SIZET.

Record printf_conversion := mkConv {
  c_flags : Z;
  c_width : Z;
  c_precision : Z;
  c_type : arg_type;
}.

Record integer_base := mkBase {
  b_base : Z;
  b_digits : list Z;
  b_x : Z;
  b_group : Z;
}.

Definition base_d := mkBase 10 (str "0123456789") 0 3.
Definition base_o := mkBase 8 (str "01234567") 0 3.
Definition base_x := mkBase 16 (str "0123456789abcdef") 120 4.
Definition base_X := mkBase 16 (str "0123456789ABCDEF") 88 4.

Record pf := mkPf { pf_args : list Z; pf_out : list Z }.
Abbreviation PF := (ST pf).

Definition output (ch : Z) : PF unit := modify (fun s => mkPf (pf_args s) (pf_out s ++ [ch])).
Definition outputs (l : list Z) : PF unit := modify (fun s => mkPf (pf_args s) (pf_out s ++ l)).

(** [va_arg] of a type of 32 bits, as an unsigned number, and of 64 bits. *)
Definition va_word : PF Z :=
  let! args := gets pf_args in
  match args with
  | [] => fail Fault
  | w :: args => modify (fun s => mkPf args (pf_out s));;; ret (u32 w)
  end.
Definition va_long : PF Z := let! lo := va_word in let! hi := va_word in ret (lo + 2 ^ 32 * hi).

Definition has (flags f : Z) : bool := negb (Z.land flags f =? 0).

(** * Output of one conversion *)

Definition output_dup (ch : Z) (cnt : Z) : PF unit :=
  loop (fun cnt => if 0 <? cnt then output ch;;; ret (inl (cnt - 1)) else ret (inr tt)) cnt.

(** [buf] holds 64 characters; [cp] lists those in it, the last one first. *)
Definition push (cp : list Z) (ch : Z) : PF (list Z) :=
  if Z.of_nat (length cp) <? 64 then ret (ch :: cp) else fail Fault.

Definition digits_loop (b : integer_base) (c : printf_conversion) (value : Z) : PF (list Z) :=
  loop (fun '(value, cp, digit_cnt) =>
    if 0 <? value then
      let! cp := (if has (c_flags c) GROUP && (0 <? digit_cnt) && (digit_cnt mod b_group b =? 0) then push cp 44 else ret cp) in
      let! digit := lift (access (b_digits b !! Z.to_nat (value mod b_base b))) in
      let! cp := push cp digit in
      ret (inl (value / b_base b, cp, digit_cnt + 1))
    else ret (inr cp)) (value, [], 0).

Definition zeros_loop (precision : Z) (cp : list Z) : PF (list Z) :=
  loop (fun cp =>
    if (Z.of_nat (length cp) <? precision) && (Z.of_nat (length cp) <? 64 - 1)
    then let! cp := push cp 48 in ret (inl cp)
    else ret (inr cp)) cp.

Definition sign_of (is_signed negative : bool) (flags : Z) : Z :=
  if is_signed then
    if has flags PLUS then (if negative then 45 else 43)
    else if has flags SPACE then (if negative then 45 else 32)
    else if negative then 45 else 0
  else 0.

Definition format_integer (value : Z) (is_signed negative : bool) (b : integer_base) (c : printf_conversion) : PF unit :=
  let sign := sign_of is_signed negative (c_flags c) in
  let x := if has (c_flags c) POUND && negb (value =? 0) then b_x b else 0 in
  let! cp := digits_loop b c value in
  let precision := if c_precision c <? 0 then 1 else c_precision c in
  let! cp := zeros_loop precision cp in
  let! cp := (if has (c_flags c) POUND && (b_base b =? 8) && negb (bool_decide (head cp = Some 48))
              then push cp 48 else ret cp) in
  let pad_cnt := s32 (c_width c - Z.of_nat (length cp) - (if negb (x =? 0) then 2 else 0) - (if negb (sign =? 0) then 1 else 0)) in
  let pad_cnt := if pad_cnt <? 0 then 0 else pad_cnt in
  (if Z.land (c_flags c) (Z.lor MINUS ZERO) =? 0 then output_dup 32 pad_cnt else ret tt);;;
  (if negb (sign =? 0) then output sign else ret tt);;;
  (if negb (x =? 0) then output 48;;; output x else ret tt);;;
  (if has (c_flags c) ZERO then output_dup 48 pad_cnt else ret tt);;;
  outputs cp;;;
  (if has (c_flags c) MINUS then output_dup 32 pad_cnt else ret tt).

Definition format_string (string : list Z) (c : printf_conversion) : PF unit :=
  let length := Z.of_nat (length string) in
  (if (length <? c_width c) && negb (has (c_flags c) MINUS) then output_dup 32 (c_width c - length) else ret tt);;;
  outputs string;;;
  (if (length <? c_width c) && has (c_flags c) MINUS then output_dup 32 (c_width c - length) else ret tt).

(** * Parsing *)

(** [*format] *)
Definition cur (format : list Z) : Z := match format with [] => 0 | c :: _ => c end.

Fixpoint flags_loop (format : list Z) (flags : Z) : list Z * Z :=
  match format with
  | [] => (format, flags)
  | c :: rest =>
      if c =? 45 then flags_loop rest (Z.lor flags MINUS)
      else if c =? 43 then flags_loop rest (Z.lor flags PLUS)
      else if c =? 32 then flags_loop rest (Z.lor flags SPACE)
      else if c =? 35 then flags_loop rest (Z.lor flags POUND)
      else if c =? 48 then flags_loop rest (Z.lor flags ZERO)
      else if c =? 39 then flags_loop rest (Z.lor flags GROUP)
      else (format, flags)
  end.

Fixpoint number_loop (format : list Z) (n : Z) : list Z * Z :=
  match format with
  | [] => (format, n)
  | c :: rest => if CStdlib.isdigit c then number_loop rest (s32 (n * 10 + c - 48)) else (format, n)
  end.

(** A field width or a precision. *)
Definition parse_number (format : list Z) : PF (list Z * Z) :=
  if cur format =? 42 then let! w := va_word in ret (tl format, s32 w)
  else ret (number_loop format 0).

Definition parse_type (format : list Z) : list Z * arg_type :=
  let rest := tl format in
  if cur format =? 104 then if cur rest =? 104 then (tl rest, CHAR) else (rest, SHORT)
  else if cur format =? 106 then (rest, INTMAX)
  else if cur format =? 108 then if cur rest =? 108 then (tl rest, LONGLONG) else (rest, LONG)
  else if cur format =? 116 then (rest, PTRDIFFT)
  else if cur format =? 122 then (rest, SIZET)
  else (format, INT).

Definition parse_conversion (format : list Z) : PF (list Z * printf_conversion) :=
  let '(format, flags) := flags_loop format 0 in
  let flags := if has flags MINUS then Z.ldiff flags ZERO else flags in
  let flags := if has flags PLUS then Z.ldiff flags SPACE else flags in
  let! fw := parse_number format in
  let '(format, width) := fw in
  let '(width, flags) := if width <? 0 then (s32 (- width), Z.lor flags MINUS) else (width, flags) in
  let! fp := (if cur format =? 46 then let! fp := parse_number (tl format) in ret (fp.1, if fp.2 <? 0 then -1 else fp.2)
              else ret (format, -1)) in
  let '(format, precision) := fp in
  let flags := if 0 <=? precision then Z.ldiff flags ZERO else flags in
  let '(format, type) := parse_type format in
  ret (format, mkConv flags width precision type).

(** * The conversions *)

Definition SIZE_MAX : Z := 2 ^ 32 - 1.

Definition signed_arg (type : arg_type) : PF Z :=
  match type with
  | CHAR => let! w := va_word in ret (s8 w)
  | SHORT => let! w := va_word in ret (s16 w)
  | INT | LONG | PTRDIFFT => let! w := va_word in ret (s32 w)
  | INTMAX | LONGLONG => let! w := va_long in ret (s64 w)
  | SIZET => let! value := va_word in ret (if SIZE_MAX / 2 <? value then value - SIZE_MAX - 1 else value)
  end.

Definition unsigned_arg (type : arg_type) : PF Z :=
  match type with
  | CHAR => let! w := va_word in ret (u8 w)
  | SHORT => let! w := va_word in ret (u16 w)
  | INT | LONG | SIZET => va_word
  | INTMAX | LONGLONG => va_long
  | PTRDIFFT => let! w := va_word in ret (Z.land (u64 (s32 w)) (Z.lor (u64 (Z.shiftl (2 ^ 31 - 1) 1)) 1))
  end.

Section vprintf.
Context (memory : list Z).

(** The string that %s prints: at most [precision] characters, all if it is
    -1. No string is longer than the memory. *)
Definition string_arg (s precision : Z) : PF (list Z) :=
  let maxlen := Z.to_nat (Z.min (u32 precision) (Z.of_nat (length memory) + 6)) in
  if s =? 0 then ret (take maxlen (str "(null)"))
  else
    let! n := lift (CString.strnlen memory (Z.to_nat s) maxlen) in
    ret (take n (drop (Z.to_nat s) memory)).

(** One conversion. [nested] is [__printf] with one argument. *)
Definition convert (nested : list Z -> Z -> PF unit) (ch : Z) (c : printf_conversion) : PF unit :=
  if (ch =? 100) || (ch =? 105) then
    let! value := signed_arg (c_type c) in
    format_integer (u64 (if value <? 0 then - value else value)) true (value <? 0) base_d c
  else if (ch =? 111) || (ch =? 117) || (ch =? 120) || (ch =? 88) then
    let! value := unsigned_arg (c_type c) in
    let b := if ch =? 111 then base_o else if ch =? 117 then base_d else if ch =? 120 then base_x else base_X in
    format_integer value false false b c
  else if ch =? 99 then
    let! w := va_word in
    format_string [u8 w] c
  else if ch =? 115 then
    let! s := va_word in
    let! string := string_arg s (c_precision c) in
    format_string string c
  else if ch =? 112 then
    let! p := va_word in
    format_integer p false false base_x (mkConv POUND (c_width c) (c_precision c) (c_type c))
  else if (ch =? 102) || (ch =? 101) || (ch =? 69) || (ch =? 103) || (ch =? 71) || (ch =? 110) then
    nested (str "<<no %%%c in kernel>>") ch
  else
    nested (str "<<no %%%c conversion>>") ch.

(** [format++] must not go past the null character. *)
Fixpoint vprintf_loop (nested : list Z -> Z -> PF unit) (fuel : nat) (format : list Z) : PF unit :=
  match fuel with
  | O => fail Block
  | S fuel =>
      match format with
      | [] => ret tt
      | ch :: format =>
          if negb (ch =? 37) then output ch;;; vprintf_loop nested fuel format
          else if cur format =? 37 then output 37;;; vprintf_loop nested fuel (tl format)
          else
            let! fc := parse_conversion format in
            convert nested (cur fc.1) fc.2;;;
            match fc.1 with
            | [] => fail Fault
            | _ :: format => vprintf_loop nested fuel format
            end
      end
  end.

(** The two messages contain no conversion but %c, so [__vprintf] calls
    itself at most once. *)
Fixpoint vprintf_at (depth : nat) (format : list Z) : PF unit :=
  vprintf_loop (fun message ch =>
    match depth with
    | O => fail Block
    | S depth =>
        let! args := gets pf_args in
        modify (fun s => mkPf [ch] (pf_out s));;;
        vprintf_at depth message;;;
        modify (fun s => mkPf args (pf_out s))
    end) (S (length format)) format.

Definition __vprintf (format : list Z) : PF unit := vprintf_at 1 format.

Definition __printf (format args : list Z) : PF unit :=
  let! old := gets pf_args in
  modify (fun s => mkPf args (pf_out s));;;
  __vprintf format;;;
  modify (fun s => mkPf old (pf_out s)).

End vprintf.

(** * Output to a buffer *)

Record vsnprintf_aux := mkAux { x_p : nat; x_length : Z; x_max_length : Z }.

Definition vsnprintf_helper (ch : Z) : ST (list Z * vsnprintf_aux) unit :=
  let! st := gets id in
  let '(buffer, aux) := st in
  if x_length aux <? x_max_length aux then
    let! buffer := lift (CString.store buffer (x_p aux) ch) in
    modify (fun _ => (buffer, mkAux (S (x_p aux)) (s32 (x_length aux + 1)) (x_max_length aux)))
  else modify (fun _ => (buffer, mkAux (x_p aux) (s32 (x_length aux + 1)) (x_max_length aux))).

Fixpoint helper_loop (out : list Z) : ST (list Z * vsnprintf_aux) unit :=
  match out with
  | [] => ret tt
  | ch :: out => vsnprintf_helper ch;;; helper_loop out
  end.

(** [memory] holds the strings, [dest] the buffer at address [buffer]. *)
Definition vsnprintf (memory dest : list Z) (buffer : nat) (buf_size : Z) (format args : list Z) : res (Z * list Z) :=
  let aux := mkAux buffer 0 (s32 (if 0 <? buf_size then buf_size - 1 else 0)) in
  let* (_, s) := __vprintf memory format (mkPf args []) in
  let* (_, (dest, aux)) := helper_loop (pf_out s) (dest, aux) in
  let* dest := (if 0 <? buf_size then CString.store dest (x_p aux) 0 else Ok dest) in
  Ok (x_length aux, dest).

Definition snprintf (memory dest : list Z) (buffer : nat) (buf_size : Z) (format args : list Z) : res (Z * list Z) :=
  vsnprintf memory dest buffer buf_size format args.

(** * Dumps *)

Definition isprint (c : Z) : bool := (32 <=? c) && (c <? 127).

Section dumps.
Context (memory : list Z).

Definition repeat_print (format : list Z) (i n : Z) : PF unit :=
  loop (fun i => if i <? n then __printf memory format [];;; ret (inl (i + 1)) else ret (inr tt)) i.

Definition hex_dump (ofs : Z) (buf : list Z) (ascii : bool) : PF unit :=
  loop (fun '(ofs, buf) =>
    let size := Z.of_nat (length buf) in
    if 0 <? size then
      let start := ofs mod 16 in
      let end_ := if size <? 16 - start then start + size else 16 in
      let n := end_ - start in
      __printf memory (str "%08jx  ") [ROUND_DOWN ofs 16; 0];;;
      repeat_print (str "   ") 0 start;;;
      loop (fun i =>
        if i <? end_ then
          let! b := lift (access (buf !! Z.to_nat (i - start))) in
          __printf memory (str "%02hhx%c") [b; if i =? 16 / 2 - 1 then 45 else 32];;;
          ret (inl (i + 1))
        else ret (inr tt)) start;;;
      (if ascii : bool then
         repeat_print (str "   ") end_ 16;;;
         __printf memory (str "|") [];;;
         repeat_print (str " ") 0 start;;;
         loop (fun i =>
           if i <? end_ then
             let! b := lift (access (buf !! Z.to_nat (i - start))) in
             __printf memory (str "%c") [if isprint b then b else 46];;;
             ret (inl (i + 1))
           else ret (inr tt)) start;;;
         repeat_print (str " ") end_ 16;;;
         __printf memory (str "|") []
       else ret tt);;;
      __printf memory [10] [];;;
      ret (inl (u32 (ofs + n), drop (Z.to_nat n) buf))
    else ret (inr tt)) (ofs, buf).

(** The name of a unit is at its address in [factors]. *)
Definition print_human_readable_size (factors : list Z) (size : Z) : PF unit :=
  if size =? 1 then __printf memory (str "1 byte") []
  else
    loop (fun '(size, fp) =>
      match fp with
      | f :: (_ :: _) as rest => if 1024 <=? size then ret (inl (size / 1024, rest)) else
          __printf memory (str "%llu %s") [u32 size; size / 2 ^ 32; f];;; ret (inr tt)
      | [f] => __printf memory (str "%llu %s") [u32 size; size / 2 ^ 32; f];;; ret (inr tt)
      | [] => fail Fault
      end) (size, factors).

End dumps.
End Stdio.
