(* ===== verification/StdioSpec.v ===== *)
(** What formatted output prints: reference definitions for numbers and
    strings, and that the routines print exactly that. *)
From Stdlib Require Import String.
From S2P Require Import Prelude Words CString CStdlib Arith Stdio.
From stdpp Require Import options.

#[local] Open Scope Z_scope.

Module StdioSpec.
Import Stdio.

(** * Reference *)

Definition digit (b : integer_base) (d : Z) : Z := default 0 (b_digits b !! Z.to_nat d).

(** The digits of [v], the first one first, [k] of them to the right; with
    commas between the groups if [grouped]. *)
Fixpoint numeral (fuel : nat) (b : integer_base) (grouped : bool) (v k : Z) : list Z :=
  match fuel with
  | O => []
  | S fuel =>
      if v <=? 0 then []
      else numeral fuel b grouped (v / b_base b) (k + 1) ++
           digit b (v mod b_base b) :: (if grouped && (0 <? k) && (k mod b_group b =? 0) then [44] else [])
  end.

(** A number of 64 bits has at most 22 digits in base 8. *)
Definition number (b : integer_base) (grouped : bool) (v : Z) : list Z := numeral 22 b grouped v 0.

Definition zeros (n : Z) : list Z := replicate (Z.to_nat n) 48.
Definition spaces (n : Z) : list Z := replicate (Z.to_nat n) 32.

(** The digits with the leading zeros that the precision and # ask for. *)
Definition body (v : Z) (b : integer_base) (c : printf_conversion) : list Z :=
  let ds := number b (has (c_flags c) GROUP) v in
  let precision := if c_precision c <? 0 then 1 else c_precision c in
  let ds := zeros (Z.min precision 63 - Z.of_nat (length ds)) ++ ds in
  if has (c_flags c) POUND && (b_base b =? 8) && negb (bool_decide (head ds = Some 48)) then 48 :: ds else ds.

Definition sign_char (is_signed negative : bool) (flags : Z) : list Z :=
  let s := sign_of is_signed negative flags in if s =? 0 then [] else [s].

Definition prefix (v : Z) (b : integer_base) (c : printf_conversion) : list Z :=
  if has (c_flags c) POUND && negb (v =? 0) && negb (b_x b =? 0) then [48; b_x b] else [].

Definition rendered (v : Z) (is_signed negative : bool) (b : integer_base) (c : printf_conversion) : list Z :=
  let s := sign_char is_signed negative (c_flags c) in
  let x := prefix v b c in
  let d := body v b c in
  let pad := c_width c - Z.of_nat (length (s ++ x ++ d)) in
  (if negb (has (c_flags c) MINUS) && negb (has (c_flags c) ZERO) then spaces pad else []) ++ s ++ x ++
  (if has (c_flags c) ZERO then zeros pad else []) ++ d ++
  (if has (c_flags c) MINUS then spaces pad else []).

(** * The loops *)

Lemma wp_output ch (Q : unit -> pf -> Prop) s : Q tt (mkPf (pf_args s) (pf_out s ++ [ch])) -> wp (output ch) Q s.
Proof. intros H. unfold output. by wp_steps. Qed.

Lemma wp_outputs l (Q : unit -> pf -> Prop) s : Q tt (mkPf (pf_args s) (pf_out s ++ l)) -> wp (outputs l) Q s.
Proof. intros H. unfold outputs. by wp_steps. Qed.

Lemma output_dup_spec ch cnt (Q : unit -> pf -> Prop) s : cnt < 2 ^ 33 ->
  Q tt (mkPf (pf_args s) (pf_out s ++ replicate (Z.to_nat cnt) ch)) -> wp (output_dup ch cnt) Q s.
Proof.
  intros Hc HQ. unfold output_dup.
  apply (wp_loop _ (fun k (i : Z) s' => k = Z.to_nat i /\
    s' = mkPf (pf_args s) (pf_out s ++ replicate (Z.to_nat cnt - k) ch) /\ i <= Z.max cnt 0)) with (k := Z.to_nat cnt);
    [|rewrite Nat.sub_diag, app_nil_r; destruct s; split_and!; (done || lia)|lia].
  intros k i s' (-> & -> & Hi). destruct (Z.ltb_spec 0 i) as [Hlt|Hge].
  - apply wp_bind, wp_output. wp_steps. exists (Z.to_nat (i - 1)). split; [lia|]. split_and!; [done| |lia].
    cbn. rewrite <- app_assoc. do 2 f_equal. rewrite <- replicate_S_end. f_equal. lia.
  - wp_steps. replace (Z.to_nat cnt - Z.to_nat i)%nat with (Z.to_nat cnt) by lia. exact HQ.
Qed.

(** The bases that the code uses. *)
Record base_ok (b : integer_base) : Prop := {
  bo_base : 8 <= b_base b;
  bo_digits : b_base b = Z.of_nat (length (b_digits b));
  bo_group : 0 < b_group b;
}.

Lemma bases_ok : base_ok base_d /\ base_ok base_o /\ base_ok base_x /\ base_ok base_X.
Proof. split_and!; split; vm_compute; (reflexivity || discriminate). Qed.

Lemma numeral_length b g v : forall fuel k, (length (numeral fuel b g v k) <= 2 * fuel)%nat.
Proof.
  intros fuel. revert v. induction fuel as [|fuel IH]; intros v k; cbn [numeral]; [done|]. destruct (v <=? 0); [cbn; lia|].
  rewrite length_app. specialize (IH (v / b_base b) (k + 1)). destruct (_ && _); cbn; lia.
Qed.

(** Without commas, [d] digits are enough below [base ^ d]. *)
Lemma numeral_digits b : base_ok b -> forall d fuel v k, v < b_base b ^ Z.of_nat d -> (length (numeral fuel b false v k) <= d)%nat.
Proof.
  intros [Hb _ _]. induction d as [|d IH]; intros [|fuel] v k Hv; cbn [numeral]; try (cbn; lia).
  - rewrite (proj2 (Z.leb_le v 0)); [done|]. cbn in Hv. lia.
  - destruct (Z.leb_spec v 0); [cbn; lia|]. rewrite length_app. cbn [andb length]. specialize (IH fuel (v / b_base b) (k + 1)).
    replace (Z.of_nat (S d)) with (1 + Z.of_nat d) in Hv by lia. rewrite Z.pow_add_r, Z.pow_1_r in Hv by lia.
    pose proof (IH ltac:(apply Z.div_lt_upper_bound; lia)). lia.
Qed.

Lemma push_digits_spec b c v (Q : list Z -> pf -> Prop) s : base_ok b -> 0 <= v < 2 ^ 64 ->
  Q (number b (has (c_flags c) GROUP) v) s -> wp (Stdio.digits_loop b c v) Q s.
Proof.
  intros [Hb Hd Hg] Hv HQ. unfold Stdio.digits_loop. set (g := has (c_flags c) GROUP) in *.
  apply (wp_loop _ (fun k '(v', cp, n) s' => s' = s /\ n = 22 - Z.of_nat k /\ (k <= 22)%nat /\ 0 <= v' < 8 ^ Z.of_nat k /\
    Z.of_nat (length cp) <= 2 * n /\ numeral k b g v' n ++ cp = number b g v)) with (k := 22%nat);
    [|rewrite app_nil_r; split_and!; (done || cbn; lia)|lia].
  intros k [[v' cp] n] s' (-> & Hn & Hk & Hv' & Hlen & E). destruct (Z.ltb_spec 0 v') as [Hlt|Hge].
  - destruct k as [|k]; [cbn in Hv'; lia|]. cbn [numeral] in E. rewrite (proj2 (Z.leb_gt v' 0) Hlt) in E.
    assert (Hm : 0 <= v' mod b_base b < b_base b) by (apply Z.mod_pos_bound; lia).
    destruct (lookup_lt_is_Some_2 (b_digits b) (Z.to_nat (v' mod b_base b))) as [d Hdig]; [lia|].
    assert (Edig : digit b (v' mod b_base b) = d) by (unfold digit; by rewrite Hdig). rewrite Edig, <- app_assoc in E.
    apply wp_bind. set (t := g && (0 <? n) && (n mod b_group b =? 0)) in *.
    assert (Hp : wp (if t then push cp 44 else ret cp) (fun cp' s' => s' = s /\ cp' = (if t then [44] else []) ++ cp) s).
    { destruct t; [unfold push; rewrite (proj2 (Z.ltb_lt _ _)) by lia|]; by wp_steps. }
    eapply wp_mono; [exact Hp|]. intros cp' s' [-> ->]. wp_steps. apply wp_lift. rewrite Hdig. cbn [access wpr]. wp_steps.
    unfold push. rewrite (proj2 (Z.ltb_lt _ _)) by (rewrite length_app; destruct t; cbn; lia). wp_steps.
    assert (Hdv : 0 <= v' / b_base b < 8 ^ Z.of_nat k).
    { split; [apply Z.div_pos; lia|]. apply Z.div_lt_upper_bound; [lia|]. replace (Z.of_nat (S k)) with (1 + Z.of_nat k) in Hv' by lia.
      rewrite Z.pow_add_r in Hv' by lia. pose proof (Z.pow_pos_nonneg 8 (Z.of_nat k) ltac:(lia) ltac:(lia)). nia. }
    exists k. split; [lia|]. split; [done|]. split; [lia|]. split; [lia|]. split; [done|]. split.
    + cbn [length]. rewrite length_app. destruct t; cbn; lia.
    + rewrite <- E. replace (22 - Z.of_nat k) with (n + 1) by lia. destruct t; done.
  - wp_steps. destruct k; cbn [numeral] in E; [by rewrite <- E in HQ|].
    rewrite (proj2 (Z.leb_le v' 0)) in E by lia. by rewrite <- E in HQ.
Qed.

Lemma zeros_loop_spec p cp (Q : list Z -> pf -> Prop) s :
  Q (zeros (Z.min p 63 - Z.of_nat (length cp)) ++ cp) s -> wp (zeros_loop p cp) Q s.
Proof.
  intros HQ. unfold zeros_loop. set (n := Z.to_nat (Z.min p 63 - Z.of_nat (length cp))).
  apply (wp_loop _ (fun k cp' s' => s' = s /\ (k <= n)%nat /\ cp' = replicate (n - k) 48 ++ cp)) with (k := n);
    [|rewrite Nat.sub_diag; by split_and!|lia].
  intros k cp' s' (-> & Hk & ->). rewrite length_app, length_replicate.
  destruct k as [|k].
  - replace (_ && _) with false; [wp_steps; by rewrite Nat.sub_0_r|]. symmetry. apply andb_false_iff. rewrite !Z.ltb_ge. lia.
  - replace (_ && _) with true by (symmetry; apply andb_true_iff; rewrite !Z.ltb_lt; lia).
    unfold push. rewrite (proj2 (Z.ltb_lt _ _)) by (rewrite length_app, length_replicate; lia). wp_steps.
    exists k. split; [lia|]. split_and!; [done|lia|]. replace (n - k)%nat with (S (n - S k)) by lia. done.
Qed.

Lemma has_either f a b : (Z.land f (Z.lor a b) =? 0) = negb (has f a) && negb (has f b).
Proof.
  unfold has. rewrite !negb_involutive, Z.land_lor_distr_r.
  destruct (Z.eqb_spec (Z.land f a) 0) as [E|E], (Z.eqb_spec (Z.land f b) 0) as [E'|E']; cbn;
    [apply Z.eqb_eq|apply Z.eqb_neq..]; rewrite Z.lor_eq_0_iff; tauto.
Qed.

Record conv_ok (c : printf_conversion) : Prop := {
  co_width : 0 <= c_width c < 2 ^ 31;
  co_precision : c_precision c < 2 ^ 31;
}.

Lemma number_length b g v : (length (number b g v) <= 44)%nat.
Proof. apply (numeral_length b g v 22). Qed.

Lemma body_length v b c : (length (body v b c) <= 64)%nat.
Proof.
  unfold body. cbn zeta. set (ds := number _ _ _). assert (Hl : (length ds <= 44)%nat) by apply number_length.
  set (z := zeros _). assert (Hz : (length (z ++ ds) <= 63)%nat) by (subst z; unfold zeros; rewrite length_app, length_replicate; lia).
  destruct (_ && _); cbn [length]; lia.
Qed.

(** Output that is conditional. *)
Lemma wp_output_if (t : bool) (m : PF unit) l (Q : unit -> pf -> Prop) s :
  (forall R : unit -> pf -> Prop, R tt (mkPf (pf_args s) (pf_out s ++ l)) -> wp m R s) ->
  Q tt (mkPf (pf_args s) (pf_out s ++ (if t then l else []))) -> wp (if t then m else ret tt) Q s.
Proof. intros Hm HQ. destruct t; [by apply Hm|]. wp_steps. rewrite app_nil_r in HQ. by destruct s. Qed.

Lemma format_integer_spec v is_signed negative b c (Q : unit -> pf -> Prop) s : base_ok b -> conv_ok c -> 0 <= v < 2 ^ 64 ->
  Q tt (mkPf (pf_args s) (pf_out s ++ rendered v is_signed negative b c)) ->
  wp (format_integer v is_signed negative b c) Q s.
Proof.
  intros Hb [Hw Hp] Hv HQ. unfold format_integer. apply wp_bind, push_digits_spec; [done..|].
  apply wp_bind, zeros_loop_spec. set (cp := zeros _ ++ _).
  assert (Hlen : (length cp <= 63)%nat).
  { subst cp. unfold zeros. rewrite length_app, length_replicate. pose proof (number_length b (has (c_flags c) GROUP) v). lia. }
  assert (Hpush : forall (t : bool) (R : list Z -> pf -> Prop), R (if t then 48 :: cp else cp) s -> wp (if t then push cp 48 else ret cp) R s).
  { intros [] R HR; [unfold push; rewrite (proj2 (Z.ltb_lt _ _)) by lia|]; by wp_steps. }
  apply wp_bind, Hpush. match goal with |- context [outputs ?d] => change d with (body v b c) end.
  pose proof (body_length v b c) as Hbl. set (sign := sign_of _ _ _). set (x := if _ && _ then b_x b else 0).
  set (pad := c_width c - Z.of_nat (length (sign_char is_signed negative (c_flags c) ++ prefix v b c ++ body v b c))).
  match goal with |- context [s32 ?E] => assert (EE : E = pad) end.
  { subst pad sign x. unfold sign_char, prefix. cbn zeta. rewrite !length_app.
    destruct (sign_of _ _ _ =? 0), (has (c_flags c) POUND && negb (v =? 0)), (b_x b =? 0) eqn:Ex; cbn [negb andb length]; rewrite ?Ex; cbn [negb length];
      change (0 =? 0) with true; cbn [negb]; lia. }
  rewrite EE. rewrite s32_small by (subst pad; rewrite !length_app; unfold sign_char, prefix; cbn zeta; repeat case_match; cbn; lia).
  set (pad' := if pad <? 0 then 0 else pad).
  assert (Hpad : Z.to_nat pad' = Z.to_nat pad /\ pad' < 2 ^ 33).
  { subst pad' pad. destruct (Z.ltb_spec (c_width c - Z.of_nat (length (sign_char is_signed negative (c_flags c) ++ prefix v b c ++ body v b c))) 0); lia. }
  destruct Hpad as [Hpn Hpb]. rewrite has_either.
  apply wp_bind, (wp_output_if _ _ (spaces pad)).
  { intros R HR. apply output_dup_spec; [done|]. by rewrite Hpn. }
  apply wp_bind, (wp_output_if _ _ [sign]); [intros R HR; by apply wp_output|].
  apply wp_bind, (wp_output_if _ _ [48; x]).
  { intros R HR. apply wp_bind, wp_output, wp_output. cbn in *. by rewrite <- app_assoc. }
  apply wp_bind, (wp_output_if _ _ (zeros pad)).
  { intros R HR. apply output_dup_spec; [done|]. by rewrite Hpn. }
  apply wp_bind, wp_outputs, (wp_output_if _ _ (spaces pad)).
  { intros R HR. apply output_dup_spec; [done|]. by rewrite Hpn. }
  cbn [pf_out pf_args]. rewrite <- !app_assoc. revert HQ. unfold rendered. cbn zeta. fold pad.
  replace (sign_char is_signed negative (c_flags c)) with (if negb (sign =? 0) then [sign] else []) by (unfold sign_char; fold sign; by destruct (sign =? 0)).
  replace (prefix v b c) with (if negb (x =? 0) then [48; x] else []); [done|].
  subst x. unfold prefix. destruct (has (c_flags c) POUND && negb (v =? 0)); cbn; [by destruct (b_x b =? 0)|done].
Qed.

(** * One conversion of a format string *)

Lemma vprintf_step memory nested fuel rest ch tail c s s1 (Q : unit -> pf -> Prop) : cur rest <> 37 ->
  parse_conversion rest s = Ok ((ch :: tail, c), s1) ->
  wp (convert memory nested ch c) (fun _ => wp (vprintf_loop memory nested fuel tail) Q) s1 ->
  wp (vprintf_loop memory nested (S fuel) (37 :: rest)) Q s.
Proof.
  intros H37 Ep Hw. cbn [vprintf_loop]. change (negb (37 =? 37)) with false. cbv iota. rewrite eqb_false by done.
  apply wp_bind. unfold wp at 1. rewrite Ep. apply wp_bind. exact Hw.
Qed.

Lemma wp_va_word w args out (Q : Z -> pf -> Prop) : Q (u32 w) (mkPf args out) -> wp va_word Q (mkPf (w :: args) out).
Proof. intros HQ. exact HQ. Qed.

Lemma u32_u32 x : u32 (u32 x) = u32 x.
Proof. apply u32_small. pose proof (u32_range x). lia. Qed.

Lemma s32_u32 x : s32 (u32 x) = s32 x.
Proof.
  apply (Atoi.s32_cong _ _ (- (x / 2 ^ 32))). unfold u32. pose proof (Z.div_mod x (2 ^ 32) ltac:(lia)). lia.
Qed.

(** %d and %o of an [int]. *)
Lemma convert_d memory nested c n args out (Q : unit -> pf -> Prop) : conv_ok c -> c_type c = INT -> - 2 ^ 31 <= n < 2 ^ 31 ->
  Q tt (mkPf args (out ++ rendered (Z.abs n) true (n <? 0) base_d c)) ->
  wp (convert memory nested 100 c) Q (mkPf (u32 n :: args) out).
Proof.
  intros Hc Ht Hn HQ. unfold convert, signed_arg. change ((100 =? 100) || (100 =? 105)) with true. cbv iota. rewrite Ht.
  apply wp_bind, wp_bind, wp_va_word. wp_steps. rewrite u32_u32, s32_u32, s32_small by lia.
  replace (u64 (if n <? 0 then - n else n)) with (Z.abs n) by (unfold u64; rewrite Z.mod_small; destruct (Z.ltb_spec n 0); lia).
  apply format_integer_spec; [apply bases_ok|done|lia|exact HQ].
Qed.

Lemma convert_o memory nested c n args out (Q : unit -> pf -> Prop) : conv_ok c -> c_type c = INT ->
  Q tt (mkPf args (out ++ rendered (u32 n) false false base_o c)) ->
  wp (convert memory nested 111 c) Q (mkPf (n :: args) out).
Proof.
  intros Hc Ht HQ. unfold convert, unsigned_arg. change ((111 =? 100) || (111 =? 105)) with false.
  change ((111 =? 111) || (111 =? 117) || (111 =? 120) || (111 =? 88)) with true. change (111 =? 111) with true. cbv iota. rewrite Ht.
  apply wp_bind, wp_va_word. apply format_integer_spec; [apply bases_ok|done| |exact HQ]. pose proof (u32_range n). lia.
Qed.

End StdioSpec.

(** The theorems about formatted output: numbers are read back by [atoi],
    [vsnprintf] stays in its buffer, and a format string that ends in a
    percent sign. *)

Module StdioProps.
Import Stdio StdioSpec.

(** * Numbers *)

(** The number that digits stand for in a base. *)
Definition value_in (base : Z) (ds : list Z) : Z := foldl (fun v c => v * base + (c - 48)) 0 ds.

Lemma value_in_snoc base ds c : value_in base (ds ++ [c]) = value_in base ds * base + (c - 48).
Proof. unfold value_in. by rewrite foldl_app. Qed.

(** Bases whose digits are decimal digits. *)
Definition plain (b : integer_base) : Prop := forall d, 0 <= d < b_base b -> digit b d = 48 + d.

Lemma plain_o_d : plain base_o /\ plain base_d.
Proof.
  split; intros d Hd; cbn in Hd.
  - assert (d ∈ seqZ 0 8) as Hin by (apply elem_of_seqZ; lia). clear Hd. revert d Hin. apply Forall_forall. by vm_compute; repeat constructor.
  - assert (d ∈ seqZ 0 10) as Hin by (apply elem_of_seqZ; lia). clear Hd. revert d Hin. apply Forall_forall. by vm_compute; repeat constructor.
Qed.

Lemma numeral_value b : base_ok b -> plain b -> forall fuel v k, 0 <= v < 8 ^ Z.of_nat fuel ->
  value_in (b_base b) (numeral fuel b false v k) = v /\
  Forall (fun c => 48 <= c < 48 + b_base b) (numeral fuel b false v k) /\ (0 < v -> numeral fuel b false v k <> []).
Proof.
  intros [Hb _ _] Hpl. induction fuel as [|fuel IH]; intros v k Hv; cbn [numeral].
  { cbn in Hv. assert (v = 0) as -> by lia. split_and!; [done|constructor|lia]. }
  destruct (Z.leb_spec v 0) as [Hle|Hgt]; [assert (v = 0) as -> by lia; split_and!; [done|constructor|lia]|].
  replace (Z.of_nat (S fuel)) with (1 + Z.of_nat fuel) in Hv by lia. rewrite Z.pow_add_r in Hv by lia.
  pose proof (Z.pow_pos_nonneg 8 (Z.of_nat fuel) ltac:(lia) ltac:(lia)).
  destruct (IH (v / b_base b) (k + 1)) as (Ev & Hall & _).
  { split; [apply Z.div_pos; lia|]. apply Z.div_lt_upper_bound; [lia|]. nia. }
  cbn [andb]. pose proof (Z.mod_pos_bound v (b_base b) ltac:(lia)). rewrite (Hpl (v mod b_base b)) by lia. split_and!.
  - rewrite value_in_snoc, Ev. pose proof (Z.div_mod v (b_base b) ltac:(lia)). lia.
  - apply Forall_app. split; [done|]. constructor; [lia|constructor].
  - intros _ E. by apply app_nil in E as [_ ?].
Qed.

(** A number of 64 bits. *)
Lemma number_value b v : base_ok b -> plain b -> 0 <= v < 2 ^ 64 ->
  value_in (b_base b) (number b false v) = v /\ Forall (fun c => 48 <= c < 48 + b_base b) (number b false v) /\
  (0 < v -> number b false v <> []).
Proof. intros Hb Hpl Hv. apply (numeral_value b Hb Hpl 22). cbn. lia. Qed.

(** Leading zeros do not count. *)
Lemma value_in_zeros base n ds : value_in base (zeros n ++ ds) = value_in base ds.
Proof. unfold value_in, zeros. rewrite foldl_app. f_equal. induction (Z.to_nat n) as [|k IH]; [done|exact IH]. Qed.

(** * The buffer *)

Lemma list_inserts_snoc (l dest : list Z) (x : Z) : forall i,
  <[(i + length l)%nat := x]> (list_inserts i l dest) = list_inserts i (l ++ [x]) dest.
Proof.
  induction l as [|y l IH]; intros i; cbn [length app list_inserts]; [by rewrite Nat.add_0_r|].
  rewrite <- IH, list_insert_insert_ne by lia. do 2 f_equal; lia.
Qed.

Lemma helper_write ch dest p n max : (0 < p < length dest)%nat -> n < max ->
  vsnprintf_helper ch (dest, mkAux p n max) = Ok (tt, (<[p := ch]> dest, mkAux (S p) (s32 (n + 1)) max)).
Proof.
  intros Hp Hn. destruct (lookup_lt_is_Some_2 dest p) as [y Hy]; [lia|]. unfold vsnprintf_helper, bind, gets. cbn [id x_length x_max_length x_p].
  rewrite (proj2 (Z.ltb_lt n max) Hn). unfold lift, CString.store. rewrite (CString.load_Some dest p y) by (done || lia). done.
Qed.

Lemma helper_skip ch dest p n max : max <= n ->
  vsnprintf_helper ch (dest, mkAux p n max) = Ok (tt, (dest, mkAux p (s32 (n + 1)) max)).
Proof. intros Hn. unfold vsnprintf_helper, bind, gets. cbn [id x_length x_max_length x_p]. by rewrite (proj2 (Z.ltb_ge n max) Hn). Qed.

Lemma helper_loop_spec max : forall out dest p n, (0 < p)%nat -> 0 <= n -> n + Z.of_nat (length out) < 2 ^ 31 ->
  Z.of_nat p + (max - n) <= Z.of_nat (length dest) ->
  helper_loop out (dest, mkAux p n max) =
  Ok (tt, (list_inserts p (take (Z.to_nat (max - n)) out) dest,
           mkAux (p + Nat.min (Z.to_nat (max - n)) (length out)) (n + Z.of_nat (length out)) max)).
Proof.
  induction out as [|ch out IH]; intros dest p n Hp Hn Hlen Hd; cbn [helper_loop].
  { rewrite take_nil. cbn [length list_inserts]. by rewrite Nat.min_0_r, Nat.add_0_r, Z.add_0_r. }
  unfold bind. cbn [length] in *. destruct (Z.lt_ge_cases n max) as [Hlt|Hge].
  - rewrite helper_write, s32_small by lia. rewrite (IH (<[p := ch]> dest) (S p) (n + 1)); [|lia|lia|lia|rewrite length_insert; lia].
    replace (Z.to_nat (max - n)) with (S (Z.to_nat (max - (n + 1)))) by lia. cbn [take list_inserts].
    rewrite list_insert_inserts_lt by lia. do 3 f_equal. f_equal; lia.
  - rewrite helper_skip, s32_small by lia. rewrite IH by lia. replace (Z.to_nat (max - n)) with 0%nat by lia.
    replace (Z.to_nat (max - (n + 1))) with 0%nat by lia. rewrite !take_0. do 3 f_equal. f_equal; lia.
Qed.

(** A string that was stored. *)
Lemma cstr_inserts dest p l : (0 < p)%nat -> Forall (fun c => 0 < c < 2 ^ 8) l -> (p + length (l ++ [0%Z]) <= length dest)%nat ->
  CString.cstr (list_inserts p (l ++ [0]) dest) p l.
Proof.
  intros Hp Hl Hd. rewrite length_app in Hd. cbn in Hd. split; [done| |].
  - intros i b Hi. split; [exact (Forall_lookup_1 _ _ _ _ Hl Hi)|]. apply lookup_lt_Some in Hi as Hlt.
    rewrite list_lookup_inserts by (rewrite ?length_app; cbn; lia). rewrite lookup_app_l by lia. rewrite <- Hi. f_equal. lia.
  - rewrite list_lookup_inserts by (rewrite ?length_app; cbn; lia). rewrite lookup_app_r by lia.
    by replace (p + length l - p - length l)%nat with 0%nat by lia.
Qed.

(** The buffer afterwards. *)
Definition buffer_with (dest : list Z) (buffer : nat) (buf_size : Z) (out : list Z) : list Z :=
  if 0 <? buf_size then list_inserts buffer (take (Z.to_nat (buf_size - 1)) out ++ [0]) dest else dest.

Lemma vsnprintf_out memory dest buffer buf_size format args s : (0 < buffer)%nat -> 0 <= buf_size < 2 ^ 31 ->
  Z.of_nat buffer + buf_size <= Z.of_nat (length dest) ->
  __vprintf memory format (mkPf args []) = Ok (tt, s) -> Z.of_nat (length (pf_out s)) < 2 ^ 31 ->
  vsnprintf memory dest buffer buf_size format args =
    Ok (Z.of_nat (length (pf_out s)), buffer_with dest buffer buf_size (pf_out s)).
Proof.
  intros Hb Hs Hd E Hout. unfold vsnprintf. rewrite E. cbn [rbind]. set (max := if 0 <? buf_size then buf_size - 1 else 0).
  assert (Hmax : 0 <= max <= buf_size /\ (0 < buf_size -> max = buf_size - 1)) by (subst max; destruct (Z.ltb_spec 0 buf_size); lia).
  rewrite (s32_small max) by lia. rewrite helper_loop_spec by lia. cbn [rbind x_p x_length]. rewrite Z.sub_0_r. unfold buffer_with.
  destruct (Z.ltb_spec 0 buf_size) as [Hpos|Hz].
  - rewrite (proj2 Hmax Hpos). unfold CString.store. set (out := take _ (pf_out s)).
    assert (Hlo : length out = Nat.min (Z.to_nat (buf_size - 1)) (length (pf_out s))) by (subst out; by rewrite length_take).
    rewrite <- Hlo. destruct (lookup_lt_is_Some_2 (list_inserts buffer out dest) (buffer + length out)) as [y Hy].
    { rewrite length_inserts. lia. }
    rewrite (CString.load_Some _ _ y) by (done || lia). cbn [rbind]. do 2 f_equal. by rewrite list_inserts_snoc.
  - assert (max = 0) as -> by lia. rewrite take_0. done.
Qed.

(** [vsnprintf] stores the output in the buffer, cut to the room there is
    and always terminated, returns the length of the whole output, and
    changes no byte outside the buffer. *)
Theorem vsnprintf_bounded memory dest buffer buf_size format args s : (0 < buffer)%nat -> 0 <= buf_size < 2 ^ 31 ->
  Z.of_nat buffer + buf_size <= Z.of_nat (length dest) ->
  __vprintf memory format (mkPf args []) = Ok (tt, s) -> Z.of_nat (length (pf_out s)) < 2 ^ 31 ->
  exists dest', vsnprintf memory dest buffer buf_size format args = Ok (Z.of_nat (length (pf_out s)), dest') /\
    (0 < buf_size -> let n := Nat.min (Z.to_nat (buf_size - 1)) (length (pf_out s)) in
       dest' !! (buffer + n)%nat = Some 0 /\ forall i, (i < n)%nat -> dest' !! (buffer + i)%nat = pf_out s !! i) /\
    (forall j, (j < buffer)%nat \/ Z.of_nat buffer + buf_size <= Z.of_nat j -> dest' !! j = dest !! j).
Proof.
  intros Hb Hs Hd E Hout. eexists. split; [by apply vsnprintf_out|]. unfold buffer_with. split.
  - intros Hpos. set (n := Nat.min _ (length (pf_out s))). rewrite (proj2 (Z.ltb_lt 0 buf_size) Hpos). set (out := take _ (pf_out s)).
    assert (Hn : length out = n) by (subst out; by rewrite length_take).
    split.
    + rewrite list_lookup_inserts by (rewrite ?length_app, ?Hn; cbn; lia). rewrite lookup_app_r by lia.
      replace (buffer + n - buffer - length out)%nat with 0%nat by lia. done.
    + intros i Hi. rewrite list_lookup_inserts by (rewrite ?length_app, ?Hn; cbn; lia). rewrite lookup_app_l by lia.
      subst out. rewrite lookup_take_lt by lia. f_equal. lia.
  - intros j Hj. destruct (Z.ltb_spec 0 buf_size); [|done]. destruct Hj as [Hj|Hj].
    + apply list_lookup_inserts_lt. done.
    + apply list_lookup_inserts_ge. rewrite length_app, length_take. cbn. lia.
Qed.

(** * %d *)

Definition conv_d : printf_conversion := mkConv 0 0 (-1) INT.

Lemma parse_d s : parse_conversion [100] s = Ok (([100], conv_d), s).
Proof. reflexivity. Qed.

(** What %d prints. *)
Definition printed_d (n : Z) : list Z :=
  (if n <? 0 then [45] else []) ++ (if n =? 0 then [48] else number base_d false (Z.abs n)).

Lemma rendered_d n : - 2 ^ 31 <= n < 2 ^ 31 ->
  rendered (Z.abs n) true (n <? 0) base_d conv_d = printed_d n.
Proof.
  intros Hn. unfold rendered, printed_d, prefix, sign_char, body. cbn [c_flags c_width c_precision conv_d].
  change (has 0 MINUS) with false. change (has 0 ZERO) with false. change (has 0 POUND) with false. change (has 0 GROUP) with false.
  cbn [negb andb]. replace (sign_of true (n <? 0) 0) with (if n <? 0 then 45 else 0) by done.
  set (pad := 0 - _). assert (Hpad : pad <= 0) by lia. unfold spaces. replace (Z.to_nat pad) with 0%nat by lia. cbn [replicate app].
  rewrite app_nil_r. change (-1 <? 0) with true. cbv iota. f_equal; [by destruct (n <? 0)|].
  destruct (Z.eqb_spec n 0) as [->|Hne]; [done|].
  destruct (number_value base_d (Z.abs n)) as (_ & _ & Hnil); [apply bases_ok|apply plain_o_d|lia|].
  destruct (number base_d false (Z.abs n)) as [|c l]; [by destruct (Hnil ltac:(lia))|].
  unfold zeros. rewrite (proj2 (Z2Nat.inj_iff _ 0 _ _)) || replace (Z.to_nat (Z.min 1 63 - Z.of_nat (length (c :: l)))) with 0%nat by (cbn; lia).
  done.
Qed.

Lemma vprintf_d memory n : - 2 ^ 31 <= n < 2 ^ 31 ->
  exists s, __vprintf memory (str "%d") (mkPf [u32 n] []) = Ok (tt, s) /\ pf_out s = printed_d n.
Proof.
  intros Hn. assert (Hw : wp (__vprintf memory (str "%d")) (fun _ s => pf_out s = printed_d n) (mkPf [u32 n] [])).
  { unfold __vprintf. cbn [vprintf_at]. change (str "%d") with [37; 100]. cbn [length].
    eapply (vprintf_step _ _ _ [100] 100 [] conv_d); [done|apply parse_d|].
    apply convert_d; [by split|done|done|]. rewrite rendered_d by done. by wp_steps. }
  apply wp_ok in Hw as ([] & s & E & H). by exists s.
Qed.

(** The printed digits, and no other characters. *)
Lemma printed_d_shape n : - 2 ^ 31 <= n < 2 ^ 31 -> exists sg ds, printed_d n = Atoi.sign_chars sg ++ ds /\
  Forall (fun c => CStdlib.isdigit c = true) ds /\ ds <> [] /\ Atoi.apply_sign sg (Atoi.decimal ds) = n /\ (length ds <= 10)%nat.
Proof.
  intros Hn. destruct (number_value base_d (Z.abs n)) as (Ev & Hall & Hnil); [apply bases_ok|apply plain_o_d|lia|].
  exists (if n <? 0 then Atoi.Minus else Atoi.NoSign), (if n =? 0 then [48] else number base_d false (Z.abs n)).
  unfold printed_d. split; [by destruct (n <? 0)|]. destruct (Z.eqb_spec n 0) as [->|Hne].
  { split_and!; [by repeat constructor|done|done|cbn; lia]. }
  split; [|split; [apply Hnil; lia|]].
  - eapply Forall_impl; [exact Hall|]. intros c Hc. cbn in Hc. unfold CStdlib.isdigit. apply andb_true_iff. rewrite !Z.leb_le. lia.
  - split; [|apply numeral_digits; [apply bases_ok|cbn; lia]]. change (Atoi.decimal ?l) with (value_in 10 l). change 10 with (b_base base_d). rewrite Ev.
    destruct (Z.ltb_spec n 0); cbn; lia.
Qed.

(** A number printed with %d is read back by [atoi]: for every [int] and a
    buffer of at least 12 bytes, [atoi] of what [snprintf] stored is the
    number. *)
Theorem snprintf_atoi memory dest buffer buf_size n : - 2 ^ 31 <= n < 2 ^ 31 -> (0 < buffer)%nat -> 12 <= buf_size < 2 ^ 31 ->
  Z.of_nat buffer + buf_size <= Z.of_nat (length dest) ->
  exists len dest', snprintf memory dest buffer buf_size (str "%d") [u32 n] = Ok (len, dest') /\ CStdlib.atoi dest' buffer = Ok n.
Proof.
  intros Hn Hb Hs Hd. destruct (vprintf_d memory n Hn) as (s & E & Eo). destruct (printed_d_shape n Hn) as (sg & ds & Ep & Hds & Hnil & Hv & Hlen).
  assert (Hl : (length (printed_d n) <= 11)%nat) by (rewrite Ep, length_app; destruct sg; cbn; lia).
  exists (Z.of_nat (length (pf_out s))), (buffer_with dest buffer buf_size (pf_out s)). split; [apply vsnprintf_out; (done || rewrite ?Eo; lia)|].
  rewrite Eo. unfold buffer_with. rewrite (proj2 (Z.ltb_lt 0 buf_size)) by lia. rewrite take_ge by lia.
  destruct (Atoi.atoi_correct (list_inserts buffer (printed_d n ++ [0]) dest) buffer [] ds [] sg) as [_ Ha]; [|constructor|done|done|done|].
  - rewrite app_nil_l, app_nil_r, <- Ep. apply cstr_inserts; [done| |rewrite length_app; cbn; lia].
    rewrite Ep. apply Forall_app. split; [by destruct sg; repeat constructor|]. eapply Forall_impl; [exact Hds|].
    intros c Hc%andb_true_iff. rewrite !Z.leb_le in Hc. lia.
  - rewrite Hv in Ha. by apply Ha.
Qed.

Lemma vsnprintf_bounded_witness : exists dest', vsnprintf [0] (replicate 20 1) 1 5 (str "%d") [123456] = Ok (6, dest') /\
  dest' !! 5%nat = Some 0.
Proof.
  destruct (vsnprintf_bounded [0] (replicate 20 1) 1 5 (str "%d") [123456] (mkPf [] (str "123456"))) as (d & E & H & _).
  - lia.
  - lia.
  - vm_compute. discriminate.
  - vm_compute. reflexivity.
  - vm_compute. reflexivity.
  - exists d. split; [exact E|]. exact (proj1 (H ltac:(lia))).
Defined.

Lemma snprintf_atoi_witness : exists len dest', snprintf [0] (replicate 20 1) 1 12 (str "%d") [u32 (-42)] = Ok (len, dest') /\
  CStdlib.atoi dest' 1 = Ok (-42).
Proof.
  apply (snprintf_atoi [0] (replicate 20 1) 1 12 (-42)).
  - lia.
  - lia.
  - lia.
  - vm_compute. discriminate.
Defined.

(** * The end of the format string *)

(** [__printf] of a message inside [__vprintf]. *)
Definition inner (memory : list Z) (message : list Z) (ch : Z) : PF unit :=
  let! args := gets pf_args in
  modify (fun s => mkPf [ch] (pf_out s));;;
  vprintf_at memory 0 message;;;
  modify (fun s => mkPf args (pf_out s)).

Lemma last_percent memory fuel args out : vprintf_loop memory (inner memory) (S fuel) [37] (mkPf args out) = Err Fault.
Proof. vm_compute. reflexivity. Qed.

Lemma vprintf_literal memory format : Forall (fun c => c <> 37) format -> forall fuel args out,
  (length format < fuel)%nat -> vprintf_loop memory (inner memory) fuel (format ++ [37]) (mkPf args out) = Err Fault.
Proof.
  induction 1 as [|c format Hc _ IH]; intros [|fuel] args out Hf; cbn [length] in Hf; [lia|apply last_percent|lia|].
  cbn [app vprintf_loop]. rewrite eqb_false by done. cbn [negb]. unfold bind, output, modify. cbn. apply IH. lia.
Qed.

(** A format string that ends in a percent sign is read past its end: the
    conversion is reported as unknown, and the loop then steps over the
    null character. *)
Theorem vprintf_trailing_percent memory format args out : Forall (fun c => c <> 37) format ->
  __vprintf memory (format ++ [37]) (mkPf args out) = Err Fault.
Proof. intros H. unfold __vprintf. cbn [vprintf_at]. apply vprintf_literal; [done|]. rewrite length_app. lia. Qed.

Lemma vprintf_trailing_percent_witness : __vprintf [0] (str "100%") (mkPf [] []) = Err Fault.
Proof. apply (vprintf_trailing_percent [0] (str "100") [] []). by vm_compute; repeat constructor. Defined.

End StdioProps.
