(* ===== verification/Ustar.v ===== *)
(** Archive headers in the ustar format (src/src/lib/ustar.c).

    A header is 512 bytes at address [HEADER] of a memory of its own; file
    names and string literals are given by their characters, and are copied
    into the header from a place behind it. *)
From Stdlib Require Import String.
From S2P Require Import Prelude Words CString CStdlib Arith Stdio.
From stdpp Require Import options.

#[local] Open Scope Z_scope.

Module Ustar.
Import Stdio.

Definition USTAR_HEADER_SIZE : nat := 512.
Definition USTAR_REGULAR : Z := 48.
Definition USTAR_DIRECTORY : Z := 53.
Definition USTAR_EOF : Z := -1.

Definition HEADER : nat := 1.

(** The fields: their addresses and sizes. *)
Definition h_name : nat := HEADER.
Definition h_mode : nat := HEADER + 100.
Definition h_uid : nat := HEADER + 108.
Definition h_gid : nat := HEADER + 116.
Definition h_size : nat := HEADER + 124.
Definition h_mtime : nat := HEADER + 136.
Definition h_chksum : nat := HEADER + 148.
Definition h_typeflag : nat := HEADER + 156.
Definition h_magic : nat := HEADER + 257.
Definition h_version : nat := HEADER + 263.
Definition h_uname : nat := HEADER + 265.
Definition h_gname : nat := HEADER + 297.
Definition h_prefix : nat := HEADER + 345.

(** [n] more bytes from [i] on. *)
Fixpoint chksum_loop (n : nat) (h : list Z) (i : nat) (chksum : Z) : res Z :=
  match n with
  | O => Ok chksum
  | S n =>
      let* b := CString.load h (HEADER + i) in
      let in_chksum_field := (148 <=? i)%nat && (i <? 148 + 8)%nat in
      chksum_loop n h (S i) (u32 (chksum + (if in_chksum_field then 32 else b)))
  end.
Definition calculate_chksum (h : list Z) : res Z := chksum_loop USTAR_HEADER_SIZE h 0 0.

(** [memcmp] of a string with the first characters of a literal. *)
Fixpoint starts_with (s lit : list Z) : bool :=
  match lit, s with
  | [], _ => true
  | c :: lit, d :: s => (c =? d) && starts_with s lit
  | _, [] => false
  end.

(** What follows the first slash, [strchr (s, '/') + 1]. *)
Fixpoint after_slash (s : list Z) : list Z :=
  match s with
  | [] => []
  | c :: s => if c =? 47 then s else after_slash s
  end.

Definition antisocial (s : list Z) : bool :=
  (cur s =? 47) || starts_with s (str "./") || starts_with s (str "../").

Fixpoint strip_loop (fuel : nat) (s : list Z) : list Z :=
  match fuel with
  | O => s
  | S fuel => if antisocial s then strip_loop fuel (after_slash s) else s
  end.

Definition strip_antisocial_prefixes (file_name : list Z) : list Z :=
  let s := strip_loop (length file_name) file_name in
  if bool_decide (s = []) || bool_decide (s = str "..") then str "." else s.

(** [strlcpy] of a string that is not in the header. *)
Definition strlcpy_from (h : list Z) (dst : nat) (src : list Z) (size : nat) : res (list Z) :=
  let* (m, _) := CString.strlcpy (h ++ src ++ [0]) dst (length h) size in
  Ok (take (length h) m).

Definition snprintf_to (h : list Z) (dst : nat) (size : Z) (format : list Z) (arg : Z) : res (list Z) :=
  let* (_, h) := snprintf [] h dst size format [arg] in Ok h.

(** The header that it makes, or [None] for a name that is too long. *)
Definition ustar_make_header (file_name : list Z) (type size : Z) (h : list Z) : res (option (list Z)) :=
  check (type =? USTAR_REGULAR) || (type =? USTAR_DIRECTORY) in
  let file_name := strip_antisocial_prefixes file_name in
  if (99 <? length file_name)%nat then Ok None
  else
    let* (h, _) := CString.memset h HEADER 0 USTAR_HEADER_SIZE in
    let* h := strlcpy_from h h_name file_name 100 in
    let* h := snprintf_to h h_mode 8 (str "%07o") (if type =? USTAR_REGULAR then 420 else 493) in
    let* h := strlcpy_from h h_uid (str "0000000") 8 in
    let* h := strlcpy_from h h_gid (str "0000000") 8 in
    let* h := snprintf_to h h_size 12 (str "%011o") (u32 size) in
    let* h := snprintf_to h h_mtime 12 (str "%011o") 1136102400 in
    let* h := CString.store h h_typeflag (u8 type) in
    let* h := strlcpy_from h h_magic (str "ustar") 6 in
    let* h := CString.store h (S h_version) 48 in
    let* h := CString.store h h_version 48 in
    let* h := strlcpy_from h h_gname (str "root") 32 in
    let* h := strlcpy_from h h_uname (str "root") 32 in
    let* chksum := calculate_chksum h in
    let* h := snprintf_to h h_chksum 8 (str "%07o") chksum in
    Ok (Some h).

(** [None] for a bad field. *)
Fixpoint parse_octal_loop (n : nat) (h : list Z) (s ofs : nat) (value : Z) : res (option Z) :=
  match n with
  | O => Ok None
  | S n =>
      let* c := CString.load h (s + ofs) in
      if (48 <=? c) && (c <=? 55) then
        if (2 ^ 32 - 1) / 8 <? value then Ok None
        else parse_octal_loop n h s (S ofs) (c - 48 + value * 8)
      else if (c =? 32) || (c =? 0) then Ok (if (0 <? ofs)%nat then Some value else None)
      else Ok None
  end.
Definition parse_octal_field (h : list Z) (s size : nat) : res (option Z) := parse_octal_loop size h s 0 0.

Fixpoint is_all_zeros (n : nat) (h : list Z) (block : nat) : res bool :=
  match n with
  | O => Ok true
  | S n => let* b := CString.load h block in if negb (b =? 0) then Ok false else is_all_zeros n h (S block)
  end.

Inductive parsed :=
| Parsed (file_name : option (list Z)) (type size : Z)
| Invalid (message : list Z).

(** The characters of the string at [p]. *)
Definition string_at (h : list Z) (p : nat) : res (list Z) :=
  let* n := CString.strlen h p in Ok (take n (drop p h)).

(** [memcmp] of the magic bytes, the null character included. *)
Definition magic_ok (h : list Z) : res bool :=
  let* r := CString.memcmp (h ++ str "ustar" ++ [0]) h_magic (length h) 6 in Ok (r =? 0).

Definition parse_entry (h : list Z) (typeflag size_ul : Z) : res parsed :=
  let* name := string_at h h_name in
  Ok (Parsed (Some (strip_antisocial_prefixes name)) typeflag (s32 size_ul)).

Definition ustar_parse_header (h : list Z) : res parsed :=
  let* z := is_all_zeros USTAR_HEADER_SIZE h HEADER in
  if z : bool then Ok (Parsed None USTAR_EOF 0)
  else
    let* magic := magic_ok h in
    if negb magic then Ok (Invalid (str "not a ustar archive"))
    else
      let* v0 := CString.load h h_version in
      let* v1 := CString.load h (S h_version) in
      if negb (v0 =? 48) || negb (v1 =? 48) then Ok (Invalid (str "invalid ustar version"))
      else
        let* c := parse_octal_field h h_chksum 8 in
        match c with
        | None => Ok (Invalid (str "corrupt chksum field"))
        | Some chksum =>
            let* sum := calculate_chksum h in
            if negb (chksum =? sum) then Ok (Invalid (str "checksum mismatch"))
            else
              let* last := CString.load h (h_name + 99) in
              let* prefix := CString.load h h_prefix in
              if negb (last =? 0) || negb (prefix =? 0) then Ok (Invalid (str "file name too long"))
              else
                let* typeflag := CString.load h h_typeflag in
                if negb (typeflag =? USTAR_REGULAR) && negb (typeflag =? USTAR_DIRECTORY)
                then Ok (Invalid (str "unimplemented file type"))
                else if typeflag =? USTAR_REGULAR then
                  let* z := parse_octal_field h h_size 12 in
                  match z with
                  | None => Ok (Invalid (str "corrupt file size field"))
                  | Some size_ul =>
                      if 2 ^ 31 - 1 <? size_ul then Ok (Invalid (str "file too large"))
                      else parse_entry h typeflag size_ul
                  end
                else parse_entry h typeflag 0
        end.

End Ustar.

(** An archive header that is made can be parsed again. *)
From S2P Require Import StdioSpec.

Module UstarProps.
Import Stdio StdioSpec StdioProps Ustar.
Implicit Types (h : list Z) (l : list Z) (p q i k : nat).

Abbreviation byte c := (0 <= c < 2 ^ 8).

(** * Headers *)

(** 512 bytes, from address 1 on. *)
Record header h : Prop := {
  hd_len : length h = 513%nat;
  hd_byte : forall k b, (1 <= k)%nat -> h !! k = Some b -> byte b;
}.

(** The bytes [l] are at [p]. *)
Definition field h p l : Prop := forall i c, l !! i = Some c -> h !! (p + i)%nat = Some c.

Lemma lookup_inserts h p l k : (k < length h)%nat ->
  list_inserts p l h !! k = if decide (p <= k < p + length l)%nat then l !! (k - p)%nat else h !! k.
Proof.
  intros Hk. case_decide; [by apply list_lookup_inserts|]. destruct (decide (k < p)%nat); [by apply list_lookup_inserts_lt|].
  apply list_lookup_inserts_ge. lia.
Qed.

Lemma header_inserts h p l : header h -> (p + length l <= 513)%nat -> Forall (fun c => byte c) l -> header (list_inserts p l h).
Proof.
  intros [Hl Hb] Hp Hall. split; [by rewrite length_inserts|]. intros k b Hk Hlk.
  assert (Hlt : (k < length h)%nat) by (apply lookup_lt_Some in Hlk; by rewrite length_inserts in Hlk).
  rewrite lookup_inserts in Hlk by done. case_decide; [|by apply (Hb k)]. exact (Forall_lookup_1 _ _ _ _ Hall Hlk).
Qed.

Lemma field_same h p l : (p + length l <= length h)%nat -> field (list_inserts p l h) p l.
Proof.
  intros Hp i c Hi. apply lookup_lt_Some in Hi as Hlt. rewrite lookup_inserts by lia. rewrite decide_True by lia.
  by replace (p + i - p)%nat with i by lia.
Qed.

Lemma field_other h p l q l' : (q + length l' <= p \/ p + length l <= q)%nat -> field h p l -> field (list_inserts q l' h) p l.
Proof.
  intros Hd Hf i c Hi. apply lookup_lt_Some in Hi as Hlt. pose proof (Hf i c Hi) as Hp. apply lookup_lt_Some in Hp as Hlt'.
  rewrite lookup_inserts by done. by rewrite decide_False by lia.
Qed.

Lemma field_load h p l i c : (0 < p)%nat -> field h p l -> l !! i = Some c -> CString.load h (p + i) = Ok c.
Proof. intros Hp Hf Hi. apply CString.load_Some; [lia|by apply Hf]. Qed.

Lemma field_cstr h p l : (0 < p)%nat -> Forall (fun c => 0 < c < 2 ^ 8) l -> field h p (l ++ [0]) -> CString.cstr h p l.
Proof.
  intros Hp Hl Hf. split; [done| |].
  - intros i b Hi. split; [exact (Forall_lookup_1 _ _ _ _ Hl Hi)|]. apply Hf. apply lookup_app_l_Some, Hi.
  - apply Hf. by rewrite lookup_app_r, Nat.sub_diag.
Qed.

(** * The steps of [ustar_make_header] *)

Lemma strlcpy_from_spec h dst src size : (0 < dst)%nat -> (0 < size)%nat -> (dst + size <= length h)%nat ->
  Forall (fun c => 0 < c < 2 ^ 8) src ->
  strlcpy_from h dst src size = Ok (list_inserts dst (take (size - 1) src ++ [0]) h).
Proof.
  intros Hd Hs Hl Hsrc. unfold strlcpy_from. set (m := h ++ src ++ [0]).
  assert (Hc : CString.cstr m (length h) src).
  { apply field_cstr; [lia|done|]. intros i c Hi. subst m. by rewrite lookup_app_r, Nat.add_comm, Nat.add_sub by lia. }
  destruct (CString.strlcpy_correct m dst (length h) size src) as (m' & -> & Hlen & Hcs & Hrest); [done|done| |lia|].
  { split; [done|]. subst m. rewrite !length_app. lia. }
  cbn [rbind]. f_equal. apply list_eq. intros k. destruct (decide (k < length h)%nat) as [Hk|Hk]; cycle 1.
  { rewrite lookup_take_ge by lia. symmetry. apply lookup_ge_None. rewrite length_inserts. lia. }
  rewrite lookup_take_lt by done. rewrite lookup_inserts by done. set (t := take (size - 1) src) in *.
  assert (Ht : length t = Nat.min (size - 1) (length src)) by (subst t; by rewrite length_take).
  rewrite length_app. cbn [length]. case_decide as Hr.
  - destruct Hcs as [_ Hch Hend]. destruct (decide (k = dst + length t)%nat) as [->|Hne].
    + rewrite Hend. by rewrite lookup_app_r, Nat.add_comm, Nat.add_sub, Nat.sub_diag by lia.
    + destruct (lookup_lt_is_Some_2 t (k - dst)) as [c Hcc]; [lia|]. rewrite lookup_app_l by lia. rewrite Hcc.
      destruct (Hch _ _ Hcc) as [_ <-]. f_equal. lia.
  - rewrite Hrest by lia. subst m. by rewrite lookup_app_l.
Qed.

(** [w] octal digits. *)
Definition conv_oct (w : Z) : printf_conversion := mkConv ZERO w (-1) INT.
Definition oct (w v : Z) : list Z := rendered v false false base_o (conv_oct w).

Lemma oct_shape w v : 0 < w < 2 ^ 31 -> 0 <= v < 8 ^ w -> v < 2 ^ 64 ->
  Z.of_nat (length (oct w v)) = w /\ Forall (fun c => 48 <= c < 56) (oct w v) /\ value_in 8 (oct w v) = v.
Proof.
  intros Hw Hv Hv64. unfold oct, rendered, sign_char, prefix, body. cbn [c_flags c_width c_precision conv_oct b_x base_o].
  change (has ZERO MINUS) with false. change (has ZERO ZERO) with true. change (has ZERO POUND) with false. change (has ZERO GROUP) with false.
  change (sign_of false false ZERO) with 0. change (0 =? 0) with true. change (-1 <? 0) with true. cbn [negb andb app]. rewrite app_nil_r.
  destruct (number_value base_o v) as (Ev & Hall & Hnil); [apply bases_ok|apply plain_o_d|lia|]. set (ds := number base_o false v) in *.
  assert (Hds : (length ds <= Z.to_nat w)%nat).
  { apply numeral_digits; [apply bases_ok|]. cbn. rewrite Z2Nat.id by lia. lia. }
  assert (Hz : forall n, Forall (fun c => 48 <= c < 56) (zeros n)).
  { intros n. unfold zeros. apply Forall_replicate. lia. }
  set (z1 := zeros (Z.min 1 63 - Z.of_nat (length ds))).
  assert (Hz1 : (length (z1 ++ ds) <= Z.to_nat w)%nat) by (subst z1; unfold zeros; rewrite length_app, length_replicate; lia).
  split_and!.
  - unfold zeros. rewrite length_app, length_replicate. lia.
  - apply Forall_app. split; [apply Hz|]. apply Forall_app. split; [apply Hz|]. exact Hall.
  - rewrite value_in_zeros. subst z1. by rewrite value_in_zeros.
Qed.

Lemma snprintf_to_oct h dst format rest w v : format = 37 :: rest -> cur rest <> 37 ->
  (forall s, parse_conversion rest s = Ok (([111], conv_oct w), s)) ->
  0 < w < 2 ^ 30 -> 0 <= v < 8 ^ w -> v < 2 ^ 32 -> (0 < dst)%nat -> Z.of_nat dst + w + 1 <= Z.of_nat (length h) ->
  snprintf_to h dst (w + 1) format v = Ok (list_inserts dst (oct w v ++ [0]) h).
Proof.
  intros -> Hr Hp Hw Hv Hv32 Hd Hl. destruct (oct_shape w v) as (Hlen & _ & _); [lia|lia|lia|].
  assert (Hw1 : wp (__vprintf [] (37 :: rest)) (fun _ s => pf_out s = oct w v) (mkPf [v] [])).
  { unfold __vprintf. cbn [vprintf_at]. eapply vprintf_step; [done|apply Hp|]. apply convert_o; [split; cbn; lia|done|].
    rewrite u32_small by lia. change (length (37 :: rest)) with (S (length rest)). by wp_steps. }
  apply wp_ok in Hw1 as ([] & s & E & Eo). unfold snprintf_to, snprintf.
  rewrite (vsnprintf_out [] h dst (w + 1) _ _ s); [|done|lia|lia|done|rewrite Eo; lia]. cbn [rbind]. f_equal.
  unfold buffer_with. rewrite (proj2 (Z.ltb_lt 0 (w + 1))) by lia. rewrite Eo, take_ge by lia. done.
Qed.

Lemma memset_loop_spec v n : forall h dst, (0 < dst)%nat -> (dst + n <= length h)%nat ->
  CString.memset_loop n h dst v = Ok (list_inserts dst (replicate n (u8 v)) h).
Proof.
  induction n as [|n IH]; intros h dst Hd Hl; cbn [CString.memset_loop]; [done|].
  rewrite CString.store_in by lia. cbn [rbind]. rewrite IH by (rewrite ?length_insert; lia). cbn [replicate list_inserts].
  by rewrite list_insert_inserts_lt by lia.
Qed.

Lemma header_load h k : header h -> (1 <= k < 513)%nat -> exists b, CString.load h k = Ok b /\ h !! k = Some b /\ byte b.
Proof.
  intros [Hl Hb] Hk. destruct (lookup_lt_is_Some_2 h k) as [b Hbk]; [lia|]. exists b.
  split_and!; [apply CString.load_Some; [lia|done]|done|apply (Hb k); [lia|done]..].
Qed.

Lemma chksum_loop_spec h n : header h -> forall i acc, (i + n <= 512)%nat -> 0 <= acc -> acc + 255 * Z.of_nat n < 2 ^ 32 ->
  exists r, chksum_loop n h i acc = Ok r /\ acc <= r <= acc + 255 * Z.of_nat n.
Proof.
  intros Hh. induction n as [|n IH]; intros i acc Hi Ha Hb; cbn [chksum_loop]; [exists acc; split; [done|lia]|].
  destruct (header_load h (HEADER + i) Hh) as (b & -> & _ & Hby); [unfold HEADER; lia|]. cbn [rbind]. set (d := if _ && _ then 32 else b).
  assert (0 <= d <= 255) by (subst d; destruct (_ && _); lia). rewrite u32_small by lia.
  destruct (IH (S i) (acc + d)) as (r & E & Hr); [lia|lia|lia|]. exists r. split; [exact E|lia].
Qed.

Lemma chksum_same h h' n : header h -> header h' -> (forall k, (k < h_chksum \/ h_chksum + 8 <= k)%nat -> h' !! k = h !! k) ->
  forall i acc, (i + n <= 512)%nat -> chksum_loop n h' i acc = chksum_loop n h i acc.
Proof.
  intros Hh Hh' Hs. unfold h_chksum, HEADER in Hs. induction n as [|n IH]; intros i acc Hi; cbn [chksum_loop]; [done|].
  destruct (header_load h (HEADER + i) Hh) as (b & -> & Hb & _); [unfold HEADER; lia|].
  destruct (header_load h' (HEADER + i) Hh') as (b' & -> & Hb' & _); [unfold HEADER; lia|]. cbn [rbind].
  destruct (Nat.leb_spec 148 i), (Nat.ltb_spec i (148 + 8)); cbn [andb]; rewrite ?IH by lia; try done;
    (unfold HEADER in *; rewrite Hs in Hb' by lia; congruence).
Qed.

(** * Parsing *)

Lemma foldl_grows ds : Forall (fun c => 48 <= c < 56) ds -> forall acc, 0 <= acc -> acc <= foldl (fun v c => v * 8 + (c - 48)) acc ds.
Proof. induction 1 as [|c ds Hc _ IH]; intros acc Ha; cbn [foldl]; [lia|]. specialize (IH (acc * 8 + (c - 48)) ltac:(lia)). lia. Qed.

Lemma parse_octal_spec h s n ds : (0 < s)%nat -> Forall (fun c => 48 <= c < 56) ds -> forall ofs acc,
  field h (s + ofs) (ds ++ [0]) -> (length ds < n)%nat -> 0 <= acc -> foldl (fun v c => v * 8 + (c - 48)) acc ds < 2 ^ 32 -> (0 < ofs + length ds)%nat ->
  parse_octal_loop n h s ofs acc = Ok (Some (foldl (fun v c => v * 8 + (c - 48)) acc ds)).
Proof.
  intros Hs Hall. revert n. induction Hall as [|c ds Hc Hall IH]; intros [|n] ofs acc Hf Hn Ha Hv Ho; cbn [length] in *; try lia.
  - cbn [parse_octal_loop foldl]. replace (s + ofs)%nat with (s + ofs + 0)%nat by lia. rewrite (field_load h (s + ofs) [0] 0 0) by (done || lia).
    cbn [rbind]. rewrite (proj2 (Nat.ltb_lt 0 ofs)) by lia. done.
  - cbn [parse_octal_loop foldl] in *. replace (s + ofs)%nat with (s + ofs + 0)%nat by lia.
    rewrite (field_load h (s + ofs) ((c :: ds) ++ [0]) 0 c) by (done || lia). cbn [rbind].
    replace ((48 <=? c) && (c <=? 55)) with true by (symmetry; apply andb_true_iff; rewrite !Z.leb_le; lia).
    assert (Hmono : acc * 8 + (c - 48) <= foldl (fun v c => v * 8 + (c - 48)) (acc * 8 + (c - 48)) ds).
    { apply foldl_grows; [|lia]. exact Hall. }
    rewrite (proj2 (Z.ltb_ge _ _)) by (apply Z.div_le_lower_bound; lia).
    replace (c - 48 + acc * 8) with (acc * 8 + (c - 48)) by lia. apply IH; try lia.
    intros i x Hi. replace (s + S ofs + i)%nat with (s + ofs + S i)%nat by lia. by apply Hf.
Qed.

Lemma all_zeros_not h n p k b : header h -> (p + n <= 513)%nat -> (1 <= p)%nat -> (p <= k < p + n)%nat -> h !! k = Some b -> b <> 0 ->
  is_all_zeros n h p = Ok false.
Proof.
  intros Hh. revert p. induction n as [|n IH]; intros p Hn Hp Hk Hb Hne; [lia|]. cbn [is_all_zeros].
  destruct (header_load h p Hh) as (b' & -> & Hb' & _); [lia|]. cbn [rbind]. destruct (Z.eqb_spec b' 0) as [->|]; [|done].
  cbn [negb]. apply IH; try done; [lia|lia|]. destruct (decide (k = p)) as [->|]; [congruence|lia].
Qed.

(** * Names *)

Lemma after_slash_length s : antisocial s = true -> (length (after_slash s) < length s)%nat.
Proof.
  assert (Hle : forall t, (length (after_slash t) <= length t)%nat).
  { induction t as [|c t IH]; cbn; [done|]. destruct (c =? 47); lia. }
  destruct s as [|c s]; [done|]. intros _. cbn. destruct (c =? 47); [lia|]. specialize (Hle s). lia.
Qed.

Lemma strip_loop_clean : forall n s, (length s <= n)%nat -> antisocial (strip_loop n s) = false.
Proof.
  induction n as [|n IH]; intros s Hn; cbn [strip_loop]; [by destruct s; cbn in *; [|lia]|].
  destruct (antisocial s) eqn:E; [|done]. apply IH. apply after_slash_length in E. lia.
Qed.

(** The name is neither empty nor "..", and does not start with "/", "./" or "../". *)
Definition safe_name (s : list Z) : Prop := antisocial s = false /\ s <> [] /\ s <> str "..".

Lemma strip_safe s : safe_name (strip_antisocial_prefixes s).
Proof.
  unfold strip_antisocial_prefixes. pose proof (strip_loop_clean (length s) s ltac:(done)) as Hc. set (t := strip_loop _ _) in *.
  destruct (bool_decide (t = []) || bool_decide (t = str "..")) eqn:E; [by split_and!|].
  apply orb_false_iff in E as [E1%bool_decide_eq_false E2%bool_decide_eq_false]. by split_and!.
Qed.

Lemma strip_id s : safe_name s -> strip_antisocial_prefixes s = s.
Proof.
  intros (Ha & H0 & H2). unfold strip_antisocial_prefixes. assert (E : strip_loop (length s) s = s).
  { destruct (length s); cbn [strip_loop]; [done|]. by rewrite Ha. }
  rewrite E. by rewrite !bool_decide_false by done.
Qed.

Lemma after_slash_sub s : Forall (fun c => 0 < c < 2 ^ 8) s -> Forall (fun c => 0 < c < 2 ^ 8) (after_slash s).
Proof. induction 1 as [|c s Hc Hs IH]; cbn; [constructor|]. by destruct (c =? 47). Qed.

Lemma strip_chars s : Forall (fun c => 0 < c < 2 ^ 8) s -> Forall (fun c => 0 < c < 2 ^ 8) (strip_antisocial_prefixes s).
Proof.
  intros Hs. unfold strip_antisocial_prefixes.
  assert (Hl : forall n, Forall (fun c => 0 < c < 2 ^ 8) (strip_loop n s)).
  { intros n. revert s Hs. induction n as [|n IH]; intros s Hs; cbn [strip_loop]; [done|]. destruct (antisocial s); [|done]. by apply IH, after_slash_sub. }
  destruct (_ || _); [by repeat constructor|apply Hl].
Qed.

(** * The header that is made *)

(** What [ustar_make_header] leaves in the header. *)
Record made h (name : list Z) (type size sum : Z) : Prop := {
  md_header : header h;
  md_name : field h h_name (name ++ [0]);
  md_last : h !! (h_name + 99)%nat = Some 0;
  md_size : field h h_size (oct 11 size ++ [0]);
  md_type : h !! h_typeflag = Some type;
  md_magic : field h h_magic (str "ustar" ++ [0]);
  md_version : field h h_version [48; 48];
  md_prefix : h !! h_prefix = Some 0;
  md_chksum : field h h_chksum (oct 7 sum ++ [0]);
  md_sum : calculate_chksum h = Ok sum;
}.

Lemma header_zero h : length h = 513%nat -> header (list_inserts HEADER (replicate 512 0) h).
Proof.
  intros Hl. split; [by rewrite length_inserts|]. intros k b Hk Hb. apply lookup_lt_Some in Hb as Hlt. rewrite length_inserts in Hlt.
  rewrite lookup_inserts, decide_True in Hb by (rewrite ?length_replicate; unfold HEADER; lia).
  apply lookup_replicate in Hb as [-> _]. lia.
Qed.

(** A byte that no later step changes. *)
Lemma lookup_other h p l k b : (k < p \/ p + length l <= k)%nat -> h !! k = Some b -> list_inserts p l h !! k = Some b.
Proof. intros Hk Hb. apply lookup_lt_Some in Hb as Hlt. rewrite lookup_inserts by done. by rewrite decide_False by lia. Qed.

(** A header and what is known of its fields. *)
Definition holds h (W : list (nat * list Z)) : Prop := header h /\ forall p l, (p, l) ∈ W -> field h p l.

Lemma holds_write h W p l : holds h W -> (p + length l <= 513)%nat -> Forall (fun c => byte c) l ->
  Forall (fun w => p + length l <= w.1 \/ w.1 + length w.2 <= p)%nat W -> holds (list_inserts p l h) ((p, l) :: W).
Proof.
  intros [Hh HW] Hp Hl Hdis. split; [by apply header_inserts|]. intros q l' [[= -> ->]|Hin]%elem_of_cons.
  - apply field_same. by rewrite (hd_len _ Hh).
  - apply field_other; [|by apply HW]. rewrite Forall_forall in Hdis. specialize (Hdis _ Hin). cbn in Hdis. lia.
Qed.

Lemma strlcpy_fit h dst src size : header h -> (0 < dst)%nat -> (length src < size)%nat -> (dst + size <= 513)%nat ->
  Forall (fun c => 0 < c < 2 ^ 8) src -> strlcpy_from h dst src size = Ok (list_inserts dst (src ++ [0]) h).
Proof. intros Hh Hd Hs Hl Hsrc. rewrite strlcpy_from_spec by (rewrite ?(hd_len _ Hh); (done || lia)). by rewrite take_ge by lia. Qed.

Lemma store_inserts h p b : header h -> (1 <= p < 513)%nat -> CString.store h p b = Ok (list_inserts p [b] h).
Proof. intros Hh Hp. rewrite CString.store_in by (rewrite ?(hd_len _ Hh); lia). done. Qed.

Lemma chars_bytes l : Forall (fun c => 0 < c < 2 ^ 8) l -> Forall (fun c => byte c) (l ++ [0]).
Proof. intros Hl. apply Forall_app. split; [|by repeat constructor]. eapply Forall_impl; [exact Hl|]. cbn. lia. Qed.

(** The numbers in the header. *)
Lemma oct_field w v : 0 < w < 2 ^ 30 -> 0 <= v < 8 ^ w -> v < 2 ^ 32 ->
  length (oct w v ++ [0]) = Z.to_nat (w + 1) /\ Forall (fun c => byte c) (oct w v ++ [0]).
Proof.
  intros Hw Hv Hv2. destruct (oct_shape w v) as (Hl & Ha & _); [lia|lia|lia|]. split; [rewrite length_app; cbn; lia|].
  apply Forall_app. split; [|by repeat constructor]. eapply Forall_impl; [exact Ha|]. cbn. lia.
Qed.

Lemma put_oct7 h dst v : header h -> (1 <= dst)%nat -> (dst + 8 <= 513)%nat -> 0 <= v < 8 ^ 7 ->
  snprintf_to h dst 8 (str "%07o") v = Ok (list_inserts dst (oct 7 v ++ [0]) h).
Proof.
  intros Hh Hd Hl Hv. apply (snprintf_to_oct h dst _ (str "07o") 7 v); rewrite ?(hd_len _ Hh); (done || lia).
Qed.

Lemma put_oct11 h dst v : header h -> (1 <= dst)%nat -> (dst + 12 <= 513)%nat -> 0 <= v < 2 ^ 32 ->
  snprintf_to h dst 12 (str "%011o") v = Ok (list_inserts dst (oct 11 v ++ [0]) h).
Proof.
  intros Hh Hd Hl Hv. apply (snprintf_to_oct h dst _ (str "011o") 11 v); rewrite ?(hd_len _ Hh); (done || lia).
Qed.

Ltac unfold_fields := unfold h_name, h_mode, h_uid, h_gid, h_size, h_mtime, h_chksum, h_typeflag, h_magic, h_version, h_uname, h_gname, h_prefix, HEADER in *.
Ltac apart := repeat (constructor; [cbn [fst snd]; rewrite ?length_app, ?length_replicate in *; cbn [length] in *; unfold_fields; lia|]); constructor.
Ltac literal l := let v := eval vm_compute in l in change l with v.
Ltac put :=
  match goal with Hh : holds ?h ?W |- context [list_inserts ?p ?l ?h] =>
    let H := fresh "Hh" in assert (H : holds (list_inserts p l h) ((p, l) :: W));
      [apply holds_write; [exact Hh|rewrite ?length_app in *; cbn [length] in *; unfold_fields; lia|
        first [done|by apply Forall_singleton|apply chars_bytes; first [done|by repeat constructor]|by repeat constructor]|apart]|
       cbn [rbind]; clear Hh; let h' := fresh "h" in set (h' := list_inserts p l h) in *; clearbody h'] end.

(** The cleared header. *)
Lemma holds_zero h (fname : list Z) : length h = 513%nat -> (length fname <= 99)%nat ->
  holds (list_inserts HEADER (replicate 512 0) h) [(h_prefix, [0]); ((h_name + S (length fname))%nat, replicate (99 - length fname) 0)].
Proof.
  intros Hl Hlen. split; [by apply header_zero|]. intros p l Hin i c Hi.
  assert (Hz : field (list_inserts HEADER (replicate 512 0) h) HEADER (replicate 512 0)).
  { apply field_same. rewrite length_replicate, Hl. unfold HEADER. lia. }
  assert (Hpl : exists n, (1 <= p)%nat /\ (p + n <= 513)%nat /\ l = replicate n 0).
  { apply elem_of_cons in Hin as [[= -> ->]|Hin]; [by exists 1%nat; unfold_fields; split_and!; (done || lia)|].
    apply list_elem_of_singleton in Hin as [= -> ->]. eexists. unfold_fields. split_and!; [..|done]; lia. }
  destruct Hpl as (n & Hp1 & Hp2 & ->). apply lookup_replicate in Hi as [-> Hi].
  replace (p + i)%nat with (HEADER + (p + i - 1))%nat by (unfold HEADER; lia). apply Hz. apply lookup_replicate. split; [done|lia].
Qed.

(** The checksum, the last field to be written, is that of the header with the checksum in it. *)
Lemma seal_header h W : holds h W -> Forall (fun w => h_chksum + 8 <= w.1 \/ w.1 + length w.2 <= h_chksum)%nat W ->
  exists h' sum, (let* chksum := calculate_chksum h in
      let* h' := snprintf_to h h_chksum 8 (str "%07o") chksum in Ok (Some h')) = Ok (Some h') /\
    holds h' ((h_chksum, oct 7 sum ++ [0]) :: W) /\ calculate_chksum h' = Ok sum /\ 0 <= sum < 8 ^ 7.
Proof.
  intros Hh Hdis. destruct (chksum_loop_spec h 512 (proj1 Hh) 0 0) as (sum & E & Hsum); [lia..|].
  assert (Hs : 0 <= sum < 8 ^ 7) by lia. destruct (oct_field 7 sum) as [Hl Hb]; [lia|lia|lia|].
  assert (Hh' : holds (list_inserts h_chksum (oct 7 sum ++ [0]) h) ((h_chksum, oct 7 sum ++ [0]) :: W)).
  { apply holds_write; [done|rewrite Hl; unfold_fields; lia|done|]. by rewrite Hl. }
  exists (list_inserts h_chksum (oct 7 sum ++ [0]) h), sum. change (calculate_chksum h) with (chksum_loop 512 h 0 0). rewrite E. cbn [rbind].
  rewrite put_oct7 by (try apply Hh; unfold_fields; lia). split_and!; [done|done| |lia..].
  rewrite <- E. apply chksum_same; [apply Hh|apply Hh'| |lia]. intros k Hk. destruct Hk; [apply list_lookup_inserts_lt|apply list_lookup_inserts_ge; rewrite Hl]; lia.
Qed.

Lemma made_of_fields h (fname : list Z) type size sum : header h -> calculate_chksum h = Ok sum -> (length fname <= 99)%nat ->
  field h h_name (fname ++ [0]) -> field h (h_name + S (length fname)) (replicate (99 - length fname) 0) ->
  field h h_size (oct 11 size ++ [0]) -> field h h_typeflag [type] -> field h h_magic (str "ustar" ++ [0]) ->
  field h h_version [48] -> field h (S h_version) [48] -> field h h_prefix [0] -> field h h_chksum (oct 7 sum ++ [0]) ->
  made h fname type size sum.
Proof.
  intros Hh Hc Hlen Hname Htail Hsize Htype Hmagic Hv1 Hv2 Hprefix Hchk. split; try done.
  - destruct (decide (length fname = 99)%nat) as [E|E].
    + apply Hname. by rewrite lookup_app_r, E by lia.
    + replace (h_name + 99)%nat with ((h_name + S (length fname)) + (98 - length fname))%nat by lia.
      apply Htail, lookup_replicate. split; [done|lia].
  - rewrite <- (Nat.add_0_r h_typeflag). by apply Htype.
  - intros [|[|i]] c Hi; [by apply Hv1| |done]. exact (Hv2 0%nat c Hi).
  - rewrite <- (Nat.add_0_r h_prefix). by apply Hprefix.
Qed.

Ltac nth_field n := apply (list_elem_of_lookup_2 _ n); reflexivity.

Lemma make_header_spec h name type size : length h = 513%nat -> Forall (fun c => 0 < c < 2 ^ 8) name ->
  type = USTAR_REGULAR \/ type = USTAR_DIRECTORY -> 0 <= size < 2 ^ 31 -> (length (strip_antisocial_prefixes name) <= 99)%nat ->
  exists h' sum, ustar_make_header name type size h = Ok (Some h') /\ made h' (strip_antisocial_prefixes name) type size sum /\ 0 <= sum < 8 ^ 7.
Proof.
  intros Hl Hname Ht Hsize Hlen. unfold ustar_make_header. set (fname := strip_antisocial_prefixes name) in *.
  pose proof (strip_chars name Hname) as Hfn. fold fname in Hfn. clearbody fname.
  replace ((type =? USTAR_REGULAR) || (type =? USTAR_DIRECTORY)) with true by (destruct Ht as [-> | ->]; done).
  cbn [assert rbind]. rewrite (proj2 (Nat.ltb_ge _ _)) by done. unfold CString.memset. change (CString.nonnull HEADER || _) with true.
  cbn [assert rbind]. rewrite memset_loop_spec by (unfold HEADER, USTAR_HEADER_SIZE; lia). cbn [rbind].
  change (u8 0) with 0. change USTAR_HEADER_SIZE with 512%nat. pose proof (holds_zero h fname Hl Hlen) as Hh.
  set (h1 := list_inserts HEADER _ _) in *. clearbody h1. clear h Hl.
  rewrite strlcpy_fit; [|apply Hh|unfold_fields; lia|lia|unfold_fields; lia|done]. put.
  set (mode := if type =? USTAR_REGULAR then 420 else 493). assert (Hmode : 0 <= mode < 8 ^ 7) by (subst mode; by destruct (type =? _)).
  destruct (oct_field 7 mode) as [Hm1 Hm2]; [lia|lia|lia|]. rewrite put_oct7; [|apply Hh0|unfold_fields; lia..|done]. put.
  literal (str "0000000"). literal (str "ustar"). literal (str "root").
  rewrite strlcpy_fit; [|apply Hh|unfold_fields; cbn; lia..|by repeat constructor]. put.
  rewrite strlcpy_fit; [|apply Hh0|unfold_fields; cbn; lia..|by repeat constructor]. put.
  rewrite u32_small by lia. destruct (oct_field 11 size) as [Hs1 Hs2]; [lia|lia|lia|].
  rewrite put_oct11; [|apply Hh|unfold_fields; lia..|lia]. put.
  destruct (oct_field 11 1136102400) as [Ht1 Ht2]; [lia|lia|lia|]. rewrite put_oct11; [|apply Hh0|unfold_fields; lia..|lia]. put.
  replace (u8 type) with type by (destruct Ht as [-> | ->]; done). assert (Htb : byte type) by (destruct Ht as [-> | ->]; split; done).
  rewrite store_inserts; [|apply Hh|unfold_fields; lia]. put.
  rewrite strlcpy_fit; [|apply Hh0|unfold_fields; cbn; lia..|by repeat constructor]. put.
  rewrite store_inserts; [|apply Hh|unfold_fields; lia]. put.
  rewrite store_inserts; [|apply Hh0|unfold_fields; lia]. put.
  rewrite strlcpy_fit; [|apply Hh|unfold_fields; cbn; lia..|by repeat constructor]. put.
  rewrite strlcpy_fit; [|apply Hh0|unfold_fields; cbn; lia..|by repeat constructor]. put.
  destruct (seal_header _ _ Hh) as (h' & sum & -> & [Hhd HW] & Hc & Hs); [apart|]. exists h', sum. split_and!; [done| |lia..].
  apply (made_of_fields h' fname type size sum Hhd Hc Hlen); apply HW; [nth_field (12%nat)|nth_field (14%nat)|nth_field (8%nat)|nth_field (6%nat)|
    nth_field (5%nat)|nth_field (3%nat)|nth_field (4%nat)|nth_field (13%nat)|nth_field (0%nat)].
Qed.

(** * Making and parsing *)

Lemma magic_made h : header h -> field h h_magic (str "ustar" ++ [0]) -> magic_ok h = Ok true.
Proof.
  intros Hh Hm. unfold magic_ok. set (m := h ++ str "ustar" ++ [0]).
  destruct (CString.memcmp_spec m h_magic (length h) 6) as (r & -> & Hr).
  { split; [unfold_fields; lia|]. subst m. rewrite length_app, (hd_len _ Hh). unfold_fields. cbn. lia. }
  { split; [rewrite (hd_len _ Hh); lia|]. subst m. rewrite length_app. cbn. lia. }
  cbn [rbind]. rewrite (proj2 Hr); [done|]. intros i Hi. destruct (lookup_lt_is_Some_2 (str "ustar" ++ [0]) i) as [c Hc]; [done|].
  subst m. rewrite (lookup_app_r h _ (length h + i)) by lia. rewrite Nat.add_sub', Hc.
  apply lookup_app_l_Some, Hm, Hc.
Qed.

Lemma number_made h s w v n : (0 < s)%nat -> field h s (oct w v ++ [0]) -> 0 < w < 2 ^ 30 -> 0 <= v < 8 ^ w -> v < 2 ^ 32 ->
  (Z.to_nat w < n)%nat -> parse_octal_field h s n = Ok (Some v).
Proof.
  intros Hs Hf Hw Hv Hv2 Hn. destruct (oct_shape w v) as (Hl & Ha & E); [lia|lia|lia|]. unfold value_in in E.
  unfold parse_octal_field. rewrite (parse_octal_spec h s n (oct w v)); rewrite ?E; try (done || lia). by rewrite Nat.add_0_r.
Qed.

Lemma parse_entry_made h name typeflag z : header h -> Forall (fun c => 0 < c < 2 ^ 8) name -> field h h_name (name ++ [0]) ->
  parse_entry h typeflag z = Ok (Parsed (Some (strip_antisocial_prefixes name)) typeflag (s32 z)).
Proof.
  intros Hh Hn Hf. unfold parse_entry, string_at.
  rewrite (CString.strlen_spec h h_name name) by (apply field_cstr; [unfold_fields; lia|done|done]). cbn [rbind]. do 5 f_equal.
  apply list_eq. intros i. destruct (decide (i < length name)%nat) as [Hi|Hi].
  - rewrite lookup_take_lt by done. rewrite lookup_drop. destruct (lookup_lt_is_Some_2 name i Hi) as [c Hc]. rewrite Hc. apply Hf. by apply lookup_app_l_Some.
  - rewrite lookup_take_ge by lia. symmetry. apply lookup_ge_None. lia.
Qed.

Lemma parse_made h name type size sum : made h name type size sum -> 0 <= sum < 8 ^ 7 -> Forall (fun c => 0 < c < 2 ^ 8) name ->
  type = USTAR_REGULAR \/ type = USTAR_DIRECTORY -> 0 <= size < 2 ^ 31 ->
  ustar_parse_header h = Ok (Parsed (Some (strip_antisocial_prefixes name)) type (if type =? USTAR_REGULAR then size else 0)).
Proof.
  intros [Hh Hname Hlast Hsize Htype Hmagic Hver Hprefix Hchk Hsum] Hs Hn Ht Hz. unfold ustar_parse_header.
  assert (Hload : forall p b, (0 < p)%nat -> h !! p = Some b -> CString.load h p = Ok b) by (intros; by apply CString.load_Some).
  rewrite (all_zeros_not h _ HEADER h_magic 117); [|done|unfold_fields; unfold USTAR_HEADER_SIZE; lia..| |done]; cycle 1.
  { rewrite <- (Nat.add_0_r h_magic). by apply Hmagic. }
  cbn [rbind]. rewrite (magic_made h Hh Hmagic). cbn [rbind negb].
  rewrite (Hload h_version 48); [|unfold_fields; lia|rewrite <- (Nat.add_0_r h_version); by apply Hver].
  rewrite (Hload (S h_version) 48); [|unfold_fields; lia|rewrite <- (Nat.add_1_r h_version); by apply Hver]. cbn [rbind].
  change (negb (48 =? 48) || negb (48 =? 48)) with false. cbv iota.
  rewrite (number_made h h_chksum 7 sum 8); [|unfold_fields; lia|done|lia..]. cbn [rbind]. rewrite Hsum. cbn [rbind]. rewrite Z.eqb_refl. cbn [negb].
  rewrite (Hload _ 0) by (done || unfold_fields; lia). rewrite (Hload _ 0) by (done || unfold_fields; lia). cbn [rbind].
  change (negb (0 =? 0) || negb (0 =? 0)) with false. cbv iota. rewrite (Hload _ type) by (done || unfold_fields; lia). cbn [rbind].
  destruct Ht as [-> | ->]; [change (negb _ && _) with false|change (negb _ && _) with false; by rewrite (parse_entry_made h name)].
  cbv iota. rewrite Z.eqb_refl. rewrite (number_made h h_size 11 size 12); [|unfold_fields; lia|done|lia..]. cbn [rbind].
  rewrite (proj2 (Z.ltb_ge _ _)) by lia. rewrite (parse_entry_made h name) by done. by rewrite s32_small by lia.
Qed.

(** C35: [ustar_parse_header] reads back what [ustar_make_header] wrote: for a name whose part after the
    prefixes "/", "./" and "../" has at most 99 characters, a regular file or a directory and any non-negative int
    size, the header is made, and parsing it gives that part of the name, the type and the size (0 for a directory),
    whatever the 512 bytes held before. *)
Theorem ustar_roundtrip h file_name type size : length h = 513%nat -> Forall (fun c => 0 < c < 2 ^ 8) file_name ->
  type = USTAR_REGULAR \/ type = USTAR_DIRECTORY -> 0 <= size < 2 ^ 31 ->
  (length (strip_antisocial_prefixes file_name) <= 99)%nat ->
  exists h', ustar_make_header file_name type size h = Ok (Some h') /\
    ustar_parse_header h' = Ok (Parsed (Some (strip_antisocial_prefixes file_name)) type (if type =? USTAR_REGULAR then size else 0)).
Proof.
  intros Hl Hn Ht Hz Hf. destruct (make_header_spec h file_name type size) as (h' & sum & E & Hm & Hs); [done..|].
  exists h'. split; [done|]. rewrite (parse_made h' (strip_antisocial_prefixes file_name) type size sum) by (done || by apply strip_chars).
  by rewrite (strip_id _ (strip_safe _)).
Qed.

Lemma ustar_roundtrip_witness : exists h', ustar_make_header (str "/../a/b") USTAR_REGULAR 1234 (replicate 513 7) = Ok (Some h') /\
  ustar_parse_header h' = Ok (Parsed (Some (str "a/b")) USTAR_REGULAR 1234).
Proof. apply (ustar_roundtrip (replicate 513 7) (str "/../a/b") USTAR_REGULAR 1234); [done|by repeat constructor|by left|lia|vm_compute; lia]. Defined.

Lemma parse_octal_nonneg h s n v : forall ofs acc, 0 <= acc -> parse_octal_loop n h s ofs acc = Ok (Some v) -> 0 <= v.
Proof.
  induction n as [|n IH]; intros ofs acc Ha E; [done|]. cbn [parse_octal_loop] in E. destruct (CString.load h (s + ofs)) as [c|]; [|done].
  cbn [rbind] in E. destruct ((48 <=? c) && (c <=? 55)) eqn:Ec.
  - apply andb_true_iff in Ec as [Hc%Z.leb_le _]. destruct (_ <? acc); [done|]. apply IH in E; [done|lia].
  - destruct (_ || _); [|done]. destruct (0 <? ofs)%nat; [|done]. by injection E as <-.
Qed.

(** A header that [ustar_parse_header] accepts as an entry, whatever its bytes, names a file inside the directory it
    is extracted to as far as the prefix goes: the name is not empty, is not ".." and does not start with "/", "./" or
    "../".  The entry is a regular file or a directory and its size is a non-negative int. *)
Theorem ustar_parse_safe h file_name type size : ustar_parse_header h = Ok (Parsed (Some file_name) type size) ->
  safe_name file_name /\ (type = USTAR_REGULAR \/ type = USTAR_DIRECTORY) /\ 0 <= size < 2 ^ 31.
Proof.
  assert (He : forall t z, 0 <= z < 2 ^ 31 -> t = USTAR_REGULAR \/ t = USTAR_DIRECTORY ->
    parse_entry h t z = Ok (Parsed (Some file_name) type size) ->
    safe_name file_name /\ (type = USTAR_REGULAR \/ type = USTAR_DIRECTORY) /\ 0 <= size < 2 ^ 31).
  { intros t z Hz Ht. unfold parse_entry. destruct (string_at h h_name) as [n|]; [|done]. intros [= <- <- <-].
    rewrite s32_small by lia. split; [apply strip_safe|]. split; [done|lia]. }
  unfold ustar_parse_header, rbind. repeat (case_match; try done); apply He.
  - match goal with H : parse_octal_field h h_size 12 = _ |- _ => apply parse_octal_nonneg in H; [|done] end.
    match goal with H : (_ <? _) = false |- _ => apply Z.ltb_ge in H end. lia.
  - left. by apply Z.eqb_eq.
  - lia.
  - right. match goal with H : negb false && _ = false |- _ => cbn in H; apply negb_false_iff, Z.eqb_eq in H end. done.
Qed.

Lemma ustar_parse_safe_witness : exists h, ustar_make_header (str "x/../y") USTAR_DIRECTORY 0 (replicate 513 0) = Ok (Some h) /\
  safe_name (str "x/../y").
Proof.
  destruct (ustar_make_header (str "x/../y") USTAR_DIRECTORY 0 (replicate 513 0)) as [[h|]|] eqn:E; [|vm_compute in E; discriminate..].
  exists h. split; [done|]. apply (ustar_parse_safe h (str "x/../y") USTAR_DIRECTORY 0).
  vm_compute in E. injection E as <-. vm_compute. reflexivity.
Defined.

End UstarProps.
