(* ===== verification/Pagedir.v ===== *)
(** Page directories (src/src/userprog/pagedir.c) and the entries of page
    tables (src/src/threads/pte.h).

    Page directories and page tables are words of the memory whose pages
    the page allocator hands out. Each CPU has a page directory base
    register and a translation lookaside buffer, which holds entries of the
    page tables that it has used; loading the register empties it. *)
From stdpp Require Export gmap.
From S2P Require Import Prelude Bitmap Palloc.
From stdpp Require Import options.

#[local] Open Scope Z_scope.

Module Pagedir.
Import Palloc.

(** * pte.h *)

Definition PTSHIFT : Z := PGBITS.
Definition PTBITS : Z := 10.
Definition PTMASK : Z := Z.shiftl (Z.shiftl 1 PTBITS - 1) PTSHIFT.
Definition PDSHIFT : Z := PTSHIFT + PTBITS.

Definition pt_no (va : Z) : Z := Z.shiftr (Z.land va PTMASK) PTSHIFT.
Definition pd_no (va : Z) : Z := Z.shiftr va PDSHIFT.

Definition PTE_ADDR : Z := 4294963200.
Definition PTE_P : Z := 1.
Definition PTE_W : Z := 2.
Definition PTE_U : Z := 4.
Definition PTE_A : Z := 32.
Definition PTE_D : Z := 64.

Definition pde_create_user (pt : Z) : res Z :=
  check (pg_ofs pt =? 0) in
  let* p := vtop pt in
  Ok (Z.lor (Z.lor (Z.lor p PTE_U) PTE_P) PTE_W).

Definition pde_get_pt (pde : Z) : res Z :=
  check (negb (Z.land pde PTE_P =? 0)) in
  ptov (Z.land pde PTE_ADDR).

Definition pte_create_user (page : Z) (writable : bool) : res Z :=
  check (pg_ofs page =? 0) in
  let* p := vtop page in
  Ok (Z.lor (Z.lor (Z.lor p PTE_P) (if writable then PTE_W else 0)) PTE_U).

Definition pte_get_page (pte : Z) : res Z := ptov (Z.land pte PTE_ADDR).

(** * The machine *)

Record cpu := mkCpu {
  cr3 : Z;
  tlb : gmap Z Z;
}.

Record tlb_flush_state := mkFlush {
  tf_pd : Z;
  tf_remaining : Z;
}.

Record vm := mkVm {
  vm_pages : pages;
  vm_cpus : list cpu;
  vm_flush : tlb_flush_state;
}.

Abbreviation VM := (ST vm).

Definition palloc {A} (m : ST pages A) : VM A := fun s =>
  match m (vm_pages s) with
  | Ok (a, p) => Ok (a, mkVm p (vm_cpus s) (vm_flush s))
  | Err e => Err e
  end.

(** Words, the low byte first. *)
Definition get_word (m : Z -> Z) (a : Z) : Z := m a + 2 ^ 8 * m (a + 1) + 2 ^ 16 * m (a + 2) + 2 ^ 24 * m (a + 3).
Definition put_word (a v : Z) (m : Z -> Z) (x : Z) : Z :=
  if (a <=? x) && (x <? a + 4) then Z.shiftr v (8 * (x - a)) mod 2 ^ 8 else m x.

Definition set_memory (f : (Z -> Z) -> Z -> Z) (s : vm) : vm :=
  let p := vm_pages s in
  mkVm (mkPages (kernel_pool p) (user_pool p) (f (memory p))) (vm_cpus s) (vm_flush s).

Definition load (a : Z) : VM Z := gets (fun s => get_word (memory (vm_pages s)) a).
Definition store (a v : Z) : VM unit := modify (set_memory (put_word a v)).
Definition copied (dst src n : Z) (m : Z -> Z) (x : Z) : Z := if (dst <=? x) && (x <? dst + n) then m (src + (x - dst)) else m x.
Definition memcpy (dst src n : Z) : VM unit := modify (set_memory (copied dst src n)).

Definition set_cpu (i : nat) (c : cpu) (s : vm) : vm := mkVm (vm_pages s) (<[i := c]> (vm_cpus s)) (vm_flush s).
Definition set_flush (f : tlb_flush_state) (s : vm) : vm := mkVm (vm_pages s) (vm_cpus s) f.

Section pagedir.
(** The page directory of the kernel, the amount of memory, and the CPU that runs. *)
Context (init_page_dir init_ram_pages : Z).

(** * Activation *)

Definition lcr3 (self : nat) (v : Z) : VM unit := modify (set_cpu self (mkCpu v ∅)).

Definition pagedir_activate (self : nat) (pd : Z) : VM unit :=
  let pd := if pd =? NULL then init_page_dir else pd in
  let! p := lift (vtop pd) in
  lcr3 self p.

Definition active_pd (self : nat) : VM Z :=
  let! c := gets (fun s => vm_cpus s !! self) in
  let! c := lift (access c) in
  lift (ptov (cr3 c)).

Definition pagedir_handle_tlbflush_request (self : nat) : VM unit :=
  let! a := active_pd self in
  let! f := gets vm_flush in
  (if a =? tf_pd f then let! a := active_pd self in pagedir_activate self a else ret tt);;;
  let! f := gets vm_flush in
  modify (set_flush (mkFlush (tf_pd f) (s32 (tf_remaining f - 1)))).

(** The interrupt reaches every other CPU. *)
Fixpoint ipi_tlb (others : list nat) : VM unit :=
  match others with
  | [] => ret tt
  | i :: others => pagedir_handle_tlbflush_request i;;; ipi_tlb others
  end.

Definition invalidate_pagedir_others (self : nat) (pd : Z) : VM unit :=
  let! cpus := gets vm_cpus in
  modify (set_flush (mkFlush pd (Z.of_nat (length cpus) - 1)));;;
  ipi_tlb (filter (fun i => i <> self) (seq 0 (length cpus)));;;
  let! f := gets vm_flush in
  if 0 <? tf_remaining f then fail Block else ret tt.

Definition invalidate_pagedir (self : nat) (pd : Z) : VM unit :=
  let! a := active_pd self in
  if a =? pd then pagedir_activate self pd else invalidate_pagedir_others self pd.

(** * Pages *)

Definition lookup_page (pd vaddr : Z) (create : bool) : VM Z :=
  ASSERT (negb (pd =? NULL));;;
  ASSERT (negb create || is_user_vaddr vaddr);;;
  let pde := pd + 4 * pd_no vaddr in
  let! e := load pde in
  let! found :=
    (if e =? 0 then
       if create then
         let! pt := palloc (palloc_get_page PAL_ZERO) in
         if pt =? NULL then ret false
         else
           let! v := lift (pde_create_user pt) in
           store pde v;;;
           ret true
       else ret false
     else ret true) in
  if found : bool then
    let! e := load pde in
    let! pt := lift (pde_get_pt e) in
    ret (pt + 4 * pt_no vaddr)
  else ret NULL.

Definition pagedir_create : VM Z :=
  let! pd := palloc (palloc_get_page 0) in
  (if negb (pd =? NULL) then memcpy pd init_page_dir PGSIZE else ret tt);;;
  ret pd.

Definition pagedir_set_page (pd upage kpage : Z) (writable : bool) : VM bool :=
  ASSERT (pg_ofs upage =? 0);;;
  ASSERT (pg_ofs kpage =? 0);;;
  ASSERT (is_user_vaddr upage);;;
  let! p := lift (vtop kpage) in
  ASSERT (Z.shiftr p PTSHIFT <? init_ram_pages);;;
  ASSERT (negb (pd =? init_page_dir));;;
  let! pte := lookup_page pd upage true in
  if negb (pte =? NULL) then
    let! e := load pte in
    ASSERT (Z.land e PTE_P =? 0);;;
    let! v := lift (pte_create_user kpage writable) in
    store pte v;;;
    ret true
  else ret false.

Definition pagedir_get_page (pd uaddr : Z) : VM Z :=
  ASSERT (is_user_vaddr uaddr);;;
  let! pte := lookup_page pd uaddr false in
  if negb (pte =? NULL) then
    let! e := load pte in
    if negb (Z.land e PTE_P =? 0) then
      let! page := lift (pte_get_page e) in
      ret (page + pg_ofs uaddr)
    else ret NULL
  else ret NULL.

Definition pagedir_clear_page (self : nat) (pd upage : Z) : VM unit :=
  ASSERT (pg_ofs upage =? 0);;;
  ASSERT (is_user_vaddr upage);;;
  let! pte := lookup_page pd upage false in
  if negb (pte =? NULL) then
    let! e := load pte in
    if negb (Z.land e PTE_P =? 0) then
      store pte (Z.land e (u32 (Z.lnot PTE_P)));;;
      invalidate_pagedir self pd
    else ret tt
  else ret tt.

Definition test_flag (flag pd vpage : Z) : VM bool :=
  let! pte := lookup_page pd vpage false in
  if negb (pte =? NULL) then let! e := load pte in ret (negb (Z.land e flag =? 0)) else ret false.

Definition set_flag (flag : Z) (self : nat) (pd vpage : Z) (b : bool) : VM unit :=
  let! pte := lookup_page pd vpage false in
  if negb (pte =? NULL) then
    let! e := load pte in
    if b then store pte (Z.lor e flag)
    else
      store pte (Z.land e (u32 (Z.lnot flag)));;;
      invalidate_pagedir self pd
  else ret tt.

Definition pagedir_is_dirty : Z -> Z -> VM bool := test_flag PTE_D.
Definition pagedir_set_dirty : nat -> Z -> Z -> bool -> VM unit := set_flag PTE_D.
Definition pagedir_is_accessed : Z -> Z -> VM bool := test_flag PTE_A.
Definition pagedir_set_accessed : nat -> Z -> Z -> bool -> VM unit := set_flag PTE_A.

(** * Whole directories *)

Definition ENTRIES : nat := Z.to_nat (PGSIZE / 4).
Definition USER_PDES : nat := Z.to_nat (pd_no PHYS_BASE).

Fixpoint destroy_ptes (n : nat) (pte : Z) : VM unit :=
  match n with
  | O => ret tt
  | S n =>
      let! e := load pte in
      (if negb (Z.land e PTE_P =? 0) then
         let! page := lift (pte_get_page e) in palloc (palloc_free_page page)
       else ret tt);;;
      destroy_ptes n (pte + 4)
  end.

Fixpoint destroy_pdes (n : nat) (pde : Z) : VM unit :=
  match n with
  | O => ret tt
  | S n =>
      let! e := load pde in
      (if negb (Z.land e PTE_P =? 0) then
         let! pt := lift (pde_get_pt e) in
         destroy_ptes ENTRIES pt;;;
         palloc (palloc_free_page pt)
       else ret tt);;;
      destroy_pdes n (pde + 4)
  end.

Definition pagedir_destroy (pd : Z) : VM unit :=
  if pd =? NULL then ret tt
  else
    ASSERT (negb (pd =? init_page_dir));;;
    destroy_pdes USER_PDES pd;;;
    palloc (palloc_free_page pd).

(** The loops of [pagedir_copy]; [false]: out of memory. *)
Fixpoint copy_ptes (n : nat) (pte pte_copy : Z) : VM bool :=
  match n with
  | O => ret true
  | S n =>
      let! e := load pte in
      if negb (Z.land e PTE_P =? 0) then
        let! kpage := palloc (palloc_get_page PAL_USER) in
        if kpage =? NULL then ret false
        else
          let! v := lift (pte_create_user kpage (negb (Z.land e PTE_W =? 0))) in
          store pte_copy v;;;
          let! e := load pte in
          let! page := lift (pte_get_page e) in
          memcpy kpage page PGSIZE;;;
          copy_ptes n (pte + 4) (pte_copy + 4)
      else copy_ptes n (pte + 4) (pte_copy + 4)
  end.

Fixpoint copy_pdes (n : nat) (pde pde_copy : Z) : VM bool :=
  match n with
  | O => ret true
  | S n =>
      let! e := load pde in
      if negb (Z.land e PTE_P =? 0) then
        let! pt_copy := palloc (palloc_get_page PAL_ZERO) in
        if pt_copy =? NULL then ret false
        else
          let! v := lift (pde_create_user pt_copy) in
          store pde_copy v;;;
          let! e := load pde in
          let! pt := lift (pde_get_pt e) in
          let! ok := copy_ptes ENTRIES pt pt_copy in
          if ok : bool then copy_pdes n (pde + 4) (pde_copy + 4) else ret false
      else copy_pdes n (pde + 4) (pde_copy + 4)
  end.

Definition pagedir_copy (pd : Z) : VM Z :=
  ASSERT (negb (pd =? NULL));;;
  ASSERT (negb (pd =? init_page_dir));;;
  let! pd_copy := palloc (palloc_get_page 0) in
  let! ok := (if pd_copy =? NULL then ret false
              else memcpy pd_copy pd PGSIZE;;; copy_pdes USER_PDES pd pd_copy) in
  if ok : bool then ret pd_copy
  else pagedir_destroy pd_copy;;; ret NULL.

End pagedir.

End Pagedir.
