(* ===== verification/PagedirSpec.v ===== *)
(** What page directories represent: the words of memory, the bits of
    entries, and the address space that a page directory stands for. *)
From S2P Require Import Prelude Bitmap Palloc Pagedir.
From stdpp Require Import options.

#[local] Open Scope Z_scope.

Module PagedirSpec.
Import Palloc Pagedir.

(** * Words *)

Section words.
Implicit Types (m : Z -> Z) (a b v x : Z).

Lemma word_ext m m' a : (forall x, a <= x < a + 4 -> m x = m' x) -> get_word m a = get_word m' a.
Proof. intros H. unfold get_word. by rewrite !H by lia. Qed.

Lemma word_put_same m a v : 0 <= v < 2 ^ 32 -> get_word (put_word a v m) a = v.
Proof.
  intros Hv. unfold get_word, put_word. rewrite !leb_true, !ltb_true by lia. cbn [andb].
  replace (a - a) with 0 by lia. replace (a + 1 - a) with 1 by lia. replace (a + 2 - a) with 2 by lia. replace (a + 3 - a) with 3 by lia.
  rewrite !Z.shiftr_div_pow2 by lia. change (2 ^ (8 * 0)) with 1. change (2 ^ (8 * 1)) with 256. change (2 ^ (8 * 2)) with 65536.
  change (2 ^ (8 * 3)) with 16777216. change (2 ^ 8) with 256. Z.to_euclidean_division_equations. lia.
Qed.

Lemma word_put_other m a b v : b + 4 <= a \/ a + 4 <= b -> get_word (put_word a v m) b = get_word m b.
Proof. intros H. apply word_ext. intros x Hx. unfold put_word. destruct (Z.leb_spec a x), (Z.ltb_spec x (a + 4)); cbn [andb]; (done || lia). Qed.

Lemma put_other m a v x : x < a \/ a + 4 <= x -> put_word a v m x = m x.
Proof. intros H. unfold put_word. destruct (Z.leb_spec a x), (Z.ltb_spec x (a + 4)); cbn [andb]; (done || lia). Qed.

Lemma copied_in m dst src n x : dst <= x < dst + n -> copied dst src n m x = m (src + (x - dst)).
Proof. intros H. unfold copied. by rewrite leb_true, ltb_true by lia. Qed.

Lemma copied_out m dst src n x : x < dst \/ dst + n <= x -> copied dst src n m x = m x.
Proof. intros H. unfold copied. destruct (Z.leb_spec dst x), (Z.ltb_spec x (dst + n)); cbn [andb]; (done || lia). Qed.

Lemma filled_in m a v n x : a <= x < a + n -> filled a v n m x = v.
Proof. intros H. unfold filled. by rewrite leb_true, ltb_true by lia. Qed.

Lemma filled_out m a v n x : x < a \/ a + n <= x -> filled a v n m x = m x.
Proof. intros H. unfold filled. destruct (Z.leb_spec a x), (Z.ltb_spec x (a + n)); cbn [andb]; (done || lia). Qed.
End words.

(** * Entries *)

Section entries.
Implicit Types (e p f g : Z).

Definition present e : bool := negb (Z.land e PTE_P =? 0).
Definition has_flag e f : bool := negb (Z.land e f =? 0).

(** The entry [e] is present and leads to the page at [p]. *)
Definition points e p : Prop := present e = true /\ ptov (Z.land e PTE_ADDR) = Ok p.

(** A word with the flags [f] added to or taken from it. *)
Lemma flag_or e f g : has_flag (Z.lor e f) g = has_flag e g || has_flag f g.
Proof.
  unfold has_flag. rewrite Z.land_lor_distr_l. destruct (Z.eqb_spec (Z.land e g) 0) as [->|Hne]; cbn [negb orb]; [by rewrite Z.lor_0_l|].
  destruct (Z.eqb_spec (Z.lor (Z.land e g) (Z.land f g)) 0) as [[? _]%Z.lor_eq_0_iff|]; done.
Qed.

Lemma flag_and e f g : has_flag (Z.land e f) g = has_flag e (Z.land f g).
Proof. unfold has_flag. by rewrite Z.land_assoc. Qed.

Lemma addr_or e f : Z.land f PTE_ADDR = 0 -> Z.land (Z.lor e f) PTE_ADDR = Z.land e PTE_ADDR.
Proof. intros H. by rewrite Z.land_lor_distr_l, H, Z.lor_0_r. Qed.

Lemma addr_and e f : Z.land f PTE_ADDR = PTE_ADDR -> Z.land (Z.land e f) PTE_ADDR = Z.land e PTE_ADDR.
Proof. intros H. by rewrite <- Z.land_assoc, H. Qed.

(** The address of an aligned page has no flags. *)
Lemma aligned_flag p f : p mod 4096 = 0 -> 0 <= f < 4096 -> has_flag p f = false.
Proof.
  intros Hp Hf. unfold has_flag. apply negb_false_iff, Z.eqb_eq.
  replace f with (Z.land (Z.ones 12) f).
  - rewrite Z.land_assoc, Z.land_ones by lia. change (2 ^ 12) with 4096. by rewrite Hp.
  - rewrite Z.land_comm, Z.land_ones by lia. by apply Z.mod_small.
Qed.

Lemma aligned_addr p : p mod 4096 = 0 -> 0 <= p < 2 ^ 32 -> Z.land p PTE_ADDR = p.
Proof. intros Hp Hr. change PTE_ADDR with (u32 (Z.lnot PGMASK)). rewrite land_high by done. lia. Qed.

Lemma or_range p f : 0 <= p < 2 ^ 32 -> 0 <= f < 2 ^ 32 -> 0 <= Z.lor p f < 2 ^ 32.
Proof.
  intros Hp Hf. split; [apply Z.lor_nonneg; lia|]. destruct (Z.eq_dec (Z.lor p f) 0) as [->|Hne]; [lia|].
  assert (0 <= Z.lor p f) by (apply Z.lor_nonneg; lia). apply Z.log2_lt_pow2; [lia|]. rewrite Z.log2_lor by lia.
  apply Z.max_lub_lt; (destruct (Z.eq_dec p 0), (Z.eq_dec f 0); subst; cbn; try lia; apply Z.log2_lt_pow2; lia).
Qed.

Lemma and_range e f : 0 <= e < 2 ^ 32 -> 0 <= f -> 0 <= Z.land e f < 2 ^ 32.
Proof.
  intros He Hf. assert (E : Z.land e f = Z.land e f mod 2 ^ 32).
  { rewrite <- Z.land_ones, <- Z.land_assoc, (Z.land_comm f), Z.land_assoc, Z.land_ones by lia. by rewrite (Z.mod_small e). }
  rewrite E. by apply Z.mod_pos_bound.
Qed.

(** * New entries *)

Lemma vtop_ok p : PHYS_BASE <= p -> vtop p = Ok (p - PHYS_BASE).
Proof. intros H. unfold vtop, is_kernel_vaddr. by rewrite leb_true. Qed.

Lemma ptov_back p : PHYS_BASE <= p < 2 ^ 32 -> ptov (p - PHYS_BASE) = Ok p.
Proof. intros H. unfold ptov. unfold PHYS_BASE in *. rewrite ltb_true by lia. cbn [assert rbind]. f_equal. rewrite u32_small; lia. Qed.

Lemma phys_aligned p : p mod 4096 = 0 -> (p - PHYS_BASE) mod 4096 = 0.
Proof. intros H. unfold PHYS_BASE. change 3221225472 with (786432 * 4096). by rewrite Zminus_mod, Z.mod_mul, H by lia. Qed.

(** An entry made of the address of a page and flags. *)
Lemma entry_of p f : p mod 4096 = 0 -> PHYS_BASE <= p < 2 ^ 32 -> 0 <= f < 4096 ->
  let e := Z.lor (p - PHYS_BASE) f in
  0 <= e < 2 ^ 32 /\ ptov (Z.land e PTE_ADDR) = Ok p /\ forall g, 0 <= g < 4096 -> has_flag e g = has_flag f g.
Proof.
  intros Hp Hr Hf e. pose proof (phys_aligned p Hp) as Ha. assert (0 <= p - PHYS_BASE < 2 ^ 32) by (unfold PHYS_BASE in *; lia). split_and!.
  - apply or_range; lia.
  - apply or_range; lia.
  - subst e. rewrite addr_or; [rewrite aligned_addr by done; by apply ptov_back|].
    replace f with (Z.land f (Z.ones 12)) by (rewrite Z.land_ones by lia; by apply Z.mod_small).
    rewrite <- Z.land_assoc. change (Z.land (Z.ones 12) PTE_ADDR) with 0. apply Z.land_0_r.
  - intros g Hg. subst e. rewrite flag_or. by rewrite aligned_flag by done.
Qed.

Definition user_flags (writable : bool) : Z := if writable then 7 else 5.

Lemma pde_created p : p mod 4096 = 0 -> PHYS_BASE <= p < 2 ^ 32 ->
  exists e, pde_create_user p = Ok e /\ 0 <= e < 2 ^ 32 /\ points e p.
Proof.
  intros Hp Hr. destruct (entry_of p 7 Hp Hr ltac:(lia)) as (H1 & H2 & H3). unfold pde_create_user.
  rewrite pg_ofs_mod, eqb_true, vtop_ok by (done || lia). cbn [assert rbind]. rewrite <- !Z.lor_assoc. change (Z.lor PTE_U (Z.lor PTE_P PTE_W)) with 7.
  eexists. split_and!; [done|lia..|]. split; [|done]. unfold present. fold (has_flag (Z.lor (p - PHYS_BASE) 7) PTE_P). by rewrite H3.
Qed.

Lemma pte_created p w : p mod 4096 = 0 -> PHYS_BASE <= p < 2 ^ 32 ->
  exists e, pte_create_user p w = Ok e /\ 0 <= e < 2 ^ 32 /\ points e p /\ forall g, 0 <= g < 4096 -> has_flag e g = has_flag (user_flags w) g.
Proof.
  intros Hp Hr. destruct (entry_of p (user_flags w) Hp Hr) as (H1 & H2 & H3); [by destruct w|]. unfold pte_create_user.
  rewrite pg_ofs_mod, eqb_true, vtop_ok by (done || lia). cbn [assert rbind]. rewrite <- !Z.lor_assoc.
  assert (Ef : Z.lor PTE_P (Z.lor (if w then PTE_W else 0) PTE_U) = user_flags w) by (by destruct w). rewrite Ef.
  eexists. split_and!; [done|lia..| |done]. split; [|done]. unfold present. fold (has_flag (Z.lor (p - PHYS_BASE) (user_flags w)) PTE_P). rewrite H3 by done. by destruct w.
Qed.

Lemma pde_points e p : points e p -> pde_get_pt e = Ok p.
Proof. intros [Hp E]. unfold pde_get_pt. unfold present in Hp. rewrite Hp. done. Qed.

End entries.

(** * Addresses *)

Section addresses.
Implicit Types (va v : Z).

Lemma pd_no_div va : pd_no va = va / 4096 / 1024.
Proof. unfold pd_no. change PDSHIFT with 22. rewrite Z.shiftr_div_pow2 by lia. by rewrite Z.div_div by lia. Qed.

Lemma pt_no_mod va : pt_no va = (va / 4096) mod 1024.
Proof.
  unfold pt_no. change PTMASK with (Z.shiftl (Z.ones 10) 12). change PTSHIFT with 12.
  rewrite Z.shiftr_land, Z.shiftr_shiftl_l by lia. change (Z.shiftl (Z.ones 10) (12 - 12)) with (Z.ones 10).
  rewrite Z.land_ones, Z.shiftr_div_pow2 by lia. done.
Qed.

Lemma pd_no_range va : 0 <= va < PHYS_BASE -> 0 <= pd_no va < 768.
Proof. intros H. unfold PHYS_BASE in H. rewrite pd_no_div. Z.to_euclidean_division_equations. lia. Qed.

Lemma pt_no_range va : 0 <= pt_no va < 1024.
Proof. rewrite pt_no_mod. by apply Z.mod_pos_bound. Qed.
End addresses.

(** * Pages in use *)

Section pages.
Implicit Types (s : pages) (a b x : Z).

Record mem_ok s : Prop := {
  mk_pages : pages_ok s;
  mk_high : PHYS_BASE <= base (kernel_pool s);
}.

Record page s a : Prop := {
  pg_aligned : a mod 4096 = 0;
  pg_used : used s a;
}.

Lemma page_range s a : mem_ok s -> page s a -> PHYS_BASE <= a /\ a + 4096 <= 2 ^ 32.
Proof.
  intros [[[Kw Ka Kb Ke] [_ Ua Ub Ue] Hap] Hhi] [Ha Hu]. destruct (wf_cnt _ Kw) as [? _]. unfold used, taken, in_pool in Hu.
  pose proof (Z.div_mod a 4096 ltac:(lia)). pose proof (Z.div_mod (base (kernel_pool s)) 4096 ltac:(lia)).
  pose proof (Z.div_mod (base (user_pool s)) 4096 ltac:(lia)). destruct Hu as [[Hu _]|[Hu _]]; lia.
Qed.

Lemma taken_page p a x : pool_ok p -> a mod 4096 = 0 -> taken p a -> span a 1 x -> taken p x.
Proof.
  intros [_ Hb _ _] Ha [Hin Ht] Hx. unfold span, taken, in_pool in *. pose proof (Z.div_mod a 4096 ltac:(lia)).
  pose proof (Z.div_mod (base p) 4096 ltac:(lia)). split; [lia|].
  replace ((x - base p) / 4096) with ((a - base p) / 4096); [done|].
  replace (a - base p) with ((a / 4096 - base p / 4096) * 4096) by lia.
  replace (x - base p) with ((a / 4096 - base p / 4096) * 4096 + (x - a)) by lia. rewrite Z.div_mul by lia.
  rewrite Z.div_add_l, (Z.div_small (x - a)) by lia. lia.
Qed.

Lemma page_span s a x : mem_ok s -> page s a -> span a 1 x -> used s x.
Proof. intros [[K U _] _] [Ha [Hu|Hu]] Hx; [left|right]; by eapply taken_page. Qed.

(** Two pages. *)
Lemma pages_apart a b : a mod 4096 = 0 -> b mod 4096 = 0 -> a <> b -> a + 4096 <= b \/ b + 4096 <= a.
Proof. intros Ha Hb Hne. pose proof (Z.div_mod a 4096 ltac:(lia)). pose proof (Z.div_mod b 4096 ltac:(lia)). lia. Qed.

(** The page allocator has handed out the page [a]. *)
Record got s s' a (zero : bool) : Prop := {
  gt_ok : mem_ok s';
  gt_aligned : a mod 4096 = 0;
  gt_new : forall x, span a 1 x -> ~ used s x;
  gt_used : forall x, used s' x <-> used s x \/ span a 1 x;
  gt_pools : same_pools s s';
  gt_memory : memory s' = if zero then filled a 0 4096 (memory s) else memory s;
}.

(** No page of the pool is left. *)
Definition full s (user : bool) : Prop := forall x, in_pool (get_pool user s) x -> used s x.

Lemma no_run_full s user : mem_ok s -> (forall i, 0 <= i -> i + 1 <= bit_cnt (used_map (get_pool user s)) -> ~ run (used_map (get_pool user s)) i 1 false) ->
  full s user.
Proof.
  intros Hs Hno x Hx. assert (Ht : taken (get_pool user s) x); [|destruct user; [by right|by left]].
  split; [done|]. unfold in_pool in Hx. set (j := (x - _) / 4096). assert (Hj : 0 <= j < bit_cnt (used_map (get_pool user s))).
  { subst j. split; [apply Z.div_pos; lia|]. apply Z.div_lt_upper_bound; lia. }
  apply not_false_iff_true. intros Hb. apply (Hno j); [lia|lia|]. intros k Hk. by replace k with j by lia.
Qed.

Lemma get_page_spec s flags (Q : Z -> pages -> Prop) : mem_ok s -> Z.land flags PAL_ASSERT = 0 ->
  (full s (negb (Z.land flags PAL_USER =? 0)) -> Q NULL s) ->
  (forall a s', got s s' a (negb (Z.land flags PAL_ZERO =? 0)) -> Q a s') -> wp (palloc_get_page flags) Q s.
Proof.
  intros Hs Hf Q0 HQ. apply palloc_get_spec; [apply Hs|lia| |intros Hno; split; [done|by apply Q0, no_run_full]]. intros i s' a Hi Hin _ Hok Hus Hfr Hsame Hm.
  apply HQ. split; [|subst a|intros x Hx; by apply Hfr|done|done|done].
  - split; [done|]. destruct (Hsame false) as [E _]. cbn in E. rewrite E. apply Hs.
  - rewrite Z.mul_comm, Z.mod_add by lia. apply (po_aligned _ (get_pool_ok _ s (mk_pages _ Hs))).
Qed.

Lemma got_page s s' a zero : got s s' a zero -> page s' a.
Proof. intros [_ Ha _ Hu _ _]. split; [done|]. apply Hu. right. unfold span. lia. Qed.

Lemma got_keeps s s' a zero b : got s s' a zero -> page s b -> page s' b /\ b <> a.
Proof.
  intros [_ Ha Hn Hu _ _] [Hb Hbu]. split; [split; [done|]; apply Hu; by left|]. intros ->. apply (Hn a); [unfold span; lia|done].
Qed.

(** The page [a] has been given back. *)
Record freed s s' a : Prop := {
  fr_ok : mem_ok s';
  fr_used : forall x, used s' x <-> used s x /\ ~ span a 1 x;
  fr_memory : memory s' = filled a 204 4096 (memory s);
}.

Lemma free_page_spec s a (Q : unit -> pages -> Prop) : mem_ok s -> page s a -> (forall s', freed s s' a -> Q tt s') ->
  wp (palloc_free_page a) Q s.
Proof.
  intros Hs Hp HQ. assert (Hsp : forall x, span a 1 x -> used s x) by (intros x; by apply page_span).
  destruct Hp as [Ha Hu]. assert (Hin : exists user, in_pool (get_pool user s) a).
  { destruct Hu as [[Hu _]|[Hu _]]; [by exists false|by exists true]. }
  destruct Hin as [user Hin]. pose proof (get_pool_ok user s (mk_pages _ Hs)) as [_ Hb _ _].
  unfold in_pool in Hin. pose proof (Z.div_mod a 4096 ltac:(lia)). pose proof (Z.div_mod (base (get_pool user s)) 4096 ltac:(lia)).
  apply (palloc_free_spec user); [apply Hs|lia|done|lia|lia|done|]. intros s' Hok Hus Hsame Hm. apply HQ. split; [|done|done].
  split; [done|]. destruct (Hsame false) as [E _]. cbn in E. rewrite E. apply Hs.
Qed.
End pages.

(** * Address spaces *)

Section spaces.
Implicit Types (s : pages) (m : Z -> Z) (pd pt a v e i j x : Z) (pts : gmap Z Z).

(** The mapping of a page. *)
Record mapping := mkMap {
  mp_page : Z;
  mp_writable : bool;
  mp_accessed : bool;
  mp_dirty : bool;
}.

Definition view e : option mapping :=
  if present e then
    match ptov (Z.land e PTE_ADDR) with
    | Ok p => Some (mkMap p (has_flag e PTE_W) (has_flag e PTE_A) (has_flag e PTE_D))
    | Err _ => None
    end
  else None.

Definition entry m pt i : Z := get_word m (pt + 4 * i).

(** An entry of a page table. *)
Record entry_ok e : Prop := {
  en_range : 0 <= e < 2 ^ 32;
  en_points : present e = true -> exists p, points e p;
}.

(** The page directory at [pd] has the page tables [pts]. *)
Record dir s pd pts : Prop := {
  dr_pd : page s pd;
  dr_pt : forall i pt, pts !! i = Some pt -> 0 <= i < 768 /\ page s pt /\ pt <> pd;
  dr_inj : forall i j pt, pts !! i = Some pt -> pts !! j = Some pt -> i = j;
  dr_none : forall i, 0 <= i < 768 -> pts !! i = None -> entry (memory s) pd i = 0;
  dr_some : forall i pt, pts !! i = Some pt -> points (entry (memory s) pd i) pt;
  dr_entry : forall i pt j, pts !! i = Some pt -> 0 <= j < 1024 -> entry_ok (entry (memory s) pt j);
}.

(** The entry of page number [v], and its mapping. *)
Definition pte_of m pts v : Z :=
  match pts !! (v / 1024) with
  | Some pt => entry m pt (v mod 1024)
  | None => 0
  end.
Definition space m pts v : option mapping := view (pte_of m pts v).

Lemma entry_ext m m' a i : (forall x, a <= x < a + 4096 -> m' x = m x) -> 0 <= i < 1024 -> entry m' a i = entry m a i.
Proof. intros H Hi. apply word_ext. intros x Hx. apply H. lia. Qed.

(** The directory depends only on its own pages. *)
Lemma dir_frame s s' pd pts : dir s pd pts -> (forall x, page s x -> page s' x) ->
  (forall a x, (a = pd \/ exists i, pts !! i = Some a) -> a <= x < a + 4096 -> memory s' x = memory s x) -> dir s' pd pts.
Proof.
  intros [H1 H2 H3 H4 H5 H6] Hp Hm. assert (Hpd : forall i, 0 <= i < 768 -> entry (memory s') pd i = entry (memory s) pd i).
  { intros i Hi. apply entry_ext; [|lia]. intros x Hx. apply (Hm pd); [by left|done]. }
  split; [by apply Hp| |done| | |].
  - intros i pt Hi. destruct (H2 i pt Hi) as (? & ? & ?). split_and!; [lia..|by apply Hp|done].
  - intros i Hi Hn. rewrite Hpd by done. by apply H4.
  - intros i pt Hi. rewrite Hpd by (by eapply H2). by apply H5.
  - intros i pt j Hi Hj. rewrite (entry_ext (memory s)); [by eapply H6| |done]. intros x Hx. apply (Hm pt); [right; by exists i|done].
Qed.

Lemma space_frame s s' pts : (forall i pt x, pts !! i = Some pt -> pt <= x < pt + 4096 -> memory s' x = memory s x) ->
  forall v, pte_of (memory s') pts v = pte_of (memory s) pts v.
Proof.
  intros Hm v. unfold pte_of. destruct (pts !! (v / 1024)) as [pt|] eqn:E; [|done].
  apply entry_ext; [intros x Hx; by eapply Hm|]. by apply Z.mod_pos_bound.
Qed.

(** * The address spaces of the machine *)

Definition PAGES : Z := 786432.

(** [a] holds the page directory [pd] or one of its tables. *)
Definition tables pd pts a : Prop := a = pd \/ exists i, pts !! i = Some a.

Implicit Types (D : gmap Z (gmap Z Z)).

Definition table D a : Prop := exists pd pts, D !! pd = Some pts /\ tables pd pts a.

(** The space of [pd] maps page number [v] to the page at [a]. *)
Definition maps s D pd v a : Prop :=
  exists pts mp, D !! pd = Some pts /\ 0 <= v < PAGES /\ space (memory s) pts v = Some mp /\ mp_page mp = a.

(** All page directories: they share no table, and each page is mapped once
    and holds no table. *)
Record world s D : Prop := {
  wd_mem : mem_ok s;
  wd_dir : forall pd pts, D !! pd = Some pts -> dir s pd pts;
  wd_apart : forall pd pts pd' pts' a, D !! pd = Some pts -> D !! pd' = Some pts' -> tables pd pts a -> tables pd' pts' a -> pd = pd';
  wd_frame : forall pd v a, maps s D pd v a -> page s a /\ ~ table D a;
  wd_once : forall pd v pd' v' a, maps s D pd v a -> maps s D pd' v' a -> pd = pd' /\ v = v';
}.

Lemma tables_page s pd pts a : dir s pd pts -> tables pd pts a -> page s a.
Proof. intros Hd [->|[i Hi]]; [apply Hd|by eapply Hd]. Qed.

Lemma tables_two s pd pts i pt : dir s pd pts -> pts !! i = Some pt -> pt + 4096 <= pd \/ pd + 4096 <= pt.
Proof. intros Hd Hi. destruct (dr_pt _ _ _ Hd _ _ Hi) as (_ & [Ha _] & Hne). apply pages_apart; [done|apply Hd|done]. Qed.

Lemma vpn_range va : 0 <= va < PHYS_BASE -> 0 <= va / 4096 < PAGES.
Proof. intros H. unfold PHYS_BASE in H. unfold PAGES. split; [apply Z.div_pos; lia|]. apply Z.div_lt_upper_bound; lia. Qed.

(** ** One entry changes *)

Section put.
Context (s : pages) (D : gmap Z (gmap Z Z)) (pd : Z) (pts : gmap Z Z) (i pt j e : Z).
Context (Hw : world s D) (HD : D !! pd = Some pts) (Hpt : pts !! i = Some pt) (Hj : 0 <= j < 1024) (He : entry_ok e).

Definition put_entry : pages := mkPages (kernel_pool s) (user_pool s) (put_word (pt + 4 * j) e (memory s)).

Lemma put_pages a : page s a -> page put_entry a.
Proof. by intros []. Qed.

Lemma put_outside x : x < pt \/ pt + 4096 <= x -> memory put_entry x = memory s x.
Proof using Hj. intros Hx. apply put_other. lia. Qed.

(** Pages other than the table keep their bytes. *)
Lemma put_page a x : a mod 4096 = 0 -> a <> pt -> a <= x < a + 4096 -> memory put_entry x = memory s x.
Proof using HD He Hj Hpt Hw.
  intros Ha Hne Hx. apply put_outside. pose proof (wd_dir _ _ Hw _ _ HD) as Hd. destruct (dr_pt _ _ _ Hd _ _ Hpt) as (_ & [Hal _] & _).
  destruct (pages_apart a pt) as [|]; [done|done|done|lia|lia].
Qed.

Lemma put_entry_table k : 0 <= k < 1024 -> entry (memory put_entry) pt k = if decide (k = j) then e else entry (memory s) pt k.
Proof using He Hj.
  intros Hk. unfold entry. cbn. case_decide as E; [subst k; apply word_put_same, He|]. apply word_put_other. lia.
Qed.

Lemma put_dir pd' pts' : D !! pd' = Some pts' -> dir put_entry pd' pts'.
Proof using HD He Hj Hpt Hw.
  intros HD'. pose proof (wd_dir _ _ Hw _ _ HD') as Hd. pose proof (wd_dir _ _ Hw _ _ HD) as Hd0.
  assert (Hmem : forall a x, tables pd' pts' a -> a <> pt -> a <= x < a + 4096 -> memory put_entry x = memory s x).
  { intros a x Ha Hne Hx. apply (put_page a); [by apply (pg_aligned s), (tables_page s pd' pts')|done|done]. }
  assert (Hpd : forall k, 0 <= k < 768 -> entry (memory put_entry) pd' k = entry (memory s) pd' k).
  { intros k Hk. apply entry_ext; [|lia]. intros x Hx. apply (Hmem pd'); [by left| |done]. intros ->.
    assert (E : pt = pd) by (eapply (wd_apart _ _ Hw); [exact HD'|exact HD|by left|right; by exists i]).
    by destruct (dr_pt _ _ _ Hd0 _ _ Hpt) as (_ & _ & Hne). }
  split; [apply put_pages, Hd| |apply Hd| | |].
  - intros k q Hk. destruct (dr_pt _ _ _ Hd _ _ Hk) as (? & ? & ?). split_and!; [lia..|by apply put_pages|done].
  - intros k Hk Hn. rewrite Hpd by done. by apply Hd.
  - intros k q Hk. rewrite Hpd by (by eapply Hd). by apply Hd.
  - intros k q l Hk Hl. destruct (decide (q = pt)) as [->|Hne].
    + rewrite put_entry_table by done. case_decide; [done|]. by eapply Hd.
    + rewrite (entry_ext (memory s)); [by eapply Hd| |done]. intros x Hx. apply (Hmem q); [right; by exists k|done|done].
Qed.

Lemma put_pte w : 0 <= w < PAGES -> pte_of (memory put_entry) pts w = if decide (w = i * 1024 + j) then e else pte_of (memory s) pts w.
Proof using HD He Hj Hpt Hw.
  intros Hr. unfold pte_of. pose proof (wd_dir _ _ Hw _ _ HD) as Hd. pose proof (Z.div_mod w 1024 ltac:(lia)) as Ew.
  pose proof (Z.mod_pos_bound w 1024 ltac:(lia)) as Hm. destruct (decide (w / 1024 = i)) as [E|E].
  - rewrite E, Hpt. rewrite put_entry_table by done. repeat case_decide; (done || lia).
  - rewrite decide_False by lia. destruct (pts !! (w / 1024)) as [q|] eqn:Eq; [|done]. apply entry_ext; [|done].
    intros x Hx. destruct (dr_pt _ _ _ Hd _ _ Eq) as (_ & [Ha _] & _). apply (put_page q); [done| |done].
    intros ->. apply E. by eapply Hd.
Qed.

Lemma put_pte_other pd' pts' w : D !! pd' = Some pts' -> pd' <> pd -> pte_of (memory put_entry) pts' w = pte_of (memory s) pts' w.
Proof using HD He Hj Hpt Hw.
  intros HD' Hne. apply space_frame. intros k q x Hk Hx. pose proof (wd_dir _ _ Hw _ _ HD') as Hd'.
  destruct (dr_pt _ _ _ Hd' _ _ Hk) as (_ & [Ha _] & _). apply (put_page q); [done| |done]. intros ->. apply Hne.
  eapply (wd_apart _ _ Hw); [exact HD'|exact HD|right; by exists k|right; by exists i].
Qed.

(** The new entry maps the page that the old one mapped, none, or one that
    no space has. *)
Lemma put_world : (forall p, points e p -> (exists mp, space (memory s) pts (i * 1024 + j) = Some mp /\ mp_page mp = p) \/
    (page s p /\ ~ table D p /\ forall pd' v', ~ maps s D pd' v' p)) -> world put_entry D.
Proof using HD He Hj Hpt Hw.
  intros Hnew. destruct (dr_pt _ _ _ (wd_dir _ _ Hw _ _ HD) _ _ Hpt) as (Hi & _ & _).
  assert (Hmaps : forall pd' v' a, maps put_entry D pd' v' a -> maps s D pd' v' a \/
            (pd' = pd /\ v' = i * 1024 + j /\ page s a /\ ~ table D a /\ forall pd' v', ~ maps s D pd' v' a)).
  { intros pd' v' a (pts' & mp & HD' & Hv & Hs & Ea). destruct (decide (pd' = pd)) as [->|Hne].
    - assert (pts' = pts) as -> by congruence. unfold space in Hs. rewrite put_pte in Hs by done. case_decide as E.
      + destruct (Hnew a) as [(mp' & Hmp & Ep)|Hf].
        { unfold view in Hs. destruct (present e) eqn:Hp; [|done]. split; [done|]. destruct (ptov _) as [q|]; [|done]. by injection Hs as <-; cbn in Ea; subst q. }
        * left. exists pts, mp'. rewrite <- E in Hmp. done.
        * by right.
      + left. by exists pts, mp.
    - left. exists pts', mp. unfold space in *. by rewrite (put_pte_other pd') in Hs. }
  split; [destruct (wd_mem _ _ Hw) as [[] ?]; by split|apply put_dir|apply Hw| |].
  - intros pd' v' a [Hm|(_ & _ & Hp & Ht & _)]%Hmaps; [|by split; [apply put_pages|]]. destruct (wd_frame _ _ Hw _ _ _ Hm) as [? ?]. by split; [apply put_pages|].
  - intros pd1 v1 pd2 v2 a [H1|(-> & -> & _ & _ & H1)]%Hmaps [H2|(-> & -> & _ & _ & H2)]%Hmaps; [by eapply Hw|by destruct (H2 pd1 v1)|by destruct (H1 pd2 v2)|done].
Qed.
End put.

(** ** A table is added *)

Section add.
Context (s s1 : pages) (D : gmap Z (gmap Z Z)) (pd : Z) (pts : gmap Z Z) (i pt e : Z).
Context (Hw : world s D) (HD : D !! pd = Some pts) (Hi : 0 <= i < 768) (Hnone : pts !! i = None).
Context (Hgot : got s s1 pt true) (He : 0 <= e < 2 ^ 32) (Hpe : points e pt).

Definition add_table : pages := mkPages (kernel_pool s1) (user_pool s1) (put_word (pd + 4 * i) e (memory s1)).

Lemma add_page a : page s a -> page add_table a /\ a <> pt.
Proof using Hgot. intros Hp. destruct (got_keeps _ _ _ _ _ Hgot Hp) as [[] ?]. by split. Qed.

Lemma add_same a x : page s a -> a <> pd -> a <= x < a + 4096 -> memory add_table x = memory s x.
Proof using HD Hgot Hi Hw.
  intros Hp Hne Hx. destruct (add_page a Hp) as [_ Hpt]. pose proof (dr_pd _ _ _ (wd_dir _ _ Hw _ _ HD)) as [Hal _]. destruct Hp as [Ha _].
  cbn. rewrite put_other. 2:{ destruct (pages_apart a pd) as [|]; [done|done|done|lia|lia]. }
  rewrite (gt_memory _ _ _ _ Hgot). apply filled_out. destruct (pages_apart a pt) as [|]; [done|apply Hgot|done|lia|lia].
Qed.

Lemma add_pd k : 0 <= k < 768 -> entry (memory add_table) pd k = if decide (k = i) then e else entry (memory s) pd k.
Proof using HD Hgot He Hi Hw.
  intros Hk. unfold entry. cbn. case_decide as E; [subst k; by apply word_put_same|]. rewrite word_put_other by lia. apply word_ext.
  intros x Hx. pose proof (dr_pd _ _ _ (wd_dir _ _ Hw _ _ HD)) as Hp. destruct (add_page pd Hp) as [_ Hne]. rewrite (gt_memory _ _ _ _ Hgot).
  apply filled_out. destruct (pages_apart pd pt) as [|]; [apply Hp|apply Hgot|done|lia|lia].
Qed.

Lemma add_zero k : 0 <= k < 1024 -> entry (memory add_table) pt k = 0.
Proof using HD Hgot Hi Hw.
  intros Hk. pose proof (dr_pd _ _ _ (wd_dir _ _ Hw _ _ HD)) as Hp. destruct (add_page pd Hp) as [_ Hne].
  unfold entry. cbn. rewrite word_put_other. 2:{ destruct (pages_apart pd pt) as [|]; [apply Hp|apply Hgot|done|lia|lia]. }
  unfold get_word. rewrite (gt_memory _ _ _ _ Hgot). by rewrite !filled_in by lia.
Qed.

Lemma add_pte w : 0 <= w < PAGES -> pte_of (memory add_table) (<[i := pt]> pts) w = pte_of (memory s) pts w.
Proof using HD Hgot Hi Hnone Hw.
  intros Hr. unfold pte_of. pose proof (Z.mod_pos_bound w 1024 ltac:(lia)) as Hm. destruct (decide (w / 1024 = i)) as [E|E].
  - rewrite E, lookup_insert_eq, Hnone. by apply add_zero.
  - rewrite lookup_insert_ne by done. destruct (pts !! (w / 1024)) as [q|] eqn:Eq; [|done]. apply entry_ext; [|done].
    intros x Hx. destruct (dr_pt _ _ _ (wd_dir _ _ Hw _ _ HD) _ _ Eq) as (_ & Hp & Hne). by apply (add_same q).
Qed.

Lemma add_pte_other pd' pts' w : D !! pd' = Some pts' -> pd' <> pd -> pte_of (memory add_table) pts' w = pte_of (memory s) pts' w.
Proof using HD Hgot Hi Hw.
  intros HD' Hne. apply space_frame. intros k q x Hk Hx. destruct (dr_pt _ _ _ (wd_dir _ _ Hw _ _ HD') _ _ Hk) as (_ & Hp & _).
  apply (add_same q); [done| |done]. intros ->. apply Hne. eapply (wd_apart _ _ Hw); [exact HD'|exact HD|right; by exists k|by left].
Qed.

Lemma add_dir : dir add_table pd (<[i := pt]> pts).
Proof using HD Hgot He Hi Hnone Hpe Hw.
  pose proof (wd_dir _ _ Hw _ _ HD) as Hd. destruct (add_page pd (dr_pd _ _ _ Hd)) as [Hp Hne]. split; [done| | | | |].
  - intros k q [[<- <-]|[Hk Hq]]%lookup_insert_Some.
    + split_and!; [lia..| |done]. destruct (got_page _ _ _ _ Hgot). by split.
    + destruct (dr_pt _ _ _ Hd _ _ Hq) as (? & Hpq & ?). split_and!; [lia..|by apply add_page|done].
  - intros k l q [[<- <-]|[Hk Hq]]%lookup_insert_Some [[<- El]|[Hl Hq']]%lookup_insert_Some; [done| | |by eapply Hd].
    + destruct (dr_pt _ _ _ Hd _ _ Hq') as (_ & Hpq & _). by destruct (add_page _ Hpq).
    + subst q. destruct (dr_pt _ _ _ Hd _ _ Hq) as (_ & Hpq & _). by destruct (add_page _ Hpq).
  - intros k Hk [Hn Hki]%lookup_insert_None. rewrite add_pd, decide_False by (done || congruence). by apply Hd.
  - intros k q [[<- <-]|[Hk Hq]]%lookup_insert_Some; [by rewrite add_pd, decide_True|].
    rewrite add_pd, decide_False by (congruence || by eapply Hd). by apply Hd.
  - intros k q l [[<- <-]|[Hk Hq]]%lookup_insert_Some Hl; [rewrite add_zero by done; split; [lia|done]|].
    destruct (dr_pt _ _ _ Hd _ _ Hq) as (_ & Hpq & ?). rewrite (entry_ext (memory s)); [by eapply Hd| |done]. intros x Hx. by apply (add_same q).
Qed.

Abbreviation D' := (<[pd := <[i := pt]> pts]> D).

Lemma add_tables pd' pts' a : D' !! pd' = Some pts' -> tables pd' pts' a ->
  a = pt /\ pd' = pd \/ exists pts0, D !! pd' = Some pts0 /\ tables pd' pts0 a.
Proof using HD.
  intros [[<- <-]|[Hne HD']]%lookup_insert_Some Ha; [|right; by exists pts'].
  destruct Ha as [->|[k [[<- <-]|[Hk Hq]]%lookup_insert_Some]]; [right; exists pts; by split; [|left]|by left|].
  right. exists pts. split; [done|]. right. by exists k.
Qed.

Lemma add_maps pd' v a : maps add_table D' pd' v a -> maps s D pd' v a.
Proof using HD Hgot Hi Hnone Hw.
  intros (pts' & mp & [[<- <-]|[Hne HD']]%lookup_insert_Some & Hv & Hs & Ea).
  - exists pts, mp. unfold space in *. by rewrite add_pte in Hs.
  - exists pts', mp. unfold space in *. by rewrite (add_pte_other pd') in Hs.
Qed.

Lemma add_world : world add_table D'.
Proof using HD Hgot He Hi Hnone Hpe Hw.
  assert (Hnew : forall a, page s a -> a <> pt) by (intros a Ha; by destruct (add_page a Ha)).
  assert (Htab : forall pd' pts' a, D !! pd' = Some pts' -> tables pd' pts' a -> a <> pt).
  { intros pd' pts' a HD' Ha. apply Hnew. eapply tables_page; [by apply (wd_dir _ _ Hw)|done]. }
  split.
  - destruct (gt_ok _ _ _ _ Hgot) as [[] ?]. by split.
  - intros pd' pts' [[<- <-]|[Hne HD']]%lookup_insert_Some; [by apply add_dir|]. pose proof (wd_dir _ _ Hw _ _ HD') as Hd.
    eapply dir_frame; [exact Hd|intros a Ha; by apply add_page|]. intros a x Ha Hx. apply (add_same a); [by eapply tables_page| |done].
    intros ->. apply Hne. eapply (wd_apart _ _ Hw); [exact HD|exact HD'|by left|done].
  - intros pd1 pts1 pd2 pts2 a H1 H2 Ha1 Ha2. destruct (add_tables _ _ _ H1 Ha1) as [[-> ->]|(q1 & HD1 & Hq1)], (add_tables _ _ _ H2 Ha2) as [[E ->]|(q2 & HD2 & Hq2)].
    + done.
    + by destruct (Htab _ _ _ HD2 Hq2).
    + subst a. by destruct (Htab _ _ _ HD1 Hq1).
    + by eapply (wd_apart _ _ Hw _ _ _ _ a HD1 HD2).
  - intros pd' v a Hm%add_maps. destruct (wd_frame _ _ Hw _ _ _ Hm) as [Hp Ht]. destruct (add_page a Hp) as [Hp' Hne]. split; [done|].
    intros (pd1 & pts1 & H1 & Ha). destruct (add_tables _ _ _ H1 Ha) as [[? _]|(q & HDq & Hq)]; [done|]. apply Ht. by exists pd1, q.
  - intros pd1 v1 pd2 v2 a H1%add_maps H2%add_maps. by eapply Hw.
Qed.
End add.

End spaces.

End PagedirSpec.
