(* ===== verification/PagedirOps.v ===== *)
(** The operations on page directories: what each does to the address spaces
    that all page directories of the machine represent, and to the
    translation lookaside buffers. *)
From S2P Require Import Prelude Bitmap Palloc Pagedir PagedirSpec.
From stdpp Require Import options.

#[local] Open Scope Z_scope.

Module PagedirOps.
Import Palloc Pagedir PagedirSpec.

Section rules.
Implicit Types (s : vm) (p : pages).

Definition with_pages p s : vm := mkVm p (vm_cpus s) (vm_flush s).

Lemma with_same s : with_pages (vm_pages s) s = s.
Proof. by destruct s. Qed.

Lemma wp_palloc {A} (m : ST pages A) (Q : A -> vm -> Prop) s :
  wp m (fun a p => Q a (with_pages p s)) (vm_pages s) -> wp (palloc m) Q s.
Proof. unfold wp, palloc. by destruct (m (vm_pages s)) as [[a p]|]. Qed.

Lemma wp_load a (Q : Z -> vm -> Prop) s : Q (get_word (memory (vm_pages s)) a) s -> wp (load a) Q s.
Proof. done. Qed.

Lemma wp_store a v (Q : unit -> vm -> Prop) s : Q tt (set_memory (put_word a v) s) -> wp (store a v) Q s.
Proof. done. Qed.

Lemma wp_access {A} (o : option A) (x : A) (Q : A -> vm -> Prop) s : o = Some x -> Q x s -> wp (lift (access o)) Q s.
Proof. by intros ->. Qed.

Lemma wp_lift_ok {A} (r : res A) (x : A) (Q : A -> vm -> Prop) s : r = Ok x -> Q x s -> wp (lift r) Q s.
Proof. by intros ->. Qed.
End rules.

Ltac vm_step :=
  lazymatch goal with
  | |- wp (load _) _ _ => apply wp_load
  | |- wp (store _ _) _ _ => apply wp_store
  | |- wp (palloc _) _ _ => apply wp_palloc
  | _ => wp_step
  end.
Ltac vm_steps := repeat vm_step.

(** * The translation lookaside buffers *)

Section tlbs.
Context (init_page_dir : Z).
Implicit Types (s : vm) (pd : Z) (i self : nat) (c : cpu) (cs : list cpu).

(** CPU registers hold addresses of memory. *)
Definition regs_ok cs : Prop := Forall (fun c => 0 <= cr3 c < 2 ^ 30) cs.

(** The CPU's buffer may have been emptied, and has been if it uses [pd]. *)
Record flush1 pd c c' : Prop := {
  fl_cr3 : cr3 c' = cr3 c;
  fl_tlb : tlb c' = tlb c \/ tlb c' = ∅;
  fl_pd : cr3 c + PHYS_BASE = pd -> tlb c' = ∅;
}.

Lemma active_pd_spec s i c (Q : Z -> vm -> Prop) : vm_cpus s !! i = Some c -> 0 <= cr3 c < 2 ^ 30 -> Q (cr3 c + PHYS_BASE) s ->
  wp (active_pd i) Q s.
Proof.
  intros Hc Hr HQ. unfold active_pd. wp_steps. eapply wp_access; [done|]. eapply wp_lift_ok; [|exact HQ].
  unfold ptov. unfold PHYS_BASE in *. rewrite ltb_true by lia. cbn [assert rbind]. by rewrite u32_small by lia.
Qed.

Lemma activate_spec s i pd (Q : unit -> vm -> Prop) : PHYS_BASE <= pd -> Q tt (set_cpu i (mkCpu (pd - PHYS_BASE) ∅) s) ->
  wp (pagedir_activate init_page_dir i pd) Q s.
Proof.
  intros Hpd HQ. unfold pagedir_activate. unfold PHYS_BASE in Hpd. rewrite eqb_false by (unfold NULL; lia). wp_steps.
  eapply wp_lift_ok; [by apply vtop_ok|]. unfold lcr3. by wp_steps.
Qed.

(** One CPU handles the request. *)
Lemma handle_spec s i c (Q : unit -> vm -> Prop) : vm_cpus s !! i = Some c -> 0 <= cr3 c < 2 ^ 30 ->
  (forall c', flush1 (tf_pd (vm_flush s)) c c' ->
     Q tt (mkVm (vm_pages s) (<[i := c']> (vm_cpus s)) (mkFlush (tf_pd (vm_flush s)) (s32 (tf_remaining (vm_flush s) - 1))))) ->
  wp (pagedir_handle_tlbflush_request init_page_dir i) Q s.
Proof.
  intros Hc Hr HQ. unfold pagedir_handle_tlbflush_request. wp_steps. eapply active_pd_spec; [done|done|]. wp_steps.
  destruct (Z.eqb_spec (cr3 c + PHYS_BASE) (tf_pd (vm_flush s))) as [E|E].
  - wp_steps. eapply active_pd_spec; [done|done|]. apply activate_spec; [unfold PHYS_BASE; lia|]. wp_steps. apply HQ.
    split; cbn; [lia|by right|done].
  - wp_steps. specialize (HQ c). rewrite list_insert_id in HQ by done. apply HQ. split; [done|by left|done].
Qed.

Lemma ipi_spec l : forall s (Q : unit -> vm -> Prop), NoDup l -> (forall i, i ∈ l -> (i < length (vm_cpus s))%nat) -> regs_ok (vm_cpus s) ->
  Z.of_nat (length l) <= tf_remaining (vm_flush s) < 2 ^ 31 ->
  (forall cs, length cs = length (vm_cpus s) ->
     (forall i c c', vm_cpus s !! i = Some c -> cs !! i = Some c' -> if decide (i ∈ l) then flush1 (tf_pd (vm_flush s)) c c' else c' = c) ->
     Q tt (mkVm (vm_pages s) cs (mkFlush (tf_pd (vm_flush s)) (tf_remaining (vm_flush s) - Z.of_nat (length l))))) ->
  wp (ipi_tlb init_page_dir l) Q s.
Proof.
  induction l as [|i l IH]; intros s Q Hnd Hin Hr Hrem HQ; cbn [ipi_tlb].
  - wp_steps. destruct s as [p cs [fp fr]]. cbn in *. replace fr with (fr - 0) by lia. apply HQ; [done|]. intros i c c' -> [= <-]. done.
  - apply NoDup_cons in Hnd as [Hni Hnd]. destruct (lookup_lt_is_Some_2 (vm_cpus s) i) as [c Hc]; [apply Hin; by left|].
    apply wp_bind. pose proof (Forall_lookup_1 _ _ _ _ Hr Hc) as Hrc. eapply handle_spec; [done|done|]. intros c1 Hf. cbn [length] in *.
    rewrite s32_small by lia. apply IH; cbn; [done|intros j Hj; rewrite length_insert; apply Hin; by right| |lia|].
    { apply Forall_insert; [done|]. by rewrite (fl_cr3 _ _ _ Hf). }
    intros cs Hlen Hcs. rewrite length_insert in Hlen. replace (tf_remaining (vm_flush s) - 1 - Z.of_nat (length l)) with (tf_remaining (vm_flush s) - Z.of_nat (S (length l))) by lia.
    apply HQ; [done|]. intros j cj cj' Hj Hj'. destruct (decide (j = i)) as [->|Hne].
    + assert (cj = c) as -> by congruence. rewrite decide_True by (by left). specialize (Hcs i c1 cj'). rewrite decide_False in Hcs by done.
      rewrite Hcs; [done| |done]. apply list_lookup_insert_eq. by apply lookup_lt_Some in Hj.
    + specialize (Hcs j cj cj'). rewrite list_lookup_insert_ne in Hcs by done. specialize (Hcs Hj Hj').
      destruct (decide (j ∈ l)) as [Hl|Hl]; [rewrite decide_True by (by right); done|]. rewrite decide_False; [done|]. by intros [?|?]%elem_of_cons.
Qed.

(** Nothing but the buffers changes, and no CPU that uses [pd] keeps an
    entry; this is enough if the directory is in use on one CPU at most. *)
Definition exclusive cs pd : Prop := forall i j c d, cs !! i = Some c -> cs !! j = Some d ->
  cr3 c + PHYS_BASE = pd -> cr3 d + PHYS_BASE = pd -> i = j.

Definition flushed pd cs cs' : Prop := Forall2 (flush1 pd) cs cs'.

Lemma filter_all self l : Forall (fun i => i <> self) l -> filter (fun i => i <> self) l = l.
Proof. induction 1 as [|i l Hi _ IH]; [done|]. by rewrite filter_cons_True, IH. Qed.

Lemma others_length self n : (self < n)%nat -> length (filter (fun i => i <> self) (seq 0 n)) = (n - 1)%nat.
Proof.
  intros H. replace n with (self + S (n - S self))%nat at 1 by lia. rewrite seq_app, filter_app. cbn [seq Nat.add].
  rewrite filter_cons_False by (by intros []). rewrite !filter_all.
  - rewrite length_app, !length_seq. lia.
  - apply Forall_forall. intros i Hi%elem_of_seq. lia.
  - apply Forall_forall. intros i Hi%elem_of_seq. lia.
Qed.

Lemma invalidate_spec s self pd (Q : unit -> vm -> Prop) : (self < length (vm_cpus s))%nat -> regs_ok (vm_cpus s) ->
  exclusive (vm_cpus s) pd -> PHYS_BASE <= pd -> Z.of_nat (length (vm_cpus s)) < 2 ^ 31 ->
  (forall s', vm_pages s' = vm_pages s -> flushed pd (vm_cpus s) (vm_cpus s') -> Q tt s') ->
  wp (invalidate_pagedir init_page_dir self pd) Q s.
Proof.
  intros Hs Hr Hex Hpd Hn HQ. destruct (lookup_lt_is_Some_2 _ _ Hs) as [c Hc]. pose proof (Forall_lookup_1 _ _ _ _ Hr Hc) as Hrc.
  unfold invalidate_pagedir. wp_steps. eapply active_pd_spec; [done|done|]. destruct (Z.eqb_spec (cr3 c + PHYS_BASE) pd) as [E|E].
  - apply activate_spec; [done|]. apply HQ; [done|]. cbn. apply Forall2_same_length_lookup_2; [by rewrite length_insert|].
    intros i d d' Hd Hd'. destruct (decide (i = self)) as [->|Hne].
    + rewrite list_lookup_insert_eq in Hd' by done. injection Hd' as <-. assert (d = c) as -> by congruence. split; cbn; [lia|by right|done].
    + rewrite list_lookup_insert_ne in Hd' by done. assert (d' = d) as -> by congruence. split; [done|by left|].
      intros Ed. destruct Hne. by eapply Hex.
  - unfold invalidate_pagedir_others. wp_steps. set (others := filter _ _).
    assert (Hl : length others = (length (vm_cpus s) - 1)%nat) by (by apply others_length).
    apply ipi_spec; cbn; [apply NoDup_filter, NoDup_seq| |done|rewrite Hl; lia|].
    { intros i [_ Hi]%list_elem_of_filter. apply elem_of_seq in Hi. lia. }
    intros cs Hlen Hcs. wp_steps. cbn [tf_remaining vm_flush]. rewrite Hl, ltb_false by lia. wp_steps. apply HQ; [done|].
    apply Forall2_same_length_lookup_2; [done|]. intros i d d' Hd Hd'. specialize (Hcs i d d' Hd Hd'). case_decide as Hi; [done|]. subst d'.
    split; [done|by left|]. intros Ed. destruct Hi. apply list_elem_of_filter. split.
    + intros ->. assert (d = c) as -> by congruence. congruence.
    + apply elem_of_seq. apply lookup_lt_Some in Hd. lia.
Qed.
End tlbs.

(** * Entries *)

Section lookups.
Context (init_page_dir init_ram_pages : Z).
Implicit Types (s : vm) (D : gmap Z (gmap Z Z)) (pd va : Z) (pts : gmap Z Z).

Lemma vpn_split va : pd_no va * 1024 + pt_no va = va / 4096.
Proof. rewrite pd_no_div, pt_no_mod. pose proof (Z.div_mod (va / 4096) 1024 ltac:(lia)). lia. Qed.

Lemma pte_at m pts va pt : pts !! pd_no va = Some pt -> pte_of m pts (va / 4096) = entry m pt (pt_no va).
Proof. intros H. unfold pte_of. by rewrite <- pd_no_div, H, <- pt_no_mod. Qed.

Lemma pte_none m pts va : pts !! pd_no va = None -> pte_of m pts (va / 4096) = 0.
Proof. intros H. unfold pte_of. by rewrite <- pd_no_div, H. Qed.

Lemma page_nonnull p a k : mem_ok p -> page p a -> 0 <= k -> (a + 4 * k =? NULL) = false.
Proof. intros Hm Ha Hk. destruct (page_range _ _ Hm Ha) as [H _]. apply eqb_false. unfold PHYS_BASE, NULL in *. lia. Qed.

Lemma points_nonzero e p : points e p -> (e =? 0) = false.
Proof. intros [H _]. apply eqb_false. intros ->. done. Qed.

Lemma lookup_page_spec s D pd pts va create (Q : Z -> vm -> Prop) : world (vm_pages s) D -> D !! pd = Some pts -> 0 <= va < PHYS_BASE ->
  (forall pt, pts !! pd_no va = Some pt -> Q (pt + 4 * pt_no va) s) ->
  (pts !! pd_no va = None -> create = false \/ full (vm_pages s) false -> Q NULL s) ->
  (pts !! pd_no va = None -> create = true -> forall p1 pt e, got (vm_pages s) p1 pt true -> 0 <= e < 2 ^ 32 -> points e pt ->
     Q (pt + 4 * pt_no va) (with_pages (add_table p1 pd (pd_no va) e) s)) ->
  wp (lookup_page pd va create) Q s.
Proof.
  intros Hw HD Hva Hsome Hnone Hnew. pose proof (wd_dir _ _ Hw _ _ HD) as Hd. pose proof (wd_mem _ _ Hw) as Hm. pose proof (pd_no_range va Hva) as Hi.
  pose proof (pt_no_range va) as Hj. unfold lookup_page. wp_steps.
  { pose proof (page_nonnull _ pd 0 Hm (dr_pd _ _ _ Hd) ltac:(lia)) as E. rewrite Z.mul_0_r, Z.add_0_r in E. by rewrite E. }
  { unfold is_user_vaddr. rewrite ltb_true by lia. apply orb_true_r. }
  vm_steps. change (get_word (memory (vm_pages s)) (pd + 4 * pd_no va)) with (entry (memory (vm_pages s)) pd (pd_no va)).
  destruct (pts !! pd_no va) as [pt|] eqn:Ept.
  - pose proof (dr_some _ _ _ Hd _ _ Ept) as Hp. rewrite (points_nonzero _ _ Hp). vm_steps.
    eapply wp_lift_ok; [by apply pde_points|]. wp_steps. by apply Hsome.
  - rewrite (dr_none _ _ _ Hd _ Hi Ept). change (0 =? 0) with true. cbv iota. destruct create; wp_steps; [|by apply Hnone; [|left]].
    vm_steps. apply get_page_spec; [done|done|intros Hf; change (NULL =? NULL) with true; cbv iota; wp_steps; rewrite with_same; by apply Hnone; [|right]|].
    intros pt p1 Hg. change (negb (Z.land PAL_ZERO PAL_ZERO =? 0)) with true in Hg. destruct (page_range _ _ (gt_ok _ _ _ _ Hg) (got_page _ _ _ _ Hg)) as [R1 R2].
    rewrite eqb_false by (unfold PHYS_BASE, NULL in *; lia). wp_steps.
    destruct (pde_created pt) as (e & Ee & Her & Hpe); [apply Hg|lia|]. eapply wp_lift_ok; [exact Ee|]. vm_steps.
    eapply wp_lift_ok. { cbn [vm_pages set_memory with_pages memory]. rewrite word_put_same by lia. by apply pde_points. }
    wp_steps. by apply Hnew.
Qed.

(** ** The lookaside buffers and memory *)

(** The entry that a CPU with page directory [pd] finds for page number [v]. *)
Definition walk (m : Z -> Z) (pd v : Z) : Z :=
  let e := entry m pd (v / 1024) in
  if present e then match ptov (Z.land e PTE_ADDR) with Ok pt => entry m pt (v mod 1024) | Err _ => 0 end else 0.

(** The buffered entry [c] agrees with [e] in memory: it leads to the same
    page and allows and records nothing that [e] does not. *)
Record fits (c e : Z) : Prop := {
  ft_present : present c = true;
  ft_sub : Z.land c e = c;
  ft_addr : Z.land c PTE_ADDR = Z.land e PTE_ADDR;
}.

Definition coherent s : Prop := forall c v e, c ∈ vm_cpus s -> 0 <= v < PAGES -> tlb c !! v = Some e ->
  fits e (walk (memory (vm_pages s)) (cr3 c + PHYS_BASE) v).

(** The CPUs use page directories of the machine. *)
Record cpus_ok cs D : Prop := {
  co_dir : forall c, c ∈ cs -> is_Some (D !! (cr3 c + PHYS_BASE));
  co_cnt : Z.of_nat (length cs) < 2 ^ 31;
}.

Lemma walk_dir p pd pts v : dir p pd pts -> 0 <= v < PAGES -> walk (memory p) pd v = pte_of (memory p) pts v.
Proof.
  intros Hd Hv. unfold walk, pte_of. assert (Hi : 0 <= v / 1024 < 768).
  { unfold PAGES in Hv. split; [apply Z.div_pos; lia|]. apply Z.div_lt_upper_bound; lia. }
  destruct (pts !! (v / 1024)) as [pt|] eqn:E.
  - destruct (dr_some _ _ _ Hd _ _ E) as [-> ->]. done.
  - by rewrite (dr_none _ _ _ Hd _ Hi E).
Qed.

Lemma cpus_regs p D cs : world p D -> cpus_ok cs D -> regs_ok cs.
Proof.
  intros Hw [Hc _]. apply Forall_forall. intros c [pts HD]%Hc.
  destruct (page_range _ _ (wd_mem _ _ Hw) (dr_pd _ _ _ (wd_dir _ _ Hw _ _ HD))) as [H1 H2]. unfold PHYS_BASE in *. lia.
Qed.

Lemma flushed_cpus pd cs cs' c' : flushed pd cs cs' -> c' ∈ cs' -> exists c, c ∈ cs /\ flush1 pd c c'.
Proof.
  intros HF [i Hi]%list_elem_of_lookup. destruct (Forall2_lookup_r _ _ _ _ _ HF Hi) as (c & Hc & Hf). exists c. split; [|done].
  by eapply list_elem_of_lookup_2.
Qed.

Lemma flushed_ok pd cs cs' D : flushed pd cs cs' -> cpus_ok cs D -> cpus_ok cs' D.
Proof.
  intros HF [Hc Hn]. split.
  - intros c' Hc'. destruct (flushed_cpus _ _ _ _ HF Hc') as (c & Hin & Hf). rewrite (fl_cr3 _ _ _ Hf). by apply Hc.
  - by rewrite <- (Forall2_length _ _ _ HF).
Qed.

(** The buffers still agree with memory when each entry in use that has
    changed was flushed or still covers the buffered one. *)
Lemma coherent_keep s s' D D' : world (vm_pages s) D -> world (vm_pages s') D' -> cpus_ok (vm_cpus s) D -> coherent s ->
  (forall c', c' ∈ vm_cpus s' -> exists c, c ∈ vm_cpus s /\ cr3 c' = cr3 c /\ (tlb c' = tlb c \/ tlb c' = ∅) /\
     (tlb c' = ∅ \/ exists pts pts', D !! (cr3 c + PHYS_BASE) = Some pts /\ D' !! (cr3 c + PHYS_BASE) = Some pts' /\
        forall v e, 0 <= v < PAGES -> fits e (pte_of (memory (vm_pages s)) pts v) -> fits e (pte_of (memory (vm_pages s')) pts' v))) -> coherent s'.
Proof.
  intros Hw Hw' Hc Hco H c' v e Hin Hv He. destruct (H c' Hin) as (c & Hcin & -> & Ht & Hk).
  destruct Hk as [E|(pts & pts' & HD & HD' & Hf)]; [rewrite E in He; done|]. destruct Ht as [Et|Et]; rewrite Et in He; [|done].
  rewrite (walk_dir _ _ pts') by (done || by apply (wd_dir _ _ Hw')). apply Hf; [done|].
  rewrite <- (walk_dir _ (cr3 c + PHYS_BASE) pts) by (done || by apply (wd_dir _ _ Hw)). by apply Hco.
Qed.

Lemma fits_present c e : fits c e -> present e = true.
Proof.
  intros [Hp Hs _]. unfold present in *. apply negb_true_iff, Z.eqb_neq in Hp. apply negb_true_iff, Z.eqb_neq. intros E. apply Hp.
  rewrite <- Hs, <- Z.land_assoc, E. apply Z.land_0_r.
Qed.

Lemma fits_or c e f : Z.land f PTE_ADDR = 0 -> fits c e -> fits c (Z.lor e f).
Proof.
  intros Hf [Hp Hs Ha]. split; [done| |by rewrite addr_or]. rewrite Z.land_lor_distr_r, Hs.
  apply Z.bits_inj'. intros k Hk. rewrite Z.lor_spec, Z.land_spec. by destruct (Z.testbit c k), (Z.testbit f k).
Qed.

End lookups.

End PagedirOps.
