(* ===== verification/PagedirProps.v ===== *)
(** Page directories refine finite maps from page numbers to pages, one for
    each address space, and the translation lookaside buffers agree with
    them. *)
From S2P Require Import Prelude Bitmap Palloc Pagedir PagedirSpec PagedirOps.
From stdpp Require Import options.

#[local] Open Scope Z_scope.

Module PagedirProps.
Import Palloc Pagedir PagedirSpec PagedirOps.

(** * Requests *)

Inductive request :=
| Set_page (upage kpage : Z) (writable : bool)
| Get_page (uaddr : Z)
| Clear_page (upage : Z)
| Is_dirty (vpage : Z)
| Set_dirty (vpage : Z) (dirty : bool)
| Is_accessed (vpage : Z)
| Set_accessed (vpage : Z) (accessed : bool).

Abbreviation spc := (Z -> option mapping).

(** [A'] is [A] but for page number [k]. *)
Definition upd (A : spc) (k : Z) (x : option mapping) (A' : spc) : Prop :=
  forall w, 0 <= w < PAGES -> A' w = if decide (w = k) then x else A w.

Definition same (A A' : spc) : Prop := forall w, 0 <= w < PAGES -> A' w = A w.

Definition with_dirty (b : bool) (mp : mapping) : mapping := mkMap (mp_page mp) (mp_writable mp) (mp_accessed mp) b.
Definition with_accessed (b : bool) (mp : mapping) : mapping := mkMap (mp_page mp) (mp_writable mp) b (mp_dirty mp).

(** The answer [v] to [r] and the space [A'] after it; [nomem]: the kernel's pages are all in use. *)
Definition answers (nomem : Prop) (A : spc) (r : request) (v : Z) (A' : spc) : Prop :=
  match r with
  | Set_page upage kpage w =>
      (v = 1 /\ upd A (upage / 4096) (Some (mkMap kpage w false false)) A') \/ (v = 0 /\ nomem /\ same A A')
  | Get_page uaddr =>
      v = match A (uaddr / 4096) with Some mp => mp_page mp + uaddr mod 4096 | None => NULL end /\ same A A'
  | Clear_page upage => upd A (upage / 4096) None A'
  | Is_dirty vpage => (forall mp, A (vpage / 4096) = Some mp -> v = Z.b2z (mp_dirty mp)) /\ same A A'
  | Set_dirty vpage b => upd A (vpage / 4096) (with_dirty b <$> A (vpage / 4096)) A'
  | Is_accessed vpage => (forall mp, A (vpage / 4096) = Some mp -> v = Z.b2z (mp_accessed mp)) /\ same A A'
  | Set_accessed vpage b => upd A (vpage / 4096) (with_accessed b <$> A (vpage / 4096)) A'
  end.

Section requests.
Context (init_page_dir init_ram_pages : Z).
Implicit Types (s : vm) (D : gmap Z (gmap Z Z)) (pd va : Z) (pts : gmap Z Z) (r : request).

Definition handle (self : nat) (pd : Z) (r : request) : VM Z :=
  match r with
  | Set_page upage kpage w => let! b := pagedir_set_page init_page_dir init_ram_pages pd upage kpage w in ret (Z.b2z b)
  | Get_page uaddr => pagedir_get_page pd uaddr
  | Clear_page upage => pagedir_clear_page init_page_dir self pd upage;;; ret 0
  | Is_dirty vpage => let! b := pagedir_is_dirty pd vpage in ret (Z.b2z b)
  | Set_dirty vpage b => pagedir_set_dirty init_page_dir self pd vpage b;;; ret 0
  | Is_accessed vpage => let! b := pagedir_is_accessed pd vpage in ret (Z.b2z b)
  | Set_accessed vpage b => pagedir_set_accessed init_page_dir self pd vpage b;;; ret 0
  end.

Definition address r : Z :=
  match r with
  | Set_page a _ _ | Get_page a | Clear_page a | Is_dirty a | Set_dirty a _ | Is_accessed a | Set_accessed a _ => a
  end.

(** What the callers owe: a user address; for a new mapping, that the page
    number has none yet, and a page in use that no space has. *)
Definition valid s D pd pts r : Prop :=
  0 <= address r < PHYS_BASE /\
  match r with
  | Set_page upage kpage _ =>
      upage mod 4096 = 0 /\ pd <> init_page_dir /\ space (memory (vm_pages s)) pts (upage / 4096) = None /\
      page (vm_pages s) kpage /\ (kpage - PHYS_BASE) / 4096 < init_ram_pages /\ ~ table D kpage /\
      forall pd' v, ~ maps (vm_pages s) D pd' v kpage
  | Clear_page upage => upage mod 4096 = 0
  | _ => True
  end.

(** The state of the machine. *)
Record machine s D (self : nat) : Prop := {
  mc_world : world (vm_pages s) D;
  mc_cpus : cpus_ok (vm_cpus s) D;
  mc_self : (self < length (vm_cpus s))%nat;
  mc_tlb : coherent s;
}.

(** No other address space and no mapped page changes. *)
Record others s s' D pd : Prop := {
  ot_space : forall pd' pts' w, D !! pd' = Some pts' -> pd' <> pd -> 0 <= w < PAGES ->
    space (memory (vm_pages s')) pts' w = space (memory (vm_pages s)) pts' w;
  ot_bytes : forall pd' v a x, maps (vm_pages s) D pd' v a -> a <= x < a + 4096 -> memory (vm_pages s') x = memory (vm_pages s) x;
}.

(** No page in use changes unless it holds a table, and the pools stay. *)
Record kept s s' D : Prop := {
  kt_bytes : forall a x, page (vm_pages s) a -> ~ table D a -> a <= x < a + 4096 -> memory (vm_pages s') x = memory (vm_pages s) x;
  kt_pools : same_pools (vm_pages s) (vm_pages s');
}.

Definition served s D (self : nat) pd pts r v s' : Prop :=
  exists pts', machine s' (<[pd := pts']> D) self /\ others s s' D pd /\ kept s s' D /\
    answers (full (vm_pages s) false) (space (memory (vm_pages s)) pts) r v (space (memory (vm_pages s')) pts').

(** Nothing changes. *)
Lemma served_same s D self pd pts r v : machine s D self -> D !! pd = Some pts ->
  answers (full (vm_pages s) false) (space (memory (vm_pages s)) pts) r v (space (memory (vm_pages s)) pts) -> served s D self pd pts r v s.
Proof. intros Hm HD Ha. exists pts. rewrite insert_id by done. by split_and!. Qed.

(** An entry changes: the buffers are flushed, or the new entry covers all that the old one did. *)
Lemma served_put s s' D self pd pts pt va e r v : machine s D self -> D !! pd = Some pts -> 0 <= va < PHYS_BASE -> pts !! pd_no va = Some pt ->
  entry_ok e -> vm_pages s' = put_entry (vm_pages s) pt (pt_no va) e ->
  flushed pd (vm_cpus s) (vm_cpus s') \/
    vm_cpus s' = vm_cpus s /\ (forall c, fits c (pte_of (memory (vm_pages s)) pts (va / 4096)) -> fits c e) ->
  (forall p, points e p -> (exists mp, space (memory (vm_pages s)) pts (va / 4096) = Some mp /\ mp_page mp = p) \/
    (page (vm_pages s) p /\ ~ table D p /\ forall pd' v', ~ maps (vm_pages s) D pd' v' p)) ->
  (forall A', upd (space (memory (vm_pages s)) pts) (va / 4096) (view e) A' -> answers (full (vm_pages s) false) (space (memory (vm_pages s)) pts) r v A') ->
  served s D self pd pts r v s'.
Proof.
  intros [Hw Hc Hself Hco] HD Hva Hpt He Ep Hfl Hnew Hans. pose proof (pt_no_range va) as Hj. rewrite <- vpn_split in *.
  assert (Hw' : world (vm_pages s') D) by (rewrite Ep; by apply (put_world _ _ pd pts (pd_no va))).
  assert (Hlen : length (vm_cpus s') = length (vm_cpus s)).
  { destruct Hfl as [HF|[-> _]]; [|done]. symmetry. exact (Forall2_length _ _ _ HF). }
  exists pts. rewrite insert_id by done. split_and!.
  - split; [done| |by rewrite Hlen|].
    { destruct Hfl as [HF|[-> _]]; [by eapply flushed_ok|done]. }
    eapply (coherent_keep s s' D D); try done. intros c' Hc'. destruct Hfl as [HF|[Ecs Hcov]].
    + destruct (flushed_cpus _ _ _ _ HF Hc') as (c & Hin & [F1 F2 F3]). exists c. split_and!; [done|done|done|].
      destruct (decide (cr3 c + PHYS_BASE = pd)) as [E|E]; [left; by apply F3|]. right. destruct (co_dir _ _ Hc c Hin) as [pts2 H2].
      exists pts2, pts2. split_and!; [done|done|]. intros w f Hw1 Hf. rewrite Ep. rewrite (put_pte_other _ D pd pts (pd_no va) pt (pt_no va) e Hw HD Hpt Hj He (cr3 c + PHYS_BASE)) by done. done.
    + rewrite Ecs in Hc'. exists c'. split_and!; [done|done|by left|]. right. destruct (co_dir _ _ Hc c' Hc') as [pts2 H2].
      exists pts2, pts2. split_and!; [done|done|]. intros w f Hw1 Hf. rewrite Ep. destruct (decide (cr3 c' + PHYS_BASE = pd)) as [E|E].
      * assert (pts2 = pts) as -> by congruence. rewrite (put_pte _ D pd pts (pd_no va)) by done. case_decide as E'; [|done]. apply Hcov. by rewrite <- E'.
      * rewrite (put_pte_other _ D pd pts (pd_no va) pt (pt_no va) e Hw HD Hpt Hj He (cr3 c' + PHYS_BASE)) by done. done.
  - split.
    + intros pd' pts' w HD' Hne Hw1. unfold space. by rewrite Ep, (put_pte_other _ D pd pts (pd_no va) pt (pt_no va) e Hw HD Hpt Hj He pd').
    + intros pd' v' a x Hm Hx. rewrite Ep. destruct (wd_frame _ _ Hw _ _ _ Hm) as [[Ha _] Ht].
      apply (put_page _ D pd pts (pd_no va) pt (pt_no va) e Hw HD Hpt Hj He a); [done| |done]. intros ->. apply Ht. exists pd, pts. split; [done|]. right. by eexists.
  - split; [|by rewrite Ep; intros [|]].
    intros a x [Ha _] Ht Hx. rewrite Ep. apply (put_page _ D pd pts (pd_no va) pt (pt_no va) e Hw HD Hpt Hj He a); [done| |done].
    intros ->. apply Ht. exists pd, pts. split; [done|]. right. by eexists.
  - apply Hans. intros w Hw1. unfold space. rewrite Ep, (put_pte _ D pd pts (pd_no va)) by done. by case_decide.
Qed.

(** * Flags *)

(** The bits of the accessed and the dirty flag. *)
Definition status f : Prop := f = PTE_A \/ f = PTE_D.

Definition with_flag f (b : bool) : mapping -> mapping := if f =? PTE_D then with_dirty b else with_accessed b.

Lemma view_set e f : status f -> view (Z.lor e f) = with_flag f true <$> view e.
Proof.
  intros Hf. assert (Ha : Z.land f PTE_ADDR = 0) by (by destruct Hf as [-> | ->]).
  unfold view, present. fold (has_flag (Z.lor e f) PTE_P) (has_flag e PTE_P). rewrite addr_or, !flag_or by done.
  replace (has_flag f PTE_P) with false by (by destruct Hf as [-> | ->]). rewrite orb_false_r. destruct (has_flag e PTE_P); [|done].
  destruct (ptov _) as [q|]; [|done]. replace (has_flag f PTE_W) with false by (by destruct Hf as [-> | ->]). rewrite orb_false_r.
  destruct Hf as [-> | ->]; cbn [fmap option_fmap option_map]; f_equal; unfold with_flag, with_accessed, with_dirty; cbn [Z.eqb mp_page mp_writable mp_accessed mp_dirty].
  - change (has_flag PTE_A PTE_A) with true. change (has_flag PTE_A PTE_D) with false. by rewrite orb_true_r, orb_false_r.
  - change (has_flag PTE_D PTE_A) with false. change (has_flag PTE_D PTE_D) with true. by rewrite orb_true_r, orb_false_r.
Qed.

Lemma view_clear e f : status f -> view (Z.land e (u32 (Z.lnot f))) = with_flag f false <$> view e.
Proof.
  intros Hf. assert (Ha : Z.land (u32 (Z.lnot f)) PTE_ADDR = PTE_ADDR) by (by destruct Hf as [-> | ->]).
  unfold view, present. fold (has_flag (Z.land e (u32 (Z.lnot f))) PTE_P) (has_flag e PTE_P). rewrite addr_and, !flag_and by done.
  replace (Z.land (u32 (Z.lnot f)) PTE_P) with PTE_P by (by destruct Hf as [-> | ->]). destruct (has_flag e PTE_P); [|done].
  destruct (ptov _); [|done]. unfold has_flag. destruct Hf as [-> | ->]; cbn; do 2 f_equal; by rewrite Z.land_0_r.
Qed.

Lemma view_absent e : view (Z.land e (u32 (Z.lnot PTE_P))) = None.
Proof. unfold view, present. rewrite <- Z.land_assoc. change (Z.land (u32 (Z.lnot PTE_P)) PTE_P) with 0. by rewrite Z.land_0_r. Qed.

(** Changing flags keeps the page. *)
Lemma points_set e f p : status f -> points (Z.lor e f) p <-> points e p.
Proof.
  intros Hf. assert (E1 : Z.land f PTE_ADDR = 0) by (by destruct Hf as [-> | ->]). assert (E2 : has_flag f PTE_P = false) by (by destruct Hf as [-> | ->]).
  unfold points, present. fold (has_flag (Z.lor e f) PTE_P) (has_flag e PTE_P). by rewrite addr_or, flag_or, E2, orb_false_r.
Qed.

Lemma points_clear e f p : status f -> points (Z.land e (u32 (Z.lnot f))) p <-> points e p.
Proof.
  intros Hf. assert (E1 : Z.land (u32 (Z.lnot f)) PTE_ADDR = PTE_ADDR) by (by destruct Hf as [-> | ->]).
  assert (E2 : Z.land (u32 (Z.lnot f)) PTE_P = PTE_P) by (by destruct Hf as [-> | ->]).
  unfold points, present. fold (has_flag (Z.land e (u32 (Z.lnot f))) PTE_P) (has_flag e PTE_P). by rewrite addr_and, flag_and, E2.
Qed.

Lemma points_view e p : points e p -> exists mp, view e = Some mp /\ mp_page mp = p.
Proof. intros [H1 H2]. unfold view. rewrite H1, H2. by eexists. Qed.

Lemma view_points e mp : view e = Some mp -> points e (mp_page mp).
Proof. unfold view, points. destruct (present e); [|done]. destruct (ptov _); [|done]. by intros [= <-]. Qed.

Lemma entry_ok_keep e e' : entry_ok e -> 0 <= e' < 2 ^ 32 -> (forall p, points e' p <-> points e p) -> present e' = present e -> entry_ok e'.
Proof. intros [_ Hp] Hr Hpt Hpr. split; [done|]. rewrite Hpr. intros [p H]%Hp. exists p. by apply Hpt. Qed.

Lemma present_set e f : status f -> present (Z.lor e f) = present e.
Proof. intros Hf. unfold present. fold (has_flag (Z.lor e f) PTE_P) (has_flag e PTE_P). rewrite flag_or. destruct Hf as [-> | ->]; by rewrite orb_false_r. Qed.

Lemma present_clear e f : status f -> present (Z.land e (u32 (Z.lnot f))) = present e.
Proof. intros Hf. unfold present. fold (has_flag (Z.land e (u32 (Z.lnot f))) PTE_P) (has_flag e PTE_P). rewrite flag_and. by destruct Hf as [-> | ->]. Qed.

(** * The handlers *)

Section handlers.
Context (s : vm) (D : gmap Z (gmap Z Z)) (self : nat) (pd : Z) (pts : gmap Z Z).
Context (Hm : machine s D self) (HD : D !! pd = Some pts) (Hx : exclusive (vm_cpus s) pd).

Abbreviation mem := (memory (vm_pages s)).
Abbreviation A := (space mem pts).
Abbreviation out r := (served s D self pd pts r).

Lemma none_mapping va : pts !! pd_no va = None -> A (va / 4096) = None.
Proof. intros E. unfold space. by rewrite pte_none. Qed.

Lemma some_entry va pt : 0 <= va < PHYS_BASE -> pts !! pd_no va = Some pt ->
  get_word mem (pt + 4 * pt_no va) = pte_of mem pts (va / 4096) /\ entry_ok (pte_of mem pts (va / 4096)) /\ (pt + 4 * pt_no va =? NULL) = false.
Proof using HD Hm.
  intros Hva Hpt. rewrite (pte_at _ _ _ _ Hpt). pose proof (pt_no_range va) as Hj. pose proof (wd_dir _ _ (mc_world _ _ _ Hm) _ _ HD) as Hd.
  split_and!; [done|by eapply Hd|]. eapply page_nonnull; [apply (wd_mem _ _ (mc_world _ _ _ Hm))|by eapply Hd|lia].
Qed.

Lemma serve_get va : 0 <= va < PHYS_BASE -> wp (pagedir_get_page pd va) (out (Get_page va)) s.
Proof using HD Hm.
  intros Hva. unfold pagedir_get_page. wp_steps; [unfold is_user_vaddr; apply Z.ltb_lt; lia|].
  eapply lookup_page_spec; [apply Hm|done|done| | |done].
  - intros pt Hpt. destruct (some_entry va pt Hva Hpt) as (Ee & [_ He] & ->). cbn [negb]. vm_steps. rewrite Ee.
    fold (present (pte_of mem pts (va / 4096))). destruct (present (pte_of mem pts (va / 4096))) eqn:Hp.
    + destruct (He eq_refl) as [p Hpp]. wp_steps. eapply wp_lift_ok; [apply Hpp|]. wp_steps. apply served_same; [done|done|].
      split; [|done]. unfold space. destruct (points_view _ _ Hpp) as (mp & -> & <-). by rewrite pg_ofs_mod.
    + wp_steps. apply served_same; [done|done|]. split; [|done]. unfold space, view. by rewrite Hp.
  - intros Hn _. change (NULL =? NULL) with true. cbn [negb]. wp_steps. apply served_same; [done|done|]. split; [|done]. by rewrite none_mapping.
Qed.

Lemma serve_test f va (g : mapping -> bool) r : 0 <= va < PHYS_BASE ->
  (forall e mp, view e = Some mp -> g mp = has_flag e f) ->
  (forall v, (forall mp, A (va / 4096) = Some mp -> v = Z.b2z (g mp)) -> answers (full (vm_pages s) false) A r v A) ->
  wp (let! b := test_flag f pd va in ret (Z.b2z b)) (out r) s.
Proof using HD Hm.
  intros Hva Hg Hans. unfold test_flag. wp_steps. eapply lookup_page_spec; [apply Hm|done|done| | |done].
  - intros pt Hpt. destruct (some_entry va pt Hva Hpt) as (Ee & _ & ->). cbn [negb]. vm_steps. rewrite Ee.
    apply served_same; [done|done|]. apply Hans. intros mp Hmp. by rewrite (Hg _ _ Hmp).
  - intros Hn _. change (NULL =? NULL) with true. cbn [negb]. wp_steps. apply served_same; [done|done|]. apply Hans. intros mp. by rewrite none_mapping.
Qed.

Lemma set_flag_none va f b r : 0 <= va < PHYS_BASE -> pts !! pd_no va = None ->
  (forall A', upd A (va / 4096) (with_flag f b <$> A (va / 4096)) A' -> answers (full (vm_pages s) false) A r 0 A') -> out r 0 s.
Proof using HD Hm.
  intros Hva Hn Hans. apply served_same; [done|done|]. apply Hans. intros w Hw. case_decide as E; [|done]. subst w. by rewrite none_mapping.
Qed.

Lemma invalidate_put va pt e r : 0 <= va < PHYS_BASE -> pts !! pd_no va = Some pt -> entry_ok e ->
  (forall p, points e p -> points (pte_of mem pts (va / 4096)) p) ->
  (forall A', upd A (va / 4096) (view e) A' -> answers (full (vm_pages s) false) A r 0 A') ->
  wp (invalidate_pagedir init_page_dir self pd) (fun _ => wp (ret 0) (out r)) (set_memory (put_word (pt + 4 * pt_no va) e) s).
Proof using HD Hm Hx.
  intros Hva Hpt He Hp Hans. pose proof (mc_world _ _ _ Hm) as Hw. pose proof (mc_cpus _ _ _ Hm) as Hc.
  destruct (page_range _ _ (wd_mem _ _ Hw) (dr_pd _ _ _ (wd_dir _ _ Hw _ _ HD))) as [Hpd _].
  apply invalidate_spec; [apply Hm|by eapply cpus_regs|done|done|apply Hc|]. intros s' Ep HF. cbn in Ep, HF. wp_steps.
  apply (served_put s s' D self pd pts pt va e); [done|done|done|done|done|done|by left| |done].
  intros p Hpe. left. destruct (points_view _ _ (Hp p Hpe)) as (mp & ? & ?). by exists mp.
Qed.

Lemma serve_set_flag f va b r : status f -> 0 <= va < PHYS_BASE ->
  (forall A', upd A (va / 4096) (with_flag f b <$> A (va / 4096)) A' -> answers (full (vm_pages s) false) A r 0 A') ->
  wp (set_flag init_page_dir f self pd va b;;; ret 0) (out r) s.
Proof using HD Hm Hx.
  intros Hf Hva Hans. unfold set_flag. wp_steps. eapply lookup_page_spec; [apply Hm|done|done| | |done].
  2:{ intros Hn _. change (NULL =? NULL) with true. cbn [negb]. wp_steps. by eapply set_flag_none. }
  intros pt Hpt. destruct (some_entry va pt Hva Hpt) as (Ee & He & ->). cbn [negb]. vm_steps. rewrite Ee. set (e := pte_of mem pts (va / 4096)) in *.
  assert (Hfr : 0 <= f < 2 ^ 32) by (destruct Hf as [-> | ->]; by split). pose proof (en_range _ He) as Hr. destruct b; vm_steps.
  - eapply (served_put s _ D self pd pts pt va (Z.lor e f)); [done|done|done|done| |done| | |].
    + eapply entry_ok_keep; [exact He|by apply or_range|intros p; by apply points_set|by apply present_set].
    + right. split; [done|]. intros c. apply fits_or. by destruct Hf as [-> | ->].
    + intros p Hp%points_set; [|done]. left. destruct (points_view _ _ Hp) as (mp & ? & ?). by exists mp.
    + rewrite view_set by done. apply Hans.
  - apply (invalidate_put va pt); [done|done| |intros p; by apply points_clear|rewrite view_clear by done; apply Hans].
    eapply entry_ok_keep; [exact He|apply and_range; [done|by apply u32_range]|intros p; by apply points_clear|by apply present_clear].
Qed.

Lemma serve_clear va : 0 <= va < PHYS_BASE -> va mod 4096 = 0 -> wp (pagedir_clear_page init_page_dir self pd va;;; ret 0) (out (Clear_page va)) s.
Proof using HD Hm Hx.
  intros Hva Hal. unfold pagedir_clear_page. wp_steps; [rewrite pg_ofs_mod; by apply eqb_true|unfold is_user_vaddr; apply Z.ltb_lt; lia|].
  assert (Hsame : view (pte_of mem pts (va / 4096)) = None -> out (Clear_page va) 0 s).
  { intros E. apply served_same; [done|done|]. intros w Hw. case_decide as Ew; [|done]. by subst w. }
  eapply lookup_page_spec; [apply Hm|done|done| | |done].
  - intros pt Hpt. destruct (some_entry va pt Hva Hpt) as (Ee & He & ->). cbn [negb]. vm_steps. rewrite Ee.
    fold (present (pte_of mem pts (va / 4096))). destruct (present (pte_of mem pts (va / 4096))) eqn:Hp; vm_steps.
    + apply (invalidate_put va pt); [done|done| | |rewrite view_absent; done].
      * split; [apply and_range; [apply He|by apply u32_range]|]. unfold present. rewrite <- Z.land_assoc. change (Z.land (u32 (Z.lnot PTE_P)) PTE_P) with 0. by rewrite Z.land_0_r.
      * intros p [Hq _]. exfalso. revert Hq. unfold present. rewrite <- Z.land_assoc. change (Z.land (u32 (Z.lnot PTE_P)) PTE_P) with 0. by rewrite Z.land_0_r.
    + apply Hsame. unfold view. by rewrite Hp.
  - intros Hn _. change (NULL =? NULL) with true. cbn [negb]. wp_steps. apply Hsame. by rewrite pte_none.
Qed.

(** The last part of [pagedir_set_page], with the table in place. *)
Lemma set_entry va pt kpage w : 0 <= va < PHYS_BASE -> pts !! pd_no va = Some pt -> A (va / 4096) = None -> page (vm_pages s) kpage ->
  ~ table D kpage -> (forall pd' v, ~ maps (vm_pages s) D pd' v kpage) ->
  wp (let! e := load (pt + 4 * pt_no va) in
      ASSERT (Z.land e PTE_P =? 0);;;
      let! v := lift (pte_create_user kpage w) in
      store (pt + 4 * pt_no va) v;;;
      ret true) (fun b s' => b = true /\ out (Set_page va kpage w) 1 s') s.
Proof using HD Hm.
  intros Hva Hpt Hnone Hk Hnt Hnm. destruct (some_entry va pt Hva Hpt) as (Ee & He & _). set (e := pte_of mem pts (va / 4096)) in *.
  assert (Hp : present e = false).
  { apply not_true_iff_false. intros Hp. destruct (en_points _ He Hp) as [p Hpp]. destruct (points_view _ _ Hpp) as (mp & E & _). unfold space in Hnone. fold e in Hnone. congruence. }
  vm_steps; [rewrite Ee; unfold present in Hp; by apply negb_false_iff in Hp|].
  destruct (page_range _ _ (wd_mem _ _ (mc_world _ _ _ Hm)) Hk) as [R1 R2].
  destruct (pte_created kpage w) as (e' & E' & Hr & Hpe & Hfl); [apply Hk|lia|]. eapply wp_lift_ok; [exact E'|]. vm_steps. split; [done|].
  eapply (served_put s _ D self pd pts pt va e'); [done|done|done|done|by split; [|exists kpage]|done| | |].
  - right. split; [done|]. intros c Hc%fits_present. fold e in Hc. congruence.
  - intros p Hpp. right. assert (p = kpage) as -> by (destruct Hpp, Hpe; congruence). done.
  - intros A' HA'. left. split; [done|]. replace (Some (mkMap kpage w false false)) with (view e'); [done|].
    destruct Hpe as [P1 P2]. unfold view. rewrite P1, P2. rewrite !Hfl by done. by destruct w.
Qed.

End handlers.

(** A table is added to the directory. *)
Lemma add_machine s D self pd pts i pt p1 e : machine s D self -> D !! pd = Some pts -> 0 <= i < 768 -> pts !! i = None ->
  got (vm_pages s) p1 pt true -> 0 <= e < 2 ^ 32 -> points e pt ->
  machine (with_pages (add_table p1 pd i e) s) (<[pd := <[i := pt]> pts]> D) self.
Proof.
  intros [Hw Hc Hself Hco] HD Hi Hn Hg He Hp. assert (Hw' := add_world _ _ _ _ _ _ _ _ Hw HD Hi Hn Hg He Hp). split; [done| |done|].
  - split; [|apply Hc]. intros c Hin. cbn in Hin. destruct (decide (cr3 c + PHYS_BASE = pd)) as [->|Hne]; [by rewrite lookup_insert_eq|].
    rewrite lookup_insert_ne by done. by apply Hc.
  - eapply (coherent_keep s _ D); try done. intros c Hin. cbn in Hin. exists c. split_and!; [done|done|by left|]. right. destruct (co_dir _ _ Hc c Hin) as [pts2 H2].
    destruct (decide (cr3 c + PHYS_BASE = pd)) as [E|Hne].
    + rewrite E in *. assert (pts2 = pts) as -> by congruence. eexists _, _. rewrite lookup_insert_eq. split_and!; [done|done|]. intros v f Hv Hf.
      cbn [vm_pages with_pages]. by rewrite (add_pte (vm_pages s) p1 D pd pts i pt).
    + eexists _, _. rewrite lookup_insert_ne by done. split_and!; [done|done|]. intros v f Hv Hf.
      cbn [vm_pages with_pages]. by rewrite (add_pte_other (vm_pages s) p1 D pd pts i pt e Hw HD Hi Hg (cr3 c + PHYS_BASE)).
Qed.

Lemma served_add s D self pd pts i pt p1 e r v s' : machine s D self -> D !! pd = Some pts -> 0 <= i < 768 -> pts !! i = None ->
  got (vm_pages s) p1 pt true -> points e pt -> (forall n1 n2 A B A', same A B -> answers n1 B r v A' -> answers n2 A r v A') ->
  served (with_pages (add_table p1 pd i e) s) (<[pd := <[i := pt]> pts]> D) self pd (<[i := pt]> pts) r v s' ->
  served s D self pd pts r v s'.
Proof.
  intros [Hw Hc Hself Hco] HD Hi Hn Hg Hp Hans (pts' & Hm' & [O1 O2] & [K1 K2] & Ha). exists pts'. rewrite insert_insert_eq in Hm'. split_and!; [done| | |].
  - split.
    + intros pd' pts2 w HD' Hne Hw2. rewrite (O1 pd') by (done || by rewrite lookup_insert_ne). cbn [vm_pages with_pages]. unfold space. f_equal. by apply (add_pte_other (vm_pages s) p1 D pd pts i pt e Hw HD Hi Hg pd').
    + intros pd' v' a x Hmp Hx. destruct (wd_frame _ _ Hw _ _ _ Hmp) as [Hpg Ht]. assert (Hapd : a <> pd).
      { intros ->. apply Ht. exists pd, pts. split; [done|by left]. }
      rewrite (O2 pd' v' a x); [|destruct Hmp as (pts2 & mp & HD' & Hv & Hs & Ea)|done].
      { cbn [vm_pages with_pages]. by apply (add_same (vm_pages s) p1 D pd pts i pt e Hw HD Hi Hg a). }
      destruct (decide (pd' = pd)) as [->|Hne].
      * assert (pts2 = pts) as -> by congruence. exists (<[i := pt]> pts), mp. rewrite lookup_insert_eq. split_and!; [done|lia..| |done].
        cbn [vm_pages with_pages]. unfold space. by rewrite (add_pte (vm_pages s) p1 D pd pts i pt).
      * exists pts2, mp. rewrite lookup_insert_ne by done. split_and!; [done|lia..| |done]. cbn [vm_pages with_pages]. unfold space. by rewrite (add_pte_other (vm_pages s) p1 D pd pts i pt e Hw HD Hi Hg pd').
  - split.
    + intros a x Hpg Ht Hx. assert (Hapd : a <> pd) by (intros ->; apply Ht; exists pd, pts; split; [done|by left]).
      destruct (got_keeps _ _ _ _ _ Hg Hpg) as [[Hal Hus] Hne]. rewrite (K1 a x); [|by split| |done].
      { cbn [vm_pages with_pages]. by apply (add_same (vm_pages s) p1 D pd pts i pt e Hw HD Hi Hg a). }
      intros (pd2 & pts2 & H2 & Ht2). destruct (add_tables D pd pts i pt HD pd2 pts2 a H2 Ht2) as [[? _]|(q & ? & ?)]; [done|]. apply Ht. by exists pd2, q.
    + intros b. destruct (gt_pools _ _ _ _ Hg b) as [E1 E2], (K2 b) as [E3 E4]. rewrite E3, E4. split; [by destruct b|by destruct b].
  - eapply Hans; [|exact Ha]. intros w Hw2. cbn [vm_pages with_pages]. unfold space. f_equal. by apply (add_pte (vm_pages s) p1 D pd pts i pt).
Qed.

Lemma serve_set s D self pd pts va kpage w : machine s D self -> D !! pd = Some pts -> valid s D pd pts (Set_page va kpage w) ->
  wp (let! b := pagedir_set_page init_page_dir init_ram_pages pd va kpage w in ret (Z.b2z b)) (served s D self pd pts (Set_page va kpage w)) s.
Proof.
  intros Hm HD (Hva & Hal & Hpd & Hnone & Hk & Hram & Hnt & Hnm). cbn [address] in Hva. pose proof (mc_world _ _ _ Hm) as Hw. pose proof (pd_no_range va Hva) as Hi.
  destruct (page_range _ _ (wd_mem _ _ Hw) Hk) as [R1 R2]. unfold pagedir_set_page.
  wp_steps; [rewrite pg_ofs_mod; by apply eqb_true|rewrite pg_ofs_mod; apply eqb_true, Hk|unfold is_user_vaddr; apply Z.ltb_lt; lia|].
  eapply wp_lift_ok; [by apply vtop_ok|]. wp_steps; [change PTSHIFT with 12; rewrite Z.shiftr_div_pow2 by lia; by apply Z.ltb_lt|by apply negb_true_iff, eqb_false|].
  eapply lookup_page_spec; [done|done|done| | |].
  - intros pt Hpt. destruct (some_entry s D self pd pts Hm HD va pt Hva Hpt) as (_ & _ & ->). cbn [negb].
    eapply wp_mono; [by eapply (set_entry s D self pd pts)|]. intros b s' [-> Hs]. by wp_steps.
  - intros Hn [?|Hf]; [done|]. change (NULL =? NULL) with true. cbn [negb]. wp_steps. apply served_same; [done|done|]. right. done.
  - intros Hn _ p1 pt e Hg He Hp. assert (Hm1 := add_machine s D self pd pts (pd_no va) pt p1 e Hm HD Hi Hn Hg He Hp).
    set (s1 := with_pages _ s) in *. set (D1 := <[pd := _]> D) in *. assert (HD1 : D1 !! pd = Some (<[pd_no va := pt]> pts)) by apply lookup_insert_eq.
    assert (Hpt1 : (<[pd_no va := pt]> pts) !! pd_no va = Some pt) by apply lookup_insert_eq.
    destruct (some_entry s1 D1 self pd _ Hm1 HD1 va pt Hva Hpt1) as (_ & _ & ->). cbn [negb]. eapply wp_mono.
    { destruct (got_keeps _ _ _ _ _ Hg Hk) as [Hkp Hne]. eapply (set_entry s1 D1 self pd _ Hm1 HD1 va pt kpage w Hva Hpt1).
      - unfold space. subst s1. cbn [vm_pages with_pages]. rewrite (add_pte (vm_pages s) p1 D pd pts); try done. by apply vpn_range.
      - destruct Hkp. by split.
      - intros (pd2 & pts2 & H2 & Ht2). destruct (add_tables D pd pts (pd_no va) pt HD pd2 pts2 kpage H2 Ht2) as [[? _]|(q & ? & ?)]; [done|]. apply Hnt. by exists pd2, q.
      - intros pd2 v2 Hm2. apply (Hnm pd2 v2). exact (add_maps (vm_pages s) p1 D pd pts (pd_no va) pt e Hw HD Hi Hn Hg pd2 v2 kpage Hm2). }
    intros b s' [-> Hs]. wp_steps. eapply served_add; [done|done|done|done|exact Hg|exact Hp| |exact Hs].
    intros n1 n2 A B A' HAB [[_ HU]|[? _]]; [|done]. left. split; [done|]. intros k Hk'. rewrite HU by done. by rewrite HAB.
Qed.

(** C14: Page directories refine address spaces. Whatever page directories the
    machine has, setting, getting and clearing a page of one of them and
    testing and changing its flags answer as on a map from page numbers to
    pages: only the mapping of that page number changes, no other address
    space and no byte of a mapped page does, a new mapping fails only when
    the kernel's pages are all in use, and no CPU's translation lookaside
    buffer is left with an entry that memory no longer has. *)
Theorem pagedir_refines s D self pd pts r : machine s D self -> D !! pd = Some pts -> exclusive (vm_cpus s) pd -> valid s D pd pts r ->
  exists v s', handle self pd r s = Ok (v, s') /\ served s D self pd pts r v s'.
Proof.
  intros Hm HD Hx Hv. apply wp_ok. pose proof Hv as [Hva Hr].
  assert (Hd : status PTE_D) by (by right). assert (Ha : status PTE_A) by (by left).
  destruct r as [upage kpage w|uaddr|upage|vpage|vpage b|vpage|vpage b]; cbn [handle address] in *.
  - by apply serve_set.
  - by apply serve_get.
  - by apply serve_clear.
  - apply serve_test with (g := mp_dirty); [done|done|done| |by intros v H].
    intros e mp. unfold view. destruct (present e); [|done]. destruct (ptov _); [|done]. by intros [= <-].
  - by apply serve_set_flag.
  - apply serve_test with (g := mp_accessed); [done|done|done| |by intros v H].
    intros e mp. unfold view. destruct (present e); [|done]. destruct (ptov _); [|done]. by intros [= <-].
  - by apply serve_set_flag.
Qed.

End requests.
End PagedirProps.
