(* ===== verification/PagedirCopy.v ===== *)
(** Destroying and copying page directories. *)
From S2P Require Import Prelude Bitmap Palloc Pagedir PagedirSpec PagedirOps PagedirProps.
From stdpp Require Import options.

#[local] Open Scope Z_scope.

Module PagedirCopy.
Import Palloc Pagedir PagedirSpec PagedirOps PagedirProps.

Implicit Types (s : vm) (p q pt pd a x v i j k e : Z) (pts : gmap Z Z) (F G : Z -> Prop).

(** * Pages given back *)

(** [x] is in one of the pages [F]. *)
Definition within F x : Prop := exists p, F p /\ span p 1 x.

(** The pages [F] have been given back. *)
Record gone (g g' : pages) F : Prop := {
  gn_ok : mem_ok g';
  gn_used : forall x, used g' x <-> used g x /\ ~ within F x;
  gn_memory : forall x, ~ within F x -> memory g' x = memory g x;
}.

Lemma gone_none (g : pages) F : mem_ok g -> (forall p, ~ F p) -> gone g g F.
Proof. intros Hg HF. split; [done| |done]. intros x. split; [|by intros []]. intros Hu. split; [done|]. intros (p & Hp & _). by apply (HF p). Qed.

Lemma gone_trans (g1 g2 g3 : pages) F G : gone g1 g2 F -> gone g2 g3 G -> gone g1 g3 (fun p => F p \/ G p).
Proof.
  intros [A1 A2 A3] [B1 B2 B3]. split; [done| |].
  - intros x. rewrite B2, A2. split.
    + intros [[H1 H2] H3]. split; [done|]. intros (p & [Hp|Hp] & Hx); [apply H2|apply H3]; by exists p.
    + intros [H1 H2]. split_and!; [done|..]; intros (p & Hp & Hx); apply H2; exists p; auto.
  - intros x Hx. rewrite B3, A3; [done|..]; intros (p & Hp & Hpx); apply Hx; exists p; auto.
Qed.

Lemma gone_ext (g g' : pages) F G : gone g g' F -> (forall p, F p <-> G p) -> gone g g' G.
Proof.
  intros [A B C] H. assert (Hw : forall x, within F x <-> within G x).
  { intros x. unfold within. split; intros (p & Hp & Hx); exists p; by rewrite H in *. }
  split; [done| |]; intros x; rewrite <- Hw; [apply B|apply C].
Qed.

Lemma freed_gone (g g' : pages) a : freed g g' a -> gone g g' (fun p => p = a).
Proof.
  intros [H1 H2 H3]. assert (Hw : forall x, within (fun p => p = a) x <-> span a 1 x).
  { intros x. split; [by intros (p & -> & ?)|intros; by exists a]. }
  split; [done|intros x; by rewrite Hw|]. intros x. rewrite Hw, H3. unfold span. intros Hx. apply filled_out. lia.
Qed.

Lemma within_page F p x : (forall q, F q -> q mod 4096 = 0) -> p mod 4096 = 0 -> span p 1 x -> within F x -> F p.
Proof.
  intros HF Hp Hx (q & Hq & Hqx). unfold span in *. destruct (Z.eq_dec p q) as [->|Hne]; [done|].
  destruct (pages_apart p q); (done || auto || lia).
Qed.

(** A page that was not given back. *)
Lemma gone_page (g g' : pages) F p : gone g g' F -> (forall q, F q -> q mod 4096 = 0) -> page g p -> ~ F p -> page g' p.
Proof.
  intros [_ Hu _] HF [Ha Hp] Hn. split; [done|]. apply Hu. split; [done|]. intros Hw. apply Hn. eapply within_page; [done|done| |exact Hw]. unfold span. lia.
Qed.

Lemma gone_bytes (g g' : pages) F p x : gone g g' F -> (forall q, F q -> q mod 4096 = 0) -> p mod 4096 = 0 -> ~ F p -> p <= x < p + 4096 ->
  memory g' x = memory g x.
Proof.
  intros [_ _ Hm] HF Ha Hn Hx. apply Hm. intros Hw. apply Hn. eapply within_page; [done|done| |exact Hw]. unfold span. lia.
Qed.

(** * Destroying *)

(** The pages that the entries from [j] on of the table at [pt] lead to. *)
Definition frames (m : Z -> Z) pt j p : Prop := exists k, j <= k < 1024 /\ points (entry m pt k) p.

Record table_ok (g : pages) pt j : Prop := {
  to_points : forall k, j <= k < 1024 -> present (entry (memory g) pt k) = true -> exists p, points (entry (memory g) pt k) p;
  to_once : forall k k' p, j <= k < 1024 -> j <= k' < 1024 -> points (entry (memory g) pt k) p -> points (entry (memory g) pt k') p -> k = k';
  to_page : forall p, frames (memory g) pt j p -> page g p /\ p <> pt;
}.

Lemma points_fun e p q : points e p -> points e q -> p = q.
Proof. intros [_ H1] [_ H2]. congruence. Qed.

Lemma destroy_ptes_spec n : forall s pt j (Q : unit -> vm -> Prop), Z.of_nat n + j = 1024 -> 0 <= j -> mem_ok (vm_pages s) -> page (vm_pages s) pt ->
  table_ok (vm_pages s) pt j -> (forall g, gone (vm_pages s) g (frames (memory (vm_pages s)) pt j) -> Q tt (with_pages g s)) ->
  wp (destroy_ptes n (pt + 4 * j)) Q s.
Proof.
  induction n as [|n IH]; intros s pt j Q Hn Hj Hg Hpt Ht HQ; cbn [destroy_ptes].
  - wp_steps. rewrite <- (with_same s). apply HQ. apply gone_none; [done|]. intros p (k & ? & _). lia.
  - vm_steps. fold (entry (memory (vm_pages s)) pt j). fold (present (entry (memory (vm_pages s)) pt j)). replace (pt + 4 * j + 4) with (pt + 4 * (j + 1)) by lia.
    destruct (present (entry (memory (vm_pages s)) pt j)) eqn:Hp.
    + destruct (to_points _ _ _ Ht j ltac:(lia) Hp) as [p Hpp]. vm_steps. eapply wp_lift_ok; [apply Hpp|]. vm_steps.
      destruct (to_page _ _ _ Ht p) as [Hpg Hne]; [by exists j; split; [lia|]|]. apply free_page_spec; [done|done|]. intros g Hf.
      pose proof (freed_gone _ _ _ Hf) as Hgo. assert (Hal : forall q, q = p -> q mod 4096 = 0) by (intros q ->; apply Hpg).
      assert (Hsame : forall k, 0 <= k < 1024 -> entry (memory g) pt k = entry (memory (vm_pages s)) pt k).
      { intros k Hk. apply entry_ext; [|done]. intros x Hx. eapply (gone_bytes _ _ _ pt); [exact Hgo|done|apply Hpt|congruence|done]. }
      apply IH; cbn; [lia|lia|apply Hf|by eapply gone_page; [exact Hgo| | |congruence]| |].
      * split.
        -- intros k Hk. rewrite !Hsame by lia. apply Ht. lia.
        -- intros k k' q Hk Hk'. rewrite !Hsame by lia. apply Ht; lia.
        -- intros q (k & Hk & Hq). rewrite Hsame in Hq by lia. destruct (to_page _ _ _ Ht q) as [Hq1 Hq2]; [by exists k; split; [lia|]|]. split; [|done].
           eapply gone_page; [exact Hgo|done|done|]. intros ->. pose proof (to_once _ _ _ Ht k j p ltac:(lia) ltac:(lia) Hq Hpp). lia.
      * intros g' Hg'. unfold with_pages. cbn. apply HQ. eapply gone_ext; [eapply gone_trans; [exact Hgo|exact Hg']|].
        intros q. split.
        -- intros [->|(k & Hk & Hq)]; [by exists j; split; [lia|]|]. rewrite Hsame in Hq by lia. exists k. by split; [lia|].
        -- intros (k & Hk & Hq). destruct (Z.eq_dec k j) as [->|Hkj]; [left; by eapply points_fun|]. right. exists k. rewrite Hsame by lia. by split; [lia|].
    + vm_steps. apply IH; [lia|lia|done|done| |].
      * split.
        -- intros k Hk. apply Ht. lia.
        -- intros k k' q Hk Hk'. apply Ht; lia.
        -- intros q (k & Hk & Hq). apply Ht. exists k. by split; [lia|].
      * intros g Hg'. apply HQ. eapply gone_ext; [exact Hg'|]. intros q. split.
        -- intros (k & Hk & Hq). exists k. by split; [lia|].
        -- intros (k & Hk & Hq). exists k. split; [|done]. destruct (Z.eq_dec k j) as [->|]; [|lia]. destruct Hq. congruence.
Qed.

(** The page directory at [pd] owns the tables that its entries from [i] on
    lead to, and the pages that these lead to. *)
Record own (g : pages) pd pts i : Prop := {
  ow_from : 0 <= i;
  ow_pd : page g pd;
  ow_none : forall k, i <= k < 768 -> pts !! k = None -> present (entry (memory g) pd k) = false;
  ow_some : forall k pt, i <= k < 768 -> pts !! k = Some pt -> points (entry (memory g) pd k) pt /\ page g pt /\ pt <> pd;
  ow_inj : forall k k' pt, i <= k < 768 -> i <= k' < 768 -> pts !! k = Some pt -> pts !! k' = Some pt -> k = k';
  ow_points : forall k pt j, i <= k < 768 -> pts !! k = Some pt -> 0 <= j < 1024 -> present (entry (memory g) pt j) = true ->
    exists p, points (entry (memory g) pt j) p;
  ow_frame : forall k pt p, i <= k < 768 -> pts !! k = Some pt -> frames (memory g) pt 0 p ->
    page g p /\ p <> pd /\ forall k' pt', i <= k' < 768 -> pts !! k' = Some pt' -> p <> pt';
  ow_once : forall k k' pt pt' j j' p, i <= k < 768 -> i <= k' < 768 -> pts !! k = Some pt -> pts !! k' = Some pt' ->
    0 <= j < 1024 -> 0 <= j' < 1024 -> points (entry (memory g) pt j) p -> points (entry (memory g) pt' j') p -> k = k' /\ j = j';
}.

Definition owned (m : Z -> Z) pts i p : Prop := exists k pt, i <= k < 768 /\ pts !! k = Some pt /\ (p = pt \/ frames m pt 0 p).

Lemma own_later g pd pts i : own g pd pts i -> own g pd pts (i + 1).
Proof.
  intros [H0 H1 H2 H3 H4 H5 H6 H7]. split; [lia|done|..].
  - intros k Hk. apply H2. lia.
  - intros k pt Hk. apply H3. lia.
  - intros k k' pt Hk Hk'. apply H4; lia.
  - intros k pt j Hk. apply H5. lia.
  - intros k pt p Hk Hpt Hf. destruct (H6 k pt p ltac:(lia) Hpt Hf) as (A & B & C). split_and!; [done|done|]. intros k' pt' Hk'. apply C. lia.
  - intros k k' pt pt' j j' p Hk Hk'. apply H7; lia.
Qed.

(** The directory owns what it owned, of the pages that are left. *)
Lemma own_gone g g' pd pts i F : own g pd pts i -> gone g g' F -> (forall q, F q -> q mod 4096 = 0) -> ~ F pd ->
  (forall p, owned (memory g) pts i p -> ~ F p) ->
  own g' pd pts i /\ (forall k pt l, i <= k < 768 -> pts !! k = Some pt -> 0 <= l < 1024 -> entry (memory g') pt l = entry (memory g) pt l).
Proof.
  intros [H0 H1 H2 H3 H4 H5 H6 H7] Hgo Hal Hpd Hown.
  assert (Ht : forall k pt l, i <= k < 768 -> pts !! k = Some pt -> 0 <= l < 1024 -> entry (memory g') pt l = entry (memory g) pt l).
  { intros k pt l Hk Hpt Hl. apply entry_ext; [|done]. intros x Hx. eapply gone_bytes; [exact Hgo|done| | |exact Hx].
    - by destruct (H3 _ _ Hk Hpt) as (_ & [] & _).
    - apply Hown. exists k, pt. auto. }
  assert (Hd : forall k, i <= k < 768 -> entry (memory g') pd k = entry (memory g) pd k).
  { intros k Hk. apply entry_ext; [|lia]. intros x Hx. eapply gone_bytes; [exact Hgo|done|apply H1|done|exact Hx]. }
  assert (Hf : forall k pt p, i <= k < 768 -> pts !! k = Some pt -> frames (memory g') pt 0 p -> frames (memory g) pt 0 p).
  { intros k pt p Hk Hpt (l & Hl & Hp). exists l. rewrite (Ht k) in Hp by done. done. }
  split; [|done]. split; [done|by eapply gone_page|..].
  - intros k Hk Hn. rewrite Hd by done. by apply H2.
  - intros k pt Hk Hpt. rewrite Hd by done. destruct (H3 k pt Hk Hpt) as (? & ? & ?). split_and!; [done| |done].
    eapply gone_page; [exact Hgo|done|done|]. apply Hown. exists k, pt. auto.
  - done.
  - intros k pt l Hk Hpt Hl. rewrite (Ht k) by done. by eapply H5.
  - intros k pt p Hk Hpt Hp. apply (Hf k) in Hp; [|done..]. destruct (H6 k pt p Hk Hpt Hp) as (? & ? & ?). split_and!; [|done|done].
    eapply gone_page; [exact Hgo|done|done|]. apply Hown. exists k, pt. auto.
  - intros k k' pt pt' l l' p Hk Hk' Hpt Hpt' Hl Hl'. rewrite (Ht k), (Ht k') by done. by eapply H7.
Qed.

Lemma own_table g pd pts i pt : own g pd pts i -> i < 768 -> pts !! i = Some pt -> table_ok g pt 0.
Proof.
  intros Ho Hi Hpt. split.
  - intros k Hk. by apply (ow_points _ _ _ _ Ho i).
  - intros k k' p Hk Hk' H1 H2. by eapply (ow_once _ _ _ _ Ho i i pt pt).
  - intros p Hp. destruct (ow_frame _ _ _ _ Ho i pt p) as (? & _ & Hne); [lia|done|done|]. split; [done|]. by apply (Hne i).
Qed.

Lemma destroy_pdes_spec n : forall s pd pts i (Q : unit -> vm -> Prop), Z.of_nat n + i = 768 -> mem_ok (vm_pages s) -> own (vm_pages s) pd pts i ->
  (forall g, gone (vm_pages s) g (owned (memory (vm_pages s)) pts i) -> Q tt (with_pages g s)) -> wp (destroy_pdes n (pd + 4 * i)) Q s.
Proof.
  induction n as [|n IH]; intros s pd pts i Q Hn Hg Ho HQ; cbn [destroy_pdes].
  { wp_steps. rewrite <- (with_same s). apply HQ. apply gone_none; [done|]. intros p (k & pt & ? & _). lia. }
  pose proof (ow_from _ _ _ _ Ho) as H0. vm_steps. fold (entry (memory (vm_pages s)) pd i). fold (present (entry (memory (vm_pages s)) pd i)).
  replace (pd + 4 * i + 4) with (pd + 4 * (i + 1)) by lia. destruct (pts !! i) as [pt|] eqn:Ept.
  2:{ rewrite (ow_none _ _ _ _ Ho i) by (done || lia). vm_steps. apply (IH s pd pts); [lia|done|by apply own_later|]. intros g Hg'. apply HQ.
      eapply gone_ext; [exact Hg'|]. intros p. split; intros (k & pt & Hk & Hpt & Hp); exists k, pt; (split; [|done]); [lia|].
      destruct (Z.eq_dec k i) as [->|]; [congruence|lia]. }
  destruct (ow_some _ _ _ _ Ho i pt) as (Hpp & Hpg & Hne); [lia|done|]. rewrite (proj1 Hpp). vm_steps. eapply wp_lift_ok; [by apply pde_points|]. vm_steps.
  pose proof (own_table _ _ _ _ _ Ho ltac:(lia) Ept) as Ht. change ENTRIES with 1024%nat. rewrite <- (Z.add_0_r pt) at 1.
  apply (destroy_ptes_spec 1024 s pt 0); [done|lia|done|done|done|]. intros g1 Hg1. vm_steps. cbn [vm_pages with_pages].
  assert (Hal1 : forall q, frames (memory (vm_pages s)) pt 0 q -> q mod 4096 = 0).
  { intros q Hq. by destruct (to_page _ _ _ Ht q Hq) as [[] _]. }
  assert (Hpt1 : page g1 pt).
  { eapply gone_page; [exact Hg1|done|done|]. intros Hf. by destruct (to_page _ _ _ Ht pt Hf). }
  apply free_page_spec; [apply Hg1|done|]. intros g2 Hg2%freed_gone. pose proof (gone_trans _ _ _ _ _ Hg1 Hg2) as Hgo.
  assert (Hal : forall q, frames (memory (vm_pages s)) pt 0 q \/ q = pt -> q mod 4096 = 0) by (intros q [Hq | ->]; [by apply Hal1|apply Hpg]).
  destruct (own_gone _ g2 pd pts (i + 1) _ (own_later _ _ _ _ Ho) Hgo Hal) as [Ho2 Hsame].
  { intros [Hf|Hf]; [|done]. by destruct (ow_frame _ _ _ _ Ho i pt pd ltac:(lia) Ept Hf) as (_ & ? & _). }
  { intros p (k & q & Hk & Hq & [->|Hp]) [Hf | ->].
    - destruct (ow_frame _ _ _ _ Ho i pt q ltac:(lia) Ept Hf) as (_ & _ & Hne'). by apply (Hne' k q); [lia|..].
    - pose proof (ow_inj _ _ _ _ Ho i k pt ltac:(lia) ltac:(lia) Ept Hq). lia.
    - destruct Hp as (l & Hl & Hlp), Hf as (l' & Hl' & Hlp'). destruct (ow_once _ _ _ _ Ho i k pt q l' l p) as [? _]; (done || lia).
    - destruct (ow_frame _ _ _ _ Ho k q pt ltac:(lia) Hq Hp) as (_ & _ & Hne'). by apply (Hne' i pt); [lia|..]. }
  apply (IH _ pd pts); cbn [vm_pages with_pages]; [lia|apply Hgo|done|]. intros g3 Hg3. apply HQ. eapply gone_ext; [eapply gone_trans; [exact Hgo|exact Hg3]|].
  intros p. split.
  - intros [[Hf| ->]|(k & q & Hk & Hq & Hp)]; [exists i, pt; split_and!; (done || lia || auto)..|]. exists k, q. split_and!; [lia|lia|done|].
    destruct Hp as [->|(l & Hl & Hlp)]; [by left|]. right. exists l. rewrite (Hsame k q l) in Hlp by (done || lia). done.
  - intros (k & q & Hk & Hq & Hp). destruct (Z.eq_dec k i) as [->|Hki].
    + assert (q = pt) as -> by congruence. left. destruct Hp; auto.
    + right. exists k, q. split_and!; [lia|lia|done|]. destruct Hp as [->|(l & Hl & Hlp)]; [by left|]. right. exists l. rewrite (Hsame k q l) by (done || lia). done.
Qed.

Section destroy.
Context (init_page_dir : Z).
Implicit Types (D : gmap Z (gmap Z Z)) (g : pages).

Lemma destroy_spec s pd pts (Q : unit -> vm -> Prop) : mem_ok (vm_pages s) -> own (vm_pages s) pd pts 0 -> pd <> init_page_dir ->
  (forall g, gone (vm_pages s) g (fun p => p = pd \/ owned (memory (vm_pages s)) pts 0 p) -> Q tt (with_pages g s)) ->
  wp (pagedir_destroy init_page_dir pd) Q s.
Proof.
  intros Hg Ho Hi HQ. pose proof (ow_pd _ _ _ _ Ho) as Hpd. destruct (page_range _ _ Hg Hpd) as [R _]. unfold pagedir_destroy.
  rewrite eqb_false by (unfold PHYS_BASE, NULL in *; lia). wp_steps; [by apply negb_true_iff, eqb_false|]. change USER_PDES with 768%nat.
  rewrite <- (Z.add_0_r pd) at 1. apply (destroy_pdes_spec 768 s pd pts 0); [done|done|done|]. intros g1 Hg1. vm_steps. cbn [vm_pages with_pages].
  assert (Hal : forall q, owned (memory (vm_pages s)) pts 0 q -> q mod 4096 = 0 /\ q <> pd).
  { intros q (k & pt & Hk & Hpt & [->|Hf]); [by destruct (ow_some _ _ _ _ Ho k pt Hk Hpt) as (_ & [] & ?)|].
    by destruct (ow_frame _ _ _ _ Ho k pt q Hk Hpt Hf) as ([] & ? & _). }
  apply free_page_spec; [apply Hg1| |].
  - eapply gone_page; [exact Hg1|intros q Hq; by apply Hal|done|]. intros Hq. by destruct (Hal pd Hq).
  - intros g2 Hg2%freed_gone. apply HQ. eapply gone_ext; [eapply gone_trans; [exact Hg1|exact Hg2]|]. intros p. tauto.
Qed.

(** Page numbers and the two indices. *)
Lemma pte_split m pts k pt l : pts !! k = Some pt -> 0 <= l < 1024 -> pte_of m pts (k * 1024 + l) = entry m pt l.
Proof.
  intros Hpt Hl. unfold pte_of. rewrite Z.div_add_l, (Z.div_small l), Z.add_0_r, Hpt by lia.
  by rewrite Z.add_comm, Z.mod_add, Z.mod_small by lia.
Qed.

Lemma frame_maps g D pd pts k pt l p : D !! pd = Some pts -> 0 <= k < 768 -> pts !! k = Some pt -> 0 <= l < 1024 -> points (entry (memory g) pt l) p ->
  maps g D pd (k * 1024 + l) p.
Proof.
  intros HD Hk Hpt Hl Hp. destruct (points_view _ _ Hp) as (mp & Hv & E). exists pts, mp. split_and!; [done|unfold PAGES; lia..| |done].
  unfold space. by rewrite (pte_split _ _ _ pt).
Qed.

Lemma world_own g D pd pts : world g D -> D !! pd = Some pts -> own g pd pts 0.
Proof.
  intros Hw HD. pose proof (wd_dir _ _ Hw _ _ HD) as Hd. split; [done|apply Hd|..].
  - intros k Hk Hn. by rewrite (dr_none _ _ _ Hd k Hk Hn).
  - intros k pt Hk Hpt. destruct (dr_pt _ _ _ Hd k pt Hpt) as (_ & ? & ?). split_and!; [by apply Hd|done|done].
  - intros k k' pt _ _. apply Hd.
  - intros k pt l Hk Hpt Hl. by apply (dr_entry _ _ _ Hd k pt l Hpt Hl).
  - intros k pt p Hk Hpt (l & Hl & Hp). pose proof (frame_maps g D pd pts k pt l p HD Hk Hpt Hl Hp) as Hm. destruct (wd_frame _ _ Hw _ _ _ Hm) as [Hpg Ht].
    split_and!; [done| |].
    + intros ->. apply Ht. exists pd, pts. split; [done|by left].
    + intros k' pt' _ Hpt' ->. apply Ht. exists pd, pts. split; [done|right; by exists k'].
  - intros k k' pt pt' l l' p Hk Hk' Hpt Hpt' Hl Hl' Hp Hp'. pose proof (frame_maps g D pd pts k pt l p HD Hk Hpt Hl Hp) as Hm.
    pose proof (frame_maps g D pd pts k' pt' l' p HD Hk' Hpt' Hl' Hp') as Hm'. destruct (wd_once _ _ Hw _ _ _ _ _ Hm Hm') as [_ E]. lia.
Qed.

(** The pages of the address space: its directory, its tables and the pages that it maps. *)
Definition space_page g D pd p : Prop := (exists pts, D !! pd = Some pts /\ tables pd pts p) \/ exists v, maps g D pd v p.

Lemma owned_space g D pd pts p : world g D -> D !! pd = Some pts -> p = pd \/ owned (memory g) pts 0 p <-> space_page g D pd p.
Proof.
  intros Hw HD. split.
  - intros [->|(k & pt & Hk & Hpt & [->|(l & Hl & Hp)])].
    + left. exists pts. split; [done|by left].
    + left. exists pts. split; [done|right; by exists k].
    + right. exists (k * 1024 + l). by eapply frame_maps.
  - intros [(q & Hq & [->|[k Hk]])|(v & q & mp & Hq & Hv & Hs & <-)]; [by left|..]; (assert (q = pts) as -> by congruence); right.
    + exists k, p. destruct (dr_pt _ _ _ (wd_dir _ _ Hw _ _ HD) _ _ Hk) as (? & _). auto.
    + unfold space in Hs. assert (Hm : 0 <= v mod 1024 < 1024) by (by apply Z.mod_pos_bound).
      destruct (pts !! (v / 1024)) as [pt|] eqn:E; [|by unfold pte_of in Hs; rewrite E in Hs]. exists (v / 1024), pt.
      destruct (dr_pt _ _ _ (wd_dir _ _ Hw _ _ HD) _ _ E) as (? & _). split_and!; [lia|lia|done|]. right. exists (v mod 1024). split; [lia|].
      unfold pte_of in Hs. rewrite E in Hs. by apply view_points.
Qed.

Lemma delete_world g g' D pd pts F : world g D -> D !! pd = Some pts -> gone g g' F -> (forall p, F p <-> space_page g D pd p) ->
  world g' (delete pd D) /\ (forall pd' pts' w, delete pd D !! pd' = Some pts' -> pte_of (memory g') pts' w = pte_of (memory g) pts' w) /\
  (forall pd' v a x, maps g (delete pd D) pd' v a -> a <= x < a + 4096 -> memory g' x = memory g x).
Proof.
  intros Hw HD Hgo HF. assert (Hal : forall q, F q -> q mod 4096 = 0).
  { intros q [(pts1 & H1 & Ht)|(v & Hm)]%HF; [by apply (pg_aligned g), (tables_page g pd pts1); [apply Hw|]|]. by destruct (wd_frame _ _ Hw _ _ _ Hm) as [[] _]. }
  assert (Hot : forall pd' pts' a, delete pd D !! pd' = Some pts' -> tables pd' pts' a -> ~ F a).
  { intros pd' pts' a [Hne HD']%lookup_delete_Some Ht [(pts1 & H1 & Ht1)|(v & Hm)]%HF; [apply Hne; by eapply (wd_apart _ _ Hw)|].
    destruct (wd_frame _ _ Hw _ _ _ Hm) as [_ Hn]. apply Hn. by exists pd', pts'. }
  assert (Hm0 : forall pd' v a, maps g (delete pd D) pd' v a -> maps g D pd' v a /\ ~ F a).
  { intros pd' v a (pts' & mp & [Hne HD']%lookup_delete_Some & Hv & Hs & Ea). assert (Hm : maps g D pd' v a) by (by exists pts', mp). split; [done|].
    intros [(pts1 & H1 & Ht1)|(v' & Hm')]%HF; [destruct (wd_frame _ _ Hw _ _ _ Hm) as [_ Hn]; apply Hn; by exists pd, pts1|].
    destruct (wd_once _ _ Hw _ _ _ _ _ Hm Hm') as [? _]. congruence. }
  assert (Hpte : forall pd' pts' w, delete pd D !! pd' = Some pts' -> pte_of (memory g') pts' w = pte_of (memory g) pts' w).
  { intros pd' pts' w HD'. apply space_frame. intros k pt x Hk Hx. assert (Ht : tables pd' pts' pt) by (right; by exists k).
    eapply gone_bytes; [exact Hgo|done| |by eapply Hot|exact Hx]. apply lookup_delete_Some in HD' as [_ HD']. by apply (pg_aligned g), (tables_page g pd' pts'); [apply Hw|]. }
  assert (Hmaps : forall pd' v a, maps g' (delete pd D) pd' v a -> maps g (delete pd D) pd' v a).
  { intros pd' v a (pts' & mp & HD' & Hv & Hs & Ea). exists pts', mp. unfold space in *. by rewrite (Hpte pd') in Hs. }
  split_and!; [|done|].
  - split; [apply Hgo|..].
    + intros pd' pts' HD'. pose proof HD' as [_ HD1]%lookup_delete_Some. assert (Hpg : forall a, tables pd' pts' a -> page g' a).
      { intros a Ha. eapply gone_page; [exact Hgo|done|by eapply tables_page; [apply Hw|]|by eapply Hot]. }
      destruct (wd_dir _ _ Hw _ _ HD1) as [H1 H2 H3 H4 H5 H6]. assert (Hen : forall a l, tables pd' pts' a -> 0 <= l < 1024 -> entry (memory g') a l = entry (memory g) a l).
      { intros a l Ha Hl. apply entry_ext; [|done]. intros x Hx. eapply gone_bytes; [exact Hgo|done|apply (pg_aligned g'), Hpg, Ha|by eapply Hot|exact Hx]. }
      split; [by apply Hpg; left| |done| | |].
      * intros k pt Hk. destruct (H2 k pt Hk) as (? & _ & ?). split_and!; [lia..|apply Hpg; right; by exists k|done].
      * intros k Hk Hn. rewrite Hen by (lia || by left). by apply H4.
      * intros k pt Hk. rewrite Hen; [by apply H5|by left|]. destruct (H2 k pt Hk). lia.
      * intros k pt l Hk Hl. rewrite Hen by (done || right; by exists k). by eapply H6.
    + intros pd1 pts1 pd2 pts2 a [_ H1]%lookup_delete_Some [_ H2]%lookup_delete_Some. by eapply Hw.
    + intros pd' v a Hm%Hmaps. destruct (Hm0 _ _ _ Hm) as [Hm' HnF]. destruct (wd_frame _ _ Hw _ _ _ Hm') as [Hp Ht]. split; [by eapply gone_page|].
      intros (pd1 & pts1 & [_ H1]%lookup_delete_Some & Ha). apply Ht. by exists pd1, pts1.
    + intros pd1 v1 pd2 v2 a H1%Hmaps%Hm0 H2%Hmaps%Hm0. eapply (wd_once _ _ Hw); [apply H1|apply H2].
  - intros pd' v a x [Hm HnF]%Hm0 Hx. eapply gone_bytes; [exact Hgo|done| |exact HnF|exact Hx]. by destruct (wd_frame _ _ Hw _ _ _ Hm) as [[] _].
Qed.

(** C31: [pagedir_destroy] gives back exactly the pages of the address space -
    its directory, its tables and the pages it maps, each once - and leaves
    every other address space, the bytes of its pages and the lookaside
    buffers of the CPUs as they are. *)
Theorem pagedir_destroy_frees s D self pd : machine s D self -> is_Some (D !! pd) -> pd <> init_page_dir ->
  Forall (fun c => cr3 c + PHYS_BASE <> pd) (vm_cpus s) ->
  exists s', pagedir_destroy init_page_dir pd s = Ok (tt, s') /\ machine s' (delete pd D) self /\ others s s' (delete pd D) pd /\
    (forall x, used (vm_pages s') x <-> used (vm_pages s) x /\ ~ within (space_page (vm_pages s) D pd) x).
Proof.
  intros [Hw Hc Hself Hco] [pts HD] Hi Hcpu. assert (Hwp : wp (pagedir_destroy init_page_dir pd) (fun _ s' => exists g, s' = with_pages g s /\
    gone (vm_pages s) g (space_page (vm_pages s) D pd)) s).
  { eapply (destroy_spec s pd pts); [apply Hw|by eapply world_own|done|]. intros g Hg. exists g. split; [done|].
    eapply gone_ext; [exact Hg|]. intros p. by apply owned_space. }
  apply wp_ok in Hwp as ([] & s' & E & g & -> & Hg). eexists. split; [exact E|]. destruct (delete_world _ _ _ _ _ _ Hw HD Hg) as (Hw' & Hp & Hb); [done|].
  rewrite Forall_forall in Hcpu. split_and!.
  - split; [done| |done|].
    + split; [|apply Hc]. intros c Hin. rewrite lookup_delete_ne by (symmetry; by apply Hcpu). by apply Hc.
    + eapply (coherent_keep s _ D (delete pd D)); try done. intros c Hin. cbn in Hin. exists c. split_and!; [done|done|by left|]. right.
      destruct (co_dir _ _ Hc c Hin) as [pts2 H2]. exists pts2, pts2. assert (H3 : delete pd D !! (cr3 c + PHYS_BASE) = Some pts2) by (rewrite lookup_delete_ne; [done|symmetry; by apply Hcpu]).
      split_and!; [done|done|]. intros v f Hv Hf. cbn [vm_pages with_pages]. by rewrite (Hp _ _ _ H3).
  - split; [|done]. intros pd' pts' w H1 _ _. cbn [vm_pages with_pages]. unfold space. by rewrite (Hp _ _ _ H1).
  - apply Hg.
Qed.
End destroy.

End PagedirCopy.
