(* ===== verification/PagedirFork.v ===== *)
(** Copying an address space: [pagedir_copy]. *)
From S2P Require Import Prelude Bitmap Palloc Pagedir PagedirSpec PagedirOps PagedirProps PagedirCopy.
From stdpp Require Import options.

#[local] Open Scope Z_scope.

Module PagedirFork.
Import Palloc Pagedir PagedirSpec PagedirOps PagedirProps PagedirCopy.

Section copying.
(** The address space of [pd] at the start, and the directory of the copy. *)
Context (g0 : pages) (D : gmap Z (gmap Z Z)) (pd : Z) (pts : gmap Z Z) (pd' : Z).
Context (Hw : world g0 D) (HD : D !! pd = Some pts).

Implicit Types (g : pages) (X : gset Z) (e p q v b i j k x : Z).

Abbreviation old v := (pte_of (memory g0) pts v).

(** [e'] maps a copy of the page that [e] maps. *)
Definition forked g e e' : Prop :=
  if present e then
    exists p p', points e p /\ points e' p' /\ 0 <= e' < 2 ^ 32 /\
      (forall f, 0 <= f < 4096 -> has_flag e' f = has_flag (user_flags (has_flag e PTE_W)) f) /\
      (forall o, 0 <= o < 4096 -> memory g (p' + o) = memory g0 (p + o))
  else e' = 0.

(** The copy is made of the pages [X]; its tables up to index [i] are
    [pts'], and its entries up to page number [b] are filled in. *)
Record copying g X pts' i b : Prop := {
  cp_ok : mem_ok g;
  cp_new : forall p, p ∈ X -> p mod 4096 = 0 /\ forall x, span p 1 x -> ~ used g0 x;
  cp_all : forall p, p ∈ X -> p = pd' \/ (exists k, pts' !! k = Some p) \/ exists v, 0 <= v < b /\ points (pte_of (memory g) pts' v) p;
  cp_pools : same_pools g0 g;
  cp_pd : pd' ∈ X;
  cp_used : forall x, used g x <-> used g0 x \/ exists p, p ∈ X /\ span p 1 x;
  cp_old : forall a x, page g0 a -> a <= x < a + 4096 -> memory g x = memory g0 x;
  cp_dom : forall k, is_Some (pts' !! k) <-> k < i /\ is_Some (pts !! k);
  cp_tab : forall k pt, pts' !! k = Some pt -> pt ∈ X /\ pt <> pd' /\ points (entry (memory g) pd' k) pt;
  cp_inj : forall k k' pt, pts' !! k = Some pt -> pts' !! k' = Some pt -> k = k';
  cp_rest : forall k, 0 <= k < 1024 -> pts' !! k = None -> entry (memory g) pd' k = entry (memory g0) pd k;
  cp_range : 0 <= i <= 768 /\ 0 <= b <= i * 1024;
  cp_pte : forall v, 0 <= v < b -> forked g (old v) (pte_of (memory g) pts' v);
  cp_zero : forall v, b <= v < i * 1024 -> pte_of (memory g) pts' v = 0;
  cp_frame : forall v p, 0 <= v < b -> points (pte_of (memory g) pts' v) p -> p ∈ X /\ p <> pd' /\ forall k, pts' !! k <> Some p;
  cp_once : forall v v' p, 0 <= v < b -> 0 <= v' < b -> points (pte_of (memory g) pts' v) p -> points (pte_of (memory g) pts' v') p -> v = v';
}.

Lemma copy_page g X pts' i b p : copying g X pts' i b -> p ∈ X -> page g p.
Proof.
  intros H Hp. destruct (cp_new _ _ _ _ _ H p Hp) as [Ha _]. split; [done|]. apply (cp_used _ _ _ _ _ H). right. exists p. split; [done|]. unfold span. lia.
Qed.

Lemma old_page g X pts' i b p : copying g X pts' i b -> page g0 p -> page g p /\ p ∉ X.
Proof.
  intros H [Ha Hu]. split; [split; [done|]; apply (cp_used _ _ _ _ _ H); by left|]. intros Hx. destruct (cp_new _ _ _ _ _ H p Hx) as [_ Hn].
  apply (Hn p); [unfold span; lia|done].
Qed.

Lemma pools_trans g g1 X pts' i b a zero h : copying g X pts' i b -> got g g1 a zero ->
  base (kernel_pool h) = base (kernel_pool g1) /\ used_map (kernel_pool h) = used_map (kernel_pool g1) /\
  base (user_pool h) = base (user_pool g1) /\ used_map (user_pool h) = used_map (user_pool g1) -> same_pools g0 h.
Proof.
  intros Hc Hg (E1 & E2 & E3 & E4) user. destruct (cp_pools _ _ _ _ _ Hc user) as [A1 A2], (gt_pools _ _ _ _ Hg user) as [B1 B2].
  destruct user; cbn in *; split; congruence.
Qed.

(** A page that the allocator hands out to the copy. *)
Lemma got_new g X pts' i b g1 p zero : copying g X pts' i b -> got g g1 p zero ->
  (forall q, q ∈ {[p]} ∪ X -> q mod 4096 = 0 /\ forall x, span q 1 x -> ~ used g0 x) /\ p ∉ X /\ ~ page g0 p /\
  (forall x, used g1 x <-> used g0 x \/ exists q, q ∈ {[p]} ∪ X /\ span q 1 x).
Proof.
  intros H Hg. assert (Hn : forall x, span p 1 x -> ~ used g0 x).
  { intros x Hx Hu. apply (gt_new _ _ _ _ Hg x Hx). apply (cp_used _ _ _ _ _ H). by left. }
  split_and!.
  - intros q [->%elem_of_singleton|Hq]%elem_of_union; [by split; [apply Hg|]|by apply H].
  - intros Hp. destruct (copy_page _ _ _ _ _ _ H Hp) as [_ Hu]. apply (gt_new _ _ _ _ Hg p); [unfold span; lia|done].
  - intros [_ Hu]. apply (Hn p); [unfold span; lia|done].
  - intros x. rewrite (gt_used _ _ _ _ Hg), (cp_used _ _ _ _ _ H). split.
    + intros [[Hu|(q & Hq & Hx)]|Hx]; [by left|right; exists q; split; [apply elem_of_union; by right|done]|right; exists p; split; [apply elem_of_union; left; by apply elem_of_singleton|done]].
    + intros [Hu|(q & [->%elem_of_singleton|Hq]%elem_of_union & Hx)]; [by left; left|by right|left; right; by exists q].
Qed.

Lemma forked_frame g g' e e' : (forall p x, points e' p -> p <= x < p + 4096 -> memory g' x = memory g x) -> forked g e e' -> forked g' e e'.
Proof.
  unfold forked. destruct (present e); [|done]. intros Hm (p & p' & H1 & H2 & H3 & H4 & H5). exists p, p'. split_and!; [done|done|lia..|done|].
  intros o Ho. rewrite (Hm p') by (done || lia). by apply H5.
Qed.

(** ** The steps *)

(** The entry of page number [b] leads to no page. *)
Lemma copy_absent g X pts' i b : copying g X pts' i b -> b < i * 1024 -> present (old b) = false -> copying g X pts' i (b + 1).
Proof.
  intros [H1 H2 Hall Hpl H3 H4 H5 H6 H7 H8 H9 H10 H11 H12 H13 H14] Hb Hp. assert (E : pte_of (memory g) pts' b = 0) by (apply H12; lia).
  assert (Hne : forall v p, points (pte_of (memory g) pts' v) p -> v <> b) by (intros v p [Hpr _] ->; by rewrite E in Hpr).
  split; try done; [|lia|..].
  - intros p [?|[?|(v & Hv & Hpp)]]%Hall; [by left|by right; left|]. right. right. exists v. split; [lia|done].
  - intros v Hv. destruct (Z.eq_dec v b) as [->|]; [|apply H11; lia]. unfold forked. by rewrite Hp.
  - intros v Hv. apply H12. lia.
  - intros v p Hv Hpp. apply (H13 v); [|done]. pose proof (Hne v p Hpp). lia.
  - intros v v' p Hv Hv' Hpp Hpp'. pose proof (Hne v p Hpp). pose proof (Hne v' p Hpp'). apply (H14 v v' p); (done || lia).
Qed.

(** The directory has no table at index [i]. *)
Lemma copy_none g X pts' i : copying g X pts' i (i * 1024) -> i < 768 -> pts !! i = None -> copying g X pts' (i + 1) ((i + 1) * 1024).
Proof.
  intros [H1 H2 Hall Hpl H3 H4 H5 H6 H7 H8 H9 H10 H11 H12 H13 H14] Hi Hn. assert (Hn' : pts' !! i = None).
  { destruct (pts' !! i) eqn:E; [|done]. assert (Hs : is_Some (pts' !! i)) by (by rewrite E). apply H6 in Hs. lia. }
  assert (Hz : forall v, i * 1024 <= v < (i + 1) * 1024 -> v / 1024 = i).
  { intros v Hv. symmetry. apply (Z.div_unique v 1024 i (v - i * 1024)); lia. }
  assert (Hz' : forall v, i * 1024 <= v < (i + 1) * 1024 -> pte_of (memory g) pts' v = 0) by (intros v Hv; unfold pte_of; by rewrite Hz, Hn').
  assert (Hlt : forall v p, 0 <= v < (i + 1) * 1024 -> points (pte_of (memory g) pts' v) p -> v < i * 1024).
  { intros v p Hv [Hpr _]. apply Z.nle_gt. intros ?. by rewrite Hz' in Hpr by lia. }
  split; try done; [| |lia|..].
  - intros p [?|[?|(v & Hv & Hpp)]]%Hall; [by left|by right; left|]. right. right. exists v. split; [lia|done].
  - intros k. rewrite H6. split; [intros [? ?]; split; [lia|done]|]. intros [Hk Hs]. split; [|done]. destruct (Z.eq_dec k i) as [->|]; [|lia]. rewrite Hn in Hs. by destruct Hs.
  - intros v Hv. destruct (Z_lt_le_dec v (i * 1024)); [apply H11; lia|]. unfold forked. assert (E : old v = 0) by (unfold pte_of; by rewrite Hz, Hn by lia). rewrite E. apply Hz'. lia.
  - intros v Hv. lia.
  - intros v p Hv Hp. apply (H13 v); [|done]. pose proof (Hlt v p Hv Hp). lia.
  - intros v v' p Hv Hv' Hp Hp'. pose proof (Hlt v p Hv Hp). pose proof (Hlt v' p Hv' Hp'). apply (H14 v v' p); (done || lia).
Qed.

(** A page gets its copy [kp], which the entry [e'] of the table [pt] leads to. *)
Section frame.
Context (g g1 : pages) (X : gset Z) (pts' : gmap Z Z) (i b pt p kp e' : Z).
Context (Hc : copying g X pts' i b) (Hb : b < i * 1024) (Hpt : pts' !! (b / 1024) = Some pt) (Hp : points (old b) p).
Context (Hg : got g g1 kp false) (He : 0 <= e' < 2 ^ 32) (Hpe : points e' kp)
  (Hfl : forall f, 0 <= f < 4096 -> has_flag e' f = has_flag (user_flags (has_flag (old b) PTE_W)) f).

Definition with_frame : pages :=
  mkPages (kernel_pool g1) (user_pool g1) (copied kp p PGSIZE (put_word (pt + 4 * (b mod 1024)) e' (memory g1))).

Lemma frame_same q x : q mod 4096 = 0 -> q <> kp -> q <> pt -> q <= x < q + 4096 -> memory with_frame x = memory g x.
Proof using Hc Hg Hpt.
  intros Hq Hk Ht Hx. destruct (cp_tab _ _ _ _ _ Hc _ _ Hpt) as (HX & _ & _). pose proof (copy_page _ _ _ _ _ _ Hc HX) as [Ha _].
  pose proof (Z.mod_pos_bound b 1024 ltac:(lia)). cbn. change PGSIZE with 4096. rewrite copied_out.
  2:{ destruct (pages_apart q kp) as [|]; [done|apply Hg|done|lia|lia]. }
  rewrite put_other; [by rewrite (gt_memory _ _ _ _ Hg)|]. destruct (pages_apart q pt) as [|]; [done|done|done|lia|lia].
Qed.

Lemma frame_entry q l : q mod 4096 = 0 -> q <> kp -> q <> pt -> 0 <= l < 1024 -> entry (memory with_frame) q l = entry (memory g) q l.
Proof using Hc Hg Hpt. intros Hq Hk Ht Hl. apply entry_ext; [|done]. intros x Hx. by apply (frame_same q). Qed.

Lemma frame_table l : 0 <= l < 1024 -> entry (memory with_frame) pt l = if decide (l = b mod 1024) then e' else entry (memory g) pt l.
Proof using Hc Hg Hpt He.
  intros Hl. destruct (cp_tab _ _ _ _ _ Hc _ _ Hpt) as (HX & _ & _). destruct (got_keeps _ _ _ _ _ Hg (copy_page _ _ _ _ _ _ Hc HX)) as [[Ha _] Hne].
  assert (E : entry (memory with_frame) pt l = entry (put_word (pt + 4 * (b mod 1024)) e' (memory g)) pt l).
  { apply word_ext. intros x Hx. cbn. change PGSIZE with 4096. rewrite copied_out; [by rewrite (gt_memory _ _ _ _ Hg)|].
    destruct (pages_apart pt kp) as [|]; [done|apply Hg|done|lia|lia]. }
  rewrite E. unfold entry. case_decide as El; [subst l; by apply word_put_same|]. apply word_put_other. lia.
Qed.

Lemma frame_pte v : 0 <= v < PAGES -> pte_of (memory with_frame) pts' v = if decide (v = b) then e' else pte_of (memory g) pts' v.
Proof using Hc Hg Hpt He.
  intros Hv. unfold pte_of. pose proof (Z.div_mod v 1024 ltac:(lia)) as Ev. pose proof (Z.div_mod b 1024 ltac:(lia)) as Eb.
  pose proof (Z.mod_pos_bound v 1024 ltac:(lia)) as Hm. destruct (decide (v / 1024 = b / 1024)) as [E|E].
  - rewrite E, Hpt, frame_table by done. repeat case_decide; (done || lia).
  - rewrite decide_False by congruence. destruct (pts' !! (v / 1024)) as [q|] eqn:Eq; [|done]. destruct (cp_tab _ _ _ _ _ Hc _ _ Eq) as (HX & _ & _).
    destruct (got_keeps _ _ _ _ _ Hg (copy_page _ _ _ _ _ _ Hc HX)) as [[Ha _] Hne]. apply frame_entry; [done|done| |done].
    intros ->. apply E. by eapply (cp_inj _ _ _ _ _ Hc).
Qed.

Lemma copy_frame : copying with_frame ({[kp]} ∪ X) pts' i (b + 1).
Proof using HD He Hb Hc Hfl Hg Hp Hpe Hpt Hw.
  destruct (got_new _ _ _ _ _ _ _ _ Hc Hg) as (HX & HkX & Hk0 & Hus). destruct (cp_range _ _ _ _ _ Hc) as [R1 R2].
  destruct (cp_tab _ _ _ _ _ Hc _ _ Hpt) as (HptX & Hptd & _). pose proof (cp_pd _ _ _ _ _ Hc) as HpdX.
  assert (Hal : forall q, q ∈ X -> q mod 4096 = 0 /\ q <> kp) by (intros q Hq; split; [by apply Hc|congruence]).
  assert (Hpd : forall l, 0 <= l < 1024 -> entry (memory with_frame) pd' l = entry (memory g) pd' l).
  { intros l Hl. destruct (Hal pd' HpdX). by apply frame_entry. }
  assert (Hv : forall v, 0 <= v < b + 1 -> 0 <= v < PAGES) by (unfold PAGES; lia).
  assert (Hold : forall a x, page g0 a -> a <= x < a + 4096 -> memory with_frame x = memory g x).
  { intros a x Ha Hx. destruct (old_page _ _ _ _ _ _ Hc Ha) as [_ HaX]. apply (frame_same a); [apply Ha|intros ->; done|intros ->; done|done]. }
  assert (Hlt : forall v, 0 <= v < b + 1 -> v <> b -> 0 <= v < b) by lia.
  split; [destruct (gt_ok _ _ _ _ Hg) as [[] ?]; by split|done| |by apply (pools_trans _ _ _ _ _ _ _ _ _ Hc Hg)|apply elem_of_union; by right|done| | | | | |lia| | | |].
  - intros q [->%elem_of_singleton|Hq]%elem_of_union.
    { right. right. exists b. split; [lia|]. rewrite frame_pte by (apply Hv; lia). by rewrite decide_True. }
    destruct (cp_all _ _ _ _ _ Hc q Hq) as [?|[?|(v & Hv1 & Hpp)]]; [by left|by right; left|]. right. right. exists v. split; [lia|].
    rewrite frame_pte by (apply Hv; lia). by rewrite decide_False by lia.
  - intros a x Ha Hx. rewrite (Hold a) by done. by apply (cp_old _ _ _ _ _ Hc a).
  - apply Hc.
  - intros k q Hq. destruct (cp_tab _ _ _ _ _ Hc _ _ Hq) as (? & ? & ?). split_and!; [apply elem_of_union; by right|done|].
    assert (Hs : is_Some (pts' !! k)) by (by rewrite Hq). apply (cp_dom _ _ _ _ _ Hc) in Hs as [_ [q0 Hs]].
    destruct (dr_pt _ _ _ (wd_dir _ _ Hw _ _ HD) _ _ Hs). rewrite Hpd by lia. done.
  - apply Hc.
  - intros k Hk Hn. rewrite Hpd by done. by apply Hc.
  - intros v Hv1. rewrite frame_pte by auto. case_decide as E.
    + subst v. unfold forked. rewrite (proj1 Hp). exists p, kp. split_and!; [done|done|lia..|done|]. intros o Ho.
      assert (Hpg : page g0 p).
      { destruct (points_view _ _ Hp) as (mp & Hmp & Ep). eapply (wd_frame _ _ Hw pd b). exists pts, mp. split_and!; [done|apply Hv; lia..|done|done]. }
      destruct (old_page _ _ _ _ _ _ Hc Hpg) as [_ HpX]. cbn. change PGSIZE with 4096. rewrite copied_in by lia. replace (kp + o - kp) with o by lia.
      rewrite put_other; [rewrite (gt_memory _ _ _ _ Hg); apply (cp_old _ _ _ _ _ Hc p); (done || lia)|]. pose proof (Z.mod_pos_bound b 1024 ltac:(lia)).
      destruct (pages_apart p pt) as [|]; [apply Hpg|by apply Hal|congruence|lia|lia].
    + eapply forked_frame; [|by apply (cp_pte _ _ _ _ _ Hc v), Hlt]. intros q x Hq Hx. destruct (cp_frame _ _ _ _ _ Hc v q) as (HqX & Hqd & Hqt); [by apply Hlt|done|].
      destruct (Hal q HqX). apply (frame_same q); [done|done| |done]. intros ->. by destruct (Hqt (b / 1024)).
  - intros v Hv1. rewrite frame_pte by (unfold PAGES; lia). rewrite decide_False by lia. apply Hc. lia.
  - intros v q Hv1. rewrite frame_pte by auto. case_decide as E.
    + intros Hq. assert (q = kp) as -> by exact (points_fun _ _ _ Hq Hpe). split_and!; [apply elem_of_union; left; by apply elem_of_singleton|congruence|].
      intros k Hk. by destruct (cp_tab _ _ _ _ _ Hc _ _ Hk) as (? & _).
    + intros Hq. destruct (cp_frame _ _ _ _ _ Hc v q) as (HqX & Hqd & Hqt); [by apply Hlt|done|]. split_and!; [apply elem_of_union; by right|done|done].
  - intros v v' q Hv1 Hv1'. rewrite !frame_pte by auto. repeat case_decide; [congruence|..|intros; eapply (cp_once _ _ _ _ _ Hc v v' q); by auto].
    + intros Hq Hq'. assert (q = kp) as -> by exact (points_fun _ _ _ Hq Hpe). by destruct (cp_frame _ _ _ _ _ Hc v' kp) as (? & _); auto.
    + intros Hq Hq'. assert (q = kp) as -> by exact (points_fun _ _ _ Hq' Hpe). by destruct (cp_frame _ _ _ _ _ Hc v kp) as (? & _); auto.
Qed.
End frame.

(** The copy gets a table [pt] for index [i]. *)
Section new_table.
Context (g g1 : pages) (X : gset Z) (pts' : gmap Z Z) (i pt0 pt e' : Z).
Context (Hc : copying g X pts' i (i * 1024)) (Hi : i < 768) (Hpt : pts !! i = Some pt0).
Context (Hg : got g g1 pt true) (He : 0 <= e' < 2 ^ 32) (Hpe : points e' pt).

Definition with_table : pages := mkPages (kernel_pool g1) (user_pool g1) (put_word (pd' + 4 * i) e' (memory g1)).

Lemma pt_same q x : q mod 4096 = 0 -> q <> pt -> q <> pd' -> q <= x < q + 4096 -> memory with_table x = memory g x.
Proof using Hc Hg Hi.
  intros Hq Ht Hd Hx. destruct (copy_page _ _ _ _ _ _ Hc (cp_pd _ _ _ _ _ Hc)) as [Ha _]. pose proof (cp_range _ _ _ _ _ Hc) as [R _]. cbn.
  rewrite put_other. 2:{ destruct (pages_apart q pd') as [|]; [done|done|done|lia|lia]. }
  rewrite (gt_memory _ _ _ _ Hg). apply filled_out. destruct (pages_apart q pt) as [|]; [done|apply Hg|done|lia|lia].
Qed.

Lemma table_pd l : 0 <= l < 1024 -> entry (memory with_table) pd' l = if decide (l = i) then e' else entry (memory g) pd' l.
Proof using Hc Hg He Hi.
  intros Hl. destruct (got_keeps _ _ _ _ _ Hg (copy_page _ _ _ _ _ _ Hc (cp_pd _ _ _ _ _ Hc))) as [[Ha _] Hne].
  unfold entry. cbn. case_decide as E; [subst l; by apply word_put_same|]. rewrite word_put_other by lia. apply word_ext. intros x Hx.
  rewrite (gt_memory _ _ _ _ Hg). apply filled_out. destruct (pages_apart pd' pt) as [|]; [done|apply Hg|done|lia|lia].
Qed.

Lemma table_zero l : 0 <= l < 1024 -> entry (memory with_table) pt l = 0.
Proof using Hc Hg Hi.
  intros Hl. destruct (got_keeps _ _ _ _ _ Hg (copy_page _ _ _ _ _ _ Hc (cp_pd _ _ _ _ _ Hc))) as [[Ha _] Hne]. pose proof (cp_range _ _ _ _ _ Hc) as [R _].
  unfold entry. cbn. rewrite word_put_other. 2:{ destruct (pages_apart pd' pt) as [|]; [done|apply Hg|done|lia|lia]. }
  unfold get_word. rewrite (gt_memory _ _ _ _ Hg). by rewrite !filled_in by lia.
Qed.

Lemma table_none : pts' !! i = None.
Proof using Hc Hi. destruct (pts' !! i) eqn:E; [|done]. assert (Hs : is_Some (pts' !! i)) by (by rewrite E). apply (cp_dom _ _ _ _ _ Hc) in Hs. lia. Qed.

Lemma table_pte v : 0 <= v < PAGES ->
  pte_of (memory with_table) (<[i := pt]> pts') v = if decide (v / 1024 = i) then 0 else pte_of (memory g) pts' v.
Proof using Hc Hg Hi.
  intros Hv. unfold pte_of. pose proof (Z.mod_pos_bound v 1024 ltac:(lia)) as Hm. case_decide as E; [rewrite E, lookup_insert_eq; by apply table_zero|].
  rewrite lookup_insert_ne by done. destruct (pts' !! (v / 1024)) as [q|] eqn:Eq; [|done]. destruct (cp_tab _ _ _ _ _ Hc _ _ Eq) as (HX & Hqd & _).
  destruct (got_keeps _ _ _ _ _ Hg (copy_page _ _ _ _ _ _ Hc HX)) as [[Ha _] Hne]. apply entry_ext; [|done]. intros x Hx. by apply (pt_same q).
Qed.

Lemma copy_table : copying with_table ({[pt]} ∪ X) (<[i := pt]> pts') (i + 1) (i * 1024).
Proof using HD He Hc Hg Hi Hpe Hpt Hw.
  destruct (got_new _ _ _ _ _ _ _ _ Hc Hg) as (HX & HkX & Hk0 & Hus). destruct (cp_range _ _ _ _ _ Hc) as [R1 R2]. pose proof (cp_pd _ _ _ _ _ Hc) as HpdX.
  assert (Hal : forall q, q ∈ X -> q mod 4096 = 0 /\ q <> pt) by (intros q Hq; split; [by apply Hc|congruence]).
  assert (Hdiv : forall v, 0 <= v < i * 1024 -> 0 <= v < PAGES /\ v / 1024 <> i).
  { intros v Hv. split; [unfold PAGES; lia|]. assert (v / 1024 < i) by (apply Z.div_lt_upper_bound; lia). lia. }
  assert (Hpte : forall v, 0 <= v < i * 1024 -> pte_of (memory with_table) (<[i := pt]> pts') v = pte_of (memory g) pts' v).
  { intros v Hv. destruct (Hdiv v Hv). by rewrite table_pte, decide_False. }
  split; [destruct (gt_ok _ _ _ _ Hg) as [[] ?]; by split|done| |by apply (pools_trans _ _ _ _ _ _ _ _ _ Hc Hg)|apply elem_of_union; by right|done| | | | | |lia| | | |].
  - intros q [->%elem_of_singleton|Hq]%elem_of_union; [right; left; exists i; by rewrite lookup_insert_eq|].
    destruct (cp_all _ _ _ _ _ Hc q Hq) as [?|[[k Hk]|(v & Hv1 & Hpp)]]; [by left| |].
    + right. left. exists k. rewrite lookup_insert_ne; [done|]. intros <-. by rewrite table_none in Hk.
    + right. right. exists v. split; [lia|]. by rewrite Hpte.
  - intros a x Ha Hx. destruct (old_page _ _ _ _ _ _ Hc Ha) as [_ HaX]. rewrite (pt_same a); [by apply (cp_old _ _ _ _ _ Hc a)|apply Ha|intros ->; done|intros ->; done|done].
  - intros k. rewrite lookup_insert_is_Some, (cp_dom _ _ _ _ _ Hc). split.
    + intros [->|(_ & ? & ?)]; [split; [lia|by rewrite Hpt]|]. split; [lia|done].
    + intros [Hk Hs]. destruct (Z.eq_dec k i) as [->|]; [by left|]. right. split_and!; [congruence|lia|done].
  - intros k q [[<- <-]|[Hk Hq]]%lookup_insert_Some.
    + rewrite table_pd, decide_True by (done || lia). split_and!; [apply elem_of_union; left; by apply elem_of_singleton|congruence|done].
    + destruct (cp_tab _ _ _ _ _ Hc _ _ Hq) as (? & ? & ?). split_and!; [apply elem_of_union; by right|done|].
      assert (Hs : is_Some (pts' !! k)) by (by rewrite Hq). apply (cp_dom _ _ _ _ _ Hc) in Hs as [_ [q0 Hs]].
      destruct (dr_pt _ _ _ (wd_dir _ _ Hw _ _ HD) _ _ Hs). by rewrite table_pd, decide_False by (congruence || lia).
  - intros k k' q [[<- <-]|[Hk Hq]]%lookup_insert_Some [[<- E]|[Hk' Hq']]%lookup_insert_Some; [done| | |by eapply (cp_inj _ _ _ _ _ Hc)].
    + by destruct (cp_tab _ _ _ _ _ Hc _ _ Hq') as (? & _).
    + subst q. by destruct (cp_tab _ _ _ _ _ Hc _ _ Hq) as (? & _).
  - intros k Hk [Hn Hne]%lookup_insert_None. rewrite table_pd, decide_False by (done || congruence). by apply Hc.
  - intros v Hv. rewrite Hpte by done. eapply forked_frame; [|by apply (cp_pte _ _ _ _ _ Hc v)]. intros q x Hq Hx.
    destruct (cp_frame _ _ _ _ _ Hc v q Hv Hq) as (HqX & Hqd & _). destruct (Hal q HqX). by apply (pt_same q).
  - intros v Hv. rewrite table_pte by (unfold PAGES; lia). rewrite decide_True; [done|]. symmetry. apply (Z.div_unique v 1024 i (v - i * 1024)); lia.
  - intros v q Hv. rewrite Hpte by done. intros Hq. destruct (cp_frame _ _ _ _ _ Hc v q Hv Hq) as (HqX & Hqd & Hqt). split_and!; [apply elem_of_union; by right|done|].
    intros k [[_ Eq]|[_ Hk]]%lookup_insert_Some; [|by apply (Hqt k)]. congruence.
  - intros v v' q Hv Hv'. rewrite !Hpte by done. by apply Hc.
Qed.
End new_table.

(** ** The loops *)

Lemma copy_ptes_spec n : forall s X pts' i pt0 pt j (Q : bool -> vm -> Prop), Z.of_nat n + j = 1024 -> 0 <= j ->
  copying (vm_pages s) X pts' (i + 1) (i * 1024 + j) -> 0 <= i -> pts !! i = Some pt0 -> pts' !! i = Some pt ->
  (forall g X', copying g X' pts' (i + 1) ((i + 1) * 1024) -> Q true (with_pages g s)) ->
  (forall g X' b, copying g X' pts' (i + 1) b -> full g true -> Q false (with_pages g s)) ->
  wp (copy_ptes n (pt0 + 4 * j) (pt + 4 * j)) Q s.
Proof using HD Hw.
  induction n as [|n IH]; intros s X pts' i pt0 pt j Q Hn Hj Hc Hi Hp0 Hp Qt Qf; cbn [copy_ptes].
  { wp_steps. rewrite <- (with_same s). apply (Qt _ X). by replace ((i + 1) * 1024) with (i * 1024 + j) by lia. }
  set (b := i * 1024 + j) in *. assert (Ediv : b / 1024 = i) by (subst b; rewrite Z.div_add_l, Z.div_small; lia).
  assert (Emod : b mod 1024 = j) by (subst b; rewrite Z.add_comm, Z.mod_add, Z.mod_small; lia).
  destruct (dr_pt _ _ _ (wd_dir _ _ Hw _ _ HD) _ _ Hp0) as (Hi1 & Hpg0 & _).
  assert (Eold : get_word (memory (vm_pages s)) (pt0 + 4 * j) = old b).
  { unfold pte_of. rewrite Ediv, Emod, Hp0. apply (entry_ext (memory g0) _ pt0 j); [|lia]. intros x Hx. by apply (cp_old _ _ _ _ _ Hc pt0). }
  vm_steps. rewrite Eold. replace (pt0 + 4 * j + 4) with (pt0 + 4 * (j + 1)) by lia. replace (pt + 4 * j + 4) with (pt + 4 * (j + 1)) by lia.
  assert (Hb1 : b + 1 = i * 1024 + (j + 1)) by lia.
  fold (present (old b)). destruct (present (old b)) eqn:Hpr.
  2:{ eapply (IH s X pts' i pt0 pt (j + 1)); [lia|lia| |done|done|done|done|done]. rewrite <- Hb1. apply copy_absent; [done|lia|done]. }
  vm_steps. apply get_page_spec; [apply Hc|done| |].
  { intros Hf. change (NULL =? NULL) with true. cbv iota. wp_steps. by eapply Qf. }
  intros kp g1 Hg. change (negb (Z.land PAL_USER PAL_ZERO =? 0)) with false in Hg. destruct (page_range _ _ (gt_ok _ _ _ _ Hg) (got_page _ _ _ _ Hg)) as [R1 R2].
  rewrite eqb_false by (unfold PHYS_BASE, NULL in *; lia). vm_steps. fold (has_flag (old b) PTE_W).
  destruct (pte_created kp (has_flag (old b) PTE_W)) as (e' & E' & Her & Hpe & Hfl); [apply Hg|lia|]. eapply wp_lift_ok; [exact E'|]. vm_steps.
  pose proof (dr_entry _ _ _ (wd_dir _ _ Hw _ _ HD) i pt0 j Hp0 ltac:(lia)) as [_ Hen]. destruct Hen as [p Hpp].
  { unfold pte_of in Hpr. by rewrite Ediv, Emod, Hp0 in Hpr. }
  assert (Hob : points (old b) p) by (unfold pte_of; by rewrite Ediv, Emod, Hp0).
  assert (Hre : get_word (put_word (pt + 4 * j) e' (memory g1)) (pt0 + 4 * j) = old b).
  { rewrite <- Eold, word_put_other; [by rewrite (gt_memory _ _ _ _ Hg)|]. destruct (cp_tab _ _ _ _ _ Hc _ _ Hp) as (HptX & _ & _).
    destruct (old_page _ _ _ _ _ _ Hc Hpg0) as [_ Hn0]. destruct (copy_page _ _ _ _ _ _ Hc HptX) as [Ha _].
    destruct (pages_apart pt0 pt) as [|]; [apply Hpg0|done|congruence|lia|lia]. }
  cbn [vm_pages set_memory with_pages memory]. rewrite Hre. eapply wp_lift_ok; [apply Hob|]. unfold memcpy. vm_steps.
  pose proof (copy_frame (vm_pages s) g1 X pts' (i + 1) b pt p kp e' Hc ltac:(lia) ltac:(by rewrite Ediv) Hob Hg Her Hpe Hfl) as Hc'.
  rewrite Hb1 in Hc'. eapply (IH _ _ pts' i pt0 pt (j + 1)); [lia|lia| |done|done|done| |].
  { unfold with_frame in Hc'. rewrite Emod in Hc'. exact Hc'. }
  - intros g X' Hx. exact (Qt g X' Hx).
  - intros g X' b' Hx. exact (Qf g X' b' Hx).
Qed.

Lemma copy_pdes_spec n : forall s X pts' i (Q : bool -> vm -> Prop), Z.of_nat n + i = 768 ->
  copying (vm_pages s) X pts' i (i * 1024) ->
  (forall g X' pts1, copying g X' pts1 768 PAGES -> Q true (with_pages g s)) ->
  (forall g X' pts1 i' b user, copying g X' pts1 i' b -> full g user -> Q false (with_pages g s)) ->
  wp (copy_pdes n (pd + 4 * i) (pd' + 4 * i)) Q s.
Proof using HD Hw.
  induction n as [|n IH]; intros s X pts' i Q Hn Hc Qt Qf; cbn [copy_pdes]; pose proof (cp_range _ _ _ _ _ Hc) as [Hi _].
  { wp_steps. rewrite <- (with_same s). apply (Qt _ X pts'). assert (i = 768) as -> by lia. exact Hc. }
  pose proof (wd_dir _ _ Hw _ _ HD) as Hd. assert (Eold : get_word (memory (vm_pages s)) (pd + 4 * i) = entry (memory g0) pd i).
  { apply (entry_ext (memory g0) _ pd i); [|lia]. intros x Hx. apply (cp_old _ _ _ _ _ Hc pd); [apply Hd|done]. }
  vm_steps. rewrite Eold. replace (pd + 4 * i + 4) with (pd + 4 * (i + 1)) by lia. replace (pd' + 4 * i + 4) with (pd' + 4 * (i + 1)) by lia.
  fold (present (entry (memory g0) pd i)). destruct (pts !! i) as [pt0|] eqn:Hp0.
  2:{ rewrite (dr_none _ _ _ Hd i) by (done || lia). change (present 0) with false. cbv iota. eapply (IH s X pts'); [lia| |done|done]. apply copy_none; [done|lia|done]. }
  pose proof (dr_some _ _ _ Hd _ _ Hp0) as Hpp. rewrite (proj1 Hpp). vm_steps. apply get_page_spec; [apply Hc|done| |].
  { intros Hf. change (NULL =? NULL) with true. cbv iota. wp_steps. by eapply Qf. }
  intros pt g1 Hg. change (negb (Z.land PAL_ZERO PAL_ZERO =? 0)) with true in Hg. destruct (page_range _ _ (gt_ok _ _ _ _ Hg) (got_page _ _ _ _ Hg)) as [R1 R2].
  rewrite eqb_false by (unfold PHYS_BASE, NULL in *; lia). vm_steps. destruct (pde_created pt) as (e' & E' & Her & Hpe); [apply Hg|lia|].
  eapply wp_lift_ok; [exact E'|]. vm_steps. pose proof (copy_table (vm_pages s) g1 X pts' i pt0 pt e' Hc ltac:(lia) Hp0 Hg Her Hpe) as Hc'.
  set (s1 := set_memory _ _). change (copying (vm_pages s1) ({[pt]} ∪ X) (<[i := pt]> pts') (i + 1) (i * 1024)) in Hc'.
  assert (Hre : get_word (memory (vm_pages s1)) (pd + 4 * i) = entry (memory g0) pd i).
  { apply (entry_ext (memory g0) _ pd i); [|lia]. intros x Hx. apply (cp_old _ _ _ _ _ Hc' pd); [apply Hd|done]. }
  rewrite Hre. eapply wp_lift_ok; [exact (pde_points _ _ Hpp)|]. vm_steps. change ENTRIES with 1024%nat. rewrite <- (Z.add_0_r pt0), <- (Z.add_0_r pt).
  apply (copy_ptes_spec 1024 s1 ({[pt]} ∪ X) (<[i := pt]> pts') i pt0 pt 0); [done|lia|by rewrite Z.add_0_r|lia|done|apply lookup_insert_eq| |].
  - intros g X' Hx. apply (IH _ X' (<[i := pt]> pts') (i + 1)); cbn [vm_pages with_pages]; [lia|done|exact Qt|exact Qf].
  - intros g X' b Hx Hf. wp_steps. exact (Qf g X' _ _ b true Hx Hf).
Qed.

(** ** The start and the end *)

Lemma copy_start g1 : got g0 g1 pd' false ->
  copying (mkPages (kernel_pool g1) (user_pool g1) (copied pd' pd PGSIZE (memory g1))) {[pd']} ∅ 0 0.
Proof using HD Hw.
  intros Hg. pose proof (wd_dir _ _ Hw _ _ HD) as Hd. destruct (got_keeps _ _ _ _ _ Hg (dr_pd _ _ _ Hd)) as [Hp Hne]. split; cbn; change PGSIZE with 4096; try done.
  - destruct (gt_ok _ _ _ _ Hg) as [[] ?]. by split.
  - intros p ->%elem_of_singleton. split; apply Hg.
  - intros p ->%elem_of_singleton. by left.
  - apply Hg.
  - by apply elem_of_singleton.
  - intros x. unfold used. cbn. fold (used g1 x). rewrite (gt_used _ _ _ _ Hg). split; [intros [?|?]; [by left|right; exists pd'; by rewrite elem_of_singleton]|].
    intros [?|(p & ->%elem_of_singleton & ?)]; auto.
  - intros a x Ha Hx. destruct (got_keeps _ _ _ _ _ Hg Ha) as [_ Hna]. rewrite copied_out; [by rewrite (gt_memory _ _ _ _ Hg)|].
    destruct (pages_apart a pd') as [|]; [apply Ha|apply Hg|done|lia|lia].
  - intros k. split; [by intros []|]. intros [Hk [q Hq]]. destruct (dr_pt _ _ _ Hd _ _ Hq). lia.
  - intros k Hk _. unfold entry, get_word. rewrite !copied_in by lia. rewrite (gt_memory _ _ _ _ Hg).
    replace (pd + (pd' + 4 * k - pd')) with (pd + 4 * k) by lia. replace (pd + (pd' + 4 * k + 1 - pd')) with (pd + 4 * k + 1) by lia.
    replace (pd + (pd' + 4 * k + 2 - pd')) with (pd + 4 * k + 2) by lia. by replace (pd + (pd' + 4 * k + 3 - pd')) with (pd + 4 * k + 3) by lia.
  - intros v Hv. lia.
  - intros v Hv. lia.
  - intros v p Hv. lia.
Qed.

Lemma copy_fresh g X pts' i b : copying g X pts' i b -> D !! pd' = None.
Proof using Hw.
  intros Hc. destruct (D !! pd') as [q|] eqn:E; [|done]. pose proof (dr_pd _ _ _ (wd_dir _ _ Hw _ _ E)) as Hp.
  destruct (old_page _ _ _ _ _ _ Hc Hp) as [_ Hn]. by destruct (Hn (cp_pd _ _ _ _ _ Hc)).
Qed.

(** The old address spaces are there. *)
Lemma copy_old_pte g X pts' i b pd1 pts1 v : copying g X pts' i b -> D !! pd1 = Some pts1 -> pte_of (memory g) pts1 v = pte_of (memory g0) pts1 v.
Proof using Hw.
  intros Hc H1. apply space_frame. intros k q x Hk Hx. destruct (dr_pt _ _ _ (wd_dir _ _ Hw _ _ H1) _ _ Hk) as (_ & Hp & _). by apply (cp_old _ _ _ _ _ Hc q).
Qed.

Lemma copy_dir g X pts' : copying g X pts' 768 PAGES -> dir g pd' pts'.
Proof using HD Hw.
  intros Hc. pose proof (wd_dir _ _ Hw _ _ HD) as Hd. assert (Hi : forall k pt, pts' !! k = Some pt -> 0 <= k < 768).
  { intros k pt Hk. assert (Hs : is_Some (pts' !! k)) by (by rewrite Hk). apply (cp_dom _ _ _ _ _ Hc) in Hs as [_ [q Hs]]. by destruct (dr_pt _ _ _ Hd _ _ Hs). }
  split.
  - eapply copy_page; [exact Hc|apply Hc].
  - intros k pt Hk. destruct (cp_tab _ _ _ _ _ Hc _ _ Hk) as (? & ? & _). split_and!; [apply (Hi k pt Hk)..|by eapply copy_page|done].
  - apply Hc.
  - intros k Hk Hn. rewrite (cp_rest _ _ _ _ _ Hc) by (done || lia). apply (dr_none _ _ _ Hd); [done|]. destruct (pts !! k) eqn:E; [|done].
    assert (Hs : is_Some (pts' !! k)) by (apply (cp_dom _ _ _ _ _ Hc); split; [lia|by rewrite E]). rewrite Hn in Hs. by destruct Hs.
  - intros k pt Hk. by destruct (cp_tab _ _ _ _ _ Hc _ _ Hk) as (_ & _ & ?).
  - intros k pt l Hk Hl. pose proof (Hi k pt Hk). rewrite <- (pte_split _ pts' k pt l Hk Hl). pose proof (cp_pte _ _ _ _ _ Hc (k * 1024 + l)) as Hf.
    unfold forked in Hf. specialize (Hf ltac:(unfold PAGES; lia)). destruct (present _).
    + destruct Hf as (p & p' & _ & Hp & Hr & _). split; [done|]. by exists p'.
    + rewrite Hf. by split.
Qed.

Lemma copy_world g X pts' : copying g X pts' 768 PAGES -> world g (<[pd' := pts']> D).
Proof using HD Hw.
  intros Hc. pose proof (copy_fresh _ _ _ _ _ Hc) as Hfr.
  assert (Htab : forall a, tables pd' pts' a -> a ∈ X).
  { intros a [->|[k Hk]]; [apply Hc|]. by destruct (cp_tab _ _ _ _ _ Hc _ _ Hk). }
  assert (Hot : forall pd1 pts1 a, D !! pd1 = Some pts1 -> tables pd1 pts1 a -> page g a /\ a ∉ X).
  { intros pd1 pts1 a H1 Ha. eapply old_page; [exact Hc|]. eapply tables_page; [by apply (wd_dir _ _ Hw)|done]. }
  assert (Hmaps : forall pd1 v a, maps g (<[pd' := pts']> D) pd1 v a ->
            (maps g0 D pd1 v a /\ page g a /\ a ∉ X) \/ (pd1 = pd' /\ 0 <= v < PAGES /\ points (pte_of (memory g) pts' v) a)).
  { intros pd1 v a (pts1 & mp & [[<- <-]|[Hne H1]]%lookup_insert_Some & Hv & Hs & <-); [right; split_and!; [done|lia..|by apply view_points]|].
    left. assert (Hm : maps g0 D pd1 v (mp_page mp)).
    { exists pts1, mp. split_and!; [done|lia..| |done]. unfold space in *. by rewrite <- (copy_old_pte _ _ _ _ _ _ _ v Hc H1). }
    destruct (wd_frame _ _ Hw _ _ _ Hm) as [Hp _]. split; [done|by eapply old_page]. }
  split; [apply Hc|..].
  - intros pd1 pts1 [[<- <-]|[Hne H1]]%lookup_insert_Some; [by eapply copy_dir|]. eapply dir_frame; [by apply (wd_dir _ _ Hw)|intros a Ha; by eapply old_page|].
    intros a x Ha Hx. apply (cp_old _ _ _ _ _ Hc a); [|done]. eapply tables_page; [by apply (wd_dir _ _ Hw)|exact Ha].
  - intros pd1 pts1 pd2 pts2 a [[<- <-]|[Hne1 H1]]%lookup_insert_Some [[<- <-]|[Hne2 H2]]%lookup_insert_Some Ha1 Ha2; [done|..].
    + destruct (Hot _ _ _ H2 Ha2) as [_ Hn]. by destruct (Hn (Htab _ Ha1)).
    + destruct (Hot _ _ _ H1 Ha1) as [_ Hn]. by destruct (Hn (Htab _ Ha2)).
    + by eapply (wd_apart _ _ Hw _ _ _ _ a H1 H2).
  - intros pd1 v a [(Hm & Hp & HX)|(-> & Hv & Hp)]%Hmaps.
    + split; [done|]. destruct (wd_frame _ _ Hw _ _ _ Hm) as [_ Ht]. intros (pd2 & pts2 & [[<- <-]|[Hne H2]]%lookup_insert_Some & Ha); [by apply HX, Htab|].
      apply Ht. by exists pd2, pts2.
    + destruct (cp_frame _ _ _ _ _ Hc v a Hv Hp) as (HX & Hd & Hk). split; [by eapply copy_page|].
      intros (pd2 & pts2 & [[<- <-]|[Hne H2]]%lookup_insert_Some & Ha); [destruct Ha as [?|[k ?]]; [done|by apply (Hk k)]|].
      by destruct (Hot _ _ _ H2 Ha) as [_ Hn].
  - intros pd1 v1 pd2 v2 a [(Hm & _ & HX)|(-> & Hv & Hp)]%Hmaps [(Hm' & _ & HX')|(-> & Hv' & Hp')]%Hmaps.
    + by eapply Hw.
    + by destruct (cp_frame _ _ _ _ _ Hc v2 a Hv' Hp') as (? & _).
    + by destruct (cp_frame _ _ _ _ _ Hc v1 a Hv Hp) as (? & _).
    + split; [done|]. by eapply (cp_once _ _ _ _ _ Hc v1 v2 a).
Qed.

(** What the directory of the copy leads to when memory runs out: its own
    tables below index [i], and from there on those of the original. *)
Definition mixed pts' i : gmap Z Z := pts' ∪ filter (fun kp => i <= kp.1) pts.

Section failure.
Context (g : pages) (X : gset Z) (pts' : gmap Z Z) (i b : Z) (Hc : copying g X pts' i b).

Lemma copy_index k pt : pts' !! k = Some pt -> 0 <= k < i.
Proof using Hc HD Hw.
  intros Hk. assert (Hs : is_Some (pts' !! k)) by (by rewrite Hk). apply (cp_dom _ _ _ _ _ Hc) in Hs as [? [q Hs]].
  destruct (dr_pt _ _ _ (wd_dir _ _ Hw _ _ HD) _ _ Hs). lia.
Qed.

Lemma mixed_Some k pt : mixed pts' i !! k = Some pt -> (0 <= k < i /\ pts' !! k = Some pt) \/ (i <= k /\ pts' !! k = None /\ pts !! k = Some pt).
Proof using Hc HD Hw.
  unfold mixed. rewrite lookup_union_Some_raw, map_lookup_filter_Some. intros [Hk|(Hn & Hk & Hi)]; [left|right; cbn in Hi; by split_and!].
  split; [by eapply copy_index|done].
Qed.

Lemma mixed_new k pt : pts' !! k = Some pt -> mixed pts' i !! k = Some pt.
Proof. intros Hk. unfold mixed. apply lookup_union_Some_raw. by left. Qed.

Lemma mixed_old k pt : i <= k -> pts !! k = Some pt -> mixed pts' i !! k = Some pt.
Proof using Hc HD Hw.
  intros Hi Hk. unfold mixed. apply lookup_union_Some_raw. right. split; [|by apply map_lookup_filter_Some].
  destruct (pts' !! k) eqn:E; [|done]. apply copy_index in E. lia.
Qed.

(** The entries that are in place. *)
Lemma new_pde k pt l : pts' !! k = Some pt -> 0 <= l < 1024 -> present (entry (memory g) pt l) = true ->
  0 <= k * 1024 + l < b /\ pte_of (memory g) pts' (k * 1024 + l) = entry (memory g) pt l /\ exists p, points (entry (memory g) pt l) p.
Proof using Hc HD Hw.
  intros Hk Hl Hp. pose proof (copy_index k pt Hk) as Hi. pose proof (pte_split (memory g) pts' k pt l Hk Hl) as E. destruct (Z_lt_le_dec (k * 1024 + l) b) as [Hb|Hb].
  - split_and!; [lia..|done|]. pose proof (cp_pte _ _ _ _ _ Hc (k * 1024 + l) ltac:(lia)) as Hf. rewrite E in Hf. unfold forked in Hf.
    destruct (present (old (k * 1024 + l))); [|by rewrite Hf in Hp]. destruct Hf as (_ & p & _ & ? & _). by exists p.
  - rewrite (cp_zero _ _ _ _ _ Hc) in E by lia. by rewrite <- E in Hp.
Qed.

Lemma new_frame k pt p : pts' !! k = Some pt -> frames (memory g) pt 0 p -> p ∈ X /\ p <> pd' /\ forall k', pts' !! k' <> Some p.
Proof using Hc HD Hw.
  intros Hk (l & Hl & Hp). destruct (new_pde k pt l Hk Hl (proj1 Hp)) as (Hv & E & _). apply (cp_frame _ _ _ _ _ Hc (k * 1024 + l)); [done|by rewrite E].
Qed.

Lemma old_entry k pt l : pts !! k = Some pt -> 0 <= l < 1024 -> entry (memory g) pt l = entry (memory g0) pt l.
Proof using Hc HD Hw.
  intros Hk Hl. apply entry_ext; [|done]. intros x Hx. apply (cp_old _ _ _ _ _ Hc pt); [|done]. by destruct (dr_pt _ _ _ (wd_dir _ _ Hw _ _ HD) _ _ Hk) as (_ & ? & _).
Qed.

Lemma old_frames k pt p : pts !! k = Some pt -> frames (memory g) pt 0 p <-> frames (memory g0) pt 0 p.
Proof using Hc HD Hw. intros Hk. split; intros (l & Hl & Hp); exists l; (split; [done|]); by rewrite (old_entry k) in *. Qed.

Lemma old_frame k pt p : pts !! k = Some pt -> frames (memory g) pt 0 p -> page g p /\ p ∉ X /\ (forall k', pts !! k' <> Some p) /\
  exists l, 0 <= l < 1024 /\ maps g0 D pd (k * 1024 + l) p.
Proof using Hc HD Hw.
  intros Hk (l & Hl & Hp). rewrite (old_entry k) in Hp by done. destruct (dr_pt _ _ _ (wd_dir _ _ Hw _ _ HD) _ _ Hk) as (Hi & _ & _).
  pose proof (frame_maps g0 D pd pts k pt l p HD Hi Hk Hl Hp) as Hm. destruct (wd_frame _ _ Hw _ _ _ Hm) as [Hpg Ht].
  destruct (old_page _ _ _ _ _ _ Hc Hpg). split_and!; [done|done| |by exists l]. intros k' Hk'. apply Ht. exists pd, pts. split; [done|right; by exists k'].
Qed.

Lemma old_table k pt : pts !! k = Some pt -> page g pt /\ pt ∉ X.
Proof using Hc HD Hw. intros Hk. eapply old_page; [exact Hc|]. by destruct (dr_pt _ _ _ (wd_dir _ _ Hw _ _ HD) _ _ Hk) as (_ & ? & _). Qed.

Lemma copy_own : own g pd' (mixed pts' i) 0.
Proof using Hc HD Hw.
  pose proof (wd_dir _ _ Hw _ _ HD) as Hd. pose proof (cp_pd _ _ _ _ _ Hc) as HpdX. split; [done|by eapply copy_page|..].
  - intros k Hk Hn. assert (Hn' : pts' !! k = None) by (destruct (pts' !! k) eqn:E; [by rewrite (mixed_new k _ E) in Hn|done]).
    rewrite (cp_rest _ _ _ _ _ Hc) by (done || lia). rewrite (dr_none _ _ _ Hd); [done|done|]. destruct (pts !! k) as [q|] eqn:E; [|done].
    destruct (Z_lt_le_dec k i) as [Hi|Hi]; [|by rewrite (mixed_old k q) in Hn].
    assert (Hs : is_Some (pts' !! k)) by (apply (cp_dom _ _ _ _ _ Hc); split; [done|by rewrite E]). rewrite Hn' in Hs. by destruct Hs.
  - intros k pt Hk [[_ H1]|(_ & H0 & H1)]%mixed_Some.
    + destruct (cp_tab _ _ _ _ _ Hc _ _ H1) as (? & ? & ?). split_and!; [done|by eapply copy_page|done].
    + destruct (old_table k pt H1). rewrite (cp_rest _ _ _ _ _ Hc) by (done || lia). split_and!; [by apply Hd|done|congruence].
  - intros k k' pt _ _ [[_ H1]|(_ & _ & H1)]%mixed_Some [[_ H2]|(_ & _ & H2)]%mixed_Some; [by eapply (cp_inj _ _ _ _ _ Hc)|..|by eapply Hd].
    + destruct (cp_tab _ _ _ _ _ Hc _ _ H1) as (? & _). by destruct (old_table k' pt H2).
    + destruct (cp_tab _ _ _ _ _ Hc _ _ H2) as (? & _). by destruct (old_table k pt H1).
  - intros k pt l Hk [[_ H1]|(_ & _ & H1)]%mixed_Some Hl Hp; [by apply (new_pde k)|]. rewrite (old_entry k) in * by done. by apply (dr_entry _ _ _ Hd k pt l H1 Hl).
  - intros k pt p Hk [[_ H1]|(_ & _ & H1)]%mixed_Some Hf.
    + destruct (new_frame k pt p H1 Hf) as (HX & Hne & Ht). split_and!; [by eapply copy_page|done|]. intros k' q _ [[_ H2]|(_ & _ & H2)]%mixed_Some ->; [by apply (Ht k')|].
      by destruct (old_table k' q H2).
    + destruct (old_frame k pt p H1 Hf) as (Hp & HX & Ht & _). split_and!; [done|congruence|]. intros k' q _ [[_ H2]|(_ & _ & H2)]%mixed_Some ->; [|by apply (Ht k')].
      by destruct (cp_tab _ _ _ _ _ Hc _ _ H2) as (? & _).
  - intros k k' pt pt' l l' p _ _ [[_ H1]|(_ & _ & H1)]%mixed_Some [[_ H2]|(_ & _ & H2)]%mixed_Some Hl Hl' Hp Hp'.
    + destruct (new_pde k pt l H1 Hl (proj1 Hp)) as (Hv & E & _), (new_pde k' pt' l' H2 Hl' (proj1 Hp')) as (Hv' & E' & _).
      rewrite <- E in Hp. rewrite <- E' in Hp'. pose proof (cp_once _ _ _ _ _ Hc _ _ p Hv Hv' Hp Hp'). lia.
    + destruct (new_frame k pt p H1) as (HX & _); [by exists l|]. destruct (old_frame k' pt' p H2) as (_ & HnX & _); [by exists l'|done].
    + destruct (new_frame k' pt' p H2) as (HX & _); [by exists l'|]. destruct (old_frame k pt p H1) as (_ & HnX & _); [by exists l|done].
    + rewrite (old_entry k) in Hp by done. rewrite (old_entry k') in Hp' by done.
      destruct (dr_pt _ _ _ Hd _ _ H1) as (Hi & _), (dr_pt _ _ _ Hd _ _ H2) as (Hi' & _).
      destruct (wd_once _ _ Hw _ _ _ _ _ (frame_maps g0 D pd pts k pt l p HD Hi H1 Hl Hp) (frame_maps g0 D pd pts k' pt' l' p HD Hi' H2 Hl' Hp')) as [_ E]. lia.
Qed.

Lemma copy_owned p : p = pd' \/ owned (memory g) (mixed pts' i) 0 p <-> p ∈ X \/ owned (memory g0) pts i p.
Proof using Hc HD Hw.
  pose proof (wd_dir _ _ Hw _ _ HD) as Hd. destruct (cp_range _ _ _ _ _ Hc) as [Hi0 Hb0]. split.
  - intros [->|(k & pt & Hk & [[_ H1]|(Hi & _ & H1)]%mixed_Some & Hp)]; [left; apply Hc|left|right].
    + destruct Hp as [->|Hf]; [by destruct (cp_tab _ _ _ _ _ Hc _ _ H1)|by destruct (new_frame k pt p H1 Hf)].
    + exists k, pt. split_and!; [lia..|done|]. destruct Hp as [->|Hf]; [by left|right]. by apply (old_frames k pt p H1).
  - intros [HX|(k & pt & Hk & H1 & Hp)].
    + destruct (cp_all _ _ _ _ _ Hc p HX) as [->|[[k Hk]|(v & Hv & Hp)]]; [by left|right..].
      * exists k, p. pose proof (copy_index k p Hk). split_and!; [lia..|by apply mixed_new|by left].
      * destruct (pts' !! (v / 1024)) as [pt|] eqn:E; [|by unfold pte_of in Hp; rewrite E in Hp; destruct Hp]. exists (v / 1024), pt. pose proof (copy_index _ _ E).
        split_and!; [lia..|by apply mixed_new|]. right. exists (v mod 1024). split; [by apply Z.mod_pos_bound|]. unfold pte_of in Hp. by rewrite E in Hp.
    + right. exists k, pt. split_and!; [lia..|by apply mixed_old; [lia|]|]. destruct Hp as [->|Hf]; [by left|right]. by apply (old_frames k pt p H1).
Qed.

(** After the directory of the copy has been destroyed, the original has
    lost its tables from index [i] on. *)
Lemma copy_lost g' : gone g g' (fun p => p = pd' \/ owned (memory g) (mixed pts' i) 0 p) ->
  forall x, used g' x <-> used g0 x /\ ~ within (owned (memory g0) pts i) x.
Proof using Hc HD Hw.
  intros Hg x. rewrite (gn_used _ _ _ Hg), (cp_used _ _ _ _ _ Hc). assert (Hx : within (fun p => p = pd' \/ owned (memory g) (mixed pts' i) 0 p) x <->
    (exists p, p ∈ X /\ span p 1 x) \/ within (owned (memory g0) pts i) x).
  { split.
    - intros (p & Hp & Hx). apply copy_owned in Hp as [Hp|Hp]; [left|right]; by exists p.
    - intros [(p & Hp & Hx)|(p & Hp & Hx)]; exists p; (split; [|done]); apply copy_owned; auto. }
  rewrite Hx. assert (Hn : used g0 x -> ~ exists p, p ∈ X /\ span p 1 x).
  { intros Hu (p & Hp & Hpx). by destruct (cp_new _ _ _ _ _ Hc p Hp) as [_ Hn]; apply (Hn x). }
  split.
  - intros [[Hu|Hu] Hno]; [|by destruct Hno; left]. split; [done|]. intros Ho. apply Hno. by right.
  - intros [Hu Ho]. split; [by left|]. intros [He|He]; [by apply Hn|done].
Qed.
End failure.

End copying.

(** * [pagedir_copy] *)

Section theorems.
Context (init_page_dir : Z).
Implicit Types (s : vm) (D : gmap Z (gmap Z Z)) (pd : Z).

(** The space [A'] at [s'] is a copy of [A] at [s]: it maps the same page
    numbers, to new pages with the same bytes, writable where [A] is. *)
Definition copy_of s s' (A A' : spc) : Prop := forall v, 0 <= v < PAGES ->
  match A v with
  | None => A' v = None
  | Some mp => exists p, A' v = Some (mkMap p (mp_writable mp) false false) /\ ~ used (vm_pages s) p /\
      forall o, 0 <= o < 4096 -> memory (vm_pages s') (p + o) = memory (vm_pages s) (mp_page mp + o)
  end.

(** A pool of pages is used up, by [s] and the pages [X]. *)
Definition used_up s (X : gset Z) : Prop := exists user, forall x, in_pool (get_pool user (vm_pages s)) x ->
  used (vm_pages s) x \/ within (fun p => p ∈ X) x.

Lemma copied_space s D pd pts pd' g X pts' : world (vm_pages s) D -> D !! pd = Some pts -> copying (vm_pages s) pd pts pd' g X pts' 768 PAGES ->
  copy_of s (with_pages g s) (space (memory (vm_pages s)) pts) (space (memory g) pts').
Proof.
  intros Hw HD Hc v Hv. pose proof (cp_pte _ _ _ _ _ _ _ _ _ Hc v Hv) as Hf. unfold forked in Hf. unfold space.
  destruct (present (pte_of (memory (vm_pages s)) pts v)) eqn:Hp.
  - destruct Hf as (p & p' & [_ E1] & Hp' & _ & Hfl & Hb). unfold view at 1. rewrite Hp, E1. exists p'. split_and!; [|..|exact Hb].
    + unfold view. destruct Hp' as [P1 P2]. rewrite P1, P2, !Hfl by done. cbn [mp_writable]. by destruct (has_flag _ PTE_W).
    + destruct (cp_frame _ _ _ _ _ _ _ _ _ Hc v p' Hv Hp') as (HX & _). destruct (cp_new _ _ _ _ _ _ _ _ _ Hc p' HX) as [_ Hn]. apply Hn. unfold span. lia.
  - unfold view at 1. rewrite Hp. by rewrite Hf.
Qed.

(** C15: [pagedir_copy] makes a new address space that maps the same page
    numbers as the original to new pages with the same bytes, and shares no
    page with it; the kernel's part of the directory is the same, and no
    address space that was there changes. It returns NULL only when a pool
    of pages is used up. But then it has given back, together with what it
    had allocated, the tables of the original from some index on and all the
    pages they lead to. *)
Theorem pagedir_copy_correct s D self pd pts : machine s D self -> D !! pd = Some pts -> pd <> init_page_dir ->
  page (vm_pages s) init_page_dir ->
  exists r s', pagedir_copy init_page_dir pd s = Ok (r, s') /\
    ((r <> NULL /\ D !! r = None /\ exists pts', machine s' (<[r := pts']> D) self /\ others s s' D r /\
        copy_of s s' (space (memory (vm_pages s)) pts) (space (memory (vm_pages s')) pts') /\
        forall k, 768 <= k < 1024 -> entry (memory (vm_pages s')) r k = entry (memory (vm_pages s)) pd k) \/
     (r = NULL /\ exists X i, used_up s X /\ (forall p, p ∈ X -> ~ used (vm_pages s) p) /\
        forall x, used (vm_pages s') x <-> used (vm_pages s) x /\ ~ within (owned (memory (vm_pages s)) pts i) x)).
Proof.
  intros Hm HD Hi Hpi. apply wp_ok. pose proof (mc_world _ _ _ Hm) as Hw. pose proof (dr_pd _ _ _ (wd_dir _ _ Hw _ _ HD)) as Hpd. destruct (page_range _ _ (wd_mem _ _ Hw) Hpd) as [R _].
  unfold pagedir_copy. wp_steps; [apply negb_true_iff, eqb_false; unfold PHYS_BASE, NULL in *; lia|by apply negb_true_iff, eqb_false|].
  vm_steps. apply get_page_spec; [apply Hw|done| |].
  { intros Hf. change (NULL =? NULL) with true. cbv iota. wp_steps. unfold pagedir_destroy. change (NULL =? NULL) with true. cbv iota. wp_steps. rewrite with_same.
    right. split; [done|]. exists ∅, 768. split_and!; [exists false; intros x Hx; left; by apply Hf|done|]. intros x. split; [|by intros []]. intros Hu. split; [done|].
    intros (p & (k & pt & Hk & _) & _). lia. }
  intros pd' g1 Hg. change (negb (Z.land 0 PAL_ZERO =? 0)) with false in Hg. destruct (page_range _ _ (gt_ok _ _ _ _ Hg) (got_page _ _ _ _ Hg)) as [R1 R2].
  assert (Hnn : pd' <> NULL) by (unfold PHYS_BASE, NULL in *; lia). rewrite (eqb_false pd' NULL) by done. unfold memcpy. wp_steps. change USER_PDES with 768%nat.
  assert (Ez : forall a : Z, a = a + 4 * 0) by lia. rewrite (Ez pd) at 1. rewrite (Ez pd') at 1.
  eapply (copy_pdes_spec (vm_pages s) D pd pts pd' Hw HD 768 _ {[pd']} ∅ 0); [done|by apply (copy_start (vm_pages s) D pd pts pd' Hw HD g1)| |].
  - intros g X pts' Hc. wp_steps. left. pose proof (copy_fresh _ _ _ _ _ Hw _ _ _ _ _ Hc) as Hfr. split; [exact Hnn|]. split; [exact Hfr|].
    exists pts'. pose proof (copy_world _ _ _ _ _ Hw HD _ _ _ Hc) as Hw'. destruct Hm as [_ Hco Hself Htl]. split_and!.
    + split; [done| |done|].
      * split; [|apply Hco]. intros c Hin. destruct (co_dir _ _ Hco c Hin) as [q Hq]. rewrite lookup_insert_ne by congruence. by rewrite Hq.
      * eapply (coherent_keep s _ D); try done. intros c Hin. cbn in Hin. exists c. split_and!; [done|done|by left|]. right. destruct (co_dir _ _ Hco c Hin) as [q Hq].
        exists q, q. split_and!; [done|by rewrite lookup_insert_ne by congruence|]. intros v f Hv Hf. cbn [vm_pages with_pages set_memory].
        by rewrite (copy_old_pte _ _ _ _ _ Hw _ _ _ _ _ _ _ v Hc Hq).
    + split.
      * intros pd1 pts1 w H1 _ _. cbn [vm_pages with_pages set_memory]. unfold space. by rewrite (copy_old_pte _ _ _ _ _ Hw _ _ _ _ _ _ _ w Hc H1).
      * intros pd1 v a x Hmp Hx. destruct (wd_frame _ _ Hw _ _ _ Hmp) as [Hp _]. by apply (cp_old _ _ _ _ _ _ _ _ _ Hc a).
    + exact (copied_space s D pd pts pd' g X pts' Hw HD Hc).
    + intros k Hk. cbn [vm_pages with_pages set_memory]. apply (cp_rest _ _ _ _ _ _ _ _ _ Hc); [lia|]. destruct (pts' !! k) eqn:E; [|done].
      assert (Hs : is_Some (pts' !! k)) by (by rewrite E). apply (cp_dom _ _ _ _ _ _ _ _ _ Hc) in Hs. lia.
  - intros g X pts' i b user Hc Hf. wp_steps.
    eapply (destroy_spec init_page_dir _ pd' (mixed pts pts' i)); cbn [vm_pages with_pages set_memory]; [apply Hc|by eapply (copy_own _ D)| |].
    { intros ->. destruct (got_keeps _ _ _ _ _ Hg Hpi). done. }
    intros g' Hg'. wp_steps. right. split; [done|]. exists X, i. split_and!.
    + exists user. intros x Hx. destruct (cp_pools _ _ _ _ _ _ _ _ _ Hc user) as [E1 E2]. assert (Hin : in_pool (get_pool user g) x) by (unfold in_pool; by rewrite E1, E2).
      apply (cp_used _ _ _ _ _ _ _ _ _ Hc), Hf, Hin.
    + intros p Hp. destruct (cp_new _ _ _ _ _ _ _ _ _ Hc p Hp) as [_ Hn]. apply Hn. unfold span. lia.
    + intros x. cbn [vm_pages with_pages set_memory]. by eapply (copy_lost _ D).
Qed.

End theorems.
End PagedirFork.
