(* ===== verification/PagedirDemo.v ===== *)
(** New page directories ([pagedir_create]), and a small machine on which the
    theorems about page directories apply. *)
From S2P Require Import Prelude Bitmap Palloc Pagedir PagedirSpec PagedirOps PagedirProps PagedirCopy PagedirFork.
From stdpp Require Import options.

#[local] Open Scope Z_scope.

Module PagedirDemo.
Import Palloc Pagedir PagedirSpec PagedirOps PagedirProps PagedirCopy PagedirFork.

Implicit Types (s : vm) (g : pages) (D : gmap Z (gmap Z Z)) (pd : Z).

(** * New page directories *)

(** An address space without tables has no pages to copy. *)
Lemma copy_empty g0 D pd pd' g X : world g0 D -> D !! pd = Some ∅ -> copying g0 pd ∅ pd' g X ∅ 0 0 -> copying g0 pd ∅ pd' g X ∅ 768 PAGES.
Proof.
  intros Hw HD Hc. assert (H : forall n, (n <= 768)%nat -> copying g0 pd ∅ pd' g X ∅ (Z.of_nat n) (Z.of_nat n * 1024)); [|by apply (H 768%nat)].
  induction n as [|n IH]; intros Hn; [done|]. replace (Z.of_nat (S n)) with (Z.of_nat n + 1) by lia. apply copy_none; [|lia|done]. apply IH. lia.
Qed.

Lemma create_spec s D self init_page_dir (Q : Z -> vm -> Prop) : machine s D self -> D !! init_page_dir = Some ∅ ->
  (full (vm_pages s) false -> Q NULL s) ->
  (forall pd s', D !! pd = None -> machine s' (<[pd := ∅]> D) self -> others s s' D pd -> vm_cpus s' = vm_cpus s ->
     (forall x, page (vm_pages s) x -> page (vm_pages s') x) ->
     (forall k, 0 <= k < 1024 -> entry (memory (vm_pages s')) pd k = entry (memory (vm_pages s)) init_page_dir k) -> Q pd s') ->
  wp (pagedir_create init_page_dir) Q s.
Proof.
  intros Hm HD Q0 HQ. pose proof (mc_world _ _ _ Hm) as Hw. unfold pagedir_create. vm_steps. apply get_page_spec; [apply Hw|done| |].
  { intros Hf. change (NULL =? NULL) with true. cbn [negb]. wp_steps. rewrite with_same. by apply Q0. }
  intros pd' g1 Hg. change (negb (Z.land 0 PAL_ZERO =? 0)) with false in Hg. destruct (page_range _ _ (gt_ok _ _ _ _ Hg) (got_page _ _ _ _ Hg)) as [R1 R2].
  rewrite (eqb_false pd' NULL) by (unfold PHYS_BASE, NULL in *; lia). cbn [negb]. unfold memcpy. wp_steps.
  pose proof (copy_empty _ _ _ _ _ _ Hw HD (copy_start (vm_pages s) D init_page_dir ∅ pd' Hw HD g1 Hg)) as Hc. set (s' := set_memory _ _).
  change (copying (vm_pages s) init_page_dir ∅ pd' (vm_pages s') {[pd']} ∅ 768 PAGES) in Hc.
  pose proof (copy_fresh _ _ _ _ _ Hw _ _ _ _ _ Hc) as Hfr. pose proof (copy_world _ _ _ _ _ Hw HD _ _ _ Hc) as Hw'. destruct Hm as [_ Hco Hself Htl].
  apply HQ; [done|..].
  - split; [done| |done|].
    + split; [|apply Hco]. intros c Hin. destruct (co_dir _ _ Hco c Hin) as [q Hq]. rewrite lookup_insert_ne by congruence. by rewrite Hq.
    + eapply (coherent_keep s _ D); try done. intros c Hin. exists c. split_and!; [done|done|by left|]. right. destruct (co_dir _ _ Hco c Hin) as [q Hq].
      exists q, q. split_and!; [done|by rewrite lookup_insert_ne by congruence|]. intros v f Hv Hf. by rewrite (copy_old_pte _ _ _ _ _ Hw _ _ _ _ _ _ _ v Hc Hq).
  - split.
    + intros pd1 pts1 w H1 _ _. unfold space. by rewrite (copy_old_pte _ _ _ _ _ Hw _ _ _ _ _ _ _ w Hc H1).
    + intros pd1 v a x Hmp Hx. destruct (wd_frame _ _ Hw _ _ _ Hmp) as [Hp _]. by apply (cp_old _ _ _ _ _ _ _ _ _ Hc a).
  - done.
  - intros x Hx. by eapply old_page.
  - intros k Hk. by apply (cp_rest _ _ _ _ _ _ _ _ _ Hc).
Qed.

(** The first page directory, which is all zero. *)
Lemma boot_world g0 g pd : mem_ok g0 -> got g0 g pd true -> world g {[pd := ∅]}.
Proof.
  intros Hok Hg. assert (Hone : forall pd1 pts1, ({[pd := ∅]} : gmap Z (gmap Z Z)) !! pd1 = Some pts1 -> pd1 = pd /\ pts1 = ∅) by (by intros pd1 pts1 [<- <-]%lookup_singleton_Some).
  assert (Hm : forall pd1 v a, ~ maps g {[pd := ∅]} pd1 v a).
  { intros pd1 v a (pts1 & mp & [-> ->]%Hone & _ & Hs & _). unfold space, pte_of in Hs. by rewrite lookup_empty in Hs. }
  split; [apply Hg| | |intros ??? []%Hm|intros ????? []%Hm].
  - intros pd1 pts1 [-> ->]%Hone. split; try done; [by eapply got_page|]. intros i Hi _. unfold entry, get_word. rewrite (gt_memory _ _ _ _ Hg). by rewrite !filled_in by lia.
  - by intros pd1 pts1 pd2 pts2 a [-> _]%Hone [-> _]%Hone.
Qed.

(** * A machine with two CPUs *)

Definition demo_start : res vm := let* g := demo_pages in Ok (mkVm g [] (mkFlush 0 0)).

(** A page directory for the kernel, in use on both CPUs, one for a process, and a page for it. *)
Definition demo_setup : VM (Z * Z * Z) :=
  let! init := palloc (palloc_get_page PAL_ZERO) in
  modify (fun s => mkVm (vm_pages s) [mkCpu (init - PHYS_BASE) ∅; mkCpu (init - PHYS_BASE) ∅] (vm_flush s));;;
  let! pd := pagedir_create init in
  let! kpage := palloc (palloc_get_page PAL_USER) in
  ret (init, pd, kpage).

Definition demo : res (Z * Z * Z * vm) := let* s := demo_start in demo_setup s.

Definition demo_addresses : res (Z * Z * Z) := let* (a, _) := demo in Ok a.

Lemma demo_run : demo_addresses = Ok (3222278144, 3222282240, 3222368256).
Proof. vm_compute. reflexivity. Qed.

Definition demo_init : Z := 3222278144.
Definition demo_pd : Z := 3222282240.
Definition demo_kpage : Z := 3222368256.
Definition demo_dirs : gmap Z (gmap Z Z) := <[demo_pd := ∅]> {[demo_init := ∅]}.

Lemma demo_mem_ok : exists g, demo_pages = Ok g /\ mem_ok g.
Proof.
  destruct (palloc_init_spec [0] [0] (fun _ => 0) 300 100 (PHYS_BASE + 2 ^ 20) 22 22) as (g & H1 & H2 & H3 & H4 & H5);
    [lia|lia|done|done|done|done|done|by repeat constructor|by repeat constructor|].
  exists g. split; [exact H1|]. split; [done|]. revert H1. unfold demo_pages. vm_compute. intros [= <-]. done.
Qed.

(** What the steps of [demo] return. *)
Lemma demo_steps g0 : demo_pages = Ok g0 -> exists g1 s2 s3,
  palloc_get_page PAL_ZERO g0 = Ok (demo_init, g1) /\
  pagedir_create demo_init (mkVm g1 [mkCpu (demo_init - PHYS_BASE) ∅; mkCpu (demo_init - PHYS_BASE) ∅] (mkFlush 0 0)) = Ok (demo_pd, s2) /\
  palloc (palloc_get_page PAL_USER) s2 = Ok (demo_kpage, s3) /\ demo = Ok (demo_init, demo_pd, demo_kpage, s3).
Proof.
  intros E0. pose proof demo_run as E. unfold demo_addresses in E. destruct demo as [[[[i pd] k] s3]|] eqn:Ed; [|done]. cbn [rbind] in E. injection E as -> -> ->.
  unfold demo, demo_start, demo_setup in Ed. rewrite E0 in Ed. cbn [rbind] in Ed. unfold bind, modify, ret in Ed. unfold palloc at 1 in Ed. cbn [vm_pages vm_cpus vm_flush] in Ed.
  destruct (palloc_get_page PAL_ZERO g0) as [[i g1]|]; [|done]. cbn [vm_pages vm_cpus vm_flush] in Ed. destruct (pagedir_create i _) as [[pd s2]|] eqn:E2; [|done].
  destruct (palloc (palloc_get_page PAL_USER) s2) as [[k s4]|] eqn:E3; [|done]. injection Ed as -> -> -> ->.
  exists g1, s2, s3. split; [reflexivity|]. split; [exact E2|]. split; [exact E3|]. reflexivity.
Qed.

Lemma wp_result {S A} (m : ST S A) (Q : A -> S -> Prop) (s0 : S) a (s1 : S) : wp m Q s0 -> m s0 = Ok (a, s1) -> Q a s1.
Proof. unfold wp. by intros H E; rewrite E in H. Qed.

Lemma no_maps g D pd v a : (forall pd1 pts1, D !! pd1 = Some pts1 -> pts1 = ∅) -> ~ maps g D pd v a.
Proof. intros H (pts1 & mp & ->%H & _ & Hs & _). unfold space, pte_of in Hs. by rewrite lookup_empty in Hs. Qed.

Lemma demo_dirs_empty pd1 pts1 : demo_dirs !! pd1 = Some pts1 -> pts1 = ∅ /\ (pd1 = demo_pd \/ pd1 = demo_init).
Proof. unfold demo_dirs. intros [[<- <-]|[_ [<- <-]%lookup_singleton_Some]]%lookup_insert_Some; auto. Qed.

Record demo_machine s : Prop := {
  dm_run : demo = Ok (demo_init, demo_pd, demo_kpage, s);
  dm_machine : machine s demo_dirs 0;
  dm_cpus : vm_cpus s = [mkCpu (demo_init - PHYS_BASE) ∅; mkCpu (demo_init - PHYS_BASE) ∅];
  dm_init : page (vm_pages s) demo_init;
  dm_kpage : page (vm_pages s) demo_kpage;
}.

Lemma demo_states g0 g1 s2 s3 : mem_ok g0 -> palloc_get_page PAL_ZERO g0 = Ok (demo_init, g1) ->
  pagedir_create demo_init (mkVm g1 [mkCpu (demo_init - PHYS_BASE) ∅; mkCpu (demo_init - PHYS_BASE) ∅] (mkFlush 0 0)) = Ok (demo_pd, s2) ->
  palloc (palloc_get_page PAL_USER) s2 = Ok (demo_kpage, s3) -> demo = Ok (demo_init, demo_pd, demo_kpage, s3) -> exists s, demo_machine s.
Proof.
  intros Hg0 E1 E2 E3. revert s3 E3. assert (H : forall s3, palloc (palloc_get_page PAL_USER) s2 = Ok (demo_kpage, s3) ->
    machine s3 demo_dirs 0 /\ vm_cpus s3 = [mkCpu (demo_init - PHYS_BASE) ∅; mkCpu (demo_init - PHYS_BASE) ∅] /\ page (vm_pages s3) demo_init /\ page (vm_pages s3) demo_kpage).
  2:{ intros s3 E3 E. destruct (H s3 E3) as (H1 & H2 & H3 & H4). exists s3. split; [exact E|exact H1|exact H2|exact H3|exact H4]. }
  intros s3 E3.
  assert (Hi : got g0 g1 demo_init true).
  { assert (H : demo_init = NULL \/ got g0 g1 demo_init true); [|by destruct H].
    refine (wp_result _ (fun a g => a = NULL \/ got g0 g a true) _ _ _ _ E1). apply get_page_spec; [done|done|by left|]. intros a g Hg. by right. }
  pose proof (boot_world g0 g1 demo_init Hg0 Hi) as Hw1. set (cs := [mkCpu (demo_init - PHYS_BASE) ∅; mkCpu (demo_init - PHYS_BASE) ∅]) in *.
  set (s1 := mkVm g1 cs (mkFlush 0 0)) in *. assert (Hcs : forall c, c ∈ cs -> c = mkCpu (demo_init - PHYS_BASE) ∅) by (intros c [-> | ->%list_elem_of_singleton]%elem_of_cons; reflexivity).
  assert (Hm1 : machine s1 {[demo_init := ∅]} 0).
  { split; [done| |cbn; lia|].
    - split; [|done]. intros c ->%Hcs. cbn [cr3]. replace (demo_init - PHYS_BASE + PHYS_BASE) with demo_init by lia. by rewrite lookup_singleton_eq.
    - intros c v e ->%Hcs _ He. done. }
  assert (H2 : demo_pd = NULL \/ machine s2 demo_dirs 0 /\ vm_cpus s2 = cs /\ page (vm_pages s2) demo_init).
  { refine (wp_result _ (fun a s => a = NULL \/ machine s (<[a := ∅]> {[demo_init := ∅]}) 0 /\ vm_cpus s = cs /\ page (vm_pages s) demo_init) _ _ _ _ E2).
    eapply create_spec; [exact Hm1|apply lookup_singleton_eq|by left|]. intros pd s' _ Hm _ Hc Hp _. right. split_and!; [done|done|]. apply Hp. by eapply got_page. }
  destruct H2 as [?|(Hm2 & Hc2 & Hp2)]; [done|].
  assert (H3 : demo_kpage = NULL \/ exists g, s3 = with_pages g s2 /\ got (vm_pages s2) g demo_kpage false).
  { refine (wp_result _ (fun a s => a = NULL \/ exists g, s = with_pages g s2 /\ got (vm_pages s2) g a false) _ _ _ _ E3).
    apply wp_palloc. apply get_page_spec; [apply Hm2|done|by left|]. intros a g Hg. right. by exists g. }
  destruct H3 as [?|(g3 & -> & Hg3)]; [done|]. split; [|split; [done|split; [by eapply got_keeps|by eapply got_page]]].
  destruct Hm2 as [Hw2 Hco Hself Htl]. assert (Hmem : forall x, memory g3 x = memory (vm_pages s2) x) by (by rewrite (gt_memory _ _ _ _ Hg3)).
  assert (Hw3 : world g3 demo_dirs).
  { split; [apply Hg3| |apply Hw2|..].
    - intros pd pts HD. eapply dir_frame; [by apply (wd_dir _ _ Hw2)|intros x Hx; by eapply got_keeps|done].
    - intros pd v a Hm. exfalso. revert Hm. apply no_maps. intros pd1 pts1 H. by apply demo_dirs_empty in H as [-> _].
    - intros pd v pd2 v2 a Hm. exfalso. revert Hm. apply no_maps. intros pd1 pts1 H. by apply demo_dirs_empty in H as [-> _]. }
  split; [done|done|done|]. intros c v e Hin Hv He. cbn in Hin. rewrite Hc2 in Hin. apply Hcs in Hin as ->. done.
Qed.

Lemma demo_ok : exists s, demo_machine s.
Proof.
  destruct demo_mem_ok as (g0 & E0 & Hg0). destruct (demo_steps g0 E0) as (g1 & s2 & s3 & E1 & E2 & E3 & E). clear E0.
  apply (demo_states g0 g1 s2 s3 Hg0 E1 E2 E3 E).
Qed.

(** The page for the process has no mapping and holds no table. *)
Lemma demo_kpage_free s : demo_machine s -> ~ table demo_dirs demo_kpage /\ forall pd v, ~ maps (vm_pages s) demo_dirs pd v demo_kpage.
Proof.
  intros _. split.
  - intros (pd1 & pts1 & [-> Hpd]%demo_dirs_empty & [E|[k Hk]]); [|done]. destruct Hpd as [Hpd|Hpd]; rewrite Hpd in E; vm_compute in E; discriminate.
  - intros pd v. apply no_maps. intros pd1 pts1 H. by apply demo_dirs_empty in H as [-> _].
Qed.

Lemma demo_valid s : demo_machine s -> valid demo_init 300 s demo_dirs demo_pd ∅ (Set_page 134512640 demo_kpage true).
Proof.
  intros Hd. destruct (demo_kpage_free s Hd) as [H1 H2]. split; [done|]. split_and!; [done|done|done|apply Hd|done|done|done].
Qed.

Lemma pagedir_refines_witness : exists s v s', demo_machine s /\ handle demo_init 300 0 demo_pd (Set_page 134512640 demo_kpage true) s = Ok (v, s') /\
  served s demo_dirs 0 demo_pd ∅ (Set_page 134512640 demo_kpage true) v s'.
Proof.
  destruct demo_ok as [s Hd]. exists s.
  destruct (pagedir_refines demo_init 300 s demo_dirs 0 demo_pd ∅ (Set_page 134512640 demo_kpage true)) as (v & s' & E & Hs).
  - apply Hd.
  - done.
  - rewrite (dm_cpus _ Hd). intros i j c d Hi Hj Ec. exfalso. revert Ec. apply list_elem_of_lookup_2 in Hi. assert (Ec : c = mkCpu (demo_init - PHYS_BASE) ∅) by (revert Hi; by intros [-> | ->%list_elem_of_singleton]%elem_of_cons). rewrite Ec. done.
  - by apply demo_valid.
  - exists v, s'. split_and!; [exact Hd|exact E|exact Hs].
Defined.

(** ** A process with one page *)

Definition demo_map : VM bool := pagedir_set_page demo_init 300 demo_pd 134512640 demo_kpage true.

Definition in_use (user : bool) s (a : Z) : bool :=
  let p := get_pool user (vm_pages s) in bit (used_map p) ((a - base p) / 4096).

(** What is known of the state after [demo_map]. *)
Definition observe s : list Z * Z * Z * bool :=
  (cr3 <$> vm_cpus s, base (kernel_pool (vm_pages s)), bit_cnt (used_map (kernel_pool (vm_pages s))), in_use false s demo_init).

Lemma demo_map_result s : demo_machine s -> exists s', demo_map s = Ok (true, s') /\ cr3 <$> vm_cpus s' = [demo_init - PHYS_BASE; demo_init - PHYS_BASE] /\
  page (vm_pages s') demo_init.
Proof.
  intros Hd. assert (E : (let* (a, s) := demo in let* (b, s') := demo_map s in Ok (b, observe s')) =
    Ok (true, ([demo_init - PHYS_BASE; demo_init - PHYS_BASE], demo_init, 21, true))) by (vm_compute; reflexivity).
  rewrite (dm_run _ Hd) in E. cbn [rbind] in E. destruct (demo_map s) as [[b s']|]; [|done]. exists s'. cbn [rbind] in E. unfold observe in E. injection E as -> E1 E2 E3 E4.
  split; [reflexivity|]. split; [exact E1|]. split; [done|]. left. split; [unfold in_pool; rewrite E2, E3; unfold demo_init; lia|exact E4].
Qed.

Lemma demo_mapped : exists s pts, machine s (<[demo_pd := pts]> demo_dirs) 0 /\
  space (memory (vm_pages s)) pts 32840 = Some (mkMap demo_kpage true false false) /\
  Forall (fun c => cr3 c + PHYS_BASE <> demo_pd) (vm_cpus s) /\ page (vm_pages s) demo_init.
Proof.
  destruct demo_ok as [s Hd]. destruct (demo_map_result s Hd) as (s' & E & Ec & Hp).
  pose proof (serve_set demo_init 300 s demo_dirs 0 demo_pd ∅ 134512640 demo_kpage true (dm_machine _ Hd) eq_refl (demo_valid s Hd)) as Hw.
  assert (E' : (let! b := pagedir_set_page demo_init 300 demo_pd 134512640 demo_kpage true in ret (Z.b2z b)) s = Ok (1, s')).
  { unfold bind. fold demo_map. by rewrite E. }
  destruct (wp_result _ _ _ _ _ Hw E') as (pts & Hm & _ & _ & Ha). exists s', pts. split_and!; [done|..|done].
  - destruct Ha as [[_ HU]|[? _]]; [|done]. rewrite HU by (unfold PAGES; lia). by rewrite decide_True.
  - apply Forall_forall. intros c Hin. assert (Hc : cr3 c ∈ cr3 <$> vm_cpus s') by (by apply list_elem_of_fmap_2).
    rewrite Ec in Hc. by apply elem_of_cons in Hc as [-> | ->%list_elem_of_singleton].
Qed.

Lemma pagedir_destroy_frees_witness : exists s s' D, is_Some (D !! demo_pd) /\ pagedir_destroy demo_init demo_pd s = Ok (tt, s') /\
  machine s' (delete demo_pd D) 0 /\ used (vm_pages s) demo_kpage /\ ~ used (vm_pages s') demo_kpage.
Proof.
  destruct demo_mapped as (s & pts & Hm & Hs & Hc & Hp).
  destruct (pagedir_destroy_frees demo_init s (<[demo_pd := pts]> demo_dirs) 0 demo_pd) as (s' & E & Hm' & _ & Hu).
  - exact Hm.
  - by rewrite lookup_insert_eq.
  - done.
  - exact Hc.
  - exists s, s', (<[demo_pd := pts]> demo_dirs). rewrite lookup_insert_eq. assert (Hmp : maps (vm_pages s) (<[demo_pd := pts]> demo_dirs) demo_pd 32840 demo_kpage).
    { exists pts, (mkMap demo_kpage true false false). rewrite lookup_insert_eq. split_and!; [done|unfold PAGES; lia..|exact Hs|done]. }
    split_and!; [done|exact E|exact Hm'|apply (wd_frame _ _ (mc_world _ _ _ Hm) _ _ _ Hmp)|]. intros [_ Hn]%Hu. apply Hn. exists demo_kpage. split; [right; by exists 32840|unfold span; lia].
Defined.

Lemma pagedir_copy_correct_witness : exists s D pts r s', D !! demo_pd = Some pts /\ space (memory (vm_pages s)) pts 32840 = Some (mkMap demo_kpage true false false) /\
  pagedir_copy demo_init demo_pd s = Ok (r, s').
Proof.
  destruct demo_mapped as (s & pts & Hm & Hs & Hc & Hp).
  destruct (pagedir_copy_correct demo_init s (<[demo_pd := pts]> demo_dirs) 0 demo_pd pts) as (r & s' & E & _).
  - exact Hm.
  - by rewrite lookup_insert_eq.
  - done.
  - exact Hp.
  - exists s, (<[demo_pd := pts]> demo_dirs), pts, r, s'. rewrite lookup_insert_eq. split_and!; [done|exact Hs|exact E].
Defined.

End PagedirDemo.
