(* ===== verification/Load.v ===== *)
(** Programs in memory: the loader (src/src/userprog/process.c) and the
    growth of the heap (src/src/vm/mem.c), on top of page directories.

    The loader reads the executable through the operations of a class, which
    open files implement ([LoadFile]). Its state is that of the file and that
    of the machine. *)
From S2P Require Import Prelude Words Bitmap Palloc Pagedir.
From stdpp Require Import options.

#[local] Open Scope Z_scope.

Module Load.
Import Palloc Pagedir.

(** * Executables *)

(** The open executable: its length, its position, and reading at the
    position (the returned count and the bytes stored in the buffer). *)
Class Executable (F : Type) := {
  file_length : ST F Z;
  file_seek : Z -> ST F unit;
  file_read : Z -> ST F (Z * list Z);
}.

(** A 16-bit and a 32-bit field of a structure that was read as [d]. *)
Definition half (d : list Z) (ofs : nat) : Z := byte_at d ofs + 2 ^ 8 * byte_at d (ofs + 1).
Definition field (d : list Z) (ofs : nat) : Z := half d ofs + 2 ^ 16 * half d (ofs + 2).

Record Elf32_Ehdr := mkEhdr {
  e_ident : list Z;
  e_type : Z;
  e_machine : Z;
  e_version : Z;
  e_entry : Z;
  e_phoff : Z;
  e_phentsize : Z;
  e_phnum : Z;
}.
Definition EHDR_SIZE : Z := 52.

Definition to_ehdr (d : list Z) : Elf32_Ehdr :=
  mkEhdr (take 16 d) (half d 16) (half d 18) (field d 20) (field d 24) (field d 28) (half d 42) (half d 44).

Record Elf32_Phdr := mkPhdr {
  p_type : Z;
  p_offset : Z;
  p_vaddr : Z;
  p_filesz : Z;
  p_memsz : Z;
  p_flags : Z;
}.
Definition PHDR_SIZE : Z := 32.

Definition to_phdr (d : list Z) : Elf32_Phdr :=
  mkPhdr (field d 0) (field d 4) (field d 8) (field d 16) (field d 20) (field d 24).

Definition PT_NULL : Z := 0.
Definition PT_LOAD : Z := 1.
Definition PT_DYNAMIC : Z := 2.
Definition PT_INTERP : Z := 3.
Definition PT_SHLIB : Z := 5.
Definition PF_W : Z := 2.

Definition ELF_IDENT : list Z := [127; 69; 76; 70; 1; 1; 1].

(** [ROUND_UP (x, step)] for unsigned [x]. *)
Definition ROUND_UP (x step : Z) : Z := u32 (u32 (x + step - 1) / step * step).

(** The bytes [l] stored at the address [a]. *)
Definition stored (a : Z) (l : list Z) (m : Z -> Z) (x : Z) : Z :=
  if (a <=? x) && (x <? a + Z.of_nat (length l)) then nth (Z.to_nat (x - a)) l 0 else m x.

(** The checks of the header, after it has been read whole. *)
Definition ehdr_ok (h : Elf32_Ehdr) : bool :=
  bool_decide (take 7 (e_ident h) = ELF_IDENT) && (e_type h =? 2) && (e_machine h =? 3) && (e_version h =? 1)
  && (e_phentsize h =? PHDR_SIZE) && negb (1024 <? e_phnum h).

(** The checks of [validate_segment] after the first; [len] is what
    [file_length] returns. *)
Definition segment_fits (phdr : Elf32_Phdr) (len : Z) : bool :=
  if u32 len <? p_offset phdr then false
  else if p_memsz phdr <? p_filesz phdr then false
  else if p_memsz phdr =? 0 then false
  else if negb (is_user_vaddr (p_vaddr phdr)) then false
  else if negb (is_user_vaddr (u32 (p_vaddr phdr + p_memsz phdr))) then false
  else if u32 (p_vaddr phdr + p_memsz phdr) <? p_vaddr phdr then false
  else if p_vaddr phdr <? PGSIZE then false
  else true.

Section load.
(** The page directory of the kernel and the amount of memory. *)
Context (init_page_dir init_ram_pages : Z).

(** * Pages *)

Definition install_page (pagedir upage kpage : Z) (writable : bool) : VM bool :=
  let! p := pagedir_get_page pagedir upage in
  if p =? NULL then pagedir_set_page init_page_dir init_ram_pages pagedir upage kpage writable
  else ret false.

Definition mem_install_page (pagedir upage kpage : Z) : VM bool :=
  let! p := pagedir_get_page pagedir upage in
  if p =? NULL then pagedir_set_page init_page_dir init_ram_pages pagedir upage kpage true
  else ret false.

(** The [while (size > 0)] loop of [mem_sbrk]; [false]: it returned -1. *)
Definition sbrk_round (pagedir : Z) : Z * Z -> VM (Z * Z + bool) := fun '(size, upage) =>
  if 0 <? size then
    let! kpage := palloc (palloc_get_page (Z.lor PAL_USER PAL_ZERO)) in
    if kpage =? NULL then ret (inr false)
    else
      let! ok := mem_install_page pagedir upage kpage in
      if ok : bool then ret (inl (s32 (size - PGSIZE), u32 (upage + PGSIZE)))
      else palloc (palloc_free_page kpage);;; ret (inr false)
  else ret (inr true).

(** The returned value and the new end of the heap. *)
Definition mem_sbrk (pagedir heap_end increment : Z) : VM (Z * Z) :=
  if increment <? 0 then ret (u32 (-1), heap_end)
  else
    let current_heap := pg_round_down (u32 (heap_end + increment)) in
    let! grow := (if PGSIZE <? increment then ret true
                  else let! p := pagedir_get_page pagedir current_heap in ret (p =? NULL)) in
    let! ok :=
      (if grow : bool then
         let upage := pg_round_up heap_end in
         loop (sbrk_round pagedir) (s32 (u32 (increment - u32 (upage - heap_end))), upage)
       else ret true) in
    if ok : bool then ret (heap_end, u32 (heap_end + increment)) else ret (u32 (-1), heap_end).

(** * The loader *)

Context {F : Type} `{Executable F}.

Abbreviation LS := (ST (F * vm)).

Definition on_file {A} (m : ST F A) : LS A := fun s =>
  match m s.1 with Ok (a, f) => Ok (a, (f, s.2)) | Err e => Err e end.
Definition on_vm {A} (m : VM A) : LS A := fun s =>
  match m s.2 with Ok (a, v) => Ok (a, (s.1, v)) | Err e => Err e end.

Definition validate_segment (phdr : Elf32_Phdr) : LS bool :=
  if negb (Z.land (p_offset phdr) PGMASK =? Z.land (p_vaddr phdr) PGMASK) then ret false
  else let! len := on_file file_length in ret (segment_fits phdr len).

(** The [while] loop of [load_segment]: a page of the segment. *)
Definition segment_round (pagedir : Z) (writable : bool) : Z * Z * Z -> LS (Z * Z * Z + bool) := fun '(upage, read_bytes, zero_bytes) =>
  if (0 <? read_bytes) || (0 <? zero_bytes) then
    let page_read_bytes := if read_bytes <? PGSIZE then read_bytes else PGSIZE in
    let page_zero_bytes := PGSIZE - page_read_bytes in
    let! kpage := on_vm (palloc (palloc_get_page PAL_USER)) in
    if kpage =? NULL then ret (inr false)
    else
      let! (n, l) := on_file (file_read page_read_bytes) in
      on_vm (modify (set_memory (stored kpage l)));;;
      if negb (n =? page_read_bytes) then on_vm (palloc (palloc_free_page kpage));;; ret (inr false)
      else
        on_vm (palloc (memset (kpage + page_read_bytes) 0 page_zero_bytes));;;
        let! ok := on_vm (install_page pagedir upage kpage writable) in
        if ok : bool then ret (inl (u32 (upage + PGSIZE), u32 (read_bytes - page_read_bytes), u32 (zero_bytes - page_zero_bytes)))
        else on_vm (palloc (palloc_free_page kpage));;; ret (inr false)
  else ret (inr true).

Definition load_segment (pagedir ofs upage read_bytes zero_bytes : Z) (writable : bool) : LS bool :=
  ASSERT (u32 (read_bytes + zero_bytes) mod PGSIZE =? 0);;;
  ASSERT (pg_ofs upage =? 0);;;
  ASSERT (Z.rem ofs PGSIZE =? 0);;;
  on_file (file_seek ofs);;;
  loop (segment_round pagedir writable) (upage, read_bytes, zero_bytes).

(** The stack pointer; [None]: failure. *)
Definition setup_stack (pagedir : Z) : LS (option Z) :=
  let! kpage := on_vm (palloc (palloc_get_page (Z.lor PAL_USER PAL_ZERO))) in
  if negb (kpage =? NULL) then
    let! success := on_vm (install_page pagedir (PHYS_BASE - PGSIZE) kpage true) in
    if success : bool then ret (Some PHYS_BASE)
    else on_vm (palloc (palloc_free_page kpage));;; ret None
  else ret None.

(** [case PT_LOAD]: the end of the segment; [None]: failure. *)
Definition load_phdr (pagedir : Z) (phdr : Elf32_Phdr) : LS (option Z) :=
  let! valid := validate_segment phdr in
  if valid : bool then
    let writable := negb (Z.land (p_flags phdr) PF_W =? 0) in
    let file_page := Z.land (p_offset phdr) (u32 (Z.lnot PGMASK)) in
    let mem_page := Z.land (p_vaddr phdr) (u32 (Z.lnot PGMASK)) in
    let page_offset := Z.land (p_vaddr phdr) PGMASK in
    let '(read_bytes, zero_bytes) :=
      if 0 <? p_filesz phdr then
        let read_bytes := u32 (page_offset + p_filesz phdr) in
        (read_bytes, u32 (ROUND_UP (u32 (page_offset + p_memsz phdr)) PGSIZE - read_bytes))
      else (0, ROUND_UP (u32 (page_offset + p_memsz phdr)) PGSIZE) in
    let! ok := load_segment pagedir (s32 file_page) mem_page read_bytes zero_bytes writable in
    ret (if ok : bool then Some (u32 (mem_page + read_bytes + zero_bytes)) else None)
  else ret None.

(** The loop over the program headers: the start of the heap; [None]:
    [goto done]. *)
Fixpoint load_phdrs (pagedir : Z) (n : nat) (file_ofs heap_start : Z) : LS (option Z) :=
  match n with
  | O => ret (Some heap_start)
  | S n =>
      let! len := on_file file_length in
      if (file_ofs <? 0) || (len <? file_ofs) then ret None
      else
        on_file (file_seek file_ofs);;;
        let! (c, d) := on_file (file_read PHDR_SIZE) in
        if negb (c =? PHDR_SIZE) then ret None
        else
          let phdr := to_phdr d in
          let file_ofs := s32 (file_ofs + PHDR_SIZE) in
          if (p_type phdr =? PT_DYNAMIC) || (p_type phdr =? PT_INTERP) || (p_type phdr =? PT_SHLIB) then ret None
          else if p_type phdr =? PT_LOAD then
            let! r := load_phdr pagedir phdr in
            match r with
            | Some segment_end => load_phdrs pagedir n file_ofs (if heap_start <? segment_end then segment_end else heap_start)
            | None => ret None
            end
          else load_phdrs pagedir n file_ofs heap_start
  end.

(** What [load] stores: the entry point, the stack pointer and the end of
    the heap. *)
Record started := mkStarted {
  st_eip : Z;
  st_esp : Z;
  st_heap_end : Z;
}.

(** [load] from the reading of the header on. *)
Definition load_file (pagedir : Z) : LS (option started) :=
  let! (n, d) := on_file (file_read EHDR_SIZE) in
  let ehdr := to_ehdr d in
  if negb (n =? EHDR_SIZE) || negb (ehdr_ok ehdr) then ret None
  else
    let! heap_start := load_phdrs pagedir (Z.to_nat (e_phnum ehdr)) (s32 (e_phoff ehdr)) 0 in
    match heap_start with
    | None => ret None
    | Some heap_start =>
        let! esp := setup_stack pagedir in
        ret (esp ← esp; Some (mkStarted (e_entry ehdr) esp (u32 (heap_start + PGSIZE))))
    end.

(** [opened]: [filesys_open] has found the file. The page directory of the
    process and what the program starts with; [None]: failure. *)
Definition load (self : nat) (opened : bool) : LS (Z * option started) :=
  let! pagedir := on_vm (pagedir_create init_page_dir) in
  if pagedir =? NULL then ret (NULL, None)
  else
    on_vm (pagedir_activate init_page_dir self pagedir);;;
    if opened then let! r := load_file pagedir in ret (pagedir, r)
    else ret (pagedir, None).

End load.

(** * The contract *)

(** What an executable with the contents [l], read at the position [pos],
    does: it can be read up to its end, and that does not change it. *)
Class ExecutableSpec (F : Type) `{Executable F} := {
  contains : F -> list Z -> Z -> Prop;
  contains_range f l pos : contains f l pos -> 0 <= pos /\ Z.of_nat (length l) < 2 ^ 31 /\ Forall (fun b => 0 <= b < 2 ^ 8) l;
  file_length_spec f l pos : contains f l pos -> wp file_length (fun n f' => n = Z.of_nat (length l) /\ contains f' l pos) f;
  file_seek_spec f l pos new_pos : contains f l pos -> 0 <= new_pos < 2 ^ 31 -> wp (file_seek new_pos) (fun _ f' => contains f' l new_pos) f;
  file_read_spec f l pos n : contains f l pos -> 0 <= n < 2 ^ 31 ->
    wp (file_read n) (fun '(c, b) f' => b = take (Z.to_nat n) (drop (Z.to_nat pos) l) /\ c = Z.of_nat (length b) /\ contains f' l (pos + c)) f;
}.
End Load.
