(* ===== verification/LoadSpec.v ===== *)
(** Adding pages to an address space: a page that is allocated, filled and
    installed becomes a page of the image of the process, and nothing else
    changes. The heap grows by such pages. *)
From S2P Require Import Prelude Words Bitmap Palloc Pagedir PagedirSpec PagedirOps PagedirProps Load.
From stdpp Require Import options.

#[local] Open Scope Z_scope.

Module LoadSpec.
Import Palloc Pagedir PagedirSpec PagedirOps PagedirProps Load.

Lemma wp_and {S A} (m : ST S A) (P Q : A -> S -> Prop) (s : S) : wp m P s -> wp m Q s -> wp m (fun a s' => P a s' /\ Q a s') s.
Proof. unfold wp. by destruct (m s) as [[a s']|]. Qed.

(** * Frames *)

Section frame.
Implicit Types (s : vm) (D : gmap Z (gmap Z Z)) (pd v a x : Z) (pts : gmap Z Z).

(** The page holds a table or is mapped. *)
Definition live (g : pages) D a : Prop := table D a \/ exists pd v, maps g D pd v a.

(** The live pages stay in use and keep their bytes. *)
Definition keeps_live (g g' : pages) D : Prop :=
  forall a, live g D a -> page g' a /\ forall x, a <= x < a + 4096 -> memory g' x = memory g x.

Lemma live_table (g : pages) D pd pts a : D !! pd = Some pts -> tables pd pts a -> live g D a.
Proof. intros HD Ht. left. by exists pd, pts. Qed.

Lemma live_pte (g g' : pages) D pd pts v : keeps_live g g' D -> D !! pd = Some pts -> pte_of (memory g') pts v = pte_of (memory g) pts v.
Proof.
  intros Hk HD. apply space_frame. intros i pt x Hi Hx. destruct (Hk pt) as [_ Hb]; [|by apply Hb].
  eapply live_table; [exact HD|]. right. by exists i.
Qed.

Lemma live_maps (g g' : pages) D pd v a : keeps_live g g' D -> maps g' D pd v a <-> maps g D pd v a.
Proof.
  intros Hk. unfold maps. split; intros (pts & mp & HD & Hv & Hs & Ha); exists pts, mp; split_and!; try done; try lia;
    unfold space in *; by rewrite (live_pte g g' D pd pts v Hk HD) in *.
Qed.

Lemma live_dir (g g' : pages) D pd pts : keeps_live g g' D -> D !! pd = Some pts -> dir g pd pts -> dir g' pd pts.
Proof.
  intros Hk HD [H1 H2 H3 H4 H5 H6]. assert (Hpd : forall i, 0 <= i < 768 -> entry (memory g') pd i = entry (memory g) pd i).
  { intros i Hi. apply entry_ext; [|lia]. apply Hk. eapply live_table; [exact HD|by left]. }
  assert (Hpt : forall i pt, pts !! i = Some pt -> live g D pt) by (intros i pt Hi; eapply live_table; [exact HD|right; by exists i]).
  split; [apply Hk; eapply live_table; [exact HD|by left]| |done| | |].
  - intros i pt Hi. destruct (H2 i pt Hi) as (? & ? & ?). split_and!; [lia..| |done]. by apply Hk, (Hpt i).
  - intros i Hi Hn. rewrite Hpd by done. by apply H4.
  - intros i pt Hi. rewrite Hpd by (by eapply H2). by apply H5.
  - intros i pt j Hi Hj. rewrite (entry_ext (memory g)); [by eapply H6| |done]. by apply Hk, (Hpt i).
Qed.

Lemma live_world (g g' : pages) D : world g D -> mem_ok g' -> keeps_live g g' D -> world g' D.
Proof.
  intros [W1 W2 W3 W4 W5] Hok Hk. split; [done| |done| |].
  - intros pd pts HD. eapply live_dir; [done|done|by apply W2].
  - intros pd v a Hm%(live_maps g g'); [|done]. destruct (W4 _ _ _ Hm) as [_ Ht]. split; [|done]. apply Hk. right. by exists pd, v.
  - intros pd v pd' v' a H1%(live_maps g g') H2%(live_maps g g'); [|done..]. by eapply W5.
Qed.

Lemma live_machine s s' D self : machine s D self -> mem_ok (vm_pages s') -> vm_cpus s' = vm_cpus s -> keeps_live (vm_pages s) (vm_pages s') D ->
  machine s' D self.
Proof.
  intros [Hw Hc Hself Hco] Hok Ec Hk. assert (Hw' := live_world _ _ _ Hw Hok Hk). split; [done|by rewrite Ec|by rewrite Ec|].
  eapply (coherent_keep s s' D D); try done. rewrite Ec. intros c Hin. exists c. split_and!; [done|done|by left|]. right.
  destruct (co_dir _ _ Hc c Hin) as [pts HD]. exists pts, pts. split_and!; [done|done|]. intros v e Hv He. by rewrite (live_pte _ _ _ _ _ v Hk HD).
Qed.

(** Allocation and release keep what is live. *)
Lemma live_page (g : pages) D a : world g D -> live g D a -> page g a.
Proof.
  intros Hw [(pd & pts & HD & Ht)|(pd & v & Hm)]; [|by destruct (wd_frame _ _ Hw _ _ _ Hm)]. eapply tables_page; [|exact Ht]. by apply Hw.
Qed.

Lemma got_live (g g' : pages) D a zero : world g D -> got g g' a zero -> keeps_live g g' D /\ ~ live g' D a /\ ~ live g D a.
Proof.
  intros Hw Hg. assert (Hk : keeps_live g g' D).
  { intros b Hb%live_page; [|done]. destruct (got_keeps _ _ _ _ _ Hg Hb) as [Hp Hne]. split; [done|]. intros x Hx. rewrite (gt_memory _ _ _ _ Hg).
    destruct zero; [|done]. apply filled_out. destruct (pages_apart b a) as [|]; [apply Hb|apply Hg|done|lia|lia]. }
  assert (Hn : ~ live g D a) by (intros Hb%live_page; [|done]; by destruct (got_keeps _ _ _ _ _ Hg Hb)).
  split_and!; [done| |done]. intros [Ht|(pd & v & Hm%(live_maps g g'))]; [|by apply Hn; right; exists pd, v|done]. apply Hn. by left.
Qed.
End frame.

(** * Images *)

(** The pages of a process, by page number: whether the program may write
    to them, and their bytes. *)
Abbreviation image := (Z -> option (bool * (Z -> Z))).

Definition place (I : image) (v : Z) (w : bool) (c : Z -> Z) : image := fun u => if decide (u = v) then Some (w, c) else I u.
Definition zeros : Z -> Z := fun _ => 0.

(** Images that a program cannot tell apart. *)
Definition like (I J : image) : Prop := forall v, 0 <= v < PAGES ->
  match I v, J v with
  | Some (w, c), Some (w', c') => w = w' /\ forall o, 0 <= o < 4096 -> c o = c' o
  | None, None => True
  | _, _ => False
  end.

#[export] Instance like_equiv : Equivalence like.
Proof.
  split.
  - intros I v _. by destruct (I v) as [[w c]|].
  - intros I J H v Hv. specialize (H v Hv). destruct (I v) as [[w c]|], (J v) as [[w' c']|]; try done. destruct H as [-> H]. split; [done|]. intros o Ho. by rewrite H.
  - intros I J K H1 H2 v Hv. specialize (H1 v Hv). specialize (H2 v Hv). destruct (I v) as [[w c]|], (J v) as [[w' c']|], (K v) as [[w2 c2]|]; try done.
    destruct H1 as [-> H1], H2 as [-> H2]. split; [done|]. intros o Ho. by rewrite H1, H2.
Qed.

Section images.
Implicit Types (s : vm) (D : gmap Z (gmap Z Z)) (pd v a x : Z) (pts : gmap Z Z) (I J : image).

(** The address space of [pd] is the image [I]. *)
Definition holds (g : pages) D pd I : Prop := exists pts, D !! pd = Some pts /\ forall v, 0 <= v < PAGES ->
  match I v with
  | Some (w, c) => exists mp, space (memory g) pts v = Some mp /\ mp_writable mp = w /\
      forall o, 0 <= o < 4096 -> memory g (mp_page mp + o) = c o
  | None => space (memory g) pts v = None
  end.

#[export] Instance holds_proper (g : pages) D pd : Proper (like ==> impl) (holds g D pd).
Proof.
  intros I J HIJ (pts & HD & H). exists pts. split; [done|]. intros v Hv. specialize (H v Hv). specialize (HIJ v Hv).
  destruct (I v) as [[w c]|], (J v) as [[w' c']|]; try done. destruct H as (mp & H1 & H2 & H3), HIJ as [<- HIJ]. exists mp. split_and!; [done|done|].
  intros o Ho. by rewrite H3, HIJ.
Qed.

Lemma live_holds (g g' : pages) D pd I : keeps_live g g' D -> holds g D pd I -> holds g' D pd I.
Proof.
  intros Hk (pts & HD & H). exists pts. split; [done|]. intros v Hv. specialize (H v Hv). unfold space in *. rewrite (live_pte g g' D pd pts v Hk HD).
  destruct (I v) as [[w c]|]; [|done]. destruct H as (mp & H1 & H2 & H3). exists mp. split_and!; [done|done|]. intros o Ho. rewrite <- H3 by done.
  destruct (Hk (mp_page mp)) as [_ Hb]; [|apply Hb; lia]. right. exists pd, v, pts, mp. done.
Qed.

(** The other address spaces are as they were, with their pages. *)
Definition apart (g g' : pages) D D' pd : Prop := forall pd', pd' <> pd -> D' !! pd' = D !! pd' /\
  forall pts', D !! pd' = Some pts' ->
    (forall v, 0 <= v < PAGES -> space (memory g') pts' v = space (memory g) pts' v) /\
    (forall v a x, maps g D pd' v a -> a <= x < a + 4096 -> memory g' x = memory g x).

Lemma apart_trans (g1 g2 g3 : pages) D1 D2 D3 pd : apart g1 g2 D1 D2 pd -> apart g2 g3 D2 D3 pd -> apart g1 g3 D1 D3 pd.
Proof.
  intros H1 H2 pd' Hne. destruct (H1 pd' Hne) as [E1 A1], (H2 pd' Hne) as [E2 A2]. split; [by rewrite E2|]. intros pts' HD.
  destruct (A1 pts' HD) as [S1 B1], (A2 pts' ltac:(by rewrite E1)) as [S2 B2]. split.
  - intros v Hv. by rewrite S2, S1.
  - intros v a x Hm Hx. rewrite (B2 v a); [by eapply B1| |done]. destruct Hm as (pts & mp & HD' & Hv & Hs & Ha). exists pts, mp.
    assert (pts = pts') as -> by congruence. split_and!; [by rewrite E1|lia..| |done]. by rewrite S1.
Qed.

Lemma live_apart (g g' : pages) D pd : keeps_live g g' D -> apart g g' D D pd.
Proof.
  intros Hk pd' _. split; [done|]. intros pts' HD. split.
  - intros v Hv. unfold space. by rewrite (live_pte g g' D pd' pts' v Hk HD).
  - intros v a x Hm Hx. destruct (Hk a) as [_ Hb]; [right; by exists pd', v|]. by apply Hb.
Qed.

Lemma served_apart s s' D pd pts' : others s s' D pd -> apart (vm_pages s) (vm_pages s') D (<[pd := pts']> D) pd.
Proof.
  intros [O1 O2] pd' Hne. split; [by rewrite lookup_insert_ne|]. intros pts2 HD. split; [intros v Hv; by apply (O1 pd')|].
  intros v a x. by apply O2.
Qed.
End images.

(** * Adding a page *)

Section process.
Context (init_page_dir init_ram_pages : Z) (self : nat) (pd : Z).
Context (Hpd : pd <> init_page_dir).
Implicit Types (s : vm) (D : gmap Z (gmap Z Z)) (v a x kp : Z) (I J : image).

(** All pages are within the memory that there is. *)
Definition ram (g : pages) : Prop := forall user x, in_pool (get_pool user g) x -> (x - PHYS_BASE) / 4096 < init_ram_pages.

(** The machine while the process [pd] has the image [I]. *)
Record proc s D I : Prop := {
  pr_machine : machine s D self;
  pr_holds : holds (vm_pages s) D pd I;
  pr_ram : ram (vm_pages s);
}.

(** A page of the user pool that is allocated and not yet used. *)
Record spare s D kp : Prop := {
  sp_page : page (vm_pages s) kp;
  sp_pool : in_pool (get_pool true (vm_pages s)) kp;
  sp_free : ~ live (vm_pages s) D kp;
}.

Definition exhausted s : Prop := exists user, full (vm_pages s) user.

Abbreviation aside s s' D D' := (apart (vm_pages s) (vm_pages s') D D' pd).

Lemma proc_like s D I J : like I J -> proc s D I -> proc s D J.
Proof using Type. intros HIJ [H1 H2 H3]. split; [done| |done]. by eapply holds_proper. Qed.

Lemma pools_in (g g' : pages) user x : same_pools g g' -> in_pool (get_pool user g') x <-> in_pool (get_pool user g) x.
Proof using Type. intros Hs. destruct (Hs user) as [E1 E2]. unfold in_pool. by rewrite E1, E2. Qed.

Lemma pools_ram (g g' : pages) : same_pools g g' -> ram g -> ram g'.
Proof using Type. intros Hs Hr user x Hx. apply (Hr user). by apply (pools_in g g'). Qed.

Lemma proc_world s D I : proc s D I -> world (vm_pages s) D.
Proof using Type. intros [Hm _ _]. apply Hm. Qed.

Lemma proc_mem s D I : proc s D I -> mem_ok (vm_pages s).
Proof using Type. intros [Hm _ _]. apply Hm. Qed.

(** The live pages are kept: the process is as it was. *)
Lemma proc_live s s' D I : proc s D I -> mem_ok (vm_pages s') -> vm_cpus s' = vm_cpus s -> keeps_live (vm_pages s) (vm_pages s') D ->
  same_pools (vm_pages s) (vm_pages s') -> proc s' D I /\ aside s s' D D.
Proof using Type.
  intros [H1 H2 H3] Hok Ec Hk Hp. split; [|by apply live_apart]. split; [by eapply live_machine|by eapply live_holds|by eapply pools_ram].
Qed.

Lemma user_page_pool (g : pages) flags : mem_ok g -> negb (Z.land flags PAL_USER =? 0) = true -> Z.land flags PAL_ASSERT = 0 ->
  wp (palloc_get_page flags) (fun a _ => a = NULL \/ in_pool (get_pool true g) a) g.
Proof using Type.
  intros Hg Hu Hf. apply palloc_get_spec; [apply Hg|lia| |by intros _; split; [|left]]. rewrite Hu. cbn zeta.
  intros i g' Hi Hn _ _ _ Hfr _ _. right. apply Hfr. unfold span. lia.
Qed.

Lemma get_spare s D I flags (Q : Z -> vm -> Prop) : proc s D I -> negb (Z.land flags PAL_USER =? 0) = true -> Z.land flags PAL_ASSERT = 0 ->
  (full (vm_pages s) true -> Q NULL s) ->
  (forall kp s', (kp =? NULL) = false -> proc s' D I -> spare s' D kp -> aside s s' D D ->
     (Z.land flags PAL_ZERO <> 0 -> forall o, 0 <= o < 4096 -> memory (vm_pages s') (kp + o) = 0) -> Q kp s') ->
  wp (palloc (palloc_get_page flags)) Q s.
Proof using Type.
  intros Hp Hu Hf Q0 HQ. assert (Hok := proc_mem _ _ _ Hp). apply wp_palloc.
  eapply (wp_mono _ (fun a g => (a = NULL /\ g = vm_pages s /\ full (vm_pages s) true) \/
    (got (vm_pages s) g a (negb (Z.land flags PAL_ZERO =? 0)) /\ (a = NULL \/ in_pool (get_pool true (vm_pages s)) a)))).
  { eapply wp_mono; [apply wp_and; [|by apply (user_page_pool _ flags)]|].
    - apply (get_page_spec _ flags (fun a g => (a = NULL /\ g = vm_pages s /\ full (vm_pages s) true) \/ got (vm_pages s) g a (negb (Z.land flags PAL_ZERO =? 0)))); [done|done| |by right].
      rewrite Hu. by left.
    - cbn beta. intros a g [[H|H] Hin]; [left; exact H|right; split; [exact H|exact Hin]]. }
  intros a g [(-> & -> & Hfull)|[Hg Hin]]; [rewrite with_same; by apply Q0|].
  destruct (page_range _ _ (gt_ok _ _ _ _ Hg) (got_page _ _ _ _ Hg)) as [R1 R2]. assert (Hnn : a <> NULL) by (unfold PHYS_BASE, NULL in *; lia).
  destruct (got_live _ _ _ _ _ (proc_world _ _ _ Hp) Hg) as (Hk & Hl & _).
  destruct (proc_live s (with_pages g s) D I) as [Hp' Ha]; [done|apply Hg|done|done|apply Hg|].
  apply HQ; [by apply eqb_false|done| |done|].
  - split; [by eapply got_page| |done]. apply (pools_in (vm_pages s)); [apply Hg|]. by destruct Hin.
  - intros Hz o Ho. cbn [vm_pages with_pages]. rewrite (gt_memory _ _ _ _ Hg), (eqb_false (Z.land flags PAL_ZERO)) by done. apply filled_in. lia.
Qed.

(** The page is filled. *)
Lemma fill_spare s D I kp f : proc s D I -> spare s D kp ->
  (forall x, x < kp \/ kp + 4096 <= x -> f (memory (vm_pages s)) x = memory (vm_pages s) x) ->
  let s' := set_memory f s in proc s' D I /\ spare s' D kp /\ aside s s' D D.
Proof using Type.
  intros Hp [[S1 S1'] S2 S3] Hf s'. assert (Hok := proc_mem _ _ _ Hp). assert (Hk : keeps_live (vm_pages s) (vm_pages s') D).
  { intros a Ha. destruct (live_page _ _ _ (proc_world _ _ _ Hp) Ha) as [A1 A2]. split; [by split|]. intros x Hx. apply Hf.
    destruct (pages_apart a kp) as [|]; [done|done|by intros ->|lia|lia]. }
  destruct (proc_live s s' D I) as [Hp' Ha]; [done|by destruct Hok as [[]]|done|done|by intros []|]. split_and!; [done| |done].
  split; [by split|done|]. intros [Ht|(pd' & v & Hm%(live_maps (vm_pages s)))]; [|by apply S3; right; exists pd', v|done]. apply S3. by left.
Qed.

Lemma free_spare s D I kp (Q : unit -> vm -> Prop) : proc s D I -> spare s D kp ->
  (forall s', proc s' D I -> aside s s' D D -> (full (vm_pages s) false -> full (vm_pages s') false) -> Q tt s') ->
  wp (palloc (palloc_free_page kp)) Q s.
Proof using Type.
  intros Hp [[S1 S1'] S2 S3] HQ. assert (Hok := proc_mem _ _ _ Hp). pose proof (get_pool_ok true _ (mk_pages _ Hok)) as [_ Hb _ _].
  assert (S2' := S2). unfold in_pool in S2'. pose proof (Z.div_mod kp 4096 ltac:(lia)). pose proof (Z.div_mod (base (get_pool true (vm_pages s))) 4096 ltac:(lia)).
  apply wp_palloc. apply (palloc_free_spec true); [apply Hok|lia|done|lia|lia| |].
  { intros x Hx. by apply (page_span _ kp x Hok); [split|]. }
  intros g Hg Hu Hsame Hm. assert (Hk : keeps_live (vm_pages s) g D).
  { intros a Ha. destruct (live_page _ _ _ (proc_world _ _ _ Hp) Ha) as [A1 A2]. assert (Hne : a <> kp) by (by intros ->).
    destruct (pages_apart a kp) as [Hap|Hap]; [done|done|done|..].
    all: split; [split; [done|apply Hu; split; [done|unfold span; lia]]|]; intros x Hx; rewrite Hm; apply filled_out; lia. }
  destruct (proc_live s (with_pages g s) D I) as [Hp' Ha]; [done| |done|done|done|].
  { split; [done|]. destruct (Hsame false) as [E _]. cbn in E. cbn. rewrite E. apply Hok. }
  apply HQ; [done|done|]. intros Hf x Hx. apply Hu. apply (pools_in (vm_pages s) g false x Hsame) in Hx. split; [by apply Hf|]. unfold span. intros Hsp.
  pose proof (pk_apart _ (mk_pages _ Hok)). unfold in_pool in *. cbn in *. lia.
Qed.

(** ** Installing it *)

Lemma get_page_exact s D pts va : machine s D self -> D !! pd = Some pts -> 0 <= va < PHYS_BASE ->
  wp (pagedir_get_page pd va) (fun p s' => s' = s /\
    p = match space (memory (vm_pages s)) pts (va / 4096) with Some mp => mp_page mp + va mod 4096 | None => NULL end) s.
Proof using Type.
  intros Hm HD Hva. unfold pagedir_get_page. wp_steps; [unfold is_user_vaddr; apply Z.ltb_lt; lia|]. eapply lookup_page_spec; [apply Hm|done|done| | |done].
  - intros pt Hpt. destruct (some_entry s D self pd pts Hm HD va pt Hva Hpt) as (Ee & [_ He] & ->). cbn [negb]. vm_steps. rewrite Ee. unfold space, view.
    fold (present (pte_of (memory (vm_pages s)) pts (va / 4096))). destruct (present _) eqn:Hp; [|by wp_steps].
    destruct (He eq_refl) as [q Hq]. wp_steps. eapply wp_lift_ok; [apply Hq|]. wp_steps. destruct Hq as [_ ->]. by rewrite pg_ofs_mod.
  - intros Hn _. change (NULL =? NULL) with true. cbn [negb]. wp_steps. unfold space. by rewrite pte_none.
Qed.

Lemma lookup_fails s D pts va : machine s D self -> D !! pd = Some pts -> 0 <= va < PHYS_BASE ->
  wp (lookup_page pd va true) (fun pte s' => pte = NULL -> s' = s) s.
Proof using Type.
  intros Hm HD Hva. eapply lookup_page_spec; [apply Hm|done|done|done|done|]. intros _ _ g pt e Hg _ _ E. exfalso.
  pose proof (page_nonnull _ _ (pt_no va) (gt_ok _ _ _ _ Hg) (got_page _ _ _ _ Hg) ltac:(apply pt_no_range)) as H. rewrite E in H. done.
Qed.

Lemma set_page_fails s D pts va kp w s' : machine s D self -> D !! pd = Some pts -> 0 <= va < PHYS_BASE ->
  pagedir_set_page init_page_dir init_ram_pages pd va kp w s = Ok (false, s') -> s' = s.
Proof using Hpd.
  intros Hm HD Hva E. destruct (proj1 (wp_ok _ _ _) (lookup_fails s D pts va Hm HD Hva)) as (pte & s1 & El & Hl). unfold pagedir_set_page, bind, ASSERT, lift in E.
  repeat (case_match; simplify_eq/=; try done). unfold ret in E. simplify_eq.
  match goal with H : negb (_ =? NULL) = false |- _ => apply negb_false_iff, Z.eqb_eq in H end. rewrite El in *. simplify_eq. by apply Hl.
Qed.

(** The page becomes part of the image, or nothing changes. *)
Lemma set_spare s D I v w kp : proc s D I -> spare s D kp -> 0 <= v < PAGES -> I v = None ->
  wp (pagedir_set_page init_page_dir init_ram_pages pd (4096 * v) kp w) (fun b s' =>
    if b : bool then exists D', proc s' D' (place I v w (fun o => memory (vm_pages s) (kp + o))) /\ aside s s' D D'
    else s' = s /\ full (vm_pages s) false) s.
Proof using Hpd.
  intros [Hm (pts & HD & HI) Hram] [S1 S2 S3] Hv Hnone. assert (Ev : 4096 * v / 4096 = v) by (rewrite Z.mul_comm; by apply Z.div_mul).
  assert (Hva : 0 <= 4096 * v < PHYS_BASE) by (unfold PAGES, PHYS_BASE in *; lia).
  assert (Hval : valid init_page_dir init_ram_pages s D pd pts (Set_page (4096 * v) kp w)).
  { split; [done|]. rewrite Ev. pose proof (HI v Hv) as Hs. rewrite Hnone in Hs. split_and!; [by rewrite Z.mul_comm, Z.mod_mul|done|done|done|by apply (Hram true)| |].
    - intros Ht. apply S3. by left.
    - intros pd' u Hmp. apply S3. right. by exists pd', u. }
  pose proof (serve_set _ _ _ _ _ _ _ _ _ _ Hm HD Hval) as Hw. apply wp_bind_inv in Hw. apply wp_ok in Hw as (b & s' & E & Hw). apply wp_ok. exists b, s'. split; [done|].
  destruct Hw as (pts' & Hm' & Ho & Hkt & Ha). cbn [answers] in Ha. rewrite Ev in Ha. destruct b; [|split; [by eapply set_page_fails|]].
  2:{ destruct Ha as [[? _]|(_ & ? & _)]; done. }
  destruct Ha as [[_ HU]|[? _]]; [|done]. exists (<[pd := pts']> D). split; [|by apply served_apart]. split; [done| |by eapply pools_ram, Hram; apply Hkt].
  exists pts'. rewrite lookup_insert_eq. split; [done|]. intros u Hu. unfold place. rewrite HU by done. case_decide as Eu.
  - eexists. split_and!; [done|done|]. intros o Ho'. cbn [mp_page]. apply (kt_bytes _ _ _ Hkt kp); [done| |lia]. intros Ht. apply S3. by left.
  - specialize (HI u Hu). destruct (I u) as [[w' c]|]; [|done]. destruct HI as (mp & H1 & H2 & H3). exists mp. split_and!; [done|done|].
    intros o Ho'. rewrite <- H3 by done. apply (ot_bytes _ _ _ _ Ho pd u (mp_page mp)); [|lia]. by exists pts, mp.
Qed.

Lemma install_spec s D I v w kp : proc s D I -> spare s D kp -> 0 <= v < PAGES ->
  wp (install_page init_page_dir init_ram_pages pd (4096 * v) kp w) (fun b s' =>
    if b : bool then I v = None /\ exists D', proc s' D' (place I v w (fun o => memory (vm_pages s) (kp + o))) /\ aside s s' D D'
    else s' = s /\ (is_Some (I v) \/ full (vm_pages s) false)) s.
Proof using Hpd.
  intros Hp Hsp Hv. pose proof Hp as [Hm (pts & HD & HI) _]. assert (Ev : 4096 * v / 4096 = v) by (rewrite Z.mul_comm; by apply Z.div_mul).
  assert (Hva : 0 <= 4096 * v < PHYS_BASE) by (unfold PAGES, PHYS_BASE in *; lia). unfold install_page. wp_steps.
  eapply wp_mono; [by apply (get_page_exact s D pts)|]. intros p s1 [-> ->]. rewrite Ev. specialize (HI v Hv). destruct (I v) as [[w' c]|] eqn:EI.
  - destruct HI as (mp & H1 & _ & _). rewrite H1. destruct (wd_frame _ _ (mc_world _ _ _ Hm) pd v (mp_page mp)) as [Hpg _]; [by exists pts, mp|].
    destruct (page_range _ _ (proc_mem _ _ _ Hp) Hpg) as [R _]. pose proof (Z.mod_pos_bound (4096 * v) 4096 ltac:(lia)).
    rewrite eqb_false by (unfold PHYS_BASE, NULL in *; lia). wp_steps. split; [done|left; by eexists].
  - rewrite HI. change (NULL =? NULL) with true. cbv iota. eapply wp_mono; [by apply (set_spare s D I v w kp)|]. intros b s' Hb. destruct b; [done|].
    destruct Hb as [-> ?]. split; [done|by right].
Qed.

(** * The heap *)

(** The number of the first page at or above the address [a]. *)
Definition page_above (a : Z) : Z := (a + 4095) / 4096.

(** The image with the pages from the page number [u] up to [u'] holding the
    bytes [c], by address. *)
Definition with_bytes I (w : bool) (c : Z -> Z) (u u' : Z) : image :=
  fun v => if (u <=? v) && (v <? u') then Some (w, fun o => c (4096 * v + o)) else I v.
Definition with_zeros I : Z -> Z -> image := with_bytes I true zeros.

Lemma page_above_spec a : a <= 4096 * page_above a < a + 4096.
Proof using Type. unfold page_above. pose proof (Z.div_mod (a + 4095) 4096 ltac:(lia)). pose proof (Z.mod_pos_bound (a + 4095) 4096 ltac:(lia)). lia. Qed.

Lemma with_bytes_next I w c u u' c' : u <= u' -> (forall o, 0 <= o < 4096 -> c' o = c (4096 * u' + o)) ->
  like (place (with_bytes I w c u u') u' w c') (with_bytes I w c u (u' + 1)).
Proof using Type.
  intros Hu Hc v Hv. unfold place, with_bytes. case_decide as E.
  - rewrite (leb_true u v), (ltb_true v (u' + 1)) by lia. cbn [andb]. split; [done|]. intros o Ho. rewrite Hc by done. by rewrite E.
  - replace (v <? u' + 1) with (v <? u') by (destruct (Z.ltb_spec v u'), (Z.ltb_spec v (u' + 1)); (done || lia)).
    destruct (_ && _); [done|]. by destruct (I v) as [[w' c2]|].
Qed.

Lemma with_bytes_none I w c u u' : u' <= u -> like I (with_bytes I w c u u').
Proof using Type.
  intros Hu v Hv. unfold with_bytes. replace ((u <=? v) && (v <? u')) with false; [by destruct (I v) as [[w' c']|]|].
  symmetry. apply andb_false_iff. rewrite Z.leb_gt, Z.ltb_ge. lia.
Qed.

Lemma with_bytes_at I w c u u' : with_bytes I w c u u' u' = I u'.
Proof using Type. unfold with_bytes. by rewrite (ltb_false u' u'), andb_false_r by lia. Qed.

(** The loop of [mem_sbrk]: the heap is to end at [fin]. It stops at the page
    [u] when memory has run out or a page is in the way. *)
Lemma sbrk_loop s0 D0 I u0 fin s D : 0 <= u0 -> 0 <= fin < PHYS_BASE -> fin - 4096 * u0 < 2 ^ 31 -> - 2 ^ 31 <= fin - 4096 * u0 -> u0 <= page_above fin ->
  proc s D I -> aside s0 s D0 D ->
  wp (loop (sbrk_round init_page_dir init_ram_pages pd) (fin - 4096 * u0, 4096 * u0)) (fun ok s' => exists D' u, aside s0 s' D0 D' /\
    proc s' D' (with_zeros I u0 u) /\ (forall v, u0 <= v < u -> I v = None) /\
    if ok : bool then u = page_above fin else u0 <= u < page_above fin /\ (exhausted s' \/ is_Some (I u))) s.
Proof using Hpd.
  intros Hu0 Hfin Hlt Hge Hle Hp Ha. pose proof (page_above_spec fin) as Hab.
  set (J := fun (k : nat) (x : Z * Z) s1 => exists u D1, x = (fin - 4096 * u, 4096 * u) /\ u0 <= u <= page_above fin /\ Z.of_nat k = page_above fin - u /\
    proc s1 D1 (with_zeros I u0 u) /\ aside s0 s1 D0 D1 /\ forall v, u0 <= v < u -> I v = None).
  apply (wp_loop _ J) with (k := Z.to_nat (page_above fin - u0)).
  2:{ exists u0, D. split_and!; [done|lia|lia|lia|eapply proc_like, Hp; by apply with_bytes_none|done|lia]. }
  2:{ unfold PHYS_BASE in *. lia. }
  intros k x s1 (u & D1 & -> & Hu & Hk & Hp1 & Ha1 & Hno). unfold sbrk_round. destruct (Z.ltb_spec 0 (fin - 4096 * u)).
  2:{ wp_steps. exists D1, u. split_and!; try done. lia. }
  assert (HIu : with_zeros I u0 u u = I u) by apply with_bytes_at.
  assert (Hur : 0 <= u < PAGES) by (unfold PAGES, PHYS_BASE in *; lia).
  wp_steps. eapply (get_spare _ D1); [exact Hp1|done|done| |].
  { intros Hfull. change (NULL =? NULL) with true. cbv iota. wp_steps. exists D1, u. split_and!; [done..|lia|lia|]. left. by exists true. }
  intros kp s2 Hkp Hp2 Hsp Ha2 Hz. rewrite Hkp. wp_steps. change mem_install_page with (fun a b c d e => install_page a b c d e true). cbn beta.
  eapply wp_mono; [by apply (install_spec s2 D1 (with_zeros I u0 u) u true kp)|]. intros [|] s3; cbv iota.
  - intros (Hnone & D3 & Hp3 & Ha3). rewrite HIu in Hnone. wp_steps. exists (Z.to_nat (page_above fin - (u + 1))). split; [lia|]. exists (u + 1), D3. split_and!; [|lia|lia|lia| | |].
    + change PGSIZE with 4096. rewrite s32_small, u32_small by (unfold PHYS_BASE in *; lia). f_equal; lia.
    + eapply proc_like, Hp3. apply with_bytes_next; [lia|]. by apply Hz.
    + eapply apart_trans, Ha3. by eapply apart_trans, Ha2.
    + intros v Hv. destruct (decide (v = u)) as [->|]; [done|]. apply Hno. lia.
  - rewrite HIu. intros [-> Hwhy]. wp_steps. eapply free_spare; [exact Hp2|done|]. intros s4 Hp4 Ha4 Hf4. wp_steps. exists D1, u.
    split; [eapply apart_trans, Ha4; by eapply apart_trans, Ha2|]. split_and!; [done|done|lia|lia|]. destruct Hwhy as [?|Hfull]; [by right|]. left. exists false. by apply Hf4.
Qed.
End process.
End LoadSpec.
