(* ===== verification/LoadImage.v ===== *)
(** The image that an executable describes, and the loader step by step: a
    page, a segment, the table of program headers, the stack. *)
From S2P Require Import Prelude Words Bitmap Palloc Pagedir PagedirSpec PagedirOps PagedirProps Load LoadSpec.
From stdpp Require Import options.

#[local] Open Scope Z_scope.

Module LoadImage.
Import Palloc Pagedir PagedirSpec PagedirOps PagedirProps Load LoadSpec.

(** * What an executable describes *)

Section describe.
Implicit Types (l : list Z) (h : Elf32_Phdr) (v a : Z).

Definition size l : Z := Z.of_nat (length l).

(** The [n] bytes at the offset [ofs]. *)
Definition bytes l (ofs : Z) (n : nat) : list Z := take n (drop (Z.to_nat ofs) l).

(** A segment that may be loaded. *)
Record segment_ok l h : Prop := {
  sg_page : p_offset h mod 4096 = p_vaddr h mod 4096;
  sg_offset : p_offset h <= size l;
  sg_sizes : p_filesz h <= p_memsz h;
  sg_some : 0 < p_memsz h;
  sg_low : 4096 <= p_vaddr h;
  sg_high : p_vaddr h + p_memsz h < PHYS_BASE;
}.

#[export] Instance segment_ok_dec l h : Decision (segment_ok l h).
Proof.
  refine (cast_if (decide (p_offset h mod 4096 = p_vaddr h mod 4096 /\ p_offset h <= size l /\ p_filesz h <= p_memsz h /\
    0 < p_memsz h /\ 4096 <= p_vaddr h /\ p_vaddr h + p_memsz h < PHYS_BASE))); abstract (destruct_and?; first [by split|intros []; tauto]).
Defined.

(** The bytes that are read are in the file. *)
Definition readable l h : Prop := p_filesz h = 0 \/ p_offset h + p_filesz h <= size l.

(** The segments to load that the program headers at [ofs] list; [None]:
    a header is cut off, or one that cannot be loaded. *)
Fixpoint segments l (n : nat) (ofs : Z) : option (list Elf32_Phdr) :=
  match n with
  | O => Some []
  | S n =>
      if (0 <=? ofs) && (ofs + PHDR_SIZE <=? size l) then
        let h := to_phdr (bytes l ofs 32) in
        if decide (p_type h ∈ [PT_DYNAMIC; PT_INTERP; PT_SHLIB]) then None
        else if decide (p_type h = PT_LOAD) then
          if decide (segment_ok l h) then cons h <$> segments l n (ofs + PHDR_SIZE) else None
        else segments l n (ofs + PHDR_SIZE)
      else None
  end.

Definition first_page h : Z := p_vaddr h / 4096.
Definition end_page h : Z := page_above (p_vaddr h + p_memsz h).
Definition covers h v : Prop := first_page h <= v < end_page h.
Definition writable h : bool := negb (Z.land (p_flags h) PF_W =? 0).

(** The byte at the address [a]: from the file, or zero after the part that
    the file has. *)
Definition segment_byte l h a : Z :=
  if (0 <? p_filesz h) && (a <? p_vaddr h + p_filesz h) then nth (Z.to_nat (p_offset h + (a - p_vaddr h))) l 0 else 0.

Fixpoint segments_image l (hs : list Elf32_Phdr) : image :=
  match hs with
  | [] => fun _ => None
  | h :: hs => with_bytes (segments_image l hs) (writable h) (segment_byte l h) (first_page h) (end_page h)
  end.

(** No page belongs to two segments. *)
Definition separate (hs : list Elf32_Phdr) : Prop :=
  forall i j h h' v, hs !! i = Some h -> hs !! j = Some h' -> covers h v -> covers h' v -> i = j.

Definition STACK_PAGE : Z := PAGES - 1.
Definition header l : Elf32_Ehdr := to_ehdr (bytes l 0 52).

(** The file [l] is an executable with the segments [hs]. *)
Record describes l (hs : list Elf32_Phdr) : Prop := {
  ds_size : EHDR_SIZE <= size l;
  ds_header : ehdr_ok (header l) = true;
  ds_segments : segments l (Z.to_nat (e_phnum (header l))) (s32 (e_phoff (header l))) = Some hs;
  ds_readable : Forall (readable l) hs;
  ds_separate : separate hs;
  ds_stack : Forall (fun h => ~ covers h STACK_PAGE) hs;
}.

Definition program_image l hs : image := place (segments_image l hs) STACK_PAGE true zeros.

(** The end of the last segment. *)
Definition last_end (hs : list Elf32_Phdr) : Z := foldr (fun h n => Z.max (4096 * end_page h) n) 0 hs.

(** ** Images of segments *)

Lemma image_none l hs v : segments_image l hs v = None <-> Forall (fun h => ~ covers h v) hs.
Proof.
  induction hs as [|h hs IH]; [done|]. rewrite Forall_cons, <- IH. cbn. unfold with_bytes, covers.
  destruct (Z.leb_spec (first_page h) v), (Z.ltb_spec v (end_page h)); cbn [andb]; (split; [|try tauto]); try done; try (intros Hx; split; [lia|done]).
Qed.

Lemma image_snoc l hs h : (forall v, covers h v -> segments_image l hs v = None) ->
  like (with_bytes (segments_image l hs) (writable h) (segment_byte l h) (first_page h) (end_page h)) (segments_image l (hs ++ [h])).
Proof.
  intros Hn. induction hs as [|g hs IH]; [done|]. cbn [app segments_image].
  assert (Hg : forall v, covers h v -> ~ covers g v /\ segments_image l hs v = None).
  { intros v Hv. specialize (Hn v Hv). apply image_none, Forall_cons in Hn as [? ?]. split; [done|]. by apply image_none. }
  intros v Hv. specialize (IH (fun v H => proj2 (Hg v H)) v Hv). specialize (Hg v). revert IH Hg. unfold covers, with_bytes.
  destruct (Z.leb_spec (first_page h) v), (Z.ltb_spec v (end_page h)), (Z.leb_spec (first_page g) v), (Z.ltb_spec v (end_page g)); cbn [andb]; try done.
  intros _ Hg. destruct Hg as [Hg _]; [lia|]. exfalso. apply Hg. lia.
Qed.

Lemma separate_snoc hs h : separate hs -> (forall v, covers h v -> Forall (fun g => ~ covers g v) hs) -> separate (hs ++ [h]).
Proof.
  intros Hs Hn i j g g' v Hi Hj Hg Hg'. apply lookup_app_Some in Hi as [Hi|[Li Hi]], Hj as [Hj|[Lj Hj]].
  - by eapply Hs.
  - apply list_lookup_singleton_Some in Hj as [Ej <-]. specialize (Hn v Hg'). rewrite Forall_lookup in Hn. by destruct (Hn i g Hi).
  - apply list_lookup_singleton_Some in Hi as [Ei <-]. specialize (Hn v Hg). rewrite Forall_lookup in Hn. by destruct (Hn j g' Hj).
  - apply list_lookup_singleton_Some in Hi as [Ei <-], Hj as [Ej <-]. lia.
Qed.

Lemma not_separate hs h hs' v : covers h v -> ~ Forall (fun g => ~ covers g v) hs -> ~ separate (hs ++ h :: hs').
Proof.
  intros Hv Hn Hs. apply Hn, Forall_lookup. intros i g Hi Hg. assert (i = length hs).
  { eapply (Hs i (length hs)); [by apply lookup_app_l_Some|by apply list_lookup_middle|exact Hg|exact Hv]. }
  apply lookup_lt_Some in Hi. lia.
Qed.

Lemma last_end_snoc hs h : last_end (hs ++ [h]) = Z.max (last_end hs) (Z.max (4096 * end_page h) 0).
Proof. unfold last_end. induction hs as [|g hs IH]; cbn [foldr app]; [lia|]. rewrite IH. lia. Qed.
End describe.

(** * Headers *)

(** The fields are 32-bit words. *)
Record phdr_range (h : Elf32_Phdr) : Prop := {
  hr_offset : 0 <= p_offset h < 2 ^ 32;
  hr_vaddr : 0 <= p_vaddr h < 2 ^ 32;
  hr_filesz : 0 <= p_filesz h < 2 ^ 32;
  hr_memsz : 0 <= p_memsz h < 2 ^ 32;
}.

Lemma half_range d i : 0 <= half d i < 2 ^ 16.
Proof. unfold half. pose proof (byte_at_range d i). pose proof (byte_at_range d (i + 1)). lia. Qed.

Lemma field_range d i : 0 <= field d i < 2 ^ 32.
Proof. unfold field. pose proof (half_range d i). pose proof (half_range d (i + 2)). lia. Qed.

Lemma to_phdr_range d : phdr_range (to_phdr d).
Proof. split; apply field_range. Qed.

Lemma low_bits x : Z.land x PGMASK = x mod 4096.
Proof. apply pg_ofs_mod. Qed.

Lemma segment_fits_spec l h : phdr_range h -> size l < 2 ^ 31 -> p_offset h mod 4096 = p_vaddr h mod 4096 ->
  segment_fits h (size l) = true <-> segment_ok l h.
Proof.
  intros [H1 H2 H3 H4] Hl Hpg. assert (0 <= size l) by (unfold size; lia). unfold segment_fits, is_user_vaddr. rewrite (u32_small (size l)) by lia.
  change PGSIZE with 4096. assert (Hu : u32 (p_vaddr h + p_memsz h) = p_vaddr h + p_memsz h \/ u32 (p_vaddr h + p_memsz h) < p_vaddr h /\ 2 ^ 32 <= p_vaddr h + p_memsz h).
  { destruct (Z.lt_ge_cases (p_vaddr h + p_memsz h) (2 ^ 32)) as [Hc|Hc]; [left; apply u32_small; lia|right]. split; [|done]. unfold u32.
    rewrite <- (Z.mod_unique (p_vaddr h + p_memsz h) (2 ^ 32) 1 (p_vaddr h + p_memsz h - 2 ^ 32)); lia. }
  split; [|intros [S1 S2 S3 S4 S5 S6]; assert (S6' := S6); unfold PHYS_BASE in S6'].
  - repeat (case_match; [done|]). btest. intros _. split; try done; try lia.
  - rewrite u32_small by lia. rewrite (ltb_false (size l)), (ltb_false (p_memsz h)), (eqb_false (p_memsz h)) by lia.
    rewrite (ltb_true (p_vaddr h) PHYS_BASE), (ltb_true (p_vaddr h + p_memsz h) PHYS_BASE) by lia.
    by rewrite (ltb_false (p_vaddr h + p_memsz h)), (ltb_false (p_vaddr h) 4096) by lia.
Qed.

(** * The loader *)

Section loader.
Context (init_page_dir init_ram_pages : Z) (self : nat) (pd : Z) (Hpd : pd <> init_page_dir).
Context {F : Type} {HX : Executable F} {HS : ExecutableSpec F}.
Implicit Types (f : F) (s : vm) (D : gmap Z (gmap Z Z)) (I : image) (l : list Z) (h : Elf32_Phdr).
Abbreviation proc := (proc init_ram_pages self pd).
Abbreviation aside s s' D D' := (apart (vm_pages s) (vm_pages s') D D' pd).

Lemma wp_on_file {A} (m : ST F A) (Q : A -> F * vm -> Prop) f s : wp m (fun a f' => Q a (f', s)) f -> wp (on_file m) Q (f, s).
Proof using Type. unfold wp, on_file. cbn. by destruct (m f) as [[a f']|]. Qed.

Lemma wp_on_vm {A} (m : VM A) (Q : A -> F * vm -> Prop) f s : wp m (fun a s' => Q a (f, s')) s -> wp (on_vm m) Q (f, s).
Proof using Type. unfold wp, on_vm. cbn. by destruct (m s) as [[a s']|]. Qed.

Lemma validate_spec f s l pos h : contains f l pos -> phdr_range h ->
  wp (validate_segment h) (fun b st => exists f', st = (f', s) /\ contains f' l pos /\ (b = true <-> segment_ok l h)) (f, s).
Proof using Type.
  intros Hf Hh. unfold validate_segment. rewrite !low_bits. destruct (Z.eqb_spec (p_offset h mod 4096) (p_vaddr h mod 4096)) as [E|E]; cbn [negb].
  2:{ wp_steps. exists f. split_and!; [done|done|]. split; [done|]. by intros []. }
  wp_steps. apply wp_on_file. eapply wp_mono; [by eapply file_length_spec|]. intros n f' [-> Hf']. wp_steps. exists f'. split_and!; [done|done|].
  apply segment_fits_spec; [done|by eapply contains_range|done].
Qed.

(** ** A segment *)

Section segment.
Context (l : list Z) (I : image) (w : bool) (first n ofs rb : Z) (s0 : vm) (D0 : gmap Z (gmap Z Z)).
Context (Hfirst : 0 <= first) (Hn : 0 <= n) (Hlast : first + n <= PAGES) (Hofs : 0 <= ofs < 2 ^ 31) (Hrb : 0 <= rb <= 4096 * n) (Hlen : size l < 2 ^ 31).

(** What [load_segment] puts at the address [a]. *)
Definition loaded (a : Z) : Z := if a - 4096 * first <? rb then nth (Z.to_nat (ofs + (a - 4096 * first))) l 0 else 0.

(** [j] pages are there, and all that was read of the file was. *)
Record loading (j pos : Z) f s D : Prop := {
  ld_j : 0 <= j <= n;
  ld_file : contains f l pos;
  ld_pos : 4096 * j < rb -> pos = ofs + 4096 * j;
  ld_read : 0 < j -> 0 < rb -> ofs + Z.min rb (4096 * j) <= size l;
  ld_new : forall v, first <= v < first + j -> I v = None;
  ld_proc : proc s D (with_bytes I w loaded first (first + j));
  ld_aside : aside s0 s D0 D;
}.

(** Why it failed. *)
Definition failed s D : Prop := (exists I', proc s D I') /\ aside s0 s D0 D /\
  (exhausted s \/ (0 < rb /\ size l < ofs + rb) \/ exists v, first <= v < first + n /\ is_Some (I v)).

(** The bytes of a page, after reading and clearing the rest. *)
Lemma filled_page (m : Z -> Z) kp j pr o : 0 <= kp -> 0 <= j -> pr = Z.min 4096 (Z.max 0 (rb - 4096 * j)) -> 0 <= o < 4096 ->
  (0 < pr -> ofs + 4096 * j + pr <= size l) -> forall pos, (4096 * j < rb -> pos = ofs + 4096 * j) ->
  let b := take (Z.to_nat pr) (drop (Z.to_nat pos) l) in
  filled (kp + pr) 0 (4096 - pr) (stored kp b m) (kp + o) = loaded (4096 * (first + j) + o).
Proof using Hofs.
  intros Hkp Hj Epr Ho Hin pos Hpos b. unfold loaded. replace (4096 * (first + j) + o - 4096 * first) with (4096 * j + o) by lia.
  destruct (Z.lt_ge_cases o pr) as [Hc|Hc].
  - rewrite (ltb_true (4096 * j + o)) by lia. assert (Epos := Hpos ltac:(lia)). specialize (Hin ltac:(lia)). unfold size in Hin.
    assert (Hb : length b = Z.to_nat pr) by (subst b; rewrite length_take, length_drop; lia).
    rewrite filled_out by lia. unfold stored. rewrite Hb, (leb_true kp), (ltb_true (kp + o)) by lia. cbn [andb]. subst b. rewrite !nth_lookup.
    rewrite lookup_take_lt by lia. rewrite lookup_drop. f_equal. f_equal. lia.
  - rewrite filled_in by lia. by rewrite ltb_false by lia.
Qed.

Definition to_read (j : Z) : Z := Z.max 0 (rb - 4096 * j).

(** Where the loop is after [j] pages. *)
Definition round (j : Z) : Z * Z * Z := (4096 * (first + j), to_read j, 4096 * (n - j) - to_read j).

Definition segment_done (ok : bool) (st : F * vm) : Prop := exists pos D, contains st.1 l pos /\
  if ok then loading n pos st.1 st.2 D else failed st.2 D.

Definition at_round (k : nat) (x : Z * Z * Z) (st : F * vm) : Prop :=
  exists j pos D, x = round j /\ Z.of_nat k = n - j /\ loading j pos st.1 st.2 D.

Definition after_round (k : nat) (r : Z * Z * Z + bool) (st : F * vm) : Prop :=
  match r with
  | inl x => exists k', (k' < k)%nat /\ at_round k' x st
  | inr ok => segment_done ok st
  end.

Lemma fail_free k pos f s D I' kp : contains f l pos -> proc s D I' -> spare s D kp -> aside s0 s D0 D ->
  (0 < rb /\ size l < ofs + rb) \/ (exists v, first <= v < first + n /\ is_Some (I v)) \/ full (vm_pages s) false ->
  wp (on_vm (palloc (palloc_free_page kp));;; ret (inr false)) (after_round k) (f, s).
Proof using Type.
  intros Hf Hp Hsp Ha Hwhy. wp_steps. apply wp_on_vm. eapply free_spare; [exact Hp|done|]. intros s' Hp' Ha' Hfull. wp_steps.
  exists pos, D. split; [done|]. cbn. split; [by exists I'|]. split; [by eapply apart_trans|]. destruct Hwhy as [?|[?|?]]; [by right; left|by right; right|].
  left. exists false. by apply Hfull.
Qed.

(** The page is filled: it can be installed. *)
Lemma install_round k j pos pos' pr f f' s s1 D kp : loading j pos f s D -> j < n -> Z.of_nat k = n - j -> pr = Z.min 4096 (to_read j) ->
  contains f' l pos' -> pos' = pos + pr -> (0 < pr -> pos + pr <= size l) ->
  proc s1 D (with_bytes I w loaded first (first + j)) -> spare s1 D kp -> aside s0 s1 D0 D ->
  (forall o, 0 <= o < 4096 -> memory (vm_pages s1) (kp + o) = loaded (4096 * (first + j) + o)) ->
  wp (let! ok := on_vm (install_page init_page_dir init_ram_pages pd (4096 * (first + j)) kp w) in
      if ok : bool then ret (inl (u32 (4096 * (first + j) + PGSIZE), u32 (to_read j - pr), u32 (4096 * (n - j) - to_read j - (PGSIZE - pr))))
      else on_vm (palloc (palloc_free_page kp));;; ret (inr false)) (after_round k) (f', s1).
Proof using Hfirst Hn Hlast Hofs Hrb Hlen Hpd.
  intros [L1 L2 L3 L4 L5 _ _] Hj Hk Epr Hf' Epos Hin Hp Hsp Ha Hmem. wp_steps. apply wp_on_vm. unfold PAGES in *.
  eapply wp_mono; [apply (install_spec init_page_dir init_ram_pages self pd Hpd s1 D (with_bytes I w loaded first (first + j)) (first + j) w kp Hp Hsp); unfold PAGES; lia|].
  intros [|] s2; cbv iota; rewrite with_bytes_at.
  - intros (HI & D2 & Hp2 & Ha2). wp_steps. exists (Z.to_nat (n - (j + 1))). split; [lia|]. exists (j + 1), pos', D2.
    assert (Etr : to_read (j + 1) = to_read j - pr) by (unfold to_read in *; lia). split_and!; [|lia|].
    { unfold round. rewrite Etr. change PGSIZE with 4096. unfold to_read in *. rewrite !u32_small by lia. f_equal; [f_equal|]; lia. }
    split; [lia|done|intros Hlt; unfold to_read in *; rewrite Epos, L3; lia| | | |by eapply apart_trans].
    + intros _ Hr. unfold to_read in *. destruct (Z.lt_ge_cases 0 pr); [rewrite L3 in Hin by lia; lia|]. specialize (L4 ltac:(lia) Hr). lia.
    + intros v Hv. destruct (Z.eq_dec v (first + j)) as [->|]; [done|apply L5; lia].
    + eapply proc_like, Hp2. replace (first + (j + 1)) with (first + j + 1) by lia. apply with_bytes_next; [lia|done].
  - intros [-> Hwhy]. eapply fail_free; [exact Hf'|exact Hp|exact Hsp|done|]. right. destruct Hwhy as [?|?]; [left|by right]. exists (first + j). split; [lia|done].
Qed.

Lemma segment_round_spec k x st : at_round k x st -> wp (segment_round init_page_dir init_ram_pages pd w x) (after_round k) st.
Proof using Hfirst Hn Hlast Hofs Hrb Hlen Hpd.
  intros (j & pos & D & -> & Hk & HL). destruct st as [f s]. cbn [fst snd] in HL. pose proof HL as [L1 L2 L3 L4 L5 L6 L7].
  unfold segment_round, round. cbv beta iota.
  destruct (Z.eq_dec j n) as [->|Hj].
  { assert (E : to_read n = 0) by (unfold to_read; lia). rewrite E. replace (4096 * (n - n) - 0) with 0 by lia. cbn [orb Z.ltb Z.compare]. wp_steps.
    exists pos, D. done. }
  assert (Htr : 0 <= to_read j <= 4096 * (n - j)) by (unfold to_read; lia).
  replace ((0 <? to_read j) || (0 <? 4096 * (n - j) - to_read j)) with true.
  2:{ symmetry. apply orb_true_iff. rewrite !Z.ltb_lt. lia. }
  cbv zeta. change PGSIZE with 4096. set (pr := if to_read j <? 4096 then _ else _).
  assert (Epr : pr = Z.min 4096 (to_read j)) by (subst pr; destruct (Z.ltb_spec (to_read j) 4096); lia). clearbody pr.
  wp_steps. apply wp_on_vm. eapply (get_spare _ _ _ s D); [exact L6|done|done| |].
  { intros Hfull. change (NULL =? NULL) with true. cbv iota. wp_steps. exists pos, D. split; [done|]. split; [by eexists|]. split; [done|]. left. by exists true. }
  intros kp s1 Hkp Hp1 Hsp1 Ha1 _. rewrite Hkp. wp_steps. apply wp_on_file. eapply wp_mono; [eapply file_read_spec; [exact L2|lia]|].
  intros [c b] f1 (Eb & Ec & Hf1). wp_steps. apply wp_on_vm. wp_steps.
  assert (Hbl : Z.of_nat (length b) <= pr) by (rewrite Eb, length_take; lia). destruct (page_range _ _ (proc_mem _ _ _ _ _ _ Hp1) (sp_page _ _ _ Hsp1)) as [R1 R2].
  destruct (fill_spare _ _ _ s1 D _ kp (stored kp b) Hp1 Hsp1) as (Hp2 & Hsp2 & Ha2).
  { intros x Hx. unfold stored. destruct (Z.leb_spec kp x), (Z.ltb_spec x (kp + Z.of_nat (length b))); cbn [andb]; (done || lia). }
  assert (Ha02 : aside s0 (set_memory (stored kp b) s1) D0 D) by (eapply apart_trans, Ha2; by eapply apart_trans).
  destruct (contains_range _ _ _ L2) as (Hpos & _ & _). unfold PHYS_BASE in *.
  assert (Hbn : c = pr <-> (0 < pr -> pos + pr <= size l)).
  { rewrite Ec, Eb, length_take, length_drop. unfold size. lia. }
  destruct (Z.eqb_spec c pr) as [E|E]; cbn [negb].
  2:{ eapply fail_free; [exact Hf1|exact Hp2|exact Hsp2|done|]. left. unfold to_read in *. destruct (Z.lt_ge_cases 0 pr); [|lia]. rewrite L3 in Hbn by lia. lia. }
  wp_steps. apply wp_on_vm.
  destruct (fill_spare _ _ _ _ D _ kp (filled (kp + pr) 0 (4096 - pr)) Hp2 Hsp2) as (Hp3 & Hsp3 & Ha3); [intros x Hx; apply filled_out; lia|].
  change (wp (palloc (memset (kp + pr) 0 (4096 - pr))) ?Q ?s) with (Q tt (set_memory (filled (kp + pr) 0 (4096 - pr)) s)). cbv beta.
  change 4096 with PGSIZE at 3.
  eapply (install_round k j pos (pos + c) pr f f1 s _ D kp); [exact HL|lia|done|done|done|lia|by apply Hbn|done|done|by eapply apart_trans|].
  intros o Ho. cbn [vm_pages set_memory memory]. rewrite Eb. apply filled_page; [lia|lia|unfold to_read in *; lia|done| |done].
  intros Hpr. rewrite <- L3 by (unfold to_read in *; lia). by apply Hbn.
Qed.

Lemma load_segment_spec f s pos : contains f l pos -> ofs mod 4096 = 0 -> proc s0 D0 I -> s = s0 ->
  wp (load_segment init_page_dir init_ram_pages pd ofs (4096 * first) rb (4096 * n - rb) w) segment_done (f, s).
Proof using Hfirst Hn Hlast Hofs Hrb Hlen Hpd.
  intros Hf Hal Hp ->. unfold load_segment. unfold PAGES in *. wp_steps.
  { apply Z.eqb_eq. change PGSIZE with 4096. rewrite u32_small by lia. replace (rb + (4096 * n - rb)) with (n * 4096) by lia. by apply Z.mod_mul. }
  { apply Z.eqb_eq. rewrite pg_ofs_mod, Z.mul_comm. by apply Z.mod_mul. }
  { apply Z.eqb_eq. change PGSIZE with 4096. by rewrite Z.rem_mod_nonneg by lia. }
  apply wp_on_file. eapply wp_mono; [by eapply file_seek_spec|]. intros u f1 Hf1. cbn beta in Hf1.
  apply (wp_loop _ at_round segment_done segment_round_spec) with (k := Z.to_nat n); [|lia].
  exists 0, ofs, D0. split_and!; [unfold round, to_read; f_equal; [f_equal|]; lia|lia|]. split; [lia|done|lia|lia|lia| |done].
  eapply proc_like, Hp. apply with_bytes_none. lia.
Qed.
End segment.

(** ** A program header *)

Lemma round_up_pages x : 0 <= x -> x + 4095 < 2 ^ 32 -> ROUND_UP (u32 x) PGSIZE = 4096 * page_above x.
Proof using Type.
  intros H1 H2. unfold ROUND_UP, page_above. change PGSIZE with 4096. rewrite (u32_small x), (u32_small (x + 4096 - 1)) by lia.
  replace (x + 4096 - 1) with (x + 4095) by lia. rewrite u32_small; [lia|]. pose proof (Z.div_mod (x + 4095) 4096 ltac:(lia)).
  pose proof (Z.mod_pos_bound (x + 4095) 4096 ltac:(lia)). lia.
Qed.

(** What the segment takes of the file, and how many pages. *)
Definition read_size h : Z := if 0 <? p_filesz h then p_vaddr h mod 4096 + p_filesz h else 0.
Definition page_count h : Z := end_page h - first_page h.

Lemma segment_numbers l h : phdr_range h -> segment_ok l h -> size l < 2 ^ 31 ->
  p_vaddr h = 4096 * first_page h + p_vaddr h mod 4096 /\ 0 <= p_vaddr h mod 4096 < 4096 /\
  p_vaddr h + p_memsz h <= 4096 * end_page h < p_vaddr h + p_memsz h + 4096 /\
  page_above (p_vaddr h mod 4096 + p_memsz h) = page_count h /\ 1 <= first_page h /\ end_page h <= PAGES /\
  0 <= read_size h <= 4096 * page_count h /\ 0 <= p_offset h - p_offset h mod 4096 < 2 ^ 31 /\ (p_offset h - p_offset h mod 4096) mod 4096 = 0.
Proof using Type.
  intros [R1 R2 R3 R4] [S1 S2 S3 S4 S5 S6] Hl. pose proof (page_above_spec (p_vaddr h + p_memsz h)) as Ha. fold (end_page h) in Ha.
  pose proof (Z.div_mod (p_vaddr h) 4096 ltac:(lia)) as E. fold (first_page h) in E. pose proof (Z.mod_pos_bound (p_vaddr h) 4096 ltac:(lia)) as Hm.
  pose proof (Z.mod_pos_bound (p_offset h) 4096 ltac:(lia)) as Hm'. pose proof (Z.mod_le (p_offset h) 4096 ltac:(lia) ltac:(lia)).
  assert (Hc : page_above (p_vaddr h mod 4096 + p_memsz h) = page_count h).
  { pose proof (page_above_spec (p_vaddr h mod 4096 + p_memsz h)). unfold page_count. lia. }
  assert (Ho : (p_offset h - p_offset h mod 4096) mod 4096 = 0).
  { pose proof (Z.div_mod (p_offset h) 4096 ltac:(lia)). replace (p_offset h - p_offset h mod 4096) with (p_offset h / 4096 * 4096) by lia. by apply Z.mod_mul. }
  unfold PHYS_BASE, PAGES in *. split_and!; try done; try lia; unfold read_size, page_count in *; destruct (Z.ltb_spec 0 (p_filesz h)); lia.
Qed.

Lemma segment_bytes l h I : phdr_range h -> segment_ok l h -> size l < 2 ^ 31 ->
  like (with_bytes I (writable h) (loaded l (first_page h) (p_offset h - p_offset h mod 4096) (read_size h)) (first_page h) (first_page h + page_count h))
    (with_bytes I (writable h) (segment_byte l h) (first_page h) (end_page h)).
Proof using Type.
  intros Hr Hs Hl. destruct (segment_numbers l h Hr Hs Hl) as (E1 & E2 & _). pose proof (sg_page _ _ Hs) as Epg. pose proof (hr_filesz _ Hr).
  replace (first_page h + page_count h) with (end_page h) by (unfold page_count; lia). intros v Hv. unfold with_bytes.
  destruct (Z.leb_spec (first_page h) v), (Z.ltb_spec v (end_page h)); cbn [andb]; try (by destruct (I v) as [[??]|]). split; [done|]. intros o Ho.
  unfold loaded, segment_byte, read_size. destruct (Z.ltb_spec 0 (p_filesz h)); cbn [andb]; [|rewrite ltb_false by lia; done].
  destruct (Z.ltb_spec (4096 * v + o) (p_vaddr h + p_filesz h)); [rewrite ltb_true by lia|by rewrite ltb_false by lia]. f_equal. f_equal. lia.
Qed.

(** A header was loaded or not. *)
Definition phdr_done l h s D I (r : option Z) (st : F * vm) : Prop := exists pos D', contains st.1 l pos /\ aside s st.2 D D' /\
  match r with
  | Some e => e = 4096 * end_page h /\ segment_ok l h /\ readable l h /\ (forall v, covers h v -> I v = None) /\
      proc st.2 D' (with_bytes I (writable h) (segment_byte l h) (first_page h) (end_page h))
  | None => (exists I', proc st.2 D' I') /\ (exhausted st.2 \/ ~ (segment_ok l h /\ readable l h /\ forall v, covers h v -> I v = None))
  end.

Lemma segment_phdr l h s D I ok st : phdr_range h -> segment_ok l h -> size l < 2 ^ 31 ->
  segment_done l I (writable h) (first_page h) (page_count h) (p_offset h - p_offset h mod 4096) (read_size h) s D ok st ->
  phdr_done l h s D I (if ok : bool then Some (4096 * end_page h) else None) st.
Proof using Type.
  intros Hr Hs Hl (pos & D' & Hf & Hd). destruct (segment_numbers l h Hr Hs Hl) as (E1 & E2 & E3 & _ & E4 & E5 & E6 & E7 & _). pose proof (sg_page _ _ Hs) as Epg.
  pose proof (hr_filesz _ Hr). assert (Erd : readable l h <-> ~ (0 < read_size h /\ size l < p_offset h - p_offset h mod 4096 + read_size h)).
  { unfold readable, read_size. destruct (Z.ltb_spec 0 (p_filesz h)); lia. }
  exists pos, D'. split; [done|]. destruct ok.
  - destruct Hd as [L1 L2 L3 L4 L5 L6 L7]. split; [done|]. split_and!; [done|done| | |].
    + apply Erd. intros [Hp Hlt]. specialize (L4 ltac:(unfold page_count in *; lia) Hp). lia.
    + intros v [??]. apply L5. unfold page_count. lia.
    + eapply proc_like, L6. by apply segment_bytes.
  - destruct Hd as (HI' & Ha & Hwhy). split; [done|]. split; [done|]. destruct Hwhy as [?|[Hn|(v & Hv & Hsome)]]; [by left|right..].
    + intros (_ & Hrd & _). by apply Erd in Hrd.
    + intros (_ & _ & Hfree). rewrite Hfree in Hsome; [by destruct Hsome|]. unfold covers, page_count in *. lia.
Qed.

Lemma load_phdr_spec f s l pos D I h : contains f l pos -> proc s D I -> phdr_range h ->
  wp (load_phdr init_page_dir init_ram_pages pd h) (phdr_done l h s D I) (f, s).
Proof using Hpd.
  intros Hf Hp Hr. destruct (contains_range _ _ _ Hf) as (Hpos & Hl & _). fold (size l) in Hl. unfold load_phdr. apply wp_bind. eapply wp_mono; [by eapply validate_spec|].
  intros valid st (f1 & -> & Hf1 & Hv). destruct valid.
  2:{ wp_steps. exists pos, D. split; [done|]. split; [done|]. split; [by exists I|]. right. intros (Hs & _). by apply Hv in Hs. }
  assert (Hs := proj1 Hv eq_refl). destruct (segment_numbers l h Hr Hs Hl) as (E1 & E2 & E3 & E4 & E5 & E6 & E7 & E8 & E9).
  pose proof (hr_filesz _ Hr). pose proof (hr_memsz _ Hr). pose proof (sg_high _ _ Hs). pose proof (sg_sizes _ _ Hs). unfold PHYS_BASE, PAGES in *.
  pose proof (hr_vaddr _ Hr). pose proof (hr_offset _ Hr). rewrite !land_high, !low_bits by lia. rewrite round_up_pages, E4 by lia.
  assert (Eb : (if 0 <? p_filesz h then (u32 (p_vaddr h mod 4096 + p_filesz h), u32 (4096 * page_count h - u32 (p_vaddr h mod 4096 + p_filesz h)))
    else (0, 4096 * page_count h)) = (read_size h, 4096 * page_count h - read_size h)).
  { unfold read_size, page_count in *. destruct (Z.ltb_spec 0 (p_filesz h)); [rewrite !u32_small by lia; done|f_equal; lia]. }
  cbv zeta. rewrite Eb. rewrite s32_small by lia. replace (p_vaddr h - p_vaddr h mod 4096) with (4096 * first_page h) by lia. apply wp_bind. eapply wp_mono.
  { eapply (load_segment_spec l I (writable h) (first_page h) (page_count h) (p_offset h - p_offset h mod 4096) (read_size h) s D); try done; unfold PAGES, page_count in *; lia. }
  intros ok st Hd. wp_steps. replace (u32 _) with (4096 * end_page h); [by apply segment_phdr|]. unfold page_count in *. rewrite u32_small; lia.
Qed.

(** ** The program headers *)

Definition phdrs_done l (n : nat) ofs s D (done : list Elf32_Phdr) (r : option Z) (st : F * vm) : Prop := exists pos D', contains st.1 l pos /\ aside s st.2 D D' /\
  match r with
  | Some e => exists hs, segments l n ofs = Some hs /\ Forall (readable l) hs /\ separate (done ++ hs) /\ e = last_end (done ++ hs) /\
      proc st.2 D' (segments_image l (done ++ hs))
  | None => (exists I', proc st.2 D' I') /\
      (exhausted st.2 \/ forall hs, segments l n ofs = Some hs -> ~ (Forall (readable l) hs /\ separate (done ++ hs)))
  end.

(** The loop stops for a header that is not there or not to be loaded. *)
Lemma phdrs_bad l n ofs s D done f pos I : contains f l pos -> proc s D I -> segments l n ofs = None -> phdrs_done l n ofs s D done None (f, s).
Proof using Type. intros Hf Hp Hn. exists pos, D. split; [done|]. split; [done|]. split; [by eexists|]. right. by rewrite Hn. Qed.

Lemma separate_free l done h hs : separate (done ++ h :: hs) -> forall v, covers h v -> segments_image l done v = None.
Proof using Type.
  intros Hs v Hv. apply image_none. destruct (decide (Forall (fun g => ~ (first_page g <= v < end_page g)) done)) as [|Hn]; [done|].
  by destruct (not_separate done h hs v Hv Hn).
Qed.

(** A header that is loaded, and the rest. *)
Lemma phdrs_load l n ofs h s D done s1 D1 r st : segments l (S n) ofs = (if decide (segment_ok l h) then cons h <$> segments l n (ofs + PHDR_SIZE) else None) ->
  segment_ok l h -> readable l h -> aside s s1 D D1 -> phdrs_done l n (ofs + PHDR_SIZE) s1 D1 (done ++ [h]) r st ->
  phdrs_done l (S n) ofs s D done r st.
Proof using Type.
  intros Eseg Hs Hrd Ha (pos & D' & Hf & Ha' & Hr). assert (Eapp : forall hs, done ++ h :: hs = (done ++ [h]) ++ hs) by (intros hs; by rewrite <- app_assoc). rewrite decide_True in Eseg by done. exists pos, D'. split; [done|]. split; [by eapply apart_trans|]. rewrite Eseg. destruct r as [e|].
  - destruct Hr as (hs & -> & Hall & Hsep & He & Hp). exists (h :: hs). rewrite Eapp. split_and!; [done|by constructor|done|done|done].
  - destruct Hr as [HI' [?|Hno]]; (split; [done|]); [by left|right]. intros hs' (hs & Ex & ->)%fmap_Some [Hall Hsep]. apply (Hno hs Ex).
    rewrite <- Eapp. split; [by inversion Hall|done].
Qed.

Lemma load_phdrs_spec l n : forall ofs f s D pos done, contains f l pos -> - 2 ^ 31 <= ofs < 2 ^ 31 -> separate done -> proc s D (segments_image l done) ->
  wp (load_phdrs init_page_dir init_ram_pages pd n ofs (last_end done)) (phdrs_done l n ofs s D done) (f, s).
Proof using Hpd.
  induction n as [|n IH]; intros ofs f s D pos done Hf Hofs Hsep Hp; cbn [load_phdrs].
  { wp_steps. exists pos, D. split; [done|]. split; [done|]. exists []. rewrite app_nil_r. done. }
  destruct (contains_range _ _ _ Hf) as (_ & Hl & _). fold (size l) in Hl.
  assert (Hbad : ~ (0 <= ofs /\ ofs + PHDR_SIZE <= size l) -> segments l (S n) ofs = None).
  { intros Hb. cbn [segments]. destruct (Z.leb_spec 0 ofs), (Z.leb_spec (ofs + PHDR_SIZE) (size l)); try done. by destruct Hb. }
  wp_steps. apply wp_on_file. eapply wp_mono; [by eapply file_length_spec|]. intros len f1 [-> Hf1]. fold (size l). unfold PHDR_SIZE in *.
  destruct (Z.ltb_spec ofs 0); cbn [orb]; [wp_steps; eapply phdrs_bad; [exact Hf1|exact Hp|apply Hbad; lia]|].
  destruct (Z.ltb_spec (size l) ofs); [wp_steps; eapply phdrs_bad; [exact Hf1|exact Hp|apply Hbad; lia]|].
  wp_steps. apply wp_on_file. eapply wp_mono; [eapply file_seek_spec; [exact Hf1|lia]|]. intros u f2 Hf2. cbn beta in Hf2. wp_steps. apply wp_on_file.
  eapply wp_mono; [eapply file_read_spec; [exact Hf2|lia]|]. intros [c b] f3 (Eb & Ec & Hf3). change (b = bytes l ofs 32) in Eb.
  assert (Hc : c = 32 <-> ofs + 32 <= size l) by (rewrite Ec, Eb; unfold bytes, size in *; rewrite length_take, length_drop; lia).
  destruct (Z.eqb_spec c 32) as [E|E]; cbn [negb]; [|wp_steps; eapply phdrs_bad; [exact Hf3|exact Hp|apply Hbad; lia]].
  assert (Eseg : segments l (S n) ofs = let h := to_phdr b in if decide (p_type h ∈ [PT_DYNAMIC; PT_INTERP; PT_SHLIB]) then None
    else if decide (p_type h = PT_LOAD) then if decide (segment_ok l h) then cons h <$> segments l n (ofs + PHDR_SIZE) else None else segments l n (ofs + PHDR_SIZE)).
  { cbn [segments]. rewrite (leb_true 0 ofs), (leb_true (ofs + PHDR_SIZE)) by (unfold PHDR_SIZE; lia). cbn [andb]. by rewrite Eb. }
  cbv zeta in Eseg. pose proof (to_phdr_range b) as Hr. generalize dependent (to_phdr b). intros h Eseg Hr. cbv zeta.
  destruct ((p_type h =? PT_DYNAMIC) || (p_type h =? PT_INTERP) || (p_type h =? PT_SHLIB)) eqn:Et.
  { wp_steps. eapply phdrs_bad; [exact Hf3|exact Hp|]. rewrite Eseg, decide_True; [done|]. rewrite !orb_true_iff, !Z.eqb_eq in Et. set_solver. }
  rewrite decide_False in Eseg by (rewrite !orb_false_iff, !Z.eqb_neq in Et; set_solver).
  assert (Eofs : s32 (ofs + 32) = ofs + PHDR_SIZE) by (unfold PHDR_SIZE; rewrite s32_small; lia). rewrite Eofs.
  destruct (Z.eqb_spec (p_type h) PT_LOAD) as [Etl|Etl].
  2:{ rewrite decide_False in Eseg by done. eapply wp_mono; [eapply IH; [exact Hf3|unfold PHDR_SIZE; lia|exact Hsep|exact Hp]|].
    intros r st Hd. unfold phdrs_done in *. by rewrite Eseg. }
  rewrite decide_True in Eseg by done. apply wp_bind. eapply wp_mono; [by eapply load_phdr_spec|]. intros r st (pos1 & D1 & Hf4 & Ha & Hd). destruct st as [f4 s4]. cbn [fst snd] in *.
  destruct r as [e|].
  - destruct Hd as (-> & Hs & Hrd & Hfree & Hp1). replace (if last_end done <? _ then _ else _) with (last_end (done ++ [h])).
    2:{ rewrite last_end_snoc. destruct (segment_numbers l h Hr Hs Hl) as (_ & _ & ? & _ & ? & _). pose proof (hr_vaddr _ Hr). pose proof (hr_memsz _ Hr). destruct (Z.ltb_spec (last_end done) (4096 * end_page h)); lia. }
    eapply wp_mono; [eapply (IH _ f4 s4 D1 pos1 (done ++ [h])); [done|unfold PHDR_SIZE; lia| |]|].
    + apply separate_snoc; [done|]. intros v Hv. by apply (image_none l), Hfree.
    + eapply proc_like, Hp1. by apply image_snoc.
    + intros r st Hd. by eapply phdrs_load.
  - wp_steps. destruct Hd as [HI' Hwhy]. exists pos1, D1. split; [done|]. split; [done|]. split; [done|]. destruct Hwhy as [?|Hno]; [by left|right].
    rewrite Eseg. intros hs Ehs [Hall Hs]. case_decide as Hok; [|done]. apply fmap_Some in Ehs as (hs' & _ & ->). apply Hno. split_and!; [done|by inversion Hall|].
    by eapply separate_free.
Qed.

(** ** The stack and the whole *)

Lemma setup_stack_spec f s D I : proc s D I ->
  wp (setup_stack init_page_dir init_ram_pages pd) (fun r st => exists D', st.1 = f /\ aside s st.2 D D' /\
    match r with
    | Some e => e = PHYS_BASE /\ I STACK_PAGE = None /\ proc st.2 D' (place I STACK_PAGE true zeros)
    | None => proc st.2 D' I /\ (exhausted st.2 \/ is_Some (I STACK_PAGE))
    end) (f, s).
Proof using Hpd.
  intros Hp. unfold setup_stack. wp_steps. apply wp_on_vm. eapply (get_spare _ _ _ s D); [exact Hp|done|done| |].
  { intros Hfull. change (NULL =? NULL) with true. cbn [negb]. wp_steps. exists D. split_and!; [done|done|done|]. left. by exists true. }
  intros kp s1 Hkp Hp1 Hsp Ha1 Hz. rewrite Hkp. cbn [negb]. wp_steps. apply wp_on_vm. change (PHYS_BASE - PGSIZE) with (4096 * STACK_PAGE).
  eapply wp_mono; [apply (install_spec init_page_dir init_ram_pages self pd Hpd s1 D I STACK_PAGE true kp Hp1 Hsp); unfold STACK_PAGE, PAGES; lia|].
  intros [|] s2; cbv iota.
  - intros (HI & D2 & Hp2 & Ha2). wp_steps. exists D2. split_and!; [done|by eapply apart_trans|done|done|]. eapply proc_like, Hp2. intros v Hv. unfold place. case_decide.
    + split; [done|]. by apply Hz.
    + by destruct (I v) as [[w c]|].
  - intros [-> Hwhy]. wp_steps. apply wp_on_vm. eapply free_spare; [exact Hp1|exact Hsp|]. intros s3 Hp3 Ha3 Hfull. wp_steps. exists D. split_and!; [done|by eapply apart_trans|done|].
    destruct Hwhy as [?|?]; [by right|]. left. exists false. by apply Hfull.
Qed.

(** The outcome of loading the file [l] into the process [pd]. *)
Definition outcome l s D (r : option started) (st : F * vm) : Prop := exists pos D', contains st.1 l pos /\ aside s st.2 D D' /\
  match r with
  | Some st' => exists hs, describes l hs /\ st' = mkStarted (e_entry (header l)) PHYS_BASE (last_end hs + 4096) /\
      proc st.2 D' (program_image l hs)
  | None => (exists I', proc st.2 D' I') /\ (exhausted st.2 \/ ~ exists hs, describes l hs)
  end.

Lemma last_end_range hs : Forall (fun h => end_page h <= PAGES) hs -> 0 <= last_end hs <= PHYS_BASE.
Proof using Type. unfold last_end, PAGES, PHYS_BASE. induction 1 as [|h hs Hh _ IH]; cbn [foldr]; lia. Qed.

Lemma segments_ends l n : size l < 2 ^ 31 -> forall ofs hs, segments l n ofs = Some hs -> Forall (fun h => end_page h <= PAGES) hs.
Proof using Type.
  intros Hl. induction n as [|n IH]; intros ofs hs; cbn [segments]; [by intros [= <-]|]. destruct (_ && _); [|done]. cbv zeta. case_decide; [done|]. case_decide; [|apply IH].
  case_decide as Hs; [|done]. intros (hs' & E & ->)%fmap_Some. constructor; [|by eapply IH]. by apply (segment_numbers l _ (to_phdr_range _) Hs Hl).
Qed.

Lemma load_file_spec f s l D : contains f l 0 -> proc s D (fun _ => None) ->
  wp (load_file init_page_dir init_ram_pages pd) (outcome l s D) (f, s).
Proof using Hpd.
  intros Hf Hp. destruct (contains_range _ _ _ Hf) as (_ & Hl & _). fold (size l) in Hl. unfold load_file. wp_steps. apply wp_on_file.
  eapply wp_mono; [eapply file_read_spec; [exact Hf|done]|]. intros [c b] f1 (Eb & Ec & Hf1). change (b = bytes l 0 52) in Eb.
  assert (Hc : c = 52 <-> EHDR_SIZE <= size l) by (rewrite Ec, Eb; unfold bytes, size, EHDR_SIZE in *; rewrite length_take, length_drop; lia).
  rewrite Eb. fold (header l). cbv zeta. destruct (Z.eqb_spec c EHDR_SIZE) as [E|E]; cbn [negb orb].
  2:{ wp_steps. exists (0 + c), D. split_and!; [done|done|by eexists|]. right. intros [hs [Hsz _ _ _ _ _]]. by apply Hc in Hsz. }
  destruct (ehdr_ok (header l)) eqn:Hok; cbn [negb].
  2:{ wp_steps. exists (0 + c), D. split_and!; [done|done|by eexists|]. right. intros [hs [_ Hh _ _ _ _]]. congruence. }
  wp_steps. eapply wp_mono; [apply (load_phdrs_spec l _ _ f1 s D (0 + c) []); [done| |by intros i|done]|].
  { unfold s32. pose proof (Z.mod_pos_bound (e_phoff (header l) + 2 ^ 31) (2 ^ 32) ltac:(lia)). lia. }
  intros r [f2 s2] (pos & D2 & Hf2 & Ha2 & Hr). cbn [fst snd app] in *. destruct r as [e|].
  2:{ wp_steps. exists pos, D2. destruct Hr as [HI' Hwhy]. split_and!; [done|done|done|]. destruct Hwhy as [?|Hno]; [by left|right]. intros [hs [_ _ Hs Hrd Hse _]]. by apply (Hno hs Hs). }
  destruct Hr as (hs & Hs & Hrd & Hse & -> & Hp2). wp_steps. eapply wp_mono; [by apply (setup_stack_spec f2 s2 D2)|]. intros r [f3 s3] (D3 & Ef & Ha3 & Hr). cbn [fst snd] in *. subst f3. wp_steps.
  exists pos, D3. split; [done|]. split; [by eapply apart_trans|]. destruct r as [sp|]; cbn.
  - destruct Hr as (-> & Hst & Hp3). exists hs. split_and!; [split; try done; [by apply Hc|by apply (image_none l)]| |done].
    pose proof (last_end_range hs (segments_ends l _ Hl _ _ Hs)). change PGSIZE with 4096. rewrite u32_small; [done|]. unfold PHYS_BASE in *. lia.
  - destruct Hr as [Hp3 Hwhy]. split; [by eexists|]. destruct Hwhy as [?|[x Hx]]; [by left|right]. intros [hs' [_ _ Hs' _ _ Hst]]. assert (hs' = hs) as -> by congruence.
    apply (image_none l) in Hst. congruence.
Qed.
End loader.
End LoadImage.
