(* ===== verification/LoadProps.v ===== *)
(** What the loader and [mem_sbrk] promise: the heap grows by zero pages, and
    the loader gives a process the image that the executable describes,
    whatever bytes the file has. *)
From S2P Require Import Prelude Words Bitmap Palloc Pagedir PagedirSpec PagedirOps PagedirProps PagedirDemo Load LoadSpec LoadImage.
From stdpp Require Import options.

#[local] Open Scope Z_scope.

Module LoadProps.
Import Palloc Pagedir PagedirSpec PagedirOps PagedirProps PagedirDemo Load LoadSpec LoadImage.

(** * The heap *)

Lemma signed_word x : - 2 ^ 31 <= x < 2 ^ 31 -> s32 (u32 x) = x.
Proof. intros Hx. unfold s32, u32. rewrite Zplus_mod_idemp_l, Z.mod_small; lia. Qed.

Lemma round_up_above a : 0 <= a < PHYS_BASE -> pg_round_up a = 4096 * page_above a.
Proof.
  intros Ha. unfold PHYS_BASE in Ha. unfold pg_round_up, page_above. change PGSIZE with 4096. rewrite u32_small, land_high by lia.
  pose proof (Z.div_mod (a + 4096 - 1) 4096 ltac:(lia)). replace (a + 4095) with (a + 4096 - 1) by lia. lia.
Qed.

Section sbrk.
Context (init_page_dir init_ram_pages : Z) (self : nat) (pd : Z) (Hpd : pd <> init_page_dir).
Implicit Types (s : vm) (D : gmap Z (gmap Z Z)) (I : image).
Abbreviation proc := (proc init_ram_pages self pd).

(** Whether the heap needs pages. *)
Lemma sbrk_needs s D I fin increment : proc s D I -> 0 <= fin < PHYS_BASE ->
  wp (if PGSIZE <? increment then ret true else let! p := pagedir_get_page pd (pg_round_down (u32 fin)) in ret (p =? NULL))
    (fun grow s' => s' = s /\ (grow = true \/ grow = false /\ increment <= 4096 /\ is_Some (I (fin / 4096)))) s.
Proof using Type.
  intros Hp Hf. destruct (Z.ltb_spec PGSIZE increment) as [|Hle]; [wp_steps; by split; [|left]|]. change PGSIZE with 4096 in Hle. pose proof Hp as [Hm (pts & HD & HI) _].
  assert (Hf' : fin < PHYS_BASE) by lia. unfold PHYS_BASE in Hf'.
  rewrite u32_small, pg_round_down_spec by lia. pose proof (Z.div_mod fin 4096 ltac:(lia)) as E. pose proof (Z.mod_pos_bound fin 4096 ltac:(lia)) as Hmod.
  pose proof (Z.div_pos fin 4096 ltac:(lia) ltac:(lia)). replace (fin - fin mod 4096) with (fin / 4096 * 4096) by lia.
  wp_steps. eapply wp_mono; [apply (get_page_exact self pd s D pts); [done|done|unfold PHYS_BASE; lia]|]. intros p s' [-> ->]. wp_steps. split; [done|].
  rewrite Z.div_mul by lia. specialize (HI (fin / 4096) ltac:(unfold PAGES; lia)). destruct (I (fin / 4096)) as [[w c]|]; [|left; by rewrite HI].
  destruct (_ =? NULL); [by left|right]. split_and!; [done|done|by eexists].
Qed.

(** How [mem_sbrk] ends: the heap has its zero pages; or the page of its new
    end was mapped already, and it has what it had; or it cannot shrink; or
    it ran out of memory or into a page, at page [u]. *)
Variant sbrk_ends I s D (heap_end increment : Z) : Z -> Z -> vm -> gmap Z (gmap Z Z) -> Prop :=
| Sbrk_grown s' D' :
    0 <= increment -> (forall v, page_above heap_end <= v < page_above (heap_end + increment) -> I v = None) ->
    proc s' D' (with_zeros I (page_above heap_end) (page_above (heap_end + increment))) ->
    sbrk_ends I s D heap_end increment heap_end (heap_end + increment) s' D'
| Sbrk_there :
    0 <= increment <= 4096 -> is_Some (I ((heap_end + increment) / 4096)) ->
    sbrk_ends I s D heap_end increment heap_end (heap_end + increment) s D
| Sbrk_negative : increment < 0 -> sbrk_ends I s D heap_end increment (2 ^ 32 - 1) heap_end s D
| Sbrk_stopped u s' D' :
    0 <= increment -> page_above heap_end <= u < page_above (heap_end + increment) ->
    exhausted s' \/ is_Some (I u) -> (forall v, page_above heap_end <= v < u -> I v = None) ->
    proc s' D' (with_zeros I (page_above heap_end) u) ->
    sbrk_ends I s D heap_end increment (2 ^ 32 - 1) heap_end s' D'.

(** C17: [mem_sbrk] with any increment that keeps the heap below the kernel
    returns, in one of four ways, and no other address space changes. It
    returns the old end of the heap, moves the end by the increment and has
    mapped zero pages that the program may write to, exactly the pages that
    the larger heap needs, none of which was mapped. Or the increment is at
    most a page and the page of the new end was mapped already: it moves the
    end and changes no page. Or the increment is negative: it returns -1 and
    changes nothing. Or it returns -1 and the end of the heap stays, at a
    page for which memory has run out or that was mapped already, with the
    pages before that one added. *)
Theorem mem_sbrk_grows s D I heap_end increment : proc s D I -> 0 <= heap_end -> increment < 2 ^ 31 -> heap_end + increment < PHYS_BASE ->
  exists r heap_end' s' D', mem_sbrk init_page_dir init_ram_pages pd heap_end increment s = Ok (r, heap_end', s') /\
    apart (vm_pages s) (vm_pages s') D D' pd /\ sbrk_ends I s D heap_end increment r heap_end' s' D'.
Proof using Hpd.
  intros Hp Hh Hi Hlim. set (fin := heap_end + increment) in *. pose proof (page_above_spec heap_end). pose proof (page_above_spec fin).
  assert (Hrefl : apart (vm_pages s) (vm_pages s) D D pd) by done.
  cut (wp (mem_sbrk init_page_dir init_ram_pages pd heap_end increment) (fun '(r, heap_end') s' => exists D', apart (vm_pages s) (vm_pages s') D D' pd /\
    sbrk_ends I s D heap_end increment r heap_end' s' D') s).
  { intros ([r h'] & s' & E & D' & H1 & H2)%wp_ok. by exists r, h', s', D'. }
  unfold mem_sbrk. destruct (Z.ltb_spec increment 0); [wp_steps; exists D; split; [done|by apply Sbrk_negative]|].
  assert (Hf : 0 <= fin < PHYS_BASE) by lia. assert (Hf' : fin < PHYS_BASE) by lia. unfold PHYS_BASE in Hf'.
  fold fin. rewrite (u32_small fin) by lia. apply wp_bind. pose proof (sbrk_needs s D I fin increment Hp Hf) as Hn. rewrite (u32_small fin) in Hn by lia.
  eapply wp_mono; [exact Hn|]. intros grow s1 [-> Hg]. apply wp_bind. destruct Hg as [->|(-> & Hle & Hs)].
  - rewrite (round_up_above heap_end) by lia. rewrite (u32_small (4096 * page_above heap_end - heap_end)), signed_word by lia.
    replace (increment - (4096 * page_above heap_end - heap_end)) with (fin - 4096 * page_above heap_end) by lia.
    eapply wp_mono; [apply (sbrk_loop init_page_dir init_ram_pages self pd Hpd s D I (page_above heap_end) fin s D); try done; lia|].
    intros [|] s2 (D2 & u & Ha & Hp2 & Hno & Hu); wp_steps; exists D2; (split; [done|]); [subst u; by apply Sbrk_grown|]. destruct Hu. by eapply Sbrk_stopped.
  - wp_steps. exists D. split; [done|]. apply Sbrk_there; [lia|done].
Qed.

(** When the end of the heap would reach the kernel, an increment of at
    most one page, even of none, halts the machine: [mem_sbrk] asks for the
    page at that address, which is not one of the user. *)
Theorem mem_sbrk_panics s heap_end increment : 0 <= increment <= 4096 -> PHYS_BASE <= heap_end + increment < 2 ^ 32 ->
  mem_sbrk init_page_dir init_ram_pages pd heap_end increment s = Err Panic.
Proof using Type.
  intros Hi Hh. unfold mem_sbrk. rewrite (ltb_false increment), (ltb_false PGSIZE) by (change PGSIZE with 4096; lia). rewrite u32_small by (unfold PHYS_BASE in *; lia).
  unfold bind at 1 2. unfold pagedir_get_page, bind, ASSERT, lift. replace (is_user_vaddr _) with false; [done|].
  symmetry. unfold is_user_vaddr. apply Z.ltb_ge. rewrite pg_round_down_spec by (unfold PHYS_BASE in *; lia). unfold PHYS_BASE in *.
  pose proof (Z.div_mod (heap_end + increment) 4096 ltac:(lia)). pose proof (Z.mod_pos_bound (heap_end + increment) 4096 ltac:(lia)).
  assert (786432 <= (heap_end + increment) / 4096) by (apply Z.div_le_lower_bound; lia). lia.
Qed.
End sbrk.

(** * Loading *)

Section load.
Context (init_page_dir init_ram_pages : Z) (self : nat).
Context {F : Type} {HX : Executable F} {HS : ExecutableSpec F}.
Implicit Types (s : vm) (D : gmap Z (gmap Z Z)) (pd : Z).

Lemma create_pools s : mem_ok (vm_pages s) -> wp (pagedir_create init_page_dir) (fun _ s' => same_pools (vm_pages s) (vm_pages s')) s.
Proof using Type.
  intros Hok. unfold pagedir_create. wp_steps. apply wp_palloc. apply get_page_spec; [done|done| |].
  - intros _. change (NULL =? NULL) with true. cbn [negb]. wp_steps. by intros b.
  - intros a g Hg. unfold memcpy. destruct (a =? NULL); cbn [negb]; wp_steps; intros b; destruct (gt_pools _ _ _ _ Hg b) as [E1 E2]; by destruct b.
Qed.

Lemma activate_machine s D pd : machine s D self -> is_Some (D !! pd) -> machine (set_cpu self (mkCpu (pd - PHYS_BASE) ∅) s) D self.
Proof using Type.
  intros [Hw Hc Hself Hco] HD. assert (Hin : forall c, c ∈ <[self := mkCpu (pd - PHYS_BASE) ∅]> (vm_cpus s) -> c = mkCpu (pd - PHYS_BASE) ∅ \/ c ∈ vm_cpus s).
  { intros c [i Hi]%list_elem_of_lookup. destruct (decide (i = self)) as [->|Hne]; [rewrite list_lookup_insert_eq in Hi by done; left; by injection Hi|].
    rewrite list_lookup_insert_ne in Hi by done. right. by eapply list_elem_of_lookup_2. }
  split; [done| | |].
  - split; [|cbn; rewrite length_insert; apply Hc]. intros c [->|Hc']%Hin; [|by apply Hc]. cbn [cr3]. by replace (pd - PHYS_BASE + PHYS_BASE) with pd by lia.
  - cbn. by rewrite length_insert.
  - intros c v e [->|Hc']%Hin Hv He; [cbn [tlb] in He; by rewrite lookup_empty in He|]. by apply Hco.
Qed.

(** A new page directory maps nothing. *)
Lemma empty_proc s D pd : machine s (<[pd := ∅]> D) self -> ram init_ram_pages (vm_pages s) -> proc init_ram_pages self pd s (<[pd := ∅]> D) (fun _ => None).
Proof using Type.
  intros Hm Hr. split; [done| |done]. exists ∅. rewrite lookup_insert_eq. split; [done|]. intros v Hv. unfold space, pte_of. by rewrite lookup_empty.
Qed.

(** How loading the file [l] ends: there is not even a page directory, or the
    outcome for the new one. *)
Definition load_ends f s l D pd (r : option started) (st : F * vm) : Prop :=
  (pd = NULL /\ r = None /\ st = (f, s) /\ full (vm_pages s) false) \/
  (pd <> NULL /\ D !! pd = None /\ outcome init_ram_pages self pd l s D r st).

Lemma load_spec f s l D : machine s D self -> D !! init_page_dir = Some ∅ -> ram init_ram_pages (vm_pages s) -> contains f l 0 ->
  wp (load init_page_dir init_ram_pages self true) (fun '(pd, r) st => load_ends f s l D pd r st) (f, s).
Proof using Type.
  intros Hm HD Hram Hf.
  unfold load. apply wp_bind, wp_on_vm. eapply wp_mono.
  { apply wp_and; [|by apply create_pools, Hm]. apply (create_spec s D self init_page_dir (fun pd s' => (pd = NULL /\ s' = s /\ full (vm_pages s) false) \/
      (D !! pd = None /\ machine s' (<[pd := ∅]> D) self /\ others s s' D pd))); [done|done|by left|]. intros pd s' H1 H2 H3 _ _ _. by right. }
  intros pd s1 [[(-> & -> & Hfull)|(Hnew & Hm1 & Ho)] Hpools].
  { change (NULL =? NULL) with true. cbv iota. wp_steps. by left. }
  assert (HD1 : <[pd := ∅]> D !! pd = Some (∅ : gmap Z Z)) by apply lookup_insert_eq.
  destruct (page_range _ _ (wd_mem _ _ (mc_world _ _ _ Hm1)) (dr_pd _ _ _ (wd_dir _ _ (mc_world _ _ _ Hm1) _ _ HD1))) as [R _].
  assert (Hnn : pd <> NULL) by (unfold PHYS_BASE, NULL in *; lia). rewrite (eqb_false pd NULL) by done. apply wp_bind, wp_on_vm. apply activate_spec; [done|].
  apply wp_bind. assert (Hp : proc init_ram_pages self pd (set_cpu self (mkCpu (pd - PHYS_BASE) ∅) s1) (<[pd := ∅]> D) (fun _ => None)).
  { apply empty_proc; [apply activate_machine; [done|by eexists]|]. by eapply pools_ram. }
  eapply wp_mono; [eapply (load_file_spec _ _ _ pd); [congruence|exact Hf|exact Hp]|]. intros r st (pos & D' & Hf' & Ha' & Hr). wp_steps. right. split_and!; [done|done|].
  exists pos, D'. split; [done|]. split; [|done]. eapply apart_trans, Ha'. by apply (served_apart s s1 D pd ∅).
Qed.

(** C16: Loading a program. Whatever bytes the file has, the loader returns; it
    never fails an assertion. It succeeds only if the file is an executable,
    and then the new address space is the image that the executable
    describes and nothing more: the pages of each segment with their bytes
    from the file and zeros after them, writable if the segment is, and a
    stack of one zero page; the entry point, the stack pointer and the start
    of the heap are those of the executable. It fails only if the file is
    not an executable or memory has run out. No other address space
    changes. *)
Theorem load_correct f s l D : machine s D self -> D !! init_page_dir = Some ∅ -> ram init_ram_pages (vm_pages s) -> contains f l 0 ->
  exists pd r st, load init_page_dir init_ram_pages self true (f, s) = Ok (pd, r, st) /\ load_ends f s l D pd r st.
Proof using Type. intros Hm HD Hram Hf. destruct (proj1 (wp_ok _ _ _) (load_spec f s l D Hm HD Hram Hf)) as ([pd r] & st & E & H). by exists pd, r, st. Qed.
End load.

(** * A run *)

(** A file in memory. *)
#[local] Instance memory_file : Executable (list Z * Z) := {|
  file_length := gets (fun f => Z.of_nat (length f.1));
  file_seek := fun pos => ASSERT (0 <=? pos);;; modify (fun f => (f.1, pos));
  file_read := fun n f => let b := take (Z.to_nat n) (drop (Z.to_nat f.2) f.1) in Ok (Z.of_nat (length b), b, (f.1, f.2 + Z.of_nat (length b)));
|}.

#[local] Instance memory_file_spec : ExecutableSpec (list Z * Z).
Proof.
  refine (Build_ExecutableSpec _ memory_file (fun f l pos => f = (l, pos) /\ 0 <= pos /\ Z.of_nat (length l) < 2 ^ 31 /\ Forall (fun b => 0 <= b < 2 ^ 8) l) _ _ _ _).
  - by intros f l pos (_ & H).
  - by intros f l pos (-> & H).
  - intros f l pos new_pos (-> & _ & H1 & H2) Hn. cbn. wp_steps; [apply Z.leb_le; lia|]. split_and!; [done|lia|done..].
  - intros f l pos n (-> & Hp & H1 & H2) Hn. cbn. split_and!; [done|done|done|lia|done..].
Defined.

Definition le16 (x : Z) : list Z := [x mod 2 ^ 8; x / 2 ^ 8].

(** An executable of one segment, 100 bytes of the file and 5000 in memory. *)
Definition demo_elf : list Z :=
  ELF_IDENT ++ replicate 9 0 ++ le16 2 ++ le16 3 ++ le32 1 ++ le32 134512724 ++ le32 52 ++ le32 0 ++ le32 0 ++
  le16 52 ++ le16 32 ++ le16 1 ++ le16 0 ++ le16 0 ++ le16 0 ++
  le32 PT_LOAD ++ le32 0 ++ le32 134512640 ++ le32 134512640 ++ le32 100 ++ le32 5000 ++ le32 7 ++ le32 4096 ++ replicate 16 144.

Definition demo_phdr : Elf32_Phdr := mkPhdr PT_LOAD 0 134512640 100 5000 7.

Lemma demo_ram s : demo_machine s -> ram 300 (vm_pages s).
Proof.
  intros Hd. assert (E : (let* (_, s) := demo in Ok (base (get_pool false (vm_pages s)), bit_cnt (used_map (get_pool false (vm_pages s))),
    base (get_pool true (vm_pages s)), bit_cnt (used_map (get_pool true (vm_pages s))))) = Ok (3222278144, 21, 3222368256, 21)) by (vm_compute; reflexivity).
  rewrite (dm_run _ Hd) in E. cbn [rbind] in E. injection E as E1 E2 E3 E4. intros user x Hx. unfold in_pool, get_pool in *.
  apply Z.div_lt_upper_bound; [lia|]. unfold PHYS_BASE. destruct user; [rewrite E3, E4 in Hx|rewrite E1, E2 in Hx]; lia.
Qed.

Lemma demo_proc s : demo_machine s -> proc 300 0 demo_pd s demo_dirs (fun _ => None).
Proof. intros Hd. apply empty_proc; [apply Hd|by apply demo_ram]. Qed.

(** What a routine returns in the state of [demo]. *)
Lemma demo_returns {A B T} (m : vm -> res (A * T)) (g : A -> B) s a t b : demo_machine s -> m s = Ok (a, t) ->
  (let* (_, s) := demo in let* (x, _) := m s in Ok (g x)) = Ok b -> g a = b.
Proof. intros Hd E Er. rewrite (dm_run _ Hd) in Er. cbn [rbind] in Er. rewrite E in Er. cbn [rbind] in Er. by injection Er. Qed.

Lemma demo_sbrk s r h s' : demo_machine s -> mem_sbrk demo_init 300 demo_pd 134516836 5000 s = Ok (r, h, s') -> (r, h) = (134516836, 134521836).
Proof. intros Hd E. apply (demo_returns _ (fun x => x) _ _ _ _ Hd E). vm_compute. reflexivity. Qed.

Lemma demo_load s pd r st : demo_machine s -> load demo_init 300 0 true (demo_elf, 0, s) = Ok (pd, r, st) -> r = Some (mkStarted 134512724 PHYS_BASE 134524928).
Proof. intros Hd E. apply (demo_returns (fun s => load demo_init 300 0 true (demo_elf, 0, s)) snd _ _ _ _ Hd E). vm_compute. reflexivity. Qed.

Lemma demo_elf_bytes : Forall (fun b => 0 <= b < 2 ^ 8) demo_elf.
Proof. apply (bool_decide_unpack _). vm_compute. exact I. Qed.

Lemma demo_segments : segments demo_elf (Z.to_nat (e_phnum (header demo_elf))) (s32 (e_phoff (header demo_elf))) = Some [demo_phdr].
Proof. vm_compute. reflexivity. Qed.

Lemma mem_sbrk_grows_witness : exists s s' D', demo_machine s /\
  mem_sbrk demo_init 300 demo_pd 134516836 5000 s = Ok (134516836, 134521836, s') /\
  proc 300 0 demo_pd s' D' (with_zeros (fun _ => None) (page_above 134516836) (page_above 134521836)).
Proof.
  destruct demo_ok as [s Hd]. destruct (mem_sbrk_grows demo_init 300 0 demo_pd ltac:(done) s demo_dirs (fun _ => None) 134516836 5000) as (r & h & s' & D' & E & _ & Hr).
  - by apply demo_proc.
  - lia.
  - lia.
  - unfold PHYS_BASE. lia.
  - pose proof (demo_sbrk s r h s' Hd E) as Er. injection Er as -> ->. exists s, s', D'. split; [exact Hd|]. split; [exact E|].
    inversion Hr as [s1 D1 _ _ Hp Eh E1 E2| Hle _ Eh| Hneg| ]; [exact Hp|lia..].
Defined.

Lemma mem_sbrk_panics_witness : exists s, demo_machine s /\ mem_sbrk demo_init 300 demo_pd PHYS_BASE 0 s = Err Panic.
Proof.
  destruct demo_ok as [s Hd]. exists s. split; [exact Hd|]. apply (mem_sbrk_panics demo_init 300 demo_pd s PHYS_BASE 0); unfold PHYS_BASE; lia.
Defined.

Lemma load_correct_witness : exists s pd st D', demo_machine s /\
  load demo_init 300 0 true (demo_elf, 0, s) = Ok (pd, Some (mkStarted 134512724 PHYS_BASE 134524928), st) /\
  proc 300 0 pd st.2 D' (program_image demo_elf [demo_phdr]).
Proof.
  destruct demo_ok as [s Hd]. destruct (load_correct demo_init 300 0 (demo_elf, 0) s demo_elf demo_dirs) as (pd & r & st & E & Hr).
  - apply Hd.
  - reflexivity.
  - by apply demo_ram.
  - cbn [contains memory_file_spec]. split; [reflexivity|]. split; [lia|]. split; [vm_compute; reflexivity|exact demo_elf_bytes].
  - pose proof (demo_load s pd r st Hd E) as Er. subst r. exists s, pd, st. destruct Hr as [(_ & Hr & _)|(_ & _ & pos & D' & _ & _ & hs & Hds & _ & Hp)]; [discriminate|].
    exists D'. pose proof (ds_segments _ _ Hds) as Hs. rewrite demo_segments in Hs. injection Hs as <-. split; [exact Hd|]. split; [exact E|exact Hp].
Defined.
End LoadProps.
