(* ===== verification/UserMem.v ===== *)
(** How system calls read the memory of the process
    (src/src/userprog/syscall.c): every access is checked first, and a
    process that passes an address that is not its own is terminated.

    The memory of the process is what reading a byte at an address gives;
    [None]: a page fault, upon which [page_fault]
    (src/src/userprog/exception.c) makes [get_user] return -1. *)
From S2P Require Import Prelude Words Palloc.
From stdpp Require Import options.

#[local] Open Scope Z_scope.

Module UserMem.
Import Palloc.

(** * System calls that may terminate the process *)

Inductive exit (A : Type) := Return (a : A) | Exited (status : Z).
Arguments Return {A}. Arguments Exited {A}.

Definition X (A : Type) : Type := res (exit A).
Definition xret {A} (a : A) : X A := Ok (Return a).
Definition xbind {A B} (m : X A) (k : A -> X B) : X B :=
  match m with
  | Ok (Return a) => k a
  | Ok (Exited st) => Ok (Exited st)
  | Err e => Err e
  end.
Definition sys_exit {A} (status : Z) : X A := Ok (Exited status).

Notation "'let?' x := m 'in' k" := (xbind m (fun x => k))
  (at level 10, x pattern, m at level 100, k at level 200) : kernel_scope.

Section user.
Context (um : Z -> option Z).

Definition get_user (uaddr : Z) : Z := match um uaddr with Some b => b | None => -1 end.

(** The bytes from [index] on. *)
Fixpoint copy_from_user_loop (user : Z) (n : nat) (index : Z) : X (list Z) :=
  match n with
  | O => xret []
  | S n =>
      if negb (is_user_vaddr (u32 (user + index))) then sys_exit (-1) else
      let copied_byte := get_user (u32 (user + index)) in
      if copied_byte =? -1 then sys_exit (-1) else
      let? l := copy_from_user_loop user n (index + 1) in
      xret (copied_byte :: l)
  end.

Definition copy_from_user (user : Z) (bytes : nat) : X (list Z) := copy_from_user_loop user bytes 0.

(** A store into a block of the kernel. *)
Definition put (l : list Z) (i : Z) (b : Z) : res (list Z) :=
  if (0 <=? i) && (i <? Z.of_nat (length l)) then Ok (<[Z.to_nat i := b]> l) else Err Fault.

Fixpoint str_copy_loop (fuel : nat) (dst : list Z) (user index : Z) : X (list Z) :=
  match fuel with
  | O => Err Block
  | S fuel =>
      if PGSIZE <=? index then sys_exit (-1) else
      if negb (is_user_vaddr (u32 (user + index))) then sys_exit (-1) else
      let copied_byte := get_user (u32 (user + index)) in
      if copied_byte =? -1 then sys_exit (-1) else
      let* dst := put dst index copied_byte in
      if negb (get_user (u32 (user + index)) =? 0) then str_copy_loop fuel dst user (index + 1)
      else let* dst := put dst (index + 1) 0 in xret dst
  end.

(** [dst] is the page that the handler has allocated. *)
Definition str_copy_from_user (dst : list Z) (user : Z) : X (list Z) :=
  str_copy_loop (S (Z.to_nat PGSIZE)) dst user 0.

Definition validate_ptr (addr : Z) : X unit :=
  if negb (is_user_vaddr addr) then sys_exit (-1) else
  if get_user addr =? -1 then sys_exit (-1) else xret tt.

Fixpoint validate_loop (fuel : nat) (addr last : Z) : X unit :=
  if addr <? last then
    match fuel with
    | O => Err Block
    | S fuel => let? _ := validate_ptr addr in validate_loop fuel (u32 (addr + PGSIZE)) last
    end
  else xret tt.

Definition validate_buffer (buffer size : Z) : X unit :=
  if size =? 0 then xret tt else
  if u32 (buffer + size) <? buffer then sys_exit (-1) else
  let? _ := validate_loop (S (Z.to_nat (size / PGSIZE))) buffer (u32 (buffer + size)) in
  validate_ptr (u32 (buffer + size - 1)).

(** * The handler: what a system call asks for *)

(** Names are the page that holds the copied string. *)
Inductive request :=
| RHalt | RExit (status : Z) | RExec (name : list Z) | RWait (pid : Z) | RCreate (name : list Z) (size : Z)
| RRemove (name : list Z) | ROpen (name : list Z) | RFilesize (fd : Z) | RRead (fd buffer size : Z) | RWrite (fd buffer size : Z)
| RSeek (fd position : Z) | RTell (fd : Z) | RClose (fd : Z) | RChdir (name : list Z) | RMkdir (name : list Z)
| RReaddir (fd name : Z) | RIsdir (fd : Z) | RInumber (fd : Z) | RFork | RDup2 (old_fd new_fd : Z) | RPipe (pipefd : Z)
| RExec2 (name : list Z) | RSbrk (increment : Z) | RTimes | RSleep (ticks : Z) | RNothing.

Definition WORD_SIZE : nat := 4.
Definition READDIR_MAX_LEN : Z := 14.

(** [args[i]] as the [int] it is declared as; pointers and unsigned
    arguments are the [word]. *)
Definition int_arg (args : list Z) (i : nat) : Z := s32 (word args i).

(** The arguments that each case of the switch fetches and checks
    (numbers: src/src/lib/syscall-nr.h). *)
Definition fetch (file_name : list Z) (stack_arg_addr syscall_number : Z) : X request :=
  let args n := copy_from_user stack_arg_addr (WORD_SIZE * n) in
  let name a := str_copy_from_user file_name (word a 0) in
  if syscall_number =? 0 then xret RHalt else
  if syscall_number =? 1 then let? a := args 1%nat in xret (RExit (int_arg a 0)) else
  if syscall_number =? 2 then let? a := args 1%nat in let? f := name a in xret (RExec f) else
  if syscall_number =? 3 then let? a := args 1%nat in xret (RWait (word a 0)) else
  if syscall_number =? 4 then let? a := args 2%nat in let? f := name a in xret (RCreate f (word a 1)) else
  if syscall_number =? 5 then let? a := args 1%nat in let? f := name a in xret (RRemove f) else
  if syscall_number =? 6 then let? a := args 1%nat in let? f := name a in xret (ROpen f) else
  if syscall_number =? 7 then let? a := args 1%nat in xret (RFilesize (int_arg a 0)) else
  if syscall_number =? 8 then let? a := args 3%nat in let? _ := validate_buffer (word a 1) (word a 2) in
    xret (RRead (int_arg a 0) (word a 1) (word a 2)) else
  if syscall_number =? 9 then let? a := args 3%nat in let? _ := validate_buffer (word a 1) (word a 2) in
    xret (RWrite (int_arg a 0) (word a 1) (word a 2)) else
  if syscall_number =? 10 then let? a := args 2%nat in xret (RSeek (int_arg a 0) (word a 1)) else
  if syscall_number =? 11 then let? a := args 1%nat in xret (RTell (int_arg a 0)) else
  if syscall_number =? 12 then let? a := args 1%nat in xret (RClose (int_arg a 0)) else
  if syscall_number =? 15 then let? a := args 1%nat in let? f := name a in xret (RChdir f) else
  if syscall_number =? 16 then let? a := args 1%nat in let? f := name a in xret (RMkdir f) else
  if syscall_number =? 17 then let? a := args 2%nat in let? _ := validate_buffer (word a 1) (READDIR_MAX_LEN + 1) in
    xret (RReaddir (int_arg a 0) (word a 1)) else
  if syscall_number =? 18 then let? a := args 1%nat in xret (RIsdir (int_arg a 0)) else
  if syscall_number =? 19 then let? a := args 1%nat in xret (RInumber (int_arg a 0)) else
  if syscall_number =? 20 then xret RFork else
  if syscall_number =? 21 then let? a := args 2%nat in xret (RDup2 (int_arg a 0) (int_arg a 1)) else
  if syscall_number =? 22 then let? a := args 1%nat in let? _ := validate_buffer (word a 0) (4 * 2) in xret (RPipe (word a 0)) else
  if syscall_number =? 23 then let? a := args 1%nat in let? f := name a in xret (RExec2 f) else
  if syscall_number =? 24 then let? a := args 1%nat in xret (RSbrk (int_arg a 0)) else
  if syscall_number =? 25 then xret RTimes else
  if syscall_number =? 26 then let? a := args 1%nat in xret (RSleep (int_arg a 0)) else
  xret RNothing.

(** [syscall_arg]: the zeroed page that [palloc_get_page] has given,
    [None] for a null pointer. *)
Definition syscall_request (syscall_arg : option (list Z)) (esp : Z) : X request :=
  let? n := copy_from_user esp WORD_SIZE in
  match syscall_arg with
  | None => sys_exit (-1)
  | Some file_name => fetch file_name (u32 (esp + Z.of_nat WORD_SIZE)) (int_arg n 0)
  end.
End user.

(** * What the checks are for *)

(** The byte at [a] is memory that the process can read. *)
Definition readable (um : Z -> option Z) (a : Z) (b : Z) : Prop := is_user_vaddr (u32 a) = true /\ um (u32 a) = Some b.

(** The string [s] is at [user]. *)
Definition string_at (um : Z -> option Z) (user : Z) (s : list Z) : Prop :=
  (0 ∉ s) /\ forall i b, (s ++ [0]) !! i = Some b -> readable um (user + Z.of_nat i) b.

(** The address is one of the process, below the kernel's, and mapped. *)
Definition addr_ok (um : Z -> option Z) (a : Z) : Prop := is_user_vaddr a = true /\ um a <> None.

Definition buffer_ok (um : Z -> option Z) (buffer size : Z) : Prop :=
  forall i, 0 <= i < size -> addr_ok um (buffer + i).

(** Memory that is mapped by pages of bytes. *)
Record paged (um : Z -> option Z) : Prop := mkPaged {
  pg_byte : forall a b, um a = Some b -> 0 <= b < 2 ^ 8;
  pg_page : forall a a', a / PGSIZE = a' / PGSIZE -> um a = None -> um a' = None }.

(** What the kernel may rely on in a request: its name is a string of the
    process, its buffer memory of the process. *)
Definition name_ok (um : Z -> option Z) (page name : list Z) : Prop :=
  exists user s, string_at um user s /\ name = overwrite 0 (s ++ [0; 0]) page /\ Z.of_nat (length s) < PGSIZE - 1.

Definition request_ok (um : Z -> option Z) (page : list Z) (r : request) : Prop :=
  match r with
  | RExec f | RCreate f _ | RRemove f | ROpen f | RChdir f | RMkdir f | RExec2 f => name_ok um page f
  | RRead _ b n | RWrite _ b n => buffer_ok um b n
  | RReaddir _ b => buffer_ok um b (READDIR_MAX_LEN + 1)
  | RPipe b => buffer_ok um b 8
  | _ => True
  end.

(** An outcome of a check: what it lets pass satisfies [P]; the kernel
    stores out of bounds for a string of one page only. *)
Definition guarded {A} (um : Z -> option Z) (P : A -> Prop) (m : X A) : Prop :=
  match m with
  | Ok (Return a) => P a
  | Ok (Exited st) => st = -1
  | Err e => e = Fault /\ exists user s, string_at um user s /\ Z.of_nat (length s) = PGSIZE - 1
  end.

(** * Proofs *)

Lemma get_user_spec um a : paged um -> get_user um a = -1 <-> um a = None.
Proof.
  intros Hp. unfold get_user. destruct (um a) as [b|] eqn:E; [|done]. pose proof (pg_byte _ Hp _ _ E). split; [lia|done].
Qed.

(** One checked access: the byte is readable, or the process is
    terminated. *)
Lemma checked_byte {A} um a (k : Z -> X A) : paged um ->
  (exists b, readable um a b /\
    (if negb (is_user_vaddr (u32 a)) then sys_exit (-1) else
     if get_user um (u32 a) =? -1 then sys_exit (-1) else k (get_user um (u32 a))) = k b) \/
  ((forall b, ~ readable um a b) /\
    (if negb (is_user_vaddr (u32 a)) then sys_exit (-1) else
     if get_user um (u32 a) =? -1 then sys_exit (-1) else k (get_user um (u32 a))) = sys_exit (-1)).
Proof.
  intros Hp. unfold readable. destruct (is_user_vaddr (u32 a)); cbn [negb]; [|right; split; [intros b [? _]; done|done]].
  unfold get_user. destruct (um (u32 a)) as [b|] eqn:E; [left|right].
  - exists b. split; [done|]. pose proof (pg_byte _ Hp _ _ E). by rewrite eqb_false by lia.
  - split; [by intros b [_ ?]|done].
Qed.

Section proofs.
Context (um : Z -> option Z) (Hp : paged um).

Lemma checked_ok {A} a b (k : Z -> X A) : readable um a b ->
  (if negb (is_user_vaddr (u32 a)) then sys_exit (-1) else
   if get_user um (u32 a) =? -1 then sys_exit (-1) else k (get_user um (u32 a))) = k b.
Proof using Hp.
  intros [H1 H2]. unfold get_user. rewrite H1, H2. cbn [negb]. pose proof (pg_byte _ Hp _ _ H2). by rewrite eqb_false by lia.
Qed.

Lemma readable_fun a b b' : readable um a b -> readable um a b' -> b = b'.
Proof using Type. intros [_ H] [_ H']. congruence. Qed.

Lemma string_at_cons user b s : string_at um user (b :: s) <-> b <> 0 /\ readable um user b /\ string_at um (user + 1) s.
Proof using Type.
  unfold string_at. rewrite not_elem_of_cons. split.
  - intros [[Hb Hs] H]. split_and!; [congruence|by specialize (H 0%nat b eq_refl); rewrite Z.add_0_r in H|done|].
    intros i c Hi. specialize (H (S i) c Hi). by replace (user + 1 + Z.of_nat i) with (user + Z.of_nat (S i)) by lia.
  - intros (Hb & Hr & Hs & H). split; [split; [congruence|done]|]. intros [|i] c Hi; [injection Hi as <-; by rewrite Z.add_0_r|].
    specialize (H i c Hi). by replace (user + Z.of_nat (S i)) with (user + 1 + Z.of_nat i) by lia.
Qed.

Lemma string_at_nil user : string_at um user [] <-> readable um user 0.
Proof using Type.
  unfold string_at. split.
  - intros [_ H]. specialize (H 0%nat 0 eq_refl). by rewrite Z.add_0_r in H.
  - intros H. split; [apply not_elem_of_nil|]. intros [|[|i]] b E; [injection E as <-; by rewrite Z.add_0_r|done|done].
Qed.

Lemma put_ok l i b : 0 <= i < Z.of_nat (length l) -> put l i b = Ok (<[Z.to_nat i := b]> l).
Proof using Type. intros Hi. unfold put. by rewrite leb_true, ltb_true by lia. Qed.

Lemma put_length l i b l' : put l i b = Ok l' -> length l' = length l.
Proof using Type. unfold put. case_match; [|done]. intros [= <-]. apply length_insert. Qed.

(** One round of the loop at a byte that can be read. *)
Lemma str_copy_step fuel dst user index b : readable um (user + index) b -> 0 <= index < PGSIZE -> length dst = Z.to_nat PGSIZE ->
  str_copy_loop um (S fuel) dst user index =
    if negb (b =? 0) then str_copy_loop um fuel (<[Z.to_nat index := b]> dst) user (index + 1)
    else let* dst := put (<[Z.to_nat index := b]> dst) (index + 1) 0 in xret dst.
Proof using Hp.
  intros Hr Hi Hl. cbn [str_copy_loop]. rewrite leb_false by lia.
  rewrite (checked_ok _ b (fun c => let* dst := put dst index c in
    if negb (get_user um (u32 (user + index)) =? 0) then str_copy_loop um fuel dst user (index + 1) else let* dst := put dst (index + 1) 0 in xret dst)) by done.
  rewrite put_ok by lia. cbn [rbind]. unfold get_user. by destruct Hr as [_ ->].
Qed.

Lemma str_copy_string s : forall fuel dst user index, string_at um (user + index) s -> 0 <= index ->
  index + Z.of_nat (length s) < PGSIZE -> PGSIZE - index < Z.of_nat fuel -> length dst = Z.to_nat PGSIZE ->
  str_copy_loop um fuel dst user index =
    if index + Z.of_nat (length s) =? PGSIZE - 1 then Err Fault
    else xret (overwrite (Z.to_nat index) (s ++ [0; 0]) dst).
Proof using Hp.
  induction s as [|b s IH]; intros fuel dst user index Hs Hi Hn Hf Hl; (destruct fuel as [|fuel]; [lia|]).
  - apply string_at_nil in Hs. rewrite (str_copy_step _ _ _ _ 0) by (done || (cbn in Hn; lia)). cbn [negb Z.eqb length] in *.
    destruct (Z.eqb_spec (index + Z.of_nat 0) (PGSIZE - 1)) as [E|E].
    + unfold put. rewrite length_insert, (ltb_false (index + 1)) by lia. by rewrite andb_false_r.
    + rewrite put_ok by (rewrite length_insert; lia). cbn [rbind]. unfold overwrite. cbn [app list_inserts].
      replace (Z.to_nat (index + 1)) with (S (Z.to_nat index)) by lia. by rewrite list_insert_insert_ne by lia.
  - apply string_at_cons in Hs as (Hb & Hr & Hs). cbn [length] in Hn |- *.
    rewrite (str_copy_step _ _ _ _ b) by (done || lia). rewrite (eqb_false b) by done. cbn [negb].
    rewrite <- Z.add_assoc in Hs. rewrite IH by (done || rewrite ?length_insert; lia || done).
    replace (index + 1 + Z.of_nat (length s)) with (index + Z.of_nat (S (length s))) by lia. case_match; [done|].
    unfold overwrite. cbn [app list_inserts]. replace (Z.to_nat (index + 1)) with (S (Z.to_nat index)) by lia.
    f_equal. f_equal. symmetry. apply list_insert_inserts_lt. lia.
Qed.

Lemma str_copy_no_string fuel : forall dst user index, 0 <= index <= PGSIZE ->
  (forall s, string_at um (user + index) s -> PGSIZE <= index + Z.of_nat (length s)) -> PGSIZE - index < Z.of_nat fuel ->
  length dst = Z.to_nat PGSIZE -> str_copy_loop um fuel dst user index = sys_exit (-1).
Proof using Hp.
  induction fuel as [|fuel IH]; intros dst user index Hi Hs Hf Hl; [lia|].
  destruct (Z.eqb_spec index PGSIZE) as [->|Hne]; [done|].
  destruct (checked_byte um (user + index) (fun c => let* dst := put dst index c in
    if negb (get_user um (u32 (user + index)) =? 0) then str_copy_loop um fuel dst user (index + 1) else let* dst := put dst (index + 1) 0 in xret dst) Hp)
    as [(b & Hb & _)|[_ E]]; [|cbn [str_copy_loop]; by rewrite leb_false by lia].
  rewrite (str_copy_step _ _ _ _ b) by (done || lia). destruct (Z.eqb_spec b 0) as [->|Hb0]; cbn [negb].
  - apply string_at_nil in Hb. apply Hs in Hb. cbn in Hb. lia.
  - apply IH; [lia| |lia|by rewrite length_insert]. intros s H. assert (H' : string_at um (user + index) (b :: s)) by (apply string_at_cons; by rewrite <- Z.add_assoc).
    apply Hs in H'. cbn [length] in H'. lia.
Qed.

Lemma copy_from_user_spec user n : forall index,
  (exists l, copy_from_user_loop um user n index = xret l /\ length l = n /\
     forall i b, l !! i = Some b -> readable um (user + index + Z.of_nat i) b) \/
  copy_from_user_loop um user n index = sys_exit (-1) /\
     exists i, index <= i < index + Z.of_nat n /\ forall b, ~ readable um (user + i) b.
Proof using Hp.
  induction n as [|n IH]; intros index; [left; exists []; split_and!; [done|done|by intros ?? ?]|]. cbn [copy_from_user_loop].
  destruct (checked_byte um (user + index) (fun c => let? l := copy_from_user_loop um user n (index + 1) in xret (c :: l)) Hp) as [(b & Hb & E)|[Hn E]]; rewrite E.
  - destruct (IH (index + 1)) as [(l & -> & Hl & H)|(-> & i & Hi & H)]; cbn [xbind xret].
    + left. exists (b :: l). split_and!; [done|cbn; lia|]. intros [|i] c Hc; [injection Hc as <-; by rewrite Z.add_0_r|].
      specialize (H i c Hc). by replace (user + index + Z.of_nat (S i)) with (user + (index + 1) + Z.of_nat i) by lia.
    + right. split; [done|]. exists i. split; [lia|done].
  - right. split; [done|]. exists index. split; [lia|done].
Qed.

#[export] Instance addr_ok_dec a : Decision (addr_ok um a).
Proof using Type. unfold addr_ok. solve_decision. Defined.

Lemma addr_ok_range a : addr_ok um a -> a < PHYS_BASE.
Proof using Type. intros [H _]. by apply Z.ltb_lt in H. Qed.

Lemma validate_ptr_spec a : validate_ptr um a = if decide (addr_ok um a) then xret tt else sys_exit (-1).
Proof using Hp.
  unfold validate_ptr. case_decide as H.
  - destruct H as [H1 H2]. rewrite H1. cbn [negb]. case_match eqn:E; [|done]. by apply Z.eqb_eq, get_user_spec in E.
  - destruct (is_user_vaddr a) eqn:H1; [|done]. cbn [negb]. rewrite (proj2 (Z.eqb_eq _ _)); [done|].
    apply get_user_spec; [done|]. destruct (um a) eqn:E; [|done]. exfalso. apply H. split; [done|by rewrite E].
Qed.

Lemma validate_loop_spec fuel : forall addr last, 0 <= addr -> 0 <= last < 2 ^ 32 -> last - addr <= Z.of_nat fuel * PGSIZE ->
  (validate_loop um fuel addr last = xret tt /\ forall k, 0 <= k -> addr + k * PGSIZE < last -> addr_ok um (addr + k * PGSIZE)) \/
  (validate_loop um fuel addr last = sys_exit (-1) /\ exists k, 0 <= k /\ addr + k * PGSIZE < last /\ ~ addr_ok um (addr + k * PGSIZE)).
Proof using Hp.
  induction fuel as [|fuel IH]; intros addr last Ha Hl Hf; cbn [validate_loop].
  - rewrite ltb_false by lia. left. split; [done|]. intros k Hk Hlt. change PGSIZE with 4096 in *. lia.
  - destruct (Z.ltb_spec addr last) as [Hlt|Hge]; [|left; split; [done|]; intros k Hk Hlt; change PGSIZE with 4096 in *; lia].
    rewrite validate_ptr_spec. case_decide as Hok; cbn [xbind xret sys_exit].
    + pose proof (addr_ok_range _ Hok). unfold PHYS_BASE in *. rewrite u32_small by (change PGSIZE with 4096; lia).
      destruct (IH (addr + PGSIZE) last) as [[E H']|(E & k & Hk & Hkl & H')]; [change PGSIZE with 4096; lia|done|change PGSIZE with 4096 in *; lia| |]; rewrite E.
      * left. split; [done|]. intros k Hk Hkl. destruct (decide (k = 0)) as [->|Hk0]; [by rewrite Z.add_0_r|].
        replace (addr + k * PGSIZE) with (addr + PGSIZE + (k - 1) * PGSIZE) in * by lia. apply H'; lia.
      * right. split; [done|]. exists (k + 1). replace (addr + (k + 1) * PGSIZE) with (addr + PGSIZE + k * PGSIZE) by lia. split_and!; [lia|done|done].
    + right. split; [done|]. exists 0. rewrite Z.add_0_r. split_and!; [done|done|done].
Qed.

(** All bytes of a page are alike. *)
Lemma addr_ok_page a a' : a / PGSIZE = a' / PGSIZE -> addr_ok um a -> addr_ok um a'.
Proof using Hp.
  intros E [H1 H2]. split; [|intros H; exact (H2 (pg_page _ Hp _ _ (eq_sym E) H))].
  change PGSIZE with 4096 in E. apply Z.ltb_lt in H1. apply Z.ltb_lt.
  assert (Hq : a / 4096 < 786432) by (apply Z.div_lt_upper_bound; [reflexivity|exact H1]). rewrite E in Hq.
  pose proof (Z.mul_succ_div_gt a' 4096 eq_refl) as Hs. clear E. revert Hs Hq. generalize (a' / 4096). unfold PHYS_BASE. lia.
Qed.

Lemma next_page b k i : k * 4096 <= i < (k + 1) * 4096 -> (b + i) / 4096 <> (b + k * 4096) / 4096 -> (b + i) / 4096 = (b + (k + 1) * 4096) / 4096.
Proof using Type.
  intros Hi. rewrite !Z.div_add by lia. pose proof (Z.div_le_mono (b + k * 4096) (b + i) 4096 ltac:(lia) ltac:(lia)) as H1.
  pose proof (Z.div_le_mono (b + i) (b + (k + 1) * 4096) 4096 ltac:(lia) ltac:(lia)) as H2. rewrite Z.div_add in H1, H2 by lia. lia.
Qed.

(** Checking one byte of every page length and the last byte is enough. *)
Lemma between buffer size i : (forall k, 0 <= k -> buffer + k * PGSIZE < buffer + size -> addr_ok um (buffer + k * PGSIZE)) ->
  addr_ok um (buffer + size - 1) -> 0 <= i < size -> addr_ok um (buffer + i).
Proof using Hp.
  intros H Hlast Hi. change PGSIZE with 4096 in *.
  pose proof (Z.mod_pos_bound i 4096 ltac:(lia)) as Hm. pose proof (Z.div_mod i 4096 ltac:(lia)) as Hd. set (k := i / 4096) in *. set (j := i mod 4096) in *. clearbody k j.
  destruct (decide ((buffer + i) / 4096 = (buffer + k * 4096) / 4096)) as [E|E].
  { apply (addr_ok_page (buffer + k * 4096)); [by symmetry|]. apply H; lia. }
  apply (next_page buffer k i) in E; [|lia]. destruct (Z.lt_ge_cases (buffer + (k + 1) * 4096) (buffer + size)) as [Hlt|Hge].
  - apply (addr_ok_page (buffer + (k + 1) * 4096)); [by symmetry|]. apply H; lia.
  - apply (addr_ok_page (buffer + size - 1)); [|done]. change PGSIZE with 4096. apply Z.le_antisymm; [|apply Z.div_le_mono; lia].
    rewrite E. apply Z.div_le_mono; lia.
Qed.

Lemma validate_buffer_cases buffer size : 0 <= buffer < 2 ^ 32 -> 0 <= size < 2 ^ 32 ->
  (validate_buffer um buffer size = xret tt /\ buffer_ok um buffer size) \/
  (validate_buffer um buffer size = sys_exit (-1) /\ ~ buffer_ok um buffer size).
Proof using Hp.
  intros Hb Hs. unfold validate_buffer. destruct (Z.eqb_spec size 0) as [->|Hz]; [left; split; [done|intros i; lia]|].
  destruct (Z.le_gt_cases (2 ^ 32) (buffer + size)) as [Hw|Hw].
  { rewrite ltb_true; [right; split; [done|]|].
    - intros H. destruct (decide (2 ^ 32 - 1 - buffer < 0)); [lia|]. specialize (H (2 ^ 32 - 1 - buffer) ltac:(lia)). apply addr_ok_range in H. unfold PHYS_BASE in H. lia.
    - unfold u32. rewrite <- (Z.mod_unique (buffer + size) (2 ^ 32) 1 (buffer + size - 2 ^ 32)) by lia. lia. }
  rewrite (u32_small (buffer + size)), (u32_small (buffer + size - 1)), ltb_false by lia.
  destruct (validate_loop_spec (S (Z.to_nat (size / PGSIZE))) buffer (buffer + size)) as [[-> H]|(-> & k & Hk & Hkl & H)]; [lia|lia| | |].
  - change PGSIZE with 4096. pose proof (Z.div_mod size 4096). pose proof (Z.mod_pos_bound size 4096). lia.
  - cbn [xbind xret]. rewrite validate_ptr_spec. case_decide as Hlast.
    + left. split; [done|]. intros i Hi. by apply (between buffer size).
    + right. split; [done|]. intros Hok. apply Hlast. replace (buffer + size - 1) with (buffer + (size - 1)) by lia. apply Hok. lia.
  - right. split; [done|]. intros Hok. apply H, Hok. change PGSIZE with 4096 in *. lia.
Qed.

(** Is there a string of less than a page? *)
Lemma string_search n : forall user, (exists s, string_at um user s /\ (length s < n)%nat) \/ (forall s, string_at um user s -> (n <= length s)%nat).
Proof using Type.
  induction n as [|n IH]; intros user; [right; intros; lia|].
  destruct (is_user_vaddr (u32 user)) eqn:E1; [destruct (um (u32 user)) as [b|] eqn:E2|]; [|right; intros [|c s]..].
  - destruct (decide (b = 0)) as [->|Hb]; [left; exists []; split; [by apply string_at_nil|cbn; lia]|].
    destruct (IH (user + 1)) as [(s & Hs & Hl)|H].
    + left. exists (b :: s). split; [by apply string_at_cons|cbn; lia].
    + right. intros [|c s] Hs; [apply string_at_nil in Hs|apply string_at_cons in Hs as (_ & _ & Hs)].
      * exfalso. apply Hb. by apply (readable_fun user).
      * cbn. specialize (H s Hs). lia.
  - intros [_ ?]%string_at_nil. congruence.
  - intros (_ & [_ ?] & _)%string_at_cons. congruence.
  - intros [? _]%string_at_nil. congruence.
  - intros (_ & [? _] & _)%string_at_cons. congruence.
Qed.

Lemma guarded_bind {A B} (P : A -> Prop) (Q : B -> Prop) m k :
  guarded um P m -> (forall a, P a -> guarded um Q (k a)) -> guarded um Q (xbind m k).
Proof using Type. destruct m as [[a|st]|e]; cbn; auto. Qed.

Lemma guarded_name page user : length page = Z.to_nat PGSIZE -> guarded um (name_ok um page) (str_copy_from_user um page user).
Proof using Hp.
  intros Hl. unfold str_copy_from_user. destruct (string_search (Z.to_nat PGSIZE) user) as [(s & Hs & Hn)|H].
  - change PGSIZE with 4096 in *. rewrite (str_copy_string s) by (rewrite ?Z.add_0_r; done || change PGSIZE with 4096; lia). change PGSIZE with 4096.
    destruct (Z.eqb_spec (0 + Z.of_nat (length s)) (4096 - 1)) as [E|E].
    + split; [done|]. exists user, s. split; [done|]. change PGSIZE with 4096. lia.
    + exists user, s. split_and!; [done|done|]. change PGSIZE with 4096. lia.
  - rewrite str_copy_no_string; [done|change PGSIZE with 4096; lia| |change PGSIZE with 4096; lia|done].
    intros s Hs. rewrite Z.add_0_r in Hs. apply H in Hs. change PGSIZE with 4096 in *. lia.
Qed.

Lemma guarded_copy user n : guarded um (fun l => length l = n) (copy_from_user um user n).
Proof using Hp. destruct (copy_from_user_spec user n 0) as [(l & E & Hl & _)|[E _]]; unfold copy_from_user; by rewrite E. Qed.

Lemma guarded_buffer a i size : 0 <= size < 2 ^ 32 -> guarded um (fun _ => buffer_ok um (word a i) size) (validate_buffer um (word a i) size).
Proof using Hp. intros Hs. destruct (validate_buffer_cases (word a i) size (word_range a i) Hs) as [[E H]|[E _]]; by rewrite E. Qed.

Lemma fetch_guarded page sp n : length page = Z.to_nat PGSIZE -> guarded um (request_ok um page) (fetch um page sp n).
Proof using Hp.
  intros Hl. unfold fetch.
  repeat (match goal with |- guarded _ _ (if ?b then _ else _) => destruct b end;
    [repeat (eapply guarded_bind; [first [apply guarded_copy|by apply guarded_name|apply guarded_buffer; first [apply word_range|done]]|intros ? ?]); done|]).
  done.
Qed.
End proofs.

End UserMem.
