(* ===== verification/UserCall.v ===== *)
(** System calls from the process to the kernel: the user library
    (src/src/lib/user/syscall.c) pushes the number and the arguments of a
    call on the stack, the handler (src/src/userprog/syscall.c, in
    [UserMem]) fetches and checks them.  The properties of the checks, and
    that a call arrives as it was made. *)
From S2P Require Import Prelude Words Palloc UserMem.
From stdpp Require Import options.

#[local] Open Scope Z_scope.

Module UserCall.
Import Palloc UserMem.

(** * The user library *)

(** The memory of the process and its stack pointer. *)
Definition ustate : Type := (Z -> option Z) * Z.

Definition pushl (w : Z) (s : ustate) : ustate :=
  let esp := u32 (s.2 - 4) in
  (fun a => if (esp <=? a) && (a <? esp + 4) then le32 w !! Z.to_nat (a - esp) else s.1 a, esp).

Definition syscall0 (number : Z) (s : ustate) : ustate := pushl number s.
Definition syscall1 (number arg0 : Z) (s : ustate) : ustate := pushl number (pushl arg0 s).
Definition syscall2 (number arg0 arg1 : Z) (s : ustate) : ustate := pushl number (pushl arg0 (pushl arg1 s)).
Definition syscall3 (number arg0 arg1 arg2 : Z) (s : ustate) : ustate :=
  pushl number (pushl arg0 (pushl arg1 (pushl arg2 s))).

(** The return value of a call and [errno], from the register. *)
Definition retval (eax errno : Z) : Z * Z :=
  if s32 eax <? 0 then (-1, s32 (- s32 eax)) else (s32 eax, errno).

(** The functions of the library. *)
Inductive ucall :=
| halt | exit (status : Z) | exec (file : Z) | wait (pid : Z) | create (file initial_size : Z) | remove (file : Z) | open (file : Z)
| filesize (fd : Z) | read (fd buffer size : Z) | write (fd buffer size : Z) | seek (fd position : Z) | tell (fd : Z) | close (fd : Z)
| mmap (fd addr : Z) | munmap (mapid : Z) | chdir (dir : Z) | mkdir (dir : Z) | readdir (fd name : Z) | isdir (fd : Z) | inumber (fd : Z)
| fork | dup2 (old_fd new_fd : Z) | pipe (pipefd : Z) | exec2 (file : Z) | sbrk (increment : Z) | times | sleep (ticks : Z).

(** What each has on the stack when it enters the kernel. *)
Definition enter (c : ucall) : ustate -> ustate :=
  match c with
  | halt => syscall0 0
  | exit status => syscall1 1 (u32 status)
  | exec file => syscall1 2 file
  | wait pid => syscall1 3 (u32 pid)
  | create file initial_size => syscall2 4 file initial_size
  | remove file => syscall1 5 file
  | open file => syscall1 6 file
  | filesize fd => syscall1 7 (u32 fd)
  | read fd buffer size => syscall3 8 (u32 fd) buffer size
  | write fd buffer size => syscall3 9 (u32 fd) buffer size
  | seek fd position => syscall2 10 (u32 fd) position
  | tell fd => syscall1 11 (u32 fd)
  | close fd => syscall1 12 (u32 fd)
  | mmap fd addr => syscall2 13 (u32 fd) addr
  | munmap mapid => syscall1 14 (u32 mapid)
  | chdir dir => syscall1 15 dir
  | mkdir dir => syscall1 16 dir
  | readdir fd name => syscall2 17 (u32 fd) name
  | isdir fd => syscall1 18 (u32 fd)
  | inumber fd => syscall1 19 (u32 fd)
  | fork => syscall0 20
  | dup2 old_fd new_fd => syscall2 21 (u32 old_fd) (u32 new_fd)
  | pipe pipefd => syscall1 22 pipefd
  | exec2 file => syscall1 23 file
  | sbrk increment => syscall1 24 (u32 increment)
  | times => syscall0 25
  | sleep ticks => syscall1 26 (u32 ticks)
  end.

(** * What a call means *)

(** The request that the call is, given the page that a name is copied
    to. *)
Definition meant (str : Z -> list Z) (c : ucall) : request :=
  match c with
  | halt => RHalt | exit st => RExit st | exec f => RExec (str f) | wait pid => RWait (u32 pid)
  | create f n => RCreate (str f) n | remove f => RRemove (str f) | open f => ROpen (str f) | filesize fd => RFilesize fd
  | read fd b n => RRead fd b n | write fd b n => RWrite fd b n | seek fd p => RSeek fd p | tell fd => RTell fd | close fd => RClose fd
  | mmap _ _ => RNothing | munmap _ => RNothing
  | chdir d => RChdir (str d) | mkdir d => RMkdir (str d) | readdir fd b => RReaddir fd b | isdir fd => RIsdir fd | inumber fd => RInumber fd
  | fork => RFork | dup2 a b => RDup2 a b | pipe p => RPipe p | exec2 f => RExec2 (str f) | sbrk i => RSbrk i
  | times => RTimes | sleep t => RSleep t
  end.

Definition is_word (w : Z) : bool := (0 <=? w) && (w <? 2 ^ 32).
Definition is_int (w : Z) : bool := (- 2 ^ 31 <=? w) && (w <? 2 ^ 31).

(** The arguments have their types; the ticks of [sleep], 64 bits in the
    library, are an [int] in the kernel. *)
Definition typed (c : ucall) : bool :=
  match c with
  | halt | fork | times => true
  | exit n | wait n | filesize n | tell n | close n | munmap n | isdir n | inumber n | sbrk n | sleep n => is_int n
  | exec p | remove p | open p | chdir p | mkdir p | pipe p | exec2 p => is_word p
  | create p n => is_word p && is_word n
  | read fd p n | write fd p n => is_int fd && is_word p && is_word n
  | seek fd p | mmap fd p | readdir fd p => is_int fd && is_word p
  | dup2 a b => is_int a && is_int b
  end.

(** Its pointers are to strings and buffers of the process. *)
Definition honest (um : Z -> option Z) (page : list Z) (str : Z -> list Z) (c : ucall) : Prop :=
  match c with
  | exec p | create p _ | remove p | open p | chdir p | mkdir p | exec2 p =>
      exists s, string_at um p s /\ str p = overwrite 0 (s ++ [0; 0]) page /\ Z.of_nat (length s) < PGSIZE - 1
  | read _ b n | write _ b n => buffer_ok um b n
  | readdir _ b => buffer_ok um b (READDIR_MAX_LEN + 1)
  | pipe b => buffer_ok um b 8
  | _ => True
  end.

(** * The stack *)

Definition pushes (ws : list Z) (s : ustate) : ustate := foldr pushl s ws.

Lemma words_bytes_sub n i ws j : (j < 4 * n)%nat -> words_bytes (take n (drop i ws)) !! j = words_bytes ws !! (4 * i + j)%nat.
Proof.
  intros Hj. pose proof (Nat.div_mod_eq j 4) as E. pose proof (Nat.mod_upper_bound j 4 ltac:(lia)) as Hm. set (q := (j / 4)%nat) in *. set (r := (j mod 4)%nat) in *. clearbody q r.
  rewrite E. replace (4 * i + (4 * q + r))%nat with (4 * (i + q) + r)%nat by lia.
  destruct (ws !! (i + q)%nat) as [w|] eqn:Ew.
  - rewrite (lookup_words_bytes ws _ w) by done. rewrite (lookup_words_bytes _ _ w); [done| |done]. by rewrite lookup_take_lt, lookup_drop by lia.
  - apply lookup_ge_None in Ew. rewrite !(proj2 (lookup_ge_None _ _)); [done|..]; rewrite length_words_bytes, ?length_take, ?length_drop; lia.
Qed.

Lemma word_words_bytes ws i w : ws !! i = Some w -> 0 <= w < 2 ^ 32 -> word (words_bytes ws) i = w.
Proof.
  intros Hi Hw. unfold word, byte_at. pose proof (lookup_words_bytes ws i w) as H.
  rewrite <- (Nat.add_0_r (4 * i)) at 1. rewrite !nth_lookup, !H by (done || lia). cbn. unfold u8. rewrite !Z.mod_mod by lia. by apply le32_combine.
Qed.

Section stack.
Context (um : Z -> option Z) (esp : Z).

Lemma pushes_spec ws : 0 <= esp - 4 * Z.of_nat (length ws) -> esp < 2 ^ 32 ->
  (pushes ws (um, esp)).2 = esp - 4 * Z.of_nat (length ws) /\
  forall a, (pushes ws (um, esp)).1 a =
    if decide (esp - 4 * Z.of_nat (length ws) <= a < esp) then words_bytes ws !! Z.to_nat (a - (esp - 4 * Z.of_nat (length ws))) else um a.
Proof using Type.
  induction ws as [|w ws IH]; intros H0 H1; cbn [length] in *.
  - split; [cbn; lia|]. intros a. rewrite decide_False by lia. done.
  - change (pushes (w :: ws) (um, esp)) with (pushl w (pushes ws (um, esp))).
    destruct IH as [E1 E2]; [lia|done|]. destruct (pushes ws (um, esp)) as [um1 sp1]. cbn [fst snd] in E1, E2. unfold pushl. cbn [fst snd]. subst sp1.
    rewrite u32_small by lia. split; [lia|]. intros a. rewrite E2. unfold words_bytes. cbn [map concat].
    set (sp := esp - 4 * Z.of_nat (length ws)) in *. replace (esp - 4 * Z.of_nat (S (length ws))) with (sp - 4) by lia.
    destruct (decide (sp - 4 <= a < sp)) as [H|H].
    + rewrite leb_true, ltb_true by lia. cbn [andb]. rewrite decide_True by lia.
      by rewrite lookup_app_l by (cbn [length le32]; lia).
    + assert (Hb : (sp - 4 <=? a) && (a <? sp - 4 + 4) = false) by lia. rewrite Hb. case_decide as Ha.
      * rewrite decide_True by lia. rewrite lookup_app_r by (cbn [length le32]; lia). f_equal. cbn [length le32]. lia.
      * by rewrite decide_False by lia.
Qed.

(** The calls have at most four words on the stack, which has room. *)
Context (Hp : paged um) (Hesp : 16 <= esp <= PHYS_BASE) (Hroom : buffer_ok um (esp - 16) 16).

Section words.
Context (ws : list Z) (Hlen : (length ws <= 4)%nat) (Hws : Forall (fun w => 0 <= w < 2 ^ 32) ws).
Abbreviation um' := ((pushes ws (um, esp)).1).
Abbreviation sp := (esp - 4 * Z.of_nat (length ws)).

Lemma pushed a : um' a = if decide (sp <= a < esp) then words_bytes ws !! Z.to_nat (a - sp) else um a.
Proof using Hesp Hlen. apply pushes_spec; unfold PHYS_BASE in *; lia. Qed.

Lemma pushes_sp : (pushes ws (um, esp)).2 = sp.
Proof using Hesp Hlen. apply pushes_spec; unfold PHYS_BASE in *; lia. Qed.

Lemma pushed_some a : sp <= a < esp -> is_Some (um' a).
Proof using Hesp Hlen. intros Ha. rewrite pushed, decide_True by done. apply lookup_lt_is_Some. rewrite length_words_bytes. lia. Qed.

Lemma pushed_paged : paged um'.
Proof using All.
  constructor.
  - intros a b. rewrite pushed. case_decide; [|by apply (pg_byte _ Hp)]. intros H1.
    assert (Hb : Forall (fun b => 0 <= b < 2 ^ 8) (words_bytes ws)).
    { unfold words_bytes. apply Forall_concat, Forall_map. eapply Forall_impl; [exact Hws|]. intros w _. apply le32_range. }
    by eapply Forall_lookup_1 in Hb.
  - intros a a' E Ha. assert (Hna : um a = None).
    { revert Ha. rewrite pushed. case_decide; [|done]. rewrite lookup_ge_None, length_words_bytes. lia. }
    apply (pg_page _ Hp _ _ E) in Hna. rewrite pushed, decide_False; [done|]. intros Hin.
    destruct (Hroom (a' - (esp - 16))) as [_ H]; [lia|]. by replace (esp - 16 + (a' - (esp - 16))) with a' in H by lia.
Qed.

(** The handler reads the words back. *)
Lemma fetched i n : (i + n <= length ws)%nat ->
  copy_from_user um' (sp + 4 * Z.of_nat i) (4 * n) = xret (words_bytes (take n (drop i ws))).
Proof using All.
  intros Hin. assert (Hread : forall j b, (j < 4 * n)%nat -> words_bytes ws !! (4 * i + j)%nat = Some b -> readable um' (sp + 4 * Z.of_nat i + 0 + Z.of_nat j) b).
  { intros j b Hj Hb. unfold PHYS_BASE in *. split; rewrite u32_small by lia.
    - unfold is_user_vaddr, PHYS_BASE. apply Z.ltb_lt. lia.
    - rewrite pushed, decide_True by lia. by replace (Z.to_nat (sp + 4 * Z.of_nat i + 0 + Z.of_nat j - sp)) with (4 * i + j)%nat by lia. }
  assert (Hsub : forall j, (j < 4 * n)%nat -> words_bytes (take n (drop i ws)) !! j = words_bytes ws !! (4 * i + j)%nat) by apply words_bytes_sub.
  destruct (copy_from_user_spec um' pushed_paged (sp + 4 * Z.of_nat i) (4 * n) 0) as [(l & E & Hl & H)|(E & j & Hj & H)]; unfold copy_from_user; rewrite E.
  - f_equal. f_equal. apply list_eq_same_length with (4 * n)%nat; [rewrite length_words_bytes, length_take, length_drop; lia|done|].
    intros j x y Hj Hx Hy. rewrite Hsub in Hy by done. apply (readable_fun um' (sp + 4 * Z.of_nat i + 0 + Z.of_nat j)); auto.
  - exfalso. destruct (lookup_lt_is_Some_2 (words_bytes ws) (4 * i + Z.to_nat j)) as [b Hb]; [rewrite length_words_bytes; lia|].
    apply (H b). apply (Hread (Z.to_nat j)) in Hb; [|lia]. by replace (sp + 4 * Z.of_nat i + j) with (sp + 4 * Z.of_nat i + 0 + Z.of_nat (Z.to_nat j)) by lia.
Qed.
End words.

Lemma entered n args page : (length args <= 3)%nat -> 0 <= n < 2 ^ 31 -> Forall (fun w => 0 <= w < 2 ^ 32) args ->
  let s := pushes (n :: args) (um, esp) in
  syscall_request s.1 (Some page) s.2 = fetch s.1 page (s.2 + 4) n /\
  copy_from_user s.1 (s.2 + 4) (WORD_SIZE * length args) = xret (words_bytes args) /\ paged s.1.
Proof using All.
  intros Hl Hn Hargs. assert (Hws : Forall (fun w => 0 <= w < 2 ^ 32) (n :: args)) by (constructor; [lia|done]).
  assert (Hl4 : (length (n :: args) <= 4)%nat) by (cbn; lia).
  pose proof (fetched (n :: args) Hl4 Hws 0 1 ltac:(cbn; lia)) as E0. pose proof (fetched (n :: args) Hl4 Hws 1 (length args) ltac:(cbn; lia)) as E1.
  rewrite Z.add_0_r in E0. rewrite skipn_cons, drop_0, take_ge in E1 by lia. rewrite Z.mul_1_r in E1.
  split_and!; [|by rewrite pushes_sp|by apply pushed_paged]. rewrite pushes_sp by done. unfold syscall_request. change (4 * 1)%nat with WORD_SIZE in E0. change (take 1 (drop 0 (n :: args))) with [n] in E0. rewrite E0. cbn [xbind xret].
  unfold PHYS_BASE in *. cbn [length] in Hl4. change (Z.of_nat WORD_SIZE) with 4. rewrite u32_small by (cbn [length]; lia). f_equal. unfold int_arg.
  rewrite (word_words_bytes [n] 0 n) by (done || lia). apply s32_small. lia.
Qed.
End stack.

Lemma int_word x : is_int x = true -> s32 (u32 x) = x.
Proof. unfold is_int, s32, u32. intros H. rewrite Z.add_mod_idemp_l by lia. rewrite Z.mod_small; lia. Qed.

Lemma is_word_spec w : is_word w = true -> 0 <= w < 2 ^ 32.
Proof. unfold is_word. lia. Qed.

Lemma name_copied um page p s : paged um -> length page = Z.to_nat PGSIZE -> string_at um p s -> Z.of_nat (length s) < PGSIZE - 1 ->
  str_copy_from_user um page p = xret (overwrite 0 (s ++ [0; 0]) page).
Proof.
  intros Hp Hl Hs Hn. change PGSIZE with 4096 in *. unfold str_copy_from_user.
  rewrite (str_copy_string um Hp s) by (rewrite ?Z.add_0_r; done || change PGSIZE with 4096; lia). change PGSIZE with 4096. by rewrite eqb_false by lia.
Qed.

Lemma buffer_passed um b n : paged um -> 0 <= b < 2 ^ 32 -> 0 <= n < 2 ^ 32 -> buffer_ok um b n -> validate_buffer um b n = xret tt.
Proof. intros Hp Hb Hn Hok. by destruct (validate_buffer_cases um Hp b n Hb Hn) as [[E _]|[_ H]]. Qed.

(** The number and the arguments of a call. *)
Definition frame (c : ucall) : Z * list Z :=
  match c with
  | halt => (0, []) | exit n => (1, [u32 n]) | exec p => (2, [p]) | wait n => (3, [u32 n]) | create p n => (4, [p; n])
  | remove p => (5, [p]) | open p => (6, [p]) | filesize n => (7, [u32 n]) | read fd p n => (8, [u32 fd; p; n])
  | write fd p n => (9, [u32 fd; p; n]) | seek fd p => (10, [u32 fd; p]) | tell n => (11, [u32 n]) | close n => (12, [u32 n])
  | mmap fd p => (13, [u32 fd; p]) | munmap n => (14, [u32 n]) | chdir p => (15, [p]) | mkdir p => (16, [p])
  | readdir fd p => (17, [u32 fd; p]) | isdir n => (18, [u32 n]) | inumber n => (19, [u32 n]) | fork => (20, [])
  | dup2 a b => (21, [u32 a; u32 b]) | pipe p => (22, [p]) | exec2 p => (23, [p]) | sbrk n => (24, [u32 n]) | times => (25, [])
  | sleep n => (26, [u32 n])
  end.

Lemma enter_frame c s : enter c s = pushes ((frame c).1 :: (frame c).2) s.
Proof. by destruct c. Qed.

Lemma frame_ok c : typed c = true -> (length (frame c).2 <= 3)%nat /\ 0 <= (frame c).1 < 2 ^ 31 /\ Forall (fun w => 0 <= w < 2 ^ 32) (frame c).2.
Proof.
  intros H. destruct c; cbn [typed] in H; cbn [frame fst snd length]; split_and!; try lia;
    rewrite ?andb_true_iff in H; destruct_and?; repeat first [apply Forall_nil_2|apply Forall_cons_2]; first [apply u32_range|by apply is_word_spec].
Qed.

Lemma fetch_frame um page str c sp : paged um -> length page = Z.to_nat PGSIZE -> typed c = true -> honest um page str c ->
  copy_from_user um sp (WORD_SIZE * length (frame c).2) = xret (words_bytes (frame c).2) ->
  fetch um page sp (frame c).1 = xret (meant str c).
Proof.
  intros Hp Hl Ht Hh E. pose proof (frame_ok c Ht) as (_ & _ & Hw).
  assert (Hword : forall i w, (frame c).2 !! i = Some w -> word (words_bytes (frame c).2) i = w).
  { intros i w Hi. apply word_words_bytes; [done|]. by eapply Forall_lookup_1 in Hw. }
  pose proof (Hword 0%nat) as W0. pose proof (Hword 1%nat) as W1. pose proof (Hword 2%nat) as W2. clear Hword.
  destruct c; cbn [frame fst snd length] in *; unfold fetch; cbn [Z.eqb Pos.eqb]; rewrite ?E; cbn [xbind xret typed honest] in *;
    unfold int_arg; rewrite ?(W0 _ eq_refl), ?(W1 _ eq_refl), ?(W2 _ eq_refl).
  all: rewrite ?andb_true_iff in Ht; destruct_and?; rewrite ?int_word by done; try done.
  all: repeat match goal with H : is_word _ = true |- _ => apply is_word_spec in H end.
  all: first [destruct Hh as (s & Hs & Es & Hn); rewrite (name_copied um page _ s) by done; cbn [meant]; by rewrite Es|by rewrite buffer_passed].
Qed.

(** C26: A system call arrives as the process made it: whenever the stack of
    the process has room for the arguments, the handler, reading what the
    library has pushed, finds the request that the function of the library
    stands for, with all its arguments; [mmap] and [munmap] are ignored. *)
Theorem syscall_arrives um esp page str c :
  paged um -> 16 <= esp <= PHYS_BASE -> buffer_ok um (esp - 16) 16 -> length page = Z.to_nat PGSIZE ->
  typed c = true -> honest (enter c (um, esp)).1 page str c ->
  syscall_request (enter c (um, esp)).1 (Some page) (enter c (um, esp)).2 = Ok (Return (meant str c)).
Proof.
  intros Hp He Hr Hl Ht Hh. destruct (frame_ok c Ht) as (Hn & H1 & H2). rewrite enter_frame in *.
  destruct (entered um esp Hp He Hr _ _ page Hn H1 H2) as (E1 & E2 & Hp'). rewrite E1. by apply fetch_frame.
Qed.

(** C29: [str_copy_from_user] copies a string of the process that leaves a
    byte of the page free, terminates the process when there is no string
    of less than a page at the address, or the string runs into memory that
    is not the process's, and always returns; but for a string of 4095
    characters it stores its final null byte after the end of the page. *)
Theorem str_copy_from_user_exact um page user : paged um -> length page = Z.to_nat PGSIZE ->
  (forall s, string_at um user s -> Z.of_nat (length s) < PGSIZE - 1 ->
    str_copy_from_user um page user = Ok (Return (overwrite 0 (s ++ [0; 0]) page))) /\
  (forall s, string_at um user s -> Z.of_nat (length s) = PGSIZE - 1 -> str_copy_from_user um page user = Err Fault) /\
  ((forall s, string_at um user s -> PGSIZE <= Z.of_nat (length s)) -> str_copy_from_user um page user = Ok (Exited (-1))).
Proof.
  intros Hp Hl. split_and!.
  - intros s Hs Hn. by apply name_copied.
  - intros s Hs Hn. change PGSIZE with 4096 in *. unfold str_copy_from_user.
    rewrite (str_copy_string um Hp s) by (rewrite ?Z.add_0_r; done || change PGSIZE with 4096; lia). change PGSIZE with 4096. by rewrite eqb_true by lia.
  - intros H. apply (str_copy_no_string um Hp); [change PGSIZE with 4096; lia| |change PGSIZE with 4096; lia|done].
    intros s Hs. rewrite Z.add_0_r in Hs. apply H in Hs. lia.
Qed.

(** C27: [validate_buffer], which reads one byte of each page length and the
    last one, lets a buffer pass exactly when every byte of it is mapped
    memory of the process, and terminates the process otherwise: also for a
    buffer that wraps around the end of memory. *)
Theorem validate_buffer_exact um buffer size : paged um -> 0 <= buffer < 2 ^ 32 -> 0 <= size < 2 ^ 32 ->
  (validate_buffer um buffer size = Ok (Return tt) <-> buffer_ok um buffer size) /\
  (validate_buffer um buffer size = Ok (Exited (-1)) <-> ~ buffer_ok um buffer size).
Proof.
  intros Hp Hb Hs. destruct (validate_buffer_cases um Hp buffer size Hb Hs) as [[E H]|[E H]]; rewrite E; split; split; done || (intros; by exfalso).
Qed.

(** C25: The handler checks everything: whatever the stack pointer, the stack
    and the arguments of a system call are, the process is terminated with
    -1 or the names and buffers of the request are strings and memory of
    the process itself; the only store outside of the kernel's page is that
    for a string of 4095 characters. *)
Theorem syscall_request_safe um page esp : paged um -> length page = Z.to_nat PGSIZE ->
  guarded um (request_ok um page) (syscall_request um (Some page) esp).
Proof.
  intros Hp Hl. unfold syscall_request. eapply guarded_bind; [by apply guarded_copy|]. intros n _. by apply fetch_guarded.
Qed.

(** * Example: a process with one page of data and one page of stack *)

Definition demo_data : Z := 134512640.

Definition demo_um (a : Z) : option Z :=
  if a / 4096 =? 32840 then Some (if a =? 134512640 + 4095 then 0 else 97) else
  if a / 4096 =? 786431 then Some 1 else None.

Definition demo_page : list Z := replicate (Z.to_nat 4096) 0.

Lemma demo_paged : paged demo_um.
Proof.
  constructor.
  - intros a b. unfold demo_um. repeat case_match; intros [= <-]; lia.
  - intros a a' E. change PGSIZE with 4096 in E. unfold demo_um. rewrite E. by repeat case_match.
Qed.

Lemma demo_byte i : 0 <= i <= 4095 -> readable demo_um (demo_data + i) (if i =? 4095 then 0 else 97).
Proof.
  intros Hi. unfold demo_data. split; rewrite u32_small by lia; [unfold is_user_vaddr, PHYS_BASE; apply Z.ltb_lt; lia|].
  unfold demo_um. rewrite (eqb_true (_ / 4096)).
  - f_equal. destruct (Z.eqb_spec i 4095); [by rewrite eqb_true by lia|by rewrite eqb_false by lia].
  - symmetry. apply (Z.div_unique _ _ _ i); lia.
Qed.

Lemma demo_string n : (n <= 4095)%nat -> string_at demo_um (demo_data + (4095 - Z.of_nat n)) (replicate n 97).
Proof.
  induction n as [|n IH]; intros Hn.
  - apply string_at_nil. rewrite Z.sub_0_r. by apply (demo_byte 4095).
  - cbn [replicate]. apply string_at_cons. split_and!; [done| |].
    + pose proof (demo_byte (4095 - Z.of_nat (S n)) ltac:(lia)) as H. by rewrite eqb_false in H by lia.
    + replace (demo_data + (4095 - Z.of_nat (S n)) + 1) with (demo_data + (4095 - Z.of_nat n)) by lia. apply IH. lia.
Qed.

Lemma demo_nothing s : ~ string_at demo_um 0 s.
Proof. destruct s; [intros [_ H]%string_at_nil|intros (_ & [_ H] & _)%string_at_cons]; done. Qed.

Lemma str_copy_from_user_exact_witness :
  str_copy_from_user demo_um demo_page (demo_data + 4093) = Ok (Return (overwrite 0 [97; 97; 0; 0] demo_page)) /\
  str_copy_from_user demo_um demo_page demo_data = Err Fault /\
  str_copy_from_user demo_um demo_page 0 = Ok (Exited (-1)).
Proof.
  split_and!.
  - destruct (str_copy_from_user_exact demo_um demo_page (demo_data + 4093) demo_paged (length_replicate _ _)) as (H & _ & _).
    apply (H [97; 97] (demo_string 2 ltac:(lia))). reflexivity.
  - destruct (str_copy_from_user_exact demo_um demo_page demo_data demo_paged (length_replicate _ _)) as (_ & H & _).
    apply (H (replicate (Z.to_nat 4095) 97)); [apply (demo_string (Z.to_nat 4095)); lia|]. rewrite length_replicate. reflexivity.
  - destruct (str_copy_from_user_exact demo_um demo_page 0 demo_paged (length_replicate _ _)) as (_ & _ & H).
    apply H. intros s Hs. by apply demo_nothing in Hs.
Defined.

Lemma demo_addr a : a / 4096 = 32840 \/ a / 4096 = 786431 -> addr_ok demo_um a.
Proof.
  intros H. assert (Hu : a < PHYS_BASE).
  { pose proof (Z.mul_succ_div_gt a 4096 eq_refl). unfold PHYS_BASE. destruct H as [E|E]; rewrite E in *; lia. }
  split; [by apply Z.ltb_lt|]. unfold demo_um. destruct H as [-> | ->]; done.
Qed.

Lemma demo_buffer : buffer_ok demo_um demo_data 4096.
Proof. intros i Hi. apply demo_addr. left. unfold demo_data. symmetry. apply (Z.div_unique _ _ _ i); lia. Qed.

Lemma demo_stack : buffer_ok demo_um (PHYS_BASE - 16) 16.
Proof. intros i Hi. apply demo_addr. right. unfold PHYS_BASE. symmetry. apply (Z.div_unique _ _ _ (4080 + i)); lia. Qed.

Lemma validate_buffer_exact_witness :
  validate_buffer demo_um demo_data 4096 = Ok (Return tt) /\
  validate_buffer demo_um demo_data 4097 = Ok (Exited (-1)) /\ ~ buffer_ok demo_um demo_data 4097.
Proof.
  split_and!.
  - by apply (validate_buffer_exact demo_um demo_data 4096 demo_paged), demo_buffer.
  - by apply (validate_buffer_exact demo_um demo_data 4097 demo_paged); [..|intros H; destruct (H 4096) as [_ H']; [lia|apply H'; vm_compute]].
  - intros H. destruct (H 4096) as [_ H']; [lia|apply H'; reflexivity].
Defined.

Lemma syscall_request_safe_witness :
  guarded demo_um (request_ok demo_um demo_page) (syscall_request demo_um (Some demo_page) (PHYS_BASE - 8)).
Proof. apply (syscall_request_safe demo_um demo_page (PHYS_BASE - 8) demo_paged). apply length_replicate. Defined.

(** [write (1, demo_data, 4096)] *)
Lemma syscall_arrives_witness :
  let s := enter (write 1 demo_data 4096) (demo_um, PHYS_BASE) in
  syscall_request s.1 (Some demo_page) s.2 = Ok (Return (RWrite 1 demo_data 4096)).
Proof.
  apply (syscall_arrives demo_um PHYS_BASE demo_page (fun _ => []) (write 1 demo_data 4096) demo_paged); [done|apply demo_stack|apply length_replicate|done|].
  cbn [honest]. intros i Hi. destruct (demo_buffer i Hi) as [H1 H2]. split; [done|]. rewrite enter_frame, (pushed demo_um PHYS_BASE); [|done..].
  rewrite decide_False; [done|]. unfold PHYS_BASE, demo_data. cbn [frame fst snd length]. lia.
Defined.

End UserCall.
