(* ===== verification/Args.v ===== *)
(** The arguments of a program on its stack ([setup_args] in
    src/src/userprog/process.c): the command line is split into words, and
    the words, pointers to them, their number and a return address are
    stored on the page of the stack of a new process. *)
From S2P Require Import Prelude Words CString Palloc Malloc MallocProps.
From stdpp Require Import options.

#[local] Open Scope Z_scope.

Module Args.
Import Palloc.

(** * The page of the stack *)

Definition STACK : Z := PHYS_BASE - PGSIZE.

(** A store of the kernel at an address of the stack; a fault outside of
    the page. *)
Definition poke (st : list Z) (a : Z) (l : list Z) : res (list Z) :=
  match copy_in st (a - STACK) l with Some st => Ok st | None => Err Fault end.

(** * The kernel's memory: the command line, its copy and the string " " *)

Definition line_addr (cmd : list Z) : nat := length cmd + 2.
Definition space_addr (cmd : list Z) : nat := length cmd + 2 + (length cmd + 1).
Definition line_memory (cmd : list Z) : CString.memory := [0] ++ cmd ++ [0].
Definition args_memory (cmd block : list Z) : CString.memory := line_memory cmd ++ block ++ [32; 0].

(** The loop over the words; [argv] has room for [room] pointers. *)
Fixpoint argv_loop (fuel : nat) (m : CString.memory) (s delim save_ptr : nat) (room : nat) : res (list nat * CString.memory) :=
  match fuel with
  | O => Err Block
  | S fuel =>
      let* (token, m, save_ptr) := CString.strtok_r m s delim save_ptr in
      if CString.nonnull token then
        match room with
        | O => Err Fault
        | S room =>
            let* (l, m) := argv_loop fuel m CString.NULL delim save_ptr room in
            Ok (token :: l, m)
        end
      else Ok ([], m)
  end.

Definition bytes (m : CString.memory) (p n : nat) : res (list Z) :=
  if (p + n <=? length m)%nat then Ok (take n (drop p m)) else Err Fault.

(** [strlcpy] from the kernel's memory to the stack *)
Definition strlcpy_stack (m : CString.memory) (st : list Z) (dst : Z) (src size : nat) : res (list Z) :=
  let* src_len := CString.strlen m src in
  if (0 <? size)%nat then
    let dst_len := (size - 1)%nat in
    let dst_len := if (src_len <? dst_len)%nat then src_len else dst_len in
    let* l := bytes m src dst_len in
    let* st := poke st dst l in
    poke st (dst + Z.of_nat dst_len) [0]
  else Ok st.

(** [argv[pos - 1]] first *)
Fixpoint push_strings (m : CString.memory) (argv : list nat) (st : list Z) (esp offset : Z) : res (list Z * list Z * Z * Z) :=
  match argv with
  | [] => Ok (st, [], esp, offset)
  | arg :: argv =>
      let* (st, pointers, esp, offset) := push_strings m argv st esp offset in
      let* n := CString.strlen m arg in
      let len := (n + 1)%nat in
      let esp := esp - Z.of_nat len in
      let* st := strlcpy_stack m st esp arg len in
      Ok (st, esp :: pointers, esp, offset + Z.of_nat len)
  end.

Fixpoint push_pointers (pointers : list Z) (st : list Z) (esp offset : Z) : res (list Z * Z * Z) :=
  match pointers with
  | [] => Ok (st, esp, offset)
  | p :: pointers =>
      let* (st, esp, offset) := push_pointers pointers st esp offset in
      let* st := poke st (esp - 4) (le32 p) in
      Ok (st, esp - 4, offset + 4)
  end.

Section setup_args.
(** What the blocks of [malloc] hold, and how many bytes the blocks of
    [calloc] have. *)
Context (malloc : Z -> option (list Z)) (calloc : Z -> Z -> option Z).

(** The result, the page and the new stack pointer. *)
Definition setup_args (cmd_line : list Z) (st : list Z) (esp : Z) : res (Z * list Z * Z) :=
  let* n := CString.strlen (line_memory cmd_line) 1 in
  let size := (n + 1)%nat in
  match malloc (Z.of_nat size) with
  | None => Ok (-1, st, esp)
  | Some line_copy =>
      let m := args_memory cmd_line line_copy in
      let* (m, _) := CString.strlcpy m (line_addr cmd_line) 1 size in
      match calloc (Z.of_nat size) 1 with
      | None => Ok (-1, st, esp)
      | Some argv_size =>
          let* (argv, m) := argv_loop (S size) m (line_addr cmd_line) (space_addr cmd_line) CString.NULL (Z.to_nat (argv_size / 4)) in
          let pos := Z.of_nat (length argv) in
          if PGSIZE <? Z.of_nat size + Z.of_nat size mod 4 + (pos + 1) * 4 + 4 * 3 then Ok (-1, st, esp)
          else
            let* (st, pointers, esp, offset) := push_strings m argv st esp 0 in
            let pad := 4 - offset mod 4 in
            let esp := esp - pad in
            let* st := poke st esp (replicate (Z.to_nat pad) 0) in
            let offset := offset + pad in
            let* st := poke st (esp - 4) (le32 0) in
            let esp := esp - 4 in
            let offset := offset + 4 in
            let* (st, esp, offset) := push_pointers pointers st esp offset in
            let* st := poke st (esp - 4) (le32 esp) in
            let* st := poke st (esp - 8) (le32 pos) in
            Ok (offset + 12, st, esp - 12)
      end
  end.
End setup_args.

(** * What a program finds *)

Definition peek (st : list Z) (a n : Z) : option (list Z) := slice st (a - STACK) n.

(** The stack of [_start (argc, argv)] with the arguments [args]: above
    the return address are [argc] and [argv]. *)
Record started (st : list Z) (esp : Z) (args : list (list Z)) : Prop := mkStarted {
  sa_align : esp mod 4 = 0;
  sa_argc : peek st (esp + 4) 4 = Some (le32 (Z.of_nat (length args)));
  sa_argv : peek st (esp + 8) 4 = Some (le32 (esp + 12));
  sa_arg : forall i arg, args !! i = Some arg -> exists p,
    peek st (esp + 12 + 4 * Z.of_nat i) 4 = Some (le32 p) /\ peek st p (Z.of_nat (length arg) + 1) = Some (arg ++ [0]);
  sa_null : peek st (esp + 12 + 4 * Z.of_nat (length args)) 4 = Some (le32 0) }.

(** * Proofs *)

(** The page [st] with [frame] at its end. *)
Definition image (st frame : list Z) : list Z := take (Z.to_nat PGSIZE - length frame) st ++ frame.

Lemma poke_ok st a l : length st = Z.to_nat PGSIZE -> STACK <= a -> a + Z.of_nat (length l) <= PHYS_BASE ->
  poke st a l = Ok (overwrite (Z.to_nat (a - STACK)) l st).
Proof. intros Hl H1 H2. unfold poke, copy_in. unfold STACK in *. by rewrite leb_true, leb_true by lia. Qed.

Lemma overwrite_app i l1 l2 (d : list Z) : (i + length (l1 ++ l2) <= length d)%nat ->
  overwrite (i + length l1) l2 (overwrite i l1 d) = overwrite i (l1 ++ l2) d.
Proof.
  intros Hl. rewrite length_app in Hl. apply list_eq. intros k. rewrite lookup_overwrite by (rewrite length_overwrite; lia). rewrite !lookup_overwrite by (rewrite ?length_app; lia).
  rewrite length_app. repeat case_decide; try lia; try done.
  - rewrite lookup_app_r by lia. f_equal. lia.
  - by rewrite lookup_app_l by lia.
Qed.

Lemma bytes_cstr m p s : CString.cstr m p s -> bytes m p (length s) = Ok s.
Proof.
  intros Hs. pose proof (CString.cstr_lt _ _ _ Hs). unfold bytes. rewrite (proj2 (Nat.leb_le _ _)) by lia. f_equal. apply list_eq. intros i.
  destruct (decide (i < length s)%nat) as [Hi|Hi].
  - rewrite lookup_take_lt, lookup_drop by done. destruct (lookup_lt_is_Some_2 s i Hi) as [b Hb]. rewrite Hb. by apply (CString.cs_char _ _ _ Hs).
  - rewrite lookup_take_ge by lia. symmetry. apply lookup_ge_None. lia.
Qed.

Section page.
Context (st0 : list Z) (Hst : length st0 = Z.to_nat PGSIZE).

Lemma length_image frame : (length frame <= Z.to_nat PGSIZE)%nat -> length (image st0 frame) = Z.to_nat PGSIZE.
Proof using Hst. intros H. unfold image. rewrite length_app, length_take. lia. Qed.

Lemma image_nil : image st0 [] = st0.
Proof using Hst. unfold image. rewrite app_nil_r, take_ge; [done|cbn; lia]. Qed.

Lemma overwrite_push frame l : (length l + length frame <= Z.to_nat PGSIZE)%nat ->
  overwrite (Z.to_nat PGSIZE - length frame - length l) l (image st0 frame) = image st0 (l ++ frame).
Proof using Hst.
  intros Hl. apply list_eq. intros i. rewrite lookup_overwrite by (rewrite length_image; lia). unfold image. rewrite length_app.
  case_decide as Hi.
  - rewrite lookup_app_r by (rewrite length_take; lia). rewrite lookup_app_l by (rewrite length_take; lia). f_equal. rewrite length_take. lia.
  - destruct (decide (i < Z.to_nat PGSIZE - length frame - length l)%nat) as [Hlt|Hge].
    + rewrite !lookup_app_l by (rewrite length_take; lia). by rewrite !lookup_take_lt by lia.
    + rewrite lookup_app_r by (rewrite length_take; lia). rewrite lookup_app_r by (rewrite length_take; lia). rewrite lookup_app_r by (rewrite !length_take; lia).
      f_equal. rewrite !length_take. lia.
Qed.

Lemma push_bytes frame l : (length l + length frame <= Z.to_nat PGSIZE)%nat ->
  poke (image st0 frame) (PHYS_BASE - Z.of_nat (length frame) - Z.of_nat (length l)) l = Ok (image st0 (l ++ frame)).
Proof using Hst.
  intros Hl. unfold STACK in *. rewrite poke_ok; [|rewrite length_image; lia|unfold STACK; change PGSIZE with 4096 in *; lia|lia].
  f_equal. rewrite <- overwrite_push by done. f_equal. unfold STACK. change PGSIZE with 4096 in *. lia.
Qed.

Lemma push_at frame l a : (length l + length frame <= Z.to_nat PGSIZE)%nat -> a = PHYS_BASE - Z.of_nat (length frame) - Z.of_nat (length l) ->
  poke (image st0 frame) a l = Ok (image st0 (l ++ frame)).
Proof using Hst. intros Hl ->. by apply push_bytes. Qed.

(** Reading what was stored. *)
Lemma peek_image f1 l f2 : (length (f1 ++ l ++ f2) <= Z.to_nat PGSIZE)%nat ->
  peek (image st0 (f1 ++ l ++ f2)) (PHYS_BASE - Z.of_nat (length f2) - Z.of_nat (length l)) (Z.of_nat (length l)) = Some l.
Proof using Hst.
  intros Hl. unfold peek, slice. pose proof (length_image _ Hl) as Hli. rewrite !length_app in Hl. rewrite Hli. unfold STACK, image. change PGSIZE with 4096 in *. rewrite !leb_true by lia. cbn [andb]. f_equal.
  rewrite !length_app. rewrite drop_app_ge by (rewrite length_take; lia). rewrite length_take.
  rewrite drop_app_ge by lia. match goal with |- take _ (drop ?n _) = _ => replace n with 0%nat by lia end. rewrite drop_0, take_app_le by lia. apply take_ge. lia.
Qed.

(** ** The strings *)

Lemma push_string m arg tok frame : CString.cstr m arg tok -> (length tok + 1 + length frame <= Z.to_nat PGSIZE)%nat ->
  strlcpy_stack m (image st0 frame) (PHYS_BASE - Z.of_nat (length frame) - Z.of_nat (length tok + 1)) arg (length tok + 1) = Ok (image st0 ((tok ++ [0]) ++ frame)).
Proof using Hst.
  intros Hc Hf. unfold strlcpy_stack. rewrite (CString.strlen_spec _ _ _ Hc). cbn [rbind]. rewrite (proj2 (Nat.ltb_lt _ _)) by lia.
  replace (length tok + 1 - 1)%nat with (length tok) by lia. rewrite (proj2 (Nat.ltb_ge _ _)) by lia. rewrite (bytes_cstr _ _ _ Hc). cbn [rbind].
  rewrite poke_ok; [|rewrite length_image; lia|unfold STACK; change PGSIZE with 4096 in *; lia|lia]. cbn [rbind].
  rewrite poke_ok; [|rewrite length_overwrite, length_image; lia|unfold STACK; change PGSIZE with 4096 in *; lia|cbn [length]; lia]. f_equal.
  rewrite <- overwrite_push by (rewrite length_app; cbn [length]; lia).
  rewrite <- (overwrite_app _ tok [0]) by (rewrite length_image by lia; rewrite length_app; cbn [length]; lia).
  rewrite length_app. cbn [length]. unfold STACK. change PGSIZE with 4096 in *. do 2 f_equal; lia.
Qed.

Definition strings (toks : list (list Z)) : list Z := concat (map (fun t => t ++ [0]) toks).

(** Where the strings are. *)
Fixpoint addresses (toks : list (list Z)) : list Z :=
  match toks with
  | [] => []
  | t :: toks => PHYS_BASE - Z.of_nat (length (strings (t :: toks))) :: addresses toks
  end.

Lemma push_strings_spec m ps toks : Forall2 (CString.cstr m) ps toks -> (length (strings toks) <= Z.to_nat PGSIZE)%nat ->
  push_strings m ps (image st0 []) PHYS_BASE 0 =
    Ok (image st0 (strings toks), addresses toks, PHYS_BASE - Z.of_nat (length (strings toks)), Z.of_nat (length (strings toks))).
Proof using Hst.
  induction 1 as [|p t ps toks Hc _ IH]; intros Hf; cbn [push_strings]; [cbn; by rewrite Z.sub_0_r|].
  assert (E : length (strings (t :: toks)) = (length t + 1 + length (strings toks))%nat).
  { change (strings (t :: toks)) with ((t ++ [0]) ++ strings toks). by rewrite !length_app. }
  rewrite IH by lia. cbn [rbind]. rewrite (CString.strlen_spec _ _ _ Hc). cbn [rbind]. rewrite push_string by (done || lia). cbn [rbind addresses].
  change ((t ++ [0]) ++ strings toks) with (strings (t :: toks)). rewrite E.
  replace (PHYS_BASE - Z.of_nat (length (strings toks)) - Z.of_nat (length t + 1)) with (PHYS_BASE - Z.of_nat (length t + 1 + length (strings toks))) by lia.
  by replace (Z.of_nat (length (strings toks)) + Z.of_nat (length t + 1)) with (Z.of_nat (length t + 1 + length (strings toks))) by lia.
Qed.

Lemma push_pointers_spec ptrs frame off : (4 * length ptrs + length frame <= Z.to_nat PGSIZE)%nat ->
  push_pointers ptrs (image st0 frame) (PHYS_BASE - Z.of_nat (length frame)) off =
    Ok (image st0 (words_bytes ptrs ++ frame), PHYS_BASE - Z.of_nat (length (words_bytes ptrs ++ frame)), off + 4 * Z.of_nat (length ptrs)).
Proof using Hst.
  induction ptrs as [|p ptrs IH]; intros Hf; cbn [push_pointers]; [cbn; by rewrite Z.add_0_r|]. cbn [length] in Hf. rewrite IH by lia. cbn [rbind].
  change (words_bytes (p :: ptrs)) with (le32 p ++ words_bytes ptrs). rewrite <- app_assoc.
  assert (El : length (words_bytes ptrs ++ frame) = (4 * length ptrs + length frame)%nat) by (rewrite length_app, length_words_bytes; lia).
  change 4 with (Z.of_nat (length (le32 p))) at 1 2. rewrite push_bytes by (cbn [length le32]; lia). cbn [rbind]. rewrite (length_app (le32 p)). cbn [length le32].
  replace (PHYS_BASE - Z.of_nat (length (words_bytes ptrs ++ frame)) - Z.of_nat 4) with (PHYS_BASE - Z.of_nat (4 + length (words_bytes ptrs ++ frame))) by lia.
  by replace (off + 4 * Z.of_nat (S (length ptrs))) with (off + 4 * Z.of_nat (length ptrs) + 4) by lia.
Qed.
End page.

(** ** Splitting the line *)

Lemma argv_loop_spec fuel : forall m s delim save room ps m', CString.strtok_loop fuel m s delim save = Ok (ps, m') ->
  argv_loop fuel m s delim save room = if (length ps <=? room)%nat then Ok (ps, m') else Err Fault.
Proof.
  induction fuel as [|fuel IH]; intros m s delim save room ps m'; cbn [CString.strtok_loop argv_loop]; [done|].
  destruct (CString.strtok_r m s delim save) as [[[tok m1] save1]|]; [|done]. cbn [rbind]. destruct (CString.nonnull tok); [|by intros [= <- <-]].
  destruct (CString.strtok_loop fuel m1 CString.NULL delim save1) as [[l m2]|] eqn:E; [|done]. cbn [rbind]. intros [= <- <-].
  destruct room as [|room]; [done|]. rewrite (IH _ _ _ _ room _ _ E). cbn [length Nat.leb]. by destruct (length l <=? room)%nat.
Qed.

(** The words are not longer than the line. *)
Lemma strings_split ds s : forall cur, (length (strings (CString.split ds cur s)) <= length cur + length s + 1)%nat.
Proof.
  induction s as [|b s IH]; intros cur; cbn [CString.split].
  - destruct cur; cbn; [lia|]. rewrite !length_app. cbn. lia.
  - destruct (bool_decide _); [destruct cur as [|c cur]|].
    + specialize (IH []). cbn in *. lia.
    + specialize (IH []). unfold strings in *. cbn in *. rewrite !length_app. cbn. lia.
    + specialize (IH (cur ++ [b])). rewrite length_app in IH. cbn in *. lia.
Qed.

Lemma strings_tokens s : (length (strings (CString.tokens [32%Z] s)) <= length s + 1)%nat.
Proof. apply (strings_split [32] s []). Qed.

(** ** The whole frame *)

Lemma words_bytes_app l1 l2 : words_bytes (l1 ++ l2) = words_bytes l1 ++ words_bytes l2.
Proof. unfold words_bytes. by rewrite map_app, concat_app. Qed.

Lemma strings_drop toks i t : toks !! i = Some t -> strings toks = strings (take i toks) ++ (t ++ [0]) ++ strings (drop (S i) toks).
Proof. intros Hi. rewrite <- (take_drop_middle _ _ _ Hi) at 1. unfold strings. by rewrite map_app, concat_app. Qed.

Lemma addresses_lookup toks : forall i t, toks !! i = Some t -> addresses toks !! i = Some (PHYS_BASE - Z.of_nat (length (strings (drop i toks)))).
Proof. induction toks as [|u toks IH]; intros [|i] t Hi; [done|done|done|]. cbn [addresses]. by apply (IH i t). Qed.

Lemma length_addresses toks : length (addresses toks) = length toks.
Proof. induction toks as [|t toks IH]; [done|]. cbn [addresses length]. by rewrite IH. Qed.

Definition frame_of (toks : list (list Z)) (pad : nat) : list Z :=
  let rest := replicate pad 0 ++ strings toks in
  let ptrs := words_bytes (addresses toks) ++ le32 0 ++ rest in
  le32 (Z.of_nat (length toks)) ++ le32 (PHYS_BASE - Z.of_nat (length ptrs)) ++ ptrs.

Lemma length_frame toks pad : length (frame_of toks pad) = (12 + 4 * length toks + pad + length (strings toks))%nat.
Proof. unfold frame_of. rewrite !length_app, length_words_bytes, length_addresses, length_replicate. cbn [length le32]. lia. Qed.

Lemma frame_started st0 toks pad : length st0 = Z.to_nat PGSIZE -> (length (frame_of toks pad) <= Z.to_nat PGSIZE)%nat ->
  (Z.of_nat pad + Z.of_nat (length (strings toks))) mod 4 = 0 -> started (image st0 (frame_of toks pad)) (PHYS_BASE - Z.of_nat (length (frame_of toks pad)) - 4) toks.
Proof.
  intros Hst Hfit Hmod. pose proof (length_frame toks pad) as EL. set (L := length (frame_of toks pad)) in *.
  assert (Hpeek : forall f1 l f2 a n, frame_of toks pad = f1 ++ l ++ f2 -> a = PHYS_BASE - Z.of_nat (length f2) - Z.of_nat (length l) -> n = Z.of_nat (length l) ->
    peek (image st0 (frame_of toks pad)) a n = Some l).
  { intros f1 l f2 a n E -> ->. rewrite E. apply peek_image; [done|]. by rewrite <- E. }
  set (rest := replicate pad 0 ++ strings toks). assert (Er : length rest = (pad + length (strings toks))%nat) by (unfold rest; by rewrite length_app, length_replicate).
  set (ptrs := words_bytes (addresses toks) ++ le32 0 ++ rest).
  assert (Ep : length ptrs = (4 * length toks + 4 + length rest)%nat) by (unfold ptrs; rewrite !length_app, length_words_bytes, length_addresses; cbn [length le32]; lia).
  constructor.
  - rewrite EL. rewrite <- (Z.mod_add _ (4 + Z.of_nat (length toks)) 4) by lia.
    replace (PHYS_BASE - Z.of_nat (12 + 4 * length toks + pad + length (strings toks)) - 4 + (4 + Z.of_nat (length toks)) * 4)
      with (- (Z.of_nat pad + Z.of_nat (length (strings toks))) + 805306368 * 4) by (unfold PHYS_BASE; lia).
    rewrite Z.mod_add by lia. by apply Z.mod_opp_l_z.
  - apply (Hpeek [] (le32 (Z.of_nat (length toks))) (le32 (PHYS_BASE - Z.of_nat (length ptrs)) ++ ptrs)); [done| |done]. rewrite length_app. cbn [length le32]. lia.
  - replace (PHYS_BASE - Z.of_nat L - 4 + 12) with (PHYS_BASE - Z.of_nat (length ptrs)) by lia.
    apply (Hpeek (le32 (Z.of_nat (length toks))) (le32 (PHYS_BASE - Z.of_nat (length ptrs))) ptrs); [done| |done]. cbn [length le32]. lia.
  - intros i t Hi. exists (PHYS_BASE - Z.of_nat (length (strings (drop i toks)))). pose proof (lookup_lt_Some _ _ _ Hi) as Hlt. split.
    + apply (Hpeek (le32 (Z.of_nat (length toks)) ++ le32 (PHYS_BASE - Z.of_nat (length ptrs)) ++ words_bytes (take i (addresses toks))) _ (words_bytes (drop (S i) (addresses toks)) ++ le32 0 ++ rest)).
      * unfold frame_of. fold rest. fold ptrs. rewrite <- !app_assoc. do 2 f_equal. unfold ptrs. rewrite <- (take_drop_middle _ _ _ (addresses_lookup _ _ _ Hi)) at 1.
        by rewrite words_bytes_app, <- app_assoc.
      * rewrite !length_app, length_words_bytes, length_drop, length_addresses. cbn [length le32]. lia.
      * done.
    + pose proof (strings_drop _ _ _ Hi) as Es.
      apply (Hpeek (le32 (Z.of_nat (length toks)) ++ le32 (PHYS_BASE - Z.of_nat (length ptrs)) ++ words_bytes (addresses toks) ++ le32 0 ++ replicate pad 0 ++ strings (take i toks)) _ (strings (drop (S i) toks))).
      * unfold frame_of. fold rest. fold ptrs. rewrite <- !app_assoc. do 2 f_equal. unfold ptrs, rest. rewrite Es at 1. by rewrite <- !app_assoc.
      * rewrite (drop_S _ _ _ Hi). change (strings (t :: ?l)) with ((t ++ [0]) ++ strings l). rewrite length_app. lia.
      * rewrite length_app. cbn [length]. lia.
  - apply (Hpeek (le32 (Z.of_nat (length toks)) ++ le32 (PHYS_BASE - Z.of_nat (length ptrs)) ++ words_bytes (addresses toks)) (le32 0) rest); [by rewrite <- !app_assoc| |done].
    cbn [length le32]. lia.
Qed.

(** ** The routine *)

Definition chars (cmd : list Z) : Prop := Forall (fun b => 0 < b < 2 ^ 8) cmd.

(** The words of a command line. *)
Definition args (cmd : list Z) : list (list Z) := CString.tokens [32] cmd.

(** What the check on the size of the frame computes. *)
Definition needed (cmd : list Z) : Z :=
  let size := Z.of_nat (length cmd + 1) in size + size mod 4 + (Z.of_nat (length (args cmd)) + 1) * 4 + 4 * 3.

Lemma memory_line cmd : chars cmd -> CString.cstr (line_memory cmd) 1 cmd.
Proof.
  intros Hcmd. constructor; [lia| |].
  - intros i b Hi. split; [by eapply Forall_lookup_1 in Hcmd|]. unfold line_memory. cbn. by apply lookup_app_l_Some.
  - change ((cmd ++ [0]) !! length cmd = Some 0). by rewrite lookup_app_r, Nat.sub_diag by lia.
Qed.

Section line.
Context (cmd block : list Z) (Hcmd : chars cmd) (Hblock : length block = (length cmd + 1)%nat).
Abbreviation m0 := (args_memory cmd block).

Lemma memory_cmd : CString.cstr m0 1 cmd.
Proof using Hcmd Hblock.
  constructor; [lia| |].
  - intros i b Hi. split; [by eapply Forall_lookup_1 in Hcmd|]. unfold args_memory, line_memory. cbn. rewrite <- app_assoc. by apply lookup_app_l_Some.
  - unfold args_memory, line_memory. rewrite <- !app_assoc. change ((cmd ++ [0] ++ block ++ [32; 0]) !! length cmd = Some 0). by rewrite lookup_app_r, Nat.sub_diag by lia.
Qed.

Lemma memory_space : CString.cstr m0 (space_addr cmd) [32].
Proof using Hblock.
  assert (E : forall k, m0 !! (space_addr cmd + k)%nat = [32; 0] !! k).
  { intros k. unfold args_memory, line_memory, space_addr. rewrite !app_assoc. rewrite lookup_app_r by (rewrite !length_app; cbn [length]; lia). f_equal. rewrite !length_app. cbn [length]. lia. }
  constructor; [unfold space_addr; lia| |apply E]. intros [|i] b Hi; [|done]. injection Hi as <-. split; [lia|]. by rewrite E.
Qed.

Lemma copied_line : exists m1, CString.strlcpy m0 (line_addr cmd) 1 (length cmd + 1) = Ok (m1, length cmd) /\
  CString.cstr m1 (line_addr cmd) cmd /\ CString.cstr m1 (space_addr cmd) [32].
Proof using Hcmd Hblock.
  destruct (CString.strlcpy_correct m0 (line_addr cmd) 1 (length cmd + 1) cmd memory_cmd) as (m1 & E & _ & Hc & Hfr); [lia| |unfold line_addr; lia|].
  { split; [unfold line_addr; lia|]. unfold args_memory, line_memory, line_addr. rewrite !length_app. cbn [length]. lia. }
  exists m1. split; [done|]. replace (length cmd + 1 - 1)%nat with (length cmd) in * by lia. rewrite take_ge in Hc by done. split; [done|].
  apply (CString.cstr_same m0); [apply memory_space|]. intros k Hk. apply Hfr. unfold space_addr, line_addr in *. lia.
Qed.

End line.

Lemma line_words cmd m1 : CString.cstr m1 (line_addr cmd) cmd -> CString.cstr m1 (space_addr cmd) [32] -> forall room,
  exists ps m2, Forall2 (CString.cstr m2) ps (args cmd) /\
    argv_loop (S (length cmd + 1)) m1 (line_addr cmd) (space_addr cmd) CString.NULL room = if (length (args cmd) <=? room)%nat then Ok (ps, m2) else Err Fault.
Proof.
  intros Hl Hs room. destruct (CString.strtok_loop_spec (space_addr cmd) [32] (S (length cmd + 1)) m1 (line_addr cmd) cmd Hl Hs) as (ps & m2 & E & Hall & _); [unfold line_addr, space_addr; cbn [length]; lia|lia|].
  exists ps, m2. split; [done|]. assert (El : length ps = length (args cmd)) by (by eapply Forall2_length). rewrite <- El. apply argv_loop_spec. rewrite <- E. cbn [CString.strtok_loop].
  by rewrite (CString.strtok_r_first _ (line_addr cmd)) by (by eapply CString.cstr_nonnull).
Qed.

(** The frame that the check lets pass fits. *)
Lemma frame_fits cmd pad : needed cmd <= PGSIZE -> Z.of_nat pad = 4 - Z.of_nat (length (strings (args cmd))) mod 4 ->
  (length (frame_of (args cmd) pad) <= Z.to_nat PGSIZE)%nat.
Proof.
  intros Hn Hpad. rewrite length_frame. pose proof (strings_tokens cmd) as Hs. fold (args cmd) in Hs. unfold needed in Hn. cbv zeta in Hn. change PGSIZE with 4096 in *.
  set (S := length (strings (args cmd))) in *. set (n := length cmd) in *. set (k := length (args cmd)) in *. clearbody S n k.
  pose proof (Z.div_mod (Z.of_nat S) 4 ltac:(lia)). pose proof (Z.mod_pos_bound (Z.of_nat S) 4 ltac:(lia)).
  pose proof (Z.div_mod (Z.of_nat (n + 1)) 4 ltac:(lia)). pose proof (Z.mod_pos_bound (Z.of_nat (n + 1)) 4 ltac:(lia)). lia.
Qed.

(** The two blocks that [setup_args] asks for. *)
Definition allocates (malloc : Z -> option (list Z)) (calloc : Z -> Z -> option Z) (cmd block : list Z) (argv_size : Z) : Prop :=
  let size := Z.of_nat (length cmd + 1) in
  malloc size = Some block /\ length block = (length cmd + 1)%nat /\ calloc size 1 = Some argv_size.

(** C28: A program starts with the words of its command line: [setup_args]
    leaves a stack on which [argc] is the number of words and [argv] points
    to pointers to the words, in order, each terminated, and a final null
    pointer; all of it inside of the page, the stack pointer aligned. This
    is so for every line whose frame fits on the page by the check of the
    routine, when [malloc] gives a block for the copy of the line and the
    block that [calloc (size, 1)] gives for [argv], where [size] is the
    length of the line with its null byte, has room for the pointers. *)
Theorem setup_args_started malloc calloc cmd block argv_size st :
  chars cmd -> allocates malloc calloc cmd block argv_size -> 4 * Z.of_nat (length (args cmd)) <= argv_size -> needed cmd <= PGSIZE -> length st = Z.to_nat PGSIZE ->
  exists offset st' esp, setup_args malloc calloc cmd st PHYS_BASE = Ok (offset, st', esp) /\
    esp + offset = PHYS_BASE /\ length st' = Z.to_nat PGSIZE /\ started st' esp (args cmd).
Proof.
  intros Hcmd (Hm & Hb & Hc) Hroom Hneed Hst. unfold setup_args. rewrite (CString.strlen_spec _ _ _ (memory_line cmd Hcmd)). cbn [rbind]. rewrite Hm, Hc.
  destruct (copied_line cmd block Hcmd Hb) as (m1 & -> & Hl & Hs). cbn [rbind]. destruct (line_words cmd m1 Hl Hs (Z.to_nat (argv_size / 4))) as (ps & m2 & Hall & ->).
  pose proof (Z.div_le_lower_bound argv_size 4 (Z.of_nat (length (args cmd))) ltac:(lia) Hroom) as Hd.
  rewrite (proj2 (Nat.leb_le _ _)) by lia. cbn [rbind]. assert (El : length ps = length (args cmd)) by (by eapply Forall2_length). rewrite El.
  rewrite ltb_false by (unfold needed in Hneed; lia).
  set (S := length (strings (args cmd))). set (pad := Z.to_nat (4 - Z.of_nat S mod 4)). pose proof (Z.mod_pos_bound (Z.of_nat S) 4 ltac:(lia)) as Hmod.
  assert (Hpad : Z.of_nat pad = 4 - Z.of_nat S mod 4) by (unfold pad; lia).
  pose proof (frame_fits cmd pad Hneed Hpad) as Hfit. pose proof (length_frame (args cmd) pad) as EL. fold S in EL.
  replace (push_strings m2 ps st PHYS_BASE 0) with (push_strings m2 ps (image st []) PHYS_BASE 0) by (by rewrite image_nil). rewrite (push_strings_spec st Hst m2 ps (args cmd)) by (done || lia). cbn [rbind]. fold S. fold pad.
  rewrite (push_at st Hst) by (rewrite length_replicate; fold S; lia). cbn [rbind]. set (rest := replicate pad 0 ++ strings (args cmd)).
  assert (Er : length rest = (pad + S)%nat) by (unfold rest; by rewrite length_app, length_replicate).
  rewrite (push_at st Hst) by (cbn [length le32]; lia). cbn [rbind].
  replace (PHYS_BASE - Z.of_nat S - (4 - Z.of_nat S mod 4) - 4) with (PHYS_BASE - Z.of_nat (length (le32 0 ++ rest))) by (rewrite length_app; cbn [length le32]; lia).
  rewrite (push_pointers_spec st Hst) by (rewrite length_addresses, length_app; cbn [length le32]; lia). cbn [rbind]. set (ptrs := words_bytes (addresses (args cmd)) ++ le32 0 ++ rest).
  assert (Ep : length ptrs = (4 * length (args cmd) + 4 + length rest)%nat) by (unfold ptrs; rewrite !length_app, length_words_bytes, length_addresses; cbn [length le32]; lia).
  rewrite (push_at st Hst) by (cbn [length le32]; lia). cbn [rbind]. rewrite (push_at st Hst) by (rewrite ?length_app; cbn [length le32]; lia). cbn [rbind].
  change (le32 (Z.of_nat (length (args cmd))) ++ le32 (PHYS_BASE - Z.of_nat (length ptrs)) ++ ptrs) with (frame_of (args cmd) pad).
  eexists _, _, _. split; [reflexivity|]. rewrite length_addresses. split; [lia|]. split; [by apply length_image|].
  replace (PHYS_BASE - Z.of_nat (length ptrs) - 12) with (PHYS_BASE - Z.of_nat (length (frame_of (args cmd) pad)) - 4) by lia.
  apply frame_started; [done|done|]. fold S. rewrite Hpad.
  replace (4 - Z.of_nat S mod 4 + Z.of_nat S) with ((Z.of_nat S / 4 + 1) * 4) by (pose proof (Z.div_mod (Z.of_nat S) 4 ltac:(lia)); lia). apply Z.mod_mul. lia.
Qed.

(** C40: [setup_args] asks [calloc] for as many bytes for [argv] as the command
    line has, and stores four for every word without a check: whenever the
    words of the line need more than the block that [calloc (size, 1)] gives,
    it writes past the block, before it looks at the size of the frame. *)
Theorem setup_args_overflow malloc calloc cmd block argv_size st esp :
  chars cmd -> allocates malloc calloc cmd block argv_size -> 0 <= argv_size < 4 * Z.of_nat (length (args cmd)) ->
  setup_args malloc calloc cmd st esp = Err Fault.
Proof.
  intros Hcmd (Hm & Hb & Hc) Hroom. unfold setup_args. rewrite (CString.strlen_spec _ _ _ (memory_line cmd Hcmd)). cbn [rbind]. rewrite Hm, Hc.
  destruct (copied_line cmd block Hcmd Hb) as (m1 & -> & Hl & Hs). cbn [rbind]. destruct (line_words cmd m1 Hl Hs (Z.to_nat (argv_size / 4))) as (ps & m2 & Hall & ->).
  pose proof (Z.div_lt_upper_bound argv_size 4 (Z.of_nat (length (args cmd))) ltac:(lia) ltac:(lia)) as Hd. pose proof (Z.div_pos argv_size 4 ltac:(lia) ltac:(lia)).
  by rewrite (proj2 (Nat.leb_gt _ _)) by lia.
Qed.

(** The blocks of [Malloc]: those of the smallest descriptor that fits. *)
Definition demo_malloc (size : Z) : option (list Z) := Some (replicate (Z.to_nat size) 204).
Definition demo_calloc (a b : Z) : option Z :=
  Malloc.block_size <$> (Malloc.find_desc (MallocProps.init_descs MallocProps.demo_heads) 0 (u32 (a * b)) ≫= (fun d => MallocProps.init_descs MallocProps.demo_heads !! d)).

Lemma demo_chars cmd : forallb (fun b => (0 <? b) && (b <? 2 ^ 8)) cmd = true -> chars cmd.
Proof. intros H. apply Forall_forall. intros b Hb. apply list_elem_of_In in Hb. rewrite List.forallb_forall in H. specialize (H b Hb). lia. Qed.

(** "ls -l  /" *)
Definition demo_line : list Z := [108; 115; 32; 45; 108; 32; 32; 47].

Lemma setup_args_started_witness :
  args demo_line = [[108; 115]; [45; 108]; [47]] /\
  exists offset st esp, setup_args demo_malloc demo_calloc demo_line (replicate (Z.to_nat PGSIZE) 0) PHYS_BASE = Ok (offset, st, esp) /\ started st esp (args demo_line).
Proof.
  split; [reflexivity|]. destruct (setup_args_started demo_malloc demo_calloc demo_line (replicate 9 204) 16 (replicate (Z.to_nat PGSIZE) 0)) as (offset & st & esp & E & _ & _ & H).
  - by apply demo_chars.
  - split; [reflexivity|]. split; [reflexivity|vm_compute; reflexivity].
  - vm_compute. discriminate.
  - vm_compute. discriminate.
  - apply length_replicate.
  - exists offset, st, esp. split; [exact E|exact H].
Defined.

(** "a b c d e": ten bytes, for which [calloc] has blocks of sixteen. *)
Definition five_words : list Z := [97; 32; 98; 32; 99; 32; 100; 32; 101].

Lemma setup_args_overflow_witness : demo_calloc 10 1 = Some 16 /\
  setup_args demo_malloc demo_calloc five_words (replicate (Z.to_nat PGSIZE) 0) PHYS_BASE = Err Fault.
Proof.
  assert (H16 : demo_calloc 10 1 = Some 16) by (vm_compute; reflexivity). split; [exact H16|].
  apply (setup_args_overflow demo_malloc demo_calloc five_words (replicate 10 204) 16); [by apply demo_chars| |vm_compute; split; congruence].
  split; [reflexivity|]. split; [reflexivity|exact H16].
Defined.

End Args.
