(* ===== verification/Ring.v ===== *)
(** The ring-buffer discipline shared by [struct array_queue]
    (src/src/lib/kernel/queue.h) and [struct pipe]
    (src/src/filesys/pipe.h): one slot stays empty and [head] points at
    it, [tail] points at the last element.

    The two C structures repeat the four index expressions; this file
    states once what they mean, as a list of items. *)

From stdpp Require Import options.
From S2P Require Import Prelude.

Section ring.
Context {A : Type} (d : A).
Implicit Types (cap head tail : Z) (buf : list A) (x : A).

(** The item in slot [i]. *)
Definition slot buf (i : Z) : A := nth (Z.to_nat i) buf d.

Definition ring_len cap head tail : Z := (tail - head) mod cap.

(** The [n] items in the slots after [head]. *)
Fixpoint ring_read cap buf head (n : nat) : list A :=
  match n with
  | O => []
  | S n => slot buf ((head + 1) mod cap) :: ring_read cap buf ((head + 1) mod cap) n
  end.

(** The contents, oldest first. *)
Definition ring_items cap head tail buf : list A :=
  ring_read cap buf head (Z.to_nat (ring_len cap head tail)).

Record ring_wf cap head tail buf : Prop := {
  ring_cap : 1 <= cap < 2 ^ 32;
  ring_buf : Z.of_nat (length buf) = cap;
  ring_head : 0 <= head < cap;
  ring_tail : 0 <= tail < cap;
}.

Lemma ring_len_range cap head tail buf :
  ring_wf cap head tail buf -> 0 <= ring_len cap head tail < cap.
Proof. intros []. apply Z.mod_pos_bound. lia. Qed.

Lemma ring_read_length cap buf head n : length (ring_read cap buf head n) = n.
Proof. revert head. induction n; intros; cbn; auto. Qed.

Lemma ring_items_length cap head tail buf :
  ring_wf cap head tail buf ->
  Z.of_nat (length (ring_items cap head tail buf)) = ring_len cap head tail.
Proof.
  intros Hwf. unfold ring_items. rewrite ring_read_length.
  pose proof (ring_len_range _ _ _ _ Hwf). lia.
Qed.

(** Moving an index one slot forward. *)
Lemma next_slot cap i :
  0 <= i < cap -> (i + 1) mod cap = if i =? cap - 1 then 0 else i + 1.
Proof.
  intros. destruct (Z.eqb_spec i (cap - 1)) as [->|].
  - replace (cap - 1 + 1) with cap by lia. apply Z.mod_same. lia.
  - apply Z.mod_small. lia.
Qed.

Lemma ring_len_cases cap head tail :
  0 <= head < cap -> 0 <= tail < cap ->
  ring_len cap head tail = if head <=? tail then tail - head else tail - head + cap.
Proof.
  intros. unfold ring_len. destruct (Z.leb_spec head tail).
  - apply Z.mod_small. lia.
  - rewrite <- (Z.mod_add _ 1) by lia. rewrite Z.mod_small; lia.
Qed.

Lemma ring_empty cap head tail buf :
  ring_wf cap head tail buf ->
  head = tail <-> ring_items cap head tail buf = [].
Proof.
  intros Hwf. pose proof (ring_items_length _ _ _ _ Hwf) as Hl.
  destruct Hwf as [Hc Hb Hh Ht]. rewrite ring_len_cases in Hl by lia.
  split.
  - intros ->. rewrite Z.leb_refl in Hl. apply nil_length_inv. lia.
  - intros Hn. rewrite Hn in Hl. cbn in Hl. destruct (Z.leb_spec head tail); lia.
Qed.

Lemma ring_full cap head tail buf :
  ring_wf cap head tail buf ->
  head = (tail + 1) mod cap <->
  Z.of_nat (length (ring_items cap head tail buf)) = cap - 1.
Proof.
  intros Hwf. rewrite ring_items_length by done. destruct Hwf as [Hc Hb Hh Ht].
  rewrite next_slot, ring_len_cases by lia. repeat ztest; lia.
Qed.

(** Taking the oldest item moves [head] onto its slot. *)
Lemma ring_pop cap head tail buf :
  ring_wf cap head tail buf -> head <> tail ->
  ring_items cap head tail buf =
    slot buf ((head + 1) mod cap) :: ring_items cap ((head + 1) mod cap) tail buf /\
  ring_wf cap ((head + 1) mod cap) tail buf.
Proof.
  intros Hwf Hne. pose proof Hwf as [Hc Hb Hh Ht].
  assert (Hh' : 0 <= (head + 1) mod cap < cap) by (apply Z.mod_pos_bound; lia).
  split; [|by split].
  assert (Hlen : ring_len cap head tail = ring_len cap ((head + 1) mod cap) tail + 1).
  { rewrite next_slot in * by lia. rewrite !ring_len_cases by lia. repeat ztest; lia. }
  unfold ring_items.
  assert (0 <= ring_len cap ((head + 1) mod cap) tail) by (apply Z.mod_pos_bound; lia).
  rewrite Hlen, Z2Nat.inj_add, Nat.add_comm by lia. reflexivity.
Qed.

Lemma slot_insert_ne buf i j x :
  0 <= i -> 0 <= j -> i <> j -> slot (<[Z.to_nat i := x]> buf) j = slot buf j.
Proof.
  intros. unfold slot. rewrite !nth_lookup, list_lookup_insert_ne by lia. done.
Qed.

Lemma slot_insert_eq buf i x :
  0 <= i < Z.of_nat (length buf) -> slot (<[Z.to_nat i := x]> buf) i = x.
Proof.
  intros. unfold slot. rewrite nth_lookup, list_lookup_insert_eq by lia. done.
Qed.

Lemma ring_read_snoc cap buf head n i x :
  1 <= cap -> Z.of_nat (length buf) = cap -> 0 <= head < cap ->
  Z.of_nat n < cap - 1 -> i = (head + 1 + Z.of_nat n) mod cap ->
  ring_read cap (<[Z.to_nat i := x]> buf) head (S n) = ring_read cap buf head n ++ [x].
Proof.
  intros Hc Hb. revert head. induction n as [|n IH]; intros head Hh Hn ->.
  - cbn. rewrite Z.add_0_r, slot_insert_eq; [done|].
    rewrite Hb. apply Z.mod_pos_bound. lia.
  - assert (Hh' : 0 <= (head + 1) mod cap < cap) by (apply Z.mod_pos_bound; lia).
    set (m := S n) in *.
    change (ring_read cap buf head m)
      with (slot buf ((head + 1) mod cap) :: ring_read cap buf ((head + 1) mod cap) n).
    cbn [ring_read app]. fold m. f_equal.
    + apply slot_insert_ne; [apply Z.mod_pos_bound; lia|lia|].
      rewrite next_slot by lia. intros Heq.
      pose proof (Z.div_mod (head + 1 + Z.of_nat m) cap ltac:(lia)).
      assert ((head + 1 + Z.of_nat m) / cap <= 1)
        by (apply Z.lt_succ_r, Z.div_lt_upper_bound; lia).
      assert (0 <= (head + 1 + Z.of_nat m) / cap) by (apply Z.div_pos; lia).
      assert ((head + 1 + Z.of_nat m) / cap = 0 \/ (head + 1 + Z.of_nat m) / cap = 1)
        as [Hk|Hk] by lia; rewrite Hk in *;
        destruct (Z.eqb_spec head (cap - 1)); lia.
    + apply IH; [lia..|].
      replace (head + 1 + Z.of_nat m) with (head + 1 + (1 + Z.of_nat n)) by lia.
      rewrite <- (Zplus_mod_idemp_l (head + 1)). f_equal. lia.
Qed.

(** Adding an item writes the slot after [tail]. *)
Lemma ring_push cap head tail buf x :
  ring_wf cap head tail buf -> head <> (tail + 1) mod cap ->
  ring_items cap head ((tail + 1) mod cap)
      (<[Z.to_nat ((tail + 1) mod cap) := x]> buf) =
    ring_items cap head tail buf ++ [x] /\
  ring_wf cap head ((tail + 1) mod cap)
    (<[Z.to_nat ((tail + 1) mod cap) := x]> buf).
Proof.
  intros Hwf Hne. pose proof Hwf as [Hc Hb Hh Ht].
  assert (Ht' : 0 <= (tail + 1) mod cap < cap) by (apply Z.mod_pos_bound; lia).
  split; [|by split; rewrite ?length_insert].
  pose proof (ring_len_range _ _ _ _ Hwf).
  assert (Hlen : ring_len cap head ((tail + 1) mod cap) = ring_len cap head tail + 1).
  { rewrite next_slot in * by lia. rewrite !ring_len_cases by (repeat ztest; lia).
    destruct (Z.eqb_spec tail (cap - 1)); repeat ztest; lia. }
  assert (Hnf : ring_len cap head tail < cap - 1).
  { rewrite next_slot in Hne by lia. rewrite ring_len_cases by lia.
    destruct (Z.eqb_spec tail (cap - 1)); repeat ztest; lia. }
  unfold ring_items. rewrite Hlen, Z2Nat.inj_add, Nat.add_comm by lia.
  apply ring_read_snoc; [lia..|]. rewrite Z2Nat.id by lia. unfold ring_len.
  rewrite Zplus_mod_idemp_r. f_equal. lia.
Qed.
End ring.
