(* ===== verification/Monitor.v ===== *)
(** Mesa monitors: the way [lock_acquire], [cond_wait], [cond_signal],
    [cond_broadcast] and [lock_release] (src/src/threads/synch.c) are
    used by the read-write lock and the pipe.

    A monitor routine holds the monitor's lock from [lock_acquire] to
    [lock_release], except while it sleeps in [cond_wait].  The unit of
    interleaving is therefore the segment: the code a thread runs from
    taking the lock until it sleeps or leaves.  A client of this file
    gives, for each routine, the segment run on entry and the segment
    run after a wake-up; the file gives the wait queues, the wake-ups
    and the interleavings. *)

From stdpp Require Import options.
From S2P Require Import Prelude.

(** * Counting threads in a state *)

Section count.
Context {A : Type}.
Implicit Types (P : A -> bool) (l : list A).

Definition count P l : nat := length (filter (fun x => P x = true) l).

#[local] Arguments count : simpl never.

Lemma count_cons P x l : count P (x :: l) = ((if P x then 1 else 0) + count P l)%nat.
Proof. unfold count. rewrite filter_cons. destruct (P x); cbn; done. Qed.

Lemma count_insert P l i x y :
  l !! i = Some x ->
  (count P (<[i := y]> l) + (if P x then 1 else 0) =
   count P l + (if P y then 1 else 0))%nat.
Proof.
  revert i. induction l as [|z l IH]; intros [|i] Hi; try done.
  - change (<[0%nat := y]> (z :: l)) with (y :: l). cbn in Hi. simplify_eq.
    rewrite !count_cons. lia.
  - change (<[S i := y]> (z :: l)) with (z :: <[i := y]> l).
    rewrite !count_cons. specialize (IH i Hi). lia.
Qed.

Lemma count_same P l i x y :
  l !! i = Some x -> P x = P y -> count P (<[i := y]> l) = count P l.
Proof. intros Hi Hxy. pose proof (count_insert P l i x y Hi). rewrite Hxy in *. lia. Qed.

Lemma count_pos P l i x : l !! i = Some x -> P x = true -> (0 < count P l)%nat.
Proof.
  revert i. induction l as [|z l IH]; intros [|i] Hi HP; try done; cbn in *;
    rewrite count_cons.
  - simplify_eq. rewrite HP. lia.
  - specialize (IH i Hi HP). lia.
Qed.

Lemma count_exists P l : (0 < count P l)%nat -> exists i x, l !! i = Some x /\ P x = true.
Proof.
  induction l as [|z l IH]; [unfold count; cbn; lia|]. rewrite count_cons. intros Hc.
  destruct (P z) eqn:HP; [by exists 0%nat, z|].
  destruct IH as (i & x & ? & ?); [lia|]. by exists (S i), x.
Qed.

Lemma count_unique P l i j x y :
  (count P l <= 1)%nat -> l !! i = Some x -> l !! j = Some y ->
  P x = true -> P y = true -> i = j.
Proof.
  revert i j. induction l as [|z l IH]; intros i j Hc Hi Hj Hx Hy; [done|].
  rewrite count_cons in Hc.
  destruct i as [|i], j as [|j]; cbn in Hi, Hj; simplify_eq.
  - done.
  - rewrite Hx in Hc. pose proof (count_pos P l j y Hj Hy). lia.
  - rewrite Hy in Hc. pose proof (count_pos P l i x Hi Hx). lia.
  - f_equal. apply IH; try done. lia.
Qed.
End count.
Arguments count : simpl never.

(** * Monitors *)

Section monitor.
(** The monitor's data, its condition variables, its routines, and
    what a thread outside the monitor remembers. *)
Context {D CV Op L : Type} `{EqDecision CV}.

Inductive signal := One (c : CV) | All (c : CV).

(** How a segment ends: asleep on a condition, out of the monitor
    after some signals, or in a failed [ASSERT] or a use of freed
    storage, which halts the kernel. *)
Inductive segment :=
| Sleep (d : D) (c : CV)
| Leave (d : D) (sigs : list signal) (l : L)
| Crash.

Class Routines := {
  enter : Op -> L -> D -> segment;
  resume : Op -> D -> segment;
  (** the calls a thread in local state [l] may make *)
  allowed : Op -> L -> bool;
}.
Context `{R : Routines}.

Inductive thread :=
| Idle (l : L)
| Asleep (op : Op) (c : CV)
| Awake (op : Op).

Record mon := mkMon {
  data : D;
  waiters : CV -> list nat;
  threads : list thread;
}.

Definition upd_queue (q : CV -> list nat) (c : CV) (l : list nat) : CV -> list nat :=
  fun c' => if decide (c' = c) then l else q c'.

(** [sema_up] on the waiter's semaphore: the thread may run again. *)
Definition wake (t : nat) (ts : list thread) : list thread :=
  match ts !! t with
  | Some (Asleep op _) => <[t := Awake op]> ts
  | _ => ts
  end.

(** [cond_signal] pops the longest waiting thread; [cond_broadcast]
    repeats [cond_signal] until the queue is empty. *)
Definition do_signal (s : signal) (m : mon) : mon :=
  match s with
  | One c =>
      match waiters m c with
      | [] => m
      | t :: q => mkMon (data m) (upd_queue (waiters m) c q) (wake t (threads m))
      end
  | All c =>
      mkMon (data m) (upd_queue (waiters m) c [])
        (foldl (fun ts t => wake t ts) (threads m) (waiters m c))
  end.

Definition finish (m : mon) (t : nat) (op : Op) (s : segment) : res mon :=
  match s with
  | Sleep d c =>
      Ok (mkMon d (upd_queue (waiters m) c (waiters m c ++ [t]))
            (<[t := Asleep op c]> (threads m)))
  | Leave d sigs l =>
      Ok (foldl (fun m s => do_signal s m)
            (mkMon d (waiters m) (<[t := Idle l]> (threads m))) sigs)
  | Crash => Err Panic
  end.

Inductive action := Call (t : nat) (op : Op) | Run (t : nat).

(** One segment of one thread; [Err Block] when the thread cannot take
    that step. *)
Definition mstep (m : mon) (a : action) : res mon :=
  match a with
  | Call t op =>
      match threads m !! t with
      | Some (Idle l) =>
          if allowed op l then finish m t op (enter op l (data m)) else Err Block
      | _ => Err Block
      end
  | Run t =>
      match threads m !! t with
      | Some (Awake op) => finish m t op (resume op (data m))
      | _ => Err Block
      end
  end.

Fixpoint mrun (m : mon) (l : list action) : res mon :=
  match l with
  | [] => Ok m
  | a :: l => let* m' := mstep m a in mrun m' l
  end.

(** The states reached from [m0] by steps that [ok] admits. *)
Inductive reachable (ok : mon -> action -> bool) (m0 : mon) : mon -> Prop :=
| reach_init : reachable ok m0 m0
| reach_step m a m' :
    reachable ok m0 m -> ok m a = true -> mstep m a = Ok m' -> reachable ok m0 m'.

Definition any_step (m : mon) (a : action) : bool := true.

Fixpoint all_ok (ok : mon -> action -> bool) (m : mon) (l : list action) : bool :=
  match l with
  | [] => true
  | a :: l => ok m a && match mstep m a with Ok m' => all_ok ok m' l | Err _ => false end
  end.

Lemma mrun_reachable ok m0 m l m' :
  reachable ok m0 m -> all_ok ok m l = true -> mrun m l = Ok m' -> reachable ok m0 m'.
Proof.
  revert m. induction l as [|a l IH]; intros m Hr Hok Hl; cbn in Hok, Hl; [congruence|].
  apply andb_true_iff in Hok as [Hok1 Hok2].
  destruct (mstep m a) as [m1|] eqn:Hs; [|done].
  eapply IH; [|done..]. by eapply reach_step.
Qed.

Lemma reachable_inv ok m0 (I : mon -> Prop) :
  I m0 -> (forall m a m', I m -> ok m a = true -> mstep m a = Ok m' -> I m') ->
  forall m, reachable ok m0 m -> I m.
Proof. intros H0 Hs m Hr. induction Hr; eauto. Qed.

(** ** Wait queues agree with thread states *)

Record mon_wf (m : mon) : Prop := {
  queue_asleep : forall c t, t ∈ waiters m c <->
    exists op, threads m !! t = Some (Asleep op c);
  queue_nodup : forall c, NoDup (waiters m c);
}.

Lemma lookup_wake ts t t' :
  wake t ts !! t' =
    if decide (t' = t) then
      match ts !! t with Some (Asleep op _) => Some (Awake op) | o => o end
    else ts !! t'.
Proof.
  unfold wake. destruct (ts !! t) as [th|] eqn:Ht.
  2:{ case_decide; [by subst|done]. }
  destruct th; case_decide; subst; try done.
  - by rewrite list_lookup_insert_eq by by eapply lookup_lt_Some.
  - by rewrite list_lookup_insert_ne.
Qed.

Lemma lookup_wake_all ts q t :
  foldl (fun ts t => wake t ts) ts q !! t =
    if decide (t ∈ q) then
      match ts !! t with Some (Asleep op _) => Some (Awake op) | o => o end
    else ts !! t.
Proof.
  revert ts. induction q as [|t' q IH]; intros ts; cbn.
  { by rewrite decide_False by apply not_elem_of_nil. }
  rewrite IH, lookup_wake. destruct (decide (t = t')) as [->|Hne].
  - rewrite (decide_True (P := t' ∈ t' :: q)) by left.
    case_decide; [|done]. by destruct (ts !! t') as [[]|].
  - destruct (decide (t ∈ q)).
    + by rewrite decide_True by (by right).
    + rewrite decide_False; [done|]. rewrite elem_of_cons. by intros [].
Qed.

Lemma do_signal_wf s m : mon_wf m -> mon_wf (do_signal s m).
Proof.
  intros [Ha Hn]. destruct s as [c|c]; cbn.
  - destruct (waiters m c) as [|t q] eqn:Hq; [done|].
    pose proof (Hn c) as Hnc. rewrite Hq in Hnc. apply NoDup_cons in Hnc as [Htq Hnq].
    split; cbn.
    + intros c' t'. rewrite lookup_wake. unfold upd_queue.
      assert (Ht : exists op, threads m !! t = Some (Asleep op c))
        by (apply Ha; rewrite Hq; left).
      destruct Ht as [op Ht].
      destruct (decide (c' = c)) as [->|Hc], (decide (t' = t)) as [->|Htt].
      * rewrite Ht. split; [done|]. by intros [? ?].
      * rewrite <- Ha, Hq, elem_of_cons. naive_solver.
      * rewrite Ha, Ht. naive_solver.
      * apply Ha.
    + intros c'. unfold upd_queue. case_decide; [done|apply Hn].
  - split; cbn.
    + intros c' t'. rewrite lookup_wake_all. unfold upd_queue.
      destruct (decide (c' = c)) as [->|Hc].
      * split; [by intros ?%not_elem_of_nil|]. intros [op Hop].
        destruct (decide (t' ∈ waiters m c)) as [Hin|Hin].
        -- destruct (threads m !! t') as [[]|]; done.
        -- destruct Hin. apply Ha. eauto.
      * rewrite Ha. destruct (decide (t' ∈ waiters m c)) as [Hin|Hin]; [|done].
        apply Ha in Hin as [op ->]. naive_solver.
    + intros c'. unfold upd_queue. case_decide; [constructor|apply Hn].
Qed.

Lemma finish_wf m t op s m' :
  mon_wf m -> (forall op' c, threads m !! t <> Some (Asleep op' c)) ->
  is_Some (threads m !! t) -> finish m t op s = Ok m' -> mon_wf m'.
Proof.
  intros [Ha Hn] Ht [th Hth] Hf.
  assert (Hlt : (t < length (threads m))%nat) by by eapply lookup_lt_Some.
  assert (Hnin : forall c, t ∉ waiters m c)
    by (intros c [op' ?]%Ha; by eapply Ht).
  destruct s as [d c|d sigs l|]; cbn in Hf; simplify_eq.
  - split; cbn.
    + intros c' t'. unfold upd_queue.
      destruct (decide (t' = t)) as [->|Htt].
      * rewrite list_lookup_insert_eq by done.
        destruct (decide (c' = c)) as [->|Hc].
        -- rewrite elem_of_app, list_elem_of_singleton. naive_solver.
        -- split; [intros ?; by destruct (Hnin c')|]. intros [? ?]. congruence.
      * rewrite list_lookup_insert_ne by done. rewrite <- Ha.
        case_decide; [|done]. subst. rewrite elem_of_app, list_elem_of_singleton.
        naive_solver.
    + intros c'. unfold upd_queue. case_decide; [|apply Hn]. subst.
      apply NoDup_app. split; [apply Hn|]. split; [|apply NoDup_singleton].
      intros t' Hin ->%list_elem_of_singleton. by eapply Hnin.
  - assert (Hwf : mon_wf (mkMon d (waiters m) (<[t := Idle l]> (threads m)))).
    { split; cbn; [|done]. intros c' t'. rewrite Ha.
      destruct (decide (t' = t)) as [->|Htt].
      - rewrite list_lookup_insert_eq by done. split; intros [? ?]; [|done].
        by destruct (Ht x c').
      - by rewrite list_lookup_insert_ne. }
    revert Hwf. generalize (mkMon d (waiters m) (<[t := Idle l]> (threads m))).
    induction sigs as [|s sigs IH]; intros m0 Hwf; cbn; [done|].
    by apply IH, do_signal_wf.
Qed.

Lemma mstep_wf m a m' : mon_wf m -> mstep m a = Ok m' -> mon_wf m'.
Proof.
  intros Hwf. destruct a as [t op|t]; cbn;
    destruct (threads m !! t) as [[l| |op']|] eqn:Ht; try done.
  - destruct (allowed op l); [|done]. apply finish_wf; [done| |by rewrite Ht].
    intros ?? ?. congruence.
  - apply finish_wf; [done| |by rewrite Ht]. intros ?? ?. congruence.
Qed.

(** Waking threads does not change a count that ignores the
    difference between asleep and awake. *)
Lemma count_wake (P : thread -> bool) ts t :
  (forall op c, P (Asleep op c) = P (Awake op)) -> count P (wake t ts) = count P ts.
Proof.
  intros HP. unfold wake. destruct (ts !! t) as [[]|] eqn:Ht; try done.
  by eapply count_same.
Qed.

Lemma count_signals (P : thread -> bool) sigs m :
  (forall op c, P (Asleep op c) = P (Awake op)) ->
  count P (threads (foldl (fun m s => do_signal s m) m sigs)) = count P (threads m).
Proof.
  intros HP. revert m. induction sigs as [|s sigs IH]; intros m; cbn; [done|].
  rewrite IH. destruct s as [c|c]; cbn.
  - destruct (waiters m c); cbn; [done|]. by apply count_wake.
  - generalize (threads m). induction (waiters m c) as [|t q IHq]; intros ts; cbn; [done|].
    rewrite IHq. by apply count_wake.
Qed.

Lemma data_signals sigs m :
  data (foldl (fun m s => do_signal s m) m sigs) = data m.
Proof.
  revert m. induction sigs as [|s sigs IH]; intros m; cbn; [done|].
  rewrite IH. destruct s as [c|c]; cbn; [by destruct (waiters m c)|done].
Qed.
End monitor.

Arguments signal : clear implicits.
Arguments segment : clear implicits.
Arguments Routines : clear implicits.
Arguments thread : clear implicits.
Arguments mon : clear implicits.
Arguments action : clear implicits.

(** * Refinement between monitors

    Two monitors with the same routines over different data: if every
    segment of the first, mapped through an abstraction of the data, is
    the segment of the second, then every interleaving of the first is
    the same interleaving of the second. *)

Section refinement.
Context {D1 D2 CV Op L : Type} `{EqDecision CV}.
Context `{R1 : !Routines D1 CV Op L, R2 : !Routines D2 CV Op L}.
Context (abs : D1 -> D2) (good : D1 -> Prop).

Definition seg_map (s : segment D1 CV L) : segment D2 CV L :=
  match s with
  | Sleep d c => Sleep (abs d) c
  | Leave d sigs l => Leave (abs d) sigs l
  | Crash => Crash
  end.

Definition seg_good (s : segment D1 CV L) : Prop :=
  match s with
  | Sleep d _ | Leave d _ _ => good d
  | Crash => True
  end.

Definition mon_map (m : mon D1 CV Op L) : mon D2 CV Op L :=
  mkMon (abs (data m)) (waiters m) (threads m).

Class Refines : Prop := {
  ref_enter op l d : good d ->
    seg_good (enter op l d) /\ enter op l (abs d) = seg_map (enter op l d);
  ref_resume op d : good d ->
    seg_good (resume op d) /\ resume op (abs d) = seg_map (resume op d);
  ref_allowed op l : R1.(allowed) op l = R2.(allowed) op l;
}.
Context `{!Refines}.

Definition rmap {A B : Type} (f : A -> B) (r : res A) : res B :=
  match r with Ok a => Ok (f a) | Err e => Err e end.

Lemma mon_map_signal s m : mon_map (do_signal s m) = do_signal s (mon_map m).
Proof. destruct s as [c|c]; cbn; [by destruct (waiters m c)|done]. Qed.

Lemma mon_map_signals sigs m :
  mon_map (foldl (fun m s => do_signal s m) m sigs) =
  foldl (fun m s => do_signal s m) (mon_map m) sigs.
Proof.
  revert m. induction sigs as [|s sigs IH]; intros m; cbn; [done|].
  by rewrite IH, mon_map_signal.
Qed.

Lemma finish_refines m t op s :
  seg_good s ->
  finish (mon_map m) t op (seg_map s) = rmap mon_map (finish m t op s) /\
  (forall m', finish m t op s = Ok m' -> good (data m')).
Proof.
  destruct s as [d c|d sigs l|]; cbn; [naive_solver| |done]. intros Hg.
  rewrite mon_map_signals. split; [done|]. intros m' [= <-]. by rewrite data_signals.
Qed.

Lemma mstep_refines m a :
  good (data m) ->
  mstep (mon_map m) a = rmap mon_map (mstep m a) /\
  (forall m', mstep m a = Ok m' -> good (data m')).
Proof using Type*.
  intros Hg. destruct a as [t op|t]; unfold mstep; cbn [threads mon_map data];
    destruct (threads m !! t) as [[l|op' c|op']|]; try done.
  - rewrite <- ref_allowed. destruct (allowed op l); [|done].
    destruct (ref_enter op l (data m) Hg) as [Hs ->].
    by destruct (finish_refines m t op _ Hs) as [-> Hf].
  - destruct (ref_resume op' (data m) Hg) as [Hs ->].
    by destruct (finish_refines m t op' _ Hs) as [-> Hf].
Qed.

Lemma mrun_refines m l :
  good (data m) -> mrun (mon_map m) l = rmap mon_map (mrun m l).
Proof using Type*.
  revert m. induction l as [|a l IH]; intros m Hg; cbn; [done|].
  destruct (mstep_refines m a Hg) as [-> Hm']. destruct (mstep m a) as [m'|]; cbn; [|done].
  apply IH. by apply Hm'.
Qed.
End refinement.
