(* ===== verification/RwLock.v ===== *)
(** The read-write lock of a cache block (src/src/filesys/rw-lock.c,
    src/src/filesys/rw-lock.h).

    [rw_lock] is the C structure without its monitor lock and condition
    variables, which the monitor semantics of [Monitor] provides.  Each
    routine is given by the segment it runs after [lock_acquire] and,
    for the two that wait, the segment it runs when [cond_wait]
    returns.  The counters are C [int]s that count threads; they are
    kept as integers, since they are bounded by the number of
    threads. *)

From stdpp Require Import options.
From S2P Require Import Prelude Monitor.

Inductive rw_mode := UNLOCKED | READ_LOCKED | WRITE_LOCKED.

#[global] Instance rw_mode_eq_dec : EqDecision rw_mode.
Proof. solve_decision. Defined.

Record rw_lock := mkRw {
  num_readers : Z;
  num_writers : Z;
  pending_readers : Z;
  pending_writer : bool;
  reader_next : bool;
  mode : rw_mode;
}.

Inductive rw_cond := can_read | can_write.

#[global] Instance rw_cond_eq_dec : EqDecision rw_cond.
Proof. solve_decision. Defined.

Inductive rw_op :=
| ReadAcquire | ReadRelease | WriteAcquire | WriteTryAcquire | WriteRelease.

(** What a thread outside the lock's routines holds. *)
Inductive held := Free | Reading | Writing.

Definition rw_lock_init : rw_lock := mkRw 0 0 0 false false UNLOCKED.

Abbreviation rw_segment := (segment rw_lock rw_cond held).

(** The [while] test, the increment and the exit of
    [read_lock_acquire]. *)
Definition read_lock_loop (l : rw_lock) : rw_segment :=
  if ((0 <? num_writers l) || pending_writer l) && negb (reader_next l) then
    Sleep (mkRw (num_readers l) (num_writers l) (pending_readers l + 1)
             (pending_writer l) (reader_next l) (mode l)) can_read
  else
    Leave (mkRw (num_readers l + 1) (num_writers l) (pending_readers l)
             (pending_writer l) (reader_next l) (mode l)) [] Reading.

Definition read_lock_acquire (l : rw_lock) : rw_segment := read_lock_loop l.

(** After [cond_wait] returns. *)
Definition read_lock_resume (l : rw_lock) : rw_segment :=
  read_lock_loop (mkRw (num_readers l) (num_writers l) (pending_readers l - 1)
                    (pending_writer l) (reader_next l) (mode l)).

Definition read_lock_release (l : rw_lock) : rw_segment :=
  Leave (mkRw (num_readers l - 1) (num_writers l) (pending_readers l)
           (pending_writer l) false (mode l)) [One can_write] Free.

Definition write_lock_loop (l : rw_lock) : rw_segment :=
  if (0 <? num_readers l) || (0 <? num_writers l) || reader_next l then
    Sleep (mkRw (num_readers l) (num_writers l) (pending_readers l)
             true (reader_next l) (mode l)) can_write
  else
    let num_writers' := num_writers l + 1 in
    if num_writers' =? 1 then
      Leave (mkRw (num_readers l) num_writers' (pending_readers l)
               (pending_writer l) (reader_next l) (mode l)) [] Writing
    else Crash.

Definition write_lock_acquire (l : rw_lock) : rw_segment := write_lock_loop l.

Definition write_lock_resume (l : rw_lock) : rw_segment :=
  write_lock_loop (mkRw (num_readers l) (num_writers l) (pending_readers l)
                     false (reader_next l) (mode l)).

Definition write_lock_try_acquire (l : rw_lock) : rw_segment :=
  if (0 <? num_readers l) || (0 <? num_writers l) then Leave l [] Free
  else
    Leave (mkRw (num_readers l) (num_writers l + 1) (pending_readers l)
             (pending_writer l) (reader_next l) (mode l)) [] Writing.

Definition write_lock_release (l : rw_lock) : rw_segment :=
  let num_writers' := num_writers l - 1 in
  if num_writers' =? 0 then
    if pending_readers l =? 0 then
      Leave (mkRw (num_readers l) num_writers' (pending_readers l)
               (pending_writer l) (reader_next l) (mode l)) [One can_write] Free
    else
      Leave (mkRw (num_readers l) num_writers' (pending_readers l)
               (pending_writer l) true (mode l)) [All can_read] Free
  else Crash.

(** A thread releases only what it holds, and does not acquire a lock
    it already holds. *)
#[global] Instance rw_routines : Routines rw_lock rw_cond rw_op held := {
  enter op _ l :=
    match op with
    | ReadAcquire => read_lock_acquire l
    | ReadRelease => read_lock_release l
    | WriteAcquire => write_lock_acquire l
    | WriteTryAcquire => write_lock_try_acquire l
    | WriteRelease => write_lock_release l
    end;
  resume op l :=
    match op with
    | ReadAcquire => read_lock_resume l
    | WriteAcquire => write_lock_resume l
    | _ => Crash
    end;
  allowed op h :=
    match op, h with
    | (ReadAcquire | WriteAcquire | WriteTryAcquire), Free => true
    | ReadRelease, Reading => true
    | WriteRelease, Writing => true
    | _, _ => false
    end;
}.

Abbreviation rw_state := (mon rw_lock rw_cond rw_op held).
Abbreviation rw_thread := (thread rw_cond rw_op held).

(** [n] threads and a fresh lock. *)
Definition rw_start (n : nat) : rw_state :=
  mkMon rw_lock_init (fun _ => []) (replicate n (Idle Free)).

(** * What the counters count *)

Definition is_reading (t : rw_thread) : bool :=
  match t with Idle Reading => true | _ => false end.
Definition is_writing (t : rw_thread) : bool :=
  match t with Idle Writing => true | _ => false end.
Definition waits_to_read (t : rw_thread) : bool :=
  match t with Asleep ReadAcquire _ | Awake ReadAcquire => true | _ => false end.
Definition waits_to_write (t : rw_thread) : bool :=
  match t with Asleep WriteAcquire _ | Awake WriteAcquire => true | _ => false end.
Definition well_placed (t : rw_thread) : bool :=
  match t with
  | Asleep ReadAcquire can_read | Asleep WriteAcquire can_write => true
  | Asleep _ _ => false
  | Awake (ReadAcquire | WriteAcquire) => true
  | Awake _ => false
  | Idle _ => true
  end.

Definition awake (op : rw_op) (m : rw_state) : Prop :=
  exists t, threads m !! t = Some (Awake op).

Record rw_inv (m : rw_state) : Prop := {
  inv_wf : mon_wf m;
  inv_placed : forall t th, threads m !! t = Some th -> well_placed th = true;
  inv_readers : num_readers (data m) = Z.of_nat (count is_reading (threads m));
  inv_writers : num_writers (data m) = Z.of_nat (count is_writing (threads m));
  inv_one_writer : num_writers (data m) <= 1;
  inv_pending : pending_readers (data m) = Z.of_nat (count waits_to_read (threads m));
  inv_pending_writer : pending_writer (data m) = true ->
    (0 < count waits_to_write (threads m))%nat;
  inv_reader_next : reader_next (data m) = true ->
    0 < num_readers (data m) \/ awake ReadAcquire m;
  inv_wait_read : waiters m can_read <> [] ->
    0 < num_writers (data m) \/ (0 < count waits_to_write (threads m))%nat;
  inv_wait_write : waiters m can_write <> [] ->
    0 < num_readers (data m) \/ 0 < num_writers (data m) \/
    reader_next (data m) = true \/ awake WriteAcquire m;
}.

(** * Preservation *)

Lemma well_placed_wake (ts : list rw_thread) t :
  (forall u th, ts !! u = Some th -> well_placed th = true) ->
  forall u th, wake t ts !! u = Some th -> well_placed th = true.
Proof.
  intros Hp u th. rewrite lookup_wake. case_decide; [|apply Hp]. subst.
  destruct (ts !! t) as [[| |]|] eqn:Ht; intros; simplify_eq; try by eapply Hp.
  specialize (Hp _ _ Ht). by destruct op, c.
Qed.

Lemma well_placed_wake_all (q : list nat) (ts : list rw_thread) :
  (forall u th, ts !! u = Some th -> well_placed th = true) ->
  forall u th, foldl (fun ts t => wake t ts) ts q !! u = Some th -> well_placed th = true.
Proof.
  revert ts. induction q as [|t q IH]; intros ts Hp; cbn; [done|].
  apply IH. by apply well_placed_wake.
Qed.

Lemma well_placed_insert (ts : list rw_thread) t th' :
  (forall u th, ts !! u = Some th -> well_placed th = true) ->
  well_placed th' = true ->
  forall u th, <[t := th']> ts !! u = Some th -> well_placed th = true.
Proof. intros Hp Hth u th [(<- & <- & _)|[_ ?]]%list_lookup_insert_Some; eauto. Qed.

Lemma awake_signal op (s : signal rw_cond) (m : rw_state) :
  awake op m -> awake op (do_signal s m).
Proof.
  intros [t Ht]. exists t. destruct s as [c|c]; cbn.
  - destruct (waiters m c) as [|u q]; cbn; [done|]. rewrite lookup_wake.
    case_decide; subst; by rewrite ?Ht.
  - rewrite lookup_wake_all, Ht. by case_decide.
Qed.

Lemma awake_insert op (m : rw_state) d q t th th' :
  threads m !! t = Some th -> th <> Awake op -> awake op m ->
  awake op (mkMon d q (<[t := th']> (threads m))).
Proof.
  intros Ht Hne [u Hu]. exists u. cbn. rewrite list_lookup_insert_ne; [done|].
  intros ->. congruence.
Qed.

(** Signalling [can_write] while a writer sleeps wakes a writer. *)
Lemma signal_wakes_writer (m : rw_state) :
  mon_wf m -> (forall t th, threads m !! t = Some th -> well_placed th = true) ->
  waiters m can_write <> [] -> awake WriteAcquire (do_signal (One can_write) m).
Proof.
  intros [Ha _] Hp Hne. cbn. destruct (waiters m can_write) as [|t q] eqn:Hq; [done|].
  destruct (proj1 (Ha can_write t)) as [op Hop]; [rewrite Hq; left|].
  exists t. cbn. rewrite lookup_wake, decide_True, Hop by done.
  specialize (Hp _ _ Hop). by destruct op.
Qed.

(** The broadcast to [can_read] leaves every pending reader awake. *)
Lemma broadcast_wakes_readers (m : rw_state) :
  mon_wf m -> (forall t th, threads m !! t = Some th -> well_placed th = true) ->
  (0 < count waits_to_read (threads m))%nat ->
  awake ReadAcquire (do_signal (All can_read) m).
Proof.
  intros [Ha _] Hp (t & th & Ht & Hw)%count_exists. exists t. cbn.
  rewrite lookup_wake_all, Ht. pose proof (Hp _ _ Ht) as Hpt.
  destruct th as [l|op c|op]; [done|..]; destruct op; try done.
  - destruct c; [|done]. rewrite decide_True; [done|]. apply Ha. eauto.
  - by case_decide.
Qed.

(** The four counts after a thread changes state. *)
Ltac counts Ht th' :=
  pose proof (count_insert is_reading _ _ _ th' Ht);
  pose proof (count_insert is_writing _ _ _ th' Ht);
  pose proof (count_insert waits_to_read _ _ _ th' Ht);
  pose proof (count_insert waits_to_write _ _ _ th' Ht);
  cbn [is_reading is_writing waits_to_read waits_to_write] in *.

Lemma rw_inv_sleep_read (m : rw_state) t th d :
  rw_inv m -> threads m !! t = Some th -> th = Idle Free \/ th = Awake ReadAcquire ->
  d = mkRw (num_readers (data m)) (num_writers (data m))
        (pending_readers (data m) + (if waits_to_read th then 0 else 1))
        (pending_writer (data m)) (reader_next (data m)) (mode (data m)) ->
  0 < num_writers (data m) \/ pending_writer (data m) = true ->
  reader_next (data m) = false ->
  mon_wf (mkMon d (upd_queue (waiters m) can_read (waiters m can_read ++ [t]))
            (<[t := Asleep ReadAcquire can_read]> (threads m))) ->
  rw_inv (mkMon d (upd_queue (waiters m) can_read (waiters m can_read ++ [t]))
            (<[t := Asleep ReadAcquire can_read]> (threads m))).
Proof.
  intros [_ Hp Hr Hw H1 Hpd Hpw Hrn Hwr Hww] Ht Hth -> Hcond Hnn Hwf.
  counts Ht (@Asleep rw_cond rw_op held ReadAcquire can_read).
  split; cbn in *; [done| |..].
  - by apply well_placed_insert.
  - destruct Hth as [-> | ->]; cbn in *; lia.
  - destruct Hth as [-> | ->]; cbn in *; lia.
  - done.
  - destruct Hth as [-> | ->]; cbn in *; lia.
  - intros ?%Hpw. destruct Hth as [-> | ->]; cbn in *; lia.
  - congruence.
  - intros _. destruct Hcond as [|?%Hpw]; [by left|right].
    destruct Hth as [-> | ->]; cbn in *; lia.
  - unfold upd_queue. cbn. intros Hne. destruct (Hww Hne) as [?|[?|[?|?]]]; auto.
    right; right; right. eapply awake_insert; [done| |done].
    by destruct Hth as [-> | ->].
Qed.

Lemma rw_inv_sleep_write (m : rw_state) t th d :
  rw_inv m -> threads m !! t = Some th -> th = Idle Free \/ th = Awake WriteAcquire ->
  d = mkRw (num_readers (data m)) (num_writers (data m)) (pending_readers (data m))
        true (reader_next (data m)) (mode (data m)) ->
  0 < num_readers (data m) \/ 0 < num_writers (data m) \/ reader_next (data m) = true ->
  mon_wf (mkMon d (upd_queue (waiters m) can_write (waiters m can_write ++ [t]))
            (<[t := Asleep WriteAcquire can_write]> (threads m))) ->
  rw_inv (mkMon d (upd_queue (waiters m) can_write (waiters m can_write ++ [t]))
            (<[t := Asleep WriteAcquire can_write]> (threads m))).
Proof.
  intros [_ Hp Hr Hw H1 Hpd Hpw Hrn Hwr Hww] Ht Hth -> Hcond Hwf.
  counts Ht (@Asleep rw_cond rw_op held WriteAcquire can_write).
  assert (0 < count waits_to_write
            (<[t := Asleep WriteAcquire can_write]> (threads m)))%nat.
  { eapply count_pos; [apply list_lookup_insert_eq; by eapply lookup_lt_Some|done]. }
  split; cbn in *; [done| |..]; auto.
  - by apply well_placed_insert.
  - destruct Hth as [-> | ->]; cbn in *; lia.
  - destruct Hth as [-> | ->]; cbn in *; lia.
  - destruct Hth as [-> | ->]; cbn in *; lia.
  - intros Hn. destruct (Hrn Hn) as [?|?]; [by left|right].
    eapply awake_insert; [done| |done]. by destruct Hth as [-> | ->].
  - intros _. destruct Hcond as [?|[?|?]]; auto.
Qed.

(** Leaving with nothing to signal, holding the lock. *)
Lemma rw_inv_acquired_read (m : rw_state) t th d :
  rw_inv m -> threads m !! t = Some th -> th = Idle Free \/ th = Awake ReadAcquire ->
  d = mkRw (num_readers (data m) + 1) (num_writers (data m))
        (pending_readers (data m) - (if waits_to_read th then 1 else 0))
        (pending_writer (data m)) (reader_next (data m)) (mode (data m)) ->
  mon_wf (mkMon d (waiters m) (<[t := Idle Reading]> (threads m))) ->
  rw_inv (mkMon d (waiters m) (<[t := Idle Reading]> (threads m))).
Proof.
  intros [_ Hp Hr Hw H1 Hpd Hpw Hrn Hwr Hww] Ht Hth -> Hwf.
  counts Ht (@Idle rw_cond rw_op held Reading).
  split; cbn in *; [done|by apply well_placed_insert|..];
    destruct Hth as [-> | ->]; cbn in *; try lia.
  all: try (intros ?%Hpw; lia).
  all: intros Hne; destruct (Hwr Hne); [by left|right; lia].
Qed.

Lemma rw_inv_acquired_write (m : rw_state) t th d :
  rw_inv m -> threads m !! t = Some th -> th = Idle Free \/ th = Awake WriteAcquire ->
  num_writers (data m) <= 0 ->
  th = Idle Free \/ pending_writer d = false /\ reader_next (data m) = false ->
  d = mkRw (num_readers (data m)) (num_writers (data m) + 1) (pending_readers (data m))
        (pending_writer d) (reader_next (data m)) (mode (data m)) ->
  (pending_writer d = true -> pending_writer (data m) = true) ->
  mon_wf (mkMon d (waiters m) (<[t := Idle Writing]> (threads m))) ->
  rw_inv (mkMon d (waiters m) (<[t := Idle Writing]> (threads m))).
Proof.
  intros [_ Hp Hr Hw H1 Hpd Hpw Hrn Hwr Hww] Ht Hth Hnw Hcase Hd Hpwd Hwf.
  counts Ht (@Idle rw_cond rw_op held Writing). rewrite Hd in *. cbn in *.
  split; cbn; [done|by apply well_placed_insert|..];
    try (destruct Hth as [-> | ->]; cbn in *; lia).
  - intros Hpt. pose proof (Hpw (Hpwd Hpt)).
    destruct Hcase as [-> |[? _]]; [cbn in *; lia|congruence].
  - intros Hn. destruct Hcase as [-> |[_ ?]]; [|congruence].
    destruct (Hrn Hn) as [?|?]; [by left|right]. by eapply awake_insert.
Qed.

Lemma rw_inv_read_release (m : rw_state) t m' :
  rw_inv m -> threads m !! t = Some (Idle Reading) ->
  finish m t ReadRelease (read_lock_release (data m)) = Ok m' -> mon_wf m' -> rw_inv m'.
Proof.
  intros [Hwf0 Hp Hr Hw H1 Hpd Hpw Hrn Hwr Hww] Ht Hf Hwf.
  set (m1 := @mkMon rw_lock rw_cond rw_op held
               (mkRw (num_readers (data m) - 1) (num_writers (data m))
                  (pending_readers (data m)) (pending_writer (data m)) false
                  (mode (data m)))
               (waiters m) (<[t := Idle Free]> (threads m))).
  assert (Hm' : m' = do_signal (One can_write) m1) by by injection Hf.
  subst m'. clear Hf.
  assert (Hwf1 : mon_wf m1).
  { eapply (finish_wf m t ReadRelease (Leave (data m1) [] Free)); [done| | |done];
      [intros ??; congruence|by rewrite Ht]. }
  assert (Hp1 : forall u th, threads m1 !! u = Some th -> well_placed th = true)
    by by apply well_placed_insert.
  pose proof (count_signals is_reading [One can_write] m1 ltac:(done)).
  pose proof (count_signals is_writing [One can_write] m1 ltac:(done)).
  pose proof (count_signals waits_to_read [One can_write] m1 ltac:(by destruct op)).
  pose proof (count_signals waits_to_write [One can_write] m1 ltac:(by destruct op)).
  pose proof (data_signals [One can_write] m1) as Hdata.
  cbn [foldl] in *. set (m2 := do_signal (One can_write) m1) in *.
  counts Ht (@Idle rw_cond rw_op held Free).
  split; [done|..]; rewrite ?Hdata; cbn [data m1 threads num_readers num_writers
    pending_readers pending_writer reader_next] in *; try lia.
  - unfold m2. cbn. destruct (waiters m can_write); [done|]. by apply well_placed_wake.
  - intros ?%Hpw. lia.
  - intros Hne. destruct Hwr as [?|?]; [|by left|right; lia].
    intros E. apply Hne. unfold m2. cbn. by destruct (waiters m can_write).
  - intros Hne. right; right; right. apply signal_wakes_writer; [done..|].
    intros E. apply Hne. unfold m2. cbn in E |- *. by rewrite E.
Qed.

Lemma rw_inv_write_release (m : rw_state) t m' :
  rw_inv m -> threads m !! t = Some (Idle Writing) ->
  finish m t WriteRelease (write_lock_release (data m)) = Ok m' -> mon_wf m' -> rw_inv m'.
Proof.
  intros [Hwf0 Hp Hr Hw H1 Hpd Hpw Hrn Hwr Hww] Ht Hf Hwf.
  assert (Hnw : num_writers (data m) = 1).
  { pose proof (count_pos is_writing _ _ _ Ht eq_refl). lia. }
  unfold write_lock_release in Hf. rewrite Hnw in Hf. cbn [Z.sub Z.add Z.opp Z.eqb] in Hf.
  set (s := if pending_readers (data m) =? 0 then One can_write else All can_read).
  set (d := mkRw (num_readers (data m)) 0 (pending_readers (data m))
              (pending_writer (data m))
              (if pending_readers (data m) =? 0 then reader_next (data m) else true)
              (mode (data m))).
  set (m1 := @mkMon rw_lock rw_cond rw_op held d (waiters m)
               (<[t := Idle Free]> (threads m))).
  assert (Hm' : m' = do_signal s m1).
  { unfold s, m1, d. destruct (pending_readers (data m) =? 0); by injection Hf. }
  subst m'. clear Hf.
  assert (Hwf1 : mon_wf m1).
  { eapply (finish_wf m t WriteRelease (Leave d [] Free)); [done| | |done];
      [intros ??; congruence|by rewrite Ht]. }
  assert (Hp1 : forall u th, threads m1 !! u = Some th -> well_placed th = true)
    by by apply well_placed_insert.
  pose proof (count_signals is_reading [s] m1 ltac:(done)).
  pose proof (count_signals is_writing [s] m1 ltac:(done)).
  pose proof (count_signals waits_to_read [s] m1 ltac:(by destruct op)).
  pose proof (count_signals waits_to_write [s] m1 ltac:(by destruct op)).
  pose proof (data_signals [s] m1) as Hdata.
  cbn [foldl] in *. set (m2 := do_signal s m1) in *.
  counts Ht (@Idle rw_cond rw_op held Free).
  assert (Hq : waiters m2 can_read = []).
  { unfold m2, s. destruct (Z.eqb_spec (pending_readers (data m)) 0) as [Hz|Hz]; [|done].
    cbn. destruct (waiters m can_read) as [|u q] eqn:Hq.
    - by destruct (waiters m can_write).
    - destruct (proj1 (queue_asleep m Hwf0 can_read u)) as [op Hop]; [rewrite Hq; left|].
      pose proof (Hp _ _ Hop). destruct op; try done.
      pose proof (count_pos waits_to_read _ _ _ Hop eq_refl). lia. }
  split; [done|..]; rewrite ?Hdata; cbn [data m1 d threads num_readers num_writers
    pending_readers pending_writer reader_next] in *; try lia.
  - unfold m2, s. destruct (_ =? 0); cbn.
    + destruct (waiters m can_write); [done|]. by apply well_placed_wake.
    + by apply well_placed_wake_all.
  - intros ?%Hpw. lia.
  - destruct (Z.eqb_spec (pending_readers (data m)) 0) as [Hz|Hz].
    + intros [?|?]%Hrn; [by left|right]. unfold m2. apply awake_signal.
      by eapply awake_insert.
    + intros _. right. unfold m2, s.
      apply broadcast_wakes_readers; [done..|]. cbn. lia.
  - rewrite Hq. done.
  - intros Hne. unfold m2, s in *.
    destruct (Z.eqb_spec (pending_readers (data m)) 0) as [Hz|Hz]; [|by auto].
    right; right; right. apply signal_wakes_writer; [done..|].
    intros E. apply Hne. cbn in E |- *. by rewrite E.
Qed.

Lemma rw_inv_step (m : rw_state) a m' : rw_inv m -> mstep m a = Ok m' -> rw_inv m'.
Proof.
  intros Hinv Hs. pose proof (mstep_wf m a m' (inv_wf m Hinv) Hs) as Hwf.
  pose proof (inv_placed m Hinv) as Hp.
  destruct a as [t op|t]; cbn in Hs;
    destruct (threads m !! t) as [[l|op' c'|op']|] eqn:Ht; try done.
  - destruct op, l; try done; cbn in Hs.
    + unfold read_lock_acquire, read_lock_loop in Hs.
      destruct (_ && _) eqn:Hc; cbn in Hs; simplify_eq.
      * apply andb_true_iff in Hc as [Hc ?%negb_true_iff].
        eapply rw_inv_sleep_read; [done..|by left|done| |done|done].
        apply orb_true_iff in Hc as [?%Z.ltb_lt|?]; auto.
      * eapply rw_inv_acquired_read; [done..|by left| |done]. cbn. by rewrite Z.sub_0_r.
    + by eapply rw_inv_read_release.
    + unfold write_lock_acquire, write_lock_loop in Hs.
      destruct (_ || _ || _) eqn:Hc; cbn in Hs; simplify_eq.
      * eapply rw_inv_sleep_write; [done..|by left|done| |done].
        rewrite !orb_true_iff, !Z.ltb_lt in Hc. tauto.
      * apply orb_false_iff in Hc as [[? ?%Z.ltb_ge]%orb_false_iff ?].
        destruct (_ =? 1); [|done]. cbn in Hs. simplify_eq.
        eapply rw_inv_acquired_write; [done..|by left|done|by left|done|done|done].
    + unfold write_lock_try_acquire in Hs. destruct (_ || _) eqn:Hc; cbn in Hs; simplify_eq.
      * rewrite list_insert_id by done. by destruct m.
      * apply orb_false_iff in Hc as [? ?%Z.ltb_ge].
        eapply rw_inv_acquired_write; [done..|by left|done|by left|done|done|done].
    + by eapply rw_inv_write_release.
  - pose proof (Hp _ _ Ht). destruct op'; try done; cbn in Hs.
    + unfold read_lock_resume, read_lock_loop in Hs. cbn in Hs.
      destruct (_ && _) eqn:Hc; cbn in Hs; simplify_eq.
      * apply andb_true_iff in Hc as [Hc ?%negb_true_iff].
        eapply rw_inv_sleep_read; [done..|by right| | |done|done].
        -- cbn. f_equal. lia.
        -- apply orb_true_iff in Hc as [?%Z.ltb_lt|?]; auto.
      * by eapply rw_inv_acquired_read; [done..|by right| |].
    + unfold write_lock_resume, write_lock_loop in Hs. cbn in Hs.
      destruct (_ || _ || _) eqn:Hc; cbn in Hs; simplify_eq.
      * eapply rw_inv_sleep_write; [done..|by right|done| |done].
        rewrite !orb_true_iff, !Z.ltb_lt in Hc. tauto.
      * apply orb_false_iff in Hc as [[? ?%Z.ltb_ge]%orb_false_iff ?].
        destruct (_ =? 1); [|done]. cbn in Hs. simplify_eq.
        eapply rw_inv_acquired_write; [done..|by right|done|by right|done|done|done].
Qed.

Lemma count_replicate_idle (P : rw_thread -> bool) n :
  P (Idle Free) = false -> count P (replicate n (Idle Free)) = 0%nat.
Proof. intros HP. induction n as [|n IH]; [done|]. cbn [replicate]. by rewrite count_cons, HP. Qed.

Lemma rw_inv_start n : rw_inv (rw_start n).
Proof.
  split; cbn; rewrite ?count_replicate_idle by done; try done.
  - split; cbn; [|constructor]. intros c t. split; [by intros ?%not_elem_of_nil|].
    intros [op [? ?]%lookup_replicate]. done.
  - by intros t th [-> _]%lookup_replicate.
Qed.

Lemma rw_reachable_inv ok n m : reachable ok (rw_start n) m -> rw_inv m.
Proof.
  apply reachable_inv; [apply rw_inv_start|]. intros ??? Hi _. by apply rw_inv_step.
Qed.

(** [write_lock_try_acquire] does not look at [reader_next]: the steps
    in which it is called while the next turn is a reader's are singled
    out. *)
Definition calm (m : rw_state) (a : action rw_op) : bool :=
  match a with
  | Call _ WriteTryAcquire => negb (reader_next (data m))
  | _ => true
  end.

Definition rw_excl (m : rw_state) : Prop :=
  (0 < num_writers (data m) -> num_readers (data m) = 0) /\
  (reader_next (data m) = true -> num_writers (data m) = 0).

Lemma finish_data (m m' : rw_state) t op s :
  finish m t op s = Ok m' ->
  match s with Sleep d _ | Leave d _ _ => data m' = d | Crash => False end.
Proof.
  destruct s; cbn; intros; simplify_eq; [done|]. apply data_signals.
Qed.

Lemma rw_excl_step (m : rw_state) a m' :
  rw_inv m -> rw_excl m -> calm m a = true -> mstep m a = Ok m' -> rw_excl m'.
Proof.
  intros Hinv [He1 He2] Hcalm Hs. unfold rw_excl. pose proof (inv_one_writer m Hinv).
  pose proof (inv_readers m Hinv). pose proof (inv_writers m Hinv).
  pose proof (inv_placed m Hinv) as Hp.
  destruct a as [t op|t]; unfold mstep in Hs;
    destruct (threads m !! t) as [[l|op' c'|op']|] eqn:Ht; try done.
  - destruct op, l; cbn [allowed rw_routines] in Hs; try done;
      apply finish_data in Hs; cbn [enter rw_routines] in Hs;
      unfold read_lock_acquire, read_lock_loop, read_lock_release, write_lock_acquire,
        write_lock_loop, write_lock_try_acquire, write_lock_release in Hs.
    + destruct (_ && _) eqn:Hc; rewrite Hs; split; cbn; auto.
      intros Hw. apply andb_false_iff in Hc as [Hc|Hc].
      * apply orb_false_iff in Hc as [?%Z.ltb_ge _]. lia.
      * apply negb_false_iff, He2 in Hc. lia.
    + rewrite Hs. split; cbn; [|done]. intros Hw%He1.
      pose proof (count_pos is_reading _ _ _ Ht eq_refl). lia.
    + destruct (_ || _ || _) eqn:Hc; [rewrite Hs; by split|].
      rewrite !orb_false_iff, !Z.ltb_ge in Hc. destruct (_ =? 1); [|done].
      rewrite Hs. split; cbn; [lia|]. destruct Hc as [_ ->]. done.
    + cbn in Hcalm. apply negb_true_iff in Hcalm.
      destruct (_ || _) eqn:Hc; [rewrite Hs; by split|].
      rewrite orb_false_iff, !Z.ltb_ge in Hc. rewrite Hs.
      split; cbn; [lia|congruence].
    + destruct (Z.eqb_spec (num_writers (data m) - 1) 0); [|done].
      destruct (_ =? 0); rewrite Hs; split; cbn; lia || auto.
  - pose proof (Hp _ _ Ht). apply finish_data in Hs. destruct op'; try done; cbn in Hs;
      unfold read_lock_resume, read_lock_loop, write_lock_resume, write_lock_loop in Hs;
      cbn in Hs.
    + destruct (_ && _) eqn:Hc; rewrite Hs; split; cbn; auto.
      intros Hw. apply andb_false_iff in Hc as [Hc|Hc].
      * apply orb_false_iff in Hc as [?%Z.ltb_ge _]. lia.
      * apply negb_false_iff, He2 in Hc. lia.
    + destruct (_ || _ || _) eqn:Hc; [rewrite Hs; by split|].
      rewrite !orb_false_iff, !Z.ltb_ge in Hc. destruct (_ =? 1); [|done].
      rewrite Hs. split; cbn; [lia|]. destruct Hc as [_ ->]. done.
Qed.

(** * Results *)

(** Exclusion: while a thread writes, no other thread reads or
    writes. *)
Theorem rwlock_exclusion (n : nat) (m : rw_state) (t u : nat)
    (Hr : reachable calm (rw_start n) m)
    (Ht : threads m !! t = Some (Idle Writing)) (Hne : u <> t) :
  threads m !! u <> Some (Idle Reading) /\ threads m !! u <> Some (Idle Writing).
Proof.
  assert (rw_inv m /\ rw_excl m) as [Hinv [He _]].
  { revert Hr. apply (reachable_inv calm _ (fun m => rw_inv m /\ rw_excl m)).
    - split; [apply rw_inv_start|]. by split.
    - intros m1 a m2 [] Hok Hs. split; [by eapply rw_inv_step|by eapply rw_excl_step]. }
  destruct Hinv. split; intros Hu.
  - pose proof (count_pos is_writing _ _ _ Ht eq_refl).
    pose proof (count_pos is_reading _ _ _ Hu eq_refl). lia.
  - apply Hne. eapply (count_unique is_writing (threads m)); [lia|done..].
Qed.

(** No [ASSERT] of the lock fails, whatever the interleaving. *)
Theorem rwlock_no_assert_failure (n : nat) (m : rw_state) (a : action rw_op)
    (Hr : reachable any_step (rw_start n) m) :
  mstep m a <> Err Panic.
Proof.
  apply rw_reachable_inv in Hr. destruct Hr. destruct a as [t op|t]; cbn;
    destruct (threads m !! t) as [[l|op' c'|op']|] eqn:Ht; try done.
  - destruct op, l; try done; cbn; unfold read_lock_acquire, read_lock_loop,
      write_lock_acquire, write_lock_loop, write_lock_try_acquire, write_lock_release.
    + by destruct (_ && _).
    + destruct (_ || _ || _) eqn:Hc; [done|].
      rewrite !orb_false_iff, !Z.ltb_ge in Hc. rewrite eqb_true by lia. done.
    + by destruct (_ || _).
    + pose proof (count_pos is_writing _ _ _ Ht eq_refl).
      rewrite eqb_true by lia. by destruct (_ =? 0).
  - specialize (inv_placed0 _ _ Ht). destruct op'; try done; cbn;
      unfold read_lock_resume, read_lock_loop, write_lock_resume, write_lock_loop; cbn.
    + by destruct (_ && _).
    + destruct (_ || _ || _) eqn:Hc; [done|].
      rewrite !orb_false_iff, !Z.ltb_ge in Hc. rewrite eqb_true by lia. done.
Qed.

(** No lost wake-up: whenever a thread sleeps in the lock, some thread
    holds the lock or has been woken. *)
Theorem rwlock_no_lost_wakeup (n : nat) (m : rw_state) (t : nat) (op : rw_op) (c : rw_cond)
    (Hr : reachable any_step (rw_start n) m)
    (Ht : threads m !! t = Some (Asleep op c)) :
  exists u, threads m !! u = Some (Idle Reading) \/
            threads m !! u = Some (Idle Writing) \/
            exists op', threads m !! u = Some (Awake op').
Proof.
  apply rw_reachable_inv in Hr. destruct Hr as [[Ha _] Hp Hrd Hwt _ _ _ Hrn Hwr Hww].
  assert (Hread : 0 < num_readers (data m) -> exists u, threads m !! u = Some (Idle Reading)).
  { intros. destruct (count_exists is_reading (threads m)) as (u & th & Hu & Hth); [lia|].
    exists u. by destruct th as [[]| |]. }
  assert (Hwrite : 0 < num_writers (data m) -> exists u, threads m !! u = Some (Idle Writing)).
  { intros. destruct (count_exists is_writing (threads m)) as (u & th & Hu & Hth); [lia|].
    exists u. by destruct th as [[]| |]. }
  assert (Hw : waiters m can_write <> [] -> exists u,
    threads m !! u = Some (Idle Reading) \/ threads m !! u = Some (Idle Writing) \/
    exists op', threads m !! u = Some (Awake op')).
  { intros Hne. destruct (Hww Hne) as [H|[H|[H|[u Hu]]]]; [naive_solver..| |naive_solver].
    destruct (Hrn H) as [H'|[u Hu]]; naive_solver. }
  pose proof (Hp _ _ Ht) as Hpt.
  destruct op, c; try done; pose proof (proj2 (Ha _ t) (ex_intro _ _ Ht)) as Hin.
  - destruct Hwr as [H|H]; [by intros E; rewrite E in Hin; apply not_elem_of_nil in Hin
                           |naive_solver|].
    apply count_exists in H as (u & th & Hu & Hth).
    destruct th as [|op' c'|op']; try done; destruct op'; try done; [|naive_solver].
    apply Hw. pose proof (Hp _ _ Hu). destruct c'; [done|].
    pose proof (proj2 (Ha can_write u) (ex_intro _ _ Hu)) as Hin'.
    intros E. rewrite E in Hin'. by apply not_elem_of_nil in Hin'.
  - apply Hw. intros E. rewrite E in Hin. by apply not_elem_of_nil in Hin.
Qed.

(** A run in which thread 0 writes and thread 1 waits to read. *)
Definition writer_and_waiting_reader : list (action rw_op) :=
  [Call 0 WriteAcquire; Call 1 ReadAcquire].

Lemma rwlock_exclusion_witness :
  exists m : rw_state, threads m !! 0%nat = Some (Idle Writing) /\
    threads m !! 1%nat <> Some (Idle Reading) /\
    threads m !! 1%nat <> Some (Idle Writing).
Proof.
  destruct (mrun (rw_start 2) writer_and_waiting_reader) as [m|] eqn:Hrun;
    [|vm_compute in Hrun; discriminate].
  assert (Ht : threads m !! 0%nat = Some (Idle Writing))
    by (vm_compute in Hrun; injection Hrun as <-; reflexivity).
  exists m. split; [exact Ht|].
  apply (rwlock_exclusion 2 m 0 1); [|exact Ht|discriminate].
  apply (mrun_reachable calm _ (rw_start 2) writer_and_waiting_reader);
    [apply reach_init|vm_compute; reflexivity|exact Hrun].
Defined.

Lemma rwlock_no_assert_failure_witness :
  mstep (rw_start 2) (Call 0 WriteAcquire) <> Err Panic.
Proof. apply (rwlock_no_assert_failure 2). apply reach_init. Defined.

Lemma rwlock_no_lost_wakeup_witness :
  exists (m : rw_state) u, threads m !! 1%nat = Some (Asleep ReadAcquire can_read) /\
    (threads m !! u = Some (Idle Reading) \/ threads m !! u = Some (Idle Writing) \/
     exists op', threads m !! u = Some (Awake op')).
Proof.
  destruct (mrun (rw_start 2) writer_and_waiting_reader) as [m|] eqn:Hrun;
    [|vm_compute in Hrun; discriminate].
  assert (Ht : threads m !! 1%nat = Some (Asleep ReadAcquire can_read))
    by (vm_compute in Hrun; injection Hrun as <-; reflexivity).
  destruct (rwlock_no_lost_wakeup 2 m 1 ReadAcquire can_read) as [u Hu]; [|exact Ht|].
  - apply (mrun_reachable any_step _ (rw_start 2) writer_and_waiting_reader);
      [apply reach_init|vm_compute; reflexivity|exact Hrun].
  - exists m, u. split; [exact Ht|exact Hu].
Defined.

(** The side condition of [rwlock_exclusion] is needed: a writer
    releases while a reader waits, an evictor's
    [write_lock_try_acquire] slips in before the woken reader runs, and
    the reader, whose turn [reader_next] announces, then enters beside
    the writer. *)
Definition eviction_race : list (action rw_op) :=
  [Call 0 WriteAcquire; Call 1 ReadAcquire; Call 0 WriteRelease;
   Call 2 WriteTryAcquire; Run 1].

(** After that run a reader and a writer hold the lock
    together. *)
Theorem rwlock_try_acquire_breaks_exclusion :
  exists m : rw_state, reachable any_step (rw_start 3) m /\
    threads m !! 1%nat = Some (Idle Reading) /\
    threads m !! 2%nat = Some (Idle Writing).
Proof.
  destruct (mrun (rw_start 3) eviction_race) as [m|] eqn:Hrun;
    [|vm_compute in Hrun; discriminate].
  exists m. split.
  - by apply (mrun_reachable any_step _ (rw_start 3) eviction_race); [apply reach_init|..].
  - vm_compute in Hrun. injection Hrun as <-. by split.
Qed.
