(* ===== verification/Synch.v ===== *)
(** Semaphores, locks and condition variables (src/src/threads/synch.c), and
    threads that use them as monitors.

    A thread is the rest of its program. Each access to shared data is one
    step, and the threads' steps interleave in any order; the sections that
    a semaphore's spinlock protects are one step each. A thread is blocked
    while it is in the list of waiting threads of a semaphore; [sema_up]
    takes it off the list ([thread_unblock]), and it then tests the value of
    the semaphore again. A thread waits on one condition at most, so that
    its [struct semaphore_elem] goes by the number of the thread. *)
From S2P Require Import Prelude Monitor.
From stdpp Require Import options.

#[local] Open Scope Z_scope.

Module Synch.

(** * Semaphores *)

Record semaphore := mkSema {
  value : Z;
  sema_waiters : list nat;
}.

Definition sema_init (v : Z) : semaphore := mkSema v [].

(** One round of the loop of [sema_down] in thread [t]; [false]: it blocks. *)
Definition sema_down (t : nat) (s : semaphore) : semaphore * bool :=
  if value s =? 0 then (mkSema (value s) (sema_waiters s ++ [t]), false)
  else (mkSema (u32 (value s - 1)) (sema_waiters s), true).

Definition sema_try_down (s : semaphore) : semaphore * bool :=
  if 0 <? value s then (mkSema (u32 (value s - 1)) (sema_waiters s), true) else (s, false).

Definition sema_up (s : semaphore) : semaphore :=
  let w := match sema_waiters s with [] => [] | _ :: q => q end in
  mkSema (u32 (value s + 1)) w.

(** * Locks *)

Record lock := mkLock {
  holder : option nat;
  lock_sema : semaphore;
}.

Definition lock_init : lock := mkLock None (sema_init 1).

Definition lock_held_by_current_thread (t : nat) (l : lock) : bool := bool_decide (holder l = Some t).

(** A condition variable is the queue of the threads that wait on it. *)
Definition cond_init : list nat := [].

(** * Threads *)

Section threads.
Context {D CV Op L : Type} `{EqDecision CV} `{R : Routines D CV Op L}.

(** The lock's semaphore, and the one on the stack of a waiting thread. *)
Inductive sid := LockSema | WaiterSema (t : nat).

Record shared := mkShared {
  sh_lock : lock;
  sh_waiter : nat -> semaphore;
  sh_cond : CV -> list nat;
  sh_data : D;
}.

Definition set_holder (o : option nat) (s : shared) : shared :=
  mkShared (mkLock o (lock_sema (sh_lock s))) (sh_waiter s) (sh_cond s) (sh_data s).
Definition get_sema (i : sid) (s : shared) : semaphore :=
  match i with LockSema => lock_sema (sh_lock s) | WaiterSema t => sh_waiter s t end.
Definition set_sema (i : sid) (x : semaphore) (s : shared) : shared :=
  match i with
  | LockSema => mkShared (mkLock (holder (sh_lock s)) x) (sh_waiter s) (sh_cond s) (sh_data s)
  | WaiterSema t => mkShared (sh_lock s) (fun u => if decide (u = t) then x else sh_waiter s u) (sh_cond s) (sh_data s)
  end.
Definition set_cond (c : CV) (q : list nat) (s : shared) : shared :=
  mkShared (sh_lock s) (sh_waiter s) (upd_queue (sh_cond s) c q) (sh_data s).
Definition set_data (d : D) (s : shared) : shared := mkShared (sh_lock s) (sh_waiter s) (sh_cond s) d.

(** What a thread has yet to run: nothing; [sema_down]; a step on the shared
    data; the part of a monitor routine up to its next wait or its end,
    called with local state [l] or resumed after a wait; the loop of
    [cond_broadcast]. *)
Inductive prog :=
| Done (l : L)
| Down (i : sid) (k : prog)
| Do (f : shared -> res (shared * prog))
| Body (op : Op) (from : option L)
| Broadcast (c : CV) (k : prog).

Definition held (t : nat) (s : shared) : bool := lock_held_by_current_thread t (sh_lock s).

Definition lock_acquire (t : nat) (k : prog) : prog :=
  Do (fun s => if held t s then Err Panic else Ok (s,
  Down LockSema (
  Do (fun s => Ok (set_holder (Some t) s, k))))).

Definition lock_try_acquire (t : nat) (k : bool -> prog) : prog :=
  Do (fun s => if held t s then Err Panic else Ok (s,
  Do (fun s =>
    let (x, success) := sema_try_down (get_sema LockSema s) in
    Ok (set_sema LockSema x s,
        if success then Do (fun s => Ok (set_holder (Some t) s, k true)) else k false)))).

Definition lock_release (t : nat) (k : prog) : prog :=
  Do (fun s => if held t s then Ok (s,
  Do (fun s => Ok (set_holder None s,
  Do (fun s => Ok (set_sema LockSema (sema_up (get_sema LockSema s)) s, k))))) else Err Panic).

Definition cond_wait (t : nat) (c : CV) (k : prog) : prog :=
  Do (fun s => if held t s then Ok (s,
  Do (fun s => Ok (set_sema (WaiterSema t) (sema_init 0) s,
  Do (fun s => Ok (set_cond c (sh_cond s c ++ [t]) s,
  lock_release t (
  Down (WaiterSema t) (
  lock_acquire t k))))))) else Err Panic).

Definition cond_signal (t : nat) (c : CV) (k : prog) : prog :=
  Do (fun s => if held t s then
    match sh_cond s c with
    | [] => Ok (s, k)
    | w :: q => Ok (set_cond c q s, Do (fun s => Ok (set_sema (WaiterSema w) (sema_up (get_sema (WaiterSema w) s)) s, k)))
    end
  else Err Panic).

(** The loop test of [cond_broadcast]. *)
Definition cond_broadcast (t : nat) (c : CV) (k : prog) (s : shared) : prog :=
  match sh_cond s c with
  | [] => k
  | _ => cond_signal t c (Broadcast c k)
  end.

(** The signals of a routine, in order. *)
Fixpoint signals (t : nat) (sigs : list (signal CV)) (k : prog) : prog :=
  match sigs with
  | [] => k
  | One c :: sigs => cond_signal t c (signals t sigs k)
  | All c :: sigs => Broadcast c (signals t sigs k)
  end.

(** * Interleavings *)

Record machine := mkMachine {
  m_shared : shared;
  m_progs : list prog;
}.

Definition segment_of (op : Op) (from : option L) (d : D) : segment D CV L :=
  match from with Some l => enter op l d | None => resume op d end.

Definition step (m : machine) (t : nat) : res machine :=
  let s := m_shared m in
  let* p := (match m_progs m !! t with Some p => Ok p | None => Err Block end) in
  let* (s', p') :=
    match p with
    | Done _ => Err Block
    | Down i k =>
        if decide (t ∈ sema_waiters (get_sema i s)) then Err Block
        else let (x, done) := sema_down t (get_sema i s) in Ok (set_sema i x s, if done then k else Down i k)
    | Do f => f s
    | Body op from =>
        match segment_of op from (sh_data s) with
        | Sleep d c => Ok (set_data d s, cond_wait t c (Body op None))
        | Leave d sigs l => Ok (set_data d s, signals t sigs (lock_release t (Done l)))
        | Crash => Err Panic
        end
    | Broadcast c k => Ok (s, cond_broadcast t c k s)
    end in
  Ok (mkMachine s' (<[t := p']> (m_progs m))).

(** A thread calls a routine; with [try], it gives up if the lock is taken. *)
Definition call (m : machine) (t : nat) (op : Op) (try : bool) : res machine :=
  match m_progs m !! t with
  | Some (Done l) =>
      if allowed op l then
        Ok (mkMachine (m_shared m) (<[t :=
          if try then lock_try_acquire t (fun b => if b then Body op (Some l) else Done l)
          else lock_acquire t (Body op (Some l))]> (m_progs m)))
      else Err Block
  | _ => Err Block
  end.

(** All threads are outside the monitor. *)
Definition boot (d : D) (ls : list L) : machine :=
  mkMachine (mkShared lock_init (fun _ => sema_init 0) (fun _ => cond_init) d) (Done <$> ls).

End threads.
Arguments prog : clear implicits.
Arguments shared : clear implicits.
Arguments machine : clear implicits.

End Synch.
