(* ===== verification/SynchSpec.v ===== *)
(** The phases that a thread goes through in a monitor routine, the
    invariant that ties the lock, the semaphores and the condition variables
    to them, and the state of the abstract monitor that they stand for. *)
From S2P Require Import Prelude Monitor Synch.
From stdpp Require Import options.

#[local] Open Scope Z_scope.

Module SynchSpec.
Import Synch.

(** * Monitors with the same queues *)

Section equiv.
Context {D CV Op L : Type} `{EqDecision CV} `{R : Routines D CV Op L}.
Implicit Types (a b : mon D CV Op L).

(** Equality, but for the way in which the queues are represented. *)
Record mon_equiv a b : Prop := {
  eq_data : data a = data b;
  eq_waiters : forall c, waiters a c = waiters b c;
  eq_threads : threads a = threads b;
}.

#[export] Instance mon_equivalence : Equivalence mon_equiv.
Proof.
  split.
  - intros a. by split.
  - intros a b []. by split.
  - intros a b c [A1 A2 A3] [B1 B2 B3]. split; [congruence| |congruence]. intros x. by rewrite A2.
Qed.

#[export] Instance do_signal_proper s : Proper (mon_equiv ==> mon_equiv) (do_signal s).
Proof.
  intros a b [A1 A2 A3]. destruct s as [c|c]; cbn.
  - rewrite (A2 c). destruct (waiters b c); [by split|]. split; cbn; [done| |by rewrite A3]. intros x. unfold upd_queue. by case_decide.
  - rewrite (A2 c), A3. split; cbn; [done| |done]. intros x. unfold upd_queue. by case_decide.
Qed.

Definition do_signals (sigs : list (signal CV)) a : mon D CV Op L := foldl (fun m s => do_signal s m) a sigs.

#[export] Instance do_signals_proper sigs : Proper (mon_equiv ==> mon_equiv) (do_signals sigs).
Proof. induction sigs as [|s sigs IH]; intros a b Hab; [done|]. cbn. by apply IH, do_signal_proper. Qed.

Definition res_equiv (x y : res (mon D CV Op L)) : Prop :=
  match x, y with Ok a, Ok b => mon_equiv a b | Err e, Err e' => e = e' | _, _ => False end.

Lemma finish_equiv a b t op s : mon_equiv a b -> res_equiv (finish a t op s) (finish b t op s).
Proof.
  intros [A1 A2 A3]. destruct s as [d c|d sigs l|]; cbn; [| |done].
  - split; cbn; [done| |by rewrite A3]. intros x. unfold upd_queue. by rewrite !A2.
  - apply (do_signals_proper sigs). by split; cbn; [|done|rewrite A3].
Qed.

Lemma mstep_equiv a b act : mon_equiv a b -> res_equiv (mstep a act) (mstep b act).
Proof.
  intros Hab. pose proof (eq_threads _ _ Hab) as Et. destruct act as [t op|t]; cbn; rewrite Et, (eq_data _ _ Hab).
  - destruct (threads b !! t) as [[l| |]|]; [|done..]. destruct (allowed op l); [|done]. by apply finish_equiv.
  - destruct (threads b !! t) as [[| |op]|]; [done..| |done]. by apply finish_equiv.
Qed.
End equiv.

(** * Phases *)

Section phases.
Context {D CV Op L : Type} `{EqDecision CV} `{R : Routines D CV Op L}.
Implicit Types (t u w : nat) (op : Op) (l : L) (c : CV) (sigs : list (signal CV)) (s : shared D CV) (m : machine D CV Op L).

(** What comes after [lock_release]. *)
Inductive after := ADone (l : L) | AWait (op : Op) (c : CV).

Inductive phase :=
| PIdle (l : L)
| PAcquire (op : Op) (r : option L)
| PDown (op : Op) (r : option L)
| PHolder (op : Op) (r : option L)
| PTry (op : Op) (l : L)
| PTryDown (op : Op) (l : L)
| PBody (op : Op) (r : option L)
| PSignal (sigs : list (signal CV)) (l : L)
| PSignal1 (c : CV) (sigs : list (signal CV)) (l : L)
| PUp (w : nat) (sigs : list (signal CV)) (l : L)
| PRelease (k : after)
| PUnhold (k : after)
| PUnlock (k : after)
| PWait (op : Op) (c : CV)
| PInit (op : Op) (c : CV)
| PPush (op : Op) (c : CV)
| PAsleep (op : Op) (c : CV).

Abbreviation program := (prog D CV Op L).

Definition rest t l : program := lock_release t (Done l).

(** The program of a thread in each phase. *)
Definition after_code t (k : after) : program :=
  match k with
  | ADone l => Done l
  | AWait op c => Down (WaiterSema t) (lock_acquire t (Body op None))
  end.

Definition code t (ph : phase) : program :=
  match ph with
  | PIdle l => Done l
  | PAcquire op r => lock_acquire t (Body op r)
  | PDown op r => Down LockSema (Do (fun s => Ok (set_holder (Some t) s, Body op r)))
  | PHolder op r => Do (fun s => Ok (set_holder (Some t) s, Body op r))
  | PTry op l => lock_try_acquire t (fun b => if b then Body op (Some l) else Done l)
  | PTryDown op l =>
      Do (fun s =>
        let (x, success) := sema_try_down (get_sema LockSema s) in
        Ok (set_sema LockSema x s,
            if success then Do (fun s => Ok (set_holder (Some t) s, Body op (Some l))) else Done l))
  | PBody op r => Body op r
  | PSignal sigs l => signals t sigs (rest t l)
  | PSignal1 c sigs l => cond_signal t c (Broadcast c (signals t sigs (rest t l)))
  | PUp w sigs l => Do (fun s => Ok (set_sema (WaiterSema w) (sema_up (get_sema (WaiterSema w) s)) s, signals t sigs (rest t l)))
  | PRelease k => lock_release t (after_code t k)
  | PUnhold k => Do (fun s => Ok (set_holder None s,
      Do (fun s => Ok (set_sema LockSema (sema_up (get_sema LockSema s)) s, after_code t k))))
  | PUnlock k => Do (fun s => Ok (set_sema LockSema (sema_up (get_sema LockSema s)) s, after_code t k))
  | PWait op c => cond_wait t c (Body op None)
  | PInit op c => Do (fun s => Ok (set_sema (WaiterSema t) (sema_init 0) s,
      Do (fun s => Ok (set_cond c (sh_cond s c ++ [t]) s, lock_release t (after_code t (AWait op c))))))
  | PPush op c => Do (fun s => Ok (set_cond c (sh_cond s c ++ [t]) s, lock_release t (after_code t (AWait op c))))
  | PAsleep op c => Down (WaiterSema t) (lock_acquire t (Body op None))
  end.

(** The thread has the lock's semaphore; it is the lock's holder. *)
Definition owns (ph : phase) : bool :=
  match ph with
  | PHolder _ _ | PBody _ _ | PSignal _ _ | PSignal1 _ _ _ | PUp _ _ _ | PRelease _ | PUnhold _ | PUnlock _ | PWait _ _ | PInit _ _ | PPush _ _ => true
  | _ => false
  end.
Definition holds (ph : phase) : bool :=
  match ph with PHolder _ _ | PUnlock _ => false | _ => owns ph end.

(** The thread is queued on a condition, or was until it was signalled. *)
Definition waiting (ph : phase) : option (Op * CV) :=
  match ph with
  | PRelease (AWait op c) | PUnhold (AWait op c) | PUnlock (AWait op c) | PAsleep op c => Some (op, c)
  | _ => None
  end.

(** The thread may make the call that it makes. *)
Definition may (ph : phase) : bool :=
  match ph with
  | PAcquire op (Some l) | PDown op (Some l) | PHolder op (Some l) | PBody op (Some l) | PTry op l | PTryDown op l => allowed op l
  | _ => true
  end.

(** The thread that is about to be woken up. *)
Definition up_of (ph : phase) : option nat :=
  match ph with PUp w _ _ => Some w | _ => None end.

(** * The invariant *)

(** The lock: its semaphore is taken by one thread at most, and a thread that
    waits for it will be woken up. *)
Record lock_inv (k : lock) (phs : list phase) : Prop := {
  iv_free : value (lock_sema k) = 1 /\ (forall t ph, phs !! t = Some ph -> owns ph = false) \/
    value (lock_sema k) = 0 /\ exists t ph, phs !! t = Some ph /\ owns ph = true;
  iv_one : forall t u ph ph', phs !! t = Some ph -> phs !! u = Some ph' -> owns ph = true -> owns ph' = true -> t = u;
  iv_holder : forall t ph, phs !! t = Some ph -> holder k = Some t <-> holds ph = true;
  iv_known : forall t, holder k = Some t -> is_Some (phs !! t);
  iv_queue : forall t, t ∈ sema_waiters (lock_sema k) -> exists op r, phs !! t = Some (PDown op r);
  iv_distinct : NoDup (sema_waiters (lock_sema k));
  iv_live : value (lock_sema k) = 1 -> sema_waiters (lock_sema k) <> [] ->
    exists t op r, phs !! t = Some (PDown op r) /\ t ∉ sema_waiters (lock_sema k);
}.

(** The condition variables: a thread that waits is in the queue of its
    condition until it is signalled, and then its semaphore is or is about
    to be up. *)
Record cond_inv (sem : nat -> semaphore) (q : CV -> list nat) (phs : list phase) : Prop := {
  iv_cond : forall c t, t ∈ q c -> exists ph op, phs !! t = Some ph /\ waiting ph = Some (op, c) /\ value (sem t) = 0;
  iv_nodup : forall c, NoDup (q c);
  iv_signalled : forall t ph op c, phs !! t = Some ph -> waiting ph = Some (op, c) -> t ∉ q c ->
    value (sem t) = 1 \/ value (sem t) = 0 /\ exists u sigs l, phs !! u = Some (PUp t sigs l);
  iv_up : forall u w sigs l, phs !! u = Some (PUp w sigs l) -> exists ph op c, phs !! w = Some ph /\ waiting ph = Some (op, c) /\ w ∉ q c /\ value (sem w) = 0;
  iv_blocked : forall t ph, phs !! t = Some ph ->
    sema_waiters (sem t) = [] \/ sema_waiters (sem t) = [t] /\ value (sem t) = 0 /\ exists op c, ph = PAsleep op c;
  iv_fresh : forall t op c, phs !! t = Some (PPush op c) -> value (sem t) = 0;
}.

Record inv m (phs : list phase) : Prop := {
  iv_progs : m_progs m = imap code phs;
  iv_lock : lock_inv (sh_lock (m_shared m)) phs;
  iv_conds : cond_inv (sh_waiter (m_shared m)) (sh_cond (m_shared m)) phs;
  iv_allowed : forall t ph, phs !! t = Some ph -> may ph = true;
}.

(** * The abstract monitor *)

Definition thread_of (q : CV -> list nat) t (ph : phase) : thread CV Op L :=
  match ph with
  | PIdle l | PTry _ l | PTryDown _ l | PSignal _ l | PSignal1 _ _ l | PUp _ _ l | PRelease (ADone l) | PUnhold (ADone l) | PUnlock (ADone l) => Idle l
  | PAcquire op r | PDown op r | PHolder op r | PBody op r => match r with Some l => Idle l | None => Awake op end
  | PWait op c | PInit op c | PPush op c => Asleep op c
  | PRelease (AWait op c) | PUnhold (AWait op c) | PUnlock (AWait op c) | PAsleep op c =>
      if decide (t ∈ q c) then Asleep op c else Awake op
  end.

Definition raw s (phs : list phase) : mon D CV Op L := mkMon (sh_data s) (sh_cond s) (imap (thread_of (sh_cond s)) phs).

(** What the thread in the monitor has still to do of its last step. *)
Definition pending t (ph : phase) (a : mon D CV Op L) : mon D CV Op L :=
  match ph with
  | PSignal sigs _ | PUp _ sigs _ => do_signals sigs a
  | PSignal1 c sigs _ => do_signals (All c :: sigs) a
  | PWait _ c | PInit _ c | PPush _ c => mkMon (data a) (upd_queue (waiters a) c (waiters a c ++ [t])) (threads a)
  | _ => a
  end.

Definition busy (ph : phase) : bool :=
  match ph with PSignal _ _ | PSignal1 _ _ _ | PUp _ _ _ | PWait _ _ | PInit _ _ | PPush _ _ => true | _ => false end.

(** The machine stands for the monitor [a]. *)
Definition stands s (phs : list phase) (a : mon D CV Op L) : Prop :=
  (forall t ph, phs !! t = Some ph -> busy ph = false) /\ mon_equiv (raw s phs) a \/
  exists t ph, phs !! t = Some ph /\ busy ph = true /\ mon_equiv (pending t ph (raw s phs)) a.

Lemma busy_owns ph : busy ph = true -> owns ph = true.
Proof. by destruct ph. Qed.

Lemma up_of_Some ph w : up_of ph = Some w -> exists sigs l, ph = PUp w sigs l.
Proof. destruct ph; cbn; intros [= <-]; eauto. Qed.

Lemma holds_owns ph : holds ph = true -> owns ph = true.
Proof. by destruct ph. Qed.

(** * One thread changes its phase *)

Section change.
Context (phs : list phase) (t : nat) (ph ph' : phase) (Ht : phs !! t = Some ph).

Lemma at_self : <[t := ph']> phs !! t = Some ph'.
Proof using Ht. apply list_lookup_insert_eq. by eapply lookup_lt_Some. Qed.

Lemma at_other u : u <> t -> <[t := ph']> phs !! u = phs !! u.
Proof. intros. by apply list_lookup_insert_ne. Qed.

Lemma at_Some u x : <[t := ph']> phs !! u = Some x -> u = t /\ x = ph' \/ u <> t /\ phs !! u = Some x.
Proof using Ht.
  destruct (decide (u = t)) as [-> |Hne]; [rewrite at_self; intros [= <-]; by left|]. rewrite at_other by done. by right.
Qed.

(** ** The lock *)

Lemma lock_keep k : lock_inv k phs -> owns ph' = owns ph -> holds ph' = holds ph ->
  (forall op r, ph = PDown op r -> ph' = ph) -> lock_inv k (<[t := ph']> phs).
Proof using Ht.
  intros [H1 H2 H3 Hkn H4 Hnd H5] Eo Eh Hd. split.
  - destruct H1 as [[Hv Hn]|[Hv (u & x & Hu & Hx)]]; [left|right]; (split; [done|]).
    + intros u x [[-> ->] | [_ Hu]]%at_Some; [rewrite Eo; by apply (Hn t)|by apply (Hn u)].
    + destruct (decide (u = t)) as [-> |Hne]; [exists t, ph'; split; [apply at_self|]; congruence|]. exists u, x. by rewrite at_other.
  - intros u v x y [[-> ->] | [Hu' Hu]]%at_Some [[-> ->] | [Hv' Hv]]%at_Some Hx Hy; [done| | |by eapply (H2 u v)].
    + eapply (H2 t v); [exact Ht|exact Hv|congruence|done].
    + eapply (H2 u t); [exact Hu|exact Ht|done|congruence].
  - intros u x [[-> ->] | [Hne Hu]]%at_Some; [rewrite Eh; by apply H3|by apply H3].
  - intros u Hu%Hkn. destruct (decide (u = t)) as [-> |Hne]; [rewrite at_self; by eexists|by rewrite at_other].
  - intros u Hu. destruct (H4 u Hu) as (op & r & Hp). exists op, r. destruct (decide (u = t)) as [-> |Hne]; [|by rewrite at_other].
    rewrite at_self. f_equal. rewrite (Hd op r); congruence.
  - done.
  - intros Hv Hw. destruct (H5 Hv Hw) as (u & op & r & Hp & Hn). exists u, op, r. split; [|done]. destruct (decide (u = t)) as [-> |Hne]; [|by rewrite at_other].
    rewrite at_self. f_equal. rewrite (Hd op r); congruence.
Qed.

(** The semaphore is taken. *)
Lemma lock_take k : lock_inv k phs -> value (lock_sema k) <> 0 -> owns ph' = true -> holds ph' = false -> t ∉ sema_waiters (lock_sema k) ->
  lock_inv (mkLock (holder k) (mkSema (u32 (value (lock_sema k) - 1)) (sema_waiters (lock_sema k)))) (<[t := ph']> phs).
Proof using Ht.
  intros [H1 H2 H3 Hkn H4 Hnd H5] Hv Ho Hh Hn. destruct H1 as [[Hv1 Hno]|[? _]]; [|done]. rewrite Hv1. change (u32 (1 - 1)) with 0. split; cbn.
  - right. split; [done|]. exists t, ph'. split; [apply at_self|done].
  - intros u v x y [[-> ->] | [_ Hu]]%at_Some [[-> ->] | [_ Hv']]%at_Some Hx Hy; [done|..];
      repeat match goal with H : phs !! _ = Some _ |- _ => apply Hno in H end; congruence.
  - intros u x [[-> ->] | [Hne Hu]]%at_Some; [|by apply H3]. rewrite Hh. rewrite (H3 t ph Ht). split; [|done]. intros Hx%holds_owns. rewrite (Hno t ph Ht) in Hx. done.
  - intros u Hu%Hkn. destruct (decide (u = t)) as [-> |Hne]; [rewrite at_self; by eexists|by rewrite at_other].
  - intros u Hu. destruct (H4 u Hu) as (op & r & Hp). exists op, r. rewrite at_other; [done|congruence].
  - done.
  - done.
Qed.

(** The semaphore is given back, and one of the waiting threads may go on. *)
Lemma lock_give k : lock_inv k phs -> owns ph = true -> holds ph = false -> owns ph' = false -> holds ph' = false ->
  lock_inv (mkLock (holder k) (sema_up (lock_sema k))) (<[t := ph']> phs).
Proof using Ht.
  intros [H1 H2 H3 Hkn H4 Hnd H5] Ho Hh Ho' Hh'. destruct H1 as [[_ Hno]|[Hv _]]; [rewrite (Hno t ph Ht) in Ho; done|].
  unfold sema_up. rewrite Hv. change (u32 (0 + 1)) with 1. assert (Hin : forall u, u ∈ (match sema_waiters (lock_sema k) with [] => [] | _ :: q => q end) -> u ∈ sema_waiters (lock_sema k)).
  { destruct (sema_waiters (lock_sema k)); [done|]. intros u Hu. by right. }
  assert (Hd : forall u op r, phs !! u = Some (PDown op r) -> <[t := ph']> phs !! u = Some (PDown op r)).
  { intros u op r Hu. rewrite at_other; [done|]. intros ->. rewrite Ht in Hu. by injection Hu as ->. }
  split; cbn.
  - left. split; [done|]. intros u x [[-> ->] | [Hne Hu]]%at_Some; [done|]. apply not_true_iff_false. intros Hx. apply Hne. by eapply (H2 u t).
  - intros u v x y [[-> ->] | [Hne Hu]]%at_Some [[-> ->] | [Hne' Hv']]%at_Some Hx Hy; [done|congruence..|]. by eapply (H2 u v).
  - intros u x [[-> ->] | [Hne Hu]]%at_Some; [rewrite Hh', <- Hh; by apply H3|by apply H3].
  - intros u Hu%Hkn. destruct (decide (u = t)) as [-> |Hne]; [rewrite at_self; by eexists|by rewrite at_other].
  - intros u Hu%Hin. destruct (H4 u Hu) as (op & r & Hp). exists op, r. by apply Hd.
  - destruct (sema_waiters (lock_sema k)); [done|]. by apply NoDup_cons in Hnd as [_ ?].
  - intros _ Hw. destruct (sema_waiters (lock_sema k)) as [|u q] eqn:E; [done|]. destruct (H4 u) as (op & r & Hp); [by left|]. exists u, op, r. split; [by apply Hd|].
    by apply NoDup_cons in Hnd as [? _].
Qed.

(** The holder of the lock is recorded, or no longer is. *)
Lemma lock_hold k o : lock_inv k phs -> owns ph = true -> owns ph' = true ->
  (o = Some t /\ holds ph' = true \/ o = None /\ holds ph' = false) -> lock_inv (mkLock o (lock_sema k)) (<[t := ph']> phs).
Proof using Ht.
  intros [H1 H2 H3 Hkn H4 Hnd H5] Ho Ho' Hh. assert (Hoth : forall u x, u <> t -> phs !! u = Some x -> owns x = false).
  { intros u x Hne Hu. apply not_true_iff_false. intros Hx. apply Hne. by eapply (H2 u t). }
  assert (Hd : forall u op r, phs !! u = Some (PDown op r) -> <[t := ph']> phs !! u = Some (PDown op r)).
  { intros u op r Hu. rewrite at_other; [done|]. intros ->. rewrite Ht in Hu. injection Hu as ->. done. }
  split; cbn.
  - destruct H1 as [[_ Hno]|[Hv _]]; [rewrite (Hno t ph Ht) in Ho; done|]. right. split; [done|]. exists t, ph'. split; [apply at_self|done].
  - intros u v x y [[-> ->] | [Hne Hu]]%at_Some [[-> ->] | [Hne' Hv']]%at_Some Hx Hy; [done| | |by eapply (H2 u v)].
    + rewrite (Hoth v y) in Hy by done. done.
    + rewrite (Hoth u x) in Hx by done. done.
  - intros u x [[-> ->] | [Hne Hu]]%at_Some; [destruct Hh as [[-> ->] | [-> ->]]; done|].
    assert (Hx : holds x = false) by (apply not_true_iff_false; intros Hx%holds_owns; rewrite (Hoth u x) in Hx; done).
    rewrite Hx. split; [|done]. destruct Hh as [[-> _]|[-> _]]; [|done]. intros [= ->]. done.
  - destruct Hh as [[-> _] | [-> _]]; [|done]. intros u [= <-]. rewrite at_self. by eexists.
  - intros u Hu. destruct (H4 u Hu) as (op & r & Hp). exists op, r. by apply Hd.
  - done.
  - intros Hv Hw. destruct (H5 Hv Hw) as (u & op & r & Hp & Hn). exists u, op, r. split; [by apply Hd|done].
Qed.

(** The thread blocks on the lock. *)
Lemma lock_block k op r : lock_inv k phs -> ph = PDown op r -> value (lock_sema k) = 0 -> t ∉ sema_waiters (lock_sema k) ->
  lock_inv (mkLock (holder k) (mkSema (value (lock_sema k)) (sema_waiters (lock_sema k) ++ [t]))) phs.
Proof using Ht.
  intros [H1 H2 H3 Hkn H4 Hnd H5] -> Hv Hn. split; cbn; [done|done|done|done| | |lia].
  - intros u [Hu| ->%list_elem_of_singleton]%elem_of_app; [by apply H4|by exists op, r].
  - apply NoDup_app. split_and!; [done| |apply NoDup_singleton]. intros u Hu ->%list_elem_of_singleton. done.
Qed.

End change.

(** ** The condition variables *)

Lemma cond_keep phs t ph ph' sem q : phs !! t = Some ph -> cond_inv sem q phs -> waiting ph' = waiting ph -> up_of ph' = up_of ph ->
  (forall op c, ph = PAsleep op c -> ph' = ph) -> (forall op c, ph' <> PPush op c) -> cond_inv sem q (<[t := ph']> phs).
Proof using Type.
  intros Ht [H1 H2 H3 H4 H5 H6] Ew Eu Ha Hp. split.
  - intros c u Hu. destruct (H1 c u Hu) as (x & op & Hx & Hw & Hv). destruct (decide (u = t)) as [-> |Hne].
    + exists ph', op. split_and!; [apply (at_self _ _ _ _ Ht)|congruence|done].
    + exists x, op. by rewrite at_other.
  - done.
  - intros u x op c Hu Hw Hn. assert (Hs : exists y, phs !! u = Some y /\ waiting y = Some (op, c)).
    { apply (at_Some _ _ _ _ Ht) in Hu as [[-> ->] | [_ Hu]]; [exists ph; split; [done|congruence]|by exists x]. }
    destruct Hs as (y & Hy & Hwy). destruct (H3 u y op c Hy Hwy Hn) as [?|[Hv (v & sigs & l & Hup)]]; [by left|right]. split; [done|].
    destruct (decide (v = t)) as [-> |Hne]; [|exists v, sigs, l; by rewrite at_other].
    rewrite Ht in Hup. injection Hup as ->. cbn in Eu. destruct ph' as [| | | | | | | | |w' sigs' l'| | | | | | |]; try done.
    injection Eu as ->. exists t, sigs', l'. apply (at_self _ _ _ _ Ht).
  - intros u w sigs l Hu. assert (Hs : exists sigs' l', phs !! u = Some (PUp w sigs' l')).
    { apply (at_Some _ _ _ _ Ht) in Hu as [[-> <-] | [_ Hu]]; [|eauto]. symmetry in Eu. apply up_of_Some in Eu as (sigs' & l' & ->). eauto. }
    destruct Hs as (sigs' & l' & Hs). destruct (H4 u w sigs' l' Hs) as (y & op & c & Hy & Hw & Hn & Hv). destruct (decide (w = t)) as [-> |Hne].
    + exists ph', op, c. split_and!; [apply (at_self _ _ _ _ Ht)|congruence|done|done].
    + exists y, op, c. by rewrite at_other.
  - intros u x [[-> ->] | [_ Hu]]%(at_Some _ _ _ _ Ht); [|by apply H5]. destruct (H5 t ph Ht) as [?|(Hw & Hv & op & c & He)]; [by left|right]. split_and!; [done|done|].
    exists op, c. rewrite (Ha op c He). done.
  - intros u op c [[-> Hx] | [_ Hu]]%(at_Some _ _ _ _ Ht); [|by eapply H6]. by destruct (Hp op c).
Qed.

(** The longest waiting thread is taken off the queue of a condition. *)
Lemma cond_pop phs t ph ph' sem q c w ws sigs l : phs !! t = Some ph -> cond_inv sem q phs -> q c = w :: ws -> ph' = PUp w sigs l -> waiting ph = None -> up_of ph = None ->
  (forall op c, ph <> PPush op c) -> cond_inv sem (upd_queue q c ws) (<[t := ph']> phs).
Proof using Type.
  intros Ht [H1 H2 H3 H4 H5 H6] Eq -> Ew Eu Hp. pose proof (H2 c) as Hnd. rewrite Eq in Hnd. apply NoDup_cons in Hnd as [Hnw Hnd].
  destruct (H1 c w) as (x & op & Hx & Hw & Hv); [rewrite Eq; by left|]. assert (Hwt : w <> t) by congruence.
  assert (Hin : forall c' u, u ∈ upd_queue q c ws c' -> u ∈ q c') by (intros c' u; unfold upd_queue; case_decide; [subst c'; rewrite Eq; by right|done]).
  split.
  - intros c' u Hu%Hin. destruct (H1 c' u Hu) as (y & op' & Hy & Hwy & Hvy). exists y, op'. rewrite at_other; [done|congruence].
  - intros c'. unfold upd_queue. case_decide; [done|apply H2].
  - intros u y op' c' [[-> ->] | [Hne Hu]]%(at_Some _ _ _ _ Ht) Hwy Hn; [done|]. destruct (decide (u = w)) as [-> |Hne'].
    + right. split; [done|]. exists t, sigs, l. apply (at_self _ _ _ _ Ht).
    + destruct (H3 u y op' c' Hu Hwy) as [?|[Hvu (v & sigs' & l' & Hup)]]; [|by left|].
      * unfold upd_queue in Hn. case_decide; [|done]. subst c'. rewrite Eq, elem_of_cons. by intros [].
      * right. split; [done|]. exists v, sigs', l'. rewrite at_other; [done|]. intros ->. rewrite Ht in Hup. by injection Hup as ->.
  - intros u w' sigs' l' [[-> Hx'] | [Hne Hu]]%(at_Some _ _ _ _ Ht).
    + injection Hx' as -> -> ->. exists x, op, c. rewrite at_other by done. split_and!; [done|done| |done]. unfold upd_queue. by rewrite decide_True.
    + destruct (H4 u w' sigs' l' Hu) as (y & op' & c' & Hy & Hwy & Hn & Hvy). exists y, op', c'. rewrite at_other by congruence. split_and!; [done|done| |done]. by intros ?%Hin.
  - intros u y [[-> ->] | [_ Hu]]%(at_Some _ _ _ _ Ht); [|by apply H5]. destruct (H5 t ph Ht) as [?|(_ & _ & op' & c' & ->)]; [by left|done].
  - intros u op' c' [[-> Hx'] | [_ Hu]]%(at_Some _ _ _ _ Ht); [done|by eapply H6].
Qed.

(** Its semaphore is up. *)
Lemma cond_up phs t ph ph' sem q w sigs l : phs !! t = Some ph -> cond_inv sem q phs -> ph = PUp w sigs l -> (forall u sigs' l', phs !! u = Some (PUp w sigs' l') -> u = t) ->
  waiting ph' = None -> up_of ph' = None -> (forall op c, ph' <> PPush op c) ->
  cond_inv (fun u => if decide (u = w) then sema_up (sem w) else sem u) q (<[t := ph']> phs).
Proof using Type.
  intros Ht [H1 H2 H3 H4 H5 H6] -> Hone Ew Eu Hp. destruct (H4 t w sigs l Ht) as (x & op & c & Hx & Hw & Hn & Hv).
  assert (Hwt : w <> t) by (intros ->; rewrite Ht in Hx; by injection Hx as <-).
  assert (Hv1 : value (sema_up (sem w)) = 1) by (unfold sema_up; cbn; by rewrite Hv).
  assert (Hn' : forall c', w ∉ q c'). { intros c' Hin. destruct (H1 c' w Hin) as (y & op' & Hy & Hwy & _). congruence. }
  split.
  - intros c' u Hu. rewrite decide_False by (intros ->; by destruct (Hn' c')). destruct (H1 c' u Hu) as (y & op' & Hy & Hwy & Hvy). exists y, op'. rewrite at_other; [done|].
    intros ->. rewrite Ht in Hy. by injection Hy as <-.
  - done.
  - intros u y op' c' [[-> ->] | [Hne Hu]]%(at_Some _ _ _ _ Ht) Hwy Hn0; [congruence|]. destruct (decide (u = w)) as [-> |Hne']; [by left|].
    destruct (H3 u y op' c' Hu Hwy Hn0) as [?|[Hvu (v & sigs' & l' & Hup)]]; [by left|right]. split; [done|].
    exists v, sigs', l'. rewrite at_other; [done|]. intros ->. rewrite Ht in Hup. by injection Hup as ->.
  - intros u w' sigs' l' [[-> Hx'] | [Hne Hu]]%(at_Some _ _ _ _ Ht); [by subst ph'|].
    assert (w' <> w) by (intros ->; by apply Hone in Hu). rewrite decide_False by done.
    destruct (H4 u w' sigs' l' Hu) as (y & op' & c' & Hy & Hwy & ? & Hvy). exists y, op', c'. rewrite at_other; [done|].
    intros ->. rewrite Ht in Hy. by injection Hy as <-.
  - intros u y Hu. assert (Hs : sema_waiters (sem t) = []) by (destruct (H5 t _ Ht) as [?|(_ & _ & ? & ? & ?)]; done).
    apply (at_Some _ _ _ _ Ht) in Hu as [[-> ->] | [_ Hu]]; [rewrite decide_False by done; by left|]. case_decide; [|by apply H5]. subst u. left. unfold sema_up. cbn.
    by destruct (H5 w y Hu) as [-> |[-> _]].
  - intros u op' c' [[-> Hx'] | [_ Hu]]%(at_Some _ _ _ _ Ht); [by destruct (Hp op' c')|]. rewrite decide_False; [by eapply H6|].
    intros ->. rewrite Hx in Hu. by injection Hu as ->.
Qed.

(** The semaphore of a thread that is not waiting changes. *)
Lemma cond_own phs t ph ph' sem q x : phs !! t = Some ph -> cond_inv sem q phs -> waiting ph' = None -> up_of ph = None -> up_of ph' = None -> sema_waiters x = [] ->
  (forall c, t ∉ q c) -> (forall u sigs l, phs !! u <> Some (PUp t sigs l)) -> (forall op c, ph' = PPush op c -> value x = 0) ->
  cond_inv (fun u => if decide (u = t) then x else sem u) q (<[t := ph']> phs).
Proof using Type.
  intros Ht [H1 H2 H3 H4 H5 H6] Ew Eu Eu' Hx Hn Hup Hp. split.
  - intros c u Hu. assert (u <> t) by (intros ->; by destruct (Hn c)). rewrite decide_False by done. destruct (H1 c u Hu) as (y & op' & Hy & Hwy & Hvy). exists y, op'. by rewrite at_other.
  - done.
  - intros u y op c [[-> ->] | [Hne Hu]]%(at_Some _ _ _ _ Ht) Hwy Hnu; [congruence|]. rewrite decide_False by done.
    destruct (H3 u y op c Hu Hwy Hnu) as [?|[Hvu (v & sigs' & l' & Hv)]]; [by left|right]. split; [done|].
    exists v, sigs', l'. rewrite at_other; [done|]. intros ->. rewrite Ht in Hv. by injection Hv as ->.
  - intros u w sigs l [[-> Hx'] | [Hne Hu]]%(at_Some _ _ _ _ Ht); [by subst ph'|]. assert (w <> t) by (intros ->; by destruct (Hup u sigs l)). rewrite decide_False by done.
    destruct (H4 u w sigs l Hu) as (y & op & c & Hy & Hwy & ? & Hvy). exists y, op, c. by rewrite at_other.
  - intros u y [[-> ->] | [Hne Hu]]%(at_Some _ _ _ _ Ht); [rewrite decide_True by done; by left|]. rewrite decide_False by done. by apply H5.
  - intros u op c [[-> Hx'] | [Hne Hu]]%(at_Some _ _ _ _ Ht); [rewrite decide_True by done; by eapply Hp|]. rewrite decide_False by done. by eapply H6.
Qed.

(** The thread joins the queue of a condition. *)
Lemma cond_push phs t ph ph' sem q op c : phs !! t = Some ph -> cond_inv sem q phs -> ph = PPush op c -> waiting ph' = Some (op, c) -> up_of ph' = None -> (forall op c, ph' <> PPush op c) ->
  cond_inv sem (upd_queue q c (q c ++ [t])) (<[t := ph']> phs).
Proof using Type.
  intros Ht [H1 H2 H3 H4 H5 H6] -> Ew Eu Hp. assert (Hn : forall c', t ∉ q c'). { intros c' Hin. destruct (H1 c' t Hin) as (y & op' & Hy & Hwy & _). rewrite Ht in Hy. by injection Hy as <-. }
  assert (Hin : forall c' u, u ∈ upd_queue q c (q c ++ [t]) c' <-> u ∈ q c' \/ c' = c /\ u = t).
  { intros c' u. unfold upd_queue. case_decide; [subst c'; rewrite elem_of_app, list_elem_of_singleton; naive_solver|naive_solver]. }
  split.
  - intros c' u [Hu|[-> ->]]%Hin; [|exists ph', op; split_and!; [apply (at_self _ _ _ _ Ht)|done|by eapply H6]].
    destruct (H1 c' u Hu) as (y & op' & Hy & Hwy & Hvy). exists y, op'. rewrite at_other; [done|]. intros ->. by destruct (Hn c').
  - intros c'. unfold upd_queue. case_decide; [|apply H2]. apply NoDup_app. split_and!; [apply H2| |apply NoDup_singleton]. intros u Hu ->%list_elem_of_singleton. by destruct (Hn c).
  - intros u y op' c' [[-> ->] | [Hne Hu]]%(at_Some _ _ _ _ Ht) Hwy Hnu; [rewrite Hin in Hnu; naive_solver|].
    destruct (H3 u y op' c' Hu Hwy) as [?|[Hvu (v & sigs' & l' & Hv)]]; [rewrite Hin in Hnu; naive_solver|by left|right]. split; [done|].
    exists v, sigs', l'. rewrite at_other; [done|]. intros ->. rewrite Ht in Hv. done.
  - intros u w sigs l [[-> Hx'] | [Hne Hu]]%(at_Some _ _ _ _ Ht); [by subst ph'|].
    destruct (H4 u w sigs l Hu) as (y & op' & c' & Hy & Hwy & ? & Hvy). assert (w <> t) by (intros ->; rewrite Ht in Hy; by injection Hy as <-).
    exists y, op', c'. rewrite at_other by done. rewrite Hin. naive_solver.
  - intros u y [[-> ->] | [Hne Hu]]%(at_Some _ _ _ _ Ht); [|by apply H5]. destruct (H5 t _ Ht) as [?|(_ & _ & op' & c' & ?)]; [by left|done].
  - intros u op' c' [[-> Hx'] | [_ Hu]]%(at_Some _ _ _ _ Ht); [by destruct (Hp op' c')|by eapply H6].
Qed.

(** The thread blocks on its semaphore. *)
Lemma cond_block phs t ph sem q op c : phs !! t = Some ph -> cond_inv sem q phs -> ph = PAsleep op c -> value (sem t) = 0 -> t ∉ sema_waiters (sem t) ->
  cond_inv (fun u => if decide (u = t) then mkSema (value (sem t)) (sema_waiters (sem t) ++ [t]) else sem u) q phs.
Proof using Type.
  intros Ht [H1 H2 H3 H4 H5 H6] -> Hv Hn.
  assert (Hval : forall u, value (if decide (u = t) then mkSema (value (sem t)) (sema_waiters (sem t) ++ [t]) else sem u) = value (sem u)) by (intros u; case_decide; by subst).
  split.
  - intros c' u Hu. rewrite Hval. by apply H1.
  - done.
  - intros u y op' c' Hu Hw Hnu. rewrite Hval. by eapply H3.
  - intros u w sigs l Hu. rewrite Hval. by eapply H4.
  - intros u y Hu. case_decide; [|by apply H5]. subst u. right. cbn. destruct (H5 t y Hu) as [-> |[E _]]; [|rewrite E in Hn; destruct Hn; by left].
    split_and!; [done|done|]. rewrite Ht in Hu. injection Hu as <-. eauto.
  - intros u op' c' Hu. rewrite Hval. by eapply H6.
Qed.

End phases.
End SynchSpec.
