(* ===== verification/SynchSteps.v ===== *)
(** Every step of a thread keeps the invariant, and the abstract monitor
    either stays as it is or runs one segment. *)
From S2P Require Import Prelude Monitor Synch SynchSpec.
From stdpp Require Import options.

#[local] Open Scope Z_scope.

Module SynchSteps.
Import Synch SynchSpec.

Section steps.
Context {D CV Op L : Type} `{EqDecision CV} `{R : Routines D CV Op L}.
Implicit Types (t u w : nat) (op : Op) (l : L) (c : CV) (sigs : list (signal CV)) (s : shared D CV) (m : machine D CV Op L)
  (a b : mon D CV Op L) (phs : list (phase (CV := CV) (Op := Op) (L := L))).

(** * The abstract state *)

Lemma imap_change {A B : Type} (f : nat -> A -> B) (l : list A) i x : imap f (<[i := x]> l) = <[i := f i x]> (imap f l).
Proof.
  apply list_eq. intros j. rewrite list_lookup_imap. destruct (decide (j = i)) as [-> |Hne].
  - destruct (decide (i < length l)%nat).
    + rewrite !list_lookup_insert_eq; [done|by rewrite length_imap|done].
    + rewrite !lookup_ge_None_2; [done|rewrite length_insert, length_imap; lia|rewrite length_insert; lia].
  - rewrite !list_lookup_insert_ne by done. by rewrite list_lookup_imap.
Qed.

Definition set_thread t th a : mon D CV Op L := mkMon (data a) (waiters a) (<[t := th]> (threads a)).

Lemma raw_change s phs t ph' : raw s (<[t := ph']> phs) = set_thread t (thread_of (sh_cond s) t ph') (raw s phs).
Proof. unfold raw, set_thread. cbn. by rewrite imap_change. Qed.

Lemma raw_same s phs t ph ph' : phs !! t = Some ph -> thread_of (sh_cond s) t ph' = thread_of (sh_cond s) t ph -> raw s (<[t := ph']> phs) = raw s phs.
Proof.
  intros Ht E. rewrite raw_change. unfold set_thread, raw. cbn. f_equal. apply list_insert_id. rewrite list_lookup_imap, Ht. cbn. by rewrite E.
Qed.

Lemma pending_proper t ph a b : mon_equiv a b -> mon_equiv (pending t ph a) (pending t ph b).
Proof.
  intros Hab. destruct ph; cbn; try done; [by apply do_signals_proper|by apply (do_signals_proper (All _ :: _))|by apply do_signals_proper|..];
    destruct Hab as [A1 A2 A3]; split; cbn; try done; intros x; unfold upd_queue; rewrite !A2; done.
Qed.

Lemma pending_idle t ph a : busy ph = false -> pending t ph a = a.
Proof. by destruct ph. Qed.

Lemma signals_idle sigs a t l : threads a !! t = Some (Idle l) -> threads (do_signals sigs a) !! t = Some (Idle l).
Proof.
  revert a. induction sigs as [|sg sigs IH]; intros a Ha; [done|]. apply IH. destruct sg as [c|c]; cbn.
  - destruct (waiters a c); [done|]. cbn. rewrite lookup_wake. case_decide; [subst; by rewrite Ha|done].
  - rewrite lookup_wake_all, Ha. by case_decide.
Qed.

Lemma pending_idle_thread u ph a t l : threads a !! t = Some (Idle l) -> threads (pending u ph a) !! t = Some (Idle l).
Proof. intros Ha. destruct ph; try done; cbn [pending]; by apply signals_idle. Qed.

Lemma raw_shared s s' phs : sh_data s' = sh_data s -> sh_cond s' = sh_cond s -> raw s' phs = raw s phs.
Proof. unfold raw. by intros -> ->. Qed.

(** A thread outside of the monitor, or with nothing pending, goes on. *)
Lemma stands_quiet s s' phs t ph ph' a : phs !! t = Some ph -> sh_data s' = sh_data s -> sh_cond s' = sh_cond s ->
  busy ph = false -> busy ph' = false -> thread_of (sh_cond s) t ph' = thread_of (sh_cond s) t ph ->
  stands s phs a -> stands s' (<[t := ph']> phs) a.
Proof.
  intros Ht Ed Ec Hb Hb' E Hs. assert (Er : raw s' (<[t := ph']> phs) = raw s phs) by (rewrite (raw_shared s s') by done; by eapply raw_same).
  destruct Hs as [[Hn Ha]|(u & x & Hu & Hx & Ha)]; [left|right].
  - split; [|by rewrite Er]. intros u x [[-> ->] | [_ Hu]]%(at_Some _ _ _ _ Ht); [done|by eapply Hn].
  - exists u, x. rewrite at_other by congruence. by rewrite Er.
Qed.

(** The thread with the lock has all that is pending. *)
Lemma stands_owner k s phs t ph a : lock_inv k phs -> phs !! t = Some ph -> owns ph = true -> stands s phs a -> mon_equiv (pending t ph (raw s phs)) a.
Proof.
  intros Hk Ht Ho [[Hn Ha]|(u & x & Hu & Hx & Ha)]; [by rewrite pending_idle by by eapply Hn|].
  assert (u = t) by (eapply (iv_one _ _ Hk); [exact Hu|exact Ht|by apply busy_owns|done]). congruence.
Qed.

Lemma stands_commit k s phs t ph ph' a : lock_inv k phs -> phs !! t = Some ph -> owns ph = true ->
  mon_equiv (pending t ph' (raw s (<[t := ph']> phs))) a -> stands s (<[t := ph']> phs) a.
Proof.
  intros Hk Ht Ho Ha. destruct (busy ph') eqn:Hb; [right; exists t, ph'; split_and!; [by eapply at_self|done|done]|left].
  rewrite pending_idle in Ha by done. split; [|done]. intros u x [[-> ->] | [Hne Hu]]%(at_Some _ _ _ _ Ht); [done|].
  apply not_true_iff_false. intros Hx%busy_owns. apply Hne. eapply (iv_one _ _ Hk); [exact Hu|exact Ht|done|done].
Qed.

(** The owner goes on with what is pending. *)
Lemma stands_own k s s' phs t ph ph' a : lock_inv k phs -> phs !! t = Some ph -> owns ph = true ->
  mon_equiv (pending t ph' (raw s' (<[t := ph']> phs))) (pending t ph (raw s phs)) -> stands s phs a -> stands s' (<[t := ph']> phs) a.
Proof. intros Hk Ht Ho He Hs. eapply stands_commit; [done..|]. rewrite He. by eapply stands_owner. Qed.

(** * Signals *)

Lemma signal_none (sg : signal CV) a c : sg = One c \/ sg = All c -> waiters a c = [] -> mon_equiv (do_signal sg a) a.
Proof.
  intros [-> | ->] E; cbn; rewrite E; [done|]. split; cbn; [done| |done]. intros x. unfold upd_queue. case_decide; [by subst|done].
Qed.

Lemma signal_all a c w q : waiters a c = w :: q -> mon_equiv (do_signal (All c) (do_signal (One c) a)) (do_signal (All c) a).
Proof.
  intros E. cbn. rewrite E. unfold upd_queue. cbn. rewrite decide_True by done. split; cbn; [done| |done]. intros x. by case_decide.
Qed.

(** The thread taken off the queue is awake. *)
Lemma raw_pop s sem phs c w q : cond_inv sem (sh_cond s) phs -> sh_cond s c = w :: q ->
  raw (set_cond c q s) phs = do_signal (One c) (raw s phs).
Proof.
  intros Hc E. cbn. rewrite E. unfold raw. cbn. f_equal. pose proof (iv_nodup _ _ _ Hc c) as Hnd. rewrite E in Hnd. apply NoDup_cons in Hnd as [Hnw _].
  destruct (iv_cond _ _ _ Hc c w) as (x & op & Hx & Hw & _); [rewrite E; by left|].
  assert (Hin : forall u c', (u, c') <> (w, c) -> u ∈ upd_queue (sh_cond s) c q c' <-> u ∈ sh_cond s c').
  { intros u c' Hne. unfold upd_queue. case_decide; [|done]. subst c'. rewrite E, elem_of_cons. split; [by right|]. intros [-> |?]; [congruence|done]. }
  assert (Hth : forall u y, phs !! u = Some y -> u <> w -> thread_of (upd_queue (sh_cond s) c q) u y = thread_of (sh_cond s) u y).
  { intros u y Hu Hne. destruct y as [| | | | | | | | | |[|? c']|[|? c']|[|? c']| | | |? c']; cbn; try done; erewrite decide_ext; try done; apply Hin; congruence. }
  apply list_eq. intros u. rewrite lookup_wake, !list_lookup_imap. destruct (decide (u = w)) as [-> |Hne].
  - rewrite Hx. cbn. assert (Hold : thread_of (sh_cond s) w x = Asleep op c).
    { destruct x as [| | | | | | | | | |[|]|[|]|[|]| | | |]; cbn in *; try done; injection Hw as -> ->; rewrite decide_True; [done|rewrite E; by left|done|rewrite E; by left|done|rewrite E; by left|done|rewrite E; by left]. }
    rewrite Hold. f_equal.
    destruct x as [| | | | | | | | | |[|]|[|]|[|]| | | |]; cbn in *; try done; injection Hw as -> ->; rewrite decide_False; try done; unfold upd_queue; by rewrite decide_True.
  - destruct (phs !! u) as [y|] eqn:Hu; [|done]. cbn. f_equal. by apply Hth.
Qed.

(** The thread that joins the queue is asleep. *)
Lemma raw_push s sem phs t op c : cond_inv sem (sh_cond s) phs -> phs !! t = Some (PPush op c) ->
  raw (set_cond c (sh_cond s c ++ [t]) s) (<[t := PRelease (AWait op c)]> phs) = pending t (PPush op c) (raw s phs).
Proof.
  intros Hc Ht. rewrite raw_change. unfold set_thread, raw. cbn. f_equal.
  assert (Hin : forall u c', u <> t -> u ∈ upd_queue (sh_cond s) c (sh_cond s c ++ [t]) c' <-> u ∈ sh_cond s c').
  { intros u c' Hne. unfold upd_queue. case_decide; [|done]. subst c'. rewrite elem_of_app, list_elem_of_singleton. naive_solver. }
  apply list_eq. intros u. rewrite list_lookup_imap. destruct (decide (u = t)) as [-> |Hne].
  - rewrite Ht, list_lookup_insert_eq by (rewrite length_imap; by eapply lookup_lt_Some). cbn. rewrite decide_True; [done|].
    unfold upd_queue. rewrite decide_True by done. rewrite elem_of_app, list_elem_of_singleton. by right.
  - rewrite list_lookup_insert_ne, list_lookup_imap by done. destruct (phs !! u) as [y|] eqn:Hu; [|done]. cbn. f_equal.
    destruct y as [| | | | | | | | | |[|? c']|[|? c']|[|? c']| | | |? c']; cbn; try done; erewrite decide_ext; try done; by apply Hin.
Qed.

(** * Moves of one thread *)

Record fits s phs a : Prop := {
  fit_lock : lock_inv (sh_lock s) phs;
  fit_cond : cond_inv (sh_waiter s) (sh_cond s) phs;
  fit_stands : stands s phs a;
}.

Section moves.
Context s phs a t ph (Hf : fits s phs a) (Ht : phs !! t = Some ph).

(** Only the lock changes. *)
Lemma move_lock ph' k : lock_inv k (<[t := ph']> phs) -> waiting ph' = waiting ph -> up_of ph' = up_of ph ->
  (forall op c, ph = PAsleep op c -> ph' = ph) -> (forall op c, ph' <> PPush op c) -> busy ph = false -> busy ph' = false ->
  thread_of (sh_cond s) t ph' = thread_of (sh_cond s) t ph ->
  fits (mkShared k (sh_waiter s) (sh_cond s) (sh_data s)) (<[t := ph']> phs) a.
Proof using Hf Ht.
  intros Hk. destruct Hf. split; [done|by eapply cond_keep|by eapply stands_quiet].
Qed.

(** Nothing changes but the phase. *)
Lemma move_quiet ph' : owns ph' = owns ph -> holds ph' = holds ph -> (forall op r, ph = PDown op r -> ph' = ph) ->
  waiting ph' = waiting ph -> up_of ph' = up_of ph ->
  (forall op c, ph = PAsleep op c -> ph' = ph) -> (forall op c, ph' <> PPush op c) -> busy ph = false -> busy ph' = false ->
  thread_of (sh_cond s) t ph' = thread_of (sh_cond s) t ph -> fits s (<[t := ph']> phs) a.
Proof using Hf Ht.
  intros. pose proof (move_lock ph' (sh_lock s)) as Hm. destruct s. apply Hm; [|done..]. destruct Hf. by eapply lock_keep.
Qed.

(** The owner of the lock goes on with what is pending. *)
Lemma move_own ph' : owns ph = true -> owns ph' = true -> holds ph' = holds ph -> waiting ph' = waiting ph -> up_of ph' = up_of ph ->
  (forall op c, ph' <> PPush op c) -> mon_equiv (pending t ph' (raw s (<[t := ph']> phs))) (pending t ph (raw s phs)) -> fits s (<[t := ph']> phs) a.
Proof using Hf Ht.
  intros Ho Ho' Hh Hw Hu Hp He. destruct Hf as [H1 H2 H3].
  split; [|eapply cond_keep; try done; by intros ?? ->|by eapply stands_own]. eapply lock_keep; try done; [congruence|]. by intros ?? ->.
Qed.

(** The owner signals a condition that a thread waits for. *)
Lemma move_pop c w q sigs l : sh_cond s c = w :: q ->
  (exists sigs', ph = PSignal sigs' l /\ sigs' = One c :: sigs \/ ph = PSignal1 c sigs' l /\ sigs = All c :: sigs') ->
  fits (set_cond c q s) (<[t := PUp w sigs l]> phs) a.
Proof using Hf Ht.
  intros E Hph. destruct Hf as [H1 H2 H3].
  assert (Hp : owns ph = true /\ holds ph = true /\ waiting ph = None /\ up_of ph = None /\ thread_of (sh_cond s) t ph = Idle l /\
    mon_equiv (do_signals sigs (do_signal (One c) (raw s phs))) (pending t ph (raw s phs)) /\ (forall op c, ph <> PPush op c) /\ forall op r, ph <> PDown op r).
  { clear Hf. destruct Hph as (sigs' & [[-> ->] | [-> ->]]); split_and!; try done. cbn [pending do_signals foldl]. apply do_signals_proper. by eapply signal_all. }
  destruct Hp as (Ho & Hh & Hw & Hu & Eth & Hpend & Hpush & Hdown). split.
  - eapply lock_keep; try done; by intros op r ?%Hdown.
  - by eapply cond_pop.
  - eapply stands_own; [done..| |done]. rewrite <- Hpend. cbn [pending]. apply do_signals_proper.
    rewrite <- (raw_pop s (sh_waiter s) phs c w q) by done. erewrite raw_same; [done|exact Ht|]. by destruct Hph as (sigs' & [[-> ->] | [-> ->]]).
Qed.

Lemma move_up w sigs l : ph = PUp w sigs l -> fits (set_sema (WaiterSema w) (sema_up (sh_waiter s w)) s) (<[t := PSignal sigs l]> phs) a.
Proof using Hf Ht.
  intros Hph. destruct Hf as [H1 H2 H3]. split.
  - eapply lock_keep; [exact Ht|by rewrite ?Hph..].
  - eapply cond_up; try done. intros u sigs' l' Hu. eapply (iv_one _ _ H1); [exact Hu|exact Ht|done|by rewrite Hph].
  - eapply stands_own; try done; [by rewrite Hph|]. rewrite (raw_shared s) by done. rewrite (raw_same _ _ _ _ _ Ht); by rewrite Hph.
Qed.

(** [cond_wait] *)
Lemma not_queued : waiting ph = None -> (forall c, t ∉ sh_cond s c) /\ forall u sigs l, phs !! u <> Some (PUp t sigs l).
Proof using Hf Ht.
  intros Hw. destruct Hf as [_ H2 _]. split.
  - intros c Hin. destruct (iv_cond _ _ _ H2 c t Hin) as (x & op & Hx & Hwx & _). congruence.
  - intros u sigs l Hu. destruct (iv_up _ _ _ H2 u t sigs l Hu) as (x & op & c & Hx & Hwx & _). congruence.
Qed.

Lemma move_init op c : ph = PInit op c -> fits (set_sema (WaiterSema t) (sema_init 0) s) (<[t := PPush op c]> phs) a.
Proof using Hf Ht.
  intros Hph. destruct not_queued as [Hq Hu]; [by rewrite Hph|]. destruct Hf as [H1 H2 H3]. split.
  - eapply lock_keep; [exact Ht|by rewrite ?Hph..].
  - eapply cond_own; [exact Ht|by rewrite ?Hph..].
  - eapply stands_own; try done; [by rewrite Hph|]. rewrite (raw_shared s) by done. rewrite (raw_same _ _ _ _ _ Ht); by rewrite Hph.
Qed.

Lemma move_push op c : ph = PPush op c -> fits (set_cond c (sh_cond s c ++ [t]) s) (<[t := PRelease (AWait op c)]> phs) a.
Proof using Hf Ht.
  intros Hph. destruct Hf as [H1 H2 H3]. rewrite Hph in Ht. split.
  - eapply lock_keep; done.
  - eapply cond_push; done.
  - eapply stands_own; try done. by erewrite raw_push.
Qed.

(** The semaphore of a waiting thread. *)
Lemma move_sleep op c : ph = PAsleep op c -> value (sh_waiter s t) = 0 -> t ∉ sema_waiters (sh_waiter s t) ->
  fits (set_sema (WaiterSema t) (mkSema (value (sh_waiter s t)) (sema_waiters (sh_waiter s t) ++ [t])) s) phs a.
Proof using Hf Ht. intros Hph Hv Hn. destruct Hf as [H1 H2 H3]. split; [done|by eapply cond_block|done]. Qed.

Lemma move_wake op c : ph = PAsleep op c -> value (sh_waiter s t) <> 0 -> t ∉ sema_waiters (sh_waiter s t) ->
  fits (set_sema (WaiterSema t) (mkSema (u32 (value (sh_waiter s t) - 1)) (sema_waiters (sh_waiter s t))) s) (<[t := PAcquire op None]> phs) a.
Proof using Hf Ht.
  intros Hph Hv Hn. destruct Hf as [H1 H2 H3]. assert (Hq : forall c, t ∉ sh_cond s c).
  { intros c' Hin. by destruct (iv_cond _ _ _ H2 c' t Hin) as (x & op' & _ & _ & ?). }
  split.
  - eapply lock_keep; [exact Ht|by rewrite ?Hph..].
  - eapply cond_own; [exact Ht|..]; rewrite ?Hph; try done.
    + by destruct (iv_blocked _ _ _ H2 t _ Ht) as [?|(? & ? & _)].
    + intros u sigs l Hu. by destruct (iv_up _ _ _ H2 u t sigs l Hu) as (x & op' & c' & _ & _ & _ & ?).
  - eapply stands_quiet; [exact Ht|..]; rewrite ?Hph; try done. cbn. by rewrite decide_False.
Qed.

(** A segment of a routine runs, and the abstract monitor with it. *)
Definition body_phase op (seg : segment D CV L) : phase :=
  match seg with Sleep _ c => PWait op c | Leave _ sigs l => PSignal sigs l | Crash => PBody op None end.
Definition body_data (seg : segment D CV L) (d : D) : D :=
  match seg with Sleep d _ | Leave d _ _ => d | Crash => d end.

Lemma move_body op r seg a' : ph = PBody op r -> seg <> Crash ->
  res_equiv (finish (raw s phs) t op seg) (Ok a') -> fits (set_data (body_data seg (sh_data s)) s) (<[t := body_phase op seg]> phs) a'.
Proof using Hf Ht.
  intros Hph Hc He. destruct Hf as [H1 H2 H3].
  assert (Hp : owns (body_phase op seg) = true /\ holds (body_phase op seg) = true /\ waiting (body_phase op seg) = None /\ up_of (body_phase op seg) = None /\
    forall op' c, body_phase op seg <> PPush op' c) by by destruct seg.
  destruct Hp as (Ho & Hh & Hw & Hu & Hp). split.
  - eapply lock_keep; [exact Ht|by rewrite ?Hph..].
  - eapply cond_keep; [exact Ht|by rewrite ?Hph..].
  - eapply stands_commit; [exact H1|exact Ht|by rewrite Hph|]. rewrite raw_change. by destruct seg.
Qed.

End moves.

End steps.
End SynchSteps.
