(* ===== verification/SynchProps.v ===== *)
(** Semaphores, locks and condition variables implement monitors: every
    interleaving of threads that call monitor routines through
    [lock_acquire], [cond_wait], [cond_signal], [cond_broadcast] and
    [lock_release] is an interleaving of whole segments of the routines, and
    no wakeup is lost. *)
From S2P Require Import Prelude Monitor Synch SynchSpec SynchSteps.
From stdpp Require Import options.

#[local] Open Scope Z_scope.

Module SynchProps.
Import Synch SynchSpec SynchSteps.

Section props.
Context {D CV Op L : Type} `{EqDecision CV} `{R : Routines D CV Op L}.
Implicit Types (t u w : nat) (op : Op) (l : L) (c : CV) (sigs : list (signal CV)) (s : shared D CV) (m : machine D CV Op L)
  (a b : mon D CV Op L) (phs : list (phase (CV := CV) (Op := Op) (L := L))).

(** The step of the monitor that the next step of a thread stands for. *)
Definition acting m t : option (action Op) :=
  match m_progs m !! t with
  | Some (Body op (Some _)) => Some (Call t op)
  | Some (Body op None) => Some (Run t)
  | _ => None
  end.

Definition keeps m phs a : Prop := inv m phs /\ stands (m_shared m) phs a.

(** What a step may come to. *)
Definition outcome m phs a t (r : res (machine D CV Op L)) : Prop :=
  match r with
  | Ok m' => exists ph' a', keeps m' (<[t := ph']> phs) a' /\
      match acting m t with None => a' = a | Some act => mstep a act = Ok a' end
  | Err Panic => exists act, acting m t = Some act /\ mstep a act = Err Panic
  | Err Block => forall ph, phs !! t = Some ph ->
      (exists l, ph = PIdle l) \/
      (exists op r, ph = PDown op r /\ t ∈ sema_waiters (lock_sema (sh_lock (m_shared m)))) \/
      (exists op c, ph = PAsleep op c /\ t ∈ sema_waiters (sh_waiter (m_shared m) t))
  | Err Fault => False
  end.

Lemma keeps_fits m phs a : keeps m phs a -> fits (m_shared m) phs a.
Proof. intros [[] ?]. by split. Qed.

Lemma advance m phs a a' t ph ph' s' : keeps m phs a -> phs !! t = Some ph -> fits s' (<[t := ph']> phs) a' -> may ph' = true ->
  keeps (mkMachine s' (<[t := code t ph']> (m_progs m))) (<[t := ph']> phs) a'.
Proof.
  intros [[Hp _ _ Hm] _] Ht [H1 H2 H3] Hmay. split; [|done]. split; cbn; [by rewrite Hp, imap_change|done|done|].
  intros u x [[-> ->] | [_ Hu]]%(at_Some _ _ _ _ Ht); [done|by eapply Hm].
Qed.

Lemma prog_at m phs t ph : inv m phs -> phs !! t = Some ph -> m_progs m !! t = Some (code t ph).
Proof. intros Hi Ht. by rewrite (iv_progs _ _ Hi), list_lookup_imap, Ht. Qed.

Lemma moved m phs a t ph ph' s' p' : keeps m phs a -> phs !! t = Some ph -> acting m t = None -> may ph' = true ->
  p' = code t ph' -> fits s' (<[t := ph']> phs) a -> outcome m phs a t (Ok (mkMachine s' (<[t := p']> (m_progs m)))).
Proof.
  intros Hk Ht Ha Hm -> Hf. exists ph', a. rewrite Ha. split; [by eapply advance|done].
Qed.

(** What the thread's lock says of its phase. *)
Lemma held_iff m phs t ph : inv m phs -> phs !! t = Some ph -> held t (m_shared m) = holds ph.
Proof.
  intros Hi Ht. unfold held, lock_held_by_current_thread. pose proof (iv_holder _ _ (iv_lock _ _ Hi) t ph Ht) as Hh.
  destruct (holds ph); [apply bool_decide_eq_true_2; tauto|apply bool_decide_eq_false_2; intros E%Hh; done].
Qed.

Section one.
Context m phs a t ph (Hk : keeps m phs a) (Ht : phs !! t = Some ph).

Lemma step_at : step m t = (let* (s', p') :=
    match code t ph with
    | Done _ => Err Block
    | Down i k =>
        if decide (t ∈ sema_waiters (get_sema i (m_shared m))) then Err Block
        else let (x, done) := sema_down t (get_sema i (m_shared m)) in Ok (set_sema i x (m_shared m), if done then k else Down i k)
    | Do f => f (m_shared m)
    | Body op from =>
        match segment_of op from (sh_data (m_shared m)) with
        | Sleep d c => Ok (set_data d (m_shared m), cond_wait t c (Body op None))
        | Leave d sigs l => Ok (set_data d (m_shared m), signals t sigs (lock_release t (Done l)))
        | Crash => Err Panic
        end
    | Broadcast c k => Ok (m_shared m, cond_broadcast t c k (m_shared m))
    end in
  Ok (mkMachine s' (<[t := p']> (m_progs m)))).
Proof using Hk Ht. unfold step. by rewrite (prog_at m phs t ph (proj1 Hk) Ht). Qed.

Lemma acting_at : acting m t = match ph with PBody op (Some _) => Some (Call t op) | PBody op None => Some (Run t) | _ => None end.
Proof using Hk Ht.
  unfold acting. rewrite (prog_at m phs t ph (proj1 Hk) Ht). destruct ph; try done. destruct sigs as [|[] ?]; done.
Qed.

Lemma held_at : held t (m_shared m) = holds ph.
Proof using Hk Ht. eapply held_iff; [apply Hk|done]. Qed.

Lemma may_at : may ph = true.
Proof using Hk Ht. eapply iv_allowed; [apply Hk|exact Ht]. Qed.

End one.

(** * Every step *)

Abbreviation stepped m phs a t := (outcome m phs a t (step m t)) (only parsing).

Ltac at_step Hk Ht := rewrite (step_at _ _ _ _ _ Hk Ht); cbn [code].
Tactic Notation "by_move" hyp(Hk) hyp(Ht) uconstr(ph') := eapply (moved _ _ _ _ _ ph'); [exact Hk|exact Ht|by rewrite (acting_at _ _ _ _ _ Hk Ht)| |done|].

(** ** The lock *)

Lemma step_acquire m phs a t op r : keeps m phs a -> phs !! t = Some (PAcquire op r) -> stepped m phs a t.
Proof.
  intros Hk Ht. at_step Hk Ht. cbn. rewrite (held_at _ _ _ _ _ Hk Ht). cbn.
  by_move Hk Ht (PDown op r); [exact (may_at _ _ _ _ _ Hk Ht)|]. eapply move_quiet; [by apply keeps_fits|exact Ht|done..].
Qed.

Lemma step_down m phs a t op r : keeps m phs a -> phs !! t = Some (PDown op r) -> stepped m phs a t.
Proof.
  intros Hk Ht. pose proof (may_at _ _ _ _ _ Hk Ht) as Hm. pose proof (keeps_fits _ _ _ Hk) as Hf. at_step Hk Ht. cbn [get_sema].
  case_decide as Hin; [cbn; intros x Hx; right; left; rewrite Ht in Hx; injection Hx as <-; eauto|]. unfold sema_down.
  destruct (Z.eqb_spec (value (lock_sema (sh_lock (m_shared m)))) 0) as [Hv|Hv]; cbn.
  - by_move Hk Ht (PDown op r); [done|]. rewrite (list_insert_id _ _ _ Ht). destruct Hf. split; [by eapply lock_block|done|done].
  - by_move Hk Ht (PHolder op r); [done|]. eapply move_lock; [exact Hf|exact Ht| |done..]. eapply lock_take; [exact Ht|by destruct Hf|done..].
Qed.

Lemma step_holder m phs a t op r : keeps m phs a -> phs !! t = Some (PHolder op r) -> stepped m phs a t.
Proof.
  intros Hk Ht. pose proof (keeps_fits _ _ _ Hk) as Hf. at_step Hk Ht. cbn.
  by_move Hk Ht (PBody op r); [exact (may_at _ _ _ _ _ Hk Ht)|]. eapply move_lock; [exact Hf|exact Ht| |done..].
  eapply lock_hold; [exact Ht|by destruct Hf|done|done|by left].
Qed.

Lemma step_try m phs a t op l : keeps m phs a -> phs !! t = Some (PTry op l) -> stepped m phs a t.
Proof.
  intros Hk Ht. at_step Hk Ht. cbn. rewrite (held_at _ _ _ _ _ Hk Ht). cbn.
  by_move Hk Ht (PTryDown op l); [exact (may_at _ _ _ _ _ Hk Ht)|]. eapply move_quiet; [by apply keeps_fits|exact Ht|done..].
Qed.

Lemma step_try_down m phs a t op l : keeps m phs a -> phs !! t = Some (PTryDown op l) -> stepped m phs a t.
Proof.
  intros Hk Ht. pose proof (may_at _ _ _ _ _ Hk Ht) as Hm. pose proof (keeps_fits _ _ _ Hk) as Hf. at_step Hk Ht. cbn. unfold sema_try_down.
  destruct (Z.ltb_spec 0 (value (lock_sema (sh_lock (m_shared m))))) as [Hv|Hv]; cbn.
  - by_move Hk Ht (PHolder op (Some l)); [done|]. eapply move_lock; [exact Hf|exact Ht| |done..]. eapply lock_take; [exact Ht|by destruct Hf|lia|done|done|].
    intros Hin. destruct (iv_queue _ _ (fit_lock _ _ _ Hf) t Hin) as (? & ? & ?). congruence.
  - by_move Hk Ht (PIdle l); [done|]. destruct (m_shared m) as [[o x] ?]. cbn in *. eapply move_quiet; [exact Hf|exact Ht|done..].
Qed.

Lemma step_release m phs a t k : keeps m phs a -> phs !! t = Some (PRelease k) -> stepped m phs a t.
Proof.
  intros Hk Ht. at_step Hk Ht. cbn. rewrite (held_at _ _ _ _ _ Hk Ht). cbn.
  by_move Hk Ht (PUnhold k); [done|]. eapply move_quiet; [by apply keeps_fits|exact Ht|by destruct k..].
Qed.

Lemma step_unhold m phs a t k : keeps m phs a -> phs !! t = Some (PUnhold k) -> stepped m phs a t.
Proof.
  intros Hk Ht. pose proof (keeps_fits _ _ _ Hk) as Hf. at_step Hk Ht. cbn.
  by_move Hk Ht (PUnlock k); [done|]. eapply move_lock; [exact Hf|exact Ht| |by destruct k..].
  eapply lock_hold; [exact Ht|by destruct Hf|done|done|by right].
Qed.

Definition after_phase (k : after (CV := CV) (Op := Op) (L := L)) : phase :=
  match k with ADone l => PIdle l | AWait op c => PAsleep op c end.

Lemma step_unlock m phs a t k : keeps m phs a -> phs !! t = Some (PUnlock k) -> stepped m phs a t.
Proof.
  intros Hk Ht. pose proof (keeps_fits _ _ _ Hk) as Hf. at_step Hk Ht. cbn.
  eapply (moved _ _ _ _ _ (after_phase k)); [exact Hk|exact Ht|by rewrite (acting_at _ _ _ _ _ Hk Ht)|by destruct k|by destruct k|].
  eapply move_lock; [exact Hf|exact Ht| |by destruct k..]. eapply lock_give; [exact Ht|by destruct Hf|by destruct k..].
Qed.

(** ** Condition variables *)

Lemma step_signal m phs a t sigs l : keeps m phs a -> phs !! t = Some (PSignal sigs l) -> stepped m phs a t.
Proof.
  intros Hk Ht. pose proof (keeps_fits _ _ _ Hk) as Hf. at_step Hk Ht. destruct sigs as [|[c|c] sigs]; cbn; rewrite ?(held_at _ _ _ _ _ Hk Ht); cbn [holds owns].
  - by_move Hk Ht (PUnhold (ADone l)); [done|]. eapply move_own; [exact Hf|exact Ht|done..|]. by rewrite (raw_same _ _ _ _ _ Ht).
  - destruct (sh_cond (m_shared m) c) as [|w q] eqn:E; cbn.
    + by_move Hk Ht (PSignal sigs l); [done|]. eapply move_own; [exact Hf|exact Ht|done..|]. rewrite (raw_same _ _ _ _ _ Ht) by done.
      cbn [pending do_signals foldl]. apply do_signals_proper. symmetry. eapply signal_none; [by left|done].
    + by_move Hk Ht (PUp w sigs l); [done|]. eapply move_pop; [exact Hf|exact Ht|done|]. eauto.
  - unfold cond_broadcast. destruct (sh_cond (m_shared m) c) as [|w q] eqn:E.
    + by_move Hk Ht (PSignal sigs l); [done|]. eapply move_own; [exact Hf|exact Ht|done..|]. rewrite (raw_same _ _ _ _ _ Ht) by done.
      cbn [pending do_signals foldl]. apply do_signals_proper. symmetry. eapply signal_none; [by right|done].
    + by_move Hk Ht (PSignal1 c sigs l); [done|]. eapply move_own; [exact Hf|exact Ht|done..|]. by rewrite (raw_same _ _ _ _ _ Ht).
Qed.

Lemma step_signal1 m phs a t c sigs l : keeps m phs a -> phs !! t = Some (PSignal1 c sigs l) -> stepped m phs a t.
Proof.
  intros Hk Ht. pose proof (keeps_fits _ _ _ Hk) as Hf. at_step Hk Ht. cbn. rewrite (held_at _ _ _ _ _ Hk Ht). cbn [holds owns].
  destruct (sh_cond (m_shared m) c) as [|w q] eqn:E; cbn.
  - by_move Hk Ht (PSignal (All c :: sigs) l); [done|]. eapply move_own; [exact Hf|exact Ht|done..|]. by rewrite (raw_same _ _ _ _ _ Ht).
  - by_move Hk Ht (PUp w (All c :: sigs) l); [done|]. eapply move_pop; [exact Hf|exact Ht|done|]. eauto.
Qed.

Lemma step_up m phs a t w sigs l : keeps m phs a -> phs !! t = Some (PUp w sigs l) -> stepped m phs a t.
Proof.
  intros Hk Ht. at_step Hk Ht. cbn. by_move Hk Ht (PSignal sigs l); [done|]. eapply move_up; [by apply keeps_fits|exact Ht|done].
Qed.

Lemma step_wait m phs a t op c : keeps m phs a -> phs !! t = Some (PWait op c) -> stepped m phs a t.
Proof.
  intros Hk Ht. at_step Hk Ht. cbn. rewrite (held_at _ _ _ _ _ Hk Ht). cbn.
  by_move Hk Ht (PInit op c); [done|]. eapply move_own; [by apply keeps_fits|exact Ht|done..|]. by rewrite (raw_same _ _ _ _ _ Ht).
Qed.

Lemma step_init m phs a t op c : keeps m phs a -> phs !! t = Some (PInit op c) -> stepped m phs a t.
Proof. intros Hk Ht. at_step Hk Ht. cbn. by_move Hk Ht (PPush op c); [done|]. eapply move_init; [by apply keeps_fits|exact Ht|done]. Qed.

Lemma step_push m phs a t op c : keeps m phs a -> phs !! t = Some (PPush op c) -> stepped m phs a t.
Proof. intros Hk Ht. at_step Hk Ht. cbn. by_move Hk Ht (PRelease (AWait op c)); [done|]. eapply move_push; [by apply keeps_fits|exact Ht|done]. Qed.

Lemma step_asleep m phs a t op c : keeps m phs a -> phs !! t = Some (PAsleep op c) -> stepped m phs a t.
Proof.
  intros Hk Ht. pose proof (keeps_fits _ _ _ Hk) as Hf. at_step Hk Ht. cbn [get_sema].
  case_decide as Hin; [cbn; intros x Hx; right; right; rewrite Ht in Hx; injection Hx as <-; eauto|]. unfold sema_down.
  destruct (Z.eqb_spec (value (sh_waiter (m_shared m) t)) 0) as [Hv|Hv]; cbn.
  - by_move Hk Ht (PAsleep op c); [done|]. rewrite (list_insert_id _ _ _ Ht). by eapply move_sleep.
  - by_move Hk Ht (PAcquire op None); [done|]. by eapply move_wake.
Qed.

(** ** Segments *)

Lemma finish_run op r seg s phs t a act : mon_equiv (raw s phs) a -> phs !! t = Some (PBody op r) -> may (PBody op r) = true ->
  seg = segment_of op r (sh_data s) -> act = (match r with Some _ => Call t op | None => Run t end) -> res_equiv (finish (raw s phs) t op seg) (mstep a act).
Proof.
  intros Ha Ht Hm -> ->. pose proof (mstep_equiv _ _ (match r with Some _ => Call t op | None => Run t end) Ha) as He.
  destruct r as [l|]; cbn in *; rewrite list_lookup_imap, Ht in He; cbn in He; [rewrite Hm in He|]; exact He.
Qed.

Lemma step_body m phs a t op r : keeps m phs a -> phs !! t = Some (PBody op r) -> stepped m phs a t.
Proof.
  intros Hk Ht. pose proof (keeps_fits _ _ _ Hk) as Hf. at_step Hk Ht.
  assert (Ha : mon_equiv (raw (m_shared m) phs) a) by (destruct Hf; by eapply (stands_owner _ _ _ _ (PBody op r))).
  assert (Hact : acting m t = Some (match r with Some _ => Call t op | None => Run t end)) by (rewrite (acting_at _ _ _ _ _ Hk Ht); by destruct r).
  pose proof (finish_run _ _ _ _ _ _ _ _ Ha Ht (may_at _ _ _ _ _ Hk Ht) eq_refl eq_refl) as He.
  assert (Hgo : forall seg s', seg = segment_of op r (sh_data (m_shared m)) -> seg <> Crash -> s' = set_data (body_data seg (sh_data (m_shared m))) (m_shared m) ->
    outcome m phs a t (Ok (mkMachine s' (<[t := code t (body_phase op seg)]> (m_progs m))))).
  { intros seg s' Hseg Hc ->. rewrite <- Hseg in He. unfold outcome. rewrite Hact. destruct (mstep a _) as [a'|e]; [|by destruct seg].
    exists (body_phase op seg), a'. split; [|done]. eapply advance; [exact Hk|exact Ht|by eapply move_body|by destruct seg]. }
  destruct (segment_of op r (sh_data (m_shared m))) as [d c|d sigs l|] eqn:Eseg; cbn [mbind].
  - by apply (Hgo (Sleep d c)).
  - by apply (Hgo (Leave d sigs l)).
  - cbn in He. destruct (mstep a _) as [|e] eqn:Em; [done|]. subst e. unfold outcome. cbn. eauto.
Qed.

Lemma step_keeps m phs a t : keeps m phs a -> stepped m phs a t.
Proof.
  intros Hk. destruct (phs !! t) as [ph|] eqn:Ht.
  2:{ unfold step. destruct Hk as [Hi _]. rewrite (iv_progs _ _ Hi), list_lookup_imap, Ht. cbn. congruence. }
  destruct ph; eauto using step_acquire, step_down, step_holder, step_try, step_try_down, step_release, step_unhold, step_unlock,
    step_signal, step_signal1, step_up, step_wait, step_init, step_push, step_asleep, step_body.
  at_step Hk Ht. cbn. rewrite Ht. intros ph [= <-]. eauto.
Qed.

Lemma call_keeps m phs a t op try m' : keeps m phs a -> call m t op try = Ok m' -> exists ph', keeps m' (<[t := ph']> phs) a.
Proof.
  intros Hk. unfold call. destruct (phs !! t) as [ph|] eqn:Ht.
  2:{ destruct Hk as [Hi _]. rewrite (iv_progs _ _ Hi), list_lookup_imap, Ht. done. }
  rewrite (prog_at m phs t ph (proj1 Hk) Ht). destruct ph as [l| | | | | | |[|[] ?]| | | | | | | | |]; cbn; try done.
  destruct (allowed op l) eqn:Ha; [|done]. intros [= <-]. destruct try.
  - exists (PTry op l). eapply (advance _ _ _ _ _ _ (PTry op l)); [exact Hk|exact Ht| |done]. eapply move_quiet; [by apply keeps_fits|exact Ht|done..].
  - exists (PAcquire op (Some l)). eapply (advance _ _ _ _ _ _ (PAcquire op (Some l))); [exact Hk|exact Ht| |done]. eapply move_quiet; [by apply keeps_fits|exact Ht|done..].
Qed.

(** * Reachable states *)

Definition admits (good : D -> action Op -> bool) m t : bool :=
  match acting m t with Some act => good (sh_data (m_shared m)) act | None => true end.

(** The states reached by calls and steps, where [good] admits the segments
    that run. *)
Inductive sreach (good : D -> action Op -> bool) (d : D) (ls : list L) : machine D CV Op L -> Prop :=
| sreach_boot : sreach good d ls (boot d ls)
| sreach_call m t op try m' : sreach good d ls m -> call m t op try = Ok m' -> sreach good d ls m'
| sreach_step m t m' : sreach good d ls m -> admits good m t = true -> step m t = Ok m' -> sreach good d ls m'.

Definition start (d : D) (ls : list L) : mon D CV Op L := mkMon d (fun _ => []) (Idle <$> ls).
Abbreviation mreach good d ls := (reachable (fun a act => good (data a) act) (start d ls)).

Lemma pending_data t ph a : data (pending t ph a) = data a.
Proof. destruct ph; cbn [pending]; try done; apply data_signals. Qed.

Lemma stands_data s phs a : stands s phs a -> data a = sh_data s.
Proof. intros [[_ Ha]|(t & ph & _ & _ & Ha)]; rewrite <- (eq_data _ _ Ha); [done|]. by rewrite pending_data. Qed.

Lemma boot_keeps d ls : keeps (boot d ls) (PIdle <$> ls) (start d ls).
Proof.
  assert (Hidle : forall t ph, (PIdle (CV := CV) (Op := Op) <$> ls) !! t = Some ph -> exists l, ph = PIdle l).
  { intros t ph. rewrite list_lookup_fmap. destruct (ls !! t) as [l|]; [|done]. intros [= <-]. by exists l. }
  split; [split; [|split|split|]|left; split]; cbn.
  - apply list_eq. intros t. rewrite list_lookup_imap, !list_lookup_fmap. by destruct (ls !! t).
  - left. split; [done|]. by intros t ph [l ->]%Hidle.
  - by intros t u ph ph' [l ->]%Hidle.
  - by intros t ph [l ->]%Hidle.
  - done.
  - by intros t ?%not_elem_of_nil.
  - constructor.
  - done.
  - by intros c t ?%not_elem_of_nil.
  - intros c. constructor.
  - by intros t ph op c [l ->]%Hidle.
  - by intros u w sigs l [? ?]%Hidle.
  - by left.
  - by intros t op c [? ?]%Hidle.
  - by intros t ph [l ->]%Hidle.
  - by intros t ph [l ->]%Hidle.
  - split; cbn; [done|done|]. apply list_eq. intros t. rewrite list_lookup_imap, !list_lookup_fmap. by destruct (ls !! t).
Qed.

Lemma sreach_keeps good d ls m : sreach good d ls m -> exists phs a, keeps m phs a /\ mreach good d ls a.
Proof.
  induction 1 as [|m t op try m' _ (phs & a & Hk & Hr) Hc|m t m' _ (phs & a & Hk & Hr) Hg Hs].
  - exists (PIdle <$> ls), (start d ls). split; [apply boot_keeps|constructor].
  - destruct (call_keeps _ _ _ _ _ _ _ Hk Hc) as [ph' Hk']. eauto.
  - pose proof (step_keeps _ _ _ t Hk) as Ho. rewrite Hs in Ho. destruct Ho as (ph' & a' & Hk' & Ha). unfold admits in Hg.
    destruct (acting m t) as [act|]; [|subst a'; eauto]. exists (<[t := ph']> phs), a'. split; [done|]. eapply reach_step; [exact Hr| |exact Ha].
    by rewrite (stands_data _ _ _ (proj2 Hk)).
Qed.

(** A thread outside the monitor is idle in the abstract monitor. *)
Lemma keeps_done m phs a t l : keeps m phs a -> m_progs m !! t = Some (Done l) -> threads a !! t = Some (Idle l).
Proof.
  intros [Hi Hs] Hp. rewrite (iv_progs _ _ Hi), list_lookup_imap in Hp. destruct (phs !! t) as [ph|] eqn:Ht; [|done]. cbn in Hp.
  assert (ph = PIdle l) as -> by (destruct ph as [| | | | | | |[|[] ?]| | | | | | | | |]; cbn in Hp; try done; by injection Hp as ->).
  assert (Hr : threads (raw (m_shared m) phs) !! t = Some (Idle l)) by (cbn; by rewrite list_lookup_imap, Ht).
  destruct Hs as [[_ Ha]|(u & x & Hu & Hx & Ha)]; rewrite <- (eq_threads _ _ Ha); [done|]. by apply pending_idle_thread.
Qed.

Lemma body_holds m phs t op r : inv m phs -> m_progs m !! t = Some (Body op r) -> exists ph, phs !! t = Some ph /\ holds ph = true.
Proof.
  intros Hi Hp. rewrite (iv_progs _ _ Hi), list_lookup_imap in Hp. destruct (phs !! t) as [ph|]; [|done]. exists ph. split; [done|].
  destruct ph as [| | | | | | |[|[] ?]| | |[]|[]|[]| | | |]; done.
Qed.

(** In a state where no thread can go on, nobody has the lock. *)
Lemma stuck_free m phs a : keeps m phs a -> (forall t, step m t = Err Block) ->
  (forall t ph, phs !! t = Some ph -> owns ph = false) /\ value (lock_sema (sh_lock (m_shared m))) = 1 /\ holder (sh_lock (m_shared m)) = None /\
  forall t ph, phs !! t = Some ph -> (exists l, ph = PIdle l) \/ exists op c, ph = PAsleep op c /\ t ∈ sh_cond (m_shared m) c.
Proof.
  intros Hk Hs. assert (Hb : forall t ph, phs !! t = Some ph ->
      (exists l, ph = PIdle l) \/
      (exists op r, ph = PDown op r /\ t ∈ sema_waiters (lock_sema (sh_lock (m_shared m)))) \/
      (exists op c, ph = PAsleep op c /\ t ∈ sema_waiters (sh_waiter (m_shared m) t))).
  { intros t ph Ht. pose proof (step_keeps _ _ _ t Hk) as Ho. rewrite (Hs t) in Ho. by apply Ho. }
  assert (Hno : forall t ph, phs !! t = Some ph -> owns ph = false) by (intros t ph Ht; destruct (Hb t ph Ht) as [(? & ->)|[(? & ? & -> & _)|(? & ? & -> & _)]]; done).
  destruct (keeps_fits _ _ _ Hk) as [H1 H2 _]. assert (Hv : value (lock_sema (sh_lock (m_shared m))) = 1).
  { destruct (iv_free _ _ H1) as [[? _]|[_ (t & ph & Ht & Ho)]]; [done|]. by rewrite (Hno t ph Ht) in Ho. }
  assert (Hw : sema_waiters (lock_sema (sh_lock (m_shared m))) = []).
  { destruct (sema_waiters (lock_sema (sh_lock (m_shared m)))) eqn:E; [done|]. destruct (iv_live _ _ H1) as (t & op & r & Ht & Hn); [done|by rewrite E|].
    destruct (Hb t _ Ht) as [(? & ?)|[(? & ? & _ & Hin)|(? & ? & ? & _)]]; [done| |done]. by rewrite E in Hn. }
  split; [done|]. split; [done|]. split.
  - destruct (holder (sh_lock (m_shared m))) as [t|] eqn:E; [|done]. destruct (phs !! t) as [ph|] eqn:Ht.
    + apply (iv_holder _ _ H1 t ph Ht), holds_owns in E. by rewrite (Hno t ph Ht) in E.
    + apply (iv_known _ _ H1) in E as [? ?]. congruence.
  - intros t ph Ht. destruct (Hb t ph Ht) as [?|[(op & r & -> & Hin)|(op & c & -> & Hin)]]; [by left|rewrite Hw in Hin; by apply not_elem_of_nil in Hin|right].
    exists op, c. split; [done|]. destruct (decide (t ∈ sh_cond (m_shared m) c)) as [|Hn]; [done|]. exfalso.
    destruct (iv_signalled _ _ _ H2 t _ op c Ht eq_refl Hn) as [Hv1|[_ (u & sigs & l & Hu)]].
    + destruct (iv_blocked _ _ _ H2 t _ Ht) as [E|(_ & ? & _)]; [rewrite E in Hin; by apply not_elem_of_nil in Hin|lia].
    + by apply Hno in Hu.
Qed.

(** C18: Every state that the semaphores, the lock and the condition variables
    reach, however the steps of the threads interleave, stands for a state
    that the abstract monitor reaches by whole segments: the monitor's data is
    the same, a thread that has returned has returned there, and a thread
    that runs the code of a routine is the holder of the lock. An [ASSERT]
    can only fail in the routines themselves. *)
Theorem synch_refines good d ls m (Hm : sreach good d ls m) :
  exists a, mreach good d ls a /\ data a = sh_data (m_shared m) /\
    (forall t l, m_progs m !! t = Some (Done l) -> threads a !! t = Some (Idle l)) /\
    (forall t op r, m_progs m !! t = Some (Body op r) -> holder (sh_lock (m_shared m)) = Some t) /\
    (forall t, step m t <> Err Fault) /\
    (forall t, step m t = Err Panic -> exists act, acting m t = Some act /\ mstep a act = Err Panic).
Proof.
  destruct (sreach_keeps _ _ _ _ Hm) as (phs & a & Hk & Hr). exists a. split_and!; [done|by apply (stands_data _ phs), Hk| | | |].
  - intros t l. by eapply keeps_done.
  - intros t op r Hp. destruct (body_holds _ _ _ _ _ (proj1 Hk) Hp) as (ph & Ht & Hh). by apply (iv_holder _ _ (iv_lock _ _ (proj1 Hk)) t ph Ht).
  - intros t Hs. pose proof (step_keeps _ _ _ t Hk) as Ho. by rewrite Hs in Ho.
  - intros t Hs. pose proof (step_keeps _ _ _ t Hk) as Ho. by rewrite Hs in Ho.
Qed.

(** In such a state every thread has returned or sleeps in a queue. *)
Lemma stuck_threads m phs a : keeps m phs a -> (forall t, step m t = Err Block) ->
  (forall t p, m_progs m !! t = Some p ->
    (exists l, p = Done l /\ threads a !! t = Some (Idle l)) \/
    (exists op c, threads a !! t = Some (Asleep op c) /\ t ∈ sh_cond (m_shared m) c)) /\
  length (m_progs m) = length (threads a).
Proof.
  intros Hk Hstuck. destruct (stuck_free m phs a Hk Hstuck) as (Hno & _ & _ & Hph). destruct Hk as [Hi Hs].
  assert (Ea : threads a = threads (raw (m_shared m) phs)).
  { destruct Hs as [[_ Ha]|(u & x & Hu & Hx & Ha)]; [by rewrite (eq_threads _ _ Ha)|]. apply busy_owns in Hx. by rewrite (Hno u x Hu) in Hx. }
  rewrite Ea, (iv_progs _ _ Hi). cbn [threads raw]. split; [|by rewrite !length_imap]. intros t p Hp.
  rewrite list_lookup_imap in Hp. rewrite list_lookup_imap. destruct (phs !! t) as [ph|] eqn:Ht; [|discriminate Hp]. cbn in Hp.
  injection Hp as <-. destruct (Hph t ph Ht) as [[l ->]|(op & c & -> & Hin)]; cbn; [left; eauto|right].
  exists op, c. by rewrite decide_True.
Qed.

(** C19: No wakeup is lost and the lock cannot deadlock: when no thread can take
    a step, the lock is free, and every thread has returned from the monitor
    or sleeps there, in the queue of the condition it waits for. *)
Theorem synch_no_lost_wakeup good d ls m (Hm : sreach good d ls m) (Hstuck : forall t, step m t = Err Block) :
  value (lock_sema (sh_lock (m_shared m))) = 1 /\ holder (sh_lock (m_shared m)) = None /\
  exists a, mreach good d ls a /\ data a = sh_data (m_shared m) /\
    forall t p, m_progs m !! t = Some p ->
      (exists l, p = Done l /\ threads a !! t = Some (Idle l)) \/
      (exists op c, threads a !! t = Some (Asleep op c) /\ t ∈ sh_cond (m_shared m) c).
Proof.
  destruct (sreach_keeps _ _ _ _ Hm) as (phs & a & Hk & Hr). destruct (stuck_free m phs a Hk Hstuck) as (_ & Hv & Hh & _).
  split; [done|]. split; [done|]. exists a. split; [done|]. split; [by apply (stands_data _ phs), Hk|]. by apply (stuck_threads m phs a Hk).
Qed.

End props.
End SynchProps.

(** The read-write lock (src/src/filesys/rw-lock.c) on top of the semaphores,
    the lock and the condition variables that implement its monitor. *)
From S2P Require Import RwLock.

Module SynchRw.
Import Synch SynchSpec SynchSteps SynchProps.

Abbreviation rw_machine := (machine rw_lock rw_cond rw_op RwLock.held).
Implicit Types m : rw_machine.

(** [calm], which depends on the data of the monitor only. *)
Definition rw_calm (d : rw_lock) (act : action rw_op) : bool :=
  match act with Call _ WriteTryAcquire => negb (reader_next d) | _ => true end.

Abbreviation rw_boot n := (boot rw_lock_init (replicate n Free) : rw_machine).
Abbreviation rw_reach n := (sreach (CV := rw_cond) (Op := rw_op) rw_calm rw_lock_init (replicate n Free)).

Lemma rw_reach_start n (a : rw_state) : reachable (fun a act => rw_calm (data a) act) (start rw_lock_init (replicate n Free)) a ->
  reachable calm (rw_start n) a.
Proof.
  unfold start. rewrite fmap_replicate. induction 1 as [|a act a' _ IH Hok Hs]; [apply reach_init|]. eapply reach_step; [exact IH| |exact Hs].
  destruct act as [t []|t]; done.
Qed.

(** Any run of the threads. *)
Definition rw_any (d : rw_lock) (act : action rw_op) : bool := true.
Abbreviation rw_reach_any n := (sreach (CV := rw_cond) (Op := rw_op) rw_any rw_lock_init (replicate n Free)).

Lemma rw_reach_start_any n (a : rw_state) : reachable (fun a act => rw_any (data a) act) (start rw_lock_init (replicate n Free)) a ->
  reachable any_step (rw_start n) a.
Proof. unfold start. rewrite fmap_replicate. induction 1 as [|a act a' _ IH _ Hs]; [apply reach_init|]. by eapply reach_step. Qed.

Lemma rw_reach_calm n m : rw_reach n m -> rw_reach_any n m.
Proof.
  induction 1 as [|m t op try m' _ IH Hc|m t m' _ IH Hg Hs]; [apply sreach_boot|by eapply sreach_call|]. eapply sreach_step; [exact IH| |exact Hs].
  unfold admits in *. by destruct (acting m t).
Qed.

(** C20: The read-write lock, with its monitor implemented by semaphores. With
    every interleaving of the threads' steps no [ASSERT] fails, and when no
    thread can take a step while one is still in a routine of the lock, some
    thread has the lock. In the runs in which [write_lock_try_acquire] is not
    called while it is the turn of readers ([reader_next]), a thread that has
    returned with the lock for writing is alone with it. *)
Theorem rwlock_implemented (n : nat) m (Hm : rw_reach_any n m) :
  (forall t, step m t <> Err Panic) /\
  ((forall t, step m t = Err Block) -> forall t p, m_progs m !! t = Some p -> (forall l, p <> Done l) ->
    exists u, m_progs m !! u = Some (Done Reading) \/ m_progs m !! u = Some (Done Writing)) /\
  (rw_reach n m -> forall t u, m_progs m !! t = Some (Done Writing) -> u <> t ->
    m_progs m !! u <> Some (Done Reading) /\ m_progs m !! u <> Some (Done Writing)).
Proof.
  destruct (sreach_keeps _ _ _ _ Hm) as (phs & a & Hk & Hr%rw_reach_start_any). split; [|split].
  - intros t Hs. pose proof (step_keeps _ _ _ t Hk) as Ho. rewrite Hs in Ho. destruct Ho as (act & _ & Ha).
    by apply (rwlock_no_assert_failure n a act Hr).
  - intros Hs t p Hp Hnd. destruct (stuck_threads m phs a Hk Hs) as [Hst Hlen].
    destruct (Hst t p Hp) as [(l & -> & _)|(op & c & Ht & _)]; [by destruct (Hnd l)|].
    destruct (rwlock_no_lost_wakeup n a t op c Hr Ht) as [u Hu]. exists u.
    assert (Hp' : forall th, threads a !! u = Some th -> exists q, m_progs m !! u = Some q).
    { intros th Hth. apply lookup_lt_is_Some. rewrite Hlen. by eapply lookup_lt_Some. }
    destruct Hu as [Hu|[Hu|[op' Hu]]]; destruct (Hp' _ Hu) as [q Hq];
      (destruct (Hst u q Hq) as [(l & -> & E)|(op'' & c' & E & _)]; rewrite Hu in E; injection E as <- || done); eauto.
  - intros Hc t u Ht Hne. clear phs a Hk Hr. destruct (sreach_keeps _ _ _ _ Hc) as (phs & a & Hk & Hr%rw_reach_start). pose proof (keeps_done m phs a) as Hd.
    destruct (rwlock_exclusion n a t u Hr) as [H1 H2]; [by apply Hd|done|]. split; intros Hu%Hd; done.
Qed.

(** * Runs *)

Inductive event := SCall (t : nat) (op : rw_op) | SSteps (t : nat) (k : nat).

Fixpoint steps (good : rw_lock -> action rw_op -> bool) m t (k : nat) : res rw_machine :=
  match k with
  | O => Ok m
  | S k => if admits good m t then let* m' := step m t in steps good m' t k else Err Block
  end.

Fixpoint srun m (es : list event) : res rw_machine :=
  match es with
  | [] => Ok m
  | SCall t op :: es => let* m' := call m t op false in srun m' es
  | SSteps t k :: es => let* m' := steps rw_calm m t k in srun m' es
  end.

Lemma steps_reach n m t k m' : rw_reach n m -> steps rw_calm m t k = Ok m' -> rw_reach n m'.
Proof.
  revert m. induction k as [|k IH]; intros m Hm; cbn; [by intros [= <-]|]. destruct (admits rw_calm m t) eqn:Ha; [|done].
  destruct (step m t) as [m1|] eqn:Es; [|done]. cbn. apply IH. by eapply sreach_step.
Qed.

Lemma srun_reach n m es m' : rw_reach n m -> srun m es = Ok m' -> rw_reach n m'.
Proof.
  revert m. induction es as [|[t op|t k] es IH]; intros m Hm; cbn; [by intros [= <-]|..].
  - destruct (call m t op false) as [m1|] eqn:Ec; [|done]. cbn. apply IH. by eapply sreach_call.
  - destruct (steps rw_calm m t k) as [m1|] eqn:Es; [|done]. cbn. apply IH. by eapply steps_reach.
Qed.

(** Thread 0 takes the lock for writing while thread 1 waits for the monitor;
    thread 1 then sleeps until it can read. *)
Definition writer_and_reader : list event :=
  [SCall 0 WriteAcquire; SSteps 0 2; SCall 1 ReadAcquire; SSteps 1 2; SSteps 0 5; SSteps 1 10].

Definition rw_stuck : rw_machine := match srun (rw_boot 2) writer_and_reader with Ok m => m | Err _ => rw_boot 2 end.

Lemma rw_stuck_reach : rw_reach 2 rw_stuck.
Proof.
  unfold rw_stuck. destruct (srun (rw_boot 2) writer_and_reader) as [m|] eqn:E; [|apply sreach_boot]. eapply srun_reach; [apply sreach_boot|exact E].
Qed.

Lemma rw_stuck_blocked t : step rw_stuck t = Err Block.
Proof. destruct t as [|[|t]]; vm_compute; reflexivity. Qed.

Lemma synch_refines_witness : exists a : rw_state, data a = sh_data (m_shared rw_stuck) /\ threads a !! 0%nat = Some (Idle Writing).
Proof.
  destruct (synch_refines rw_calm rw_lock_init (replicate 2 Free) rw_stuck rw_stuck_reach) as (a & _ & Hd & Ht & _).
  exists a. split; [exact Hd|]. apply Ht. vm_compute. reflexivity.
Defined.

Lemma synch_no_lost_wakeup_witness : value (lock_sema (sh_lock (m_shared rw_stuck))) = 1 /\
  exists a : rw_state, exists op c, threads a !! 1%nat = Some (Asleep op c).
Proof.
  destruct (synch_no_lost_wakeup rw_calm rw_lock_init (replicate 2 Free) rw_stuck rw_stuck_reach rw_stuck_blocked) as (Hv & _ & a & _ & _ & Ht).
  split; [exact Hv|]. exists a. assert (Hp : exists p, m_progs rw_stuck !! 1%nat = Some p /\ forall l, p <> Done l).
  { eexists. split; [vm_compute; reflexivity|discriminate]. }
  destruct Hp as (p & Hp & Hn). destruct (Ht 1%nat p Hp) as [(l & -> & _)|(op & c & Hs & _)]; [by destruct (Hn l)|]. exists op, c. exact Hs.
Defined.

Lemma rwlock_implemented_witness : (exists u, m_progs rw_stuck !! u = Some (Done Reading) \/ m_progs rw_stuck !! u = Some (Done Writing)) /\
  m_progs rw_stuck !! 0%nat = Some (Done Writing) /\ m_progs rw_stuck !! 1%nat <> Some (Done Reading).
Proof.
  destruct (rwlock_implemented 2 rw_stuck (rw_reach_calm _ _ rw_stuck_reach)) as (_ & Hl & Hx). assert (Hp : exists p, m_progs rw_stuck !! 1%nat = Some p /\ forall l, p <> Done l).
  { eexists. split; [vm_compute; reflexivity|discriminate]. }
  destruct Hp as (p & Hp & Hn). split; [exact (Hl rw_stuck_blocked 1%nat p Hp Hn)|]. assert (H0 : m_progs rw_stuck !! 0%nat = Some (Done Writing)) by (vm_compute; reflexivity).
  split; [exact H0|]. apply (Hx rw_stuck_reach 0%nat 1%nat H0). discriminate.
Defined.

End SynchRw.
