(* ===== verification/Process.v ===== *)
(** Processes: creation, waiting and exit (src/src/userprog/process.c, with
    [thread_create] of src/src/threads/thread.c and [sys_exit] of
    src/src/userprog/syscall.c).

    A parent and its child share a [struct maternal_bond] that the last of
    the two frees. A process is the rest of its kernel program; each access
    to a bond is a step of its own, and the steps of the processes interleave
    in any order. What depends on memory and files, whether an allocation
    succeeds or a program can be loaded, is chosen from outside. The bond of a
    process goes by the number of the process, which is also its [tid]; a
    bond that has been freed is not in the map, and an access to it is a
    [Fault]. *)
From S2P Require Import Prelude.
From stdpp Require Import options.

#[local] Open Scope Z_scope.

Module Process.

Record maternal_bond := mkBond {
  b_tid : Z;
  b_load : Z;               (** the value of the semaphore *)
  b_exit : Z;
  b_ref : Z;
  b_status : Z;
  b_load_fail : bool;
}.

Record kernel := mkKernel {
  bonds : gmap nat maternal_bond;
  children : nat -> list nat;
  messages : list (nat * Z);         (** what [process_exit] prints *)
  waited : list (nat * nat * Z);     (** what [process_wait] returned: who, for whom, what *)
}.

Definition set_bonds f k := mkKernel f (children k) (messages k) (waited k).
Definition set_children (t : nat) l k :=
  mkKernel (bonds k) (fun u => if decide (u = t) then l else children k u) (messages k) (waited k).
Definition set_messages l k := mkKernel (bonds k) (children k) l (waited k).
Definition set_waited l k := mkKernel (bonds k) (children k) (messages k) l.

Definition get_bond (b : nat) (k : kernel) : res maternal_bond := access (bonds k !! b).
Definition put_bond (b : nat) (x : maternal_bond) (k : kernel) : kernel := set_bonds (<[b := x]> (bonds k)) k.

(** [free (bond)] *)
Definition free_bond (b : nat) (k : kernel) : res kernel :=
  let* _ := get_bond b k in Ok (set_bonds (delete b (bonds k)) k).

(** [list_remove (&bond->elem)], from the list of thread [t] *)
Definition remove_child (t b : nat) (k : kernel) : res kernel :=
  let* _ := get_bond b k in Ok (set_children t (filter (fun c => c <> b) (children k t)) k).

(** What is decided outside of this model. *)
Inductive choice :=
| ThreadMemory     (** [thread_create] *)
| CopyPages        (** [pagedir_copy] *)
| ExecPage         (** [palloc_get_page] in [process_execute] *)
| StartPage        (** [palloc_get_page] in [process_start] *)
| LoadFile         (** [load] *)
| StackArgs.       (** [setup_args] *)

(** What a process has yet to run in the kernel: nothing, with the result of
    its last system call; nothing any more; a choice from outside; the start
    of a thread; [sema_down] and [sema_up] on [load] or [exit] of a bond;
    [is_orphan_or_zombie]; [list_remove] and [free] of a bond; a step on the
    kernel's data; the loop over the
    children in [process_exit]. *)
Inductive prog :=
| User (result : Z)
| Gone
| Choose (what : choice) (k : bool -> prog)
| Create (body : nat -> prog) (k : nat -> prog)
| Down (load : bool) (b : nat) (k : prog)
| Up (load : bool) (b : nat) (k : prog)
| Drop (b : nat) (k : bool -> prog)
| Unlink (b : nat) (k : prog)
| Free (b : nat) (k : prog)
| Do (f : kernel -> res (kernel * prog))
| Children (k : prog).

Definition TID_ERROR : Z := -1.

Fixpoint find_child_in (bs : list nat) (child_tid : Z) (k : kernel) : res (option nat) :=
  match bs with
  | [] => Ok None
  | b :: bs =>
      let* x := get_bond b k in
      if b_tid x =? child_tid then Ok (Some b) else find_child_in bs child_tid k
  end.

Definition find_child (t : nat) (child_tid : Z) (k : kernel) : res (option nat) :=
  find_child_in (children k t) child_tid k.

(** Under the spinlock of the bond. *)
Definition is_orphan_or_zombie (b : nat) (k : kernel) : res (kernel * bool) :=
  let* x := get_bond b k in
  let r := s32 (b_ref x - 1) in
  Ok (put_bond b (mkBond (b_tid x) (b_load x) (b_exit x) r (b_status x) (b_load_fail x)) k, r =? 0).

Definition bond_up (load : bool) (b : nat) (k : kernel) : res kernel :=
  let* x := get_bond b k in
  Ok (put_bond b (if load then mkBond (b_tid x) (u32 (b_load x + 1)) (b_exit x) (b_ref x) (b_status x) (b_load_fail x)
                  else mkBond (b_tid x) (b_load x) (u32 (b_exit x + 1)) (b_ref x) (b_status x) (b_load_fail x)) k).

Definition bond_down (load : bool) (b : nat) (k : kernel) : res kernel :=
  let* x := get_bond b k in
  if (if load then b_load x else b_exit x) =? 0 then Err Block
  else Ok (put_bond b (if load then mkBond (b_tid x) (u32 (b_load x - 1)) (b_exit x) (b_ref x) (b_status x) (b_load_fail x)
                       else mkBond (b_tid x) (b_load x) (u32 (b_exit x - 1)) (b_ref x) (b_status x) (b_load_fail x)) k).

(** * Exit *)

Definition process_exit (t : nat) : prog :=
  Do (fun k =>
    let* x := get_bond t k in
    Ok (set_messages (messages k ++ [(t, b_status x)]) k,
  Children (
  Drop t (fun reap =>
  Up false t (
  if reap then Free t Gone else Gone))))).

(** One round of the loop of [process_exit] over the children. *)
Definition exit_child (b : nat) (k : prog) : prog :=
  Drop b (fun reap =>
  Unlink b (
  if reap then Free b (Children k) else Children k)).

Definition sys_exit (t : nat) (status : Z) : prog :=
  Do (fun k =>
    let* x := get_bond t k in
    Ok (put_bond t (mkBond (b_tid x) (b_load x) (b_exit x) (b_ref x) status (b_load_fail x)) k,
  process_exit t)).

(** * Creation *)

(** The end of [process_fork] and [process_execute]: wait until the new
    process has been set up. *)
Definition await_load (t c : nat) : prog :=
  Do (fun k =>
    let* r := find_child t (Z.of_nat c) k in
    let* bond := access r in
    Ok (k,
  Down true bond (
  Do (fun k =>
    let* x := get_bond bond k in
    Ok (k,
  if b_load_fail x then
    Down false bond (
    Unlink bond (
    Free bond (User TID_ERROR)))
  else User (Z.of_nat c)))))).

Definition thread_create (body : nat -> prog) (k : option nat -> prog) : prog :=
  Choose ThreadMemory (fun ok => if ok then Create body (fun c => k (Some c)) else k None).

(** The bond that [thread_create] makes. *)
Definition new_bond (c : nat) : maternal_bond := mkBond (Z.of_nat c) 0 0 2 0 true.

(** The end of loading, successful or not. *)
Definition notify_load (t : nat) (success : bool) (k : prog) : prog :=
  if success then
    Do (fun s =>
      let* x := get_bond t s in
      Ok (put_bond t (mkBond (b_tid x) (b_load x) (b_exit x) (b_ref x) (b_status x) false) s, Up true t k))
  else Up true t k.

(** The new process, from [pagedir_copy] on. *)
Definition dup_process (t : nat) : prog :=
  Choose CopyPages (fun success => notify_load t success (if success then User 0 else sys_exit t (-1))).

Definition process_fork (t : nat) : prog :=
  thread_create dup_process (fun r => match r with Some c => await_load t c | None => User TID_ERROR end).

(** The page for the command line; [load]; the arguments. *)
Definition process_start (t : nat) : prog :=
  Choose StartPage (fun mem => if negb mem then sys_exit t (-1) else
  Choose LoadFile (fun success => notify_load t success (
  if negb success then sys_exit t (-1) else
  Choose StackArgs (fun args => if args then User 0 else sys_exit t (-1))))).

Definition process_execute (t : nat) : prog :=
  Choose ExecPage (fun mem => if negb mem then User TID_ERROR else
  thread_create process_start (fun r => match r with Some c => await_load t c | None => User TID_ERROR end)).

(** * Waiting *)

Definition process_wait (t : nat) (child_tid : Z) : prog :=
  Do (fun k =>
    let* r := find_child t child_tid k in
    match r with
    | None => Ok (k, User (-1))
    | Some bond =>
        Ok (k,
        Down false bond (
        Unlink bond (
        Drop bond (fun reap =>
        Do (fun k => let* x := get_bond bond k in
        Ok (set_waited (waited k ++ [(t, bond, b_status x)]) k,
        if reap then Free bond (User (b_status x)) else User (b_status x)))))))
    end).

(** * Interleavings *)

Record machine := mkMachine {
  m_kernel : kernel;
  m_progs : list prog;
}.

Inductive call := Fork | Exec | Exec2 | Wait (tid : Z) | Exit (status : Z).

Definition run_call (t : nat) (c : call) : prog :=
  match c with
  | Fork => process_fork t
  | Exec => process_execute t
  | Exec2 => process_start t
  | Wait tid => process_wait t tid
  | Exit status => sys_exit t status
  end.

(** The first thread runs the kernel's command line and is no process. *)
Definition may_call (t : nat) (c : call) : bool :=
  match c with Exec | Wait _ => true | _ => negb (t =? 0)%nat end.

(** A process makes a system call; something outside turns out well or not;
    a process takes its next step. *)
Inductive action := Sys (t : nat) (c : call) | Env (t : nat) (ok : bool) | Tau (t : nat).

Definition set_prog (t : nat) (p : prog) (m : machine) : machine := mkMachine (m_kernel m) (<[t := p]> (m_progs m)).

Definition step (m : machine) (a : action) : res machine :=
  let k := m_kernel m in
  match a with
  | Sys t c =>
      match m_progs m !! t with
      | Some (User _) => if may_call t c then Ok (set_prog t (run_call t c) m) else Err Block
      | _ => Err Block
      end
  | Env t ok =>
      match m_progs m !! t with
      | Some (Choose _ f) => Ok (set_prog t (f ok) m)
      | _ => Err Block
      end
  | Tau t =>
      match m_progs m !! t with
      | Some (Create body f) =>
          let c := length (m_progs m) in
          Ok (mkMachine (set_children t (c :: children k t) (put_bond c (new_bond c) k))
                (<[t := f c]> (m_progs m) ++ [body c]))
      | Some (Down load b p) => let* k := bond_down load b k in Ok (mkMachine k (<[t := p]> (m_progs m)))
      | Some (Up load b p) => let* k := bond_up load b k in Ok (mkMachine k (<[t := p]> (m_progs m)))
      | Some (Drop b f) =>
          let* (k, reap) := is_orphan_or_zombie b k in Ok (mkMachine k (<[t := f reap]> (m_progs m)))
      | Some (Unlink b p) => let* k := remove_child t b k in Ok (mkMachine k (<[t := p]> (m_progs m)))
      | Some (Free b p) => let* k := free_bond b k in Ok (mkMachine k (<[t := p]> (m_progs m)))
      | Some (Do f) => let* (k, p) := f k in Ok (mkMachine k (<[t := p]> (m_progs m)))
      | Some (Children p) =>
          Ok (set_prog t (match children k t with [] => p | b :: _ => exit_child b p end) m)
      | _ => Err Block
      end
  end.

(** The first thread alone. *)
Definition boot : machine := mkMachine (mkKernel ∅ (fun _ => []) [] []) [User 0].

Fixpoint run (m : machine) (l : list action) : res machine :=
  match l with
  | [] => Ok m
  | a :: l => let* m' := step m a in run m' l
  end.

End Process.
