(* ===== verification/ProcessSpec.v ===== *)
(** The points of the kernel programs of a process, and the invariant of the
    bond that a process shares with its parent: who still refers to it, what
    its reference counter and its semaphores are, and who will free it. *)
From S2P Require Import Prelude Process.
From stdpp Require Import options.

#[local] Open Scope Z_scope.

Module ProcessSpec.
Import Process.

(** * Phases *)

Inductive phase :=
| PUser (v : Z) | PGone
(** creation, in the parent *)
| PFork | PExec1 | PExec2 | PMake (exec : bool)
| PFind (c : nat) | PLoad (c : nat) | PLoaded (c : nat) | PFailed (c : nat) | PUnlink (c : nat) | PFree (c : nat)
(** set-up, in the child *)
| PDup | PStart | PStarted | PGood (exec : bool) | PNotify (exec success : bool) | PArgs
(** exit *)
| PStatus (st : Z) | PMessage | PChildren | PDrop (b : nat) | PRemove (b : nat) (reap : bool) | PReap (b : nat)
| PLeave | PUp (reap : bool) | PSelf
(** waiting *)
| PWait (tid : Z) | PAsleep (b : nat) | PTake (b : nat) | PRelease (b : nat) | PRead (b : nat) (reap : bool) | PReturn (b : nat) (st : Z).

Definition after_load (t : nat) (exec success : bool) : prog :=
  if exec then (if negb success then sys_exit t (-1) else Choose StackArgs (fun args => if args then User 0 else sys_exit t (-1)))
  else (if success then User 0 else sys_exit t (-1)).

Definition leave (t : nat) : prog :=
  Drop t (fun reap => Up false t (if reap then Free t Gone else Gone)).

(** The program of process [t] in each phase. *)
Definition code (t : nat) (ph : phase) : prog :=
  match ph with
  | PUser v => User v
  | PGone => Gone
  | PFork => process_fork t
  | PExec1 => process_execute t
  | PExec2 => thread_create process_start (fun r => match r with Some c => await_load t c | None => User TID_ERROR end)
  | PMake exec => Create (if exec then process_start else dup_process) (fun c => await_load t c)
  | PFind c => await_load t c
  | PLoad c => Down true c (Do (fun k =>
      let* x := get_bond c k in
      Ok (k, if b_load_fail x then
        Down false c (Unlink c (Free c (User TID_ERROR)))
      else User (Z.of_nat c))))
  | PLoaded c => Do (fun k =>
      let* x := get_bond c k in
      Ok (k, if b_load_fail x then
        Down false c (Unlink c (Free c (User TID_ERROR)))
      else User (Z.of_nat c)))
  | PFailed c => Down false c (Unlink c (Free c (User TID_ERROR)))
  | PUnlink c => Unlink c (Free c (User TID_ERROR))
  | PFree c => Free c (User TID_ERROR)
  | PDup => dup_process t
  | PStart => process_start t
  | PStarted => Choose LoadFile (fun success => notify_load t success (after_load t true success))
  | PGood exec => notify_load t true (after_load t exec true)
  | PNotify exec success => Up true t (after_load t exec success)
  | PArgs => Choose StackArgs (fun args => if args then User 0 else sys_exit t (-1))
  | PStatus st => sys_exit t st
  | PMessage => process_exit t
  | PChildren => Children (leave t)
  | PDrop b => exit_child b (leave t)
  | PRemove b reap => Unlink b (if reap then Free b (Children (leave t)) else Children (leave t))
  | PReap b => Free b (Children (leave t))
  | PLeave => leave t
  | PUp reap => Up false t (if reap then Free t Gone else Gone)
  | PSelf => Free t Gone
  | PWait tid => process_wait t tid
  | PAsleep b => Down false b (Unlink b (Drop b (fun reap => Do (fun k => let* x := get_bond b k in
      Ok (set_waited (waited k ++ [(t, b, b_status x)]) k, if reap then Free b (User (b_status x)) else User (b_status x))))))
  | PTake b => Unlink b (Drop b (fun reap => Do (fun k => let* x := get_bond b k in
      Ok (set_waited (waited k ++ [(t, b, b_status x)]) k, if reap then Free b (User (b_status x)) else User (b_status x)))))
  | PRelease b => Drop b (fun reap => Do (fun k => let* x := get_bond b k in
      Ok (set_waited (waited k ++ [(t, b, b_status x)]) k, if reap then Free b (User (b_status x)) else User (b_status x))))
  | PRead b reap => Do (fun k => let* x := get_bond b k in
      Ok (set_waited (waited k ++ [(t, b, b_status x)]) k, if reap then Free b (User (b_status x)) else User (b_status x)))
  | PReturn b st => Free b (User st)
  end.

(** * Parent and child *)

(** The child's side of its bond. *)
Inductive side := SLive | SDropped (reap : bool) | SUp | SGone.

Definition side_of (ph : phase) : side :=
  match ph with PGone => SGone | PUp reap => SDropped reap | PSelf => SUp | _ => SLive end.

(** What the parent is about to do with the bond of [c]. *)
Inductive role := RNone | RHold | RTaken | RFreeing | RRelease | RRead (reap : bool) | RReturn | RRemove (reap : bool) | RReap.

Definition target (ph : phase) : option (nat * role) :=
  match ph with
  | PFind c | PLoad c | PLoaded c | PFailed c | PAsleep c | PDrop c => Some (c, RHold)
  | PUnlink c | PTake c => Some (c, RTaken)
  | PFree c => Some (c, RFreeing)
  | PRelease c => Some (c, RRelease)
  | PRead c reap => Some (c, RRead reap)
  | PReturn c _ => Some (c, RReturn)
  | PRemove c reap => Some (c, RRemove reap)
  | PReap c => Some (c, RReap)
  | _ => None
  end.

Definition role_of (c : nat) (ph : phase) : role :=
  match target ph with Some (b, r) => if decide (b = c) then r else RNone | None => RNone end.

Definition live (d : side) : bool := match d with SLive => true | _ => false end.
Definition upped (d : side) : bool := match d with SUp | SGone => true | _ => false end.
Definition child_frees (d : side) : bool := match d with SDropped true | SUp => true | _ => false end.

(** The parent has not given up its reference. *)
Definition out (mem : bool) (r : role) : bool :=
  match r with RRemove _ => false | RFreeing | RRelease => true | _ => mem end.
Definition taken (r : role) : bool :=
  match r with RTaken | RFreeing | RRelease | RRead _ | RReturn => true | _ => false end.
Definition parent_frees (r : role) : bool :=
  match r with RRead true | RReturn | RRemove true | RReap => true | _ => false end.
Definition listed (r : role) : option bool :=
  match r with
  | RHold | RTaken | RRemove _ => Some true
  | RFreeing | RRelease | RRead _ | RReturn | RReap => Some false
  | RNone => None
  end.

Record agree (c : nat) (o : option maternal_bond) (mem : bool) (d : side) (r : role) : Prop := {
  ag_some : is_Some o <-> live d || out mem r || child_frees d || parent_frees r = true;
  ag_bond : forall x, o = Some x -> b_tid x = Z.of_nat c /\ b_ref x = Z.b2z (live d) + Z.b2z (out mem r) /\
    b_exit x = Z.b2z (upped d) - Z.b2z (taken r) /\ 0 <= b_load x;
  ag_listed : forall b, listed r = Some b -> mem = b;
  ag_taken : taken r = true -> d = SGone;
  ag_dropped : d = SDropped false -> out mem r = true;
  ag_child : child_frees d = true -> out mem r = false /\ parent_frees r = false;
  ag_parent : parent_frees r = true -> d = SGone;
  ag_read : forall reap, r = RRead reap -> reap = true;
  ag_remove : r = RRemove false -> live d || child_frees d = true;
}.

(** * The invariant *)

Definition member (k : kernel) (q c : nat) : bool := bool_decide (c ∈ children k q).

(** The message of the process has been printed. *)
Definition told (ph : phase) : bool :=
  match ph with PChildren | PDrop _ | PRemove _ _ | PReap _ | PLeave | PUp _ | PSelf | PGone => true | _ => false end.

(** What the first thread can be doing. *)
Definition main_phase (ph : phase) : bool :=
  match ph with
  | PUser _ | PExec1 | PExec2 | PMake true | PFind _ | PLoad _ | PLoaded _ | PFailed _ | PUnlink _ | PFree _
  | PWait _ | PAsleep _ | PTake _ | PRelease _ | PRead _ _ | PReturn _ _ => true
  | _ => false
  end.

Record inv (m : machine) (phs : list phase) (par : list nat) : Prop := {
  iv_progs : m_progs m = imap code phs;
  iv_len : length par = length phs;
  iv_main : exists ph, phs !! 0%nat = Some ph /\ main_phase ph = true;
  iv_par : forall c q, c <> 0%nat -> par !! c = Some q -> (q < c)%nat;
  iv_children : forall q c, c ∈ children (m_kernel m) q -> c <> 0%nat /\ par !! c = Some q;
  iv_distinct : forall q, NoDup (children (m_kernel m) q);
  iv_target : forall q ph c r, phs !! q = Some ph -> target ph = Some (c, r) -> c <> 0%nat /\ par !! c = Some q;
  iv_agree : forall c q ph ph', c <> 0%nat -> par !! c = Some q -> phs !! c = Some ph -> phs !! q = Some ph' ->
    agree c (bonds (m_kernel m) !! c) (member (m_kernel m) q c) (side_of ph) (role_of c ph');
}.

End ProcessSpec.

(** Every step of a process keeps the invariant of the bonds. *)

Module ProcessSteps.
Import Process ProcessSpec.

(** * Steps on one bond *)

Definition with_load (v : Z) x := mkBond (b_tid x) v (b_exit x) (b_ref x) (b_status x) (b_load_fail x).
Definition with_exit (v : Z) x := mkBond (b_tid x) (b_load x) v (b_ref x) (b_status x) (b_load_fail x).
Definition with_ref (v : Z) x := mkBond (b_tid x) (b_load x) (b_exit x) v (b_status x) (b_load_fail x).

Tactic Notation "agree_with" tactic3(rew) :=
  split; cbn; rew; try done;
  try (let y := fresh in intros y [= <-]; cbn; first [done | split_and!; first [done | lia | congruence]]).
Ltac agree_done := agree_with idtac.

Lemma agree_get c o mem d r : agree c o mem d r -> live d || out mem r || child_frees d || parent_frees r = true -> exists x, o = Some x.
Proof. intros [Hs _ _ _ _ _ _ _ _] H. apply Hs in H as [x ->]. by exists x. Qed.

(** The parent: [sema_down] on [exit]; [list_remove]; [free]. *)
Lemma agree_take c x mem d : agree c (Some x) mem d RHold -> b_exit x <> 0 -> agree c (Some (with_exit (u32 (b_exit x - 1)) x)) mem d RTaken.
Proof.
  intros [Hs Hb Hl Ht Hd Hc Hp _ Hrm] Hx. destruct (Hb x eq_refl) as (E1 & E2 & E3 & E4). pose proof (Hl true eq_refl) as ->.
  assert (d = SGone) as ->. { destruct d as [|[]| |]; cbn in *; try lia; try done; by destruct (Hc eq_refl). }
  cbn in *. rewrite E3. agree_done.
Qed.

Lemma agree_load c x mem d : agree c (Some x) mem d RHold -> agree c (Some (with_load (u32 (b_load x - 1)) x)) mem d RHold.
Proof.
  intros [Hs Hb Hl Ht Hd Hc Hp Hr Hrm]. destruct (Hb x eq_refl) as (E1 & E2 & E3 & E4). split; try done; [by split; [intros _; apply Hs|]|].
  intros y [= <-]. cbn. split_and!; [done..|]. apply u32_range.
Qed.

Lemma agree_none c o mem d : agree c o mem d RHold -> agree c o mem d RNone.
Proof. intros [Hs Hb Hl Ht Hd Hc Hp Hr Hrm]. by split. Qed.

Lemma agree_hold c o d : agree c o true d RNone -> agree c o true d RHold.
Proof. intros [Hs Hb Hl Ht Hd Hc Hp Hr Hrm]. split; try done. by intros b [= <-]. Qed.

Lemma agree_unlink c x mem d r : agree c (Some x) mem d RTaken -> r = RFreeing \/ r = RRelease -> agree c (Some x) false d r.
Proof.
  intros [Hs Hb Hl Ht Hd Hc Hp _ Hrm] Hr. destruct (Hb x eq_refl) as (E1 & E2 & E3 & E4). pose proof (Hl true eq_refl) as ->. rewrite Ht in * by done.
  destruct Hr as [-> | ->]; cbn in *; agree_done.
Qed.

Lemma agree_free c o mem d : agree c o mem d RFreeing -> agree c None false d RNone.
Proof. intros [Hs Hb Hl Ht Hd Hc Hp _ Hrm]. rewrite Ht in * by done. split; cbn; try done; split; by intros []. Qed.

Lemma agree_release c x mem d : agree c (Some x) mem d RRelease ->
  s32 (b_ref x - 1) = 0 /\ agree c (Some (with_ref (s32 (b_ref x - 1)) x)) mem d (RRead true).
Proof.
  intros [Hs Hb Hl Ht Hd Hc Hp _ Hrm]. destruct (Hb x eq_refl) as (E1 & E2 & E3 & E4). pose proof (Hl false eq_refl) as ->. rewrite Ht in * by done. cbn in *.
  rewrite E2. change (s32 (0 + 1 - 1)) with 0. split; [done|]. agree_done.
Qed.

Lemma agree_read c x mem d reap : agree c (Some x) mem d (RRead reap) -> reap = true /\ agree c (Some x) mem d RReturn.
Proof.
  intros [Hs Hb Hl Ht Hd Hc Hp Hr Hrm]. rewrite (Hr reap eq_refl) in *. split; [done|]. destruct (Hb x eq_refl) as (E1 & E2 & E3 & E4). pose proof (Hl false eq_refl) as ->. rewrite Ht in * by done. cbn in *.
  agree_done.
Qed.

Lemma agree_return c o mem d r : agree c o mem d r -> r = RReturn \/ r = RReap -> agree c None mem d RNone.
Proof.
  intros [Hs Hb Hl Ht Hd Hc Hp _ Hrm] Hr. assert (mem = false) as -> by (destruct Hr as [-> | ->]; by apply (Hl false)).
  rewrite Hp in * by (by destruct Hr as [-> | ->]). split; cbn; try done; split; by intros [].
Qed.

(** The parent exits: [is_orphan_or_zombie]; [list_remove]. *)
Lemma agree_drop c x mem d : agree c (Some x) mem d RHold -> (forall reap, d <> SDropped reap) ->
  agree c (Some (with_ref (s32 (b_ref x - 1)) x)) mem d (RRemove (s32 (b_ref x - 1) =? 0)).
Proof.
  intros [Hs Hb Hl Ht Hd Hc Hp _ Hrm] Hnd. destruct (Hb x eq_refl) as (E1 & E2 & E3 & E4). pose proof (Hl true eq_refl) as ->. cbn in *. rewrite E2.
  destruct d as [|reap| |]; cbn in *; [| by destruct (Hnd reap)|by destruct (Hc eq_refl)|].
  - change (s32 (1 + 1 - 1)) with 1. agree_done.
  - change (s32 (0 + 1 - 1)) with 0. agree_done.
Qed.

Lemma agree_remove c x mem d reap : agree c (Some x) mem d (RRemove reap) -> agree c (Some x) false d (if reap then RReap else RNone).
Proof.
  intros [Hs Hb Hl Ht Hd Hc Hp _ Hrm]. destruct (Hb x eq_refl) as (E1 & E2 & E3 & E4). pose proof (Hl true eq_refl) as ->. destruct reap; cbn in *.
  - rewrite Hp in * by done. agree_done.
  - agree_done.
Qed.

(** The child: its own bond changes while it lives. *)
Lemma agree_upd c x y mem r : agree c (Some x) mem SLive r ->
  b_tid y = b_tid x -> b_ref y = b_ref x -> b_exit y = b_exit x -> 0 <= b_load y -> agree c (Some y) mem SLive r.
Proof.
  intros [Hs Hb Hl Ht Hd Hc Hp Hr Hrm] Et Er Ee El. destruct (Hb x eq_refl) as (E1 & E2 & E3 & E4). split; try done.
  intros z [= <-]. by rewrite Et, Er, Ee.
Qed.

Lemma agree_leave c x mem r : agree c (Some x) mem SLive r ->
  agree c (Some (with_ref (s32 (b_ref x - 1)) x)) mem (SDropped (s32 (b_ref x - 1) =? 0)) r.
Proof.
  intros [Hs Hb Hl Ht Hd Hc Hp Hr Hrm]. destruct (Hb x eq_refl) as (E1 & E2 & E3 & E4). cbn in *. rewrite E2.
  assert (taken r = false) as Ent by (destruct (taken r); [by specialize (Ht eq_refl)|done]).
  assert (parent_frees r = false) as Enp by (destruct (parent_frees r); [by specialize (Hp eq_refl)|done]). rewrite Ent in *.
  destruct (out mem r) eqn:Eo; cbn; [change (s32 (1 + 1 - 1)) with 1|change (s32 (1 + 0 - 1)) with 0]; agree_with (rewrite ?Eo, ?Ent, ?Enp); by intros ->.
Qed.

Lemma agree_up c x mem r reap : agree c (Some x) mem (SDropped reap) r ->
  agree c (Some (with_exit (u32 (b_exit x + 1)) x)) mem (if reap then SUp else SGone) r.
Proof.
  intros [Hs Hb Hl Ht Hd Hc Hp Hr Hrm]. destruct (Hb x eq_refl) as (E1 & E2 & E3 & E4). cbn in *.
  assert (taken r = false) as Ent by (destruct (taken r); [by specialize (Ht eq_refl)|done]).
  assert (parent_frees r = false) as Enp by (destruct (parent_frees r); [by specialize (Hp eq_refl)|done]). rewrite Ent in *. rewrite E3.
  change (u32 (0 - 0 + 1)) with 1. destruct reap; cbn in *.
  - destruct (Hc eq_refl) as [Ho _]. rewrite Ho in *. agree_with (rewrite ?Ho, ?Enp, ?Ent).
  - rewrite (Hd eq_refl) in *. pose proof (Hd eq_refl) as Eo. agree_with (rewrite ?Eo, ?Enp, ?Ent); by intros ->.
Qed.

Lemma agree_self c o mem r : agree c o mem SUp r -> r <> RRemove false -> agree c None mem SGone r.
Proof.
  intros [Hs Hb Hl Ht Hd Hc Hp Hr Hrm] Hnr. destruct (Hc eq_refl) as [Ho Hf]. split; cbn; try done; rewrite ?Ho, ?Hf; try done; split; by intros [].
Qed.

(** * Moves *)

Definition with_status (v : Z) x := mkBond (b_tid x) (b_load x) (b_exit x) (b_ref x) v (b_load_fail x).
Definition with_good x := mkBond (b_tid x) (b_load x) (b_exit x) (b_ref x) (b_status x) false.

Definition del_bond (b : nat) k := set_bonds (delete b (bonds k)) k.
Definition del_child (t b : nat) k := set_children t (filter (fun c => c <> b) (children k t)) k.

Definition loaded_phase (exec success : bool) : phase :=
  if success then (if exec then PArgs else PUser 0) else PStatus (-1).

(** Steps that change nothing but the phase. *)
Inductive quiet : phase -> phase -> Prop :=
| Q_fork v : quiet (PUser v) PFork
| Q_exec v : quiet (PUser v) PExec1
| Q_exec2 v : quiet (PUser v) PStart
| Q_wait v tid : quiet (PUser v) (PWait tid)
| Q_exit v st : quiet (PUser v) (PStatus st)
| Q_fork_ok (ok : bool) : quiet PFork (if ok then PMake false else PUser TID_ERROR)
| Q_exec1_ok (ok : bool) : quiet PExec1 (if ok then PExec2 else PUser TID_ERROR)
| Q_exec2_ok (ok : bool) : quiet PExec2 (if ok then PMake true else PUser TID_ERROR)
| Q_dup (ok : bool) : quiet PDup (if ok then PGood false else PNotify false false)
| Q_start (ok : bool) : quiet PStart (if ok then PStarted else PStatus (-1))
| Q_started (ok : bool) : quiet PStarted (if ok then PGood true else PNotify true false)
| Q_args (ok : bool) : quiet PArgs (if ok then PUser 0 else PStatus (-1))
| Q_leave : quiet PChildren PLeave
| Q_wait_none tid : quiet (PWait tid) (PUser (-1)).

(** Steps of process [t] on the kernel. *)
Inductive move (k : kernel) (t : nat) : phase -> kernel -> phase -> Prop :=
| M_quiet ph ph' : quiet ph ph' -> move k t ph k ph'
| M_find c x : bonds k !! c = Some x -> move k t (PFind c) k (PLoad c)
| M_load c x : bonds k !! c = Some x -> b_load x <> 0 -> move k t (PLoad c) (put_bond c (with_load (u32 (b_load x - 1)) x) k) (PLoaded c)
| M_loaded c x : bonds k !! c = Some x -> move k t (PLoaded c) k (if b_load_fail x then PFailed c else PUser (Z.of_nat c))
| M_failed c x : bonds k !! c = Some x -> b_exit x <> 0 -> move k t (PFailed c) (put_bond c (with_exit (u32 (b_exit x - 1)) x) k) (PUnlink c)
| M_unlink c x : bonds k !! c = Some x -> move k t (PUnlink c) (del_child t c k) (PFree c)
| M_free c x : bonds k !! c = Some x -> move k t (PFree c) (del_bond c k) (PUser TID_ERROR)
| M_good exec x : bonds k !! t = Some x -> move k t (PGood exec) (put_bond t (with_good x) k) (PNotify exec true)
| M_notify exec success x : bonds k !! t = Some x -> move k t (PNotify exec success) (put_bond t (with_load (u32 (b_load x + 1)) x) k) (loaded_phase exec success)
| M_status st x : bonds k !! t = Some x -> move k t (PStatus st) (put_bond t (with_status st x) k) PMessage
| M_message x : bonds k !! t = Some x -> move k t PMessage (set_messages (messages k ++ [(t, b_status x)]) k) PChildren
| M_child b bs : children k t = b :: bs -> move k t PChildren k (PDrop b)
| M_drop b x : bonds k !! b = Some x -> move k t (PDrop b) (put_bond b (with_ref (s32 (b_ref x - 1)) x) k) (PRemove b (s32 (b_ref x - 1) =? 0))
| M_remove b reap x : bonds k !! b = Some x -> move k t (PRemove b reap) (del_child t b k) (if reap then PReap b else PChildren)
| M_reap b x : bonds k !! b = Some x -> move k t (PReap b) (del_bond b k) PChildren
| M_leave x : bonds k !! t = Some x -> move k t PLeave (put_bond t (with_ref (s32 (b_ref x - 1)) x) k) (PUp (s32 (b_ref x - 1) =? 0))
| M_up reap x : bonds k !! t = Some x -> move k t (PUp reap) (put_bond t (with_exit (u32 (b_exit x + 1)) x) k) (if reap then PSelf else PGone)
| M_self x : bonds k !! t = Some x -> move k t PSelf (del_bond t k) PGone
| M_found tid b : b ∈ children k t -> move k t (PWait tid) k (PAsleep b)
| M_asleep b x : bonds k !! b = Some x -> b_exit x <> 0 -> move k t (PAsleep b) (put_bond b (with_exit (u32 (b_exit x - 1)) x) k) (PTake b)
| M_take b x : bonds k !! b = Some x -> move k t (PTake b) (del_child t b k) (PRelease b)
| M_release b x : bonds k !! b = Some x -> move k t (PRelease b) (put_bond b (with_ref (s32 (b_ref x - 1)) x) k) (PRead b (s32 (b_ref x - 1) =? 0))
| M_read b reap x : bonds k !! b = Some x ->
    move k t (PRead b reap) (set_waited (waited k ++ [(t, b, b_status x)]) k) (if reap then PReturn b (b_status x) else PUser (b_status x))
| M_return b st x : bonds k !! b = Some x -> move k t (PReturn b st) (del_bond b k) (PUser st).

End ProcessSteps.
