(* ===== verification/ProcessInv.v ===== *)
(** The invariant of the bonds is kept by every move, and every step is one. *)
From S2P Require Import Prelude Process ProcessSpec.
From stdpp Require Import options.

#[local] Open Scope Z_scope.

Module ProcessInv.
Import Process ProcessSpec ProcessSteps.

Section change.
Context (m : machine) (phs : list phase) (par : list nat) (t : nat) (ph ph' : phase).
Context (Hi : inv m phs par) (Ht : phs !! t = Some ph).
Abbreviation k := (m_kernel m).

Lemma change_Some u x : <[t := ph']> phs !! u = Some x -> u = t /\ x = ph' \/ u <> t /\ phs !! u = Some x.
Proof using Ht.
  destruct (decide (u = t)) as [-> |Hne]; [|rewrite list_lookup_insert_ne by done; by right].
  rewrite list_lookup_insert_eq by (by eapply lookup_lt_Some). intros [= <-]. by left.
Qed.

Lemma imap_code : imap code (<[t := ph']> phs) = <[t := code t ph']> (imap code phs).
Proof using Type.
  apply list_eq. intros j. rewrite list_lookup_imap. destruct (decide (j = t)) as [-> |Hne].
  - destruct (decide (t < length phs)%nat).
    + rewrite !list_lookup_insert_eq; [done|by rewrite length_imap|done].
    + rewrite !lookup_ge_None_2; [done|rewrite length_insert, length_imap; lia|rewrite length_insert; lia].
  - rewrite !list_lookup_insert_ne by done. by rewrite list_lookup_imap.
Qed.

(** A step of [t] that leaves alone the bonds that are not its own or its
    children's. *)
Lemma inv_step k' :
  (t = 0%nat -> main_phase ph' = true) ->
  (forall q, q <> t -> children k' q = children k q) ->
  (forall c, c ∈ children k' t -> c ∈ children k t) -> NoDup (children k' t) ->
  (forall c r, target ph' = Some (c, r) -> c <> 0%nat /\ par !! c = Some t) ->
  (forall q y mem, t <> 0%nat -> phs !! q = Some y -> agree t (bonds k !! t) mem (side_of ph) (role_of t y) -> agree t (bonds k' !! t) mem (side_of ph') (role_of t y)) ->
  (forall c x, c <> t -> c <> 0%nat -> par !! c = Some t -> phs !! c = Some x ->
    agree c (bonds k !! c) (member k t c) (side_of x) (role_of c ph) -> agree c (bonds k' !! c) (member k' t c) (side_of x) (role_of c ph')) ->
  (forall c, c <> t -> par !! c <> Some t -> bonds k' !! c = bonds k !! c) ->
  inv (mkMachine k' (<[t := code t ph']> (m_progs m))) (<[t := ph']> phs) par.
Proof using Hi Ht.
  intros Hmain Hch Hsub Hnd Htgt Hown Hkids Hoth. destruct Hi as [H1 H2 H3 H4 H5 H6 H7 H8]. split; cbn.
  - by rewrite H1, imap_code.
  - by rewrite length_insert.
  - destruct (decide (t = 0%nat)) as [-> |Hne].
    + exists ph'. split; [|by apply Hmain]. apply list_lookup_insert_eq. by eapply lookup_lt_Some.
    + destruct H3 as (x & Hx & Hm). exists x. split; [|done]. by rewrite list_lookup_insert_ne.
  - done.
  - intros q c Hc. apply H5. destruct (decide (q = t)) as [-> |Hne]; [by apply Hsub|]. by rewrite <- Hch.
  - intros q. destruct (decide (q = t)) as [-> |Hne]; [done|]. by rewrite Hch.
  - intros q x c r [[-> ->] | [Hne Hq]]%change_Some Hx; [by apply (Htgt c r)|by eapply H7].
  - intros c q x y Hc Hq Hcx Hqy.
    assert (Hlt : (q < c)%nat) by by apply H4.
    apply change_Some in Hcx as [[-> ->] | [Hct Hcx]]; apply change_Some in Hqy as [[-> ->] | [Hqt Hqy]]; [lia| | |].
    + unfold member. rewrite Hch by done. eapply Hown; [done|exact Hqy|]. by eapply H8.
    + apply Hkids; [done..|]. by eapply H8.
    + unfold member. rewrite Hch by done. rewrite Hoth; [by eapply H8|done|congruence].
Qed.

(** ** Nothing but the phase *)

Lemma inv_same : (t = 0%nat -> main_phase ph' = true) -> side_of ph' = side_of ph ->
  (forall c r, target ph' = Some (c, r) -> c <> 0%nat /\ par !! c = Some t) ->
  (forall c x, c <> t -> c <> 0%nat -> par !! c = Some t -> phs !! c = Some x ->
    agree c (bonds k !! c) (member k t c) (side_of x) (role_of c ph) -> agree c (bonds k !! c) (member k t c) (side_of x) (role_of c ph')) ->
  inv (mkMachine k (<[t := code t ph']> (m_progs m))) (<[t := ph']> phs) par.
Proof using Hi Ht. intros Hm Hs Htg Hk. apply inv_step; try done; [by apply Hi|]. intros q y mem _ _. by rewrite Hs. Qed.

(** ** The process's own bond *)

Lemma inv_own o : (t = 0%nat -> main_phase ph' = true) -> target ph = None -> target ph' = None ->
  (forall q y mem, t <> 0%nat -> phs !! q = Some y -> agree t (bonds k !! t) mem (side_of ph) (role_of t y) -> agree t o mem (side_of ph') (role_of t y)) ->
  inv (mkMachine (set_bonds (partial_alter (fun _ => o) t (bonds k)) k) (<[t := code t ph']> (m_progs m))) (<[t := ph']> phs) par.
Proof using Hi Ht.
  intros Hm E E' Ho. apply inv_step; cbn; try done; [by apply Hi|by rewrite E'|..].
  - intros q y mem Ht0 Hq Ha. rewrite lookup_partial_alter_eq. by eapply Ho.
  - intros c x Hct Hc0 Hp Hx. rewrite lookup_partial_alter_ne by done. unfold role_of. by rewrite E, E'.
  - intros c Hct _. by rewrite lookup_partial_alter_ne.
Qed.

(** ** The bond of a child *)

Lemma inv_child k' c r r' o mem' ch : bonds k' = partial_alter (fun _ => o) c (bonds k) ->
  children k' t = ch -> (forall q, q <> t -> children k' q = children k q) -> (t = 0%nat -> main_phase ph' = true) -> target ph = Some (c, r) ->
  (target ph' = Some (c, r') \/ target ph' = None /\ r' = RNone) -> side_of ph' = side_of ph ->
  (mem' = true /\ ch = children k t \/ mem' = false /\ ch = filter (fun u => u <> c) (children k t)) ->
  (forall x, phs !! c = Some x -> agree c (bonds k !! c) (member k t c) (side_of x) r ->
    agree c o (mem' && member k t c) (side_of x) r') ->
  inv (mkMachine k' (<[t := code t ph']> (m_progs m))) (<[t := ph']> phs) par.
Proof using Hi Ht.
  intros Eb Ec Eo Hm E E' Hs Hch Ha. destruct (iv_target _ _ _ Hi t ph c r Ht E) as [Hc0 Hpc].
  assert (Hct : c <> t) by (intros ->; pose proof (iv_par _ _ _ Hi t t Hc0 Hpc); lia).
  assert (Hsub : forall u, u ∈ ch -> u ∈ children k t) by (destruct Hch as [[_ ->]|[_ ->]]; [done|]; intros u Hu; by apply list_elem_of_filter in Hu as [_ Hu]).
  assert (Hmem : forall u, bool_decide (u ∈ ch) = (if decide (u = c) then mem' && member k t c else member k t u)).
  { intros u. unfold member. destruct Hch as [[-> ->]|[-> ->]]; [case_decide; by subst|]. case_decide.
    - subst u. apply bool_decide_eq_false_2. by intros [? _]%list_elem_of_filter.
    - apply bool_decide_ext. rewrite list_elem_of_filter. naive_solver. }
  apply inv_step; try done.
  - rewrite Ec. exact Hsub.
  - rewrite Ec. destruct Hch as [[_ ->]|[_ ->]]; [apply Hi|apply NoDup_filter, Hi].
  - intros u ru Hu. destruct E' as [E'|[E' _]]; rewrite E' in Hu; [by injection Hu as <- <-|done].
  - intros q y mem _ _ Hag. rewrite Eb, lookup_partial_alter_ne by done. by rewrite Hs.
  - intros u x Hut Hu0 Hpu Hx. unfold member at 2. rewrite Ec, Eb, Hmem. unfold role_of. rewrite E.
    destruct (decide (u = c)) as [-> |Hne].
    + rewrite decide_True by done. rewrite lookup_partial_alter_eq. intros Hag. destruct E' as [E'|[E' ->]]; rewrite E'; [rewrite decide_True by done|]; by apply Ha.
    + rewrite decide_False by done. rewrite lookup_partial_alter_ne by done. intros Hag. destruct E' as [E'|[E' _]]; rewrite E'; [by rewrite decide_False|done].
  - intros u _ Hu. rewrite Eb. apply lookup_partial_alter_ne. congruence.
Qed.

End change.

(** * Every move *)

Lemma quiet_main ph ph' t : quiet ph ph' -> t <> 0%nat \/ main_phase ph' = true -> t = 0%nat -> main_phase ph' = true.
Proof. intros _ [?|?] ?; done. Qed.

Lemma inv_quiet m phs par t ph ph' : inv m phs par -> phs !! t = Some ph -> quiet ph ph' -> (t = 0%nat -> main_phase ph' = true) ->
  inv (mkMachine (m_kernel m) (<[t := code t ph']> (m_progs m))) (<[t := ph']> phs) par.
Proof.
  intros Hi Ht Hq Hm. assert (Hp : side_of ph' = side_of ph /\ target ph = None /\ target ph' = None) by (destruct Hq; try destruct ok; done).
  destruct Hp as (Es & E & E'). eapply inv_same; try done; [by rewrite E'|]. intros c x _ _ _ _. unfold role_of. by rewrite E, E'.
Qed.

(** The bond of a child that [ph] is about. *)
Lemma target_agree m phs par t ph c r : inv m phs par -> phs !! t = Some ph -> target ph = Some (c, r) ->
  exists x, phs !! c = Some x /\ agree c (bonds (m_kernel m) !! c) (member (m_kernel m) t c) (side_of x) r.
Proof.
  intros Hi Ht E. destruct (iv_target _ _ _ Hi t ph c r Ht E) as [Hc0 Hp].
  destruct (lookup_lt_is_Some_2 phs c) as [x Hx]; [rewrite <- (iv_len _ _ _ Hi); by eapply lookup_lt_Some|]. exists x. split; [done|].
  pose proof (iv_agree _ _ _ Hi c t x ph Hc0 Hp Hx Ht) as Ha. unfold role_of in Ha. by rewrite E, decide_True in Ha.
Qed.

Lemma target_member m phs par t ph c r b : inv m phs par -> phs !! t = Some ph -> target ph = Some (c, r) -> listed r = Some b -> member (m_kernel m) t c = b.
Proof. intros Hi Ht E Hl. destruct (target_agree _ _ _ _ _ _ _ Hi Ht E) as (x & _ & [_ _ H _ _ _ _ _ _]). by apply H. Qed.

(** What must not happen: the parent gives up its reference between that
    moment of the child and its last access to the bond, and the child frees
    the bond between that moment of the parent and its last access. *)
Record calm_move (phs : list phase) (t : nat) (ph : phase) : Prop := {
  calm_drop : forall b reap, ph = PDrop b -> phs !! b <> Some (PUp reap);
  calm_self : ph = PSelf -> forall q reap, phs !! q <> Some (PRemove t reap);
}.

Lemma side_dropped x reap : side_of x = SDropped reap -> x = PUp reap.
Proof. destruct x; cbn; try done. by intros [= ->]. Qed.

(** A move on the bond of the child [c] in role [r]. *)
Tactic Notation "child_move" uconstr(Hi) uconstr(Ht) uconstr(c) uconstr(r) uconstr(r') uconstr(o) uconstr(mem) :=
  eapply (inv_child _ _ _ _ _ _ Hi Ht _ c r r' o mem);
  [ first [reflexivity | by rewrite partial_alter_id]
  | cbn; rewrite ?decide_True by done; reflexivity
  | intros; cbn; rewrite ?decide_False by done; reflexivity
  | done | reflexivity
  | first [left; reflexivity | right; split; reflexivity]
  | reflexivity
  | first [left; split; reflexivity | right; split; reflexivity]
  | cbn [andb] ].

Lemma role_remove c ph reap : role_of c ph = RRemove reap -> ph = PRemove c reap.
Proof. unfold role_of. destruct ph; cbn; try done; case_decide; try done. intros [= ->]. by subst. Qed.

Lemma inv_parent m phs par t ph k' ph' : inv m phs par -> phs !! t = Some ph -> move (m_kernel m) t ph k' ph' -> calm_move phs t ph ->
  (t = 0%nat -> main_phase ph' = true) -> target ph <> None -> inv (mkMachine k' (<[t := code t ph']> (m_progs m))) (<[t := ph']> phs) par.
Proof.
  intros Hi Ht Hmove Hcalm Hm Hn. destruct Hmove as [ph ph' Hq|c x Hx|c x Hx Hv|c x Hx|c x Hx Hv|c x Hx|c x Hx|exec x Hx|exec success x Hx|st x Hx|x Hx|b bs Hb|b x Hx|b reap x Hx
    |b x Hx|x Hx|reap x Hx|x Hx|tid b Hb|b x Hx Hv|b x Hx|b x Hx|b reap x Hx|b st x Hx]; try done.
  - by destruct Hq.
  - child_move Hi Ht c RHold RHold (bonds (m_kernel m) !! c) true. done.
  - child_move Hi Ht c RHold RHold (Some (with_load (u32 (b_load x - 1)) x)) true.
    intros y _. rewrite Hx. apply agree_load.
  - destruct (b_load_fail x); [child_move Hi Ht c RHold RHold (bonds (m_kernel m) !! c) true; done|].
    child_move Hi Ht c RHold RNone (bonds (m_kernel m) !! c) true. intros y _. apply agree_none.
  - child_move Hi Ht c RHold RTaken (Some (with_exit (u32 (b_exit x - 1)) x)) true. intros y _. rewrite Hx. intros Ha. by apply agree_take.
  - child_move Hi Ht c RTaken RFreeing (bonds (m_kernel m) !! c) false. intros y _. rewrite Hx. intros Ha. eapply agree_unlink; [exact Ha|by left].
  - child_move Hi Ht c RFreeing RNone None true. intros y _ Ha. pose proof (ag_listed _ _ _ _ _ Ha false eq_refl) as E. rewrite E. by eapply agree_free.
  - child_move Hi Ht b RHold (RRemove (s32 (b_ref x - 1) =? 0)) (Some (with_ref (s32 (b_ref x - 1)) x)) true. intros y Hy. rewrite Hx. intros Ha. apply agree_drop; [done|].
    intros reap Hr%side_dropped. subst y. by eapply (calm_drop _ _ _ Hcalm).
  - destruct reap; [child_move Hi Ht b (RRemove true) RReap (bonds (m_kernel m) !! b) false|child_move Hi Ht b (RRemove false) RNone (bonds (m_kernel m) !! b) false];
      intros y _; rewrite Hx; intros Ha; by eapply agree_remove in Ha.
  - child_move Hi Ht b RReap RNone None true. intros y _ Ha. eapply agree_return; [exact Ha|by right].
  - child_move Hi Ht b RHold RTaken (Some (with_exit (u32 (b_exit x - 1)) x)) true. intros y _. rewrite Hx. intros Ha. by apply agree_take.
  - child_move Hi Ht b RTaken RRelease (bonds (m_kernel m) !! b) false. intros y _. rewrite Hx. intros Ha. eapply agree_unlink; [exact Ha|by right].
  - destruct (target_agree _ _ _ _ _ _ _ Hi Ht eq_refl) as (y & _ & Ha). rewrite Hx in Ha. destruct (agree_release _ _ _ _ Ha) as [E _].
    child_move Hi Ht b RRelease (RRead (s32 (b_ref x - 1) =? 0)) (Some (with_ref (s32 (b_ref x - 1)) x)) true. intros z _. rewrite Hx. intros Ha'. rewrite E. cbn.
    rewrite <- E. by apply agree_release.
  - destruct (target_agree _ _ _ _ _ _ _ Hi Ht eq_refl) as (y & _ & Ha). rewrite Hx in Ha. destruct (agree_read _ _ _ _ _ Ha) as [-> _].
    child_move Hi Ht b (RRead true) RReturn (bonds (m_kernel m) !! b) true. intros z _. rewrite Hx. intros Ha'. by apply agree_read in Ha' as [_ ?].
  - child_move Hi Ht b RReturn RNone None true. intros y _ Ha. eapply agree_return; [exact Ha|by left].
Qed.

(** A process turns to one of its children. *)
Lemma inv_turn m phs par t ph ph' c : inv m phs par -> phs !! t = Some ph -> c ∈ children (m_kernel m) t -> target ph = None -> target ph' = Some (c, RHold) ->
  side_of ph' = side_of ph -> (t = 0%nat -> main_phase ph' = true) ->
  inv (mkMachine (m_kernel m) (<[t := code t ph']> (m_progs m))) (<[t := ph']> phs) par.
Proof.
  intros Hi Ht Hc E E' Es Hm. destruct (iv_children _ _ _ Hi t c Hc) as [Hc0 Hp]. eapply inv_same; try done.
  - rewrite E'. by intros u r [= <- <-].
  - intros u x _ _ _ _. unfold role_of. rewrite E, E'. case_decide; [|done]. subst u. unfold member. rewrite bool_decide_eq_true_2 by done. apply agree_hold.
Qed.

Lemma inv_self m phs par t ph k' ph' : inv m phs par -> phs !! t = Some ph -> move (m_kernel m) t ph k' ph' -> calm_move phs t ph ->
  (t = 0%nat -> main_phase ph' = true) -> target ph = None -> inv (mkMachine k' (<[t := code t ph']> (m_progs m))) (<[t := ph']> phs) par.
Proof.
  intros Hi Ht Hmove Hcalm Hm Hn. destruct Hmove as [ph ph' Hq|c x Hx|c x Hx Hv|c x Hx|c x Hx Hv|c x Hx|c x Hx|exec x Hx|exec success x Hx|st x Hx|x Hx|b bs Hb|b x Hx|b reap x Hx
    |b x Hx|x Hx|reap x Hx|x Hx|tid b Hb|b x Hx Hv|b x Hx|b x Hx|b reap x Hx|b st x Hx]; try done.
  - by eapply inv_quiet.
  - eapply (inv_own _ _ _ _ _ _ Hi Ht (Some (with_good x))); try done. intros q y mem _ Hy. rewrite Hx. intros Ha. eapply agree_upd; [exact Ha|done..|]. by destruct (ag_bond _ _ _ _ _ Ha x eq_refl) as (_ & _ & _ & ?).
  - eapply (inv_own _ _ _ _ _ _ Hi Ht (Some (with_load (u32 (b_load x + 1)) x))); try done; [by destruct exec, success|]. intros q y mem _ Hy. rewrite Hx. intros Ha.
    assert (side_of (loaded_phase exec success) = SLive) as -> by (by destruct exec, success). eapply agree_upd; [exact Ha|done..|]. cbn. apply u32_range.
  - eapply (inv_own _ _ _ _ _ _ Hi Ht (Some (with_status st x))); try done. intros q y mem _ Hy. rewrite Hx. intros Ha. eapply agree_upd; [exact Ha|done..|]. by destruct (ag_bond _ _ _ _ _ Ha x eq_refl) as (_ & _ & _ & ?).
  - eapply inv_step; [exact Hi|exact Ht|..]; try done; apply Hi.
  - eapply inv_turn; try done. rewrite Hb. by left.
  - eapply (inv_own _ _ _ _ _ _ Hi Ht (Some (with_ref (s32 (b_ref x - 1)) x))); try done. intros q y mem _ Hy. rewrite Hx. apply agree_leave.
  - eapply (inv_own _ _ _ _ _ _ Hi Ht (Some (with_exit (u32 (b_exit x + 1)) x))); try done; [by destruct reap|]. intros q y mem _ Hy. rewrite Hx. intros Ha%agree_up. by destruct reap.
  - eapply (inv_own _ _ _ _ _ _ Hi Ht None); try done. intros q y mem _ Hy Ha. eapply agree_self; [exact Ha|]. intros Hr.
    eapply (calm_self _ _ _ Hcalm eq_refl q false). rewrite Hy. f_equal. by apply role_remove.
  - by eapply inv_turn.
Qed.

Lemma inv_move m phs par t ph k' ph' : inv m phs par -> phs !! t = Some ph -> move (m_kernel m) t ph k' ph' -> calm_move phs t ph ->
  (t = 0%nat -> main_phase ph' = true) -> inv (mkMachine k' (<[t := code t ph']> (m_progs m))) (<[t := ph']> phs) par.
Proof. intros. destruct (target ph) eqn:E; [eapply inv_parent; try done; by rewrite E|by eapply inv_self]. Qed.

(** * Creation *)

Definition child_phase (exec : bool) : phase := if exec then PStart else PDup.

Lemma inv_make m phs par t exec : inv m phs par -> phs !! t = Some (PMake exec) ->
  let c := length (m_progs m) in
  inv (mkMachine (set_children t (c :: children (m_kernel m) t) (put_bond c (new_bond c) (m_kernel m)))
         (<[t := code t (PFind c)]> (m_progs m) ++ [code c (child_phase exec)])) (<[t := PFind c]> phs ++ [child_phase exec]) (par ++ [t]).
Proof.
  intros Hi Ht c. assert (Hc : c = length phs) by (unfold c; by rewrite (iv_progs _ _ _ Hi), length_imap).
  assert (Htl : (t < length phs)%nat) by by eapply lookup_lt_Some. destruct Hi as [H1 H2 H3 H4 H5 H6 H7 H8].
  assert (Hold : forall q u, u ∈ children (m_kernel m) q -> (u < c)%nat).
  { intros q u Hu. destruct (H5 q u Hu) as [_ Hp]. rewrite Hc, <- H2. by eapply lookup_lt_Some. }
  assert (Hph : forall u x, (<[t := PFind c]> phs ++ [child_phase exec]) !! u = Some x ->
    u = c /\ x = child_phase exec \/ u = t /\ x = PFind c \/ u <> t /\ phs !! u = Some x).
  { intros u x. rewrite lookup_app. destruct (<[t := PFind c]> phs !! u) as [y|] eqn:E.
    - intros [= <-]. apply (change_Some phs t (PMake exec) (PFind c) Ht) in E as [[-> ->] | ?]; auto.
    - apply lookup_ge_None in E. rewrite length_insert in *. intros Hx. apply list_lookup_singleton_Some in Hx as [Hu <-]. left. split; [lia|done]. }
  assert (Hpar : forall u q, (par ++ [t]) !! u = Some q -> u = c /\ q = t \/ par !! u = Some q).
  { intros u q [?|[Hl Hq]]%lookup_app_Some; [by right|left]. apply list_lookup_singleton_Some in Hq as [Hu <-]. split; [lia|done]. }
  split; cbn.
  - rewrite H1, imap_app, imap_code. f_equal. cbn. f_equal. rewrite length_insert, <- Hc. f_equal. lia.
  - rewrite !length_app, length_insert. cbn. lia.
  - destruct H3 as (x & Hx & Hm). destruct (decide (t = 0%nat)) as [-> |Hne].
    + exists (PFind c). split; [|done]. rewrite lookup_app_l by (rewrite length_insert; lia). apply list_lookup_insert_eq. lia.
    + exists x. split; [|done]. rewrite lookup_app_l by (rewrite length_insert; lia). by rewrite list_lookup_insert_ne.
  - intros u q Hu [[-> ->] | Hq]%Hpar; [lia|by apply H4].
  - intros q u. case_decide.
    + subst q. rewrite elem_of_cons. intros [-> |Hu]; [|destruct (H5 t u Hu) as [? Hp]; split; [done|by apply lookup_app_l_Some]].
      split; [lia|]. rewrite lookup_app_r by lia. by rewrite H2, <- Hc, Nat.sub_diag.
    + intros Hu. destruct (H5 q u Hu) as [? Hp]; split; [done|by apply lookup_app_l_Some].
  - intros q. case_decide; [|apply H6]. apply NoDup_cons. split; [|subst; apply H6]. subst q. intros Hu%Hold. lia.
  - intros q x u r [[-> ->] | [[-> ->] | [Hne Hq]]]%Hph.
    + by destruct exec.
    + intros [= <- <-]. split; [lia|]. rewrite lookup_app_r by lia. by rewrite H2, <- Hc, Nat.sub_diag.
    + intros Hx. destruct (H7 q x u r Hq Hx) as [? Hp]. split; [done|by apply lookup_app_l_Some].
  - intros u q x y Hu [[-> ->] | Hq]%Hpar.
    + intros [[_ ->] | [[-> _] | [_ Hx]]]%Hph; [|lia|apply lookup_lt_Some in Hx; lia].
      intros [[-> _] | [[_ ->] | [? _]]]%Hph; [lia| |done]. rewrite lookup_insert_eq. unfold member, role_of. cbn. rewrite !decide_True, bool_decide_eq_true_2 by (done || by left).
      assert (side_of (child_phase exec) = SLive) as -> by by destruct exec. split; cbn; try done; [by intros z [= <-]|by intros ? [= <-]].
    + assert (Huc : u <> c) by (intros ->; apply lookup_lt_Some in Hq; lia). assert (Hqc : q <> c) by (specialize (H4 u q Hu Hq); apply lookup_lt_Some in Hq; lia).
      intros Hx Hy. rewrite lookup_insert_ne by done.
      assert (Hx' : exists x', phs !! u = Some x' /\ side_of x = side_of x').
      { apply Hph in Hx as [[? _]|[[-> ->] | [_ Hx]]]; [done|exists (PMake exec); done|by exists x]. }
      destruct Hx' as (x' & Hx' & ->). apply Hph in Hy as [[? _]|[[-> ->] | [Hqt Hy]]]; [done| |].
      * assert (Em : forall l, bool_decide (u ∈ c :: l) = bool_decide (u ∈ l)) by (intros l; apply bool_decide_ext; rewrite elem_of_cons; naive_solver).
        assert (role_of u (PFind c) = role_of u (PMake exec)) as -> by (unfold role_of; cbn; by rewrite decide_False).
        pose proof (H8 u t x' _ Hu Hq Hx' Ht) as Ha. unfold member in *. cbn in *. by rewrite decide_True, Em.
      * pose proof (H8 u q x' y Hu Hq Hx' Hy) as Ha. unfold member in *. cbn [children set_children]. by rewrite decide_False.
Qed.

End ProcessInv.

(** Every step of the machine is a move: no access to a bond fails, and a
    process is blocked only on a semaphore that is zero. *)

Module ProcessMoves.
Import Process ProcessSpec ProcessSteps ProcessInv.

(** * Looking for a child *)

Lemma find_child_spec bs tid k : (forall u, u ∈ bs -> exists x, bonds k !! u = Some x /\ b_tid x = Z.of_nat u) ->
  exists r, find_child_in bs tid k = Ok r /\ match r with Some b => b ∈ bs /\ Z.of_nat b = tid | None => forall u, u ∈ bs -> Z.of_nat u <> tid end.
Proof.
  induction bs as [|b bs IH]; intros Hb; cbn; [exists None; split; [done|by intros u ?%not_elem_of_nil]|].
  destruct (Hb b) as (x & Hx & Et); [by left|]. unfold get_bond. rewrite Hx. cbn. destruct (Z.eqb_spec (b_tid x) tid) as [E|E].
  - exists (Some b). split; [done|]. split; [by left|congruence].
  - destruct IH as (r & -> & Hr); [intros u Hu; apply Hb; by right|]. exists r. split; [done|]. destruct r as [c|].
    + destruct Hr as [Hr ?]. split; [by right|done].
    + intros u [-> |Hu]%elem_of_cons; [congruence|by apply Hr].
Qed.

Section steps.
Context (m : machine) (phs : list phase) (par : list nat) (t : nat) (ph : phase).
Context (Hi : inv m phs par) (Ht : phs !! t = Some ph).
Abbreviation k := (m_kernel m).

Lemma code_at : m_progs m !! t = Some (code t ph).
Proof using Hi Ht. by rewrite (iv_progs _ _ _ Hi), list_lookup_imap, Ht. Qed.

(** The bonds of the children of [t], unless it is about to forget one. *)
Lemma child_bonds : (forall c reap, target ph <> Some (c, RRemove reap)) ->
  forall u, u ∈ children k t -> exists x, bonds k !! u = Some x /\ b_tid x = Z.of_nat u.
Proof using Hi Ht.
  intros Hn u Hu. destruct (iv_children _ _ _ Hi t u Hu) as [Hu0 Hp].
  destruct (lookup_lt_is_Some_2 phs u) as [y Hy]; [rewrite <- (iv_len _ _ _ Hi); by eapply lookup_lt_Some|].
  pose proof (iv_agree _ _ _ Hi u t y ph Hu0 Hp Hy Ht) as Ha. unfold member in Ha. rewrite bool_decide_eq_true_2 in Ha by done.
  assert (Ho : out true (role_of u ph) = true).
  { destruct (role_of u ph) as [| | | | | | |reap|] eqn:E; try done. unfold role_of in E. destruct (target ph) as [[b r]|] eqn:Et; [|done].
    case_decide; [|done]. subst. by destruct (Hn u reap). }
  destruct (agree_get _ _ _ _ _ Ha) as [x Hx]; [rewrite Ho; by rewrite orb_true_r|]. exists x. split; [done|]. by destruct (ag_bond _ _ _ _ _ Ha x Hx).
Qed.

(** The bond of the child that the phase is about, and the process's own. *)
Lemma target_bond c r : target ph = Some (c, r) -> exists x, bonds k !! c = Some x.
Proof using Hi Ht.
  intros E. destruct (target_agree _ _ _ _ _ _ _ Hi Ht E) as (y & _ & Ha). eapply agree_get; [exact Ha|].
  assert (Hr0 : r <> RNone) by (intros ->; by destruct ph).
  pose proof (ag_listed _ _ _ _ _ Ha) as Hl. pose proof (ag_read _ _ _ _ _ Ha) as Hrd. pose proof (ag_remove _ _ _ _ _ Ha) as Hrm.
  destruct r as [| | | | |reap| |reap|]; cbn in *; try done; rewrite ?(Hl true eq_refl); cbn; rewrite ?orb_true_r; try done.
  - by rewrite (Hrd reap eq_refl), orb_true_r.
  - destruct reap; [by rewrite orb_true_r|]. rewrite orb_false_r. by rewrite orb_false_r, Hrm.
Qed.

Lemma own_bond : main_phase ph = false -> side_of ph <> SGone -> exists x, bonds k !! t = Some x.
Proof using Hi Ht.
  intros Hm Hl. assert (Ht0 : t <> 0%nat). { intros ->. destruct (iv_main _ _ _ Hi) as (x & Hx & Hxm). congruence. }
  destruct (lookup_lt_is_Some_2 par t) as [q Hq]; [rewrite (iv_len _ _ _ Hi); by eapply lookup_lt_Some|].
  destruct (lookup_lt_is_Some_2 phs q) as [y Hy].
  { pose proof (iv_par _ _ _ Hi t q Ht0 Hq). apply lookup_lt_Some in Hq. rewrite <- (iv_len _ _ _ Hi). lia. }
  pose proof (iv_agree _ _ _ Hi t q ph y Ht0 Hq Ht Hy) as Ha. eapply agree_get; [exact Ha|]. pose proof (ag_dropped _ _ _ _ _ Ha) as Hd. destruct (side_of ph) as [|[]| |]; cbn; rewrite ?orb_true_r; try done. by rewrite (Hd eq_refl).
Qed.

(** * Steps *)

(** The process waits for a call, a choice or a semaphore. *)
Definition halted : Prop :=
  match ph with
  | PUser _ | PGone | PFork | PExec1 | PExec2 | PDup | PStart | PStarted | PArgs => True
  | PLoad c => forall x, bonds k !! c = Some x -> b_load x = 0
  | PFailed c | PAsleep c => forall x, bonds k !! c = Some x -> b_exit x = 0
  | _ => False
  end.

Definition made (exec : bool) (m' : machine) : Prop :=
  let c := length (m_progs m) in
  m' = mkMachine (set_children t (c :: children k t) (put_bond c (new_bond c) k)) (<[t := code t (PFind c)]> (m_progs m) ++ [code c (child_phase exec)]).

Definition outcome (r : res machine) : Prop :=
  match r with
  | Ok m' => (exists k' ph', move k t ph k' ph' /\ m' = mkMachine k' (<[t := code t ph']> (m_progs m))) \/ (exists exec, ph = PMake exec /\ made exec m')
  | Err Block => halted
  | Err _ => False
  end.

Lemma goes_to ph' k' p : move k t ph k' ph' -> p = code t ph' -> outcome (Ok (mkMachine k' (<[t := p]> (m_progs m)))).
Proof using Type. intros Hm ->. left. by exists k', ph'. Qed.

End steps.

Tactic Notation "moves_to" uconstr(ph') :=
  eapply (goes_to _ _ _ ph'); [econstructor; eassumption|first [reflexivity | repeat match goal with |- context [if ?b then _ else _] => destruct b end; reflexivity]].

Lemma tau_parent m phs par t ph : inv m phs par -> phs !! t = Some ph -> target ph <> None -> outcome m t ph (step m (Tau t)).
Proof.
  intros Hi Ht Hn. unfold step. rewrite (code_at _ _ _ _ _ Hi Ht).
  destruct ph as [v| | | | |exec|c|c|c|c|c|c| | | |exec|exec success| |st| | |b|b reap|b| |reap| |tid|b|b|b|b reap|b st]; try done;
    destruct (target_bond _ _ _ _ _ Hi Ht _ _ eq_refl) as [x Hx]; cbn; unfold bond_down, is_orphan_or_zombie, remove_child, free_bond, get_bond; rewrite ?Hx; cbn.
  - pose proof (child_bonds _ _ _ _ _ Hi Ht) as Hc. destruct (find_child_spec (children (m_kernel m) t) (Z.of_nat c) (m_kernel m)) as (r & Er & Hr); [by apply Hc|].
    unfold find_child. rewrite Er. cbn. pose proof (target_member _ _ _ _ _ _ _ true Hi Ht eq_refl eq_refl) as Hmem. apply bool_decide_eq_true_1 in Hmem.
    destruct r as [b|]; [|by destruct (Hr c Hmem)]. destruct Hr as [_ Eb]. apply Nat2Z.inj in Eb. subst b. cbn. moves_to (PLoad c).
  - destruct (Z.eqb_spec (b_load x) 0); cbn; [intros y Hy; congruence|]. moves_to (PLoaded c).
  - moves_to (if b_load_fail x then PFailed c else PUser (Z.of_nat c)).
  - destruct (Z.eqb_spec (b_exit x) 0); cbn; [intros y Hy; congruence|]. moves_to (PUnlink c).
  - moves_to (PFree c).
  - moves_to (PUser TID_ERROR).
  - moves_to (PRemove b (s32 (b_ref x - 1) =? 0)).
  - moves_to (if reap then PReap b else PChildren).
  - moves_to PChildren.
  - destruct (Z.eqb_spec (b_exit x) 0); cbn; [intros y Hy; congruence|]. moves_to (PTake b).
  - moves_to (PRelease b).
  - moves_to (PRead b (s32 (b_ref x - 1) =? 0)).
  - moves_to (if reap then PReturn b (b_status x) else PUser (b_status x)).
  - moves_to (PUser st).
Qed.

Lemma tau_self m phs par t ph : inv m phs par -> phs !! t = Some ph -> target ph = None -> outcome m t ph (step m (Tau t)).
Proof.
  intros Hi Ht Hn. unfold step. rewrite (code_at _ _ _ _ _ Hi Ht). pose proof (own_bond _ _ _ _ _ Hi Ht) as Hown.
  destruct ph as [v| | | | |exec|c|c|c|c|c|c| | | |exec|exec success| |st| | |b|b reap|b| |reap| |tid|b|b|b|b reap|b st]; try done; cbn; try done;
    try (destruct Hown as [x Hx]; [done|done|]); unfold bond_up, is_orphan_or_zombie, free_bond, get_bond; rewrite ?Hx; cbn.
  - right. exists exec. split; [done|]. unfold made. by destruct exec.
  - moves_to (PNotify exec true).
  - eapply (goes_to _ _ _ (loaded_phase exec success)); [econstructor; eassumption|by destruct exec, success].
  - moves_to PMessage.
  - moves_to PChildren.
  - unfold set_prog. destruct (children (m_kernel m) t) as [|b bs] eqn:E.
    + eapply (goes_to _ _ _ PLeave); [constructor; constructor|reflexivity].
    + moves_to (PDrop b).
  - moves_to (PUp (s32 (b_ref x - 1) =? 0)).
  - moves_to (if reap then PSelf else PGone).
  - moves_to PGone.
  - destruct (find_child_spec (children (m_kernel m) t) tid (m_kernel m)) as (r & Er & Hr); [by apply (child_bonds _ _ _ _ _ Hi Ht)|].
    unfold find_child. rewrite Er. cbn. destruct r as [b|].
    + eapply (goes_to _ _ _ (PAsleep b)); [econstructor; apply Hr|reflexivity].
    + eapply (goes_to _ _ _ (PUser (-1))); [constructor; constructor|reflexivity].
Qed.

Lemma tau_outcome m phs par t ph : inv m phs par -> phs !! t = Some ph -> outcome m t ph (step m (Tau t)).
Proof. intros Hi Ht. destruct (target ph) eqn:E; [eapply tau_parent; try done; by rewrite E|by eapply tau_self]. Qed.

(** Calls and choices. *)
Lemma env_quiet m phs par t ph ok m' : inv m phs par -> phs !! t = Some ph -> step m (Env t ok) = Ok m' ->
  exists ph', quiet ph ph' /\ m' = mkMachine (m_kernel m) (<[t := code t ph']> (m_progs m)) /\ (main_phase ph = true -> main_phase ph' = true) /\
    (ph = PStart -> ok = true -> ph' = PStarted).
Proof.
  intros Hi Ht. unfold step. rewrite (code_at _ _ _ _ _ Hi Ht).
  destruct ph as [v| | | | |exec|c|c|c|c|c|c| | | |exec|exec success| |st| | |b|b reap|b| |reap| |tid|b|b|b|b reap|b st]; cbn; try done; intros [= <-].
  - exists (if ok then PMake false else PUser TID_ERROR). split; [constructor|]. by destruct ok.
  - exists (if ok then PExec2 else PUser TID_ERROR). split; [constructor|]. by destruct ok.
  - exists (if ok then PMake true else PUser TID_ERROR). split; [constructor|]. by destruct ok.
  - exists (if ok then PGood false else PNotify false false). split; [constructor|]. by destruct ok.
  - exists (if ok then PStarted else PStatus (-1)). split; [constructor|]. by destruct ok.
  - exists (if ok then PGood true else PNotify true false). split; [constructor|]. by destruct ok.
  - exists (if ok then PUser 0 else PStatus (-1)). split; [constructor|]. by destruct ok.
Qed.

Lemma sys_quiet m phs par t ph c m' : inv m phs par -> phs !! t = Some ph -> step m (Sys t c) = Ok m' ->
  exists ph', quiet ph ph' /\ m' = mkMachine (m_kernel m) (<[t := code t ph']> (m_progs m)) /\ (t = 0%nat -> main_phase ph' = true).
Proof.
  intros Hi Ht. unfold step. rewrite (code_at _ _ _ _ _ Hi Ht).
  destruct ph as [v| | | | |exec|b|b|b|b|b|b| | | |exec|exec success| |st| | |b|b reap|b| |reap| |tid|b|b|b|b reap|b st]; cbn; try done; try (by destruct exec); try (by destruct success).
  destruct (may_call t c) eqn:Em; [|done]. intros [= <-]. unfold set_prog, may_call in *. destruct c as [| | |tid|st]; cbn in *.
  - exists PFork. split; [constructor|]. split; [done|]. by intros ->.
  - exists PExec1. split; [constructor|]. done.
  - exists PStart. split; [constructor|]. split; [done|]. by intros ->.
  - exists (PWait tid). split; [constructor|]. done.
  - exists (PStatus st). split; [constructor|]. split; [done|]. by intros ->.
Qed.

End ProcessMoves.
