(* ===== verification/ProcessProps.v ===== *)
(** What processes promise each other: a bond is never used after it is
    freed nor forgotten, [process_wait] returns what the child exited with,
    and a process that waits is waiting for one that can go on. *)
From S2P Require Import Prelude Process ProcessSpec ProcessInv.
From stdpp Require Import options.

#[local] Open Scope Z_scope.

Module ProcessProps.
Import Process ProcessSpec ProcessSteps ProcessInv ProcessMoves.

(** * Reachable states *)

Definition is_up (p : option prog) : bool := match p with Some (Up false _ _) => true | _ => false end.
Definition unlinks (t : nat) (p : prog) : bool := match p with Unlink b _ => (b =? t)%nat | _ => false end.

(** The two races of [process_exit], between a parent and a child that exit
    at the same time, do not happen: no parent gives up its reference while
    the child, which has given up its own, has yet to call [sema_up]; and no
    child frees its bond while the parent has yet to call [list_remove]. *)
Definition calm (m : machine) (a : action) : bool :=
  match a with
  | Tau t =>
      match m_progs m !! t with
      | Some (Drop b _) => (b =? t)%nat || negb (is_up (m_progs m !! b))
      | Some (Free b _) => negb (b =? t)%nat || forallb (fun p => negb (unlinks t p)) (m_progs m)
      | _ => true
      end
  | _ => true
  end.

(** Moreover a new process gets a page for its command line, and no
    semaphore is at its maximum. *)
Definition lucky (m : machine) (a : action) : bool :=
  calm m a &&
  match a with
  | Env t false => match m_progs m !! t with Some (Choose StartPage _) => false | _ => true end
  | Tau t =>
      match m_progs m !! t with
      | Some (Up true b _) => match bonds (m_kernel m) !! b with Some x => b_load x <? 2 ^ 32 - 1 | None => true end
      | _ => true
      end
  | _ => true
  end.

Inductive reach (ok : machine -> action -> bool) : machine -> Prop :=
| reach_boot : reach ok boot
| reach_step m a m' : reach ok m -> ok m a = true -> step m a = Ok m' -> reach ok m'.

Lemma calm_phases m phs par t ph : inv m phs par -> phs !! t = Some ph -> calm m (Tau t) = true -> calm_move phs t ph.
Proof.
  intros Hi Ht Hc. unfold calm in Hc. rewrite (code_at _ _ _ _ _ Hi Ht) in Hc. split.
  - intros b reap -> Hb. cbn in Hc. rewrite (code_at _ _ _ _ _ Hi Hb) in Hc. cbn in Hc. rewrite orb_false_r in Hc. apply Nat.eqb_eq in Hc. subst b. congruence.
  - intros -> q reap Hq. cbn in Hc. rewrite Nat.eqb_refl in Hc. cbn in Hc. rewrite forallb_forall in Hc.
    specialize (Hc (code q (PRemove t reap))). cbn in Hc. rewrite Nat.eqb_refl in Hc. discriminate Hc. apply list_elem_of_In, (list_elem_of_lookup_2 _ q).
    by rewrite (code_at _ _ _ _ _ Hi Hq).
Qed.

(** The process has yet to tell its parent that it has been set up. *)
Definition early (ph : phase) : bool :=
  match ph with PDup | PStart | PStarted | PGood _ | PNotify _ _ => true | _ => false end.
Definition awaits (ph : phase) : option nat :=
  match ph with PFind c | PLoad c => Some c | _ => None end.

Definition load_ok (k : kernel) (phs : list phase) : Prop :=
  forall q c z y x, phs !! q = Some z -> awaits z = Some c -> phs !! c = Some y -> bonds k !! c = Some x -> b_load x <> 0 \/ early y = true.

Record lucky_move (k : kernel) (t : nat) (ph ph' : phase) : Prop := {
  lucky_start : ph = PStart -> early ph' = true;
  lucky_sema : forall exec success x, ph = PNotify exec success -> bonds k !! t = Some x -> b_load x < 2 ^ 32 - 1;
}.

(** A step of a state that the invariant describes. *)
Inductive stepped (m : machine) (a : action) (phs : list phase) (par : list nat) : machine -> list phase -> list nat -> Prop :=
| St_move t ph k' ph' : phs !! t = Some ph -> move (m_kernel m) t ph k' ph' -> calm_move phs t ph ->
    (lucky m a = true -> lucky_move (m_kernel m) t ph ph') ->
    stepped m a phs par (mkMachine k' (<[t := code t ph']> (m_progs m))) (<[t := ph']> phs) par
| St_make t exec m' : phs !! t = Some (PMake exec) -> made m t exec m' ->
    stepped m a phs par m' (<[t := PFind (length (m_progs m))]> phs ++ [child_phase exec]) (par ++ [t]).

Lemma move_main k t ph k' ph' : main_phase ph = true -> move k t ph k' ph' -> (exists v, ph = PUser v) \/ main_phase ph' = true.
Proof. intros Hm Hmove. destruct Hmove as [? ? []| | | | | | | | | | | | | | | | | | | | | | |]; try destruct ok; try destruct reap; try destruct (b_load_fail x); eauto; done. Qed.

Lemma step_stepped m phs par a m' : inv m phs par -> calm m a = true -> step m a = Ok m' ->
  exists phs' par', inv m' phs' par' /\ stepped m a phs par m' phs' par'.
Proof.
  intros Hi Hc Hs. assert (Hth : exists t, match a with Sys u _ | Env u _ | Tau u => u = t end) by (destruct a; eauto). destruct Hth as [t Eat].
  destruct (phs !! t) as [ph|] eqn:Ht.
  2:{ assert (Hn : m_progs m !! t = None) by (by rewrite (iv_progs _ _ _ Hi), list_lookup_imap, Ht). destruct a; subst t; cbn in Hs; rewrite Hn in Hs; done. }
  assert (Hmove : forall ph' k', move (m_kernel m) t ph k' ph' -> calm_move phs t ph -> (t = 0%nat -> main_phase ph' = true) -> (lucky m a = true -> lucky_move (m_kernel m) t ph ph') -> m' = mkMachine k' (<[t := code t ph']> (m_progs m)) ->
    exists phs' par', inv m' phs' par' /\ stepped m a phs par m' phs' par').
  { intros ph' k' Hm Hcm Hmain Hlk ->. exists (<[t := ph']> phs), par. split; [by eapply inv_move|by eapply St_move]. }
  assert (Hmain : t = 0%nat -> main_phase ph = true). { intros ->. destruct (iv_main _ _ _ Hi) as (x & Hx & ?). congruence. }
  assert (Hqcalm : forall ph', quiet ph ph' -> calm_move phs t ph) by (intros ph' Hq; split; [intros b reap ->|intros ->]; inversion Hq).
  destruct a as [u c|u ok|u]; subst u.
  - destruct (sys_quiet _ _ _ _ _ _ _ Hi Ht Hs) as (ph' & Hq & Hm' & Hm0). eapply Hmove; [by constructor|by eapply Hqcalm|done| |done].
    intros _. split; [intros ->|intros ??? ->]; inversion Hq; subst. cbn in Hs. by rewrite (code_at _ _ _ _ _ Hi Ht) in Hs.
  - destruct (env_quiet _ _ _ _ _ _ _ Hi Ht Hs) as (ph' & Hq & Hm' & Hm0 & Hst). eapply Hmove; [by constructor|by eapply Hqcalm|auto| |done].
    unfold lucky. rewrite (code_at _ _ _ _ _ Hi Ht). intros Hlk. split; [intros ->|intros ??? ->; inversion Hq]. destruct ok; [by rewrite Hst|done].
  - pose proof (tau_outcome _ _ _ _ _ Hi Ht) as Ho. rewrite Hs in Ho. destruct Ho as [(k' & ph' & Hm & E)|(exec & -> & Hmade)].
    + eapply Hmove; [done|by eapply calm_phases| | |done].
      2:{ unfold lucky. rewrite (code_at _ _ _ _ _ Hi Ht). intros Hlk. split; [intros ->|intros exec success x -> Hx; cbn in Hlk; rewrite Hx in Hlk; apply andb_true_iff in Hlk as [_ Hlk]; by btest].
          cbn in Hs. by rewrite (code_at _ _ _ _ _ Hi Ht) in Hs. }
      intros E0. destruct (move_main _ _ _ _ _ (Hmain E0) Hm) as [[v ->]|?]; [|done].
      cbn in Hs. by rewrite (code_at _ _ _ _ _ Hi Ht) in Hs.
    + exists (<[t := PFind (length (m_progs m))]> phs ++ [child_phase exec]), (par ++ [t]). split; [|by eapply St_make]. unfold made in Hmade. subst m'. by eapply inv_make.
Qed.

(** * What has been printed and returned *)

Definition settled (r : role) : bool := match r with RNone | RReturn => true | _ => false end.

Record logs (k : kernel) (phs : list phase) (par : list nat) : Prop := {
  lg_told : forall c ph x, phs !! c = Some ph -> told ph = true -> bonds k !! c = Some x -> (c, b_status x) ∈ messages k;
  lg_new : forall c v, (c, v) ∈ messages k -> exists ph, phs !! c = Some ph /\ told ph = true;
  lg_once : NoDup (messages k).*1;
  lg_waited : forall q c v, (q, c, v) ∈ waited k -> (c, v) ∈ messages k /\ par !! c = Some q /\
    exists ph, phs !! q = Some ph /\ member k q c = false /\ settled (role_of c ph) = true;
  lg_waited_once : NoDup (waited k).*1.*2;
}.

(** The status of a bond changes only before it is printed. *)
Lemma move_status k t ph k' ph' c x' : move k t ph k' ph' -> bonds k' !! c = Some x' ->
  (c = t /\ told ph' = false) \/ exists x, bonds k !! c = Some x /\ b_status x' = b_status x.
Proof.
  intros Hm Hx'. destruct Hm as [ph ph' Hq|d x Hx|d x Hx Hv|d x Hx|d x Hx Hv|d x Hx|d x Hx|exec x Hx|exec success x Hx|st x Hx|x Hx|b bs Hb|b x Hx|b reap x Hx
    |b x Hx|x Hx|reap x Hx|x Hx|tid b Hb|b x Hx Hv|b x Hx|b x Hx|b reap x Hx|b st x Hx]; cbn in Hx'; try (right; by exists x');
    try (apply lookup_insert_Some in Hx' as [[<- <-]|[_ Hx']]; [first [by left | right; by exists x]|right; by exists x']);
    apply lookup_delete_Some in Hx' as [_ Hx']; right; by exists x'.
Qed.

Lemma move_told k t ph k' ph' : move k t ph k' ph' -> told ph' = true -> told ph = true \/ ph = PMessage.
Proof. intros Hm. destruct Hm as [? ? []| | | | | | | | | | | | | | | | | | | | | | |]; try destruct ok; try destruct reap; try destruct exec; try destruct success; try destruct (b_load_fail x); cbn; auto. Qed.

Lemma told_move k t ph k' ph' : move k t ph k' ph' -> told ph = true -> told ph' = true.
Proof. intros Hm. destruct Hm as [? ? []| | | | | | | | | | | | | | | | | | | | | | |]; try destruct reap; try done; cbn; done. Qed.

Lemma move_messages k t ph k' ph' : move k t ph k' ph' ->
  messages k' = messages k \/ ph = PMessage /\ ph' = PChildren /\ exists x, bonds k !! t = Some x /\ bonds k' = bonds k /\ messages k' = messages k ++ [(t, b_status x)].
Proof. intros Hm. destruct Hm; try (by left). right. eauto 10. Qed.

Lemma move_waited k t ph k' ph' : move k t ph k' ph' ->
  waited k' = waited k \/ exists b reap x, ph = PRead b reap /\ bonds k !! b = Some x /\ waited k' = waited k ++ [(t, b, b_status x)].
Proof. intros Hm. destruct Hm; try (by left). right. eauto 10. Qed.

Lemma move_message k t ph k' ph' : move k t ph k' ph' -> ph = PMessage -> exists x, bonds k !! t = Some x /\ messages k' = messages k ++ [(t, b_status x)].
Proof. intros Hm. destruct Hm as [? ? []| | | | | | | | | | | | | | | | | | | | | | |]; try done. eauto. Qed.

Lemma move_read k t k' b reap ph' : move k t (PRead b reap) k' ph' -> children k' t = children k t /\ settled (role_of b ph') = true.
Proof.
  intros Hm. inversion Hm as [? ? Hq| | | | | | | | | | | | | | | | | | | | | |b0 reap0 x Hx|]; [by inversion Hq|]. split; [done|]. destruct reap; [|done]. unfold role_of. cbn. by rewrite decide_True.
Qed.

Lemma move_children k t ph k' ph' q : move k t ph k' ph' -> q <> t -> children k' q = children k q.
Proof. intros Hm Hq. destruct Hm; try done; cbn; by rewrite decide_False. Qed.

(** A reference that has been given up stays so. *)
Lemma move_settled k t ph k' ph' c : move k t ph k' ph' -> member k t c = false -> settled (role_of c ph) = true ->
  member k' t c = false /\ settled (role_of c ph') = true.
Proof.
  unfold member. intros Hm Hc Hs. apply bool_decide_eq_false_1 in Hc.
  destruct Hm as [ph ph' Hq|d x Hx|d x Hx Hv|d x Hx|d x Hx Hv|d x Hx|d x Hx|exec x Hx|exec success x Hx|st x Hx|x Hx|b bs Hb|b x Hx|b reap x Hx
    |b x Hx|x Hx|reap x Hx|x Hx|tid b Hb|b x Hx Hv|b x Hx|b x Hx|b reap x Hx|b st x Hx]; cbn; rewrite ?decide_True by done;
    (split; [apply bool_decide_eq_false_2; try done; by intros [_ ?]%list_elem_of_filter|]); try done; unfold role_of in *; cbn in *;
    try (by destruct Hq; try destruct ok); try destruct (b_load_fail x); try destruct reap; try destruct exec, success; cbn in *;
    repeat match goal with
    | |- context [decide (?a = ?b)] => destruct (decide (a = b))
    | H : context [decide (?a = ?b)] |- _ => destruct (decide (a = b))
    end; try done; subst; destruct Hc; [rewrite Hb; by left|done].
Qed.

(** The status that a waiting parent reads has been printed. *)
Lemma read_printed m phs par t b reap x : inv m phs par -> logs (m_kernel m) phs par -> phs !! t = Some (PRead b reap) -> bonds (m_kernel m) !! b = Some x ->
  (b, b_status x) ∈ messages (m_kernel m) /\ par !! b = Some t /\ member (m_kernel m) t b = false.
Proof.
  intros Hi Hl Ht Hx. destruct (target_agree _ _ _ _ _ _ _ Hi Ht eq_refl) as (y & Hy & Ha). destruct (iv_target _ _ _ Hi t _ b _ Ht eq_refl) as [_ Hp].
  split; [|split; [done|by apply (ag_listed _ _ _ _ _ Ha)]]. eapply (lg_told _ _ _ Hl); [exact Hy| |done].
  pose proof (ag_taken _ _ _ _ _ Ha eq_refl) as Hg. destruct y; try done.
Qed.

Section logs_move.
Context (m : machine) (phs : list phase) (par : list nat) (t : nat) (ph : phase) (k' : kernel) (ph' : phase).
Context (Hi : inv m phs par) (Hl : logs (m_kernel m) phs par) (Ht : phs !! t = Some ph) (Hm : move (m_kernel m) t ph k' ph').

Lemma messages_sub y : y ∈ messages (m_kernel m) -> y ∈ messages k'.
Proof using Hm. intros Hy. destruct (move_messages _ _ _ _ _ Hm) as [-> |(_ & _ & x & _ & _ & ->)]; [done|]. apply elem_of_app. by left. Qed.

Lemma phase_at : <[t := ph']> phs !! t = Some ph'.
Proof using Ht. apply list_lookup_insert_eq. by eapply lookup_lt_Some. Qed.

Lemma told_step c y x : <[t := ph']> phs !! c = Some y -> told y = true -> bonds k' !! c = Some x -> (c, b_status x) ∈ messages k'.
Proof using Hl Ht Hm.
  intros Hc Hy Hx'. apply (change_Some phs t ph ph' Ht) in Hc as [[-> ->] | [Hne Hc]].
  - destruct (move_status _ _ _ _ _ _ _ Hm Hx') as [[_ ?]|(z & Hz & ->)]; [congruence|]. destruct (move_told _ _ _ _ _ Hm Hy) as [Hy' |Hph].
    + apply messages_sub. by eapply (lg_told _ _ _ Hl).
    + destruct (move_message _ _ _ _ _ Hm Hph) as (z' & Hz' & ->). rewrite Hz in Hz'. injection Hz' as <-. apply elem_of_app. right. by left.
  - apply messages_sub. destruct (move_status _ _ _ _ _ _ _ Hm Hx') as [[? _]|(z & Hz & ->)]; [done|]. by eapply (lg_told _ _ _ Hl).
Qed.

Lemma new_step c v : (c, v) ∈ messages k' -> exists y, <[t := ph']> phs !! c = Some y /\ told y = true.
Proof using Hl Ht Hm.
  intros Hv. assert (Hc : (c, v) ∈ messages (m_kernel m) \/ c = t /\ ph' = PChildren).
  { destruct (move_messages _ _ _ _ _ Hm) as [E|(_ & -> & x & _ & _ & E)]; rewrite E in Hv; [by left|]. apply elem_of_app in Hv as [?|Hv]; [by left|].
    apply list_elem_of_singleton in Hv. injection Hv as -> _. by right. }
  destruct Hc as [Hc|[-> E]]; [|exists ph'; split; [apply phase_at|by rewrite E]]. destruct (lg_new _ _ _ Hl c v Hc) as (y & Hy & Hty).
  destruct (decide (c = t)) as [-> |Hne]; [|exists y; by rewrite list_lookup_insert_ne]. exists ph'. split; [apply phase_at|]. eapply told_move; [exact Hm|]. congruence.
Qed.

Lemma once_step : NoDup (messages k').*1.
Proof using Hl Ht Hm.
  destruct (move_messages _ _ _ _ _ Hm) as [-> |(Hph & _ & x & _ & _ & ->)]; [apply Hl|]. rewrite fmap_app. apply NoDup_app. split_and!; [apply Hl| |apply NoDup_singleton].
  intros c Hc Ec. apply list_elem_of_singleton in Ec. cbn in Ec. subst c. apply list_elem_of_fmap in Hc as ([c v] & E & Hc). cbn in E. subst c.
  destruct (lg_new _ _ _ Hl t v Hc) as (y & Hy & Hty). rewrite Ht in Hy. injection Hy as <-. by rewrite Hph in Hty.
Qed.

Lemma waited_step q c v : (forall q, q <> t -> children k' q = children (m_kernel m) q) -> (q, c, v) ∈ waited k' -> (c, v) ∈ messages k' /\ par !! c = Some q /\
  exists y, <[t := ph']> phs !! q = Some y /\ member k' q c = false /\ settled (role_of c y) = true.
Proof using Hi Hl Ht Hm.
  intros Hch Hv. assert (Hold : (q, c, v) ∈ waited (m_kernel m) \/ exists reap x, ph = PRead c reap /\ q = t /\ bonds (m_kernel m) !! c = Some x /\ v = b_status x).
  { destruct (move_waited _ _ _ _ _ Hm) as [E|(b & reap & x & Hph & Hx & E)]; rewrite E in Hv; [by left|]. apply elem_of_app in Hv as [?|Hv]; [by left|].
    apply list_elem_of_singleton in Hv. injection Hv as -> -> ->. right. by exists reap, x. }
  destruct Hold as [Hold|(reap & x & Hph & -> & Hx & ->)].
  - destruct (lg_waited _ _ _ Hl q c v Hold) as (H1 & H2 & y & Hy & Hmem & Hset). split; [by apply messages_sub|]. split; [done|].
    destruct (decide (q = t)) as [-> |Hne]; [|exists y; rewrite list_lookup_insert_ne by done; unfold member; by rewrite Hch].
    rewrite Ht in Hy. injection Hy as <-. exists ph'. split; [apply phase_at|]. by eapply move_settled.
  - pose proof Ht as Ht'. rewrite Hph in Ht'. pose proof Hm as Hm'. rewrite Hph in Hm'. destruct (read_printed _ _ _ _ _ _ _ Hi Hl Ht' Hx) as (H1 & H2 & H3). split; [by apply messages_sub|].
    split; [done|]. exists ph'. split; [apply phase_at|]. destruct (move_read _ _ _ _ _ _ Hm') as [E Hs]. split; [|done]. unfold member in *. by rewrite E.
Qed.

Lemma waited_once_step : NoDup (waited k').*1.*2.
Proof using Hi Hl Ht Hm.
  destruct (move_waited _ _ _ _ _ Hm) as [-> |(b & reap & x & Hph & Hx & ->)]; [apply Hl|]. rewrite !fmap_app. apply NoDup_app. split_and!; [apply Hl| |apply NoDup_singleton].
  intros c Hc Ec. apply list_elem_of_singleton in Ec. cbn in Ec. subst c. apply list_elem_of_fmap in Hc as ([q c] & E & Hc). cbn in E. subst c.
  apply list_elem_of_fmap in Hc as ([[q' c'] v] & E & Hc). cbn in E. injection E as <- <-. rewrite Hph in Ht.
  destruct (lg_waited _ _ _ Hl q b v Hc) as (_ & H2 & y & Hy & _ & Hset). destruct (read_printed _ _ _ _ _ _ _ Hi Hl Ht Hx) as (_ & H2' & _).
  assert (q = t) by congruence. subst q. rewrite Ht in Hy. injection Hy as <-. unfold role_of in Hset. cbn in Hset. by rewrite decide_True in Hset.
Qed.

End logs_move.

Lemma logs_move m phs par t ph k' ph' : inv m phs par -> logs (m_kernel m) phs par -> phs !! t = Some ph -> move (m_kernel m) t ph k' ph' -> logs k' (<[t := ph']> phs) par.
Proof.
  intros Hi Hl Ht Hm. split.
  - intros c y x. by eapply told_step.
  - intros c v. by eapply new_step.
  - by eapply once_step.
  - intros q c v. eapply waited_step; try done. intros u Hu. by eapply move_children.
  - by eapply waited_once_step.
Qed.

Lemma logs_make m phs par t exec m' : inv m phs par -> logs (m_kernel m) phs par -> phs !! t = Some (PMake exec) -> made m t exec m' ->
  logs (m_kernel m') (<[t := PFind (length (m_progs m))]> phs ++ [child_phase exec]) (par ++ [t]).
Proof.
  intros Hi Hl Ht ->. cbn. set (c := length (m_progs m)). assert (Hc : c = length phs) by (unfold c; by rewrite (iv_progs _ _ _ Hi), length_imap).
  assert (Hold : forall u y, phs !! u = Some y -> exists y', (<[t := PFind c]> phs ++ [child_phase exec]) !! u = Some y' /\ told y' = told y /\
    (forall d, d <> c -> role_of d y' = role_of d y)).
  { intros u y Hu. pose proof (lookup_lt_Some _ _ _ Hu). rewrite lookup_app_l by (by rewrite length_insert). destruct (decide (u = t)) as [-> |Hne].
    - rewrite Ht in Hu. injection Hu as <-. exists (PFind c). rewrite list_lookup_insert_eq by done. split_and!; [done|done|]. intros d Hd. unfold role_of. cbn. by rewrite decide_False.
    - exists y. by rewrite list_lookup_insert_ne. }
  assert (Hnew : forall u y, (<[t := PFind c]> phs ++ [child_phase exec]) !! u = Some y -> told y = true -> exists y', phs !! u = Some y' /\ told y' = true).
  { intros u y Hu Hy. apply lookup_app_Some in Hu as [Hu|[_ Hu]].
    - apply (change_Some phs t _ _ Ht) in Hu as [[-> ->] | [_ Hu]]; [done|by exists y].
    - apply list_lookup_singleton_Some in Hu as [_ <-]. by destruct exec. }
  split; cbn.
  - intros u y x Hu Hy Hx. destruct (Hnew u y Hu Hy) as (y' & Hy' & Hty). apply (lg_told _ _ _ Hl u y' x Hy' Hty). rewrite lookup_insert_ne in Hx; [done|]. apply lookup_lt_Some in Hy'. lia.
  - intros u v Hv. destruct (lg_new _ _ _ Hl u v Hv) as (y & Hy & Hty). destruct (Hold u y Hy) as (y' & Hy' & Ey & _). exists y'. split; [done|congruence].
  - apply Hl.
  - intros q u v Hv. destruct (lg_waited _ _ _ Hl q u v Hv) as (H1 & H2 & y & Hy & Hmem & Hset). split; [done|]. split; [by apply lookup_app_l_Some|].
    assert (Hu : u <> c) by (intros ->; apply lookup_lt_Some in H2; rewrite (iv_len _ _ _ Hi) in H2; lia).
    destruct (Hold q y Hy) as (y' & Hy' & _ & Er). exists y'. split; [done|]. rewrite Er by done. split; [|done].
    unfold member in *. apply bool_decide_eq_false_1 in Hmem. apply bool_decide_eq_false_2. cbn. case_decide; [subst q|done]. rewrite elem_of_cons. naive_solver.
  - apply Hl.
Qed.

(** * The child's notification *)

Lemma move_other k t ph k' ph' c : move k t ph k' ph' -> c <> t -> (forall r, target ph <> Some (c, r)) -> bonds k' !! c = bonds k !! c.
Proof.
  intros Hm Hc Hn. destruct Hm; cbn; try done; try (by rewrite lookup_insert_ne); try (by rewrite lookup_delete_ne);
    (rewrite ?lookup_insert_ne, ?lookup_delete_ne; [done|]); intros ->; by eapply Hn.
Qed.

Lemma move_early k t ph k' ph' x' : move k t ph k' ph' -> lucky_move k t ph ph' -> (forall r, target ph <> Some (t, r)) -> (forall x, bonds k !! t = Some x -> 0 <= b_load x) ->
  bonds k' !! t = Some x' -> (forall x, bonds k !! t = Some x -> b_load x <> 0 \/ early ph = true) -> b_load x' <> 0 \/ early ph' = true.
Proof.
  intros Hm [Hl1 Hl2] Hn Hpos Hx' Hold.
  assert (Hkeep : bonds k !! t = Some x' -> early ph = false -> b_load x' <> 0) by (intros Hx Hp; destruct (Hold x' Hx); congruence).
  destruct Hm as [ph ph' Hq|d x Hx|d x Hx Hv|d x Hx|d x Hx Hv|d x Hx|d x Hx|exec x Hx|exec success x Hx|st x Hx|x Hx|b bs Hb|b x Hx|b reap x Hx
    |b x Hx|x Hx|reap x Hx|x Hx|tid b Hb|b x Hx Hv|b x Hx|b x Hx|b reap x Hx|b st x Hx]; cbn in Hx'; try (left; by apply Hkeep);
    try (rewrite lookup_insert_eq in Hx'; injection Hx' as <-; cbn; try (by right); left; destruct (Hold x Hx); done);
    try (rewrite lookup_insert_ne in Hx' by (intros ->; by eapply Hn); left; by apply Hkeep);
    try (rewrite lookup_delete_ne in Hx' by (intros ->; by eapply Hn); left; by apply Hkeep).
  - destruct Hq; try destruct ok; try (left; by apply Hkeep); try (by right). right. by apply Hl1.
  - rewrite lookup_insert_eq in Hx'. injection Hx' as <-. cbn. left. specialize (Hl2 _ _ x eq_refl Hx). specialize (Hpos x Hx). rewrite u32_small; lia.
  - by rewrite lookup_delete_eq in Hx'.
Qed.

Lemma own_load m phs par t q ph z x : inv m phs par -> t <> 0%nat -> par !! t = Some q -> phs !! t = Some ph -> phs !! q = Some z -> bonds (m_kernel m) !! t = Some x -> 0 <= b_load x.
Proof. intros Hi Ht0 Hp Ht Hq Hx. pose proof (iv_agree _ _ _ Hi t q ph z Ht0 Hp Ht Hq) as Ha. by destruct (ag_bond _ _ _ _ _ Ha x Hx) as (_ & _ & _ & ?). Qed.

Lemma load_move m phs par t ph k' ph' : inv m phs par -> load_ok (m_kernel m) phs -> phs !! t = Some ph -> move (m_kernel m) t ph k' ph' -> lucky_move (m_kernel m) t ph ph' ->
  load_ok k' (<[t := ph']> phs).
Proof.
  intros Hi Hl Ht Hm Hlucky q c z y x Hq Hz Hy Hx.
  assert (Hold : exists z', phs !! q = Some z' /\ awaits z' = Some c).
  { apply (change_Some phs t ph ph' Ht) in Hq as [[-> ->] | [_ Hq]]; [|by exists z]. exists ph. split; [done|].
    destruct Hm as [? ? []| | | | | | | | | | | | | | | | | | | | | | |]; try destruct ok; try destruct reap; try destruct exec; try destruct success; try destruct (b_load_fail _); done. }
  destruct Hold as (z' & Hq' & Hz'). assert (Htg : exists r, target z' = Some (c, r)) by (destruct z'; try done; injection Hz' as ->; eauto). destruct Htg as [r Htg].
  destruct (iv_target _ _ _ Hi q z' c r Hq' Htg) as [Hc0 Hp]. pose proof (iv_par _ _ _ Hi c q Hc0 Hp) as Hlt.
  assert (Hnt : forall r, target ph = Some (c, r) -> q = t) by (intros r' Hr'; destruct (iv_target _ _ _ Hi t ph c r' Ht Hr'); congruence).
  apply (change_Some phs t ph ph' Ht) in Hy as [[-> ->] | [Hct Hy]].
  - eapply move_early; [exact Hm|done| |exact (fun x => own_load m phs par t q ph z' x Hi Hc0 Hp Ht Hq')|exact Hx|].
    + intros r' Hr'. specialize (Hnt r' Hr'). lia.
    + intros x0 Hx0. by eapply (Hl q t z' ph x0).
  - destruct (decide (q = t)) as [-> |Hqt].
    + rewrite Ht in Hq'. injection Hq' as <-. rewrite list_lookup_insert_eq in Hq by (by eapply lookup_lt_Some). injection Hq as <-.
      assert (Hf : ph = PFind c /\ bonds k' = bonds (m_kernel m)).
      { destruct Hm as [? ? []| | | | | | | | | | | | | | | | | | | | | | |]; try destruct ok; try destruct reap; try destruct exec; try destruct success; try destruct (b_load_fail _); try done. by injection Hz as ->. }
      destruct Hf as [-> E]. rewrite E in Hx. by eapply (Hl t c _ y x).
    + eapply (Hl q c z' y x); [done..|]. rewrite <- (move_other _ _ _ _ _ _ Hm Hct); [done|]. intros r' Hr'. by specialize (Hnt r' Hr').
Qed.

Lemma load_make m phs par t exec m' : inv m phs par -> load_ok (m_kernel m) phs -> phs !! t = Some (PMake exec) -> made m t exec m' ->
  load_ok (m_kernel m') (<[t := PFind (length (m_progs m))]> phs ++ [child_phase exec]).
Proof.
  intros Hi Hl Ht ->. cbn. set (c := length (m_progs m)). assert (Hc : c = length phs) by (unfold c; by rewrite (iv_progs _ _ _ Hi), length_imap).
  intros q d z y x Hq Hz Hy Hx. apply lookup_app_Some in Hy as [Hy|[_ Hy]]; [|apply list_lookup_singleton_Some in Hy as [_ <-]; right; by destruct exec].
  assert (Hd : (d < c)%nat) by (apply lookup_lt_Some in Hy; rewrite length_insert in Hy; lia). cbn in Hx. rewrite lookup_insert_ne in Hx by lia.
  apply lookup_app_Some in Hq as [Hq|[_ Hq]]; [|apply list_lookup_singleton_Some in Hq as [_ <-]; by destruct exec].
  apply (change_Some phs t _ _ Ht) in Hq as [[-> ->] | [_ Hq]]; [injection Hz as <-; lia|].
  apply (change_Some phs t _ _ Ht) in Hy as [[-> ->] | [_ Hy]]; [|by eapply (Hl q d z y x)]. left. by destruct (Hl q t z (PMake exec) x Hq Hz Ht Hx).
Qed.

Lemma boot_inv : inv boot [PUser 0] [0%nat].
Proof.
  split; cbn; try done.
  - by exists (PUser 0).
  - intros [|c] q Hc; [done|]. by destruct c.
  - by intros q c ?%not_elem_of_nil.
  - intros q. constructor.
  - intros [|q] ph c r; [|by destruct q]. by intros [= <-].
  - intros [|c] q ph ph' Hc; [done|]. by destruct c.
Qed.

Lemma reach_inv m : reach calm m -> exists phs par, inv m phs par /\ logs (m_kernel m) phs par.
Proof.
  induction 1 as [|m a m' _ (phs & par & Hi & Hl) Hc Hs].
  - exists [PUser 0], [0%nat]. split; [apply boot_inv|]. split; cbn; try done; [by intros c v ?%not_elem_of_nil|constructor|by intros q c v ?%not_elem_of_nil|constructor].
  - destruct (step_stepped _ _ _ _ _ Hi Hc Hs) as (phs' & par' & Hi' & Hst). exists phs', par'. split; [done|].
    destruct Hst as [t ph k' ph' Ht Hm _ _|t exec m' Ht Hmade]; [by eapply logs_move|by eapply logs_make].
Qed.

Lemma reach_load m : reach lucky m -> exists phs par, inv m phs par /\ load_ok (m_kernel m) phs.
Proof.
  induction 1 as [|m a m' _ (phs & par & Hi & Hl) Hc Hs].
  - exists [PUser 0], [0%nat]. split; [apply boot_inv|]. intros [|q] c z y x Hq Hz; [|by destruct q]. by injection Hq as <-.
  - pose proof Hc as Hlk. unfold lucky in Hc. apply andb_true_iff in Hc as [Hc _]. destruct (step_stepped _ _ _ _ _ Hi Hc Hs) as (phs' & par' & Hi' & Hst). exists phs', par'. split; [done|].
    destruct Hst as [t ph k' ph' Ht Hm _ Hlm|t exec m' Ht Hmade]; [eapply load_move; eauto|by eapply load_make].
Qed.

(** * Theorems *)

Lemma step_safe m phs par a : inv m phs par -> step m a <> Err Fault /\ step m a <> Err Panic.
Proof.
  intros Hi. destruct a as [t c|t ok|t].
  - cbn. destruct (m_progs m !! t) as [[]|]; try done. by destruct (may_call t c).
  - cbn. by destruct (m_progs m !! t) as [[]|].
  - destruct (phs !! t) as [ph|] eqn:Ht.
    + pose proof (tau_outcome _ _ _ _ _ Hi Ht) as Ho. destruct (step m (Tau t)) as [|[]]; done.
    + cbn. by rewrite (iv_progs _ _ _ Hi), list_lookup_imap, Ht.
Qed.

Definition at_rest (p : prog) : bool := match p with User _ | Gone => true | _ => false end.

Lemma rest_phase t ph : at_rest (code t ph) = true -> target ph = None.
Proof. by destruct ph. Qed.

(** C21: As long as a parent and its child do not exit at the same time in one of
    two ways, no interleaving of forks, executions, waits and exits uses a
    bond after it is freed or frees it twice; and a bond does not outlive
    them: when no process is in the middle of a system call, the bond of a
    process that has exited and that no process has as a child is freed. *)
Theorem process_bonds m (Hm : reach calm m) :
  (forall a, step m a <> Err Fault /\ step m a <> Err Panic) /\
  ((forall t p, m_progs m !! t = Some p -> at_rest p = true) ->
   forall c, m_progs m !! c = Some Gone -> (forall q, c ∉ children (m_kernel m) q) -> bonds (m_kernel m) !! c = None).
Proof.
  destruct (reach_inv m Hm) as (phs & par & Hi & _). split; [intros a; by eapply step_safe|]. intros Hrest c Hc Hno.
  destruct (phs !! c) as [ph|] eqn:Hph; [|by rewrite (iv_progs _ _ _ Hi), list_lookup_imap, Hph in Hc]. rewrite (code_at _ _ _ _ _ Hi Hph) in Hc.
  assert (ph = PGone) as -> by (destruct ph as [| | | | |[]| | | | | | | | | |[]|[]| | | | | | | | | | | | | | | | ]; done).
  assert (Hc0 : c <> 0%nat) by (intros ->; destruct (iv_main _ _ _ Hi) as (x & Hx & ?); rewrite Hph in Hx; by injection Hx as <-).
  destruct (lookup_lt_is_Some_2 par c) as [q Hq]; [rewrite (iv_len _ _ _ Hi); by eapply lookup_lt_Some|].
  destruct (lookup_lt_is_Some_2 phs q) as [y Hy]; [pose proof (iv_par _ _ _ Hi c q Hc0 Hq); apply lookup_lt_Some in Hph; lia|].
  pose proof (iv_agree _ _ _ Hi c q _ y Hc0 Hq Hph Hy) as Ha. unfold role_of in Ha. rewrite (rest_phase q y) in Ha by (eapply Hrest; by apply (code_at _ _ _ _ _ Hi)).
  unfold member in Ha. rewrite bool_decide_eq_false_2 in Ha by done. apply eq_None_not_Some. intros Hs. by apply (ag_some _ _ _ _ _ Ha) in Hs.
Qed.

(** C22: In every run without the two races of [process_exit], [process_wait]
    returns the status with which the child exited, as [process_exit] printed
    it, and at most once for each child; a process exits at most once. *)
Theorem process_wait_status m (Hm : reach calm m) :
  (forall q c v, (q, c, v) ∈ waited (m_kernel m) -> (c, v) ∈ messages (m_kernel m)) /\
  NoDup (waited (m_kernel m)).*1.*2 /\ NoDup (messages (m_kernel m)).*1.
Proof.
  destruct (reach_inv m Hm) as (phs & par & _ & Hl). split; [|split; apply Hl]. intros q c v Hv. by destruct (lg_waited _ _ _ Hl q c v Hv).
Qed.

(** A process that is not gone waits for one that is not gone. *)
Lemma blocked_target m phs par t ph c : inv m phs par -> load_ok (m_kernel m) phs -> phs !! t = Some ph -> step m (Tau t) = Err Block -> target ph = Some (c, RHold) ->
  (t < c)%nat /\ exists y, phs !! c = Some y /\ y <> PGone.
Proof.
  intros Hi Hl Ht Hb Htg. destruct (iv_target _ _ _ Hi t ph c _ Ht Htg) as [Hc0 Hp]. split; [by apply (iv_par _ _ _ Hi)|].
  destruct (target_agree _ _ _ _ _ _ _ Hi Ht Htg) as (y & Hy & Ha). exists y. split; [done|]. intros ->. pose proof (tau_outcome _ _ _ _ _ Hi Ht) as Ho. rewrite Hb in Ho. cbn in Ho.
  destruct (target_bond _ _ _ _ _ Hi Ht _ _ Htg) as [x Hx]. destruct (ag_bond _ _ _ _ _ Ha x Hx) as (_ & _ & He & _). cbn in He.
  destruct ph; try done; injection Htg as ->; cbn in Ho; specialize (Ho x Hx); try lia.
  destruct (Hl t c _ PGone x Ht eq_refl Hy Hx); done.
Qed.

Definition can_act m u : Prop :=
  (exists v, m_progs m !! u = Some (User v)) \/ exists a m', (a = Tau u \/ exists ok, a = Env u ok) /\ step m a = Ok m'.

(** Process [t] waits for its child [c]: it stands at a [sema_down] on the
    [load] or the [exit] semaphore of the child's bond, which is 0. *)
Definition waits_for (m : machine) (t c : nat) : Prop :=
  exists load k x, m_progs m !! t = Some (Down load c k) /\ c ∈ children (m_kernel m) t /\
    bonds (m_kernel m) !! c = Some x /\ (if load then b_load x else b_exit x) = 0.

(** The process acts, is gone, or waits for a child. *)
Lemma acts_or_blocked m phs par t ph : inv m phs par -> phs !! t = Some ph ->
  can_act m t \/ ph = PGone \/ step m (Tau t) = Err Block /\ exists c, target ph = Some (c, RHold) /\ waits_for m t c.
Proof.
  intros Hi Ht. pose proof (tau_outcome _ _ _ _ _ Hi Ht) as Ho. pose proof (code_at _ _ _ _ _ Hi Ht) as Hp.
  destruct (step m (Tau t)) as [m'|[]] eqn:Es; [left; right; eauto|done..|]. cbn in Ho.
  assert (Hw : forall c load k, target ph = Some (c, RHold) -> m_progs m !! t = Some (Down load c k) ->
    (forall x, bonds (m_kernel m) !! c = Some x -> (if load then b_load x else b_exit x) = 0) -> exists c, target ph = Some (c, RHold) /\ waits_for m t c).
  { intros c load k Hc Hd Hz. exists c. split; [done|]. destruct (target_bond _ _ _ _ _ Hi Ht _ _ Hc) as [x Hx]. exists load, k, x. split_and!; auto.
    by eapply bool_decide_eq_true_1, (target_member _ _ _ _ _ _ _ true Hi Ht Hc). }
  destruct ph; try done; cbn in Hp; try (left; left; by eexists); try (by right; left); try (left; right; exists (Env t true); eexists; split; [eauto|cbn; by rewrite Hp]);
    right; right; (split; [done|]); by eapply Hw.
Qed.

(** C23: Nobody is forgotten. In every state reached without the two races of
    [process_exit], with a page for the command line of every new process
    and no semaphore at its maximum: from each process that is not gone, the
    chain of children waited for, each process of the chain standing at a
    [sema_down] on a semaphore of the next one's bond that is 0, leads to a
    process that runs its program or can take its next step. So no process
    waits for one that is gone, and no processes wait for each other. *)
Theorem process_progress m (Hm : reach lucky m) t p (Ht : m_progs m !! t = Some p) (Hp : p <> Gone) :
  exists u, rtc (waits_for m) t u /\ can_act m u.
Proof.
  destruct (reach_load m Hm) as (phs & par & Hi & Hl). destruct (phs !! t) as [ph|] eqn:Hph; [|by rewrite (iv_progs _ _ _ Hi), list_lookup_imap, Hph in Ht].
  assert (Hng : ph <> PGone) by (intros ->; rewrite (code_at _ _ _ _ _ Hi Hph) in Ht; cbn in Ht; congruence). clear p Ht Hp.
  remember (length phs - t)%nat as n eqn:Hn. revert t ph Hph Hng Hn. induction n as [n IH] using lt_wf_ind. intros t ph Hph Hng Hn.
  destruct (acts_or_blocked _ _ _ _ _ Hi Hph) as [Ha|[?|[Hb (c & Hc & Hw)]]]; [by exists t; split; [apply rtc_refl|]|done|].
  destruct (blocked_target _ _ _ _ _ _ Hi Hl Hph Hb Hc) as [Hlt (y & Hy & Hyg)]. pose proof (lookup_lt_Some _ _ _ Hy).
  destruct (IH (length phs - c)%nat ltac:(lia) c y Hy Hyg eq_refl) as (u & Hu & Hact). exists u. split; [by eapply rtc_l|done].
Qed.

(** * The two races *)

Lemma run_step m a l m' : step m a = Ok m' -> run m (a :: l) = run m' l.
Proof. intros E. cbn [run]. by rewrite E. Qed.

Lemma tau_drop m t b f x : m_progs m !! t = Some (Drop b f) -> bonds (m_kernel m) !! b = Some x ->
  exists m', step m (Tau t) = Ok m' /\ m_progs m' = <[t := f (s32 (b_ref x - 1) =? 0)]> (m_progs m) /\ is_Some (bonds (m_kernel m') !! b).
Proof.
  intros Hp Hx. cbn [step]. rewrite Hp. unfold is_orphan_or_zombie, get_bond. rewrite Hx. eexists. split; [reflexivity|]. split; [done|]. cbn. rewrite lookup_insert_eq. eauto.
Qed.

Lemma tau_unlink m t b p : m_progs m !! t = Some (Unlink b p) -> is_Some (bonds (m_kernel m) !! b) ->
  exists m', step m (Tau t) = Ok m' /\ m_progs m' = <[t := p]> (m_progs m) /\ is_Some (bonds (m_kernel m') !! b).
Proof. intros Hp [x Hx]. cbn [step]. rewrite Hp. unfold remove_child, get_bond. rewrite Hx. eexists. split; [reflexivity|]. cbn. eauto. Qed.

Lemma tau_free m t b p : m_progs m !! t = Some (Free b p) -> is_Some (bonds (m_kernel m) !! b) ->
  exists m', step m (Tau t) = Ok m' /\ m_progs m' = <[t := p]> (m_progs m) /\ bonds (m_kernel m') !! b = None.
Proof. intros Hp [x Hx]. cbn [step]. rewrite Hp. unfold free_bond, get_bond. rewrite Hx. eexists. split; [reflexivity|]. split; [done|]. cbn. apply lookup_delete_eq. Qed.

(** A parent that exits gives up its reference while the child has given up
    its own and is about to call [sema_up]: the parent frees the bond, and
    the child then uses it. *)
Definition race_up (m : machine) (t b : nat) : Prop :=
  exists m' k, run m [Tau t; Tau t; Tau t] = Ok m' /\ bonds (m_kernel m') !! b = None /\
    m_progs m' !! b = Some (Up false b k) /\ step m' (Tau b) = Err Fault.

Lemma race_drop m phs par t b reap : inv m phs par -> phs !! t = Some (PDrop b) -> phs !! b = Some (PUp reap) -> race_up m t b.
Proof.
  intros Hi Ht Hb. pose proof (code_at _ _ _ _ _ Hi Ht) as Ct. pose proof (code_at _ _ _ _ _ Hi Hb) as Cb.
  destruct (target_bond _ _ _ _ _ Hi Ht b RHold eq_refl) as [x Hx]. pose proof (target_member _ _ _ _ _ b RHold true Hi Ht eq_refl eq_refl) as Hmem.
  destruct (target_agree _ _ _ _ _ b RHold Hi Ht eq_refl) as (y & Hy & Ha). rewrite Hb in Hy. injection Hy as <-.
  destruct (ag_bond _ _ _ _ _ Ha x Hx) as (_ & Href & _). rewrite Hmem in Href. cbn in Href.
  assert (Hne : t <> b) by (intros ->; congruence). pose proof (lookup_lt_Some _ _ _ Ct) as Hlt.
  destruct (tau_drop m t b _ x Ct Hx) as (m1 & E1 & P1 & B1). rewrite Href in P1.
  destruct (tau_unlink m1 t b (Free b (Children (leave t)))) as (m2 & E2 & P2 & B2); [rewrite P1; by apply list_lookup_insert_eq|done|].
  destruct (tau_free m2 t b (Children (leave t))) as (m3 & E3 & P3 & B3); [rewrite P2, P1, list_insert_insert_eq; by apply list_lookup_insert_eq|done|].
  assert (Cb' : m_progs m3 !! b = Some (code b (PUp reap))) by (by rewrite P3, P2, P1, !list_lookup_insert_ne).
  eexists m3, _. split; [by rewrite (run_step _ _ _ _ E1), (run_step _ _ _ _ E2), (run_step _ _ _ _ E3)|]. split; [exact B3|]. split; [exact Cb'|].
  cbn [step]. rewrite Cb'. cbn. unfold bond_up, get_bond. by rewrite B3.
Qed.

(** A child that exits frees its bond while the parent, which has given up
    its reference, is about to call [list_remove], and then uses it. *)
Definition race_unlink (m : machine) (t q : nat) : Prop :=
  exists m' k, step m (Tau t) = Ok m' /\ bonds (m_kernel m') !! t = None /\
    m_progs m' !! q = Some (Unlink t k) /\ step m' (Tau q) = Err Fault.

Lemma race_self m phs par t q reap : inv m phs par -> phs !! t = Some PSelf -> phs !! q = Some (PRemove t reap) -> race_unlink m t q.
Proof.
  intros Hi Ht Hq. pose proof (code_at _ _ _ _ _ Hi Ht) as Ct. pose proof (code_at _ _ _ _ _ Hi Hq) as Cq.
  destruct (target_bond _ _ _ _ _ Hi Hq t (RRemove reap) eq_refl) as [x Hx].
  assert (Hne : t <> q) by (intros ->; congruence). destruct (tau_free m t t Gone Ct) as (m1 & E1 & P1 & B1); [eauto|].
  assert (Cq' : m_progs m1 !! q = Some (code q (PRemove t reap))) by (by rewrite P1, list_lookup_insert_ne).
  eexists m1, _. split; [done|]. split; [done|]. split; [exact Cq'|]. cbn [step]. rewrite Cq'. cbn. unfold remove_child, get_bond. by rewrite B1.
Qed.

Lemma taken_gone m phs par t ph b r y : inv m phs par -> phs !! t = Some ph -> target ph = Some (b, r) -> taken r = true -> phs !! b = Some y -> side_of y = SGone.
Proof.
  intros Hi Ht Hr Hk Hb. destruct (target_agree _ _ _ _ _ _ _ Hi Ht Hr) as (z & Hz & Ha). rewrite Hb in Hz. injection Hz as <-. by apply (ag_taken _ _ _ _ _ Ha).
Qed.

Lemma is_up_phase m phs par b : inv m phs par -> is_up (m_progs m !! b) = true -> exists reap, phs !! b = Some (PUp reap).
Proof.
  intros Hi. rewrite (iv_progs _ _ _ Hi), list_lookup_imap. destruct (phs !! b) as [y|]; [|done]. cbn.
  destruct y; try done; eauto.
Qed.

Lemma unlinks_phase m phs par t : inv m phs par -> phs !! t = Some PSelf -> forallb (fun p => negb (unlinks t p)) (m_progs m) = false ->
  exists q reap, phs !! q = Some (PRemove t reap).
Proof.
  intros Hi Ht Hf. assert (Hex : exists q p, m_progs m !! q = Some p /\ unlinks t p = true).
  { revert Hf. generalize (m_progs m). induction l as [|p l IH]; cbn; [done|]. destruct (unlinks t p) eqn:E; [exists 0%nat, p; done|]. intros (q & p' & ? & ?)%IH. by exists (S q), p'. }
  destruct Hex as (q & p & Hq & Hu). rewrite (iv_progs _ _ _ Hi), list_lookup_imap in Hq. destruct (phs !! q) as [y|] eqn:Hy; [|done]. injection Hq as <-. exists q. rewrite Hy.
  destruct y; try done; cbn in Hu; apply Nat.eqb_eq in Hu as ->; try (by eexists);
    by pose proof (taken_gone _ _ _ _ _ _ _ _ Hi Hy eq_refl eq_refl Ht).
Qed.

(** What [calm] excludes, in terms of phases. *)
Lemma not_calm_phases m phs par t : inv m phs par -> calm m (Tau t) = false ->
  (exists b reap, phs !! t = Some (PDrop b) /\ phs !! b = Some (PUp reap)) \/ phs !! t = Some PSelf /\ exists q reap, phs !! q = Some (PRemove t reap).
Proof.
  intros Hi Hc. cbn in Hc. destruct (phs !! t) as [ph|] eqn:Ht; [|by rewrite (iv_progs _ _ _ Hi), list_lookup_imap, Ht in Hc].
  rewrite (code_at _ _ _ _ _ Hi Ht) in Hc.
  assert (Hself : forall r, target ph <> Some (t, r)) by (intros r Hr; destruct (iv_target _ _ _ Hi t ph t r Ht Hr) as [H0 Hp]; pose proof (iv_par _ _ _ Hi t t H0 Hp); lia).
  destruct ph; try done; cbn in Hc; try (apply orb_false_iff in Hc as [Hb%negb_false_iff%Nat.eqb_eq _]; subst; by destruct (Hself _ eq_refl)).
  - apply orb_false_iff in Hc as [_ Hc%negb_false_iff]. destruct (is_up_phase _ _ _ _ Hi Hc) as [reap Hb]. left. by exists b, reap.
  - by rewrite Nat.eqb_refl in Hc.
  - rewrite Nat.eqb_refl in Hc. right. split; [done|]. by eapply unlinks_phase.
  - apply orb_false_iff in Hc as [_ Hc%negb_false_iff]. destruct (is_up_phase _ _ _ _ Hi Hc) as [reap Hb].
    by pose proof (taken_gone _ _ _ _ _ _ _ _ Hi Ht eq_refl eq_refl Hb).
Qed.

(** C37: The two races of [process_exit] are bugs wherever they can happen: in
    every state reached without them in which the next step of process [t]
    is one of them, that step leads to a use of a freed bond. Either [t]
    drops its reference to the bond of its child [u], unlinks and frees it,
    and then the child's [sema_up] accesses the freed bond; or [t] frees its
    own bond and then its parent [u] calls [list_remove] on it. *)
Theorem process_exit_races m (Hm : reach calm m) t (Ht : calm m (Tau t) = false) :
  exists u, race_up m t u \/ race_unlink m t u.
Proof.
  destruct (reach_inv m Hm) as (phs & par & Hi & _). destruct (not_calm_phases m phs par t Hi Ht) as [(b & reap & Hb & Hu)|(Hs & q & reap & Hq)].
  - exists b. left. by eapply race_drop.
  - exists q. right. by eapply race_self.
Qed.

End ProcessProps.

(** Runs of processes: one in which a parent waits for its child, the two
    races of [process_exit], and a new process without memory. *)

Module ProcessDemo.
Import Process ProcessProps.

Definition taus (n t : nat) : list action := replicate n (Tau t).

(** The first thread starts process 1, which forks process 2. *)
Definition family : list action :=
  [Sys 0 Exec; Env 0 true; Env 0 true; Tau 0; Env 1 true; Env 1 true; Tau 1; Tau 1; Env 1 true] ++ taus 3 0 ++
  [Sys 1 Fork; Env 1 true; Tau 1; Env 2 true; Tau 2; Tau 2] ++ taus 3 1.

(** Process 2 exits while process 1 waits for it. *)
Definition wait_run : list action :=
  family ++ [Sys 1 (Wait 2); Tau 1; Sys 2 (Exit 7)] ++ taus 5 2 ++ taus 5 1.

Fixpoint run_all (ok : machine -> action -> bool) (m : machine) (l : list action) : res machine :=
  match l with
  | [] => Ok m
  | a :: l => if ok m a then let* m' := step m a in run_all ok m' l else Err Panic
  end.

Lemma run_all_reach ok m l m' : reach ok m -> run_all ok m l = Ok m' -> reach ok m'.
Proof.
  revert m. induction l as [|a l IH]; intros m Hm; cbn; [by intros [= <-]|]. destruct (ok m a) eqn:Ha; [|done]. destruct (step m a) as [m1|] eqn:Hs; [|done].
  cbn. apply IH. by eapply reach_step.
Qed.

Definition waited_machine : machine := match run_all lucky boot wait_run with Ok m => m | Err _ => boot end.

Lemma lucky_calm m : reach lucky m -> reach calm m.
Proof. induction 1 as [|m a m' _ IH Ha Hs]; [apply reach_boot|]. eapply reach_step; [exact IH| |exact Hs]. by apply andb_true_iff in Ha as [? _]. Qed.

Lemma waited_reach : reach lucky waited_machine.
Proof.
  unfold waited_machine. destruct (run_all lucky boot wait_run) as [m|] eqn:E; [|apply reach_boot]. eapply run_all_reach; [apply reach_boot|exact E].
Qed.

Lemma process_wait_status_witness : (1%nat, 2%nat, 7) ∈ waited (m_kernel waited_machine) /\ (2%nat, 7) ∈ messages (m_kernel waited_machine).
Proof.
  destruct (process_wait_status waited_machine (lucky_calm _ waited_reach)) as [Hw _].
  assert (H : waited (m_kernel waited_machine) = [(1%nat, 2%nat, 7)]) by (vm_compute; reflexivity). split; [rewrite H; left|].
  apply (Hw 1%nat). rewrite H. left.
Defined.

Lemma not_in_nil (l : list nat) (x : nat) : l = [] -> x ∉ l.
Proof. intros ->. apply not_elem_of_nil. Qed.

Lemma not_in_single (l : list nat) (y x : nat) : l = [y] -> x <> y -> x ∉ l.
Proof. intros -> Hne Hx. by apply list_elem_of_singleton in Hx. Qed.

Lemma process_bonds_witness : bonds (m_kernel waited_machine) !! 2%nat = None.
Proof.
  destruct (process_bonds waited_machine (lucky_calm _ waited_reach)) as [_ Hb]. apply Hb.
  - intros [|[|[|t]]] p; vm_compute; intros E; inversion E; reflexivity.
  - vm_compute. reflexivity.
  - intros [|[|q]].
    + apply (not_in_single _ 1); [vm_compute; reflexivity|discriminate].
    + apply not_in_nil. vm_compute. reflexivity.
    + apply not_in_nil. vm_compute. reflexivity.
Defined.

(** Process 1 waits for process 2, and the first thread for process 1. *)
Definition waiting_run : list action := [Sys 0 (Wait 1); Tau 0] ++ [Sys 1 (Wait 2); Tau 1].
Definition waiting_machine : machine :=
  match run_all lucky boot (family ++ waiting_run) with Ok m => m | Err _ => boot end.

Lemma waiting_reach : reach lucky waiting_machine.
Proof.
  unfold waiting_machine. destruct (run_all lucky boot _) as [m|] eqn:E; [|apply reach_boot]. eapply run_all_reach; [apply reach_boot|exact E].
Qed.

Lemma waiting_waits : waits_for waiting_machine 0 1 /\ waits_for waiting_machine 1 2.
Proof. split; (eexists _, _, _; split; [vm_compute; reflexivity|]; split; [vm_compute; constructor|]; split; [vm_compute; reflexivity|reflexivity]). Qed.

(** The chain from the first thread ends at process 2, which runs its program. *)
Lemma process_progress_witness : waits_for waiting_machine 0 1 /\ waits_for waiting_machine 1 2 /\
  exists u, rtc (waits_for waiting_machine) 0%nat u /\ can_act waiting_machine u.
Proof.
  destruct waiting_waits as [H0 H1]. split; [exact H0|]. split; [exact H1|]. destruct H0 as (load & k & x & Hp & _).
  apply (process_progress waiting_machine waiting_reach 0 (Down load 1 k) Hp). discriminate.
Defined.

(** * Races *)

(** The child has given up its reference, and the parent is about to. *)
Definition drop_run : list action := family ++ [Sys 2 (Exit 7)] ++ taus 4 2 ++ [Sys 1 (Exit 0)] ++ taus 3 1.
Definition drop_machine : machine := match run_all calm boot drop_run with Ok m => m | Err _ => boot end.

(** The parent has given up its reference, and the child is about to free
    the bond. *)
Definition self_run : list action := family ++ [Sys 1 (Exit 0)] ++ taus 4 1 ++ [Sys 2 (Exit 7)] ++ taus 5 2.
Definition self_machine : machine := match run_all calm boot self_run with Ok m => m | Err _ => boot end.

Lemma drop_reach : reach calm drop_machine.
Proof. unfold drop_machine. destruct (run_all calm boot _) as [m|] eqn:E; [|apply reach_boot]. eapply run_all_reach; [apply reach_boot|exact E]. Qed.
Lemma self_reach : reach calm self_machine.
Proof. unfold self_machine. destruct (run_all calm boot _) as [m|] eqn:E; [|apply reach_boot]. eapply run_all_reach; [apply reach_boot|exact E]. Qed.

Lemma process_exit_races_witness :
  (exists u, race_up drop_machine 1 u \/ race_unlink drop_machine 1 u) /\
  (exists u, race_up self_machine 2 u \/ race_unlink self_machine 2 u).
Proof.
  split; [apply (process_exit_races drop_machine drop_reach)|apply (process_exit_races self_machine self_reach)]; vm_compute; reflexivity.
Defined.

(** When [process_start] finds no page for the command line, the new process
    exits without notifying its parent: after the first thread has called
    [process_execute], it waits for ever, and nothing can happen any more. *)
Theorem process_start_no_page : exists m,
  run boot ([Sys 0 Exec; Env 0 true; Env 0 true; Tau 0; Tau 0; Env 1 false] ++ taus 5 1) = Ok m /\
  m_progs m !! 1%nat = Some Gone /\ (exists k, m_progs m !! 0%nat = Some (Down true 1 k)) /\
  forall a, step m a = Err Block.
Proof.
  eexists. split; [vm_compute; reflexivity|]. split; [reflexivity|]. split; [eexists; reflexivity|].
  intros [t c|t ok|t]; destruct t as [|[|t]]; reflexivity.
Qed.

End ProcessDemo.
