(* ===== verification/Queue.v ===== *)
(** The bounded queue of the read-ahead daemon (src/src/lib/kernel/queue.c,
    src/src/lib/kernel/queue.h).

    The model has the C fields; [queue_contents] is what the queue
    holds.  The specification is a bounded list ([aqueue]); the result
    is that the ring buffer, under any interleaving of calls by any
    number of threads, is that bounded list. *)

From stdpp Require Import options.
From S2P Require Import Prelude Ring Monitor.

Record array_queue := mkQueue {
  q_buffer : list Z;
  q_capacity : Z;
  q_discard_mode : bool;
  q_head : Z;
  q_tail : Z;
}.

Inductive queue_cond := q_items_avail | q_slots_avail.

#[global] Instance queue_cond_eq_dec : EqDecision queue_cond.
Proof. solve_decision. Defined.

Inductive queue_op := Enqueue (item : Z) | Dequeue | Peek.

(** What a thread got from its last call. *)
Inductive queue_ret := Nothing | Item (x : Z).

Abbreviation q_segment D := (segment D queue_cond queue_ret).

(** [malloc] returns [None] or [capacity + 1] words; without memory the
    calling thread exits. *)
Definition queue_init (mem : option (list Z)) (capacity : Z) (discard_mode : bool)
    : option array_queue :=
  match mem with
  | Some buffer => Some (mkQueue buffer (u32 (capacity + 1)) discard_mode 0 0)
  | None => None
  end.

Definition queue_empty (q : array_queue) : bool := q_head q =? q_tail q.

Definition queue_full (q : array_queue) : bool :=
  q_head q =? u32 (q_tail q + 1) mod q_capacity q.

Definition queue_peek (q : array_queue) : q_segment array_queue :=
  if negb (queue_empty q) then
    match q_buffer q !! Z.to_nat (u32 (q_head q + 1) mod q_capacity q) with
    | Some item => Leave q [] (Item item)
    | None => Crash
    end
  else Leave q [] (Item (u32 (-1))).

Definition queue_dequeue (q : array_queue) : q_segment array_queue :=
  if queue_empty q then Sleep q q_items_avail
  else
    let head := u32 (q_head q + 1) mod q_capacity q in
    match q_buffer q !! Z.to_nat head with
    | Some item =>
        Leave (mkQueue (q_buffer q) (q_capacity q) (q_discard_mode q) head (q_tail q))
          [One q_slots_avail] (Item item)
    | None => Crash
    end.

(** The [while (queue_full (queue))] loop and the rest of
    [queue_enqueue]. *)
Definition queue_enqueue_loop (item : Z) (q : array_queue) : q_segment array_queue :=
  if queue_full q then Sleep q q_slots_avail
  else
    let tail := u32 (q_tail q + 1) mod q_capacity q in
    Leave (mkQueue (<[Z.to_nat tail := item]> (q_buffer q)) (q_capacity q)
             (q_discard_mode q) (q_head q) tail)
      [One q_items_avail] Nothing.

Definition queue_enqueue (item : Z) (q : array_queue) : q_segment array_queue :=
  if q_discard_mode q && queue_full q then Leave q [] Nothing
  else queue_enqueue_loop item q.

#[global] Instance queue_routines : Routines array_queue queue_cond queue_op queue_ret := {
  enter op _ q :=
    match op with
    | Enqueue x => queue_enqueue x q
    | Dequeue => queue_dequeue q
    | Peek => queue_peek q
    end;
  resume op q :=
    match op with
    | Enqueue x => queue_enqueue_loop x q
    | Dequeue => queue_dequeue q
    | Peek => queue_peek q
    end;
  allowed _ _ := true;
}.

(** * The bounded list *)

Record aqueue := mkAqueue {
  a_items : list Z;
  a_room : Z;      (** how many items fit *)
  a_discard : bool;
}.

Definition a_full (a : aqueue) : bool := Z.of_nat (length (a_items a)) =? a_room a.

Definition a_peek (a : aqueue) : q_segment aqueue :=
  match a_items a with
  | [] => Leave a [] (Item (2 ^ 32 - 1))
  | x :: _ => Leave a [] (Item x)
  end.

Definition a_dequeue (a : aqueue) : q_segment aqueue :=
  match a_items a with
  | [] => Sleep a q_items_avail
  | x :: l => Leave (mkAqueue l (a_room a) (a_discard a)) [One q_slots_avail] (Item x)
  end.

Definition a_append (x : Z) (a : aqueue) : q_segment aqueue :=
  if a_full a then Sleep a q_slots_avail
  else Leave (mkAqueue (a_items a ++ [x]) (a_room a) (a_discard a))
         [One q_items_avail] Nothing.

Definition a_enqueue (x : Z) (a : aqueue) : q_segment aqueue :=
  if a_discard a && a_full a then Leave a [] Nothing else a_append x a.

#[global] Instance aqueue_routines : Routines aqueue queue_cond queue_op queue_ret := {
  enter op _ a :=
    match op with Enqueue x => a_enqueue x a | Dequeue => a_dequeue a | Peek => a_peek a end;
  resume op a :=
    match op with Enqueue x => a_append x a | Dequeue => a_dequeue a | Peek => a_peek a end;
  allowed _ _ := true;
}.

(** * Refinement *)

Definition queue_contents (q : array_queue) : aqueue :=
  mkAqueue (ring_items 0 (q_capacity q) (q_head q) (q_tail q) (q_buffer q))
    (q_capacity q - 1) (q_discard_mode q).

Definition queue_wf (q : array_queue) : Prop :=
  ring_wf (q_capacity q) (q_head q) (q_tail q) (q_buffer q).

Lemma lookup_slot (buf : list Z) (i : Z) :
  0 <= i < Z.of_nat (length buf) -> buf !! Z.to_nat i = Some (slot 0 buf i).
Proof.
  intros. destruct (lookup_lt_is_Some_2 buf (Z.to_nat i)) as [x Hx]; [lia|].
  rewrite Hx. f_equal. unfold slot. by rewrite nth_lookup, Hx.
Qed.

Section queue_refinement.
Context (q : array_queue) (Hwf : queue_wf q).

Lemma queue_empty_items : queue_empty q = true <-> a_items (queue_contents q) = [].
Proof using Hwf. unfold queue_empty. rewrite Z.eqb_eq. by apply ring_empty. Qed.

Lemma next_no_wrap i : 0 <= i < q_capacity q -> u32 (i + 1) = i + 1.
Proof using Hwf. destruct Hwf. intros. apply u32_small. lia. Qed.

Lemma queue_full_items : queue_full q = a_full (queue_contents q).
Proof using Hwf.
  unfold queue_full, a_full. destruct Hwf as [? ? ? Ht]. rewrite next_no_wrap by done.
  cbn. apply eq_bool_prop_intro. rewrite !Is_true_true, !Z.eqb_eq. by apply ring_full.
Qed.

Lemma queue_dequeue_refines :
  seg_good queue_wf (queue_dequeue q) /\
  a_dequeue (queue_contents q) = seg_map queue_contents (queue_dequeue q).
Proof using Hwf.
  unfold queue_dequeue, a_dequeue. destruct (queue_empty q) eqn:He.
  { apply queue_empty_items in He. by rewrite He. }
  pose proof Hwf as [? Hb ? ?]. rewrite next_no_wrap by done.
  unfold queue_empty in He. apply Z.eqb_neq in He.
  destruct (ring_pop 0 _ _ _ _ Hwf He) as [Hpop Hwf'].
  rewrite lookup_slot by (rewrite Hb; apply Z.mod_pos_bound; lia).
  cbn. rewrite Hpop. split; [done|]. unfold queue_contents. cbn. done.
Qed.

Lemma queue_peek_refines :
  seg_good queue_wf (queue_peek q) /\
  a_peek (queue_contents q) = seg_map queue_contents (queue_peek q).
Proof using Hwf.
  unfold queue_peek, a_peek. destruct (queue_empty q) eqn:He; cbn [negb].
  { apply queue_empty_items in He. by rewrite He. }
  pose proof Hwf as [? Hb ? ?]. rewrite next_no_wrap by done.
  unfold queue_empty in He. apply Z.eqb_neq in He.
  destruct (ring_pop 0 _ _ _ _ Hwf He) as [Hpop _].
  rewrite lookup_slot by (rewrite Hb; apply Z.mod_pos_bound; lia).
  cbn. by rewrite Hpop.
Qed.

Lemma queue_enqueue_loop_refines x :
  seg_good queue_wf (queue_enqueue_loop x q) /\
  a_append x (queue_contents q) = seg_map queue_contents (queue_enqueue_loop x q).
Proof using Hwf.
  unfold queue_enqueue_loop, a_append. rewrite <- queue_full_items.
  destruct (queue_full q) eqn:Hf; [done|].
  pose proof Hwf as [? ? ? Ht]. unfold queue_full in Hf.
  rewrite next_no_wrap in * by done. apply Z.eqb_neq in Hf.
  destruct (ring_push 0 _ _ _ _ x Hwf Hf) as [Hpush Hwf'].
  split; [done|]. unfold queue_contents. cbn. by rewrite Hpush.
Qed.
End queue_refinement.

#[global] Instance queue_refines : Refines queue_contents queue_wf.
Proof.
  split.
  - intros op l q Hwf. destruct op as [x| |]; cbn.
    + unfold queue_enqueue, a_enqueue. rewrite <- queue_full_items by done.
      cbn. destruct (q_discard_mode q && queue_full q); [done|].
      by apply queue_enqueue_loop_refines.
    + by apply queue_dequeue_refines.
    + by apply queue_peek_refines.
  - intros op q Hwf. destruct op as [x| |]; cbn.
    + by apply queue_enqueue_loop_refines.
    + by apply queue_dequeue_refines.
    + by apply queue_peek_refines.
  - done.
Qed.

Definition queue_start {D : Type} (n : nat) (d : D) : mon D queue_cond queue_op queue_ret :=
  mkMon d (fun _ => []) (replicate n (Idle Nothing)).

(** Every interleaving of calls by [n] threads on a new queue is the
    same interleaving on an empty bounded list. *)
Theorem queue_run_refines (n : nat) (buffer : list Z) (capacity : Z) (discard : bool)
    (q : array_queue) (acts : list (action queue_op))
    (Hcap : 0 <= capacity < 2 ^ 32 - 1)
    (Hbuf : Z.of_nat (length buffer) = capacity + 1)
    (Hq : queue_init (Some buffer) capacity discard = Some q) :
  mrun (queue_start n (mkAqueue [] capacity discard)) acts =
    rmap (mon_map queue_contents) (mrun (queue_start n q) acts).
Proof.
  cbn in Hq. rewrite u32_small in Hq by lia. injection Hq as <-.
  rewrite <- (mrun_refines queue_contents queue_wf).
  - f_equal. unfold mon_map, queue_start, queue_contents. cbn.
    assert (Hwf : ring_wf (capacity + 1) 0 0 buffer) by (split; lia).
    rewrite (proj1 (ring_empty 0 _ _ _ _ Hwf) eq_refl).
    by replace (capacity + 1 - 1) with capacity by lia.
  - by split; cbn; lia.
Qed.

Lemma queue_run_refines_witness :
  mrun (queue_start 2 (mkAqueue [] 2 true))
    [Call 0 (Enqueue 7); Call 0 (Enqueue 8); Call 0 (Enqueue 9); Call 1 Dequeue] =
  rmap (mon_map queue_contents)
    (mrun (queue_start 2 (mkQueue [0; 0; 0] 3 true 0 0))
      [Call 0 (Enqueue 7); Call 0 (Enqueue 8); Call 0 (Enqueue 9); Call 1 Dequeue]).
Proof.
  apply (queue_run_refines 2 [0; 0; 0] 2 true); [lia|reflexivity|reflexivity].
Defined.
