(* ===== verification/Pipe.v ===== *)
(** Pipes (src/src/filesys/pipe.c, src/src/filesys/pipe.h).

    A [pipe] has the C fields; the monitor lock and the two condition
    variables are those of [Monitor].  [pipe_dequeue] and [pipe_enqueue]
    are monitor routines.  [pipe_close] touches the pipe three times
    without holding the lock throughout: it clears an end, it signals
    under the lock, and it frees the pipe when both ends are clear; each
    of the three is a step of its own.  [pipe_read] and [pipe_write] are
    the loops over bytes, for a caller that finds what it needs in the
    pipe. *)

From stdpp Require Import options.
From S2P Require Import Prelude Ring Monitor Queue.

Record pipe := mkPipe {
  p_buffer : list Z;
  p_capacity : Z;
  p_head : Z;
  p_tail : Z;
  p_read_end : option Z;   (** the [struct file] of the end, by address *)
  p_write_end : option Z;
  p_freed : bool;          (** storage returned to [free] *)
}.

Inductive pipe_cond := items_avail | slots_avail.

#[global] Instance pipe_cond_eq_dec : EqDecision pipe_cond.
Proof. solve_decision. Defined.

Inductive pipe_op :=
| PEnqueue (item : Z)
| PDequeue
| PClearEnd (file : Z)   (** [pipe->read_end = NULL] or [pipe->write_end = NULL] *)
| PNotify                (** the [cond_signal] of [pipe_close] *)
| PFree.                 (** the final test of [pipe_close] *)

(** Where a thread is between two steps of [pipe_close], or what its
    last call returned. *)
Inductive pipe_ret :=
| PNothing
| PItem (x : Z)
| PClosing (c : option pipe_cond)   (** the end is cleared, [c] is to be signalled *)
| PNotified.

Abbreviation p_segment D := (segment D pipe_cond pipe_ret).

Definition pipe_create (mem : option unit) (mem_buffer : option (list Z)) (capacity : Z)
    : option pipe :=
  match mem, mem_buffer with
  | Some _, Some buffer => Some (mkPipe buffer (u32 (capacity + 1)) 0 0 None None false)
  | _, _ => None
  end.

Definition pipe_empty (p : pipe) : bool := p_head p =? p_tail p.

Definition pipe_full (p : pipe) : bool :=
  p_head p =? u32 (p_tail p + 1) mod p_capacity p.

Definition pipe_dequeue (p : pipe) : p_segment pipe :=
  if p_freed p then Crash
  else if pipe_empty p then
    match p_write_end p with
    | None => Leave p [] (PItem 0)
    | Some _ => Sleep p items_avail
    end
  else
    let head := u32 (p_head p + 1) mod p_capacity p in
    match p_buffer p !! Z.to_nat head with
    | Some item =>
        Leave (mkPipe (p_buffer p) (p_capacity p) head (p_tail p)
                 (p_read_end p) (p_write_end p) (p_freed p))
          [One slots_avail] (PItem item)
    | None => Crash
    end.

Definition pipe_enqueue (item : Z) (p : pipe) : p_segment pipe :=
  if p_freed p then Crash
  else if pipe_full p then
    match p_read_end p with
    | None => Leave p [] PNothing
    | Some _ => Sleep p slots_avail
    end
  else
    let tail := u32 (p_tail p + 1) mod p_capacity p in
    Leave (mkPipe (<[Z.to_nat tail := item]> (p_buffer p)) (p_capacity p) (p_head p) tail
             (p_read_end p) (p_write_end p) (p_freed p))
      [One items_avail] PNothing.

Definition pipe_open (mem : option unit) (mem_buffer : option (list Z))
    (ends : option (Z * Z)) : option pipe :=
  match pipe_create mem mem_buffer 4095, ends with
  | Some p, Some (read_end, write_end) =>
      Some (mkPipe (p_buffer p) (p_capacity p) (p_head p) (p_tail p)
              (Some read_end) (Some write_end) (p_freed p))
  | _, _ => None
  end.

(** The end is cleared without the lock of the pipe, by one store, which is a
    segment of its own. *)
Definition pipe_clear_end (file : Z) (p : pipe) : p_segment pipe :=
  if p_freed p then Crash
  else if decide (p_read_end p = Some file) then
    Leave (mkPipe (p_buffer p) (p_capacity p) (p_head p) (p_tail p)
             None (p_write_end p) (p_freed p)) [] (PClosing (Some slots_avail))
  else if decide (p_write_end p = Some file) then
    Leave (mkPipe (p_buffer p) (p_capacity p) (p_head p) (p_tail p)
             (p_read_end p) None (p_freed p)) [] (PClosing (Some items_avail))
  else Leave p [] (PClosing None).

Definition pipe_notify (r : pipe_ret) (p : pipe) : p_segment pipe :=
  match r with
  | PClosing (Some c) => if p_freed p then Crash else Leave p [One c] PNotified
  | _ => Leave p [] PNotified
  end.

Definition pipe_free (p : pipe) : p_segment pipe :=
  if p_freed p then Crash
  else
    match p_read_end p, p_write_end p with
    | None, None =>
        Leave (mkPipe (p_buffer p) (p_capacity p) (p_head p) (p_tail p) None None true)
          [] PNothing
    | _, _ => Leave p [] PNothing
    end.

Definition pipe_allowed (op : pipe_op) (r : pipe_ret) : bool :=
  match op, r with
  | PNotify, PClosing _ => true
  | PFree, PNotified => true
  | (PEnqueue _ | PDequeue | PClearEnd _), (PNothing | PItem _) => true
  | _, _ => false
  end.

#[global] Instance pipe_routines : Routines pipe pipe_cond pipe_op pipe_ret := {
  enter op r p :=
    match op with
    | PEnqueue x => pipe_enqueue x p
    | PDequeue => pipe_dequeue p
    | PClearEnd f => pipe_clear_end f p
    | PNotify => pipe_notify r p
    | PFree => pipe_free p
    end;
  resume op p :=
    match op with
    | PEnqueue x => pipe_enqueue x p
    | PDequeue => pipe_dequeue p
    | _ => Crash
    end;
  allowed := pipe_allowed;
}.

Abbreviation pipe_state := (mon pipe pipe_cond pipe_op pipe_ret).

Definition pipe_start (n : nat) (p : pipe) : pipe_state :=
  mkMon p (fun _ => []) (replicate n (Idle PNothing)).

(** * The byte loops *)

(** A call that does not have to wait. *)
Definition no_wait (s : p_segment pipe) : res (pipe_ret * pipe) :=
  match s with
  | Leave p _ r => Ok (r, p)
  | Sleep _ _ => Err Block
  | Crash => Err Fault
  end.

(** [n] iterations are left; [out] holds the bytes stored so far in the
    caller's buffer.  The result is that buffer, the returned count and
    the pipe. *)
Fixpoint pipe_read_loop (n : nat) (p : pipe) (out : list Z) : res (list Z * Z * pipe) :=
  match n with
  | O => Ok (out, Z.of_nat (length out), p)
  | S n =>
      let* (r, p') := no_wait (pipe_dequeue p) in
      match r with
      | PItem b =>
          if b =? 0 then Ok (out ++ [b], Z.of_nat (length out), p')
          else pipe_read_loop n p' (out ++ [b])
      | _ => Err Fault
      end
  end.

Definition pipe_read (p : pipe) (size : Z) : res (list Z * Z * pipe) :=
  pipe_read_loop (Z.to_nat size) p [].

(** [buf] is what is left of the caller's buffer, [written] the count. *)
Fixpoint pipe_write_loop (buf : list Z) (written : Z) (p : pipe) : res (Z * pipe) :=
  match buf with
  | [] => Ok (written, p)
  | b :: buf =>
      let* (_, p') := no_wait (pipe_enqueue b p) in
      if b =? 0 then Ok (written, p') else pipe_write_loop buf (written + 1) p'
  end.

Definition pipe_write (p : pipe) (buf : list Z) (size : Z) : res (Z * pipe) :=
  pipe_write_loop (take (Z.to_nat size) buf) 0 p.

(** * Contents *)

Definition pipe_items (p : pipe) : list Z :=
  ring_items 0 (p_capacity p) (p_head p) (p_tail p) (p_buffer p).

Record pipe_wf (p : pipe) : Prop := {
  pipe_ring : ring_wf (p_capacity p) (p_head p) (p_tail p) (p_buffer p);
  pipe_live : p_freed p = false;
}.

(** [p'] is [p] with other contents. *)
Record pipe_holds (p p' : pipe) (l : list Z) : Prop := {
  holds_wf : pipe_wf p';
  holds_items : pipe_items p' = l;
  holds_capacity : p_capacity p' = p_capacity p;
  holds_read_end : p_read_end p' = p_read_end p;
  holds_write_end : p_write_end p' = p_write_end p;
}.

Section pipe_lemmas.
Implicit Types (p : pipe) (l : list Z) (x : Z).

Lemma pipe_next_no_wrap p i :
  pipe_wf p -> 0 <= i < p_capacity p -> u32 (i + 1) = i + 1.
Proof. intros [[] _] ?. apply u32_small. lia. Qed.

Lemma pipe_enqueue_room p x :
  pipe_wf p -> Z.of_nat (length (pipe_items p)) < p_capacity p - 1 ->
  exists p', pipe_enqueue x p = Leave p' [One items_avail] PNothing /\
    pipe_holds p p' (pipe_items p ++ [x]).
Proof.
  intros Hwf Hroom. pose proof Hwf as [Hring Hl]. pose proof Hring as [? ? ? Ht].
  unfold pipe_enqueue, pipe_full. rewrite Hl, (pipe_next_no_wrap p) by done.
  assert (Hnf : p_head p <> (p_tail p + 1) mod p_capacity p).
  { intros E. apply (ring_full 0 _ _ _ _ Hring) in E. unfold pipe_items in Hroom. lia. }
  rewrite eqb_false by done. eexists. split; [done|].
  destruct (ring_push 0 _ _ _ _ x Hring Hnf) as [Hpush Hring'].
  by split; [split|..].
Qed.

Lemma pipe_enqueue_full p x :
  pipe_wf p -> Z.of_nat (length (pipe_items p)) = p_capacity p - 1 ->
  pipe_enqueue x p =
    match p_read_end p with None => Leave p [] PNothing | Some _ => Sleep p slots_avail end.
Proof.
  intros Hwf Hfull. pose proof Hwf as [Hring Hl]. pose proof Hring as [? ? ? Ht].
  unfold pipe_enqueue, pipe_full. rewrite Hl, (pipe_next_no_wrap p) by done.
  by rewrite eqb_true by by apply (ring_full 0 _ _ _ _ Hring).
Qed.

Lemma pipe_dequeue_item p x l :
  pipe_wf p -> pipe_items p = x :: l ->
  exists p', pipe_dequeue p = Leave p' [One slots_avail] (PItem x) /\
    pipe_holds p p' l.
Proof.
  intros Hwf Hx. pose proof Hwf as [Hring Hl]. pose proof Hring as [? Hb Hh ?].
  unfold pipe_dequeue, pipe_empty. rewrite Hl, (pipe_next_no_wrap p) by done.
  assert (Hne : p_head p <> p_tail p).
  { intros E. apply (ring_empty 0 _ _ _ _ Hring) in E. unfold pipe_items in Hx. congruence. }
  rewrite eqb_false by done. destruct (ring_pop 0 _ _ _ _ Hring Hne) as [Hpop Hring'].
  unfold pipe_items in Hx. rewrite Hpop in Hx. injection Hx as <- <-.
  rewrite lookup_slot by (rewrite Hb; apply Z.mod_pos_bound; lia).
  eexists. split; [done|]. by split; [split|..].
Qed.

Lemma pipe_dequeue_empty p :
  pipe_wf p -> pipe_items p = [] ->
  pipe_dequeue p =
    match p_write_end p with None => Leave p [] (PItem 0) | Some _ => Sleep p items_avail end.
Proof.
  intros [Hring Hl] Hx. unfold pipe_dequeue, pipe_empty. rewrite Hl.
  by rewrite eqb_true by by apply (ring_empty 0 _ _ _ _ Hring).
Qed.

Lemma pipe_holds_refl p : pipe_wf p -> pipe_holds p p (pipe_items p).
Proof. by split. Qed.

Lemma pipe_holds_trans p1 p2 p3 l l' :
  pipe_holds p1 p2 l -> pipe_holds p2 p3 l' -> pipe_holds p1 p3 l'.
Proof. intros [? ? ? ? ?] [? ? ? ? ?]. split; congruence || done. Qed.

Lemma pipe_write_loop_spec buf n p :
  pipe_wf p -> Forall (fun b => b <> 0) buf ->
  Z.of_nat (length (pipe_items p)) + Z.of_nat (length buf) <= p_capacity p - 1 ->
  exists p', pipe_write_loop buf n p = Ok (n + Z.of_nat (length buf), p') /\
    pipe_holds p p' (pipe_items p ++ buf).
Proof.
  intros Hwf Hb. revert n p Hwf. induction Hb as [|b buf Hb _ IH]; intros n p Hwf Hroom.
  - exists p. cbn. rewrite Z.add_0_r, app_nil_r. eauto using pipe_holds_refl.
  - cbn [length] in Hroom. destruct (pipe_enqueue_room p b) as (p1 & He & Hh); [done|lia|].
    cbn [pipe_write_loop]. rewrite He. cbn. rewrite eqb_false by done.
    pose proof Hh as [Hwf1 Hi1 Hc1 _ _].
    destruct (IH (n + 1) p1 Hwf1) as (p2 & -> & Hh2).
    { rewrite Hi1, Hc1, length_app. cbn. lia. }
    exists p2. split; [f_equal; f_equal; lia|].
    rewrite Hi1, <- app_assoc in Hh2. by eapply pipe_holds_trans.
Qed.

Lemma pipe_read_loop_spec n p out :
  pipe_wf p -> Forall (fun b => b <> 0) (pipe_items p) ->
  (n <= length (pipe_items p))%nat ->
  exists p', pipe_read_loop n p out =
      Ok (out ++ take n (pipe_items p), Z.of_nat (length out + n), p') /\
    pipe_holds p p' (drop n (pipe_items p)).
Proof.
  revert p out. induction n as [|n IH]; intros p out Hwf Hnz Hn.
  - exists p. cbn [pipe_read_loop take]. rewrite app_nil_r, Nat.add_0_r, drop_0.
    eauto using pipe_holds_refl.
  - destruct (pipe_items p) as [|x l] eqn:Hx; [cbn in Hn; lia|].
    destruct (pipe_dequeue_item p x l) as (p1 & Hd & Hh); [done..|].
    cbn [pipe_read_loop]. rewrite Hd. cbn [rbind no_wait].
    apply Forall_cons in Hnz as [Hx0 Hnz]. rewrite eqb_false by done.
    pose proof Hh as [Hwf1 Hi1 _ _ _].
    destruct (IH p1 (out ++ [x])) as (p2 & -> & Hh2); rewrite ?Hi1 in *;
      [done..|cbn in Hn; lia|].
    exists p2. split; [|by eapply pipe_holds_trans].
    rewrite length_app. cbn [length take]. rewrite <- app_assoc. cbn [app].
    do 3 f_equal. lia.
Qed.
End pipe_lemmas.

(** * The pipe as a bounded list of bytes *)

Record apipe := mkApipe {
  ap_items : list Z;
  ap_room : Z;
  ap_read_end : option Z;
  ap_write_end : option Z;
  ap_freed : bool;
}.

Definition ap_set (a : apipe) (l : list Z) : apipe :=
  mkApipe l (ap_room a) (ap_read_end a) (ap_write_end a) (ap_freed a).

Definition ap_dequeue (a : apipe) : p_segment apipe :=
  if ap_freed a then Crash
  else match ap_items a with
       | x :: l => Leave (ap_set a l) [One slots_avail] (PItem x)
       | [] => match ap_write_end a with
               | Some _ => Sleep a items_avail
               | None => Leave a [] (PItem 0)
               end
       end.

Definition ap_enqueue (x : Z) (a : apipe) : p_segment apipe :=
  if ap_freed a then Crash
  else if Z.of_nat (length (ap_items a)) =? ap_room a then
    match ap_read_end a with
    | Some _ => Sleep a slots_avail
    | None => Leave a [] PNothing
    end
  else Leave (ap_set a (ap_items a ++ [x])) [One items_avail] PNothing.

Definition ap_clear_end (file : Z) (a : apipe) : p_segment apipe :=
  if ap_freed a then Crash
  else if decide (ap_read_end a = Some file) then
    Leave (mkApipe (ap_items a) (ap_room a) None (ap_write_end a) (ap_freed a))
      [] (PClosing (Some slots_avail))
  else if decide (ap_write_end a = Some file) then
    Leave (mkApipe (ap_items a) (ap_room a) (ap_read_end a) None (ap_freed a))
      [] (PClosing (Some items_avail))
  else Leave a [] (PClosing None).

Definition ap_notify (r : pipe_ret) (a : apipe) : p_segment apipe :=
  match r with
  | PClosing (Some c) => if ap_freed a then Crash else Leave a [One c] PNotified
  | _ => Leave a [] PNotified
  end.

Definition ap_free (a : apipe) : p_segment apipe :=
  if ap_freed a then Crash
  else match ap_read_end a, ap_write_end a with
       | None, None => Leave (mkApipe (ap_items a) (ap_room a) None None true) [] PNothing
       | _, _ => Leave a [] PNothing
       end.

#[global] Instance apipe_routines : Routines apipe pipe_cond pipe_op pipe_ret := {
  enter op r a :=
    match op with
    | PEnqueue x => ap_enqueue x a
    | PDequeue => ap_dequeue a
    | PClearEnd f => ap_clear_end f a
    | PNotify => ap_notify r a
    | PFree => ap_free a
    end;
  resume op a :=
    match op with
    | PEnqueue x => ap_enqueue x a
    | PDequeue => ap_dequeue a
    | _ => Crash
    end;
  allowed := pipe_allowed;
}.

Definition pipe_contents (p : pipe) : apipe :=
  mkApipe (pipe_items p) (p_capacity p - 1) (p_read_end p) (p_write_end p) (p_freed p).

Definition pipe_good (p : pipe) : Prop :=
  ring_wf (p_capacity p) (p_head p) (p_tail p) (p_buffer p).

Lemma pipe_dequeue_refines p :
  pipe_good p ->
  seg_good pipe_good (pipe_dequeue p) /\
  ap_dequeue (pipe_contents p) = seg_map pipe_contents (pipe_dequeue p).
Proof.
  intros Hg. unfold ap_dequeue. cbn [ap_freed ap_items ap_write_end pipe_contents].
  destruct (p_freed p) eqn:Hf; [by unfold pipe_dequeue; rewrite Hf|].
  assert (Hwf : pipe_wf p) by by split.
  destruct (pipe_items p) as [|x l] eqn:Hx.
  - rewrite pipe_dequeue_empty by done. by destruct (p_write_end p).
  - destruct (pipe_dequeue_item p x l Hwf Hx) as (p' & -> & [[] Hi Hc Hr Hw]).
    split; [done|]. cbn. unfold pipe_contents, ap_set. cbn.
    by rewrite Hi, Hc, Hr, Hw, Hf, pipe_live0.
Qed.

Lemma pipe_enqueue_refines x p :
  pipe_good p ->
  seg_good pipe_good (pipe_enqueue x p) /\
  ap_enqueue x (pipe_contents p) = seg_map pipe_contents (pipe_enqueue x p).
Proof.
  intros Hg. unfold ap_enqueue.
  cbn [ap_freed ap_items ap_room ap_read_end pipe_contents].
  destruct (p_freed p) eqn:Hf; [by unfold pipe_enqueue; rewrite Hf|].
  assert (Hwf : pipe_wf p) by by split.
  destruct (Z.eqb_spec (Z.of_nat (length (pipe_items p))) (p_capacity p - 1)) as [Hl|Hl].
  - rewrite pipe_enqueue_full by done. by destruct (p_read_end p).
  - destruct (pipe_enqueue_room p x Hwf) as (p' & -> & [[] Hi Hc Hr Hw]).
    { pose proof (ring_items_length 0 _ _ _ _ Hg). pose proof (ring_len_range _ _ _ _ Hg).
      unfold pipe_items in *. lia. }
    split; [done|]. cbn. unfold pipe_contents, ap_set. cbn.
    by rewrite Hi, Hc, Hr, Hw, Hf, pipe_live0.
Qed.

#[global] Instance pipe_refines : Refines pipe_contents pipe_good.
Proof.
  split.
  - intros op r p Hg. destruct op as [x| |f| |]; cbn [enter pipe_routines apipe_routines].
    + by apply pipe_enqueue_refines.
    + by apply pipe_dequeue_refines.
    + unfold pipe_clear_end, ap_clear_end. cbn.
      destruct (p_freed p) eqn:Hf; [done|]. by repeat case_decide; rewrite ?Hf.
    + unfold pipe_notify, ap_notify. cbn. destruct r as [| |[c|]|]; try done.
      by destruct (p_freed p) eqn:Hf.
    + unfold pipe_free, ap_free. cbn. destruct (p_freed p) eqn:Hf; [done|].
      destruct (p_read_end p) eqn:Hr, (p_write_end p) eqn:Hw; cbn;
        unfold pipe_contents; by rewrite ?Hr, ?Hw, ?Hf.
  - intros op p Hg. destruct op as [x| |f| |]; cbn [resume pipe_routines apipe_routines].
    + by apply pipe_enqueue_refines.
    + by apply pipe_dequeue_refines.
    + done.
    + done.
    + done.
  - done.
Qed.

(** * Results *)

(** C34: Every interleaving of calls by [n] threads on a newly opened pipe
    is the same interleaving on an empty list bounded by 4095 bytes. *)
Theorem pipe_run_refines (n : nat) (buffer : list Z) (r w : Z) (p : pipe)
    (acts : list (action pipe_op))
    (Hbuf : length buffer = 4096%nat)
    (Hp : pipe_open (Some tt) (Some buffer) (Some (r, w)) = Some p) :
  mrun (mkMon (mkApipe [] 4095 (Some r) (Some w) false) (fun _ => [])
          (replicate n (Idle PNothing))) acts =
    rmap (mon_map pipe_contents) (mrun (pipe_start n p) acts).
Proof.
  injection Hp as <-. change (u32 (4095 + 1)) with 4096.
  assert (Hwf : ring_wf 4096 0 0 buffer) by (split; lia).
  by rewrite <- (mrun_refines pipe_contents pipe_good).
Qed.

Lemma pipe_run_refines_witness :
  mrun (mkMon (mkApipe [] 4095 (Some 1) (Some 2) false) (fun _ => [])
          (replicate 2 (Idle PNothing))) [Call 0 PDequeue; Call 1 (PEnqueue 65); Run 0] =
  rmap (mon_map pipe_contents)
    (mrun (pipe_start 2 (mkPipe (replicate 4096 0) 4096 0 0 (Some 1) (Some 2) false))
       [Call 0 PDequeue; Call 1 (PEnqueue 65); Run 0]).
Proof.
  apply (pipe_run_refines 2 (replicate 4096 0) 1 2); vm_compute; reflexivity.
Defined.

(** Bytes without NUL written to a pipe with room are read back in
    order, after what the pipe already held. *)
Theorem pipe_write_read (p : pipe) (buf : list Z)
    (Hwf : pipe_wf p)
    (Hold : Forall (fun b => b <> 0) (pipe_items p))
    (Hbuf : Forall (fun b => b <> 0) buf)
    (Hroom : Z.of_nat (length (pipe_items p)) + Z.of_nat (length buf) <= p_capacity p - 1) :
  exists p1 p2,
    pipe_write p buf (Z.of_nat (length buf)) = Ok (Z.of_nat (length buf), p1) /\
    pipe_read p1 (Z.of_nat (length (pipe_items p ++ buf))) =
      Ok (pipe_items p ++ buf, Z.of_nat (length (pipe_items p ++ buf)), p2) /\
    pipe_items p2 = [].
Proof.
  unfold pipe_write, pipe_read. rewrite !Nat2Z.id, take_ge by done.
  destruct (pipe_write_loop_spec buf 0 p) as (p1 & Hw & Hh1); [done..|].
  pose proof Hh1 as [Hwf1 Hi1 _ _ _].
  destruct (pipe_read_loop_spec (length (pipe_items p ++ buf)) p1 [])
    as (p2 & Hr & [_ Hi2 _ _ _]); rewrite ?Hi1; [done| |done|].
  - by apply Forall_app.
  - exists p1, p2. rewrite Hw, Hr, Hi1, Hi2, Hi1, take_ge, drop_ge by done. done.
Qed.

Lemma pipe_write_read_witness :
  exists p1 p2,
    pipe_write (mkPipe [0; 0; 0; 0] 4 0 0 (Some 1) (Some 2) false) [72; 105] 2 = Ok (2, p1) /\
    pipe_read p1 2 = Ok ([72; 105], 2, p2) /\ pipe_items p2 = [].
Proof.
  apply (pipe_write_read (mkPipe [0; 0; 0; 0] 4 0 0 (Some 1) (Some 2) false) [72; 105]);
    [by repeat split; vm_compute|by constructor|by repeat constructor|vm_compute; discriminate].
Defined.

(** End of file: once the write end is closed, a read gets what is left
    and reports the short count. *)
Theorem pipe_read_eof (p : pipe) (size : Z)
    (Hwf : pipe_wf p) (Hnz : Forall (fun b => b <> 0) (pipe_items p))
    (Hclosed : p_write_end p = None)
    (Hsize : Z.of_nat (length (pipe_items p)) < size) :
  exists p', pipe_read p size =
      Ok (pipe_items p ++ [0], Z.of_nat (length (pipe_items p)), p') /\
    pipe_items p' = [].
Proof.
  unfold pipe_read. destruct (Z.to_nat size) as [|n] eqn:Hn; [lia|].
  assert (Hle : (length (pipe_items p) <= n)%nat) by lia. clear Hn Hsize.
  assert (Hgen : forall out, exists p', pipe_read_loop (S n) p out =
      Ok (out ++ pipe_items p ++ [0], Z.of_nat (length (out ++ pipe_items p)), p') /\
      pipe_items p' = []); [|destruct (Hgen []) as (p' & ? & ?); by exists p'].
  revert p Hwf Hnz Hclosed Hle. induction n as [|n IH]; intros p Hwf Hnz Hclosed Hle out;
    (destruct (pipe_items p) as [|x l] eqn:Hx;
     [exists p; cbn; rewrite pipe_dequeue_empty, Hclosed by done; cbn; by rewrite app_nil_r|]);
    [cbn in Hle; lia|].
  destruct (pipe_dequeue_item p x l) as (p1 & Hd & [Hwf1 Hi1 _ _ Hw1]); [done..|].
  apply Forall_cons in Hnz as [Hx0 Hnz]. cbn [length] in Hle.
  destruct (IH p1) with (out := out ++ [x]) as (p2 & Hr & Hi2);
    [done|by rewrite Hi1|congruence|rewrite Hi1; lia|].
  exists p2. split; [|done]. cbn [pipe_read_loop]. rewrite Hd. cbn [rbind no_wait].
  rewrite eqb_false by done. cbn [pipe_read_loop] in Hr. rewrite Hr, Hi1, <- !app_assoc. done.
Qed.

Lemma pipe_read_eof_witness :
  exists p', pipe_read (mkPipe [0; 72; 105; 0] 4 0 2 (Some 1) None false) 3 =
    Ok ([72; 105; 0], 2, p') /\ pipe_items p' = [].
Proof.
  apply (pipe_read_eof (mkPipe [0; 72; 105; 0] 4 0 2 (Some 1) None false) 3);
    [by repeat split; vm_compute|by repeat constructor|reflexivity|vm_compute; reflexivity].
Defined.

(** A NUL byte ends a write: it is sent, but neither it nor anything
    after it is counted, and the bytes after it are not sent. *)
Theorem pipe_write_stops_at_nul (p : pipe) (pre post : list Z)
    (Hwf : pipe_wf p) (Hpre : Forall (fun b => b <> 0) pre)
    (Hroom : Z.of_nat (length (pipe_items p)) + Z.of_nat (length pre) + 1
             <= p_capacity p - 1) :
  exists p', pipe_write p (pre ++ 0 :: post) (Z.of_nat (length (pre ++ 0 :: post))) =
      Ok (Z.of_nat (length pre), p') /\
    pipe_items p' = pipe_items p ++ pre ++ [0].
Proof.
  unfold pipe_write. rewrite Nat2Z.id, take_ge by done.
  enough (Hgen : forall n, exists p', pipe_write_loop (pre ++ 0 :: post) n p =
      Ok (n + Z.of_nat (length pre), p') /\ pipe_items p' = pipe_items p ++ pre ++ [0]).
  { exact (Hgen 0). }
  revert p Hwf Hroom. induction Hpre as [|b pre Hb _ IH]; intros p Hwf Hroom n.
  - cbn in Hroom. destruct (pipe_enqueue_room p 0) as (p' & He & [_ Hi _ _ _]); [done|lia|].
    exists p'. cbn [pipe_write_loop app]. rewrite He. cbn. by rewrite Z.add_0_r.
  - cbn [length] in Hroom.
    destruct (pipe_enqueue_room p b) as (p1 & He & [Hwf1 Hi1 Hc1 _ _]); [done|lia|].
    destruct (IH p1 Hwf1) with (n := n + 1) as (p2 & Hw & Hi2).
    { rewrite Hi1, Hc1, length_app. cbn. lia. }
    exists p2. cbn [pipe_write_loop app]. rewrite He. cbn [rbind no_wait].
    rewrite eqb_false, Hw, Hi2, Hi1, <- app_assoc by done. split; [|done].
    cbn [length]. do 2 f_equal. lia.
Qed.

Lemma pipe_write_stops_at_nul_witness :
  exists p', pipe_write (mkPipe [0; 0; 0; 0; 0] 5 0 0 (Some 1) (Some 2) false)
      [72; 0; 105] 3 = Ok (1, p') /\ pipe_items p' = [72; 0].
Proof.
  apply (pipe_write_stops_at_nul (mkPipe [0; 0; 0; 0; 0] 5 0 0 (Some 1) (Some 2) false)
           [72] [105]);
    [by repeat split; vm_compute|by repeat constructor|vm_compute; discriminate].
Defined.

(** Two writers (threads 0 and 1) sleep on a full pipe, and the read
    end is closed by thread 2. *)
Definition two_blocked_writers : list (action pipe_op) :=
  replicate 4096 (Call 0 (PEnqueue 1)) ++
  [Call 1 (PEnqueue 1); Call 2 (PClearEnd 1); Call 2 PNotify; Call 2 PFree; Run 0].

Definition opened_pipe : pipe :=
  mkPipe (replicate 4096 0) 4096 0 0 (Some 1) (Some 2) false.

(** Closing the read end wakes one writer only; the one that returns
    does not pass the wake-up on, and the other sleeps although there is
    no reader left to make room. *)
Theorem pipe_close_strands_writer :
  exists m : pipe_state,
    reachable any_step (pipe_start 3 opened_pipe) m /\
    p_read_end (data m) = None /\
    threads m = [Idle PNothing; Asleep (PEnqueue 1) slots_avail; Idle PNothing].
Proof.
  assert (Hok : all_ok any_step (pipe_start 3 opened_pipe) two_blocked_writers = true)
    by (vm_compute; reflexivity).
  assert (Hm : rmap (fun m => (p_read_end (data m), threads m))
                 (mrun (pipe_start 3 opened_pipe) two_blocked_writers) =
               Ok (None, [Idle PNothing; Asleep (PEnqueue 1) slots_avail; Idle PNothing]))
    by (vm_compute; reflexivity).
  destruct (mrun (pipe_start 3 opened_pipe) two_blocked_writers) as [m|] eqn:Hrun;
    [|discriminate Hm].
  injection Hm as Hr Ht. exists m. split; [|split; [exact Hr|exact Ht]].
  apply (mrun_reachable any_step _ (pipe_start 3 opened_pipe) two_blocked_writers);
    [apply reach_init|exact Hok|exact Hrun].
Qed.

(** Both ends closed at once: each closer finds both ends clear and
    frees the pipe, so the second frees it again. *)
Theorem pipe_close_double_free :
  exists m : pipe_state,
    reachable any_step (pipe_start 2 opened_pipe) m /\
    p_freed (data m) = true /\
    mstep m (Call 1 PFree) = Err Panic.
Proof.
  set (acts := [Call 0 (PClearEnd 1); Call 1 (PClearEnd 2); Call 0 PNotify;
                Call 1 PNotify; Call 0 PFree] : list (action pipe_op)).
  assert (Hm : match mrun (pipe_start 2 opened_pipe) acts with
               | Ok m => (p_freed (data m), rmap (fun _ => tt) (mstep m (Call 1 PFree)))
               | Err _ => (false, Ok tt)
               end = (true, Err Panic)) by (vm_compute; reflexivity).
  assert (Hok : all_ok any_step (pipe_start 2 opened_pipe) acts = true)
    by (vm_compute; reflexivity).
  destruct (mrun (pipe_start 2 opened_pipe) acts) as [m|] eqn:Hrun; [|discriminate Hm].
  injection Hm as Hf Hs. exists m.
  split; [|split; [exact Hf|]].
  - apply (mrun_reachable any_step _ (pipe_start 2 opened_pipe) acts);
      [apply reach_init|exact Hok|exact Hrun].
  - change (rmap (fun _ => tt) (mstep m (Call 1 PFree)) = Err Panic) in Hs.
    destruct (mstep m (Call 1 PFree)); [discriminate Hs|].
    injection Hs as He. by rewrite He.
Qed.
