(* ===== verification/Block.v ===== *)
(** Block devices (src/src/devices/block.c, src/src/devices/block.h).

    A [block] carries the fields of [struct block] that its operations
    use; the driver behind [ops] is what every driver implements, an
    array of sectors. The module [Partition] scans a device for partitions
    (src/src/devices/partition.c). *)

From stdpp Require Import options.
From S2P Require Import Prelude Words.

Definition BLOCK_SECTOR_SIZE : Z := 512.

Inductive block_type :=
| BLOCK_KERNEL | BLOCK_FILESYS | BLOCK_SCRATCH | BLOCK_SWAP | BLOCK_RAW | BLOCK_FOREIGN.

#[global] Instance block_type_eq_dec : EqDecision block_type.
Proof. solve_decision. Defined.

Record block := mkBlock {
  bl_type : block_type;
  bl_sectors : list (list Z);   (** what the driver stores *)
  bl_read_cnt : Z;
  bl_write_cnt : Z;
}.

Definition block_size (b : block) : Z := Z.of_nat (length (bl_sectors b)).

Definition check_sector (b : block) (sector : Z) : res unit :=
  if block_size b <=? sector then Err Panic else Ok tt.

Definition block_read (b : block) (sector : Z) : res (list Z * block) :=
  let* _ := check_sector b sector in
  let* buffer := access (bl_sectors b !! Z.to_nat sector) in
  Ok (buffer, mkBlock (bl_type b) (bl_sectors b) (u64 (bl_read_cnt b + 1)) (bl_write_cnt b)).

Definition block_write (b : block) (sector : Z) (buffer : list Z) : res block :=
  let* _ := check_sector b sector in
  check (negb (bool_decide (bl_type b = BLOCK_FOREIGN))) in
  Ok (mkBlock (bl_type b) (<[Z.to_nat sector := buffer]> (bl_sectors b))
        (bl_read_cnt b) (u64 (bl_write_cnt b + 1))).

(** The contents of a sector, [None] past the end of the device. *)
Definition sector_of (b : block) (sector : Z) : option (list Z) :=
  if (0 <=? sector) then bl_sectors b !! Z.to_nat sector else None.

Lemma sector_of_range b s : is_Some (sector_of b s) <-> 0 <= s < block_size b.
Proof.
  unfold sector_of, block_size. destruct (Z.leb_spec 0 s).
  - rewrite lookup_lt_is_Some. lia.
  - split; [by intros [? ?]|lia].
Qed.

Lemma block_read_spec b s d :
  sector_of b s = Some d ->
  exists b', block_read b s = Ok (d, b') /\
    bl_type b' = bl_type b /\ bl_sectors b' = bl_sectors b.
Proof.
  intros Hs. pose proof (proj1 (sector_of_range b s) ltac:(by rewrite Hs)).
  unfold sector_of in Hs. rewrite leb_true in Hs by lia.
  unfold block_read, check_sector. rewrite leb_false by lia. cbn. rewrite Hs. cbn.
  by eexists.
Qed.

Lemma block_write_spec b s d :
  bl_type b <> BLOCK_FOREIGN -> 0 <= s < block_size b ->
  exists b', block_write b s d = Ok b' /\ bl_type b' = bl_type b /\
    sector_of b' s = Some d /\
    (forall s', s' <> s -> sector_of b' s' = sector_of b s').
Proof.
  intros Ht Hs. unfold block_write, check_sector. rewrite leb_false by lia. cbn.
  rewrite bool_decide_eq_false_2 by done. cbn. eexists. split; [done|]. cbn.
  unfold block_size in Hs. split; [done|]. unfold sector_of; cbn. split.
  - rewrite leb_true, list_lookup_insert_eq by lia. done.
  - intros s' Hne. destruct (Z.leb_spec 0 s'); [|done].
    by rewrite list_lookup_insert_ne by lia.
Qed.

(** Access past the end of the device panics. *)
Lemma block_read_past_end b s : block_size b <= s -> block_read b s = Err Panic.
Proof. intros. unfold block_read, check_sector. by rewrite leb_true. Qed.

(** Partitions of a block device (src/src/devices/partition.c). *)
Module Partition.

(** A registered partition: what [block_register] gets, and the first sector
    on the device. *)
Record partition := mkPartition {
  pn_nr : Z;
  pn_type : block_type;
  pn_start : Z;
  pn_size : Z;
}.

(** The device, the results of [malloc] to come, the number of partitions and
    the registered ones. *)
Record scan := mkScan {
  sn_block : block;
  sn_mem : list bool;
  sn_part_nr : Z;
  sn_found : list partition;
}.

Abbreviation SC := (ST scan).

(** A failing [malloc] is followed by a [PANIC] wherever it is called. *)
Definition malloc : SC unit := fun s =>
  match sn_mem s with
  | true :: l => Ok (tt, mkScan (sn_block s) l (sn_part_nr s) (sn_found s))
  | _ => Err Panic
  end.

Definition read_block (sector : Z) : SC (list Z) := fun s =>
  let* (d, b) := block_read (sn_block s) sector in
  Ok (d, mkScan b (sn_mem s) (sn_part_nr s) (sn_found s)).

Record partition_table_entry := mkEntry {
  e_type : Z;
  e_offset : Z;
  e_size : Z;
}.

Definition word_at (d : list Z) (i : nat) : Z :=
  byte_at d i + 2 ^ 8 * byte_at d (i + 1) + 2 ^ 16 * byte_at d (i + 2) + 2 ^ 24 * byte_at d (i + 3).

(** [struct partition_table]: 446 bytes, four entries of 16, the signature. *)
Definition entry_of (d : list Z) (i : nat) : partition_table_entry :=
  let p := (446 + 16 * i)%nat in mkEntry (byte_at d (p + 4)) (word_at d (p + 8)) (word_at d (p + 12)).
Definition table_entries (d : list Z) : list partition_table_entry := map (entry_of d) (seq 0 4).
Definition signature (d : list Z) : Z := byte_at d 510 + 2 ^ 8 * byte_at d 511.

Definition is_extended (e : partition_table_entry) : bool :=
  (e_type e =? 5) || (e_type e =? 15) || (e_type e =? 133) || (e_type e =? 197).
Definition entry_empty (e : partition_table_entry) : bool := (e_size e =? 0) || (e_type e =? 0).

Definition role (part_type : Z) : block_type :=
  if part_type =? 32 then BLOCK_KERNEL else if part_type =? 33 then BLOCK_FILESYS
  else if part_type =? 34 then BLOCK_SCRATCH else if part_type =? 35 then BLOCK_SWAP else BLOCK_FOREIGN.

Definition found_partition (part_type start size part_nr : Z) : SC unit :=
  let! b := gets sn_block in
  if block_size b <=? start then ret tt
  else if (u32 (start + size) <? start) || (block_size b <? u32 (start + size)) then ret tt
  else
    malloc;;;
    malloc;;;
    modify (fun s => mkScan (sn_block s) (sn_mem s) (sn_part_nr s) (sn_found s ++ [mkPartition part_nr (role part_type) start size])).

Fixpoint each {A} (f : A -> SC unit) (l : list A) : SC unit :=
  match l with
  | [] => ret tt
  | x :: l => f x;;; each f l
  end.

(** [depth] bounds the nested calls: [Err Block], there are more. *)
Fixpoint read_partition_table (depth : nat) (sector primary_extended_sector : Z) : SC unit :=
  match depth with
  | O => fail Block
  | S depth =>
      let! b := gets sn_block in
      if block_size b <=? sector then ret tt
      else
        malloc;;;
        let! pt := read_block 0 in
        if negb (signature pt =? 43605) then ret tt
        else
          each (fun e =>
            if entry_empty e then ret tt
            else if is_extended e then
              if sector =? 0 then read_partition_table depth (e_offset e) (e_offset e)
              else read_partition_table depth (u32 (e_offset e + primary_extended_sector)) primary_extended_sector
            else
              modify (fun s => mkScan (sn_block s) (sn_mem s) (s32 (sn_part_nr s + 1)) (sn_found s));;;
              let! nr := gets sn_part_nr in
              found_partition (e_type e) (u32 (e_offset e + sector)) (e_size e) nr)
            (table_entries pt)
  end.

Definition partition_scan (depth : nat) (b : block) (mem : list bool) : res (list partition) :=
  let* (_, s) := read_partition_table depth 0 0 (mkScan b mem 0 []) in Ok (sn_found s).

(** The operations of a registered partition, with the check that
    [block_read] and [block_write] of the partition make. *)
Definition partition_read (p : partition) (b : block) (sector : Z) : res (list Z * block) :=
  if pn_size p <=? sector then Err Panic else block_read b (u32 (pn_start p + sector)).
Definition partition_write (p : partition) (b : block) (sector : Z) (buffer : list Z) : res block :=
  if pn_size p <=? sector then Err Panic
  else check (negb (bool_decide (pn_type p = BLOCK_FOREIGN))) in block_write b (u32 (pn_start p + sector)) buffer.

(** * Registered partitions are on the device *)

Definition inside (n : Z) (p : partition) : Prop := 0 <= pn_start p /\ 0 < pn_size p /\ pn_start p + pn_size p <= n.

Record scan_ok (b : block) (s : scan) : Prop := {
  so_sectors : bl_sectors (sn_block s) = bl_sectors b;
  so_found : Forall (inside (block_size b)) (sn_found s);
}.

(** If the routine returns, the scan is fine. *)
Definition keeps_ok (m : SC unit) : Prop := forall b s s', m s = Ok (tt, s') -> scan_ok b s -> scan_ok b s'.

Lemma scan_keeps_bind m1 m2 : keeps_ok m1 -> keeps_ok m2 -> keeps_ok (m1;;; m2).
Proof. intros H1 H2 b s s'. unfold bind. destruct (m1 s) as [[[] s1]|] eqn:E; [|done]. intros E2 Hs. by eapply H2, H1. Qed.

Lemma keeps_each {A} (f : A -> SC unit) l : (forall x, x ∈ l -> keeps_ok (f x)) -> keeps_ok (each f l).
Proof.
  induction l as [|x l IH]; intros H; cbn [each]; [by intros b s s' [= <-]|]. apply scan_keeps_bind; [apply H; by left|]. apply IH. intros y Hy. apply H. by right.
Qed.

Lemma scan_keeps_malloc : keeps_ok malloc.
Proof. intros b s s'. unfold malloc. destruct (sn_mem s) as [|[] ?]; [done| |done]. intros [= <-] [H1 H2]. by split. Qed.

Lemma word_at_range d i : 0 <= word_at d i < 2 ^ 32.
Proof. unfold word_at. pose proof (byte_at_range d i). pose proof (byte_at_range d (i + 1)). pose proof (byte_at_range d (i + 2)). pose proof (byte_at_range d (i + 3)). lia. Qed.

Lemma keeps_found ty start size nr : 0 <= start < 2 ^ 32 -> 0 < size < 2 ^ 32 -> keeps_ok (found_partition ty start size nr).
Proof.
  intros Hs Hz b s s'. unfold found_partition, bind at 1, gets. destruct (Z.leb_spec (block_size (sn_block s)) start); [by intros [= <-]|].
  destruct (_ || _) eqn:Ec; [by intros [= <-]|]. btest. intros E Hok. destruct Hok as [E1 E2]. assert (Eb : block_size (sn_block s) = block_size b) by (unfold block_size; by rewrite E1).
  assert (Hu : u32 (start + size) = start + size).
  { destruct (Z.lt_ge_cases (start + size) (2 ^ 32)); [apply u32_small; lia|]. exfalso. unfold u32 in *.
    rewrite <- (Z.mod_unique (start + size) (2 ^ 32) 1 (start + size - 2 ^ 32)) in *; lia. }
  revert E. unfold bind. destruct (malloc s) as [[[] s1]|] eqn:M1; [|done]. destruct (malloc s1) as [[[] s2]|] eqn:M2; [|done]. unfold modify. intros [= <-].
  destruct (scan_keeps_malloc b s1 s2 M2 (scan_keeps_malloc b s s1 M1 (Build_scan_ok b s E1 E2))) as [F1 F2]. split; [done|]. cbn. apply Forall_app. split; [done|].
  constructor; [|done]. split; cbn; lia.
Qed.

Lemma entry_range d e : e ∈ table_entries d -> 0 <= e_offset e < 2 ^ 32 /\ 0 <= e_size e < 2 ^ 32.
Proof. unfold table_entries. intros (i & -> & _)%list_elem_of_fmap. split; apply word_at_range. Qed.

Lemma keeps_read depth : forall sector primary, 0 <= sector < 2 ^ 32 -> keeps_ok (read_partition_table depth sector primary).
Proof.
  induction depth as [|depth IH]; intros sector primary Hsec; cbn [read_partition_table]; [done|].
  intros b s s'. unfold bind at 1, gets. destruct (_ <=? _); [by intros [= <-]|]. revert b s s'. apply scan_keeps_bind; [apply scan_keeps_malloc|].
  intros b s s'. unfold bind at 1. destruct (read_block 0 s) as [[pt s1]|] eqn:Er; [|done]. intros E Hok. assert (Hok1 : scan_ok b s1).
  { unfold read_block, block_read in Er. destruct (check_sector _ _); [|done]. cbn [rbind] in Er. destruct (access _); [|done]. cbn [rbind] in Er.
    injection Er as <- <-. destruct Hok as [H1 H2]. by split. }
  destruct (negb _); [by injection E as <-|]. revert E Hok1. generalize s1. clear s s1 Er Hok. intros s E Hok. revert b s s' E Hok. apply keeps_each.
  intros e He. destruct (entry_range pt e He) as [Ho Hz]. destruct (entry_empty e) eqn:Ee; [by intros b s s' [= <-]|]. unfold entry_empty in Ee. btest. destruct (is_extended e).
  - destruct (sector =? 0); apply IH; [done|apply u32_range].
  - apply scan_keeps_bind; [intros b s s' [= <-] [H1 H2]; by split|]. intros b s s'. unfold bind, gets. apply keeps_found; [apply u32_range|lia].
Qed.

(** The partitions that a scan registers lie within the device, however its
    tables look. *)
Theorem partition_scan_inside depth b mem l : partition_scan depth b mem = Ok l -> Forall (inside (block_size b)) l.
Proof.
  unfold partition_scan. destruct (read_partition_table depth 0 0 _) as [[[] s]|] eqn:E; [|done]. intros [= <-].
  eapply so_found, (keeps_read depth 0 0 ltac:(lia) b _ s E). by split.
Qed.

(** * Tables without extended partitions *)

Lemma read_block_spec s sector d : sector_of (sn_block s) sector = Some d ->
  exists b', read_block sector s = Ok (d, mkScan b' (sn_mem s) (sn_part_nr s) (sn_found s)) /\ bl_sectors b' = bl_sectors (sn_block s).
Proof. intros (b' & E & _ & Hb)%block_read_spec. exists b'. unfold read_block. by rewrite E. Qed.

(** The partitions of the entries [es], after [nr] others, that fit a device
    of [n] sectors. *)
Fixpoint primary (n nr : Z) (es : list partition_table_entry) : list partition :=
  match es with
  | [] => []
  | e :: es =>
      if entry_empty e then primary n nr es
      else if e_offset e + e_size e <=? n then mkPartition (nr + 1) (role (e_type e)) (e_offset e) (e_size e) :: primary n (nr + 1) es
      else primary n (nr + 1) es
  end.

Lemma found_spec ty start size nr s m : 0 <= start < 2 ^ 32 -> 0 < size < 2 ^ 32 -> block_size (sn_block s) < 2 ^ 32 -> sn_mem s = true :: true :: m ->
  exists s', found_partition ty start size nr s = Ok (tt, s') /\ bl_sectors (sn_block s') = bl_sectors (sn_block s) /\ sn_part_nr s' = sn_part_nr s /\
    (sn_mem s' = m \/ sn_mem s' = sn_mem s) /\
    sn_found s' = if start + size <=? block_size (sn_block s) then sn_found s ++ [mkPartition nr (role ty) start size] else sn_found s.
Proof.
  intros Hs Hz Hn Hm. unfold found_partition, bind at 1, gets. destruct (Z.leb_spec (block_size (sn_block s)) start).
  { rewrite leb_false by lia. exists s. split_and!; [done|done|done|by right|done]. }
  destruct (Z.leb_spec (start + size) (block_size (sn_block s))).
  - rewrite u32_small by lia. rewrite (ltb_false (start + size)), (ltb_false (block_size _)) by lia. cbn [orb]. unfold bind, malloc. rewrite Hm. cbn. eexists. split_and!; [done|done|done|by left|done].
  - assert (Hc : (u32 (start + size) <? start) || (block_size (sn_block s) <? u32 (start + size)) = true).
    { apply orb_true_iff. rewrite !Z.ltb_lt. destruct (Z.lt_ge_cases (start + size) (2 ^ 32)); [rewrite u32_small; lia|]. left. unfold u32.
      rewrite <- (Z.mod_unique (start + size) (2 ^ 32) 1 (start + size - 2 ^ 32)); lia. }
    rewrite Hc. exists s. split_and!; [done|done|done|by right|done].
Qed.

(** The next [k] allocations succeed. *)
Definition plenty (k : nat) (mem : list bool) : Prop := forall i, (i < k)%nat -> mem !! i = Some true.

(** What the loop does with an entry of the table in [sector]. *)
Definition handle (depth : nat) (sector primary_extended_sector : Z) (e : partition_table_entry) : SC unit :=
  if entry_empty e then ret tt
  else if is_extended e then
    if sector =? 0 then read_partition_table depth (e_offset e) (e_offset e)
    else read_partition_table depth (u32 (e_offset e + primary_extended_sector)) primary_extended_sector
  else
    modify (fun s => mkScan (sn_block s) (sn_mem s) (s32 (sn_part_nr s + 1)) (sn_found s));;;
    let! nr := gets sn_part_nr in
    found_partition (e_type e) (u32 (e_offset e + sector)) (e_size e) nr.

Lemma read_unfold depth sector primary : read_partition_table (S depth) sector primary =
  let! b := gets sn_block in
  if block_size b <=? sector then ret tt
  else
    malloc;;;
    let! pt := read_block 0 in
    if negb (signature pt =? 43605) then ret tt else each (handle depth sector primary) (table_entries pt).
Proof. reflexivity. Qed.

Lemma handle_primary depth e s k : 0 <= e_offset e < 2 ^ 32 -> 0 <= e_size e < 2 ^ 32 -> entry_empty e = true \/ is_extended e = false ->
  block_size (sn_block s) < 2 ^ 32 -> plenty (2 + k) (sn_mem s) -> 0 <= sn_part_nr s < 2 ^ 31 - 1 ->
  exists s', handle depth 0 0 e s = Ok (tt, s') /\ bl_sectors (sn_block s') = bl_sectors (sn_block s) /\ plenty k (sn_mem s') /\
    sn_part_nr s <= sn_part_nr s' <= sn_part_nr s + 1 /\
    forall es, sn_found s' ++ primary (block_size (sn_block s)) (sn_part_nr s') es = sn_found s ++ primary (block_size (sn_block s)) (sn_part_nr s) (e :: es).
Proof.
  intros Ho Hz Hne Hn Hm Hnr. unfold handle. cbn [primary]. destruct (entry_empty e) eqn:Ee.
  { exists s. split_and!; [done|done|intros i Hi; apply Hm; lia|lia|lia|done]. }
  destruct Hne as [?| ->]; [done|]. unfold entry_empty in Ee. btest. unfold bind at 1, modify. unfold bind, gets. cbn [sn_part_nr]. rewrite s32_small, Z.add_0_r, u32_small by lia.
  assert (Hmem : exists m, sn_mem s = true :: true :: m /\ plenty k m /\ plenty k (sn_mem s)).
  { destruct (sn_mem s) as [|x [|y m]] eqn:E; [by discriminate (Hm 0%nat ltac:(lia))|by discriminate (Hm 1%nat ltac:(lia))|].
    assert (x = true) as -> by (by injection (Hm 0%nat ltac:(lia))). assert (y = true) as -> by (by injection (Hm 1%nat ltac:(lia))). exists m.
    split_and!; [done|intros i Hi; apply (Hm (S (S i))); lia|intros i Hi; apply Hm; lia]. }
  destruct Hmem as (m & Em & Hm1 & Hm2).
  destruct (found_spec (e_type e) (e_offset e) (e_size e) (sn_part_nr s + 1) (mkScan (sn_block s) (sn_mem s) (sn_part_nr s + 1) (sn_found s)) m) as (s' & E & E1 & E2 & E3 & E4); [lia|lia|done|done|].
  cbn [sn_block sn_part_nr sn_mem sn_found] in *. exists s'. rewrite E2. split_and!; [done|done|by destruct E3 as [-> | ->]|lia|lia|].
  intros es. rewrite E4. destruct (_ <=? _); [by rewrite <- app_assoc|done].
Qed.

Lemma each_primary depth es : forall s k, Forall (fun e => 0 <= e_offset e < 2 ^ 32 /\ 0 <= e_size e < 2 ^ 32 /\ (entry_empty e = true \/ is_extended e = false)) es ->
  block_size (sn_block s) < 2 ^ 32 -> plenty (2 * length es) (sn_mem s) -> 0 <= sn_part_nr s -> sn_part_nr s + Z.of_nat (length es) < 2 ^ 31 -> k = sn_part_nr s ->
  exists s', each (handle depth 0 0) es s = Ok (tt, s') /\ sn_found s' = sn_found s ++ primary (block_size (sn_block s)) k es.
Proof.
  induction es as [|e es IH]; intros s k Hall Hn Hm Hnr Hlen ->; cbn [each]; [exists s; by rewrite app_nil_r|].
  apply Forall_cons in Hall as [(Ho & Hz & Hne) Hall]. cbn [length] in *.
  destruct (handle_primary depth e s (2 * length es)) as (s1 & E & Es & Hp & Hnr1 & Hf); [done|done|done|done|intros i Hi; apply Hm; lia|lia|].
  assert (Eb : block_size (sn_block s1) = block_size (sn_block s)) by (unfold block_size; by rewrite Es).
  destruct (IH s1 (sn_part_nr s1)) as (s' & E' & Ef); [done|by rewrite Eb|done|lia|lia|done|]. exists s'. unfold bind. rewrite E. split; [done|].
  rewrite Ef, Eb. apply Hf.
Qed.

(** The scan of a device whose table has no extended partition registers
    the partitions of the table that fit the device, in order. *)
Theorem partition_scan_exact depth b mem d : sector_of b 0 = Some d -> signature d = 43605 -> block_size b < 2 ^ 32 -> plenty 9 mem ->
  Forall (fun e => entry_empty e = true \/ is_extended e = false) (table_entries d) ->
  partition_scan (S depth) b mem = Ok (primary (block_size b) 0 (table_entries d)).
Proof.
  intros Hd Hsig Hn Hm Hall. assert (Hr := proj1 (sector_of_range b 0) ltac:(by rewrite Hd)). unfold partition_scan. rewrite read_unfold. unfold bind at 1, gets. cbn [sn_block].
  rewrite leb_false by lia. destruct mem as [|x mem]; [by discriminate (Hm 0%nat ltac:(lia))|]. assert (x = true) as -> by (by injection (Hm 0%nat ltac:(lia))).
  unfold bind at 1, malloc. cbn [sn_mem sn_block sn_part_nr sn_found]. unfold bind at 1.
  destruct (read_block_spec (mkScan b mem 0 []) 0 d Hd) as (b' & -> & Hb). rewrite (eqb_true (signature d)) by done. cbn [negb sn_mem sn_block sn_part_nr sn_found] in *.
  assert (Eb : block_size b' = block_size b) by (unfold block_size; by rewrite Hb).
  destruct (each_primary depth (table_entries d) (mkScan b' mem 0 []) 0) as (s' & E & Ef); cbn [sn_mem sn_block sn_part_nr sn_found].
  - apply Forall_forall. intros e He. destruct (entry_range d e He). rewrite Forall_forall in Hall. split_and!; try lia. by apply Hall.
  - by rewrite Eb.
  - intros i Hi. apply (Hm (S i)). cbn in Hi. lia.
  - lia.
  - cbn. lia.
  - done.
  - rewrite E. cbn [rbind]. rewrite Ef. cbn [sn_found sn_block app]. by rewrite Eb.
Qed.

(** * Extended partitions *)

Lemma keeps_handle depth sector primary e : 0 <= e_offset e < 2 ^ 32 -> 0 <= e_size e < 2 ^ 32 -> keeps_ok (handle depth sector primary e).
Proof.
  intros Ho Hz. unfold handle. destruct (entry_empty e) eqn:Ee; [by intros b s s' [= <-]|]. unfold entry_empty in Ee. btest. destruct (is_extended e).
  - destruct (sector =? 0); apply keeps_read; [done|apply u32_range].
  - apply scan_keeps_bind; [intros b s s' [= <-] [H1 H2]; by split|]. intros b s s'. unfold bind, gets. apply keeps_found; [apply u32_range|lia].
Qed.

(** A loop that returns has handled each element. *)
Lemma each_reaches {A} (f : A -> SC unit) l x b : forall s s', (forall y, y ∈ l -> keeps_ok (f y)) -> scan_ok b s -> x ∈ l -> each f l s = Ok (tt, s') ->
  exists s1 s2, scan_ok b s1 /\ f x s1 = Ok (tt, s2).
Proof.
  induction l as [|y l IH]; intros s s' Hk Hs Hx E; [by apply elem_of_nil in Hx|]. cbn [each] in E. unfold bind in E. destruct (f y s) as [[[] s1]|] eqn:Ey; [|done].
  apply elem_of_cons in Hx as [->|Hx]; [by exists s, s1|]. apply (IH s1 s'); [intros z Hz; apply Hk; by right| |done|done]. by apply (Hk y ltac:(by left) b s s1).
Qed.

Section extended.
Context (b : block) (d : list Z) (e : partition_table_entry).
Context (Hd : sector_of b 0 = Some d) (Hsig : signature d = 43605) (He : e ∈ table_entries d) (Hne : entry_empty e = false) (Hext : is_extended e = true).
Context (Hn : block_size b < 2 ^ 32) (Ho : e_offset e = 0 \/ 2 * e_offset e < block_size b).

(** The tables that are visited again and again. *)
Definition visited (sector primary : Z) : Prop := sector = 0 \/ primary = e_offset e /\ (sector = e_offset e \/ sector = 2 * e_offset e).

Lemma read_never_returns depth : forall sector primary s s', visited sector primary -> scan_ok b s -> read_partition_table depth sector primary s <> Ok (tt, s').
Proof using All.
  induction depth as [|depth IH]; intros sector primary s s' Hv Hs; [done|]. rewrite read_unfold. assert (Hr := proj1 (sector_of_range b 0) ltac:(by rewrite Hd)).
  destruct (entry_range d e He) as [Hor _]. assert (Hsz : block_size (sn_block s) = block_size b) by (unfold block_size; by rewrite (so_sectors _ _ Hs)).
  unfold bind at 1, gets. rewrite Hsz, leb_false by (unfold visited in Hv; lia). unfold bind at 1. destruct (malloc s) as [[[] s1]|] eqn:Em; [|done].
  assert (Hs1 := scan_keeps_malloc b s s1 Em Hs). unfold bind.
  destruct (read_block_spec s1 0 d) as (b' & -> & Hb). { unfold sector_of. by rewrite (so_sectors _ _ Hs1). }
  rewrite (eqb_true (signature d)) by done. cbn [negb]. intros E. apply (each_reaches _ _ e b) in E as (s2 & s3 & Hs2 & E2); [| | |done].
  - unfold handle in E2. rewrite Hne, Hext in E2. destruct (Z.eqb_spec sector 0) as [->|Hsec]; (eapply IH; [|exact Hs2|exact E2]); unfold visited in *; [lia|].
    rewrite u32_small by lia. lia.
  - intros y Hy. destruct (entry_range d y Hy). by apply keeps_handle.
  - destruct Hs1 as [H1 H2]. split; [by cbn; rewrite Hb|done].
Qed.
End extended.

(** C39: The scan of a device with an extended partition in its first half
    never returns: however many nested calls it is given, it does not end,
    since each call reads the table in the first sector again. *)
Theorem partition_scan_diverges b d e : sector_of b 0 = Some d -> signature d = 43605 -> e ∈ table_entries d -> entry_empty e = false -> is_extended e = true ->
  block_size b < 2 ^ 32 -> 2 * e_offset e < block_size b -> forall depth mem l, partition_scan depth b mem <> Ok l.
Proof.
  intros Hd Hsig He Hne Hext Hn Ho depth mem l. unfold partition_scan. destruct (read_partition_table depth 0 0 _) as [[[] s]|] eqn:E; [|done].
  exfalso. eapply (read_never_returns b d e Hd Hsig He Hne Hext Hn (or_intror Ho) depth 0 0 _ s); [by left| |exact E]. by split.
Qed.

(** A disk of 64 sectors with an extended partition at sector 8. *)
Definition demo_table : list Z :=
  replicate 446 0 ++ [0; 0; 0; 0; 5; 0; 0; 0; 8; 0; 0; 0; 16; 0; 0; 0] ++ replicate 48 0 ++ [85; 170].
Definition demo_disk : block := mkBlock BLOCK_RAW (demo_table :: replicate 63 (replicate 512 0)) 0 0.

Lemma partition_scan_diverges_witness :
  partition_scan 20 demo_disk (replicate 100 true) = Err Block /\ forall depth mem l, partition_scan depth demo_disk mem <> Ok l.
Proof.
  split; [vm_compute; reflexivity|].
  apply (partition_scan_diverges demo_disk demo_table (mkEntry 5 8 16)); [reflexivity|reflexivity|left|reflexivity|reflexivity|reflexivity|reflexivity].
Defined.

(** * Access to partitions *)

(** A partition of the device reads and writes its own sectors and no
    others. *)
Theorem partition_local p b sector buffer : inside (block_size b) p -> block_size b < 2 ^ 32 -> pn_type p <> BLOCK_FOREIGN -> bl_type b <> BLOCK_FOREIGN -> 0 <= sector < pn_size p ->
  exists b' b'', partition_write p b sector buffer = Ok b' /\ partition_read p b' sector = Ok (buffer, b'') /\
    forall k, k <> pn_start p + sector -> sector_of b' k = sector_of b k.
Proof.
  intros (H1 & H2 & H3) Hn Hp Hb Hs. unfold partition_write, partition_read. rewrite !(leb_false (pn_size p)), !u32_small, bool_decide_eq_false_2 by (done || lia).
  destruct (block_write_spec b (pn_start p + sector) buffer Hb) as (b' & -> & _ & Hw & Ho); [lia|]. cbn [negb assert rbind].
  destruct (block_read_spec b' _ _ Hw) as (b'' & E & _ & _). exists b', b''. split_and!; [done|done|]. intros k Hk. by apply Ho.
Qed.
End Partition.
