(* ===== verification/Cache.v ===== *)
(** The buffer cache (src/src/filesys/cache.c, src/src/filesys/cache.h).

    [cache] has the static variables of cache.c: the blocks, by address,
    the LRU list [buffer_cache], the list [free_cache], the cache lock
    and the read-ahead queue; and the device the file system is on.
    Every function of the file is translated as one routine run by one
    thread: a lock that is not free is a [Block] outcome.

    The second half states what the cache promises its clients, as a
    class ([BufferCache], [BufferCacheSpec]): the blocks of the device,
    behind handles that are pinned between [cache_get_block] and
    [cache_put_block].  The inode layer is proved against that class. *)

From stdpp Require Import options.
From S2P Require Import Prelude Monitor RwLock Ring Queue Block.

Definition MAX_CACHE_SIZE : nat := 64.

Record cache_block := mkCacheBlock {
  cb_sector : Z;
  cb_dirty : bool;
  cb_valid : bool;
  cb_data : list Z;
  cb_lock : rw_lock;
}.

Record cache := mkCache {
  fs_device : block;
  cache_blocks : list cache_block;
  buffer_cache : list nat;   (** most recently used first *)
  free_cache : list nat;
  cache_locked : bool;
  read_queue : array_queue;
}.

(** * Access to the state *)

Definition set_device (d : block) (c : cache) : cache :=
  mkCache d (cache_blocks c) (buffer_cache c) (free_cache c) (cache_locked c) (read_queue c).
Definition set_blocks (l : list cache_block) (c : cache) : cache :=
  mkCache (fs_device c) l (buffer_cache c) (free_cache c) (cache_locked c) (read_queue c).
Definition set_lists (b f : list nat) (c : cache) : cache :=
  mkCache (fs_device c) (cache_blocks c) b f (cache_locked c) (read_queue c).
Definition set_locked (l : bool) (c : cache) : cache :=
  mkCache (fs_device c) (cache_blocks c) (buffer_cache c) (free_cache c) l (read_queue c).
Definition set_read_queue (q : array_queue) (c : cache) : cache :=
  mkCache (fs_device c) (cache_blocks c) (buffer_cache c) (free_cache c) (cache_locked c) q.

(** [*block] for a block address. *)
Definition get_cb (i : nat) : ST cache cache_block :=
  fun c => match cache_blocks c !! i with Some b => Ok (b, c) | None => Err Fault end.
Definition put_cb (i : nat) (b : cache_block) : ST cache unit :=
  modify (fun c => set_blocks (<[i := b]> (cache_blocks c)) c).

Definition cb_set_lock (l : rw_lock) (b : cache_block) : cache_block :=
  mkCacheBlock (cb_sector b) (cb_dirty b) (cb_valid b) (cb_data b) l.
Definition cb_set_data (d : list Z) (b : cache_block) : cache_block :=
  mkCacheBlock (cb_sector b) (cb_dirty b) (cb_valid b) d (cb_lock b).
Definition cb_set_dirty (d : bool) (b : cache_block) : cache_block :=
  mkCacheBlock (cb_sector b) d (cb_valid b) (cb_data b) (cb_lock b).
Definition cb_set_valid (v : bool) (b : cache_block) : cache_block :=
  mkCacheBlock (cb_sector b) (cb_dirty b) v (cb_data b) (cb_lock b).
Definition cb_set_sector (s : Z) (b : cache_block) : cache_block :=
  mkCacheBlock s (cb_dirty b) (cb_valid b) (cb_data b) (cb_lock b).
Definition set_mode (m : rw_mode) (l : rw_lock) : rw_lock :=
  mkRw (num_readers l) (num_writers l) (pending_readers l) (pending_writer l)
    (reader_next l) m.

(** [cache_lock]: taking it twice panics, as releasing it unheld. *)
Definition lock_cache : ST cache unit :=
  let! held := gets cache_locked in
  if held then fail Panic else modify (set_locked true).
Definition unlock_cache : ST cache unit :=
  let! held := gets cache_locked in
  if held then modify (set_locked false) else fail Panic.

(** A call of a read-write lock routine that need not wait. *)
Definition rw_call (i : nat) (f : rw_lock -> rw_segment) : ST cache held :=
  let! b := get_cb i in
  match f (cb_lock b) with
  | Leave l _ h => put_cb i (cb_set_lock l b);;; ret h
  | Sleep _ _ => fail Block
  | Crash => fail Panic
  end.

Definition dev_write (sector : Z) (data : list Z) : ST cache unit :=
  let! d := gets fs_device in
  let! d' := lift (block_write d sector data) in
  modify (set_device d').

Definition dev_read (sector : Z) : ST cache (list Z) :=
  let! d := gets fs_device in
  let! (buf, d') := lift (block_read d sector) in
  modify (set_device d');;; ret buf.

Definition list_drop (i : nat) (l : list nat) : list nat := filter (fun j => j <> i) l.
Arguments list_drop : simpl never.

(** * cache.c *)

Definition block_init (data : option (list Z)) : option cache_block :=
  match data with
  | Some d => Some (mkCacheBlock SIZE_MAX false false d rw_lock_init)
  | None => None
  end.

(** [mem] lists what the calls of [malloc] return for the blocks' data;
    without memory for every block the thread exits. *)
Fixpoint init_blocks (n : nat) (mem : list (option (list Z))) : option (list cache_block) :=
  match n with
  | O => Some []
  | S n =>
      match mem with
      | d :: mem =>
          match block_init d, init_blocks n mem with
          | Some b, Some l => Some (b :: l)
          | _, _ => None
          end
      | [] => None
      end
  end.

Definition cache_init (dev : block) (mem : list (option (list Z)))
    (queue_mem : option (list Z)) : option cache :=
  match queue_init queue_mem (Z.of_nat MAX_CACHE_SIZE) true,
        init_blocks MAX_CACHE_SIZE mem with
  | Some q, Some l => Some (mkCache dev l [] (rev (seq 0 MAX_CACHE_SIZE)) false q)
  | _, _ => None
  end.

Fixpoint lookup_loop (l : list nat) (blocks : list cache_block) (sector : Z) : option nat :=
  match l with
  | [] => None
  | i :: l =>
      match blocks !! i with
      | Some b => if cb_sector b =? sector then Some i else lookup_loop l blocks sector
      | None => lookup_loop l blocks sector
      end
  end.

Definition cache_lookup (sector : Z) : ST cache (option nat) :=
  gets (fun c => lookup_loop (buffer_cache c) (cache_blocks c) sector).

(** The scan from the back of the list for a block that can be locked
    exclusively. *)
Fixpoint victim_loop (l : list nat) : ST cache (option nat) :=
  match l with
  | [] => ret None
  | i :: l =>
      let! h := rw_call i write_lock_try_acquire in
      match h with
      | Writing => ret (Some i)
      | _ => victim_loop l
      end
  end.

(** [while (!victim)]: a pass that finds no victim is repeated, and the
    thread spins until another one releases a block. *)
Definition evict_LRU_block (sector : Z) : ST cache nat :=
  let! l := gets buffer_cache in
  let! victim := victim_loop (rev l) in
  match victim with
  | None => fail Block
  | Some i =>
      unlock_cache;;;
      let! b := get_cb i in
      (if cb_dirty b then dev_write (cb_sector b) (cb_data b) else ret tt);;;
      let! b := get_cb i in
      put_cb i (mkCacheBlock sector false false (cb_data b) (cb_lock b));;;
      rw_call i write_lock_release;;;
      lock_cache;;;
      ret i
  end.

(** One pass of the [do ... while (evicted)] loop: the block, and
    whether the pass must be repeated. *)
Definition get_block_pass (sector : Z) (exclusive : bool) : ST cache (nat * bool) :=
  lock_cache;;;
  let! hit := cache_lookup sector in
  let! i :=
    match hit with
    | Some i => ret i
    | None =>
        let! free := gets free_cache in
        match free with
        | [] => evict_LRU_block sector
        | i :: _ =>
            let! b := get_cb i in
            put_cb i (cb_set_sector sector b);;; ret i
        end
    end in
  modify (fun c => set_lists (i :: list_drop i (buffer_cache c))
                     (list_drop i (free_cache c)) c);;;
  unlock_cache;;;
  rw_call i (if exclusive then write_lock_acquire else read_lock_acquire);;;
  let! b := get_cb i in
  put_cb i (cb_set_lock
              (set_mode (if exclusive then WRITE_LOCKED else READ_LOCKED) (cb_lock b)) b);;;
  let! b := get_cb i in
  if negb (cb_sector b =? sector) then
    put_cb i (cb_set_lock (set_mode UNLOCKED (cb_lock b)) b);;;
    rw_call i (if exclusive then write_lock_release else read_lock_release);;;
    ret (i, true)
  else ret (i, false).

Fixpoint get_block_loop (fuel : nat) (sector : Z) (exclusive : bool) : ST cache nat :=
  match fuel with
  | O => fail Block
  | S fuel =>
      let! (i, evicted) := get_block_pass sector exclusive in
      if evicted then get_block_loop fuel sector exclusive else ret i
  end.

(** A thread that runs alone never repeats the pass. *)
Definition cache_get_block (sector : Z) (exclusive : bool) : ST cache nat :=
  get_block_loop 2 sector exclusive.

Definition cache_put_block (i : nat) : ST cache unit :=
  let! b := get_cb i in
  match mode (cb_lock b) with
  | WRITE_LOCKED => rw_call i write_lock_release;;; ret tt
  | READ_LOCKED => rw_call i read_lock_release;;; ret tt
  | UNLOCKED => ret tt
  end.

(** The pointer returned is the block's data; here, its contents. *)
Definition cache_read_block (i : nat) : ST cache (list Z) :=
  let! b := get_cb i in
  (if negb (cb_valid b) then
     let! buf := dev_read (cb_sector b) in
     put_cb i (cb_set_valid true (cb_set_data buf b))
   else ret tt);;;
  let! b := get_cb i in
  ret (cb_data b).

Definition cache_zero_block (i : nat) : ST cache (list Z) :=
  let! b := get_cb i in
  let zeros := replicate (Z.to_nat BLOCK_SECTOR_SIZE) 0 in
  put_cb i (cb_set_valid true (cb_set_dirty true (cb_set_data zeros b)));;;
  ret zeros.

Definition cache_mark_block_dirty (i : nat) : ST cache unit :=
  let! b := get_cb i in
  put_cb i (cb_set_dirty true b).

(** A store through the pointer [cache_read_block] or
    [cache_zero_block] returned. *)
Definition cache_store (i : nat) (data : list Z) : ST cache unit :=
  let! b := get_cb i in
  put_cb i (cb_set_data data b).

Definition cache_read_ahead (sector : Z) : ST cache unit :=
  if s32 sector <? 0 then ret tt
  else
    let! q := gets read_queue in
    match queue_enqueue sector q with
    | Leave q' _ _ => modify (set_read_queue q')
    | Sleep _ _ => fail Block
    | Crash => fail Panic
    end.

(** One round of the read-ahead daemon. *)
Definition cache_read_ahead_daemon : ST cache unit :=
  let! q := gets read_queue in
  match queue_dequeue q with
  | Leave q' _ (Item sector) =>
      modify (set_read_queue q');;;
      let! i := cache_get_block sector false in
      cache_read_block i;;;
      cache_put_block i
  | Sleep _ _ => fail Block
  | _ => fail Panic
  end.

Definition flush_block (i : nat) : ST cache unit :=
  let! b := get_cb i in
  (if cb_dirty b then
     let! h := rw_call i write_lock_try_acquire in
     match h with
     | Writing =>
         let! b := get_cb i in
         (if cb_valid b && cb_dirty b then
            dev_write (cb_sector b) (cb_data b);;;
            let! b := get_cb i in
            put_cb i (cb_set_dirty false b)
          else ret tt);;;
         rw_call i write_lock_release;;; ret tt
     | _ => ret tt
     end
   else ret tt);;;
  lock_cache;;;
  unlock_cache.

Fixpoint flush_loop (l : list nat) : ST cache unit :=
  match l with
  | [] => ret tt
  | i :: l => flush_block i;;; flush_loop l
  end.

Definition cache_flush : ST cache unit :=
  let! l := gets buffer_cache in
  flush_loop (rev l).

(** One round of the write-behind daemon, after [timer_sleep]. *)
Definition cache_write_behind_daemon : ST cache unit := cache_flush.

(** * What the cache promises *)

(** The contents of a sector: 512 bytes. *)
Definition sector_ok (d : list Z) : Prop :=
  length d = 512%nat /\ Forall (fun b => 0 <= b < 2 ^ 8) d.


(** A block between [cache_get_block] and [cache_put_block]: its
    sector, whether access is exclusive, the contents behind the pointer
    once the client has asked for it, and whether the client has marked
    it dirty. *)
Record pin := mkPin {
  pin_sector : Z;
  pin_excl : bool;
  pin_data : option (list Z);
  pin_dirty : bool;
}.

Class BufferCache (C : Type) := {
  bc_get : Z -> bool -> ST C nat;
  bc_put : nat -> ST C unit;
  bc_read : nat -> ST C (list Z);
  bc_zero : nat -> ST C (list Z);
  bc_store : nat -> list Z -> ST C unit;
  bc_dirty : nat -> ST C unit;
  bc_ahead : Z -> ST C unit;
}.

Definition zero_sector : list Z := replicate 512 0.

(** The contents of the device after the pin is released. *)
Definition commit (p : pin) (v : gmap Z (list Z)) : gmap Z (list Z) :=
  match pin_data p with
  | Some d => <[pin_sector p := d]> v
  | None => v
  end.

(** [bc_rep c v P]: the cache and its device hold the sectors [v], and
    the blocks pinned are [P].  A client sees its own stores at once;
    the device as a whole sees them when the pin is released. *)
Class BufferCacheSpec (C : Type) `{BufferCache C} := {
  bc_rep : C -> gmap Z (list Z) -> gmap nat pin -> Prop;
  bc_rep_size c v P s d : bc_rep c v P -> v !! s = Some d -> sector_ok d;
  bc_get_spec c v P s ex :
    bc_rep c v P -> (forall i p, P !! i = Some p -> pin_sector p <> s) ->
    (size P < 64)%nat ->
    wp (bc_get s ex) (fun i c' =>
      P !! i = None /\ bc_rep c' v (<[i := mkPin s ex None false]> P)) c;
  bc_read_spec c v P i p d :
    bc_rep c v P -> P !! i = Some p ->
    pin_data p = Some d \/ pin_data p = None /\ v !! pin_sector p = Some d ->
    wp (bc_read i) (fun r c' => r = d /\
      bc_rep c' v (<[i := mkPin (pin_sector p) (pin_excl p) (Some d) (pin_dirty p)]> P)) c;
  bc_zero_spec c v P i p :
    bc_rep c v P -> P !! i = Some p -> pin_excl p = true ->
    is_Some (v !! pin_sector p) ->
    wp (bc_zero i) (fun r c' => r = zero_sector /\
      bc_rep c' v (<[i := mkPin (pin_sector p) true (Some zero_sector) true]> P)) c;
  bc_store_spec c v P i p d d' :
    bc_rep c v P -> P !! i = Some p -> pin_excl p = true \/ d' = d ->
    pin_data p = Some d -> sector_ok d' ->
    wp (bc_store i d') (fun _ c' =>
      bc_rep c' v (<[i := mkPin (pin_sector p) (pin_excl p) (Some d') (pin_dirty p)]> P)) c;
  bc_dirty_spec c v P i p d :
    bc_rep c v P -> P !! i = Some p -> pin_data p = Some d ->
    wp (bc_dirty i) (fun _ c' =>
      bc_rep c' v (<[i := mkPin (pin_sector p) (pin_excl p) (Some d) true]> P)) c;
  bc_put_spec c v P i p :
    bc_rep c v P -> P !! i = Some p ->
    pin_data p = None \/ pin_dirty p = true \/ pin_data p = v !! pin_sector p ->
    wp (bc_put i) (fun _ c' => bc_rep c' (commit p v) (delete i P)) c;
  bc_ahead_spec c v P s :
    bc_rep c v P -> s32 s < 0 \/ is_Some (v !! s) ->
    wp (bc_ahead s) (fun _ c' => bc_rep c' v P) c;
}.

#[global] Instance cache_ops : BufferCache cache := {
  bc_get := cache_get_block;
  bc_put := cache_put_block;
  bc_read := cache_read_block;
  bc_zero := cache_zero_block;
  bc_store := cache_store;
  bc_dirty := cache_mark_block_dirty;
  bc_ahead := cache_read_ahead;
}.

(** * The representation *)

(** The lock of a block, as its pin has left it. *)
Definition lock_state (o : option pin) (l : rw_lock) : Prop :=
  exists m, l = match o with
                | None => mkRw 0 0 0 false false m
                | Some p => if pin_excl p then mkRw 0 1 0 false false WRITE_LOCKED
                            else mkRw 1 0 0 false false READ_LOCKED
                end.

Record block_rep (dev : block) (v : gmap Z (list Z)) (o : option pin) (b : cache_block)
    : Prop := {
  br_dirty : cb_dirty b = true -> cb_valid b = true /\ is_Some (v !! cb_sector b);
  br_clean : cb_dirty b = false -> v !! cb_sector b = sector_of dev (cb_sector b);
  br_lock : lock_state o (cb_lock b);
  br_sector : forall p, o = Some p -> pin_sector p = cb_sector b;
  br_fresh : forall p, o = Some p -> pin_data p = None -> pin_dirty p = false;
  br_untouched : o ≫= pin_data = None -> cb_valid b = true ->
    v !! cb_sector b = Some (cb_data b);
  br_touched : forall p d, o = Some p -> pin_data p = Some d ->
    cb_valid b = true /\ cb_data b = d /\ (pin_dirty p = true -> cb_dirty b = true) /\
    is_Some (v !! cb_sector b) /\ sector_ok d;
}.

Definition free_block (b : cache_block) : Prop :=
  cb_valid b = false /\ cb_dirty b = false /\ lock_state None (cb_lock b).

Record cache_rep (c : cache) (v : gmap Z (list Z)) (P : gmap nat pin) : Prop := {
  cr_unlocked : cache_locked c = false;
  cr_type : bl_type (fs_device c) <> BLOCK_FOREIGN;
  cr_len : length (cache_blocks c) = 64%nat;
  cr_perm : buffer_cache c ++ free_cache c ≡ₚ seq 0 64;
  cr_pins : forall i, is_Some (P !! i) -> i ∈ buffer_cache c;
  cr_free : forall i b, i ∈ free_cache c -> cache_blocks c !! i = Some b -> free_block b;
  cr_block : forall i b, i ∈ buffer_cache c -> cache_blocks c !! i = Some b ->
    block_rep (fs_device c) v (P !! i) b;
  cr_inj : forall i j bi bj, i ∈ buffer_cache c -> j ∈ buffer_cache c ->
    cache_blocks c !! i = Some bi -> cache_blocks c !! j = Some bj ->
    cb_sector bi = cb_sector bj -> i = j;
  cr_uncached : forall s,
    (forall i b, i ∈ buffer_cache c -> cache_blocks c !! i = Some b -> cb_sector b <> s) ->
    v !! s = sector_of (fs_device c) s;
  cr_dom : forall s, is_Some (v !! s) <-> 0 <= s < block_size (fs_device c);
  cr_size : forall s d, v !! s = Some d -> sector_ok d;
  cr_queue : queue_wf (read_queue c);
  cr_discard : q_discard_mode (read_queue c) = true;
  cr_ahead : Forall (fun s => is_Some (v !! s)) (a_items (queue_contents (read_queue c)));
}.
