(* ===== verification/CacheSpec.v ===== *)
(** The buffer cache meets its specification: the routines of [Cache]
    implement the class [BufferCacheSpec]; flushing makes the device
    equal to what the clients see. *)

From stdpp Require Import options.
From S2P Require Import Prelude Monitor RwLock Ring Queue Block Cache.

(** * Symbolic execution of the cache's primitives *)

Definition with_block (i : nat) (b : cache_block) (c : cache) : cache :=
  set_blocks (<[i := b]> (cache_blocks c)) c.

Lemma wp_get_cb i (Q : cache_block -> cache -> Prop) c b :
  cache_blocks c !! i = Some b -> Q b c -> wp (get_cb i) Q c.
Proof. intros Hb HQ. unfold wp, get_cb. by rewrite Hb. Qed.

Lemma wp_put_cb i b (Q : unit -> cache -> Prop) c :
  Q tt (with_block i b c) -> wp (put_cb i b) Q c.
Proof. done. Qed.

Lemma wp_rw_call i f (Q : held -> cache -> Prop) c b l sg h :
  cache_blocks c !! i = Some b -> f (cb_lock b) = Leave l sg h ->
  Q h (with_block i (cb_set_lock l b) c) -> wp (rw_call i f) Q c.
Proof.
  intros Hb Hf HQ. unfold rw_call. apply wp_bind. eapply wp_get_cb; [done|].
  rewrite Hf. apply wp_bind, wp_put_cb. done.
Qed.

Lemma lookup_with_block i b c :
  (i < length (cache_blocks c))%nat -> cache_blocks (with_block i b c) !! i = Some b.
Proof. intros. cbn. by apply list_lookup_insert_eq. Qed.

Lemma lookup_with_block_ne i j b c :
  i <> j -> cache_blocks (with_block i b c) !! j = cache_blocks c !! j.
Proof. intros. cbn. by apply list_lookup_insert_ne. Qed.

Lemma with_block_twice i b b' c : with_block i b' (with_block i b c) = with_block i b' c.
Proof. unfold with_block, set_blocks. cbn. by rewrite list_insert_insert_eq. Qed.

Lemma length_with_block i b c :
  length (cache_blocks (with_block i b c)) = length (cache_blocks c).
Proof. cbn. by rewrite length_insert. Qed.

Lemma wp_lock_cache (Q : unit -> cache -> Prop) c :
  cache_locked c = false -> Q tt (set_locked true c) -> wp lock_cache Q c.
Proof. intros Hl HQ. unfold lock_cache. wp_steps. by rewrite Hl. Qed.

Lemma wp_unlock_cache (Q : unit -> cache -> Prop) c :
  cache_locked c = true -> Q tt (set_locked false c) -> wp unlock_cache Q c.
Proof. intros Hl HQ. unfold unlock_cache. wp_steps. by rewrite Hl. Qed.

(** * Locks of pinned and unpinned blocks *)

Lemma lock_acquire_free ex l :
  lock_state None l ->
  exists l', (if ex : bool then write_lock_acquire else read_lock_acquire) l =
      Leave l' [] (if ex then Writing else Reading) /\
    forall s, lock_state (Some (mkPin s ex None false))
      (set_mode (if ex then WRITE_LOCKED else READ_LOCKED) l').
Proof. intros [m ->]. destruct ex; eexists; (split; [done|]); by eexists. Qed.

Lemma try_acquire_free l :
  lock_state None l ->
  exists l', write_lock_try_acquire l = Leave l' [] Writing /\
    exists l'' sg, write_lock_release l' = Leave l'' sg Free /\ lock_state None l''.
Proof.
  intros [m ->]. eexists. split; [done|]. do 2 eexists. split; [done|]. by eexists.
Qed.

Lemma try_acquire_pinned p l :
  lock_state (Some p) l -> write_lock_try_acquire l = Leave l [] Free.
Proof. intros [m ->]. by destruct (pin_excl p). Qed.

(** * Preservation of the representation *)

Section rep_lemmas.
Context (c : cache) (v : gmap Z (list Z)) (P : gmap nat pin).
Hypothesis Hrep : cache_rep c v P.

Lemma rep_lookup i :
  i ∈ buffer_cache c \/ i ∈ free_cache c -> exists b, cache_blocks c !! i = Some b.
Proof using Hrep.
  intros Hi. apply lookup_lt_is_Some_2. rewrite (cr_len _ _ _ Hrep).
  assert (Hin : i ∈ seq 0 64).
  { rewrite <- (cr_perm _ _ _ Hrep). by rewrite elem_of_app. }
  apply elem_of_seq in Hin. lia.
Qed.

Lemma rep_nodup : NoDup (buffer_cache c ++ free_cache c).
Proof using Hrep. rewrite (cr_perm _ _ _ Hrep). apply NoDup_seq. Qed.

Lemma rep_pinned i p :
  P !! i = Some p ->
  i ∈ buffer_cache c /\ exists b, cache_blocks c !! i = Some b /\
    block_rep (fs_device c) v (Some p) b.
Proof using Hrep.
  intros Hp. assert (Hi : i ∈ buffer_cache c) by (apply (cr_pins _ _ _ Hrep); by rewrite Hp).
  split; [done|]. destruct (rep_lookup i) as [b Hb]; [by left|].
  exists b. split; [done|]. rewrite <- Hp. by apply (cr_block _ _ _ Hrep).
Qed.

(** Change of one cached block and of its pin, with the same sector. *)
Lemma rep_update i b b' o' P' :
  i ∈ buffer_cache c -> cache_blocks c !! i = Some b -> cb_sector b' = cb_sector b ->
  block_rep (fs_device c) v o' b' ->
  P' !! i = o' -> (forall j, j <> i -> P' !! j = P !! j) ->
  cache_rep (with_block i b' c) v P'.
Proof using Hrep.
  intros Hi Hb Hs Hbr HPi HPj. destruct Hrep.
  assert (Hlen : (i < length (cache_blocks c))%nat) by by eapply lookup_lt_Some.
  assert (Hsec : forall j bj, cache_blocks (with_block i b' c) !! j = Some bj ->
            exists bj', cache_blocks c !! j = Some bj' /\ cb_sector bj = cb_sector bj').
  { intros j bj Hj. destruct (decide (j = i)) as [->|].
    - rewrite lookup_with_block in Hj by done. simplify_eq. eauto.
    - rewrite lookup_with_block_ne in Hj by done. eauto. }
  split; cbn [cache_locked fs_device buffer_cache free_cache read_queue with_block set_blocks];
    try done.
  - by rewrite length_with_block.
  - intros j Hj. destruct (decide (j = i)) as [->|]; [done|].
    rewrite HPj in Hj by done. by apply cr_pins.
  - intros j bj Hj Hbj. destruct (decide (j = i)) as [->|].
    + pose proof rep_nodup as (_ & Hdis & _)%NoDup_app. by destruct (Hdis i).
    + rewrite lookup_with_block_ne in Hbj by done. by eapply cr_free.
  - intros j bj Hj Hbj. destruct (decide (j = i)) as [->|].
    + rewrite lookup_with_block in Hbj by done. simplify_eq. done.
    + rewrite lookup_with_block_ne in Hbj by done. rewrite HPj by done. by apply cr_block.
  - intros j k bj bk Hj Hk (bj' & Hbj & Ej)%Hsec (bk' & Hbk & Ek)%Hsec E.
    eapply cr_inj; [done..|]. congruence.
  - intros s Hno. apply cr_uncached. intros j bj Hj Hbj.
    destruct (decide (j = i)) as [->|].
    + simplify_eq. rewrite <- Hs. apply (Hno i); [done|]. by apply lookup_with_block.
    + apply (Hno j); [done|]. by rewrite lookup_with_block_ne.
Qed.

(** The order of the LRU list does not matter. *)
Lemma rep_reorder l :
  l ≡ₚ buffer_cache c -> cache_rep (set_lists l (free_cache c) c) v P.
Proof using Hrep.
  intros Hl. destruct Hrep.
  assert (Hin : forall i, i ∈ l <-> i ∈ buffer_cache c) by (intros; by rewrite Hl).
  split; cbn; try done.
  - by rewrite Hl.
  - intros i ?. rewrite Hin. auto.
  - intros i b. rewrite Hin. auto.
  - intros i j bi bj. rewrite !Hin. eauto.
  - intros s Hno. apply cr_uncached. intros i b Hi. apply Hno. by apply Hin.
Qed.

Lemma rep_queue q :
  queue_wf q -> q_discard_mode q = true ->
  Forall (fun s => is_Some (v !! s)) (a_items (queue_contents q)) ->
  cache_rep (set_read_queue q c) v P.
Proof using Hrep. intros ???. destruct Hrep. by split. Qed.
End rep_lemmas.

(** * The operations on a pinned block *)

Section pinned_ops.
Context (c : cache) (v : gmap Z (list Z)) (P : gmap nat pin) (i : nat) (p : pin).
Hypothesis Hrep : cache_rep c v P.
Hypothesis Hp : P !! i = Some p.

(** The pin of block [i] becomes [p'] as its block becomes [b']. *)
Lemma repin b b' p' :
  cache_blocks c !! i = Some b -> cb_sector b' = cb_sector b ->
  block_rep (fs_device c) v (Some p') b' -> cache_rep (with_block i b' c) v (<[i := p']> P).
Proof using Hrep Hp.
  intros Hb Hs Hbr. destruct (rep_pinned _ _ _ Hrep i p Hp) as [Hi _].
  eapply (rep_update c v P Hrep i b); [done..|apply lookup_insert_eq|].
  intros. by apply lookup_insert_ne.
Qed.

Lemma lock_state_pin p' l :
  pin_excl p' = pin_excl p -> lock_state (Some p) l -> lock_state (Some p') l.
Proof using Type. intros He [m ->]. exists m. by rewrite He. Qed.

Lemma dev_read_spec s d (Q : list Z -> cache -> Prop) :
  sector_of (fs_device c) s = Some d ->
  (forall dev, bl_type dev = bl_type (fs_device c) ->
     bl_sectors dev = bl_sectors (fs_device c) -> Q d (set_device dev c)) ->
  wp (dev_read s) Q c.
Proof using Type.
  intros Hs HQ. destruct (block_read_spec _ _ _ Hs) as (dev & Hr & Ht & Hsec).
  unfold dev_read. wp_steps. apply wp_lift. rewrite Hr. cbn. wp_steps. by apply HQ.
Qed.
End pinned_ops.

(** The device counts its reads; nothing else of it changes. *)
Lemma rep_device c v P dev :
  cache_rep c v P -> bl_type dev = bl_type (fs_device c) ->
  bl_sectors dev = bl_sectors (fs_device c) -> cache_rep (set_device dev c) v P.
Proof.
  intros Hrep Ht Hs. pose proof (cr_block _ _ _ Hrep) as Hblock.
  pose proof (cr_dom _ _ _ Hrep) as Hdom. destruct Hrep.
  assert (Hsec : forall s, sector_of dev s = sector_of (fs_device c) s)
    by (intros; unfold sector_of; by rewrite Hs).
  split; cbn; try done.
  - by rewrite Ht.
  - intros i b Hi Hb. destruct (Hblock i b Hi Hb). split; try done. by rewrite Hsec.
  - intros s Hno. rewrite Hsec. auto.
  - intros s. unfold block_size. rewrite Hs. apply Hdom.
Qed.

(** A block whose pin shows its contents. *)
Lemma touched_rep dev v p ex b d dirty :
  pin_excl p = ex -> cb_valid b = true -> cb_data b = d -> sector_ok d ->
  is_Some (v !! cb_sector b) -> pin_sector p = cb_sector b ->
  (cb_dirty b = false -> v !! cb_sector b = sector_of dev (cb_sector b)) ->
  (dirty = true -> cb_dirty b = true) ->
  lock_state (Some p) (cb_lock b) ->
  block_rep dev v (Some (mkPin (pin_sector p) ex (Some d) dirty)) b.
Proof.
  intros <- Hv Hd Hlen Hs Hps Hclean Hdirty Hlock. split; try done.
  - by intros p' [= <-].
  - by intros p' [= <-].
  - by intros p' d' [= <-] [= <-].
Qed.

Lemma cache_read_block_spec c v P i p d :
  cache_rep c v P -> P !! i = Some p ->
  pin_data p = Some d \/ pin_data p = None /\ v !! pin_sector p = Some d ->
  wp (cache_read_block i) (fun r c' => r = d /\
    cache_rep c' v (<[i := mkPin (pin_sector p) (pin_excl p) (Some d) (pin_dirty p)]> P)) c.
Proof.
  intros Hrep Hp Hd. destruct (rep_pinned _ _ _ Hrep i p Hp) as (Hi & b & Hb & Hbr).
  assert (Hlen : (i < length (cache_blocks c))%nat) by by eapply lookup_lt_Some.
  pose proof Hbr as [Hdirty Hclean Hlock Hsec Hfr Hun Ht].
  pose proof (Hsec p eq_refl) as Hps.
  assert (Hfacts : (cb_valid b = true -> cb_data b = d) /\ sector_ok d /\
            is_Some (v !! cb_sector b) /\ (pin_dirty p = true -> cb_dirty b = true) /\
            (cb_valid b = false -> v !! cb_sector b = Some d)).
  { destruct Hd as [Hd|[Hn Hd]].
    - destruct (Ht p d eq_refl Hd) as (? & ? & ? & ? & ?).
      split; [intros; congruence|]. split; [done|]. split; [done|]. split; [done|]. congruence.
    - rewrite Hps in Hd. rewrite (Hfr p eq_refl Hn).
      pose proof (cr_size _ _ _ Hrep _ _ Hd).
      split; [intros Hv; specialize (Hun Hn Hv); congruence|].
      split; [done|]. by rewrite Hd. }
  destruct Hfacts as (Hvd & Hl & Hsome & Hdd & Hinv).
  unfold cache_read_block. wp_steps. eapply wp_get_cb; [done|]. wp_steps.
  destruct (cb_valid b) eqn:Hv; cbn [negb].
  - wp_steps. eapply wp_get_cb; [done|]. wp_steps. split; [auto|].
    replace c with (with_block i b c) at 1
      by (unfold with_block; rewrite list_insert_id by done; by destruct c).
    eapply repin; [done..|]. apply touched_rep; auto.
  - assert (Hnd : cb_dirty b = false) by (destruct (cb_dirty b); [destruct Hdirty|]; congruence).
    wp_steps. eapply (dev_read_spec c (cb_sector b) d).
    { rewrite <- Hclean by done. auto. }
    intros dev Ht' Hs'. apply wp_put_cb. wp_steps.
    eapply wp_get_cb; [by apply lookup_with_block|]. wp_steps. split; [done|].
    eapply (repin (set_device dev c)); [by apply rep_device|done..|].
    apply touched_rep; cbn; auto. intros _. unfold sector_of. rewrite Hs'. by apply Hclean.
Qed.

Lemma sector_ok_replicate x : 0 <= x < 2 ^ 8 -> sector_ok (replicate 512 x).
Proof. intros Hx. split; [apply length_replicate|]. by apply Forall_replicate. Qed.

Lemma zero_sector_ok : sector_ok zero_sector.
Proof. by apply sector_ok_replicate. Qed.

Lemma cache_zero_block_spec c v P i p :
  cache_rep c v P -> P !! i = Some p -> pin_excl p = true ->
  is_Some (v !! pin_sector p) ->
  wp (cache_zero_block i) (fun r c' => r = zero_sector /\
    cache_rep c' v (<[i := mkPin (pin_sector p) true (Some zero_sector) true]> P)) c.
Proof.
  intros Hrep Hp Hex Hs. destruct (rep_pinned _ _ _ Hrep i p Hp) as (Hi & b & Hb & Hbr).
  destruct Hbr as [_ _ Hlock Hsec _ _ _]. rewrite (Hsec p eq_refl) in Hs.
  unfold cache_zero_block. wp_steps. eapply wp_get_cb; [done|]. wp_steps.
  apply wp_put_cb. wp_steps. split; [done|]. eapply repin; [done..|].
  apply touched_rep; cbn; auto; try done. apply zero_sector_ok.
Qed.

Lemma cache_store_spec c v P i p d d' :
  cache_rep c v P -> P !! i = Some p -> pin_excl p = true \/ d' = d ->
  pin_data p = Some d -> sector_ok d' ->
  wp (cache_store i d') (fun _ c' =>
    cache_rep c' v (<[i := mkPin (pin_sector p) (pin_excl p) (Some d') (pin_dirty p)]> P)) c.
Proof.
  intros Hrep Hp Hex Hd Hl. destruct (rep_pinned _ _ _ Hrep i p Hp) as (Hi & b & Hb & Hbr).
  destruct Hbr as [_ Hclean Hlock Hsec _ _ Ht].
  destruct (Ht p d eq_refl Hd) as (? & ? & ? & ? & ?).
  unfold cache_store. wp_steps. eapply wp_get_cb; [done|].
  apply wp_put_cb. eapply repin; [done..|].
  apply touched_rep; cbn; auto; done.
Qed.

Lemma cache_mark_block_dirty_spec c v P i p d :
  cache_rep c v P -> P !! i = Some p -> pin_data p = Some d ->
  wp (cache_mark_block_dirty i) (fun _ c' =>
    cache_rep c' v (<[i := mkPin (pin_sector p) (pin_excl p) (Some d) true]> P)) c.
Proof.
  intros Hrep Hp Hd. destruct (rep_pinned _ _ _ Hrep i p Hp) as (Hi & b & Hb & Hbr).
  destruct Hbr as [_ _ Hlock Hsec _ _ Ht].
  destruct (Ht p d eq_refl Hd) as (? & ? & ? & ? & ?).
  unfold cache_mark_block_dirty. wp_steps. eapply wp_get_cb; [done|].
  apply wp_put_cb. eapply repin; [done..|]. apply touched_rep; cbn; auto; done.
Qed.

Lemma cache_read_ahead_spec c v P s :
  cache_rep c v P -> s32 s < 0 \/ is_Some (v !! s) ->
  wp (cache_read_ahead s) (fun _ c' => cache_rep c' v P) c.
Proof.
  intros Hrep Hs. unfold cache_read_ahead.
  destruct (Z.ltb_spec (s32 s) 0) as [|Hpos]; [by wp_steps|].
  assert (Hsome : is_Some (v !! s)) by (destruct Hs; [lia|done]).
  pose proof (cr_ahead _ _ _ Hrep) as Hah.
  wp_steps. pose proof (cr_queue _ _ _ Hrep) as Hq. pose proof (cr_discard _ _ _ Hrep) as Hd.
  unfold queue_enqueue. rewrite Hd. cbn [andb].
  destruct (queue_full (read_queue c)) eqn:Hf.
  - wp_steps. by apply rep_queue.
  - pose proof (queue_enqueue_loop_refines _ Hq s) as [Hgood Happ].
    unfold a_append in Happ. rewrite <- queue_full_items, Hf in Happ by done.
    unfold queue_enqueue_loop in *. rewrite Hf in *. wp_steps. injection Happ as Happ.
    apply rep_queue; [done..|]. cbn [a_items queue_contents q_capacity q_head q_tail q_buffer] in *. rewrite <- Happ.
    apply Forall_app. by rewrite Forall_singleton.
Qed.

(** [block_rep] reads the sectors only at the block's own sector. *)
Lemma block_rep_sectors dev v v' o b :
  v' !! cb_sector b = v !! cb_sector b -> block_rep dev v o b -> block_rep dev v' o b.
Proof. intros He []. split; by rewrite ?He. Qed.

(** The contents of a dirty pinned block become those of its sector. *)
Lemma rep_commit c v P i p b d :
  cache_rep c v P -> P !! i = Some p -> cache_blocks c !! i = Some b ->
  pin_data p = Some d -> cb_dirty b = true ->
  cache_rep c (<[cb_sector b := d]> v) (<[i := mkPin (cb_sector b) (pin_excl p) None false]> P).
Proof.
  intros Hrep Hp Hb Hd Hdi.
  destruct (rep_pinned _ _ _ Hrep i p Hp) as (Hi & b' & Hb' & Hbr). simplify_eq.
  pose proof Hbr as [_ _ Hlock _ _ _ Ht].
  destruct (Ht p d eq_refl Hd) as (Hv & <- & _ & Hs & Hl).
  pose proof (cr_inj _ _ _ Hrep) as Hinj. pose proof (cr_block _ _ _ Hrep) as Hblock.
  split; try apply Hrep.
  - intros j Hj. apply lookup_insert_is_Some' in Hj as [<-|Hj]; [done|].
    by apply (cr_pins _ _ _ Hrep).
  - intros j bj Hj Hbj. destruct (decide (j = i)) as [->|Hne].
    + simplify_eq. rewrite lookup_insert_eq.
      split; rewrite ?lookup_insert_eq; try done; [congruence|..].
      * by intros p' [= <-].
      * by intros p' [= <-].
      * by intros p' d' [= <-].
    + rewrite lookup_insert_ne by done. eapply block_rep_sectors; [|by apply Hblock].
      apply lookup_insert_ne. intros E. by destruct (Hinj j i bj b).
  - intros s Hno. rewrite lookup_insert_ne; [by apply (cr_uncached _ _ _ Hrep)|].
    by apply (Hno i).
  - intros s. rewrite <- (cr_dom _ _ _ Hrep), lookup_insert_is_Some'.
    split; [by intros [<-|?]|by right].
  - intros s d'. rewrite lookup_insert_Some. intros [[_ <-]|[_ ?]]; [done|].
    by eapply (cr_size _ _ _ Hrep).
  - eapply Forall_impl; [apply (cr_ahead _ _ _ Hrep)|]. intros s Hs'.
    apply lookup_insert_is_Some'. by right.
Qed.

(** Unlocking a block whose contents are those of its sector. *)
Lemma rep_unlock c v P i p b l :
  cache_rep c v P -> P !! i = Some p -> cache_blocks c !! i = Some b ->
  pin_data p = None \/ pin_data p = v !! pin_sector p -> lock_state None l ->
  cache_rep (with_block i (cb_set_lock l b) c) v (delete i P).
Proof.
  intros Hrep Hp Hb Hd Hl.
  destruct (rep_pinned _ _ _ Hrep i p Hp) as (Hi & b' & Hb' & Hbr). simplify_eq.
  destruct Hbr as [Hdirty Hclean _ Hsec _ Hun Ht]. pose proof (Hsec p eq_refl) as Hps.
  eapply (rep_update c v P Hrep i b _ None); [done..| |apply lookup_delete_eq|].
  - split; cbn; try done. intros _ Hv. destruct (pin_data p) as [d|] eqn:Hpd.
    + destruct (Ht p d eq_refl Hpd) as (_ & -> & _). destruct Hd as [?|Hd]; [done|].
      by rewrite <- Hps.
    + by apply Hun.
  - intros. by apply lookup_delete_ne.
Qed.

Lemma cache_put_block_spec c v P i p :
  cache_rep c v P -> P !! i = Some p ->
  pin_data p = None \/ pin_dirty p = true \/ pin_data p = v !! pin_sector p ->
  wp (cache_put_block i) (fun _ c' => cache_rep c' (commit p v) (delete i P)) c.
Proof.
  intros Hrep Hp Hok. destruct (rep_pinned _ _ _ Hrep i p Hp) as (Hi & b & Hb & Hbr).
  pose proof Hbr as [_ _ [m Hm] Hsec _ _ Ht]. pose proof (Hsec p eq_refl) as Hps.
  assert (Hgoal : forall l, lock_state None l ->
    cache_rep (with_block i (cb_set_lock l b) c) (commit p v) (delete i P)).
  { intros l Hl. unfold commit. destruct (pin_data p) as [d|] eqn:Hd.
    2:{ eapply rep_unlock; eauto. }
    destruct (decide (v !! pin_sector p = Some d)) as [Hsame|Hdiff].
    - rewrite insert_id by done. eapply rep_unlock; [done..| |done]. right. congruence.
    - destruct Hok as [?|[Hpd|?]]; [done| |congruence].
      destruct (Ht p d eq_refl Hd) as (_ & _ & Hdd & _).
      rewrite Hps. rewrite <- (delete_insert_eq P i (mkPin (cb_sector b) (pin_excl p) None false)).
      eapply rep_unlock; [by apply rep_commit; auto|apply lookup_insert_eq|done|by left|done]. }
  unfold cache_put_block. wp_steps. eapply wp_get_cb; [done|].
  rewrite Hm. destruct (pin_excl p); cbn [mode]; wp_steps;
    (eapply wp_rw_call; [done|rewrite Hm; done|]); wp_steps; apply Hgoal; by eexists.
Qed.

(** * Selecting a block *)

Lemma list_drop_notin i l : i ∉ l -> list_drop i l = l.
Proof.
  intros Hi. unfold list_drop. induction l as [|j l IH]; [done|].
  apply not_elem_of_cons in Hi as [??]. rewrite filter_cons_True by done. f_equal. auto.
Qed.

Lemma list_drop_perm i l : NoDup l -> i ∈ l -> i :: list_drop i l ≡ₚ l.
Proof.
  induction l as [|j l IH]; intros Hnd Hi; [by apply not_elem_of_nil in Hi|].
  apply NoDup_cons in Hnd as [Hj Hnd]. unfold list_drop.
  destruct (decide (j = i)) as [->|Hne].
  - rewrite filter_cons_False by auto. fold (list_drop i l). by rewrite list_drop_notin.
  - rewrite filter_cons_True by done. fold (list_drop i l).
    apply elem_of_cons in Hi as [?|Hi]; [congruence|].
    rewrite <- (IH Hnd Hi) at 2. apply perm_swap.
Qed.

(** The state in which [cache_get_block] has found its block [i]: once
    the lists are updated and the cache lock is released, the
    representation holds and block [i] is for sector [s]. *)
Definition selected (s : Z) (v : gmap Z (list Z)) (P : gmap nat pin) (i : nat) (c : cache)
    : Prop :=
  cache_locked c = true /\ P !! i = None /\
  cache_rep (set_locked false (set_lists (i :: list_drop i (buffer_cache c))
                                 (list_drop i (free_cache c)) c)) v P /\
  exists b, cache_blocks c !! i = Some b /\ cb_sector b = s.

Lemma lookup_loop_Some l blocks s i :
  lookup_loop l blocks s = Some i ->
  i ∈ l /\ exists b, blocks !! i = Some b /\ cb_sector b = s.
Proof.
  induction l as [|j l IH]; cbn; [done|]. intros Hl.
  destruct (blocks !! j) as [b|] eqn:Hb.
  - destruct (Z.eqb_spec (cb_sector b) s).
    + injection Hl as <-. split; [left|eauto].
    + destruct (IH Hl) as (? & ?). split; [by right|done].
  - destruct (IH Hl) as (? & ?). split; [by right|done].
Qed.

Lemma lookup_loop_None l blocks s :
  lookup_loop l blocks s = None ->
  forall i b, i ∈ l -> blocks !! i = Some b -> cb_sector b <> s.
Proof.
  induction l as [|j l IH]; cbn; intros Hl i b Hi Hb; [by apply not_elem_of_nil in Hi|].
  apply elem_of_cons in Hi as [->|Hi].
  - rewrite Hb in Hl. by destruct (Z.eqb_spec (cb_sector b) s).
  - destruct (blocks !! j) as [b'|]; [destruct (_ =? s); [done|]|]; eauto.
Qed.

(** A hit. *)
Lemma selected_hit c v P s i :
  cache_rep c v P -> (forall j p, P !! j = Some p -> pin_sector p <> s) ->
  lookup_loop (buffer_cache c) (cache_blocks c) s = Some i ->
  selected s v P i (set_locked true c).
Proof.
  intros Hrep Hs (Hi & b & Hb & Hbs)%lookup_loop_Some.
  pose proof (rep_nodup _ _ _ Hrep) as (Hnd & Hdis & _)%NoDup_app.
  split; [done|]. split; [|split; [|by exists b]].
  - destruct (P !! i) as [p|] eqn:Hp; [|done].
    destruct (rep_pinned _ _ _ Hrep i p Hp) as (_ & b' & Hb' & Hbr). simplify_eq.
    by destruct (Hs i p); [|apply (br_sector _ _ _ _ Hbr)].
  - cbn. rewrite (list_drop_notin i (free_cache c)) by (by apply Hdis).
    replace (set_locked false _) with
      (set_lists (i :: list_drop i (buffer_cache c)) (free_cache c) c).
    + apply rep_reorder; [done|]. by apply list_drop_perm.
    + unfold set_locked, set_lists. cbn. by rewrite (cr_unlocked _ _ _ Hrep).
Qed.

(** A block taken from the free list. *)
Lemma selected_free c v P s i free b :
  cache_rep c v P -> free_cache c = i :: free -> cache_blocks c !! i = Some b ->
  lookup_loop (buffer_cache c) (cache_blocks c) s = None ->
  selected s v P i (with_block i (cb_set_sector s b) (set_locked true c)).
Proof.
  intros Hrep Hfree Hb Hmiss. pose proof (lookup_loop_None _ _ _ Hmiss) as Hno.
  assert (Hlen : (i < length (cache_blocks c))%nat) by by eapply lookup_lt_Some.
  pose proof (rep_nodup _ _ _ Hrep) as Hnd. rewrite Hfree in Hnd.
  apply NoDup_app in Hnd as (Hnd & Hdis & Hndf). apply NoDup_cons in Hndf as [Hif Hndf].
  assert (Hib : i ∉ buffer_cache c) by (intros Hi; by destruct (Hdis i Hi); left).
  assert (Hpi : P !! i = None).
  { destruct (P !! i) as [p|] eqn:Hp; [|done].
    destruct Hib. apply (cr_pins _ _ _ Hrep). by rewrite Hp. }
  destruct (cr_free _ _ _ Hrep i b) as (Hv & Hd & Hl); [rewrite Hfree; left|done|].
  split; [done|]. split; [done|]. split.
  2:{ eexists. split; [by apply lookup_with_block|done]. }
  cbn. rewrite list_drop_notin by done. rewrite Hfree. unfold list_drop.
  rewrite filter_cons_False by auto. fold (list_drop i free). rewrite list_drop_notin by done.
  assert (Hlk : forall j bj, j ∈ i :: buffer_cache c ->
      <[i := cb_set_sector s b]> (cache_blocks c) !! j = Some bj ->
      (j = i /\ bj = cb_set_sector s b) \/
      (j <> i /\ j ∈ buffer_cache c /\ cache_blocks c !! j = Some bj)).
  { intros j bj Hj Hbj. destruct (decide (j = i)) as [->|Hne].
    - rewrite list_lookup_insert_eq in Hbj by done. simplify_eq. by left.
    - rewrite list_lookup_insert_ne in Hbj by done.
      apply elem_of_cons in Hj as [?|?]; [done|]. by right. }
  split; cbn; try apply Hrep; try done.
  - rewrite length_insert. apply Hrep.
  - rewrite <- (cr_perm _ _ _ Hrep), Hfree. apply Permutation_middle.
  - intros j Hj. right. by apply (cr_pins _ _ _ Hrep).
  - intros j bj Hj Hbj. destruct (decide (j = i)) as [->|Hne]; [done|].
    rewrite list_lookup_insert_ne in Hbj by done.
    eapply (cr_free _ _ _ Hrep); [rewrite Hfree; by right|done].
  - intros j bj Hj Hbj. destruct (Hlk j bj Hj Hbj) as [[-> ->]|(Hne & Hj' & Hbj')].
    + rewrite Hpi. split; cbn; try done; try congruence.
      intros _. by apply (cr_uncached _ _ _ Hrep).
    + by apply (cr_block _ _ _ Hrep).
  - intros j k bj bk Hj Hk Hbj Hbk E.
    destruct (Hlk j bj Hj Hbj) as [[-> ->]|(Hne & Hj' & Hbj')],
      (Hlk k bk Hk Hbk) as [[-> ->]|(Hne' & Hk' & Hbk')]; [done|..].
    + by destruct (Hno k bk).
    + by destruct (Hno j bj).
    + by eapply (cr_inj _ _ _ Hrep).
  - intros s' Hs'. apply (cr_uncached _ _ _ Hrep). intros j bj Hj Hbj.
    apply (Hs' j); [by right|]. rewrite list_lookup_insert_ne; [done|]. congruence.
Qed.

(** * Eviction *)

Lemma exists_unpinned c v P :
  cache_rep c v P -> free_cache c = [] -> (size P < 64)%nat ->
  Exists (fun i => P !! i = None) (buffer_cache c).
Proof.
  intros Hrep Hfree Hsize.
  destruct (decide (Exists (fun i => P !! i = None) (buffer_cache c))) as [|Hno]; [done|].
  apply not_Exists_Forall in Hno; [|intros; apply _].
  assert (Hsub : list_to_set (seq 0 64) ⊆ dom P).
  { intros i Hi%elem_of_list_to_set. apply elem_of_dom.
    rewrite <- (cr_perm _ _ _ Hrep), Hfree, app_nil_r in Hi.
    rewrite Forall_forall in Hno. specialize (Hno i Hi). cbn in Hno.
    by destruct (P !! i). }
  apply subseteq_size in Hsub. rewrite size_list_to_set in Hsub by apply NoDup_seq.
  rewrite size_dom, length_seq in Hsub. lia.
Qed.

Lemma victim_loop_spec c v P l :
  cache_rep c v P -> (forall i, i ∈ l -> i ∈ buffer_cache c) ->
  Exists (fun i => P !! i = None) l ->
  wp (victim_loop l) (fun r c' => exists i b lk,
    r = Some i /\ i ∈ buffer_cache c /\ P !! i = None /\ cache_blocks c !! i = Some b /\
    write_lock_try_acquire (cb_lock b) = Leave lk [] Writing /\
    c' = set_locked true (with_block i (cb_set_lock lk b) c)) (set_locked true c).
Proof.
  intros Hrep. induction l as [|i l IH]; intros Hl Hex; [by apply Exists_nil in Hex|].
  assert (Hi : i ∈ buffer_cache c) by (apply Hl; left).
  destruct (rep_lookup _ _ _ Hrep i) as [b Hb]; [by left|].
  pose proof (cr_block _ _ _ Hrep i b Hi Hb) as Hbr. cbn [victim_loop]. wp_steps.
  destruct (P !! i) as [p|] eqn:Hp.
  - pose proof (try_acquire_pinned _ _ (br_lock _ _ _ _ Hbr)) as Htry.
    eapply wp_rw_call; [done..|].
    replace (with_block i (cb_set_lock (cb_lock b) b) (set_locked true c))
      with (set_locked true c).
    + apply IH; [intros j Hj; apply Hl; by right|].
      by apply Exists_cons in Hex as [?|?]; [congruence|].
    + unfold with_block, set_blocks, set_locked. cbn.
      rewrite list_insert_id; [done|]. rewrite Hb. by destruct b.
  - destruct (try_acquire_free _ (br_lock _ _ _ _ Hbr)) as (lk & Htry & _).
    eapply wp_rw_call; [done..|]. wp_steps. by exists i, b, lk.
Qed.

(** The victim, written back if dirty, becomes an empty block for
    sector [s]. *)
Lemma selected_evict c v P s i b dev lk :
  cache_rep c v P -> i ∈ buffer_cache c -> P !! i = None -> cache_blocks c !! i = Some b ->
  lookup_loop (buffer_cache c) (cache_blocks c) s = None ->
  bl_type dev = bl_type (fs_device c) ->
  sector_of dev (cb_sector b) = v !! cb_sector b ->
  (forall s', s' <> cb_sector b -> sector_of dev s' = sector_of (fs_device c) s') ->
  lock_state None lk ->
  selected s v P i
    (set_locked true
       (with_block i (mkCacheBlock s false false (cb_data b) lk) (set_device dev c))).
Proof.
  intros Hrep Hi Hpi Hb Hmiss Hty Hsame Hother Hlk.
  pose proof (lookup_loop_None _ _ _ Hmiss) as Hno.
  assert (Hlen : (i < length (cache_blocks c))%nat) by by eapply lookup_lt_Some.
  pose proof (rep_nodup _ _ _ Hrep) as (Hnd & Hdis & _)%NoDup_app.
  set (b' := mkCacheBlock s false false (cb_data b) lk).
  assert (Hsec : forall s', (forall j bj, j <> i -> j ∈ buffer_cache c ->
      cache_blocks c !! j = Some bj -> cb_sector bj <> s') -> v !! s' = sector_of dev s').
  { intros s' Hs'. destruct (decide (s' = cb_sector b)) as [->|Hne]; [done|].
    rewrite Hother by done. apply (cr_uncached _ _ _ Hrep). intros j bj Hj Hbj.
    destruct (decide (j = i)) as [->|]; [congruence|by apply (Hs' j)]. }
  split; [done|]. split; [done|]. split.
  2:{ exists b'. split; [|done]. cbn. by rewrite list_lookup_insert_eq. }
  cbn. rewrite (list_drop_notin i (free_cache c)) by (by apply Hdis).
  assert (Hin : forall j, j ∈ i :: list_drop i (buffer_cache c) <-> j ∈ buffer_cache c)
    by (intros; by rewrite (list_drop_perm i (buffer_cache c))).
  assert (Hlook : forall j bj, <[i := b']> (cache_blocks c) !! j = Some bj ->
      (j = i /\ bj = b') \/ (j <> i /\ cache_blocks c !! j = Some bj)).
  { intros j bj Hbj. destruct (decide (j = i)) as [->|Hne].
    - rewrite list_lookup_insert_eq in Hbj by done. simplify_eq. by left.
    - rewrite list_lookup_insert_ne in Hbj by done. by right. }
  split; cbn; try apply Hrep; try done.
  - rewrite Hty. apply Hrep.
  - rewrite length_insert. apply Hrep.
  - rewrite <- (cr_perm _ _ _ Hrep). rewrite <- (list_drop_perm i (buffer_cache c)) at 2 by done.
    done.
  - intros j Hj. apply Hin. by apply (cr_pins _ _ _ Hrep).
  - intros j bj Hj [[-> _]|[_ Hbj]]%Hlook; [by destruct (Hdis i)|].
    by eapply (cr_free _ _ _ Hrep).
  - intros j bj Hj%Hin [[-> ->]|[Hne Hbj]]%Hlook.
    + rewrite Hpi. split; cbn; try done; try congruence. intros _. apply Hsec.
      intros k bk _ Hk Hbk. by apply (Hno k).
    + destruct (cr_block _ _ _ Hrep j bj Hj Hbj) as [H1 H2 H3 H4 H5 H6 H7].
      split; try done. intros Hd. rewrite Hother; [by apply H2|]. intros E.
      by destruct Hne; eapply (cr_inj _ _ _ Hrep).
  - intros j k bj bk Hj%Hin Hk%Hin [[-> ->]|[Hne Hbj]]%Hlook [[-> ->]|[Hne' Hbk]]%Hlook E;
      [done|by destruct (Hno k bk)|by destruct (Hno j bj)|by eapply (cr_inj _ _ _ Hrep)].
  - intros s' Hs'. apply Hsec. intros j bj Hne Hj Hbj. apply (Hs' j); [by apply Hin|].
    by rewrite list_lookup_insert_ne.
  - intros s'. rewrite (cr_dom _ _ _ Hrep), <- !sector_of_range.
    destruct (decide (s' = cb_sector b)) as [->|Hne]; [|by rewrite Hother].
    rewrite Hsame, (cr_dom _ _ _ Hrep). by rewrite sector_of_range.
Qed.

Lemma write_back_spec c v P i b lk :
  cache_rep c v P -> i ∈ buffer_cache c -> P !! i = None -> cache_blocks c !! i = Some b ->
  wp (if cb_dirty b then dev_write (cb_sector b) (cb_data b) else ret tt)
    (fun _ c' => exists dev,
      c' = set_locked false (with_block i (cb_set_lock lk b) (set_device dev c)) /\
      bl_type dev = bl_type (fs_device c) /\
      sector_of dev (cb_sector b) = v !! cb_sector b /\
      (forall s', s' <> cb_sector b -> sector_of dev s' = sector_of (fs_device c) s'))
    (set_locked false (set_locked true (with_block i (cb_set_lock lk b) c))).
Proof.
  intros Hrep Hi Hpi Hb. pose proof (cr_block _ _ _ Hrep i b Hi Hb) as Hbr. rewrite Hpi in Hbr.
  destruct (cb_dirty b) eqn:Hd.
  - destruct (br_dirty _ _ _ _ Hbr Hd) as [Hv Hs].
    destruct (block_write_spec (fs_device c) (cb_sector b) (cb_data b)) as (dev & Hw & Hty & Hn & Ho);
      [apply Hrep|by apply (cr_dom _ _ _ Hrep)|].
    unfold dev_write. wp_steps. apply wp_lift. cbn. rewrite Hw. cbn. wp_steps.
    exists dev. split; [done|]. split; [done|]. split; [|done].
    rewrite Hn. symmetry. by apply (br_untouched _ _ _ _ Hbr).
  - wp_steps. exists (fs_device c). split; [by destruct c|]. split; [done|]. split; [|done].
    symmetry. by apply (br_clean _ _ _ _ Hbr).
Qed.

Lemma evict_LRU_block_spec c v P s :
  cache_rep c v P -> free_cache c = [] -> (size P < 64)%nat ->
  lookup_loop (buffer_cache c) (cache_blocks c) s = None ->
  wp (evict_LRU_block s) (selected s v P) (set_locked true c).
Proof.
  intros Hrep Hfree Hsize Hmiss. unfold evict_LRU_block. wp_steps. cbn [buffer_cache set_locked].
  eapply wp_mono.
  { apply (victim_loop_spec c v P); [done| |].
    - intros i. by rewrite !list_elem_of_In, <- in_rev.
    - apply Exists_exists.
      destruct (proj1 (Exists_exists _ _) (exists_unpinned _ _ _ Hrep Hfree Hsize)) as (i & Hi & Hp).
      exists i. split; [|done]. by rewrite list_elem_of_In, <- in_rev, <- list_elem_of_In. }
  intros r c' (i & b & lk & -> & Hi & Hpi & Hb & Htry & ->).
  assert (Hlen : (i < length (cache_blocks c))%nat) by by eapply lookup_lt_Some.
  pose proof (cr_block _ _ _ Hrep i b Hi Hb) as Hbr. rewrite Hpi in Hbr.
  destruct (try_acquire_free _ (br_lock _ _ _ _ Hbr)) as (lk' & Htry' & lk2 & sg & Hrel & Hlk2).
  rewrite Htry in Htry'. injection Htry' as <-.
  wp_steps. apply wp_unlock_cache; [done|]. wp_steps.
  eapply wp_get_cb; [cbn; by rewrite list_lookup_insert_eq|]. wp_steps. cbn [cb_dirty cb_set_lock].
  eapply wp_mono.
  { apply (write_back_spec _ _ _ _ _ _ Hrep Hi Hpi Hb). }
  intros [] c' (dev & -> & Hty & Hsame & Hother). wp_steps.
  eapply wp_get_cb; [cbn; by rewrite list_lookup_insert_eq|].
  wp_steps. apply wp_put_cb. wp_steps.
  eapply wp_rw_call; [cbn; rewrite list_lookup_insert_eq; [done|by rewrite length_insert]|done|].
  wp_steps. apply wp_lock_cache; [done|]. wp_steps.
  rewrite !with_block_twice.
  change (set_locked false (with_block i (cb_set_lock lk b) (set_device dev c)))
    with (with_block i (cb_set_lock lk b) (set_locked false (set_device dev c))).
  rewrite with_block_twice. by apply (selected_evict c v P s i b dev lk2).
Qed.

(** * Taking a block *)

Lemma pinned_rep c v P i b s ex lk :
  cache_rep c v P -> i ∈ buffer_cache c -> P !! i = None -> cache_blocks c !! i = Some b ->
  cb_sector b = s -> lock_state (Some (mkPin s ex None false)) lk ->
  cache_rep (with_block i (cb_set_lock lk b) c) v (<[i := mkPin s ex None false]> P).
Proof.
  intros Hrep Hi Hp Hb Hs Hlk. pose proof (cr_block _ _ _ Hrep i b Hi Hb) as Hbr.
  eapply (rep_update _ _ _ Hrep i b); [done..| |apply lookup_insert_eq|].
  - rewrite Hp in Hbr. destruct Hbr as [H1 H2 _ _ _ H6 _]. split; cbn; try done.
    + by intros p [= <-].
    + by intros p [= <-].
    + intros p d [= <-]. done.
  - intros. by apply lookup_insert_ne.
Qed.

Lemma select_spec c v P s :
  cache_rep c v P -> (forall i p, P !! i = Some p -> pin_sector p <> s) ->
  (size P < 64)%nat ->
  wp (match lookup_loop (buffer_cache c) (cache_blocks c) s with
      | Some i => ret i
      | None =>
          let! free := gets free_cache in
          match free with
          | [] => evict_LRU_block s
          | i :: _ => let! b := get_cb i in put_cb i (cb_set_sector s b);;; ret i
          end
      end) (selected s v P) (set_locked true c).
Proof.
  intros Hrep Hs Hsize. destruct (lookup_loop _ _ _) as [i|] eqn:Hlook.
  { wp_steps. by apply selected_hit. }
  wp_steps. cbn [free_cache set_locked].
  destruct (free_cache c) as [|i free] eqn:Hfree; [by apply evict_LRU_block_spec|].
  destruct (rep_lookup _ _ _ Hrep i) as [b Hb]; [right; rewrite Hfree; left|].
  wp_steps. eapply wp_get_cb; [done|]. wp_steps. apply wp_put_cb. wp_steps.
  by eapply selected_free.
Qed.

Lemma get_block_pass_spec c v P s ex :
  cache_rep c v P -> (forall i p, P !! i = Some p -> pin_sector p <> s) ->
  (size P < 64)%nat ->
  wp (get_block_pass s ex) (fun r c' => snd r = false /\ P !! fst r = None /\
    cache_rep c' v (<[fst r := mkPin s ex None false]> P)) c.
Proof.
  intros Hrep Hs Hsize. unfold get_block_pass, cache_lookup. wp_steps.
  apply wp_lock_cache; [apply Hrep|]. wp_steps. cbn [buffer_cache cache_blocks set_locked].
  eapply wp_mono; [by apply (select_spec c v P)|].
  intros i c1 (Hl & Hpi & Hrep1 & b & Hb & Hbs). wp_steps.
  apply wp_unlock_cache; [done|]. wp_steps.
  set (c2 := set_locked false _) in *.
  assert (Hb2 : cache_blocks c2 !! i = Some b) by done.
  assert (Hi2 : i ∈ buffer_cache c2) by left.
  assert (Hlen : (i < length (cache_blocks c2))%nat) by by eapply lookup_lt_Some.
  pose proof (cr_block _ _ _ Hrep1 i b Hi2 Hb2) as Hbr. rewrite Hpi in Hbr.
  destruct (lock_acquire_free ex _ (br_lock _ _ _ _ Hbr)) as (lk & Hacq & Hlk).
  eapply wp_rw_call; [exact Hb2|exact Hacq|]. wp_steps.
  eapply wp_get_cb; [by apply lookup_with_block|]. wp_steps. apply wp_put_cb. wp_steps.
  rewrite with_block_twice. eapply wp_get_cb; [by apply lookup_with_block|].
  cbn [cb_sector cb_set_lock cb_lock]. rewrite Hbs, Z.eqb_refl. cbn [negb]. wp_steps.
  split; [done|]. split; [done|]. by apply (pinned_rep c2 v P i b s ex _).
Qed.

Lemma cache_get_block_spec c v P s ex :
  cache_rep c v P -> (forall i p, P !! i = Some p -> pin_sector p <> s) ->
  (size P < 64)%nat ->
  wp (cache_get_block s ex) (fun i c' => P !! i = None /\
    cache_rep c' v (<[i := mkPin s ex None false]> P)) c.
Proof.
  intros Hrep Hs Hsize. unfold cache_get_block. cbn [get_block_loop]. wp_steps.
  eapply wp_mono; [by apply (get_block_pass_spec c v P)|].
  intros [i evicted] c' (Hev & Hpi & Hrep'). cbn in *. subst evicted. by wp_steps.
Qed.

#[global] Instance cache_ops_spec : BufferCacheSpec cache := {
  bc_rep := cache_rep;
  bc_rep_size c v P s d Hrep := cr_size c v P Hrep s d;
  bc_get_spec := cache_get_block_spec;
  bc_read_spec := cache_read_block_spec;
  bc_zero_spec := cache_zero_block_spec;
  bc_store_spec := cache_store_spec;
  bc_dirty_spec := cache_mark_block_dirty_spec;
  bc_put_spec := cache_put_block_spec;
  bc_ahead_spec := cache_read_ahead_spec;
}.

(** * Writing back *)

Lemma rep_written_back c v P i b dev lk :
  cache_rep c v P -> i ∈ buffer_cache c -> P !! i = None -> cache_blocks c !! i = Some b ->
  cb_valid b = true ->
  bl_type dev = bl_type (fs_device c) ->
  sector_of dev (cb_sector b) = v !! cb_sector b ->
  (forall s', s' <> cb_sector b -> sector_of dev s' = sector_of (fs_device c) s') ->
  lock_state None lk ->
  cache_rep (with_block i (mkCacheBlock (cb_sector b) false (cb_valid b) (cb_data b) lk)
               (set_device dev c)) v P.
Proof.
  intros Hrep Hi Hpi Hb Hv Hty Hsame Hother Hlk.
  pose proof (cr_block _ _ _ Hrep i b Hi Hb) as Hbr. rewrite Hpi in Hbr.
  set (c' := with_block i _ _).
  assert (Hrep' : forall j bj, j ∈ buffer_cache c -> cache_blocks c' !! j = Some bj ->
            (exists b0, cache_blocks c !! j = Some b0 /\ cb_sector bj = cb_sector b0) /\
            block_rep dev v (P !! j) bj).
  { intros j bj Hj Hbj. destruct (decide (j = i)) as [->|Hne].
    - unfold c' in Hbj. rewrite lookup_with_block in Hbj by by eapply lookup_lt_Some.
      injection Hbj as <-. split; [by exists b|]. rewrite Hpi.
      destruct Hbr as [H1 H2 H3 H4 H5 H6 H7]. by split.
    - unfold c' in Hbj. rewrite lookup_with_block_ne in Hbj by done. cbn in Hbj.
      split; [by exists bj|].
      destruct (cr_block _ _ _ Hrep j bj Hj Hbj) as [H1 H2 H3 H4 H5 H6 H7].
      split; try done. intros Hd. rewrite Hother; [by apply H2|]. intros E.
      by destruct Hne; eapply (cr_inj _ _ _ Hrep). }
  split; try apply Hrep.
  - cbn. rewrite Hty. apply Hrep.
  - cbn. rewrite length_insert. apply Hrep.
  - intros j bj Hj Hbj. unfold c' in Hbj. rewrite lookup_with_block_ne in Hbj.
    + by eapply (cr_free _ _ _ Hrep).
    + intros <-. pose proof (rep_nodup _ _ _ Hrep) as (_ & Hdis & _)%NoDup_app.
      by destruct (Hdis i).
  - intros j bj Hj Hbj. by apply Hrep'.
  - intros j k bj bk Hj Hk Hbj Hbk E.
    destruct (Hrep' j bj Hj Hbj) as [(b1 & H1 & E1) _].
    destruct (Hrep' k bk Hk Hbk) as [(b2 & H2 & E2) _].
    eapply (cr_inj _ _ _ Hrep j k b1 b2); [done..|congruence].
  - intros s Hs. cbn. assert (Hne : s <> cb_sector b).
    { intros ->. eapply (Hs i); [done|apply lookup_with_block; by eapply lookup_lt_Some|done]. }
    rewrite Hother by done. apply (cr_uncached _ _ _ Hrep). intros j bj Hj Hbj.
    destruct (decide (j = i)) as [->|Hij]; [congruence|].
    apply (Hs j); [done|]. unfold c'. by rewrite lookup_with_block_ne.
  - intros s. cbn. rewrite (cr_dom _ _ _ Hrep), <- !sector_of_range.
    destruct (decide (s = cb_sector b)) as [->|Hne]; [|by rewrite Hother].
    rewrite Hsame, (cr_dom _ _ _ Hrep). by rewrite sector_of_range.
Qed.

Definition dirty_block (c : cache) (i : nat) : Prop :=
  exists b, cache_blocks c !! i = Some b /\ cb_dirty b = true.

Lemma wp_lock_unlock (Q : unit -> cache -> Prop) c :
  cache_locked c = false -> Q tt c -> wp lock_cache (fun _ => wp unlock_cache Q) c.
Proof.
  intros Hl HQ. apply wp_lock_cache; [done|]. apply wp_unlock_cache; [done|].
  destruct c; cbn in *. by subst.
Qed.

Lemma flush_block_spec c v P i :
  cache_rep c v P -> i ∈ buffer_cache c ->
  wp (flush_block i) (fun _ c' => cache_rep c' v P /\ buffer_cache c' = buffer_cache c /\
    (P !! i = None -> ~ dirty_block c' i) /\
    (forall j, dirty_block c' j -> dirty_block c j)) c.
Proof.
  intros Hrep Hi. destruct (rep_lookup _ _ _ Hrep i) as [b Hb]; [by left|].
  assert (Hlen : (i < length (cache_blocks c))%nat) by by eapply lookup_lt_Some.
  pose proof (cr_block _ _ _ Hrep i b Hi Hb) as Hbr.
  unfold flush_block. wp_steps. eapply wp_get_cb; [done|]. wp_steps.
  destruct (cb_dirty b) eqn:Hd.
  2:{ wp_steps. apply (wp_lock_unlock _ c); [apply Hrep|]. split; [done|]. split; [done|].
      split; [|done]. intros _ (b' & Hb' & Hd'). congruence. }
  destruct (P !! i) as [p|] eqn:Hp.
  - pose proof (try_acquire_pinned _ _ (br_lock _ _ _ _ Hbr)) as Htry.
    wp_steps. eapply wp_rw_call; [done..|]. wp_steps.
    replace (with_block i (cb_set_lock (cb_lock b) b) c) with c.
    + wp_steps. apply (wp_lock_unlock _ c); [apply Hrep|]. done.
    + unfold with_block, set_blocks. rewrite list_insert_id; [by destruct c|].
      rewrite Hb. by destruct b.
  - destruct (try_acquire_free _ (br_lock _ _ _ _ Hbr)) as (lk & Htry & lk2 & sg & Hrel & Hlk2).
    destruct (br_dirty _ _ _ _ Hbr Hd) as [Hv Hs].
    destruct (block_write_spec (fs_device c) (cb_sector b) (cb_data b)) as (dev & Hw & Hty & Hn & Ho);
      [apply Hrep|by apply (cr_dom _ _ _ Hrep)|].
    wp_steps. eapply wp_rw_call; [done..|]. wp_steps.
    cbn match. wp_steps. eapply wp_get_cb; [by apply lookup_with_block|]. cbn [cb_valid cb_dirty cb_set_lock].
    rewrite Hv, Hd. cbn [andb]. wp_steps. unfold dev_write. wp_steps. apply wp_lift. cbn.
    rewrite Hw. cbn. wp_steps. eapply wp_get_cb; [by apply lookup_with_block|].
    wp_steps. apply wp_put_cb. wp_steps.
    eapply wp_rw_call; [cbn; by rewrite list_insert_insert_eq, list_lookup_insert_eq|done|].
    wp_steps. set (c' := with_block _ _ _).
    assert (Hc' : c' = with_block i (mkCacheBlock (cb_sector b) false (cb_valid b) (cb_data b) lk2)
                         (set_device dev c)).
    { unfold c', with_block, set_blocks. cbn. by rewrite !list_insert_insert_eq. }
    clearbody c'. subst c'. wp_steps. apply wp_lock_unlock; [apply Hrep|].
    split; [|split; [done|split]].
    + apply (rep_written_back c v P); try done.
      rewrite Hn. symmetry. by apply (br_untouched _ _ _ _ Hbr).
    + intros _ (b' & Hb' & Hd'). rewrite lookup_with_block in Hb' by done.
      injection Hb' as <-. done.
    + intros j (bj & Hbj & Hdj). destruct (decide (j = i)) as [->|Hne]; [by exists b|].
      rewrite lookup_with_block_ne in Hbj by done. by exists bj.
Qed.

Lemma flush_loop_spec l : forall c v P,
  cache_rep c v P -> (forall i, i ∈ l -> i ∈ buffer_cache c) ->
  wp (flush_loop l) (fun _ c' => cache_rep c' v P /\ buffer_cache c' = buffer_cache c /\
    (forall i, i ∈ l -> P !! i = None -> ~ dirty_block c' i) /\
    (forall j, dirty_block c' j -> dirty_block c j)) c.
Proof.
  induction l as [|i l IH]; intros c v P Hrep Hl; cbn [flush_loop]; wp_steps.
  { split; [done|]. split; [done|]. split; [|done]. by intros i ?%not_elem_of_nil. }
  eapply wp_mono; [apply (flush_block_spec c v P i); [done|apply Hl; left]|].
  intros [] c1 (Hrep1 & Hbc1 & Hi & Hd1).
  eapply wp_mono; [apply (IH c1 v P); [done|intros j Hj; rewrite Hbc1; apply Hl; by right]|].
  intros [] c2 (Hrep2 & Hbc2 & Hl2 & Hd2). split; [done|]. split; [congruence|]. split.
  - intros j [->|Hj]%elem_of_cons Hp Hdj; [by apply Hi; [|apply Hd2]|by apply (Hl2 j)].
  - intros j Hj. by apply Hd1, Hd2.
Qed.

Lemma cache_flush_spec c v P :
  cache_rep c v P ->
  wp cache_flush (fun _ c' => cache_rep c' v P /\
    forall s, (forall i p, P !! i = Some p -> pin_sector p <> s) ->
      sector_of (fs_device c') s = v !! s) c.
Proof.
  intros Hrep. unfold cache_flush. wp_steps. eapply wp_mono.
  { apply (flush_loop_spec _ c v P); [done|].
    intros i. by rewrite !list_elem_of_In, <- in_rev. }
  intros [] c' (Hrep' & Hbc & Hclean & _). split; [done|]. intros s Hs.
  destruct (lookup_loop (buffer_cache c') (cache_blocks c') s) as [i|] eqn:Hlook.
  - apply lookup_loop_Some in Hlook as (Hi & b & Hb & <-).
    pose proof (cr_block _ _ _ Hrep' i b Hi Hb) as Hbr.
    destruct (P !! i) as [p|] eqn:Hp.
    { by destruct (Hs i p Hp); apply (br_sector _ _ _ _ Hbr). }
    symmetry. apply (br_clean _ _ _ _ Hbr). apply not_true_is_false. intros Hd.
    apply (Hclean i); [|done|by exists b].
    rewrite Hbc in Hi. by rewrite list_elem_of_In, <- in_rev, <- list_elem_of_In.
  - symmetry. apply (cr_uncached _ _ _ Hrep'). by apply lookup_loop_None.
Qed.

(** * The daemons and initialisation *)

Lemma queue_dequeue_item q :
  queue_wf q -> queue_empty q = false ->
  exists q' sg s, queue_dequeue q = Leave q' sg (Item s) /\ queue_wf q' /\
    q_discard_mode q' = q_discard_mode q /\
    a_items (queue_contents q) = s :: a_items (queue_contents q').
Proof.
  intros Hwf He. destruct (queue_dequeue_refines q Hwf) as [Hgood Heq].
  unfold a_dequeue in Heq. unfold queue_dequeue in *. rewrite He in *.
  destruct (a_items (queue_contents q)) as [|x l] eqn:Hitems.
  { apply queue_empty_items in Hitems; [congruence|done]. }
  destruct (q_buffer q !! _) as [item|] eqn:Hitem; [|done].
  do 3 eexists. split; [done|]. split; [done|]. split; [done|].
  cbn in Heq. injection Heq as Hl Hx. subst. done.
Qed.

Lemma cache_read_ahead_daemon_spec c v P :
  cache_rep c v P -> queue_empty (read_queue c) = false ->
  (forall i p s, P !! i = Some p -> s ∈ a_items (queue_contents (read_queue c)) ->
     pin_sector p <> s) ->
  (size P < 64)%nat ->
  wp cache_read_ahead_daemon (fun _ c' => cache_rep c' v P) c.
Proof.
  intros Hrep He Hpins Hsize. unfold cache_read_ahead_daemon. wp_steps.
  pose proof (cr_ahead _ _ _ Hrep) as Hah.
  destruct (queue_dequeue_item _ (cr_queue _ _ _ Hrep) He) as (q & sg & s & Hdq & Hwf & Hdm & Hit).
  rewrite Hdq. wp_steps. rewrite Hit in Hah. apply Forall_cons in Hah as [[d Hd] Hah].
  assert (Hrep1 : cache_rep (set_read_queue q c) v P).
  { apply rep_queue; [done..| |done]. rewrite Hdm. apply Hrep. }
  eapply wp_mono.
  { apply (cache_get_block_spec _ v P s); [done| |done].
    intros i p Hp. apply (Hpins i); [done|]. rewrite Hit. left. }
  intros i c1 [Hpi Hrep2]. wp_steps. eapply wp_mono.
  { eapply (cache_read_block_spec _ _ _ i _ d Hrep2); [apply lookup_insert_eq|by right]. }
  intros d' c2 [-> Hrep3]. eapply wp_mono.
  { eapply (cache_put_block_spec _ _ _ i _ Hrep3); [apply lookup_insert_eq|by right; right]. }
  cbn. intros [] c3 Hrep4.
  rewrite insert_insert_eq, delete_insert_id, insert_id in Hrep4 by done. exact Hrep4.
Qed.

Definition dev_view (dev : block) : gmap Z (list Z) := map_seqZ 0 (bl_sectors dev).

Lemma dev_view_lookup dev s : dev_view dev !! s = sector_of dev s.
Proof.
  apply option_eq. intros d. unfold dev_view, sector_of. rewrite lookup_map_seqZ_Some.
  destruct (Z.leb_spec 0 s).
  - rewrite Z.sub_0_r. naive_solver.
  - split; [lia|done].
Qed.

Lemma init_blocks_free n mem l :
  init_blocks n mem = Some l -> length l = n /\ Forall free_block l.
Proof.
  revert mem l. induction n as [|n IH]; intros mem l H; cbn in H; [by simplify_eq|].
  destruct mem as [|[d|] mem]; cbn in H; [done| |done].
  destruct (init_blocks n mem) as [l'|] eqn:Hl; [|done]. simplify_eq.
  destruct (IH _ _ Hl) as [Hlen Hall]. cbn. split; [by rewrite Hlen|]. constructor; [|done].
  split; [done|]. split; [done|]. by eexists.
Qed.

Lemma cache_init_rep dev mem buf c :
  bl_type dev <> BLOCK_FOREIGN -> Forall sector_ok (bl_sectors dev) ->
  length buf = 65%nat -> cache_init dev mem (Some buf) = Some c ->
  cache_rep c (dev_view dev) ∅ /\ fs_device c = dev.
Proof.
  intros Ht Hsz Hbuf Hc. unfold cache_init in Hc. cbn [queue_init] in Hc.
  destruct (init_blocks MAX_CACHE_SIZE mem) as [l|] eqn:Hl; [|done].
  apply init_blocks_free in Hl as [Hlen Hfree]. injection Hc as <-.
  split; [|done]. split; try done.
  - symmetry. apply Permutation_rev.
  - intros i [p Hp]. by rewrite lookup_empty in Hp.
  - intros i b _ Hb. by eapply Forall_lookup_1.
  - by intros i b ?%not_elem_of_nil.
  - by intros i j bi bj ?%not_elem_of_nil.
  - intros s _. apply dev_view_lookup.
  - intros s. rewrite dev_view_lookup. apply sector_of_range.
  - intros s d. rewrite dev_view_lookup. unfold sector_of.
    destruct (0 <=? s); [|done]. intros Hd. by eapply Forall_lookup_1 in Hsz.
  - split; cbn; try done; rewrite ?Hbuf; done.
Qed.
