(* ===== verification/CacheClient.v ===== *)
(** What the clients of the buffer cache see (src/src/filesys/cache.c):
    any sequence of sector reads, sector writes, read-ahead requests,
    flushes and rounds of the two daemons behaves like an array of
    sectors, and a flush makes the device equal to it. *)
From stdpp Require Import options.
From stdpp Require Import base gmap list numbers.
From S2P Require Import Prelude Ring Monitor RwLock Queue Block Cache CacheSpec.
Open Scope Z_scope.

(** * Rules for the calls of a client *)

Section client_rules.
Context {C : Type} `{BufferCacheSpec C}.
Context (c : C) (v : gmap Z (list Z)) (P : gmap nat pin).

Lemma wp_bc_get s ex (Q : nat -> C -> Prop) :
  bc_rep c v P -> (forall i p, P !! i = Some p -> pin_sector p <> s) -> (size P < 64)%nat ->
  (forall i c', P !! i = None -> bc_rep c' v (<[i := mkPin s ex None false]> P) -> Q i c') ->
  wp (bc_get s ex) Q c.
Proof using Type.
  intros Hrep Hs Hsz HQ. eapply wp_mono; [by apply bc_get_spec|]. naive_solver.
Qed.

Context (i : nat) (s : Z) (ex : bool).

Lemma wp_bc_read d (Q : list Z -> C -> Prop) :
  bc_rep c v (<[i := mkPin s ex None false]> P) -> v !! s = Some d ->
  (forall c', bc_rep c' v (<[i := mkPin s ex (Some d) false]> P) -> Q d c') ->
  wp (bc_read i) Q c.
Proof using Type.
  intros Hrep Hs HQ. eapply wp_mono.
  { eapply (bc_read_spec _ _ _ i _ d Hrep); [apply lookup_insert_eq|by right]. }
  intros ? c' [-> Hrep']. apply HQ. by rewrite insert_insert_eq in Hrep'.
Qed.

Lemma wp_bc_read_again d di (Q : list Z -> C -> Prop) :
  bc_rep c v (<[i := mkPin s ex (Some d) di]> P) ->
  (forall c', bc_rep c' v (<[i := mkPin s ex (Some d) di]> P) -> Q d c') ->
  wp (bc_read i) Q c.
Proof using Type.
  intros Hrep HQ. eapply wp_mono.
  { eapply (bc_read_spec _ _ _ i _ d Hrep); [apply lookup_insert_eq|by left]. }
  intros ? c' [-> Hrep']. apply HQ. by rewrite insert_insert_eq in Hrep'.
Qed.

Lemma wp_bc_zero o di (Q : list Z -> C -> Prop) :
  bc_rep c v (<[i := mkPin s true o di]> P) -> is_Some (v !! s) ->
  (forall c', bc_rep c' v (<[i := mkPin s true (Some zero_sector) true]> P) ->
     Q zero_sector c') ->
  wp (bc_zero i) Q c.
Proof using Type.
  intros Hrep Hs HQ. eapply wp_mono.
  { eapply (bc_zero_spec _ _ _ i _ Hrep); [apply lookup_insert_eq|done|done]. }
  intros ? c' [-> Hrep']. apply HQ. by rewrite insert_insert_eq in Hrep'.
Qed.

Lemma wp_bc_store d d' di (Q : unit -> C -> Prop) :
  bc_rep c v (<[i := mkPin s true (Some d) di]> P) -> sector_ok d' ->
  (forall c', bc_rep c' v (<[i := mkPin s true (Some d') di]> P) -> Q tt c') ->
  wp (bc_store i d') Q c.
Proof using Type.
  intros Hrep Hl HQ. eapply wp_mono.
  { by eapply (bc_store_spec _ _ _ i _ _ d' Hrep); [apply lookup_insert_eq|left|..]. }
  intros [] c' Hrep'. apply HQ. by rewrite insert_insert_eq in Hrep'.
Qed.

(** A store that changes nothing needs no exclusive access. *)
Lemma wp_bc_store_same d di (Q : unit -> C -> Prop) :
  bc_rep c v (<[i := mkPin s ex (Some d) di]> P) -> sector_ok d ->
  (forall c', bc_rep c' v (<[i := mkPin s ex (Some d) di]> P) -> Q tt c') ->
  wp (bc_store i d) Q c.
Proof using Type.
  intros Hrep Hl HQ. eapply wp_mono.
  { by eapply (bc_store_spec _ _ _ i _ _ d Hrep); [apply lookup_insert_eq|right|..]. }
  intros [] c' Hrep'. apply HQ. by rewrite insert_insert_eq in Hrep'.
Qed.

Lemma wp_bc_dirty d di (Q : unit -> C -> Prop) :
  bc_rep c v (<[i := mkPin s ex (Some d) di]> P) ->
  (forall c', bc_rep c' v (<[i := mkPin s ex (Some d) true]> P) -> Q tt c') ->
  wp (bc_dirty i) Q c.
Proof using Type.
  intros Hrep HQ. eapply wp_mono.
  { by eapply (bc_dirty_spec _ _ _ i _ _ Hrep); [apply lookup_insert_eq|..]. }
  intros [] c' Hrep'. apply HQ. by rewrite insert_insert_eq in Hrep'.
Qed.

Context (Hfree : P !! i = None).

(** A block whose contents were changed and marked. *)
Lemma wp_bc_put_dirty d (Q : unit -> C -> Prop) :
  bc_rep c v (<[i := mkPin s ex (Some d) true]> P) ->
  (forall c', bc_rep c' (<[s := d]> v) P -> Q tt c') ->
  wp (bc_put i) Q c.
Proof using Hfree.
  intros Hrep HQ. eapply wp_mono.
  { eapply (bc_put_spec _ _ _ i _ Hrep); [apply lookup_insert_eq|by right; left]. }
  cbn. intros [] c' Hrep'. apply HQ. by rewrite delete_insert_id in Hrep'.
Qed.

(** A block that was only looked at. *)
Lemma wp_bc_put_clean d (Q : unit -> C -> Prop) :
  bc_rep c v (<[i := mkPin s ex (Some d) false]> P) -> v !! s = Some d ->
  (forall c', bc_rep c' v P -> Q tt c') ->
  wp (bc_put i) Q c.
Proof using Hfree.
  intros Hrep Hs HQ. eapply wp_mono.
  { eapply (bc_put_spec _ _ _ i _ Hrep); [apply lookup_insert_eq|by right; right]. }
  cbn. intros [] c' Hrep'. apply HQ. by rewrite delete_insert_id, insert_id in Hrep'.
Qed.
End client_rules.

(** * One whole access *)

Section sector_rules.
Context {C : Type} `{BufferCacheSpec C}.

Definition read_sector (s : Z) : ST C (list Z) :=
  let! i := bc_get s false in
  let! d := bc_read i in
  bc_put i;;; ret d.

Definition write_sector (s : Z) (d : list Z) : ST C unit :=
  let! i := bc_get s true in
  let! _ := bc_read i in
  bc_store i d;;;
  bc_dirty i;;;
  bc_put i.

Context (c : C) (v : gmap Z (list Z)) (P : gmap nat pin) (s : Z) (d : list Z).
Context (Hrep : bc_rep c v P) (Hs : v !! s = Some d).
Context (Hpin : forall i p, P !! i = Some p -> pin_sector p <> s) (Hsize : (size P < 64)%nat).

Lemma read_sector_spec :
  wp (read_sector s) (fun r c' => r = d /\ bc_rep c' v P) c.
Proof using Hrep Hs Hpin Hsize.
  unfold read_sector. wp_steps. apply (wp_bc_get c v P); [done..|]. intros i c1 Hi Hrep1.
  wp_steps. eapply wp_bc_read; [done..|]. intros c2 Hrep2.
  wp_steps. eapply wp_bc_put_clean; [done..|]. intros c3 Hrep3. by wp_steps.
Qed.

Lemma write_sector_spec d' :
  sector_ok d' ->
  wp (write_sector s d') (fun _ c' => bc_rep c' (<[s := d']> v) P) c.
Proof using Hrep Hs Hpin Hsize.
  intros Hl. unfold write_sector. wp_steps.
  apply (wp_bc_get c v P); [done..|]. intros i c1 Hi Hrep1.
  wp_steps. eapply wp_bc_read; [done..|]. intros c2 Hrep2.
  wp_steps. eapply wp_bc_store; [done..|]. intros c3 Hrep3.
  wp_steps. eapply wp_bc_dirty; [done..|]. intros c4 Hrep4.
  by eapply wp_bc_put_dirty.
Qed.
End sector_rules.

(** * Histories of the cache *)

Inductive cache_op :=
| CRead (s : Z)
| CWrite (s : Z) (d : list Z)
| CAhead (s : Z)
| CFlush
| CAheadDaemon
| CWriteDaemon.

Definition run_op (op : cache_op) : ST cache (option (list Z)) :=
  match op with
  | CRead s => let! d := read_sector s in ret (Some d)
  | CWrite s d => write_sector s d;;; ret None
  | CAhead s => cache_read_ahead s;;; ret None
  | CFlush => cache_flush;;; ret None
  | CAheadDaemon =>
      let! q := gets read_queue in
      if queue_empty q then ret None else cache_read_ahead_daemon;;; ret None
  | CWriteDaemon => cache_write_behind_daemon;;; ret None
  end.

Fixpoint run_ops (ops : list cache_op) : ST cache (list (option (list Z))) :=
  match ops with
  | [] => ret []
  | op :: ops => let! r := run_op op in let! rs := run_ops ops in ret (r :: rs)
  end.

(** The same on an array of sectors. *)
Definition array_op (op : cache_op) (v : gmap Z (list Z)) : option (list Z) * gmap Z (list Z) :=
  match op with
  | CRead s => (v !! s, v)
  | CWrite s d => (None, <[s := d]> v)
  | _ => (None, v)
  end.

Fixpoint array_ops (ops : list cache_op) (v : gmap Z (list Z))
    : list (option (list Z)) * gmap Z (list Z) :=
  match ops with
  | [] => ([], v)
  | op :: ops =>
      let (r, v1) := array_op op v in
      let (rs, v2) := array_ops ops v1 in (r :: rs, v2)
  end.

(** A request within a device of [n] sectors. *)
Definition op_ok (n : Z) (op : cache_op) : Prop :=
  match op with
  | CRead s | CAhead s => 0 <= s < n
  | CWrite s d => 0 <= s < n /\ sector_ok d
  | _ => True
  end.

Lemma run_op_spec n op c v :
  cache_rep c v ∅ -> (forall s, is_Some (v !! s) <-> 0 <= s < n) -> op_ok n op ->
  wp (run_op op) (fun r c' => r = fst (array_op op v) /\
    cache_rep c' (snd (array_op op v)) ∅ /\
    forall s, is_Some (snd (array_op op v) !! s) <-> 0 <= s < n) c.
Proof.
  intros Hrep Hdom Hok.
  assert (Hsize : (size (∅ : gmap nat pin) < 64)%nat) by (rewrite map_size_empty; lia).
  destruct op as [s|s d|s| | |]; cbn [run_op array_op fst snd]; wp_steps.
  - destruct (proj2 (Hdom s) Hok) as [d Hd].
    eapply wp_mono; [by apply (read_sector_spec c v ∅ s d)|].
    intros d' c' [-> Hrep']. by wp_steps.
  - destruct Hok as [Hs Hl]. destruct (proj2 (Hdom s) Hs) as [d0 Hd0].
    eapply wp_mono; [by apply (write_sector_spec c v ∅ s d0)|].
    intros [] c' Hrep'. wp_steps. split; [done|]. split; [done|]. intros s'.
    rewrite lookup_insert_is_Some', Hdom. split; [intros [<-|]|right]; done.
  - eapply wp_mono; [apply (cache_read_ahead_spec c v ∅); [done|right; by apply Hdom]|].
    intros [] c' Hrep'. by wp_steps.
  - eapply wp_mono; [by apply (cache_flush_spec c v ∅)|]. intros [] c' [Hrep' _]. by wp_steps.
  - destruct (queue_empty (read_queue c)) eqn:He; wp_steps; [done|].
    eapply wp_mono; [by apply (cache_read_ahead_daemon_spec c v ∅)|].
    intros [] c' Hrep'. by wp_steps.
  - eapply wp_mono; [by apply (cache_flush_spec c v ∅)|]. intros [] c' [Hrep' _]. by wp_steps.
Qed.

Lemma run_ops_spec n ops : forall c v,
  cache_rep c v ∅ -> (forall s, is_Some (v !! s) <-> 0 <= s < n) -> Forall (op_ok n) ops ->
  wp (run_ops ops) (fun r c' => r = fst (array_ops ops v) /\
    cache_rep c' (snd (array_ops ops v)) ∅) c.
Proof.
  induction ops as [|op ops IH]; intros c v Hrep Hdom Hok; cbn [run_ops array_ops]; wp_steps.
  { done. }
  apply Forall_cons in Hok as [Hop Hok]. eapply wp_mono; [by apply (run_op_spec n op c v)|].
  destruct (array_op op v) as [r v1]. cbn. intros r' c1 (-> & Hrep1 & Hdom1). wp_steps.
  eapply wp_mono; [by apply (IH c1 v1)|].
  destruct (array_ops ops v1) as [rs v2]. cbn. intros rs' c2 [-> Hrep2]. by wp_steps.
Qed.

(** C1: From [cache_init] on, every sequence of requests
    within the device is answered as by a plain array of sectors, no
    assertion fails and no call blocks; and after a flush the device
    holds exactly the array. *)
Theorem cache_transparent (dev : block) (mem : list (option (list Z))) (buf : list Z)
    (c : cache) (ops : list cache_op) :
  bl_type dev <> BLOCK_FOREIGN -> Forall sector_ok (bl_sectors dev) ->
  length buf = 65%nat -> cache_init dev mem (Some buf) = Some c ->
  Forall (op_ok (block_size dev)) ops ->
  exists c1 c2,
    run_ops ops c = Ok (fst (array_ops ops (dev_view dev)), c1) /\
    cache_flush c1 = Ok (tt, c2) /\
    forall s, sector_of (fs_device c2) s = snd (array_ops ops (dev_view dev)) !! s.
Proof.
  intros Ht Hsz Hbuf Hinit Hok. destruct (cache_init_rep _ _ _ _ Ht Hsz Hbuf Hinit) as [Hrep _].
  destruct (proj1 (wp_ok _ _ _) (run_ops_spec (block_size dev) ops c (dev_view dev) Hrep
    ltac:(intros s; rewrite dev_view_lookup; apply sector_of_range) Hok))
    as (rs & c1 & Hrun & -> & Hrep1).
  destruct (proj1 (wp_ok _ _ _) (cache_flush_spec _ _ _ Hrep1)) as ([] & c2 & Hflush & Hrep2 & Hdev).
  exists c1, c2. split; [done|]. split; [done|]. intros s. apply Hdev.
  intros i p Hp. by rewrite lookup_empty in Hp.
Qed.

Definition demo_dev : block :=
  mkBlock BLOCK_FILESYS [replicate 512 7; replicate 512 8; replicate 512 9] 0 0.

Definition demo_ops : list cache_op :=
  [CWrite 0 (replicate 512 1); CRead 0; CAhead 2; CRead 1; CAheadDaemon; CFlush;
   CWrite 2 (replicate 512 3); CRead 2; CWriteDaemon].

Lemma cache_transparent_witness :
  exists c c1 c2,
    cache_init demo_dev (replicate 64 (Some [])) (Some (replicate 65 0)) = Some c /\
    run_ops demo_ops c = Ok (fst (array_ops demo_ops (dev_view demo_dev)), c1) /\
    cache_flush c1 = Ok (tt, c2) /\
    forall s, sector_of (fs_device c2) s = snd (array_ops demo_ops (dev_view demo_dev)) !! s.
Proof.
  destruct (cache_init demo_dev (replicate 64 (Some [])) (Some (replicate 65 0)))
    as [c|] eqn:Hc; [|vm_compute in Hc; discriminate Hc].
  destruct (cache_transparent demo_dev (replicate 64 (Some [])) (replicate 65 0) c demo_ops)
    as (c1 & c2 & H1 & H2 & H3).
  - discriminate.
  - repeat apply Forall_cons_2; try apply Forall_nil_2; apply sector_ok_replicate; lia.
  - reflexivity.
  - exact Hc.
  - change (block_size demo_dev) with 3. unfold demo_ops.
    repeat apply Forall_cons_2; try apply Forall_nil_2; cbn [op_ok]; try exact I; try lia;
      (split; [lia|apply sector_ok_replicate; lia]).
  - exists c, c1, c2. repeat split; assumption.
Defined.
