(* ===== verification/Fs.v ===== *)
(** The state of the file system: the buffer cache, the free map, and
    the in-memory objects of src/src/filesys/inode.c, file.c,
    directory.c and pipe.c, by pointer.

    A run is that of one thread. [malloc] returns fresh pointers; which
    calls of it fail is a list of outcomes in the state, so that every
    error path can be run. A lock that is already held blocks. *)
From S2P Require Import Prelude Words Bitmap Monitor Pipe Block Cache.
From stdpp Require Import options.

Record inode := mkInode {
  i_sector : Z;
  i_open_cnt : Z;
  i_removed : bool;
  i_deny_write_cnt : Z;
  i_dir_lock : bool;     (** held *)
}.

Inductive file_type := STDIN | STDOUT | REG | DIR | PIPE.

#[global] Instance file_type_eq_dec : EqDecision file_type.
Proof. solve_decision. Defined.

Record file := mkFile {
  fl_type : file_type;
  fl_inode : option nat;
  fl_pos : Z;
  fl_deny_write : bool;
  fl_ref_count : Z;
  fl_dir : option nat;
  fl_pipe : option nat;
}.

Record dir := mkDir {
  d_inode : nat;
  d_pos : Z;
}.

Record fs (C : Type) := mkFs {
  fs_cache : C;
  free_map : bitmap;
  free_map_file : option nat;
  inodes : gmap nat inode;
  open_inodes : list nat;
  open_inodes_lock : bool;
  files : gmap nat file;
  open_files : list nat;
  open_files_lock : bool;
  dirs : gmap nat dir;
  pipes : gmap nat pipe;
  fs_mem : list bool;          (** whether the coming calls of [malloc] succeed *)
  fs_next : nat;               (** the next pointer *)
  current_dir : option nat;    (** of the running thread *)
  errno : Z;
  console_in : list Z;         (** what [input_getc] will return *)
  console_out : list Z;        (** what [putbuf] was given *)
}.
Arguments mkFs {C}.
Arguments fs_cache {C}. Arguments free_map {C}. Arguments free_map_file {C}.
Arguments inodes {C}. Arguments open_inodes {C}. Arguments open_inodes_lock {C}.
Arguments files {C}. Arguments open_files {C}. Arguments open_files_lock {C}.
Arguments dirs {C}. Arguments pipes {C}. Arguments fs_mem {C}. Arguments fs_next {C}.
Arguments current_dir {C}. Arguments errno {C}. Arguments console_in {C}. Arguments console_out {C}.

Section fs.
Context {C : Type}.
Implicit Types (s : fs C).

Definition set_cache c s : fs C :=
  mkFs c (free_map s) (free_map_file s) (inodes s) (open_inodes s) (open_inodes_lock s)
    (files s) (open_files s) (open_files_lock s) (dirs s) (pipes s) (fs_mem s) (fs_next s)
    (current_dir s) (errno s) (console_in s) (console_out s).
Definition set_free_map b s : fs C :=
  mkFs (fs_cache s) b (free_map_file s) (inodes s) (open_inodes s) (open_inodes_lock s)
    (files s) (open_files s) (open_files_lock s) (dirs s) (pipes s) (fs_mem s) (fs_next s)
    (current_dir s) (errno s) (console_in s) (console_out s).
Definition set_free_map_file f s : fs C :=
  mkFs (fs_cache s) (free_map s) f (inodes s) (open_inodes s) (open_inodes_lock s)
    (files s) (open_files s) (open_files_lock s) (dirs s) (pipes s) (fs_mem s) (fs_next s)
    (current_dir s) (errno s) (console_in s) (console_out s).
Definition set_inodes m s : fs C :=
  mkFs (fs_cache s) (free_map s) (free_map_file s) m (open_inodes s) (open_inodes_lock s)
    (files s) (open_files s) (open_files_lock s) (dirs s) (pipes s) (fs_mem s) (fs_next s)
    (current_dir s) (errno s) (console_in s) (console_out s).
Definition set_open_inodes l s : fs C :=
  mkFs (fs_cache s) (free_map s) (free_map_file s) (inodes s) l (open_inodes_lock s)
    (files s) (open_files s) (open_files_lock s) (dirs s) (pipes s) (fs_mem s) (fs_next s)
    (current_dir s) (errno s) (console_in s) (console_out s).
Definition set_open_inodes_lock l s : fs C :=
  mkFs (fs_cache s) (free_map s) (free_map_file s) (inodes s) (open_inodes s) l
    (files s) (open_files s) (open_files_lock s) (dirs s) (pipes s) (fs_mem s) (fs_next s)
    (current_dir s) (errno s) (console_in s) (console_out s).
Definition set_files m s : fs C :=
  mkFs (fs_cache s) (free_map s) (free_map_file s) (inodes s) (open_inodes s)
    (open_inodes_lock s) m (open_files s) (open_files_lock s) (dirs s) (pipes s) (fs_mem s)
    (fs_next s) (current_dir s) (errno s) (console_in s) (console_out s).
Definition set_open_files l s : fs C :=
  mkFs (fs_cache s) (free_map s) (free_map_file s) (inodes s) (open_inodes s)
    (open_inodes_lock s) (files s) l (open_files_lock s) (dirs s) (pipes s) (fs_mem s)
    (fs_next s) (current_dir s) (errno s) (console_in s) (console_out s).
Definition set_open_files_lock l s : fs C :=
  mkFs (fs_cache s) (free_map s) (free_map_file s) (inodes s) (open_inodes s)
    (open_inodes_lock s) (files s) (open_files s) l (dirs s) (pipes s) (fs_mem s)
    (fs_next s) (current_dir s) (errno s) (console_in s) (console_out s).
Definition set_dirs m s : fs C :=
  mkFs (fs_cache s) (free_map s) (free_map_file s) (inodes s) (open_inodes s)
    (open_inodes_lock s) (files s) (open_files s) (open_files_lock s) m (pipes s) (fs_mem s)
    (fs_next s) (current_dir s) (errno s) (console_in s) (console_out s).
Definition set_pipes m s : fs C :=
  mkFs (fs_cache s) (free_map s) (free_map_file s) (inodes s) (open_inodes s)
    (open_inodes_lock s) (files s) (open_files s) (open_files_lock s) (dirs s) m (fs_mem s)
    (fs_next s) (current_dir s) (errno s) (console_in s) (console_out s).
Definition set_heap l n s : fs C :=
  mkFs (fs_cache s) (free_map s) (free_map_file s) (inodes s) (open_inodes s)
    (open_inodes_lock s) (files s) (open_files s) (open_files_lock s) (dirs s) (pipes s) l
    n (current_dir s) (errno s) (console_in s) (console_out s).
Definition set_current_dir d s : fs C :=
  mkFs (fs_cache s) (free_map s) (free_map_file s) (inodes s) (open_inodes s)
    (open_inodes_lock s) (files s) (open_files s) (open_files_lock s) (dirs s) (pipes s)
    (fs_mem s) (fs_next s) d (errno s) (console_in s) (console_out s).
Definition set_errno e s : fs C :=
  mkFs (fs_cache s) (free_map s) (free_map_file s) (inodes s) (open_inodes s)
    (open_inodes_lock s) (files s) (open_files s) (open_files_lock s) (dirs s) (pipes s)
    (fs_mem s) (fs_next s) (current_dir s) e (console_in s) (console_out s).
Definition set_console i o s : fs C :=
  mkFs (fs_cache s) (free_map s) (free_map_file s) (inodes s) (open_inodes s)
    (open_inodes_lock s) (files s) (open_files s) (open_files_lock s) (dirs s) (pipes s)
    (fs_mem s) (fs_next s) (current_dir s) (errno s) i o.

(** A call of the buffer cache. *)
Definition cachef {A} (m : ST C A) : ST (fs C) A :=
  fun s => match m (fs_cache s) with
           | Ok (a, c) => Ok (a, set_cache c s)
           | Err e => Err e
           end.

(** Whether the next allocation succeeds, and a fresh pointer for it. *)
Definition malloc : ST (fs C) (option nat) :=
  let! l := gets fs_mem in
  let! p := gets fs_next in
  match l with
  | true :: l => modify (set_heap l (S p));;; ret (Some p)
  | false :: l => modify (set_heap l p);;; ret None
  | [] => ret None
  end.

(** Access through a pointer. *)
Definition get_inode (p : nat) : ST (fs C) inode :=
  let! m := gets inodes in lift (access (m !! p)).
Definition put_inode (p : nat) (i : inode) : ST (fs C) unit :=
  modify (fun s => set_inodes (<[p := i]> (inodes s)) s).
Definition get_file (p : nat) : ST (fs C) file :=
  let! m := gets files in lift (access (m !! p)).
Definition put_file (p : nat) (f : file) : ST (fs C) unit :=
  modify (fun s => set_files (<[p := f]> (files s)) s).
Definition get_dir (p : nat) : ST (fs C) dir :=
  let! m := gets dirs in lift (access (m !! p)).
Definition put_dir (p : nat) (d : dir) : ST (fs C) unit :=
  modify (fun s => set_dirs (<[p := d]> (dirs s)) s).
(** A pointer that may be null. *)
Definition deref {A} (p : option A) : ST (fs C) A := lift (access p).

(** [lock_acquire] and [lock_release] on a lock of the state. *)
Definition lock_open_inodes : ST (fs C) unit :=
  let! l := gets open_inodes_lock in
  if l then fail Block else modify (set_open_inodes_lock true).
Definition unlock_open_inodes : ST (fs C) unit :=
  let! l := gets open_inodes_lock in
  if l then modify (set_open_inodes_lock false) else fail Panic.
Definition lock_open_files : ST (fs C) unit :=
  let! l := gets open_files_lock in
  if l then fail Block else modify (set_open_files_lock true).
Definition unlock_open_files : ST (fs C) unit :=
  let! l := gets open_files_lock in
  if l then modify (set_open_files_lock false) else fail Panic.

Lemma wp_cachef {A} (m : ST C A) (Q : A -> fs C -> Prop) s :
  wp m (fun a c => Q a (set_cache c s)) (fs_cache s) -> wp (cachef m) Q s.
Proof. unfold wp, cachef. by destruct (m (fs_cache s)) as [[a c]|]. Qed.

Lemma wp_get_inode p i (Q : inode -> fs C -> Prop) s :
  inodes s !! p = Some i -> Q i s -> wp (get_inode p) Q s.
Proof. intros Hp HQ. unfold get_inode. wp_steps. apply wp_lift. by rewrite Hp. Qed.

Lemma wp_get_file p f (Q : file -> fs C -> Prop) s :
  files s !! p = Some f -> Q f s -> wp (get_file p) Q s.
Proof. intros Hp HQ. unfold get_file. wp_steps. apply wp_lift. by rewrite Hp. Qed.

Lemma wp_get_dir p d (Q : dir -> fs C -> Prop) s :
  dirs s !! p = Some d -> Q d s -> wp (get_dir p) Q s.
Proof. intros Hp HQ. unfold get_dir. wp_steps. apply wp_lift. by rewrite Hp. Qed.

Lemma wp_deref {A} (p : option A) (a : A) (Q : A -> fs C -> Prop) s :
  p = Some a -> Q a s -> wp (deref p) Q s.
Proof. intros -> HQ. by apply wp_lift. Qed.

Lemma set_cache_twice c c' s : set_cache c (set_cache c' s) = set_cache c s.
Proof. done. Qed.
End fs.
