(* ===== verification/Inode.v ===== *)
(** Inodes (src/src/filesys/inode.c): files as trees of sectors below an
    on-disk inode, with the part of the free map
    (src/src/filesys/free-map.c) and of the bitmap and file modules that
    they call and that calls them.

    The code is generic in the buffer cache: it uses the operations of
    the class [BufferCache], and the proofs its contract
    [BufferCacheSpec]. A pointer into a block's data is the block
    together with the contents last seen; a store through it is
    [bc_store]. *)
From S2P Require Import Prelude Words Bitmap Monitor Pipe Block Cache Fs.
From stdpp Require Import options.

(** filesys.h *)
Definition FREE_MAP_SECTOR : Z := 0.
Definition ROOT_DIR_SECTOR : Z := 1.

Definition NUM_DIRECT : Z := 123.
Definition NUM_INDIRECT : Z := 128.
Definition NUM_DOUBLE_INDIRECT : Z := 16384.

(** struct inode_disk is one sector: the word [length], the word
    [is_dir], the word [magic], and three tables of sectors. *)
Definition disk_length (data : list Z) : Z := s32 (word data 0).
Definition disk_is_dir (data : list Z) : Z := s32 (word data 1).
Definition disk_indirect (data : list Z) : Z := word data 126.
Definition disk_double_indirect (data : list Z) : Z := word data 127.
Definition set_indirect (w : Z) (data : list Z) : list Z := set_word data 126 w.
Definition set_double_indirect (w : Z) (data : list Z) : list Z := set_word data 127 w.
Definition set_disk_length (n : Z) (data : list Z) : list Z := set_word data 0 (u32 n).
Definition set_disk_is_dir (n : Z) (data : list Z) : list Z := set_word data 1 (u32 n).

(** [data->direct[mapping]] and [table[index]] *)
Definition direct_ok (mapping : Z) : bool := (0 <=? mapping) && (mapping <? NUM_DIRECT).
Definition direct (data : list Z) (mapping : Z) : res Z :=
  if direct_ok mapping then Ok (word data (3 + Z.to_nat mapping)) else Err Fault.
Definition set_direct (data : list Z) (mapping w : Z) : list Z :=
  set_word data (3 + Z.to_nat mapping) w.
Definition table_get (table : list Z) (index : Z) : res Z :=
  if (0 <=? index) && (index <? NUM_INDIRECT) then Ok (word table (Z.to_nat index))
  else Err Fault.
Definition table_set (table : list Z) (index w : Z) : list Z :=
  set_word table (Z.to_nat index) w.

Definition bytes_to_sectors (size : Z) : Z :=
  u32 (Z.quot (size + BLOCK_SECTOR_SIZE - 1) BLOCK_SECTOR_SIZE).

Section inode.
Context {C : Type} `{BufferCache C}.
Abbreviation FS := (ST (fs C)).

(** * Allocation *)

(** The sector stored in [*sectorp], if there is one. *)
Definition free_map_allocate (cnt : Z) : FS (option Z) :=
  let! b := gets free_map in
  let! (sector, b') := lift (bitmap_scan_and_flip b 0 cnt false) in
  modify (set_free_map b');;;
  ret (if negb (sector =? BITMAP_ERROR) then Some sector else None).

(** * From positions to sectors *)

Definition access_indirect_block (indirect : Z) (write : bool) : FS Z :=
  if negb write && (s32 indirect =? -1) then ret (u32 (-1))
  else if write && (s32 indirect =? -1) then
    let! r := free_map_allocate 1 in
    match r with
    | None => ret (u32 (-2))
    | Some indirect =>
        let! block := cachef (bc_get indirect true) in
        let! table := cachef (bc_zero block) in
        cachef (bc_store block (fill_words 128 0 (u32 (-1)) table));;;
        cachef (bc_put block);;;
        ret indirect
    end
  else ret indirect.

Definition lookup_direct_table (block : nat) (data : list Z) (mapping : Z) (write : bool)
    : FS Z :=
  let! sector := lift (direct data mapping) in
  (if negb write && (mapping <? NUM_DIRECT - 1)
      && (mapping + 1 <? Z.quot (disk_length data) BLOCK_SECTOR_SIZE) then
     let! next := lift (direct data (mapping + 1)) in
     cachef (bc_ahead next)
   else ret tt);;;
  if negb write && (s32 sector =? -1) then ret (u32 (-1))
  else if write && (s32 sector =? -1) then
    let! r := free_map_allocate 1 in
    match r with
    | None => ret (u32 (-2))
    | Some sector =>
        cachef (bc_store block (set_direct data mapping sector));;; ret sector
    end
  else ret sector.

(** The end of the two routines below: the entry [index] of the
    indirect block in sector [indirect]. *)
Definition lookup_table_entry (data : list Z) (indirect index mapping : Z) (write : bool)
    : FS Z :=
  let! indirect_block := cachef (bc_get indirect write) in
  let! table := cachef (bc_read indirect_block) in
  let! sector := lift (table_get table index) in
  (if negb write && (index <? NUM_INDIRECT - 1)
      && (mapping + 1 <? Z.quot (disk_length data) BLOCK_SECTOR_SIZE) then
     let! next := lift (table_get table (index + 1)) in
     cachef (bc_ahead next)
   else ret tt);;;
  if negb write && (s32 sector =? -1) then
    cachef (bc_put indirect_block);;; ret (u32 (-1))
  else if write && (s32 sector =? -1) then
    let! r := free_map_allocate 1 in
    match r with
    | None => cachef (bc_put indirect_block);;; ret (u32 (-2))
    | Some sector =>
        cachef (bc_store indirect_block (table_set table index sector));;;
        cachef (bc_dirty indirect_block);;;
        cachef (bc_put indirect_block);;;
        ret sector
    end
  else cachef (bc_put indirect_block);;; ret sector.

Definition lookup_indirect_table (block : nat) (data : list Z) (mapping : Z) (write : bool)
    : FS Z :=
  let! indirect := access_indirect_block (disk_indirect data) write in
  if (s32 indirect =? -1) || (s32 indirect =? -2) then ret indirect
  else
    cachef (bc_store block (set_indirect indirect data));;;
    lookup_table_entry (set_indirect indirect data) indirect (mapping - NUM_DIRECT)
      mapping write.

Definition lookup_double_indirect_table (block : nat) (data : list Z) (mapping : Z)
    (write : bool) : FS Z :=
  let! double_indirect := access_indirect_block (disk_double_indirect data) write in
  if (s32 double_indirect =? -1) || (s32 double_indirect =? -2) then ret double_indirect
  else
    cachef (bc_store block (set_double_indirect double_indirect data));;;
    let! double_indirect_block := cachef (bc_get double_indirect write) in
    let! double_indirect_table := cachef (bc_read double_indirect_block) in
    let index := Z.quot (mapping - NUM_DIRECT - NUM_INDIRECT) NUM_INDIRECT in
    let! entry := lift (table_get double_indirect_table index) in
    let! indirect := access_indirect_block entry write in
    if (s32 indirect =? -1) || (s32 indirect =? -2) then
      cachef (bc_put double_indirect_block);;; ret indirect
    else
      (if negb (entry =? indirect) then
         cachef (bc_store double_indirect_block (table_set double_indirect_table index indirect));;;
         cachef (bc_dirty double_indirect_block)
       else ret tt);;;
      cachef (bc_put double_indirect_block);;;
      lookup_table_entry (set_double_indirect double_indirect data) indirect
        (Z.rem (mapping - NUM_DIRECT - NUM_INDIRECT) NUM_INDIRECT) mapping write.

Definition byte_to_sector (inode : nat) (pos : Z) (write : bool) : FS Z :=
  let! i := get_inode inode in
  let! block := cachef (bc_get (i_sector i) write) in
  let! data := cachef (bc_read block) in
  let mapping := Z.quot pos BLOCK_SECTOR_SIZE in
  let! sector :=
    if mapping <? NUM_DIRECT then lookup_direct_table block data mapping write
    else if mapping <? NUM_DIRECT + NUM_INDIRECT then
      lookup_indirect_table block data mapping write
    else if mapping <? NUM_DIRECT + NUM_INDIRECT + NUM_DOUBLE_INDIRECT then
      lookup_double_indirect_table block data mapping write
    else ret (u32 (-1)) in
  (if negb (s32 sector =? -1) && negb (s32 sector =? -2) then cachef (bc_dirty block)
   else ret tt);;;
  cachef (bc_put block);;;
  ret sector.

Definition inode_length (inode : nat) : FS Z :=
  let! i := get_inode inode in
  let! block := cachef (bc_get (i_sector i) false) in
  let! data := cachef (bc_read block) in
  cachef (bc_put block);;;
  ret (disk_length data).

Definition inode_is_dir (inode : nat) : FS bool :=
  let! i := get_inode inode in
  let! block := cachef (bc_get (i_sector i) false) in
  let! data := cachef (bc_read block) in
  cachef (bc_put block);;;
  ret (disk_is_dir data =? 1).

(** * Reading and writing *)

(** The [while (size > 0)] loop of [inode_read_at]: the bytes stored in
    the buffer. A round copies at least one byte, so [size] rounds are
    enough. *)
Fixpoint read_loop (fuel : nat) (inode : nat) (length size offset : Z) (out : list Z)
    : FS (list Z) :=
  if size <=? 0 then ret out
  else
    match fuel with
    | O => fail Block
    | S fuel =>
        let! sector_idx := byte_to_sector inode offset false in
        let sector_ofs := Z.rem offset BLOCK_SECTOR_SIZE in
        let inode_left := length - offset in
        let sector_left := BLOCK_SECTOR_SIZE - sector_ofs in
        let min_left := if inode_left <? sector_left then inode_left else sector_left in
        let chunk_size := if size <? min_left then size else min_left in
        if chunk_size <=? 0 then ret out
        else
          let! chunk :=
            if s32 sector_idx =? -1 then ret (replicate (Z.to_nat chunk_size) 0)
            else
              let! block := cachef (bc_get sector_idx false) in
              let! data := cachef (bc_read block) in
              let! chunk :=
                if (sector_ofs =? 0) && (chunk_size =? BLOCK_SECTOR_SIZE)
                then deref (slice data 0 chunk_size)
                else deref (slice data sector_ofs chunk_size) in
              cachef (bc_put block);;;
              ret chunk in
          read_loop fuel inode length (size - chunk_size) (offset + chunk_size) (out ++ chunk)
    end.

(** The bytes read; their number is the return value. *)
Definition inode_read_at (inode : nat) (size offset : Z) : FS (list Z) :=
  let! length := inode_length inode in
  if length <? offset then ret []
  else read_loop (Z.to_nat size) inode length size offset [].

(** The loop of [inode_write_at]: the bytes written and the offset
    reached. The caller's buffer is read chunk by chunk, and may change
    between two chunks: the free map is written from the bitmap that the
    loop allocates sectors in. [buffer s] is what it holds in the state
    [s]. *)
Fixpoint write_loop (fuel : nat) (inode : nat) (buffer : fs C -> list Z) (size offset written : Z)
    : FS (Z * Z) :=
  if size <=? 0 then ret (written, offset)
  else
    match fuel with
    | O => fail Block
    | S fuel =>
        let! sector_idx := byte_to_sector inode offset true in
        if s32 sector_idx =? -2 then ret (written, offset)
        else
          let sector_ofs := Z.rem offset BLOCK_SECTOR_SIZE in
          let sector_left := BLOCK_SECTOR_SIZE - sector_ofs in
          let min_left := if size <? sector_left then size else sector_left in
          let chunk_size := if size <? min_left then size else min_left in
          if chunk_size <=? 0 then ret (written, offset)
          else
            let! block := cachef (bc_get sector_idx true) in
            (if (sector_ofs =? 0) && (chunk_size =? BLOCK_SECTOR_SIZE) then
               let! data := cachef (bc_zero block) in
               let! buf := gets buffer in
               let! chunk := deref (slice buf written chunk_size) in
               let! data' := deref (copy_in data 0 chunk) in
               cachef (bc_store block data')
             else
               let! data := cachef (bc_read block) in
               let! buf := gets buffer in
               let! chunk := deref (slice buf written chunk_size) in
               let! data' := deref (copy_in data sector_ofs chunk) in
               cachef (bc_store block data'));;;
            cachef (bc_dirty block);;;
            cachef (bc_put block);;;
            write_loop fuel inode buffer (size - chunk_size) (offset + chunk_size)
              (written + chunk_size)
    end.

Definition inode_write_from (inode : nat) (buffer : fs C -> list Z) (size offset : Z) : FS Z :=
  let! i := get_inode inode in
  if negb (i_deny_write_cnt i =? 0) then ret 0
  else
    let! (written, offset) := write_loop (Z.to_nat size) inode buffer size offset 0 in
    let! block := cachef (bc_get (i_sector i) true) in
    let! data := cachef (bc_read block) in
    (if disk_length data <? offset then
       cachef (bc_store block (set_disk_length offset data));;;
       cachef (bc_dirty block)
     else ret tt);;;
    cachef (bc_put block);;;
    ret written.

(** ... from a buffer that the call does not change. *)
Definition inode_write_at (inode : nat) (buffer : list Z) (size offset : Z) : FS Z :=
  inode_write_from inode (fun _ => buffer) size offset.

(** * The free map on disk *)

Definition file_write_at (file : nat) (buffer : fs C -> list Z) (size file_ofs : Z) : FS Z :=
  let! f := get_file file in
  let! inode := deref (fl_inode f) in
  inode_write_from inode buffer size file_ofs.

Definition file_read_at (file : nat) (size file_ofs : Z) : FS (list Z) :=
  let! f := get_file file in
  let! inode := deref (fl_inode f) in
  inode_read_at inode size file_ofs.

Definition bitmap_file_size (b : bitmap) : Z := byte_cnt (bit_cnt b).

(** [b] is the place of a bitmap in the state. *)
Definition bitmap_write (b : fs C -> bitmap) (file : nat) : FS bool :=
  let! cnt := gets (fun s => bit_cnt (b s)) in
  let size := s32 (byte_cnt cnt) in
  let! n := file_write_at file (fun s => words_bytes (bits (b s))) size 0 in
  ret (n =? size).

(** The bytes read replace those of the elements; the bits past the end
    of the last element are cleared. *)
Definition bitmap_read (b : bitmap) (file : nat) : FS (bool * bitmap) :=
  if 0 <? bit_cnt b then
    let size := s32 (byte_cnt (bit_cnt b)) in
    let! l := file_read_at file size 0 in
    let l' := bytes_words (length (bits b)) 0 (overwrite 0 l (words_bytes (bits b))) in
    let! b' := lift (bits_update (mkBitmap (bit_cnt b) l') (elem_cnt (bit_cnt b) - 1)
                       (fun e => Z.land e (last_mask b))) in
    ret (Z.of_nat (length l) =? size, b')
  else ret (true, b).

Definition free_map_release (sector cnt : Z) : FS unit :=
  let! b := gets free_map in
  let! all := lift (bitmap_all b sector cnt) in
  ASSERT all;;;
  let! b' := lift (bitmap_set_multiple b sector cnt false) in
  modify (set_free_map b');;;
  let! f := gets free_map_file in
  let! f := deref f in
  bitmap_write free_map f;;;
  ret tt.

(** * Opening and closing *)

Definition inode_init : FS unit :=
  modify (set_open_inodes []);;; modify (set_open_inodes_lock false).

Definition inode_reopen (inode : option nat) : FS (option nat) :=
  match inode with
  | Some p =>
      let! i := get_inode p in
      put_inode p (mkInode (i_sector i) (i_open_cnt i + 1) (i_removed i)
                     (i_deny_write_cnt i) (i_dir_lock i));;;
      ret inode
  | None => ret None
  end.

(** The walk over [open_inodes]. *)
Fixpoint find_open (l : list nat) (sector : Z) : FS (option nat) :=
  match l with
  | [] => ret None
  | p :: l =>
      let! i := get_inode p in
      if i_sector i =? sector then ret (Some p) else find_open l sector
  end.

Definition inode_open (sector : Z) : FS (option nat) :=
  lock_open_inodes;;;
  let! l := gets open_inodes in
  let! found := find_open l sector in
  match found with
  | Some p =>
      inode_reopen (Some p);;;
      unlock_open_inodes;;;
      ret (Some p)
  | None =>
      unlock_open_inodes;;;
      let! mem := malloc in
      match mem with
      | None => ret None
      | Some p =>
          lock_open_inodes;;;
          modify (fun s => set_open_inodes (p :: open_inodes s) s);;;
          unlock_open_inodes;;;
          put_inode p (mkInode sector 1 false 0 false);;;
          let! block := cachef (bc_get sector false) in
          let! _ := cachef (bc_read block) in
          cachef (bc_put block);;;
          ret (Some p)
      end
  end.

Definition inode_get_inumber (inode : nat) : FS Z :=
  let! i := get_inode inode in ret (i_sector i).

(** The loop over the positions of a removed file. It ends when the
    position passes the length, an [off_t]; [close_rounds] is enough
    for every one. *)
Definition close_rounds : nat := Z.to_nat (2 ^ 22).

Fixpoint release_data_loop (fuel : nat) (inode : nat) (pos : Z) : FS unit :=
  let! length := inode_length inode in
  if pos <? length then
    match fuel with
    | O => fail Block
    | S fuel =>
        let! sector := byte_to_sector inode pos false in
        (if negb (s32 sector =? -1) then free_map_release sector 1 else ret tt);;;
        release_data_loop fuel inode (pos + BLOCK_SECTOR_SIZE)
    end
  else ret tt.

Fixpoint release_table_loop (n : nat) (i : Z) (table : list Z) : FS unit :=
  match n with
  | O => ret tt
  | S n =>
      let! entry := lift (table_get table i) in
      (if negb (s32 entry =? -1) then free_map_release entry 1 else ret tt);;;
      release_table_loop n (i + 1) table
  end.

Definition release_blocks (inode : nat) (sector : Z) : FS unit :=
  release_data_loop close_rounds inode 0;;;
  let! block := cachef (bc_get sector true) in
  let! data := cachef (bc_read block) in
  (if negb (s32 (disk_indirect data) =? -1) then free_map_release (disk_indirect data) 1
   else ret tt);;;
  (if negb (s32 (disk_double_indirect data) =? -1) then
     let! double_indirect_block := cachef (bc_get (disk_double_indirect data) true) in
     let! double_indirect_table := cachef (bc_read double_indirect_block) in
     release_table_loop (Z.to_nat NUM_INDIRECT) 0 double_indirect_table;;;
     cachef (bc_put double_indirect_block);;;
     free_map_release (disk_double_indirect data) 1
   else ret tt);;;
  cachef (bc_put block);;;
  free_map_release sector 1.

Definition inode_close (inode : option nat) : FS unit :=
  match inode with
  | None => ret tt
  | Some p =>
      let! i := get_inode p in
      put_inode p (mkInode (i_sector i) (i_open_cnt i - 1) (i_removed i)
                     (i_deny_write_cnt i) (i_dir_lock i));;;
      if i_open_cnt i - 1 =? 0 then
        lock_open_inodes;;;
        modify (fun s => set_open_inodes (list_drop p (open_inodes s)) s);;;
        unlock_open_inodes;;;
        (if i_removed i then release_blocks p (i_sector i) else ret tt);;;
        modify (fun s => set_inodes (delete p (inodes s)) s)
      else ret tt
  end.

Definition inode_remove (inode : option nat) : FS unit :=
  ASSERT (bool_decide (inode <> None));;;
  let! p := deref inode in
  let! i := get_inode p in
  put_inode p (mkInode (i_sector i) (i_open_cnt i) true (i_deny_write_cnt i) (i_dir_lock i)).

(** The contents [inode_create] gives the inode's sector. *)
Definition new_disk_inode (zero : list Z) (length is_dir : Z) : list Z :=
  let d := fill_words (Z.to_nat NUM_DIRECT) 3 (u32 (-1)) zero in
  let d := set_indirect (u32 (-1)) d in
  let d := set_double_indirect (u32 (-1)) d in
  let d := set_disk_length length d in
  set_disk_is_dir is_dir d.

Definition inode_create (sector length is_dir : Z) : FS bool :=
  ASSERT (0 <=? length);;;
  let! block := cachef (bc_get sector true) in
  let! zero := cachef (bc_zero block) in
  cachef (bc_store block (new_disk_inode zero length is_dir));;;
  cachef (bc_put block);;;
  if 0 <? length then
    let! inode := inode_open sector in
    match inode with
    | None =>
        inode_remove None;;; inode_close None;;; ret false
    | Some p =>
        let! n := inode_write_at p [0] 1 (length - 1) in
        if negb (n =? 1) then
          inode_remove (Some p);;; inode_close (Some p);;; ret false
        else inode_close (Some p);;; ret true
    end
  else ret true.

Definition inode_deny_write (inode : nat) : FS unit :=
  let! i := get_inode inode in
  put_inode inode (mkInode (i_sector i) (i_open_cnt i) (i_removed i)
                     (i_deny_write_cnt i + 1) (i_dir_lock i));;;
  ASSERT (i_deny_write_cnt i + 1 <=? i_open_cnt i).

Definition inode_allow_write (inode : nat) : FS unit :=
  let! i := get_inode inode in
  ASSERT (0 <? i_deny_write_cnt i);;;
  ASSERT (i_deny_write_cnt i <=? i_open_cnt i);;;
  put_inode inode (mkInode (i_sector i) (i_open_cnt i) (i_removed i)
                     (i_deny_write_cnt i - 1) (i_dir_lock i)).

Definition inode_is_removed (inode : nat) : FS bool :=
  let! i := get_inode inode in ret (i_removed i).

Definition set_dir_lock (l : bool) (i : inode) : Fs.inode :=
  mkInode (i_sector i) (i_open_cnt i) (i_removed i) (i_deny_write_cnt i) l.

Definition inode_lock_acquire (inode : nat) : FS unit :=
  let! i := get_inode inode in
  if i_dir_lock i then fail Block else put_inode inode (set_dir_lock true i).

Definition inode_lock_release (inode : nat) : FS unit :=
  let! i := get_inode inode in
  if i_dir_lock i then put_inode inode (set_dir_lock false i) else fail Panic.

End inode.
