(* ===== verification/InodeTree.v ===== *)
(** What a file is on disk: the tree of sectors below an inode, as the
    tables of src/src/filesys/inode.c (struct inode_disk, the indirect
    and the doubly indirect blocks) describe it, and how the tree grows
    by one sector. Everything here is about the contents of the sectors
    that the buffer cache shows, [v : gmap Z (list Z)]. *)
From S2P Require Import Prelude Words Bitmap Monitor Pipe Block Cache CacheSpec Fs Inode.
From stdpp Require Import options.

#[local] Arguments Nat.div : simpl never.
#[local] Arguments Nat.modulo : simpl never.

(** The entry that stands for no sector, (block_sector_t) -1. *)
Definition NONE : Z := 2 ^ 32 - 1.

(** The sectors of a file: its inode, the indirect block, the doubly
    indirect block and the indirect blocks below it, and the data. *)
Inductive loc := LInode | LInd | LDbl | LDblInd (i : nat) | LData (m : nat).

#[global] Instance loc_eq_dec : EqDecision loc.
Proof. solve_decision. Defined.

Definition MAX_SECTORS : nat := Z.to_nat (123 + 128 + 16384).

Definition loc_ok (l : loc) : Prop :=
  match l with
  | LDblInd i => (i < 128)%nat
  | LData m => (m < MAX_SECTORS)%nat
  | _ => True
  end.

Definition is_table (l : loc) : bool := match l with LData _ => false | _ => true end.

(** The table that holds the number of a sector, and the entry. *)
Definition parent (l : loc) : option (loc * nat) :=
  match l with
  | LInode => None
  | LInd => Some (LInode, 126%nat)
  | LDbl => Some (LInode, 127%nat)
  | LDblInd i => Some (LDbl, i)
  | LData m =>
      if decide (m < 123)%nat then Some (LInode, (3 + m)%nat)
      else if decide (m < 251)%nat then Some (LInd, (m - 123)%nat)
      else Some (LDblInd ((m - 251) / 128), ((m - 251) mod 128)%nat)
  end.

(** Entry [k] of the table in sector [s]; a file that has no such table
    has no such entry. *)
Definition child (v : gmap Z (list Z)) (s : Z) (k : nat) : Z :=
  match v !! s with
  | Some d => word d k
  | None => NONE
  end.

Definition sec (v : gmap Z (list Z)) (ino : Z) (l : loc) : Z :=
  match l with
  | LInode => ino
  | LInd => child v ino 126
  | LDbl => child v ino 127
  | LDblInd i => child v (child v ino 127) i
  | LData m =>
      if decide (m < 123)%nat then child v ino (3 + m)
      else if decide (m < 251)%nat then child v (child v ino 126) (m - 123)
      else child v (child v (child v ino 127) ((m - 251) / 128)) ((m - 251) mod 128)
  end.

(** Byte [k] of the file: a position without a sector reads as 0. *)
Definition file_byte (v : gmap Z (list Z)) (ino : Z) (k : Z) : Z :=
  if k <? 512 * Z.of_nat MAX_SECTORS then
    match v !! sec v ino (LData (Z.to_nat (k / 512))) with
    | Some d => nth (Z.to_nat (k mod 512)) d 0
    | None => 0
    end
  else 0.

Definition file_bytes (v : gmap Z (list Z)) (ino : Z) (ofs n : Z) : list Z :=
  map (file_byte v ino) (seqZ ofs n).

Definition file_length (v : gmap Z (list Z)) (ino : Z) : Z :=
  match v !! ino with
  | Some d => disk_length d
  | None => 0
  end.

(** The view and the free map are of the same device. *)
Record view_ok (v : gmap Z (list Z)) (fm : bitmap) : Prop := {
  vo_wf : bitmap_wf fm;
  vo_dom : forall s, is_Some (v !! s) <-> 0 <= s < bit_cnt fm;
  vo_sector : forall s d, v !! s = Some d -> sector_ok d;
}.

(** The sectors of a file exist, are in use, and are all different. *)
Record tree_wf (v : gmap Z (list Z)) (fm : bitmap) (ino : Z) : Prop := {
  tw_sec : forall l, loc_ok l -> sec v ino l <> NONE ->
    is_Some (v !! sec v ino l) /\ bit fm (sec v ino l) = true;
  tw_inj : forall l l', loc_ok l -> loc_ok l' -> sec v ino l = sec v ino l' ->
    sec v ino l <> NONE -> l = l';
  tw_inode : ino <> NONE;
}.

(** * Locations *)

Lemma sec_parent v ino l p k :
  parent l = Some (p, k) -> sec v ino l = child v (sec v ino p) k.
Proof.
  destruct l; cbn; intros Hp; simplify_eq; try done.
  repeat case_decide; simplify_eq; done.
Qed.

Lemma parent_ok l p k :
  loc_ok l -> parent l = Some (p, k) -> loc_ok p /\ is_table p = true /\ (k < 128)%nat.
Proof.
  unfold loc_ok, MAX_SECTORS. destruct l; cbn; intros Hl Hp; simplify_eq; try by (repeat split; lia).
  repeat case_decide; simplify_eq; cbn; repeat split; try lia.
  - apply Nat.Div0.div_lt_upper_bound. lia.
  - apply Nat.mod_upper_bound. lia.
Qed.

Lemma parent_inj l l' : loc_ok l -> loc_ok l' -> parent l = parent l' -> l = l'.
Proof.
  unfold loc_ok, MAX_SECTORS.
  destruct l, l'; cbn; intros Hl Hl' Hp; repeat case_decide; simplify_eq; try done; try lia;
    f_equal; try lia.
  pose proof (Nat.div_mod_eq (m - 251) 128). pose proof (Nat.div_mod_eq (m0 - 251) 128). lia.
Qed.

Lemma parent_inode_index l k : parent l = Some (LInode, k) -> (3 <= k)%nat.
Proof. destruct l; cbn; intros Hp; repeat case_decide; simplify_eq; lia. Qed.

Lemma parent_LInode l : parent l = None <-> l = LInode.
Proof. destruct l; cbn; repeat case_decide; done. Qed.

(** Induction from the inode down. *)
Lemma loc_ind_down (Q : loc -> Prop) :
  Q LInode ->
  (forall l p k, parent l = Some (p, k) -> Q p -> Q l) ->
  forall l, Q l.
Proof.
  intros H0 Hstep. assert (Hind : Q LInd) by (by eapply Hstep).
  assert (Hdbl : Q LDbl) by (by eapply Hstep).
  assert (Hdi : forall i, Q (LDblInd i)) by (intros; by eapply Hstep).
  intros [| | |i|m]; auto. destruct (parent (LData m)) as [[p k]|] eqn:Hp.
  - eapply Hstep; [done|]. cbn in Hp. repeat case_decide; simplify_eq; auto.
  - by apply parent_LInode in Hp.
Qed.

Lemma child_range v s k : 0 <= child v s k < 2 ^ 32.
Proof.
  unfold child, NONE. destruct (v !! s); [apply word_range|lia].
Qed.

Lemma sec_range v ino l : 0 <= ino < 2 ^ 32 -> 0 <= sec v ino l < 2 ^ 32.
Proof. destruct l; cbn; intros; repeat case_decide; try apply child_range; done. Qed.

Lemma view_NONE v fm : view_ok v fm -> v !! NONE = None.
Proof.
  intros [Hwf Hdom _]. apply eq_None_not_Some. rewrite Hdom.
  pose proof (wf_cnt _ Hwf). unfold NONE. lia.
Qed.

Lemma tree_present v fm ino l d :
  view_ok v fm -> v !! sec v ino l = Some d -> sec v ino l <> NONE.
Proof. intros Hv Hd E. rewrite E, (view_NONE _ _ Hv) in Hd. done. Qed.

(** A sector of the tree has its parent in the tree. *)
Lemma sec_parent_present v fm ino l p k :
  view_ok v fm -> parent l = Some (p, k) -> sec v ino l <> NONE -> sec v ino p <> NONE.
Proof.
  intros Hv Hp Hl E. apply Hl. rewrite (sec_parent _ _ _ _ _ Hp), E.
  unfold child. by rewrite (view_NONE _ _ Hv).
Qed.

(** * Growing the tree *)

(** A new indirect block: no entry. *)
Definition none_table : list Z := fill_words 128 0 NONE zero_sector.

Lemma none_table_ok : sector_ok none_table.
Proof.
  split; [apply length_fill_words|]. apply fill_words_ok. apply zero_sector_ok.
Qed.

Lemma word_none_table k : (k < 128)%nat -> word none_table k = NONE.
Proof.
  intros Hk. unfold none_table. rewrite word_fill_words.
  - by rewrite decide_True by lia.
  - unfold zero_sector. rewrite length_replicate. lia.
  - unfold NONE. lia.
Qed.

Lemma set_word_sector_ok d k w : sector_ok d -> sector_ok (set_word d k w).
Proof. intros [Hl Hd]. split; [by rewrite length_set_word|by apply set_word_ok]. Qed.

(** Put sector [s] at the location [l]. *)
Definition grow (v : gmap Z (list Z)) (ino : Z) (l : loc) (s : Z) : gmap Z (list Z) :=
  match parent l with
  | Some (p, k) =>
      <[sec v ino p := set_word (default [] (v !! sec v ino p)) k s]>
        (if is_table l then <[s := none_table]> v else v)
  | None => v
  end.

Section grow.
Context (v : gmap Z (list Z)) (fm : bitmap) (ino : Z) (l p : loc) (k : nat) (s : Z)
  (fm' : bitmap) (d : list Z).
Context (Hv : view_ok v fm) (Ht : tree_wf v fm ino) (Hl : loc_ok l)
  (Hp : parent l = Some (p, k)) (Hd : v !! sec v ino p = Some d)
  (Hnone : sec v ino l = NONE) (Hal : allocated fm s fm').

Let v' := grow v ino l s.

Lemma grow_eq :
  v' = <[sec v ino p := set_word d k s]> (if is_table l then <[s := none_table]> v else v).
Proof using Hp Hd. unfold v', grow. by rewrite Hp, Hd. Qed.

Lemma grow_fresh l' : loc_ok l' -> sec v ino l' <> s.
Proof using Hv Ht Hal.
  intros Hl' E. destruct Hal as [Hr Hf _ _ _].
  assert (Hne : sec v ino l' <> NONE).
  { rewrite E. pose proof (wf_cnt _ (vo_wf _ _ Hv)). unfold NONE. lia. }
  destruct (tw_sec _ _ _ Ht l' Hl' Hne) as [_ Hb]. rewrite E in Hb. congruence.
Qed.

Lemma grow_parent : sec v ino p <> NONE /\ sector_ok d /\ loc_ok p /\ (k < 128)%nat.
Proof using Hv Hl Hp Hd.
  destruct (parent_ok _ _ _ Hl Hp) as (Hpo & _ & Hk).
  split; [by eapply tree_present|]. split; [by eapply vo_sector|]. done.
Qed.

Lemma grow_s_range : 0 <= s < 2 ^ 32 - 32 /\ s <> NONE.
Proof using Hv Hal.
  destruct Hal as [Hr _ _ _ _]. pose proof (wf_cnt _ (vo_wf _ _ Hv)). unfold NONE. lia.
Qed.

Lemma grow_lookup s' : s' <> s -> s' <> sec v ino p -> v' !! s' = v !! s'.
Proof using Hp Hd.
  intros H1 H2. rewrite grow_eq, lookup_insert_ne by done.
  destruct (is_table l); [|done]. by rewrite lookup_insert_ne.
Qed.

Lemma grow_child s' k' :
  s' <> s -> child v' s' k' =
    if decide (s' = sec v ino p /\ k' = k) then s else child v s' k'.
Proof using Hv Ht Hl Hp Hd Hal.
  intros Hs. destruct grow_parent as (Hpn & [Hlen _] & _ & Hk).
  destruct grow_s_range as [Hsr _]. case_decide as E.
  - destruct E as [-> ->]. unfold child. rewrite grow_eq, lookup_insert_eq.
    apply word_set_eq; lia.
  - destruct (decide (s' = sec v ino p)) as [->|Hne].
    + unfold child. rewrite grow_eq, lookup_insert_eq, Hd. apply word_set_ne. naive_solver.
    + unfold child. by rewrite grow_lookup.
Qed.

Lemma grow_sec l' : loc_ok l' -> sec v' ino l' = if decide (l' = l) then s else sec v ino l'.
Proof using Hv Ht Hl Hp Hd Hnone Hal.
  induction l' as [|l' p' k' Hp' IH] using loc_ind_down; intros Hl'.
  { rewrite decide_False; [done|]. intros <-. done. }
  destruct (parent_ok _ _ _ Hl' Hp') as (Hpo' & Htab & Hk').
  rewrite (sec_parent _ _ _ _ _ Hp'), IH by done.
  destruct (decide (p' = l)) as [->|Hpl].
  - rewrite decide_False by (intros ->; destruct grow_parent; congruence).
    rewrite (sec_parent _ _ _ _ _ Hp'), Hnone. unfold child at 2.
    rewrite (view_NONE _ _ Hv). unfold child. rewrite grow_eq, Htab.
    rewrite lookup_insert_ne, lookup_insert_eq by (apply grow_fresh, grow_parent).
    by apply word_none_table.
  - rewrite grow_child by by apply grow_fresh.
    destruct (decide (l' = l)) as [->|Hne].
    + simplify_eq. by rewrite decide_True.
    + rewrite (sec_parent _ _ _ _ _ Hp'). rewrite decide_False; [done|].
      intros [E ->]. destruct grow_parent as (Hpn & _ & Hpo & _).
      assert (p' = p) as -> by (apply (tw_inj _ _ _ Ht); congruence).
      apply Hne, parent_inj; congruence.
Qed.

Lemma grow_view_ok : view_ok v' fm'.
Proof using Hv Hl Hp Hd Hal.
  destruct grow_parent as (_ & Hok & _ & _). destruct Hal as [Hr _ Hwf Hc _]. split; [done| |].
  - intros s'. rewrite Hc, <- (vo_dom _ _ Hv), grow_eq.
    assert (Hss : is_Some (v !! s)) by by apply (vo_dom _ _ Hv).
    destruct (is_table l); rewrite !lookup_insert_is_Some'; naive_solver.
  - intros s' d'. rewrite grow_eq. rewrite lookup_insert_Some.
    intros [[_ <-]|[_ Hd']]; [by apply set_word_sector_ok|].
    destruct (is_table l); [|by eapply vo_sector].
    apply lookup_insert_Some in Hd' as [[_ <-]|[_ Hd']]; [apply none_table_ok|by eapply vo_sector].
Qed.

Lemma grow_bit s' : is_Some (v !! s') -> bit fm' s' = (s' =? s) || bit fm s'.
Proof using Hv Hal. intros Hs. apply Hal. by apply (vo_dom _ _ Hv). Qed.

Lemma grow_tree_wf : tree_wf v' fm' ino.
Proof using Hv Ht Hl Hp Hd Hnone Hal.
  pose proof grow_view_ok as Hv'. destruct grow_s_range as [_ Hsn]. split.
  - intros l' Hl'. rewrite !grow_sec by done. intros Hne.
    assert (Hs : is_Some (v !! (if decide (l' = l) then s else sec v ino l'))).
    { case_decide; [apply (vo_dom _ _ Hv); apply Hal|by apply (tw_sec _ _ _ Ht)]. }
    split.
    + apply (vo_dom _ _ Hv'). rewrite (al_cnt _ _ _ Hal). by apply (vo_dom _ _ Hv).
    + rewrite grow_bit by done. case_decide; [by rewrite Z.eqb_refl|].
      rewrite (proj2 (tw_sec _ _ _ Ht l' Hl' Hne)). by rewrite orb_true_r.
  - intros l1 l2 H1 H2. rewrite !grow_sec by done. intros E Hne.
    destruct (decide (l1 = l)) as [->|], (decide (l2 = l)) as [->|]; try done.
    + by destruct (grow_fresh l2).
    + by destruct (grow_fresh l1).
    + by apply (tw_inj _ _ _ Ht).
  - apply Ht.
Qed.

Lemma grow_meta k' : (k' < 3)%nat -> child v' ino k' = child v ino k'.
Proof using Hv Ht Hl Hp Hd Hal.
  intros Hk'. rewrite grow_child by (by apply (grow_fresh LInode)).
  rewrite decide_False; [done|]. intros [E ->].
  destruct grow_parent as (Hpn & _ & Hpo & _).
  assert (LInode = p) as <- by (apply (tw_inj _ _ _ Ht); [done..|apply Ht]).
  apply parent_inode_index in Hp. lia.
Qed.
End grow.

(** * Extensions *)

(** [v'] and [fm'] have the sectors [new] more than [v] and [fm] in the
    tree of [ino], and differ in nothing else that was in use. *)
Record extends (ino : Z) (v : gmap Z (list Z)) (fm : bitmap)
    (v' : gmap Z (list Z)) (fm' : bitmap) (new : list loc) : Prop := {
  ex_view : view_ok v' fm';
  ex_tree : tree_wf v' fm' ino;
  ex_cnt : bit_cnt fm' = bit_cnt fm;
  ex_sec : forall l, loc_ok l -> sec v' ino l = sec v ino l \/
    l ∈ new /\ sec v ino l = NONE /\ bit fm (sec v' ino l) = false;
  ex_mono : forall s, 0 <= s < bit_cnt fm -> bit fm s = true -> bit fm' s = true;
  ex_bits : forall s, 0 <= s < bit_cnt fm -> bit fm' s = true -> bit fm s = true \/
    exists l, l ∈ new /\ loc_ok l /\ sec v' ino l = s;
  ex_frame : forall s, 0 <= s < bit_cnt fm -> bit fm s = true ->
    (forall l, loc_ok l -> is_table l = true -> sec v ino l <> s) -> v' !! s = v !! s;
  ex_outside : forall s, 0 <= s < bit_cnt fm ->
    (forall l, loc_ok l -> sec v' ino l <> s) -> v' !! s = v !! s;
  ex_meta : forall k, (k < 3)%nat -> child v' ino k = child v ino k;
  ex_free : (nfree fm <= nfree fm' + length new)%nat;
}.

Lemma extends_refl ino v fm : view_ok v fm -> tree_wf v fm ino -> extends ino v fm v fm [].
Proof. intros Hv Ht. split; try done; [by left|by left|cbn; lia]. Qed.

Lemma extends_present ino v fm v' fm' new l :
  extends ino v fm v' fm' new -> loc_ok l -> sec v ino l <> NONE -> sec v' ino l = sec v ino l.
Proof. intros He Hl Hn. by destruct (ex_sec _ _ _ _ _ _ He l Hl) as [|(_ & ? & _)]. Qed.

Lemma sec_in_range v fm ino l :
  view_ok v fm -> tree_wf v fm ino -> loc_ok l -> sec v ino l <> NONE ->
  0 <= sec v ino l < bit_cnt fm.
Proof. intros Hv Ht Hl Hn. apply (vo_dom _ _ Hv). by apply (tw_sec _ _ _ Ht). Qed.

Lemma extends_trans ino v fm v1 fm1 v2 fm2 new1 new2 :
  view_ok v fm -> tree_wf v fm ino ->
  extends ino v fm v1 fm1 new1 -> extends ino v1 fm1 v2 fm2 new2 ->
  extends ino v fm v2 fm2 (new1 ++ new2).
Proof.
  intros Hv Ht H1 H2. pose proof (ex_cnt _ _ _ _ _ _ H1) as Hc1.
  pose proof (ex_cnt _ _ _ _ _ _ H2) as Hc2.
  assert (Hnone : forall l, loc_ok l -> sec v1 ino l = NONE -> sec v ino l = NONE).
  { intros l Hl Hn. by destruct (ex_sec _ _ _ _ _ _ H1 l Hl) as [<-|(_ & ? & _)]. }
  assert (Hfalse : forall s, 0 <= s < bit_cnt fm -> bit fm1 s = false -> bit fm s = false).
  { intros s Hs Hb. apply not_true_is_false. intros Hb'.
    rewrite (ex_mono _ _ _ _ _ _ H1 s Hs Hb') in Hb. done. }
  split.
  - apply H2.
  - apply H2.
  - congruence.
  - intros l Hl. destruct (ex_sec _ _ _ _ _ _ H2 l Hl) as [->|(Hin & Hn & Hb)].
    + destruct (ex_sec _ _ _ _ _ _ H1 l Hl) as [->|(Hin & Hn & Hb)]; [by left|].
      right. split; [|done]. apply elem_of_app. by left.
    + destruct (decide (sec v2 ino l = NONE)) as [Hn2|Hn2]; [left; rewrite (Hnone l Hl Hn); done|].
      right. split; [apply elem_of_app; by right|]. split; [by apply Hnone|].
      apply Hfalse; [|done]. rewrite <- Hc1, <- Hc2. apply sec_in_range; [apply H2..|done|done].
  - intros s Hs Hb. apply H2; [by rewrite Hc1|]. by apply H1.
  - intros s Hs Hb. destruct (ex_bits _ _ _ _ _ _ H2 s) as [Hb1|(l & Hin & Hl & Hsl)]; [by rewrite Hc1|done| |].
    + destruct (ex_bits _ _ _ _ _ _ H1 s Hs Hb1) as [?|(l & Hin & Hl & Hsl)]; [by left|].
      right. exists l. split; [apply elem_of_app; by left|]. split; [done|].
      rewrite (extends_present _ _ _ _ _ _ _ H2 Hl); [done|].
      rewrite Hsl. intros E. pose proof (wf_cnt _ (vo_wf _ _ Hv)). unfold NONE in E. lia.
    + right. exists l. split; [apply elem_of_app; by right|done].
  - intros s Hs Hb Hnt. rewrite (ex_frame _ _ _ _ _ _ H2 s).
    + by apply (ex_frame _ _ _ _ _ _ H1).
    + by rewrite Hc1.
    + by apply H1.
    + intros l Hl Htab E. destruct (ex_sec _ _ _ _ _ _ H1 l Hl) as [E1|(_ & _ & Hb1)].
      * apply (Hnt l); congruence.
      * congruence.
  - intros s Hs Hnt. rewrite (ex_outside _ _ _ _ _ _ H2) by (done || by rewrite Hc1).
    apply (ex_outside _ _ _ _ _ _ H1); [done|]. intros l Hl E. apply (Hnt l Hl).
    rewrite (extends_present _ _ _ _ _ _ _ H2 Hl); [done|]. rewrite E. intros ->.
    pose proof (wf_cnt _ (vo_wf _ _ Hv)). unfold NONE in Hs. lia.
  - intros k Hk. by rewrite (ex_meta _ _ _ _ _ _ H2), (ex_meta _ _ _ _ _ _ H1).
  - pose proof (ex_free _ _ _ _ _ _ H1). pose proof (ex_free _ _ _ _ _ _ H2).
    rewrite length_app. lia.
Qed.

Lemma grow_extends v fm ino l p k s fm' d :
  view_ok v fm -> tree_wf v fm ino -> loc_ok l -> parent l = Some (p, k) ->
  v !! sec v ino p = Some d -> sec v ino l = NONE -> allocated fm s fm' ->
  extends ino v fm (grow v ino l s) fm' [l] /\ sec (grow v ino l s) ino l = s.
Proof.
  intros Hv Ht Hl Hp Hd Hnone Hal.
  pose proof (grow_sec v fm ino l p k s fm' d Hv Ht Hl Hp Hd Hnone Hal) as Hsec.
  split; [|by rewrite Hsec, decide_True].
  destruct (grow_s_range v fm s fm' Hv Hal) as [_ Hsn]. split.
  - by eapply grow_view_ok.
  - by eapply grow_tree_wf.
  - apply Hal.
  - intros l' Hl'. rewrite Hsec by done. case_decide as E; [|by left]. subst. right.
    split; [by left|]. split; [done|]. apply Hal.
  - intros s' Hs' Hb. rewrite (al_bit _ _ _ Hal), Hb by done. apply orb_true_r.
  - intros s' Hs'. rewrite (al_bit _ _ _ Hal) by done.
    intros [E%Z.eqb_eq|Hb]%orb_true_iff; [|by left]. right. exists l. split; [left|].
    split; [done|]. by rewrite Hsec, decide_True.
  - intros s' Hs' Hb Hnt. eapply grow_lookup; [done..| |].
    + intros ->. rewrite (al_free _ _ _ Hal) in Hb. done.
    + destruct (parent_ok _ _ _ Hl Hp) as (Hpo & Htab & _). intros ->. by apply (Hnt p).
  - intros s' Hs' Hnt. destruct (parent_ok _ _ _ Hl Hp) as (Hpo & _ & _).
    eapply grow_lookup; [done..| |].
    + intros ->. apply (Hnt l Hl). by rewrite Hsec, decide_True.
    + intros ->. apply (Hnt p Hpo). rewrite Hsec by done. rewrite decide_False; [done|].
      intros ->. rewrite Hnone, (view_NONE _ _ Hv) in Hd. done.
  - intros k' Hk'. by eapply grow_meta.
  - rewrite (nfree_allocated _ _ _ Hal). cbn. lia.
Qed.
