(* ===== verification/InodeLookup.v ===== *)
(** From positions to sectors (src/src/filesys/inode.c, byte_to_sector
    and the table lookups): a lookup for reading finds the sector of the
    tree, and a lookup for writing extends the tree by the sectors that
    are missing, given the contract of the buffer cache. *)
From S2P Require Import Prelude Words Bitmap Monitor Pipe Block Cache CacheSpec CacheClient.
From S2P Require Import Fs Inode InodeTree.
From stdpp Require Import options.

#[local] Arguments Nat.div : simpl never.
#[local] Arguments Nat.modulo : simpl never.

Lemma s32_none w : 0 <= w < 2 ^ 32 -> (s32 w =? -1) = (w =? NONE).
Proof.
  intros Hw. unfold s32, NONE. apply eq_bool_prop_intro. rewrite !Is_true_true, !Z.eqb_eq.
  destruct (Z.lt_ge_cases w (2 ^ 31)).
  - rewrite Z.mod_small by lia. lia.
  - replace (w + 2 ^ 31) with (w - 2 ^ 31 + 1 * 2 ^ 32) by lia.
    rewrite Z.mod_add, Z.mod_small by lia. lia.
Qed.

Lemma s32_m2 w : 0 <= w < 2 ^ 32 -> (s32 w =? -2) = (w =? 2 ^ 32 - 2).
Proof.
  intros Hw. unfold s32. apply eq_bool_prop_intro. rewrite !Is_true_true, !Z.eqb_eq.
  destruct (Z.lt_ge_cases w (2 ^ 31)).
  - rewrite Z.mod_small by lia. lia.
  - replace (w + 2 ^ 31) with (w - 2 ^ 31 + 1 * 2 ^ 32) by lia.
    rewrite Z.mod_add, Z.mod_small by lia. lia.
Qed.

Lemma s32_NONE_neg : s32 NONE < 0.
Proof. done. Qed.

(** The blocks a caller holds: in use, and not of the tree of [ino]. *)
Record pins_ok (P : gmap nat pin) (v : gmap Z (list Z)) (fm : bitmap) (ino : Z) : Prop := {
  po_marked : forall i p, P !! i = Some p ->
    0 <= pin_sector p < bit_cnt fm /\ bit fm (pin_sector p) = true;
  po_apart : forall i p l, P !! i = Some p -> loc_ok l -> sec v ino l <> pin_sector p;
  po_size : (size P <= 60)%nat;
}.

Lemma pins_ok_extends P v fm v' fm' ino new :
  extends ino v fm v' fm' new -> pins_ok P v fm ino -> pins_ok P v' fm' ino.
Proof.
  intros He [Hm Ha Hs]. split; [..|done].
  - intros i p Hp. destruct (Hm i p Hp). rewrite (ex_cnt _ _ _ _ _ _ He).
    split; [done|]. by apply (ex_mono _ _ _ _ _ _ He).
  - intros i p l Hp Hl E. destruct (Hm i p Hp) as [_ Hb].
    destruct (ex_sec _ _ _ _ _ _ He l Hl) as [E1|(_ & _ & Hb1)].
    + apply (Ha i p l); congruence.
    + congruence.
Qed.

Lemma pins_ok_empty v fm ino : pins_ok ∅ v fm ino.
Proof.
  split.
  - intros i p Hp. by rewrite lookup_empty in Hp.
  - intros i p l Hp. by rewrite lookup_empty in Hp.
  - rewrite map_size_empty. lia.
Qed.

Section lookup.
Context {C : Type} `{BufferCacheSpec C}.

(** The state [s] with other contents of the cache and the free map. *)
Definition upd (c : C) (fm : bitmap) (s : fs C) : fs C := set_cache c (set_free_map fm s).

Lemma upd_eta s : s = upd (fs_cache s) (free_map s) s.
Proof. by destruct s. Qed.

Lemma upd_upd c fm c' fm' s : upd c fm (upd c' fm' s) = upd c fm s.
Proof. done. Qed.

Lemma wp_cachef_upd {A} (m : ST C A) (Q : A -> fs C -> Prop) c fm s :
  wp m (fun a c' => Q a (upd c' fm s)) c -> wp (cachef m) Q (upd c fm s).
Proof. intros Hm. by apply wp_cachef. Qed.

Lemma wp_allocate (Q : option Z -> fs C -> Prop) c fm s :
  bitmap_wf fm -> (0 < nfree fm)%nat ->
  (forall x fm', allocated fm x fm' -> Q (Some x) (upd c fm' s)) ->
  wp (free_map_allocate 1) Q (upd c fm s).
Proof.
  intros Hwf Hn HQ. unfold free_map_allocate. wp_steps. apply wp_lift.
  destruct (scan_and_flip_one fm Hwf Hn) as (x & fm' & Hscan & Hx & Hal).
  cbn [free_map upd set_cache set_free_map]. rewrite Hscan. cbn [wpr]. wp_steps.
  rewrite eqb_false by done. cbn [negb]. by apply HQ.
Qed.

Context (s : fs C) (ino : Z) (P : gmap nat pin).
Implicit Types (c : C) (fm : bitmap) (v : gmap Z (list Z)).

(** [access_indirect_block] with a block that exists. *)
Lemma access_indirect_present c fm ind write (Q : Z -> fs C -> Prop) :
  0 <= ind < 2 ^ 32 -> ind <> NONE -> Q ind (upd c fm s) ->
  wp (access_indirect_block ind write) Q (upd c fm s).
Proof using Type.
  intros Hr Hn HQ. unfold access_indirect_block. rewrite s32_none, eqb_false by done.
  rewrite !andb_false_r. by wp_steps.
Qed.

(** ... and without one, for writing. *)
Lemma access_indirect_new c fm v (Q : Z -> fs C -> Prop) :
  bc_rep c v P -> bitmap_wf fm -> (0 < nfree fm)%nat -> (size P < 64)%nat ->
  (forall x, 0 <= x < bit_cnt fm -> bit fm x = false -> is_Some (v !! x)) ->
  (forall i p, P !! i = Some p -> bit fm (pin_sector p) = true) ->
  (forall c' x fm', bc_rep c' (<[x := none_table]> v) P -> allocated fm x fm' ->
     Q x (upd c' fm' s)) ->
  wp (access_indirect_block NONE true) Q (upd c fm s).
Proof using Type.
  intros Hrep Hwf Hn Hsz Hdom Hmark HQ. unfold access_indirect_block.
  change (s32 NONE =? -1) with true. cbn [negb andb]. wp_steps.
  apply wp_allocate; [done..|]. intros x fm' Hal. cbn match. wp_steps.
  apply wp_cachef_upd. eapply wp_bc_get; [done| |done|].
  { intros i p Hp E. rewrite <- E in *. pose proof (Hmark i p Hp). pose proof (al_free _ _ _ Hal).
    congruence. }
  intros i c1 Hi Hrep1. wp_steps. apply wp_cachef_upd. eapply wp_bc_zero; [done| |].
  { apply Hdom; apply Hal. }
  intros c2 Hrep2. wp_steps. apply wp_cachef_upd. eapply wp_bc_store; [done|apply none_table_ok|].
  intros c3 Hrep3. wp_steps. apply wp_cachef_upd. eapply wp_bc_put_dirty; [done..|].
  intros c4 Hrep4. wp_steps. by apply HQ.
Qed.

(** Finding an entry of an indirect block for reading. *)
Lemma lookup_table_entry_read c fm v data ind tbl index mapping (Q : Z -> fs C -> Prop) :
  bc_rep c v P -> v !! ind = Some tbl ->
  (forall i p, P !! i = Some p -> pin_sector p <> ind) -> (size P < 64)%nat ->
  0 <= index < 128 ->
  (index < 127 -> s32 (word tbl (Z.to_nat (index + 1))) < 0 \/
                  is_Some (v !! word tbl (Z.to_nat (index + 1)))) ->
  (forall c', bc_rep c' v P -> Q (word tbl (Z.to_nat index)) (upd c' fm s)) ->
  wp (lookup_table_entry data ind index mapping false) Q (upd c fm s).
Proof using Type.
  intros Hrep Htbl Hpin Hsz Hidx Hahead HQ. unfold lookup_table_entry. wp_steps.
  apply wp_cachef_upd. eapply wp_bc_get; [done..|]. intros i c1 Hi Hrep1.
  wp_steps. apply wp_cachef_upd. eapply wp_bc_read; [done..|]. intros c2 Hrep2.
  wp_steps. apply wp_lift. unfold table_get, NUM_INDIRECT.
  rewrite leb_true, ltb_true by lia. cbn [andb wpr negb]. wp_steps.
  assert (Hput : forall c3, bc_rep c3 v (<[i:=mkPin ind false (Some tbl) false]> P) ->
    wp (if s32 (word tbl (Z.to_nat index)) =? -1
        then cachef (bc_put i);;; ret (u32 (-1))
        else cachef (bc_put i);;; ret (word tbl (Z.to_nat index))) Q (upd c3 fm s)).
  { intros c3 Hrep3.
    assert (Hp : forall r, r = word tbl (Z.to_nat index) ->
              wp (cachef (bc_put i);;; ret r) Q (upd c3 fm s)).
    { intros r ->. wp_steps. apply wp_cachef_upd. eapply wp_bc_put_clean; [done..|].
      intros c4 Hrep4. wp_steps. by apply HQ. }
    rewrite s32_none by apply word_range. destruct (Z.eqb_spec (word tbl (Z.to_nat index)) NONE) as [E|].
    - apply Hp. by rewrite E.
    - by apply Hp. }
  destruct (Z.ltb_spec index (128 - 1)); cbn [andb].
  - destruct (mapping + 1 <? _).
    + wp_steps. apply wp_lift. rewrite leb_true, ltb_true by lia. cbn [andb wpr].
      apply wp_cachef_upd. eapply wp_mono.
      { apply bc_ahead_spec; [exact Hrep2|]. apply Hahead. lia. }
      intros [] c3 Hrep3. by apply Hput.
    + wp_steps. by apply Hput.
  - wp_steps. by apply Hput.
Qed.

(** ... and for writing. *)
Lemma lookup_table_entry_write c fm v data ind tbl index mapping (Q : Z -> fs C -> Prop) :
  bc_rep c v P -> v !! ind = Some tbl -> sector_ok tbl ->
  (forall i p, P !! i = Some p -> pin_sector p <> ind) -> (size P < 64)%nat ->
  0 <= index < 128 ->
  (word tbl (Z.to_nat index) <> NONE ->
     forall c', bc_rep c' v P -> Q (word tbl (Z.to_nat index)) (upd c' fm s)) ->
  (word tbl (Z.to_nat index) = NONE -> bitmap_wf fm /\ (0 < nfree fm)%nat /\
     forall c' x fm', bc_rep c' (<[ind := set_word tbl (Z.to_nat index) x]> v) P ->
       allocated fm x fm' -> Q x (upd c' fm' s)) ->
  wp (lookup_table_entry data ind index mapping true) Q (upd c fm s).
Proof using Type.
  intros Hrep Htbl Hok Hpin Hsz Hidx HQ1 HQ2. unfold lookup_table_entry. wp_steps.
  apply wp_cachef_upd. eapply wp_bc_get; [done..|]. intros i c1 Hi Hrep1.
  wp_steps. apply wp_cachef_upd. eapply wp_bc_read; [done..|]. intros c2 Hrep2.
  wp_steps. apply wp_lift. unfold table_get, NUM_INDIRECT.
  rewrite leb_true, ltb_true by lia. cbn [andb wpr negb]. wp_steps.
  rewrite s32_none by apply word_range.
  destruct (Z.eqb_spec (word tbl (Z.to_nat index)) NONE) as [E|E].
  - destruct (HQ2 E) as (Hwf & Hn & HQ). wp_steps. apply wp_allocate; [done..|]. intros x fm' Hal.
    cbn match. wp_steps. apply wp_cachef_upd.
    eapply wp_bc_store; [done|by apply set_word_sector_ok|]. intros c3 Hrep3.
    wp_steps. apply wp_cachef_upd. eapply wp_bc_dirty; [done|]. intros c4 Hrep4.
    wp_steps. apply wp_cachef_upd. eapply wp_bc_put_dirty; [done..|]. intros c5 Hrep5.
    wp_steps. by apply HQ.
  - wp_steps. apply wp_cachef_upd. eapply wp_bc_put_clean; [done..|]. intros c3 Hrep3.
    wp_steps. by apply HQ1.
Qed.
End lookup.

(** * Extending the tree

    While a lookup for writing runs it holds the block [b] of the inode,
    with contents [d]; the file is then the one of the view in which the
    inode's sector has these contents. *)

Section ensure.
Context {C : Type} `{BufferCacheSpec C}.
Context (s : fs C) (ino : Z) (P : gmap nat pin) (b : nat) (Hb : P !! b = None).
Implicit Types (c : C) (fm : bitmap) (v : gmap Z (list Z)) (d : list Z) (di : bool).

Definition held_inode (ex : bool) (d : list Z) (di : bool) : gmap nat pin :=
  <[b := mkPin ino ex (Some d) di]> P.

Lemma held_apart ex v fm d di l i p :
  tree_wf v fm ino -> pins_ok P v fm ino -> loc_ok l -> l <> LInode -> sec v ino l <> NONE ->
  held_inode ex d di !! i = Some p -> pin_sector p <> sec v ino l.
Proof using Type.
  intros Ht Hp Hl Hne Hn. unfold held_inode. rewrite lookup_insert_Some.
  intros [[_ <-]|[_ Hi]] E; cbn in E.
  - apply Hne. symmetry. apply (tw_inj _ _ _ Ht); [done..|apply Ht].
  - by apply (po_apart _ _ _ _ Hp i p l).
Qed.

Lemma held_marked ex v fm d di i p :
  tree_wf v fm ino -> pins_ok P v fm ino ->
  held_inode ex d di !! i = Some p -> bit fm (pin_sector p) = true.
Proof using Type.
  intros Ht Hp. unfold held_inode. rewrite lookup_insert_Some. intros [[_ <-]|[_ Hi]].
  - by apply (tw_sec _ _ _ Ht LInode); [|apply Ht].
  - by apply (po_marked _ _ _ _ Hp i).
Qed.

Lemma held_size ex v fm d di : pins_ok P v fm ino -> (size (held_inode ex d di) <= 61)%nat.
Proof using Hb.
  intros Hp. unfold held_inode. rewrite map_size_insert_None by done.
  pose proof (po_size _ _ _ _ Hp). lia.
Qed.

(** What a step of the lookup leaves behind. *)
Definition grown (v : gmap Z (list Z)) (fm : bitmap) (d : list Z) (di : bool) (l : loc)
    (c' : C) (fm' : bitmap) (v' : gmap Z (list Z)) (d' : list Z) (new : list loc) : Prop :=
  bc_rep c' v' (held_inode true d' di) /\ sector_ok d' /\
  extends ino (<[ino := d]> v) fm (<[ino := d']> v') fm' new /\
  (length new <= 1)%nat /\ (forall l', l' ∈ new -> l' = l) /\
  sec (<[ino := d']> v') ino l <> NONE.

Section one_step.
Context (c : C) (fm : bitmap) (v : gmap Z (list Z)) (d : list Z) (di : bool).
Context (Hrep : bc_rep c v (held_inode true d di)) (Hd : sector_ok d).
Let ev := <[ino := d]> v.
Context (Hv : view_ok ev fm) (Ht : tree_wf ev fm ino) (Hp : pins_ok P ev fm ino)
  (Hfree : (0 < nfree fm)%nat).

Lemma not_inode l : loc_ok l -> l <> LInode -> sec ev ino l <> NONE -> sec ev ino l <> ino.
Proof using Ht.
  intros Hl Hne Hn E. apply Hne. by apply (tw_inj _ _ _ Ht).
Qed.

Lemma held_table l :
  loc_ok l -> l <> LInode -> sec ev ino l <> NONE ->
  exists tbl, v !! sec ev ino l = Some tbl /\ ev !! sec ev ino l = Some tbl /\ sector_ok tbl.
Proof using Hv Ht.
  intros Hl Hne Hn. destruct (tw_sec _ _ _ Ht l Hl Hn) as [[tbl Htbl] _]. exists tbl.
  split; [|split; [done|by eapply vo_sector]].
  rewrite <- Htbl. symmetry. apply lookup_insert_ne. symmetry. by apply not_inode.
Qed.

Lemma same_grown l :
  sec ev ino l <> NONE ->
  forall c', bc_rep c' v (held_inode true d di) -> grown v fm d di l c' fm v d [].
Proof using Hd Hv Ht.
  intros Hl c' Hrep'. split; [done|]. split; [done|]. split; [by apply extends_refl|].
  split; [apply Nat.le_0_l|]. split; [|done]. by intros l' ?%not_elem_of_nil.
Qed.

Lemma free_present x : 0 <= x < bit_cnt fm -> bit fm x = false -> is_Some (v !! x).
Proof using Hv Ht.
  intros Hx Hbx. assert (Hs : is_Some (ev !! x)) by by apply (vo_dom _ _ Hv).
  unfold ev in Hs. rewrite lookup_insert_ne in Hs; [done|]. intros E. rewrite <- E in Hbx.
  destruct (tw_sec _ _ _ Ht LInode I (tw_inode _ _ _ Ht)) as [_ Hbit]. cbn in Hbit. rewrite Hbit in Hbx. discriminate.
Qed.

(** A data sector below an indirect block. *)
Lemma ensure_entry data p l idx mapping (Q : Z -> fs C -> Prop) :
  loc_ok l -> parent l = Some (p, idx) -> p <> LInode -> is_table l = false ->
  sec ev ino p <> NONE ->
  (forall c' fm' v' new, grown v fm d di l c' fm' v' d new ->
     Q (sec (<[ino := d]> v') ino l) (upd c' fm' s)) ->
  wp (lookup_table_entry data (sec ev ino p) (Z.of_nat idx) mapping true) Q (upd c fm s).
Proof using Hrep Hd Hv Ht Hp Hfree Hb.
  intros Hl Hpar Hpi Htab Hpn HQ.
  destruct (parent_ok _ _ _ Hl Hpar) as (Hpo & _ & Hidx).
  destruct (held_table p Hpo Hpi Hpn) as (tbl & Htbl & Hetbl & Htok).
  assert (Hsec : sec ev ino l = word tbl idx).
  { rewrite (sec_parent _ _ _ _ _ Hpar). unfold child. by rewrite Hetbl. }
  eapply lookup_table_entry_write; [done|done|done| | |lia|..]; rewrite ?Nat2Z.id.
  - intros i pn Hi. by eapply held_apart.
  - pose proof (held_size true _ _ d di Hp). lia.
  - intros Hw c' Hrep'. rewrite <- Hsec. rewrite <- Hsec in Hw.
    apply (HQ c' fm v []). by apply same_grown.
  - intros Hw. split; [apply Hv|]. split; [done|]. intros c' x fm' Hrep' Hal.
    rewrite <- Hsec in Hw.
    destruct (grow_extends ev fm ino l p idx x fm' tbl) as [Hext Hx]; [done..|].
    assert (Hev : grow ev ino l x = <[ino := d]> (<[sec ev ino p := set_word tbl idx x]> v)).
    { unfold grow. rewrite Hpar, Hetbl, Htab. cbn [default].
      unfold ev at 2. apply insert_insert_ne. by apply not_inode. }
    rewrite Hev in Hext, Hx. rewrite <- Hx. apply (HQ c' fm' _ [l]). split; [done|].
    split; [done|]. split; [done|]. split; [done|]. split; [|rewrite Hx].
    + by intros l' ->%list_elem_of_singleton.
    + pose proof (grow_s_range ev fm x fm' Hv Hal). tauto.
Qed.

(** The indirect or the doubly indirect block of the inode. *)
Lemma ensure_top l k (Q : Z -> fs C -> Prop) :
  l <> LInode -> parent l = Some (LInode, k) -> loc_ok l -> is_table l = true ->
  (forall c' fm' v' d' new, d' = set_word d k (sec (<[ino := d']> v') ino l) ->
     bc_rep c' v' (held_inode true d di) ->
     (forall c'', bc_rep c'' v' (held_inode true d' di) -> grown v fm d di l c'' fm' v' d' new) ->
     sector_ok d' -> sec (<[ino := d']> v') ino l <> NONE ->
     0 <= sec (<[ino := d']> v') ino l < bit_cnt fm ->
     Q (sec (<[ino := d']> v') ino l) (upd c' fm' s)) ->
  wp (access_indirect_block (word d k) true) Q (upd c fm s).
Proof using Hrep Hd Hv Ht Hp Hfree Hb.
  intros Hli Hpar Hl Htab HQ. destruct (parent_ok _ _ _ Hl Hpar) as (_ & _ & Hk).
  assert (Hino : ev !! ino = Some d) by (unfold ev; apply lookup_insert_eq).
  assert (Hsec : sec ev ino l = word d k).
  { rewrite (sec_parent _ _ _ _ _ Hpar). unfold child. cbn [sec]. by rewrite Hino. }
  destruct (decide (word d k = NONE)) as [E|E].
  - rewrite E. rewrite E in Hsec. eapply access_indirect_new; [done|apply Hv|done|..].
    + pose proof (held_size true _ _ d di Hp). lia.
    + by apply free_present.
    + intros i pn Hi. by eapply held_marked.
    + intros c' x fm' Hrep' Hal. pose proof (grow_s_range ev fm x fm' Hv Hal) as [Hxr Hxn].
      destruct (grow_extends ev fm ino l LInode k x fm' d) as [Hext Hx]; [done..|].
      set (d' := set_word d k x).
      assert (Hev : grow ev ino l x = <[ino := d']> (<[x := none_table]> v)).
      { unfold grow. rewrite Hpar, Htab. cbn [sec]. rewrite Hino. cbn [default]. unfold ev.
        rewrite (insert_insert_ne v x ino), insert_insert_eq; [done|].
        intros E'. by apply (grow_fresh ev fm ino x fm' Hv Ht Hal LInode I). }
      rewrite Hev in Hext, Hx. rewrite <- Hx.
      assert (Hd' : sector_ok d') by by apply set_word_sector_ok.
      apply (HQ c' fm' _ d' [l]); rewrite ?Hx; try done; [|apply Hal].
      intros c'' Hrep2. split; [done|]. split; [done|]. split; [done|]. split; [done|].
      split; [by intros l' ->%list_elem_of_singleton|by rewrite Hx].
  - eapply access_indirect_present; [apply word_range|done|]. rewrite <- Hsec. rewrite <- Hsec in E.
    assert (Hsame : set_word d k (sec ev ino l) = d).
    { rewrite Hsec. apply set_word_same; [apply Hd|]. destruct Hd as [-> _]. lia. }
    apply (HQ c fm v d []); try done.
    + by apply same_grown.
    + eapply sec_in_range; done.
Qed.

(** An indirect block below the doubly indirect one, whose block [b2]
    the caller holds too. *)
Lemma ensure_below b2 c2 idx tbl (Q : Z -> fs C -> Prop) :
  (idx < 128)%nat -> sec ev ino LDbl <> NONE -> v !! sec ev ino LDbl = Some tbl ->
  held_inode true d di !! b2 = None ->
  bc_rep c2 v (<[b2 := mkPin (sec ev ino LDbl) true (Some tbl) false]> (held_inode true d di)) ->
  (word tbl idx <> NONE -> Q (word tbl idx) (upd c2 fm s)) ->
  (word tbl idx = NONE -> forall c' fm' x,
     bc_rep c' (<[x := none_table]> v)
       (<[b2 := mkPin (sec ev ino LDbl) true (Some tbl) false]> (held_inode true d di)) ->
     0 <= x < bit_cnt fm ->
     (forall c'', bc_rep c'' (<[sec ev ino LDbl := set_word tbl idx x]> (<[x := none_table]> v))
                    (held_inode true d di) ->
        grown v fm d di (LDblInd idx) c'' fm'
          (<[sec ev ino LDbl := set_word tbl idx x]> (<[x := none_table]> v)) d [LDblInd idx] /\
        sec (<[ino := d]> (<[sec ev ino LDbl := set_word tbl idx x]> (<[x := none_table]> v)))
          ino (LDblInd idx) = x) ->
     Q x (upd c' fm' s)) ->
  wp (access_indirect_block (word tbl idx) true) Q (upd c2 fm s).
Proof using Hd Hv Ht Hp Hfree Hb.
  intros Hidx Hdn Htbl Hb2 Hrep2 HQ1 HQ2.
  pose proof (not_inode LDbl I ltac:(done) Hdn) as Hdi.
  assert (Hetbl : ev !! sec ev ino LDbl = Some tbl)
    by (rewrite <- Htbl; apply lookup_insert_ne; done).
  assert (Htok : sector_ok tbl) by by eapply vo_sector.
  destruct (decide (word tbl idx = NONE)) as [E|E].
  2:{ eapply access_indirect_present; [apply word_range|done|by apply HQ1]. }
  rewrite E. eapply access_indirect_new; [done|apply Hv|done|..].
  - rewrite map_size_insert_None by done. pose proof (held_size true _ _ d di Hp). lia.
  - by apply free_present.
  - intros i pn Hi. apply lookup_insert_Some in Hi as [[_ <-]|[_ Hi]]; [|by eapply held_marked].
    by apply (tw_sec _ _ _ Ht LDbl).
  - intros c' x fm' Hrep' Hal. pose proof (grow_s_range ev fm x fm' Hv Hal) as [Hxr Hxn].
    assert (Hsec : sec ev ino (LDblInd idx) = NONE).
    { rewrite (sec_parent ev ino (LDblInd idx) LDbl idx eq_refl). unfold child. by rewrite Hetbl. }
    destruct (grow_extends ev fm ino (LDblInd idx) LDbl idx x fm' tbl) as [Hext Hx]; [done..|].
    pose proof (grow_fresh ev fm ino x fm' Hv Ht Hal LInode I) as Hxi. cbn in Hxi.
    assert (Hev : grow ev ino (LDblInd idx) x =
              <[ino := d]> (<[sec ev ino LDbl := set_word tbl idx x]> (<[x := none_table]> v))).
    { unfold grow. cbn [parent is_table]. rewrite Hetbl. cbn [default].
      set (ds := sec ev ino LDbl) in *. unfold ev.
      rewrite (insert_insert_ne v x ino) by done. by apply insert_insert_ne. }
    rewrite Hev in Hext, Hx. apply HQ2; [done..|apply Hal|].
    intros c'' Hrep''. split; [|done]. split; [done|]. split; [done|]. split; [done|].
    split; [done|]. split; [by intros l' ->%list_elem_of_singleton|by rewrite Hx].
Qed.
End one_step.

(** What a lookup for writing of data sector [m] leaves behind. *)
Definition mapped (v : gmap Z (list Z)) (fm : bitmap) (d : list Z) (di : bool) (m : nat)
    (r : Z) (s' : fs C) : Prop :=
  exists c' fm' v' d' new, s' = upd c' fm' s /\
    bc_rep c' v' (held_inode true d' di) /\ sector_ok d' /\
    extends ino (<[ino := d]> v) fm (<[ino := d']> v') fm' new /\
    (length new <= 3)%nat /\ (forall m', LData m' ∈ new -> m' = m) /\
    r = sec (<[ino := d']> v') ino (LData m) /\ r <> NONE.

Lemma valid_sector x fm :
  bitmap_wf fm -> 0 <= x < bit_cnt fm -> (s32 x =? -1) || (s32 x =? -2) = false.
Proof using Type.
  intros Hwf Hx. pose proof (wf_cnt _ Hwf). rewrite s32_none, s32_m2 by lia.
  rewrite !eqb_false by (unfold NONE; lia). done.
Qed.

Lemma double_index m :
  (251 <= m < MAX_SECTORS)%nat ->
  Z.quot (Z.of_nat m - 123 - 128) 128 = Z.of_nat ((m - 251) / 128) /\
  Z.rem (Z.of_nat m - 123 - 128) 128 = Z.of_nat ((m - 251) mod 128) /\
  ((m - 251) / 128 < 128)%nat.
Proof using Type.
  unfold MAX_SECTORS. intros Hm.
  replace (Z.of_nat m - 123 - 128) with (Z.of_nat (m - 251)) by lia.
  rewrite Z.quot_div_nonneg, Z.rem_mod_nonneg by lia.
  rewrite Nat2Z.inj_div, Nat2Z.inj_mod. split; [done|]. split; [done|].
  apply Nat.Div0.div_lt_upper_bound. lia.
Qed.

Section lookups.
Context (c : C) (fm : bitmap) (v : gmap Z (list Z)) (d : list Z) (di : bool).
Context (Hrep : bc_rep c v (held_inode true d di)) (Hd : sector_ok d).
Context (Hv : view_ok (<[ino := d]> v) fm) (Ht : tree_wf (<[ino := d]> v) fm ino)
  (Hp : pins_ok P (<[ino := d]> v) fm ino) (Hfree : (3 <= nfree fm)%nat).

Lemma lookup_direct_write m :
  (m < 123)%nat ->
  wp (lookup_direct_table b d (Z.of_nat m) true) (mapped v fm d di m) (upd c fm s).
Proof using Hrep Hd Hv Ht Hp Hfree Hb.
  intros Hm. unfold lookup_direct_table, direct, direct_ok, NUM_DIRECT. wp_steps.
  apply wp_lift. rewrite leb_true, ltb_true by lia. cbn [andb wpr negb]. wp_steps.
  rewrite Nat2Z.id. set (ev := <[ino := d]> v) in *.
  assert (Hino : ev !! ino = Some d) by (unfold ev; apply lookup_insert_eq).
  assert (Hpar : parent (LData m) = Some (LInode, (3 + m)%nat)) by (cbn; by rewrite decide_True).
  assert (Hl : loc_ok (LData m)) by (unfold loc_ok, MAX_SECTORS; lia).
  assert (Hsec : sec ev ino (LData m) = word d (3 + m)).
  { rewrite (sec_parent _ _ _ _ _ Hpar). unfold child. cbn [sec]. by rewrite Hino. }
  rewrite s32_none by apply word_range.
  destruct (Z.eqb_spec (word d (3 + m)) NONE) as [E|E]; wp_steps.
  - apply wp_allocate; [apply Hv|lia|]. intros x fm' Hal. cbn match. wp_steps.
    unfold set_direct. rewrite Nat2Z.id.
    apply wp_cachef_upd. eapply wp_bc_store; [done|by apply set_word_sector_ok|].
    intros c' Hrep'. wp_steps. rewrite E in Hsec.
    destruct (grow_extends ev fm ino (LData m) LInode (3 + m) x fm' d) as [Hext Hx]; [done..|].
    assert (Hev : grow ev ino (LData m) x = <[ino := set_word d (3 + m) x]> v).
    { unfold grow. rewrite Hpar. cbn [sec is_table]. rewrite Hino. cbn [default].
      unfold ev. by rewrite insert_insert_eq. }
    rewrite Hev in Hext, Hx. exists c', fm', v, (set_word d (3 + m) x), [LData m].
    split; [done|]. split; [done|]. split; [by apply set_word_sector_ok|]. split; [done|].
    split; [cbn; lia|]. split; [|split; [done|]].
    + by intros m' [= ->]%list_elem_of_singleton.
    + pose proof (grow_s_range ev fm x fm' Hv Hal). tauto.
  - exists c, fm, v, d, []. split; [done|]. split; [done|]. split; [done|].
    split; [by apply extends_refl|]. split; [cbn; lia|]. split; [|split; [done|done]].
    by intros m' ?%not_elem_of_nil.
Qed.

(** From a present indirect block to the data sector below it. *)
Lemma lookup_below_write c1 fm1 v1 d1 new1 data p m idx mapping :
  bc_rep c1 v1 (held_inode true d1 di) -> sector_ok d1 ->
  extends ino (<[ino := d]> v) fm (<[ino := d1]> v1) fm1 new1 ->
  (length new1 <= 2)%nat -> (forall m', LData m' ∉ new1) ->
  loc_ok (LData m) -> parent (LData m) = Some (p, idx) -> p <> LInode ->
  sec (<[ino := d1]> v1) ino p <> NONE ->
  wp (lookup_table_entry data (sec (<[ino := d1]> v1) ino p) (Z.of_nat idx) mapping true)
    (mapped v fm d di m) (upd c1 fm1 s).
Proof using Hv Ht Hp Hfree Hb.
  intros Hrep1 Hd1 Hext1 Hlen1 Hnew1 Hl Hpar Hpi Hpn.
  pose proof (ex_free _ _ _ _ _ _ Hext1) as Hf.
  eapply (ensure_entry c1 fm1 v1 d1 di); try done.
  - apply Hext1.
  - apply Hext1.
  - by eapply pins_ok_extends.
  - lia.
  - intros c' fm' v' new (Hrep' & Hd' & Hext' & Hlen' & Hnew' & Hn).
    exists c', fm', v', d1, (new1 ++ new). split; [done|]. split; [done|]. split; [done|].
    split; [by eapply extends_trans|]. split; [rewrite length_app; lia|].
    split; [|done]. intros m' [Hin|Hin]%elem_of_app; [by apply Hnew1 in Hin|].
    apply Hnew' in Hin. by simplify_eq.
Qed.

Lemma lookup_indirect_write m :
  (123 <= m < 251)%nat ->
  wp (lookup_indirect_table b d (Z.of_nat m) true) (mapped v fm d di m) (upd c fm s).
Proof using Hrep Hd Hv Ht Hp Hfree Hb.
  intros Hm. unfold lookup_indirect_table, disk_indirect, set_indirect, NUM_DIRECT. wp_steps.
  eapply (ensure_top c fm v d di Hrep Hd Hv Ht Hp ltac:(lia) LInd 126); [done..|].
  intros c1 fm1 v1 d1 new Hd1 Hrep1 Hgrown Hok1 Hn1 Hr1. cbn beta.
  rewrite (valid_sector _ fm) by (done || apply Hv). rewrite <- Hd1. wp_steps.
  apply wp_cachef_upd. eapply wp_bc_store; [exact Hrep1|done|]. intros c2 Hrep2.
  destruct (Hgrown c2 Hrep2) as (_ & _ & Hext & Hlen & Hnew & _).
  replace (Z.of_nat m - 123) with (Z.of_nat (m - 123)) by lia.
  eapply lookup_below_write; try done.
  - lia.
  - intros m' Hin. by apply Hnew in Hin.
  - unfold loc_ok, MAX_SECTORS. lia.
  - cbn. rewrite decide_False, decide_True by lia. done.
Qed.

Lemma lookup_double_indirect_write m :
  (251 <= m < MAX_SECTORS)%nat ->
  wp (lookup_double_indirect_table b d (Z.of_nat m) true) (mapped v fm d di m) (upd c fm s).
Proof using Hrep Hd Hv Ht Hp Hfree Hb.
  intros Hm. unfold lookup_double_indirect_table, disk_double_indirect, set_double_indirect.
  unfold NUM_DIRECT, NUM_INDIRECT. wp_steps.
  eapply (ensure_top c fm v d di Hrep Hd Hv Ht Hp ltac:(lia) LDbl 127); [done..|].
  intros c1 fm1 v1 d1 new1 Hd1 Hrep1 Hgrown Hok1 Hn1 Hr1. cbn beta.
  rewrite (valid_sector _ fm) by (done || apply Hv). rewrite <- Hd1. wp_steps.
  apply wp_cachef_upd. eapply wp_bc_store; [exact Hrep1|done|]. intros c2 Hrep2.
  destruct (Hgrown c2 Hrep2) as (_ & _ & Hext1 & Hlen1 & Hnew1 & _).
  set (ev1 := <[ino := d1]> v1) in *. pose proof (ex_free _ _ _ _ _ _ Hext1) as Hf1.
  pose proof (ex_view _ _ _ _ _ _ Hext1) as Hv1. pose proof (ex_tree _ _ _ _ _ _ Hext1) as Ht1.
  assert (Hp1 : pins_ok P ev1 fm1 ino) by by eapply pins_ok_extends.
  destruct (held_table fm1 v1 d1 Hv1 Ht1 LDbl I ltac:(done) Hn1) as (tbl & Htbl & Hetbl & Htok).
  wp_steps. apply wp_cachef_upd. eapply wp_bc_get; [exact Hrep2| | |].
  { intros i pn Hi. by eapply held_apart. }
  { pose proof (held_size true _ _ d1 di Hp1). unfold held_inode in *. lia. }
  intros b2 c3 Hb2 Hrep3. wp_steps. apply wp_cachef_upd. eapply wp_bc_read; [done..|].
  intros c4 Hrep4. wp_steps. apply wp_lift.
  destruct (double_index m Hm) as (Hq & Hrem & Hidx).
  rewrite Hq, Hrem. set (idx := ((m - 251) / 128)%nat) in *.
  unfold table_get, NUM_INDIRECT. rewrite leb_true, ltb_true by lia. cbn [andb wpr].
  rewrite Nat2Z.id. wp_steps.
  assert (Hl : loc_ok (LData m)) by (unfold loc_ok; lia).
  assert (Hpar : parent (LData m) = Some (LDblInd idx, ((m - 251) mod 128)%nat)).
  { cbn. by rewrite !decide_False by lia. }
  fold ev1 in Htbl, Hetbl.
  assert (Hsec : sec ev1 ino (LDblInd idx) = word tbl idx).
  { rewrite (sec_parent ev1 ino (LDblInd idx) LDbl idx eq_refl). unfold child. by rewrite Hetbl. }
  eapply (ensure_below fm1 v1 d1 di Hok1 Hv1 Ht1 Hp1 ltac:(lia) b2 c4 idx tbl); try done.
  - intros Hw. rewrite <- Hsec in *.
    rewrite (valid_sector _ fm1); [|apply Hv1|by eapply sec_in_range].
    rewrite Z.eqb_refl. cbn [negb]. wp_steps.
    apply wp_cachef_upd. eapply wp_bc_put_clean; [done..|]. intros c5 Hrep5.
    eapply (lookup_below_write c5 fm1 v1 d1 new1); try done.
    + lia.
    + intros m' Hin. by apply Hnew1 in Hin.
  - intros Hw c5 fm5 x Hrep5 Hx Hg.
    rewrite (valid_sector _ fm1) by (done || apply Hv1).
    rewrite eqb_false by (pose proof (wf_cnt _ (vo_wf _ _ Hv1)); unfold NONE in *; lia).
    cbn [negb]. unfold table_set. rewrite Nat2Z.id. wp_steps.
    apply wp_cachef_upd. eapply wp_bc_store; [done|by apply set_word_sector_ok|].
    intros c6 Hrep6. wp_steps. apply wp_cachef_upd. eapply wp_bc_dirty; [done|].
    intros c7 Hrep7. wp_steps. apply wp_cachef_upd. eapply wp_bc_put_dirty; [done..|].
    intros c8 Hrep8. destruct (Hg c8 Hrep8) as [(_ & _ & Hext2 & _ & _ & Hn2) Hx2].
    rewrite <- Hx2. eapply (lookup_below_write c8 fm5 _ d1 (new1 ++ [LDblInd idx])); try done.
    + by eapply extends_trans.
    + rewrite length_app. cbn. lia.
    + intros m' [Hin|Hin]%elem_of_app; [by apply Hnew1 in Hin|].
      by apply list_elem_of_singleton in Hin.
Qed.
End lookups.
End ensure.

(** * The sector of a position *)

(** The entries after [m] in the same table. *)
Lemma next_entry m p idx :
  loc_ok (LData m) -> parent (LData m) = Some (p, idx) -> p <> LInode -> (idx < 127)%nat ->
  loc_ok (LData (m + 1)) /\ parent (LData (m + 1)) = Some (p, (idx + 1)%nat).
Proof.
  unfold loc_ok, MAX_SECTORS. cbn. intros Hm Hpar Hpne Hidx.
  repeat case_decide; simplify_eq; try lia.
  - split; [lia|]. do 2 f_equal. lia.
  - pose proof (Nat.div_mod_eq (m - 251) 128) as E1.
    set (q := ((m - 251) / 128)%nat) in *. set (r := ((m - 251) mod 128)%nat) in *.
    assert (Hq : ((m + 1 - 251) / 128)%nat = q).
    { symmetry. apply (Nat.div_unique _ 128 q (r + 1)); lia. }
    assert (Hr : ((m + 1 - 251) mod 128)%nat = (r + 1)%nat).
    { symmetry. apply (Nat.mod_unique _ 128 q (r + 1)); lia. }
    rewrite Hq, Hr. split; [|done].
    assert (q < 128)%nat by (apply Nat.Div0.div_lt_upper_bound; lia). lia.
Qed.

Section byte_to_sector.
Context {C : Type} `{BufferCacheSpec C}.
Context (s : fs C) (ino : Z) (P : gmap nat pin) (ptr : nat) (i : inode).
Context (Hi : inodes s !! ptr = Some i) (Hsec : i_sector i = ino).
Context (c : C) (fm : bitmap) (v : gmap Z (list Z)).
Context (Hrep : bc_rep c v P) (Hv : view_ok v fm) (Ht : tree_wf v fm ino)
  (Hp : pins_ok P v fm ino).

Lemma pins_not_inode j p : P !! j = Some p -> pin_sector p <> ino.
Proof using Hp. intros Hj E. by apply (po_apart _ _ _ _ Hp j p LInode). Qed.

Lemma inode_present : exists d, v !! ino = Some d /\ sector_ok d.
Proof using Hv Ht.
  destruct (tw_sec _ _ _ Ht LInode I (tw_inode _ _ _ Ht)) as [[d Hd] _]. exists d.
  split; [done|by eapply vo_sector].
Qed.

(** A lookup for writing extends the file until the position has a
    sector. *)
Lemma byte_to_sector_write pos (Q : Z -> fs C -> Prop) :
  0 <= pos < 512 * Z.of_nat MAX_SECTORS -> (3 <= nfree fm)%nat ->
  (forall c' fm' v' new, bc_rep c' v' P -> extends ino v fm v' fm' new ->
     (length new <= 3)%nat -> (forall m, LData m ∈ new -> m = Z.to_nat (pos / 512)) ->
     sec v' ino (LData (Z.to_nat (pos / 512))) <> NONE ->
     Q (sec v' ino (LData (Z.to_nat (pos / 512)))) (upd c' fm' s)) ->
  wp (byte_to_sector ptr pos true) Q (upd c fm s).
Proof using Hi Hsec Hrep Hv Ht Hp.
  intros Hpos Hfree HQ. unfold byte_to_sector. wp_steps. eapply wp_get_inode; [done|].
  rewrite Hsec. wp_steps. destruct inode_present as (d & Hd & Hok).
  apply wp_cachef_upd. eapply wp_bc_get; [done|apply pins_not_inode| |].
  { pose proof (po_size _ _ _ _ Hp). lia. }
  intros b c1 Hb Hrep1. wp_steps. apply wp_cachef_upd. eapply wp_bc_read; [done..|].
  intros c2 Hrep2. unfold BLOCK_SECTOR_SIZE. rewrite Z.quot_div_nonneg by lia. wp_steps.
  assert (Hm : 0 <= pos / 512 < Z.of_nat MAX_SECTORS).
  { split; [apply Z.div_pos; lia|apply Z.div_lt_upper_bound; lia]. }
  set (m := Z.to_nat (pos / 512)). assert (Hmz : pos / 512 = Z.of_nat m) by lia.
  rewrite Hmz in *. clear Hpos. rewrite Nat2Z.id in HQ.
  assert (Hev : <[ino := d]> v = v) by by apply insert_id.
  apply (wp_mono _ (mapped s ino P b v fm d false m)).
  - unfold NUM_DIRECT, NUM_INDIRECT, NUM_DOUBLE_INDIRECT.
    assert (Hmax : Z.of_nat MAX_SECTORS = 16635) by done.
    repeat match goal with |- context [?a <? ?b] => destruct (Z.ltb_spec a b) end; [..|lia].
    + eapply lookup_direct_write; rewrite ?Hev; [exact Hb|exact Hrep2|exact Hok|exact Hv|exact Ht|exact Hp|exact Hfree|lia].
    + eapply lookup_indirect_write; rewrite ?Hev; [exact Hb|exact Hrep2|exact Hok|exact Hv|exact Ht|exact Hp|exact Hfree|lia].
    + eapply lookup_double_indirect_write; rewrite ?Hev; [exact Hb|exact Hrep2|exact Hok|exact Hv|exact Ht|exact Hp|exact Hfree|lia].
  - intros r s' (c3 & fm3 & v3 & d3 & new & -> & Hrep3 & Hd3 & Hext & Hlen & Hnew & -> & Hn).
    rewrite Hev in Hext. set (v' := <[ino := d3]> v3) in *.
    pose proof (sec_in_range v' fm3 ino (LData m) (ex_view _ _ _ _ _ _ Hext)
      (ex_tree _ _ _ _ _ _ Hext) ltac:(unfold loc_ok; lia) Hn) as Hr.
    pose proof (valid_sector _ fm3 (vo_wf _ _ (ex_view _ _ _ _ _ _ Hext)) Hr) as Hvs.
    apply orb_false_iff in Hvs as [-> ->]. cbn [negb andb]. wp_steps.
    apply wp_cachef_upd. eapply wp_bc_dirty; [done|]. intros c4 Hrep4.
    wp_steps. apply wp_cachef_upd. eapply wp_bc_put_dirty; [done..|]. intros c5 Hrep5.
    wp_steps. by apply (HQ c5 fm3 v' new).
Qed.

(** The sector of the next position can be read ahead. *)
Lemma ahead_ok l : loc_ok l -> s32 (sec v ino l) < 0 \/ is_Some (v !! sec v ino l).
Proof using Ht.
  intros Hl. destruct (decide (sec v ino l = NONE)) as [->|Hn]; [by left|].
  right. by apply (tw_sec _ _ _ Ht).
Qed.

Section found.
Context (d : list Z) (b : nat) (Hd : v !! ino = Some d) (Hok : sector_ok d) (Hb : P !! b = None).
Context (w : bool) (fm1 : bitmap) (Q : Z -> fs C -> Prop).

Lemma lookup_direct_found c1 m :
  bc_rep c1 v (held_inode ino P b w d false) -> (m < 123)%nat ->
  (w = true -> sec v ino (LData m) <> NONE) ->
  (forall c', bc_rep c' v (held_inode ino P b w d false) ->
     Q (sec v ino (LData m)) (upd c' fm1 s)) ->
  wp (lookup_direct_table b d (Z.of_nat m) w) Q (upd c1 fm1 s).
Proof using Ht Hd.
  intros Hrep1 Hm Hw HQ. unfold lookup_direct_table, direct, direct_ok, NUM_DIRECT. wp_steps.
  apply wp_lift. rewrite leb_true, ltb_true by lia. cbn [andb wpr]. wp_steps.
  assert (Hword : forall k, (k < 123)%nat -> sec v ino (LData k) = word d (3 + k)).
  { intros k Hk. cbn [sec]. rewrite decide_True by done. unfold child. by rewrite Hd. }
  assert (Hend : forall c', bc_rep c' v (held_inode ino P b w d false) ->
    wp (if s32 (word d (3 + Z.to_nat (Z.of_nat m))) =? -1 then ret (u32 (-1))
        else ret (word d (3 + Z.to_nat (Z.of_nat m)))) Q (upd c' fm1 s)).
  { intros c' Hrep'. rewrite Nat2Z.id, s32_none by apply word_range. rewrite <- Hword by done.
    destruct (Z.eqb_spec (sec v ino (LData m)) NONE) as [E|E]; wp_steps; [|by apply HQ].
    change (u32 (-1)) with NONE. rewrite <- E. by apply HQ. }
  destruct w; cbn [negb andb].
  { wp_steps. rewrite Nat2Z.id, s32_none by apply word_range. rewrite <- Hword by done.
    rewrite eqb_false by auto. wp_steps. by apply HQ. }
  destruct (Z.ltb_spec (Z.of_nat m) (123 - 1)); cbn [andb].
  - destruct (_ <? _).
    + wp_steps. apply wp_lift. rewrite leb_true, ltb_true by lia. cbn [andb wpr].
      apply wp_cachef_upd. eapply wp_mono.
      { apply bc_ahead_spec; [exact Hrep1|].
        replace (Z.to_nat (Z.of_nat m + 1)) with (m + 1)%nat by lia.
        rewrite <- Hword by lia. apply ahead_ok. unfold loc_ok, MAX_SECTORS. lia. }
      intros [] c' Hrep'. by apply Hend.
    + wp_steps. by apply Hend.
  - wp_steps. by apply Hend.
Qed.

(** Below a table that is not the inode. *)
Lemma lookup_below_found c1 data m p idx mapping :
  bc_rep c1 v (held_inode ino P b w d false) ->
  loc_ok (LData m) -> parent (LData m) = Some (p, idx) -> p <> LInode ->
  sec v ino p <> NONE -> (w = true -> sec v ino (LData m) <> NONE) ->
  (forall c', bc_rep c' v (held_inode ino P b w d false) ->
     Q (sec v ino (LData m)) (upd c' fm1 s)) ->
  wp (lookup_table_entry data (sec v ino p) (Z.of_nat idx) mapping w) Q (upd c1 fm1 s).
Proof using Hv Ht Hp Hb.
  intros Hrep1 Hm Hpar Hpi Hpn Hw HQ. destruct (parent_ok _ _ _ Hm Hpar) as (Hpo & _ & Hidx).
  destruct (tw_sec _ _ _ Ht p Hpo Hpn) as [[tbl Htbl] _].
  assert (Hword : forall l k, parent l = Some (p, k) -> sec v ino l = word tbl k).
  { intros l k Hl. rewrite (sec_parent _ _ _ _ _ Hl). unfold child. by rewrite Htbl. }
  assert (Happ : forall j pn, held_inode ino P b w d false !! j = Some pn ->
            pin_sector pn <> sec v ino p) by (intros j pn Hj; by eapply held_apart).
  assert (Hsz : (size (held_inode ino P b w d false) < 64)%nat)
    by (pose proof (held_size ino P b Hb w _ _ d false Hp); lia).
  destruct w.
  { eapply lookup_table_entry_write; [done|done|by eapply vo_sector|done|done|lia|..];
      rewrite Nat2Z.id, <- (Hword _ _ Hpar); [done|]. intros E. by destruct Hw. }
  eapply lookup_table_entry_read; [done|done|done|done|lia| |].
  - intros Hlt. destruct (next_entry m p idx Hm Hpar Hpi ltac:(lia)) as [Hm1 Hpar1].
    replace (Z.to_nat (Z.of_nat idx + 1)) with (idx + 1)%nat by lia.
    rewrite <- (Hword _ _ Hpar1). by apply ahead_ok.
  - rewrite Nat2Z.id, <- (Hword _ _ Hpar). done.
Qed.

Lemma lookup_indirect_found c1 m :
  bc_rep c1 v (held_inode ino P b w d false) -> (123 <= m < 251)%nat ->
  (w = true -> sec v ino (LData m) <> NONE) ->
  (forall c', bc_rep c' v (held_inode ino P b w d false) ->
     Q (sec v ino (LData m)) (upd c' fm1 s)) ->
  wp (lookup_indirect_table b d (Z.of_nat m) w) Q (upd c1 fm1 s).
Proof using Hv Ht Hp Hd Hok Hb.
  intros Hrep1 Hm Hw HQ. unfold lookup_indirect_table, disk_indirect, set_indirect, NUM_DIRECT.
  assert (Hind : sec v ino LInd = word d 126) by (cbn; unfold child; by rewrite Hd).
  assert (Hpar : parent (LData m) = Some (LInd, (m - 123)%nat))
    by (cbn; rewrite decide_False, decide_True by lia; done).
  assert (Hl : loc_ok (LData m)) by (unfold loc_ok, MAX_SECTORS; lia).
  rewrite <- Hind. wp_steps. destruct (decide (sec v ino LInd = NONE)) as [E|E].
  - assert (HN : sec v ino (LData m) = NONE).
    { rewrite (sec_parent _ _ _ _ _ Hpar), E. unfold child. by rewrite (view_NONE _ _ Hv). }
    destruct w; [by destruct Hw|].
    unfold access_indirect_block. rewrite E. cbn [negb andb]. change (s32 NONE =? -1) with true.
    cbn match. wp_steps. change ((s32 (u32 (-1)) =? -1) || _) with true. cbn match. wp_steps.
    change (u32 (-1)) with NONE. rewrite <- HN. by apply HQ.
  - apply access_indirect_present; [apply child_range|done|].
    rewrite (valid_sector _ fm); [|apply Hv|by eapply sec_in_range]. wp_steps.
    rewrite Hind, set_word_same by (apply Hok || (destruct Hok as [-> _]; lia)).
    apply wp_cachef_upd. eapply wp_bc_store_same; [exact Hrep1|done|]. intros c2 Hrep2.
    rewrite <- Hind. replace (Z.of_nat m - 123) with (Z.of_nat (m - 123)) by lia.
    by eapply lookup_below_found.
Qed.

Lemma lookup_double_indirect_found c1 m :
  bc_rep c1 v (held_inode ino P b w d false) -> (251 <= m < MAX_SECTORS)%nat ->
  (w = true -> sec v ino (LData m) <> NONE) ->
  (forall c', bc_rep c' v (held_inode ino P b w d false) ->
     Q (sec v ino (LData m)) (upd c' fm1 s)) ->
  wp (lookup_double_indirect_table b d (Z.of_nat m) w) Q (upd c1 fm1 s).
Proof using Hv Ht Hp Hd Hok Hb.
  intros Hrep1 Hm Hw HQ. unfold lookup_double_indirect_table, disk_double_indirect.
  unfold set_double_indirect, NUM_DIRECT, NUM_INDIRECT.
  assert (Hdbl : sec v ino LDbl = word d 127) by (cbn; unfold child; by rewrite Hd).
  destruct (double_index m Hm) as (Hq & Hrem & Hidx). rewrite Hq, Hrem.
  set (idx := ((m - 251) / 128)%nat) in *. set (idx' := ((m - 251) mod 128)%nat) in *.
  assert (Hpar : parent (LData m) = Some (LDblInd idx, idx'))
    by (cbn [parent]; rewrite !decide_False by lia; done).
  assert (Hl : loc_ok (LData m)) by (unfold loc_ok; lia).
  assert (HNONE : forall l p k, parent l = Some (p, k) -> sec v ino p = NONE -> sec v ino l = NONE).
  { intros l p k Hlp E. rewrite (sec_parent _ _ _ _ _ Hlp), E. unfold child.
    by rewrite (view_NONE _ _ Hv). }
  rewrite <- Hdbl. wp_steps. destruct (decide (sec v ino LDbl = NONE)) as [E|E].
  { assert (HN : sec v ino (LData m) = NONE).
    { apply (HNONE _ _ _ Hpar). by apply (HNONE (LDblInd idx) LDbl idx eq_refl). }
    destruct w; [by destruct Hw|].
    unfold access_indirect_block. rewrite E. cbn [negb andb]. change (s32 NONE =? -1) with true.
    cbn match. wp_steps. change ((s32 (u32 (-1)) =? -1) || _) with true. cbn match. wp_steps.
    change (u32 (-1)) with NONE. rewrite <- HN. by apply HQ. }
  apply access_indirect_present; [apply child_range|done|].
  rewrite (valid_sector _ fm); [|apply Hv|by eapply sec_in_range]. wp_steps.
  rewrite Hdbl, set_word_same by (apply Hok || (destruct Hok as [-> _]; lia)).
  apply wp_cachef_upd. eapply wp_bc_store_same; [exact Hrep1|done|]. intros c2 Hrep2.
  rewrite <- Hdbl. destruct (tw_sec _ _ _ Ht LDbl I E) as [[tbl Htbl] _].
  wp_steps. apply wp_cachef_upd. eapply wp_bc_get; [exact Hrep2| | |].
  { intros j pn Hj. by eapply held_apart. }
  { pose proof (held_size ino P b Hb w _ _ d false Hp). unfold held_inode in *. lia. }
  intros b2 c3 Hb2 Hrep3. wp_steps. apply wp_cachef_upd. eapply wp_bc_read; [done..|].
  intros c4 Hrep4. wp_steps. apply wp_lift. unfold table_get, NUM_INDIRECT.
  rewrite leb_true, ltb_true by lia. cbn [andb wpr]. rewrite Nat2Z.id. wp_steps.
  assert (Hsec2 : sec v ino (LDblInd idx) = word tbl idx).
  { rewrite (sec_parent v ino (LDblInd idx) LDbl idx eq_refl). unfold child. by rewrite Htbl. }
  rewrite <- Hsec2. destruct (decide (sec v ino (LDblInd idx) = NONE)) as [E2|E2].
  { assert (HN : sec v ino (LData m) = NONE) by by apply (HNONE _ _ _ Hpar).
    destruct w; [by destruct Hw|].
    unfold access_indirect_block. rewrite E2. cbn [negb andb]. change (s32 NONE =? -1) with true.
    cbn match. wp_steps. change ((s32 (u32 (-1)) =? -1) || _) with true. cbn match. wp_steps.
    apply wp_cachef_upd. eapply wp_bc_put_clean; [done..|]. intros c5 Hrep5. wp_steps.
    change (u32 (-1)) with NONE. rewrite <- HN. by apply HQ. }
  apply access_indirect_present; [apply child_range|done|].
  rewrite (valid_sector _ fm); [|apply Hv|by eapply sec_in_range].
  rewrite Z.eqb_refl. cbn [negb]. wp_steps.
  apply wp_cachef_upd. eapply wp_bc_put_clean; [done..|]. intros c5 Hrep5.
  by eapply lookup_below_found.
Qed.
End found.

(** A lookup for reading finds the sector, or -1 where there is none; a
    lookup for writing does the same where there is one. The free map in
    memory, [fm1], plays no part. *)
Lemma byte_to_sector_found w fm1 pos (Q : Z -> fs C -> Prop) :
  0 <= pos ->
  (w = true -> pos < 512 * Z.of_nat MAX_SECTORS /\
               sec v ino (LData (Z.to_nat (pos / 512))) <> NONE) ->
  (forall c', bc_rep c' v P ->
     Q (if pos <? 512 * Z.of_nat MAX_SECTORS then sec v ino (LData (Z.to_nat (pos / 512)))
        else NONE) (upd c' fm1 s)) ->
  wp (byte_to_sector ptr pos w) Q (upd c fm1 s).
Proof using Hi Hsec Hrep Hv Ht Hp.
  intros Hpos Hw HQ. unfold byte_to_sector. wp_steps. eapply wp_get_inode; [done|].
  rewrite Hsec. wp_steps. destruct inode_present as (d & Hd & Hok).
  apply wp_cachef_upd. eapply wp_bc_get; [done|apply pins_not_inode| |].
  { pose proof (po_size _ _ _ _ Hp). lia. }
  intros b c1 Hb Hrep1. wp_steps. apply wp_cachef_upd. eapply wp_bc_read; [done..|].
  intros c2 Hrep2. unfold BLOCK_SECTOR_SIZE. rewrite Z.quot_div_nonneg by lia. wp_steps.
  set (m := Z.to_nat (pos / 512)) in *.
  assert (Hm : 0 <= pos / 512) by (apply Z.div_pos; lia).
  assert (Hmz : pos / 512 = Z.of_nat m) by lia. rewrite Hmz.
  pose proof (Z.div_mod pos 512 ltac:(lia)) as Hdm. pose proof (Z.mod_pos_bound pos 512 ltac:(lia)).
  assert (Hmax : Z.of_nat MAX_SECTORS = 16635) by done. rewrite Hmax in HQ, Hw.
  set (r := if pos <? 512 * 16635 then _ else _) in HQ.
  apply (wp_mono _ (fun r' s' => r' = r /\ exists c',
    bc_rep c' v (held_inode ino P b w d false) /\ s' = upd c' fm1 s)).
  - unfold NUM_DIRECT, NUM_INDIRECT, NUM_DOUBLE_INDIRECT, r.
    repeat match goal with |- context [?a <? ?b] => destruct (Z.ltb_spec a b) end; try lia.
    + eapply lookup_direct_found; [exact Hd|exact Hrep2|lia|naive_solver|]. eauto.
    + eapply lookup_indirect_found; [exact Hd|exact Hok|exact Hb|exact Hrep2|lia|naive_solver|]. eauto.
    + eapply lookup_double_indirect_found; [exact Hd|exact Hok|exact Hb|exact Hrep2|lia|naive_solver|]. eauto.
    + wp_steps. eauto.
  - clear Hmax. intros r' s' (-> & c3 & Hrep3 & ->). wp_steps.
    apply (wp_mono _ (fun _ s' => exists c' di,
      bc_rep c' v (held_inode ino P b w d di) /\ s' = upd c' fm1 s)).
    + destruct (_ && _); wp_steps; [|by exists c3, false].
      apply wp_cachef_upd. eapply wp_bc_dirty; [done|]. intros c4 Hrep4. by exists c4, true.
    + intros [] s' (c4 & di & Hrep4 & ->). wp_steps. apply wp_cachef_upd.
      assert (Hput : forall c', bc_rep c' v P -> wp (ret r) Q (upd c' fm1 s))
        by (intros c' Hrep'; wp_steps; by apply HQ).
      destruct di; [|by eapply wp_bc_put_clean].
      eapply wp_bc_put_dirty; [done..|]. intros c5 Hrep5. apply Hput.
      by rewrite insert_id in Hrep5.
Qed.
End byte_to_sector.
