(* ===== verification/InodeIO.v ===== *)
(** Reading and writing files (src/src/filesys/inode.c, inode_length,
    inode_read_at and inode_write_at): a read returns the bytes of the
    file up to its end, and a write stores the bytes at their positions
    and leaves every other byte of the disk that was in use alone. *)
From S2P Require Import Prelude Words Bitmap Monitor Pipe Block Cache CacheSpec CacheClient.
From S2P Require Import Fs Inode InodeTree InodeLookup.
From stdpp Require Import options.

#[local] Arguments Nat.div : simpl never.
#[local] Arguments Nat.modulo : simpl never.
#[local] Arguments Z.div : simpl never.
#[local] Arguments Z.modulo : simpl never.

Lemma max_sectors : Z.of_nat MAX_SECTORS = 16635.
Proof. done. Qed.

(** A position and the positions after it in its sector. *)
Lemma same_sector ofs i :
  0 <= ofs -> 0 <= i -> ofs mod 512 + i < 512 ->
  (ofs + i) / 512 = ofs / 512 /\ (ofs + i) mod 512 = ofs mod 512 + i.
Proof.
  intros Ho Hi Hlt. pose proof (Z.div_mod ofs 512 ltac:(lia)) as Hdm.
  pose proof (Z.mod_pos_bound ofs 512 ltac:(lia)).
  split; symmetry.
  - apply (Z.div_unique_pos _ 512 _ (ofs mod 512 + i)); lia.
  - apply (Z.mod_unique_pos _ 512 (ofs / 512)); lia.
Qed.

(** * Changing a data sector *)

Section data_update.
Context (v : gmap Z (list Z)) (fm : bitmap) (ino : Z) (m : nat) (d : list Z).
Context (Hv : view_ok v fm) (Ht : tree_wf v fm ino) (Hm : loc_ok (LData m))
  (Hn : sec v ino (LData m) <> NONE) (Hd : sector_ok d).
Let v' := <[sec v ino (LData m) := d]> v.

Lemma data_sec l : loc_ok l -> sec v' ino l = sec v ino l.
Proof using Hv Ht Hm Hn.
  induction l as [|l p k Hp IH] using loc_ind_down; intros Hl; [done|].
  destruct (parent_ok _ _ _ Hl Hp) as (Hpo & Htab & _).
  rewrite !(sec_parent _ _ _ _ _ Hp), IH by done. unfold child, v'.
  rewrite lookup_insert_ne; [done|]. intros E.
  assert (LData m = p) as <- by by apply (tw_inj _ _ _ Ht). done.
Qed.

Lemma data_view : view_ok v' fm.
Proof using Hv Ht Hm Hn Hd.
  split; [apply Hv| |].
  - intros s. unfold v'. rewrite lookup_insert_is_Some', <- (vo_dom _ _ Hv).
    destruct (tw_sec _ _ _ Ht _ Hm Hn). naive_solver.
  - intros s d'. unfold v'. rewrite lookup_insert_Some.
    intros [[_ <-]|[_ Hd']]; [done|by eapply vo_sector].
Qed.

Lemma data_tree : tree_wf v' fm ino.
Proof using Hv Ht Hm Hn Hd.
  split.
  - intros l Hl. rewrite data_sec by done. intros Hln. destruct (tw_sec _ _ _ Ht l Hl Hln) as [Hs Hb].
    split; [|done]. apply (vo_dom _ _ data_view). by apply (vo_dom _ _ Hv).
  - intros l l' Hl Hl'. rewrite !data_sec by done. by apply (tw_inj _ _ _ Ht).
  - apply Ht.
Qed.

Lemma data_meta k : child v' ino k = child v ino k.
Proof using Hv Ht Hm Hn.
  unfold child, v'. rewrite lookup_insert_ne; [done|]. intros E.
  assert (LData m = LInode) by by apply (tw_inj _ _ _ Ht). done.
Qed.

Lemma data_byte k :
  0 <= k -> file_byte v' ino k =
    if decide (Z.to_nat (k / 512) = m) then nth (Z.to_nat (k mod 512)) d 0
    else file_byte v ino k.
Proof using Hv Ht Hm Hn.
  intros Hk. unfold file_byte. unfold loc_ok in Hm.
  destruct (Z.ltb_spec k (512 * Z.of_nat MAX_SECTORS)) as [Hlt|Hge].
  - assert (Hkm : (Z.to_nat (k / 512) < MAX_SECTORS)%nat).
    { apply Nat2Z.inj_lt. rewrite Z2Nat.id by (apply Z.div_pos; lia).
      apply Z.div_lt_upper_bound; lia. }
    rewrite data_sec by done. case_decide as E.
    + rewrite E. unfold v'. by rewrite lookup_insert_eq.
    + unfold v'. rewrite lookup_insert_ne; [done|]. intros E'.
      apply E. symmetry. assert (LData m = LData (Z.to_nat (k / 512))) by by apply (tw_inj _ _ _ Ht).
      congruence.
  - rewrite decide_False; [done|]. intros E. assert (Hq : Z.of_nat MAX_SECTORS <= k / 512)
      by (apply Z.div_le_lower_bound; lia). lia.
Qed.
End data_update.

(** * Changing the length *)

Section meta_update.
Context (v : gmap Z (list Z)) (fm : bitmap) (ino : Z) (d d' : list Z).
Context (Hv : view_ok v fm) (Ht : tree_wf v fm ino) (Hd : v !! ino = Some d) (Hd' : sector_ok d').
Context (Hword : forall k, (3 <= k < 128)%nat -> word d' k = word d k).
Let v' := <[ino := d']> v.

Lemma meta_sec l : loc_ok l -> sec v' ino l = sec v ino l.
Proof using Ht Hd Hword.
  induction l as [|l p k Hp IH] using loc_ind_down; intros Hl; [done|].
  destruct (parent_ok _ _ _ Hl Hp) as (Hpo & Htab & Hk).
  rewrite !(sec_parent _ _ _ _ _ Hp), IH by done. unfold child, v'.
  destruct (decide (sec v ino p = ino)) as [E|E]; [|by rewrite lookup_insert_ne].
  assert (p = LInode) as -> by (apply (tw_inj _ _ _ Ht); [done..|]; rewrite E; apply Ht).
  rewrite E, lookup_insert_eq, Hd. apply Hword. pose proof (parent_inode_index _ _ Hp). lia.
Qed.

Lemma meta_view : view_ok v' fm.
Proof using Hv Ht Hd Hd'.
  split; [apply Hv| |].
  - intros s. unfold v'. rewrite lookup_insert_is_Some', <- (vo_dom _ _ Hv). naive_solver.
  - intros s x. unfold v'. rewrite lookup_insert_Some.
    intros [[_ <-]|[_ Hx]]; [done|by eapply vo_sector].
Qed.

Lemma meta_tree : tree_wf v' fm ino.
Proof using Hv Ht Hd Hd' Hword.
  split.
  - intros l Hl. rewrite meta_sec by done. intros Hln. destruct (tw_sec _ _ _ Ht l Hl Hln) as [Hs Hb].
    split; [|done]. apply (vo_dom _ _ meta_view). by apply (vo_dom _ _ Hv).
  - intros l l' Hl Hl'. rewrite !meta_sec by done. by apply (tw_inj _ _ _ Ht).
  - apply Ht.
Qed.

Lemma meta_byte k : 0 <= k -> file_byte v' ino k = file_byte v ino k.
Proof using Hv Ht Hd Hword.
  intros Hk. unfold file_byte. destruct (Z.ltb_spec k (512 * Z.of_nat MAX_SECTORS)); [|done].
  assert (Hl : loc_ok (LData (Z.to_nat (k / 512)))).
  { unfold loc_ok. apply Nat2Z.inj_lt. rewrite Z2Nat.id by (apply Z.div_pos; lia).
    apply Z.div_lt_upper_bound; lia. }
  rewrite meta_sec by done. unfold v'. rewrite lookup_insert_ne; [done|]. intros E.
  assert (LInode = LData (Z.to_nat (k / 512))); [|done].
  apply (tw_inj _ _ _ Ht); [done..|apply Ht].
Qed.

Lemma meta_pins P : pins_ok P v fm ino -> pins_ok P v' fm ino.
Proof using Ht Hd Hword.
  intros [Hm Ha Hs]. split; try done. intros i p l Hp Hl. rewrite meta_sec by done. by apply (Ha i).
Qed.
End meta_update.

(** * What a write does *)

(** [l] was written at offset [ofs] of the file [ino], whose length is
    now [len]. *)
Record wrote (ino : Z) (v : gmap Z (list Z)) (fm : bitmap)
    (v' : gmap Z (list Z)) (fm' : bitmap) (ofs : Z) (l : list Z) (len : Z) : Prop := {
  wr_view : view_ok v' fm';
  wr_tree : tree_wf v' fm' ino;
  wr_cnt : bit_cnt fm' = bit_cnt fm;
  wr_mono : forall s, 0 <= s < bit_cnt fm -> bit fm s = true -> bit fm' s = true;
  (** the sectors the file had stay, and new ones were free *)
  wr_sec : forall lc, loc_ok lc -> sec v' ino lc = sec v ino lc \/
    sec v ino lc = NONE /\ bit fm (sec v' ino lc) = false;
  (** sectors in use that are not of the file keep their contents *)
  wr_frame : forall s, 0 <= s < bit_cnt fm -> bit fm s = true ->
    (forall lc, loc_ok lc -> sec v ino lc <> s) -> v' !! s = v !! s;
  wr_outside : forall s, 0 <= s < bit_cnt fm ->
    (forall lc, loc_ok lc -> sec v' ino lc <> s) -> v' !! s = v !! s;
  wr_used : forall s, 0 <= s < bit_cnt fm -> bit fm' s = true -> bit fm s = true \/
    exists lc, loc_ok lc /\ sec v' ino lc = s;
  wr_length : file_length v' ino = len;
  wr_meta : forall k, (1 <= k < 3)%nat -> child v' ino k = child v ino k;
  wr_bytes : forall i b, l !! i = Some b -> file_byte v' ino (ofs + Z.of_nat i) = b;
  wr_present : forall k, ofs <= k < ofs + Z.of_nat (length l) ->
    sec v' ino (LData (Z.to_nat (k / 512))) <> NONE;
  (** the other bytes of sectors the file had *)
  wr_rest : forall k, 0 <= k < 512 * Z.of_nat MAX_SECTORS ->
    k < ofs \/ ofs + Z.of_nat (length l) <= k ->
    sec v ino (LData (Z.to_nat (k / 512))) <> NONE -> file_byte v' ino k = file_byte v ino k;
  (** the holes that the write does not touch *)
  wr_holes : forall m, (m < MAX_SECTORS)%nat -> sec v ino (LData m) = NONE ->
    (forall k, ofs <= k < ofs + Z.of_nat (length l) -> Z.to_nat (k / 512) <> m) ->
    sec v' ino (LData m) = NONE;
}.

Lemma file_length_child v fm ino :
  view_ok v fm -> tree_wf v fm ino -> file_length v ino = s32 (child v ino 0).
Proof.
  intros Hv Ht. destruct (inode_present ino fm v Hv Ht) as (d & Hd & _).
  unfold file_length, child. by rewrite Hd.
Qed.

Lemma wrote_nil ino v fm ofs : view_ok v fm -> tree_wf v fm ino -> wrote ino v fm v fm ofs [] (file_length v ino).
Proof.
  intros Hv Ht. split; try done; try by (intros; left).
  cbn. intros k Hk. lia.
Qed.

Lemma block_ok k : 0 <= k < 512 * Z.of_nat MAX_SECTORS -> loc_ok (LData (Z.to_nat (k / 512))).
Proof.
  intros Hk. unfold loc_ok. apply Nat2Z.inj_lt. rewrite Z2Nat.id by (apply Z.div_pos; lia).
  apply Z.div_lt_upper_bound; lia.
Qed.

Lemma wrote_app ino v fm v1 fm1 v2 fm2 ofs l1 l2 len1 len2 :
  view_ok v fm -> 0 <= ofs ->
  ofs + Z.of_nat (length l1) + Z.of_nat (length l2) <= 512 * Z.of_nat MAX_SECTORS ->
  wrote ino v fm v1 fm1 ofs l1 len1 ->
  wrote ino v1 fm1 v2 fm2 (ofs + Z.of_nat (length l1)) l2 len2 ->
  wrote ino v fm v2 fm2 ofs (l1 ++ l2) len2.
Proof.
  intros Hv Hofs Hmax H1 H2. pose proof (wr_cnt _ _ _ _ _ _ _ _ H1) as Hc1.
  assert (Hkeep : forall lc, loc_ok lc -> sec v1 ino lc <> NONE -> sec v2 ino lc = sec v1 ino lc).
  { intros lc Hl Hn. by destruct (wr_sec _ _ _ _ _ _ _ _ H2 lc Hl) as [|[? _]]. }
  assert (Hkeep1 : forall lc, loc_ok lc -> sec v ino lc <> NONE -> sec v1 ino lc = sec v ino lc).
  { intros lc Hl Hn. by destruct (wr_sec _ _ _ _ _ _ _ _ H1 lc Hl) as [|[? _]]. }
  assert (Hfalse : forall s, 0 <= s < bit_cnt fm -> bit fm1 s = false -> bit fm s = false).
  { intros s Hs Hb. apply not_true_is_false. intros Hb'.
    rewrite (wr_mono _ _ _ _ _ _ _ _ H1 s Hs Hb') in Hb. done. }
  split.
  - apply H2.
  - apply H2.
  - rewrite (wr_cnt _ _ _ _ _ _ _ _ H2). done.
  - intros s Hs Hb. apply H2; [by rewrite Hc1|]. by apply H1.
  - intros lc Hl. destruct (wr_sec _ _ _ _ _ _ _ _ H2 lc Hl) as [->|[Hn Hb]]; [by apply H1|].
    assert (Hn0 : sec v ino lc = NONE)
      by (destruct (wr_sec _ _ _ _ _ _ _ _ H1 lc Hl) as [<-|[? _]]; done).
    destruct (decide (sec v2 ino lc = NONE)) as [Hn2|Hn2]; [left; congruence|].
    right. split; [done|]. apply Hfalse; [|done]. rewrite <- Hc1, <- (wr_cnt _ _ _ _ _ _ _ _ H2).
    apply sec_in_range; [apply H2..|done|done].
  - intros s Hs Hb Hnt. rewrite (wr_frame _ _ _ _ _ _ _ _ H2 s).
    + by apply (wr_frame _ _ _ _ _ _ _ _ H1).
    + by rewrite Hc1.
    + by apply H1.
    + intros lc Hl E. destruct (wr_sec _ _ _ _ _ _ _ _ H1 lc Hl) as [E1|[_ Hb1]]; [|congruence].
      apply (Hnt lc); congruence.
  - intros s Hs Hnt. rewrite (wr_outside _ _ _ _ _ _ _ _ H2) by (done || by rewrite Hc1).
    apply (wr_outside _ _ _ _ _ _ _ _ H1); [done|]. intros lc Hl E. apply (Hnt lc Hl).
    rewrite Hkeep; [done..|]. rewrite E. intros ->.
    pose proof (wf_cnt _ (vo_wf _ _ Hv)). unfold NONE in Hs. lia.
  - intros s Hs Hb. destruct (wr_used _ _ _ _ _ _ _ _ H2 s) as [Hb1|?]; [by rewrite Hc1|done| |by right].
    destruct (wr_used _ _ _ _ _ _ _ _ H1 s Hs Hb1) as [?|(lc & Hl & E)]; [by left|].
    right. exists lc. split; [done|]. rewrite Hkeep; [done..|]. rewrite E. intros ->.
    pose proof (wf_cnt _ (vo_wf _ _ Hv)). unfold NONE in Hs. lia.
  - apply H2.
  - intros k Hk. by rewrite (wr_meta _ _ _ _ _ _ _ _ H2), (wr_meta _ _ _ _ _ _ _ _ H1).
  - intros i b. rewrite lookup_app_Some. intros [Hi|[Hge Hi]].
    + pose proof (lookup_lt_Some _ _ _ Hi) as Hlt.
      rewrite (wr_rest _ _ _ _ _ _ _ _ H2); [by apply H1|lia|lia|]. apply H1. lia.
    + rewrite <- (wr_bytes _ _ _ _ _ _ _ _ H2 _ _ Hi). f_equal. lia.
  - intros k. rewrite length_app. intros Hk.
    destruct (decide (k < ofs + Z.of_nat (length l1))); [|apply H2; lia].
    rewrite Hkeep; [apply H1; lia|apply block_ok; lia|apply H1; lia].
  - intros k Hk. rewrite length_app. intros Hout Hn.
    rewrite (wr_rest _ _ _ _ _ _ _ _ H2); [apply H1; [done|lia|done]|done|lia|].
    by rewrite Hkeep1 by (done || by apply block_ok).
  - intros m Hm Hn Hk. apply H2; [done| |].
    + apply H1; [done..|]. intros k Hk1. apply Hk. rewrite length_app. lia.
    + intros k Hk2. apply Hk. rewrite length_app. lia.
Qed.

(** One sector's worth. *)
Lemma wrote_chunk ino v fm v1 fm1 new ofs l d d' :
  view_ok v fm -> tree_wf v fm ino -> 0 <= ofs < 512 * Z.of_nat MAX_SECTORS ->
  extends ino v fm v1 fm1 new ->
  (forall m, LData m ∈ new -> m = Z.to_nat (ofs / 512)) ->
  sec v1 ino (LData (Z.to_nat (ofs / 512))) <> NONE ->
  v1 !! sec v1 ino (LData (Z.to_nat (ofs / 512))) = Some d -> sector_ok d' ->
  ofs mod 512 + Z.of_nat (length l) <= 512 -> l <> [] ->
  (forall j, (j < 512)%nat -> d' !! j =
     if decide (ofs mod 512 <= Z.of_nat j < ofs mod 512 + Z.of_nat (length l))
     then l !! (j - Z.to_nat (ofs mod 512))%nat else d !! j) ->
  wrote ino v fm (<[sec v1 ino (LData (Z.to_nat (ofs / 512))) := d']> v1) fm1 ofs l (file_length v ino).
Proof.
  intros Hv Ht Hofs Hext Hnew Hn Hd Hd' Hlen Hnil Hcont.
  set (m := Z.to_nat (ofs / 512)) in *.
  pose proof (ex_view _ _ _ _ _ _ Hext) as Hv1. pose proof (ex_tree _ _ _ _ _ _ Hext) as Ht1.
  assert (Hm : loc_ok (LData m)) by by apply block_ok.
  pose proof (Z.mod_pos_bound ofs 512 ltac:(lia)) as Hmod.
  assert (Hin : forall k, ofs <= k < ofs + Z.of_nat (length l) ->
            Z.to_nat (k / 512) = m /\ k mod 512 = ofs mod 512 + (k - ofs)).
  { intros k Hk. destruct (same_sector ofs (k - ofs)) as [Hq Hr]; [lia..|].
    replace (ofs + (k - ofs)) with k in * by lia. rewrite Hq, Hr. done. }
  assert (Hsec : forall lc, loc_ok lc ->
    sec (<[sec v1 ino (LData m) := d']> v1) ino lc = sec v1 ino lc).
  { intros lc Hl. by eapply data_sec. }
  assert (Hnth : forall j, (j < 512)%nat -> forall b, d' !! j = Some b -> nth j d' 0 = b).
  { intros j _ b Hb. by apply nth_lookup_Some. }
  split.
  - by eapply data_view.
  - by eapply data_tree.
  - apply Hext.
  - apply Hext.
  - intros lc Hl. rewrite Hsec by done.
    destruct (ex_sec _ _ _ _ _ _ Hext lc Hl) as [->|(_ & ? & ?)]; [by left|by right].
  - intros s Hs Hb Hnt. rewrite lookup_insert_ne.
    + apply (ex_frame _ _ _ _ _ _ Hext); [done..|]. intros lc Hl _. by apply Hnt.
    + intros E. destruct (ex_sec _ _ _ _ _ _ Hext (LData m) Hm) as [E1|(_ & _ & Hb1)]; [|congruence].
      apply (Hnt (LData m)); congruence.
  - intros s Hs Hnt. assert (Hnt1 : forall lc, loc_ok lc -> sec v1 ino lc <> s)
      by (intros lc Hl; rewrite <- Hsec by done; by apply Hnt).
    rewrite lookup_insert_ne by by apply Hnt1. by apply (ex_outside _ _ _ _ _ _ Hext).
  - intros s Hs Hb. destruct (ex_bits _ _ _ _ _ _ Hext s Hs Hb) as [?|(lc & _ & Hl & E)]; [by left|].
    right. exists lc. split; [done|]. by rewrite Hsec.
  - rewrite (file_length_child v fm), (file_length_child _ fm1)
      by (done || (by eapply data_view) || by eapply data_tree).
    rewrite (data_meta v1 fm1) by done. f_equal. apply Hext. lia.
  - intros k Hk. rewrite (data_meta v1 fm1) by done. apply Hext. lia.
  - intros i b Hi. pose proof (lookup_lt_Some _ _ _ Hi) as Hlt.
    destruct (Hin (ofs + Z.of_nat i)) as [Hq Hr]; [lia|].
    rewrite (data_byte v1 fm1 ino m d') by (done || lia). rewrite Hq, Hr, decide_True by done.
    apply nth_lookup_Some. rewrite Hcont by lia. rewrite decide_True by lia.
    rewrite <- Hi. f_equal. lia.
  - intros k Hk. destruct (Hin k Hk) as [-> _]. by rewrite Hsec.
  - intros k Hk Hout Hkn. rewrite (data_byte v1 fm1 ino m d') by (done || lia).
    assert (Hsame : file_byte v1 ino k = file_byte v ino k).
    { unfold file_byte. rewrite ltb_true by lia.
      rewrite (extends_present _ _ _ _ _ _ _ Hext) by (done || by apply block_ok).
      rewrite (ex_frame _ _ _ _ _ _ Hext); [done|..].
      - apply sec_in_range; try done. by apply block_ok.
      - apply (tw_sec _ _ _ Ht); [by apply block_ok|done].
      - intros lc Hl Htab E.
        assert (lc = LData (Z.to_nat (k / 512))) as ->; [|done].
        apply (tw_inj _ _ _ Ht); [done|by apply block_ok|done|congruence]. }
    case_decide as E; [|done]. rewrite <- Hsame. unfold file_byte. rewrite ltb_true, E, Hd by lia.
    pose proof (Z.mod_pos_bound k 512 ltac:(lia)) as Hkm.
    rewrite !nth_lookup. rewrite Hcont by lia. rewrite decide_False; [done|]. intros Hr.
    assert (k / 512 = ofs / 512).
    { unfold m in E. pose proof (Z.div_pos k 512). pose proof (Z.div_pos ofs 512). lia. }
    pose proof (Z.div_mod k 512 ltac:(lia)). pose proof (Z.div_mod ofs 512 ltac:(lia)). lia.
  - intros m' Hm' Hn' Hk. rewrite Hsec by done.
    destruct (ex_sec _ _ _ _ _ _ Hext (LData m') Hm') as [->|(Hin' & _ & _)]; [done|].
    apply Hnew in Hin'. subst m'. destruct (Hk ofs); [|done].
    destruct l; [done|cbn [length]; lia].
Qed.

(** * The sectors a write touches *)

(** The sectors of the positions [ofs .. ofs + size). *)
Definition blocks (ofs size : Z) : list nat :=
  if size <=? 0 then []
  else seq (Z.to_nat (ofs / 512)) (Z.to_nat ((ofs + size - 1) / 512 - ofs / 512 + 1)).

(** How many of them the file does not have yet. *)
Definition missing (v : gmap Z (list Z)) (ino : Z) (ms : list nat) : nat :=
  length (filter (fun m => sec v ino (LData m) = NONE) ms).

Definition chunk_size (ofs size : Z) : Z := Z.min size (512 - ofs mod 512).

Lemma blocks_step ofs size :
  0 <= ofs -> 0 < size ->
  blocks ofs size = Z.to_nat (ofs / 512) ::
    blocks (ofs + chunk_size ofs size) (size - chunk_size ofs size).
Proof.
  intros Ho Hs. unfold blocks, chunk_size. rewrite leb_false by lia.
  pose proof (Z.mod_pos_bound ofs 512 ltac:(lia)) as Hmod.
  pose proof (Z.div_mod ofs 512 ltac:(lia)) as Hdm. pose proof (Z.div_pos ofs 512 Ho ltac:(lia)).
  destruct (Z.leb_spec (size - Z.min size (512 - ofs mod 512)) 0) as [Hle|Hgt].
  - assert (Hq : (ofs + size - 1) / 512 = ofs / 512).
    { replace (ofs + size - 1) with (ofs + (size - 1)) by lia. apply same_sector; lia. }
    rewrite Hq, Z.sub_diag. done.
  - rewrite Z.min_r by lia.
    assert (Hq : (ofs + (512 - ofs mod 512)) / 512 = ofs / 512 + 1).
    { symmetry. apply (Z.div_unique_pos _ 512 _ 0); lia. }
    replace (ofs + (512 - ofs mod 512) + (size - (512 - ofs mod 512)) - 1)
      with (ofs + size - 1) by lia.
    assert (Hge : ofs / 512 + 1 <= (ofs + size - 1) / 512).
    { apply Z.div_le_lower_bound; lia. }
    rewrite Hq.
    replace (Z.to_nat ((ofs + size - 1) / 512 - ofs / 512 + 1))
      with (S (Z.to_nat ((ofs + size - 1) / 512 - (ofs / 512 + 1) + 1))) by lia.
    cbn [seq]. do 2 f_equal. lia.
Qed.

Lemma missing_mono v v' ino ms :
  (forall m, m ∈ ms -> sec v ino (LData m) <> NONE -> sec v' ino (LData m) <> NONE) ->
  (missing v' ino ms <= missing v ino ms)%nat.
Proof.
  intros Hk. unfold missing. induction ms as [|m ms IH]; [done|]. rewrite !filter_cons.
  assert (IH' : (length (filter (fun m => sec v' ino (LData m) = NONE) ms) <=
                 length (filter (fun m => sec v ino (LData m) = NONE) ms))%nat)
    by (apply IH; intros; apply Hk; [by right|done]).
  repeat case_decide; cbn [length]; try lia. by destruct (Hk m); [left|..].
Qed.

Lemma elem_of_blocks ofs size m :
  0 <= ofs -> ofs + size <= 512 * Z.of_nat MAX_SECTORS -> m ∈ blocks ofs size ->
  (m < MAX_SECTORS)%nat.
Proof.
  intros Ho Hmax. unfold blocks. destruct (Z.leb_spec size 0); [by intros ?%not_elem_of_nil|].
  intros Hm%elem_of_seq. pose proof (Z.div_pos ofs 512 Ho ltac:(lia)).
  assert ((ofs + size - 1) / 512 < Z.of_nat MAX_SECTORS) by (apply Z.div_lt_upper_bound; lia).
  assert (ofs / 512 <= (ofs + size - 1) / 512) by (apply Z.div_le_mono; lia). lia.
Qed.

Lemma file_bytes_app v ino ofs a b :
  0 <= a -> 0 <= b ->
  file_bytes v ino ofs (a + b) = file_bytes v ino ofs a ++ file_bytes v ino (ofs + a) b.
Proof.
  intros Ha Hb. unfold file_bytes. rewrite seqZ_app by done. by rewrite map_app.
Qed.

Lemma length_file_bytes v ino ofs n : Z.of_nat (length (file_bytes v ino ofs n)) = Z.max 0 n.
Proof. unfold file_bytes. rewrite length_map, length_seqZ. lia. Qed.

Lemma lookup_file_bytes v ino ofs n j :
  (Z.of_nat j < n) -> file_bytes v ino ofs n !! j = Some (file_byte v ino (ofs + Z.of_nat j)).
Proof.
  intros Hj. unfold file_bytes. rewrite list_lookup_fmap, lookup_seqZ_lt by lia. done.
Qed.

(** * Execution *)

Section io.
Context {C : Type} `{BufferCacheSpec C}.
Context (s : fs C) (ino : Z) (P : gmap nat pin) (ptr : nat) (i : inode).
Context (Hi : inodes s !! ptr = Some i) (Hsec : i_sector i = ino).

Lemma wp_get_inode_upd (Q : inode -> fs C -> Prop) c fm :
  Q i (upd c fm s) -> wp (get_inode ptr) Q (upd c fm s).
Proof using Hi. intros HQ. by eapply wp_get_inode. Qed.

Section fixed_view.
Context (fm fm1 : bitmap) (v : gmap Z (list Z)).
Context (Hv : view_ok v fm) (Ht : tree_wf v fm ino) (Hp : pins_ok P v fm ino).

(** A look at the inode's sector. *)
Lemma read_inode_sector {A} (k : list Z -> A) (Q : A -> fs C -> Prop) c d :
  bc_rep c v P -> v !! ino = Some d ->
  (forall c', bc_rep c' v P -> Q (k d) (upd c' fm1 s)) ->
  wp (let! block := cachef (bc_get ino false) in
      let! data := cachef (bc_read block) in
      cachef (bc_put block);;;
      ret (k data)) Q (upd c fm1 s).
Proof using Hp.
  intros Hrep Hd HQ. wp_steps. apply wp_cachef_upd. eapply wp_bc_get; [done| | |].
  { intros j p Hj E. by apply (po_apart _ _ _ _ Hp j p LInode). }
  { pose proof (po_size _ _ _ _ Hp). lia. }
  intros b c1 Hb Hrep1. wp_steps. apply wp_cachef_upd. eapply wp_bc_read; [done..|].
  intros c2 Hrep2. wp_steps. apply wp_cachef_upd. eapply wp_bc_put_clean; [done..|].
  intros c3 Hrep3. wp_steps. by apply HQ.
Qed.

Lemma inode_length_spec (Q : Z -> fs C -> Prop) c :
  bc_rep c v P -> (forall c', bc_rep c' v P -> Q (file_length v ino) (upd c' fm1 s)) ->
  wp (inode_length ptr) Q (upd c fm1 s).
Proof using Hi Hsec Hv Ht Hp.
  intros Hrep HQ. destruct (inode_present ino fm v Hv Ht) as (d & Hd & _).
  unfold file_length in HQ. rewrite Hd in HQ.
  unfold inode_length. apply wp_bind, wp_get_inode_upd. rewrite Hsec.
  by eapply (read_inode_sector disk_length).
Qed.

Lemma inode_is_dir_spec (Q : bool -> fs C -> Prop) c d :
  bc_rep c v P -> v !! ino = Some d ->
  (forall c', bc_rep c' v P -> Q (disk_is_dir d =? 1) (upd c' fm1 s)) ->
  wp (inode_is_dir ptr) Q (upd c fm1 s).
Proof using Hi Hsec Hp.
  intros Hrep Hd HQ. unfold inode_is_dir. apply wp_bind, wp_get_inode_upd. rewrite Hsec.
  by eapply (read_inode_sector (fun d => disk_is_dir d =? 1)).
Qed.

(** The bytes of a file within one sector. *)
Lemma chunk_bytes offset n d :
  0 <= offset < 512 * Z.of_nat MAX_SECTORS -> 0 < n -> offset mod 512 + n <= 512 ->
  v !! sec v ino (LData (Z.to_nat (offset / 512))) = Some d -> length d = 512%nat ->
  slice d (offset mod 512) n = Some (file_bytes v ino offset n).
Proof using Type.
  intros Ho Hn Hle Hd Hlen. pose proof (Z.mod_pos_bound offset 512 ltac:(lia)) as Hmod.
  destruct (slice_Some d (offset mod 512) n) as (l & Hl & Hll & Hlk); [lia..|].
  rewrite Hl. f_equal. apply list_eq_same_length with (Z.to_nat n); [|lia|].
  { pose proof (length_file_bytes v ino offset n). lia. }
  intros j x y Hj Hx Hy. rewrite lookup_file_bytes in Hy by lia. injection Hy as <-.
  rewrite Hlk in Hx by done. destruct (same_sector offset (Z.of_nat j)) as [Hq Hr]; [lia..|].
  unfold file_byte. rewrite Hq, Hr, Hd.
  pose proof (Z.div_mod offset 512 ltac:(lia)) as Hdm.
  assert (Hlt : offset / 512 < Z.of_nat MAX_SECTORS) by (apply Z.div_lt_upper_bound; lia).
  rewrite ltb_true by lia. symmetry. apply nth_lookup_Some. rewrite <- Hx. f_equal. lia.
Qed.

Lemma hole_bytes offset n :
  0 <= offset -> offset mod 512 + n <= 512 ->
  offset < 512 * Z.of_nat MAX_SECTORS -> sec v ino (LData (Z.to_nat (offset / 512))) = NONE ->
  file_bytes v ino offset n = replicate (Z.to_nat n) 0.
Proof using Hv.
  intros Ho Hle Hmax Hn. apply list_eq. intros j.
  destruct (decide (Z.of_nat j < n)) as [Hj|Hj].
  - rewrite lookup_file_bytes, lookup_replicate_2 by lia. f_equal. unfold file_byte.
    destruct (same_sector offset (Z.of_nat j)) as [Hq _]; [lia..|].
    rewrite Hq, Hn, (view_NONE _ _ Hv). by destruct (_ <? _).
  - rewrite !lookup_ge_None_2; [done|rewrite length_replicate; lia|].
    pose proof (length_file_bytes v ino offset n). lia.
Qed.

Lemma beyond_bytes offset n :
  512 * Z.of_nat MAX_SECTORS <= offset -> file_bytes v ino offset n = replicate (Z.to_nat n) 0.
Proof using Type.
  intros Ho. apply list_eq. intros j. destruct (decide (Z.of_nat j < n)) as [Hj|Hj].
  - rewrite lookup_file_bytes, lookup_replicate_2 by lia. f_equal. unfold file_byte.
    by rewrite ltb_false by lia.
  - rewrite !lookup_ge_None_2; [done|rewrite length_replicate; lia|].
    pose proof (length_file_bytes v ino offset n). lia.
Qed.

Lemma read_loop_spec len fuel : forall size offset out c (Q : list Z -> fs C -> Prop),
  bc_rep c v P -> 0 <= offset -> (Z.to_nat size <= fuel)%nat ->
  (forall c', bc_rep c' v P ->
     Q (out ++ file_bytes v ino offset (Z.min size (len - offset))) (upd c' fm1 s)) ->
  wp (read_loop fuel ptr len size offset out) Q (upd c fm1 s).
Proof using Hi Hsec Hv Ht Hp.
  induction fuel as [|fuel IH]; intros size offset out c Q Hrep Ho Hfuel HQ; cbn [read_loop].
  { destruct (Z.leb_spec size 0); [|lia]. wp_steps. rewrite <- (app_nil_r out).
    replace (@nil Z) with (file_bytes v ino offset (Z.min size (len - offset))); [by apply HQ|].
    unfold file_bytes. by rewrite seqZ_nil by lia. }
  destruct (Z.leb_spec size 0) as [Hs|Hs].
  { wp_steps. rewrite <- (app_nil_r out).
    replace (@nil Z) with (file_bytes v ino offset (Z.min size (len - offset))); [by apply HQ|].
    unfold file_bytes. by rewrite seqZ_nil by lia. }
  wp_steps. eapply byte_to_sector_found; try done. intros c1 Hrep1.
  unfold BLOCK_SECTOR_SIZE. rewrite Z.rem_mod_nonneg by lia.
  pose proof (Z.mod_pos_bound offset 512 ltac:(lia)) as Hmod.
  set (chunk := if size <? _ then _ else _).
  assert (Hchunk : chunk = Z.min size (Z.min (len - offset) (512 - offset mod 512))).
  { unfold chunk. destruct (Z.ltb_spec (len - offset) (512 - offset mod 512));
      match goal with |- context [?a <? ?b] => destruct (Z.ltb_spec a b) end; lia. }
  clearbody chunk. destruct (Z.leb_spec chunk 0) as [Hc|Hc].
  { wp_steps. rewrite <- (app_nil_r out).
    replace (@nil Z) with (file_bytes v ino offset (Z.min size (len - offset))); [by apply HQ|].
    unfold file_bytes. by rewrite seqZ_nil by lia. }
  wp_steps.
  apply (wp_mono _ (fun r s' => r = file_bytes v ino offset chunk /\
                     exists c', bc_rep c' v P /\ s' = upd c' fm1 s)).
  - destruct (Z.ltb_spec offset (512 * Z.of_nat MAX_SECTORS)) as [Hmax|Hmax].
    2:{ change (s32 NONE =? -1) with true. cbn match. wp_steps.
        rewrite beyond_bytes by done. eauto. }
    assert (Hl : loc_ok (LData (Z.to_nat (offset / 512)))) by (by apply block_ok).
    destruct (decide (sec v ino (LData (Z.to_nat (offset / 512))) = NONE)) as [E|E].
    { rewrite E. change (s32 NONE =? -1) with true. cbn match. wp_steps.
      rewrite hole_bytes by (done || lia). eauto. }
    pose proof (sec_in_range _ _ _ _ Hv Ht Hl E) as Hr.
    pose proof (valid_sector _ fm (vo_wf _ _ Hv) Hr) as [-> _]%orb_false_iff.
    destruct (tw_sec _ _ _ Ht _ Hl E) as [[d Hd] _].
    destruct (vo_sector _ _ Hv _ _ Hd) as [Hdl _].
    wp_steps. apply wp_cachef_upd. eapply wp_bc_get; [done| | |].
    { intros j p Hj E'. by eapply (po_apart _ _ _ _ Hp j p). }
    { pose proof (po_size _ _ _ _ Hp). lia. }
    intros b c2 Hb Hrep2. wp_steps. apply wp_cachef_upd. eapply wp_bc_read; [done..|].
    intros c3 Hrep3. wp_steps.
    pose proof (chunk_bytes offset chunk d ltac:(lia) Hc ltac:(lia) Hd Hdl) as Hslice.
    apply (wp_mono _ (fun r s' => r = file_bytes v ino offset chunk /\ s' = upd c3 fm1 s)).
    { destruct (Z.eqb_spec (offset mod 512) 0) as [E0|]; cbn [andb].
      - rewrite E0 in *. destruct (_ =? _); by eapply wp_deref.
      - by eapply wp_deref. }
    intros r s' [-> ->]. wp_steps. apply wp_cachef_upd. eapply wp_bc_put_clean; [done..|].
    intros c4 Hrep4. wp_steps. eauto.
  - intros r s' (-> & c2 & Hrep2 & ->). apply IH; [done|lia|lia|]. intros c3 Hrep3.
    rewrite <- app_assoc. rewrite <- file_bytes_app by lia.
    replace (chunk + Z.min (size - chunk) (len - (offset + chunk)))
      with (Z.min size (len - offset)) by lia. by apply HQ.
Qed.

(** Reading: the bytes from the offset to the end of the file, at most
    [size] of them. *)
Lemma inode_read_at_spec size offset c (Q : list Z -> fs C -> Prop) :
  bc_rep c v P -> 0 <= offset ->
  (forall c', bc_rep c' v P ->
     Q (file_bytes v ino offset (Z.min size (file_length v ino - offset))) (upd c' fm1 s)) ->
  wp (inode_read_at ptr size offset) Q (upd c fm1 s).
Proof using Hi Hsec Hv Ht Hp.
  intros Hrep Ho HQ. unfold inode_read_at. wp_steps. apply inode_length_spec; [done|].
  intros c1 Hrep1. destruct (Z.ltb_spec (file_length v ino) offset) as [Hlt|Hge].
  - wp_steps. unfold file_bytes in HQ. rewrite seqZ_nil in HQ by lia. by apply HQ.
  - apply (read_loop_spec _ _ _ _ []); try done.
Qed.
End fixed_view.

(** * Writing *)

(** The sector for a write: there, or new. *)
Lemma byte_to_sector_any c fm v pos (Q : Z -> fs C -> Prop) :
  bc_rep c v P -> view_ok v fm -> tree_wf v fm ino -> pins_ok P v fm ino ->
  0 <= pos < 512 * Z.of_nat MAX_SECTORS ->
  (3 * missing v ino [Z.to_nat (pos / 512)] <= nfree fm)%nat ->
  (forall c' fm' v' new, bc_rep c' v' P -> extends ino v fm v' fm' new ->
     (forall m, LData m ∈ new -> m = Z.to_nat (pos / 512)) ->
     (nfree fm <= nfree fm' + 3 * missing v ino [Z.to_nat (pos / 512)])%nat ->
     (missing v ino [Z.to_nat (pos / 512)] = 0%nat -> fm' = fm) ->
     sec v' ino (LData (Z.to_nat (pos / 512))) <> NONE ->
     Q (sec v' ino (LData (Z.to_nat (pos / 512)))) (upd c' fm' s)) ->
  wp (byte_to_sector ptr pos true) Q (upd c fm s).
Proof using Hi Hsec.
  intros Hrep Hv Ht Hp Hpos Hfree HQ. unfold missing in *. rewrite filter_cons in *.
  case_decide as E; cbn [filter list_filter length] in *.
  - eapply byte_to_sector_write; try done. intros c' fm' v' new Hrep' Hext Hlen Hnew Hn.
    apply (HQ c' fm' v' new); try done. pose proof (ex_free _ _ _ _ _ _ Hext). lia.
  - eapply byte_to_sector_found; try done; [lia|by split; [lia|]|]. intros c' Hrep'. rewrite ltb_true by lia.
    apply (HQ c' fm v []); try done; [by apply extends_refl| |lia].
    by intros m ?%not_elem_of_nil.
Qed.

Lemma slice_buffer buffer written n :
  0 <= written -> 0 <= n -> written + n <= Z.of_nat (length buffer) ->
  slice buffer written n = Some (take (Z.to_nat n) (drop (Z.to_nat written) buffer)).
Proof using Type. intros. unfold slice. by rewrite !leb_true by lia. Qed.

(** The two ways to change a sector: all of it, or a part. *)
Lemma store_chunk c fm v b sd d l (buffer : fs C -> list Z) buf written n o :
  bc_rep c v (<[b := mkPin sd true None false]> P) -> v !! sd = Some d -> sector_ok d ->
  0 <= o -> o + n <= 512 -> (forall c, buffer (upd c fm s) = buf) -> slice buf written n = Some l -> Z.of_nat (length l) = n ->
  Forall (fun x => 0 <= x < 2 ^ 8) l ->
  exists d', sector_ok d' /\
    (forall j, (j < 512)%nat -> d' !! j =
       if decide (o <= Z.of_nat j < o + Z.of_nat (length l))
       then l !! (j - Z.to_nat o)%nat else d !! j) /\
    forall Q : unit -> fs C -> Prop,
      (forall c' di, bc_rep c' v (<[b := mkPin sd true (Some d') di]> P) -> Q tt (upd c' fm s)) ->
      wp (if (o =? 0) && (n =? 512) then
            let! data := cachef (bc_zero b) in
            let! buf := gets buffer in
            let! chunk := deref (slice buf written n) in
            let! data' := deref (copy_in data 0 chunk) in
            cachef (bc_store b data')
          else
            let! data := cachef (bc_read b) in
            let! buf := gets buffer in
            let! chunk := deref (slice buf written n) in
            let! data' := deref (copy_in data o chunk) in
            cachef (bc_store b data')) Q (upd c fm s).
Proof using Type.
  intros Hrep Hd [Hdl Hdb] Ho Hon Hbuf Hslice Hll Hlb.
  assert (Hover : forall d0, sector_ok d0 -> (n = 512 \/ d0 = d) ->
    sector_ok (overwrite (Z.to_nat o) l d0) /\
    forall j, (j < 512)%nat -> overwrite (Z.to_nat o) l d0 !! j =
       if decide (o <= Z.of_nat j < o + Z.of_nat (length l))
       then l !! (j - Z.to_nat o)%nat else d !! j).
  { intros d0 [Hl0 Hb0] Hor. split; [split; [by rewrite length_overwrite|by apply Forall_inserts]|].
    intros j Hj. rewrite lookup_overwrite by lia. do 2 case_decide; try lia; [done|].
    destruct Hor as [->| ->]; [lia|done]. }
  destruct (Z.eqb_spec o 0) as [->|Ho0]; cbn [andb]; [destruct (Z.eqb_spec n 512) as [Hn|Hn]|].
  - destruct (Hover zero_sector zero_sector_ok ltac:(by left)) as [Hok Hcont].
    exists (overwrite 0 l zero_sector). split; [done|]. split; [done|]. intros Q HQ. wp_steps.
    apply wp_cachef_upd. eapply wp_bc_zero; [done..|]. intros c1 Hrep1. wp_steps.
    rewrite Hbuf. eapply wp_deref; [done|]. wp_steps.
    eapply wp_deref; [apply copy_in_Some; [done|]; rewrite (proj1 zero_sector_ok); lia|].
    apply wp_cachef_upd. eapply wp_bc_store; [done..|]. intros c2 Hrep2. by eapply HQ.
  - destruct (Hover d ltac:(done) ltac:(by right)) as [Hok Hcont].
    exists (overwrite 0 l d). split; [done|]. split; [done|]. intros Q HQ. wp_steps.
    apply wp_cachef_upd. eapply wp_bc_read; [done..|]. intros c1 Hrep1. wp_steps.
    rewrite Hbuf. eapply wp_deref; [done|]. wp_steps. eapply wp_deref; [apply copy_in_Some; lia|].
    apply wp_cachef_upd. eapply wp_bc_store; [done..|]. intros c2 Hrep2. by eapply HQ.
  - destruct (Hover d ltac:(done) ltac:(by right)) as [Hok Hcont].
    exists (overwrite (Z.to_nat o) l d). split; [done|]. split; [done|]. intros Q HQ. wp_steps.
    apply wp_cachef_upd. eapply wp_bc_read; [done..|]. intros c1 Hrep1. wp_steps.
    rewrite Hbuf. eapply wp_deref; [done|]. wp_steps. eapply wp_deref; [apply copy_in_Some; lia|].
    apply wp_cachef_upd. eapply wp_bc_store; [done..|]. intros c2 Hrep2. by eapply HQ.
Qed.

Lemma write_loop_spec (buffer : fs C -> list Z) (g : bitmap -> list Z) fuel :
  (forall c fm, buffer (upd c fm s) = g fm) ->
  forall size offset written c fm v (Q : Z * Z -> fs C -> Prop),
  bc_rep c v P -> view_ok v fm -> tree_wf v fm ino -> pins_ok P v fm ino ->
  (forall fm', bit_cnt fm' = bit_cnt fm -> bitmap_wf fm' ->
     Forall (fun b => 0 <= b < 2 ^ 8) (g fm') /\ written + size <= Z.of_nat (length (g fm'))) ->
  0 <= offset -> 0 <= size -> offset + size <= 512 * Z.of_nat MAX_SECTORS ->
  0 <= written -> (Z.to_nat size <= fuel)%nat ->
  (3 * missing v ino (blocks offset size) <= nfree fm)%nat ->
  (forall c' fm' v' l, bc_rep c' v' P -> Z.of_nat (length l) = size ->
     wrote ino v fm v' fm' offset l (file_length v ino) ->
     (forall buf, (forall fm, g fm = buf) -> l = take (Z.to_nat size) (drop (Z.to_nat written) buf)) ->
     (nfree fm <= nfree fm' + 3 * missing v ino (blocks offset size))%nat ->
     (missing v ino (blocks offset size) = 0%nat ->
        fm' = fm /\ l = take (Z.to_nat size) (drop (Z.to_nat written) (g fm))) ->
     Q (written + size, offset + size) (upd c' fm' s)) ->
  wp (write_loop fuel ptr buffer size offset written) Q (upd c fm s).
Proof using Hi Hsec.
  intros Hg. induction fuel as [|fuel IH];
    intros size offset written c fm v Q Hrep Hv Ht Hp Hbuf Ho Hs Hmax Hw Hfuel Hfree HQ;
    cbn [write_loop].
  { destruct (Z.leb_spec size 0); [|lia]. wp_steps. replace size with 0 in * by lia.
    rewrite !Z.add_0_r in HQ. by apply (HQ c fm v []); [done|done|apply wrote_nil|done|lia|]. }
  destruct (Z.leb_spec size 0) as [Hs0|Hs0].
  { wp_steps. replace size with 0 in * by lia. rewrite !Z.add_0_r in HQ.
    by apply (HQ c fm v []); [done|done|apply wrote_nil|done|lia|]. }
  rewrite blocks_step in * by lia. set (m := Z.to_nat (offset / 512)) in *.
  set (n := chunk_size offset size) in *.
  pose proof (Z.mod_pos_bound offset 512 ltac:(lia)) as Hmod.
  assert (Hn : n = Z.min size (512 - offset mod 512)) by done. clearbody n.
  assert (Hmiss : missing v ino (m :: blocks (offset + n) (size - n)) =
            (missing v ino [m] + missing v ino (blocks (offset + n) (size - n)))%nat).
  { unfold missing. rewrite !filter_cons, filter_nil. case_decide; cbn [length]; lia. }
  rewrite Hmiss in *.
  wp_steps. eapply byte_to_sector_any; try done; fold m; [lia|lia|].
  intros c1 fm1 v1 new Hrep1 Hext Hnew Hfree1 Hsame1 Hsn.
  assert (Hm : loc_ok (LData m)) by (apply block_ok; lia).
  pose proof (ex_view _ _ _ _ _ _ Hext) as Hv1. pose proof (ex_tree _ _ _ _ _ _ Hext) as Ht1.
  pose proof (sec_in_range _ _ _ _ Hv1 Ht1 Hm Hsn) as Hr.
  pose proof (valid_sector _ fm1 (vo_wf _ _ Hv1) Hr) as [_ ->]%orb_false_iff.
  destruct (tw_sec _ _ _ Ht1 _ Hm Hsn) as [[d Hd] _].
  destruct (vo_sector _ _ Hv1 _ _ Hd) as [Hdl Hdb].
  unfold BLOCK_SECTOR_SIZE. rewrite Z.rem_mod_nonneg by lia.
  set (chunk := if size <? (if size <? _ then _ else _) then _ else _).
  assert (Hchunk : chunk = n).
  { unfold chunk. destruct (Z.ltb_spec size (512 - offset mod 512));
      match goal with |- context [?a <? ?b] => destruct (Z.ltb_spec a b) end; lia. }
  clearbody chunk. subst chunk. rewrite leb_false by lia. wp_steps.
  apply wp_cachef_upd. pose proof (pins_ok_extends _ _ _ _ _ _ _ Hext Hp) as Hp1.
  eapply wp_bc_get; [done| | |].
  { intros j p Hj E. by eapply (po_apart _ _ _ _ Hp1 j p). }
  { pose proof (po_size _ _ _ _ Hp1). lia. }
  intros b c2 Hb Hrep2. wp_steps.
  destruct (Hbuf fm1 (ex_cnt _ _ _ _ _ _ Hext) (vo_wf _ _ Hv1)) as [Hbb Hlen].
  set (l := take (Z.to_nat n) (drop (Z.to_nat written) (g fm1))).
  assert (Hll : Z.of_nat (length l) = n) by (unfold l; rewrite length_take, length_drop; lia).
  assert (Hlb : Forall (fun b => 0 <= b < 2 ^ 8) l) by by apply Forall_take, Forall_drop.
  destruct (store_chunk c2 fm1 v1 b (sec v1 ino (LData m)) d l buffer (g fm1) written n (offset mod 512))
    as (d' & Hd' & Hcont & Hwp); try done; [lia|lia|by apply slice_buffer; lia|].
  apply Hwp. intros c3 di Hrep3. wp_steps. apply wp_cachef_upd.
  eapply wp_bc_dirty; [done|]. intros c4 Hrep4. wp_steps. apply wp_cachef_upd.
  eapply wp_bc_put_dirty; [done..|]. intros c5 Hrep5.
  set (v2 := <[sec v1 ino (LData m) := d']> v1) in *.
  assert (Hwr : wrote ino v fm v2 fm1 offset l (file_length v ino)).
  { eapply wrote_chunk; try done; [lia|lia|]. intros E. rewrite E in Hll. cbn in Hll. lia. }
  pose proof (wr_view _ _ _ _ _ _ _ _ Hwr) as Hv2. pose proof (wr_tree _ _ _ _ _ _ _ _ Hwr) as Ht2.
  assert (Hmono : (missing v2 ino (blocks (offset + n) (size - n)) <=
                   missing v ino (blocks (offset + n) (size - n)))%nat).
  { apply missing_mono. intros m' Hm' Hn'.
    apply elem_of_blocks in Hm'; [|lia..].
    destruct (wr_sec _ _ _ _ _ _ _ _ Hwr (LData m') Hm') as [->|[? _]]; done. }
  apply IH with (v := v2) (fm := fm1); try done; try lia.
  { split.
    - intros j p Hj. destruct (po_marked _ _ _ _ Hp1 j p Hj). done.
    - intros j p lc Hj Hlc. unfold v2. rewrite (data_sec v1 fm1) by done.
      by apply (po_apart _ _ _ _ Hp1 j p lc).
    - apply Hp1. }
  { intros fm' Hc Hwf. destruct (Hbuf fm') as [Hfb Hfl].
    - by rewrite Hc, (ex_cnt _ _ _ _ _ _ Hext).
    - done.
    - split; [done|lia]. }
  intros c6 fm6 v6 l6 Hrep6 Hl6 Hwr6 Hconst6 Hfree6 Hsame6.
  replace (written + n + (size - n)) with (written + size) by lia.
  replace (offset + n + (size - n)) with (offset + size) by lia.
  assert (Hglue : forall buf : list Z, take (Z.to_nat size) (drop (Z.to_nat written) buf) =
    take (Z.to_nat n) (drop (Z.to_nat written) buf) ++
    take (Z.to_nat (size - n)) (drop (Z.to_nat (written + n)) buf)).
  { intros buf. replace (Z.to_nat size) with (Z.to_nat n + Z.to_nat (size - n))%nat by lia.
    rewrite <- take_take_drop. rewrite drop_drop. do 3 f_equal. lia. }
  apply (HQ c6 fm6 v6 (l ++ l6)); [done|rewrite length_app; lia| | |lia|].
  - rewrite <- (wr_length _ _ _ _ _ _ _ _ Hwr).
    apply (wrote_app ino v fm v2 fm1) with (len1 := file_length v ino); try done.
    + lia.
    + by rewrite Hll.
  - intros buf Hgb. rewrite (Hconst6 buf Hgb), Hglue. unfold l. by rewrite Hgb.
  - intros Hz. destruct (Hsame6 ltac:(lia)) as [-> ->]. rewrite Hglue. unfold l.
    by rewrite !Hsame1 by lia.
Qed.

Lemma wrote_length v fm v' fm' ofs l len d n :
  view_ok v fm -> tree_wf v fm ino ->
  wrote ino v fm v' fm' ofs l len -> v' !! ino = Some d -> 0 <= n < 2 ^ 31 ->
  0 <= ofs -> ofs + Z.of_nat (length l) <= 512 * Z.of_nat MAX_SECTORS ->
  wrote ino v fm (<[ino := set_disk_length n d]> v') fm' ofs l n.
Proof using Type.
  intros Hv Ht Hwr Hd Hn Ho Hmax. pose proof (wr_view _ _ _ _ _ _ _ _ Hwr) as Hv'.
  pose proof (wr_tree _ _ _ _ _ _ _ _ Hwr) as Ht'.
  assert (Hok : sector_ok d) by by eapply vo_sector.
  assert (Hok' : sector_ok (set_disk_length n d)) by by apply set_word_sector_ok.
  assert (Hw : forall k, (1 <= k)%nat -> word (set_disk_length n d) k = word d k)
    by (intros k Hk; apply word_set_ne; lia).
  assert (Hw3 : forall k, (3 <= k < 128)%nat -> word (set_disk_length n d) k = word d k)
    by (intros k Hk; apply Hw; lia).
  assert (Hse : forall lc, loc_ok lc ->
    sec (<[ino := set_disk_length n d]> v') ino lc = sec v' ino lc)
    by (intros; by eapply meta_sec).
  split.
  - by eapply meta_view.
  - by eapply meta_tree.
  - apply Hwr.
  - apply Hwr.
  - intros lc Hl. rewrite Hse by done. by apply Hwr.
  - intros s' Hs Hb Hnt. rewrite lookup_insert_ne; [by apply Hwr|]. by apply (Hnt LInode).
  - intros s' Hs Hnt. rewrite lookup_insert_ne by (by apply (Hnt LInode)).
    apply (wr_outside _ _ _ _ _ _ _ _ Hwr); [done|]. intros lc Hl.
    rewrite <- Hse by done. by apply Hnt.
  - intros s' Hs Hb. destruct (wr_used _ _ _ _ _ _ _ _ Hwr s' Hs Hb) as [?|(lc & Hl & E)]; [by left|].
    right. exists lc. split; [done|]. by rewrite Hse.
  - unfold file_length. rewrite lookup_insert_eq. unfold disk_length, set_disk_length.
    rewrite word_set_eq by (apply u32_range || (rewrite (proj1 Hok); lia)).
    rewrite u32_small, s32_small; lia.
  - intros k Hk. rewrite <- (wr_meta _ _ _ _ _ _ _ _ Hwr) by done. unfold child.
    rewrite lookup_insert_eq, Hd. apply Hw. lia.
  - intros j b Hj. rewrite (meta_byte v' fm' ino d) by (done || lia). by apply Hwr.
  - intros k Hk. rewrite Hse by (apply block_ok; lia). by apply Hwr.
  - intros k Hk Hout Hkn. rewrite (meta_byte v' fm' ino d) by (done || lia). by apply Hwr.
  - intros m Hm Hmn Hk. rewrite Hse by done. by apply Hwr.
Qed.

(** Writing, with room on the device; the buffer depends on the free
    map as [g] says. *)
Lemma inode_write_from_spec c fm v (buffer : fs C -> list Z) (g : bitmap -> list Z) size offset (Q : Z -> fs C -> Prop) :
  i_deny_write_cnt i = 0 ->
  bc_rep c v P -> view_ok v fm -> tree_wf v fm ino -> pins_ok P v fm ino ->
  (forall c fm, buffer (upd c fm s) = g fm) ->
  (forall fm', bit_cnt fm' = bit_cnt fm -> bitmap_wf fm' ->
     Forall (fun b => 0 <= b < 2 ^ 8) (g fm') /\ size <= Z.of_nat (length (g fm'))) ->
  0 <= offset -> 0 <= size ->
  offset + size <= 512 * Z.of_nat MAX_SECTORS ->
  (3 * missing v ino (blocks offset size) <= nfree fm)%nat ->
  (forall c' fm' v' l, bc_rep c' v' P -> Z.of_nat (length l) = size ->
     wrote ino v fm v' fm' offset l (Z.max (file_length v ino) (offset + size)) ->
     (forall buf, (forall fm, g fm = buf) -> l = take (Z.to_nat size) buf) ->
     (nfree fm <= nfree fm' + 3 * missing v ino (blocks offset size))%nat ->
     (missing v ino (blocks offset size) = 0%nat -> fm' = fm /\ l = take (Z.to_nat size) (g fm)) ->
     Q size (upd c' fm' s)) ->
  wp (inode_write_from ptr buffer size offset) Q (upd c fm s).
Proof using Hi Hsec.
  intros Hdeny Hrep Hv Ht Hp Hg Hbuf Ho Hs Hmax Hfree HQ. unfold inode_write_from.
  apply wp_bind, wp_get_inode_upd. rewrite Hdeny. cbn [Z.eqb negb]. wp_steps.
  eapply (write_loop_spec buffer g); try done; try lia.
  intros c1 fm1 v1 l1 Hrep1 Hl1 Hwr Hconst1 Hfree1 Hsame1. rewrite !drop_0 in *. rewrite Z.add_0_l, Hsec. wp_steps.
  pose proof (wr_view _ _ _ _ _ _ _ _ Hwr) as Hv1. pose proof (wr_tree _ _ _ _ _ _ _ _ Hwr) as Ht1.
  destruct (inode_present ino fm1 v1 Hv1 Ht1) as (d & Hd & Hok).
  apply wp_cachef_upd. eapply wp_bc_get; [done| | |].
  { intros j p Hj E. by apply (po_apart _ _ _ _ Hp j p LInode). }
  { pose proof (po_size _ _ _ _ Hp). lia. }
  intros b c2 Hb Hrep2. wp_steps. apply wp_cachef_upd. eapply wp_bc_read; [done..|].
  intros c3 Hrep3. wp_steps.
  pose proof (wr_length _ _ _ _ _ _ _ _ Hwr) as Hlen. unfold file_length in Hlen at 1.
  rewrite Hd in Hlen. rewrite Hlen.
  destruct (Z.ltb_spec (file_length v ino) (offset + size)) as [Hlt|Hge]; wp_steps.
  - apply wp_cachef_upd. eapply wp_bc_store; [done|by apply set_word_sector_ok|].
    intros c4 Hrep4. wp_steps. apply wp_cachef_upd. eapply wp_bc_dirty; [done|].
    intros c5 Hrep5. wp_steps. apply wp_cachef_upd. eapply wp_bc_put_dirty; [done..|].
    intros c6 Hrep6. wp_steps. eapply HQ; [done|done| |done|done|done].
    rewrite Z.max_r by lia. eapply wrote_length; try done; try lia.
    rewrite max_sectors in Hmax. lia.
  - apply wp_cachef_upd. eapply wp_bc_put_clean; [done..|]. intros c4 Hrep4. wp_steps.
    eapply HQ; [done|done| |done|done|done]. by rewrite Z.max_l by lia.
Qed.

(** Writing, with room on the device. *)
Lemma inode_write_at_spec c fm v buffer size offset (Q : Z -> fs C -> Prop) :
  i_deny_write_cnt i = 0 ->
  bc_rep c v P -> view_ok v fm -> tree_wf v fm ino -> pins_ok P v fm ino ->
  Forall (fun b => 0 <= b < 2 ^ 8) buffer ->
  0 <= offset -> 0 <= size <= Z.of_nat (length buffer) ->
  offset + size <= 512 * Z.of_nat MAX_SECTORS ->
  (3 * missing v ino (blocks offset size) <= nfree fm)%nat ->
  (forall c' fm' v', bc_rep c' v' P ->
     wrote ino v fm v' fm' offset (take (Z.to_nat size) buffer)
       (Z.max (file_length v ino) (offset + size)) ->
     (nfree fm <= nfree fm' + 3 * missing v ino (blocks offset size))%nat ->
     (missing v ino (blocks offset size) = 0%nat -> fm' = fm) ->
     Q size (upd c' fm' s)) ->
  wp (inode_write_at ptr buffer size offset) Q (upd c fm s).
Proof using Hi Hsec.
  intros Hdeny Hrep Hv Ht Hp Hbuf Ho Hs Hmax Hfree HQ.
  apply (inode_write_from_spec c fm v _ (fun _ => buffer)); try done; try lia.
  { intros. split; [done|lia]. }
  intros c' fm' v' l Hrep' Hl Hwr Hconst Hfr Hsame. rewrite (Hconst buffer) in * by done.
  apply (HQ c' fm' v'); try done. intros Hz. by destruct (Hsame Hz).
Qed.
End io.
