(* ===== verification/FsInv.v ===== *)
(** Consistency of the disk (the invariant behind src/src/filesys): every
    sector in use belongs to exactly one file, at one place in it, and a
    file has no sectors beyond its end. Writing to a file, creating one
    and deleting one keep it so, and leave the other files alone. A
    sector that was allocated and is not yet part of a file is
    [reserved]. *)
From S2P Require Import Prelude Words Bitmap Monitor Pipe Block Cache CacheSpec CacheClient.
From S2P Require Import Fs Inode InodeTree InodeLookup InodeIO.
From stdpp Require Import options.

#[local] Arguments Nat.div : simpl never.
#[local] Arguments Nat.modulo : simpl never.
#[local] Arguments Z.div : simpl never.
#[local] Arguments Z.modulo : simpl never.

(** [F]: the sectors of the inodes of the files; [R]: the reserved sectors. *)
Record disk_ok (R : gset Z) (v : gmap Z (list Z)) (fm : bitmap) (F : gset Z) : Prop := {
  dk_view : view_ok v fm;
  dk_tree : forall ino, ino ∈ F -> tree_wf v fm ino;
  dk_disj : forall ino ino' l l', ino ∈ F -> ino' ∈ F -> loc_ok l -> loc_ok l' ->
    sec v ino l = sec v ino' l' -> sec v ino l <> NONE -> ino = ino';
  dk_used : forall s, 0 <= s < bit_cnt fm -> bit fm s = true ->
    (s ∈ R) \/ exists ino l, (ino ∈ F) /\ loc_ok l /\ sec v ino l = s;
  dk_res : forall s, s ∈ R -> 0 <= s < bit_cnt fm /\ bit fm s = true /\
    forall ino l, ino ∈ F -> loc_ok l -> sec v ino l <> s;
  dk_tight : forall ino m, ino ∈ F -> (m < MAX_SECTORS)%nat ->
    sec v ino (LData m) <> NONE -> 512 * Z.of_nat m < file_length v ino;
  dk_length : forall ino, ino ∈ F -> 0 <= file_length v ino <= 512 * Z.of_nat MAX_SECTORS;
}.
Arguments dk_view {R}. Arguments dk_tree {R}. Arguments dk_disj {R}. Arguments dk_used {R}.
Arguments dk_res {R}. Arguments dk_tight {R}. Arguments dk_length {R}.

(** Two views in which the file [ino] is the same. *)
Definition same_file (v v' : gmap Z (list Z)) (ino : Z) : Prop :=
  forall l, loc_ok l -> sec v' ino l = sec v ino l /\ v' !! sec v ino l = v !! sec v ino l.

Lemma same_file_byte v v' ino k :
  same_file v v' ino -> 0 <= k -> file_byte v' ino k = file_byte v ino k.
Proof.
  intros Hs Hk. unfold file_byte. destruct (Z.ltb_spec k (512 * Z.of_nat MAX_SECTORS)); [|done].
  destruct (Hs _ (block_ok k ltac:(lia))) as [-> ->]. done.
Qed.

Lemma same_file_length v v' ino : same_file v v' ino -> file_length v' ino = file_length v ino.
Proof. intros Hs. unfold file_length. destruct (Hs LInode I) as [_ E]. cbn in E. by rewrite E. Qed.

(** A file whose sectors keep their contents is the same. *)
Lemma same_file_intro v fm v' fm' ino :
  view_ok v fm -> view_ok v' fm' -> ino <> NONE ->
  (forall l, loc_ok l -> sec v ino l <> NONE -> v' !! sec v ino l = v !! sec v ino l) ->
  same_file v v' ino.
Proof.
  intros Hv Hv' Hi Hk l Hl.
  assert (Hlk : forall l, loc_ok l -> v' !! sec v ino l = v !! sec v ino l).
  { intros l0 Hl0. destruct (decide (sec v ino l0 = NONE)) as [E|E]; [|by apply Hk].
    by rewrite E, (view_NONE _ _ Hv), (view_NONE _ _ Hv'). }
  split; [|by apply Hlk].
  induction l as [|l p k Hp IH] using loc_ind_down; [done|].
  destruct (parent_ok _ _ _ Hl Hp) as (Hpo & _ & _).
  rewrite !(sec_parent _ _ _ _ _ Hp), IH by done. unfold child. by rewrite Hlk.
Qed.

Lemma same_file_tree v fm v' fm' ino :
  same_file v v' ino -> tree_wf v fm ino ->
  (forall l, loc_ok l -> sec v ino l <> NONE -> bit fm' (sec v ino l) = true) ->
  tree_wf v' fm' ino.
Proof.
  intros Hs Ht Hb. split.
  - intros l Hl. destruct (Hs l Hl) as [-> ->]. intros Hn. split; [by apply (tw_sec _ _ _ Ht)|by apply Hb].
  - intros l l' Hl Hl'. rewrite (proj1 (Hs l Hl)), (proj1 (Hs l' Hl')). by apply (tw_inj _ _ _ Ht).
  - apply Ht.
Qed.

Section writing.
Context {R : gset Z} (v : gmap Z (list Z)) (fm : bitmap) (F : gset Z) (ino : Z).
Context (Hok : disk_ok R v fm F) (Hino : ino ∈ F).
Context (v' : gmap Z (list Z)) (fm' : bitmap) (ofs : Z) (l : list Z).
Context (Hofs : 0 <= ofs) (Hmax : ofs + Z.of_nat (length l) <= 512 * Z.of_nat MAX_SECTORS).
Context (Hwr : wrote ino v fm v' fm' ofs l (Z.max (file_length v ino) (ofs + Z.of_nat (length l)))).

Lemma wrote_other ino' : ino' ∈ F -> ino' <> ino -> same_file v v' ino'.
Proof using Hok Hino Hwr.
  intros Hi Hne. pose proof (dk_tree _ _ _ Hok ino' Hi) as Ht.
  eapply same_file_intro; [apply Hok|apply Hwr|apply Ht|]. intros lc Hl Hn.
  apply (wr_frame _ _ _ _ _ _ _ _ Hwr).
  - eapply sec_in_range; [apply Hok|done..].
  - by apply (tw_sec _ _ _ Ht).
  - intros lc' Hl' E. apply Hne. symmetry. apply (dk_disj _ _ _ Hok ino ino' lc' lc); try done.
    by rewrite E.
Qed.

(** A write keeps the disk consistent. *)
Lemma wrote_disk_ok : disk_ok R v' fm' F.
Proof using Hok Hino Hofs Hmax Hwr.
  pose proof (dk_tree _ _ _ Hok ino Hino) as Ht. pose proof (dk_view _ _ _ Hok) as Hv.
  pose proof (wr_cnt _ _ _ _ _ _ _ _ Hwr) as Hcnt.
  assert (Hbit : forall s, is_Some (v !! s) -> bit fm s = true -> bit fm' s = true).
  { intros s Hs Hb. apply Hwr; [|done]. by apply (vo_dom _ _ Hv). }
  assert (Hcross : forall ino' lc lc', ino' ∈ F -> ino' <> ino -> loc_ok lc -> loc_ok lc' ->
            sec v' ino lc = sec v ino' lc' -> sec v ino' lc' <> NONE -> False).
  { intros ino' lc lc' Hi Hne Hl Hl' E Hn. pose proof (dk_tree _ _ _ Hok ino' Hi) as Ht'.
    destruct (wr_sec _ _ _ _ _ _ _ _ Hwr lc Hl) as [E1|[_ Hb]].
    - apply Hne. symmetry. apply (dk_disj _ _ _ Hok ino ino' lc lc'); congruence.
    - rewrite E in Hb. destruct (tw_sec _ _ _ Ht' lc' Hl' Hn). congruence. }
  split.
  - apply Hwr.
  - intros ino' Hi. destruct (decide (ino' = ino)) as [->|Hne]; [apply Hwr|].
    pose proof (dk_tree _ _ _ Hok ino' Hi) as Ht'.
    eapply same_file_tree; [by apply wrote_other|done|]. intros lc Hl Hn.
    destruct (tw_sec _ _ _ Ht' lc Hl Hn). by apply Hbit.
  - intros i1 i2 l1 l2 H1 H2 Hl1 Hl2.
    destruct (decide (i1 = ino)) as [->|N1], (decide (i2 = ino)) as [->|N2]; try done.
    + rewrite (proj1 (wrote_other i2 H2 N2 l2 Hl2)). intros E Hn. rewrite E in Hn.
      by destruct (Hcross i2 l1 l2).
    + rewrite (proj1 (wrote_other i1 H1 N1 l1 Hl1)). intros E Hn. by destruct (Hcross i1 l2 l1).
    + rewrite (proj1 (wrote_other i1 H1 N1 l1 Hl1)), (proj1 (wrote_other i2 H2 N2 l2 Hl2)).
      by apply (dk_disj _ _ _ Hok).
  - intros s. rewrite Hcnt. intros Hs Hb.
    destruct (wr_used _ _ _ _ _ _ _ _ Hwr s Hs Hb) as [Hb0|(lc & Hl & E)]; [|by right; exists ino, lc].
    destruct (dk_used _ _ _ Hok s Hs Hb0) as [?|(i0 & l0 & Hi0 & Hl0 & E0)]; [by left|]. right. exists i0, l0.
    split; [done|]. split; [done|]. destruct (decide (i0 = ino)) as [->|Hne].
    + destruct (wr_sec _ _ _ _ _ _ _ _ Hwr l0 Hl0) as [->|[En _]]; [done|].
      pose proof (wf_cnt _ (vo_wf _ _ Hv)). unfold NONE in En. lia.
    + by rewrite (proj1 (wrote_other i0 Hi0 Hne l0 Hl0)).
  - intros s Hs. destruct (dk_res _ _ _ Hok s Hs) as (Hr & Hb & Hno). rewrite Hcnt.
    split; [done|]. split; [by apply Hwr|]. intros i0 l0 Hi0 Hl0 E. destruct (decide (i0 = ino)) as [->|Hne].
    + destruct (wr_sec _ _ _ _ _ _ _ _ Hwr l0 Hl0) as [E0|[_ Hf]]; [|congruence].
      rewrite E0 in E. by apply (Hno ino l0).
    + rewrite (proj1 (wrote_other i0 Hi0 Hne l0 Hl0)) in E. by apply (Hno i0 l0).
  - intros ino' m Hi Hm Hn. destruct (decide (ino' = ino)) as [->|Hne].
    + rewrite (wr_length _ _ _ _ _ _ _ _ Hwr).
      destruct (decide (512 * Z.of_nat m < Z.max (file_length v ino) (ofs + Z.of_nat (length l)))) as [|Hge]; [done|].
      destruct (decide (sec v ino (LData m) = NONE)) as [En|En].
      * destruct Hn. apply (wr_holes _ _ _ _ _ _ _ _ Hwr); [done..|]. intros k Hk E.
        pose proof (Z.div_mod k 512 ltac:(lia)). pose proof (Z.mod_pos_bound k 512 ltac:(lia)).
        assert (0 <= k / 512) by (apply Z.div_pos; lia). lia.
      * pose proof (dk_tight _ _ _ Hok ino m Hi Hm En). lia.
    + rewrite (same_file_length v v') by by apply wrote_other.
      apply (dk_tight _ _ _ Hok); [done..|]. by rewrite <- (proj1 (wrote_other ino' Hi Hne (LData m) Hm)).
  - intros ino' Hi. destruct (decide (ino' = ino)) as [->|Hne].
    + rewrite (wr_length _ _ _ _ _ _ _ _ Hwr). pose proof (dk_length _ _ _ Hok ino Hi). lia.
    + rewrite (same_file_length v v') by by apply wrote_other. by apply (dk_length _ _ _ Hok).
Qed.
End writing.

(** * New files *)

(** The contents of an inode without sectors, of length [len]. *)
Definition empty_inode (len : Z) (d : list Z) : Prop :=
  sector_ok d /\ disk_length d = len /\ forall k, (3 <= k < 128)%nat -> word d k = NONE.

Lemma empty_tree v fm ino len d :
  view_ok v fm -> v !! ino = Some d -> empty_inode len d ->
  forall l, loc_ok l -> l <> LInode -> sec v ino l = NONE.
Proof.
  intros Hv Hd (_ & _ & Hw) l Hl Hne.
  assert (Htop : forall k, (3 <= k < 128)%nat -> child v ino k = NONE)
    by (intros k Hk; unfold child; rewrite Hd; by apply Hw).
  assert (HN : forall k, child v NONE k = NONE)
    by (intros k; unfold child; by rewrite (view_NONE _ _ Hv)).
  destruct l as [| | |k|m]; cbn [sec]; try done.
  - by apply Htop; lia.
  - by apply Htop; lia.
  - rewrite (Htop 127%nat) by lia. apply HN.
  - repeat case_decide; [apply Htop; lia|rewrite (Htop 126%nat) by lia; apply HN|].
    rewrite (Htop 127%nat) by lia. by rewrite !HN.
Qed.

Lemma new_disk_inode_empty len is_dir :
  0 <= len < 2 ^ 31 -> empty_inode len (new_disk_inode zero_sector len is_dir).
Proof.
  intros Hlen.
  assert (Hfill : sector_ok (fill_words (Z.to_nat NUM_DIRECT) 3 (u32 (-1)) zero_sector)).
  { split; [by rewrite length_fill_words|]. apply fill_words_ok. apply zero_sector_ok. }
  unfold new_disk_inode, set_disk_is_dir, set_disk_length, set_double_indirect, set_indirect.
  set (d0 := fill_words _ _ _ _) in *.
  pose proof (set_word_sector_ok d0 126 (u32 (-1)) Hfill) as H1. set (d1 := set_word d0 _ _) in *.
  pose proof (set_word_sector_ok d1 127 (u32 (-1)) H1) as H2. set (d2 := set_word d1 _ _) in *.
  pose proof (set_word_sector_ok d2 0 (u32 len) H2) as H3. set (d3 := set_word d2 _ _) in *.
  split; [by apply set_word_sector_ok|]. split.
  - unfold disk_length. rewrite word_set_ne by lia. unfold d3.
    rewrite word_set_eq by (apply u32_range || (rewrite (proj1 H2); lia)).
    rewrite u32_small, s32_small; lia.
  - intros k Hk. rewrite word_set_ne by lia. unfold d3. rewrite word_set_ne by lia. unfold d2.
    destruct (decide (k = 127%nat)) as [->|].
    { rewrite word_set_eq; [done|rewrite (proj1 H1); lia|done]. }
    rewrite word_set_ne by lia. unfold d1. destruct (decide (k = 126%nat)) as [->|].
    { rewrite word_set_eq; [done|rewrite (proj1 Hfill); lia|done]. }
    rewrite word_set_ne by lia. unfold d0. rewrite word_fill_words.
    + rewrite decide_True; [done|]. unfold NUM_DIRECT. lia.
    + unfold zero_sector. rewrite length_replicate. unfold NUM_DIRECT. lia.
    + done.
Qed.

Lemma disk_ok_empty R v fm :
  view_ok v fm -> (forall s, 0 <= s < bit_cnt fm -> bit fm s = true -> s ∈ R) ->
  (forall s, s ∈ R -> 0 <= s < bit_cnt fm /\ bit fm s = true) -> disk_ok R v fm ∅.
Proof.
  intros Hv Hb HR. split; try done.
  - intros s Hs Hbs. left. by apply Hb.
  - intros s Hs. destruct (HR s Hs). split; [done|]. by split.
Qed.

Section creating.
Context (v : gmap Z (list Z)) (fm : bitmap) (F R : gset Z) (x : Z) (len : Z) (d : list Z).
Context (Hok : disk_ok R v fm F) (Hal : x ∈ R) (Hd : empty_inode len d).
Let v' := <[x := d]> v.

Lemma fresh_sector ino l : ino ∈ F -> loc_ok l -> sec v ino l <> x.
Proof using Hok Hal.
  intros Hi Hl. by apply (dk_res _ _ _ Hok x Hal).
Qed.

Lemma created_view : view_ok v' fm.
Proof using Hok Hal Hd.
  pose proof (dk_view _ _ _ Hok) as Hv. destruct (dk_res _ _ _ Hok x Hal) as (Hr & _ & _).
  split; [apply Hv| |].
  - intros s. rewrite <- (vo_dom _ _ Hv). unfold v'. rewrite lookup_insert_is_Some'.
    rewrite <- (vo_dom _ _ Hv) in Hr. naive_solver.
  - intros s d'. unfold v'. rewrite lookup_insert_Some.
    intros [[_ <-]|[_ Hd']]; [apply Hd|by eapply vo_sector].
Qed.

Lemma created_other ino : ino ∈ F -> same_file v v' ino.
Proof using Hok Hal Hd.
  intros Hi. eapply same_file_intro; [apply Hok|apply created_view|by apply (dk_tree _ _ _ Hok)|].
  intros l Hl Hn. apply lookup_insert_ne. intros E. symmetry in E. by eapply fresh_sector.
Qed.

Lemma created_empty l : loc_ok l -> l <> LInode -> sec v' x l = NONE.
Proof using Hok Hal Hd.
  eapply empty_tree; [apply created_view|apply lookup_insert_eq|apply Hd].
Qed.

Context (Hlen : 0 <= len <= 512 * Z.of_nat MAX_SECTORS).

Lemma created_disk_ok : disk_ok (R ∖ {[x]}) v' fm ({[x]} ∪ F).
Proof using Hok Hal Hd Hlen.
  pose proof (dk_view _ _ _ Hok) as Hv. pose proof created_view as Hv'.
  assert (Hxn : x <> NONE).
  { destruct (dk_res _ _ _ Hok x Hal) as (Hr & _). pose proof (wf_cnt _ (vo_wf _ _ Hv)). unfold NONE. lia. }
  assert (Hnew : forall l, loc_ok l -> sec v' x l <> NONE -> l = LInode).
  { intros l Hl Hn. destruct (decide (l = LInode)); [done|]. by destruct Hn; apply created_empty. }
  split.
  - done.
  - intros ino [->%elem_of_singleton|Hi]%elem_of_union.
    + split; [| |done].
      * intros l Hl Hn. rewrite (Hnew l Hl Hn). cbn [sec]. unfold v'. rewrite lookup_insert_eq.
        split; [done|]. by apply (dk_res _ _ _ Hok x Hal).
      * intros l l' Hl Hl' E Hn. rewrite (Hnew l Hl Hn). symmetry. apply Hnew; congruence.
    + pose proof (dk_tree _ _ _ Hok ino Hi) as Ht.
      eapply same_file_tree; [by apply created_other|done|]. intros l Hl Hn.
      by apply (tw_sec _ _ _ Ht).
  - intros i1 i2 l1 l2 H1 H2 Hl1 Hl2 E Hn.
    apply elem_of_union in H1 as [->%elem_of_singleton|H1],
      H2 as [->%elem_of_singleton|H2]; try done.
    + rewrite (proj1 (created_other i2 H2 l2 Hl2)) in E. rewrite (Hnew l1 Hl1 Hn) in E. cbn in E.
      by destruct (fresh_sector i2 l2 H2 Hl2).
    + rewrite E in Hn. rewrite (proj1 (created_other i1 H1 l1 Hl1)) in E.
      rewrite (Hnew l2 Hl2 Hn) in E. by destruct (fresh_sector i1 l1 H1 Hl1).
    + rewrite (proj1 (created_other i1 H1 l1 Hl1)) in E, Hn.
      rewrite (proj1 (created_other i2 H2 l2 Hl2)) in E. by apply (dk_disj _ _ _ Hok i1 i2 l1 l2).
  - intros s Hs Hb. destruct (decide (s = x)) as [->|Hsx].
    + right. exists x, LInode. split; [set_solver|]. by split.
    + destruct (dk_used _ _ _ Hok s Hs Hb) as [?|(ino & l & Hi & Hl & E)]; [left; set_solver|].
      right. exists ino, l.
      split; [set_solver|]. split; [done|]. by rewrite (proj1 (created_other ino Hi l Hl)).
  - intros s [HsR Hsx]%elem_of_difference. rewrite elem_of_singleton in Hsx.
    destruct (dk_res _ _ _ Hok s HsR) as (Hr & Hb & Hno). split; [done|]. split; [done|].
    intros ino l [->%elem_of_singleton|Hi]%elem_of_union Hl E.
    + destruct (decide (sec v' x l = NONE)) as [En|En].
      * rewrite En in E. pose proof (wf_cnt _ (vo_wf _ _ Hv)). unfold NONE in E. lia.
      * rewrite (Hnew l Hl En) in E. cbn in E. congruence.
    + rewrite (proj1 (created_other ino Hi l Hl)) in E. by apply (Hno ino l).
  - intros ino m [->%elem_of_singleton|Hi]%elem_of_union Hm Hn.
    + by apply Hnew in Hn.
    + rewrite (same_file_length v v') by by apply created_other.
      rewrite (proj1 (created_other ino Hi (LData m) Hm)) in Hn. by apply (dk_tight _ _ _ Hok).
  - intros ino [->%elem_of_singleton|Hi]%elem_of_union.
    + unfold file_length, v'. rewrite lookup_insert_eq. destruct Hd as (_ & -> & _). done.
    + rewrite (same_file_length v v') by by apply created_other. by apply (dk_length _ _ _ Hok).
Qed.
End creating.

(** An allocated sector is reserved. *)
Lemma allocated_disk_ok R v fm F x fm' :
  disk_ok R v fm F -> allocated fm x fm' -> disk_ok ({[x]} ∪ R) v fm' F.
Proof.
  intros Hok Hal. pose proof (dk_view _ _ _ Hok) as Hv.
  assert (Hbit : forall s, 0 <= s < bit_cnt fm -> bit fm' s = (s =? x) || bit fm s) by apply Hal.
  assert (Hkeep : forall s, 0 <= s < bit_cnt fm -> bit fm s = true -> bit fm' s = true).
  { intros s Hs Hb. rewrite Hbit, Hb by done. apply orb_true_r. }
  assert (Htree : forall ino, ino ∈ F -> tree_wf v fm' ino).
  { intros ino Hi. pose proof (dk_tree _ _ _ Hok ino Hi) as Ht. split; [|apply Ht|apply Ht].
    intros l Hl Hn. destruct (tw_sec _ _ _ Ht l Hl Hn) as [Hs Hb]. split; [done|].
    apply Hkeep; [|done]. by apply (vo_dom _ _ Hv). }
  split; [|done|apply Hok| | |apply Hok|apply Hok].
  - split; [apply Hal| |apply Hv]. intros s. rewrite (al_cnt _ _ _ Hal). apply Hv.
  - intros s. rewrite (al_cnt _ _ _ Hal). intros Hs. rewrite Hbit by done.
    intros [E%Z.eqb_eq|Hb]%orb_true_iff; [left; set_solver|].
    destruct (dk_used _ _ _ Hok s Hs Hb) as [?|?]; [left; set_solver|by right].
  - intros s. rewrite (al_cnt _ _ _ Hal). intros [->%elem_of_singleton|Hs]%elem_of_union.
    + split; [apply Hal|]. split; [rewrite Hbit, Z.eqb_refl by apply Hal; done|].
      intros ino l Hi Hl E. pose proof (al_range _ _ _ Hal) as Hr.
      assert (Hn : sec v ino l <> NONE).
      { rewrite E. pose proof (wf_cnt _ (vo_wf _ _ Hv)). unfold NONE. lia. }
      destruct (tw_sec _ _ _ (dk_tree _ _ _ Hok ino Hi) l Hl Hn) as [_ Hb].
      pose proof (al_free _ _ _ Hal). congruence.
    + destruct (dk_res _ _ _ Hok s Hs) as (Hr & Hb & Hno). split; [done|]. split; [by apply Hkeep|done].
Qed.
