(* ===== verification/Release.v ===== *)
(** Giving sectors back (src/src/filesys/free-map.c, free_map_release,
    and the end of inode_close in src/src/filesys/inode.c): deleting a
    file frees exactly the sectors of its tree, and brings the free map
    on disk up to date. *)
From S2P Require Import Prelude Words Bitmap Monitor Pipe Block Cache CacheSpec CacheClient.
From S2P Require Import Fs Inode InodeTree InodeLookup InodeIO FsInv.
From stdpp Require Import options.

#[local] Arguments Nat.div : simpl never.
#[local] Arguments Nat.modulo : simpl never.
#[local] Arguments Z.div : simpl never.
#[local] Arguments Z.modulo : simpl never.

(** The bytes of the free map. *)
Definition map_size (fm : bitmap) : Z := 4 * Z.of_nat (length (bits fm)).

(** The file of the free map has room for them. *)
Record fmap_ok (v : gmap Z (list Z)) (fm : bitmap) : Prop := {
  fo_max : map_size fm <= 512 * Z.of_nat MAX_SECTORS;
  fo_len : map_size fm <= file_length v FREE_MAP_SECTOR;
  fo_cover : forall m, m ∈ blocks 0 (map_size fm) -> sec v FREE_MAP_SECTOR (LData m) <> NONE;
}.

(** The free map file is open for writing. *)
Definition fmap_open {C} (s : fs C) : Prop :=
  exists f fl p i, free_map_file s = Some f /\ files s !! f = Some fl /\
    fl_inode fl = Some p /\ inodes s !! p = Some i /\ i_sector i = FREE_MAP_SECTOR /\
    i_deny_write_cnt i = 0.

(** The free map in the file is the one in memory. *)
Definition fmap_stored (v : gmap Z (list Z)) (fm : bitmap) : Prop :=
  forall i b, words_bytes (bits fm) !! i = Some b ->
    file_byte v FREE_MAP_SECTOR (Z.of_nat i) = b.

Lemma byte_cnt_size fm :
  bitmap_wf fm -> map_size fm <= 512 * Z.of_nat MAX_SECTORS ->
  s32 (byte_cnt (bit_cnt fm)) = map_size fm.
Proof.
  intros Hwf Hm. pose proof (wf_len _ Hwf) as Hl. pose proof (wf_cnt _ Hwf).
  unfold byte_cnt, map_size in *. rewrite elem_cnt_div by done. rewrite <- Hl.
  rewrite max_sectors in Hm. rewrite u32_small, s32_small; lia.
Qed.

Lemma words_bytes_ok l :
  Forall (fun b => 0 <= b < 2 ^ 8) (words_bytes l).
Proof.
  unfold words_bytes. induction l as [|w l IH]; cbn [map concat]; [constructor|].
  apply Forall_app. split; [apply le32_range|done].
Qed.

Lemma missing_none v ino ms :
  (forall m, m ∈ ms -> sec v ino (LData m) <> NONE) -> missing v ino ms = 0%nat.
Proof.
  intros Hm. unfold missing. induction ms as [|m ms IH]; [done|]. rewrite filter_cons.
  rewrite decide_False by (apply Hm; left). apply IH. intros; apply Hm; by right.
Qed.

(** A write that allocates nothing leaves the tree as it is. *)
Lemma wrote_same_tree ino v fm v' ofs l len :
  view_ok v fm -> tree_wf v fm ino -> wrote ino v fm v' fm ofs l len ->
  forall lc, loc_ok lc -> sec v' ino lc = sec v ino lc.
Proof.
  intros Hv Ht Hwr lc Hl. destruct (wr_sec _ _ _ _ _ _ _ _ Hwr lc Hl) as [?|[Hn Hb]]; [done|].
  destruct (decide (sec v' ino lc = NONE)) as [E|E]; [congruence|].
  destruct (tw_sec _ _ _ (wr_tree _ _ _ _ _ _ _ _ Hwr) lc Hl E). congruence.
Qed.

Section release.
Context {C : Type} `{BufferCacheSpec C}.
Context (s : fs C) (Hopen : fmap_open s).

(** Storing the free map, in a state where it is [fm]. *)
Lemma bitmap_write_spec P c fm v f (Q : bool -> fs C -> Prop) :
  free_map_file s = Some f ->
  bc_rep c v P -> view_ok v fm -> tree_wf v fm FREE_MAP_SECTOR ->
  pins_ok P v fm FREE_MAP_SECTOR -> fmap_ok v fm ->
  (forall c' v', bc_rep c' v' P ->
     wrote FREE_MAP_SECTOR v fm v' fm 0 (words_bytes (bits fm)) (file_length v FREE_MAP_SECTOR) ->
     Q true (upd c' fm s)) ->
  wp (bitmap_write free_map f) Q (upd c fm s).
Proof using Hopen.
  intros Hf Hrep Hv Ht Hp [Hmax Hlen Hcov] HQ.
  destruct Hopen as (f' & fl & p & i & Hf' & Hfl & Hfi & Hi & Hsec & Hdeny). simplify_eq.
  unfold bitmap_write, file_write_at. wp_steps. cbn [free_map upd set_cache set_free_map].
  rewrite byte_cnt_size by (done || apply Hv). wp_steps.
  eapply wp_get_file; [done|]. wp_steps. eapply wp_deref; [done|].
  assert (Hl : Z.of_nat (length (words_bytes (bits fm))) = map_size fm).
  { rewrite length_words_bytes. unfold map_size. lia. }
  assert (Hms : 0 <= map_size fm) by (unfold map_size; lia).
  pose proof (missing_none _ _ _ Hcov) as Hmiss.
  eapply (inode_write_from_spec s FREE_MAP_SECTOR P p i Hi Hsec c fm v _ (fun fm => words_bytes (bits fm)));
    try done; try lia.
  - intros fm' Hc Hwf. split; [apply words_bytes_ok|]. rewrite length_words_bytes.
    pose proof (wf_len _ Hwf). pose proof (wf_len _ (vo_wf _ _ Hv)). unfold map_size. rewrite Hc in *. lia.
  - intros c' fm' v' l Hrep' Hlen' Hwr _ _ Hsame. destruct (Hsame Hmiss) as [-> ->]. wp_steps.
    rewrite Z.eqb_refl. apply (HQ c' v'); [done|].
    replace (take (Z.to_nat (map_size fm)) (words_bytes (bits fm))) with (words_bytes (bits fm)) in Hwr
      by (symmetry; apply take_ge; lia).
    by rewrite Z.add_0_l, Z.max_l in Hwr by done.
Qed.

(** Freeing one sector in the bitmap. *)
Record freed (fm : bitmap) (x : Z) (fm' : bitmap) : Prop := {
  fr_wf : bitmap_wf fm';
  fr_cnt : bit_cnt fm' = bit_cnt fm;
  fr_len : length (bits fm') = length (bits fm);
  fr_bit : forall j, 0 <= j < bit_cnt fm -> bit fm' j = bit fm j && negb (j =? x);
}.

Lemma bitmap_free fm x :
  bitmap_wf fm -> 0 <= x < bit_cnt fm -> bit fm x = true ->
  exists fm', bitmap_all fm x 1 = Ok true /\
    bitmap_set_multiple fm x 1 false = Ok fm' /\ freed fm x fm'.
Proof using Type.
  intros Hwf Hx Hb.
  destruct (bitmap_contains_spec fm x 1 false) as (c & Hc & Hiff); [done|lia..|].
  destruct (bitmap_set_multiple_spec fm x 1 false) as (fm' & Hs & [Hw Hcn Hbit]); [done|lia..|].
  exists fm'. split; [|split; [done|split; try done]].
  - unfold bitmap_all. rewrite Hc. cbn. destruct c; [|done].
    destruct (proj1 Hiff eq_refl) as (j & Hj & Hbj). replace j with x in Hbj by lia. congruence.
  - pose proof (wf_len _ Hw). pose proof (wf_len _ Hwf). rewrite Hcn in *. lia.
  - intros j Hj. rewrite Hbit by done. destruct (Z.eqb_spec j x) as [->|Hne].
    + rewrite leb_true, ltb_true by lia. cbn. by rewrite andb_false_r.
    + rewrite andb_true_r. destruct (Z.leb_spec x j), (Z.ltb_spec j (x + 1)); cbn; try done; lia.
Qed.

Lemma free_map_release_spec P c fm v x (Q : unit -> fs C -> Prop) :
  bc_rep c v P -> view_ok v fm -> tree_wf v fm FREE_MAP_SECTOR ->
  pins_ok P v fm FREE_MAP_SECTOR -> fmap_ok v fm ->
  0 <= x < bit_cnt fm -> bit fm x = true ->
  (forall l, loc_ok l -> sec v FREE_MAP_SECTOR l <> x) ->
  (forall i p, P !! i = Some p -> pin_sector p <> x) ->
  (forall c' fm' v', bc_rep c' v' P -> freed fm x fm' ->
     wrote FREE_MAP_SECTOR v fm' v' fm' 0 (words_bytes (bits fm'))
       (file_length v FREE_MAP_SECTOR) ->
     Q tt (upd c' fm' s)) ->
  wp (free_map_release x 1) Q (upd c fm s).
Proof using Hopen.
  intros Hrep Hv Ht Hp Hfo Hx Hbx Hnt Hpx HQ. unfold free_map_release. wp_steps.
  destruct (bitmap_free fm x (vo_wf _ _ Hv) Hx Hbx) as (fm' & Hall & Hset & Hfr).
  apply wp_lift. cbn [free_map upd set_cache set_free_map]. rewrite Hall. cbn [wpr].
  apply wp_bind, wp_ASSERT; [done|]. wp_steps. apply wp_lift. rewrite Hset. cbn [wpr]. wp_steps.
  change (set_free_map fm' (upd c fm s)) with (upd c fm' s).
  destruct Hopen as (f & _ & _ & _ & Hf & _). eapply wp_deref; [exact Hf|]. wp_steps.
  destruct Hfr as [Hwf' Hcnt' Hlen' Hbit'].
  assert (Hkeep : forall j, 0 <= j < bit_cnt fm -> j <> x -> bit fm' j = bit fm j).
  { intros j Hj Hne. rewrite Hbit' by done. rewrite (proj2 (Z.eqb_neq j x) Hne). apply andb_true_r. }
  assert (Hv' : view_ok v fm').
  { split; [done|intros j; rewrite Hcnt'; apply Hv|apply Hv]. }
  assert (Ht' : tree_wf v fm' FREE_MAP_SECTOR).
  { split; [|apply Ht|apply Ht]. intros l Hl Hn. destruct (tw_sec _ _ _ Ht l Hl Hn) as [Hs Hb].
    split; [done|]. rewrite Hkeep; [done|by apply (vo_dom _ _ Hv)|by apply Hnt]. }
  assert (Hp' : pins_ok P v fm' FREE_MAP_SECTOR).
  { split; [|apply Hp|apply Hp]. intros i p Hi. destruct (po_marked _ _ _ _ Hp i p Hi) as [Hr Hb].
    rewrite Hcnt'. split; [done|]. rewrite Hkeep; [done..|]. by eapply Hpx. }
  assert (Hms : map_size fm' = map_size fm) by (unfold map_size; by rewrite Hlen').
  assert (Hfo' : fmap_ok v fm') by (destruct Hfo; split; by rewrite Hms).
  eapply bitmap_write_spec; try done. intros c' v' Hrep' Hwr. wp_steps. by apply (HQ c' fm' v').
Qed.
End release.

(** * Deleting a file *)

Section deleting.
Context {C : Type} `{BufferCacheSpec C}.
Context (s : fs C) (Hopen : fmap_open s).
Context (v : gmap Z (list Z)) (fm : bitmap) (ino : Z).
Context (Hv : view_ok v fm) (Ht : tree_wf v fm ino) (Htm : tree_wf v fm FREE_MAP_SECTOR)
  (Hfo : fmap_ok v fm)
  (Hdisj : forall l l', loc_ok l -> loc_ok l' -> sec v ino l <> NONE ->
     sec v FREE_MAP_SECTOR l' <> sec v ino l).

(** The sectors at the locations [ls] have been freed. *)
Record released (ls : list loc) (v' : gmap Z (list Z)) (fm' : bitmap) : Prop := {
  rl_view : view_ok v' fm';
  rl_cnt : bit_cnt fm' = bit_cnt fm;
  rl_size : length (bits fm') = length (bits fm);
  rl_bit : forall x, 0 <= x < bit_cnt fm ->
    bit fm' x = true <-> (bit fm x = true /\ (forall l, l ∈ ls -> sec v ino l <> x));
  rl_map : tree_wf v' fm' FREE_MAP_SECTOR;
  rl_sec : forall l, loc_ok l -> sec v' FREE_MAP_SECTOR l = sec v FREE_MAP_SECTOR l;
  rl_len : file_length v' FREE_MAP_SECTOR = file_length v FREE_MAP_SECTOR;
  rl_flag : child v' FREE_MAP_SECTOR 1 = child v FREE_MAP_SECTOR 1;
  rl_frame : forall x, 0 <= x < bit_cnt fm ->
    (forall l, loc_ok l -> sec v FREE_MAP_SECTOR l <> x) -> v' !! x = v !! x;
  rl_stored : forall l, l ∈ ls -> sec v ino l <> NONE -> fmap_stored v' fm';
}.

Lemma released_nil : released [] v fm.
Proof using Hv Htm.
  split; try done.
  - intros x Hx. split; [|by intros [? _]]. intros Hb. split; [done|]. by intros l ?%not_elem_of_nil.
  - by intros l ?%not_elem_of_nil.
Qed.

Lemma sec_range_ino l : loc_ok l -> sec v ino l <> NONE -> 0 <= sec v ino l < bit_cnt fm.
Proof using Hv Ht. intros. by eapply sec_in_range. Qed.

Lemma released_skip ls v' fm' l :
  released ls v' fm' -> sec v ino l = NONE -> released (l :: ls) v' fm'.
Proof using Hv.
  intros [H1 H2 H3 H4 H5 H6 H7 H8 H9 H10] Hn. split; try done.
  - intros x Hx. rewrite H4 by done. split; intros [Hb Hl]; (split; [done|]).
    + intros l' [->|Hin]%elem_of_cons; [|by apply Hl]. rewrite Hn.
      pose proof (wf_cnt _ (vo_wf _ _ Hv)). unfold NONE. lia.
    + intros l' Hin. apply Hl. by right.
  - intros l' [->|Hin]%elem_of_cons; [done|]. by apply H10.
Qed.

Section facts.
Context (ls : list loc) (v' : gmap Z (list Z)) (fm' : bitmap) (Hrl : released ls v' fm').

Lemma released_same : same_file v v' ino.
Proof using Hrl Hv Ht Hdisj.
  eapply same_file_intro; [done|apply Hrl|apply Ht|]. intros l Hl Hn.
  apply Hrl; [by apply sec_range_ino|]. intros l' Hl'. by apply Hdisj.
Qed.

Lemma released_view : view_ok v' fm.
Proof using Hrl Hv.
  split; [apply Hv| |apply Hrl]. intros x. rewrite (vo_dom _ _ (rl_view _ _ _ Hrl)).
  by rewrite (rl_cnt _ _ _ Hrl).
Qed.

Lemma released_tree : tree_wf v' fm ino.
Proof using Hrl Hv Ht Hdisj.
  eapply same_file_tree; [apply released_same|done|]. intros l Hl Hn.
  by apply (tw_sec _ _ _ Ht).
Qed.

Lemma released_fmap_ok : fmap_ok v' fm'.
Proof using Hrl Hfo.
  destruct Hfo as [H1 H2 H3]. assert (Hms : map_size fm' = map_size fm)
    by (unfold map_size; by rewrite (rl_size _ _ _ Hrl)).
  split; rewrite ?Hms, ?(rl_len _ _ _ Hrl); [done..|]. intros m Hm.
  rewrite (rl_sec _ _ _ Hrl); [by apply H3|].
  eapply elem_of_blocks; [| |done]; lia.
Qed.

Lemma released_marked l :
  loc_ok l -> sec v ino l <> NONE -> (forall l', l' ∈ ls -> loc_ok l') -> l ∉ ls ->
  bit fm' (sec v ino l) = true.
Proof using Hrl Hv Ht.
  intros Hl Hn Hls Hnot. apply (rl_bit _ _ _ Hrl); [by apply sec_range_ino|].
  split; [by apply (tw_sec _ _ _ Ht)|]. intros l' Hl' E. apply Hnot.
  replace l with l'; [done|]. apply (tw_inj _ _ _ Ht); auto. congruence.
Qed.
End facts.

(** The blocks held meanwhile are blocks of the file, and not yet freed. *)
Record pins_in (P : gmap nat pin) (ls : list loc) : Prop := {
  pi_loc : forall i p, P !! i = Some p -> exists l, loc_ok l /\ (l ∉ ls) /\
    pin_sector p = sec v ino l /\ sec v ino l <> NONE;
  pi_size : (size P <= 60)%nat;
}.

Lemma release_step P ls c v1 fm1 l (Q : unit -> fs C -> Prop) :
  released ls v1 fm1 -> (forall l', l' ∈ ls -> loc_ok l') -> loc_ok l -> l ∉ ls ->
  sec v ino l <> NONE -> pins_in P (l :: ls) -> bc_rep c v1 P ->
  (forall c' v2 fm2, bc_rep c' v2 P -> released (l :: ls) v2 fm2 -> Q tt (upd c' fm2 s)) ->
  wp (free_map_release (sec v ino l) 1) Q (upd c fm1 s).
Proof using Hopen Hv Ht Htm Hfo Hdisj.
  intros Hrl Hls Hl Hnot Hn [Hpl Hps] Hrep HQ.
  pose proof (sec_range_ino l Hl Hn) as Hr. pose proof (rl_cnt _ _ _ Hrl) as Hcnt.
  eapply free_map_release_spec; try done.
  - apply Hrl.
  - apply Hrl.
  - split; [..|done].
    + intros i p Hi. destruct (Hpl i p Hi) as (l0 & Hl0 & Hnot0 & -> & Hn0). rewrite Hcnt.
      split; [by apply sec_range_ino|].
      apply (released_marked _ _ _ Hrl); [done..|]. intros Hin. apply Hnot0. by right.
    + intros i p l' Hi Hl'. destruct (Hpl i p Hi) as (l0 & Hl0 & Hnot0 & -> & Hn0).
      rewrite (rl_sec _ _ _ Hrl) by done. by apply Hdisj.
  - by eapply released_fmap_ok.
  - by rewrite Hcnt.
  - by eapply released_marked.
  - intros l' Hl'. rewrite (rl_sec _ _ _ Hrl) by done. by apply Hdisj.
  - intros i p Hi E. destruct (Hpl i p Hi) as (l0 & Hl0 & Hnot0 & E0 & Hn0). apply Hnot0.
    rewrite E0 in E. replace l0 with l; [left|]. symmetry. by apply (tw_inj _ _ _ Ht).
  - intros c' fm2 v2 Hrep2 [Hwf2 Hcnt2 Hlen2 Hbit2] Hwr. apply (HQ c' v2 fm2); [done|].
    assert (Hv1 : view_ok v1 fm2).
    { split; [done| |apply Hrl]. intros x. rewrite Hcnt2. apply (rl_view _ _ _ Hrl). }
    assert (Ht1 : tree_wf v1 fm2 FREE_MAP_SECTOR).
    { pose proof (rl_map _ _ _ Hrl) as Htm1. split; [|apply Htm1|apply Htm1]. intros l' Hl' Hn'.
      destruct (tw_sec _ _ _ Htm1 l' Hl' Hn') as [Hs Hb]. split; [done|].
      rewrite Hbit2, Hb by (by apply (vo_dom _ _ (rl_view _ _ _ Hrl))). cbn.
      apply negb_true_iff, Z.eqb_neq. rewrite (rl_sec _ _ _ Hrl) by done. by apply Hdisj. }
    pose proof (wrote_same_tree _ _ _ _ _ _ _ Hv1 Ht1 Hwr) as Hsame.
    split.
    + apply Hwr.
    + congruence.
    + rewrite Hlen2. apply Hrl.
    + intros x Hx. rewrite Hbit2, andb_true_iff, (rl_bit _ _ _ Hrl), negb_true_iff, Z.eqb_neq
        by (done || by rewrite Hcnt).
      split.
      * intros [[Hb Hl'] Hne]. split; [done|]. intros l' [->|Hin]%elem_of_cons; [done|by apply Hl'].
      * intros [Hb Hl']. split; [split; [done|]|].
        -- intros l' Hin. apply Hl'. by right.
        -- intros ->. by apply (Hl' l); [left|].
    + apply Hwr.
    + intros l' Hl'. rewrite Hsame by done. by apply Hrl.
    + rewrite (wr_length _ _ _ _ _ _ _ _ Hwr). apply Hrl.
    + rewrite (wr_meta _ _ _ _ _ _ _ _ Hwr) by lia. apply Hrl.
    + intros x Hx Hnt. rewrite (wr_outside _ _ _ _ _ _ _ _ Hwr).
      * by apply Hrl.
      * by rewrite Hcnt2, Hcnt.
      * intros l' Hl'. rewrite Hsame, (rl_sec _ _ _ Hrl) by done. by apply Hnt.
    + intros _ _ _ j b Hj. rewrite <- (wr_bytes _ _ _ _ _ _ _ _ Hwr j b Hj). done.
Qed.

(** The data sectors, up to the end of the file. *)
Fixpoint data_locs (n : nat) : list loc :=
  match n with
  | O => []
  | S n => LData n :: data_locs n
  end.

Lemma elem_of_data_locs n l : l ∈ data_locs n <-> exists m, (m < n)%nat /\ l = LData m.
Proof using Type.
  induction n as [|n IH]; cbn [data_locs].
  - split; [by intros ?%not_elem_of_nil|]. intros (m & Hm & _). lia.
  - rewrite elem_of_cons, IH. split.
    + intros [->|(m & Hm & ->)]; [exists n|exists m]; split; (lia || done).
    + intros (m & Hm & ->). destruct (decide (m = n)) as [->|]; [by left|].
      right. exists m. split; [lia|done].
Qed.

Definition nsectors : nat := Z.to_nat ((file_length v ino + 511) / 512).

Context (ptr : nat) (i : inode) (Hi : inodes s !! ptr = Some i) (Hsec : i_sector i = ino).
Context (Hlen : 0 <= file_length v ino <= 512 * Z.of_nat MAX_SECTORS).

Lemma nsectors_spec j :
  (512 * Z.of_nat j < file_length v ino <-> (j < nsectors)%nat) /\ (nsectors <= MAX_SECTORS)%nat.
Proof using Hlen.
  unfold nsectors. pose proof (Z.div_mod (file_length v ino + 511) 512 ltac:(lia)).
  pose proof (Z.mod_pos_bound (file_length v ino + 511) 512 ltac:(lia)).
  assert (0 <= (file_length v ino + 511) / 512) by (apply Z.div_pos; lia). lia.
Qed.

Lemma release_data_loop_spec fuel : forall j c v1 fm1 (Q : unit -> fs C -> Prop),
  released (data_locs j) v1 fm1 -> bc_rep c v1 ∅ -> (j <= nsectors)%nat ->
  (nsectors - j <= fuel)%nat ->
  (forall c' v2 fm2, bc_rep c' v2 ∅ -> released (data_locs nsectors) v2 fm2 ->
     Q tt (upd c' fm2 s)) ->
  wp (release_data_loop fuel ptr (512 * Z.of_nat j)) Q (upd c fm1 s).
Proof using Hopen Hv Ht Htm Hfo Hdisj Hi Hsec Hlen.
  induction fuel as [|fuel IH]; intros j c v1 fm1 Q Hrl Hrep Hj Hfuel HQ;
    cbn [release_data_loop]; wp_steps;
    (eapply inode_length_spec; [done|done|by eapply released_view|by eapply released_tree|
       apply pins_ok_empty|done|]);
    intros c1 Hrep1;
    rewrite (same_file_length v v1) by (by eapply released_same);
    destruct (nsectors_spec j) as [Hns Hmax].
  - rewrite ltb_false by lia. wp_steps. replace j with nsectors in * by lia. by eapply HQ.
  - destruct (Z.ltb_spec (512 * Z.of_nat j) (file_length v ino)) as [Hlt|Hge].
    2:{ wp_steps. replace j with nsectors in * by lia. by eapply HQ. }
    wp_steps. eapply byte_to_sector_found; [done|done|done|by eapply released_view|
      by eapply released_tree|apply pins_ok_empty|lia|done|]. intros c2 Hrep2.
    assert (Hjl : loc_ok (LData j)) by (unfold loc_ok; lia).
    replace (512 * Z.of_nat j / 512) with (Z.of_nat j) by (rewrite Z.mul_comm, Z.div_mul; lia).
    rewrite ltb_true by lia. rewrite Nat2Z.id.
    rewrite (proj1 (released_same _ _ _ Hrl (LData j) Hjl)).
    assert (Hnext : forall c' v2 fm2, bc_rep c' v2 ∅ -> released (data_locs (S j)) v2 fm2 ->
              wp (release_data_loop fuel ptr (512 * Z.of_nat j + BLOCK_SECTOR_SIZE)) Q (upd c' fm2 s)).
    { intros c' v2 fm2 Hrep' Hrl'. replace (512 * Z.of_nat j + BLOCK_SECTOR_SIZE)
        with (512 * Z.of_nat (S j)) by (unfold BLOCK_SECTOR_SIZE; lia).
      apply (IH (S j) c' v2 fm2); try done; lia. }
    wp_steps. destruct (decide (sec v ino (LData j) = NONE)) as [E|E].
    + rewrite E. change (s32 NONE =? -1) with true. cbn [negb]. wp_steps.
      apply (Hnext c2 v1 fm1 Hrep2). by apply released_skip.
    + pose proof (sec_range_ino _ Hjl E) as Hr.
      pose proof (valid_sector _ fm (vo_wf _ _ Hv) Hr) as [-> _]%orb_false_iff. cbn [negb].
      eapply release_step; try done.
      * intros l' (m & Hm & ->)%elem_of_data_locs. unfold loc_ok. lia.
      * intros (m & Hm & [= <-])%elem_of_data_locs. lia.
      * split; [|by rewrite map_size_empty; lia]. intros ? ? Hp. by rewrite lookup_empty in Hp.
Qed.

(** The indirect blocks below the doubly indirect one. *)
Fixpoint below_locs (n : nat) : list loc :=
  match n with
  | O => []
  | S n => LDblInd n :: below_locs n
  end.

Lemma elem_of_below_locs n l : l ∈ below_locs n <-> exists m, (m < n)%nat /\ l = LDblInd m.
Proof using Type.
  induction n as [|n IH]; cbn [below_locs].
  - split; [by intros ?%not_elem_of_nil|]. intros (m & Hm & _). lia.
  - rewrite elem_of_cons, IH. split.
    + intros [->|(m & Hm & ->)]; [exists n|exists m]; split; (lia || done).
    + intros (m & Hm & ->). destruct (decide (m = n)) as [->|]; [by left|].
      right. exists m. split; [lia|done].
Qed.

Lemma release_table_loop_spec P ls tbl n : forall j c v1 fm1 (Q : unit -> fs C -> Prop),
  (j + n = 128)%nat -> v !! sec v ino LDbl = Some tbl ->
  (forall l, l ∈ ls -> loc_ok l /\ forall k, l <> LDblInd k) ->
  (forall k, pins_in P (below_locs k ++ ls)) ->
  released (below_locs j ++ ls) v1 fm1 -> bc_rep c v1 P ->
  (forall c' v2 fm2, bc_rep c' v2 P -> released (below_locs 128 ++ ls) v2 fm2 ->
     Q tt (upd c' fm2 s)) ->
  wp (release_table_loop n (Z.of_nat j) tbl) Q (upd c fm1 s).
Proof using Hopen Hv Ht Htm Hfo Hdisj.
  induction n as [|n IH]; intros j c v1 fm1 Q Hj Htbl Hls Hpins Hrl Hrep HQ;
    cbn [release_table_loop].
  { wp_steps. replace j with 128%nat in * by lia. by eapply HQ. }
  wp_steps. apply wp_lift. unfold table_get, NUM_INDIRECT. rewrite leb_true, ltb_true by lia.
  cbn [andb wpr]. rewrite Nat2Z.id. wp_steps.
  assert (Hw : sec v ino (LDblInd j) = word tbl j).
  { rewrite (sec_parent v ino (LDblInd j) LDbl j eq_refl). unfold child. by rewrite Htbl. }
  rewrite <- Hw.
  assert (Hnext : forall c' v2 fm2, bc_rep c' v2 P -> released (below_locs (S j) ++ ls) v2 fm2 ->
            wp (release_table_loop n (Z.of_nat j + 1) tbl) Q (upd c' fm2 s)).
  { intros c' v2 fm2 Hrep' Hrl'. replace (Z.of_nat j + 1) with (Z.of_nat (S j)) by lia.
    apply (IH (S j) c' v2 fm2); try done. lia. }
  destruct (decide (sec v ino (LDblInd j) = NONE)) as [E|E].
  - rewrite E. change (s32 NONE =? -1) with true. cbn [negb]. wp_steps.
    apply (Hnext c v1 fm1 Hrep). cbn [below_locs app]. by apply released_skip.
  - assert (Hjl : loc_ok (LDblInd j)) by (unfold loc_ok; lia).
    pose proof (sec_range_ino _ Hjl E) as Hr.
    pose proof (valid_sector _ fm (vo_wf _ _ Hv) Hr) as [-> _]%orb_false_iff. cbn [negb].
    eapply release_step; try done.
    + intros l' [(m & Hm & ->)%elem_of_below_locs|Hl']%elem_of_app; [unfold loc_ok; lia|].
      by apply Hls.
    + intros [(m & Hm & [= <-])%elem_of_below_locs|Hl']%elem_of_app; [lia|].
      destruct (Hls _ Hl') as [_ Hk]. by apply (Hk j).
    + apply (Hpins (S j)).
Qed.

(** Every sector of the file has been freed. *)
Definition all_released (v' : gmap Z (list Z)) (fm' : bitmap) : Prop :=
  exists ls, released ls v' fm' /\ (forall l, l ∈ ls -> loc_ok l) /\ LInode ∈ ls /\
    forall l, loc_ok l -> sec v ino l <> NONE -> l ∈ ls.

Lemma released_inode ls v' fm' d : released ls v' fm' -> v !! ino = Some d -> v' !! ino = Some d.
Proof using Hv Ht Hdisj.
  intros Hrl Hd. rewrite <- Hd. apply (released_same _ _ _ Hrl LInode I).
Qed.

Lemma pins_in_inode b d ls :
  LInode ∉ ls -> pins_in (<[b := mkPin ino true (Some d) false]> ∅) ls.
Proof using Ht.
  intros Hls. split.
  - intros j p [[_ <-]|[_ Hp]]%lookup_insert_Some; [|by rewrite lookup_empty in Hp].
    exists LInode. repeat split; try done. apply Ht.
  - rewrite map_size_insert_None, map_size_empty by done. lia.
Qed.

(** The doubly indirect block and those below it. *)
Lemma release_double_spec b d c ls v1 fm1 :
  v !! ino = Some d -> bc_rep c v1 (<[b := mkPin ino true (Some d) false]> ∅) ->
  released ls v1 fm1 ->
  (forall l, l ∈ ls -> loc_ok l /\ l <> LInode /\ l <> LDbl /\ forall k, l <> LDblInd k) ->
  LInd ∈ ls ->
  (forall m, (m < MAX_SECTORS)%nat -> sec v ino (LData m) <> NONE -> LData m ∈ ls) ->
  wp (if negb (s32 (disk_double_indirect d) =? -1) then
        let! double_indirect_block := cachef (bc_get (disk_double_indirect d) true) in
        let! double_indirect_table := cachef (bc_read double_indirect_block) in
        release_table_loop (Z.to_nat NUM_INDIRECT) 0 double_indirect_table;;;
        cachef (bc_put double_indirect_block);;;
        free_map_release (disk_double_indirect d) 1
      else ret tt)
    (fun _ s' => exists c' v' fm' ls', s' = upd c' fm' s /\
       bc_rep c' v' (<[b := mkPin ino true (Some d) false]> ∅) /\
       released ls' v' fm' /\ (forall l, l ∈ ls' -> loc_ok l /\ l <> LInode) /\
       forall l, loc_ok l -> sec v ino l <> NONE -> l <> LInode -> l ∈ ls') (upd c fm1 s).
Proof using Hopen Hv Ht Htm Hfo Hdisj.
  intros Hd Hrep Hrl Hls Hind Hdata.
  assert (Hdbl : sec v ino LDbl = disk_double_indirect d) by (cbn; unfold child; by rewrite Hd).
  rewrite <- Hdbl. destruct (decide (sec v ino LDbl = NONE)) as [E|E].
  - rewrite E. change (s32 NONE =? -1) with true. cbn [negb]. wp_steps.
    exists c, v1, fm1, ls. split; [done|]. split; [done|]. split; [done|]. split.
    + intros l Hl. by destruct (Hls l Hl) as (? & ? & _).
    + intros l Hl Hn Hne. destruct l as [| | |k|m]; try done; [|by apply Hdata].
      destruct Hn. rewrite (sec_parent v ino (LDblInd k) LDbl k eq_refl), E.
      unfold child. by rewrite (view_NONE _ _ Hv).
  - pose proof (valid_sector _ fm (vo_wf _ _ Hv) (sec_range_ino LDbl I E)) as [-> _]%orb_false_iff.
    cbn [negb]. destruct (tw_sec _ _ _ Ht LDbl I E) as [[tbl Htbl] _].
    assert (Hkeep : forall ls' v' fm', released ls' v' fm' -> v' !! sec v ino LDbl = Some tbl).
    { intros ls' v' fm' Hrl'. rewrite <- Htbl. apply (released_same _ _ _ Hrl' LDbl I). }
    assert (Hnoi : forall k, LInode ∉ below_locs k ++ ls).
    { intros k [(m & _ & ?)%elem_of_below_locs|Hl]%elem_of_app; [done|].
      by destruct (Hls _ Hl) as (_ & ? & _). }
    wp_steps. apply wp_cachef_upd. eapply wp_bc_get; [done| | |].
    { intros j p [[_ <-]|[_ Hp]]%lookup_insert_Some; [|by rewrite lookup_empty in Hp]. cbn.
      intros E'. assert (LInode = LDbl); [|done]. apply (tw_inj _ _ _ Ht); [done..|apply Ht]. }
    { rewrite map_size_insert_None, map_size_empty by done. lia. }
    intros b2 c2 Hb2 Hrep2. wp_steps. apply wp_cachef_upd. eapply wp_bc_read; [done|by eapply Hkeep|].
    intros c3 Hrep3. wp_steps. change 0 with (Z.of_nat 0).
    eapply (release_table_loop_spec _ ls tbl (Z.to_nat NUM_INDIRECT) 0); try done.
    + intros l Hl. by destruct (Hls l Hl) as (? & _ & _ & ?).
    + intros k. split.
      * intros j p [[_ <-]|[_ Hp]]%lookup_insert_Some.
        { exists LDbl. repeat split; try done.
          intros [(m & _ & ?)%elem_of_below_locs|Hl]%elem_of_app; [done|].
          by destruct (Hls _ Hl) as (_ & _ & ? & _). }
        exact (pi_loc _ _ (pins_in_inode b d _ (Hnoi k)) j p Hp).
      * rewrite map_size_insert_None, map_size_insert_None, map_size_empty by done. lia.
    + intros c4 v4 fm4 Hrep4 Hrl4. wp_steps. apply wp_cachef_upd.
      eapply wp_bc_put_clean; [done|done|by eapply Hkeep|]. intros c5 Hrep5.
      eapply release_step; try done.
      * intros l' [(m & Hm & ->)%elem_of_below_locs|Hl']%elem_of_app; [unfold loc_ok; lia|].
        by destruct (Hls _ Hl').
      * intros [(m & _ & ?)%elem_of_below_locs|Hl]%elem_of_app; [done|].
        by destruct (Hls _ Hl) as (_ & _ & ? & _).
      * apply pins_in_inode. intros [?|Hin]%elem_of_cons; [done|]. by apply (Hnoi 128%nat).
      * intros c6 v6 fm6 Hrep6 Hrl6. exists c6, v6, fm6, (LDbl :: below_locs 128 ++ ls).
        split; [done|]. split; [done|]. split; [done|]. split.
        -- intros l [->|[(m & Hm & ->)%elem_of_below_locs|Hl]%elem_of_app]%elem_of_cons; [done|done|].
           by destruct (Hls _ Hl) as (? & ? & _).
        -- intros l Hl Hn Hne. destruct l as [| | |k|m]; [done| |by left| |].
           ++ right. apply elem_of_app. by right.
           ++ right. apply elem_of_app. left. apply elem_of_below_locs. by exists k.
           ++ right. apply elem_of_app. right. by apply Hdata.
Qed.

Lemma release_blocks_spec c (Q : unit -> fs C -> Prop) :
  (forall m, (m < MAX_SECTORS)%nat -> sec v ino (LData m) <> NONE ->
     512 * Z.of_nat m < file_length v ino) ->
  bc_rep c v ∅ ->
  (forall c' v2 fm2, bc_rep c' v2 ∅ -> all_released v2 fm2 -> Q tt (upd c' fm2 s)) ->
  wp (release_blocks ptr ino) Q (upd c fm s).
Proof using Hopen Hv Ht Htm Hfo Hdisj Hi Hsec Hlen.
  intros Htight Hrep HQ. unfold release_blocks. wp_steps.
  assert (Hcr : (MAX_SECTORS <= close_rounds)%nat).
  { unfold MAX_SECTORS, close_rounds. apply Z2Nat.inj_le; lia. }
  replace 0 with (512 * Z.of_nat 0) at 2 by lia.
  destruct (nsectors_spec 0) as [_ Hmax].
  apply (release_data_loop_spec _ 0 c v fm); [apply released_nil|done|lia|lia|].
  intros c1 v1 fm1 Hrep1 Hrl1. wp_steps.
  set (ls1 := data_locs nsectors) in *.
  destruct (inode_present ino fm v Hv Ht) as (d & Hd & Hok).
  pose proof (released_inode _ _ _ d Hrl1 Hd) as Hd1.
  apply wp_cachef_upd. eapply wp_bc_get; [done|done|by rewrite map_size_empty; lia|].
  intros b c2 Hb Hrep2. wp_steps. apply wp_cachef_upd. eapply wp_bc_read; [done..|].
  intros c3 Hrep3. wp_steps.
  set (P1 := <[b := mkPin ino true (Some d) false]> ∅) in *.
  assert (Hls1 : forall l, l ∈ ls1 -> exists m, l = LData m /\ loc_ok l).
  { intros l (m & Hm & ->)%elem_of_data_locs. exists m. split; [done|]. unfold loc_ok. lia. }
  apply (wp_mono _ (fun _ s' => exists c' v' fm', s' = upd c' fm' s /\ bc_rep c' v' P1 /\
                       released (LInd :: ls1) v' fm')).
  { assert (Hind : sec v ino LInd = disk_indirect d) by (cbn; unfold child; by rewrite Hd).
    rewrite <- Hind. destruct (decide (sec v ino LInd = NONE)) as [E|E].
    - rewrite E. cbn [negb]. change (s32 NONE =? -1) with true. cbn [negb]. wp_steps.
      exists c3, v1, fm1. split; [done|]. split; [done|]. by apply released_skip.
    - pose proof (valid_sector _ fm (vo_wf _ _ Hv) (sec_range_ino LInd I E)) as [-> _]%orb_false_iff.
      cbn [negb]. eapply release_step; try done.
      + intros l Hl. destruct (Hls1 l Hl) as (m & _ & ?). done.
      + intros Hl. by destruct (Hls1 _ Hl) as (m & ? & _).
      + apply pins_in_inode. intros [?|Hl]%elem_of_cons; [done|].
        by destruct (Hls1 _ Hl) as (m & ? & _).
      + eauto 10. }
  intros [] s' (c4 & v4 & fm4 & -> & Hrep4 & Hrl4). wp_steps.
  apply (wp_mono _ (fun _ s' => exists c' v' fm' ls, s' = upd c' fm' s /\ bc_rep c' v' P1 /\
    released ls v' fm' /\ (forall l, l ∈ ls -> loc_ok l /\ l <> LInode) /\
    forall l, loc_ok l -> sec v ino l <> NONE -> l <> LInode -> l ∈ ls)).
  { eapply (release_double_spec b d); try done.
    - intros l [->|Hl]%elem_of_cons; [done|]. by destruct (Hls1 _ Hl) as (m & -> & ?).
    - left.
    - intros m Hm Hn. right. apply elem_of_data_locs. exists m. split; [|done].
      apply (nsectors_spec m). by apply Htight. }
  intros [] s' (c5 & v5 & fm5 & ls5 & -> & Hrep5 & Hrl5 & Hls5 & Hall5). wp_steps.
  apply wp_cachef_upd. eapply wp_bc_put_clean; [done..|by eapply released_inode|].
  intros c6 Hrep6. change ino with (sec v ino LInode) at 1. eapply release_step; try done.
  - intros l Hl. by destruct (Hls5 l Hl).
  - intros Hl. by destruct (Hls5 _ Hl).
  - apply Ht.
  - split; [|by rewrite map_size_empty; lia]. intros ? ? Hp. by rewrite lookup_empty in Hp.
  - intros c7 v7 fm7 Hrep7 Hrl7. apply (HQ c7 v7 fm7); [done|]. exists (LInode :: ls5).
    split; [done|]. split; [|split; [left|]].
    + intros l [->|Hl]%elem_of_cons; [done|]. by destruct (Hls5 l Hl).
    + intros l Hl Hn. destruct (decide (l = LInode)) as [->|Hne]; [left|]. right. by apply Hall5.
Qed.
End deleting.

(** The disk without the file is consistent. *)
Lemma released_disk_ok R v fm F ino v' fm' :
  disk_ok R v fm F -> ino ∈ F -> FREE_MAP_SECTOR ∈ F -> ino <> FREE_MAP_SECTOR ->
  all_released v fm ino v' fm' ->
  disk_ok R v' fm' (F ∖ {[ino]}) /\
  (forall ino', ino' ∈ F -> ino' <> ino -> ino' <> FREE_MAP_SECTOR -> same_file v v' ino').
Proof.
  intros Hok Hi H0 Hne (ls & Hrl & Hls & Hin & Hall). pose proof (dk_view _ _ _ Hok) as Hv.
  pose proof (rl_cnt _ _ _ _ _ _ Hrl) as Hcnt.
  assert (Hother : forall ino', ino' ∈ F -> ino' <> FREE_MAP_SECTOR -> same_file v v' ino').
  { intros ino' Hi' Hne'. eapply same_file_intro; [done|apply Hrl|by apply (dk_tree _ _ _ Hok)|].
    intros l Hl Hn. apply Hrl.
    - eapply sec_in_range; [done|by apply (dk_tree _ _ _ Hok)|done..].
    - intros l' Hl' E. apply Hne'. symmetry. apply (dk_disj _ _ _ Hok _ _ l' l); try done.
      by rewrite E. }
  assert (Hsec : forall ino' l, ino' ∈ F -> loc_ok l -> sec v' ino' l = sec v ino' l).
  { intros ino' l Hi' Hl. destruct (decide (ino' = FREE_MAP_SECTOR)) as [->|Hne'];
      [by apply Hrl|by apply Hother]. }
  assert (Hlen : forall ino', ino' ∈ F -> file_length v' ino' = file_length v ino').
  { intros ino' Hi'. destruct (decide (ino' = FREE_MAP_SECTOR)) as [->|Hne'];
      [by apply Hrl|by apply same_file_length, Hother]. }
  split; [|by intros; apply Hother].
  split.
  - apply Hrl.
  - intros ino' [Hi' Hn']%elem_of_difference. rewrite elem_of_singleton in Hn'.
    destruct (decide (ino' = FREE_MAP_SECTOR)) as [->|Hne']; [apply Hrl|].
    pose proof (dk_tree _ _ _ Hok ino' Hi') as Ht.
    eapply same_file_tree; [by apply Hother|done|]. intros l Hl Hn.
    apply (rl_bit _ _ _ _ _ _ Hrl); [by eapply sec_in_range|]. split; [by apply (tw_sec _ _ _ Ht)|].
    intros l' Hl' E. apply Hn'. symmetry. apply (dk_disj _ _ _ Hok ino ino' l' l); auto. by rewrite E.
  - intros i1 i2 l1 l2 [H1 _]%elem_of_difference [H2 _]%elem_of_difference Hl1 Hl2.
    rewrite !Hsec by done. by apply (dk_disj _ _ _ Hok).
  - intros s. rewrite Hcnt. intros Hs [Hb Hns]%(rl_bit _ _ _ _ _ _ Hrl); [|done].
    destruct (dk_used _ _ _ Hok s Hs Hb) as [?|(ino' & l & Hi' & Hl & E)]; [by left|].
    right. exists ino', l.
    rewrite Hsec by done. split; [|done]. apply elem_of_difference. split; [done|].
    rewrite elem_of_singleton. intros ->. apply (Hns l); [|done]. apply Hall; [done|].
    rewrite E. pose proof (wf_cnt _ (vo_wf _ _ Hv)). unfold NONE. lia.
  - intros s Hs. destruct (dk_res _ _ _ Hok s Hs) as (Hr & Hb & Hno). rewrite Hcnt.
    split; [done|]. split.
    + apply (rl_bit _ _ _ _ _ _ Hrl); [done|]. split; [done|]. intros l Hl. by apply Hno, Hls.
    + intros ino' l [Hi' _]%elem_of_difference Hl. rewrite Hsec by done. by apply Hno.
  - intros ino' m [Hi' _]%elem_of_difference Hm. rewrite Hlen, Hsec by done.
    by apply (dk_tight _ _ _ Hok).
  - intros ino' [Hi' _]%elem_of_difference. rewrite Hlen by done. by apply (dk_length _ _ _ Hok).
Qed.

(** The free map on disk is the one in memory. *)
Lemma all_released_fmap v fm ino v' fm' :
  fmap_ok v fm -> ino <> NONE -> all_released v fm ino v' fm' ->
  fmap_ok v' fm' /\ fmap_stored v' fm' /\ child v' FREE_MAP_SECTOR 1 = child v FREE_MAP_SECTOR 1.
Proof.
  intros Hfo Hn (ls & Hrl & _ & Hin & _). split; [by eapply released_fmap_ok|].
  split; [by apply (rl_stored _ _ _ _ _ _ Hrl LInode)|apply Hrl].
Qed.
