(* ===== verification/InodeOps.v ===== *)
(** Opening, closing, creating and removing inodes
    (src/src/filesys/inode.c): the table of open inodes, and what the
    operations do to the disk. *)
From S2P Require Import Prelude Words Bitmap Monitor Pipe Block Cache CacheSpec CacheClient.
From S2P Require Import Fs Inode InodeTree InodeLookup InodeIO FsInv Release.
From stdpp Require Import options.

#[local] Arguments Nat.div : simpl never.
#[local] Arguments Nat.modulo : simpl never.
#[local] Arguments Z.div : simpl never.
#[local] Arguments Z.modulo : simpl never.

(** The table of open inodes: one object for each sector in use, each
    counted, none pending on a lock. *)
Record table_ok {C} (s : fs C) (F : gset Z) : Prop := {
  to_lock : open_inodes_lock s = false;
  to_dom : forall p, p ∈ open_inodes s <-> is_Some (inodes s !! p);
  to_inode : forall p i, inodes s !! p = Some i ->
    i_sector i ∈ F /\ 0 < i_open_cnt i /\ 0 <= i_deny_write_cnt i <= i_open_cnt i;
  to_uniq : forall p p' i i', inodes s !! p = Some i -> inodes s !! p' = Some i' ->
    i_sector i = i_sector i' -> p = p';
  to_next : forall p, is_Some (inodes s !! p) -> (p < fs_next s)%nat;
}.

Definition reopened (i : inode) : inode :=
  mkInode (i_sector i) (i_open_cnt i + 1) (i_removed i) (i_deny_write_cnt i) (i_dir_lock i).

Definition closed (i : inode) : inode :=
  mkInode (i_sector i) (i_open_cnt i - 1) (i_removed i) (i_deny_write_cnt i) (i_dir_lock i).

Definition removed (i : inode) : inode :=
  mkInode (i_sector i) (i_open_cnt i) true (i_deny_write_cnt i) (i_dir_lock i).

(** The state with an inode object more, and with one less. *)
Definition with_inode {C} (sector : Z) (l : list bool) (s : fs C) : fs C :=
  set_inodes (<[fs_next s := mkInode sector 1 false 0 false]> (inodes s))
    (set_open_inodes (fs_next s :: open_inodes s) (set_heap l (S (fs_next s)) s)).

Definition without_inode {C} (p : nat) (s : fs C) : fs C :=
  set_inodes (delete p (inodes s)) (set_open_inodes (list_drop p (open_inodes s)) s).

Lemma elem_of_list_drop i j l : i ∈ list_drop j l <-> i <> j /\ i ∈ l.
Proof. unfold list_drop. by rewrite list_elem_of_filter. Qed.

Section table.
Context {C : Type}.
Implicit Types (s : fs C) (F : gset Z).

(** An inode object changes, but not its sector. *)
Lemma table_update s F p i i' :
  table_ok s F -> inodes s !! p = Some i -> i_sector i' = i_sector i ->
  0 < i_open_cnt i' -> 0 <= i_deny_write_cnt i' <= i_open_cnt i' ->
  table_ok (set_inodes (<[p := i']> (inodes s)) s) F.
Proof.
  intros [Hlk Hdom Hin Huq Hnx] Hp Hs Ho Hd.
  assert (Hi : forall q j, <[p := i']> (inodes s) !! q = Some j ->
            exists j0, inodes s !! q = Some j0 /\ i_sector j = i_sector j0).
  { intros q j [[<- <-]|[_ Hj]]%lookup_insert_Some; eauto. }
  split; cbn; [done| | | |].
  - intros q. rewrite Hdom, lookup_insert_is_Some'. naive_solver.
  - intros q j [[<- <-]|[_ Hj]]%lookup_insert_Some; [|by apply (Hin q)].
    rewrite Hs. split; [by apply (Hin p i)|]. by split.
  - intros q q' j j' (j0 & Hj & E)%Hi (j0' & Hj' & E')%Hi Es. eapply Huq; [done..|]. congruence.
  - intros q [j (j0 & Hj & _)%Hi]. by apply Hnx.
Qed.

Lemma table_insert s F sector l :
  table_ok s F -> sector ∈ F -> (forall p i, inodes s !! p = Some i -> i_sector i <> sector) ->
  table_ok (with_inode sector l s) F.
Proof.
  intros [Hlk Hdom Hin Huq Hnx] HF Hnew. split; cbn; [done| | | |].
  - intros q. rewrite elem_of_cons, Hdom, lookup_insert_is_Some'. naive_solver.
  - intros q j [[<- <-]|[_ Hj]]%lookup_insert_Some; [|by apply (Hin q)]. cbn. split; [done|lia].
  - intros q q' j j' [[<- <-]|[_ Hj]]%lookup_insert_Some [[<- <-]|[_ Hj']]%lookup_insert_Some Es;
      cbn in Es; [done| | |by eapply Huq].
    + by destruct (Hnew q' j').
    + by destruct (Hnew q j).
  - intros q [->|Hq%Hnx]%lookup_insert_is_Some'; lia.
Qed.

Lemma table_delete s F F' p i :
  table_ok s F -> inodes s !! p = Some i -> F ∖ {[i_sector i]} ⊆ F' ->
  table_ok (without_inode p s) F'.
Proof.
  intros [Hlk Hdom Hin Huq Hnx] Hp HF. split; cbn; [done| | | |].
  - intros q. rewrite elem_of_list_drop, Hdom, lookup_delete_is_Some. naive_solver.
  - intros q j [Hne Hj]%lookup_delete_Some. destruct (Hin q j Hj) as [HqF ?]. split; [|done].
    apply HF, elem_of_difference. split; [done|]. rewrite elem_of_singleton. intros E.
    apply Hne. by eapply Huq.
  - intros q q' j j' [_ Hj]%lookup_delete_Some [_ Hj']%lookup_delete_Some. by eapply Huq.
  - intros q [_ Hq]%lookup_delete_is_Some. by apply Hnx.
Qed.

Lemma table_mono s F F' : table_ok s F -> F ⊆ F' -> table_ok s F'.
Proof.
  intros [Hlk Hdom Hin Huq Hnx] HF. split; [done..| |done|done].
  intros p i Hp. destruct (Hin p i Hp) as [? ?]. split; [by apply HF|done].
Qed.

(** Only the parts of the state that the table is in matter. *)
Lemma table_same s s' F :
  open_inodes_lock s' = open_inodes_lock s -> open_inodes s' = open_inodes s ->
  inodes s' = inodes s -> (fs_next s <= fs_next s')%nat -> table_ok s F -> table_ok s' F.
Proof.
  intros E1 E2 E3 E4 [Hlk Hdom Hin Huq Hnx]. split; rewrite ?E1, ?E2, ?E3; try done.
  intros p Hp%Hnx. lia.
Qed.

(** Opening and closing again leaves the table as it was. *)
Lemma with_without s F sector l :
  table_ok s F -> without_inode (fs_next s) (with_inode sector l s) = set_heap l (S (fs_next s)) s.
Proof.
  intros [Hlk Hdom Hin Huq Hnx].
  assert (Hn : inodes s !! fs_next s = None).
  { apply eq_None_not_Some. intros Hp%Hnx. lia. }
  unfold without_inode, with_inode. cbn. rewrite delete_insert_id by done.
  replace (list_drop (fs_next s) (fs_next s :: open_inodes s)) with (open_inodes s).
  { by destruct s. }
  unfold list_drop. rewrite filter_cons_False by (intros Hx; by apply Hx). symmetry.
  apply list_drop_notin. intros Hp%Hdom%Hnx. lia.
Qed.
End table.

Section ops.
Context {C : Type} `{BufferCacheSpec C}.
Implicit Types (s : fs C) (F : gset Z) (c : C) (fm : bitmap).

(** * inode_open, inode_reopen *)

Lemma find_open_spec s sector l (Q : option nat -> fs C -> Prop) :
  (forall p, p ∈ l -> is_Some (inodes s !! p)) ->
  (forall p i, p ∈ l -> inodes s !! p = Some i -> i_sector i = sector -> Q (Some p) s) ->
  ((forall p i, p ∈ l -> inodes s !! p = Some i -> i_sector i <> sector) -> Q None s) ->
  wp (find_open l sector) Q s.
Proof using Type.
  induction l as [|p l IH]; intros Hl HQ1 HQ2; cbn [find_open].
  { wp_steps. apply HQ2. by intros p i ?%not_elem_of_nil. }
  destruct (Hl p) as [i Hi]; [left|]. apply wp_bind. eapply wp_get_inode; [done|].
  destruct (Z.eqb_spec (i_sector i) sector) as [E|E].
  { wp_steps. eapply HQ1; [left|done..]. }
  apply IH.
  - intros q Hq. apply Hl. by right.
  - intros q j Hq. apply HQ1. by right.
  - intros Hn. apply HQ2. intros q j [->|Hq]%elem_of_cons Hj; [congruence|by eapply Hn].
Qed.

Lemma wp_lock_open_inodes s (Q : unit -> fs C -> Prop) :
  open_inodes_lock s = false -> Q tt (set_open_inodes_lock true s) -> wp lock_open_inodes Q s.
Proof using Type. intros Hl HQ. unfold lock_open_inodes. wp_steps. rewrite Hl. by wp_steps. Qed.

Lemma wp_unlock_open_inodes s (Q : unit -> fs C -> Prop) :
  open_inodes_lock s = true -> Q tt (set_open_inodes_lock false s) -> wp unlock_open_inodes Q s.
Proof using Type. intros Hl HQ. unfold unlock_open_inodes. wp_steps. rewrite Hl. by wp_steps. Qed.

Lemma set_lock_id s : open_inodes_lock s = false ->
  set_open_inodes_lock false (set_open_inodes_lock true s) = s.
Proof using Type. destruct s; cbn. by intros ->. Qed.

Lemma wp_malloc s (Q : option nat -> fs C -> Prop) :
  (forall l, fs_mem s = true :: l -> Q (Some (fs_next s)) (set_heap l (S (fs_next s)) s)) ->
  (forall l, head (fs_mem s) <> Some true -> l = tail (fs_mem s) -> Q None (set_heap l (fs_next s) s)) ->
  wp malloc Q s.
Proof using Type.
  intros HQ1 HQ2. unfold malloc. wp_steps. destruct (fs_mem s) as [|[] l] eqn:E; wp_steps.
  - assert (Hs : set_heap [] (fs_next s) s = s) by (destruct s; cbn in *; by subst).
    rewrite <- Hs. by apply HQ2.
  - by apply HQ1.
  - by apply HQ2.
Qed.

Lemma inode_open_spec s F c fm v sector (Q : option nat -> fs C -> Prop) :
  table_ok s F -> bc_rep c v ∅ -> is_Some (v !! sector) ->
  (forall p i, inodes s !! p = Some i -> i_sector i = sector ->
     Q (Some p) (upd c fm (set_inodes (<[p := reopened i]> (inodes s)) s))) ->
  ((forall p i, inodes s !! p = Some i -> i_sector i <> sector) ->
   (forall c' l, bc_rep c' v ∅ -> fs_mem s = true :: l ->
      Q (Some (fs_next s)) (upd c' fm (with_inode sector l s))) /\
   (forall l, head (fs_mem s) <> Some true -> Q None (upd c fm (set_heap l (fs_next s) s)))) ->
  wp (inode_open sector) Q (upd c fm s).
Proof using Type.
  intros Ht Hrep [d Hd] HQ1 HQ2. pose proof (to_lock _ _ Ht) as Hlk.
  unfold inode_open. apply wp_bind, wp_lock_open_inodes; [done|]. wp_steps.
  apply find_open_spec.
  - intros p Hp. by apply (to_dom _ _ Ht).
  - intros p i Hp Hi E. wp_steps. unfold inode_reopen. wp_steps. eapply wp_get_inode; [done|].
    unfold put_inode. wp_steps. apply wp_unlock_open_inodes; [done|]. wp_steps.
    pose proof (HQ1 p i Hi E) as HQ. revert HQ. destruct s; cbn in *. by subst.
  - intros Hn. wp_steps. apply wp_unlock_open_inodes; [done|].
    rewrite set_lock_id by done. wp_steps.
    assert (Hn' : forall p i, inodes s !! p = Some i -> i_sector i <> sector).
    { intros p i Hi. eapply Hn; [|done]. apply (to_dom _ _ Ht). by exists i. }
    destruct (HQ2 Hn') as [HQ3 HQ4]. apply wp_malloc.
    + intros l Hl. wp_steps. apply wp_lock_open_inodes; [done|]. wp_steps.
      apply wp_unlock_open_inodes; [done|]. unfold put_inode. wp_steps.
      match goal with |- wp _ _ ?x => replace x with (upd c fm (with_inode sector l s)) end.
      2:{ destruct s; cbn in *. by subst. }
      apply wp_cachef_upd. eapply wp_bc_get; [done| | |].
      { intros j p Hj. by rewrite lookup_empty in Hj. }
      { rewrite map_size_empty. lia. }
      intros b c1 Hb Hrep1. wp_steps. apply wp_cachef_upd. eapply wp_bc_read; [done..|].
      intros c2 Hrep2. wp_steps. apply wp_cachef_upd. eapply wp_bc_put_clean; [done..|].
      intros c3 Hrep3. wp_steps. by apply HQ3.
    + intros l Hh _. wp_steps. exact (HQ4 l Hh).
Qed.

(** * inode_close *)

Lemma inode_close_more s c fm p i (Q : unit -> fs C -> Prop) :
  inodes s !! p = Some i -> 1 < i_open_cnt i ->
  Q tt (upd c fm (set_inodes (<[p := closed i]> (inodes s)) s)) ->
  wp (inode_close (Some p)) Q (upd c fm s).
Proof using Type.
  intros Hi Hc HQ. unfold inode_close. apply wp_bind. eapply wp_get_inode; [done|].
  unfold put_inode. wp_steps. rewrite eqb_false by lia. by wp_steps.
Qed.

Lemma inode_close_last s F c fm p i (Q : unit -> fs C -> Prop) :
  table_ok s F -> inodes s !! p = Some i -> i_open_cnt i = 1 -> i_removed i = false ->
  Q tt (upd c fm (without_inode p s)) ->
  wp (inode_close (Some p)) Q (upd c fm s).
Proof using Type.
  intros Ht Hi Hc Hr HQ. unfold inode_close. apply wp_bind. eapply wp_get_inode; [done|].
  unfold put_inode. wp_steps. rewrite Hc, Hr. change (1 - 1 =? 0) with true. cbn match. wp_steps.
  apply wp_lock_open_inodes; [by apply Ht|]. wp_steps.
  apply wp_unlock_open_inodes; [done|]. wp_steps.
  pose proof (to_lock _ _ Ht). revert HQ. unfold without_inode. cbn.
  rewrite delete_insert_eq. by destruct s; cbn in *; subst.
Qed.

Lemma inode_close_removed s R F c fm v p i (Q : unit -> fs C -> Prop) :
  table_ok s F -> bc_rep c v ∅ -> disk_ok R v fm F -> FREE_MAP_SECTOR ∈ F ->
  fmap_open s -> fmap_ok v fm ->
  inodes s !! p = Some i -> i_open_cnt i = 1 -> i_removed i = true ->
  i_sector i <> FREE_MAP_SECTOR ->
  (forall c' v' fm', bc_rep c' v' ∅ -> all_released v fm (i_sector i) v' fm' ->
     Q tt (upd c' fm' (without_inode p s))) ->
  wp (inode_close (Some p)) Q (upd c fm s).
Proof using Type.
  intros Ht Hrep Hok H0F Hop Hfo Hi Hc Hr Hne HQ.
  destruct (to_inode _ _ Ht p i Hi) as [HiF _].
  unfold inode_close. apply wp_bind. eapply wp_get_inode; [done|].
  unfold put_inode. wp_steps. rewrite Hc, Hr. change (1 - 1 =? 0) with true. cbn match. wp_steps.
  apply wp_lock_open_inodes; [by apply Ht|]. wp_steps.
  apply wp_unlock_open_inodes; [done|]. wp_steps.
  set (s1 := set_inodes (<[p := mkInode (i_sector i) 0 true (i_deny_write_cnt i) (i_dir_lock i)]>
               (inodes s)) (set_open_inodes (list_drop p (open_inodes s)) s)).
  match goal with |- wp _ _ ?x => replace x with (upd c fm s1) end.
  2:{ pose proof (to_lock _ _ Ht). destruct s; cbn in *. by subst. }
  assert (Hop1 : fmap_open s1).
  { destruct Hop as (f & fl & q & j & Hf & Hfl & Hq & Hj & Hjs & Hjd). exists f, fl, q, j.
    split; [done|]. split; [done|]. split; [done|]. split; [|done]. cbn.
    rewrite lookup_insert_ne; [done|]. intros <-. congruence. }
  assert (Hdj : forall l l', loc_ok l -> loc_ok l' -> sec v (i_sector i) l <> NONE ->
            sec v FREE_MAP_SECTOR l' <> sec v (i_sector i) l).
  { intros l l' Hl Hl' Hn E. apply Hne. symmetry. apply (dk_disj _ _ _ Hok _ _ l' l); [done..|].
    by rewrite E. }
  eapply (release_blocks_spec s1 Hop1 v fm (i_sector i) (dk_view _ _ _ Hok)
            (dk_tree _ _ _ Hok _ HiF) (dk_tree _ _ _ Hok _ H0F) Hfo Hdj p _
            (lookup_insert_eq _ _ _) eq_refl (dk_length _ _ _ Hok _ HiF)); [|done|].
  - intros m Hm Hn. by apply (dk_tight _ _ _ Hok).
  - intros c' v' fm' Hrep' Hall. wp_steps.
    pose proof (HQ c' v' fm' Hrep' Hall) as HQ'. revert HQ'. unfold s1, without_inode. cbn.
    by rewrite delete_insert_eq.
Qed.

(** * inode_create *)

(** The disk [v'], [fm'] has a new file in the sector [x]. *)
Record created (v : gmap Z (list Z)) (R F : gset Z) (x len is_dir : Z)
    (v' : gmap Z (list Z)) (fm' : bitmap) : Prop := {
  cr_disk : disk_ok (R ∖ {[x]}) v' fm' ({[x]} ∪ F);
  cr_length : file_length v' x = len;
  cr_is_dir : child v' x 1 = u32 is_dir;
  cr_last : 0 < len -> file_byte v' x (len - 1) = 0;
  cr_data : forall m, (m < MAX_SECTORS)%nat ->
    (sec v' x (LData m) <> NONE <-> 0 < len /\ m = Z.to_nat ((len - 1) / 512));
  cr_other : forall ino, ino ∈ F -> same_file v v' ino;
}.

Lemma fresh_not_file R v fm F x : disk_ok R v fm F -> x ∈ R -> x ∉ F.
Proof using Type. intros Hok Hal Hx. by apply (fresh_sector v fm F R x Hok Hal x LInode). Qed.

Lemma new_disk_inode_is_dir len is_dir : word (new_disk_inode zero_sector len is_dir) 1 = u32 is_dir.
Proof using Type.
  unfold new_disk_inode, set_disk_is_dir. apply word_set_eq; [|apply u32_range].
  unfold set_disk_length, set_double_indirect, set_indirect.
  rewrite !length_set_word, length_fill_words. unfold zero_sector. rewrite length_replicate. lia.
Qed.

(** ... before the write that gives a file of length [len] its end. *)
Lemma created_sector R v fm F x len is_dir :
  disk_ok R v fm F -> x ∈ R -> 0 <= len <= 512 * Z.of_nat MAX_SECTORS ->
  let v' := <[x := new_disk_inode zero_sector len is_dir]> v in
  disk_ok (R ∖ {[x]}) v' fm ({[x]} ∪ F) /\ file_length v' x = len /\ child v' x 1 = u32 is_dir /\
  (forall m, (m < MAX_SECTORS)%nat -> sec v' x (LData m) = NONE) /\
  (forall ino, ino ∈ F -> same_file v v' ino).
Proof using Type.
  intros Hok Hal Hlen v'.
  assert (Hd : empty_inode len (new_disk_inode zero_sector len is_dir)).
  { apply new_disk_inode_empty. rewrite max_sectors in Hlen. lia. }
  split; [by eapply created_disk_ok|]. split; [|split; [|split]].
  - unfold file_length, v'. rewrite lookup_insert_eq. apply Hd.
  - unfold child, v'. rewrite lookup_insert_eq. apply new_disk_inode_is_dir.
  - intros m Hm. by eapply (created_empty v fm F R x len).
  - intros ino Hi. by eapply created_other.
Qed.

Lemma same_file_trans v v1 v2 ino :
  same_file v v1 ino -> same_file v1 v2 ino -> same_file v v2 ino.
Proof using Type.
  intros H1 H2 l Hl. destruct (H1 l Hl) as [E1 E2], (H2 l Hl) as [E3 E4].
  rewrite E1 in *. by rewrite E3, E4.
Qed.

Lemma created_written R v F x fm len is_dir v' fm' :
  disk_ok R v fm F -> x ∈ R -> 0 < len <= 512 * Z.of_nat MAX_SECTORS ->
  wrote x (<[x := new_disk_inode zero_sector len is_dir]> v) fm v' fm' (len - 1) [0] len ->
  created v R F x len is_dir v' fm'.
Proof using Type.
  intros Hok Hal Hlen Hwr.
  destruct (created_sector R v fm F x len is_dir Hok Hal ltac:(lia)) as (Hok1 & Hl1 & Hd1 & Hm1 & Ho1).
  set (v1 := <[x := _]> v) in *.
  assert (Hx : x ∈ {[x]} ∪ F) by set_solver.
  assert (Hwr' : wrote x v1 fm v' fm' (len - 1) [0] (Z.max (file_length v1 x) (len - 1 + Z.of_nat 1))).
  { rewrite Hl1. replace (Z.max len (len - 1 + Z.of_nat 1)) with len by lia. done. }
  split.
  - apply (wrote_disk_ok v1 fm _ x Hok1 Hx v' fm' (len - 1) [0]); [lia|cbn; lia|exact Hwr'].
  - apply Hwr.
  - by rewrite (wr_meta _ _ _ _ _ _ _ _ Hwr) by lia.
  - intros _. rewrite <- (wr_bytes _ _ _ _ _ _ _ _ Hwr 0%nat 0 eq_refl). f_equal. lia.
  - intros m Hm. split.
    + intros Hn. split; [lia|]. destruct (decide (m = Z.to_nat ((len - 1) / 512))) as [|Hne]; [done|].
      destruct Hn. apply (wr_holes _ _ _ _ _ _ _ _ Hwr); [done|by apply Hm1|]. cbn.
      intros k Hk. by replace k with (len - 1) by lia.
    + intros [_ ->]. apply (wr_present _ _ _ _ _ _ _ _ Hwr). cbn. lia.
  - intros ino Hi. eapply same_file_trans; [by apply Ho1|].
    apply (wrote_other v1 fm _ x Hok1 Hx v' fm' (len - 1) [0] Hwr'); [set_solver|]. intros ->.
    by apply (fresh_not_file _ _ _ _ _ Hok Hal).
Qed.

(** A new inode in the reserved sector [x]; a length other than 0 gives
    it its last sector. *)
(** Without memory for the inode, [inode_create] removes an inode that it
    does not have. *)
Lemma inode_create_no_memory s R F c fm v x len is_dir : table_ok s F -> bc_rep c v ∅ -> disk_ok R v fm F -> x ∈ R ->
  0 < len <= 512 * Z.of_nat MAX_SECTORS -> head (fs_mem s) <> Some true -> inode_create x len is_dir (upd c fm s) = Err Panic.
Proof using Type.
  intros Ht Hrep Hok Hal Hlen Hmem. assert (Hx : is_Some (v !! x)) by (apply (vo_dom _ _ (dk_view _ _ _ Hok)), (dk_res _ _ _ Hok x Hal)).
  unfold inode_create. apply err_bind, wp_ASSERT; [apply leb_true; lia|]. apply err_bind, wp_cachef_upd. eapply wp_bc_get; [done| | |].
  { intros j p Hj. by rewrite lookup_empty in Hj. }
  { rewrite map_size_empty. lia. }
  intros b c1 Hb Hrep1. apply err_bind, wp_cachef_upd. eapply wp_bc_zero; [done..|]. intros c2 Hrep2. apply err_bind, wp_cachef_upd.
  eapply wp_bc_store; [done|apply new_disk_inode_empty; rewrite max_sectors in Hlen; lia|]. intros c3 Hrep3.
  apply err_bind, wp_cachef_upd. eapply wp_bc_put_dirty; [done..|]. intros c4 Hrep4. rewrite (ltb_true 0 len) by lia.
  apply err_bind. eapply (inode_open_spec s F); [done|done|by rewrite lookup_insert_eq| |].
  - intros p i Hp E. exfalso. apply (fresh_not_file _ _ _ _ _ Hok Hal). rewrite <- E. by apply (to_inode _ _ Ht p).
  - intros _. split; [|done]. intros c5 l _ E. by rewrite E in Hmem.
Qed.

Lemma inode_create_spec s R F c fm v x len is_dir (Q : bool -> fs C -> Prop) :
  table_ok s F -> bc_rep c v ∅ -> disk_ok R v fm F -> x ∈ R ->
  0 <= len <= 512 * Z.of_nat MAX_SECTORS -> (3 <= nfree fm)%nat ->
  (0 < len -> head (fs_mem s) = Some true) ->
  (forall c' v' fm' l n, bc_rep c' v' ∅ -> created v R F x len is_dir v' fm' ->
     bit_cnt fm' = bit_cnt fm -> (nfree fm <= nfree fm' + 3)%nat ->
     (len = 0 -> fm' = fm /\ l = fs_mem s /\ n = fs_next s) ->
     (0 < len -> fs_mem s = true :: l /\ n = S (fs_next s)) ->
     Q true (upd c' fm' (set_heap l n s))) ->
  wp (inode_create x len is_dir) Q (upd c fm s).
Proof using Type.
  intros Ht Hrep Hok Hal Hlen Hfree Hmem HQ.
  assert (Hx : is_Some (v !! x)) by (apply (vo_dom _ _ (dk_view _ _ _ Hok)), (dk_res _ _ _ Hok x Hal)).
  pose proof (created_sector R v fm F x len is_dir Hok Hal Hlen) as Hcs.
  unfold inode_create. apply wp_bind, wp_ASSERT; [apply leb_true; lia|]. apply wp_bind, wp_cachef_upd.
  eapply wp_bc_get; [done| | |].
  { intros j p Hj. by rewrite lookup_empty in Hj. }
  { rewrite map_size_empty. lia. }
  intros b c1 Hb Hrep1. wp_steps. apply wp_cachef_upd. eapply wp_bc_zero; [done..|].
  intros c2 Hrep2. wp_steps. apply wp_cachef_upd.
  eapply wp_bc_store; [done|apply new_disk_inode_empty; rewrite max_sectors in Hlen; lia|].
  intros c3 Hrep3. wp_steps.
  apply wp_cachef_upd. eapply wp_bc_put_dirty; [done..|]. intros c4 Hrep4.
  cbn zeta in Hcs. set (v1 := <[x := _]> v) in *. destruct Hcs as (Hok1 & Hl1 & Hd1 & Hm1 & Ho1).
  destruct (Z.ltb_spec 0 len) as [Hpos|Hz]; wp_steps.
  2:{ replace (upd c4 fm s) with (upd c4 fm (set_heap (fs_mem s) (fs_next s) s)) by by destruct s.
      apply (HQ c4 v1); try done; [|lia|lia]. split; try done.
      - lia.
      - intros m Hm. rewrite (Hm1 m Hm). split; [done|lia]. }
  specialize (Hmem Hpos). destruct (fs_mem s) as [|bm l] eqn:El; [done|]. injection Hmem as ->.
  assert (Hnew : forall p i, inodes s !! p = Some i -> i_sector i <> x).
  { intros p i Hp <-. apply (fresh_not_file _ _ _ _ _ Hok Hal). by apply (to_inode _ _ Ht p). }
  assert (HxF : x ∈ {[x]} ∪ F) by set_solver.
  eapply (inode_open_spec s F); [done|done| | |].
  { unfold v1. rewrite lookup_insert_eq. done. }
  { intros p i Hp E. by destruct (Hnew p i Hp). }
  intros _. split; [|by rewrite El]. intros c5 l' Hrep5 E. rewrite El in E. injection E as <-.
  wp_steps. pose proof (lookup_insert_eq (inodes s) (fs_next s) (mkInode x 1 false 0 false)) as Hi.
  eapply (inode_write_at_spec (with_inode x l s)); [exact Hi|done|done|done|apply Hok1| | | | | | | |].
  - by apply (dk_tree _ _ _ Hok1).
  - apply pins_ok_empty.
  - repeat constructor; lia.
  - lia.
  - cbn. lia.
  - lia.
  - unfold missing. etrans; [|exact Hfree]. apply (Nat.mul_le_mono_l _ 1).
    etrans; [apply length_filter|]. unfold blocks. cbn [Z.leb Z.compare].
    rewrite length_seq. replace (len - 1 + 1 - 1) with (len - 1) by lia. lia.
  - intros c6 fm6 v6 Hrep6 Hwr Hfr _. cbn [i_sector] in Hwr, Hfr.
    rewrite Hl1 in Hwr. cbn [take] in Hwr.
    replace (Z.max len (len - 1 + 1)) with len in Hwr by lia. wp_steps. cbn [Z.eqb negb].
    change (Pos.eqb 1 1) with true. cbn [negb]. wp_steps.
    eapply (inode_close_last (with_inode x l s) ({[x]} ∪ F)); [| exact Hi | done | done |].
    { apply table_insert; [eapply table_mono; [done|set_solver]|done|done]. }
    rewrite (with_without s F) by done. wp_steps. apply (HQ c6 v6); try done.
    + apply (created_written _ _ _ _ _ _ _ _ _ Hok Hal); [lia|exact Hwr].
    + apply Hwr.
    + unfold missing in Hfr. etrans; [exact Hfr|]. apply Nat.add_le_mono_l.
      apply (Nat.mul_le_mono_l _ 1). etrans; [apply length_filter|]. unfold blocks.
      cbn [Z.leb Z.compare]. rewrite length_seq. replace (len - 1 + 1 - 1) with (len - 1) by lia. lia.
    + lia.
Qed.
End ops.
