(* ===== verification/Directory.v ===== *)
(** Directories (src/src/filesys/directory.c): files of entries of 20
    bytes. A directory without holes is a finite map from names to
    sectors; looking up, adding and removing names is proved to act on
    that map. *)
From S2P Require Import Prelude Words CString Bitmap Monitor Pipe Block Cache CacheSpec CacheClient.
From S2P Require Import Fs Inode InodeTree InodeLookup InodeIO FsInv Release InodeOps.
From stdpp Require Import options.

#[local] Arguments Nat.div : simpl never.
#[local] Arguments Nat.modulo : simpl never.
#[local] Arguments Z.div : simpl never.
#[local] Arguments Z.modulo : simpl never.

Definition NAME_MAX : Z := 14.
Definition ENAME : Z := 126.

(** struct dir_entry as bytes: the word [inode_sector], the 15
    characters of [name], the byte [in_use]. *)
Definition ENTRY_SIZE : Z := 20.
Definition inode_sector (e : list Z) : Z := word e 0.
Definition in_use (e : list Z) : bool := negb (byte_at e 19 =? 0).
Definition set_in_use (b : bool) (e : list Z) : list Z := <[19%nat := if b then 1 else 0]> e.
Definition set_inode_sector (s : Z) (e : list Z) : list Z := set_word e 0 s.

(** A string argument and an entry in one address space: the addresses
    of the string, of the entry, and of its name. *)
Definition entry_memory (name e : list Z) : list Z := 0 :: name ++ 0 :: e.
Definition name_addr : nat := 1.
Definition entry_addr (name : list Z) : nat := length name + 2.
Definition entry_name_addr (name : list Z) : nat := entry_addr name + 4.

(** [strcmp (name, e.name)] *)
Definition name_cmp (name e : list Z) : res Z :=
  CString.strcmp (entry_memory name e) name_addr (entry_name_addr name).

(** [strcmp (e.name, name)] *)
Definition cmp_name (e name : list Z) : res Z :=
  CString.strcmp (entry_memory name e) (entry_name_addr name) name_addr.

(** [strlcpy (e.name, name, sizeof e.name)] *)
Definition set_name (name e : list Z) : res (list Z) :=
  let* (m, _) := CString.strlcpy (entry_memory name e) (entry_name_addr name) name_addr 15 in
  Ok (drop (entry_addr name) m).

(** [strlcpy (name, e.name, NAME_MAX + 1)], into the caller's buffer *)
Definition get_name (e name : list Z) : res (list Z) :=
  let* (m, _) := CString.strlcpy (0 :: e ++ name) (length e + 1) 5 15 in
  Ok (drop (length e + 1) m).

Definition dot : list Z := [46].
Definition dotdot : list Z := [46; 46].

(** An entry that is in use and neither "." nor "..". *)
Definition is_child (e : list Z) : res bool :=
  if in_use e then
    let* r := cmp_name e dot in
    if negb (r =? 0) then
      let* r := cmp_name e dotdot in Ok (negb (r =? 0))
    else Ok false
  else Ok false.

Section directory.
Context {C : Type} `{BufferCache C}.
Abbreviation FS := (ST (fs C)).

Definition dir_create (sector entry_cnt : Z) : FS bool :=
  inode_create sector (s32 (u32 (entry_cnt * ENTRY_SIZE))) 1.

Definition dir_open (inode : option nat) : FS (option nat) :=
  let! dir := malloc in
  match inode, dir with
  | Some i, Some d => put_dir d (mkDir i 0);;; ret (Some d)
  | _, _ => inode_close inode;;; ret None
  end.

Definition dir_open_root : FS (option nat) :=
  let! i := inode_open ROOT_DIR_SECTOR in dir_open i.

Definition dir_reopen (dir : nat) : FS (option nat) :=
  let! d := get_dir dir in
  let! i := inode_reopen (Some (d_inode d)) in
  dir_open i.

Definition dir_close (dir : option nat) : FS unit :=
  match dir with
  | Some p =>
      let! d := get_dir p in
      inode_close (Some (d_inode d));;;
      modify (fun s => set_dirs (delete p (dirs s)) s)
  | None => ret tt
  end.

Definition dir_get_inode (dir : nat) : FS nat :=
  let! d := get_dir dir in ret (d_inode d).

(** [inode_read_at (inode, &e, sizeof e, ofs)], with [ofs] a [size_t]:
    the bytes that were read. *)
Definition read_entry (inode : nat) (ofs : Z) : FS (list Z) :=
  inode_read_at inode ENTRY_SIZE (s32 ofs).

(** [entries inode body] is the loop over the entries of a directory:
    [body] is given each entry and its offset, until it gives a result. *)
Definition entries {A : Type} (inode : nat) (body : list Z -> Z -> res (option A))
    : FS (Z + A) :=
  loop (fun ofs =>
    let! e := read_entry inode ofs in
    if Z.of_nat (length e) =? ENTRY_SIZE then
      let! r := lift (body e ofs) in
      match r with
      | Some a => ret (inr (inr a))
      | None => ret (inl (u32 (ofs + ENTRY_SIZE)))
      end
    else ret (inr (inl ofs))) 0.

(** The entry and its offset. *)
Definition lookup (dir : nat) (name : list Z) : FS (option (list Z * Z)) :=
  let! d := get_dir dir in
  let! r := entries (d_inode d) (fun e ofs =>
    if in_use e then
      let* c := name_cmp name e in
      Ok (if c =? 0 then Some (e, ofs) else None)
    else Ok None) in
  match r with
  | inr x => ret (Some x)
  | inl _ => ret None
  end.

(** The inode stored in [*inode]. *)
Definition dir_lookup (dir : option nat) (name : list Z) : FS (option nat) :=
  ASSERT (bool_decide (dir <> None));;;
  let! dir := deref dir in
  let! d := get_dir dir in
  inode_lock_acquire (d_inode d);;;
  let! r := lookup dir name in
  let! inode := match r with
                | Some (e, _) => inode_open (inode_sector e)
                | None => ret None
                end in
  inode_lock_release (d_inode d);;;
  ret inode.

(** [e0]: what the uninitialised variable [e] holds. When the loop ends
    at the end of the file, [e] is as the last reads left it. *)
Definition free_slot (inode : nat) (e0 : list Z) : FS (Z * list Z) :=
  loop (fun '(ofs, e) =>
    let! l := read_entry inode ofs in
    let e := overwrite 0 l e in
    if Z.of_nat (length l) =? ENTRY_SIZE then
      if negb (in_use e) then ret (inr (ofs, e))
      else ret (inl (u32 (ofs + ENTRY_SIZE), e))
    else ret (inr (ofs, e))) (0, e0).

Definition dir_add (dir : option nat) (name : list Z) (sector : Z) (e0 : list Z) : FS bool :=
  ASSERT (bool_decide (dir <> None));;;
  let! dir := deref dir in
  if bool_decide (name = []) || (NAME_MAX <? Z.of_nat (length name)) then
    modify (set_errno ENAME);;; ret false
  else
    let! d := get_dir dir in
    inode_lock_acquire (d_inode d);;;
    let! r := lookup dir name in
    match r with
    | Some _ => inode_lock_release (d_inode d);;; ret false
    | None =>
        let! (ofs, e) := free_slot (d_inode d) e0 in
        let e := set_in_use true e in
        let! e := lift (set_name name e) in
        let e := set_inode_sector sector e in
        let! n := inode_write_at (d_inode d) e ENTRY_SIZE (s32 ofs) in
        inode_lock_release (d_inode d);;;
        ret (n =? ENTRY_SIZE)
    end.

(** Whether a directory has no entries but "." and "..". *)
Definition is_empty (inode : nat) : FS bool :=
  let! r := entries inode (fun e _ =>
    let* c := is_child e in Ok (if c then Some tt else None)) in
  match r with
  | inr _ => ret false
  | inl _ => ret true
  end.

Definition dir_remove (dir : option nat) (name : list Z) : FS bool :=
  ASSERT (bool_decide (dir <> None));;;
  let! dir := deref dir in
  let! d := get_dir dir in
  inode_lock_acquire (d_inode d);;;
  let done inode success :=
    inode_lock_release (d_inode d);;; inode_close inode;;; ret success in
  let! r := lookup dir name in
  match r with
  | None => done None false
  | Some (e, ofs) =>
      let! inode := inode_open (inode_sector e) in
      match inode with
      | None => done None false
      | Some p =>
          let! is_dir := inode_is_dir p in
          let! empty := (if is_dir then is_empty p else ret true) in
          if negb empty then done inode false
          else
            let e := set_in_use false e in
            let! n := inode_write_at (d_inode d) e ENTRY_SIZE (s32 ofs) in
            if negb (n =? ENTRY_SIZE) then done inode false
            else inode_remove inode;;; done inode true
      end
  end.

(** Whether there is a next entry, and the buffer with its name. *)
Definition dir_readdir (dir : nat) (name : list Z) : FS (bool * list Z) :=
  loop (fun _ =>
    let! d := get_dir dir in
    let! e := inode_read_at (d_inode d) ENTRY_SIZE (d_pos d) in
    if Z.of_nat (length e) =? ENTRY_SIZE then
      put_dir dir (mkDir (d_inode d) (s32 (d_pos d + ENTRY_SIZE)));;;
      let! c := lift (is_child e) in
      if c then let! name := lift (get_name e name) in ret (inr (true, name))
      else ret (inl tt)
    else ret (inr (false, name))) tt.

End directory.

(** * Entries *)

(** The string that starts a block of bytes. *)
Fixpoint cname (l : list Z) : list Z :=
  match l with
  | [] => []
  | b :: l => if b =? 0 then [] else b :: cname l
  end.

Definition entry_name (e : list Z) : list Z := cname (take 15 (drop 4 e)).

(** Contents of an entry: one in use has a terminated name. *)
Record entry_ok (e : list Z) : Prop := {
  en_len : length e = 20%nat;
  en_bytes : Forall (fun b => 0 <= b < 2 ^ 8) e;
  en_name : in_use e = true -> 0 ∈ take 15 (drop 4 e);
}.

(** A string argument. *)
Definition name_ok (name : list Z) : Prop := Forall (fun b => 0 < b < 2 ^ 8) name.

Lemma cname_split l : 0 ∈ l -> exists r, l = cname l ++ 0 :: r.
Proof.
  induction l as [|b l IH]; cbn; [by intros ?%not_elem_of_nil|].
  intros [<-|Hl]%elem_of_cons; [by exists l|]. destruct (Z.eqb_spec b 0) as [->|Hne]; [by exists l|].
  destruct (IH Hl) as [r Hr]. exists r. cbn. by rewrite <- Hr.
Qed.

Lemma cname_app_zero s r : Forall (fun b => b <> 0) s -> cname (s ++ 0 :: r) = s.
Proof. induction 1 as [|b s Hb _ IH]; cbn; [done|]. by rewrite eqb_false, IH. Qed.

Lemma cname_nonzero l : Forall (fun b => b <> 0) (cname l).
Proof.
  induction l as [|b l IH]; cbn; [constructor|]. destruct (Z.eqb_spec b 0); by constructor.
Qed.

Lemma cname_length l : (length (cname l) <= length l)%nat.
Proof. induction l as [|b l IH]; cbn; [lia|]. destruct (b =? 0); cbn; lia. Qed.

(** A string within a memory. *)
Lemma cstr_app l s r :
  l <> [] -> Forall (fun b => 0 < b < 2 ^ 8) s -> CString.cstr (l ++ s ++ 0 :: r) (length l) s.
Proof.
  intros Hl Hs. split.
  - destruct l; [done|]. cbn. lia.
  - intros i b Hi. split; [exact (Forall_lookup_1 _ _ _ _ Hs Hi)|].
    rewrite lookup_app_r by lia. replace (length l + i - length l)%nat with i by lia.
    rewrite lookup_app_l; [done|]. by eapply lookup_lt_Some.
  - rewrite lookup_app_r by lia. rewrite lookup_app_r by lia.
    by replace (length l + length s - length l - length s)%nat with 0%nat by lia.
Qed.

Lemma name_cstr name e : name_ok name -> CString.cstr (entry_memory name e) name_addr name.
Proof. intros Hn. by apply (cstr_app [0] name e). Qed.

Lemma entry_split e :
  length e = 20%nat -> 0 ∈ take 15 (drop 4 e) ->
  exists r, e = take 4 e ++ entry_name e ++ 0 :: r.
Proof.
  intros He Hz. destruct (cname_split _ Hz) as [r Hr]. exists (r ++ drop 15 (drop 4 e)).
  unfold entry_name. rewrite <- (take_drop 4 e) at 1. f_equal.
  rewrite <- (take_drop 15 (drop 4 e)) at 1. rewrite Hr at 1. by rewrite <- app_assoc.
Qed.

Lemma entry_name_ok e : Forall (fun b => 0 <= b < 2 ^ 8) e -> name_ok (entry_name e).
Proof.
  intros He. unfold name_ok, entry_name.
  assert (Hl : Forall (fun b => 0 <= b < 2 ^ 8) (take 15 (drop 4 e)))
    by by apply Forall_take, Forall_drop.
  induction Hl as [|b l Hb _ IH]; cbn; [constructor|]. destruct (Z.eqb_spec b 0); constructor; [lia|done].
Qed.

Lemma entry_cstr name e :
  entry_ok e -> in_use e = true ->
  CString.cstr (entry_memory name e) (entry_name_addr name) (entry_name e).
Proof.
  intros [Hl Hb Hn] Hu. specialize (Hn Hu). destruct (entry_split e Hl Hn) as [r Hr].
  pose proof (entry_name_ok e Hb) as Hnm. rewrite Hr at 1. unfold entry_memory.
  pose proof (cstr_app (0 :: name ++ 0 :: take 4 e) (entry_name e) r ltac:(done) Hnm) as Hc.
  cbn [app length] in Hc. rewrite <- app_assoc in Hc. cbn [app] in Hc.
  replace (entry_name_addr name) with (S (length (name ++ 0 :: take 4 e))); [done|].
  unfold entry_name_addr, entry_addr. rewrite length_app. cbn. rewrite length_take, Hl. lia.
Qed.

Lemma name_cmp_spec name e :
  name_ok name -> entry_ok e -> in_use e = true ->
  name_cmp name e = Ok (CString.compare name (entry_name e)).
Proof.
  intros Hn He Hu. apply CString.strcmp_correct; [by apply name_cstr|by apply entry_cstr].
Qed.

Lemma is_child_spec e :
  entry_ok e -> is_child e = Ok (in_use e && bool_decide (entry_name e <> dot)
                                          && bool_decide (entry_name e <> dotdot)).
Proof.
  intros He. unfold is_child. destruct (in_use e) eqn:Hu; [|done]. cbn [andb].
  assert (Hc : forall n, name_ok n -> exists c, cmp_name e n = Ok c /\ (c =? 0) = bool_decide (entry_name e = n)).
  { intros n Hn. exists (CString.compare (entry_name e) n). split.
    - apply CString.strcmp_correct; [by apply entry_cstr|by apply name_cstr].
    - apply eq_true_iff_eq. by rewrite Z.eqb_eq, CString.compare_eq, bool_decide_eq_true. }
  destruct (Hc dot) as (c & -> & Ec); [repeat constructor; lia|]. cbn [rbind]. rewrite Ec.
  rewrite bool_decide_not. destruct (bool_decide (entry_name e = dot)); [done|]. cbn [negb andb].
  destruct (Hc dotdot) as (c' & -> & Ec'); [repeat constructor; lia|]. cbn [rbind].
  by rewrite Ec', bool_decide_not.
Qed.

(** The entry that [dir_add] writes. *)
Lemma set_name_spec name e :
  name_ok name -> (length name <= 14)%nat -> length e = 20%nat ->
  Forall (fun b => 0 <= b < 2 ^ 8) e ->
  exists e', set_name name e = Ok e' /\ length e' = 20%nat /\
    Forall (fun b => 0 <= b < 2 ^ 8) e' /\
    0 ∈ take 15 (drop 4 e') /\ entry_name e' = name /\ e' !! 19%nat = e !! 19%nat.
Proof.
  intros Hn Hlen He Hb. set (m := entry_memory name e). set (dst := entry_name_addr name).
  assert (Hm : length m = (length name + 22)%nat).
  { unfold m, entry_memory. cbn. rewrite length_app. cbn. lia. }
  assert (Hme : forall i, m !! (entry_addr name + i)%nat = e !! i).
  { intros i. unfold m, entry_memory, entry_addr. rewrite app_comm_cons.
    rewrite lookup_app_r by (cbn; lia). cbn [length].
    replace (length name + 2 + i - S (length name))%nat with (S i) by lia. done. }
  destruct (CString.strlcpy_correct m dst name_addr 15 name) as (m' & E & Hm' & Hc & Hfr).
  { by apply name_cstr. }
  { lia. }
  { split; unfold dst, entry_name_addr, entry_addr in *; lia. }
  { unfold dst, entry_name_addr, entry_addr, name_addr. lia. }
  unfold set_name. fold m dst. rewrite E. cbn [rbind]. eexists. split; [done|].
  rewrite take_ge in Hc by lia. set (e' := drop (entry_addr name) m').
  assert (He'm : forall i, e' !! i = m' !! (entry_addr name + i)%nat) by (intros; apply lookup_drop).
  assert (Hchar : forall i b, name !! i = Some b -> e' !! (4 + i)%nat = Some b).
  { intros i b Hi. rewrite He'm. destruct (CString.cs_char _ _ _ Hc i b Hi) as [_ <-]. f_equal.
    unfold dst, entry_name_addr. lia. }
  assert (Hend : e' !! (4 + length name)%nat = Some 0).
  { rewrite He'm. rewrite <- (CString.cs_end _ _ _ Hc). f_equal. unfold dst, entry_name_addr. lia. }
  assert (Hrest : forall i, (i < 4 \/ 4 + length name < i)%nat -> e' !! i = e !! i).
  { intros i Hi. rewrite He'm, Hfr, Hme; [done|]. unfold dst, entry_name_addr. lia. }
  assert (Hl' : length e' = 20%nat).
  { unfold e'. rewrite length_drop, Hm', Hm. unfold entry_addr. lia. }
  assert (Hsplit : exists r, take 15 (drop 4 e') = name ++ 0 :: r).
  { exists (drop (S (length name)) (take 15 (drop 4 e'))).
    rewrite <- (take_drop (S (length name)) (take 15 (drop 4 e'))) at 1. rewrite cons_middle, app_assoc.
    f_equal. apply list_eq_same_length with (S (length name)).
    - rewrite length_app. cbn. lia.
    - rewrite !length_take, length_drop. lia.
    - intros i x y Hi Hx Hy. rewrite lookup_take_lt, lookup_take_lt, lookup_drop in Hx by lia.
      destruct (decide (i = length name)) as [->|Hne].
      + rewrite lookup_app_r, Nat.sub_diag in Hy by lia. cbn in Hy. congruence.
      + rewrite lookup_app_l in Hy by lia. rewrite (Hchar i y Hy) in Hx. congruence. }
  split; [done|]. split; [|split; [|split]].
  - apply Forall_lookup. intros i b Hi. destruct (decide (i < 4 \/ 4 + length name < i)%nat) as [Ho|Hin].
    + rewrite Hrest in Hi by done. exact (Forall_lookup_1 _ _ _ _ Hb Hi).
    + destruct (decide (i = 4 + length name)%nat) as [->|Hne]; [rewrite Hend in Hi; injection Hi as <-; lia|].
      destruct (lookup_lt_is_Some_2 name (i - 4)) as [b' Hb']; [lia|].
      specialize (Hchar _ _ Hb'). replace (4 + (i - 4))%nat with i in Hchar by lia.
      pose proof (Forall_lookup_1 _ _ _ _ Hn Hb') as Hr. cbn in Hr. rewrite Hchar in Hi. injection Hi as <-. lia.
  - destruct Hsplit as [r ->]. set_solver.
  - unfold entry_name. destruct Hsplit as [r ->]. apply cname_app_zero.
    eapply Forall_impl; [exact Hn|]. cbn. lia.
  - apply Hrest. lia.
Qed.

(** * Directories as maps *)

(** The names of a list of entries, with their sectors. *)
Fixpoint names (es : list (list Z)) : gmap (list Z) Z :=
  match es with
  | [] => ∅
  | e :: es => if in_use e then <[entry_name e := inode_sector e]> (names es) else names es
  end.

(** No name is used twice. *)
Fixpoint unique (es : list (list Z)) : Prop :=
  match es with
  | [] => True
  | e :: es => (in_use e = true -> names es !! entry_name e = None) /\ unique es
  end.

Lemma names_in es k e :
  es !! k = Some e -> in_use e = true -> is_Some (names es !! entry_name e).
Proof.
  revert k. induction es as [|e0 es IH]; intros k Hk Hu; [by rewrite lookup_nil in Hk|].
  destruct k as [|k]; cbn in Hk; cbn [names].
  - injection Hk as ->. rewrite Hu, lookup_insert_eq. by eexists.
  - destruct (in_use e0); [|by eapply IH]. apply lookup_insert_is_Some'. right. by eapply IH.
Qed.

(** Using a free entry for a new name. *)
Lemma names_use es k e e' :
  es !! k = Some e -> in_use e = false -> in_use e' = true ->
  names es !! entry_name e' = None -> unique es ->
  names (<[k := e']> es) = <[entry_name e' := inode_sector e']> (names es) /\
  unique (<[k := e']> es).
Proof.
  revert k. induction es as [|e0 es IH]; intros k Hk Hf Hu Hn Huq; [by rewrite lookup_nil in Hk|].
  destruct k as [|k]; cbn in Hk; cbn [names unique] in *.
  - change (<[0%nat := e']> (e0 :: es)) with (e' :: es). cbn [names unique]. injection Hk as ->. rewrite Hf, Hu in *. split; [done|]. split; [done|apply Huq].
  - change (<[S k := e']> (e0 :: es)) with (e0 :: <[k := e']> es). cbn [names unique].
    destruct Huq as [Hq0 Huq]. destruct (in_use e0) eqn:Hu0.
    + apply lookup_insert_None in Hn as [Hn Hne]. destruct (IH k) as [E Hun]; [done..|].
      rewrite E. split; [by apply insert_insert_ne|]. split; [|done]. intros _.
      rewrite lookup_insert_ne by done. by apply Hq0.
    + destruct (IH k) as [E Hun]; [done..|]. split; [done|]. by split.
Qed.

Lemma names_append es e' :
  in_use e' = true -> names es !! entry_name e' = None -> unique es ->
  names (es ++ [e']) = <[entry_name e' := inode_sector e']> (names es) /\ unique (es ++ [e']).
Proof.
  intros Hu. induction es as [|e0 es IH]; intros Hn Huq; cbn [names unique app] in *.
  { rewrite Hu. split; [done|]. by split. }
  destruct Huq as [Hq0 Huq]. destruct (in_use e0) eqn:Hu0.
  - apply lookup_insert_None in Hn as [Hn Hne]. destruct (IH Hn Huq) as [E Hun].
    rewrite E. split; [by apply insert_insert_ne|]. split; [|done]. intros _.
    rewrite lookup_insert_ne by done. by apply Hq0.
  - destruct (IH Hn Huq) as [E Hun]. split; [done|]. by split.
Qed.

(** Freeing the entry of a name. *)
Lemma names_free es k e e' :
  es !! k = Some e -> in_use e = true -> in_use e' = false -> unique es ->
  names (<[k := e']> es) = delete (entry_name e) (names es) /\ unique (<[k := e']> es).
Proof.
  revert k. induction es as [|e0 es IH]; intros k Hk Hf Hu Huq; [by rewrite lookup_nil in Hk|].
  destruct k as [|k]; cbn in Hk; cbn [names unique] in *.
  - change (<[0%nat := e']> (e0 :: es)) with (e' :: es). cbn [names unique]. injection Hk as ->. rewrite Hf, Hu in *. destruct Huq as [Hq0 Huq].
    split; [|by split]. by rewrite delete_insert_id by (by apply Hq0).
  - change (<[S k := e']> (e0 :: es)) with (e0 :: <[k := e']> es). cbn [names unique].
    destruct Huq as [Hq0 Huq]. destruct (IH k) as [E Hun]; [done..|]. rewrite E.
    destruct (in_use e0) eqn:Hu0; [|split; [done|by split]].
    assert (Hne : entry_name e0 <> entry_name e).
    { intros En. destruct (names_in es k e Hk Hf) as [x Hx]. rewrite <- En in Hx.
      rewrite Hq0 in Hx by done. done. }
    split; [symmetry; by apply delete_insert_ne|]. split; [|done].
    intros _. rewrite lookup_delete_ne by done. by apply Hq0.
Qed.

(** The search for a name finds the entry the map has. *)
Fixpoint scan {A : Type} (g : nat -> list Z -> option A) (es : list (list Z)) (j : nat) : nat + A :=
  match es with
  | [] => inl j
  | e :: es => match g j e with Some a => inr a | None => scan g es (S j) end
  end.

Definition matches (name : list Z) (j : nat) (e : list Z) : option (list Z * Z) :=
  if in_use e && bool_decide (name = entry_name e) then Some (e, 20 * Z.of_nat j) else None.

Lemma scan_matches name es : forall j,
  match names es !! name with
  | None => exists n, scan (matches name) es j = inl n
  | Some s => exists k e, scan (matches name) es j = inr (e, 20 * Z.of_nat (j + k)) /\
      es !! k = Some e /\ in_use e = true /\ entry_name e = name /\ inode_sector e = s
  end.
Proof.
  induction es as [|e es IH]; intros j; cbn [names scan].
  { rewrite lookup_empty. by exists j. }
  unfold matches at 1 3. destruct (in_use e) eqn:Hu; cbn [andb].
  - destruct (decide (name = entry_name e)) as [->|Hne].
    + rewrite lookup_insert_eq, bool_decide_eq_true_2 by done. exists 0%nat, e.
      rewrite Nat.add_0_r. done.
    + rewrite lookup_insert_ne, bool_decide_eq_false_2 by done. specialize (IH (S j)).
      destruct (names es !! name) as [s|]; [|done]. destruct IH as (k & e' & E & Hr).
      exists (S k), e'. rewrite E. split; [do 3 f_equal; lia|done].
  - specialize (IH (S j)). destruct (names es !! name) as [s|]; [|done].
    destruct IH as (k & e' & E & Hr). exists (S k), e'. rewrite E. split; [do 3 f_equal; lia|done].
Qed.

(** * The directory in a file *)

Definition entry_at (v : gmap Z (list Z)) (ino : Z) (k : nat) : list Z :=
  file_bytes v ino (20 * Z.of_nat k) 20.

Definition dir_entries (v : gmap Z (list Z)) (ino : Z) : list (list Z) :=
  map (entry_at v ino) (seq 0 (Z.to_nat (file_length v ino / 20))).

(** Every position of the file has a sector. *)
Definition dense (v : gmap Z (list Z)) (ino : Z) : Prop :=
  forall m, 512 * Z.of_nat m < file_length v ino -> sec v ino (LData m) <> NONE.

Record dir_ok (v : gmap Z (list Z)) (ino : Z) : Prop := {
  do_mult : file_length v ino = 20 * (file_length v ino / 20);
  do_dense : dense v ino;
  do_entries : Forall entry_ok (dir_entries v ino);
  do_unique : unique (dir_entries v ino);
}.

Lemma file_byte_range v fm ino k : view_ok v fm -> 0 <= file_byte v ino k < 2 ^ 8.
Proof.
  intros Hv. unfold file_byte. destruct (k <? _); [|lia].
  destruct (v !! _) as [d|] eqn:Hd; [|lia]. destruct (vo_sector _ _ Hv _ _ Hd) as [_ Hb].
  destruct (nth_in_or_default (Z.to_nat (k mod 512)) d 0) as [Hin| ->]; [|lia].
  rewrite Forall_forall in Hb. apply Hb. by apply list_elem_of_In.
Qed.

Lemma file_bytes_range v fm ino ofs n :
  view_ok v fm -> Forall (fun b => 0 <= b < 2 ^ 8) (file_bytes v ino ofs n).
Proof.
  intros Hv. apply Forall_fmap, Forall_forall. intros k _. by eapply file_byte_range.
Qed.

Lemma lookup_dir_entries v ino k e :
  dir_entries v ino !! k = Some e <->
  (k < Z.to_nat (file_length v ino / 20))%nat /\ e = entry_at v ino k.
Proof.
  unfold dir_entries. rewrite list_lookup_fmap_Some. split.
  - intros (j & -> & [-> ?]%lookup_seq). done.
  - intros [Hk ->]. exists k. split; [done|]. by apply lookup_seq.
Qed.

Section dir_file.
Context {C : Type} `{BufferCacheSpec C}.
Context (s : fs C) (ptr : nat) (i : inode) (ino : Z).
Context (Hi : inodes s !! ptr = Some i) (Hsec : i_sector i = ino).
Context (v : gmap Z (list Z)) (fm : bitmap).
Context (Hv : view_ok v fm) (Ht : tree_wf v fm ino) (Hd : dir_ok v ino).
Context (Hlen : 0 <= file_length v ino <= 512 * Z.of_nat MAX_SECTORS).
Let n := Z.to_nat (file_length v ino / 20).

Lemma dir_n : file_length v ino = 20 * Z.of_nat n /\ 20 * Z.of_nat n < 2 ^ 24.
Proof using Hd Hlen.
  pose proof (do_mult _ _ Hd). rewrite max_sectors in Hlen.
  assert (0 <= file_length v ino / 20) by (apply Z.div_pos; lia). unfold n. lia.
Qed.

Lemma read_entry_spec c j (Q : list Z -> fs C -> Prop) :
  bc_rep c v ∅ -> (j <= n)%nat ->
  (forall c', bc_rep c' v ∅ ->
     Q (if decide (j < n)%nat then entry_at v ino j else []) (upd c' fm s)) ->
  wp (read_entry ptr (20 * Z.of_nat j)) Q (upd c fm s).
Proof using Hi Hsec Hv Ht Hd Hlen.
  intros Hrep Hj HQ. pose proof dir_n as [Hn Hmax]. unfold read_entry.
  rewrite s32_small by lia. eapply inode_read_at_spec; [done..|apply pins_ok_empty|done|lia|].
  intros c' Hrep'. replace (file_bytes _ _ _ _) with (if decide (j < n)%nat then entry_at v ino j else []).
  { by apply HQ. }
  rewrite Hn. case_decide.
  - unfold entry_at. f_equal. unfold ENTRY_SIZE. lia.
  - unfold file_bytes. by rewrite seqZ_nil by lia.
Qed.

Lemma dir_entries_cons j :
  (j < n)%nat -> drop j (dir_entries v ino) = entry_at v ino j :: drop (S j) (dir_entries v ino).
Proof using Type.
  intros Hj. apply drop_S. apply lookup_dir_entries. done.
Qed.

Lemma dir_entry_ok j : (j < n)%nat -> entry_ok (entry_at v ino j).
Proof using Hd.
  intros Hj. eapply Forall_lookup_1; [apply Hd|]. by apply lookup_dir_entries.
Qed.

Lemma entries_spec {A} (f : list Z -> Z -> res (option A)) g c (Q : Z + A -> fs C -> Prop) :
  (forall j, (j < n)%nat -> f (entry_at v ino j) (20 * Z.of_nat j) = Ok (g j (entry_at v ino j))) ->
  bc_rep c v ∅ ->
  (forall c', bc_rep c' v ∅ ->
     Q match scan g (dir_entries v ino) 0 with
       | inl j => inl (20 * Z.of_nat j)
       | inr a => inr a
       end (upd c' fm s)) ->
  wp (entries ptr f) Q (upd c fm s).
Proof using Hi Hsec Hv Ht Hd Hlen.
  intros Hf Hrep HQ. pose proof dir_n as [Hn Hmax].
  set (I := fun k ofs s' => exists j c', ofs = 20 * Z.of_nat j /\ (j <= n)%nat /\ k = (n - j)%nat /\
    s' = upd c' fm s /\ bc_rep c' v ∅ /\
    scan g (drop j (dir_entries v ino)) j = scan g (dir_entries v ino) 0).
  unfold entries. eapply (wp_loop _ I) with (k := n).
  - intros k ofs s' (j & c1 & -> & Hj & -> & -> & Hrep1 & Hscan). wp_steps.
    apply read_entry_spec; [done..|]. intros c2 Hrep2. case_decide as Hjn.
    + rewrite dir_entries_cons in Hscan by done. cbn [scan] in Hscan.
      rewrite (en_len _ (dir_entry_ok j Hjn)). change (Z.of_nat 20 =? ENTRY_SIZE) with true. cbn match.
      wp_steps. apply wp_lift. rewrite Hf by done. cbn [wpr].
      destruct (g j (entry_at v ino j)) as [a|]; wp_steps.
      * rewrite <- Hscan in HQ. by apply HQ.
      * exists (n - S j)%nat. split; [lia|]. exists (S j), c2.
        split; [unfold ENTRY_SIZE; rewrite u32_small; lia|]. split; [lia|]. by split.
    + cbn [length]. change (Z.of_nat 0 =? ENTRY_SIZE) with false. cbn match. wp_steps.
      rewrite drop_ge in Hscan by (unfold dir_entries; rewrite length_map, length_seq; fold n; lia).
      cbn [scan] in Hscan. rewrite <- Hscan in HQ. by apply HQ.
  - exists 0%nat, c. split; [done|]. split; [lia|]. split; [lia|]. done.
  - lia.
Qed.

(** [lookup] answers as the map does. *)
Lemma lookup_spec dir d c name (Q : option (list Z * Z) -> fs C -> Prop) :
  dirs s !! dir = Some d -> d_inode d = ptr -> name_ok name -> bc_rep c v ∅ ->
  (forall c', bc_rep c' v ∅ ->
     match names (dir_entries v ino) !! name with
     | None => Q None (upd c' fm s)
     | Some x => forall k e, dir_entries v ino !! k = Some e -> in_use e = true ->
         entry_name e = name -> inode_sector e = x -> Q (Some (e, 20 * Z.of_nat k)) (upd c' fm s)
     end) ->
  wp (lookup dir name) Q (upd c fm s).
Proof using Hi Hsec Hv Ht Hd Hlen.
  intros Hdir Hdi Hnm Hrep HQ. unfold lookup. apply wp_bind. eapply wp_get_dir; [done|].
  rewrite Hdi. wp_steps. apply (entries_spec _ (matches name)); [|done|].
  - intros j Hj. pose proof (dir_entry_ok j Hj) as He. unfold matches.
    destruct (in_use (entry_at v ino j)) eqn:Hu; [|done]. rewrite name_cmp_spec by done. cbn [rbind andb].
    f_equal. destruct (decide (name = entry_name (entry_at v ino j))) as [->|Hne].
    + rewrite bool_decide_eq_true_2 by done. by rewrite (proj2 (CString.compare_eq _ _)).
    + rewrite bool_decide_eq_false_2, eqb_false; [done| |done]. by intros ?%CString.compare_eq.
  - intros c' Hrep'. pose proof (scan_matches name (dir_entries v ino) 0) as Hsc. specialize (HQ c' Hrep').
    destruct (names (dir_entries v ino) !! name) as [x|].
    + destruct Hsc as (k & e & -> & Hk & Hu & He & Hx). wp_steps. by apply HQ.
    + destruct Hsc as [m ->]. by wp_steps.
Qed.

(** A free entry, or the end of the directory. *)
Lemma free_slot_spec e0 c (Q : Z * list Z -> fs C -> Prop) :
  length e0 = 20%nat -> Forall (fun b => 0 <= b < 2 ^ 8) e0 -> bc_rep c v ∅ ->
  (forall c' j e, bc_rep c' v ∅ -> (j <= n)%nat -> ((j < n)%nat -> in_use (entry_at v ino j) = false) ->
     length e = 20%nat -> Forall (fun b => 0 <= b < 2 ^ 8) e ->
     Q (20 * Z.of_nat j, e) (upd c' fm s)) ->
  wp (free_slot ptr e0) Q (upd c fm s).
Proof using Hi Hsec Hv Ht Hd Hlen.
  intros He0 Hb0 Hrep HQ. pose proof dir_n as [Hn Hmax].
  set (I := fun k x s' => exists j c', fst x = 20 * Z.of_nat j /\ (j <= n)%nat /\ k = (n - j)%nat /\
    s' = upd c' fm s /\ bc_rep c' v ∅ /\ length (snd x : list Z) = 20%nat /\
    Forall (fun b => 0 <= b < 2 ^ 8) (snd x)).
  unfold free_slot. eapply (wp_loop _ I) with (k := n).
  - intros k [ofs e] s' (j & c1 & E & Hj & -> & -> & Hrep1 & Hle & Hbe). cbn [fst snd] in *. subst ofs.
    wp_steps. apply read_entry_spec; [done..|]. intros c2 Hrep2. case_decide as Hjn.
    + pose proof (dir_entry_ok j Hjn) as [Hl Hb _].
      assert (Hov : overwrite 0 (entry_at v ino j) e = entry_at v ino j).
      { apply list_eq_same_length with 20%nat; [by rewrite Hl|by rewrite length_overwrite|].
        intros i0 x y Hi0 Hx Hy. rewrite lookup_overwrite, decide_True in Hx by lia.
        rewrite Nat.sub_0_r in Hx. congruence. }
      rewrite Hov, Hl. change (Z.of_nat 20 =? ENTRY_SIZE) with true. cbn match.
      destruct (in_use (entry_at v ino j)) eqn:Hu; cbn [negb]; wp_steps.
      * exists (n - S j)%nat. split; [lia|]. exists (S j), c2. cbn [fst snd].
        split; [unfold ENTRY_SIZE; rewrite u32_small; lia|]. split; [lia|]. by split.
      * by apply HQ.
    + cbn [length]. change (Z.of_nat 0 =? ENTRY_SIZE) with false. cbn match. wp_steps.
      apply HQ; [done|done|done| |].
      * by rewrite length_overwrite.
      * unfold overwrite. by apply Forall_inserts.
  - exists 0%nat, c. split; [done|]. split; [lia|]. split; [lia|]. done.
  - lia.
Qed.
End dir_file.

(** * Writing an entry *)

Section entry_written.
Context (v : gmap Z (list Z)) (fm : bitmap) (ino : Z) (v' : gmap Z (list Z)) (fm' : bitmap).
Context (j : nat) (e : list Z).
Let n := Z.to_nat (file_length v ino / 20).
Context (Hd : dir_ok v ino) (Hlen : 0 <= file_length v ino) (Hj : (j <= n)%nat).
Context (He : length e = 20%nat) (Hmax : 20 * Z.of_nat j + 20 <= 512 * Z.of_nat MAX_SECTORS).
Context (Hlmax : file_length v ino <= 512 * Z.of_nat MAX_SECTORS).
Context (Hwr : wrote ino v fm v' fm' (20 * Z.of_nat j) e
                 (Z.max (file_length v ino) (20 * Z.of_nat j + 20))).

Lemma written_n : Z.to_nat (file_length v' ino / 20) = Nat.max n (S j).
Proof using All.
  rewrite (wr_length _ _ _ _ _ _ _ _ Hwr). pose proof (do_mult _ _ Hd).
  assert (Hn : file_length v ino / 20 = Z.of_nat n).
  { unfold n. rewrite Z2Nat.id; [done|]. apply Z.div_pos; lia. }
  replace (Z.max (file_length v ino) (20 * Z.of_nat j + 20)) with (Z.of_nat (Nat.max n (S j)) * 20) by lia.
  rewrite Z.div_mul by lia. lia.
Qed.

Lemma written_new : entry_at v' ino j = e.
Proof using All.
  unfold entry_at. apply list_eq_same_length with 20%nat; [done|pose proof (length_file_bytes v' ino (20 * Z.of_nat j) 20); lia|].
  intros i x y Hi Hx Hy. rewrite lookup_file_bytes in Hx by lia.
  rewrite (wr_bytes _ _ _ _ _ _ _ _ Hwr i y Hy) in Hx. congruence.
Qed.

Lemma written_old k : (k < n)%nat -> k <> j -> entry_at v' ino k = entry_at v ino k.
Proof using All.
  intros Hk Hne. pose proof (do_mult _ _ Hd).
  assert (Hn : file_length v ino / 20 = Z.of_nat n).
  { unfold n. rewrite Z2Nat.id; [done|]. apply Z.div_pos; lia. }
  unfold entry_at, file_bytes. apply map_ext_in. intros x Hx%list_elem_of_In%elem_of_seqZ.
  apply (wr_rest _ _ _ _ _ _ _ _ Hwr); [lia|lia|].
  apply (do_dense _ _ Hd). pose proof (Z.div_mod x 512 ltac:(lia)).
  pose proof (Z.mod_pos_bound x 512 ltac:(lia)). assert (0 <= x / 512) by (apply Z.div_pos; lia). lia.
Qed.

Lemma written_entries :
  dir_entries v' ino = if decide (j < n)%nat then <[j := e]> (dir_entries v ino)
                       else dir_entries v ino ++ [e].
Proof using All.
  apply list_eq. intros k.
  assert (Hk : dir_entries v' ino !! k =
                 if decide (k < Nat.max n (S j))%nat then Some (entry_at v' ino k) else None).
  { case_decide as Hkn.
    - apply lookup_dir_entries. by rewrite written_n.
    - apply lookup_ge_None_2. unfold dir_entries. rewrite length_map, length_seq, written_n. lia. }
  assert (Hold : forall k, (k < n)%nat -> dir_entries v ino !! k = Some (entry_at v ino k))
    by (intros; by apply lookup_dir_entries).
  assert (Hln : length (dir_entries v ino) = n) by (unfold dir_entries; by rewrite length_map, length_seq).
  rewrite Hk. clear Hk. case_decide as Hkn; case_decide as Hjn.
  - destruct (decide (k = j)) as [->|Hne].
    + rewrite written_new. by rewrite list_lookup_insert_eq by lia.
    + rewrite list_lookup_insert_ne by done. rewrite Hold, written_old by (done || lia). done.
  - destruct (decide (k = j)) as [->|Hne].
    + rewrite written_new, lookup_app_r by lia. by replace (j - length (dir_entries v ino))%nat with 0%nat by lia.
    + rewrite lookup_app_l by lia. rewrite Hold, written_old by (done || lia). done.
  - rewrite lookup_ge_None_2; [done|]. rewrite length_insert. lia.
  - rewrite lookup_ge_None_2; [done|]. rewrite length_app. cbn. lia.
Qed.

Lemma written_dense : dense v' ino.
Proof using All.
  intros m Hm. rewrite (wr_length _ _ _ _ _ _ _ _ Hwr) in Hm. pose proof (do_mult _ _ Hd).
  assert (Hn : file_length v ino / 20 = Z.of_nat n).
  { unfold n. rewrite Z2Nat.id; [done|]. apply Z.div_pos; lia. }
  destruct (decide (512 * Z.of_nat m < file_length v ino)) as [Hlt|Hge].
  - pose proof (do_dense _ _ Hd m Hlt) as Hp. destruct (decide (m < MAX_SECTORS)%nat) as [Hmm|].
    + destruct (wr_sec _ _ _ _ _ _ _ _ Hwr (LData m) Hmm) as [->|[E _]]; [done|congruence].
    + lia.
  - pose proof (wr_present _ _ _ _ _ _ _ _ Hwr (512 * Z.of_nat m)) as Hp. rewrite He in Hp.
    replace (Z.to_nat (512 * Z.of_nat m / 512)) with m in Hp.
    + apply Hp. lia.
    + rewrite Z.mul_comm, Z.div_mul by lia. lia.
Qed.

Lemma written_dir_ok :
  entry_ok e -> unique (dir_entries v' ino) -> dir_ok v' ino.
Proof using All.
  intros Heo Hu. split; [| |rewrite written_entries|done].
  - pose proof written_n as Hn'. rewrite (wr_length _ _ _ _ _ _ _ _ Hwr) in *. pose proof (do_mult _ _ Hd).
    assert (Hn : file_length v ino / 20 = Z.of_nat n).
    { unfold n. rewrite Z2Nat.id; [done|]. apply Z.div_pos; lia. }
    replace (Z.max (file_length v ino) (20 * Z.of_nat j + 20)) with (Z.of_nat (Nat.max n (S j)) * 20) by lia.
    rewrite Z.div_mul by lia. lia.
  - apply written_dense.
  - case_decide.
    + apply Forall_insert; [apply Hd|done].
    + apply Forall_app. split; [apply Hd|]. by apply Forall_singleton.
Qed.
End entry_written.
