(* ===== verification/DirOps.v ===== *)
(** The operations of src/src/filesys/directory.c: [dir_lookup],
    [dir_add] and [dir_remove] act on the map of names of a directory,
    and keep the disk and the directory well-formed. *)
From S2P Require Import Prelude Words CString Bitmap Monitor Pipe Block Cache CacheSpec CacheClient.
From S2P Require Import Fs Inode InodeTree InodeLookup InodeIO FsInv Release InodeOps Directory.
From stdpp Require Import options.

#[local] Arguments Nat.div : simpl never.
#[local] Arguments Nat.modulo : simpl never.
#[local] Arguments Z.div : simpl never.
#[local] Arguments Z.modulo : simpl never.

(** The names in the directory [ino], with the sectors of their inodes. *)
Definition dir_map (v : gmap Z (list Z)) (ino : Z) : gmap (list Z) Z := names (dir_entries v ino).

(** The state with the lock of the directory taken. *)
Definition lock_dir {C} (p : nat) (i : inode) (s : fs C) : fs C :=
  set_inodes (<[p := set_dir_lock true i]> (inodes s)) s.

Section locks.
Context {C : Type}.
Implicit Types (s : fs C).

Lemma wp_lock_dir s p i (Q : unit -> fs C -> Prop) :
  inodes s !! p = Some i -> i_dir_lock i = false -> Q tt (lock_dir p i s) ->
  wp (inode_lock_acquire p) Q s.
Proof.
  intros Hi Hl HQ. unfold inode_lock_acquire. apply wp_bind. eapply wp_get_inode; [done|].
  rewrite Hl. by apply wp_modify.
Qed.

Lemma wp_unlock_dir s p i (Q : unit -> fs C -> Prop) :
  inodes s !! p = Some i -> i_dir_lock i = true ->
  Q tt (set_inodes (<[p := set_dir_lock false i]> (inodes s)) s) ->
  wp (inode_lock_release p) Q s.
Proof.
  intros Hi Hl HQ. unfold inode_lock_release. apply wp_bind. eapply wp_get_inode; [done|].
  rewrite Hl. by apply wp_modify.
Qed.

Lemma lock_dir_inode s p i : inodes (lock_dir p i s) !! p = Some (set_dir_lock true i).
Proof. apply lookup_insert_eq. Qed.

(** Releasing the lock gives the state back. *)
Lemma unlock_lock_dir s p i :
  inodes s !! p = Some i -> i_dir_lock i = false ->
  set_inodes (<[p := set_dir_lock false (set_dir_lock true i)]> (inodes (lock_dir p i s)))
    (lock_dir p i s) = s.
Proof.
  intros Hi Hl. unfold lock_dir. cbn. rewrite insert_insert_eq.
  replace (set_dir_lock false (set_dir_lock true i)) with i.
  - rewrite insert_id by done. by destruct s.
  - unfold set_dir_lock. cbn. rewrite <- Hl. by destruct i.
Qed.
End locks.

(** An entry made by [dir_add]. *)
Lemma new_entry name sector e :
  name_ok name -> (0 < length name <= 14)%nat -> 0 <= sector < 2 ^ 32 ->
  length e = 20%nat -> Forall (fun b => 0 <= b < 2 ^ 8) e ->
  exists e1, set_name name (set_in_use true e) = Ok e1 /\
    entry_ok (set_inode_sector sector e1) /\ in_use (set_inode_sector sector e1) = true /\
    entry_name (set_inode_sector sector e1) = name /\
    inode_sector (set_inode_sector sector e1) = sector.
Proof.
  intros Hn Hnl Hs He Hb.
  assert (He1 : length (set_in_use true e) = 20%nat) by (unfold set_in_use; by rewrite length_insert).
  destruct (set_name_spec name (set_in_use true e)) as (e1 & -> & Hl1 & Hb1 & Hz & Hnm & H19);
    [done|lia|done|by apply Forall_insert|].
  exists e1. split; [done|].
  assert (Hlk : forall k, (4 <= k)%nat -> set_inode_sector sector e1 !! k = e1 !! k).
  { intros k Hk. unfold set_inode_sector, set_word.
    rewrite lookup_overwrite by (rewrite Hl1; cbn; lia).
    rewrite decide_False; [done|]. cbn. lia. }
  assert (Hdrop : drop 4 (set_inode_sector sector e1) = drop 4 e1).
  { apply list_eq. intros k. rewrite !lookup_drop. apply Hlk. lia. }
  assert (Hl2 : length (set_inode_sector sector e1) = 20%nat)
    by (unfold set_inode_sector; by rewrite length_set_word).
  assert (Hu : in_use (set_inode_sector sector e1) = true).
  { unfold in_use. rewrite (byte_at_lookup _ _ 1); [done|]. rewrite Hlk, H19 by lia.
    apply list_lookup_insert_eq. lia. }
  split; [split|split; [done|split]].
  - done.
  - by apply set_word_ok.
  - intros _. by rewrite Hdrop.
  - unfold entry_name. by rewrite Hdrop.
  - unfold inode_sector, set_inode_sector. apply word_set_eq; [rewrite Hl1; lia|done].
Qed.

Lemma missing_entry v ino ofs : 0 <= ofs -> (missing v ino (blocks ofs 20) <= 2)%nat.
Proof.
  intros Ho. unfold missing. etrans; [apply length_filter|]. unfold blocks. cbn [Z.leb Z.compare].
  rewrite length_seq. pose proof (Z.div_mod ofs 512 ltac:(lia)).
  pose proof (Z.mod_pos_bound ofs 512 ltac:(lia)).
  pose proof (Z.div_mod (ofs + 20 - 1) 512 ltac:(lia)).
  pose proof (Z.mod_pos_bound (ofs + 20 - 1) 512 ltac:(lia)). lia.
Qed.

Lemma same_file_entries v v' ino : same_file v v' ino -> dir_entries v' ino = dir_entries v ino.
Proof.
  intros Hs. unfold dir_entries. rewrite (same_file_length v v' ino Hs). apply map_ext_in.
  intros k _. unfold entry_at, file_bytes. apply map_ext_in. intros x Hx%list_elem_of_In%elem_of_seqZ.
  apply same_file_byte; [done|]. lia.
Qed.

Lemma same_file_dir_ok R v fm F v' ino :
  disk_ok R v fm F -> ino ∈ F -> same_file v v' ino -> dir_ok v ino -> dir_ok v' ino.
Proof.
  intros Hok HF Hs [Hm Hde He Hu]. pose proof (dk_length _ _ _ Hok ino HF) as Hlen.
  split; rewrite ?(same_file_entries v v' ino Hs), ?(same_file_length v v' ino Hs); try done.
  intros m. rewrite (same_file_length v v' ino Hs). intros Hlt.
  destruct (Hs (LData m)) as [-> _]; [unfold loc_ok; lia|]. by apply Hde.
Qed.

Lemma same_file_fmap_ok v v' fm :
  same_file v v' FREE_MAP_SECTOR -> fmap_ok v fm -> fmap_ok v' fm.
Proof.
  intros Hs [H1 H2 H3]. split; [done| |].
  - by rewrite (same_file_length v v') by done.
  - intros m Hm. destruct (Hs (LData m)) as [-> _]; [|by apply H3]. unfold loc_ok.
    unfold blocks in Hm. destruct (Z.leb_spec (map_size fm) 0) as [|Hp]; [by apply not_elem_of_nil in Hm|].
    apply elem_of_seq in Hm. rewrite Z.add_0_l in Hm. change (0 / 512) with 0 in Hm.
    pose proof (Z.div_mod (map_size fm - 1) 512 ltac:(lia)).
    pose proof (Z.mod_pos_bound (map_size fm - 1) 512 ltac:(lia)). lia.
Qed.

Lemma same_file_child v v' ino k : same_file v v' ino -> child v' ino k = child v ino k.
Proof.
  intros Hs. destruct (Hs LInode) as [_ E]; [done|]. unfold child. cbn in E. by rewrite E.
Qed.

Section adding.
Context {R : gset Z} (v : gmap Z (list Z)) (fm : bitmap) (F : gset Z) (ino : Z).
Context (Hok : disk_ok R v fm F) (HF : ino ∈ F) (Hd : dir_ok v ino).
Let Hlen := dk_length _ _ _ Hok ino HF.

(** What [dir_add] does to the disk. *)
Record added (name : list Z) (sector : Z) (v' : gmap Z (list Z)) (fm' : bitmap) : Prop := {
  ad_disk : disk_ok R v' fm' F;
  ad_dir : dir_ok v' ino;
  ad_names : dir_map v' ino = <[name := sector]> (dir_map v ino);
  ad_flag : child v' ino 1 = child v ino 1;
  ad_length : file_length v' ino <= file_length v ino + 20;
  ad_others : forall ino', ino' ∈ F -> ino' <> ino -> same_file v v' ino';
  ad_cnt : bit_cnt fm' = bit_cnt fm;
  ad_free : (nfree fm <= nfree fm' + 6)%nat;
}.

Lemma entry_added name sector j e v' fm' :
  dir_map v ino !! name = None ->
  (j <= Z.to_nat (file_length v ino / 20))%nat ->
  ((j < Z.to_nat (file_length v ino / 20))%nat -> in_use (entry_at v ino j) = false) ->
  entry_ok e -> in_use e = true -> entry_name e = name -> inode_sector e = sector ->
  20 * Z.of_nat j + 20 <= 512 * Z.of_nat MAX_SECTORS ->
  wrote ino v fm v' fm' (20 * Z.of_nat j) e
    (Z.max (file_length v ino) (20 * Z.of_nat j + 20)) ->
  (nfree fm <= nfree fm' + 6)%nat ->
  added name sector v' fm'.
Proof using Hok HF Hd.
  intros Hnone Hj Hfree Heo Hu Hen Hes Hmax Hwr Hnf.
  pose proof (en_len _ Heo) as Hel.
  assert (Hwr' : wrote ino v fm v' fm' (20 * Z.of_nat j) e
            (Z.max (file_length v ino) (20 * Z.of_nat j + Z.of_nat (length e)))) by by rewrite Hel.
  pose proof (written_entries v fm ino v' fm' j e Hd (proj1 Hlen) Hj Hel Hmax (proj2 Hlen) Hwr) as Hes'.
  assert (Hnames : dir_map v' ino = <[name := sector]> (dir_map v ino) /\ unique (dir_entries v' ino)).
  { unfold dir_map in *. rewrite Hes'. rewrite <- Hen, <- Hes in *. case_decide as Hjn.
    - eapply names_use; [by apply lookup_dir_entries|by apply Hfree|done|done|apply Hd].
    - apply names_append; [done|done|apply Hd]. }
  destruct Hnames as [Hnames Huq]. split.
  - apply (wrote_disk_ok v fm F ino Hok HF v' fm' (20 * Z.of_nat j) e); [lia|rewrite Hel; lia|done].
  - by eapply (written_dir_ok v fm ino v' fm' j e Hd (proj1 Hlen) Hj Hel Hmax (proj2 Hlen)).
  - done.
  - apply (wr_meta _ _ _ _ _ _ _ _ Hwr). lia.
  - rewrite (wr_length _ _ _ _ _ _ _ _ Hwr). pose proof (do_mult _ _ Hd).
    assert (0 <= file_length v ino / 20) by (apply Z.div_pos; lia). lia.
  - intros ino' Hi' Hne. by apply (wrote_other v fm F ino Hok HF v' fm' (20 * Z.of_nat j) e Hwr').
  - apply Hwr.
  - done.
Qed.


(** What erasing the entry of a name does to the disk. *)
Record dropped (name : list Z) (v' : gmap Z (list Z)) : Prop := {
  dr_disk : disk_ok R v' fm F;
  dr_dir : dir_ok v' ino;
  dr_names : dir_map v' ino = delete name (dir_map v ino);
  dr_flag : child v' ino 1 = child v ino 1;
  dr_length : file_length v' ino = file_length v ino;
  dr_others : forall ino', ino' ∈ F -> ino' <> ino -> same_file v v' ino';
}.

Lemma entry_missing j :
  (j < Z.to_nat (file_length v ino / 20))%nat ->
  missing v ino (blocks (20 * Z.of_nat j) 20) = 0%nat.
Proof using Hok HF Hd.
  intros Hj. apply missing_none. intros m Hm. apply (do_dense _ _ Hd). unfold blocks in Hm.
  cbn [Z.leb Z.compare] in Hm. apply elem_of_seq in Hm. pose proof (do_mult _ _ Hd).
  assert (0 <= file_length v ino / 20) by (apply Z.div_pos; lia).
  assert (0 <= 20 * Z.of_nat j / 512) by (apply Z.div_pos; lia).
  pose proof (Z.div_mod (20 * Z.of_nat j + 20 - 1) 512 ltac:(lia)).
  pose proof (Z.mod_pos_bound (20 * Z.of_nat j + 20 - 1) 512 ltac:(lia)). lia.
Qed.

Lemma entry_dropped j e v' :
  dir_entries v ino !! j = Some e -> in_use e = true ->
  wrote ino v fm v' fm (20 * Z.of_nat j) (set_in_use false e)
    (Z.max (file_length v ino) (20 * Z.of_nat j + 20)) ->
  dropped (entry_name e) v'.
Proof using Hok HF Hd.
  intros Hj Hu Hwr. pose proof (Forall_lookup_1 _ _ _ _ (do_entries _ _ Hd) Hj) as Heo.
  pose proof Hj as [Hjn _]%lookup_dir_entries. pose proof (do_mult _ _ Hd) as Hmul.
  assert (Hq : 0 <= file_length v ino / 20) by (apply Z.div_pos; lia).
  assert (Hel : length (set_in_use false e) = 20%nat) by (unfold set_in_use; rewrite length_insert; apply Heo).
  assert (Hun : in_use (set_in_use false e) = false).
  { unfold in_use. rewrite (byte_at_lookup _ _ 0); [done|]. apply list_lookup_insert_eq.
    rewrite (en_len _ Heo). lia. }
  assert (Hwr' : wrote ino v fm v' fm (20 * Z.of_nat j) (set_in_use false e)
            (Z.max (file_length v ino) (20 * Z.of_nat j + Z.of_nat (length (set_in_use false e)))))
    by by rewrite Hel.
  assert (Hmax : 20 * Z.of_nat j + 20 <= 512 * Z.of_nat MAX_SECTORS) by lia.
  pose proof (written_entries v fm ino v' fm j _ Hd (proj1 Hlen) ltac:(lia) Hel Hmax (proj2 Hlen) Hwr) as Hes'.
  rewrite decide_True in Hes' by done.
  destruct (names_free _ j e (set_in_use false e) Hj Hu Hun (do_unique _ _ Hd)) as [Hnames Huq].
  rewrite <- Hes' in Hnames, Huq. split.
  - apply (wrote_disk_ok v fm F ino Hok HF v' fm (20 * Z.of_nat j) (set_in_use false e)); [lia|rewrite Hel; lia|done].
  - eapply (written_dir_ok v fm ino v' fm j (set_in_use false e) Hd (proj1 Hlen) ltac:(lia) Hel Hmax (proj2 Hlen));
      [done| |done].
    split; [done| |by rewrite Hun]. apply Forall_insert; [apply Heo|lia].
  - done.
  - apply (wr_meta _ _ _ _ _ _ _ _ Hwr). lia.
  - rewrite (wr_length _ _ _ _ _ _ _ _ Hwr). lia.
  - intros ino' Hi' Hne. by apply (wrote_other v fm F ino Hok HF v' fm (20 * Z.of_nat j) (set_in_use false e) Hwr').
Qed.
End adding.

Section ops.
Context {C : Type} `{BufferCacheSpec C}.
Context (s : fs C) (dir : nat) (d : Fs.dir) (p : nat) (i : inode) (ino : Z).
Context (Hdir : dirs s !! dir = Some d) (Hdi : d_inode d = p).
Context (Hi : inodes s !! p = Some i) (Hsec : i_sector i = ino) (Hlk : i_dir_lock i = false).
Context {R : gset Z} (v : gmap Z (list Z)) (fm : bitmap) (F : gset Z).
Context (Hok : disk_ok R v fm F) (HF : ino ∈ F) (Hd : dir_ok v ino).

Let Hv := dk_view _ _ _ Hok.
Let Ht := dk_tree _ _ _ Hok ino HF.
Let Hlen := dk_length _ _ _ Hok ino HF.

Lemma dir_add_spec c name sector e0 (Q : bool -> fs C -> Prop) :
  i_deny_write_cnt i = 0 -> bc_rep c v ∅ ->
  name_ok name -> (0 < length name <= 14)%nat -> 0 <= sector < 2 ^ 32 ->
  length e0 = 20%nat -> Forall (fun b => 0 <= b < 2 ^ 8) e0 ->
  (dir_map v ino !! name = None -> (6 <= nfree fm)%nat /\ file_length v ino + 20 <= 512 * Z.of_nat MAX_SECTORS) ->
  (forall c', bc_rep c' v ∅ -> is_Some (dir_map v ino !! name) -> Q false (upd c' fm s)) ->
  (forall c' v' fm', bc_rep c' v' ∅ -> dir_map v ino !! name = None ->
     added (R:=R) v fm F ino name sector v' fm' -> Q true (upd c' fm' s)) ->
  wp (dir_add (Some dir) name sector e0) Q (upd c fm s).
Proof using All.
  intros Hdeny Hrep Hnm Hnl Hs He0 Hb0 Hspace HQ1 HQ2. unfold dir_add. wp_steps; [done|].
  eapply wp_deref; [done|]. rewrite bool_decide_eq_false_2 by (by destruct name; cbn in *; [lia|]).
  rewrite ltb_false by (unfold NAME_MAX; lia). cbn [orb]. wp_steps.
  eapply wp_get_dir; [done|]. rewrite Hdi. wp_steps.
  eapply wp_lock_dir; [exact Hi|done|]. wp_steps. change (lock_dir p i (upd c fm s)) with (upd c fm (lock_dir p i s)).
  eapply (lookup_spec (lock_dir p i s) p (set_dir_lock true i) ino); [apply lock_dir_inode|done..|].
  intros c1 Hrep1. destruct (names (dir_entries v ino) !! name) as [x|] eqn:En.
  - intros k e _ _ _ _. wp_steps. eapply wp_unlock_dir; [apply lock_dir_inode|done|]. wp_steps.
    change (Q false (upd c1 fm (set_inodes (<[p := set_dir_lock false (set_dir_lock true i)]>
      (inodes (lock_dir p i s))) (lock_dir p i s)))).
    rewrite unlock_lock_dir by done. apply HQ1; [done|]. by exists x.
  - destruct (Hspace En) as [Hfree Hroom]. wp_steps. eapply (free_slot_spec (lock_dir p i s) p (set_dir_lock true i) ino); [apply lock_dir_inode|done..|].
    intros c2 j e Hrep2 Hj Hjf Hle Hbe. wp_steps. apply wp_lift.
    destruct (new_entry name sector e Hnm Hnl Hs Hle Hbe) as (e1 & -> & Heo & Hu & Hen & Hes). cbn [wpr].
    wp_steps. pose proof (do_mult _ _ Hd) as Hmul. pose proof (en_len _ Heo) as Hel.
    assert (Hjl : 20 * Z.of_nat j <= file_length v ino).
    { assert (0 <= file_length v ino / 20) by (apply Z.div_pos; lia). lia. }
    rewrite s32_small by (rewrite max_sectors in Hroom; lia).
    eapply (inode_write_at_spec (lock_dir p i s) ino ∅ p (set_dir_lock true i));
      [apply lock_dir_inode|done|done|done|done|done|apply pins_ok_empty|apply Heo|lia| |unfold ENTRY_SIZE; lia| |].
    { rewrite Hel. unfold ENTRY_SIZE. lia. }
    { pose proof (missing_entry v ino (20 * Z.of_nat j) ltac:(lia)) as Hm. unfold ENTRY_SIZE. lia. }
    intros c3 fm3 v3 Hrep3 Hwr Hfr _. wp_steps.
    eapply wp_unlock_dir; [apply lock_dir_inode|done|]. wp_steps.
    change (Q (ENTRY_SIZE =? ENTRY_SIZE) (upd c3 fm3 (set_inodes (<[p := set_dir_lock false (set_dir_lock true i)]>
      (inodes (lock_dir p i s))) (lock_dir p i s)))).
    rewrite unlock_lock_dir by done. apply (HQ2 c3 v3 fm3); [done|done|].
    unfold ENTRY_SIZE in *. rewrite take_ge in Hwr by (rewrite Hel; lia).
    eapply (entry_added v fm F ino Hok HF Hd name sector j); [done|done|done|done|done|done|done|lia|done|].
    pose proof (missing_entry v ino (20 * Z.of_nat j) ltac:(lia)) as Hm. lia.
Qed.

(** Inodes are found again in the state with the lock taken. *)
Lemma table_lock : table_ok s F -> table_ok (lock_dir p i s) F.
Proof using All.
  intros Htb. destruct (to_inode _ _ Htb p i Hi) as (? & ? & ?).
  eapply table_update; [done|exact Hi|done|done|done].
Qed.

Lemma wp_unlock_upd c fm1 s1 i1 (Q : unit -> fs C -> Prop) :
  inodes s1 !! p = Some i1 -> i_dir_lock i1 = true ->
  Q tt (upd c fm1 (set_inodes (<[p := set_dir_lock false i1]> (inodes s1)) s1)) ->
  wp (inode_lock_release p) Q (upd c fm1 s1).
Proof using Type. intros Hi1 Hl1 HQ. by eapply wp_unlock_dir. Qed.

(** The state after another inode was opened under the lock. *)
Lemma unlock_reopened q iq :
  inodes (lock_dir p i s) !! q = Some iq ->
  exists iq0 i1, inodes s !! q = Some iq0 /\ i_sector iq = i_sector iq0 /\
    (<[q := reopened iq]> (inodes (lock_dir p i s))) !! p = Some i1 /\ i_dir_lock i1 = true /\
    <[p := set_dir_lock false i1]> (<[q := reopened iq]> (inodes (lock_dir p i s)))
      = <[q := reopened iq0]> (inodes s).
Proof using All.
  unfold lock_dir. cbn. destruct (decide (q = p)) as [->|Hne].
  - rewrite lookup_insert_eq. intros [= <-]. exists i, (reopened (set_dir_lock true i)).
    rewrite !insert_insert_eq, lookup_insert_eq. repeat split; try done. f_equal.
    unfold set_dir_lock, reopened. cbn. by rewrite <- Hlk.
  - rewrite lookup_insert_ne by done. intros Hq. exists iq, (set_dir_lock true i).
    rewrite lookup_insert_ne, lookup_insert_eq by done. repeat split; try done.
    rewrite (insert_insert_ne _ p q) by done. rewrite insert_insert_eq.
    replace (set_dir_lock false (set_dir_lock true i)) with i.
    + by rewrite (insert_id (inodes s) p i).
    + unfold set_dir_lock. cbn. rewrite <- Hlk. by destruct i.
Qed.

Lemma unlock_with_inode x l :
  table_ok s F ->
  set_inodes (<[p := set_dir_lock false (set_dir_lock true i)]>
    (inodes (with_inode x l (lock_dir p i s)))) (with_inode x l (lock_dir p i s)) = with_inode x l s.
Proof using All.
  intros Htb. pose proof (to_next _ _ Htb p ltac:(by exists i)) as Hp.
  unfold with_inode, lock_dir. cbn. rewrite (insert_insert_ne _ p) by lia. rewrite insert_insert_eq.
  replace (set_dir_lock false (set_dir_lock true i)) with i.
  - by rewrite (insert_id (inodes s) p i).
  - unfold set_dir_lock. cbn. rewrite <- Hlk. by destruct i.
Qed.

(** [dir_lookup]: the inode of the name is opened. *)
Lemma dir_lookup_spec c name (Q : option nat -> fs C -> Prop) :
  table_ok s F -> bc_rep c v ∅ -> name_ok name ->
  (forall x, dir_map v ino !! name = Some x -> x ∈ F) ->
  (forall c', bc_rep c' v ∅ -> dir_map v ino !! name = None -> Q None (upd c' fm s)) ->
  (forall c' x q iq, bc_rep c' v ∅ -> dir_map v ino !! name = Some x ->
     inodes s !! q = Some iq -> i_sector iq = x ->
     Q (Some q) (upd c' fm (set_inodes (<[q := reopened iq]> (inodes s)) s))) ->
  (forall c' x, bc_rep c' v ∅ -> dir_map v ino !! name = Some x ->
     (forall q iq, inodes s !! q = Some iq -> i_sector iq <> x) ->
     (forall l, fs_mem s = true :: l -> Q (Some (fs_next s)) (upd c' fm (with_inode x l s))) /\
     (forall l, head (fs_mem s) <> Some true -> Q None (upd c' fm (set_heap l (fs_next s) s)))) ->
  wp (dir_lookup (Some dir) name) Q (upd c fm s).
Proof using All.
  intros Htb Hrep Hnm HxF HQ1 HQ2 HQ3. unfold dir_lookup. wp_steps; [done|].
  eapply wp_deref; [done|]. wp_steps. eapply wp_get_dir; [done|]. rewrite Hdi. wp_steps.
  eapply wp_lock_dir; [exact Hi|done|]. wp_steps.
  change (lock_dir p i (upd c fm s)) with (upd c fm (lock_dir p i s)).
  eapply (lookup_spec (lock_dir p i s) p (set_dir_lock true i) ino); [apply lock_dir_inode|done..|].
  intros c1 Hrep1. fold (dir_map v ino). destruct (dir_map v ino !! name) as [x|] eqn:En.
  2:{ wp_steps. eapply wp_unlock_upd; [apply lock_dir_inode|done|]. wp_steps.
      rewrite unlock_lock_dir by done. by apply HQ1. }
  intros k e _ _ _ Hx. rewrite Hx. wp_steps.
  assert (Hnew : (forall q iq, inodes (lock_dir p i s) !! q = Some iq -> i_sector iq <> x) ->
                 forall q iq, inodes s !! q = Some iq -> i_sector iq <> x).
  { intros Hn q iq Hq. destruct (decide (q = p)) as [->|Hne].
    - rewrite Hi in Hq. injection Hq as <-. by apply (Hn p (set_dir_lock true i)), lock_dir_inode.
    - apply (Hn q iq). unfold lock_dir. cbn. by rewrite lookup_insert_ne. }
  eapply (inode_open_spec (lock_dir p i s) F); [by apply table_lock|done| | |].
  - apply (tw_sec _ _ _ (dk_tree _ _ _ Hok x (HxF x eq_refl)) LInode I).
    apply (tw_inode _ _ _ (dk_tree _ _ _ Hok x (HxF x eq_refl))).
  - intros q iq Hq Ex. destruct (unlock_reopened q iq Hq) as (iq0 & i1 & Hq0 & Es & Hp1 & Hl1 & Eq).
    wp_steps. eapply wp_unlock_upd; [exact Hp1|done|]. wp_steps.
    pose proof (HQ2 c1 x q iq0 Hrep1 eq_refl Hq0 ltac:(congruence)) as HQ.
    rewrite <- Eq in HQ. exact HQ.
  - intros Hn. split.
    + intros c2 l Hrep2 Hl. wp_steps.
      assert (Hp2 : inodes (with_inode x l (lock_dir p i s)) !! p = Some (set_dir_lock true i)).
      { unfold with_inode. cbn. pose proof (to_next _ _ Htb p ltac:(by exists i)).
        rewrite lookup_insert_ne by lia. apply lookup_insert_eq. }
      eapply wp_unlock_upd; [exact Hp2|done|]. wp_steps. rewrite unlock_with_inode by done.
      by apply (HQ3 c2 x Hrep2 eq_refl (Hnew Hn)).
    + intros l Hl. wp_steps.
      eapply wp_unlock_upd; [apply lock_dir_inode|done|]. wp_steps.
      pose proof (proj2 (HQ3 c1 x Hrep1 eq_refl (Hnew Hn)) l Hl) as HQ. revert HQ.
      rewrite <- (unlock_lock_dir s p i Hi Hlk) at 2. done.
Qed.

(** * dir_remove *)

(** The directory [x] has an entry that is neither "." nor "..". *)
Definition has_child (x : Z) : bool :=
  existsb (fun e => in_use e && bool_decide (entry_name e <> dot) && bool_decide (entry_name e <> dotdot))
    (dir_entries v x).

Lemma is_empty_spec s1 q iq x c (Q : bool -> fs C -> Prop) :
  inodes s1 !! q = Some iq -> i_sector iq = x -> x ∈ F -> dir_ok v x -> bc_rep c v ∅ ->
  (forall c', bc_rep c' v ∅ -> Q (negb (has_child x)) (upd c' fm s1)) ->
  wp (is_empty q) Q (upd c fm s1).
Proof using All.
  intros Hq Hqs HxF Hdx Hrep HQ. unfold is_empty. wp_steps.
  eapply (entries_spec s1 q iq x Hq Hqs v fm (dk_view _ _ _ Hok) (dk_tree _ _ _ Hok x HxF) Hdx
            (dk_length _ _ _ Hok x HxF) _
            (fun _ e => if in_use e && bool_decide (entry_name e <> dot) && bool_decide (entry_name e <> dotdot)
                        then Some tt else None)); [|done|].
  - intros j Hj. rewrite is_child_spec by by apply dir_entry_ok. done.
  - intros c' Hrep'. specialize (HQ c' Hrep'). unfold has_child in HQ. revert HQ.
    generalize 0%nat. induction (dir_entries v x) as [|e es IH]; intros j; cbn [scan existsb].
    { by wp_steps. }
    destruct (_ && _ && _); cbn [orb]; [by wp_steps|apply IH].
Qed.

(** The middle of [dir_remove], once the inode [q] is open. *)
Lemma remove_entry_spec s1 i1 q iq x c j e (done : bool -> ST (fs C) bool) (Q : bool -> fs C -> Prop) :
  inodes s1 !! p = Some i1 -> i_sector i1 = ino -> i_deny_write_cnt i1 = 0 ->
  inodes s1 !! q = Some iq -> i_sector iq = x -> x ∈ F ->
  dir_entries v ino !! j = Some e -> in_use e = true ->
  (s32 (child v x 1) = 1 -> dir_ok v x) -> bc_rep c v ∅ ->
  (forall c', bc_rep c' v ∅ -> s32 (child v x 1) = 1 -> has_child x = true ->
     wp (done false) Q (upd c' fm s1)) ->
  (forall c' v', bc_rep c' v' ∅ -> ~ (s32 (child v x 1) = 1 /\ has_child x = true) ->
     dropped (R:=R) v fm F ino (entry_name e) v' ->
     wp (inode_remove (Some q);;; done true) Q (upd c' fm s1)) ->
  wp (let! is_dir := inode_is_dir q in
      let! empty := (if is_dir then is_empty q else ret true) in
      if negb empty then done false
      else
        let e := set_in_use false e in
        let! n := inode_write_at p e ENTRY_SIZE (s32 (20 * Z.of_nat j)) in
        if negb (n =? ENTRY_SIZE) then done false
        else inode_remove (Some q);;; done true) Q (upd c fm s1).
Proof using All.
  intros Hp1 Hs1 Hdeny Hq Hqs HxF Hj Hu Hdx Hrep HQ1 HQ2. wp_steps.
  destruct (inode_present x fm v (dk_view _ _ _ Hok) (dk_tree _ _ _ Hok x HxF)) as (dd & Hdd & _).
  assert (Hch : s32 (child v x 1) = disk_is_dir dd) by (unfold child; by rewrite Hdd).
  eapply (inode_is_dir_spec s1 x ∅ q iq Hq Hqs fm fm v (pins_ok_empty _ _ _)); [done|done|].
  intros c1 Hrep1. wp_steps.
  assert (Hgo : forall c2, bc_rep c2 v ∅ -> ~ (s32 (child v x 1) = 1 /\ has_child x = true) ->
    wp (let e := set_in_use false e in
        let! n := inode_write_at p e ENTRY_SIZE (s32 (20 * Z.of_nat j)) in
        if negb (n =? ENTRY_SIZE) then done false
        else inode_remove (Some q);;; done true) Q (upd c2 fm s1)).
  { intros c2 Hrep2 Hno. pose proof Hj as [Hjn _]%lookup_dir_entries. pose proof (do_mult _ _ Hd) as Hmul.
    pose proof Hlen as [Hl0 Hlm]. rewrite max_sectors in Hlm.
    assert (Hq0 : 0 <= file_length v ino / 20) by (apply Z.div_pos; lia).
    pose proof (Forall_lookup_1 _ _ _ _ (do_entries _ _ Hd) Hj) as Heo.
    assert (Hel : length (set_in_use false e) = 20%nat) by (unfold set_in_use; rewrite length_insert; apply Heo).
    cbn zeta. wp_steps. rewrite s32_small by lia. pose proof (entry_missing v fm F ino Hok HF Hd j Hjn) as Hmiss.
    unfold ENTRY_SIZE in *.
    eapply (inode_write_at_spec s1 ino ∅ p i1 Hp1 Hs1); [done|done|done|done|apply pins_ok_empty| |lia|lia| | |].
    - apply Forall_insert; [apply Heo|lia].
    - rewrite max_sectors. lia.
    - rewrite Hmiss. lia.
    - intros c3 fm3 v3 Hrep3 Hwr _ Hsame. rewrite (Hsame Hmiss) in *. wp_steps. cbn [Z.eqb negb].
      change (Pos.eqb 20 20) with true. cbn [negb]. apply (HQ2 c3 v3); [done|done|].
      rewrite take_ge in Hwr by (rewrite Hel; lia). by apply (entry_dropped v fm F ino Hok HF Hd j). }
  destruct (Z.eqb_spec (disk_is_dir dd) 1) as [E|E].
  - rewrite <- Hch in E. eapply is_empty_spec; [done..|by apply Hdx|done|]. intros c2 Hrep2.
    destruct (has_child x) eqn:Hc; cbn [negb]; [by apply HQ1|]. apply Hgo; [done|]. naive_solver.
  - wp_steps. cbn [negb]. apply Hgo; [done|]. rewrite Hch. naive_solver.
Qed.

(** What removing the last name of a closed file does to the disk. *)
Record removed_file (name : list Z) (x : Z) (v' : gmap Z (list Z)) (fm' : bitmap) : Prop := {
  rf_disk : disk_ok R v' fm' (F ∖ {[x]});
  rf_dir : dir_ok v' ino;
  rf_names : dir_map v' ino = delete name (dir_map v ino);
  rf_others : forall ino', ino' ∈ F -> ino' <> ino -> ino' <> x -> ino' <> FREE_MAP_SECTOR ->
    same_file v v' ino';
  rf_fmap : fmap_ok v' fm' /\ fmap_stored v' fm' /\
    child v' FREE_MAP_SECTOR 1 = child v FREE_MAP_SECTOR 1;
  rf_cnt : bit_cnt fm' = bit_cnt fm;
}.

Lemma removed_file_intro name x v1 v' fm' :
  FREE_MAP_SECTOR ∈ F -> x ∈ F -> x <> FREE_MAP_SECTOR -> x <> ino -> ino <> FREE_MAP_SECTOR ->
  fmap_ok v1 fm -> dropped (R:=R) v fm F ino name v1 -> all_released v1 fm x v' fm' ->
  removed_file name x v' fm'.
Proof using Hok HF.
  intros H0F HxF Hx0 Hxi Hi0 Hfo [Hok1 Hd1 Hn1 _ _ Ho1] Hall.
  destruct (released_disk_ok R v1 fm F x v' fm' Hok1 HxF H0F Hx0 Hall) as [Hok2 Ho2].
  assert (Hs2 : same_file v1 v' ino) by by apply Ho2.
  split.
  - done.
  - exact (same_file_dir_ok R v1 fm F v' ino Hok1 HF Hs2 Hd1).
  - unfold dir_map. by rewrite (same_file_entries v1 v' ino Hs2).
  - intros ino' Hi' Hne Hnx Hn0. eapply same_file_trans; [by apply Ho1|by apply Ho2].
  - destruct (all_released_fmap v1 fm x v' fm') as (H1 & H2 & H3); [done| |done|].
    + apply (tw_inode _ _ _ (dk_tree _ _ _ Hok1 x HxF)).
    + split; [done|]. split; [done|]. rewrite H3. apply same_file_child. by apply Ho1.
  - destruct Hall as (ls & Hrl & _). apply Hrl.
Qed.

(** Without memory for an inode nothing is removed. *)
Lemma dir_remove_no_memory c name :
  table_ok s F -> bc_rep c v ∅ -> name_ok name -> head (fs_mem s) <> Some true ->
  (forall x, dir_map v ino !! name = Some x -> x ∈ F /\ x <> ino /\ forall q iq, inodes s !! q = Some iq -> i_sector iq <> x) ->
  wp (dir_remove (Some dir) name) (fun r s' => r = false /\ exists c' l, bc_rep c' v ∅ /\ s' = upd c' fm (set_heap l (fs_next s) s)) (upd c fm s).
Proof using All.
  intros Htb Hrep Hnm Hmem Hxs. unfold dir_remove. wp_steps; [done|].
  eapply wp_deref; [done|]. wp_steps. eapply wp_get_dir; [done|]. rewrite Hdi. wp_steps.
  eapply wp_lock_dir; [exact Hi|done|]. wp_steps. change (lock_dir p i (upd c fm s)) with (upd c fm (lock_dir p i s)).
  eapply (lookup_spec (lock_dir p i s) p (set_dir_lock true i) ino); [apply lock_dir_inode|done..|].
  intros c1 Hrep1. fold (dir_map v ino). destruct (dir_map v ino !! name) as [x|] eqn:En.
  2:{ wp_steps. eapply wp_unlock_upd; [apply lock_dir_inode|done|]. rewrite unlock_lock_dir by done. cbn [inode_close]. wp_steps. split; [done|].
      exists c1, (fs_mem s). split; [done|]. by destruct s. }
  intros j e Hj Hu Hne Hx. destruct (Hxs x eq_refl) as (HxF & Hxi & Hxo). rewrite Hx. wp_steps.
  assert (Hnew : forall q iq, inodes (lock_dir p i s) !! q = Some iq -> i_sector iq <> x).
  { intros q iq. unfold lock_dir. cbn. intros [[<- <-]|[_ Hq]]%lookup_insert_Some; [cbn; congruence|by eapply Hxo]. }
  eapply (inode_open_spec (lock_dir p i s) F); [by apply table_lock|done| | |].
  { apply (tw_sec _ _ _ (dk_tree _ _ _ Hok x HxF) LInode I), (tw_inode _ _ _ (dk_tree _ _ _ Hok x HxF)). }
  { intros q iq Hq Ex. by destruct (Hnew q iq Hq). }
  intros _. split; [intros c2 l' _ El; cbn in El; by rewrite El in Hmem|]. intros l' _. cbn match. wp_steps.
  eapply wp_unlock_upd; [apply lock_dir_inode|done|]. cbn [inode_close]. wp_steps. split; [done|]. exists c1, l'. split; [done|].
  unfold lock_dir. cbn. rewrite insert_insert_eq. rewrite (insert_id (inodes s) p); [by destruct s|]. rewrite Hi. f_equal. unfold set_dir_lock. cbn. rewrite <- Hlk. by destruct i.
Qed.

(** Removing the name of a file that nobody has open: an empty
    directory or a plain file is deleted, a directory with entries
    stays. *)
Lemma dir_remove_spec c name l (Q : bool -> fs C -> Prop) :
  table_ok s F -> bc_rep c v ∅ -> name_ok name -> i_deny_write_cnt i = 0 ->
  FREE_MAP_SECTOR ∈ F -> ino <> FREE_MAP_SECTOR -> fmap_open s -> fmap_ok v fm ->
  fs_mem s = true :: l ->
  (forall x, dir_map v ino !! name = Some x ->
     x ∈ F /\ x <> ino /\ x <> FREE_MAP_SECTOR /\ (s32 (child v x 1) = 1 -> dir_ok v x) /\
     forall q iq, inodes s !! q = Some iq -> i_sector iq <> x) ->
  (forall c', bc_rep c' v ∅ -> dir_map v ino !! name = None -> Q false (upd c' fm s)) ->
  (forall c' x, bc_rep c' v ∅ -> dir_map v ino !! name = Some x ->
     s32 (child v x 1) = 1 -> has_child x = true ->
     Q false (upd c' fm (set_heap l (S (fs_next s)) s))) ->
  (forall c' v' fm' x, bc_rep c' v' ∅ -> dir_map v ino !! name = Some x ->
     ~ (s32 (child v x 1) = 1 /\ has_child x = true) -> removed_file name x v' fm' ->
     Q true (upd c' fm' (set_heap l (S (fs_next s)) s))) ->
  wp (dir_remove (Some dir) name) Q (upd c fm s).
Proof using All.
  intros Htb Hrep Hnm Hdeny H0F Hi0 Hop Hfo Hmem Hxs HQ1 HQ2 HQ3. unfold dir_remove. wp_steps; [done|].
  eapply wp_deref; [done|]. wp_steps. eapply wp_get_dir; [done|]. rewrite Hdi. wp_steps.
  eapply wp_lock_dir; [exact Hi|done|]. wp_steps.
  change (lock_dir p i (upd c fm s)) with (upd c fm (lock_dir p i s)).
  eapply (lookup_spec (lock_dir p i s) p (set_dir_lock true i) ino); [apply lock_dir_inode|done..|].
  intros c1 Hrep1. fold (dir_map v ino). destruct (dir_map v ino !! name) as [x|] eqn:En.
  2:{ wp_steps. eapply wp_unlock_upd; [apply lock_dir_inode|done|].
      rewrite unlock_lock_dir by done. cbn [inode_close]. wp_steps. by apply HQ1. }
  intros j e Hj Hu Hne Hx. destruct (Hxs x eq_refl) as (HxF & Hxi & Hx0 & Hdx & Hxo). rewrite Hx. wp_steps.
  pose proof (to_next _ _ Htb p ltac:(by exists i)) as Hpn.
  assert (Hnew : forall q iq, inodes (lock_dir p i s) !! q = Some iq -> i_sector iq <> x).
  { intros q iq. unfold lock_dir. cbn. intros [[<- <-]|[_ Hq]]%lookup_insert_Some; [cbn; congruence|by eapply Hxo]. }
  eapply (inode_open_spec (lock_dir p i s) F); [by apply table_lock|done| | |].
  { apply (tw_sec _ _ _ (dk_tree _ _ _ Hok x HxF) LInode I), (tw_inode _ _ _ (dk_tree _ _ _ Hok x HxF)). }
  { intros q iq Hq Ex. by destruct (Hnew q iq Hq). }
  intros _. split; [|by intros l' Hl; cbn in Hl; rewrite Hmem in Hl].
  intros c2 l' Hrep2 El. cbn in El. rewrite Hmem in El. injection El as <-. cbn match.
  set (s2 := with_inode x l (lock_dir p i s)).
  assert (Hp2 : inodes s2 !! p = Some (set_dir_lock true i)).
  { unfold s2, with_inode. cbn. rewrite lookup_insert_ne by lia. apply lookup_insert_eq. }
  assert (Hq2 : inodes s2 !! fs_next s = Some (mkInode x 1 false 0 false)) by apply lookup_insert_eq.
  assert (Htb2 : table_ok (with_inode x l s) F) by by apply table_insert.
  eapply (remove_entry_spec s2 (set_dir_lock true i) (fs_next s) _ x c2 j e
            (fun b => inode_lock_release p;;; inode_close (Some (fs_next s));;; ret b));
    [done|done|done|exact Hq2|done|done|done|done|done|done| |].
  - intros c3 Hrep3 Hdf Hch. wp_steps. eapply wp_unlock_upd; [exact Hp2|done|].
    unfold s2. rewrite unlock_with_inode by done. wp_steps.
    eapply inode_close_last; [exact Htb2|apply lookup_insert_eq|done|done|].
    rewrite (with_without s F) by done. wp_steps. by apply (HQ2 c3 x).
  - intros c3 v3 Hrep3 Hno Hdr. unfold inode_remove. wp_steps; [done|]. eapply wp_deref; [done|]. wp_steps.
    eapply wp_get_inode; [exact Hq2|]. unfold put_inode. wp_steps.
    set (s3 := set_inodes (<[fs_next s := mkInode x 1 true 0 false]> (inodes (with_inode x l s)))
                 (with_inode x l s)).
    match goal with |- wp _ _ ?y =>
      replace y with (upd c3 fm (set_inodes (<[fs_next s := mkInode x 1 true 0 false]> (inodes s2)) s2)) by done end.
    eapply wp_unlock_upd; [cbn; rewrite lookup_insert_ne by lia; exact Hp2|done|]. wp_steps.
    match goal with |- wp _ _ ?y => replace y with (upd c3 fm s3) end.
    2:{ unfold s3, s2, with_inode, lock_dir. cbn. rewrite !(insert_insert_eq _ (fs_next s)).
        rewrite (insert_insert_ne _ p (fs_next s)) by lia. rewrite insert_insert_eq.
        rewrite (insert_id (inodes s) p); [done|]. rewrite Hi. f_equal.
        unfold set_dir_lock. cbn. rewrite <- Hlk. by destruct i. }
    assert (Htb3 : table_ok s3 F).
    { eapply table_update; [exact Htb2|apply lookup_insert_eq|done|done|done]. }
    assert (Hfo3 : fmap_ok v3 fm).
    { eapply same_file_fmap_ok; [|done]. by apply (dr_others _ _ _ _ _ _ Hdr). }
    eapply (inode_close_removed s3 R F c3 fm v3 (fs_next s) (mkInode x 1 true 0 false)); [exact Htb3|done|apply Hdr|done| |done| |done|done|done|].
    + destruct Hop as (f & fl & q & iq & Hf & Hfl & Hfq & Hq & Hqs & Hqd). exists f, fl, q, iq.
      split; [done|]. split; [done|]. split; [done|]. split; [|done].
      pose proof (to_next _ _ Htb q ltac:(by exists iq)). unfold s3, with_inode. cbn.
      by rewrite !lookup_insert_ne by lia.
    + apply lookup_insert_eq.
    + intros c4 v4 fm4 Hrep4 Hall. wp_steps.
      replace (without_inode (fs_next s) s3) with (set_heap l (S (fs_next s)) s).
      * apply (HQ3 c4 v4 fm4 x); [done|done|done|]. eapply removed_file_intro; try done. by rewrite Hne in Hdr.
      * rewrite <- (with_without s F x) by done. unfold s3, without_inode. cbn. by rewrite !delete_insert_eq.
Qed.
End ops.
