(* ===== verification/File.v ===== *)
(** Open files (src/src/filesys/file.c), with the parts of
    src/src/filesys/pipe.c that open and close the ends of a pipe. A
    call of a pipe is that of a thread that does not have to wait; the
    interleavings of several are in [Pipe]. *)
From S2P Require Import Prelude Words CString Bitmap Monitor Pipe Block Cache Fs Inode Directory.
From stdpp Require Import options.

Module File.

(** lib/user/errno.h *)
Definition EINVF : Z := 13.
Definition EBADF : Z := 113.
Definition EISDIR : Z := 123.

(** What [calloc] returns: the fields of a file are zero. *)
Definition zero_file : file := mkFile STDIN None 0 false 0 None None.

Definition set_pos (pos : Z) (f : file) : file :=
  mkFile (fl_type f) (fl_inode f) pos (fl_deny_write f) (fl_ref_count f) (fl_dir f) (fl_pipe f).
Definition set_deny_write (b : bool) (f : file) : file :=
  mkFile (fl_type f) (fl_inode f) (fl_pos f) b (fl_ref_count f) (fl_dir f) (fl_pipe f).
Definition set_ref_count (n : Z) (f : file) : file :=
  mkFile (fl_type f) (fl_inode f) (fl_pos f) (fl_deny_write f) n (fl_dir f) (fl_pipe f).

Section file.
Context {C : Type} `{BufferCache C}.
Abbreviation FS := (ST (fs C)).

Definition file_init : FS unit :=
  modify (set_open_files []);;; modify (set_open_files_lock false).

(** [list_push_front (&open_files, &file->elem)], under the lock. *)
Definition push_open_file (f : nat) : FS unit :=
  lock_open_files;;;
  modify (fun s => set_open_files (f :: open_files s) s);;;
  unlock_open_files.

Definition file_open_console (type : file_type) : FS (option nat) :=
  if bool_decide (type <> STDIN) && bool_decide (type <> STDOUT) then ret None
  else
    let! f := malloc in
    let! f := deref f in
    put_file f (mkFile type None 0 false 1 None None);;;
    push_open_file f;;;
    ret (Some f).

Definition file_open (inode : option nat) : FS (option nat) :=
  let! f := malloc in
  match inode, f with
  | Some i, Some f =>
      let! is_dir := inode_is_dir i in
      let! (type, dir) := (if is_dir then let! d := dir_open inode in ret (DIR, d)
                           else ret (REG, None)) in
      put_file f (mkFile type inode 0 false 1 dir None);;;
      push_open_file f;;;
      ret (Some f)
  | _, _ => inode_close inode;;; ret None
  end.

Definition file_reopen (file : nat) : FS (option nat) :=
  let! f := get_file file in
  let! i := inode_reopen (fl_inode f) in
  file_open i.

(** * Pipe ends *)

Definition get_pipe (p : nat) : FS pipe :=
  let! m := gets pipes in lift (access (m !! p)).
Definition put_pipe (p : nat) (x : pipe) : FS unit :=
  modify (fun s => set_pipes (<[p := x]> (pipes s)) s).

Definition pipe_close (pipe : option nat) (file : nat) : FS unit :=
  match pipe with
  | None => ret tt
  | Some p =>
      let! x := get_pipe p in
      let! (r, x) := lift (no_wait (pipe_clear_end (Z.of_nat file) x)) in
      let! (_, x) := lift (no_wait (pipe_notify r x)) in
      let! (_, x) := lift (no_wait (pipe_free x)) in
      if p_freed x then modify (fun s => set_pipes (delete p (pipes s)) s) else put_pipe p x
  end.

(** [write_end0] is what the caller's variable holds before the call. *)
Definition file_pipe_ends (pipe : nat) (write_end0 : option nat) : FS (option (nat * nat)) :=
  let! r := malloc in
  match r with
  | None => match write_end0 with Some _ => fail Fault | None => ret None end
  | Some r =>
      let! w := malloc in
      match w with
      | None => ret None
      | Some w =>
          put_file r (mkFile PIPE None 0 false 1 None (Some pipe));;;
          push_open_file r;;;
          put_file w (mkFile PIPE None 0 false 1 None (Some pipe));;;
          push_open_file w;;;
          ret (Some (r, w))
      end
  end.

(** [buffer] is the contents of the allocated block. *)
Definition pipe_open (buffer : list Z) (write_end0 : option nat) : FS (option (nat * nat)) :=
  let! p := malloc in
  match p with
  | None => ret None
  | Some p =>
      let! b := malloc in
      match Pipe.pipe_create (Some tt) ((fun _ => buffer) <$> b) 4095 with
      | None => ret None
      | Some x =>
          let! ends := file_pipe_ends p write_end0 in
          match ends with
          | None => ret None
          | Some (r, w) =>
              put_pipe p (mkPipe (p_buffer x) (p_capacity x) (p_head x) (p_tail x)
                            (Some (Z.of_nat r)) (Some (Z.of_nat w)) (p_freed x));;;
              ret (Some (r, w))
          end
      end
  end.

(** * Preventing writes *)

Definition file_deny_write (file : option nat) : FS unit :=
  ASSERT (bool_decide (file <> None));;;
  let! p := deref file in
  let! f := get_file p in
  if negb (fl_deny_write f) then
    put_file p (set_deny_write true f);;;
    let! i := deref (fl_inode f) in
    inode_deny_write i
  else ret tt.

Definition file_allow_write (file : option nat) : FS unit :=
  ASSERT (bool_decide (file <> None));;;
  let! p := deref file in
  let! f := get_file p in
  if fl_deny_write f then
    put_file p (set_deny_write false f);;;
    let! i := deref (fl_inode f) in
    inode_allow_write i
  else ret tt.

(** * Closing *)

Definition file_close (file : option nat) : FS unit :=
  match file with
  | None => ret tt
  | Some p =>
      let! f := get_file p in
      put_file p (set_ref_count (fl_ref_count f - 1) f);;;
      if fl_ref_count f - 1 =? 0 then
        file_allow_write (Some p);;;
        inode_close (fl_inode f);;;
        lock_open_files;;;
        modify (fun s => set_open_files (list_drop p (open_files s)) s);;;
        unlock_open_files;;;
        pipe_close (fl_pipe f) p;;;
        modify (fun s => set_files (delete p (files s)) s)
      else ret tt
  end.

Definition file_get_inode (file : nat) : FS (option nat) :=
  let! f := get_file file in ret (fl_inode f).

Definition file_dup (file : option nat) : FS (option nat) :=
  match file with
  | None => ret None
  | Some p =>
      let! f := get_file p in
      ASSERT (0 <? fl_ref_count f);;;
      lock_open_files;;;
      put_file p (set_ref_count (fl_ref_count f + 1) f);;;
      unlock_open_files;;;
      ret file
  end.

(** * Reading and writing *)

Definition pipe_read_end (p : nat) : FS (option Z) := let! x := get_pipe p in ret (p_read_end x).
Definition pipe_write_end (p : nat) : FS (option Z) := let! x := get_pipe p in ret (p_write_end x).

Definition read_error (file : option nat) : FS Z :=
  match file with
  | None => ret EINVF
  | Some p =>
      let! f := get_file p in
      let! bad := (if decide (fl_type f = PIPE) then
                     let! q := deref (fl_pipe f) in
                     let! e := pipe_read_end q in
                     ret (bool_decide (e <> Some (Z.of_nat p)))
                   else ret false) in
      if bad then ret EBADF
      else if decide (fl_type f = DIR) then ret EISDIR else ret 0
  end.

(** [input_getc] *)
Definition input_getc : FS Z :=
  let! l := gets console_in in
  match l with
  | [] => fail Block
  | b :: l => modify (fun s => set_console l (console_out s) s);;; ret b
  end.

Fixpoint read_console (n : nat) : FS (list Z) :=
  match n with
  | O => ret []
  | S n => let! b := input_getc in let! l := read_console n in ret (b :: l)
  end.

(** The returned count and the bytes stored in the buffer. *)
Definition file_read (file : option nat) (size : Z) : FS (Z * list Z) :=
  let! error := read_error file in
  if negb (error =? 0) then ret (- error, [])
  else
    let! p := deref file in
    let! f := get_file p in
    match fl_type f with
    | STDIN =>
        let! l := read_console (Z.to_nat size) in ret (Z.max 0 size, l)
    | STDOUT => ret (0, [])
    | PIPE =>
        let! q := deref (fl_pipe f) in
        let! x := get_pipe q in
        let! (l, n, x) := lift (pipe_read x size) in
        put_pipe q x;;;
        ret (n, l)
    | REG =>
        let! i := deref (fl_inode f) in
        let! l := inode_read_at i size (fl_pos f) in
        put_file p (set_pos (s32 (fl_pos f + Z.of_nat (length l))) f);;;
        ret (Z.of_nat (length l), l)
    | DIR => ret (-1, [])
    end.

Definition write_error (file : option nat) : FS Z :=
  match file with
  | None => ret EINVF
  | Some p =>
      let! f := get_file p in
      let! bad := (if decide (fl_type f = PIPE) then
                     let! q := deref (fl_pipe f) in
                     let! e := pipe_write_end q in
                     ret (bool_decide (e <> Some (Z.of_nat p)))
                   else ret false) in
      if bad then ret EBADF
      else if decide (fl_type f = DIR) then ret EISDIR else ret 0
  end.

(** [putbuf] *)
Definition putbuf (l : list Z) : FS unit :=
  modify (fun s => set_console (console_in s) (console_out s ++ l) s).

Definition file_write (file : option nat) (buffer : list Z) (size : Z) : FS Z :=
  let! error := write_error file in
  if negb (error =? 0) then ret (- error)
  else
    let! p := deref file in
    let! f := get_file p in
    match fl_type f with
    | STDIN => ret 0
    | STDOUT => putbuf (take (Z.to_nat size) buffer);;; ret size
    | PIPE =>
        let! q := deref (fl_pipe f) in
        let! x := get_pipe q in
        let! (n, x) := lift (pipe_write x buffer size) in
        put_pipe q x;;;
        ret n
    | REG =>
        let! i := deref (fl_inode f) in
        let! n := inode_write_at i buffer size (fl_pos f) in
        put_file p (set_pos (s32 (fl_pos f + n)) f);;;
        ret n
    | DIR => ret (-1)
    end.

(** * Position and length *)

Definition file_length (file : option nat) : FS Z :=
  ASSERT (bool_decide (file <> None));;;
  let! p := deref file in
  let! f := get_file p in
  let! i := deref (fl_inode f) in
  inode_length i.

Definition file_seek (file : option nat) (new_pos : Z) : FS unit :=
  ASSERT (bool_decide (file <> None));;;
  ASSERT (0 <=? new_pos);;;
  let! p := deref file in
  let! f := get_file p in
  put_file p (set_pos new_pos f).

Definition file_tell (file : option nat) : FS Z :=
  ASSERT (bool_decide (file <> None));;;
  let! p := deref file in
  let! f := get_file p in
  ret (fl_pos f).

Definition file_get_directory (file : nat) : FS (option nat) :=
  let! f := get_file file in ret (fl_dir f).

End file.

(** The address of the file name in a path at the address [path]. *)
Definition file_name_from_path (m : list Z) (path : nat) : res nat :=
  let* q := CString.strchr m path 47 in
  if CString.nonnull q then
    let* q := CString.strrchr m path 47 in Ok (q + 1)%nat
  else Ok path.

End File.
