(* ===== verification/Filesys.v ===== *)
(** The file system (src/src/filesys/filesys.c), the rest of the free map
    (src/src/filesys/free-map.c) and the walk along a path
    (dir_traverse_path in src/src/filesys/directory.c).

    The walk is run on an address space that holds the path, the page
    with its copy and the string "/", because it compares pointers into
    the two strings. A variable that the code reads before it has set it
    is an [option]; using it unset is undefined. *)
From S2P Require Import Prelude Words CString Bitmap Monitor Pipe Block Cache Fs Inode Directory File.
From stdpp Require Import options.

Module Filesys.

(** * Walking along a path *)

Definition PGSIZE : nat := Z.to_nat 4096.
Definition SLASH : Z := 47.

(** The addresses of the path, of the page and of "/". *)
Definition path_memory (path page : list Z) : list Z := [0; 0] ++ path ++ [0] ++ page ++ [SLASH; 0].
Definition path_addr : nat := 2.
Definition copy_addr (path : list Z) : nat := length path + 3.
Definition delim_addr (path page : list Z) : nat := length path + 3 + length page.

(** The string at an address. *)
Definition string_at (m : list Z) (p : nat) : list Z := cname (drop p m).

Record walk := mkWalk {
  w_mem : list Z;
  w_name : nat;              (** dir_name *)
  w_ptr : option nat;        (** path_ptr *)
  w_dir : option nat;
  w_rightmost : bool;
}.

Section filesys.
Context {C : Type} `{BufferCache C}.
Abbreviation FS := (ST (fs C)).

(** [strtok_r (NULL, "/", &path_ptr)], the end of a round *)
Definition next_name (delim : nat) (w : walk) : FS walk :=
  let! ptr := deref (w_ptr w) in
  let! (tok, m, ptr) := lift (CString.strtok_r (w_mem w) CString.NULL delim ptr) in
  ret (mkWalk m tok (Some ptr) (w_dir w) (w_rightmost w)).

Definition walk_round (is_dir : bool) (file_name delim : nat) (w : walk)
    : FS (walk + option nat) :=
  if negb (CString.nonnull (w_name w) && negb (w_rightmost w)) then ret (inr (w_dir w))
  else if bool_decide (w_dir w = None) then ret (inr (w_dir w))
  else if (w_name w =? file_name)%nat && negb is_dir then ret (inr (w_dir w))
  else
    let rightmost := if (w_name w =? file_name)%nat then true else w_rightmost w in
    let! inode := dir_lookup (w_dir w) (string_at (w_mem w) (w_name w)) in
    match inode with
    | None => dir_close (w_dir w);;; ret (inr None)
    | Some _ =>
        let! next_dir := dir_open inode in
        dir_close (w_dir w);;;
        let! ptr := deref (w_ptr w) in
        let w := mkWalk (w_mem w) (w_name w) (w_ptr w) next_dir rightmost in
        if negb (CString.nonnull ptr) then ret (inr next_dir)
        else let! w := next_name delim w in ret (inl w)
    end.

(** [page]: the page the path is copied to. *)
Definition dir_traverse_path (path page : list Z) (is_dir : bool) : FS (option nat) :=
  let! path_copy := malloc in
  match path_copy with
  | None => ret None
  | Some _ =>
      let copy := copy_addr path in
      let delim := delim_addr path page in
      let! (m, _) := lift (CString.strlcpy (path_memory path page) copy path_addr PGSIZE) in
      let! slash := lift (CString.strchr m path_addr SLASH) in
      let! file_name := (if CString.nonnull slash then
                           let! q := lift (CString.strrchr m copy SLASH) in ret (q + 1)%nat
                         else ret path_addr) in
      let! (dir_name, m, path_ptr) :=
        (if CString.nonnull slash then
           let! (tok, m, ptr) := lift (CString.strtok_r m copy delim CString.NULL) in
           ret (tok, m, Some ptr)
         else ret (path_addr, m, None)) in
      let! cur := gets current_dir in
      let! absolute := lift (CString.strchr m copy SLASH) in
      let! dir :=
        match (if CString.nonnull absolute then None else cur) with
        | None => dir_open_root
        | Some d =>
            let! i := dir_get_inode d in
            let! removed := inode_is_removed i in
            ret (if removed then None else cur)
        end in
      loop (walk_round is_dir file_name delim) (mkWalk m dir_name path_ptr dir false)
  end.

(** [file_name_from_path], as a string. *)
Definition name_of (path : list Z) : FS (list Z) :=
  let m := path_memory path [] in
  let! q := lift (File.file_name_from_path m path_addr) in
  ret (string_at m q).

(** * The free map *)

(** [free_map_init]: [size] is that of the device, [mem] the blocks that
    [bitmap_create] is given. *)
Definition free_map_init (size : Z) (mem : option unit) (mem_bits : option (list Z)) : FS unit :=
  let! b := lift (bitmap_create mem mem_bits size) in
  match b with
  | None => fail Panic
  | Some b =>
      let! b := lift (bitmap_mark b FREE_MAP_SECTOR) in
      let! b := lift (bitmap_mark b ROOT_DIR_SECTOR) in
      modify (set_free_map b)
  end.

(** [free_map_file = file_open (inode_open (FREE_MAP_SECTOR))] *)
Definition open_map_file : FS nat :=
  let! i := inode_open FREE_MAP_SECTOR in
  let! f := File.file_open i in
  modify (set_free_map_file f);;;
  match f with
  | None => fail Panic
  | Some f => ret f
  end.

Definition free_map_open : FS unit :=
  let! f := open_map_file in
  let! b := gets free_map in
  let! (success, b) := bitmap_read b f in
  modify (set_free_map b);;;
  if negb success then fail Panic else ret tt.

Definition free_map_close : FS unit :=
  let! f := gets free_map_file in
  ASSERT (bool_decide (f <> None));;;
  let! p := deref f in
  let! success := bitmap_write free_map p in
  if negb success then fail Panic else File.file_close f.

Definition free_map_create : FS unit :=
  let! b := gets free_map in
  let! ok := inode_create FREE_MAP_SECTOR (s32 (bitmap_file_size b)) 0 in
  if negb ok then fail Panic
  else
    let! f := open_map_file in
    let! success := bitmap_write free_map f in
    if negb success then fail Panic else ret tt.

(** * filesys.c

    [e0] is what the stack holds where [dir_add] has its entry. *)

Definition do_format (e0 : list Z) : FS unit :=
  free_map_create;;;
  let! ok := dir_create ROOT_DIR_SECTOR 0 in
  if negb ok then fail Panic
  else
    let! root_dir := dir_open_root in
    match root_dir with
    | None => fail Panic
    | Some _ =>
        let! ok := dir_add root_dir dot ROOT_DIR_SECTOR e0 in
        if negb ok then fail Panic
        else
          let! ok := dir_add root_dir dotdot ROOT_DIR_SECTOR e0 in
          if negb ok then fail Panic else free_map_close
    end.

(** [free_map_allocate (1, &inode_sector)], with [inode_sector] 0 when it
    fails. *)
Definition allocate_inode (dir : option nat) : FS (bool * Z) :=
  match dir with
  | None => ret (false, 0)
  | Some _ =>
      let! x := free_map_allocate 1 in
      ret (match x with Some x => (true, x) | None => (false, 0) end)
  end.

Definition filesys_create (path page : list Z) (initial_size : Z) (e0 : list Z) : FS bool :=
  let! file_name := name_of path in
  let! dir := dir_traverse_path path page false in
  let! (ok, inode_sector) := allocate_inode dir in
  let! ok := (if ok then inode_create inode_sector initial_size 0 else ret false) in
  let! success := (if ok then dir_add dir file_name inode_sector e0 else ret false) in
  (if negb success && negb (inode_sector =? 0) then free_map_release inode_sector 1 else ret tt);;;
  ret success.

Definition filesys_dir_create (path page : list Z) (num_entries : Z) (e0 : list Z) : FS bool :=
  let! file_name := name_of path in
  let! dir := dir_traverse_path path page false in
  let! (ok, inode_sector) := allocate_inode dir in
  let! ok := (if ok then dir_create inode_sector (u32 num_entries) else ret false) in
  let! success := (if ok then dir_add dir file_name inode_sector e0 else ret false) in
  if negb success && negb (inode_sector =? 0) then free_map_release inode_sector 1;;; ret false
  else
    let! inode := dir_lookup dir file_name in
    let! success :=
      match inode with
      | None => ret false
      | Some i =>
          let! new_dir := dir_open inode in
          match new_dir with
          | None => ret false
          | Some _ =>
              let! n := inode_get_inumber i in
              let! ok := dir_add new_dir dot n e0 in
              if negb ok then ret false
              else
                let! d := deref dir in
                let! di := dir_get_inode d in
                let! n := inode_get_inumber di in
                dir_add new_dir dotdot n e0
          end
      end in
    (if negb success then
       dir_remove dir file_name;;; free_map_release inode_sector 1
     else ret tt);;;
    ret success.

Definition filesys_open (path page : list Z) : FS (option nat) :=
  let! file_name := name_of path in
  let! dir := dir_traverse_path path page false in
  match dir with
  | None => ret None
  | Some d =>
      let! slash := lift (CString.strchr (path_memory path []) path_addr SLASH) in
      if (length file_name =? 0)%nat && CString.nonnull slash then
        let! i := dir_get_inode d in File.file_open (Some i)
      else
        let! inode := dir_lookup dir file_name in
        match inode with
        | None => ret None
        | Some _ => File.file_open inode
        end
  end.

Definition filesys_remove (path page : list Z) : FS bool :=
  let! file_name := name_of path in
  let! dir := dir_traverse_path path page false in
  match dir with
  | None => ret false
  | Some _ => dir_remove dir file_name
  end.

End filesys.

(** * Starting and stopping, with the cache of src/src/filesys/cache.c *)

(** [dev] is the device with the role [BLOCK_FILESYS]; the other
    arguments are the blocks that the initialisers are given. *)
Definition filesys_init (dev : option block) (format : bool) (mem_cache : list (option (list Z)))
    (mem_queue : option (list Z)) (mem : option unit) (mem_bits : option (list Z))
    (e0 : list Z) (heap : list bool) (input : list Z) : res (fs cache) :=
  match dev with
  | None => Err Panic
  | Some dev =>
      match cache_init dev mem_cache mem_queue with
      | None => Err Block   (** the calling thread exits *)
      | Some c =>
          let s := mkFs c (mkBitmap 0 []) None ∅ [] false ∅ [] false ∅ ∅ heap 0 None 0 input [] in
          let* (_, s) := (inode_init;;; File.file_init;;; free_map_init (block_size dev) mem mem_bits;;;
                          (if format then do_format e0 else ret tt);;; free_map_open) s in
          Ok s
      end
  end.

Definition filesys_done : ST (fs cache) unit :=
  free_map_close;;; cachef cache_flush.

End Filesys.

(** Runs of the file system that end badly: what the code does on a full
    disk, past the largest file, with "." as the name to remove, and with
    sectors that another file held before. Each run is evaluated. *)

(** A formatted disk of [n] sectors (at most 32) that held [byte]
    everywhere. *)
Definition small_disk (n : nat) (byte : Z) : res (fs cache) :=
  Filesys.filesys_init (Some (mkBlock BLOCK_FILESYS (replicate n (replicate 512 byte)) 0 0)) true
    (replicate 64 (Some [])) (Some (replicate 65 0)) (Some tt) (Some [0]) (replicate 20 0)
    (replicate 200 true) [].

(** The result of a run on it. *)
Definition run_on {A} (disk : res (fs cache)) (m : ST (fs cache) A) : res A :=
  let* s := disk in let* (a, _) := m s in Ok a.

Definition blank_page : list Z := replicate (Z.to_nat 4096) 0.
Definition slash (c : Z) : list Z := [47; c].

(** [filesys_create] of empty files with different names. *)
Fixpoint create_files (n : nat) : ST (fs cache) bool :=
  match n with
  | O => ret true
  | S n =>
      let! ok := Filesys.filesys_create (slash (97 + Z.of_nat n)) blank_page 0 (replicate 20 0) in
      let! rest := create_files n in
      ret (ok && rest)
  end.

(** When the disk has one free sector left, creating a file with data
    stops the machine: [inode_create] fails after [inode_close] has freed
    the sector of the inode, and [filesys_create] frees it again, which
    fails the assertion of [free_map_release]. The files before it were
    created. *)
Theorem filesys_create_full_disk :
  run_on (small_disk 20 0) (create_files 15) = Ok true /\
  run_on (small_disk 20 0)
    (create_files 15;;; Filesys.filesys_create (slash 65) blank_page 1 (replicate 20 0)) = Err Panic.
Proof. split; vm_compute; reflexivity. Qed.

(** The only directory open in a new file system is the root, with the
    inode object 3. *)
Definition root_inode : nat := 3.

(** A write past the largest file stops the machine: [byte_to_sector]
    answers -1, which [inode_write_at] uses as a sector number. Just below
    the limit the same write succeeds. *)
Theorem inode_write_past_limit :
  run_on (small_disk 20 0) (inode_write_at root_inode [1] 1 (512 * 16635 - 1)) = Ok 1 /\
  run_on (small_disk 20 0) (inode_write_at root_inode [1] 1 (512 * 16635)) = Err Panic.
Proof. split; vm_compute; reflexivity. Qed.

(** Removing "/." succeeds: the root directory, empty but for its own two
    names, loses the name "." and is marked for deletion. *)
Theorem filesys_remove_dot :
  run_on (small_disk 20 0)
    (let! ok := Filesys.filesys_remove (slash 46) blank_page in
     let! i := get_inode root_inode in
     ret (ok, i_sector i, i_removed i)) = Ok (true, ROOT_DIR_SECTOR, true).
Proof. vm_compute. reflexivity. Qed.

(** The data sector of a new file is not cleared: on a disk that held
    sevens, a file created with 10 bytes reads as nine sevens and the zero
    that [inode_create] wrote at its end. *)
Theorem filesys_create_stale_data :
  run_on (small_disk 20 7)
    (let! _ := Filesys.filesys_create (slash 97) blank_page 10 (replicate 20 0) in
     let! f := Filesys.filesys_open (slash 97) blank_page in
     let! f := deref f in
     file_read_at f 10 0) = Ok (replicate 9 7 ++ [0]).
Proof. vm_compute. reflexivity. Qed.
