(* ===== verification/Syscall.v ===== *)
(** System calls on files: the descriptor table of a process and the
    [sys_*] routines of src/src/userprog/syscall.c on top of the file
    system, with the parts of [thread_create] (src/src/threads/thread.c),
    [load] and [process_exit] (src/src/userprog/process.c) that copy and
    close the table and replace the executable.

    The state is that of the file system and of the process that runs;
    processes take turns between system calls. *)
From S2P Require Import Prelude Words Bitmap Palloc UserMem Pipe Block Cache Fs Inode Directory File Filesys.
From stdpp Require Import options.

#[local] Open Scope Z_scope.

Module Syscall.
Import UserMem.

(** lib/user/errno.h *)
Definition EMFILE : Z := 124.
Definition ENOENT : Z := 129.

Definition FD_MAX : nat := Z.to_nat 1024.

(** The fields of [struct thread] that hold files. [current_dir], while
    the process runs, is in the state of the file system. *)
Record proc := mkProc {
  fd_table : list (option nat);
  exec_file : option nat;
}.

Record sys (C : Type) := mkSys { sy_fs : fs C; sy_proc : proc }.
Arguments mkSys {C}. Arguments sy_fs {C}. Arguments sy_proc {C}.

(** What a call leaves in [eax], if anything, and the bytes it has stored
    in the buffer of the process. *)
Record reply := mkReply { eax : option Z; stored : list Z }.

Section syscall.
Context {C : Type} `{BufferCache C}.
Abbreviation SYS := (ST (sys C)).

Definition fsys {A} (m : ST (fs C) A) : SYS A :=
  fun s => match m (sy_fs s) with
           | Ok (a, f) => Ok (a, mkSys f (sy_proc s))
           | Err e => Err e
           end.

Definition set_fd_table (t : list (option nat)) (s : sys C) : sys C :=
  mkSys (sy_fs s) (mkProc t (exec_file (sy_proc s))).

(** [cur->fd_table[fd] = file] *)
Definition store_fd (fd : Z) (file : option nat) : SYS unit :=
  let! t := gets (fun s => fd_table (sy_proc s)) in
  if (0 <=? fd) && (fd <? Z.of_nat (length t)) then modify (set_fd_table (<[Z.to_nat fd := file]> t)) else fail Fault.

(** * Descriptors *)

Definition get_file_from_fd (fd : Z) : SYS (option nat) :=
  if (fd <? 0) || (Z.of_nat FD_MAX <=? fd) then ret None
  else
    let! t := gets (fun s => fd_table (sy_proc s)) in
    lift (access (t !! Z.to_nat fd)).

(** The first descriptor from [fd] on that is not in use. *)
Fixpoint next_fd (t : list (option nat)) (fd : Z) : option Z :=
  match t with
  | [] => None
  | None :: _ => Some fd
  | Some _ :: t => next_fd t (fd + 1)
  end.

Definition set_next_fd (file : option nat) : SYS Z :=
  let! t := gets (fun s => fd_table (sy_proc s)) in
  match next_fd t 0 with
  | Some fd => store_fd fd file;;; ret fd
  | None => ret (- EMFILE)
  end.

(** * The routines

    [page] is the page that paths are copied to, [e0] what the stack holds
    where [dir_add] has its entry, [buffer] the block of a new pipe. *)
Context (page e0 buffer : list Z).

Definition sys_create (file : list Z) (initial_size : Z) : SYS bool :=
  fsys (Filesys.filesys_create file page (s32 initial_size) e0).

Definition sys_remove (file : list Z) : SYS bool := fsys (Filesys.filesys_remove file page).

Definition sys_open (filename : list Z) : SYS Z :=
  let! file := fsys (Filesys.filesys_open filename page) in
  match file with
  | None => ret (- ENOENT)
  | Some _ =>
      let! fd := set_next_fd file in
      (if fd =? - EMFILE then fsys (File.file_close file) else ret tt);;;
      ret fd
  end.

Definition sys_filesize (fd : Z) : SYS Z :=
  let! file := get_file_from_fd fd in
  match file with
  | None => ret (- File.EINVF)
  | Some _ => fsys (File.file_length file)
  end.

(** The count, and the bytes stored. *)
Definition sys_read (fd size : Z) : SYS (Z * list Z) :=
  let! file := get_file_from_fd fd in
  fsys (File.file_read file (s32 size)).

Definition sys_write (fd : Z) (buf : list Z) (size : Z) : SYS Z :=
  let! file := get_file_from_fd fd in
  fsys (File.file_write file buf (s32 size)).

Definition sys_seek (fd position : Z) : SYS (exit unit) :=
  let! file := get_file_from_fd fd in
  match file with
  | None => ret (Exited (-1))
  | Some _ => fsys (File.file_seek file (s32 position));;; ret (Return tt)
  end.

Definition sys_tell (fd : Z) : SYS Z :=
  let! file := get_file_from_fd fd in
  match file with
  | None => ret (- File.EINVF)
  | Some _ => fsys (File.file_tell file)
  end.

(** [dir_close (file_get_directory (file)); file_close (file);] *)
Definition close_file (f : nat) : SYS unit :=
  let! d := fsys (File.file_get_directory f) in
  fsys (dir_close d);;;
  fsys (File.file_close (Some f)).

Definition sys_close (fd : Z) : SYS unit :=
  let! file := get_file_from_fd fd in
  match file with
  | None => ret tt
  | Some f => close_file f;;; store_fd fd None
  end.

Definition sys_chdir (dir : list Z) : SYS bool :=
  let! chdir := fsys (Filesys.dir_traverse_path dir page true) in
  match chdir with
  | None => ret false
  | Some d =>
      let! d := fsys (dir_reopen d) in
      fsys (modify (set_current_dir d));;;
      ret true
  end.

Definition sys_mkdir (dir : list Z) : SYS bool := fsys (Filesys.filesys_dir_create dir page 0 e0).

(** Whether there is an entry, and the buffer with its name. *)
Definition sys_readdir (fd : Z) (name : list Z) : SYS (bool * list Z) :=
  let! file := get_file_from_fd fd in
  match file with
  | None => ret (false, name)
  | Some f =>
      let! d := fsys (File.file_get_directory f) in
      match d with
      | None => ret (false, name)
      | Some d => fsys (dir_readdir d name)
      end
  end.

Definition sys_isdir (fd : Z) : SYS bool :=
  let! file := get_file_from_fd fd in
  match file with
  | None => ret false
  | Some f =>
      let! d := fsys (File.file_get_directory f) in
      ret (bool_decide (d <> None))
  end.

Definition sys_inumber (fd : Z) : SYS Z :=
  let! file := get_file_from_fd fd in
  match file with
  | None => ret (-1)
  | Some f =>
      let! inode := fsys (File.file_get_inode f) in
      let! inode := lift (access inode) in
      let! n := fsys (inode_get_inumber inode) in
      ret (s32 n)
  end.

Definition sys_dup2 (old_fd new_fd : Z) : SYS Z :=
  let! file := get_file_from_fd old_fd in
  match file with
  | None => ret (-1)
  | Some _ =>
      if old_fd =? new_fd then ret new_fd
      else
        let! prev_file := get_file_from_fd new_fd in
        fsys (File.file_close prev_file);;;
        let! f := fsys (File.file_dup file) in
        store_fd new_fd f;;;
        ret new_fd
  end.

(** The two descriptors are stored at [pipefd]. *)
Definition sys_pipe : SYS (Z * list Z) :=
  let! ends := fsys (File.pipe_open buffer None) in
  match ends with
  | None => ret (-1, [])
  | Some (read_end, write_end) =>
      let! fd0 := set_next_fd (Some read_end) in
      let! fd1 := set_next_fd (Some write_end) in
      let out := le32 (u32 fd0) ++ le32 (u32 fd1) in
      if (fd0 =? -1) || (fd1 =? -1) then
        fsys (File.file_close (Some read_end));;;
        fsys (File.file_close (Some write_end));;;
        ret (-1, out)
      else ret (0, out)
  end.

(** * The handler *)

Definition answer (n : Z) : SYS (exit reply) := ret (Return (mkReply (Some (u32 n)) [])).
Definition truth (b : bool) : SYS (exit reply) := answer (Z.b2z b).

(** The bytes of a buffer of the process. *)
Definition user_bytes (um : Z -> option Z) (buf size : Z) : list Z := map (fun i => get_user um (buf + i)) (seqZ 0 size).

(** The cases of the switch that are calls on files, with the request that
    [syscall_request] has fetched; [None]: another call. *)
Definition perform (um : Z -> option Z) (r : request) : option (SYS (exit reply)) :=
  match r with
  | RCreate name size => Some (
      let! ok := sys_create (cname name) size in
      if ok then answer 1 else let! e := gets (fun s => errno (sy_fs s)) in answer (- e))
  | RRemove name => Some (let! b := sys_remove (cname name) in truth b)
  | ROpen name => Some (let! fd := sys_open (cname name) in answer fd)
  | RFilesize fd => Some (let! n := sys_filesize fd in answer n)
  | RRead fd buf size => Some (let! (n, l) := sys_read fd size in ret (Return (mkReply (Some (u32 n)) l)))
  | RWrite fd buf size => Some (let! n := sys_write fd (user_bytes um buf size) size in answer n)
  | RSeek fd position => Some (
      let! r := sys_seek fd position in
      ret (match r with Return _ => Return (mkReply None []) | Exited st => Exited st end))
  | RTell fd => Some (let! n := sys_tell fd in answer n)
  | RClose fd => Some (sys_close fd;;; ret (Return (mkReply None [])))
  | RChdir name => Some (let! b := sys_chdir (cname name) in truth b)
  | RMkdir name => Some (let! b := sys_mkdir (cname name) in truth b)
  | RReaddir fd name => Some (
      let! (b, l) := sys_readdir fd (user_bytes um name (READDIR_MAX_LEN + 1)) in
      ret (Return (mkReply (Some (u32 (Z.b2z b))) l)))
  | RIsdir fd => Some (let! b := sys_isdir fd in truth b)
  | RInumber fd => Some (let! n := sys_inumber fd in answer n)
  | RDup2 old_fd new_fd => Some (let! n := sys_dup2 old_fd new_fd in answer n)
  | RPipe _ => Some (let! (n, l) := sys_pipe in ret (Return (mkReply (Some (u32 n)) l)))
  | _ => None
  end.

(** * The table of a new thread, and of one that ends *)

Fixpoint dup_table (t : list (option nat)) : ST (fs C) (list (option nat)) :=
  match t with
  | [] => ret []
  | file :: t => let! f := File.file_dup file in let! t := dup_table t in ret (f :: t)
  end.

(** [parent]: the running thread, [None] when it has no table. *)
Definition inherit_files (parent : option proc) : ST (fs C) proc :=
  let! t :=
    match parent with
    | Some p => dup_table (fd_table p)
    | None =>
        let! i := File.file_open_console STDIN in
        let! o := File.file_open_console STDOUT in
        ret (<[1%nat := o]> (<[0%nat := i]> (replicate FD_MAX None)))
    end in
  let! x := match parent with Some p => File.file_dup (exec_file p) | None => ret None end in
  ret (mkProc t x).

(** What [load] does with the file that it has opened, as the bytes of the
    file tell it. *)
Inductive file_use := FileRead (size : Z) | FileSeek (position : Z) | FileLength.

Fixpoint use_file (f : nat) (l : list file_use) : ST (fs C) unit :=
  match l with
  | [] => ret tt
  | FileRead size :: l => File.file_read (Some f) size;;; use_file f l
  | FileSeek position :: l => File.file_seek (Some f) position;;; use_file f l
  | FileLength :: l => File.file_length (Some f);;; use_file f l
  end.

(** The files of [load]: the process gives up the executable that it has,
    the inherited one of a new process, for the one that it has opened,
    whether the rest of loading succeeds or not; for none, if there is no
    memory for a page directory ([pagedir]) or no such file. *)
Definition load_exec (pagedir : bool) (file_name : list Z) (uses : list file_use) : SYS unit :=
  let! file :=
    (if pagedir then
       let! file := fsys (Filesys.filesys_open file_name page) in
       match file with
       | None => ret None
       | Some f => fsys (File.file_deny_write (Some f));;; fsys (use_file f uses);;; ret (Some f)
       end
     else ret None) in
  let! old := gets (fun s => exec_file (sy_proc s)) in
  fsys (File.file_close old);;;
  modify (fun s => mkSys (sy_fs s) (mkProc (fd_table (sy_proc s)) file)).

Fixpoint close_table (t : list (option nat)) : ST (fs C) unit :=
  match t with
  | [] => ret tt
  | None :: t => close_table t
  | Some f :: t =>
      let! d := File.file_get_directory f in
      dir_close d;;;
      File.file_close (Some f);;;
      close_table t
  end.

Definition exit_files (p : proc) : ST (fs C) unit :=
  close_table (fd_table p);;;
  File.file_close (exec_file p);;;
  let! d := gets current_dir in
  dir_close d.
End syscall.

(** * Processes taking turns *)

(** A process that does not run: its files and its current directory. *)
Abbreviation procs := (gmap Z (proc * option nat)).

Section machine.
Context {C : Type} `{BufferCache C}.

Inductive event :=
| Call (pid : Z) (um : Z -> option Z) (r : request) (page e0 buffer : list Z)
| Create (parent : option Z) (pid : Z)
| Load (pid : Z) (pagedir : bool) (file_name : list Z) (uses : list file_use) (page : list Z)
| Exit (pid : Z).

Definition current (ps : procs) (pid : Z) : res (proc * option nat) := access (ps !! pid).

(** A process that is terminated by its call stays until its [Exit]. *)
Definition step (w : fs C * procs) (e : event) : res (fs C * procs) :=
  let '(f, ps) := w in
  match e with
  | Call pid um r page e0 buffer =>
      let* (p, d) := current ps pid in
      match perform page e0 buffer um r with
      | None => Err Block
      | Some m =>
          let* (_, s) := m (mkSys (set_current_dir d f) p) in
          Ok (sy_fs s, <[pid := (sy_proc s, current_dir (sy_fs s))]> ps)
      end
  | Create parent pid =>
      let* p := match parent with None => Ok None | Some q => let* x := current ps q in Ok (Some x) end in
      check bool_decide (ps !! pid = None) in
      let* (d, f) := match p with
                     | Some (_, Some d) => dir_reopen d f
                     | _ => Ok (None, f)
                     end in
      let* (x, f) := inherit_files (fst <$> p) f in
      Ok (f, <[pid := (x, d)]> ps)
  | Load pid pagedir file_name uses page =>
      let* (p, d) := current ps pid in
      let* (_, s) := load_exec page pagedir file_name uses (mkSys (set_current_dir d f) p) in
      Ok (sy_fs s, <[pid := (sy_proc s, current_dir (sy_fs s))]> ps)
  | Exit pid =>
      let* (p, d) := current ps pid in
      let* (_, f) := exit_files p (set_current_dir d f) in
      Ok (f, delete pid ps)
  end.

Fixpoint run (w : fs C * procs) (l : list event) : res (fs C * procs) :=
  match l with
  | [] => Ok w
  | e :: l => let* w := step w e in run w l
  end.
End machine.

End Syscall.
