(* ===== verification/FileFrame.v ===== *)
(** Which routines of the file system change the table of open files: the
    inodes, the directories and the paths leave the reference counts of
    src/src/filesys/file.c alone, whatever they do; opening, closing and
    duplicating a file change them by one. *)
From S2P Require Import Prelude Words CString Bitmap Monitor Pipe Block Cache Fs Inode Directory File Filesys.
From stdpp Require Import options.

#[local] Open Scope Z_scope.

Module FileFrame.

Section frame.
Context {C : Type}.
Abbreviation FS := (ST (fs C)).

(** The references that each open file counts. *)
Definition refs (s : fs C) : gmap nat Z := fl_ref_count <$> files s.

Record same (s s' : fs C) : Prop := mkSame {
  sm_refs : refs s' = refs s;
  sm_next : (fs_next s <= fs_next s')%nat;
  sm_map : free_map_file s' = free_map_file s }.

Definition keeps {A} (m : FS A) : Prop := forall s, match m s with Ok (_, s') => same s s' | Err _ => True end.

Lemma same_refl s : same s s.
Proof. by constructor. Qed.

Lemma same_trans s1 s2 s3 : same s1 s2 -> same s2 s3 -> same s1 s3.
Proof. intros [] []. constructor; [congruence|lia|congruence]. Qed.

Lemma keeps_ret {A} (a : A) : keeps (ret a).
Proof. intros s. apply same_refl. Qed.

Lemma keeps_fail {A} e : keeps (fail (A:=A) e).
Proof. by intros s. Qed.

Lemma keeps_gets {A} (f : fs C -> A) : keeps (gets f).
Proof. intros s. apply same_refl. Qed.

Lemma keeps_modify f : (forall s, same s (f s)) -> keeps (modify f).
Proof. intros H s. apply H. Qed.

Lemma keeps_lift {A} (r : res A) : keeps (lift r).
Proof. intros s. unfold lift. destruct r; [apply same_refl|done]. Qed.

Lemma keeps_bind {A B} (m : FS A) (k : A -> FS B) : keeps m -> (forall a, keeps (k a)) -> keeps (bind m k).
Proof.
  intros Hm Hk s. unfold bind. specialize (Hm s). destruct (m s) as [[a s1]|e]; [|done].
  specialize (Hk a s1). destruct (k a s1) as [[b s2]|e]; [|done]. by eapply same_trans.
Qed.

Lemma keeps_cachef {A} (m : ST C A) : keeps (cachef m).
Proof. intros s. unfold cachef. by destruct (m (fs_cache s)) as [[a c]|]. Qed.

Lemma keeps_run {X A} n (body : X -> FS (X + A)) : (forall x, keeps (body x)) -> forall x, keeps (Prelude.run n body x).
Proof.
  intros Hb. induction n as [|n IH]; intros x; cbn [Prelude.run]; [apply Hb|].
  apply keeps_bind; [apply IH|]. intros [y|a]; [apply IH|apply keeps_ret].
Qed.

Lemma keeps_loop {X A} (body : X -> FS (X + A)) x : (forall x, keeps (body x)) -> keeps (loop body x).
Proof. intros Hb. apply keeps_bind; [by apply keeps_run|]. intros [y|a]; [apply keeps_fail|apply keeps_ret]. Qed.

Lemma keeps_malloc : keeps malloc.
Proof.
  intros s. unfold malloc, bind, gets. destruct (fs_mem s) as [|[|] l]; [apply same_refl|..]; (constructor; [done|cbn; lia|done]).
Qed.
End frame.

Create HintDb keeps discriminated.
#[export] Hint Resolve keeps_ret keeps_fail keeps_gets keeps_lift keeps_cachef keeps_malloc : keeps.

(** One rule for each construct that routines are made of. *)
Ltac keep_step :=
  lazymatch goal with
  | |- keeps (bind _ _) => apply keeps_bind; [|intros ?]
  | |- keeps (loop _ _) => apply keeps_loop; intros ?
  | |- keeps (modify _) => apply keeps_modify; intros ?; by constructor
  | |- keeps (ASSERT _) => apply keeps_lift
  | |- keeps (deref _) => apply keeps_lift
  | |- keeps (match ?x with _ => _ end) => destruct x
  | |- keeps (let _ := _ in _) => intros ?
  | |- keeps _ => solve [auto with keeps]
  end.
Ltac keep_all := intros; cbv zeta; repeat keep_step.
Tactic Notation "keep" reference(d) := unfold d; keep_all.

Section routines.
Context {C : Type} `{BufferCache C}.

Lemma keeps_get_inode p : keeps (get_inode (C:=C) p).
Proof. keep get_inode. Qed.
#[local] Hint Resolve keeps_get_inode : keeps.

Lemma keeps_put_inode p i : keeps (put_inode (C:=C) p i).
Proof. keep put_inode. Qed.
#[local] Hint Resolve keeps_put_inode : keeps.

Lemma keeps_get_file p : keeps (get_file (C:=C) p).
Proof. keep get_file. Qed.
#[local] Hint Resolve keeps_get_file : keeps.

Lemma keeps_get_dir p : keeps (get_dir (C:=C) p).
Proof. keep get_dir. Qed.
#[local] Hint Resolve keeps_get_dir : keeps.

Lemma keeps_put_dir p d : keeps (put_dir (C:=C) p d).
Proof. keep put_dir. Qed.
#[local] Hint Resolve keeps_put_dir : keeps.

Lemma keeps_lock_open_inodes  : keeps (lock_open_inodes (C:=C)).
Proof. keep lock_open_inodes. Qed.
#[local] Hint Resolve keeps_lock_open_inodes : keeps.

Lemma keeps_unlock_open_inodes  : keeps (unlock_open_inodes (C:=C)).
Proof. keep unlock_open_inodes. Qed.
#[local] Hint Resolve keeps_unlock_open_inodes : keeps.

Lemma keeps_lock_open_files  : keeps (lock_open_files (C:=C)).
Proof. keep lock_open_files. Qed.
#[local] Hint Resolve keeps_lock_open_files : keeps.

Lemma keeps_unlock_open_files  : keeps (unlock_open_files (C:=C)).
Proof. keep unlock_open_files. Qed.
#[local] Hint Resolve keeps_unlock_open_files : keeps.

Lemma keeps_free_map_allocate cnt : keeps (free_map_allocate (C:=C) cnt).
Proof. keep free_map_allocate. Qed.
#[local] Hint Resolve keeps_free_map_allocate : keeps.

Lemma keeps_access_indirect_block i w : keeps (access_indirect_block (C:=C) i w).
Proof. keep access_indirect_block. Qed.
#[local] Hint Resolve keeps_access_indirect_block : keeps.

Lemma keeps_lookup_direct_table b d m w : keeps (lookup_direct_table (C:=C) b d m w).
Proof. keep lookup_direct_table. Qed.
#[local] Hint Resolve keeps_lookup_direct_table : keeps.

Lemma keeps_lookup_table_entry d i x m w : keeps (lookup_table_entry (C:=C) d i x m w).
Proof. keep lookup_table_entry. Qed.
#[local] Hint Resolve keeps_lookup_table_entry : keeps.

Lemma keeps_lookup_indirect_table b d m w : keeps (lookup_indirect_table (C:=C) b d m w).
Proof. keep lookup_indirect_table. Qed.
#[local] Hint Resolve keeps_lookup_indirect_table : keeps.

Lemma keeps_lookup_double_indirect_table b d m w : keeps (lookup_double_indirect_table (C:=C) b d m w).
Proof. keep lookup_double_indirect_table. Qed.
#[local] Hint Resolve keeps_lookup_double_indirect_table : keeps.

Lemma keeps_byte_to_sector i p w : keeps (byte_to_sector (C:=C) i p w).
Proof. keep byte_to_sector. Qed.
#[local] Hint Resolve keeps_byte_to_sector : keeps.

Lemma keeps_inode_length i : keeps (inode_length (C:=C) i).
Proof. keep inode_length. Qed.
#[local] Hint Resolve keeps_inode_length : keeps.

Lemma keeps_inode_is_dir i : keeps (inode_is_dir (C:=C) i).
Proof. keep inode_is_dir. Qed.
#[local] Hint Resolve keeps_inode_is_dir : keeps.

Lemma keeps_read_loop fuel : forall i l n o out, keeps (read_loop (C:=C) fuel i l n o out).
Proof. induction fuel as [|? ? IH] || induction fuel as [|? IH]; intros; cbn [read_loop]; keep_all; apply IH. Qed.
#[local] Hint Resolve keeps_read_loop : keeps.

Lemma keeps_inode_read_at i n o : keeps (inode_read_at (C:=C) i n o).
Proof. keep inode_read_at. Qed.
#[local] Hint Resolve keeps_inode_read_at : keeps.

Lemma keeps_write_loop fuel : forall i b n o w, keeps (write_loop (C:=C) fuel i b n o w).
Proof. induction fuel as [|? ? IH] || induction fuel as [|? IH]; intros; cbn [write_loop]; keep_all; apply IH. Qed.
#[local] Hint Resolve keeps_write_loop : keeps.

Lemma keeps_inode_write_from i b n o : keeps (inode_write_from (C:=C) i b n o).
Proof. keep inode_write_from. Qed.
#[local] Hint Resolve keeps_inode_write_from : keeps.

Lemma keeps_inode_write_at i b n o : keeps (inode_write_at (C:=C) i b n o).
Proof. keep inode_write_at. Qed.
#[local] Hint Resolve keeps_inode_write_at : keeps.

Lemma keeps_file_write_at f b n o : keeps (file_write_at (C:=C) f b n o).
Proof. keep file_write_at. Qed.
#[local] Hint Resolve keeps_file_write_at : keeps.

Lemma keeps_file_read_at f n o : keeps (file_read_at (C:=C) f n o).
Proof. keep file_read_at. Qed.
#[local] Hint Resolve keeps_file_read_at : keeps.

Lemma keeps_bitmap_write b f : keeps (bitmap_write (C:=C) b f).
Proof. keep bitmap_write. Qed.
#[local] Hint Resolve keeps_bitmap_write : keeps.

Lemma keeps_bitmap_read b f : keeps (bitmap_read (C:=C) b f).
Proof. keep bitmap_read. Qed.
#[local] Hint Resolve keeps_bitmap_read : keeps.

Lemma keeps_free_map_release x n : keeps (free_map_release (C:=C) x n).
Proof. keep free_map_release. Qed.
#[local] Hint Resolve keeps_free_map_release : keeps.

Lemma keeps_inode_reopen i : keeps (inode_reopen (C:=C) i).
Proof. keep inode_reopen. Qed.
#[local] Hint Resolve keeps_inode_reopen : keeps.

Lemma keeps_find_open l : forall x, keeps (find_open (C:=C) l x).
Proof. induction l as [|? ? IH] || induction l as [|? IH]; intros; cbn [find_open]; keep_all; apply IH. Qed.
#[local] Hint Resolve keeps_find_open : keeps.

Lemma keeps_inode_open x : keeps (inode_open (C:=C) x).
Proof. keep inode_open. Qed.
#[local] Hint Resolve keeps_inode_open : keeps.

Lemma keeps_inode_get_inumber i : keeps (inode_get_inumber (C:=C) i).
Proof. keep inode_get_inumber. Qed.
#[local] Hint Resolve keeps_inode_get_inumber : keeps.

Lemma keeps_release_data_loop fuel : forall i p, keeps (release_data_loop (C:=C) fuel i p).
Proof. induction fuel as [|? ? IH] || induction fuel as [|? IH]; intros; cbn [release_data_loop]; keep_all; apply IH. Qed.
#[local] Hint Resolve keeps_release_data_loop : keeps.

Lemma keeps_release_table_loop n : forall i t, keeps (release_table_loop (C:=C) n i t).
Proof. induction n as [|? ? IH] || induction n as [|? IH]; intros; cbn [release_table_loop]; keep_all; apply IH. Qed.
#[local] Hint Resolve keeps_release_table_loop : keeps.

Lemma keeps_release_blocks i x : keeps (release_blocks (C:=C) i x).
Proof. keep release_blocks. Qed.
#[local] Hint Resolve keeps_release_blocks : keeps.

Lemma keeps_inode_close i : keeps (inode_close (C:=C) i).
Proof. keep inode_close. Qed.
#[local] Hint Resolve keeps_inode_close : keeps.

Lemma keeps_inode_remove i : keeps (inode_remove (C:=C) i).
Proof. keep inode_remove. Qed.
#[local] Hint Resolve keeps_inode_remove : keeps.

Lemma keeps_inode_create x n d : keeps (inode_create (C:=C) x n d).
Proof. keep inode_create. Qed.
#[local] Hint Resolve keeps_inode_create : keeps.

Lemma keeps_inode_deny_write i : keeps (inode_deny_write (C:=C) i).
Proof. keep inode_deny_write. Qed.
#[local] Hint Resolve keeps_inode_deny_write : keeps.

Lemma keeps_inode_allow_write i : keeps (inode_allow_write (C:=C) i).
Proof. keep inode_allow_write. Qed.
#[local] Hint Resolve keeps_inode_allow_write : keeps.

Lemma keeps_inode_is_removed i : keeps (inode_is_removed (C:=C) i).
Proof. keep inode_is_removed. Qed.
#[local] Hint Resolve keeps_inode_is_removed : keeps.

Lemma keeps_inode_lock_acquire i : keeps (inode_lock_acquire (C:=C) i).
Proof. keep inode_lock_acquire. Qed.
#[local] Hint Resolve keeps_inode_lock_acquire : keeps.

Lemma keeps_inode_lock_release i : keeps (inode_lock_release (C:=C) i).
Proof. keep inode_lock_release. Qed.
#[local] Hint Resolve keeps_inode_lock_release : keeps.

Lemma keeps_dir_create x n : keeps (dir_create (C:=C) x n).
Proof. keep dir_create. Qed.
#[local] Hint Resolve keeps_dir_create : keeps.

Lemma keeps_dir_open i : keeps (dir_open (C:=C) i).
Proof. keep dir_open. Qed.
#[local] Hint Resolve keeps_dir_open : keeps.

Lemma keeps_dir_open_root  : keeps (dir_open_root (C:=C)).
Proof. keep dir_open_root. Qed.
#[local] Hint Resolve keeps_dir_open_root : keeps.

Lemma keeps_dir_reopen d : keeps (dir_reopen (C:=C) d).
Proof. keep dir_reopen. Qed.
#[local] Hint Resolve keeps_dir_reopen : keeps.

Lemma keeps_dir_close d : keeps (dir_close (C:=C) d).
Proof. keep dir_close. Qed.
#[local] Hint Resolve keeps_dir_close : keeps.

Lemma keeps_dir_get_inode d : keeps (dir_get_inode (C:=C) d).
Proof. keep dir_get_inode. Qed.
#[local] Hint Resolve keeps_dir_get_inode : keeps.

Lemma keeps_read_entry i o : keeps (read_entry (C:=C) i o).
Proof. keep read_entry. Qed.
#[local] Hint Resolve keeps_read_entry : keeps.

Lemma keeps_entries {A} i body : keeps (entries (C:=C) i (A:=A) body).
Proof. keep entries. Qed.
#[local] Hint Resolve keeps_entries : keeps.

Lemma keeps_lookup d n : keeps (lookup (C:=C) d n).
Proof. keep lookup. Qed.
#[local] Hint Resolve keeps_lookup : keeps.

Lemma keeps_dir_lookup d n : keeps (dir_lookup (C:=C) d n).
Proof. keep dir_lookup. Qed.
#[local] Hint Resolve keeps_dir_lookup : keeps.

Lemma keeps_free_slot i e : keeps (free_slot (C:=C) i e).
Proof. keep free_slot. Qed.
#[local] Hint Resolve keeps_free_slot : keeps.

Lemma keeps_dir_add d n x e : keeps (dir_add (C:=C) d n x e).
Proof. keep dir_add. Qed.
#[local] Hint Resolve keeps_dir_add : keeps.

Lemma keeps_is_empty i : keeps (is_empty (C:=C) i).
Proof. keep is_empty. Qed.
#[local] Hint Resolve keeps_is_empty : keeps.

Lemma keeps_dir_remove d n : keeps (dir_remove (C:=C) d n).
Proof. keep dir_remove. Qed.
#[local] Hint Resolve keeps_dir_remove : keeps.

Lemma keeps_dir_readdir d n : keeps (dir_readdir (C:=C) d n).
Proof. keep dir_readdir. Qed.
#[local] Hint Resolve keeps_dir_readdir : keeps.

Lemma keeps_get_pipe p : keeps (File.get_pipe (C:=C) p).
Proof. keep File.get_pipe. Qed.
#[local] Hint Resolve keeps_get_pipe : keeps.

Lemma keeps_put_pipe p x : keeps (File.put_pipe (C:=C) p x).
Proof. keep File.put_pipe. Qed.
#[local] Hint Resolve keeps_put_pipe : keeps.

Lemma keeps_pipe_close p f : keeps (File.pipe_close (C:=C) p f).
Proof. keep File.pipe_close. Qed.
#[local] Hint Resolve keeps_pipe_close : keeps.

Lemma keeps_pipe_read_end p : keeps (File.pipe_read_end (C:=C) p).
Proof. keep File.pipe_read_end. Qed.
#[local] Hint Resolve keeps_pipe_read_end : keeps.

Lemma keeps_pipe_write_end p : keeps (File.pipe_write_end (C:=C) p).
Proof. keep File.pipe_write_end. Qed.
#[local] Hint Resolve keeps_pipe_write_end : keeps.

Lemma keeps_read_error f : keeps (File.read_error (C:=C) f).
Proof. keep File.read_error. Qed.
#[local] Hint Resolve keeps_read_error : keeps.

Lemma keeps_input_getc  : keeps (File.input_getc (C:=C)).
Proof. keep File.input_getc. Qed.
#[local] Hint Resolve keeps_input_getc : keeps.

Lemma keeps_read_console n : keeps (File.read_console (C:=C) n).
Proof. induction n as [|? IH]; cbn [File.read_console]; keep_all; apply IH. Qed.
#[local] Hint Resolve keeps_read_console : keeps.

Lemma keeps_write_error f : keeps (File.write_error (C:=C) f).
Proof. keep File.write_error. Qed.
#[local] Hint Resolve keeps_write_error : keeps.

Lemma keeps_putbuf l : keeps (File.putbuf (C:=C) l).
Proof. keep File.putbuf. Qed.
#[local] Hint Resolve keeps_putbuf : keeps.

Lemma keeps_file_length f : keeps (File.file_length (C:=C) f).
Proof. keep File.file_length. Qed.
#[local] Hint Resolve keeps_file_length : keeps.

Lemma keeps_file_tell f : keeps (File.file_tell (C:=C) f).
Proof. keep File.file_tell. Qed.
#[local] Hint Resolve keeps_file_tell : keeps.

Lemma keeps_file_get_directory f : keeps (File.file_get_directory (C:=C) f).
Proof. keep File.file_get_directory. Qed.
#[local] Hint Resolve keeps_file_get_directory : keeps.

Lemma keeps_file_get_inode f : keeps (File.file_get_inode (C:=C) f).
Proof. keep File.file_get_inode. Qed.
#[local] Hint Resolve keeps_file_get_inode : keeps.

Lemma keeps_next_name d w : keeps (Filesys.next_name (C:=C) d w).
Proof. keep Filesys.next_name. Qed.
#[local] Hint Resolve keeps_next_name : keeps.

Lemma keeps_walk_round b n d w : keeps (Filesys.walk_round (C:=C) b n d w).
Proof. keep Filesys.walk_round. Qed.
#[local] Hint Resolve keeps_walk_round : keeps.

Lemma keeps_dir_traverse_path p q b : keeps (Filesys.dir_traverse_path (C:=C) p q b).
Proof. keep Filesys.dir_traverse_path. Qed.
#[local] Hint Resolve keeps_dir_traverse_path : keeps.

Lemma keeps_name_of p : keeps (Filesys.name_of (C:=C) p).
Proof. keep Filesys.name_of. Qed.
#[local] Hint Resolve keeps_name_of : keeps.

Lemma keeps_allocate_inode d : keeps (Filesys.allocate_inode (C:=C) d).
Proof. keep Filesys.allocate_inode. Qed.
#[local] Hint Resolve keeps_allocate_inode : keeps.

Lemma keeps_filesys_create p q n e : keeps (Filesys.filesys_create (C:=C) p q n e).
Proof. keep Filesys.filesys_create. Qed.
#[local] Hint Resolve keeps_filesys_create : keeps.

Lemma keeps_filesys_dir_create p q n e : keeps (Filesys.filesys_dir_create (C:=C) p q n e).
Proof. keep Filesys.filesys_dir_create. Qed.
#[local] Hint Resolve keeps_filesys_dir_create : keeps.

Lemma keeps_filesys_remove p q : keeps (Filesys.filesys_remove (C:=C) p q).
Proof. keep Filesys.filesys_remove. Qed.
#[local] Hint Resolve keeps_filesys_remove : keeps.

End routines.

#[export] Hint Resolve
  keeps_get_inode keeps_put_inode keeps_get_file keeps_get_dir keeps_put_dir keeps_lock_open_inodes
  keeps_unlock_open_inodes keeps_lock_open_files keeps_unlock_open_files keeps_free_map_allocate
  keeps_access_indirect_block keeps_lookup_direct_table keeps_lookup_table_entry
  keeps_lookup_indirect_table keeps_lookup_double_indirect_table keeps_byte_to_sector
  keeps_inode_length keeps_inode_is_dir keeps_read_loop keeps_inode_read_at keeps_write_loop
  keeps_inode_write_from keeps_inode_write_at keeps_file_write_at keeps_file_read_at
  keeps_bitmap_write keeps_bitmap_read keeps_free_map_release keeps_inode_reopen keeps_find_open
  keeps_inode_open keeps_inode_get_inumber keeps_release_data_loop keeps_release_table_loop
  keeps_release_blocks keeps_inode_close keeps_inode_remove keeps_inode_create
  keeps_inode_deny_write keeps_inode_allow_write keeps_inode_is_removed keeps_inode_lock_acquire
  keeps_inode_lock_release keeps_dir_create keeps_dir_open keeps_dir_open_root keeps_dir_reopen
  keeps_dir_close keeps_dir_get_inode keeps_read_entry keeps_entries keeps_lookup keeps_dir_lookup
  keeps_free_slot keeps_dir_add keeps_is_empty keeps_dir_remove keeps_dir_readdir keeps_get_pipe
  keeps_put_pipe keeps_pipe_close keeps_pipe_read_end keeps_pipe_write_end keeps_read_error
  keeps_input_getc keeps_read_console keeps_write_error keeps_putbuf keeps_file_length
  keeps_file_tell keeps_file_get_directory keeps_file_get_inode keeps_next_name keeps_walk_round
  keeps_dir_traverse_path keeps_name_of keeps_allocate_inode keeps_filesys_create
  keeps_filesys_dir_create keeps_filesys_remove : keeps.

End FileFrame.

(** The reference counts of open files (src/src/filesys/file.c) and who
    holds the references: opening gives one, [file_dup] one more,
    [file_close] takes one back and frees the file with the last. *)

Module FileRefs.
Import FileFrame.

(** Partial correctness: what holds if the routine returns. *)
Definition ifok {S A} (m : ST S A) (Q : A -> S -> Prop) (s : S) : Prop :=
  match m s with Ok (a, s') => Q a s' | Err _ => True end.

Section ifok.
Context {S : Type}.

Lemma ifok_bind {A B} (m : ST S A) (k : A -> ST S B) Q s : ifok m (fun a => ifok (k a) Q) s -> ifok (bind m k) Q s.
Proof. unfold ifok, bind. by destruct (m s) as [[a s']|]. Qed.

Lemma ifok_mono {A} (m : ST S A) (P Q : A -> S -> Prop) s : ifok m P s -> (forall a s', P a s' -> Q a s') -> ifok m Q s.
Proof. unfold ifok. destruct (m s) as [[a s']|]; auto. Qed.

Lemma ifok_lift {A} (r : res A) (Q : A -> S -> Prop) s : (forall a, r = Ok a -> Q a s) -> ifok (lift r) Q s.
Proof. unfold ifok, lift. destruct r; auto. Qed.

Lemma ifok_ASSERT b (Q : unit -> S -> Prop) s : (b = true -> Q tt s) -> ifok (ASSERT b) Q s.
Proof. intros H. apply ifok_lift. destruct b; [|done]. intros [] _. auto. Qed.
End ifok.

(** How often [f] is in the list of references. *)
Definition occ (f : nat) (h : list nat) : nat := length (filter (f =.) h).

#[export] Instance occ_proper f : Proper ((≡ₚ) ==> eq) (occ f).
Proof. intros h h' E. unfold occ. by rewrite E. Qed.

Lemma occ_cons f g h : occ f (g :: h) = ((if decide (f = g) then 1 else 0) + occ f h)%nat.
Proof. unfold occ. rewrite filter_cons. by case_decide. Qed.

Lemma occ_zero f h : occ f h = 0%nat <-> f ∉ h.
Proof.
  unfold occ. rewrite length_zero_iff_nil. split.
  - intros E Hf. by apply (filter_nil_not_elem_of (f =.) h f) in Hf.
  - intros Hf. induction h as [|g h IH]; [done|]. rewrite not_elem_of_cons in Hf. destruct Hf as [Hg Hf].
    rewrite filter_cons_False by done. by apply IH.
Qed.

(** A file that nobody refers to is not there. *)
Definition tally (n : nat) : option Z := match n with O => None | S _ => Some (Z.of_nat n) end.

Section refs.
Context {C : Type} `{BufferCache C}.
Abbreviation FS := (ST (fs C)).
Implicit Types (s : fs C) (h : list nat).

(** [h]: the references that are held, one entry for each. *)
Record counted (s : fs C) (h : list nat) : Prop := mkCounted {
  ct_refs : forall f, refs s !! f = tally (occ f h);
  ct_fresh : forall f, f ∈ h -> (f < fs_next s)%nat }.

#[export] Instance counted_proper s : Proper ((≡ₚ) ==> iff) (counted s).
Proof using Type.
  intros h h' E. split; intros [H1 H2]; constructor; intros f.
  - by rewrite <- E.
  - rewrite <- E. apply H2.
  - by rewrite E.
  - rewrite E. apply H2.
Qed.

Lemma counted_same s s' h : same s s' -> counted s h -> counted s' h.
Proof using Type. intros [E1 E2 _] [H1 H2]. constructor; [by rewrite E1|]. intros f Hf. apply H2 in Hf. lia. Qed.

Lemma keeps_ifok {A} (m : FS A) s (Q : A -> fs C -> Prop) : keeps m -> (forall a s', same s s' -> Q a s') -> ifok m Q s.
Proof using Type. intros Hm HQ. unfold ifok. specialize (Hm s). destruct (m s) as [[a s']|]; auto. Qed.

Lemma ifok_get_file p s (Q : file -> fs C -> Prop) : (forall f, files s !! p = Some f -> Q f s) -> ifok (get_file p) Q s.
Proof using Type. intros HQ. unfold get_file. apply ifok_bind. apply ifok_lift. intros f E. apply HQ. destruct (files s !! p); [by injection E as ->|done]. Qed.

Lemma refs_file s p f : files s !! p = Some f -> refs s !! p = Some (fl_ref_count f).
Proof using Type. intros E. unfold refs. by rewrite lookup_fmap, E. Qed.

(** Storing a file that counts what it counted. *)
Lemma put_same s p x : refs s !! p = Some (fl_ref_count x) -> same s (set_files (<[p := x]> (files s)) s).
Proof using Type. intros E. constructor; [|done|done]. unfold refs in *. cbn. rewrite fmap_insert. by apply insert_id. Qed.

(** A new file. *)
Lemma put_new s p x h : counted s h -> fl_ref_count x = 1 -> p ∉ h -> (p < fs_next s)%nat ->
  counted (set_files (<[p := x]> (files s)) s) (p :: h).
Proof using Type.
  intros [H1 H2] Ex Hp Hn. constructor.
  - intros f. unfold refs in *. cbn [files set_files]. rewrite fmap_insert, Ex, occ_cons. destruct (decide (f = p)) as [->|Hf].
    + rewrite lookup_insert_eq. apply occ_zero in Hp. by rewrite Hp.
    + by rewrite lookup_insert_ne, H1 by done.
  - intros f [->|Hf]%elem_of_cons; [done|by apply H2].
Qed.

Lemma malloc_fresh s h (Q : option nat -> fs C -> Prop) : counted s h ->
  (forall s', same s s' -> Q None s') ->
  (forall p s', same s s' -> p ∉ h -> (fs_next s <= p < fs_next s')%nat -> Q (Some p) s') -> ifok malloc Q s.
Proof using Type.
  intros Hc H1 H2. unfold ifok, malloc, bind, gets. destruct (fs_mem s) as [|[|] l]; [apply H1, same_refl| |apply H1; by constructor].
  apply H2; [constructor; [done|cbn; lia|done]| |cbn; lia]. intros Hin. apply (ct_fresh _ _ Hc) in Hin. lia.
Qed.

Lemma counted_refs s h p n : counted s h -> refs s !! p = Some n -> n = Z.of_nat (occ p h) /\ p ∈ h.
Proof using Type.
  intros Hc. rewrite (ct_refs _ _ Hc). destruct (occ p h) eqn:E; [done|]. intros [= <-]. split; [done|].
  destruct (decide (p ∈ h)) as [|Hn]; [done|]. apply occ_zero in Hn. congruence.
Qed.

Lemma counted_held s h p : counted s h -> p ∈ h -> exists f, files s !! p = Some f /\ fl_ref_count f = Z.of_nat (occ p h).
Proof using Type.
  intros Hc Hp. pose proof (ct_refs _ _ Hc p) as E. unfold refs in E. rewrite lookup_fmap in E.
  destruct (occ p h) as [|n] eqn:En; [by apply occ_zero in En|]. destruct (files s !! p) as [f|]; [|done]. exists f. split; [done|]. by injection E as ->.
Qed.
End refs.

(** Steps over what leaves the counts alone. *)
Ltac same_step Hs :=
  apply ifok_bind; apply keeps_ifok; [solve [keep_all]|]; intros ? ? Hs.

Section operations.
Context {C : Type} `{BufferCache C}.
Implicit Types (s : fs C) (h : list nat).

Lemma keeps_push_open_file f : keeps (File.push_open_file (C:=C) f).
Proof using Type. keep File.push_open_file. Qed.
#[local] Hint Resolve keeps_push_open_file : keeps.

(** What opening gives: a reference, or nothing. *)
Definition given (h : list nat) (r : option nat) (s : fs C) : Prop := counted s (match r with Some f => f :: h | None => h end).

Lemma place_file s h p x (Q : option nat -> fs C -> Prop) : counted s h -> fl_ref_count x = 1 -> p ∉ h -> (p < fs_next s)%nat ->
  (forall s', counted s' (p :: h) -> Q (Some p) s') -> ifok (put_file p x;;; File.push_open_file p;;; ret (Some p)) Q s.
Proof using Type.
  intros Hc Hx Hp Hn HQ. apply ifok_bind. change (ifok (put_file p x)) with (ifok (A:=unit) (modify (fun s : fs C => set_files (<[p := x]> (files s)) s))).
  unfold ifok at 1, modify. same_step Hs. apply HQ. eapply counted_same; [exact Hs|]. by apply put_new.
Qed.

Lemma file_open_console_refs s h t : counted s h -> ifok (File.file_open_console t) (given h) s.
Proof using Type.
  intros Hc. unfold File.file_open_console. destruct (bool_decide _ && bool_decide _); [done|].
  apply ifok_bind. eapply malloc_fresh; [exact Hc|intros s' Hs; by apply ifok_bind, ifok_lift|]. intros p s' Hs Hp Hn.
  apply ifok_bind, ifok_lift. intros q [= <-]. eapply place_file; [by eapply counted_same|done|done|lia|]. done.
Qed.

Lemma file_open_refs s h i : counted s h -> ifok (File.file_open i) (given h) s.
Proof using Type.
  intros Hc. unfold File.file_open. apply ifok_bind. eapply malloc_fresh; [exact Hc|..].
  - intros s' Hs. destruct i; same_step Hs'; (eapply counted_same; [exact Hs'|by eapply counted_same]).
  - intros p s' Hs Hp Hn. pose proof (counted_same _ _ _ Hs Hc) as Hc'. destruct i as [i|]; [|same_step Hs'; by eapply counted_same].
    same_step H1. apply ifok_bind. apply keeps_ifok; [destruct a; keep_all|]. intros [t d] s2 H2.
    pose proof (same_trans _ _ _ H1 H2) as H3. eapply place_file; [by eapply counted_same|done|done|pose proof (sm_next _ _ H3); lia|]. done.
Qed.

(** [file_read] and the like: a file that counts what it counted is stored
    again. *)
Lemma put_file_same s s0 p f x (Q : unit -> fs C -> Prop) : files s0 !! p = Some f -> same s0 s -> fl_ref_count x = fl_ref_count f ->
  (forall s', same s0 s' -> Q tt s') -> ifok (put_file p x) Q s.
Proof using Type.
  intros E Hs Ex HQ. apply HQ. eapply same_trans; [exact Hs|]. apply put_same. rewrite (sm_refs _ _ Hs), Ex. by apply refs_file.
Qed.

Lemma ifok_keeps {A} (m : ST (fs C) A) : (forall s, ifok m (fun _ s' => same s s') s) -> keeps m.
Proof using Type. done. Qed.

Lemma keeps_file_read f n : keeps (File.file_read (C:=C) f n).
Proof using Type.
  apply ifok_keeps. intros s. unfold File.file_read. same_step H1. destruct (negb _); [done|]. apply ifok_bind, ifok_lift. intros p _.
  apply ifok_bind, ifok_get_file. intros x Ex. apply (fun H => ifok_mono _ _ _ _ H (fun _ s2 => same_trans s s' s2 H1)).
  destruct (fl_type x); [apply keeps_ifok; [keep_all|done]..| | |].
  - apply ifok_bind, ifok_lift. intros i _. same_step H2. apply ifok_bind. eapply put_file_same; [exact Ex|exact H2|done|]. done.
  - done.
  - apply keeps_ifok; [keep_all|done].
Qed.

Lemma keeps_file_write f l n : keeps (File.file_write (C:=C) f l n).
Proof using Type.
  apply ifok_keeps. intros s. unfold File.file_write. same_step H1. destruct (negb _); [done|]. apply ifok_bind, ifok_lift. intros p _.
  apply ifok_bind, ifok_get_file. intros x Ex. apply (fun H => ifok_mono _ _ _ _ H (fun _ s2 => same_trans s s' s2 H1)).
  destruct (fl_type x); [apply keeps_ifok; [keep_all|done]..| | |].
  - apply ifok_bind, ifok_lift. intros i _. same_step H2. apply ifok_bind. eapply put_file_same; [exact Ex|exact H2|done|]. done.
  - done.
  - apply keeps_ifok; [keep_all|done].
Qed.

Lemma keeps_file_seek f n : keeps (File.file_seek (C:=C) f n).
Proof using Type.
  apply ifok_keeps. intros s. unfold File.file_seek. same_step H1. same_step H2. apply ifok_bind, ifok_lift. intros p _.
  pose proof (same_trans _ _ _ H1 H2) as H3. apply ifok_bind, ifok_get_file. intros x Ex.
  eapply put_file_same; [exact Ex|apply same_refl|done|]. intros s2. by apply same_trans.
Qed.

Lemma keeps_file_allow_write f : keeps (File.file_allow_write (C:=C) f).
Proof using Type.
  apply ifok_keeps. intros s. unfold File.file_allow_write. same_step H1. apply ifok_bind, ifok_lift. intros p _.
  apply ifok_bind, ifok_get_file. intros x Ex. apply (fun H => ifok_mono _ _ _ _ H (fun _ s2 => same_trans s s' s2 H1)). destruct (fl_deny_write x); [|done].
  apply ifok_bind. eapply put_file_same; [exact Ex|apply same_refl|done|]. intros s2 H2. apply keeps_ifok; [keep_all|]. intros _ s3. by apply same_trans.
Qed.

Lemma keeps_file_deny_write f : keeps (File.file_deny_write (C:=C) f).
Proof using Type.
  apply ifok_keeps. intros s. unfold File.file_deny_write. same_step H1. apply ifok_bind, ifok_lift. intros p _.
  apply ifok_bind, ifok_get_file. intros x Ex. apply (fun H => ifok_mono _ _ _ _ H (fun _ s2 => same_trans s s' s2 H1)). destruct (negb _); [|done].
  apply ifok_bind. eapply put_file_same; [exact Ex|apply same_refl|done|]. intros s2 H2. apply keeps_ifok; [keep_all|]. intros _ s3. by apply same_trans.
Qed.
End operations.

#[export] Hint Resolve keeps_push_open_file keeps_file_read keeps_file_write keeps_file_seek keeps_file_allow_write keeps_file_deny_write : keeps.

Section counts.
Context {C : Type} `{BufferCache C}.
Implicit Types (s : fs C) (h : list nat).

(** Storing a file with another count. *)
Lemma counted_put s h h' p x : counted s h -> (forall f, f <> p -> occ f h' = occ f h) -> fl_ref_count x = Z.of_nat (occ p h') -> p ∈ h' -> p ∈ h ->
  counted (set_files (<[p := x]> (files s)) s) h'.
Proof using Type.
  intros [H1 H2] Ho Ex Hp' Hp. assert (Hin : forall f, f ∈ h' -> f ∈ h).
  { intros f Hf. destruct (decide (f = p)) as [->|Hne]; [done|]. destruct (decide (f ∈ h)) as [|Hn]; [done|]. apply occ_zero in Hn. rewrite <- (Ho f Hne) in Hn. by apply occ_zero in Hn. }
  constructor; [|auto]. intros f. unfold refs in *. cbn [files set_files]. rewrite fmap_insert, Ex. destruct (decide (f = p)) as [->|Hf].
  - rewrite lookup_insert_eq. destruct (occ p h') eqn:E; [by apply occ_zero in E|done].
  - by rewrite lookup_insert_ne, H1, Ho by done.
Qed.

Lemma file_dup_refs s h p : counted s h -> p ∈ h -> ifok (File.file_dup (Some p)) (fun r s' => r = Some p /\ counted s' (p :: h)) s.
Proof using Type.
  intros Hc Hp. unfold File.file_dup. apply ifok_bind, ifok_get_file. intros f Ef. same_step H1. same_step H2.
  destruct (counted_refs _ _ _ _ Hc (refs_file _ _ _ Ef)) as [En _]. pose proof (same_trans _ _ _ H1 H2) as H3.
  apply ifok_bind. unfold ifok at 1. cbn [put_file modify]. same_step H4. split; [done|]. eapply counted_same; [exact H4|].
  eapply counted_put; [by eapply counted_same| | |by apply list_elem_of_here|done].
  - intros g Hg. rewrite occ_cons. by rewrite decide_False.
  - cbn [File.set_ref_count fl_ref_count]. rewrite occ_cons, decide_True by done. lia.
Qed.

(** Freeing the file whose count has gone to zero. *)
Lemma counted_delete s s0 h p x : counted s0 (p :: h) -> p ∉ h -> same (set_files (<[p := x]> (files s0)) s0) s ->
  counted (set_files (delete p (files s)) s) h.
Proof using Type.
  intros [H1 H2] Hp [E1 E2 _]. constructor.
  - intros f. unfold refs in *. cbn [files set_files] in *. rewrite fmap_delete, E1, fmap_insert. destruct (decide (f = p)) as [->|Hf].
    + rewrite lookup_delete_eq. apply occ_zero in Hp. by rewrite Hp.
    + rewrite lookup_delete_ne, lookup_insert_ne, H1, occ_cons by done. by rewrite decide_False.
  - intros f Hf. cbn [fs_next set_files] in *. specialize (H2 f ltac:(by apply list_elem_of_further)). lia.
Qed.

Lemma file_close_refs s h p : counted s (p :: h) -> ifok (File.file_close (Some p)) (fun _ s' => counted s' h) s.
Proof using Type.
  intros Hc. unfold File.file_close. apply ifok_bind, ifok_get_file. intros f Ef.
  destruct (counted_refs _ _ _ _ Hc (refs_file _ _ _ Ef)) as [En _]. rewrite occ_cons, decide_True in En by done.
  apply ifok_bind. unfold ifok at 1. cbn [put_file modify]. destruct (Z.eqb_spec (fl_ref_count f - 1) 0) as [E0|E0].
  - same_step H1. same_step H2. same_step H3. same_step H4. same_step H5. same_step H6. unfold ifok, modify.
    eapply counted_delete; [exact Hc|apply occ_zero; lia|]. by repeat (eapply same_trans; [eassumption|]); apply same_refl.
  - assert (Hp : p ∈ h) by (destruct (decide (p ∈ h)) as [|Hn]; [done|]; apply occ_zero in Hn; lia).
    eapply counted_put; [exact Hc| |cbn [File.set_ref_count fl_ref_count]; lia|done|apply list_elem_of_here].
    intros g Hg. rewrite occ_cons. by rewrite decide_False.
Qed.

Lemma filesys_open_refs s h path page : counted s h -> ifok (Filesys.filesys_open path page) (given h) s.
Proof using Type.
  intros Hc. unfold Filesys.filesys_open. same_step H1. same_step H2. pose proof (counted_same _ _ _ (same_trans _ _ _ H1 H2) Hc) as Hc2.
  match goal with |- context [match ?x with _ => _ end] => destruct x end; [|done]. same_step H3. pose proof (counted_same _ _ _ H3 Hc2) as Hc3. destruct (_ && _).
  - same_step H4. apply file_open_refs. by eapply counted_same.
  - same_step H4. pose proof (counted_same _ _ _ H4 Hc3) as Hc4. match goal with |- context [match ?x with _ => _ end] => destruct x end; [by apply file_open_refs|done].
Qed.

Lemma file_pipe_ends_refs s h q w0 : counted s h ->
  ifok (File.file_pipe_ends q w0) (fun r s' => match r with Some (a, b) => counted s' (a :: b :: h) | None => counted s' h end) s.
Proof using Type.
  intros Hc. unfold File.file_pipe_ends. apply ifok_bind. eapply malloc_fresh; [exact Hc|..].
  { intros s' Hs. destruct w0; [done|]. by eapply counted_same. }
  intros r s1 Hs1 Hr1 Hn1. pose proof (counted_same _ _ _ Hs1 Hc) as Hc1. apply ifok_bind. eapply malloc_fresh; [exact Hc1|intros s' Hs; by eapply counted_same|].
  intros w s2 Hs2 Hr2 Hn2. pose proof (counted_same _ _ _ Hs2 Hc1) as Hc2. assert (Hwr : w <> r) by lia.
  assert (Hc3 : counted (set_files (<[r := mkFile PIPE None 0 false 1 None (Some q)]> (files s2)) s2) (r :: h)) by (apply put_new; [done|done|done|lia]).
  apply ifok_bind. unfold ifok at 1. cbn [put_file modify]. same_step H3. pose proof (counted_same _ _ _ H3 Hc3) as Hc4.
  apply ifok_bind. unfold ifok at 1. cbn [put_file modify]. same_step H5. unfold ifok, ret. rewrite Permutation_swap. eapply counted_same; [exact H5|].
  apply put_new; [done|done|by apply not_elem_of_cons|]. pose proof (sm_next _ _ H3). cbn in *. lia.
Qed.

Lemma pipe_open_refs s h b w0 : counted s h ->
  ifok (File.pipe_open b w0) (fun r s' => match r with Some (a, b) => counted s' (a :: b :: h) | None => counted s' h end) s.
Proof using Type.
  intros Hc. unfold File.pipe_open. same_step H1. pose proof (counted_same _ _ _ H1 Hc) as Hc1.
  match goal with |- context [match ?x with _ => _ end] => destruct x as [q|] end; [|done]. same_step H2. pose proof (counted_same _ _ _ H2 Hc1) as Hc2.
  match goal with |- context [match ?x with _ => _ end] => destruct x as [y|] end; [|done]. apply ifok_bind.
  eapply ifok_mono; [by apply file_pipe_ends_refs|]. intros [[r w]|] s3 Hc3; [|done]. same_step H4. by eapply counted_same.
Qed.
End counts.

End FileRefs.
