(* ===== verification/SyscallProps.v ===== *)
(** Properties of the system calls on files: descriptors and the reference
    counts of the files that they stand for. *)
From S2P Require Import Prelude Words Bitmap Palloc UserMem Pipe Block Cache Fs Inode Directory File Filesys Syscall FileFrame.
From stdpp Require Import options.

#[local] Open Scope Z_scope.

Module SyscallProps.
Import UserMem Syscall FileFrame FileRefs.

(** The references that a table holds. *)
Definition own (t : list (option nat)) : list nat := omap id t.

Lemma own_insert t i f : t !! i = Some None -> own (<[i := Some f]> t) ≡ₚ f :: own t.
Proof.
  revert i. induction t as [|x t IH]; intros [|i] Hi; [done|done|by injection Hi as ->|]. cbn in Hi. unfold own in *. cbn.
  destruct x as [g|]; cbn; rewrite (IH i Hi); [apply Permutation_swap|done].
Qed.

Lemma own_remove t i f : t !! i = Some (Some f) -> own t ≡ₚ f :: own (<[i := None]> t).
Proof.
  revert i. induction t as [|x t IH]; intros [|i] Hi; [done|done|by injection Hi as ->|]. cbn in Hi. unfold own in *. cbn.
  destruct x as [g|]; cbn; rewrite (IH i Hi); [apply Permutation_swap|done].
Qed.

Lemma own_in t i f : t !! i = Some (Some f) -> f ∈ own t.
Proof. intros Hi. rewrite (own_remove _ _ _ Hi). apply list_elem_of_here. Qed.

(** [next_fd] gives the lowest descriptor that is free. *)
Lemma next_fd_spec t : forall k,
  match next_fd t k with
  | Some fd => exists i, fd = k + Z.of_nat i /\ t !! i = Some None /\ forall j, (j < i)%nat -> exists f, t !! j = Some (Some f)
  | None => forall i, (i < length t)%nat -> exists f, t !! i = Some (Some f)
  end.
Proof.
  induction t as [|[f|] t IH]; intros k; cbn [next_fd].
  - intros i Hi. cbn in Hi. lia.
  - specialize (IH (k + 1)). destruct (next_fd t (k + 1)) as [fd|].
    + destruct IH as (i & E & Hi & Hl). exists (S i). split_and!; [lia|done|]. intros [|j] Hj; [by exists f|]. apply Hl. lia.
    + intros [|i] Hi; [by exists f|]. apply IH. cbn in Hi. lia.
  - exists 0%nat. split_and!; [lia|done|]. intros j Hj. lia.
Qed.

(** The number of descriptors that are not in use. *)
Fixpoint free_fds (t : list (option nat)) : nat :=
  match t with [] => 0 | None :: t => S (free_fds t) | Some _ :: t => free_fds t end.

Section calls.
Context {C : Type} `{BufferCache C}.
Abbreviation SYS := (ST (sys C)).

(** The process that runs, with the executable [x]: its table has its
    size, and the files count its descriptors and the references [rest] of
    the others. *)
Record good (rest : list nat) (x : option nat) (s : sys C) : Prop := mkGood {
  gd_counted : counted (sy_fs s) (own (fd_table (sy_proc s)) ++ rest);
  gd_table : length (fd_table (sy_proc s)) = FD_MAX;
  gd_exec : exec_file (sy_proc s) = x }.

Definition stays {A} (m : SYS A) : Prop := forall rest x s, good rest x s -> ifok m (fun _ s' => good rest x s') s.

Lemma stays_bind {A B} (m : SYS A) (k : A -> SYS B) : stays m -> (forall a, stays (k a)) -> stays (bind m k).
Proof using Type. intros Hm Hk rest x s Hg. apply ifok_bind. eapply ifok_mono; [by apply Hm|]. intros a s' Hs. by apply Hk. Qed.

Lemma stays_ret {A} (a : A) : stays (ret a).
Proof using Type. by intros rest x s Hg. Qed.

Lemma stays_gets {A} (f : sys C -> A) : stays (gets f).
Proof using Type. by intros rest x s Hg. Qed.

Lemma stays_lift {A} (r : res A) : stays (lift r).
Proof using Type. intros rest x s Hg. by apply ifok_lift. Qed.

Lemma ifok_fsys {A} (m : ST (fs C) A) Q s : ifok m (fun a f => Q a (mkSys f (sy_proc s))) (sy_fs s) -> ifok (fsys m) Q s.
Proof using Type. unfold ifok, fsys. by destruct (m (sy_fs s)) as [[a f]|]. Qed.

Lemma stays_fsys {A} (m : ST (fs C) A) : keeps m -> stays (fsys m).
Proof using Type.
  intros Hm rest x s [H1 H2 H3]. apply ifok_fsys, keeps_ifok; [done|]. intros a f Hs. constructor; [by eapply counted_same|done|done].
Qed.

(** [r] is the file of the descriptor. *)
Definition fd_entry (t : list (option nat)) (fd : Z) (r : option nat) : Prop :=
  0 <= fd < Z.of_nat FD_MAX /\ t !! Z.to_nat fd = Some r \/ ~ (0 <= fd < Z.of_nat FD_MAX) /\ r = None.

Lemma fd_entry_file t fd f : fd_entry t fd (Some f) -> 0 <= fd < Z.of_nat FD_MAX /\ t !! Z.to_nat fd = Some (Some f).
Proof using Type. by intros [?|[_ ?]]. Qed.

Lemma get_file_from_fd_spec fd (s : sys C) : length (fd_table (sy_proc s)) = FD_MAX ->
  exists r, get_file_from_fd fd s = Ok (r, s) /\ fd_entry (fd_table (sy_proc s)) fd r.
Proof using Type.
  intros Hl. unfold get_file_from_fd. destruct ((fd <? 0) || (Z.of_nat FD_MAX <=? fd)) eqn:E; [exists None; split; [done|right; split; [lia|done]]|].
  assert (Hr : 0 <= fd < Z.of_nat FD_MAX) by lia. destruct (lookup_lt_is_Some_2 (fd_table (sy_proc s)) (Z.to_nat fd)) as [r Hr']; [lia|].
  exists r. unfold bind, gets, lift. rewrite Hr'. split; [done|by left].
Qed.

Lemma ifok_get_fd fd rest x s (Q : option nat -> sys C -> Prop) : good rest x s ->
  (forall r, fd_entry (fd_table (sy_proc s)) fd r -> Q r s) ->
  ifok (get_file_from_fd fd) Q s.
Proof using Type. intros Hg HQ. destruct (get_file_from_fd_spec fd s (gd_table _ _ _ Hg)) as (r & E & Hr). unfold ifok. rewrite E. by apply HQ. Qed.

Lemma stays_get_fd fd : stays (get_file_from_fd fd).
Proof using Type. intros rest x s Hg. eapply ifok_get_fd; [exact Hg|]. done. Qed.

(** Storing an entry that makes the table hold what the files count. *)
Lemma ifok_store_fd fd r rest x s (Q : unit -> sys C -> Prop) : 0 <= fd < Z.of_nat FD_MAX ->
  counted (sy_fs s) (own (<[Z.to_nat fd := r]> (fd_table (sy_proc s))) ++ rest) -> length (fd_table (sy_proc s)) = FD_MAX -> exec_file (sy_proc s) = x ->
  (forall s', good rest x s' -> Q tt s') -> ifok (store_fd fd r) Q s.
Proof using Type.
  intros Hfd Hc Hl Hx HQ. unfold store_fd. apply ifok_bind. unfold ifok at 1, gets. rewrite Hl, leb_true, ltb_true by lia. cbn [andb].
  apply HQ. constructor; [done|by cbn; rewrite length_insert|done].
Qed.

Lemma ifok_set_next_fd f rest x s (Q : Z -> sys C -> Prop) : good (f :: rest) x s ->
  (forall fd s', next_fd (fd_table (sy_proc s)) 0 = Some fd -> 0 <= fd -> fd_table (sy_proc s') = <[Z.to_nat fd := Some f]> (fd_table (sy_proc s)) -> good rest x s' -> Q fd s') ->
  (next_fd (fd_table (sy_proc s)) 0 = None -> Q (- EMFILE) s) -> ifok (set_next_fd (Some f)) Q s.
Proof using Type.
  intros [H1 H2 H3] HS HN. unfold set_next_fd. apply ifok_bind. unfold ifok at 1, gets. pose proof (next_fd_spec (fd_table (sy_proc s)) 0) as Hn.
  destruct (next_fd _ 0) as [fd|]; [|by apply HN]. destruct Hn as (i & -> & Hi & _). rewrite Z.add_0_l in *.
  pose proof (lookup_lt_Some _ _ _ Hi) as Hlt. rewrite H2 in Hlt. apply ifok_bind. unfold store_fd. apply ifok_bind. unfold ifok at 1, gets. rewrite H2, leb_true, ltb_true by lia. cbn [andb].
  apply HS; [done|lia|done|]. constructor; [|by cbn; rewrite length_insert|done]. cbn [sy_fs set_fd_table sy_proc fd_table]. rewrite Nat2Z.id, own_insert by done.
  by rewrite <- Permutation_middle in H1.
Qed.

Lemma stays_sys_open page name : stays (sys_open page name).
Proof using Type.
  intros rest x s [H1 H2 H3]. unfold sys_open. apply ifok_bind, ifok_fsys. eapply ifok_mono; [by apply filesys_open_refs|].
  intros [f|] fs' Hc; cbn [given] in Hc; [|done]. assert (Hg : good (f :: rest) x (mkSys fs' (sy_proc s))).
  { constructor; [|done|done]. cbn [sy_fs sy_proc]. by rewrite <- Permutation_middle. }
  apply ifok_bind. eapply ifok_set_next_fd; [exact Hg|..].
  - intros fd s' _ Hfd _ Hg'. rewrite eqb_false by (unfold EMFILE; lia). done.
  - intros _. rewrite eqb_true by done. apply ifok_bind, ifok_fsys. eapply ifok_mono; [apply file_close_refs; exact Hc|]. intros ? fs2 Hc2. by constructor.
Qed.

Lemma close_file_refs (s : sys C) f h : counted (sy_fs s) (f :: h) ->
  ifok (close_file f) (fun _ s' => counted (sy_fs s') h /\ sy_proc s' = sy_proc s) s.
Proof using Type.
  intros Hc. unfold close_file. apply ifok_bind, ifok_fsys, keeps_ifok; [auto with keeps|]. intros d f1 Hs1.
  apply ifok_bind, ifok_fsys, keeps_ifok; [auto with keeps|]. intros ? f2 Hs2. apply ifok_fsys.
  eapply ifok_mono; [apply file_close_refs; eapply counted_same; [exact Hs2|by eapply counted_same]|]. done.
Qed.

Lemma stays_sys_close fd : stays (sys_close fd).
Proof using Type.
  intros rest x s Hg. unfold sys_close. apply ifok_bind. eapply ifok_get_fd; [exact Hg|]. intros [f|] Hf; [|done]. apply fd_entry_file in Hf as [Hr Hi].
  destruct Hg as [H1 H2 H3]. apply ifok_bind. eapply ifok_mono; [apply close_file_refs|].
  - rewrite (own_remove _ _ _ Hi) in H1. exact H1.
  - intros ? s' [Hc E]. rewrite <- E in *. by eapply ifok_store_fd.
Qed.

(** The table has no such entry. *)
Lemma dup2_out_of_range (s : sys C) prev file new_fd (Q : Z -> sys C -> Prop) : length (fd_table (sy_proc s)) = FD_MAX -> ~ (0 <= new_fd < Z.of_nat FD_MAX) ->
  ifok (fsys (File.file_close prev);;; let! f := fsys (File.file_dup file) in store_fd new_fd f;;; ret new_fd) Q s.
Proof using Type.
  intros H2 Hbad. apply ifok_bind, ifok_fsys. unfold ifok. destruct (File.file_close prev (sy_fs s)) as [[[] f1]|]; [|done]. unfold fsys, bind. cbn [sy_fs sy_proc].
  destruct (File.file_dup file f1) as [[g f2]|]; [|done]. unfold store_fd, bind, gets. cbn [sy_fs sy_proc]. rewrite H2.
  by replace ((0 <=? new_fd) && (new_fd <? Z.of_nat FD_MAX)) with false by lia.
Qed.

Lemma stays_sys_dup2 old_fd new_fd : stays (sys_dup2 old_fd new_fd).
Proof using Type.
  intros rest x s Hg. unfold sys_dup2. apply ifok_bind. eapply ifok_get_fd; [exact Hg|]. intros [f|] Hf; [|done]. apply fd_entry_file in Hf as [Hr Hi].
  destruct (Z.eqb_spec old_fd new_fd) as [|Hne]; [done|]. apply ifok_bind. eapply ifok_get_fd; [exact Hg|]. intros prev Hp. destruct Hg as [H1 H2 H3].
  destruct Hp as [[Hnew Hp]|[Hbad ->]]; [|by apply dup2_out_of_range].
  set (t0 := <[Z.to_nat new_fd := None]> (fd_table (sy_proc s))) in *.
  assert (Hclose : ifok (File.file_close prev) (fun _ f' => counted f' (own t0 ++ rest)) (sy_fs s)).
  { destruct prev as [g|]; [|by unfold t0; rewrite list_insert_id]. apply file_close_refs. by rewrite (own_remove _ _ _ Hp) in H1. }
  assert (Hi0 : t0 !! Z.to_nat old_fd = Some (Some f)) by (unfold t0; rewrite list_lookup_insert_ne by lia; done).
  apply ifok_bind, ifok_fsys. eapply ifok_mono; [exact Hclose|]. intros ? f1 Hc1. apply ifok_bind, ifok_fsys.
  eapply ifok_mono; [apply file_dup_refs; [exact Hc1|apply elem_of_app; left; by eapply own_in]|]. intros g f2 [-> Hc2]. apply ifok_bind.
  apply (ifok_store_fd _ _ rest x); [done| |done|exact H3|done]. cbn [sy_fs sy_proc]. rewrite <- (list_insert_insert_eq (fd_table (sy_proc s)) (Z.to_nat new_fd) (Some f) None).
  rewrite own_insert; [done|]. apply list_lookup_insert_eq. lia.
Qed.

Lemma free_fds_next t k : (0 < free_fds t)%nat -> next_fd t k <> None.
Proof using Type. revert k. induction t as [|[f|] t IH]; intros k; cbn; [lia|apply IH|done]. Qed.

Lemma free_fds_insert t i f : t !! i = Some None -> free_fds t = S (free_fds (<[i := Some f]> t)).
Proof using Type.
  revert i. induction t as [|x t IH]; intros [|i] Hi; [done|done|by injection Hi as ->|]. cbn in Hi |- *.
  destruct x; by rewrite (IH i Hi).
Qed.

Lemma sys_pipe_refs buffer rest x s : good rest x s -> (2 <= free_fds (fd_table (sy_proc s)))%nat ->
  ifok (sys_pipe buffer) (fun _ s' => good rest x s') s.
Proof using Type.
  intros [H1 H2 H3] Hfree. unfold sys_pipe. apply ifok_bind, ifok_fsys. eapply ifok_mono; [by apply pipe_open_refs|].
  intros [[r w]|] f1 Hc; [|done]. assert (Hg : good (r :: w :: rest) x (mkSys f1 (sy_proc s))).
  { constructor; [|done|done]. cbn [sy_fs sy_proc]. by rewrite <- !Permutation_middle. }
  apply ifok_bind. eapply ifok_set_next_fd; [exact Hg| |intros E; by apply free_fds_next in E; [|cbn; lia]].
  intros fd0 s1 E0 Hfd0 Et Hg1. pose proof (next_fd_spec (fd_table (sy_proc s)) 0) as Hn. cbn [sy_proc] in E0, Et. rewrite E0 in Hn.
  destruct Hn as (i & Ei & Hi & _). assert (Hfree1 : (0 < free_fds (fd_table (sy_proc s1)))%nat).
  { rewrite Et. replace (Z.to_nat fd0) with i by lia. rewrite (free_fds_insert _ _ r Hi) in Hfree. lia. }
  apply ifok_bind. eapply ifok_set_next_fd; [exact Hg1| |intros E; by apply free_fds_next in E].
  intros fd1 s2 _ Hfd1 _ Hg2. by rewrite !eqb_false by lia.
Qed.

End calls.

Create HintDb stays discriminated.
#[export] Hint Resolve stays_ret stays_gets stays_lift stays_get_fd stays_sys_open stays_sys_close stays_sys_dup2 : stays.

(** Calls that leave the counts alone. *)
Ltac stay_step :=
  lazymatch goal with
  | |- stays (bind _ _) => apply stays_bind; [|intros ?]
  | |- stays (fsys _) => apply stays_fsys; solve [keep_all]
  | |- stays (match ?x with _ => _ end) => destruct x
  | |- stays _ => solve [auto with stays]
  end.

Section machine.
Context {C : Type} `{BufferCache C}.
Abbreviation SYS := (ST (sys C)).

Definition is_pipe (r : request) : bool := match r with RPipe _ => true | _ => false end.

Lemma perform_stays page e0 buffer um r (m : SYS (exit reply)) : perform page e0 buffer um r = Some m -> is_pipe r = false -> stays m.
Proof using Type.
  intros E Hp. destruct r; try discriminate; injection E as <-;
    unfold sys_create, sys_remove, sys_filesize, sys_read, sys_write, sys_seek, sys_tell, sys_chdir, sys_mkdir, sys_readdir, sys_isdir, sys_inumber, truth, answer;
    repeat stay_step.
Qed.

(** ** All processes *)

Definition proc_refs (p : proc) : list nat := own (fd_table p) ++ option_list (exec_file p).

(** The references that the processes hold. *)
Definition all_refs (ps : procs) : list nat := map_to_list ps ≫= (fun x => proc_refs x.2.1).

Lemma all_refs_insert ps pid p d : ps !! pid = None -> all_refs (<[pid := (p, d)]> ps) ≡ₚ proc_refs p ++ all_refs ps.
Proof using Type. intros Hn. unfold all_refs. rewrite map_to_list_insert by done. by rewrite bind_cons. Qed.

Lemma all_refs_delete ps pid p d : ps !! pid = Some (p, d) -> all_refs ps ≡ₚ proc_refs p ++ all_refs (delete pid ps).
Proof using Type.
  intros Hp. rewrite <- (insert_delete_id ps pid (p, d)) at 1 by done. by rewrite all_refs_insert by (by rewrite lookup_delete_eq).
Qed.

Lemma all_refs_update ps pid p d p' d' : ps !! pid = Some (p, d) ->
  all_refs (<[pid := (p', d')]> ps) ≡ₚ proc_refs p' ++ all_refs (delete pid ps).
Proof using Type. intros Hp. rewrite <- insert_delete_eq. by rewrite all_refs_insert by (by rewrite lookup_delete_eq). Qed.

(** [rest]: the references of the kernel itself, such as the file of the
    free map. *)
Record settled (rest : list nat) (w : fs C * procs) : Prop := mkSettled {
  st_counted : counted w.1 (all_refs w.2 ++ rest);
  st_tables : forall pid p d, w.2 !! pid = Some (p, d) -> length (fd_table p) = FD_MAX }.

Lemma counted_dir (f : fs C) h d : counted (set_current_dir d f) h <-> counted f h.
Proof using Type. split; intros [H1 H2]; by constructor. Qed.

Lemma call_settled rest f ps pid um r page e0 buffer w' : settled rest (f, ps) ->
  (is_pipe r = true -> forall p d, ps !! pid = Some (p, d) -> (2 <= free_fds (fd_table p))%nat) ->
  step (f, ps) (Call pid um r page e0 buffer) = Ok w' -> settled rest w'.
Proof using Type.
  intros [Hc Ht] Hroom. cbn [step fst snd] in *. unfold current. destruct (ps !! pid) as [[p d]|] eqn:Ep; [|done]. cbn [access rbind].
  destruct (perform page e0 buffer um r) as [m|] eqn:Em; [|done].
  set (rest' := option_list (exec_file p) ++ all_refs (delete pid ps) ++ rest).
  assert (Hg : good rest' (exec_file p) (mkSys (set_current_dir d f) p)).
  { constructor; [|by eapply Ht|done]. cbn [sy_fs sy_proc]. apply counted_dir. rewrite (all_refs_delete _ _ _ _ Ep) in Hc. unfold proc_refs in Hc. unfold rest'. by rewrite <- !app_assoc in *. }
  assert (Hok : ifok m (fun _ s' => good rest' (exec_file p) s') (mkSys (set_current_dir d f) p)).
  { destruct (is_pipe r) eqn:Er; [|by eapply perform_stays]. destruct r; try done. injection Em as <-. apply ifok_bind.
    eapply ifok_mono; [apply sys_pipe_refs; [exact Hg|by eapply Hroom]|]. by intros [n l] s'. }
  unfold ifok in Hok. destruct (m _) as [[a s']|]; [|done]. cbn [rbind]. intros [= <-]. destruct Hok as [Hc' Hl Hx]. constructor; cbn [fst snd].
  - rewrite (all_refs_update _ _ _ _ _ _ Ep). unfold proc_refs. rewrite Hx, <- !app_assoc. exact Hc'.
  - intros q p' d'. rewrite lookup_insert. case_decide; [by intros [= <- <-]|apply Ht].
Qed.

(** ** New processes *)

Lemma dup_table_refs t : forall (s : fs C) h, counted s h -> (forall f, f ∈ own t -> f ∈ h) ->
  ifok (dup_table t) (fun t' s' => t' = t /\ counted s' (own t ++ h)) s.
Proof using Type.
  induction t as [|[f|] t IH]; intros s h Hc Hin; cbn [dup_table]; [done|..].
  - apply ifok_bind. eapply ifok_mono; [apply file_dup_refs; [exact Hc|apply Hin, list_elem_of_here]|]. intros ? s1 [-> Hc1].
    apply ifok_bind. eapply ifok_mono; [apply IH; [exact Hc1|intros g Hg; apply list_elem_of_further, Hin; by apply list_elem_of_further]|].
    intros t' s2 [-> Hc2]. split; [done|]. unfold own. cbn. by rewrite <- Permutation_middle in Hc2.
  - apply ifok_bind. unfold ifok at 1. cbn [File.file_dup ret]. apply ifok_bind. eapply ifok_mono; [by apply IH|]. by intros t' s2 [-> Hc2].
Qed.

Lemma inherit_refs (s : fs C) h p : counted s h -> (forall q, p = Some q -> length (fd_table q) = FD_MAX /\ forall f, f ∈ proc_refs q -> f ∈ h) ->
  ifok (inherit_files p) (fun q s' => counted s' (proc_refs q ++ h) /\ length (fd_table q) = FD_MAX) s.
Proof using Type.
  intros Hc Hp. unfold inherit_files. destruct p as [q|].
  - destruct (Hp q eq_refl) as [Hl Hin]. apply ifok_bind. eapply ifok_mono; [apply dup_table_refs; [exact Hc|intros f Hf; apply Hin, elem_of_app; by left]|].
    intros t s1 [-> Hc1]. apply ifok_bind. destruct (exec_file q) as [x|] eqn:Ex.
    + eapply ifok_mono; [apply file_dup_refs; [exact Hc1|]|].
      * apply elem_of_app. right. apply Hin. unfold proc_refs. rewrite Ex. apply elem_of_app. right. apply list_elem_of_here.
      * intros ? s2 [-> Hc2]. split; [|done]. unfold proc_refs. cbn. rewrite <- app_assoc. cbn. by rewrite <- Permutation_middle.
    + split; [|done]. unfold proc_refs. cbn. by rewrite app_nil_r.
  - apply ifok_bind. apply ifok_bind. eapply ifok_mono; [by apply file_open_console_refs|]. intros i s1 Hc1. apply ifok_bind.
    eapply ifok_mono; [by apply file_open_console_refs|]. intros o s2 Hc2. split; [|done]. unfold proc_refs. cbn. rewrite app_nil_r. unfold given in *.
    assert (E : own (<[1%nat := o]> (<[0%nat := i]> (replicate FD_MAX None))) ≡ₚ option_list o ++ option_list i) by (destruct i, o; vm_compute; reflexivity || constructor).
    by rewrite E, <- app_assoc; destruct i, o.
Qed.

(** ** Processes that end *)

Lemma close_table_refs t : forall (s : fs C) h, counted s (own t ++ h) -> ifok (close_table t) (fun _ s' => counted s' h) s.
Proof using Type.
  induction t as [|[f|] t IH]; intros s h Hc; cbn [close_table]; [done| |by apply IH].
  same_step H1. same_step H2. apply ifok_bind. eapply ifok_mono; [apply file_close_refs; eapply counted_same; [exact (same_trans _ _ _ H1 H2)|exact Hc]|].
  intros ? s1 Hc1. by apply IH.
Qed.

Lemma exit_refs (s : fs C) h p : counted s (proc_refs p ++ h) -> ifok (exit_files p) (fun _ s' => counted s' h) s.
Proof using Type.
  intros Hc. unfold exit_files, proc_refs in *. rewrite <- app_assoc in Hc. apply ifok_bind. eapply ifok_mono; [by apply close_table_refs|].
  intros ? s1 Hc1. apply ifok_bind. assert (Hx : ifok (File.file_close (exec_file p)) (fun _ s' => counted s' h) s1).
  { destruct (exec_file p) as [x|]; [by apply file_close_refs|done]. }
  eapply ifok_mono; [exact Hx|]. intros ? s2 Hc2. same_step H3. apply keeps_ifok; [auto with keeps|]. intros ? s4 H4.
  eapply counted_same; [exact (same_trans _ _ _ H3 H4)|done].
Qed.

Lemma create_settled rest f ps parent pid w' : settled rest (f, ps) -> step (f, ps) (Create parent pid) = Ok w' -> settled rest w'.
Proof using Type.
  intros [Hc Ht]. cbn [step fst snd] in *. match goal with |- rbind ?m _ = _ -> _ => destruct m as [p|] eqn:Ep end; [|done]. cbn [rbind]. destruct (bool_decide _) eqn:Eb; [|done]. apply bool_decide_eq_true in Eb. cbn [assert rbind].
  set (dm := match p with Some (_, Some d) => _ | _ => _ end). assert (Hd : match dm with Ok (_, f') => counted f' (all_refs ps ++ rest) | Err _ => True end).
  { unfold dm. destruct p as [[q [d|]]|]; [|done|done]. pose proof (keeps_dir_reopen d f) as Hk. destruct (dir_reopen d f) as [[d' f']|]; [by eapply counted_same|done]. }
  destruct dm as [[d' f1]|]; [|done]. cbn [rbind].
  assert (Hi : ifok (inherit_files (fst <$> p)) (fun q s' => counted s' (proc_refs q ++ all_refs ps ++ rest) /\ length (fd_table q) = FD_MAX) f1).
  { apply inherit_refs; [done|]. intros q Eq. destruct p as [[q' d]|]; [|done]. injection Eq as ->. destruct parent as [pp|]; [|done]. unfold current in Ep.
    destruct (ps !! pp) as [x|] eqn:Ex; [|done]. injection Ep as ->. split; [by eapply Ht|]. intros g Hg. apply elem_of_app. left. rewrite (all_refs_delete _ _ _ _ Ex). apply elem_of_app. by left. }
  unfold ifok in Hi. destruct (inherit_files _ f1) as [[q f2]|]; [|done]. cbn [rbind]. intros [= <-]. destruct Hi as [Hc2 Hl]. constructor; cbn [fst snd].
  - rewrite all_refs_insert by done. by rewrite <- app_assoc.
  - intros k p' d2. rewrite lookup_insert. case_decide; [by intros [= <- <-]|apply Ht].
Qed.

Lemma exit_settled rest f ps pid w' : settled rest (f, ps) -> step (f, ps) (Exit pid) = Ok w' -> settled rest w'.
Proof using Type.
  intros [Hc Ht]. cbn [step fst snd] in *. unfold current. destruct (ps !! pid) as [[p d]|] eqn:Ep; [|done]. cbn [access rbind].
  rewrite (all_refs_delete _ _ _ _ Ep), <- app_assoc in Hc. apply (counted_dir _ _ d) in Hc. pose proof (exit_refs _ _ _ Hc) as Hx. unfold ifok in Hx.
  destruct (exit_files p _) as [[[] f1]|]; [|done]. cbn [rbind]. intros [= <-]. constructor; cbn [fst snd]; [done|].
  intros k p' d'. rewrite lookup_delete_Some. intros [_ Hk]. by eapply Ht.
Qed.

(** ** Executables *)

Lemma keeps_use_file f l : keeps (use_file (C := C) f l).
Proof using Type.
  induction l as [|[] l IH]; cbn [use_file]; [apply keeps_ret|..]; (apply keeps_bind; [auto using keeps_file_read, keeps_file_seek with keeps|done]).
Qed.

Lemma load_exec_refs page pagedir name uses (s : sys C) h : counted (sy_fs s) (option_list (exec_file (sy_proc s)) ++ h) ->
  ifok (load_exec page pagedir name uses) (fun _ s' => counted (sy_fs s') (option_list (exec_file (sy_proc s')) ++ h) /\ fd_table (sy_proc s') = fd_table (sy_proc s)) s.
Proof using Type.
  intros Hc. unfold load_exec. apply ifok_bind. set (x := exec_file (sy_proc s)) in *.
  assert (Hrest : forall file fs', given (option_list x ++ h) file fs' ->
    ifok (let! old := gets (fun s => exec_file (sy_proc s)) in fsys (File.file_close old);;; modify (fun s => mkSys (sy_fs s) (mkProc (fd_table (sy_proc s)) file)))
      (fun _ s' => counted (sy_fs s') (option_list (exec_file (sy_proc s')) ++ h) /\ fd_table (sy_proc s') = fd_table (sy_proc s)) (mkSys fs' (sy_proc s))).
  { intros file fs' Hg. apply ifok_bind. unfold ifok at 1, gets. apply ifok_bind, ifok_fsys. cbn [sy_fs sy_proc]. fold x.
    assert (Hx : counted fs' (option_list x ++ option_list file ++ h)) by (unfold given in Hg; destruct file; cbn; [by rewrite <- Permutation_middle|done]).
    assert (Hclose : ifok (File.file_close x) (fun _ f' => counted f' (option_list file ++ h)) fs') by (destruct x; [by apply file_close_refs|done]).
    eapply ifok_mono; [exact Hclose|]. intros ? f' Hc'. done. }
  destruct pagedir; [|by destruct s; apply (Hrest None)]. apply ifok_bind, ifok_fsys. eapply ifok_mono; [by apply filesys_open_refs|].
  intros [f|] fs' Hg; [|by apply (Hrest None)]. apply ifok_bind, ifok_fsys, keeps_ifok; [apply keeps_file_deny_write|]. intros ? f1 H1.
  apply ifok_bind, ifok_fsys, keeps_ifok; [apply keeps_use_file|]. intros ? f2 H2. apply (Hrest (Some f)). cbn [given] in *.
  eapply counted_same; [exact (same_trans _ _ _ H1 H2)|exact Hg].
Qed.

Lemma load_settled rest f ps pid pagedir name uses page w' : settled rest (f, ps) -> step (f, ps) (Load pid pagedir name uses page) = Ok w' -> settled rest w'.
Proof using Type.
  intros [Hc Ht]. cbn [step fst snd] in *. unfold current. destruct (ps !! pid) as [[p d]|] eqn:Ep; [|done]. cbn [access rbind].
  set (h := own (fd_table p) ++ all_refs (delete pid ps) ++ rest).
  assert (Hg : counted (set_current_dir d f) (option_list (exec_file p) ++ h)).
  { apply counted_dir. rewrite (all_refs_delete _ _ _ _ Ep) in Hc. unfold proc_refs in Hc. unfold h. rewrite <- !app_assoc in Hc. by rewrite Permutation_app_swap_app. }
  pose proof (load_exec_refs page pagedir name uses (mkSys (set_current_dir d f) p) h Hg) as Hok. unfold ifok in Hok.
  destruct (load_exec _ _ _ _ _) as [[[] s']|]; [|done]. cbn [rbind]. intros [= <-]. destruct Hok as [Hc' Hl]. cbn [sy_proc] in Hl. constructor; cbn [fst snd].
  - rewrite (all_refs_update _ _ _ _ _ _ Ep). unfold proc_refs. rewrite Hl, <- !app_assoc. rewrite Permutation_app_swap_app. exact Hc'.
  - intros q p' d'. rewrite lookup_insert. case_decide; [|apply Ht]. intros [= <- <-]. rewrite Hl. by eapply Ht.
Qed.

(** ** Runs *)

(** A call of [pipe] is made when two descriptors are free. *)
Definition room (w : fs C * procs) (e : event) : bool :=
  match e with
  | Call pid _ (RPipe _) _ _ _ => match w.2 !! pid with Some (p, _) => (2 <=? free_fds (fd_table p))%nat | None => true end
  | _ => true
  end.

Fixpoint roomy (w : fs C * procs) (l : list event) : bool :=
  match l with
  | [] => true
  | e :: l => room w e && match step w e with Ok w' => roomy w' l | Err _ => true end
  end.

Lemma step_settled rest w e w' : settled rest w -> room w e = true -> step w e = Ok w' -> settled rest w'.
Proof using Type.
  destruct w as [f ps], e as [pid um r page e0 buffer|parent pid|pid pagedir name uses page|pid]; intros Hs Hr; [|by apply create_settled|by apply load_settled|by apply exit_settled].
  apply call_settled; [done|]. intros Hp p d Ep. destruct r; try done. cbn [room snd] in Hr. rewrite Ep in Hr. by apply Nat.leb_le in Hr.
Qed.
End machine.

(** C24: Descriptors and open files agree, whatever processes do: after any
    sequence of system calls on files, process creations, loads of programs
    and exits of any number of processes that completes, every open file
    counts exactly the descriptors and executables that stand for it, every
    descriptor stands for an open file and a file without any is gone;
    provided that [pipe] is called when two descriptors are free. *)
Theorem descriptors_counted {C} `{BufferCache C} rest (w w' : fs C * procs) l :
  settled rest w -> roomy w l = true -> Syscall.run w l = Ok w' -> settled rest w'.
Proof.
  revert w. induction l as [|e l IH]; intros w Hs Hr; cbn [Syscall.run roomy] in *; [by intros [= <-]|].
  apply andb_prop in Hr as [Hr Hl]. destruct (step w e) as [w1|] eqn:E; [|done]. cbn [rbind]. apply IH; [|done]. by eapply step_settled.
Qed.

(** ** Results of single calls *)

Section results.
Context {C : Type} `{BufferCache C}.

(** C30: [open] gives the lowest free descriptor, which then stands for the
    file; it gives [-ENOENT] when there is no file, and [-EMFILE] when no
    descriptor is free, and the table is as it was. *)
Theorem sys_open_lowest page name (s s' : sys C) n : length (fd_table (sy_proc s)) = FD_MAX -> sys_open page name s = Ok (n, s') ->
  exists r f1, Filesys.filesys_open name page (sy_fs s) = Ok (r, f1) /\
  match r with
  | None => n = - ENOENT /\ fd_table (sy_proc s') = fd_table (sy_proc s)
  | Some f =>
      (exists i, n = Z.of_nat i /\ fd_table (sy_proc s) !! i = Some None /\ (forall j, (j < i)%nat -> exists g, fd_table (sy_proc s) !! j = Some (Some g)) /\
         fd_table (sy_proc s') = <[i := Some f]> (fd_table (sy_proc s)) /\ sy_fs s' = f1) \/
      (n = - EMFILE /\ (forall j, (j < FD_MAX)%nat -> exists g, fd_table (sy_proc s) !! j = Some (Some g)) /\ fd_table (sy_proc s') = fd_table (sy_proc s))
  end.
Proof using Type.
  intros Hl. unfold sys_open, fsys, bind at 1. destruct (Filesys.filesys_open name page (sy_fs s)) as [[r f1]|]; [|done]. intros E. exists r, f1. split; [done|].
  destruct r as [f|]; [|by injection E as <- <-]. unfold set_next_fd, bind, gets in E. cbn [sy_proc sy_fs] in E. pose proof (next_fd_spec (fd_table (sy_proc s)) 0) as Hn.
  destruct (next_fd _ 0) as [fd|].
  - destruct Hn as (i & -> & Hi & Hlow). left. exists i. rewrite Z.add_0_l in E. unfold store_fd, bind, gets in E. cbn [sy_proc] in E.
    pose proof (lookup_lt_Some _ _ _ Hi) as Hlt. rewrite leb_true, ltb_true in E by lia. cbn in E. rewrite eqb_false in E by (unfold EMFILE; lia). injection E as <- <-.
    cbn. by rewrite Nat2Z.id.
  - right. rewrite Hl in Hn. cbn [ret] in E. rewrite eqb_true in E by done. cbn [sy_fs] in E. destruct (File.file_close (Some f) f1) as [[[] f2]|]; [|done]. by injection E as <- <-.
Qed.

Lemma file_dup_total (s : fs C) h p : counted s h -> p ∈ h -> open_files_lock s = false -> wp (File.file_dup (Some p)) (fun r _ => r = Some p) s.
Proof using Type.
  intros Hc Hp Hk. destruct (counted_held _ _ p Hc Hp) as (x & Ex & En). unfold File.file_dup. apply wp_bind. eapply wp_get_file; [exact Ex|].
  assert (Hpos : (0 <? fl_ref_count x) = true) by (rewrite En; destruct (occ p h) eqn:E0; [by apply occ_zero in E0|done]).
  apply wp_bind, wp_ASSERT; [done|]. unfold lock_open_files. wp_steps. rewrite Hk. wp_steps. unfold put_file. wp_steps. unfold unlock_open_files. by wp_steps.
Qed.

(** [dup2] does not check the descriptor that it is to set: one that is
    not in the table makes the kernel store outside of it. *)
Theorem sys_dup2_out_of_range rest x (s : sys C) old_fd new_fd f : good rest x s -> open_files_lock (sy_fs s) = false ->
  0 <= old_fd < Z.of_nat FD_MAX -> fd_table (sy_proc s) !! Z.to_nat old_fd = Some (Some f) -> new_fd < 0 \/ Z.of_nat FD_MAX <= new_fd ->
  sys_dup2 old_fd new_fd s = Err Fault.
Proof using Type.
  intros [Hc Hl _] Hk Ho Ef Hn. destruct (get_file_from_fd_spec old_fd s Hl) as (r & E & Hr). unfold sys_dup2, bind at 1. rewrite E.
  destruct Hr as [[_ Hr]|[? _]]; [|lia]. rewrite Ef in Hr. injection Hr as <-. rewrite eqb_false by lia. unfold bind at 1.
  destruct (get_file_from_fd_spec new_fd s Hl) as (r & E2 & Hr). rewrite E2. destruct Hr as [[? _]|[_ ->]]; [lia|].
  unfold bind at 1, fsys at 1. cbn [File.file_close ret]. unfold bind at 1, fsys at 1. cbn [sy_fs sy_proc].
  destruct (proj1 (wp_ok _ _ _) (file_dup_total _ _ f Hc ltac:(apply elem_of_app; left; by eapply own_in) Hk)) as (r & f1 & -> & ->).
  unfold bind, store_fd, gets. cbn [sy_proc]. unfold bind. cbn [sy_proc]. by replace ((0 <=? new_fd) && (new_fd <? Z.of_nat (length (fd_table (sy_proc s))))) with false by lia.
Qed.

(** [filesize] and [inumber] of the console or of a pipe, which have no
    inode, make the kernel follow a null pointer. *)
Theorem sys_filesize_no_inode (s : sys C) fd f x : length (fd_table (sy_proc s)) = FD_MAX -> 0 <= fd < Z.of_nat FD_MAX ->
  fd_table (sy_proc s) !! Z.to_nat fd = Some (Some f) -> files (sy_fs s) !! f = Some x -> fl_inode x = None ->
  sys_filesize fd s = Err Fault /\ sys_inumber fd s = Err Fault.
Proof using Type.
  intros Hl Hfd Ef Ex Ei. destruct (get_file_from_fd_spec fd s Hl) as (r & E & Hr). destruct Hr as [[_ Hr]|[? _]]; [|lia]. rewrite Ef in Hr. injection Hr as <-.
  unfold sys_filesize, sys_inumber, bind at 1 2. rewrite E. split.
  - unfold fsys, File.file_length, bind, deref, lift, get_file, gets. cbn. rewrite Ex. cbn. by rewrite Ei.
  - unfold bind at 1, fsys at 1, File.file_get_inode, get_file, bind, gets. rewrite Ex. cbn. by rewrite Ei.
Qed.

Lemma pipe_open_total b (f : fs C) l : fs_mem f = true :: true :: true :: true :: l -> open_files_lock f = false ->
  exists f', File.pipe_open b None f = Ok (Some (S (S (fs_next f)), S (S (S (fs_next f)))), f') /\
    refs f' = <[S (S (S (fs_next f))) := 1]> (<[S (S (fs_next f)) := 1]> (refs f)).
Proof using Type. intros Hm Hk. destruct f. cbn in Hm, Hk. subst. eexists. split; [cbv -[insert Z.of_nat]; reflexivity|].
  unfold refs. cbn [Fs.files Fs.fs_next]. set (e := mkFile PIPE None 0 false 1 None (Some fs_next)).
  change (fl_ref_count <$> <[S (S (S fs_next)) := e]> (<[S (S fs_next) := e]> files) = <[S (S (S fs_next)) := 1]> (<[S (S fs_next) := 1]> (fl_ref_count <$> files))).
  by rewrite !fmap_insert. Qed.

Lemma free_fds_none t k : free_fds t = 0%nat -> next_fd t k = None.
Proof using Type. revert k. induction t as [|[f|] t IH]; intros k; cbn; [done|apply IH|done]. Qed.

(** [pipe] does not notice that the table is full: it returns 0 and
    stores [-EMFILE] for both descriptors, and both ends of the pipe stay
    open, each with a reference that no descriptor holds. *)
Theorem sys_pipe_table_full buffer (s : sys C) l : free_fds (fd_table (sy_proc s)) = 0%nat ->
  fs_mem (sy_fs s) = true :: true :: true :: true :: l -> open_files_lock (sy_fs s) = false ->
  exists s' r w, sys_pipe buffer s = Ok ((0, le32 (u32 (- EMFILE)) ++ le32 (u32 (- EMFILE))), s') /\ sy_proc s' = sy_proc s /\
    r <> w /\ refs (sy_fs s') = <[w := 1]> (<[r := 1]> (refs (sy_fs s))).
Proof using Type.
  intros Hfull Hm Hk. destruct (pipe_open_total buffer _ _ Hm Hk) as (f' & E & Er). exists (mkSys f' (sy_proc s)), (S (S (fs_next (sy_fs s)))), (S (S (S (fs_next (sy_fs s))))).
  split_and!; [|done|lia|done]. unfold sys_pipe, bind at 1, fsys at 1. rewrite E. unfold set_next_fd, bind, gets. cbn [sy_proc]. rewrite (free_fds_none _ 0 Hfull).
  cbn [ret]. cbn [sy_proc]. rewrite (free_fds_none _ 0 Hfull). cbn [ret]. reflexivity.
Qed.
End results.

End SyscallProps.

(** System calls on a small disk: the runs that the properties of
    [SyscallProps] are applied to. *)

Module SyscallDemo.
Import UserMem Syscall FileFrame FileRefs SyscallProps.

(** A process makes a file, opens and writes it, duplicates descriptors and
    opens a pipe; its child inherits them; both end. *)
Definition one_byte (_ : Z) : option Z := Some 65.
Definition file_a : list Z := [47; 97; 0].
Definition path_a : list Z := [47; 97].
Definition do (pid : Z) (r : request) : event := Call pid one_byte r blank_page (replicate 20 0) (replicate (Z.to_nat 4096) 0).

Definition demo_events : list event :=
  [Create None 1; do 1 (RCreate file_a 0); do 1 (ROpen file_a); do 1 (RWrite 2 0 3); do 1 (RDup2 2 7); do 1 (RPipe 0);
   Create (Some 1) 2; do 2 (RClose 2); do 1 (RSeek 7 0); do 2 (RRead 7 0 3); do 1 (RDup2 3 7); Load 1 true path_a [FileRead 52; FileLength; FileSeek 1; FileRead 2] blank_page; Create (Some 1) 3; Load 3 false path_a [] blank_page;
   Exit 3; Exit 1; do 2 (RClose 7)].

(** The references of the open files and the descriptors of a process, as
    lists. *)
Definition summary (w : fs cache * procs) : list (nat * Z) * list (Z * list nat) :=
  (map_to_list (refs w.1), (fun x => (x.1, own (fd_table x.2.1))) <$> map_to_list w.2).

Definition demo_end : list (nat * Z) * list (Z * list nat) := ([(18%nat, 1); (6%nat, 1); (8%nat, 1); (17%nat, 1); (7%nat, 1)], [(2, [7; 8; 17; 18]%nat)]).

(** [counted] and [good], decided. *)
Definition countedb (f : fs cache) (h : list nat) : bool :=
  forallb (fun g => bool_decide (refs f !! g = tally (occ g h))) ((map_to_list (refs f)).*1 ++ h) && forallb (fun g => (g <? fs_next f)%nat) h.

Lemma countedb_ok f h : countedb f h = true -> counted f h.
Proof.
  intros [H1 H2]%andb_prop. rewrite List.forallb_forall in H1, H2. constructor.
  - intros g. destruct (decide (g ∈ (map_to_list (refs f)).*1 ++ h)) as [Hg|Hg].
    + apply list_elem_of_In in Hg. by specialize (H1 g Hg); apply bool_decide_eq_true in H1.
    + rewrite not_elem_of_app in Hg. destruct Hg as [Hr Hh]. apply occ_zero in Hh. rewrite Hh. destruct (refs f !! g) as [n|] eqn:E; [|done].
      exfalso. apply Hr. apply list_elem_of_fmap. exists (g, n). split; [done|]. by apply elem_of_map_to_list.
  - intros g Hg. apply list_elem_of_In in Hg. specialize (H2 g Hg). by apply Nat.ltb_lt in H2.
Qed.

Definition goodb (rest : list nat) (s : sys cache) : bool :=
  countedb (sy_fs s) (own (fd_table (sy_proc s)) ++ rest) && (length (fd_table (sy_proc s)) =? FD_MAX)%nat.

Lemma goodb_ok rest s : goodb rest s = true -> good rest (exec_file (sy_proc s)) s.
Proof. intros [H1 H2]%andb_prop. constructor; [by apply countedb_ok|by apply Nat.eqb_eq|done]. Qed.

(** The free map's file is the only one that is open at the start. *)
Lemma demo_settled f : countedb f [6%nat] = true -> settled [6%nat] (f, ∅).
Proof.
  intros Hc. constructor; cbn [fst snd]; [|by intros ? ? ?; rewrite lookup_empty]. unfold all_refs. rewrite map_to_list_empty.
  match goal with |- counted f ?h => change h with [6%nat] end. by apply countedb_ok.
Qed.

Lemma results {A B D E} (a a' : A) (b b' : B) (d d' : D) (e e' : E) : Ok (a, b, d, e) = Ok (a', b', d', e') -> a = a' /\ b = b' /\ d = d' /\ e = e'.
Proof. by intros [= -> -> -> ->]. Qed.

Lemma sys_demo_run :
  (let* f := small_disk 20 0 in
   let* w' := Syscall.run (f, ∅) demo_events in
   Ok (countedb f [6%nat], roomy (f, ∅) demo_events, summary w', tt)) = Ok (true, true, demo_end, tt).
Proof. vm_compute. reflexivity. Qed.

Lemma descriptors_counted_witness :
  exists f w', small_disk 20 0 = Ok f /\ Syscall.run (f, ∅) demo_events = Ok w' /\ summary w' = demo_end /\ settled [6%nat] w'.
Proof.
  pose proof sys_demo_run as E. destruct (small_disk 20 0) as [f|] eqn:Ef; [|discriminate]. cbn [rbind] in E.
  destruct (Syscall.run (f, ∅) demo_events) as [w'|] eqn:Er; [|discriminate]. cbn [rbind] in E. apply results in E as (E1 & E2 & E3 & _).
  exists f, w'. split_and!; [reflexivity|exact Er|exact E3|]. apply (descriptors_counted [6%nat] (f, ∅) w' demo_events); [by apply demo_settled|exact E2|exact Er].
Defined.

(** The process after it has made the file. *)
Definition demo_sys : res (sys cache) :=
  let* f := small_disk 20 0 in
  let* (f, ps) := Syscall.run (f, ∅) [Create None 1; do 1 (RCreate file_a 0)] in
  let* (p, d) := current ps 1 in
  Ok (mkSys (set_current_dir d f) p).

Lemma demo_open :
  (let* s := demo_sys in
   let* (n, s') := sys_open blank_page [47; 97] s in
   Ok ((length (fd_table (sy_proc s)) =? FD_MAX)%nat, n, own (fd_table (sy_proc s')), tt)) = Ok (true, 2, [7; 8; 14]%nat, tt).
Proof. vm_compute. reflexivity. Qed.

Lemma sys_open_lowest_witness :
  exists s s', demo_sys = Ok s /\ sys_open blank_page [47; 97] s = Ok (2, s') /\ exists r f1, Filesys.filesys_open [47; 97] blank_page (sy_fs s) = Ok (r, f1).
Proof.
  pose proof demo_open as E. destruct demo_sys as [s|] eqn:Es; [|discriminate]. cbn [rbind] in E.
  destruct (sys_open blank_page [47; 97] s) as [[n s']|] eqn:Eo; [|discriminate]. cbn [rbind] in E. apply results in E as (E1 & -> & _ & _).
  exists s, s'. split_and!; [reflexivity|exact Eo|]. apply Nat.eqb_eq in E1.
  destruct (sys_open_lowest blank_page [47; 97] s s' 2 E1 Eo) as (r & f1 & H & _). exists r, f1. exact H.
Defined.

Lemma demo_dup2 :
  (let* s := demo_sys in Ok (goodb [6%nat] s, open_files_lock (sy_fs s), fd_table (sy_proc s) !! 0%nat, tt)) = Ok (true, false, Some (Some 7%nat), tt).
Proof. vm_compute. reflexivity. Qed.

Lemma sys_dup2_out_of_range_witness : exists s, demo_sys = Ok s /\ sys_dup2 0 1024 s = Err Fault.
Proof.
  pose proof demo_dup2 as E. destruct demo_sys as [s|] eqn:Es; [|discriminate]. cbn [rbind] in E. apply results in E as (E1 & E2 & E3 & _).
  exists s. split; [reflexivity|]. apply (sys_dup2_out_of_range [6%nat] (exec_file (sy_proc s)) s 0 1024 7%nat); [exact (goodb_ok _ _ E1)|exact E2|vm_compute; split; congruence|exact E3|right; vm_compute; congruence].
Defined.

Lemma demo_console :
  (let* s := demo_sys in Ok ((length (fd_table (sy_proc s)) =? FD_MAX)%nat, fd_table (sy_proc s) !! 0%nat, files (sy_fs s) !! 7%nat, tt)) =
    Ok (true, Some (Some 7%nat), Some (mkFile STDIN None 0 false 1 None None), tt).
Proof. vm_compute. reflexivity. Qed.

Lemma sys_filesize_no_inode_witness : exists s, demo_sys = Ok s /\ sys_filesize 0 s = Err Fault /\ sys_inumber 0 s = Err Fault.
Proof.
  pose proof demo_console as E. destruct demo_sys as [s|] eqn:Es; [|discriminate]. cbn [rbind] in E. apply results in E as (E1 & E2 & E3 & _).
  exists s. split; [reflexivity|]. apply Nat.eqb_eq in E1. apply (sys_filesize_no_inode s 0 7%nat (mkFile STDIN None 0 false 1 None None) E1); [vm_compute; split; congruence|exact E2|exact E3|reflexivity].
Defined.

(** All descriptors are in use. *)
Definition full_sys : res (sys cache) :=
  let* s := demo_sys in Ok (mkSys (sy_fs s) (mkProc (replicate FD_MAX (Some 7%nat)) None)).

Lemma demo_full :
  (let* s := full_sys in Ok (free_fds (fd_table (sy_proc s)), take 4 (fs_mem (sy_fs s)), open_files_lock (sy_fs s), tt)) = Ok (0%nat, [true; true; true; true], false, tt).
Proof. vm_compute. reflexivity. Qed.

Lemma heap_head (l a : list bool) : take 4 l = a -> l = a ++ drop 4 l.
Proof. intros <-. symmetry. apply take_drop. Qed.

Lemma sys_pipe_table_full_witness :
  exists s s', full_sys = Ok s /\ sys_pipe [] s = Ok ((0, le32 (u32 (- EMFILE)) ++ le32 (u32 (- EMFILE))), s').
Proof.
  pose proof demo_full as E. destruct full_sys as [s|] eqn:Es; [|discriminate]. cbn [rbind] in E. apply results in E as (E1 & E2 & E3 & _).
  destruct (sys_pipe_table_full [] s (drop 4 (fs_mem (sy_fs s)))) as (s' & r & w & H & _); [exact E1|exact (heap_head _ _ E2)|exact E3|exists s, s'; split; [reflexivity|exact H]].
Defined.
End SyscallDemo.
