(* ===== verification/Format.v ===== *)
(** Formatting and mounting (do_format and filesys_init in
    src/src/filesys/filesys.c, with src/src/filesys/free-map.c): an empty
    device becomes a consistent disk with a free map file and a root
    directory that holds "." and "..". *)
From S2P Require Import Prelude Words CString Bitmap Monitor Pipe Block Cache CacheSpec CacheClient.
From S2P Require Import Fs Inode InodeTree InodeLookup InodeIO FsInv Release InodeOps Directory DirOps.
From S2P Require Import File Filesys.
From stdpp Require Import options.

#[local] Arguments Nat.div : simpl never.
#[local] Arguments Nat.modulo : simpl never.
#[local] Arguments Z.div : simpl never.
#[local] Arguments Z.modulo : simpl never.

(** The state with a file object more for the inode [p], and with the
    file [f] closed. *)
Definition with_file {C} (p : nat) (l : list bool) (s : fs C) : fs C :=
  set_open_files (fs_next s :: open_files s)
    (set_files (<[fs_next s := mkFile REG (Some p) 0 false 1 None None]> (files s))
       (set_heap l (S (fs_next s)) s)).

Definition without_file {C} (f p : nat) (s : fs C) : fs C :=
  set_files (delete f (files s))
    (set_open_files (list_drop f (open_files s)) (without_inode p s)).

Section files.
Context {C : Type} `{BufferCacheSpec C}.
Implicit Types (s : fs C) (c : C) (fm : bitmap).

Lemma wp_push_open_file s f (Q : unit -> fs C -> Prop) :
  open_files_lock s = false -> Q tt (set_open_files (f :: open_files s) s) ->
  wp (File.push_open_file f) Q s.
Proof using Type.
  intros Hl HQ. unfold File.push_open_file, lock_open_files, unlock_open_files. wp_steps.
  rewrite Hl. wp_steps. cbn. destruct s; cbn in *. by subst.
Qed.

(** Opening a file that is not a directory. *)
Lemma file_open_spec s c fm v p i d l (Q : option nat -> fs C -> Prop) :
  inodes s !! p = Some i -> v !! i_sector i = Some d -> disk_is_dir d <> 1 ->
  bc_rep c v ∅ -> fs_mem s = true :: l -> open_files_lock s = false ->
  (forall c', bc_rep c' v ∅ -> Q (Some (fs_next s)) (upd c' fm (with_file p l s))) ->
  wp (File.file_open (Some p)) Q (upd c fm s).
Proof using Type.
  intros Hi Hd Hnd Hrep Hmem Hlk HQ. unfold File.file_open. apply wp_bind, wp_malloc.
  2:{ cbn. intros l' Hh _. by rewrite Hmem in Hh. }
  intros l' El. cbn in El. rewrite Hmem in El. injection El as <-. cbn match. apply wp_bind.
  change (set_heap l (S (fs_next (upd c fm s))) (upd c fm s)) with (upd c fm (set_heap l (S (fs_next s)) s)).
  eapply (inode_is_dir_spec (set_heap l (S (fs_next s)) s) (i_sector i) ∅ p i Hi eq_refl fm fm v
            (pins_ok_empty _ _ _) _ c d); [done|done|].
  intros c1 Hrep1. rewrite eqb_false by done. wp_steps. unfold put_file. wp_steps.
  apply wp_push_open_file; [done|]. wp_steps. by apply (HQ c1).
Qed.

(** Closing the last reference to it, and to its inode. *)
Lemma file_close_spec s F c fm f p fl i (Q : unit -> fs C -> Prop) :
  table_ok s F -> files s !! f = Some fl -> fl_inode fl = Some p -> fl_pipe fl = None ->
  fl_ref_count fl = 1 -> fl_deny_write fl = false ->
  inodes s !! p = Some i -> i_open_cnt i = 1 -> i_removed i = false -> open_files_lock s = false ->
  Q tt (upd c fm (without_file f p s)) ->
  wp (File.file_close (Some f)) Q (upd c fm s).
Proof using Type.
  intros Htb Hf Hfi Hfp Hrc Hdw Hi Hic Hir Hlk HQ. unfold File.file_close.
  apply wp_bind. eapply wp_get_file; [done|]. unfold put_file. wp_steps.
  rewrite Hrc. change (1 - 1 =? 0) with true. cbn match. wp_steps.
  set (s1 := set_files (<[f := File.set_ref_count 0 fl]> (files s)) s).
  match goal with |- wp _ _ ?x => change x with (upd c fm s1) end.
  unfold File.file_allow_write. wp_steps; [done|]. eapply wp_deref; [done|]. wp_steps.
  eapply wp_get_file; [apply lookup_insert_eq|]. cbn [File.set_ref_count fl_deny_write].
  rewrite Hdw. wp_steps. rewrite Hfi. eapply (inode_close_last s1 F); [|done..|].
  { by eapply (table_same s). }
  unfold lock_open_files, unlock_open_files. wp_steps. cbn. rewrite Hlk. wp_steps. cbn.
  rewrite Hfp. cbn [File.pipe_close]. wp_steps.
  revert HQ. unfold without_file, s1. cbn. rewrite delete_insert_eq. destruct s; cbn in *. by subst.
Qed.

Lemma without_file_table s F f p i :
  table_ok s F -> inodes s !! p = Some i -> table_ok (without_file f p s) F.
Proof using Type.
  intros Htb Hp. eapply (table_same (without_inode p s)); [done|done|done|done|].
  eapply table_delete; [done|exact Hp|set_solver].
Qed.
End files.

(** * The free map file *)

(** The state in which the free map file has been opened. *)
Definition with_map {C} (l : list bool) (s : fs C) : fs C :=
  set_free_map_file (Some (S (fs_next s)))
    (with_file (fs_next s) l (with_inode FREE_MAP_SECTOR (true :: l) s)).

Section map_file.
Context {C : Type} `{BufferCacheSpec C}.
Implicit Types (s : fs C) (c : C) (fm : bitmap) (F R : gset Z).

Lemma with_map_open l s : fmap_open (with_map l s).
Proof using Type.
  exists (S (fs_next s)), (mkFile REG (Some (fs_next s)) 0 false 1 None None), (fs_next s),
    (mkInode FREE_MAP_SECTOR 1 false 0 false).
  split; [done|]. split; [apply lookup_insert_eq|]. split; [done|]. split; [apply lookup_insert_eq|done].
Qed.

Lemma with_map_table l s F :
  table_ok s F -> FREE_MAP_SECTOR ∈ F ->
  (forall p i, inodes s !! p = Some i -> i_sector i <> FREE_MAP_SECTOR) ->
  table_ok (with_map l s) F.
Proof using Type.
  intros Htb HF Hn. eapply table_same; [| | | |apply (table_insert s F FREE_MAP_SECTOR (true :: l)); done];
    try done. cbn. lia.
Qed.

Lemma open_map_file_spec s F c fm v d l (Q : nat -> fs C -> Prop) :
  table_ok s F -> bc_rep c v ∅ -> v !! FREE_MAP_SECTOR = Some d -> disk_is_dir d <> 1 ->
  (forall p i, inodes s !! p = Some i -> i_sector i <> FREE_MAP_SECTOR) ->
  fs_mem s = true :: true :: l -> open_files_lock s = false ->
  (forall c', bc_rep c' v ∅ -> Q (S (fs_next s)) (upd c' fm (with_map l s))) ->
  wp Filesys.open_map_file Q (upd c fm s).
Proof using Type.
  intros Htb Hrep Hd Hnd Hn Hmem Hlk HQ. unfold Filesys.open_map_file. apply wp_bind.
  eapply (inode_open_spec s F); [done|done|by exists d| |].
  { intros p i Hp E. by destruct (Hn p i Hp). }
  intros _. split; [|by rewrite Hmem]. intros c1 l' Hrep1 El. rewrite Hmem in El. injection El as <-.
  apply wp_bind.
  eapply (file_open_spec (with_inode FREE_MAP_SECTOR (true :: l) s)); [apply lookup_insert_eq|done..|].
  intros c2 Hrep2. wp_steps. by apply (HQ c2).
Qed.

(** Writing the map to a file that may have to grow for it. *)
Lemma bitmap_write_grow s R F c fm v f fl p i (Q : bool -> fs C -> Prop) :
  files s !! f = Some fl -> fl_inode fl = Some p -> inodes s !! p = Some i ->
  i_sector i = FREE_MAP_SECTOR -> i_deny_write_cnt i = 0 ->
  bc_rep c v ∅ -> disk_ok R v fm F -> FREE_MAP_SECTOR ∈ F ->
  map_size fm <= 512 * Z.of_nat MAX_SECTORS ->
  file_length v FREE_MAP_SECTOR = map_size fm ->
  (3 * missing v FREE_MAP_SECTOR (blocks 0 (map_size fm)) <= nfree fm)%nat ->
  (forall c' v' fm', bc_rep c' v' ∅ -> disk_ok R v' fm' F -> fmap_ok v' fm' ->
     bit_cnt fm' = bit_cnt fm -> child v' FREE_MAP_SECTOR 1 = child v FREE_MAP_SECTOR 1 ->
     (nfree fm <= nfree fm' + 3 * missing v FREE_MAP_SECTOR (blocks 0 (map_size fm)))%nat ->
     Q true (upd c' fm' s)) ->
  wp (bitmap_write free_map f) Q (upd c fm s).
Proof using Type.
  intros Hf Hfi Hi Hsec Hdeny Hrep Hok HF Hmax Hlen Hfree HQ. pose proof (dk_view _ _ _ Hok) as Hv.
  unfold bitmap_write, file_write_at. wp_steps. cbn [free_map upd set_cache set_free_map].
  rewrite byte_cnt_size by (done || apply Hv). wp_steps.
  eapply wp_get_file; [done|]. wp_steps. eapply wp_deref; [done|].
  assert (Hms : 0 <= map_size fm) by (unfold map_size; lia).
  assert (Hsz : forall fm', bit_cnt fm' = bit_cnt fm -> bitmap_wf fm' -> map_size fm' = map_size fm).
  { intros fm' Hc Hwf. pose proof (wf_len _ Hwf). pose proof (wf_len _ (vo_wf _ _ Hv)).
    unfold map_size. rewrite Hc in *. lia. }
  eapply (inode_write_from_spec s FREE_MAP_SECTOR ∅ p i Hi Hsec c fm v _ (fun fm => words_bytes (bits fm)));
    try done; try lia.
  - by apply (dk_tree _ _ _ Hok).
  - apply pins_ok_empty.
  - intros fm' Hc Hwf. split; [apply words_bytes_ok|]. rewrite length_words_bytes.
    pose proof (Hsz fm' Hc Hwf). unfold map_size in *. lia.
  - intros c' fm' v' l Hrep' Hl Hwr _ Hnf _. wp_steps. rewrite Z.eqb_refl.
    pose proof (wr_cnt _ _ _ _ _ _ _ _ Hwr) as Hcnt.
    assert (Hms' : map_size fm' = map_size fm) by (apply Hsz; [done|apply (vo_wf _ _ (wr_view _ _ _ _ _ _ _ _ Hwr))]).
    apply (HQ c' v' fm'); [done| | |done| |done].
    + apply (wrote_disk_ok v fm F _ Hok HF v' fm' 0 l); [lia|lia|by rewrite Hl].
    + split; rewrite Hms'; [done| |].
      * rewrite (wr_length _ _ _ _ _ _ _ _ Hwr). lia.
      * intros m Hm. unfold blocks in Hm. destruct (Z.leb_spec (map_size fm) 0); [by apply not_elem_of_nil in Hm|].
        apply elem_of_seq in Hm. rewrite Z.add_0_l in Hm. change (0 / 512) with 0 in Hm.
        pose proof (Z.div_mod (map_size fm - 1) 512 ltac:(lia)).
        pose proof (Z.mod_pos_bound (map_size fm - 1) 512 ltac:(lia)).
        pose proof (wr_present _ _ _ _ _ _ _ _ Hwr (512 * Z.of_nat m)) as Hp.
        rewrite Z.mul_comm, Z.div_mul, Nat2Z.id in Hp by lia. apply Hp. lia.
    + apply (wr_meta _ _ _ _ _ _ _ _ Hwr). lia.
Qed.
End map_file.

Section format.
Context {C : Type} `{BufferCacheSpec C}.
Implicit Types (s : fs C) (c : C) (fm : bitmap) (F R : gset Z).

Lemma no_inodes s : table_ok s ∅ -> inodes s = ∅.
Proof using Type.
  intros Htb. apply map_empty. intros p. destruct (inodes s !! p) as [i|] eqn:E; [|done].
  by destruct (to_inode _ _ Htb p i E) as [Hf%elem_of_empty _].
Qed.

Lemma map_size_bound fm : 0 <= map_size fm.
Proof. unfold map_size. lia. Qed.

Lemma map_size_cnt fm fm' :
  bitmap_wf fm -> bitmap_wf fm' -> bit_cnt fm' = bit_cnt fm -> map_size fm' = map_size fm.
Proof.
  intros Hwf Hwf' E. pose proof (wf_len _ Hwf). pose proof (wf_len _ Hwf').
  unfold map_size. rewrite E in *. lia.
Qed.

Lemma fmap_ok_cnt v fm fm' :
  bitmap_wf fm -> bitmap_wf fm' -> bit_cnt fm' = bit_cnt fm -> fmap_ok v fm -> fmap_ok v fm'.
Proof.
  intros Hwf Hwf' E [H1 H2 H3]. pose proof (map_size_cnt fm fm' Hwf Hwf' E) as Hm.
  by split; rewrite Hm.
Qed.

(** [free_map_create] makes the free map file and opens it. *)
Lemma free_map_create_spec s R c fm v l (Q : unit -> fs C -> Prop) :
  table_ok s ∅ -> bc_rep c v ∅ -> disk_ok R v fm ∅ -> FREE_MAP_SECTOR ∈ R ->
  0 < bit_cnt fm -> map_size fm <= 512 * Z.of_nat MAX_SECTORS ->
  (3 + 3 * length (blocks 0 (map_size fm)) <= nfree fm)%nat ->
  fs_mem s = true :: true :: true :: l -> open_files_lock s = false ->
  (forall c' v' fm', bc_rep c' v' ∅ -> disk_ok (R ∖ {[FREE_MAP_SECTOR]}) v' fm' {[FREE_MAP_SECTOR]} ->
     fmap_ok v' fm' -> bit_cnt fm' = bit_cnt fm -> child v' FREE_MAP_SECTOR 1 = 0 ->
     (nfree fm <= nfree fm' + 3 + 3 * length (blocks 0 (map_size fm)))%nat ->
     Q tt (upd c' fm' (with_map l (set_heap (true :: true :: l) (S (fs_next s)) s)))) ->
  wp Filesys.free_map_create Q (upd c fm s).
Proof using Type.
  intros Htb Hrep Hok HR Hpos Hmax Hfree Hmem Hlk HQ. pose proof (dk_view _ _ _ Hok) as Hv.
  assert (Hms : 0 < map_size fm).
  { pose proof (wf_len _ (vo_wf _ _ Hv)) as Hl. unfold map_size.
    pose proof (Z.div_mod (bit_cnt fm + 31) 32 ltac:(lia)). pose proof (Z.mod_pos_bound (bit_cnt fm + 31) 32 ltac:(lia)).
    destruct (bits fm); cbn in *; lia. }
  unfold Filesys.free_map_create. wp_steps. cbn [free_map upd set_cache set_free_map].
  unfold bitmap_file_size. rewrite byte_cnt_size by (done || apply Hv).
  eapply (inode_create_spec s R ∅ c fm v); [done|done|done|done|lia|lia|by rewrite Hmem|].
  intros c1 v1 fm1 l1 n1 Hrep1 Hcr Hcnt1 Hnf1 _ Hl1. destruct (Hl1 Hms) as [El1 ->].
  rewrite Hmem in El1. injection El1 as <-. cbn [negb]. apply wp_bind.
  pose proof (cr_disk _ _ _ _ _ _ _ _ Hcr) as Hok1. rewrite union_empty_r_L in Hok1.
  destruct (proj2 (vo_dom _ _ (dk_view _ _ _ Hok1) FREE_MAP_SECTOR)) as [d Hd].
  { rewrite Hcnt1. apply (dk_res _ _ _ Hok _ HR). }
  set (s1 := set_heap (true :: true :: l) (S (fs_next s)) s).
  assert (Hno : forall p i, inodes s1 !! p = Some i -> i_sector i <> FREE_MAP_SECTOR).
  { intros p i. unfold s1. cbn. by rewrite no_inodes, lookup_empty. }
  assert (Hch : child v1 FREE_MAP_SECTOR 1 = 0) by (rewrite (cr_is_dir _ _ _ _ _ _ _ _ Hcr); done).
  eapply (open_map_file_spec s1 {[FREE_MAP_SECTOR]}); [|done|exact Hd| |done|done|done|].
  { eapply (table_same s); [done|done|done| |eapply table_mono; [done|set_solver]]. cbn. lia. }
  { unfold child in Hch. rewrite Hd in Hch. unfold disk_is_dir. rewrite Hch. done. }
  intros c2 Hrep2. wp_steps.
  pose proof (map_size_cnt fm fm1 (vo_wf _ _ Hv) (vo_wf _ _ (dk_view _ _ _ Hok1)) Hcnt1) as Hms1.
  assert (Hmiss : (missing v1 FREE_MAP_SECTOR (blocks 0 (map_size fm)) <= length (blocks 0 (map_size fm)))%nat)
    by apply length_filter.
  eapply (bitmap_write_grow (with_map l s1)); [apply lookup_insert_eq|done|apply lookup_insert_eq|done|done|done|
    done|set_solver|by rewrite Hms1|by rewrite (cr_length _ _ _ _ _ _ _ _ Hcr), Hms1| |].
  { rewrite Hms1. lia. }
  intros c3 v3 fm3 Hrep3 Hok3 Hfo3 Hcnt3 Hch3 Hnf3. rewrite Hms1 in Hnf3. wp_steps.
  apply (HQ c3 v3 fm3); [done..|congruence|congruence|lia].
Qed.

(** [free_map_close] stores the free map and closes its file. *)
Lemma free_map_close_spec s R F c fm v f p fl i (Q : unit -> fs C -> Prop) :
  table_ok s F -> free_map_file s = Some f -> files s !! f = Some fl -> fl_inode fl = Some p ->
  fl_pipe fl = None -> fl_ref_count fl = 1 -> fl_deny_write fl = false ->
  inodes s !! p = Some i -> i_sector i = FREE_MAP_SECTOR -> i_open_cnt i = 1 ->
  i_removed i = false -> i_deny_write_cnt i = 0 -> open_files_lock s = false ->
  bc_rep c v ∅ -> disk_ok R v fm F -> fmap_ok v fm ->
  (forall c' v', bc_rep c' v' ∅ -> disk_ok R v' fm F -> fmap_ok v' fm -> fmap_stored v' fm ->
     child v' FREE_MAP_SECTOR 1 = child v FREE_MAP_SECTOR 1 ->
     (forall ino, ino ∈ F -> ino <> FREE_MAP_SECTOR -> same_file v v' ino) ->
     Q tt (upd c' fm (without_file f p s))) ->
  wp Filesys.free_map_close Q (upd c fm s).
Proof using Type.
  intros Htb Hf Hfl Hfi Hfp Hrc Hdw Hi Hsec Hoc Hrm Hdn Hlk Hrep Hok Hfo HQ.
  pose proof (dk_view _ _ _ Hok) as Hv.
  assert (HF : FREE_MAP_SECTOR ∈ F) by (rewrite <- Hsec; by apply (to_inode _ _ Htb p i)).
  assert (Hopen : fmap_open s) by (exists f, fl, p, i; done).
  unfold Filesys.free_map_close. wp_steps; cbn [free_map_file upd set_cache set_free_map].
  { by rewrite Hf. }
  eapply wp_deref; [exact Hf|]. wp_steps.
  eapply (bitmap_write_spec s Hopen ∅ c fm v f); [done|done|done|by apply (dk_tree _ _ _ Hok)|
    apply pins_ok_empty|done|].
  intros c1 v1 Hrep1 Hwr. cbn [negb].
  assert (Hl : Z.of_nat (length (words_bytes (bits fm))) = map_size fm).
  { rewrite length_words_bytes. unfold map_size. lia. }
  assert (Hmx : Z.max (file_length v FREE_MAP_SECTOR) (0 + Z.of_nat (length (words_bytes (bits fm))))
            = file_length v FREE_MAP_SECTOR).
  { rewrite Hl. pose proof (fo_len _ _ Hfo). lia. }
  assert (Hwr' := Hwr). rewrite <- Hmx in Hwr'.
  rewrite Hf. eapply (file_close_spec s F c1 fm f p fl i); [done..|].
  apply (HQ c1 v1); [done| | | | |].
  - apply (wrote_disk_ok v fm F FREE_MAP_SECTOR Hok HF v1 fm 0 (words_bytes (bits fm))); [lia| |done].
    rewrite Hl. apply Hfo.
  - destruct Hfo as [H1 H2 H3]. split; [done| |].
    + by rewrite (wr_length _ _ _ _ _ _ _ _ Hwr).
    + intros m Hm. rewrite (wrote_same_tree _ _ _ _ _ _ _ Hv (dk_tree _ _ _ Hok _ HF) Hwr); [by apply H3|].
      by apply elem_of_blocks in Hm.
  - intros k b Hk. by apply (wr_bytes _ _ _ _ _ _ _ _ Hwr).
  - apply (wr_meta _ _ _ _ _ _ _ _ Hwr). lia.
  - intros ino Hino Hne. by apply (wrote_other v fm F FREE_MAP_SECTOR Hok HF v1 fm 0 (words_bytes (bits fm)) Hwr').
Qed.

(** A directory without entries. *)
Lemma empty_dir_ok v ino : file_length v ino = 0 -> dir_ok v ino /\ dir_map v ino = ∅.
Proof using Type.
  intros Hl. assert (He : dir_entries v ino = []) by (unfold dir_entries; by rewrite Hl).
  split; [split|unfold dir_map; by rewrite He].
  - by rewrite Hl.
  - intros m. rewrite Hl. lia.
  - by rewrite He.
  - rewrite He. constructor.
Qed.

(** A formatted disk: its files are the free map and the root directory,
    nothing else is allocated, and the root directory is its own parent. *)
Record formatted (v : gmap Z (list Z)) (fm : bitmap) : Prop := {
  ft_disk : disk_ok ∅ v fm {[FREE_MAP_SECTOR; ROOT_DIR_SECTOR]};
  ft_map : fmap_ok v fm;
  ft_stored : fmap_stored v fm;
  ft_map_flag : child v FREE_MAP_SECTOR 1 = 0;
  ft_root : dir_ok v ROOT_DIR_SECTOR;
  ft_root_flag : child v ROOT_DIR_SECTOR 1 = 1;
  ft_root_length : file_length v ROOT_DIR_SECTOR <= 40;
  ft_names : dir_map v ROOT_DIR_SECTOR =
    {[ dot := ROOT_DIR_SECTOR; dotdot := ROOT_DIR_SECTOR ]};
}.

(** [dir_create] and [dir_open_root]: the root directory, empty. *)
Lemma root_create_spec s R F c fm v l (Q : option nat -> fs C -> Prop) :
  table_ok s F -> (forall p i, inodes s !! p = Some i -> i_sector i <> ROOT_DIR_SECTOR) ->
  bc_rep c v ∅ -> disk_ok R v fm F -> ROOT_DIR_SECTOR ∈ R -> (3 <= nfree fm)%nat ->
  fs_mem s = true :: true :: l ->
  (forall c' v', bc_rep c' v' ∅ ->
     disk_ok (R ∖ {[ROOT_DIR_SECTOR]}) v' fm ({[ROOT_DIR_SECTOR]} ∪ F) ->
     dir_ok v' ROOT_DIR_SECTOR -> dir_map v' ROOT_DIR_SECTOR = ∅ -> child v' ROOT_DIR_SECTOR 1 = 1 ->
     file_length v' ROOT_DIR_SECTOR = 0 -> (forall ino, ino ∈ F -> same_file v v' ino) ->
     Q (Some (S (fs_next s)))
       (upd c' fm (set_dirs (<[S (fs_next s) := mkDir (fs_next s) 0]> (dirs s))
          (set_heap l (S (S (fs_next s))) (with_inode ROOT_DIR_SECTOR (true :: l) s))))) ->
  wp (let! ok := dir_create ROOT_DIR_SECTOR 0 in
      if negb ok then fail Panic else dir_open_root) Q (upd c fm s).
Proof using Type.
  intros Htb Hno Hrep Hok HR Hfree Hmem HQ. apply wp_bind. unfold dir_create.
  change (s32 (u32 (0 * ENTRY_SIZE))) with 0.
  eapply (inode_create_spec s R F c fm v); [done|done|done|done|rewrite max_sectors; lia|done|lia|].
  intros c1 v1 fm1 l1 n1 Hrep1 Hcr Hcnt1 Hnf1 Hl1 _. destruct (Hl1 eq_refl) as (-> & -> & ->). cbn [negb].
  pose proof (cr_disk _ _ _ _ _ _ _ _ Hcr) as Hok1.
  destruct (empty_dir_ok v1 ROOT_DIR_SECTOR (cr_length _ _ _ _ _ _ _ _ Hcr)) as [Hd1 Hm1].
  replace (set_heap (fs_mem s) (fs_next s) s) with s by (by destruct s).
  unfold dir_open_root. apply wp_bind.
  eapply (inode_open_spec s ({[ROOT_DIR_SECTOR]} ∪ F)); [|done| | |].
  { eapply table_mono; [done|set_solver]. }
  { apply (vo_dom _ _ (dk_view _ _ _ Hok1)). apply (dk_res _ _ _ Hok _ HR). }
  { intros p i Hp E. by destruct (Hno p i Hp). }
  intros _. split; [|by rewrite Hmem]. intros c2 l2 Hrep2 El. rewrite Hmem in El. injection El as <-.
  unfold dir_open. apply wp_bind, wp_malloc; [|by intros l' Hh].
  intros l' El. injection El as <-. wp_steps. unfold put_dir. wp_steps.
  apply (HQ c2 v1); try done; apply Hcr.
Qed.

(** [dir_add] of a name that the directory does not have. *)
Lemma dir_add_new s dir d p i ino R c fm v F name sector e0 (Q : bool -> fs C -> Prop) :
  dirs s !! dir = Some d -> d_inode d = p -> inodes s !! p = Some i -> i_sector i = ino ->
  i_dir_lock i = false -> i_deny_write_cnt i = 0 ->
  disk_ok R v fm F -> ino ∈ F -> dir_ok v ino -> bc_rep c v ∅ ->
  name_ok name -> (0 < length name <= 14)%nat -> 0 <= sector < 2 ^ 32 ->
  length e0 = 20%nat -> Forall (fun b => 0 <= b < 2 ^ 8) e0 ->
  (6 <= nfree fm)%nat -> file_length v ino + 20 <= 512 * Z.of_nat MAX_SECTORS ->
  dir_map v ino !! name = None ->
  (forall c' v' fm', bc_rep c' v' ∅ -> added (R:=R) v fm F ino name sector v' fm' ->
     Q true (upd c' fm' s)) ->
  wp (dir_add (Some dir) name sector e0) Q (upd c fm s).
Proof using Type.
  intros Hdir Hdi Hi Hsec Hlk Hdn Hok HF Hd Hrep Hnm Hnl Hs Hl0 Hb0 Hfree Hroom Hnone HQ.
  eapply (dir_add_spec s dir d p i ino Hdir Hdi Hi Hsec Hlk v fm F Hok HF Hd); try done.
  - intros c' _ [x Hx]. congruence.
  - intros c' v' fm' Hrep' _ Had. by apply (HQ c' v' fm').
Qed.

(** The root directory is open: [do_format] does not close it. *)
Definition root_open s : Prop :=
  exists dir p, dirs s !! dir = Some (mkDir p 0) /\
    inodes s !! p = Some (mkInode ROOT_DIR_SECTOR 1 false 0 false).

(** [do_format] makes a formatted disk of one where nothing but the two
    system sectors is allocated. *)
Lemma do_format_spec s c fm v l e0 (Q : unit -> fs C -> Prop) :
  table_ok s ∅ -> bc_rep c v ∅ -> disk_ok {[FREE_MAP_SECTOR; ROOT_DIR_SECTOR]} v fm ∅ ->
  map_size fm <= 512 * Z.of_nat MAX_SECTORS ->
  (15 + 3 * length (blocks 0 (map_size fm)) <= nfree fm)%nat ->
  fs_mem s = replicate 5 true ++ l -> open_files_lock s = false ->
  length e0 = 20%nat -> Forall (fun b => 0 <= b < 2 ^ 8) e0 ->
  (forall c' v' fm' s', bc_rep c' v' ∅ -> formatted v' fm' -> bit_cnt fm' = bit_cnt fm ->
     table_ok s' {[FREE_MAP_SECTOR; ROOT_DIR_SECTOR]} ->
     (forall p i, inodes s' !! p = Some i -> i_sector i = ROOT_DIR_SECTOR) -> root_open s' ->
     (nfree fm <= nfree fm' + 15 + 3 * length (blocks 0 (map_size fm)))%nat ->
     fs_mem s' = l -> open_files_lock s' = false -> Q tt (upd c' fm' s')) ->
  wp (Filesys.do_format e0) Q (upd c fm s).
Proof using Type.
  intros Htb Hrep Hok Hmax Hfree Hmem Hlk Hl0 Hb0 HQ.
  assert (Hpos : 0 < bit_cnt fm).
  { destruct (dk_res _ _ _ Hok FREE_MAP_SECTOR) as [? _]; [set_solver|lia]. }
  unfold Filesys.do_format. apply wp_bind.
  eapply (free_map_create_spec s _ c fm v (true :: true :: l)); [done|done|done|set_solver|done|done|lia|done|done|].
  intros c1 v1 fm1 Hrep1 Hok1 Hfo1 Hcnt1 Hch1 Hnf1.
  set (n := fs_next s). set (s1 := with_map _ _).
  assert (Htb1 : table_ok s1 {[FREE_MAP_SECTOR]}).
  { apply with_map_table; [|set_solver|].
    - eapply (table_same s); [done|done|done|cbn; lia|eapply table_mono; [done|set_solver]].
    - intros p i. cbn. by rewrite no_inodes, lookup_empty. }
  assert (Hin1 : inodes s1 = {[S n := mkInode FREE_MAP_SECTOR 1 false 0 false]}).
  { unfold s1. cbn. by rewrite no_inodes. }
  assert (Hroot : wp (let! ok := dir_create ROOT_DIR_SECTOR 0 in
      if negb ok then fail Panic else dir_open_root) (fun root_dir => wp (match root_dir with
    | None => fail Panic
    | Some _ =>
        let! ok := dir_add root_dir dot ROOT_DIR_SECTOR e0 in
        if negb ok then fail Panic
        else
          let! ok := dir_add root_dir dotdot ROOT_DIR_SECTOR e0 in
          if negb ok then fail Panic else Filesys.free_map_close
    end) Q) (upd c1 fm1 s1)).
  2:{ apply wp_bind. eapply wp_mono; [exact (wp_bind_inv _ _ _ _ Hroot)|].
      intros [|] s'; cbn [negb]; [apply wp_bind|done]. }
  eapply (root_create_spec s1 ({[FREE_MAP_SECTOR; ROOT_DIR_SECTOR]} ∖ {[FREE_MAP_SECTOR]}));
    [done| |done|done|set_solver|lia|done|].
  { rewrite Hin1. intros p i [<- <-]%lookup_singleton_Some. done. }
  intros c2 v2 Hrep2 Hok2 Hd2 Hm2 Hfl2 Hlen2 Hsame2.
  set (s2 := set_dirs _ _).
  assert (Hok2' : disk_ok ∅ v2 fm1 {[FREE_MAP_SECTOR; ROOT_DIR_SECTOR]}).
  { replace (_ ∖ _ ∖ _) with (∅ : gset Z) in Hok2 by set_solver. by rewrite (comm_L (∪)) in Hok2. }
  clear Hok2.
  assert (Hir : inodes s2 !! (S (S (S n))) = Some (mkInode ROOT_DIR_SECTOR 1 false 0 false))
    by apply lookup_insert_eq.
  assert (Hdr : dirs s2 !! (S (S (S (S n)))) = Some (mkDir (S (S (S n))) 0)) by apply lookup_insert_eq.
  apply wp_bind.
  eapply (dir_add_new s2 _ _ _ _ ROOT_DIR_SECTOR ∅); [exact Hdr|done|exact Hir|done|done|done|exact Hok2'|
    set_solver|done|done| | |done|done|done|lia|rewrite Hlen2, max_sectors; lia|by rewrite Hm2|].
  { by repeat constructor. }
  { cbn. lia. }
  intros c3 v3 fm3 Hrep3 Had3. cbn [negb]. apply wp_bind.
  pose proof (ad_length _ _ _ _ _ _ _ _ Had3) as Hlen3. pose proof (ad_free _ _ _ _ _ _ _ _ Had3) as Hnf3.
  eapply (dir_add_new s2 _ _ _ _ ROOT_DIR_SECTOR ∅); [exact Hdr|done|exact Hir|done|done|done|apply Had3|
    set_solver|apply Had3|done| | |done|done|done|lia|rewrite max_sectors; lia| |].
  { by repeat constructor. }
  { cbn. lia. }
  { rewrite (ad_names _ _ _ _ _ _ _ _ Had3), Hm2. done. }
  intros c4 v4 fm4 Hrep4 Had4. cbn [negb].
  pose proof (ad_disk _ _ _ _ _ _ _ _ Had3) as Hok3. pose proof (ad_disk _ _ _ _ _ _ _ _ Had4) as Hok4.
  assert (Htb2 : table_ok s2 {[FREE_MAP_SECTOR; ROOT_DIR_SECTOR]}).
  { eapply (table_same (with_inode ROOT_DIR_SECTOR (true :: l) s1)); [done|done|done|cbn; lia|].
    apply table_insert; [eapply table_mono; [done|set_solver]|set_solver|].
    rewrite Hin1. by intros p i [<- <-]%lookup_singleton_Some. }
  assert (Him : inodes s2 !! S n = Some (mkInode FREE_MAP_SECTOR 1 false 0 false)).
  { etrans; [apply lookup_insert_ne; cbn; lia|]. rewrite Hin1. apply lookup_singleton_eq. }
  assert (Hs14 : same_file v1 v4 FREE_MAP_SECTOR).
  { eapply same_file_trans; [apply Hsame2; set_solver|].
    eapply same_file_trans; [apply (ad_others _ _ _ _ _ _ _ _ Had3); [set_solver|done]|].
    apply (ad_others _ _ _ _ _ _ _ _ Had4); [set_solver|done]. }
  assert (Hfo4 : fmap_ok v4 fm4).
  { apply (fmap_ok_cnt _ fm1); [apply (dk_view _ _ _ Hok2')|apply (dk_view _ _ _ Hok4)| |by apply (same_file_fmap_ok v1)].
    rewrite (ad_cnt _ _ _ _ _ _ _ _ Had4). apply Had3. }
  eapply (free_map_close_spec s2 ∅ _ c4 fm4 v4 (S (S n)) (S n)); [done|done|apply lookup_insert_eq|done|done|
    done|done|exact Him|done|done|done|done|done|done|done|done|].
  intros c5 v5 Hrep5 Hok5 Hfo5 Hst5 Hch5 Hsame5.
  assert (Hs45 : same_file v4 v5 ROOT_DIR_SECTOR) by (apply Hsame5; [set_solver|done]).
  assert (Hz4 : child v4 FREE_MAP_SECTOR 1 = child v1 FREE_MAP_SECTOR 1) by (by apply same_file_child).
  apply (HQ c5 v5 fm4); [done| | | | | | |done|done].
  - split; [done|done|done|congruence| | | |].
    + apply (same_file_dir_ok ∅ v4 fm4 _ v5 ROOT_DIR_SECTOR Hok4); [set_solver|done|apply Had4].
    + rewrite (same_file_child v4) by done.
      rewrite (ad_flag _ _ _ _ _ _ _ _ Had4), (ad_flag _ _ _ _ _ _ _ _ Had3). done.
    + rewrite (same_file_length v4) by done. pose proof (ad_length _ _ _ _ _ _ _ _ Had4). lia.
    + unfold dir_map. rewrite (same_file_entries v4) by done. fold (dir_map v4 ROOT_DIR_SECTOR).
      rewrite (ad_names _ _ _ _ _ _ _ _ Had4), (ad_names _ _ _ _ _ _ _ _ Had3), Hm2. done.
  - rewrite (ad_cnt _ _ _ _ _ _ _ _ Had4), (ad_cnt _ _ _ _ _ _ _ _ Had3). done.
  - by eapply without_file_table.
  - intros p i. cbn. rewrite delete_insert_ne by lia. rewrite no_inodes by done.
    rewrite insert_empty, delete_singleton_eq, insert_empty. by intros [<- <-]%lookup_singleton_Some.
  - exists (S (S (S (S n)))), (S (S (S n))). split; [apply lookup_insert_eq|].
    cbn. rewrite lookup_delete_ne by lia. apply lookup_insert_eq.
  - pose proof (ad_free _ _ _ _ _ _ _ _ Had4). lia.
Qed.
End format.

(** * Mounting: the free map read back from its file *)

Lemma last_mask_bit b k :
  bitmap_wf b -> 0 < bit_cnt b -> 0 <= k < 32 -> 32 * ((bit_cnt b + 31) / 32 - 1) + k < bit_cnt b ->
  Z.testbit (last_mask b) k = true.
Proof.
  intros Hwf Hpos Hk Hlt. pose proof (wf_cnt _ Hwf). unfold last_mask, ELEM_BITS.
  pose proof (Z.div_mod (bit_cnt b + 31) 32 ltac:(lia)). pose proof (Z.mod_pos_bound (bit_cnt b + 31) 32 ltac:(lia)).
  pose proof (Z.div_mod (bit_cnt b) 32 ltac:(lia)). pose proof (Z.mod_pos_bound (bit_cnt b) 32 ltac:(lia)) as Hm.
  destruct (Z.eqb_spec (bit_cnt b mod 32) 0) as [E|E]; cbn [negb].
  - change (u32 (-1)) with (Z.ones 32). apply Z.ones_spec_low. lia.
  - rewrite Z.shiftl_1_l. assert (Hp : 0 < 2 ^ (bit_cnt b mod 32) < 2 ^ 32).
    { split; [apply Z.pow_pos_nonneg; lia|apply Z.pow_lt_mono_r; lia]. }
    rewrite (u32_small (2 ^ _)) by lia. rewrite u32_small by lia.
    rewrite <- (Z.ones_spec_low (bit_cnt b mod 32) k) by lia. f_equal. rewrite Z.ones_equiv. lia.
Qed.

(** Clearing the bits past the end changes no bit of the map. *)
Lemma clear_excess b :
  bitmap_wf b -> 0 < bit_cnt b ->
  exists b', bits_update b (elem_cnt (bit_cnt b) - 1) (fun e => Z.land e (last_mask b)) = Ok b' /\
    bits_set b b' (bit b).
Proof.
  intros Hwf Hpos. pose proof (wf_cnt _ Hwf) as Hc. pose proof (wf_len _ Hwf) as Hl.
  rewrite elem_cnt_div by done. unfold bits_update.
  pose proof (Z.div_mod (bit_cnt b + 31) 32 ltac:(lia)). pose proof (Z.mod_pos_bound (bit_cnt b + 31) 32 ltac:(lia)).
  set (q := (bit_cnt b + 31) / 32) in *.
  destruct (lookup_lt_is_Some_2 (bits b) (Z.to_nat (q - 1))) as [e He]; [lia|]. rewrite He. cbn.
  eexists. split; [done|].
  assert (He' : 0 <= e < 2 ^ 32).
  { pose proof (wf_elem _ Hwf) as Hf. rewrite Forall_lookup in Hf. by apply (Hf (Z.to_nat (q - 1))). }
  split; cbn.
  - split; cbn; [done|by rewrite length_insert|]. apply Forall_insert; [apply Hwf|].
    apply testbit_range; [apply Z.land_nonneg; lia|]. intros k Hk.
    by rewrite Z.land_spec, small_testbit_high.
  - done.
  - intros j Hj. unfold bit. cbn.
    destruct (decide (Z.to_nat (j / 32) = Z.to_nat (q - 1))) as [E|E].
    + rewrite E, list_lookup_insert_eq by lia. rewrite He. cbn.
      pose proof (Z.div_mod j 32 ltac:(lia)). pose proof (Z.mod_pos_bound j 32 ltac:(lia)).
      assert (0 <= j / 32) by (apply Z.div_pos; lia).
      rewrite Z.land_spec, last_mask_bit by (done || lia). apply andb_true_r.
    + by rewrite list_lookup_insert_ne.
Qed.

Lemma nfree_bits fm fm' : bits_set fm fm' (bit fm) -> nfree fm' = nfree fm.
Proof.
  intros [_ Hc Hb]. unfold nfree. rewrite Hc. f_equal.
  assert (Hl : forall l : list Z, (forall j, j ∈ l -> bit fm' j = bit fm j) ->
    filter (fun j => bit fm' j = false) l = filter (fun j => bit fm j = false) l).
  { induction l as [|j l IH]; intros Hj; [done|]. rewrite !filter_cons, (Hj j) by left.
    rewrite IH; [done|]. intros k Hk. apply Hj. by right. }
  apply Hl. intros j Hj%elem_of_seqZ. apply Hb. lia.
Qed.

(** A disk is judged by the bits of the free map only. *)
Lemma disk_ok_bits R v fm fm' F :
  bits_set fm fm' (bit fm) -> disk_ok R v fm F -> disk_ok R v fm' F.
Proof.
  intros [Hwf Hcnt Hbit] [[Hv1 Hv2 Hv3] Ht Hdj Hu Hr Hti Hle].
  assert (Hv : view_ok v fm') by (split; [done| |done]; intros s; by rewrite Hv2, Hcnt).
  split; try done.
  - intros ino Hino. destruct (Ht ino Hino) as [H1 H2 H3]. split; [|done..].
    intros l Hl Hn. destruct (H1 l Hl Hn) as [Hs Hb]. split; [done|]. rewrite Hbit; [done|]. by apply Hv2.
  - intros s. rewrite Hcnt. intros Hs. rewrite Hbit by done. by apply Hu.
  - intros s Hs. destruct (Hr s Hs) as (H1 & H2 & H3). rewrite Hcnt. split; [done|]. by rewrite Hbit.
Qed.

Section mount.
Context {C : Type} `{BufferCacheSpec C}.
Implicit Types (s : fs C) (c : C) (b fm : bitmap) (F R : gset Z).

(** [bitmap_read] of the free map file: the bits are those of the map
    that was stored. *)
Lemma bitmap_read_spec s c fm0 v b fm f fl p i (Q : bool * bitmap -> fs C -> Prop) :
  files s !! f = Some fl -> fl_inode fl = Some p -> inodes s !! p = Some i ->
  i_sector i = FREE_MAP_SECTOR -> bc_rep c v ∅ -> view_ok v fm -> tree_wf v fm FREE_MAP_SECTOR ->
  fmap_ok v fm -> fmap_stored v fm -> bitmap_wf b -> bit_cnt b = bit_cnt fm -> 0 < bit_cnt fm ->
  (forall c' fm', bc_rep c' v ∅ -> bits_set fm fm' (bit fm) -> Q (true, fm') (upd c' fm0 s)) ->
  wp (bitmap_read b f) Q (upd c fm0 s).
Proof using Type.
  intros Hf Hfi Hi Hsec Hrep Hv Ht Hfo Hst Hwf Hcnt Hpos HQ. unfold bitmap_read, file_read_at.
  rewrite ltb_true by lia. pose proof (map_size_cnt fm b (vo_wf _ _ Hv) Hwf Hcnt) as Hms.
  rewrite byte_cnt_size by (done || rewrite Hms; apply Hfo). rewrite Hms. wp_steps.
  eapply wp_get_file; [done|]. wp_steps. eapply wp_deref; [done|].
  eapply (inode_read_at_spec s FREE_MAP_SECTOR ∅ p i Hi Hsec fm fm0 v Hv Ht (pins_ok_empty _ _ _)); try done.
  intros c1 Hrep1. pose proof (fo_len _ _ Hfo) as Hlen. pose proof (map_size_bound fm) as Hm0.
  rewrite Z.min_l by lia.
  assert (Hlb : length (words_bytes (bits b)) = length (words_bytes (bits fm))).
  { rewrite !length_words_bytes. unfold map_size in Hms. lia. }
  assert (El : file_bytes v FREE_MAP_SECTOR 0 (map_size fm) = words_bytes (bits fm)).
  { apply list_eq_same_length with (length (words_bytes (bits fm))); [done| |].
    - pose proof (length_file_bytes v FREE_MAP_SECTOR 0 (map_size fm)) as E.
      rewrite length_words_bytes. unfold map_size in *. lia.
    - intros k x y Hk Hx Hy. rewrite length_words_bytes in Hk. rewrite lookup_file_bytes in Hx.
      + injection Hx as <-. by apply Hst.
      + unfold map_size. lia. }
  rewrite El. assert (Eo : overwrite 0 (words_bytes (bits fm)) (words_bytes (bits b)) = words_bytes (bits fm)).
  { apply list_eq_same_length with (length (words_bytes (bits fm))); [done|by rewrite length_overwrite|].
    intros k x y Hk. rewrite lookup_overwrite by lia. rewrite decide_True by lia.
    rewrite Nat.sub_0_r. congruence. }
  rewrite Eo. replace (length (bits b)) with (length (bits fm)) by (unfold map_size in Hms; lia).
  rewrite bytes_words_bytes by apply (wf_elem _ (vo_wf _ _ Hv)). rewrite Hcnt.
  destruct (clear_excess fm (vo_wf _ _ Hv) Hpos) as (fm' & E & Hbs).
  replace (last_mask b) with (last_mask fm) by (unfold last_mask; by rewrite Hcnt).
  replace (mkBitmap (bit_cnt fm) (bits fm)) with fm by (by destruct fm).
  apply wp_bind, wp_lift. rewrite E. cbn [wpr]. wp_steps.
  replace (Z.of_nat (length (words_bytes (bits fm))) =? map_size fm) with true.
  - by apply (HQ c1 fm').
  - symmetry. apply Z.eqb_eq. rewrite length_words_bytes. unfold map_size. lia.
Qed.

(** [free_map_open]. *)
Lemma free_map_open_spec s R F c b fm v l (Q : unit -> fs C -> Prop) :
  table_ok s F -> bc_rep c v ∅ -> disk_ok R v fm F -> FREE_MAP_SECTOR ∈ F ->
  child v FREE_MAP_SECTOR 1 = 0 -> fmap_ok v fm -> fmap_stored v fm ->
  bitmap_wf b -> bit_cnt b = bit_cnt fm ->
  (forall p i, inodes s !! p = Some i -> i_sector i <> FREE_MAP_SECTOR) ->
  fs_mem s = true :: true :: l -> open_files_lock s = false ->
  (forall c' fm', bc_rep c' v ∅ -> bits_set fm fm' (bit fm) -> disk_ok R v fm' F -> fmap_ok v fm' ->
     Q tt (upd c' fm' (with_map l s))) ->
  wp Filesys.free_map_open Q (upd c b s).
Proof using Type.
  intros Htb Hrep Hok HF Hfl Hfo Hst Hwf Hcnt Hno Hmem Hlk HQ. pose proof (dk_view _ _ _ Hok) as Hv.
  assert (Ht : tree_wf v fm FREE_MAP_SECTOR) by (by apply (dk_tree _ _ _ Hok)).
  destruct (tw_sec _ _ _ Ht LInode) as [[d Hd] _]; [done|apply Ht|]. cbn in Hd.
  assert (Hpos : 0 < bit_cnt fm).
  { assert (0 <= FREE_MAP_SECTOR < bit_cnt fm); [|lia]. apply (vo_dom _ _ Hv). by exists d. }
  unfold Filesys.free_map_open. apply wp_bind.
  eapply (open_map_file_spec s F); [done|done|exact Hd| |done|done|done|].
  { unfold child in Hfl. rewrite Hd in Hfl. unfold disk_is_dir. rewrite Hfl. done. }
  intros c1 Hrep1. wp_steps. cbn [free_map upd set_cache set_free_map].
  eapply (bitmap_read_spec (with_map l s) c1 b v b fm); [apply lookup_insert_eq|done|apply lookup_insert_eq|
    done|done|done|done|done|done|done|done|done|].
  intros c2 fm' Hrep2 Hbs. wp_steps.
  apply (HQ c2 fm'); [done|done|by apply (disk_ok_bits _ _ fm)|].
  apply (fmap_ok_cnt _ fm); [apply Hv|apply Hbs|apply Hbs|done].
Qed.
End mount.
