(* ===== verification/FsProps.v ===== *)
(** What the file system promises: the invariant of a mounted file
    system, that formatting and mounting establish it, that the operations
    on inodes and directories keep it, and what they do to the files. *)
From S2P Require Import Prelude Words CString Bitmap Monitor Queue Pipe Block Cache CacheSpec CacheClient.
From S2P Require Import Fs Inode InodeTree InodeLookup InodeIO FsInv Release InodeOps Directory DirOps.
From S2P Require Import File Filesys Format.
From stdpp Require Import options.

#[local] Arguments Nat.div : simpl never.
#[local] Arguments Nat.modulo : simpl never.
#[local] Arguments Z.div : simpl never.
#[local] Arguments Z.modulo : simpl never.

(** The free map file is open, once. *)
Definition map_file {C} (s : fs C) (f p : nat) (fl : file) (i : inode) : Prop :=
  free_map_file s = Some f /\ files s !! f = Some fl /\ fl_inode fl = Some p /\
  fl_pipe fl = None /\ fl_ref_count fl = 1 /\ fl_deny_write fl = false /\
  inodes s !! p = Some i /\ i_sector i = FREE_MAP_SECTOR /\ i_open_cnt i = 1 /\
  i_removed i = false /\ i_deny_write_cnt i = 0.

(** A mounted file system: [v] is what the disk holds, [F] the sectors of
    its inodes. *)
Record mounted {C} `{BufferCacheSpec C} (s : fs C) (v : gmap Z (list Z)) (F : gset Z) : Prop := {
  mt_cache : bc_rep (fs_cache s) v ∅;
  mt_table : table_ok s F;
  mt_disk : disk_ok ∅ v (free_map s) F;
  mt_sys : {[FREE_MAP_SECTOR; ROOT_DIR_SECTOR]} ⊆ F;
  mt_map : fmap_ok v (free_map s);
  mt_flag : child v FREE_MAP_SECTOR 1 = 0;
  mt_file : exists f p fl i, map_file s f p fl i;
  mt_lock : open_files_lock s = false;
}.

Lemma range_unique (P : Z -> Prop) n m :
  0 <= n -> 0 <= m -> (forall x, P x <-> 0 <= x < n) -> (forall x, P x <-> 0 <= x < m) -> n = m.
Proof.
  intros Hn Hm H1 H2. destruct (Z.lt_trichotomy n m) as [Hlt|[E|Hlt]]; [|done|].
  - assert (P n) as Hp by (apply H2; lia). apply H1 in Hp. lia.
  - assert (P m) as Hp by (apply H1; lia). apply H2 in Hp. lia.
Qed.

(** * The free map of an empty disk *)

Lemma nfree_clear b : (forall j, 0 <= j < bit_cnt b -> bit b j = false) -> Z.of_nat (nfree b) = Z.max 0 (bit_cnt b).
Proof.
  intros Hb. unfold nfree.
  assert (Hl : forall l : list Z, (forall j, j ∈ l -> bit b j = false) -> filter (fun j => bit b j = false) l = l).
  { induction l as [|j l IH]; intros Hf; [done|]. rewrite filter_cons, decide_True by (apply Hf; left).
    f_equal. apply IH. intros k Hk. apply Hf. by right. }
  rewrite Hl; [rewrite length_seqZ; lia|]. intros j Hj%elem_of_seqZ. apply Hb. lia.
Qed.

Lemma bitmap_mark_allocated b x :
  bitmap_wf b -> 0 <= x < bit_cnt b -> bit b x = false ->
  exists b', bitmap_mark b x = Ok b' /\ allocated b x b'.
Proof.
  intros Hwf Hx Hb. destruct (bitmap_mark_spec b x Hwf Hx) as (b' & E & [H1 H2 H3]).
  exists b'. split; [done|]. split; [done..|]. intros j Hj. rewrite H3 by done. by destruct (j =? x).
Qed.

(** [free_map_init]: the two system sectors are taken. *)
Lemma free_map_init_spec {C} (s : fs C) size l (Q : unit -> fs C -> Prop) :
  2 <= size <= 2 ^ 32 - 32 -> 4 * Z.of_nat (length l) = byte_cnt size ->
  Forall (fun e => 0 <= e < 2 ^ 32) l ->
  (forall fm, bitmap_wf fm -> bit_cnt fm = size -> Z.of_nat (nfree fm) = size - 2 ->
     (forall j, 0 <= j < size -> bit fm j = true <-> j = FREE_MAP_SECTOR \/ j = ROOT_DIR_SECTOR) ->
     Q tt (set_free_map fm s)) ->
  wp (Filesys.free_map_init size (Some tt) (Some l)) Q s.
Proof.
  intros Hsz Hlen Hl HQ. unfold Filesys.free_map_init.
  destruct (bitmap_create_clear (Some tt) l size) as (b & E & Hwf & Hcnt & Hclear); [lia|done|done|].
  apply wp_bind, wp_lift. rewrite E. cbn [wpr].
  destruct (bitmap_mark_allocated b FREE_MAP_SECTOR) as (b1 & E1 & Ha1); [done|unfold FREE_MAP_SECTOR; lia| |].
  { apply Hclear. unfold FREE_MAP_SECTOR. lia. }
  apply wp_bind, wp_lift. rewrite E1. cbn [wpr]. pose proof (al_cnt _ _ _ Ha1) as Hc1.
  assert (Hb1 : forall j, 0 <= j < size -> bit b1 j = (j =? FREE_MAP_SECTOR)).
  { intros j Hj. rewrite (al_bit _ _ _ Ha1) by lia. rewrite Hclear by lia. apply orb_false_r. }
  destruct (bitmap_mark_allocated b1 ROOT_DIR_SECTOR) as (b2 & E2 & Ha2); [apply Ha1|unfold ROOT_DIR_SECTOR; lia| |].
  { rewrite Hb1; [done|]. unfold ROOT_DIR_SECTOR. lia. }
  apply wp_bind, wp_lift. rewrite E2. cbn [wpr]. wp_steps.
  pose proof (al_cnt _ _ _ Ha2) as Hc2. apply HQ; [apply Ha2|congruence| |].
  - pose proof (nfree_clear b ltac:(rewrite Hcnt; intros j Hj; apply Hclear; lia)) as Hn.
    rewrite (nfree_allocated _ _ _ Ha1), (nfree_allocated _ _ _ Ha2) in Hn. lia.
  - intros j Hj. rewrite (al_bit _ _ _ Ha2) by lia. rewrite Hb1 by done.
    rewrite orb_true_iff, !Z.eqb_eq. naive_solver.
Qed.

(** [disk_map_blocks]: the free map of [size] sectors fills few blocks. *)
Lemma map_blocks fm size :
  bitmap_wf fm -> bit_cnt fm = size -> 20 <= size <= 2 ^ 26 ->
  map_size fm <= 512 * Z.of_nat MAX_SECTORS /\
  17 + 3 * Z.of_nat (length (blocks 0 (map_size fm))) <= size.
Proof.
  intros Hwf Hc Hs. pose proof (wf_len _ Hwf) as Hl. rewrite Hc in Hl.
  pose proof (Z.div_mod (size + 31) 32 ltac:(lia)). pose proof (Z.mod_pos_bound (size + 31) 32 ltac:(lia)).
  assert (Hm : map_size fm = 4 * ((size + 31) / 32)) by (unfold map_size; lia).
  rewrite max_sectors. split; [lia|]. unfold blocks. rewrite leb_false by lia. rewrite length_seq.
  rewrite Z.add_0_l. change (0 / 512) with 0.
  pose proof (Z.div_mod (map_size fm - 1) 512 ltac:(lia)).
  pose proof (Z.mod_pos_bound (map_size fm - 1) 512 ltac:(lia)). lia.
Qed.

(** * Starting the file system *)

Section init.
Context (dev : block) (mem : list (option (list Z))) (buf l e0 input : list Z) (heap : list bool).
Context (Htype : bl_type dev <> BLOCK_FOREIGN) (Hsec : Forall sector_ok (bl_sectors dev)).
Context (Hsize : 20 <= block_size dev <= 2 ^ 26).
Context (Hmem : is_Some (init_blocks MAX_CACHE_SIZE mem)) (Hbuf : length buf = 65%nat).
Context (Hl : 4 * Z.of_nat (length l) = byte_cnt (block_size dev)).
Context (Hle : Forall (fun e => 0 <= e < 2 ^ 32) l).
Context (He0 : length e0 = 20%nat) (Hb0 : Forall (fun b => 0 <= b < 2 ^ 8) e0).

(** The state when the free map has been initialised. *)
Let init_state (c : cache) := mkFs c (mkBitmap 0 []) None ∅ [] false ∅ [] false ∅ ∅ heap 0 None 0 input [].

Lemma init_cache : exists c, cache_init dev mem (Some buf) = Some c /\ cache_rep c (dev_view dev) ∅.
Proof using Htype Hsec Hmem Hbuf.
  destruct Hmem as [bs Hbs]. unfold cache_init. rewrite Hbs. cbn [queue_init]. eexists. split; [done|].
  eapply cache_init_rep; [done|done|exact Hbuf|]. unfold cache_init. by rewrite Hbs.
Qed.

Lemma init_table c : table_ok (init_state c) ∅.
Proof using Type.
  split; [done| | | |].
  2:{ intros p i Hp. cbn in Hp. by rewrite lookup_empty in Hp. }
  2:{ intros p p' i i' Hp. cbn in Hp. by rewrite lookup_empty in Hp. }
  2:{ intros p [i Hp]. cbn in Hp. by rewrite lookup_empty in Hp. }
  intros p. cbn. split; [by intros ?%not_elem_of_nil|]. rewrite lookup_empty. by intros [? ?].
Qed.

Lemma init_view fm :
  bitmap_wf fm -> bit_cnt fm = block_size dev -> view_ok (dev_view dev) fm.
Proof using Hsec.
  intros Hwf Hc. split; [done| |].
  - intros x. rewrite dev_view_lookup, Hc. apply sector_of_range.
  - intros x d. rewrite dev_view_lookup. unfold sector_of. destruct (0 <=? x); [|done].
    intros Hd. by eapply Forall_lookup_1 in Hsec.
Qed.

(** [filesys_init (true)]: the disk is formatted and mounted. *)
Lemma filesys_init_formats_spec heap' :
  heap = replicate 7 true ++ heap' ->
  exists s v, Filesys.filesys_init (Some dev) true mem (Some buf) (Some tt) (Some l) e0 heap input = Ok s /\
    mounted s v {[FREE_MAP_SECTOR; ROOT_DIR_SECTOR]} /\ bit_cnt (free_map s) = block_size dev /\
    dir_ok v ROOT_DIR_SECTOR /\ child v ROOT_DIR_SECTOR 1 = 1 /\
    dir_map v ROOT_DIR_SECTOR = {[ dot := ROOT_DIR_SECTOR; dotdot := ROOT_DIR_SECTOR ]} /\
    root_open s /\ file_length v ROOT_DIR_SECTOR <= 40 /\
    block_size dev <= Z.of_nat (nfree (free_map s)) + 17 + 3 * Z.of_nat (length (blocks 0 (map_size (free_map s)))) /\
    fs_mem s = heap'.
Proof using All.
  intros Hheap. destruct init_cache as (c & Hc & Hrep).
  unfold Filesys.filesys_init. rewrite Hc. fold (init_state c).
  match goal with |- context [?m (init_state c)] => set (prog := m) end.
  assert (Hwp : wp prog (fun _ s => exists v, mounted s v {[FREE_MAP_SECTOR; ROOT_DIR_SECTOR]} /\
    bit_cnt (free_map s) = block_size dev /\ dir_ok v ROOT_DIR_SECTOR /\ child v ROOT_DIR_SECTOR 1 = 1 /\
    dir_map v ROOT_DIR_SECTOR = {[ dot := ROOT_DIR_SECTOR; dotdot := ROOT_DIR_SECTOR ]} /\
    root_open s /\ file_length v ROOT_DIR_SECTOR <= 40 /\
    block_size dev <= Z.of_nat (nfree (free_map s)) + 17 + 3 * Z.of_nat (length (blocks 0 (map_size (free_map s)))) /\
    fs_mem s = heap') (init_state c)).
  2:{ apply wp_ok in Hwp as ([] & s & E & v & Hs). exists s, v. by rewrite E. }
  unfold prog. unfold inode_init, File.file_init. wp_steps.
  apply free_map_init_spec; [lia|done|done|]. intros fm Hwf Hcnt Hnf Hbits. apply wp_bind.
  destruct (map_blocks fm _ Hwf Hcnt Hsize) as [Hmax Hblk].
  match goal with |- wp _ ?Q _ => change (wp (Filesys.do_format e0) Q (upd c fm (init_state c))) end.
  eapply (do_format_spec (init_state c) c fm (dev_view dev) (true :: true :: heap')); [apply init_table|done| |done|
    lia|done|done|done|done|].
  { apply disk_ok_empty; [by apply init_view| |]; rewrite Hcnt.
    - intros x Hx. rewrite Hbits by done. set_solver.
    - intros x Hx. assert (Hr : 0 <= x < block_size dev).
      { apply elem_of_union in Hx as [->%elem_of_singleton| ->%elem_of_singleton];
          unfold FREE_MAP_SECTOR, ROOT_DIR_SECTOR; lia. }
      split; [done|]. apply Hbits; [done|]. set_solver. }
  intros c1 v1 fm1 s1 Hrep1 Hft Hcnt1 Htb1 Hin1 Hroot1 Hnf1 Hmem1 Hlk1.
  eapply (free_map_open_spec s1 ∅ _ c1 fm1 fm1 v1); [done|done|apply Hft|set_solver|apply Hft|apply Hft|apply Hft|
    apply (dk_view _ _ _ (ft_disk _ _ Hft))|done| |done|done|].
  { intros p i Hp. rewrite (Hin1 p i Hp). done. }
  intros c2 fm2 Hrep2 Hbs Hok2 Hfo2. exists v1. split.
  2:{ split; [cbn; rewrite (set_cnt _ _ _ Hbs); congruence|]. split; [apply Hft|]. split; [apply Hft|].
      split; [apply Hft|]. split; [|split; [apply Hft|split; [|done]]].
      2:{ cbn. rewrite (nfree_bits _ _ Hbs). replace (map_size fm2) with (map_size fm); [lia|].
          apply map_size_cnt; [apply (dk_view _ _ _ Hok2)|done|]. rewrite (set_cnt _ _ _ Hbs). congruence. }
      destruct Hroot1 as (dir & p & Hd & Hp). exists dir, p.
      split; [done|]. pose proof (to_next _ _ Htb1 p ltac:(by eexists)). etrans; [apply lookup_insert_ne; lia|done]. }
  split; [done| |done|done|done|apply Hft| |done].
  - eapply table_same; [| | | |apply (with_map_table heap' s1); [done|set_solver|]]; try done.
    intros p i Hp. by rewrite (Hin1 p i Hp).
  - exists (S (fs_next s1)), (fs_next s1), (mkFile REG (Some (fs_next s1)) 0 false 1 None None),
      (mkInode FREE_MAP_SECTOR 1 false 0 false).
    split; [done|]. split; [apply lookup_insert_eq|]. do 4 (split; [done|]).
    split; [apply lookup_insert_eq|done].
Qed.

(** [filesys_init (false)]: a device that holds a file system is mounted. *)
Lemma filesys_init_mounts_spec heap' fm F :
  heap = true :: true :: heap' ->
  disk_ok ∅ (dev_view dev) fm F -> {[FREE_MAP_SECTOR; ROOT_DIR_SECTOR]} ⊆ F ->
  fmap_ok (dev_view dev) fm -> fmap_stored (dev_view dev) fm ->
  child (dev_view dev) FREE_MAP_SECTOR 1 = 0 -> bit_cnt fm = block_size dev ->
  exists s, Filesys.filesys_init (Some dev) false mem (Some buf) (Some tt) (Some l) e0 heap input = Ok s /\
    mounted s (dev_view dev) F /\ bits_set fm (free_map s) (bit fm) /\ fs_mem s = heap'.
Proof using Htype Hsec Hsize Hmem Hbuf Hl Hle.
  clear He0 Hb0. intros Hheap Hok HF Hfo Hst Hfl Hcnt. destruct init_cache as (c & Hc & Hrep).
  unfold Filesys.filesys_init. rewrite Hc. fold (init_state c).
  match goal with |- context [?m (init_state c)] => set (prog := m) end.
  assert (Hwp : wp prog (fun _ s => mounted s (dev_view dev) F /\ bits_set fm (free_map s) (bit fm) /\
    fs_mem s = heap') (init_state c)).
  2:{ apply wp_ok in Hwp as ([] & s & E & Hs). exists s. by rewrite E. }
  unfold prog. unfold inode_init, File.file_init. wp_steps.
  apply free_map_init_spec; [lia|done|done|]. intros b Hwf Hcb _ _. apply wp_bind. wp_steps.
  match goal with |- wp _ ?Q _ => change (wp Filesys.free_map_open Q (upd c b (init_state c))) end.
  assert (Hno : forall p i, inodes (init_state c) !! p = Some i -> i_sector i <> FREE_MAP_SECTOR).
  { intros p i Hp. cbn in Hp. by rewrite lookup_empty in Hp. }
  assert (Htb : table_ok (init_state c) F) by (eapply table_mono; [apply init_table|set_solver]).
  eapply (free_map_open_spec (init_state c) ∅ F c b fm); try done; [set_solver|congruence|].
  intros c2 fm2 Hrep2 Hbs Hok2 Hfo2. split; [|done]. split; [done| |done|done|done|done| |done].
  - eapply table_same; [| | | |apply (with_map_table heap' (init_state c)); [done|set_solver|done]]; try done.
  - exists 1%nat, 0%nat, (mkFile REG (Some 0%nat) 0 false 1 None None), (mkInode FREE_MAP_SECTOR 1 false 0 false).
    split; [done|]. split; [apply lookup_insert_eq|]. do 4 (split; [done|]).
    split; [apply lookup_insert_eq|done].
Qed.
End init.

(** * Stopping it *)

Lemma filesys_done_spec (s : fs cache) v F :
  mounted s v F ->
  exists s' v', Filesys.filesys_done s = Ok (tt, s') /\
    cache_rep (fs_cache s') v' ∅ /\ dev_view (fs_device (fs_cache s')) = v' /\
    disk_ok ∅ v' (free_map s) F /\ fmap_ok v' (free_map s) /\ fmap_stored v' (free_map s) /\
    child v' FREE_MAP_SECTOR 1 = 0 /\
    (forall ino, ino ∈ F -> ino <> FREE_MAP_SECTOR -> same_file v v' ino).
Proof.
  intros [Hrep Htb Hok HF Hfo Hfl (f & p & fl & i & Hmf) Hlk].
  destruct Hmf as (Hf & Hfl' & Hfi & Hfp & Hrc & Hdw & Hi & Hsec & Hoc & Hrm & Hdn).
  assert (Hwp : wp Filesys.filesys_done (fun _ s' => exists v',
    cache_rep (fs_cache s') v' ∅ /\ dev_view (fs_device (fs_cache s')) = v' /\
    disk_ok ∅ v' (free_map s) F /\ fmap_ok v' (free_map s) /\ fmap_stored v' (free_map s) /\
    child v' FREE_MAP_SECTOR 1 = 0 /\
    (forall ino, ino ∈ F -> ino <> FREE_MAP_SECTOR -> same_file v v' ino)) s).
  2:{ apply wp_ok in Hwp as ([] & s' & E & v' & Hs). exists s', v'. by rewrite E. }
  unfold Filesys.filesys_done. apply wp_bind. rewrite (upd_eta s) at 1.
  eapply (free_map_close_spec s ∅ F _ _ v f p fl i); try done.
  intros c1 v1 Hrep1 Hok1 Hfo1 Hst1 Hch1 Hsame1. apply wp_cachef_upd.
  eapply wp_mono; [by apply cache_flush_spec|]. intros [] c2 [Hrep2 Hdev]. exists v1. cbn.
  split; [done|]. split.
  { apply map_eq. intros x. rewrite dev_view_lookup. apply Hdev. intros j pn Hj.
    by rewrite lookup_empty in Hj. }
  do 3 (split; [done|]). split; [congruence|done].
Qed.

(** A disk of 32 blank sectors, formatted and mounted. *)
Definition demo_disk : block := mkBlock BLOCK_FILESYS (replicate 32 (replicate 512 0)) 0 0.
Definition demo_heap : list bool := replicate 20 true.

Definition demo_init : res (fs cache) :=
  Filesys.filesys_init (Some demo_disk) true (replicate 64 (Some [])) (Some (replicate 65 0))
    (Some tt) (Some [0]) (replicate 20 7) (replicate 7 true ++ demo_heap) [].

Lemma demo_disk_sectors : Forall sector_ok (bl_sectors demo_disk).
Proof. apply Forall_replicate, sector_ok_replicate. lia. Qed.

Lemma demo_mounted :
  exists s v, demo_init = Ok s /\ mounted s v {[FREE_MAP_SECTOR; ROOT_DIR_SECTOR]} /\
    bit_cnt (free_map s) = 32 /\ dir_ok v ROOT_DIR_SECTOR /\
    dir_map v ROOT_DIR_SECTOR = {[ dot := ROOT_DIR_SECTOR; dotdot := ROOT_DIR_SECTOR ]} /\
    root_open s /\ file_length v ROOT_DIR_SECTOR <= 40 /\ (12 <= nfree (free_map s))%nat /\ fs_mem s = demo_heap.
Proof.
  destruct (filesys_init_formats_spec demo_disk (replicate 64 (Some [])) (replicate 65 0) [0] (replicate 20 7)
    [] (replicate 7 true ++ demo_heap)) with (heap' := demo_heap) as (s & v & E & H1 & H2 & H3 & H4 & H5 & H6 & H9 & H7 & H8).
  - discriminate.
  - apply demo_disk_sectors.
  - vm_compute. split; congruence.
  - vm_compute. by eexists.
  - reflexivity.
  - reflexivity.
  - by repeat constructor.
  - reflexivity.
  - by apply Forall_replicate.
  - reflexivity.
  - exists s, v. do 5 (split; [assumption|]). do 2 (split; [assumption|]). split; [|assumption].
    pose proof (wf_len _ (vo_wf _ _ (dk_view _ _ _ (mt_disk _ _ _ H1)))) as Hlen.
    rewrite H2 in Hlen. change ((block_size demo_disk + 31) / 32) with 1 in Hlen.
    unfold map_size in H7. rewrite Hlen in H7. change (length (blocks 0 (4 * 1))) with 1%nat in H7.
    change (block_size demo_disk) with 32 in H7. lia.
Qed.

(** * Formatting, mounting, unmounting *)

(** C2: [filesys_init (true)] on any device of 20 to 2^26 sectors succeeds,
    whatever the device held: it leaves a mounted, consistent file system
    whose only files are the free map and the root directory, with every
    sector outside these two files free, and the root directory holds
    exactly "." and "..", both naming itself. *)
Theorem filesys_init_formats (dev : block) (mem : list (option (list Z))) (buf l e0 input : list Z)
    (heap : list bool) :
  bl_type dev <> BLOCK_FOREIGN -> Forall sector_ok (bl_sectors dev) ->
  20 <= block_size dev <= 2 ^ 26 ->
  is_Some (init_blocks MAX_CACHE_SIZE mem) -> length buf = 65%nat ->
  4 * Z.of_nat (length l) = byte_cnt (block_size dev) -> Forall (fun e => 0 <= e < 2 ^ 32) l ->
  length e0 = 20%nat -> Forall (fun b => 0 <= b < 2 ^ 8) e0 ->
  exists s v,
    Filesys.filesys_init (Some dev) true mem (Some buf) (Some tt) (Some l) e0
      (replicate 7 true ++ heap) input = Ok s /\
    mounted s v {[FREE_MAP_SECTOR; ROOT_DIR_SECTOR]} /\
    dir_ok v ROOT_DIR_SECTOR /\ child v ROOT_DIR_SECTOR 1 = 1 /\
    dir_map v ROOT_DIR_SECTOR = {[ dot := ROOT_DIR_SECTOR; dotdot := ROOT_DIR_SECTOR ]}.
Proof.
  intros Ht Hs Hn Hm Hb Hl Hle He Hbe.
  destruct (filesys_init_formats_spec dev mem buf l e0 input (replicate 7 true ++ heap) Ht Hs Hn Hm Hb Hl Hle
    He Hbe heap eq_refl) as (s & v & E & H1 & H2 & H3 & H4 & H5 & H6 & H9 & H7 & H8).
  exists s, v. by split_and!.
Qed.

Lemma filesys_init_formats_witness :
  exists s v, demo_init = Ok s /\ mounted s v {[FREE_MAP_SECTOR; ROOT_DIR_SECTOR]} /\
    dir_map v ROOT_DIR_SECTOR = {[ dot := ROOT_DIR_SECTOR; dotdot := ROOT_DIR_SECTOR ]}.
Proof.
  destruct (filesys_init_formats demo_disk (replicate 64 (Some [])) (replicate 65 0) [0] (replicate 20 7) []
    demo_heap) as (s & v & E & H1 & _ & _ & H2).
  - discriminate.
  - apply demo_disk_sectors.
  - vm_compute. split; congruence.
  - vm_compute. by eexists.
  - reflexivity.
  - reflexivity.
  - by repeat constructor.
  - reflexivity.
  - by apply Forall_replicate.
  - exists s, v. split; [exact E|]. by split.
Defined.

(** C3: Unmounting and mounting again keeps every file: after [filesys_done]
    the device holds the whole file system, and [filesys_init (false)] on
    it succeeds with the same files, the same free map and the same
    contents. *)
Theorem filesys_remount (s : fs cache) (v : gmap Z (list Z)) (F : gset Z)
    (mem : list (option (list Z))) (buf l e0 input : list Z) (heap : list bool) :
  mounted s v F -> 20 <= bit_cnt (free_map s) <= 2 ^ 26 ->
  is_Some (init_blocks MAX_CACHE_SIZE mem) -> length buf = 65%nat ->
  4 * Z.of_nat (length l) = byte_cnt (bit_cnt (free_map s)) -> Forall (fun e => 0 <= e < 2 ^ 32) l ->
  exists s1 s2 v2,
    Filesys.filesys_done s = Ok (tt, s1) /\
    Filesys.filesys_init (Some (fs_device (fs_cache s1))) false mem (Some buf) (Some tt) (Some l) e0
      (true :: true :: heap) input = Ok s2 /\
    mounted s2 v2 F /\
    (forall ino, ino ∈ F -> ino <> FREE_MAP_SECTOR -> same_file v v2 ino) /\
    (forall j, 0 <= j < bit_cnt (free_map s) -> bit (free_map s2) j = bit (free_map s) j).
Proof.
  intros Hmt Hn Hm Hb Hl Hle. pose proof (mt_disk _ _ _ Hmt) as Hok.
  destruct (filesys_done_spec s v F Hmt) as (s1 & v1 & E1 & Hrep1 & Hdv & Hok1 & Hfo1 & Hst1 & Hch1 & Hsame).
  set (dev := fs_device (fs_cache s1)) in *. exists s1.
  assert (Hsz : bit_cnt (free_map s) = block_size dev).
  { apply (range_unique (fun x => is_Some (v1 !! x))); [lia|unfold block_size; lia| |].
    - apply (vo_dom _ _ (dk_view _ _ _ Hok1)).
    - apply (cr_dom _ _ _ Hrep1). }
  rewrite Hsz in *. subst v1.
  destruct (filesys_init_mounts_spec dev mem buf l e0 input (true :: true :: heap)) with (heap' := heap)
    (fm := free_map s) (F := F) as (s2 & E2 & Hmt2 & Hbs & _); try done.
  - apply (cr_type _ _ _ Hrep1).
  - apply Forall_lookup. intros k d Hd. apply (cr_size _ _ _ Hrep1 (Z.of_nat k)).
    rewrite dev_view_lookup. unfold sector_of. rewrite leb_true, Nat2Z.id by lia. done.
  - apply Hmt.
  - exists s2, (dev_view dev). split_and!; try done. intros j Hj. apply (set_bit _ _ _ Hbs). by rewrite Hsz.
Qed.

Lemma filesys_remount_witness :
  exists s v s1 s2 v2, demo_init = Ok s /\ Filesys.filesys_done s = Ok (tt, s1) /\
    Filesys.filesys_init (Some (fs_device (fs_cache s1))) false (replicate 64 (Some []))
      (Some (replicate 65 0)) (Some tt) (Some [0]) [] [true; true] [] = Ok s2 /\
    mounted s2 v2 {[FREE_MAP_SECTOR; ROOT_DIR_SECTOR]} /\ same_file v v2 ROOT_DIR_SECTOR.
Proof.
  destruct demo_mounted as (s & v & E & Hmt & Hcnt & _).
  destruct (filesys_remount s v {[FREE_MAP_SECTOR; ROOT_DIR_SECTOR]} (replicate 64 (Some [])) (replicate 65 0)
    [0] [] [] []) as (s1 & s2 & v2 & H1 & H2 & H3 & H4 & _).
  - exact Hmt.
  - rewrite Hcnt. lia.
  - vm_compute. by eexists.
  - reflexivity.
  - rewrite Hcnt. reflexivity.
  - by repeat constructor.
  - exists s, v, s1, s2, v2. split; [exact E|]. split; [exact H1|]. split; [exact H2|].
    split; [exact H3|]. apply H4; [set_solver|done].
Defined.
