(* ===== verification/InodeProps.v ===== *)
(** What the operations of src/src/filesys/inode.c do to the files of a
    mounted file system. *)
From S2P Require Import Prelude Words CString Bitmap Monitor Pipe Block Cache CacheSpec CacheClient.
From S2P Require Import Fs Inode InodeTree InodeLookup InodeIO FsInv Release InodeOps Directory DirOps.
From S2P Require Import File Filesys Format FsProps.
From stdpp Require Import options.

#[local] Arguments Nat.div : simpl never.
#[local] Arguments Nat.modulo : simpl never.
#[local] Arguments Z.div : simpl never.
#[local] Arguments Z.modulo : simpl never.

Section mounted.
Context {C : Type} `{BufferCacheSpec C}.
Implicit Types (s : fs C) (v : gmap Z (list Z)) (F : gset Z).

Lemma wp_upd_eta {A} (m : ST (fs C) A) Q s : wp m Q (upd (fs_cache s) (free_map s) s) -> wp m Q s.
Proof using Type. by destruct s. Qed.

(** The disk of a mounted file system changes, its tables do not. *)
Lemma mounted_upd s v F c v' fm' F' :
  mounted s v F -> bc_rep c v' ∅ -> disk_ok ∅ v' fm' F' -> F ⊆ F' ->
  bit_cnt fm' = bit_cnt (free_map s) -> same_file v v' FREE_MAP_SECTOR ->
  mounted (upd c fm' s) v' F'.
Proof using Type.
  intros [Hrep Htb Hok HF Hfo Hfl Hmf Hlk] Hrep' Hok' HFF Hcnt Hs. split; try done.
  - eapply table_mono; [|done]. eapply table_same; [..|exact Htb]; done.
  - set_solver.
  - apply (fmap_ok_cnt _ (free_map s)); [apply (dk_view _ _ _ Hok)|apply (dk_view _ _ _ Hok')|done|].
    by apply (same_file_fmap_ok v).
  - by rewrite (same_file_child v).
Qed.

Lemma mounted_heap s v F l n : mounted s v F -> (fs_next s <= n)%nat -> mounted (set_heap l n s) v F.
Proof using Type.
  intros [Hrep Htb Hok HF Hfo Hfl Hmf Hlk] Hn. split; try done.
  eapply table_same; [..|exact Htb]; done.
Qed.

Lemma mounted_fmap_open s v F : mounted s v F -> fmap_open s.
Proof using Type.
  intros Hmt. destruct (mt_file _ _ _ Hmt) as (f & p & fl & i & Hm). unfold map_file in Hm.
  exists f, fl, p, i. naive_solver.
Qed.

Lemma mounted_sector s v F p i :
  mounted s v F -> inodes s !! p = Some i ->
  (i_sector i ∈ F) /\ tree_wf v (free_map s) (i_sector i) /\
  0 <= file_length v (i_sector i) <= 512 * Z.of_nat MAX_SECTORS.
Proof using Type.
  intros Hmt Hi. destruct (to_inode _ _ (mt_table _ _ _ Hmt) p i Hi) as [HF _].
  split; [done|]. split; [by apply (dk_tree _ _ _ (mt_disk _ _ _ Hmt))|by apply (dk_length _ _ _ (mt_disk _ _ _ Hmt))].
Qed.

(** Writing, as a change of the disk. *)
Lemma inode_write_mounted s v F p i buffer size offset :
  mounted s v F -> inodes s !! p = Some i -> i_deny_write_cnt i = 0 -> i_sector i <> FREE_MAP_SECTOR ->
  Forall (fun b => 0 <= b < 2 ^ 8) buffer -> 0 <= offset -> 0 <= size <= Z.of_nat (length buffer) ->
  offset + size <= 512 * Z.of_nat MAX_SECTORS ->
  (3 * missing v (i_sector i) (blocks offset size) <= nfree (free_map s))%nat ->
  exists s' v', inode_write_at p buffer size offset s = Ok (size, s') /\
    mounted s' v' F /\ s' = upd (fs_cache s') (free_map s') s /\
    wrote (i_sector i) v (free_map s) v' (free_map s') offset (take (Z.to_nat size) buffer)
      (Z.max (file_length v (i_sector i)) (offset + size)) /\
    (forall ino, ino ∈ F -> ino <> i_sector i -> same_file v v' ino).
Proof using Type.
  intros Hmt Hi Hdn Hne Hb Ho Hsz Hmax Hfree. destruct (mounted_sector s v F p i Hmt Hi) as (HF & Ht & Hlen).
  pose proof (mt_disk _ _ _ Hmt) as Hok.
  assert (Hwp : wp (inode_write_at p buffer size offset) (fun r s' => r = size /\ exists v',
    mounted s' v' F /\ s' = upd (fs_cache s') (free_map s') s /\
    wrote (i_sector i) v (free_map s) v' (free_map s') offset (take (Z.to_nat size) buffer)
      (Z.max (file_length v (i_sector i)) (offset + size)) /\
    (forall ino, ino ∈ F -> ino <> i_sector i -> same_file v v' ino)) s).
  2:{ apply wp_ok in Hwp as (r & s' & E & -> & v' & Hs). by exists s', v'. }
  apply wp_upd_eta.
  eapply (inode_write_at_spec s (i_sector i) ∅ p i Hi eq_refl _ _ v); try done.
  - apply (mt_cache _ _ _ Hmt).
  - apply (dk_view _ _ _ Hok).
  - apply pins_ok_empty.
  - intros c' fm' v' Hrep' Hwr _ _. split; [done|]. exists v'.
    assert (Hll : Z.of_nat (length (take (Z.to_nat size) buffer)) = size) by (rewrite length_take; lia).
    assert (Hwr' := Hwr). rewrite <- Hll in Hwr' at 2.
    assert (Hoth : forall ino, ino ∈ F -> ino <> i_sector i -> same_file v v' ino).
    { intros ino HiF Hn. by apply (wrote_other v (free_map s) F (i_sector i) Hok HF v' fm' offset _ Hwr'). }
    split; [|done]. apply (mounted_upd s v F); [done|done| |done|apply Hwr|].
    + apply (wrote_disk_ok v (free_map s) F _ Hok HF v' fm' offset (take (Z.to_nat size) buffer)); [lia|lia|done].
    + apply Hoth; [|done]. pose proof (mt_sys _ _ _ Hmt). set_solver.
Qed.

Lemma wrote_file_bytes ino v fm v' fm' offset l len :
  0 <= offset -> wrote ino v fm v' fm' offset l len ->
  file_bytes v' ino offset (Z.of_nat (length l)) = l.
Proof using Type.
  intros Ho Hwr. apply list_eq_same_length with (length l); [done| |].
  - pose proof (length_file_bytes v' ino offset (Z.of_nat (length l))). lia.
  - intros k x y Hk Hx Hy. rewrite lookup_file_bytes in Hx by lia. injection Hx as <-.
    by apply (wr_bytes _ _ _ _ _ _ _ _ Hwr).
Qed.

(** Reading. *)
Lemma inode_read_mounted s v F p i size offset :
  mounted s v F -> inodes s !! p = Some i -> 0 <= offset ->
  exists s', inode_read_at p size offset s =
      Ok (file_bytes v (i_sector i) offset (Z.min size (file_length v (i_sector i) - offset)), s') /\
    mounted s' v F /\ s' = upd (fs_cache s') (free_map s) s.
Proof using Type.
  intros Hmt Hi Ho. destruct (mounted_sector s v F p i Hmt Hi) as (HF & Ht & Hlen).
  assert (Hwp : wp (inode_read_at p size offset) (fun r s' =>
    r = file_bytes v (i_sector i) offset (Z.min size (file_length v (i_sector i) - offset)) /\
    mounted s' v F /\ s' = upd (fs_cache s') (free_map s) s) s).
  2:{ apply wp_ok in Hwp as (r & s' & E & -> & Hs). by exists s'. }
  apply wp_upd_eta.
  eapply (inode_read_at_spec s (i_sector i) ∅ p i Hi eq_refl (free_map s) (free_map s) v
    (dk_view _ _ _ (mt_disk _ _ _ Hmt)) Ht (pins_ok_empty _ _ _)); [apply Hmt|done|].
  intros c' Hrep'. split; [done|]. split; [|done].
  apply (mounted_upd s v F); [done|done|apply Hmt|done|done|]. by intros l Hl.
Qed.
End mounted.

(** * Reading and writing *)

(** C7: Reading an open inode returns the bytes of the file from the offset
    on, at most [size] and not past the end (nothing when the offset is at
    or past the end), and changes no file and no table. *)
Theorem inode_read_at_correct {C} `{BufferCacheSpec C} (s : fs C) (v : gmap Z (list Z)) (F : gset Z)
    (p : nat) (i : inode) (size offset : Z) :
  mounted s v F -> inodes s !! p = Some i -> 0 <= offset ->
  exists s', inode_read_at p size offset s =
      Ok (file_bytes v (i_sector i) offset (Z.min size (file_length v (i_sector i) - offset)), s') /\
    mounted s' v F /\ s' = set_cache (fs_cache s') s.
Proof.
  intros Hmt Hi Ho. destruct (inode_read_mounted s v F p i size offset Hmt Hi Ho) as (s' & E & Hmt' & Es).
  exists s'. split; [done|]. split; [done|]. rewrite Es at 1. by destruct s.
Qed.

Lemma inode_read_at_correct_witness :
  exists s v p s', demo_init = Ok s /\
    inode_read_at p 100 0 s =
      Ok (file_bytes v ROOT_DIR_SECTOR 0 (Z.min 100 (file_length v ROOT_DIR_SECTOR - 0)), s').
Proof.
  destruct demo_mounted as (s & v & E & Hmt & _ & _ & _ & (d & p & _ & Hp) & _).
  destruct (inode_read_at_correct s v {[FREE_MAP_SECTOR; ROOT_DIR_SECTOR]} p
    (mkInode ROOT_DIR_SECTOR 1 false 0 false) 100 0) as (s' & E' & _).
  - exact Hmt.
  - exact Hp.
  - lia.
  - exists s, v, p, s'. split; [exact E|exact E'].
Defined.

(** C5: A write through an open inode of a file other than the free map. If
    writes to the file are denied, it writes nothing and changes nothing.
    Otherwise, when the write ends within the largest file and three sectors
    are free for each block that the file does not have yet, it writes all of
    its bytes: the file then holds them at the offset and is extended to
    their end if that is past its own, its other bytes in sectors it had are
    unchanged, holes outside the written blocks stay holes, no other file
    changes, and the file system stays consistent. *)
Theorem inode_write_at_correct {C} `{BufferCacheSpec C} (s : fs C) (v : gmap Z (list Z)) (F : gset Z)
    (p : nat) (i : inode) (buffer : list Z) (size offset : Z) :
  mounted s v F -> inodes s !! p = Some i -> i_sector i <> FREE_MAP_SECTOR ->
  Forall (fun b => 0 <= b < 2 ^ 8) buffer -> 0 <= offset -> 0 <= size <= Z.of_nat (length buffer) ->
  (i_deny_write_cnt i <> 0 -> inode_write_at p buffer size offset s = Ok (0, s)) /\
  (i_deny_write_cnt i = 0 -> offset + size <= 512 * Z.of_nat MAX_SECTORS ->
   (3 * missing v (i_sector i) (blocks offset size) <= nfree (free_map s))%nat ->
   exists s' v', inode_write_at p buffer size offset s = Ok (size, s') /\ mounted s' v' F /\
    inodes s' = inodes s /\
    file_length v' (i_sector i) = Z.max (file_length v (i_sector i)) (offset + size) /\
    file_bytes v' (i_sector i) offset size = take (Z.to_nat size) buffer /\
    (forall k, 0 <= k < 512 * Z.of_nat MAX_SECTORS -> k < offset \/ offset + size <= k ->
       sec v (i_sector i) (LData (Z.to_nat (k / 512))) <> NONE ->
       file_byte v' (i_sector i) k = file_byte v (i_sector i) k) /\
    (forall m, (m < MAX_SECTORS)%nat -> sec v (i_sector i) (LData m) = NONE ->
       (forall k, offset <= k < offset + size -> Z.to_nat (k / 512) <> m) ->
       sec v' (i_sector i) (LData m) = NONE) /\
    (forall ino, ino ∈ F -> ino <> i_sector i -> same_file v v' ino)).
Proof.
  intros Hmt Hi Hne Hb Ho Hsz. split.
  { intros Hdn. unfold inode_write_at, inode_write_from, bind at 1. unfold get_inode, bind, gets, lift. rewrite Hi. cbn [access]. by rewrite eqb_false. }
  intros Hdn Hmax Hfree.
  destruct (inode_write_mounted s v F p i buffer size offset) as (s' & v' & E & Hmt' & Es & Hwr & Hoth); try done.
  assert (Hll : Z.of_nat (length (take (Z.to_nat size) buffer)) = size) by (rewrite length_take; lia).
  exists s', v'. split; [done|]. split; [done|]. split; [by rewrite Es|]. split; [apply Hwr|].
  split; [|split; [|split; [|done]]].
  - pose proof (wrote_file_bytes _ _ _ _ _ _ _ _ Ho Hwr) as Hfb. by rewrite Hll in Hfb.
  - intros k Hk Hout. rewrite <- Hll in Hout. by apply (wr_rest _ _ _ _ _ _ _ _ Hwr).
  - intros m Hm Hn Hout. rewrite <- Hll in Hout. by apply (wr_holes _ _ _ _ _ _ _ _ Hwr).
Qed.

Lemma inode_write_at_correct_witness :
  exists s p s', demo_init = Ok s /\ inode_write_at p [1; 2; 3] 3 100 s = Ok (3, s').
Proof.
  destruct demo_mounted as (s & v & E & Hmt & _ & _ & _ & (d & p & _ & Hp) & _ & Hfree & _).
  destruct (inode_write_at_correct s v {[FREE_MAP_SECTOR; ROOT_DIR_SECTOR]} p
    (mkInode ROOT_DIR_SECTOR 1 false 0 false) [1; 2; 3] 3 100) as [_ Hw].
  - exact Hmt.
  - exact Hp.
  - discriminate.
  - repeat constructor; lia.
  - lia.
  - cbn. lia.
  - destruct Hw as (s' & v' & E' & _).
    + reflexivity.
    + rewrite max_sectors. lia.
    + assert (missing v ROOT_DIR_SECTOR (blocks 100 3) <= 1)%nat by apply length_filter. cbn [i_sector]. lia.
    + exists s, p, s'. split; [exact E|exact E'].
Defined.

(** What is written is read back. *)
Theorem inode_write_read {C} `{BufferCacheSpec C} (s : fs C) (v : gmap Z (list Z)) (F : gset Z)
    (p : nat) (i : inode) (buffer : list Z) (offset : Z) :
  mounted s v F -> inodes s !! p = Some i -> i_deny_write_cnt i = 0 -> i_sector i <> FREE_MAP_SECTOR ->
  Forall (fun b => 0 <= b < 2 ^ 8) buffer -> 0 <= offset ->
  offset + Z.of_nat (length buffer) <= 512 * Z.of_nat MAX_SECTORS ->
  (3 * missing v (i_sector i) (blocks offset (Z.of_nat (length buffer))) <= nfree (free_map s))%nat ->
  exists s1 s2,
    inode_write_at p buffer (Z.of_nat (length buffer)) offset s = Ok (Z.of_nat (length buffer), s1) /\
    inode_read_at p (Z.of_nat (length buffer)) offset s1 = Ok (buffer, s2).
Proof.
  intros Hmt Hi Hdn Hne Hb Ho Hmax Hfree.
  destruct (inode_write_mounted s v F p i buffer (Z.of_nat (length buffer)) offset)
    as (s1 & v1 & E1 & Hmt1 & Es1 & Hwr & _); try done; [lia|].
  assert (Hi1 : inodes s1 !! p = Some i) by (by rewrite Es1).
  destruct (inode_read_mounted s1 v1 F p i (Z.of_nat (length buffer)) offset Hmt1 Hi1 Ho) as (s2 & E2 & _).
  exists s1, s2. split; [done|]. rewrite E2. do 2 f_equal.
  rewrite (wr_length _ _ _ _ _ _ _ _ Hwr), Z.min_l by lia.
  rewrite Nat2Z.id, take_ge in Hwr by lia. by apply wrote_file_bytes in Hwr.
Qed.

Lemma inode_write_read_witness :
  exists s p s1 s2, demo_init = Ok s /\ inode_write_at p [1; 2; 3] 3 510 s = Ok (3, s1) /\
    inode_read_at p 3 510 s1 = Ok ([1; 2; 3], s2).
Proof.
  destruct demo_mounted as (s & v & E & Hmt & _ & _ & _ & (d & p & _ & Hp) & _ & Hfree & _).
  destruct (inode_write_read s v {[FREE_MAP_SECTOR; ROOT_DIR_SECTOR]} p
    (mkInode ROOT_DIR_SECTOR 1 false 0 false) [1; 2; 3] 510) as (s1 & s2 & E1 & E2).
  - exact Hmt.
  - exact Hp.
  - reflexivity.
  - discriminate.
  - repeat constructor; lia.
  - lia.
  - rewrite max_sectors. change (Z.of_nat (length [1; 2; 3])) with 3. lia.
  - change (Z.of_nat (length [1; 2; 3])) with 3.
    assert (missing v ROOT_DIR_SECTOR (blocks 510 3) <= 2)%nat by apply length_filter. cbn [i_sector]. lia.
  - exists s, p, s1, s2. split; [exact E|]. split; [exact E1|exact E2].
Defined.

(** * Creating and deleting *)

Section create.
Context {C : Type} `{BufferCacheSpec C}.

(** The sector that a new file gets. *)
Lemma allocate_mounted (s : fs C) v F : mounted s v F -> (0 < nfree (free_map s))%nat ->
  exists x fm1, free_map_allocate 1 s = Ok (Some x, upd (fs_cache s) fm1 s) /\ allocated (free_map s) x fm1 /\ disk_ok {[x]} v fm1 F /\ x ∉ F.
Proof using Type.
  intros Hmt Hfree. pose proof (mt_disk _ _ _ Hmt) as Hok.
  assert (Hwp : wp (free_map_allocate 1) (fun r s1 => exists x fm1, r = Some x /\
    s1 = upd (fs_cache s) fm1 s /\ allocated (free_map s) x fm1) s).
  { apply wp_upd_eta, wp_allocate; [apply (dk_view _ _ _ Hok)|lia|]. eauto. }
  apply wp_ok in Hwp as (r & s1 & E1 & x & fm1 & -> & -> & Hal). exists x, fm1.
  pose proof (allocated_disk_ok _ _ _ _ _ _ Hok Hal) as Hok1. rewrite union_empty_r_L in Hok1.
  split_and!; try done. apply (fresh_not_file {[x]} v fm1 F x Hok1). set_solver.
Qed.

Lemma inode_create_mounted (s : fs C) v F len is_dir :
  mounted s v F -> 0 <= len <= 512 * Z.of_nat MAX_SECTORS -> (4 <= nfree (free_map s))%nat ->
  (0 < len -> head (fs_mem s) = Some true) ->
  exists x s1 s' v', free_map_allocate 1 s = Ok (Some x, s1) /\
    inode_create x len is_dir s1 = Ok (true, s') /\
    mounted s' v' ({[x]} ∪ F) /\ (x ∉ F) /\ inodes s' = inodes s /\ dirs s' = dirs s /\
    created v {[x]} F x len is_dir v' (free_map s') /\
    (len = 0 -> allocated (free_map s) x (free_map s') /\ fs_mem s' = fs_mem s).
Proof using Type.
  intros Hmt Hlen Hfree Hmem. destruct (allocate_mounted s v F Hmt ltac:(lia)) as (x & fm1 & E1 & Hal & Hok1 & HxF). exists x, (upd (fs_cache s) fm1 s).
  assert (Hwp2 : wp (inode_create x len is_dir) (fun b s' => b = true /\ exists v',
    mounted s' v' ({[x]} ∪ F) /\ inodes s' = inodes s /\ dirs s' = dirs s /\
    created v {[x]} F x len is_dir v' (free_map s') /\
    (len = 0 -> allocated (free_map s) x (free_map s') /\ fs_mem s' = fs_mem s)) (upd (fs_cache s) fm1 s)).
  2:{ apply wp_ok in Hwp2 as (b & s' & E2 & -> & v' & Hs & Hi & Hd & Hc). exists s', v'. tauto. }
  pose proof (nfree_allocated _ _ _ Hal) as Hnf.
  eapply (inode_create_spec s {[x]} F (fs_cache s) fm1 v); [apply Hmt|apply Hmt|done|set_solver|done|lia|done|].
  intros c' v' fm' l n Hrep' Hcr Hcnt _ Hl0 Hl1. split; [done|]. exists v'. split.
  2:{ do 3 (split; [done|]). intros E0. by destruct (Hl0 E0) as (-> & -> & _). }
  assert (Hn : (fs_next s <= n)%nat).
  { destruct (decide (len = 0)) as [->|]; [by destruct (Hl0 eq_refl) as (_ & _ & ->)|].
    destruct (Hl1 ltac:(lia)) as [_ ->]. lia. }
  change (upd c' fm' (set_heap l n s)) with (set_heap l n (upd c' fm' s)). apply mounted_heap; [|done].
  apply (mounted_upd s v F); [done|done| |set_solver| |].
  - pose proof (cr_disk _ _ _ _ _ _ _ _ Hcr) as Hd. by rewrite difference_diag_L in Hd.
  - rewrite Hcnt. apply Hal.
  - apply (cr_other _ _ _ _ _ _ _ _ Hcr). pose proof (mt_sys _ _ _ Hmt). set_solver.
Qed.

Lemma mounted_close (s : fs C) v F p i c v' fm' :
  mounted s v F -> inodes s !! p = Some i -> i_sector i <> FREE_MAP_SECTOR -> i_sector i <> ROOT_DIR_SECTOR ->
  bc_rep c v' ∅ -> all_released v (free_map s) (i_sector i) v' fm' ->
  mounted (upd c fm' (without_inode p s)) v' (F ∖ {[i_sector i]}).
Proof using Type.
  intros [Hrep Htb Hok HF Hfo Hfl (f & q & fl & j & Hmf) Hlk] Hi Hne0 Hne1 Hrep' Hall.
  destruct (to_inode _ _ Htb p i Hi) as [HiF _].
  destruct (released_disk_ok ∅ v (free_map s) F (i_sector i) v' fm') as [Hok' _]; try done.
  { set_solver. }
  destruct (all_released_fmap v (free_map s) (i_sector i) v' fm') as (Hfo' & _ & Hfl'); [done| |done|].
  { apply (tw_inode _ _ _ (dk_tree _ _ _ Hok _ HiF)). }
  destruct Hmf as (Hf & Hff & Hfi & Hfp & Hrc & Hdw & Hj & Hjs & Hrest).
  split; try done.
  - eapply table_same; [..|apply (table_delete s F (F ∖ {[i_sector i]}) p i)]; try done; set_solver.
  - set_solver.
  - congruence.
  - exists f, q, fl, j. split_and!; try done; try apply Hrest. cbn. rewrite lookup_delete_ne; [done|].
    intros ->. congruence.
Qed.

(** An inode object more. *)
Lemma mounted_with_inode (s : fs C) v F x l :
  mounted s v F -> x ∈ F -> (forall p i, inodes s !! p = Some i -> i_sector i <> x) ->
  mounted (with_inode x l s) v F.
Proof using Type.
  intros [Hrep Htb Hok HF Hfo Hfl (f & q & fl & j & Hmf) Hlk] Hx Hnew. split; try done.
  - by apply table_insert.
  - exists f, q, fl, j. destruct Hmf as (Hf & Hff & Hfi & Hfp & Hrc & Hdw & Hj & Hrest).
    split_and!; try done; try apply Hrest. cbn.
    pose proof (to_next _ _ Htb q ltac:(by exists j)). rewrite lookup_insert_ne; [done|lia].
Qed.

(** A change of an inode object that is not the free map's. *)
Lemma mounted_update (s : fs C) v F p i i' :
  mounted s v F -> inodes s !! p = Some i -> i_sector i <> FREE_MAP_SECTOR -> i_sector i' = i_sector i ->
  0 < i_open_cnt i' -> 0 <= i_deny_write_cnt i' <= i_open_cnt i' ->
  mounted (set_inodes (<[p := i']> (inodes s)) s) v F.
Proof using Type.
  intros [Hrep Htb Hok HF Hfo Hfl (f & q & fl & j & Hmf) Hlk] Hi Hne Hs Ho Hd. split; try done.
  - by eapply table_update.
  - exists f, q, fl, j. destruct Hmf as (Hf & Hff & Hfi & Hfp & Hrc & Hdw & Hj & Hjs & Hrest).
    split_and!; try done; try apply Hrest. cbn. rewrite lookup_insert_ne; [done|]. intros ->. congruence.
Qed.
End create.

(** C8: Creating a file, not larger than the largest file, on a disk with four
    free sectors: the sector given to it is one of no file. If the file is empty or there is
    memory for its inode, creation succeeds: the new file has the length and
    the kind asked for and no data sectors but the one its last byte is in,
    no other file changes, and the file system stays consistent. If the file
    is not empty and there is no memory, [inode_create] does not return false
    but fails the assertion of [inode_remove]. *)
Theorem inode_create_correct {C} `{BufferCacheSpec C} (s : fs C) (v : gmap Z (list Z)) (F : gset Z)
    (len is_dir : Z) :
  mounted s v F -> 0 <= len <= 512 * Z.of_nat MAX_SECTORS -> (4 <= nfree (free_map s))%nat ->
  exists x s1, free_map_allocate 1 s = Ok (Some x, s1) /\ (x ∉ F) /\
    ((0 < len -> head (fs_mem s) = Some true) ->
     exists s' v', inode_create x len is_dir s1 = Ok (true, s') /\
       mounted s' v' ({[x]} ∪ F) /\ inodes s' = inodes s /\
       file_length v' x = len /\ child v' x 1 = u32 is_dir /\
       (forall m, (m < MAX_SECTORS)%nat ->
          sec v' x (LData m) <> NONE <-> 0 < len /\ m = Z.to_nat ((len - 1) / 512)) /\
       (0 < len -> file_byte v' x (len - 1) = 0) /\
       (forall ino, ino ∈ F -> same_file v v' ino)) /\
    (0 < len -> head (fs_mem s) <> Some true -> inode_create x len is_dir s1 = Err Panic).
Proof.
  intros Hmt Hlen Hfree. destruct (decide (0 < len /\ head (fs_mem s) <> Some true)) as [[Hpos Hno]|Hyes].
  - pose proof (mt_disk _ _ _ Hmt) as Hok. destruct (allocate_mounted s v F Hmt ltac:(lia)) as (x & fm1 & E1 & Hal & Hok1 & HxF).
    exists x, (upd (fs_cache s) fm1 s). split_and!; [done|done|tauto|]. intros _ _.
    apply (inode_create_no_memory s {[x]} F (fs_cache s) fm1 v); [apply Hmt|apply Hmt|done|set_solver|lia|done].
  - assert (Hmem : 0 < len -> head (fs_mem s) = Some true) by (intros Hp; destruct (decide (head (fs_mem s) = Some true)); [done|tauto]).
    destruct (inode_create_mounted s v F len is_dir Hmt Hlen Hfree Hmem)
      as (x & s1 & s' & v' & E1 & E2 & Hmt' & Hx & Hin & _ & [_ H1 H2 H3 H4 H5] & _).
    exists x, s1. split; [done|]. split; [done|]. split; [|tauto]. intros _. exists s', v'. by split_and!.
Qed.

Lemma inode_create_correct_witness :
  exists s x s1 s', demo_init = Ok s /\ free_map_allocate 1 s = Ok (Some x, s1) /\
    inode_create x 1000 0 s1 = Ok (true, s').
Proof.
  destruct demo_mounted as (s & v & E & Hmt & _ & _ & _ & _ & _ & Hfree & Hheap).
  destruct (inode_create_correct s v {[FREE_MAP_SECTOR; ROOT_DIR_SECTOR]} 1000 0) as (x & s1 & E1 & _ & Hok & _).
  - exact Hmt.
  - rewrite max_sectors. lia.
  - lia.
  - destruct Hok as (s' & v' & E2 & _); [rewrite Hheap; reflexivity|].
    exists s, x, s1, s'. split; [exact E|]. split; [exact E1|exact E2].
Defined.

(** C6: Closing the last opener of a removed file gives back exactly the
    sectors of its tree, its inode included, and stores the new free map;
    no other file changes and the file system stays consistent. *)
Theorem inode_close_frees {C} `{BufferCacheSpec C} (s : fs C) (v : gmap Z (list Z)) (F : gset Z)
    (p : nat) (i : inode) :
  mounted s v F -> inodes s !! p = Some i -> i_open_cnt i = 1 -> i_removed i = true ->
  i_sector i <> FREE_MAP_SECTOR -> i_sector i <> ROOT_DIR_SECTOR ->
  exists s' v', inode_close (Some p) s = Ok (tt, s') /\
    mounted s' v' (F ∖ {[i_sector i]}) /\ inodes s' !! p = None /\
    (forall x, 0 <= x < bit_cnt (free_map s) -> bit (free_map s') x = true <->
       (bit (free_map s) x = true /\ forall l, loc_ok l -> sec v (i_sector i) l <> x)) /\
    fmap_stored v' (free_map s') /\
    (forall ino, ino ∈ F -> ino <> i_sector i -> ino <> FREE_MAP_SECTOR -> same_file v v' ino).
Proof.
  intros Hmt Hi Hc Hr Hne0 Hne1. pose proof (mt_disk _ _ _ Hmt) as Hok. pose proof (mt_sys _ _ _ Hmt) as Hsys.
  destruct (to_inode _ _ (mt_table _ _ _ Hmt) p i Hi) as [HiF _].
  assert (Hwp : wp (inode_close (Some p)) (fun _ s' => exists c' v' fm', s' = upd c' fm' (without_inode p s) /\
    bc_rep c' v' ∅ /\ all_released v (free_map s) (i_sector i) v' fm') s).
  { apply wp_upd_eta. eapply (inode_close_removed s ∅ F _ _ v); [apply Hmt|apply Hmt|done|set_solver|
      by eapply mounted_fmap_open|apply Hmt|done..|].
    intros c' v' fm' Hrep' Hall. by exists c', v', fm'. }
  apply wp_ok in Hwp as ([] & s' & E & c' & v' & fm' & -> & Hrep' & Hall).
  exists (upd c' fm' (without_inode p s)), v'. split; [done|].
  split; [by eapply mounted_close|]. split; [apply lookup_delete_eq|].
  destruct (released_disk_ok ∅ v (free_map s) F (i_sector i) v' fm') as [_ Hoth]; try done.
  { set_solver. }
  destruct (all_released_fmap v (free_map s) (i_sector i) v' fm') as (_ & Hst & _); [apply Hmt| |done|].
  { apply (tw_inode _ _ _ (dk_tree _ _ _ Hok _ HiF)). }
  split; [|by split]. destruct Hall as (ls & Hrl & Hls & _ & Hcov). intros x Hx. cbn.
  rewrite (rl_bit _ _ _ _ _ _ Hrl) by done. split; intros [Hb Hl]; (split; [done|]); intros l Hl'.
  - intros E'. apply (Hl l); [|done]. apply Hcov; [done|]. rewrite E'.
    pose proof (wf_cnt _ (vo_wf _ _ (dk_view _ _ _ Hok))). unfold NONE. lia.
  - by apply Hl, Hls.
Qed.

(** A file of the demonstration disk, created, opened and removed. *)
Lemma demo_removed :
  exists (s : fs cache) v x p, mounted s v ({[x]} ∪ {[FREE_MAP_SECTOR; ROOT_DIR_SECTOR]}) /\
    inodes s !! p = Some (mkInode x 1 true 0 false) /\ x <> FREE_MAP_SECTOR /\ x <> ROOT_DIR_SECTOR.
Proof.
  destruct demo_mounted as (s & v & _ & Hmt & _ & _ & _ & _ & _ & Hfree & _).
  destruct (inode_create_mounted s v {[FREE_MAP_SECTOR; ROOT_DIR_SECTOR]} 0 0 Hmt)
    as (x & s1 & s2 & v2 & _ & _ & Hmt2 & Hx & Hin & _); [rewrite max_sectors; lia|lia|lia|].
  assert (Hx' : x <> FREE_MAP_SECTOR /\ x <> ROOT_DIR_SECTOR) by (clear - Hx; set_solver).
  assert (Hin2 : forall p i, inodes s2 !! p = Some i -> i_sector i <> x).
  { rewrite Hin. intros p i Hp Ex. destruct (to_inode _ _ (mt_table _ _ _ Hmt) p i Hp) as [HF _]. congruence. }
  assert (HxF : x ∈ {[x]} ∪ ({[FREE_MAP_SECTOR; ROOT_DIR_SECTOR]} : gset Z)) by (clear; set_solver).
  pose proof (mounted_with_inode s2 v2 _ x [] Hmt2 HxF Hin2) as Hmt3.
  pose proof (mounted_update _ v2 _ (fs_next s2) _ (mkInode x 1 true 0 false) Hmt3
    (lookup_insert_eq _ _ _) (proj1 Hx') eq_refl ltac:(cbn; lia) ltac:(cbn; lia)) as Hmt4.
  eexists _, v2, x, (fs_next s2). split; [exact Hmt4|]. split; [apply lookup_insert_eq|exact Hx'].
Qed.

Lemma inode_close_frees_witness :
  exists (s s' : fs cache) x p, inodes s !! p = Some (mkInode x 1 true 0 false) /\
    inode_close (Some p) s = Ok (tt, s') /\ inodes s' !! p = None.
Proof.
  destruct demo_removed as (s & v & x & p & Hmt & Hp & Hx0 & Hx1).
  destruct (inode_close_frees s v ({[x]} ∪ {[FREE_MAP_SECTOR; ROOT_DIR_SECTOR]}) p (mkInode x 1 true 0 false))
    as (s' & v' & E & _ & Hp' & _).
  - exact Hmt.
  - exact Hp.
  - reflexivity.
  - reflexivity.
  - exact Hx0.
  - exact Hx1.
  - exists s, s', x, p. split; [exact Hp|]. split; [exact E|exact Hp'].
Defined.
