(* ===== verification/DirProps.v ===== *)
(** What the operations of src/src/filesys/directory.c do on a mounted file
    system: a directory is a finite map from names to inode sectors. *)
From S2P Require Import Prelude Words CString Bitmap Monitor Pipe Block Cache CacheSpec CacheClient.
From S2P Require Import Fs Inode InodeTree InodeLookup InodeIO FsInv Release InodeOps Directory DirOps.
From S2P Require Import File Filesys Format FsProps InodeProps.
From stdpp Require Import options.

(** An open directory: its object and its inode, not locked. *)
Record dir_open_at {C} (s : fs C) (dir p : nat) (d : Fs.dir) (i : inode) : Prop := {
  da_dir : dirs s !! dir = Some d;
  da_inode : d_inode d = p;
  da_object : inodes s !! p = Some i;
  da_lock : i_dir_lock i = false;
  da_deny : i_deny_write_cnt i = 0;
  da_sector : i_sector i <> FREE_MAP_SECTOR;
}.

Section add.
Context {C : Type} `{BufferCacheSpec C}.
Implicit Types (s : fs C) (v : gmap Z (list Z)) (F : gset Z).

Lemma dir_add_mounted s v F dir p d i name sector e0 :
  mounted s v F -> dir_open_at s dir p d i -> dir_ok v (i_sector i) ->
  name_ok name -> (0 < length name <= 14)%nat -> 0 <= sector < 2 ^ 32 ->
  length e0 = 20%nat -> Forall (fun b => 0 <= b < 2 ^ 8) e0 ->
  (dir_map v (i_sector i) !! name = None -> (6 <= nfree (free_map s))%nat /\ file_length v (i_sector i) + 20 <= 512 * Z.of_nat MAX_SECTORS) ->
  exists s' v', dir_add (Some dir) name sector e0 s =
      Ok (bool_decide (dir_map v (i_sector i) !! name = None), s') /\
    mounted s' v' F /\ s' = upd (fs_cache s') (free_map s') s /\ dir_ok v' (i_sector i) /\
    dir_map v' (i_sector i) =
      (if bool_decide (dir_map v (i_sector i) !! name = None)
       then <[name := sector]> (dir_map v (i_sector i)) else dir_map v (i_sector i)) /\
    (forall ino, ino ∈ F -> ino <> i_sector i -> same_file v v' ino).
Proof using Type.
  intros Hmt [Hdir Hdi Hi Hlk Hdn Hne] Hd Hnm Hnl Hs He0 Hb0 Hspace.
  pose proof (mt_disk _ _ _ Hmt) as Hok. destruct (mounted_sector s v F p i Hmt Hi) as (HF & _ & _).
  assert (Hwp : wp (dir_add (Some dir) name sector e0) (fun r s' =>
    r = bool_decide (dir_map v (i_sector i) !! name = None) /\ exists v',
    mounted s' v' F /\ s' = upd (fs_cache s') (free_map s') s /\ dir_ok v' (i_sector i) /\
    dir_map v' (i_sector i) =
      (if bool_decide (dir_map v (i_sector i) !! name = None)
       then <[name := sector]> (dir_map v (i_sector i)) else dir_map v (i_sector i)) /\
    (forall ino, ino ∈ F -> ino <> i_sector i -> same_file v v' ino)) s).
  2:{ apply wp_ok in Hwp as (r & s' & E & -> & v' & Hs'). by exists s', v'. }
  apply wp_upd_eta.
  eapply (dir_add_spec s dir d p i (i_sector i) Hdir Hdi Hi eq_refl Hlk v (free_map s) F Hok HF Hd);
    try done; [apply Hmt| |].
  - intros c' Hrep' [x Hx]. rewrite bool_decide_eq_false_2 by congruence. split; [done|]. exists v.
    split_and!; try done. by apply (mounted_upd s v F).
  - intros c' v' fm' Hrep' Hnone Had. rewrite bool_decide_eq_true_2 by done. split; [done|]. exists v'.
    split_and!; try done; try apply Had.
    apply (mounted_upd s v F); [done|done|apply Had|done|apply Had|].
    apply (ad_others _ _ _ _ _ _ _ _ Had); [|done]. pose proof (mt_sys _ _ _ Hmt). set_solver.
Qed.

Lemma mounted_removed s v F ino name x c v' fm' l :
  mounted s v F -> bc_rep c v' ∅ -> removed_file ino (R:=∅) v (free_map s) F name x v' fm' ->
  x <> FREE_MAP_SECTOR -> x <> ROOT_DIR_SECTOR ->
  (forall q iq, inodes s !! q = Some iq -> i_sector iq <> x) ->
  mounted (upd c fm' (set_heap l (S (fs_next s)) s)) v' (F ∖ {[x]}).
Proof using Type.
  intros [Hrep Htb Hok HF Hfo Hfl Hmf Hlk] Hrep' [Hok' _ _ _ (Hfo' & _ & Hfl') _] Hx0 Hx1 Hno.
  split; try done.
  - destruct Htb as [H1 H2 H3 H4 H5]. split; [done|done| |done|].
    + intros q iq Hq. destruct (H3 q iq Hq) as [HqF ?]. split; [|done].
      apply elem_of_difference. split; [done|]. rewrite elem_of_singleton. by apply (Hno q).
    + intros q Hq%H5. cbn. lia.
  - set_solver.
  - cbn. congruence.
Qed.

Lemma dir_open_upd s c fm dir p d i : dir_open_at s dir p d i -> dir_open_at (upd c fm s) dir p d i.
Proof using Type. by intros []. Qed.
End add.

(** C9: [dir_add] is insertion of a new name. An invalid name, empty or longer
    than 14 characters, is refused and nothing changes but the error number.
    A valid name that the directory has is refused, and the directory stays.
    A valid name that it does not have is added, when six sectors are free
    and the directory has room for an entry: the directory is then the old
    map with the name bound to the sector. No other file changes. *)
Theorem dir_add_correct {C} `{BufferCacheSpec C} (s : fs C) (v : gmap Z (list Z)) (F : gset Z)
    (dir p : nat) (d : Fs.dir) (i : inode) (name : list Z) (sector : Z) (e0 : list Z) :
  mounted s v F -> dir_open_at s dir p d i -> dir_ok v (i_sector i) ->
  name_ok name -> 0 <= sector < 2 ^ 32 ->
  length e0 = 20%nat -> Forall (fun b => 0 <= b < 2 ^ 8) e0 ->
  (~ (0 < length name <= 14)%nat -> dir_add (Some dir) name sector e0 s = Ok (false, set_errno ENAME s)) /\
  ((0 < length name <= 14)%nat ->
   (dir_map v (i_sector i) !! name = None ->
      (6 <= nfree (free_map s))%nat /\ file_length v (i_sector i) + 20 <= 512 * Z.of_nat MAX_SECTORS) ->
   exists s' v', dir_add (Some dir) name sector e0 s =
      Ok (bool_decide (dir_map v (i_sector i) !! name = None), s') /\
    mounted s' v' F /\ dir_open_at s' dir p d i /\ dir_ok v' (i_sector i) /\
    dir_map v' (i_sector i) =
      (if bool_decide (dir_map v (i_sector i) !! name = None)
       then <[name := sector]> (dir_map v (i_sector i)) else dir_map v (i_sector i)) /\
    (forall ino, ino ∈ F -> ino <> i_sector i -> same_file v v' ino)).
Proof.
  intros Hmt Hda Hd Hnm Hs He0 Hb0. split.
  - intros Hbad. unfold dir_add, bind at 1. cbn [ASSERT lift assert bool_decide]. unfold bind at 1. cbn.
    replace (bool_decide (name = []) || (NAME_MAX <? Z.of_nat (length name))) with true; [done|]. symmetry. apply orb_true_iff.
    destruct name as [|b name]; [left; by apply bool_decide_eq_true|right]. apply ltb_true. unfold NAME_MAX. cbn in *. lia.
  - intros Hnl Hspace. destruct (dir_add_mounted s v F dir p d i name sector e0) as (s' & v' & E & Hmt' & Es & Hrest); try done.
    exists s', v'. split; [done|]. split; [done|]. split; [|done]. rewrite Es. by apply dir_open_upd.
Qed.

Lemma demo_dir :
  exists (s : fs cache) v dir p d i, demo_init = Ok s /\
    mounted s v {[FREE_MAP_SECTOR; ROOT_DIR_SECTOR]} /\ dir_open_at s dir p d i /\
    i_sector i = ROOT_DIR_SECTOR /\ dir_ok v ROOT_DIR_SECTOR /\
    dir_map v ROOT_DIR_SECTOR = {[ dot := ROOT_DIR_SECTOR; dotdot := ROOT_DIR_SECTOR ]} /\
    file_length v ROOT_DIR_SECTOR <= 40 /\ (12 <= nfree (free_map s))%nat /\ fs_mem s = demo_heap.
Proof.
  destruct demo_mounted as (s & v & E & Hmt & Hcnt & Hd & Hm & (dir & p & Hdir & Hp) & Hlen & Hfree & Hheap).
  exists s, v, dir, p, (mkDir p 0), (mkInode ROOT_DIR_SECTOR 1 false 0 false).
  split; [exact E|]. split; [exact Hmt|]. split; [by split|]. by split_and!.
Qed.

Lemma dir_add_correct_witness :
  exists s dir s', demo_init = Ok s /\ dir_add (Some dir) [97; 98] 9 (replicate 20 0) s = Ok (true, s').
Proof.
  destruct demo_dir as (s & v & dir & p & d & i & E & Hmt & Hda & Hsec & Hd & Hm & Hlen & Hfree & _).
  destruct (dir_add_correct s v {[FREE_MAP_SECTOR; ROOT_DIR_SECTOR]} dir p d i [97; 98] 9 (replicate 20 0))
    as [_ Hadd]; rewrite ?Hsec in *.
  - exact Hmt.
  - exact Hda.
  - exact Hd.
  - repeat constructor; lia.
  - lia.
  - reflexivity.
  - apply Forall_replicate. lia.
  - rewrite Hm in Hadd. destruct Hadd as (s' & v' & E' & _).
    + cbn. lia.
    + intros _. rewrite max_sectors. split; lia.
    + exists s, dir, s'. split; [exact E|exact E'].
Defined.

(** [dir_lookup] is lookup in the map: it returns an opened inode of the
    sector the name is bound to, and nothing when the name is not bound; no
    file changes. *)
Theorem dir_lookup_correct {C} `{BufferCacheSpec C} (s : fs C) (v : gmap Z (list Z)) (F : gset Z)
    (dir p : nat) (d : Fs.dir) (i : inode) (name : list Z) :
  mounted s v F -> dir_open_at s dir p d i -> dir_ok v (i_sector i) -> name_ok name ->
  (forall x, dir_map v (i_sector i) !! name = Some x -> x ∈ F /\ x <> FREE_MAP_SECTOR) ->
  head (fs_mem s) = Some true ->
  exists r s', dir_lookup (Some dir) name s = Ok (r, s') /\ mounted s' v F /\
    match dir_map v (i_sector i) !! name with
    | None => r = None /\ inodes s' = inodes s
    | Some x => exists q iq, r = Some q /\ inodes s' !! q = Some iq /\ i_sector iq = x
    end.
Proof.
  intros Hmt [Hdir Hdi Hi Hlk Hdn Hne] Hd Hnm HxF Hmem.
  pose proof (mt_disk _ _ _ Hmt) as Hok. destruct (mounted_sector s v F p i Hmt Hi) as (HF & _ & _).
  assert (Hup : forall c', bc_rep c' v ∅ -> mounted (upd c' (free_map s) s) v F).
  { intros c' Hrep'. by apply (mounted_upd s v F). }
  apply (wp_ok (dir_lookup (Some dir) name) (fun r s' => mounted s' v F /\ match dir_map v (i_sector i) !! name with
    | None => r = None /\ inodes s' = inodes s
    | Some x => exists q iq, r = Some q /\ inodes s' !! q = Some iq /\ i_sector iq = x
    end)). apply wp_upd_eta.
  eapply (dir_lookup_spec s dir d p i (i_sector i) Hdir Hdi Hi eq_refl Hlk v (free_map s) F Hok HF Hd);
    try done; [apply Hmt|apply Hmt|intros x Hx; by apply HxF| | |].
  - intros c' Hrep' Hnone. rewrite Hnone. split; [by apply Hup|done].
  - intros c' x q iq Hrep' Hx Hq Hsq. rewrite Hx. destruct (HxF x Hx) as [_ Hx0].
    destruct (to_inode _ _ (mt_table _ _ _ Hmt) q iq Hq) as (_ & Ho & Hdy). split.
    + eapply (mounted_update (upd c' (free_map s) s) v F q iq); [by apply Hup|done|congruence|done|cbn; lia..].
    + exists q, (reopened iq). split; [done|]. split; [apply lookup_insert_eq|done].
  - intros c' x Hrep' Hx Hnew. rewrite Hx. destruct (HxF x Hx) as [HxF' Hx0]. split.
    2:{ intros l Hl. by rewrite Hmem in Hl. }
    intros l Hl. split; [by apply (mounted_with_inode (upd c' (free_map s) s)); [apply Hup|..]|].
    eexists _, _. split; [done|]. split; [apply lookup_insert_eq|done].
Qed.

Lemma dir_lookup_correct_witness :
  exists s dir r s' q iq, demo_init = Ok s /\ dir_lookup (Some dir) dotdot s = Ok (r, s') /\
    r = Some q /\ inodes s' !! q = Some iq /\ i_sector iq = ROOT_DIR_SECTOR.
Proof.
  destruct demo_dir as (s & v & dir & p & d & i & E & Hmt & Hda & Hsec & Hd & Hm & Hlen & Hfree & Hheap).
  destruct (dir_lookup_correct s v {[FREE_MAP_SECTOR; ROOT_DIR_SECTOR]} dir p d i dotdot)
    as (r & s' & E' & _ & Hr); rewrite ?Hsec.
  - exact Hmt.
  - exact Hda.
  - exact Hd.
  - repeat constructor; lia.
  - rewrite Hm. intros x Hx. vm_compute in Hx. injection Hx as <-. split; [|done].
    apply elem_of_union_r, elem_of_singleton. reflexivity.
  - rewrite Hheap. reflexivity.
  - rewrite Hsec, Hm in Hr. change (({[dot := ROOT_DIR_SECTOR; dotdot := ROOT_DIR_SECTOR]} : gmap (list Z) Z) !! dotdot)
      with (Some ROOT_DIR_SECTOR) in Hr. destruct Hr as (q & iq & Hq & Hiq & Hs).
    exists s, dir, r, s', q, iq. do 3 (split; [assumption|]). split; assumption.
Defined.

(** What [dir_remove] has done, with memory for an inode or without. *)
Definition remove_ends {C} `{BufferCacheSpec C} (memory : bool) v F ino name (r : bool) (s' : fs C) v' : Prop :=
  let unchanged := r = false /\ v' = v /\ mounted s' v F in
  match dir_map v ino !! name with
  | None => unchanged
  | Some x =>
      if negb memory || (s32 (child v x 1) =? 1) && has_child v x then unchanged
      else r = true /\ mounted s' v' (F ∖ {[x]}) /\
        dir_map v' ino = delete name (dir_map v ino) /\
        forall ino', ino' ∈ F -> ino' <> ino -> ino' <> x -> ino' <> FREE_MAP_SECTOR -> same_file v v' ino'
  end.

(** C10: [dir_remove] of a name whose file nobody has open is deletion from
    the map: it fails and changes nothing when the name is not bound, when it
    is bound to a directory that has entries of its own, and when there is
    no memory for an inode; otherwise the name is gone, every sector of the
    file is free again and no other file changes. *)
Theorem dir_remove_correct {C} `{BufferCacheSpec C} (s : fs C) (v : gmap Z (list Z)) (F : gset Z)
    (dir p : nat) (d : Fs.dir) (i : inode) (name : list Z) :
  mounted s v F -> dir_open_at s dir p d i -> dir_ok v (i_sector i) -> name_ok name ->
  (forall x, dir_map v (i_sector i) !! name = Some x ->
     x ∈ F /\ x <> i_sector i /\ x <> FREE_MAP_SECTOR /\ x <> ROOT_DIR_SECTOR /\
     (s32 (child v x 1) = 1 -> dir_ok v x) /\
     forall q iq, inodes s !! q = Some iq -> i_sector iq <> x) ->
  exists r s' v', dir_remove (Some dir) name s = Ok (r, s') /\ dir_ok v' (i_sector i) /\
    remove_ends (bool_decide (head (fs_mem s) = Some true)) v F (i_sector i) name r s' v'.
Proof.
  intros Hmt [Hdir Hdi Hi Hlk Hdn Hne] Hd Hnm Hx.
  pose proof (mt_disk _ _ _ Hmt) as Hok. destruct (mounted_sector s v F p i Hmt Hi) as (HF & _ & _).
  pose proof (mt_sys _ _ _ Hmt) as Hsys.
  assert (Hup : forall c', bc_rep c' v ∅ -> mounted (upd c' (free_map s) s) v F).
  { intros c' Hrep'. by apply (mounted_upd s v F). }
  cut (wp (dir_remove (Some dir) name) (fun r s' => exists v', dir_ok v' (i_sector i) /\
    remove_ends (bool_decide (head (fs_mem s) = Some true)) v F (i_sector i) name r s' v') s).
  { intros Hwp. apply wp_ok in Hwp as (r & s' & E & v' & H1 & H2). by exists r, s', v'. }
  apply wp_upd_eta. unfold remove_ends. case_bool_decide as Hmem; cbn [negb orb].
  2:{ eapply wp_mono; [apply (dir_remove_no_memory s dir d p i (i_sector i) Hdir Hdi Hi eq_refl Hlk v (free_map s) F Hok HF Hd); try done; try apply Hmt|].
      - intros x Hxn. destruct (Hx x Hxn) as (H1 & H2 & _ & _ & _ & H4). tauto.
      - intros r s' (-> & c' & l & Hrep' & ->). exists v. split; [done|]. assert (mounted (upd c' (free_map s) (set_heap l (fs_next s) s)) v F).
        { apply (mounted_heap (upd c' (free_map s) s)); [by apply Hup|done]. }
        by destruct (dir_map v (i_sector i) !! name). }
  destruct (fs_mem s) as [|bm l] eqn:El; [done|]. injection Hmem as ->.
  eapply (dir_remove_spec s dir d p i (i_sector i) Hdir Hdi Hi eq_refl Hlk v (free_map s) F Hok HF Hd);
    [apply Hmt|apply Hmt|done|done|set_solver|done|by eapply mounted_fmap_open|apply Hmt|exact El| | | |].
  - intros x Hxn. destruct (Hx x Hxn) as (H1 & H2 & H3 & _ & H4). tauto.
  - intros c' Hrep' Hnone. exists v. rewrite Hnone. split_and!; try done. by apply Hup.
  - intros c' x Hrep' Hxn Hdx Hch. exists v. rewrite Hxn, Hdx, Hch. cbn.
    split_and!; try done. apply (mounted_heap (upd c' (free_map s) s)); [by apply Hup|cbn; lia].
  - intros c' v' fm' x Hrep' Hxn Hno Hrf. exists v'. split; [apply Hrf|]. rewrite Hxn.
    destruct (Hx x Hxn) as (HxF & Hxi & Hx0 & Hx1 & _ & Hxo).
    replace ((s32 (child v x 1) =? 1) && has_child v x) with false.
    2:{ symmetry. apply andb_false_iff. rewrite Z.eqb_neq.
        destruct (decide (s32 (child v x 1) = 1)); [right|by left]. destruct (has_child v x); [|done].
        by destruct Hno. }
    split; [done|]. split; [|split; [apply Hrf|apply Hrf]].
    by eapply mounted_removed.
Qed.

(** The demonstration disk with an empty file "ab" in its root directory. *)
Lemma demo_file :
  exists (s : fs cache) v F dir p d i x, mounted s v F /\ dir_open_at s dir p d i /\
    i_sector i = ROOT_DIR_SECTOR /\ dir_ok v ROOT_DIR_SECTOR /\
    dir_map v ROOT_DIR_SECTOR !! [97; 98] = Some x /\ s32 (child v x 1) = 0 /\
    (x ∈ F) /\ x <> FREE_MAP_SECTOR /\ x <> ROOT_DIR_SECTOR /\
    (forall q iq, inodes s !! q = Some iq -> i_sector iq <> x) /\ fs_mem s = demo_heap.
Proof.
  destruct demo_dir as (s & v & dir & p & d & i & _ & Hmt & Hda & Hsec & Hd & Hm & Hlen & Hfree & Hheap).
  destruct (inode_create_mounted s v {[FREE_MAP_SECTOR; ROOT_DIR_SECTOR]} 0 0 Hmt)
    as (x & s1 & s2 & v2 & _ & _ & Hmt2 & Hx & Hin & Hdirs & Hcr & Hal); [rewrite max_sectors; lia|lia|lia|].
  destruct (Hal eq_refl) as [Ha Hmem]. pose proof (nfree_allocated _ _ _ Ha) as Hnf.
  assert (Hx' : x <> FREE_MAP_SECTOR /\ x <> ROOT_DIR_SECTOR) by (clear - Hx; set_solver).
  assert (HrF : ROOT_DIR_SECTOR ∈ ({[FREE_MAP_SECTOR; ROOT_DIR_SECTOR]} : gset Z)) by (clear; set_solver).
  pose proof (cr_other _ _ _ _ _ _ _ _ Hcr _ HrF) as Hsame.
  assert (Hm2 : dir_map v2 ROOT_DIR_SECTOR = {[ dot := ROOT_DIR_SECTOR; dotdot := ROOT_DIR_SECTOR ]}).
  { unfold dir_map. rewrite (same_file_entries v v2 _ Hsame). exact Hm. }
  assert (Hda2 : dir_open_at s2 dir p d i).
  { destruct Hda. split; rewrite ?Hin, ?Hdirs; done. }
  destruct (dir_add_mounted s2 v2 ({[x]} ∪ {[FREE_MAP_SECTOR; ROOT_DIR_SECTOR]}) dir p d i [97; 98] x
    (replicate 20 0)) as (s3 & v3 & _ & Hmt3 & Es3 & Hd3 & Hm3 & Hs3); rewrite ?Hsec in *; try done.
  { exact (same_file_dir_ok _ v _ _ v2 _ (mt_disk _ _ _ Hmt) HrF Hsame Hd). }
  { repeat constructor; lia. }
  { cbn. lia. }
  { pose proof (al_range _ _ _ Ha). pose proof (wf_cnt _ (vo_wf _ _ (dk_view _ _ _ (mt_disk _ _ _ Hmt)))). lia. }
  { apply Forall_replicate. lia. }
  { intros _. rewrite (same_file_length v v2 _ Hsame), max_sectors. split; lia. }
  exists s3, v3, ({[x]} ∪ {[FREE_MAP_SECTOR; ROOT_DIR_SECTOR]}), dir, p, d, i, x.
  split; [done|]. split; [rewrite Es3; by apply dir_open_upd|]. do 2 (split; [done|]).
  rewrite Hm3, Hm2. split; [apply lookup_insert_eq|]. split; [|split; [|split; [apply Hx'|split; [apply Hx'|split]]]].
  - rewrite (same_file_child v2 v3); [by rewrite (cr_is_dir _ _ _ _ _ _ _ _ Hcr)|].
    apply Hs3; [|apply Hx']. clear; set_solver.
  - clear; set_solver.
  - rewrite Es3. cbn. rewrite Hin. intros q iq Hq Ex.
    destruct (to_inode _ _ (mt_table _ _ _ Hmt) q iq Hq) as [HF _]. congruence.
  - transitivity (fs_mem s2); [by rewrite Es3|congruence].
Qed.

Lemma dir_remove_correct_witness :
  exists (s : fs cache) dir s', dir_remove (Some dir) [97; 98] s = Ok (true, s').
Proof.
  destruct demo_file as (s & v & F & dir & p & d & i & x & Hmt & Hda & Hsec & Hd & Hm & Hch & HxF & Hx0 & Hx1 & Ho & Hheap).
  destruct (dir_remove_correct s v F dir p d i [97; 98]) as (r & s' & v' & E & _ & Hr).
  - exact Hmt.
  - exact Hda.
  - rewrite Hsec. exact Hd.
  - repeat constructor; lia.
  - rewrite Hsec, Hm. intros y Hy. injection Hy as <-. do 4 (split; [assumption|]).
    split; [|assumption]. rewrite Hch. discriminate.
  - unfold remove_ends in Hr. rewrite Hsec, Hm, Hch, Hheap in Hr. destruct Hr as [-> _]. exists s, dir, s'. exact E.
Defined.
