(* ===== verification/LoadFile.v ===== *)
(** Regular files of a mounted file system are executables in the sense of
    the loader: reading one at its position gives its bytes. *)
From S2P Require Import Prelude Words CString Bitmap Monitor Pipe Block Cache Fs Inode InodeTree InodeLookup InodeIO FsInv Release InodeOps Directory.
From S2P Require Import File Filesys Format FsProps InodeProps Palloc Pagedir PagedirSpec PagedirProps Load LoadSpec LoadImage LoadProps.
From stdpp Require Import options.

#[local] Open Scope Z_scope.

Module LoadFile.

Section file.
Context {C : Type} {HB : BufferCache C} {HC : BufferCacheSpec C}.

#[export] Instance open_file (p : nat) : Load.Executable (fs C) := {|
  Load.file_length := File.file_length (Some p);
  Load.file_seek := File.file_seek (Some p);
  Load.file_read := File.file_read (Some p);
|}.

(** The regular file at [p] of a mounted file system has the contents [l]
    and is at the position [pos]. *)
Definition open_contains (p : nat) (s : fs C) (l : list Z) (pos : Z) : Prop := exists v F f i ino, mounted s v F /\
  files s !! p = Some f /\ fl_type f = REG /\ fl_inode f = Some i /\ inodes s !! i = Some ino /\
  fl_pos f = pos /\ 0 <= pos < 2 ^ 31 /\ l = file_bytes v (i_sector ino) 0 (InodeTree.file_length v (i_sector ino)).

(** Moving the position of a file. *)
Lemma mounted_seek s v F p f pos : mounted s v F -> files s !! p = Some f -> mounted (set_files (<[p := File.set_pos pos f]> (files s)) s) v F.
Proof using Type.
  intros [M1 M2 M3 M4 M5 M6 (g & q & fl & i & Hmap) M8] Hf. split; try done.
  { destruct M2 as [T1 T2 T3 T4 T5]. by split. }
  destruct Hmap as (K1 & K2 & K3 & K4 & K5 & K6 & K7 & K8 & K9 & K10 & K11). destruct (decide (g = p)) as [->|Hne].
  - assert (fl = f) as -> by congruence. exists p, q, (File.set_pos pos f), i. split; [done|]. split; [apply lookup_insert_eq|]. by split_and!.
  - exists g, q, fl, i. split; [done|]. split; [by cbn; rewrite lookup_insert_ne|]. by split_and!.
Qed.

Lemma file_part v ino pos n len : 0 <= pos -> 0 <= n -> 0 <= len ->
  file_bytes v ino pos (Z.min n (len - pos)) = take (Z.to_nat n) (drop (Z.to_nat pos) (file_bytes v ino 0 len)).
Proof using Type.
  intros Hp Hn Hl. assert (E1 := length_file_bytes v ino pos (Z.min n (len - pos))). assert (E2 := length_file_bytes v ino 0 len).
  eapply list_eq_same_length; [reflexivity|rewrite length_take, length_drop; lia|]. intros k x y Hk Hx Hy. rewrite length_take, length_drop in Hk.
  rewrite lookup_take_lt, lookup_drop in Hy by lia. rewrite lookup_file_bytes in Hx by lia. rewrite lookup_file_bytes in Hy by lia.
  assert (Hxy : x = y); [|done]. injection Hx as <-. injection Hy as <-. f_equal. lia.
Qed.

Lemma open_range p s l pos : open_contains p s l pos -> 0 <= pos /\ Z.of_nat (length l) < 2 ^ 31 /\ Forall (fun b => 0 <= b < 2 ^ 8) l.
Proof using Type.
  intros (v & F & f & i & ino & Hmt & _ & _ & _ & Hi & _ & Hpos & ->). destruct (mounted_sector s v F i ino Hmt Hi) as (_ & _ & Hlen). split; [lia|].
  rewrite length_file_bytes. assert (Hmax : 512 * Z.of_nat MAX_SECTORS < 2 ^ 31) by done. split; [lia|]. eapply file_bytes_range, (dk_view _ _ _ (mt_disk _ _ _ Hmt)).
Qed.

Lemma open_length p s l pos : open_contains p s l pos ->
  wp (File.file_length (Some p)) (fun n s' => n = Z.of_nat (length l) /\ open_contains p s' l pos) s.
Proof using Type.
  intros (v & F & f & i & ino & Hmt & Hf & Ht & Hfi & Hi & Hp & Hpos & ->). destruct (mounted_sector s v F i ino Hmt Hi) as (HF & Htree & Hlen).
  unfold File.file_length. wp_steps; [done|]. eapply wp_deref; [done|]. wp_steps. eapply wp_get_file; [done|]. wp_steps. eapply wp_deref; [done|].
  apply wp_upd_eta. eapply (inode_length_spec s (i_sector ino) ∅ i ino Hi eq_refl (free_map s) (free_map s) v (dk_view _ _ _ (mt_disk _ _ _ Hmt)) Htree (pins_ok_empty _ _ _)); [apply Hmt|].
  intros c' Hrep'. split; [rewrite length_file_bytes; lia|]. exists v, F, f, i, ino. split_and!; try done; try lia.
  apply (mounted_upd s v F); [done|done|apply Hmt|done|done|]. by intros l Hl.
Qed.

Lemma open_seek p s l pos new_pos : open_contains p s l pos -> 0 <= new_pos < 2 ^ 31 ->
  wp (File.file_seek (Some p) new_pos) (fun _ s' => open_contains p s' l new_pos) s.
Proof using Type.
  intros (v & F & f & i & ino & Hmt & Hf & Ht & Hfi & Hi & Hp & Hpos & ->) Hn. unfold File.file_seek. wp_steps; [done|apply Z.leb_le; lia|].
  eapply wp_deref; [done|]. wp_steps. eapply wp_get_file; [done|]. unfold put_file. wp_steps. exists v, F, (File.set_pos new_pos f), i, ino.
  split_and!; try done; try lia; [by apply mounted_seek|apply lookup_insert_eq].
Qed.

Lemma open_read p s l pos n : open_contains p s l pos -> 0 <= n < 2 ^ 31 ->
  wp (File.file_read (Some p) n) (fun '(c, b) s' => b = take (Z.to_nat n) (drop (Z.to_nat pos) l) /\ c = Z.of_nat (length b) /\
    open_contains p s' l (pos + c)) s.
Proof using Type.
  intros Ho Hn. pose proof Ho as (v & F & f & i & ino & Hmt & Hf & Ht & Hfi & Hi & Hp & Hpos & El). destruct (open_range _ _ _ _ Ho) as (_ & Hlen & _).
  destruct (mounted_sector s v F i ino Hmt Hi) as (_ & _ & Hl0). unfold File.file_read, File.read_error. wp_steps. eapply wp_get_file; [done|]. rewrite !Ht. wp_steps.
  rewrite !decide_False by done. wp_steps. change (0 =? 0) with true. cbn [negb]. wp_steps. eapply wp_deref; [done|]. wp_steps. eapply wp_get_file; [done|]. rewrite Ht.
  wp_steps. eapply wp_deref; [done|]. wp_steps. destruct (inode_read_mounted s v F i ino n (fl_pos f) Hmt Hi ltac:(lia)) as (s1 & E & Hmt1 & Es1).
  apply wp_ok. eexists _, _. split; [exact E|]. set (b := file_bytes _ _ _ _). unfold put_file. wp_steps.
  assert (Eb : b = take (Z.to_nat n) (drop (Z.to_nat pos) l)) by (subst b l; rewrite Hp; apply file_part; lia).
  assert (Hb : pos + Z.of_nat (length b) <= Z.max pos (Z.of_nat (length l))) by (rewrite Eb, length_take, length_drop; lia).
  split; [done|]. split; [done|]. exists v, F, (File.set_pos (pos + Z.of_nat (length b)) f), i, ino. rewrite Hp, s32_small by lia.
  split_and!; try done; try lia; [|apply lookup_insert_eq|by rewrite Es1]. apply mounted_seek; [done|]. by rewrite Es1.
Qed.

(** Files implement the contract of executables. *)
#[export] Instance open_file_spec (p : nat) : @Load.ExecutableSpec (fs C) (open_file p).
Proof using HC.
  exact (Load.Build_ExecutableSpec _ (open_file p) (open_contains p) (open_range p) (open_length p) (open_seek p) (open_read p)).
Defined.

(** Loading a program from a regular file of a mounted file system ends as
    the bytes of the file say. *)
Lemma load_opened init_page_dir init_ram_pages self (p : nat) (fs0 : fs C) s l D : PagedirProps.machine s D self ->
  D !! init_page_dir = Some ∅ -> LoadSpec.ram init_ram_pages (Pagedir.vm_pages s) -> open_contains p fs0 l 0 ->
  exists pd r st, Load.load init_page_dir init_ram_pages (H := open_file p) self true (fs0, s) = Ok (pd, r, st) /\
    LoadProps.load_ends init_ram_pages self (HS := open_file_spec p) fs0 s l D pd r st.
Proof using Type.
  intros Hm HD Hram Hf. destruct (proj1 (wp_ok _ _ _) (LoadProps.load_spec init_page_dir init_ram_pages self (HS := open_file_spec p) fs0 s l D Hm HD Hram Hf)) as ([pd r] & st & E & H).
  by exists pd, r, st.
Qed.
End file.
End LoadFile.
